(* ===== verification/_CoqProject ===== *)
-Q . S2P
Prelude.v
Text.v
SliceGeometry.v
IavArena.v
IavArenaProps.v
SliceArena.v
IavWin.v
IavWinProps.v
IavAperture.v
IavApertureProps.v
LowLease.v
LowLeaseProps.v
MemPool.v
MemPoolProps.v
Fips180.v
Sha256.v
Sha256Props.v
Acl.v
AclProps.v
CameraPolicy.v
CameraPolicyProps.v
SliceLease.v
SliceLeaseProps.v
LeaseApertureProps.v
LowAdmin.v
LowAdminProps.v
DmaLease.v
DmaLeaseProps.v
DmaBroker.v
DmaBrokerProps.v
ByteBuf.v
IavJpeg.v
IavJpegProps.v
IavTable.v
IavTableProps.v
IavPolicy.v
IavPolicyProps.v
IavSession.v
IavSessionProps.v
IavWire.v
IavBroker.v
IavBrokerOps.v
IavBrokerProps.v
IavArenaCallProps.v
IavBrokerSample.v
IavReplyProps.v
Cavalry.v
CavalryRpc.v
CavalryProps.v
CavalryInv.v
CavalryRunProps.v
CavalrySample.v
HostWindow.v
HostWindowProps.v
HostTheorems.v
Framing.v
FramingProps.v
HostConn.v
HostConnProps.v
GuestProbe.v
GuestProbeProps.v
Server.v
ServerProps.v
ServerTheorems.v
ServerSample.v
BrokerServer.v
BrokerServerProps.v
BrokerServerSample.v
