(* ===== verification/Prelude.v ===== *)
(** * A verification development for amba-virt

    amba-virt lets several guests share the devices and the memory of one Ambarella SoC. The host kernel owns
    the memory and the DMA engine (drivers/amba_virt), a server in the control domain decides who gets what
    (drivers/amba_virt/tools), and guest drivers use what they were given (guest-os). This development is about
    the code that keeps the guests apart: every definition below is translated from the C source under src/,
    function by function and with the same names, and the theorems are about these definitions.

    ** The parts and their files

    - Prelude: machine integers at their width, errno values, the list searches that stand for the C loops
      over tables, ranges, the tactics and the hint databases the other files use. Text: the characters, the
      number formats of printf and the scanning functions the text protocols and the stores use.
    - SliceGeometry: the split of the shared window into slices (amba_virt_slice.c, [Module Geometry]) and the
      eight fixed low-memory slices with their claim and range check (iav_low_slice.c, [Module LowSlice]); the
      theorems are in [Module SliceProps].
    - IavArena, IavArenaProps: the allocator a guest driver runs inside its private slice
      (guest-os/linux/amba-iav/iav_arena.c).
    - SliceArena: jobs in flight, quarantine, scrub and header of a private slice (tools/virt_slice_arena.c)
      and the table of which guest id holds which slice (tools/iav_slice_rpc.c, [Module SliceRpc]).
    - IavWin, IavWinProps: the window and aperture nodes of the host kernel module (amba_virt_iav_win.c).
    - IavAperture, IavApertureProps: the composition of a guest's aperture and the table of attached apertures
      in the server (tools/virt_iav_aperture.c), over the nodes of IavWin through the class [NodeDevice].
    - LowLease, LowLeaseProps: the leases of the private slices by UUID, with their store, the scrubber thread
      and the restart of the server (tools/virt_low_lease.c). It calls both modules of SliceArena. LowAdmin,
      LowAdminProps: its store as bytes and its admin requests, paired with the leases of the shared window.
    - MemPool, MemPoolProps: the tenants' quotas, negotiated device partitions and extents in their BAR
      (tools/virt_mem_pool.c).
    - Sha256: SHA-256, HMAC and HKDF (tools/hmac_sha256.c). Fips180: the hash of FIPS 180-4, written from the
      standard and from nothing of Sha256: the word functions bit by bit, the constants as roots of primes.
      Sha256Props: the code against it, and against RFC 2104 and RFC 5869 over it.
    - Acl, AclProps: the rules that give a guest its capabilities, and the policy file (tools/virt_acl.c).
    - CameraPolicy, CameraPolicyProps: who gets the camera and which ticket is the primary, with the two stores
      and the admin requests (tools/virt_camera_policy.c).
    - SliceLease, SliceLeaseProps: the leases of the shared window (tools/virt_slice_lease.c) and the choice of
      the primary guest by the broker server (tools/iav_broker_server.c). LeaseApertureProps: the leases, the
      roles and the apertures together.
    - DmaLease, DmaLeaseProps: the reference monitor of the host kernel that hands DMA requests of a guest to
      the engine (amba_virt_dma.c).
    - DmaBroker, DmaBrokerProps: the server's side of DMA (tools/virt_dma_broker.c). It reaches the kernel
      through device nodes: the class [LeaseDevice] states what it relies on, DmaBrokerProps gives the instance
      made of the operations of DmaLease, and the broker uses Acl for the capability check and Sha256 for keys.
    - The IAV broker, which serves a guest's virtual /dev/iav from the real driver. IavJpeg, IavJpegProps: the
      parser that decides which JPEG may reach the decoder. IavTable, IavTableProps: the table of the ioctls
      and the allow-lists. IavPolicy, IavPolicyProps: every check of an argument (tools/iav_policy.c).
      IavSession, IavSessionProps: the broker's state, its guests, sessions and handles, one definition per
      critical section (tools/iav_broker.c, first half). IavWire: the messages as bytes
      (include/uapi/amba_virt_iav.h). IavBroker: the programs of a request and the arena translation;
      IavBrokerOps: the nine operations and the entry point. IavBrokerProps, IavArenaCallProps, IavReplyProps:
      their theorems, proved with the rules of [Module BrokerLogic]; IavBrokerSample: a concrete server they
      are applied to. ByteBuf: buffers of bytes and the reads of them, which may be outside.
    - The proxy of the vector processor (tools/cavalry_proxy.c). Cavalry: tenants, buffers, handles and the
      release of registered command graphs; CavalryRpc: the descriptors of the graphs as bytes, the three ways
      to run them, the requests and the drain. CavalryProps: a request leaves the other guests alone;
      CavalryInv: the allocator, the state machine of requests and tenants and its invariant, the drain;
      CavalryRunProps: what a command may reach; CavalrySample: a concrete machine.
    - The host kernel module. HostWindow: the window, its slices with their nodes, claim pages and bindings
      (amba_virt_nohyper.c) and the mappings, DMA buffers and copies in it (amba_virt_core.c);
      HostWindowProps, HostTheorems: their state machine, its invariant and what a node gives access to.
      Framing, FramingProps: the frames on a vsock stream and the calls of a guest over them. HostConn,
      HostConnProps: the table of connections, the workers, senders, the accepting thread and the queue, one
      definition per hold of the lock (amba_virt_core.c).
    - GuestProbe, GuestProbeProps: the PCI driver of a guest with its two windows and the claim of its slice
      (guest-os/linux/amba-virt/amba_virt_hvm.c), against the claim page HostWindow writes.
    - Server: the main program (tools/amba-virt-server.c), which composes HostWindow, SliceGeometry, Cavalry,
      MemPool, Acl, DmaBroker and SliceLease: the geometry of the window, the restored bindings and the
      handlers of the messages by which guests claim slices and use memory, copies, DMA and the processor.
      ServerProps, ServerTheorems: the state machine of server and module together; ServerSample: a concrete
      machine they are applied to.
    - BrokerServer: the IAV broker inside the server (tools/iav_broker_server.c): the windows and apertures from
      the partitions of the driver, the queue and its workers, the liveness thread and who is the primary guest.
      BrokerServerProps: the queue against a first-in first-out list, the windows against IavWin, the primary
      guest against HostWindow and SliceLease; BrokerServerSample: a run.

    ** How the code is represented

    The global tables of a C file are one record, each function a Rocq function from the state to its result
    and the new state, an early return a branch, a negative errno a negative number. Fixed arrays are lists of
    that length; an out-of-range index is written out where the source could meet one. A [uint32_t] or
    [uint64_t] is a [Z], wrapped with [u32] or [u64] where the source computes. A mutex makes the function that
    holds it one step; where a thread sleeps or works without the lock the function is cut there (DmaLease:
    submit, wake-up, finish; drain and resume; LowLease: reserve and wake, check, run and finish of a scrub),
    and the step relations [dma_step], [sys_step], [arena_step] and [sess_step] interleave the pieces in any
    order. What the code asks of the system (the clock, whether an open, a write or a mapping succeeds, random
    bytes, the contents of a file, the answer of the DMA engine) is an argument.

    A request of the IAV broker is a program of the monad [M] of IavBroker: it runs critical sections of the
    broker's lock ([locked]), asks the environment numbered questions (the driver, the roles, the leases, the
    clock), emits what it does to the driver ([EvIoctl], [EvQuery], [EvPoll], ...) and may end early with a reply;
    [EvAcquire] notes the session it took, so that a theorem can say on whose session the driver was called.
    Before each critical section the other threads may change the broker ([ev_other]); the theorems assume of
    them what [rely] says, which [sessions_consistent] and [held_session_stable] show of the broker itself. The
    numbers and sizes of the vendor's headers are the class [IavAbi], the layout of its structures the class
    [ArgLayout] with the laws [LayoutOk]; both have an instance.

    ** What the theorems show

    - Invariants over every reachable state: [dma_reachable_ok], [low_reachable_ok], [pool_reachable_ok],
      [arena_reachable_ok], [aux_reachable_ok], [leases_consistent], [one_primary], [sessions_consistent],
      [held_session_stable], [aperture_of_primary_lease], [policy_load_robust], [cav_reachable_ok], [host_reachable_ok], [sockets_counted].
    - Isolation: [dma_slices_isolated], [low_slice_isolation], [fresh_lease_zeroed], [foreign_job_excluded],
      [pool_tenant_frame], [mapped_block_stays], [submit_confined], [request_uses_binding],
      [authenticated_copies_inside], [aux_mapping_confined], [low_slice_paired], [one_primary_index],
      [driver_calls_authorised], [arena_calls_confined], [arena_jobs_counted], [stale_windows_stop],
      [map_grants], [img_scale_confined], [gdma_copy_confined], [overlay_confined], [blur_confined],
      [pinning_keeps_decoders], [policy_memory_checked], [rpc_frames_others], [run_dags_confined],
      [registered_run_confined], [drained_stays_quiet], [tenants_apart], [gdma_stays_in_slice], [node_confined],
      [one_primary_guest].
    - Exact behaviour of operations, errors included: [dispatch_admits_iff], [set_device_bounds_grants],
      [alloc_extent_grants], [validate_range_iff], [arena_alloc_iff], [release_file_exact],
      [geometry_tiles_window], [geometry_accepts_iff], [compare_list_iff], [reserve_exact], [compose_exact],
      [attach_reports], [aux_mmap_exact], [win_mmap_exact], [camera_verdict_exact], [role_store_accepts],
      [claim_all_or_nothing], [windows_match_nodes], [seq_answer_matches], [probe_failure_releases], [gdma_high_slice], [decode_jpeg_iff], [slice_admit_iff], [hello_grants], [handle_names_session], [policy_profiles_exact],
      [responses_wellformed], [cav_alloc_exact].
    - Agreement with a reference: [sha256_streaming_correct], [hmac_sha256_correct], [hkdf_expand_correct],
      [acl_refines_map], [set_role_exact], [aperture_view_true], [composition_accepted], [requests_answered_once],
      [jpeg_admit_iff] (a grammar of headers), [policy_lookup_exact] (linear search).
    - Round trips and histories: [policy_roundtrip], [alloc_free_roundtrip], [low_slice_claim_release],
      [grant_survives], [role_restart], [set_camera_exact], [low_store_reads_back], [misc_info_roundtrip],
      [stale_epoch_refused], [replay_refused], [frames_roundtrip], [claim_page_binds].
    - Progress and bounds: [dispatch_completes], [scrub_pass_frees], [restarts_never_fill], [rate_limit_bound],
      [jpeg_parser_total], [run_dags_submitted], [run_dags_in_bounds], [registered_run_in_bounds],
      [queue_bounded].
    - Limits of the code, each a theorem about a concrete execution or a class of them:
      [hkdf_expand_255_diverges], [fast_poll_starves], [release_leaves_dma_in_flight],
      [quarantine_clear_without_wipe], [drain_steals_completion], [unmapped_slice_is_dispatched],
      [bounds_overlap_live_extent], [bounds_size_wraps], [authenticated_copy_wraps], [idle_guest_loses_tokens],
      [channel_access_exact], [submit_end_clears_successor], [policy_name_cid_lost],
      [epoch_reused_after_restart], [rebind_persist_failure], [dash_ticket_lost], [last_epoch_forgotten],
      [geometry_leaves_aperture], [stale_mapping_attached], [bar_shrinks_below_extent], [extent_wraps_bar], [open_race], [hello_evicted], [odd_output_row_outside],
      [primary_list_not_plain], [run_dags_overread], [register_overread], [raw_port_reaches_driver],
      [dvi_check_wraps], [preload_overrun], [same_offset_free_refused], [drain_misses_camera],
      [copy_message_runs_pitch], [unclaimed_submit_reaches_others], [path_b_cap_unchecked],
      [free_unknown_succeeds], [file_resizes_window], [dma32_first_blocks_bulk], [timeout_splits_frame],
      [notify_reads_past], [adjacent_partitions_refused], [two_primary_guests].

    ** Fuel, bounds and assumptions

    The searches of MemPool carry fuel: one turn more than the table has slots, since each turn that goes on
    moves past one partition or extent; [set_device_bounds_grants] and [alloc_extent_grants] show that this is enough
    for every well-formed tenant. [expand_loop] of Sha256 carries fuel because it does diverge for 255 blocks;
    255 turns are enough for all smaller outputs. The id search of IavArena is iterated as often as the source
    does, the release loop once per block. The JPEG parser has one turn per byte, the lookup one turn more than
    the table has rows: [jpeg_parser_total] and [policy_lookup_exact] show both always end. The arena theorems
    take slices below 2^40 bytes. In LowLeaseProps the clock stays below 2^63 ms, fewer than 2^32 jobs are in
    flight at once, requests of one owner do not overlap (one admin thread serves them) and a job may write
    until the quarantine time after its end has passed, which is what the quarantine time is for; the slices of
    the model have any whole number of words with room for the header. The test of a scrub under the lock of the
    leases and the one under the lock of the jobs are one step here, and so are the count and the queue in a turn of
    a worker of HostConn, which the source does under two holds of a lock.
    [scrub_pass_frees] frees a slice that can be mapped and reads back as written; [pool_reachable_ok] takes runs
    in which BARs stay below 2 GiB and do not shrink while registered ([bars_kept]); [frames_roundtrip] streams in
    which no receive times out inside a frame ([timeout_splits_frame]); [reserve_exact] promises a fresh epoch as
    long as no store with a lease of the last epoch was read ([last_epoch_forgotten]); [arena_calls_confined]
    excepts one chroma row of a 4:2:0 output of odd height ([odd_output_row_outside]); [drained_stays_quiet] excepts
    the runs of the camera path, which does not ask for the drain ([drain_misses_camera]); and the epochs of
    [aperture_of_primary_lease] name a lease only until a restart with an empty store ([stale_mapping_attached]).
    [dma_slices_isolated] takes slices that the kernel mapped apart, [stale_epoch_refused] fewer than 2^64 steps. [sessions_consistent] takes runs in
    which no request names a slot that is still being opened; [open_race] shows why. A critical section of the
    IAV broker reads the clock once. The rate limit of that broker is computed in IEEE 754 binary64. The search
    of the vector processor's proxy has one turn more than its table has buffers, which [cav_alloc_exact] shows
    to be enough for pools below 2 GiB; its requests are served one after the other by the main loop, what the
    server does to tenants happens between the steps of a request ([work_step]), the bounds the server sets are
    page aligned and below 2 GiB, and fewer than 2^32 - 1 handles and graphs are ever given out. The state machines of the host module
    and of the server take a module without a backing file (with one, its size replaces that of the window:
    [file_resizes_window]) and one to eight slices; the queue of the IAV broker is filled and stopped by one
    thread, the main loop; a stream and the answers to a send are lists, and a function
    that waits for more than the list holds gives [None].

    ** What is not modelled, and the plan

    Sockets, logging, the registration of nodes with the kernel and the vendor drivers are not modelled; nor is
    the protobuf decoding of the slice RPC, the mutex that orders the calls on one descriptor of the IAV broker,
    the start-up, TCP and frame-tap parts of the server, and
    the messages it only hands to a component that is modelled. Left, in the order of what they would add: the
    guest's side of the IAV protocol (guest-os/linux/amba-iav/iav_virt.c),
    the configuration of the camera pipeline (tools/virt_camera_conf.c), the serial ports (amba_virt_uart.c). *)

From Stdlib Require Import ZArith Lia Bool.
From stdpp Require Import base list numbers sets.

#[global] Open Scope Z_scope.

(** ** Machine integers *)

(** [uint32_t], [uint64_t] and [uint8_t] values are non-negative integers kept below their width;
    every C operation that may leave the width is wrapped where the source performs it. *)
Definition u8 (z : Z) : Z := z mod 2 ^ 8.
Definition u16 (z : Z) : Z := z mod 2 ^ 16.
Definition u32 (z : Z) : Z := z mod 2 ^ 32.
Definition u64 (z : Z) : Z := z mod 2 ^ 64.

Definition is_u8 (z : Z) : Prop := 0 <= z < 2 ^ 8.
Definition is_u32 (z : Z) : Prop := 0 <= z < 2 ^ 32.
Definition is_u64 (z : Z) : Prop := 0 <= z < 2 ^ 64.

(** Bitwise complement of a 32-bit and a 64-bit value. *)
Definition not32 (z : Z) : Z := 2 ^ 32 - 1 - z.
Definition not64 (z : Z) : Z := 2 ^ 64 - 1 - z.

(** [(v + a - 1) & ~(a - 1)] on [uint32_t]. *)
Definition align_up32 (v a : Z) : Z := Z.land (u32 (v + a - 1)) (not32 (a - 1)).

(** [v & ~(a - 1)] on [uint32_t]. *)
Definition align_down32 (v a : Z) : Z := Z.land v (not32 (a - 1)).

(** [(a & (a - 1)) == 0], the power-of-two test of the allocators. *)
Definition pow2_test (a : Z) : bool := Z.land a (a - 1) =? 0.

(** ** errno values (Linux) *)

Definition EPERM : Z := 1.
Definition ENOENT : Z := 2.
Definition EIO : Z := 5.
Definition E2BIG : Z := 7.
Definition ENOMEM : Z := 12.
Definition EACCES : Z := 13.
Definition EFAULT : Z := 14.
Definition EBUSY : Z := 16.
Definition EEXIST : Z := 17.
Definition ENODEV : Z := 19.
Definition EINVAL : Z := 22.
Definition ENOTTY : Z := 25.
Definition EFBIG : Z := 27.
Definition ENOSPC : Z := 28.
Definition ERANGE : Z := 34.
Definition ENODATA : Z := 61.
Definition ETIMEDOUT : Z := 110.
Definition EALREADY : Z := 114.
Definition EINPROGRESS : Z := 115.
Definition ESTALE : Z := 116.
Definition EDQUOT : Z := 122.

(** ** Bounded loops *)

(** [iter_until n step s] runs [step] at most [n] times from [s] and stops at the first [inr]:
    the shape of [for (tries = 0; tries < N; tries++) if (...) return ...]. The bound is binary, so a
    loop with a large bound that stops early evaluates quickly. *)
Fixpoint iter_until {St R : Type} (n : positive) (step : St -> St + R) (s : St) : St + R :=
  match n with
  | xH => step s
  | xO p =>
      match iter_until p step s with
      | inl s' => iter_until p step s'
      | inr r => inr r
      end
  | xI p =>
      match step s with
      | inl s' =>
          match iter_until p step s' with
          | inl s'' => iter_until p step s''
          | inr r => inr r
          end
      | inr r => inr r
      end
  end.

(** The same loop with a unary bound, for proofs. *)
Fixpoint iter_nat {St R : Type} (n : nat) (step : St -> St + R) (s : St) : St + R :=
  match n with
  | O => inl s
  | S k =>
      match step s with
      | inl s' => iter_nat k step s'
      | inr r => inr r
      end
  end.

(** ** Arrays scanned for the first matching slot *)

(** The index of the first element that satisfies [f]: [for (i = 0; i < N; i++) if (f(a[i])) break;] *)
Fixpoint find_idx {A : Type} (f : A -> bool) (l : list A) : option nat :=
  match l with
  | [] => None
  | x :: l' => if f x then Some O else S <$> find_idx f l'
  end.

(** The same with the index visible to the test. *)
Fixpoint find_idxi_from {A : Type} (k : nat) (f : nat -> A -> bool) (l : list A) : option nat :=
  match l with
  | [] => None
  | x :: l' => if f k x then Some k else find_idxi_from (S k) f l'
  end.

Definition find_idxi {A : Type} (f : nat -> A -> bool) (l : list A) : option nat := find_idxi_from 0 f l.

(** Sum of a measure over an array. *)
Fixpoint sumZ {A : Type} (f : A -> Z) (l : list A) : Z :=
  match l with
  | [] => 0
  | x :: l' => f x + sumZ f l'
  end.

(** How many elements have a measure above [c]: the measure of the search loops. *)
Fixpoint count_above {A : Type} (f : A -> Z) (c : Z) (l : list A) : nat :=
  match l with
  | [] => O
  | x :: l' => if c <? f x then S (count_above f c l') else count_above f c l'
  end.

(** ** Half-open byte ranges *)

(** [[s1, e1)] and [[s2, e2)] share no byte. *)
Definition disjoint_range (s1 e1 s2 e2 : Z) : Prop := e1 <= s2 \/ e2 <= s1.

(** * Shared lemmas *)

Create HintDb amba.
Create Rewrite HintDb u32.

(** Case analysis on the boolean comparisons of the goal or of a hypothesis, as arithmetic facts. *)
Ltac cmp_case b :=
  match b with
  | Z.ltb ?x ?y => destruct (Z.ltb_spec x y)
  | Z.leb ?x ?y => destruct (Z.leb_spec x y)
  | Z.eqb ?x ?y => destruct (Z.eqb_spec x y)
  | Z.gtb ?x ?y => rewrite (Z.gtb_ltb x y) in *; destruct (Z.ltb_spec y x)
  | Z.geb ?x ?y => rewrite (Z.geb_leb x y) in *; destruct (Z.leb_spec y x)
  | _ => let E := fresh "E" in destruct b eqn:E
  end.

Ltac if_case :=
  match goal with
  | |- context [if ?b then _ else _] => cmp_case b
  | H : context [if ?b then _ else _] |- _ => cmp_case b
  end.

(** Boolean conjunctions, disjunctions and comparisons in hypotheses become propositions. *)
Ltac bool_hyps :=
  repeat
    match goal with
    | H : andb _ _ = true |- _ => apply andb_prop in H; destruct H
    | H : orb _ _ = false |- _ => apply orb_false_elim in H; destruct H
    | H : negb _ = true |- _ => apply negb_true_iff in H
    | H : negb _ = false |- _ => apply negb_false_iff in H
    | H : Z.ltb _ _ = true |- _ => apply Z.ltb_lt in H
    | H : Z.ltb _ _ = false |- _ => apply Z.ltb_ge in H
    | H : Z.leb _ _ = true |- _ => apply Z.leb_le in H
    | H : Z.leb _ _ = false |- _ => apply Z.leb_gt in H
    | H : Z.eqb _ _ = true |- _ => apply Z.eqb_eq in H
    | H : Z.eqb _ _ = false |- _ => apply Z.eqb_neq in H
    | H : Z.gtb _ _ = _ |- _ => rewrite Z.gtb_ltb in H
    | H : Z.geb _ _ = _ |- _ => rewrite Z.geb_leb in H
    end.

(** Open every existential and conjunction of the context. *)
Ltac open_hyps :=
  repeat
    match goal with
    | H : exists x, _ |- _ => let x' := fresh x in destruct H as [x' H]
    | H : _ /\ _ |- _ => destruct H
    end.

(** ** Machine integers *)

Lemma u32_range z : is_u32 (u32 z).
Proof. apply Z.mod_pos_bound. lia. Qed.

Lemma u64_range z : is_u64 (u64 z).
Proof. apply Z.mod_pos_bound. lia. Qed.

Lemma u8_range z : is_u8 (u8 z).
Proof. apply Z.mod_pos_bound. lia. Qed.

Lemma u32_id z : 0 <= z < 2 ^ 32 -> u32 z = z.
Proof. apply Z.mod_small. Qed.

Lemma u64_id z : 0 <= z < 2 ^ 64 -> u64 z = z.
Proof. apply Z.mod_small. Qed.

Lemma u8_id z : 0 <= z < 2 ^ 8 -> u8 z = z.
Proof. apply Z.mod_small. Qed.

(** Wrapping never increases a non-negative value. *)
Lemma u32_le z : 0 <= z -> u32 z <= z.
Proof. intros; apply Z.mod_le; lia. Qed.

Lemma u64_le z : 0 <= z -> u64 z <= z.
Proof. intros; apply Z.mod_le; lia. Qed.

#[export] Hint Resolve u32_range u64_range u8_range : amba.
#[export] Hint Rewrite u32_id u64_id u8_id using lia : u32.

(** The test [(a & (a - 1)) == 0] accepts exactly the powers of two among positive values. *)
Lemma pow2_test_true a : 0 < a -> pow2_test a = true -> a = 2 ^ Z.log2 a.
Proof.
  unfold pow2_test. intros Ha Ht. apply Z.eqb_eq in Ht.
  destruct (Z.log2_spec a Ha) as [Hlo Hhi].
  destruct (Z.eq_dec a (2 ^ Z.log2 a)) as [|Hne]; [done|].
  assert (Hl : Z.log2 (a - 1) = Z.log2 a) by (apply Z.log2_unique; [apply Z.log2_nonneg|lia]).
  assert (Hb : Z.testbit (Z.land a (a - 1)) (Z.log2 a) = true).
  { rewrite Z.land_spec, Z.bit_log2 by lia.
    rewrite <- Hl at 1. rewrite Z.bit_log2; [done|].
    assert (0 < 2 ^ Z.log2 a) by (apply Z.pow_pos_nonneg; [lia|apply Z.log2_nonneg]). lia. }
  rewrite Ht, Z.bits_0 in Hb. done.
Qed.

Lemma pow2_test_pow k : 0 <= k -> pow2_test (2 ^ k) = true.
Proof.
  intros Hk. unfold pow2_test. apply Z.eqb_eq.
  replace (2 ^ k - 1) with (Z.ones k) by (rewrite Z.ones_equiv; lia).
  rewrite Z.land_ones by done. apply Z.mod_same. apply Z.pow_nonzero; lia.
Qed.

(** A value that passes the test and fits in 32 bits is [2 ^ k] with [k <= 31]. *)
Lemma pow2_test_32 a : 0 < a < 2 ^ 32 -> pow2_test a = true -> exists k, 0 <= k <= 31 /\ a = 2 ^ k.
Proof.
  intros [H0 H32] Ht. exists (Z.log2 a). split; [|by apply pow2_test_true].
  split; [apply Z.log2_nonneg|]. assert (Z.log2 a < 32) by (apply Z.log2_lt_pow2; lia). lia.
Qed.

(** Or-ing in [n] low bits under a shifted value is adding them. *)
Lemma shiftl_lor_add a b n : 0 <= n -> 0 <= b < 2 ^ n -> Z.lor (Z.shiftl a n) b = a * 2 ^ n + b.
Proof.
  intros Hn Hb. assert (Hl : Z.land (Z.shiftl a n) b = 0).
  { apply Z.bits_inj'. intros m Hm. rewrite Z.land_spec, Z.bits_0, Z.shiftl_spec by done.
    destruct (Z.ltb_spec m n); [by rewrite Z.testbit_neg_r by lia|].
    rewrite <- (Z.mod_small b (2 ^ n)), Z.mod_pow2_bits_high by lia. by rewrite andb_false_r. }
  by rewrite <- Z.lxor_lor, <- Z.add_nocarry_lxor, Z.shiftl_mul_pow2 by done.
Qed.

(** Masking a [w]-bit value with [~(2^k - 1)] clears its low [k] bits. *)
Lemma land_not_mask w v k :
  0 <= v < 2 ^ w -> 0 <= k <= w -> Z.land v (2 ^ w - 1 - (2 ^ k - 1)) = v - v mod 2 ^ k.
Proof.
  intros Hv Hk. assert (Hp : 0 < 2 ^ k) by (apply Z.pow_pos_nonneg; lia).
  replace (2 ^ w - 1 - (2 ^ k - 1)) with (Z.shiftl (Z.ones (w - k)) k).
  2:{ rewrite Z.shiftl_mul_pow2, Z.ones_equiv, <- Z.sub_1_r, Z.mul_sub_distr_r by lia.
      rewrite <- Z.pow_add_r by lia. replace (w - k + k) with w by lia. lia. }
  assert (E : Z.land v (Z.shiftl (Z.ones (w - k)) k)
              = Z.shiftl (Z.land (Z.shiftr v k) (Z.ones (w - k))) k).
  { apply Z.bits_inj'. intros i Hi. rewrite Z.land_spec, !Z.shiftl_spec, Z.land_spec by lia.
    destruct (Z.lt_ge_cases i k) as [Hlt|Hge].
    - rewrite !(Z.testbit_neg_r _ (i - k)) by lia. by rewrite !andb_false_r.
    - rewrite Z.shiftr_spec by lia. by replace (i - k + k) with i by lia. }
  rewrite E, Z.land_ones, Z.shiftr_div_pow2, Z.shiftl_mul_pow2 by lia.
  rewrite Z.mod_small.
  - pose proof (Z.div_mod v (2 ^ k)). lia.
  - split; [apply Z.div_pos; lia|]. apply Z.div_lt_upper_bound; [lia|].
    rewrite <- Z.pow_add_r by lia. replace (k + (w - k)) with w by lia. lia.
Qed.

Lemma align_down32_spec v k :
  0 <= v < 2 ^ 32 -> 0 <= k <= 32 -> align_down32 v (2 ^ k) = v - v mod 2 ^ k.
Proof. intros Hv Hk. unfold align_down32, not32. by apply land_not_mask. Qed.

(** Rounding up on [uint32_t] when the sum does not leave the width. *)
Lemma align_up32_spec v k :
  0 <= v -> 0 <= k <= 31 -> v + 2 ^ k - 1 < 2 ^ 32 ->
  align_up32 v (2 ^ k) = 2 ^ k * ((v + 2 ^ k - 1) / 2 ^ k).
Proof.
  intros Hv Hk Hs. assert (0 < 2 ^ k) by (apply Z.pow_pos_nonneg; lia).
  unfold align_up32. rewrite u32_id by lia.
  change (align_down32 (v + 2 ^ k - 1) (2 ^ k) = 2 ^ k * ((v + 2 ^ k - 1) / 2 ^ k)).
  rewrite align_down32_spec by lia.
  pose proof (Z.div_mod (v + 2 ^ k - 1) (2 ^ k)). lia.
Qed.

Lemma align_up32_bounds v k :
  0 <= v -> 0 <= k <= 31 -> v + 2 ^ k - 1 < 2 ^ 32 ->
  v <= align_up32 v (2 ^ k) < v + 2 ^ k /\ align_up32 v (2 ^ k) mod 2 ^ k = 0.
Proof.
  intros Hv Hk Hs. rewrite align_up32_spec by lia.
  assert (Hp : 0 < 2 ^ k) by (apply Z.pow_pos_nonneg; lia).
  pose proof (Z.div_mod (v + 2 ^ k - 1) (2 ^ k) ltac:(lia)).
  pose proof (Z.mod_pos_bound (v + 2 ^ k - 1) (2 ^ k) Hp).
  split; [lia|]. rewrite Z.mul_comm. apply Z.mod_mul. lia.
Qed.

Lemma lxor_cancel_r a b c : Z.lxor a c = Z.lxor b c -> a = b.
Proof.
  intros H. rewrite <- (Z.lxor_0_r a), <- (Z.lxor_0_r b), <- (Z.lxor_nilpotent c), <- !Z.lxor_assoc.
  by rewrite H.
Qed.

(** ** Bounded loops *)

Lemma iter_nat_add {St R} (step : St -> St + R) a b s :
  iter_nat (a + b) step s =
  match iter_nat a step s with inl s' => iter_nat b step s' | inr r => inr r end.
Proof.
  revert s. induction a as [|a IH]; intros s; simpl; [done|].
  destruct (step s); [apply IH|done].
Qed.

Lemma iter_until_nat {St R} n (step : St -> St + R) s :
  iter_until n step s = iter_nat (Pos.to_nat n) step s.
Proof.
  revert s. induction n as [p IH|p IH|]; intros s; cbn [iter_until].
  - rewrite Pos2Nat.inj_xI. cbn [iter_nat]. destruct (step s) as [s'|r]; [|done].
    replace (2 * Pos.to_nat p)%nat with (Pos.to_nat p + Pos.to_nat p)%nat by lia.
    rewrite iter_nat_add, IH. destruct (iter_nat _ _ s'); [apply IH|done].
  - rewrite Pos2Nat.inj_xO.
    replace (2 * Pos.to_nat p)%nat with (Pos.to_nat p + Pos.to_nat p)%nat by lia.
    rewrite iter_nat_add, IH. destruct (iter_nat _ _ s); [apply IH|done].
  - simpl. by destruct (step s).
Qed.

(** ** First matching slot *)

Lemma find_idx_Some {A} (f : A -> bool) l i :
  find_idx f l = Some i ->
  exists x, l !! i = Some x /\ f x = true /\ forall j y, (j < i)%nat -> l !! j = Some y -> f y = false.
Proof.
  revert i. induction l as [|a l IH]; intros i; simpl; [done|].
  destruct (f a) eqn:E.
  - intros [= <-]. exists a. split_and!; [done..|]. intros j y Hj. lia.
  - intros (k & Hk & ->)%fmap_Some. destruct (IH k Hk) as (x & Hx & Hf & Hm).
    exists x. split_and!; [done..|]. intros [|j] y Hj Hl; simplify_eq/=; [done|]. apply (Hm j); [lia|done].
Qed.

Lemma find_idx_None {A} (f : A -> bool) l :
  find_idx f l = None <-> forall i x, l !! i = Some x -> f x = false.
Proof.
  split.
  - intros H. induction l as [|a l IH]; intros i x; [done|]. simpl in H.
    destruct (f a) eqn:E; [done|]. apply fmap_None in H.
    destruct i as [|i]; simpl; [by intros [= <-]|]. apply IH. done.
  - intros H. induction l as [|a l IH]; simpl; [done|].
    rewrite (H O a) by done. rewrite IH; [done|]. intros i x Hi. by apply (H (S i)).
Qed.

Lemma find_idxi_from_Some {A} k (f : nat -> A -> bool) l i :
  find_idxi_from k f l = Some i ->
  exists x, (k <= i)%nat /\ l !! (i - k)%nat = Some x /\ f i x = true.
Proof.
  revert k i. induction l as [|a l IH]; intros k i; simpl; [done|].
  destruct (f k a) eqn:E.
  - intros [= <-]. exists a. replace (k - k)%nat with O by lia. split_and!; [lia|done..].
  - intros H. destruct (IH _ _ H) as (x & Hle & Hx & Hf). exists x.
    replace (i - k)%nat with (S (i - S k)) by lia. split_and!; [lia|done..].
Qed.

Lemma find_idxi_from_None {A} k (f : nat -> A -> bool) l :
  find_idxi_from k f l = None -> forall i x, l !! i = Some x -> f (k + i)%nat x = false.
Proof.
  revert k. induction l as [|a l IH]; intros k; simpl; [done|].
  destruct (f k a) eqn:E; [done|]. intros H [|i] x Hi; simplify_eq/=.
  - by rewrite Nat.add_0_r.
  - rewrite <- Nat.add_succ_comm. by apply IH.
Qed.

Lemma find_idxi_Some {A} (f : nat -> A -> bool) l i :
  find_idxi f l = Some i -> exists x, l !! i = Some x /\ f i x = true.
Proof.
  intros (x & _ & Hx & Hf)%find_idxi_from_Some. exists x. by rewrite Nat.sub_0_r in Hx.
Qed.

Lemma find_idxi_None {A} (f : nat -> A -> bool) l :
  find_idxi f l = None -> forall i x, l !! i = Some x -> f i x = false.
Proof. intros H i x Hi. by apply (find_idxi_from_None 0 f l H). Qed.

(** ** Sums over arrays *)

Lemma sumZ_app {A} (f : A -> Z) l1 l2 : sumZ f (l1 ++ l2) = sumZ f l1 + sumZ f l2.
Proof. induction l1 as [|a l1 IH]; simpl; [done|]. rewrite IH. lia. Qed.

Lemma sumZ_nonneg {A} (f : A -> Z) l : (forall x, x ∈ l -> 0 <= f x) -> 0 <= sumZ f l.
Proof.
  induction l as [|a l IH]; intros H; simpl; [lia|].
  assert (0 <= f a) by (apply H; set_solver). assert (0 <= sumZ f l) by (apply IH; set_solver). lia.
Qed.

Lemma sumZ_insert {A} (f : A -> Z) l i x y :
  l !! i = Some y -> sumZ f (<[i:=x]> l) = sumZ f l - f y + f x.
Proof.
  revert i. induction l as [|a l IH]; intros [|i] H; simplify_eq/=; [lia|].
  rewrite (IH i) by done. lia.
Qed.

Lemma sumZ_ext {A} (f g : A -> Z) l : (forall x, x ∈ l -> f x = g x) -> sumZ f l = sumZ g l.
Proof.
  induction l as [|a l IH]; intros H; simpl; [done|].
  rewrite (H a), IH; [done|set_solver..].
Qed.

Lemma sumZ_map {A B} (f : B -> Z) (g : A -> B) l : sumZ f (map g l) = sumZ (fun x => f (g x)) l.
Proof. induction l as [|a l IH]; simpl; [done|]. by rewrite IH. Qed.

Lemma sumZ_lookup_le {A} (f : A -> Z) l i x :
  (forall y, y ∈ l -> 0 <= f y) -> l !! i = Some x -> f x <= sumZ f l.
Proof.
  revert i. induction l as [|a l IH]; intros [|i] Hn H; simplify_eq/=.
  - assert (0 <= sumZ f l) by (apply sumZ_nonneg; set_solver). lia.
  - assert (0 <= f a) by (apply Hn; set_solver). assert (f x <= sumZ f l) by (eapply IH; [set_solver|done]). lia.
Qed.

Lemma count_above_length {A} (f : A -> Z) c l : (count_above f c l <= length l)%nat.
Proof. induction l as [|a l IH]; simpl; [lia|]. destruct (c <? f a); lia. Qed.

Lemma count_above_mono {A} (f : A -> Z) c c' l : c <= c' -> (count_above f c' l <= count_above f c l)%nat.
Proof.
  intros Hc. induction l as [|a l IH]; simpl; [lia|].
  destruct (Z.ltb_spec c' (f a)), (Z.ltb_spec c (f a)); lia.
Qed.

(** Moving the bound past an element strictly decreases the count. *)
Lemma count_above_lt {A} (f : A -> Z) c c' l k x :
  l !! k = Some x -> c < f x <= c' -> (count_above f c' l < count_above f c l)%nat.
Proof.
  revert k. induction l as [|a l IH]; intros [|k] Hk Hx; simplify_eq/=.
  - pose proof (count_above_mono f c c' l). destruct (Z.ltb_spec c' (f x)), (Z.ltb_spec c (f x)); lia.
  - specialize (IH k Hk Hx). destruct (Z.ltb_spec c' (f a)), (Z.ltb_spec c (f a)); lia.
Qed.

(** ** Ranges *)

Lemma disjoint_range_sym s1 e1 s2 e2 : disjoint_range s1 e1 s2 e2 <-> disjoint_range s2 e2 s1 e1.
Proof. unfold disjoint_range. lia. Qed.

(** An array update seen through a lookup. *)
Lemma lookup_insert_inv {A} (l : list A) i j (x y : A) :
  <[i:=x]> l !! j = Some y -> (j = i /\ y = x) \/ (j <> i /\ l !! j = Some y).
Proof.
  intros H. destruct (decide (j = i)) as [->|Hne].
  - left. pose proof (lookup_lt_Some _ _ _ H) as Hl. rewrite length_insert in Hl.
    rewrite list_lookup_insert_eq in H by done. by simplify_eq.
  - right. by rewrite list_lookup_insert_ne in H.
Qed.

Lemma lookup_alter_inv {A} (l : list A) (f : A -> A) i j (y : A) :
  alter f i l !! j = Some y ->
  (j = i /\ exists x, l !! i = Some x /\ y = f x) \/ (j <> i /\ l !! j = Some y).
Proof.
  intros H. destruct (decide (j = i)) as [->|Hne].
  - left. split; [done|]. rewrite list_lookup_alter_eq in H. apply fmap_Some in H as (x & Hx & ->). by exists x.
  - right. by rewrite list_lookup_alter_ne in H.
Qed.

Lemma lookup_map_inv {A B} (f : A -> B) (l : list A) i y :
  map f l !! i = Some y -> exists x, l !! i = Some x /\ y = f x.
Proof. intros (x & Hx & ->)%list_lookup_fmap_Some. by exists x. Qed.

Lemma sumZ_zero {A} (f : A -> Z) l : (forall i x, l !! i = Some x -> f x = 0) -> sumZ f l = 0.
Proof.
  induction l as [|a l IH]; intros H; simpl; [done|].
  rewrite (H O a), IH; [done| |done]. intros i x Hi. by apply (H (S i)).
Qed.

Lemma find_idx_insert {A} (f : A -> bool) l i x :
  find_idx f l = Some i -> f x = true -> find_idx f (<[i := x]> l) = Some i.
Proof.
  revert i. induction l as [|a l IH]; intros i; simpl; [done|].
  destruct (f a) eqn:E.
  - intros [= <-] Hx. simpl. by rewrite Hx.
  - intros (k & Hk & ->)%fmap_Some Hx. simpl. rewrite E. by rewrite (IH k).
Qed.

(** The first match is the only one. *)
Lemma find_idx_unique {A} (f : A -> bool) l i x :
  l !! i = Some x -> f x = true -> (forall j y, l !! j = Some y -> f y = true -> j = i) -> find_idx f l = Some i.
Proof.
  intros Hi Hf Hu. destruct (find_idx f l) as [k|] eqn:E.
  - apply find_idx_Some in E as (y & Hy & Hfy & _). by rewrite (Hu k y Hy Hfy).
  - rewrite (proj1 (find_idx_None f l) E i x Hi) in Hf. done.
Qed.

Lemma repeat_lookup {A} (x : A) n i y : repeat x n !! i = Some y -> y = x.
Proof. revert i. induction n as [|n IH]; intros [|i] H; simplify_eq/=; [done|by apply (IH i)]. Qed.
