(* ===== verification/Text.v ===== *)
(** * Text as C handles it

    Strings are lists of characters without NUL. [Module Text] has what the code uses of the C library on them:
    white space, searching, the conversions of printf and scanf, lines of a file; the second half has the lemmas
    on reading back what was printed. *)

From Stdlib Require Import ZArith Lia Bool Ascii String.
From stdpp Require Import base list numbers strings.
From S2P Require Import Prelude.
#[local] Open Scope Z_scope.
#[local] Open Scope list_scope.

Module Text.

Abbreviation text := (list ascii).

Definition dquote : ascii := ascii_of_nat 34.
Definition newline : ascii := ascii_of_nat 10.

(** A literal of the source; the apostrophe stands for the double quote. *)
Definition lit (s : string) : text :=
  map (fun c => if Ascii.eqb c "'" then dquote else c) (list_ascii_of_string s).

(** isspace in the C locale *)
Definition isspace (c : ascii) : bool :=
  let n := nat_of_ascii c in (n =? 32)%nat || ((9 <=? n)%nat && (n <=? 13)%nat).

(** The value of a decimal digit. *)
Definition digit_of (c : ascii) : option Z :=
  let n := Z.of_nat (nat_of_ascii c) in if (48 <=? n) && (n <=? 57) then Some (n - 48) else None.

Definition digit_char (d : Z) : ascii := ascii_of_nat (Z.to_nat (48 + d)).

(** [%u]: decimal without leading zeros; the fuel is the number of digits beyond the last. *)
Fixpoint print_digits (fuel : nat) (n : Z) : text :=
  match fuel with
  | O => [digit_char (n mod 10)]
  | S f => if n <? 10 then [digit_char n] else print_digits f (n / 10) ++ [digit_char (n mod 10)]
  end.
Definition print_u (n : Z) : text := print_digits 9 n.

Fixpoint skip_space (s : text) : text :=
  match s with
  | c :: s' => if isspace c then skip_space s' else s
  | [] => []
  end.

(** Does [pat] start [s]? *)
Fixpoint starts_with (pat s : text) : bool :=
  match pat, s with
  | [], _ => true
  | p :: pat', c :: s' => Ascii.eqb p c && starts_with pat' s'
  | _, [] => false
  end.

(** strstr(s, pat) != NULL *)
Fixpoint contains (pat s : text) : bool :=
  starts_with pat s || match s with [] => false | _ :: s' => contains pat s' end.

(** The literal part of a sscanf format: white space matches any amount of white space. *)
Fixpoint scan_literal (fmt s : text) : option text :=
  match fmt with
  | [] => Some s
  | f :: fmt' =>
      if isspace f then scan_literal fmt' (skip_space s)
      else match s with
           | c :: s' => if Ascii.eqb f c then scan_literal fmt' s' else None
           | [] => None
           end
  end.

(** The digits of a number, accumulated the way strtoul does, with the count of digits read. *)
Fixpoint scan_digits (acc : Z) (s : text) : Z * nat :=
  match s with
  | c :: s' =>
      match digit_of c with
      | Some d => let '(v, k) := scan_digits (acc * 10 + d) s' in (v, S k)
      | None => (acc, O)
      end
  | [] => (acc, O)
  end.

(** [%u]: leading white space and an optional sign are skipped, the value saturates at ULONG_MAX and is
    truncated to 32 bits; [None] when no digit is read. *)
Definition scan_uint (s0 : text) : option Z :=
  let s1 := skip_space s0 in
  let '(neg, s) := match s1 with
                   | c :: s' => if Ascii.eqb c "-" then (true, s') else if Ascii.eqb c "+" then (false, s') else (false, s1)
                   | [] => (false, [])
                   end in
  let '(v, k) := scan_digits 0 s in
  if (k =? 0)%nat then None
  else let v' := Z.min v (2 ^ 64 - 1) in Some (u32 (if neg then - v' else v')).

(** [%63[^quote]]: up to 63 characters other than the double quote, at least one. *)
Fixpoint scan_name (k : nat) (s : text) : text :=
  match k, s with
  | S k', c :: s' => if Ascii.eqb c dquote then [] else c :: scan_name k' s'
  | _, _ => []
  end.

(** sscanf(p, fmt "%u", &old) *)
Definition sscanf_u (fmt p : text) (old : Z) : Z :=
  match scan_literal fmt p with
  | Some rest => default old (scan_uint rest)
  | None => old
  end.

(** fgets into a buffer of [k + 1] bytes: the line with its newline, and the rest of the file. *)
Fixpoint next_line (k : nat) (s : text) : text * text :=
  match k, s with
  | S k', c :: s' =>
      if Ascii.eqb c newline then ([c], s')
      else let '(l, r) := next_line k' s' in (c :: l, r)
  | _, _ => ([], s)
  end.

(** [%llu], [%llx] and [%d] *)
Definition print_llu (n : Z) : text := print_digits 19 n.

Definition hex_char (d : Z) : ascii := if d <? 10 then digit_char d else ascii_of_nat (Z.to_nat (87 + d)).

Fixpoint print_xdigits (fuel : nat) (n : Z) : text :=
  match fuel with
  | O => [hex_char (n mod 16)]
  | S f => if n <? 16 then [hex_char n] else print_xdigits f (n / 16) ++ [hex_char (n mod 16)]
  end.
Definition print_llx (n : Z) : text := print_xdigits 15 n.

Definition print_d (n : Z) : text := if n <? 0 then "-"%char :: print_u (- n) else print_u n.

(** What snprintf leaves in a buffer of [len] bytes; it returns the length of [t]. *)
Definition snprintf (len : nat) (t : text) : text := take (len - 1) t.

(** [%<k>s]: a word of at most [k] characters, and the rest *)
Fixpoint scan_chars (k : nat) (s : text) : text * text :=
  match k, s with
  | S k', c :: s' => if isspace c then ([], s) else let '(w, r) := scan_chars k' s' in (c :: w, r)
  | _, _ => ([], s)
  end.

Definition scan_word (k : nat) (s : text) : option (text * text) :=
  match scan_chars k (skip_space s) with
  | ([], _) => None
  | (w, r) => Some (w, r)
  end.

(** sscanf with [n] such conversions: the words that were read *)
Fixpoint scan_words (n k : nat) (s : text) : list text :=
  match n with
  | O => []
  | S n' =>
      match scan_word k s with
      | None => []
      | Some (w, r) => w :: scan_words n' k r
      end
  end.

(** strtoull in base 10: the value, whether it is out of range, and the text after the digits; [None] without digits *)
Definition strtoull (s0 : text) : option (Z * bool * text) :=
  let s1 := skip_space s0 in
  let '(neg, s) := match s1 with
                   | c :: s' => if Ascii.eqb c "-" then (true, s') else if Ascii.eqb c "+" then (false, s') else (false, s1)
                   | [] => (false, [])
                   end in
  let '(v, k) := scan_digits 0 s in
  if (k =? 0)%nat then None
  else if v >=? 2 ^ 64 then Some (2 ^ 64 - 1, true, drop k s)
  else Some (if neg : bool then u64 (- v) else v, false, drop k s).

(** [%u] and [%llu]: the value at the width [w], and the rest *)
Definition scan_num (w : Z) (s : text) : option (Z * text) :=
  match strtoull s with
  | Some (v, _, r) => Some (v mod 2 ^ w, r)
  | None => None
  end.

(** The text up to the first [c], and what follows it if there is one (memchr). *)
Fixpoint cut_at (c : ascii) (s : text) : text * option text :=
  match s with
  | [] => ([], None)
  | x :: s' => if Ascii.eqb x c then ([], Some s') else let '(l, r) := cut_at c s' in (x :: l, r)
  end.

(** The index of the last [c] (strrchr). *)
Fixpoint last_index (c : ascii) (s : text) : option nat :=
  match s with
  | [] => None
  | x :: s' => match last_index c s' with
               | Some i => Some (S i)
               | None => if Ascii.eqb x c then Some O else None
               end
  end.

(** strcmp(a, b) == 0 *)
Definition str_eq (a b : text) : bool := bool_decide (a = b).

End Text.

Import Text.

(** ** Numbers as text *)

Lemma digit_char_spec d : 0 <= d < 10 -> digit_of (digit_char d) = Some d /\ isspace (digit_char d) = false /\
  digit_char d <> dquote /\ digit_char d <> newline /\ Ascii.eqb (digit_char d) "-" = false /\ Ascii.eqb (digit_char d) "+" = false.
Proof.
  intros H. assert (Hc : d = 0 \/ d = 1 \/ d = 2 \/ d = 3 \/ d = 4 \/ d = 5 \/ d = 6 \/ d = 7 \/ d = 8 \/ d = 9) by lia.
  destruct Hc as [-> | [-> | [-> | [-> | [-> | [-> | [-> | [-> | [-> | ->]]]]]]]]]; vm_compute; repeat split; congruence.
Qed.

(** [s] does not start with a digit. *)
Definition no_digit (s : text) : Prop := match s with c :: _ => digit_of c = None | [] => True end.

Lemma scan_digits_stop acc s : no_digit s -> scan_digits acc s = (acc, 0%nat).
Proof. destruct s as [|c s]; [done|]. simpl. by intros ->. Qed.

Definition digits_value (acc : Z) (ds : list Z) : Z := foldl (fun a d => a * 10 + d) acc ds.

(** A printed number is a non-empty list of digits with that value. *)
Lemma print_digits_spec fuel n :
  0 <= n < 10 ^ (Z.of_nat fuel + 1) ->
  exists ds, ds <> [] /\ Forall (fun d => 0 <= d < 10) ds /\ print_digits fuel n = map digit_char ds /\
             digits_value 0 ds = n.
Proof.
  revert n. induction fuel as [|fuel IH]; intros n Hn.
  - assert (Hn' : 0 <= n < 10) by (change (10 ^ (Z.of_nat 0 + 1)) with 10 in Hn; lia).
    exists [n]. cbn. rewrite Z.mod_small by lia. split_and!; [done|by constructor|done|lia].
  - cbn [print_digits]. destruct (Z.ltb_spec n 10) as [Hlt|Hge].
    + exists [n]. split_and!; [done|constructor; [lia|done]|done|cbn; lia].
    + pose proof (Z.mod_pos_bound n 10 ltac:(lia)) as Hm. pose proof (Z.div_mod n 10 ltac:(lia)) as Hdm.
      destruct (IH (n / 10)) as (ds & Hne & Hds & Hp & Hv).
      { split; [lia|]. apply Z.div_lt_upper_bound; [lia|].
        replace (Z.of_nat (S fuel) + 1) with (Z.succ (Z.of_nat fuel + 1)) in Hn by lia. rewrite Z.pow_succ_r in Hn; lia. }
      exists (ds ++ [n mod 10]). split_and!.
      * by intros [? ?]%app_eq_nil.
      * apply Forall_app. split; [done|by constructor].
      * by rewrite Hp, map_app.
      * unfold digits_value in *. rewrite foldl_app, Hv. cbn. lia.
Qed.

Lemma scan_digits_map ds acc s :
  Forall (fun d => 0 <= d < 10) ds -> no_digit s ->
  scan_digits acc (map digit_char ds ++ s) = (digits_value acc ds, length ds).
Proof.
  intros Hds Hs. revert acc. induction Hds as [|d ds Hd _ IH]; intros acc; cbn [map app].
  - by apply scan_digits_stop.
  - cbn [scan_digits]. destruct (digit_char_spec d Hd) as (-> & _). rewrite IH. done.
Qed.

Lemma print_u_spec n : is_u32 n -> exists d ds, 0 <= d < 10 /\ Forall (fun d => 0 <= d < 10) ds /\
  print_u n = digit_char d :: map digit_char ds /\ digits_value 0 (d :: ds) = n.
Proof.
  intros Hn. destruct (print_digits_spec 9 n) as (ds & Hne & Hds & Hp & Hv).
  { change (10 ^ (Z.of_nat 9 + 1)) with 10000000000. unfold is_u32 in Hn. lia. }
  destruct ds as [|d ds]; [done|]. inversion Hds; subst. by exists d, ds.
Qed.

(** [%u] reads back what [%u] wrote. *)
Lemma scan_uint_print n s : is_u32 n -> no_digit s -> scan_uint (print_u n ++ s) = Some n.
Proof.
  intros Hn Hs. destruct (print_u_spec n Hn) as (d & ds & Hd & Hds & -> & Hv).
  destruct (digit_char_spec d Hd) as (_ & Hsp & _ & _ & Hm & Hp). unfold scan_uint. cbn [app skip_space].
  rewrite Hsp, Hm, Hp. change (digit_char d :: map digit_char ds ++ s) with (map digit_char (d :: ds) ++ s).
  rewrite scan_digits_map by (by try constructor). cbn [length Nat.eqb]. rewrite Hv. f_equal.
  unfold is_u32 in Hn. rewrite Z.min_l by lia. by apply u32_id.
Qed.

(** Digits are neither quotes nor newlines nor white space. *)
Definition plain (c : ascii) : Prop := c <> dquote /\ c <> newline.

Lemma print_u_plain n : is_u32 n -> Forall plain (print_u n).
Proof.
  intros Hn. destruct (print_u_spec n Hn) as (d & ds & Hd & Hds & -> & _).
  change (digit_char d :: map digit_char ds) with (map digit_char (d :: ds)). apply Forall_map.
  assert (Hall : Forall (fun d => 0 <= d < 10) (d :: ds)) by (by constructor).
  induction Hall as [|x xs Hx _ IH]; constructor; [|done]. split; by apply digit_char_spec.
Qed.

Lemma skip_space_print n s : is_u32 n -> skip_space (print_u n ++ s) = print_u n ++ s.
Proof.
  intros Hn. destruct (print_u_spec n Hn) as (d & ds & Hd & _ & -> & _). cbn [app skip_space].
  by destruct (digit_char_spec d Hd) as (_ & -> & _).
Qed.

Lemma print_digits_length fuel n : (length (print_digits fuel n) <= S fuel)%nat.
Proof.
  revert n. induction fuel as [|fuel IH]; intros n; cbn [print_digits]; [done|].
  case_match; [cbn; lia|]. rewrite length_app. cbn. specialize (IH (n / 10)). lia.
Qed.

(** ** Searching past text without quotes *)

Lemma contains_skip pat N s :
  Forall (fun c => c <> dquote) N -> contains (dquote :: pat) (N ++ s) = contains (dquote :: pat) s.
Proof.
  induction 1 as [|c N Hc _ IH]; [done|]. cbn [app contains starts_with].
  rewrite IH. destruct (Ascii.eqb_spec dquote c); [congruence|done].
Qed.

(** A quoted word found where a quoted name starts is that name. *)
Lemma starts_with_quoted P N r :
  Forall (fun c => c <> dquote) P -> Forall (fun c => c <> dquote) N ->
  starts_with (P ++ [dquote]) (N ++ dquote :: r) = true -> N = P.
Proof.
  intros HP. revert N. induction HP as [|p P Hp _ IH]; intros N HN; cbn [app starts_with].
  - destruct HN as [|c N Hc _]; [done|]. cbn. rewrite andb_true_r. destruct (Ascii.eqb_spec dquote c); congruence.
  - destruct HN as [|c N Hc HN]; cbn [app].
    + destruct (Ascii.eqb_spec p dquote); [congruence|done].
    + destruct (Ascii.eqb_spec p c) as [->|]; [|done]. cbn [andb]. intros H. f_equal. by apply IH.
Qed.

Lemma scan_name_spec k N r :
  (length N <= k)%nat -> Forall (fun c => c <> dquote) N -> scan_name k (N ++ dquote :: r) = N.
Proof.
  intros Hk HN. revert k Hk. induction HN as [|c N Hc _ IH]; intros k Hk; cbn [app].
  - destruct k; [done|]. cbn. done.
  - destruct k as [|k]; [cbn in Hk; lia|]. cbn. destruct (Ascii.eqb_spec c dquote); [done|]. f_equal. apply IH. cbn in Hk. lia.
Qed.

Lemma next_line_spec k l r :
  (length l < k)%nat -> Forall (fun c => c <> newline) l -> next_line k (l ++ newline :: r) = (l ++ [newline], r).
Proof.
  intros Hk Hl. revert k Hk. induction Hl as [|c l Hc _ IH]; intros k Hk; (destruct k as [|k]; [cbn in Hk; lia|]); cbn [app next_line].
  - done.
  - destruct (Ascii.eqb_spec c newline); [done|]. rewrite IH by (cbn in Hk; lia). done.
Qed.

Lemma plain_no_quote l : Forall plain l -> Forall (fun c => c <> dquote) l.
Proof. induction 1 as [|c l [Hc _] _ IH]; by constructor. Qed.
Lemma plain_no_newline l : Forall plain l -> Forall (fun c => c <> newline) l.
Proof. induction 1 as [|c l [_ Hc] _ IH]; by constructor. Qed.
