(* ===== verification/SliceGeometry.v ===== *)
(** * Shared-memory slices

    [Geometry] models drivers/amba_virt/amba_virt_slice.c: the split of the one ivshmem window into
    per-guest slices, each ending in a claim page. [LowSlice] models drivers/amba_virt/iav_low_slice.c:
    the eight fixed 64 MiB slices of the pinned low pool, their claim by a guest and the range check
    every access goes through. *)

From Stdlib Require Import ZArith Lia Bool.
From stdpp Require Import base list numbers.
From S2P Require Import Prelude.

Module Geometry.

(** struct amba_virt_slice_desc *)
Record amba_virt_slice_desc := mk_desc {
  index : Z;
  usable_size : Z;
  offset : Z;
  phys : Z;
  slice_size : Z;
}.

(** struct amba_virt_slice_list: [slices] is an array of eight descriptors. *)
Record amba_virt_slice_list := mk_list {
  count : Z;
  slices : list amba_virt_slice_desc;
}.

(** The descriptor written for index [i]. *)
Definition slice_at (window_phys slice_sz usable i : Z) : amba_virt_slice_desc :=
  let off := u64 (i * slice_sz) in
  mk_desc i usable off (u64 (window_phys + off)) slice_sz.

(** The loop [for (i = 0; i < slice_count; i++)]: write descriptor [i] into the array. *)
Fixpoint fill_slices (window_phys slice_sz usable : Z) (i n : nat)
    (arr : list amba_virt_slice_desc) : list amba_virt_slice_desc :=
  match n with
  | O => arr
  | S n' =>
      fill_slices window_phys slice_sz usable (S i) n'
        (<[i := slice_at window_phys slice_sz usable (Z.of_nat i)]> arr)
  end.

(** amba_virt_slice_compute_geometry; [None] is a null [out_list]. *)
Definition amba_virt_slice_compute_geometry (window_phys window_size page_size slice_count : Z)
    (out_list : option amba_virt_slice_list) : Z * option amba_virt_slice_list :=
  match out_list with
  | None => (-1, None)
  | Some out =>
      let out0 := Some (mk_list 0 (slices out)) in
      if (window_size =? 0) || (page_size =? 0) || (slice_count =? 0) || (slice_count >? 8)
      then (-1, out0)
      else if negb (window_size mod page_size =? 0) then (-1, out0)
      else
        let slice_sz := window_size / slice_count in
        if slice_sz =? 0 then (-1, out0)
        else if negb (slice_sz mod page_size =? 0) then (-1, out0)
        else
          let total_product := u64 (slice_sz * slice_count) in
          if negb (total_product =? window_size) then (-1, out0)
          else if slice_sz <=? page_size then (-1, out0)
          else
            let usable := u32 (slice_sz - page_size) in
            (0, Some (mk_list slice_count
                        (fill_slices window_phys slice_sz usable 0 (Z.to_nat slice_count) (slices out))))
  end.

Definition desc_eqb (a b : amba_virt_slice_desc) : bool :=
  (index a =? index b) && (usable_size a =? usable_size b) && (offset a =? offset b) &&
  (phys a =? phys b) && (slice_size a =? slice_size b).

(** The loop of the comparison; [None] is a read past the array. *)
Fixpoint compare_slices (i n : nat) (a b : list amba_virt_slice_desc) : option Z :=
  match n with
  | O => Some 1
  | S n' =>
      match a !! i, b !! i with
      | Some x, Some y => if desc_eqb x y then compare_slices (S i) n' a b else Some 0
      | _, _ => None
      end
  end.

(** amba_virt_slice_compare_list; a null pointer is [None]. *)
Definition amba_virt_slice_compare_list (a b : option amba_virt_slice_list) : option Z :=
  match a, b with
  | Some a, Some b =>
      if (count a =? 0) || (count b =? 0) || negb (count a =? count b) then Some 0
      else compare_slices 0 (Z.to_nat (count a)) (slices a) (slices b)
  | _, _ => Some 0
  end.

(** What the split promises: [n] slices of [ss] bytes that tile the window from [base]. *)
Definition tiles (base ws ps : Z) (n : nat) (arr : list amba_virt_slice_desc) : Prop :=
  exists ss,
    ws = ss * Z.of_nat n /\ ss mod ps = 0 /\ ps < ss /\
    forall i, (i < n)%nat ->
      exists d, arr !! i = Some d /\ index d = Z.of_nat i /\ slice_size d = ss /\
                offset d = Z.of_nat i * ss /\ phys d = base + Z.of_nat i * ss /\
                usable_size d = u32 (ss - ps).

Lemma fill_slices_length wp ss us i n arr : length (fill_slices wp ss us i n arr) = length arr.
Proof. revert i arr. induction n as [|n IH]; intros i arr; simpl; [done|]. by rewrite IH, length_insert. Qed.

Lemma fill_slices_below wp ss us i n arr j :
  (j < i)%nat -> fill_slices wp ss us i n arr !! j = arr !! j.
Proof.
  revert i arr. induction n as [|n IH]; intros i arr Hj; simpl; [done|].
  rewrite IH by lia. apply list_lookup_insert_ne. lia.
Qed.

Lemma fill_slices_lookup wp ss us i n arr j :
  (i <= j < i + n)%nat -> (i + n <= length arr)%nat ->
  fill_slices wp ss us i n arr !! j = Some (slice_at wp ss us (Z.of_nat j)).
Proof.
  revert i arr. induction n as [|n IH]; intros i arr Hj Hl; simpl; [lia|].
  destruct (decide (j = i)) as [->|Hne].
  - rewrite fill_slices_below by lia. apply list_lookup_insert_eq. lia.
  - apply IH; [lia|]. rewrite length_insert. lia.
Qed.

Lemma desc_eqb_eq a b : desc_eqb a b = true <-> a = b.
Proof.
  destruct a, b; unfold desc_eqb; simpl. split.
  - intros H. bool_hyps. by subst.
  - intros [= -> -> -> -> ->]. by rewrite !Z.eqb_refl.
Qed.

Lemma compare_slices_spec i n a b :
  (i + n <= length a)%nat -> (i + n <= length b)%nat ->
  (compare_slices i n a b = Some 1 /\ forall j, (i <= j < i + n)%nat -> a !! j = b !! j) \/
  (compare_slices i n a b = Some 0 /\ exists j, (i <= j < i + n)%nat /\ a !! j <> b !! j).
Proof.
  revert i. induction n as [|n IH]; intros i Ha Hb; simpl.
  { left. split; [done|]. intros j Hj. lia. }
  destruct (lookup_lt_is_Some_2 a i) as [x Hx]; [lia|].
  destruct (lookup_lt_is_Some_2 b i) as [y Hy]; [lia|].
  rewrite Hx, Hy. destruct (desc_eqb x y) eqn:E.
  - apply desc_eqb_eq in E as ->.
    destruct (IH (S i)) as [[-> H]|[-> (j & Hj & H)]]; [lia..| |].
    + left. split; [done|]. intros j Hj. destruct (decide (j = i)) as [->|]; [congruence|]. apply H. lia.
    + right. split; [done|]. exists j. split; [lia|done].
  - right. split; [done|]. exists i. split; [lia|]. rewrite Hx, Hy. intros [= ->].
    rewrite (proj2 (desc_eqb_eq y y)) in E; done.
Qed.

(** When the guards pass, the division is exact and page-aligned. *)
Lemma exact_split ws ps n :
  0 < n -> 0 < ps -> 0 <= ws < 2 ^ 64 -> u64 (ws / n * n) = ws -> ws = ws / n * n.
Proof.
  intros Hn Hp Hw He. rewrite u64_id in He; [done|].
  pose proof (Z.mul_div_le ws n Hn). split; [|lia].
  apply Z.mul_nonneg_nonneg; [apply Z.div_pos; lia|lia].
Qed.

End Geometry.

Module LowSlice.

Definition IAV_LOW_SLICE_COUNT : Z := 8.
Definition IAV_LOW_SLICE_BYTES : Z := 0x4000000.
Definition IAV_LOW_SLICE_PAGE : Z := 4096.
Definition IAV_LOW_SLICE_USABLE : Z := IAV_LOW_SLICE_BYTES - IAV_LOW_SLICE_PAGE.

(** struct iav_low_slice *)
Record iav_low_slice := mk_slice {
  phys : Z;
  nonce : Z;
  cid : Z;
  claimed : bool;
}.

(** iav_low_slice_init: the array of [count] slices of the pool at [parent]; [None] is an error. *)
Definition iav_low_slice_init (count parent parent_bytes : Z) : Z * option (list iav_low_slice) :=
  if negb (count =? IAV_LOW_SLICE_COUNT) then (- EINVAL, None)
  else if negb (parent_bytes =? u64 (count * IAV_LOW_SLICE_BYTES)) then (- EINVAL, None)
  else if negb (parent mod IAV_LOW_SLICE_BYTES =? 0) then (- EINVAL, None)
  else
    (0, Some (map (fun i => mk_slice (u64 (parent + Z.of_nat i * IAV_LOW_SLICE_BYTES)) 0 0 false)
                  (seq 0 (Z.to_nat count)))).

(** iav_low_slice_claim: the nonce handed to the guest is the third component. *)
Definition iav_low_slice_claim (s : iav_low_slice) (c : Z) : Z * iav_low_slice * option Z :=
  if c =? 0 then (- EINVAL, s, None)
  else if claimed s then (- EBUSY, s, None)
  else
    let n := Z.lxor (Z.lxor (u64 (Z.shiftl c 32)) (phys s)) 0x9e3779b97f4a7c15 in
    (0, mk_slice (phys s) n c true, Some n).

(** iav_low_slice_release *)
Definition iav_low_slice_release (s : iav_low_slice) (c : Z) : Z * iav_low_slice :=
  if c =? 0 then (- EINVAL, s)
  else if negb (claimed s) then (- EINVAL, s)
  else if negb (cid s =? c) then (- EPERM, s)
  else (0, mk_slice (phys s) 0 0 false).

(** iav_low_slice_check *)
Definition iav_low_slice_check (s : iav_low_slice) (c off len : Z) : Z :=
  if c =? 0 then - EINVAL
  else if negb (claimed s) || negb (cid s =? c) then - EPERM
  else if (len =? 0) || negb (off mod IAV_LOW_SLICE_PAGE =? 0) then - EINVAL
  else if (off >? IAV_LOW_SLICE_USABLE) || (len >? IAV_LOW_SLICE_USABLE - off) then - EPERM
  else 0.

Lemma check_ok s c off len :
  0 <= off -> 0 <= len -> iav_low_slice_check s c off len = 0 ->
  c <> 0 /\ claimed s = true /\ cid s = c /\ 0 < len /\ off mod IAV_LOW_SLICE_PAGE = 0 /\
  off + len <= IAV_LOW_SLICE_USABLE.
Proof.
  intros Ho Hl. unfold iav_low_slice_check, EINVAL, EPERM.
  destruct (c =? 0) eqn:E1; [done|]. destruct (negb (claimed s) || negb (cid s =? c)) eqn:E2; [done|].
  destruct ((len =? 0) || negb (off mod IAV_LOW_SLICE_PAGE =? 0)) eqn:E3; [done|].
  destruct ((off >? IAV_LOW_SLICE_USABLE) || (len >? IAV_LOW_SLICE_USABLE - off)) eqn:E4; [done|].
  intros _. bool_hyps. split_and!; [done..|lia|done|lia].
Qed.

Lemma init_lookup parent pb ss i s :
  iav_low_slice_init IAV_LOW_SLICE_COUNT parent pb = (0, Some ss) -> ss !! i = Some s ->
  0 <= parent -> parent + IAV_LOW_SLICE_COUNT * IAV_LOW_SLICE_BYTES <= 2 ^ 64 ->
  (i < 8)%nat /\ phys s = parent + Z.of_nat i * IAV_LOW_SLICE_BYTES /\ claimed s = false.
Proof.
  unfold iav_low_slice_init. intros H Hi Hp Hb.
  destruct (negb (IAV_LOW_SLICE_COUNT =? IAV_LOW_SLICE_COUNT)); [by simplify_eq|].
  destruct (negb (pb =? _)); [by simplify_eq|]. destruct (negb (parent mod _ =? 0)); [by simplify_eq|].
  simplify_eq. unfold IAV_LOW_SLICE_COUNT, IAV_LOW_SLICE_BYTES in *.
  do 8 (destruct i as [|i]; [simplify_eq/=; rewrite u64_id by lia; split_and!; [lia|done..]|]).
  done.
Qed.

End LowSlice.

(** * Properties *)

Module SliceProps.
Import Geometry.

(** The split of the window accepts exactly the requests that divide it into one to eight slices of
    whole pages larger than the claim page: it returns 0 if and only if the window is a non-zero multiple
    of [slice_count] pages and leaves more than a page per slice. *)
Theorem geometry_accepts_iff wp ws ps n out :
  0 <= ws < 2 ^ 64 -> 0 <= ps < 2 ^ 32 -> 0 <= n < 2 ^ 32 ->
  fst (amba_virt_slice_compute_geometry wp ws ps n (Some out)) = 0 <->
  (0 < ps /\ 1 <= n <= 8 /\ ws mod (n * ps) = 0 /\ n * ps < ws).
Proof.
  intros Hw Hp Hn. unfold amba_virt_slice_compute_geometry.
  destruct ((ws =? 0) || (ps =? 0) || (n =? 0) || (n >? 8)) eqn:E1.
  { simpl. split; [done|]. intros (H1 & H2 & H3 & H4).
    rewrite !orb_true_iff, !Z.eqb_eq, Z.gtb_lt in E1. nia. }
  bool_hyps. assert (Hn0 : 0 < n) by lia. assert (Hp0 : 0 < ps) by lia.
  pose proof (Z.div_mod ws n ltac:(lia)) as Hd. pose proof (Z.mod_pos_bound ws n Hn0) as Hm.
  assert (Hback : ws mod (n * ps) = 0 -> n * ps < ws ->
                  ws = ws / n * n /\ (ws / n) mod ps = 0 /\ ps < ws / n).
  { intros (k & Hk)%Z.mod_divide Hlt; [|nia]. assert (E : ws / n = k * ps).
    { rewrite Hk. replace (k * (n * ps)) with (k * ps * n) by lia. apply Z.div_mul. lia. }
    rewrite E. split; [lia|]. split; [apply Z.mod_mul; lia|]. nia. }
  destruct (negb (ws mod ps =? 0)) eqn:E2.
  { simpl. split; [done|]. intros (_ & _ & H3 & H4). bool_hyps. destruct (Hback H3 H4) as (Hw1 & Hw2 & _).
    apply Z.mod_divide in Hw2 as [k Hk]; [|lia]. exfalso. apply E2. rewrite Hw1, Hk.
    replace (k * ps * n) with (k * n * ps) by lia. apply Z.mod_mul. lia. }
  destruct (ws / n =? 0) eqn:E3.
  { simpl. split; [done|]. intros (_ & _ & H3 & H4). bool_hyps. destruct (Hback H3 H4). lia. }
  destruct (negb ((ws / n) mod ps =? 0)) eqn:E4.
  { simpl. split; [done|]. intros (_ & _ & H3 & H4). bool_hyps. by destruct (Hback H3 H4) as (_ & ? & _). }
  destruct (negb (u64 (ws / n * n) =? ws)) eqn:E5.
  { simpl. split; [done|]. intros (_ & _ & H3 & H4). bool_hyps. destruct (Hback H3 H4) as (Hw1 & _).
    exfalso. apply E5. rewrite <- Hw1. apply u64_id. lia. }
  destruct (ws / n <=? ps) eqn:E6.
  { simpl. split; [done|]. intros (_ & _ & H3 & H4). bool_hyps. destruct (Hback H3 H4). lia. }
  simpl. split; [intros _|done]. bool_hyps. pose proof (exact_split ws ps n Hn0 Hp0 Hw E5) as Hx.
  apply Z.mod_divide in E4 as [k Hk]; [|lia]. split_and!; [lia..| |].
  - rewrite Hx, Hk. replace (k * ps * n) with (k * (n * ps)) by lia. apply Z.mod_mul. nia.
  - nia.
Qed.

Lemma geometry_accepts_iff_witness :
  fst (amba_virt_slice_compute_geometry 0x100000000 0x40000000 4096 2 (Some (mk_list 0 []))) = 0.
Proof. apply geometry_accepts_iff; [lia..|]. vm_compute. intuition discriminate. Defined.

(** When the split succeeds, the slices tile the window: slice [i] is the [i]-th block of equal,
    page-aligned size, so distinct slices share no byte and no byte of the window is left out. *)
Theorem geometry_tiles_window wp ws ps n out out' :
  0 <= wp -> 0 <= ws < 2 ^ 64 -> wp + ws <= 2 ^ 64 -> 0 <= ps < 2 ^ 32 -> 0 <= n < 2 ^ 32 ->
  length (slices out) = 8%nat ->
  amba_virt_slice_compute_geometry wp ws ps n (Some out) = (0, Some out') ->
  count out' = n /\ length (slices out') = 8%nat /\ tiles wp ws ps (Z.to_nat n) (slices out').
Proof.
  intros Hwp Hws Hw Hp Hn Hl. unfold amba_virt_slice_compute_geometry.
  repeat (case_match; [done|]). intros [= <-]. bool_hyps.
  assert (Hx : ws = ws / n * n) by (apply (exact_split ws ps); [lia..|done]).
  assert (Hss : 0 < ws / n) by lia.
  simpl. split_and!; [done|by rewrite fill_slices_length|].
  exists (ws / n). rewrite Z2Nat.id by lia. split_and!; [lia..|].
  intros i Hi. eexists. split; [apply fill_slices_lookup; lia|]. unfold slice_at. simpl.
  rewrite !u64_id; [done|..]; nia.
Qed.

Lemma geometry_tiles_window_witness :
  let d := mk_desc 0 0 0 0 0 in
  exists out',
    amba_virt_slice_compute_geometry 0x100000000 0x40000000 4096 2 (Some (mk_list 0 (repeat d 8))) = (0, Some out') /\
    tiles 0x100000000 0x40000000 4096 2 (slices out').
Proof.
  eexists. split; [vm_compute; reflexivity|].
  eapply (geometry_tiles_window 0x100000000 0x40000000 4096 2
            (mk_list 0 (repeat (mk_desc 0 0 0 0 0) 8))); [lia..|done|vm_compute; reflexivity].
Defined.

Import LowSlice.

(** A range admitted by the low-slice check lies inside the claimant's slice and below its claim page,
    and two ranges admitted on two different slices of the pool are disjoint in physical memory, so no guest
    can name a byte of another guest's slice or of a claim page. *)
Theorem low_slice_isolation parent pb ss0 i j s t c1 c2 o1 l1 o2 l2 :
  iav_low_slice_init IAV_LOW_SLICE_COUNT parent pb = (0, Some ss0) ->
  0 <= parent -> parent + IAV_LOW_SLICE_COUNT * IAV_LOW_SLICE_BYTES <= 2 ^ 64 ->
  LowSlice.phys <$> ss0 !! i = Some (LowSlice.phys s) -> LowSlice.phys <$> ss0 !! j = Some (LowSlice.phys t) ->
  i <> j -> 0 <= o1 -> 0 <= l1 -> 0 <= o2 -> 0 <= l2 ->
  iav_low_slice_check s c1 o1 l1 = 0 -> iav_low_slice_check t c2 o2 l2 = 0 ->
  cid s = c1 /\ claimed s = true /\
  LowSlice.phys s + o1 + l1 <= LowSlice.phys s + IAV_LOW_SLICE_BYTES - IAV_LOW_SLICE_PAGE /\
  disjoint_range (LowSlice.phys s + o1) (LowSlice.phys s + o1 + l1)
                 (LowSlice.phys t + o2) (LowSlice.phys t + o2 + l2).
Proof.
  intros Hinit Hp Hb Hs Ht Hij Ho1 Hl1 Ho2 Hl2 H1 H2.
  apply fmap_Some in Hs as (s0 & Hs0 & Es). apply fmap_Some in Ht as (t0 & Ht0 & Et).
  destruct (init_lookup _ _ _ _ _ Hinit Hs0 Hp Hb) as (_ & E1 & _).
  destruct (init_lookup _ _ _ _ _ Hinit Ht0 Hp Hb) as (_ & E2 & _).
  apply check_ok in H1 as (_ & Hc & Hcid & _ & _ & Hr1); [|done..].
  apply check_ok in H2 as (_ & _ & _ & _ & _ & Hr2); [|done..].
  unfold IAV_LOW_SLICE_USABLE, IAV_LOW_SLICE_BYTES, IAV_LOW_SLICE_PAGE in *.
  rewrite Es, Et, E1, E2. split_and!; [done..|lia|]. unfold disjoint_range.
  assert (Z.of_nat i < Z.of_nat j \/ Z.of_nat j < Z.of_nat i) as [|] by lia; lia.
Qed.

Lemma low_slice_isolation_witness :
  let s := mk_slice 0x80000000 1 5 true in
  let t := mk_slice 0x84000000 1 6 true in
  disjoint_range (0x80000000 + 4096) (0x80000000 + 4096 + 100) (0x84000000 + 0) (0x84000000 + 0 + 200).
Proof.
  intros s t.
  apply (low_slice_isolation 0x80000000 0x20000000
           (match iav_low_slice_init 8 0x80000000 0x20000000 with (_, Some l) => l | _ => [] end)
           0 1 s t 5 6 4096 100 0 200); try (vm_compute; reflexivity); try (vm_compute; discriminate); lia.
Defined.

(** Claiming a free slice and releasing it with the same guest id restores it, a second claim and a
    release by another guest are refused and change nothing, and the nonces of two different guests on
    one slice differ. *)
Theorem low_slice_claim_release s c :
  0 < c < 2 ^ 32 -> claimed s = false -> nonce s = 0 -> cid s = 0 ->
  exists n s',
    iav_low_slice_claim s c = (0, s', Some n) /\ nonce s' = n /\ cid s' = c /\ claimed s' = true /\
    iav_low_slice_release s' c = (0, s) /\
    (forall c', c' <> 0 -> iav_low_slice_claim s' c' = (- EBUSY, s', None)) /\
    (forall c', c' <> 0 -> c' <> c -> iav_low_slice_release s' c' = (- EPERM, s')) /\
    (forall c' n' s'', 0 < c' < 2 ^ 32 -> c' <> c -> iav_low_slice_claim s c' = (0, s'', Some n') -> n' <> n).
Proof.
  intros Hc Hf Hn Hcid. unfold iav_low_slice_claim, iav_low_slice_release.
  destruct s as [p n0 c0 cl]; simpl in *; subst.
  destruct (Z.eqb_spec c 0); [lia|]. do 2 eexists. split; [done|]. simpl.
  rewrite Z.eqb_refl. split_and!; try done.
  - intros c' Hc'. by destruct (Z.eqb_spec c' 0).
  - intros c' Hc' Hne. destruct (Z.eqb_spec c' 0); [done|].
    destruct (Z.eqb_spec c c'); [congruence|done].
  - intros c' n' s'' Hc' Hne Hcl. destruct (Z.eqb_spec c' 0); [done|]. simplify_eq. intros He.
    assert (Hx : u64 (Z.shiftl c' 32) = u64 (Z.shiftl c 32)).
    { by do 2 apply lxor_cancel_r in He. }
    rewrite !Z.shiftl_mul_pow2, !u64_id in Hx by lia. lia.
Qed.

Lemma low_slice_claim_release_witness :
  let s := mk_slice 0x80000000 0 0 false in
  exists n s', iav_low_slice_claim s 7 = (0, s', Some n) /\ iav_low_slice_release s' 7 = (0, s).
Proof.
  intros s. destruct (low_slice_claim_release s 7) as (n & s' & H1 & _ & _ & _ & H2 & _); [lia|done..|].
  exists n, s'. split; assumption.
Defined.

(** The slice-list comparison answers 1 exactly for two lists of the same non-zero length with equal
    descriptors, and never reads past the eight-entry arrays of lists whose count is at most eight. *)
Theorem compare_list_iff a b :
  length (slices a) = 8%nat -> length (slices b) = 8%nat -> 0 <= count a <= 8 -> 0 <= count b <= 8 ->
  exists r, amba_virt_slice_compare_list (Some a) (Some b) = Some r /\
  (r = 1 <-> count a <> 0 /\ count a = count b /\
             take (Z.to_nat (count a)) (slices a) = take (Z.to_nat (count b)) (slices b)).
Proof.
  intros Ha Hb Hca Hcb. unfold amba_virt_slice_compare_list.
  destruct ((count a =? 0) || (count b =? 0) || negb (count a =? count b)) eqn:E.
  { exists 0. split; [done|]. split; [done|]. intros (H1 & H2 & _). rewrite <- H2 in E.
    rewrite Z.eqb_refl in E. destruct (Z.eqb_spec (count a) 0); done. }
  bool_hyps. destruct (compare_slices_spec 0 (Z.to_nat (count a)) (slices a) (slices b)) as [[-> Hj]|[-> (j & Hj & Hne)]].
  1,2: lia.
  - exists 1. split; [done|]. split; [intros _|done]. split_and!; [done..|].
    rewrite <- H0. apply list_eq. intros j. destruct (decide (j < Z.to_nat (count a))%nat).
    + rewrite !lookup_take_lt by done. apply Hj. lia.
    + by rewrite !lookup_take_ge by lia.
  - exists 0. split; [done|]. split; [done|]. intros (_ & Hc & Ht). exfalso. apply Hne.
    rewrite <- Hc in Ht. apply (f_equal (fun l => l !! j)) in Ht.
    rewrite !lookup_take_lt in Ht by lia. done.
Qed.

Lemma compare_list_iff_witness :
  let l := mk_list 2 (repeat (mk_desc 0 0 0 0 0) 8) in
  exists r, amba_virt_slice_compare_list (Some l) (Some l) = Some r /\ r = 1.
Proof.
  intros l. destruct (compare_list_iff l l) as (r & Hr & Hiff); [done|done|simpl; lia|simpl; lia|].
  exists r. split; [exact Hr|]. apply Hiff. done.
Defined.

End SliceProps.
