(* ===== verification/IavArena.v ===== *)
(** * The guest arena: anonymous memory partitions of the private IAV slice

    [Module IavArena] models guest-os/linux/amba-iav/iav_arena.c: the first-fit allocator over the slice of a
    guest, its users and mappings. The linked list is a list in the same order, a pointer to a block its
    position; the users of a block are the live part of its table; a file is its address. The memory of the
    bookkeeping comes from the caller, so whether it is there is an argument. *)

From Stdlib Require Import ZArith Lia Bool.
From stdpp Require Import base list numbers decidable.
From S2P Require Import Prelude.
#[local] Open Scope Z_scope.

Module IavArena.

Definition IAV_ARENA_ALIGN : Z := 0x10000.
Definition IAV_ARENA_ANON_TAG : Z := 0xff.
Definition IAV_ARENA_MAX_N : positive := 0xffffff.
Definition IAV_ARENA_MAX_USERS : Z := 64.

(** struct iav_arena_user *)
Record iav_arena_user := mk_user { us_file : Z; us_maps : Z }.

(** struct iav_arena_blk *)
Record iav_arena_blk := mk_blk {
  ab_vid : Z;
  ab_off : Z;
  ab_len : Z;
  ab_span : Z;
  ab_maps : Z;
  ab_users : list iav_arena_user;
}.

(** struct iav_arena *)
Record iav_arena := mk_arena {
  ar_usable : Z;
  ar_page : Z;
  ar_next_n : Z;
  ar_nblk : Z;
  ar_used : Z;
  ar_blks : list iav_arena_blk;
}.

Definition set_blks (a : iav_arena) (bs : list iav_arena_blk) : iav_arena :=
  mk_arena (ar_usable a) (ar_page a) (ar_next_n a) (ar_nblk a) (ar_used a) bs.
Definition set_users (b : iav_arena_blk) (us : list iav_arena_user) : iav_arena_blk :=
  mk_blk (ab_vid b) (ab_off b) (ab_len b) (ab_span b) (ab_maps b) us.

(** iav_arena_is_anon *)
Definition iav_arena_is_anon (id : Z) : bool := (Z.land id 0xff =? IAV_ARENA_ANON_TAG) && negb (Z.shiftr id 8 =? 0).

(** arena_round_up: [None] on overflow *)
Definition arena_round_up (v a : Z) : option Z :=
  let r := u64 (v + (a - 1)) in
  if r <? v then None else Some (Z.land r (not64 (a - 1))).

(** iav_arena_init *)
Definition iav_arena_init (usable page : Z) : Z + iav_arena :=
  if (usable =? 0) || (page =? 0) || negb (pow2_test page) || (page >? IAV_ARENA_ALIGN) then inl (- EINVAL)
  else inr (mk_arena usable page 1 0 0 []).

(** iav_arena_destroy *)
Definition iav_arena_destroy (a : iav_arena) : iav_arena :=
  mk_arena (ar_usable a) (ar_page a) (ar_next_n a) 0 0 [].

(** iav_arena_find *)
Definition iav_arena_find (a : iav_arena) (vid : Z) : option nat :=
  if negb (iav_arena_is_anon vid) then None else find_idx (fun b => ab_vid b =? vid) (ar_blks a).

(** iav_arena_find_at *)
Definition iav_arena_find_at (a : iav_arena) (off : Z) : option nat := find_idx (fun b => ab_off b =? off) (ar_blks a).

(** The id of a number and the number after it. *)
Definition vid_of (n : Z) : Z := Z.lor (u32 (Z.shiftl n 8)) IAV_ARENA_ANON_TAG.
Definition succ_n (n : Z) : Z := if n >=? Zpos IAV_ARENA_MAX_N then 1 else n + 1.

(** next_vid: the new next_n and the id, 0 when every id is in use *)
Definition next_vid (a : iav_arena) : Z * Z :=
  match iter_until IAV_ARENA_MAX_N
          (fun n => match iav_arena_find a (vid_of n) with
                    | None => inr (succ_n n, vid_of n)
                    | Some _ => inl (succ_n n)
                    end) (ar_next_n a) with
  | inr r => r
  | inl n => (n, 0)
  end.

(** user_of *)
Definition user_of (b : iav_arena_blk) (file : Z) : option nat := find_idx (fun u => us_file u =? file) (ab_users b).

(** add_user *)
Definition add_user (b : iav_arena_blk) (file : Z) : Z * iav_arena_blk :=
  match user_of b file with
  | Some _ => (0, b)
  | None =>
      if Z.of_nat (length (ab_users b)) >=? IAV_ARENA_MAX_USERS then (- EINVAL, b)
      else (0, set_users b (ab_users b ++ [mk_user file 0]))
  end.

(** drop_user: the last user takes the place of the one that leaves *)
Definition drop_user (b : iav_arena_blk) (file : Z) : iav_arena_blk :=
  match user_of b file, ab_users b !! (length (ab_users b) - 1)%nat with
  | Some i, Some u => set_users b (take (length (ab_users b) - 1) (<[i := u]> (ab_users b)))
  | _, _ => b
  end.

(** unlink_blk of the block at position [i] *)
Definition unlink_blk (a : iav_arena) (i : nat) : iav_arena :=
  match ar_blks a !! i with
  | Some b => mk_arena (ar_usable a) (ar_page a) (ar_next_n a) (u32 (ar_nblk a - 1)) (u64 (ar_used a - ab_span b))
                       (delete i (ar_blks a))
  | None => a
  end.

(** The first-fit loop of iav_arena_alloc: the offset and how many blocks lie before it. *)
Fixpoint first_fit (span at_ : Z) (bs : list iav_arena_blk) : Z * nat :=
  match bs with
  | [] => (at_, O)
  | b :: bs' =>
      if (ab_off b >=? at_) && (ab_off b - at_ >=? span) then (at_, O)
      else let '(o, k) := first_fit span (u64 (ab_off b + ab_span b)) bs' in (o, S k)
  end.

(** iav_arena_alloc: an error, or the id, the offset and the length *)
Definition iav_arena_alloc (zalloc : bool) (a : iav_arena) (file req : Z) : (Z + Z * Z * Z) * iav_arena :=
  if req =? 0 then (inl (- EINVAL), a)
  else
    match arena_round_up req (ar_page a) with
    | None => (inl (- EFAULT), a)
    | Some l =>
        match arena_round_up l IAV_ARENA_ALIGN with
        | None => (inl (- EFAULT), a)
        | Some span =>
            if span >? ar_usable a then (inl (- EFAULT), a)
            else
              let '(at_, i) := first_fit span 0 (ar_blks a) in
              if (at_ >? ar_usable a) || (ar_usable a - at_ <? span) then (inl (- EFAULT), a)
              else if negb zalloc then (inl (- EFAULT), a)
              else
                let '(n', vid) := next_vid a in
                if vid =? 0 then
                  (inl (- EFAULT), mk_arena (ar_usable a) (ar_page a) n' (ar_nblk a) (ar_used a) (ar_blks a))
                else
                  let nb := mk_blk vid at_ l span 0 [mk_user file 0] in
                  (inr (vid, at_, l),
                   mk_arena (ar_usable a) (ar_page a) n' (u32 (ar_nblk a + 1)) (u64 (ar_used a + span))
                            (take i (ar_blks a) ++ nb :: drop i (ar_blks a)))
        end
    end.

(** iav_arena_free *)
Definition iav_arena_free (a : iav_arena) (vid : Z) : Z * iav_arena :=
  match iav_arena_find a vid with
  | None => (- EINVAL, a)
  | Some i =>
      match ar_blks a !! i with
      | None => (- EINVAL, a)
      | Some b => if negb (ab_maps b =? 0) then (- EFAULT, a) else (0, unlink_blk a i)
      end
  end.

(** iav_arena_register *)
Definition iav_arena_register (a : iav_arena) (vid file : Z) : Z * iav_arena :=
  match iav_arena_find a vid with
  | None => (- EINVAL, a)
  | Some i =>
      match ar_blks a !! i with
      | None => (- EINVAL, a)
      | Some b => let '(rc, b') := add_user b file in (rc, set_blks a (<[i := b']> (ar_blks a)))
      end
  end.

(** iav_arena_unregister *)
Definition iav_arena_unregister (a : iav_arena) (vid file : Z) : Z * iav_arena :=
  match iav_arena_find a vid with
  | None => (- EINVAL, a)
  | Some i =>
      match ar_blks a !! i with
      | None => (- EINVAL, a)
      | Some b =>
          let mapped := match user_of b file ≫= (fun j => ab_users b !! j) with
                        | Some u => negb (us_maps u =? 0)
                        | None => false
                        end in
          if mapped then (- EPERM, a) else (0, set_blks a (<[i := drop_user b file]> (ar_blks a)))
      end
  end.

(** [u->maps] of the user at [j] becomes [f (u->maps)]. *)
Definition user_maps (f : Z -> Z) (j : nat) (b : iav_arena_blk) : iav_arena_blk :=
  set_users b (alter (fun u => mk_user (us_file u) (f (us_maps u))) j (ab_users b)).
Definition set_maps (b : iav_arena_blk) (m : Z) : iav_arena_blk :=
  mk_blk (ab_vid b) (ab_off b) (ab_len b) (ab_span b) m (ab_users b).

(** iav_arena_map of the block at position [i] *)
Definition iav_arena_map (a : iav_arena) (i : nat) (file : Z) : Z * iav_arena :=
  match ar_blks a !! i with
  | None => (- EINVAL, a)
  | Some b =>
      match add_user b file with
      | (0, b1) =>
          let b2 := match user_of b1 file with
                    | Some j => user_maps (fun m => u32 (m + 1)) j b1
                    | None => b1
                    end in
          (0, set_blks a (<[i := set_maps b2 (u32 (ab_maps b2 + 1))]> (ar_blks a)))
      | (_, b1) => (- EINVAL, set_blks a (<[i := b1]> (ar_blks a)))
      end
  end.

(** iav_arena_unmap of the block at position [i] *)
Definition iav_arena_unmap (a : iav_arena) (i : nat) (file : Z) : iav_arena :=
  match ar_blks a !! i with
  | None => a
  | Some b =>
      let b1 := match user_of b file with
                | Some j => user_maps (fun m => if m =? 0 then m else m - 1) j b
                | None => b
                end in
      set_blks a (<[i := set_maps b1 (if ab_maps b1 =? 0 then ab_maps b1 else ab_maps b1 - 1)]> (ar_blks a))
  end.

(** The second loop of iav_arena_release_file: the blocks from position [i] on. *)
Fixpoint release_idle (fuel i : nat) (a : iav_arena) : iav_arena :=
  match fuel with
  | O => a
  | S fuel' =>
      match ar_blks a !! i with
      | None => a
      | Some b =>
          if (Z.of_nat (length (ab_users b)) =? 0) && (ab_maps b =? 0) then release_idle fuel' i (unlink_blk a i)
          else release_idle fuel' (S i) a
      end
  end.

(** iav_arena_release_file *)
Definition iav_arena_release_file (a : iav_arena) (file : Z) : iav_arena :=
  let bs := map (fun b => drop_user b file) (ar_blks a) in
  release_idle (length bs) 0 (set_blks a bs).

End IavArena.
