(* ===== verification/IavArenaProps.v ===== *)
(** * Properties of the guest arena

    Reachable states carry a ghost list of the live mappings: the invariant ties the counters of the code to
    it, so that a block with a live mapping is never given back, and gives the layout of the blocks: sorted,
    aligned, disjoint, inside the slice, with unique ids. On that layout the first-fit search is complete. *)

From Stdlib Require Import ZArith Lia Bool.
From stdpp Require Import base list numbers decidable relations.
From S2P Require Import Prelude IavArena.
Import IavArena.
#[local] Open Scope Z_scope.

(** ** Layout *)

(** A block on its boundary, as long as it reports. *)
Record blk_ok (b : iav_arena_blk) : Prop := {
  bo_span : IAV_ARENA_ALIGN <= ab_span b;
  bo_off : (IAV_ARENA_ALIGN | ab_off b);
  bo_mult : (IAV_ARENA_ALIGN | ab_span b);
  bo_len : 0 < ab_len b <= ab_span b;
}.

(** The blocks lie in [[lo, hi)] in offset order without overlap. *)
Fixpoint laid_out (lo hi : Z) (bs : list iav_arena_blk) : Prop :=
  match bs with
  | [] => lo <= hi
  | b :: bs' => lo <= ab_off b /\ blk_ok b /\ laid_out (ab_off b + ab_span b) hi bs'
  end.

Definition mapping : Type := Z * Z.

(** How many live mappings a block has, and how many of them by one file. *)
Definition maps_of (ms : list mapping) (vid : Z) : Z := sumZ (fun m => if m.1 =? vid then 1 else 0) ms.
Definition maps_by (ms : list mapping) (vid file : Z) : Z :=
  sumZ (fun m => if (m.1 =? vid) && (m.2 =? file) then 1 else 0) ms.

Record users_ok (ms : list mapping) (b : iav_arena_blk) : Prop := {
  uo_count : Z.of_nat (length (ab_users b)) <= IAV_ARENA_MAX_USERS;
  uo_distinct : NoDup (us_file <$> ab_users b);
  uo_maps : forall u, u ∈ ab_users b -> 0 <= us_maps u <= maps_by ms (ab_vid b) (us_file u);
}.

Record arena_ok (a : iav_arena) (ms : list mapping) : Prop := {
  ao_usable : 0 < ar_usable a < 2 ^ 40;
  ao_page : exists k, 0 <= k <= 16 /\ ar_page a = 2 ^ k;
  ao_next : 1 <= ar_next_n a <= Zpos IAV_ARENA_MAX_N;
  ao_layout : laid_out 0 (ar_usable a) (ar_blks a);
  ao_nblk : ar_nblk a = Z.of_nat (length (ar_blks a));
  ao_used : ar_used a = sumZ ab_span (ar_blks a);
  ao_vids : NoDup (ab_vid <$> ar_blks a);
  ao_anon : forall b, b ∈ ar_blks a -> iav_arena_is_anon (ab_vid b) = true /\ is_u32 (ab_vid b);
  ao_maps : forall b, b ∈ ar_blks a -> ab_maps b = maps_of ms (ab_vid b);
  ao_users : forall b, b ∈ ar_blks a -> users_ok ms b;
  ao_mapped : forall m, m ∈ ms -> exists b, b ∈ ar_blks a /\ ab_vid b = m.1;
}.

(** ** Steps *)

(** The operations in any order. A mapping is recorded when the driver maps a block and removed when it is
    gone; a process cannot hold 2^32 mappings. *)
Inductive arena_step : iav_arena * list mapping -> iav_arena * list mapping -> Prop :=
| as_alloc z a ms file req r a' :
    is_u64 req -> iav_arena_alloc z a file req = (r, a') -> arena_step (a, ms) (a', ms)
| as_free a ms vid rc a' : iav_arena_free a vid = (rc, a') -> arena_step (a, ms) (a', ms)
| as_register a ms vid file rc a' : iav_arena_register a vid file = (rc, a') -> arena_step (a, ms) (a', ms)
| as_unregister a ms vid file rc a' : iav_arena_unregister a vid file = (rc, a') -> arena_step (a, ms) (a', ms)
| as_map a ms i b file a' :
    ar_blks a !! i = Some b -> maps_of ms (ab_vid b) + 1 < 2 ^ 32 ->
    iav_arena_map a i file = (0, a') -> arena_step (a, ms) (a', (ab_vid b, file) :: ms)
| as_map_full a ms i file rc a' :
    iav_arena_map a i file = (rc, a') -> rc <> 0 -> arena_step (a, ms) (a', ms)
| as_unmap a ms1 ms2 i b file :
    ar_blks a !! i = Some b -> arena_step (a, ms1 ++ (ab_vid b, file) :: ms2) (iav_arena_unmap a i file, ms1 ++ ms2)
| as_release a ms file : arena_step (a, ms) (iav_arena_release_file a file, ms)
| as_destroy a : arena_step (a, []) (iav_arena_destroy a, []).

Definition arena_reachable (usable page : Z) (st : iav_arena * list mapping) : Prop :=
  exists a0, iav_arena_init usable page = inr a0 /\ rtc arena_step (a0, []) st.

(** ** Layout lemmas *)

Lemma blk_span_pos b : blk_ok b -> 0x10000 <= ab_span b.
Proof. by intros []. Qed.

Lemma laid_out_le lo hi bs : laid_out lo hi bs -> lo <= hi.
Proof.
  revert lo. induction bs as [|b bs IH]; cbn; intros lo H; [done|]. destruct H as (? & Hb & H).
  apply IH in H. apply blk_span_pos in Hb. lia.
Qed.

Lemma laid_out_weaken lo lo' hi bs : laid_out lo hi bs -> lo' <= lo -> laid_out lo' hi bs.
Proof. destruct bs; cbn; [lia|]. intros (? & ?) ?. split; [lia|done]. Qed.

Lemma laid_out_elem lo hi bs b :
  laid_out lo hi bs -> b ∈ bs -> lo <= ab_off b /\ ab_off b + ab_span b <= hi /\ blk_ok b.
Proof.
  revert lo. induction bs as [|c bs IH]; intros lo H Hb; [by apply elem_of_nil in Hb|].
  destruct H as (H1 & H2 & H3). pose proof (laid_out_le _ _ _ H3). pose proof (blk_span_pos _ H2).
  apply elem_of_cons in Hb as [->|Hb]; [done|]. apply (IH _ H3) in Hb as (? & ? & ?). split_and!; [lia|lia|done].
Qed.

Lemma laid_out_app lo hi bs1 bs2 :
  laid_out lo hi (bs1 ++ bs2) <-> exists mid, laid_out lo mid bs1 /\ laid_out mid hi bs2.
Proof.
  revert lo. induction bs1 as [|b bs IH]; intros lo; cbn.
  - split; [intros H; exists lo; split; [lia|done]|intros (mid & H1 & H2); by eapply laid_out_weaken].
  - rewrite IH. split; [intros (? & ? & mid & ? & ?)|intros (mid & (? & ? & ?) & ?)]; eauto.
Qed.

Lemma laid_out_delete lo hi bs i : laid_out lo hi bs -> laid_out lo hi (delete i bs).
Proof.
  revert lo i. induction bs as [|b bs IH]; intros lo [|i] H; [done..| |].
  - destruct H as (? & Hb & H). apply blk_span_pos in Hb. cbn. eapply laid_out_weaken; [done|lia].
  - destruct H as (? & ? & H). cbn. split_and!; [done..|]. by apply IH.
Qed.

(** Blocks with the same id and extent. *)
Definition same_extent (b c : iav_arena_blk) : Prop :=
  ab_vid b = ab_vid c /\ ab_off b = ab_off c /\ ab_len b = ab_len c /\ ab_span b = ab_span c.

Lemma blk_ok_same b c : same_extent b c -> blk_ok b -> blk_ok c.
Proof. intros (_ & E2 & E3 & E4) []. split; by rewrite <- ?E2, <- ?E3, <- ?E4. Qed.

Lemma laid_out_same lo hi bs cs : Forall2 same_extent bs cs -> laid_out lo hi bs -> laid_out lo hi cs.
Proof.
  intros H. revert lo. induction H as [|b c bs cs Hs _ IH]; intros lo; cbn; [done|].
  pose proof Hs as (_ & E2 & _ & E4). rewrite <- E2, <- E4. intros (? & Hb & ?).
  split_and!; [done|by eapply blk_ok_same|by apply IH].
Qed.

(** ** Rounding *)

Lemma arena_round_up_spec v k :
  is_u64 v -> 0 <= k <= 32 ->
  match arena_round_up v (2 ^ k) with
  | None => 2 ^ 64 <= v + (2 ^ k - 1)
  | Some r => v <= r < v + 2 ^ k /\ (2 ^ k | r) /\ is_u64 r
  end.
Proof.
  unfold is_u64. intros Hv Hk. assert (Hp : 0 < 2 ^ k <= 2 ^ 32)
    by (split; [apply Z.pow_pos_nonneg; lia|apply Z.pow_le_mono_r; lia]).
  unfold arena_round_up, u64. destruct (Z_lt_ge_dec (v + (2 ^ k - 1)) (2 ^ 64)) as [Hlt|Hge].
  - rewrite Z.mod_small by lia. destruct (Z.ltb_spec (v + (2 ^ k - 1)) v); [lia|].
    unfold not64. rewrite land_not_mask by lia.
    pose proof (Z.div_mod (v + (2 ^ k - 1)) (2 ^ k) ltac:(lia)).
    pose proof (Z.mod_pos_bound (v + (2 ^ k - 1)) (2 ^ k) ltac:(lia)).
    split_and!; [lia|lia| |lia|lia]. exists ((v + (2 ^ k - 1)) / 2 ^ k). lia.
  - replace (v + (2 ^ k - 1)) with (v + (2 ^ k - 1) - 2 ^ 64 + 1 * 2 ^ 64) by lia.
    rewrite Z.mod_add, Z.mod_small by lia. destruct (Z.ltb_spec (v + (2 ^ k - 1) - 2 ^ 64) v); lia.
Qed.

(** ** First fit *)

(** The range of [span] bytes at [x] lies between [lo] and [hi] and no block touches it. *)
Definition free_at (span lo hi : Z) (bs : list iav_arena_blk) (x : Z) : Prop :=
  lo <= x /\ x + span <= hi /\ forall b, b ∈ bs -> disjoint_range x (x + span) (ab_off b) (ab_off b + ab_span b).
Definition room (span lo hi : Z) (bs : list iav_arena_blk) : Prop := exists x, free_at span lo hi bs x.

(** The search stops at the first gap that holds the span, or after the last block. *)
Lemma first_fit_spec span lo hi bs o k :
  0 < span -> 0 <= lo -> hi < 2 ^ 64 -> (IAV_ARENA_ALIGN | lo) -> laid_out lo hi bs -> first_fit span lo bs = (o, k) ->
  (k <= length bs)%nat /\ lo <= o <= hi /\ (IAV_ARENA_ALIGN | o) /\ laid_out lo o (take k bs) /\ laid_out o hi (drop k bs) /\
  ((k < length bs)%nat -> laid_out (o + span) hi (drop k bs)) /\
  (forall x, free_at span lo hi bs x -> o <= x).
Proof.
  revert lo o k. induction bs as [|b bs IH]; intros lo o k Hs Hlo Hhi Hal Hl.
  - cbn. intros [= <- <-]. cbn in *. split_and!; try done; try lia. intros x (? & ? & _). lia.
  - pose proof (laid_out_elem _ _ _ b Hl ltac:(by left)) as (Hb1 & Hb2 & Hb3). pose proof (blk_span_pos _ Hb3).
    pose proof Hl as (_ & _ & Hr). cbn [first_fit]. rewrite u64_id by lia.
    destruct ((ab_off b >=? lo) && _) eqn:E.
    + intros [= <- <-]. bool_hyps. cbn [take drop length]. split_and!; try done; try lia.
      * cbn. lia.
      * intros _. cbn in *. split_and!; [lia|done|done].
      * by intros x (? & _).
    + destruct (first_fit span (ab_off b + ab_span b) bs) as [o' k'] eqn:Ef. intros [= <- <-].
      destruct Hb3 as [_ Ho Hm _].
      apply IH in Ef as (H1 & H2 & H3 & H4 & H5 & H6 & H7); [|done|lia|done|by apply Z.divide_add_r|done].
      cbn [take drop length]. split_and!; try done; try lia.
      * cbn. split_and!; [lia|apply Hl|done].
      * intros. apply H6. lia.
      * intros x (Hx1 & Hx2 & Hx3). apply H7. split_and!; [|done|intros c Hc; apply Hx3; by right].
        destruct (Hx3 b ltac:(by left)) as [Hd|Hd]; [|lia].
        apply andb_false_iff in E as [E|E]; bool_hyps; lia.
Qed.

(** ** Identifiers *)

Lemma vid_of_val n : 1 <= n <= Zpos IAV_ARENA_MAX_N -> vid_of n = n * 256 + 255.
Proof.
  intros Hn. unfold vid_of, IAV_ARENA_ANON_TAG, IAV_ARENA_MAX_N in *.
  rewrite u32_id by (rewrite Z.shiftl_mul_pow2; lia). rewrite <- Z.lxor_lor, <- Z.add_nocarry_lxor;
    rewrite ?Z.shiftl_mul_pow2 by lia; [lia|..];
    apply Z.bits_inj'; intros i Hi; rewrite Z.land_spec, Z.bits_0; destruct (Z_lt_ge_dec i 8);
    [rewrite Z.mul_pow2_bits_low by lia; done| |rewrite Z.mul_pow2_bits_low by lia; done|];
    replace 255 with (Z.ones 8) by done; rewrite Z.ones_spec_high by lia; apply andb_false_r.
Qed.

Lemma vid_of_anon n : 1 <= n <= Zpos IAV_ARENA_MAX_N -> iav_arena_is_anon (vid_of n) = true /\ is_u32 (vid_of n).
Proof.
  intros Hn. unfold iav_arena_is_anon, is_u32. rewrite vid_of_val by done. unfold IAV_ARENA_MAX_N in Hn.
  rewrite Z.shiftr_div_pow2 by lia. replace 0xff with (Z.ones 8) at 2 by done. rewrite Z.land_ones by lia.
  replace ((n * 256 + 255) mod 2 ^ 8) with 255.
  - split; [|lia]. apply andb_true_iff. split; [done|]. apply negb_true_iff, Z.eqb_neq. change (2 ^ 8) with 256.
    assert (1 <= (n * 256 + 255) / 256) by (apply Z.div_le_lower_bound; lia). lia.
  - symmetry. change (2 ^ 8) with 256. rewrite Z.add_comm, Z.mod_add by lia. done.
Qed.

(** The [j]-th number tried from [n]. *)
Definition tried (n : Z) (j : nat) : Z := (n - 1 + Z.of_nat j) mod Zpos IAV_ARENA_MAX_N + 1.

Lemma succ_n_tried n j : 1 <= n <= Zpos IAV_ARENA_MAX_N -> succ_n (tried n j) = tried n (S j).
Proof.
  intros Hn. unfold succ_n, tried. set (M := Zpos IAV_ARENA_MAX_N) in *. assert (HM : 1 < M) by done.
  replace (n - 1 + Z.of_nat (S j)) with ((n - 1 + Z.of_nat j) + 1) by lia. set (x := n - 1 + Z.of_nat j).
  pose proof (Z.mod_pos_bound x M ltac:(lia)) as Hx. pose proof (Z.div_mod x M ltac:(lia)) as Hd.
  rewrite Z.geb_leb. destruct (Z.leb_spec M (x mod M + 1)).
  - replace (x + 1) with (0 + (x / M + 1) * M) by lia. rewrite Z.mod_add by lia. done.
  - replace (x + 1) with ((x mod M + 1) + (x / M) * M) by lia.
    rewrite Z.mod_add, (Z.mod_small (x mod M + 1)) by lia. lia.
Qed.

Lemma tried_range n j : 1 <= tried n j <= Zpos IAV_ARENA_MAX_N.
Proof. unfold tried. pose proof (Z.mod_pos_bound (n - 1 + Z.of_nat j) (Zpos IAV_ARENA_MAX_N) ltac:(done)). lia. Qed.

Lemma tried_inj n i j :
  (i < j)%nat -> Z.of_nat j < Zpos IAV_ARENA_MAX_N -> tried n i <> tried n j.
Proof.
  intros Hij Hj. unfold tried. set (M := Zpos IAV_ARENA_MAX_N) in *. intros E.
  assert (E' : (n - 1 + Z.of_nat j - (n - 1 + Z.of_nat i)) mod M = 0).
  { rewrite Zminus_mod. replace ((n - 1 + Z.of_nat j) mod M) with ((n - 1 + Z.of_nat i) mod M) by lia.
    rewrite Z.sub_diag. apply Z.mod_0_l. done. }
  rewrite Z.mod_small in E' by lia. lia.
Qed.

Lemma find_vid_None a vid :
  iav_arena_is_anon vid = true -> iav_arena_find a vid = None -> vid ∉ ab_vid <$> ar_blks a.
Proof.
  unfold iav_arena_find. intros -> Hf Hin. cbn [negb] in Hf. apply list_elem_of_fmap in Hin as (b & -> & Hb).
  pose proof (proj1 (find_idx_None _ _) Hf) as Hn. apply list_elem_of_lookup in Hb as [i Hi]. apply Hn in Hi. cbn in Hi. lia.
Qed.

Lemma find_vid_Some a vid i :
  iav_arena_find a vid = Some i -> exists b, ar_blks a !! i = Some b /\ ab_vid b = vid.
Proof.
  unfold iav_arena_find. case_match; [done|]. intros Hf. apply find_idx_Some in Hf as (b & Hb & E & _).
  exists b. split; [done|lia].
Qed.

(** The ids tried from [n], until one is free. *)
Lemma next_vid_tries a n k j :
  1 <= n <= Zpos IAV_ARENA_MAX_N ->
  match iter_nat k (fun m => match iav_arena_find a (vid_of m) with
                             | None => inr (succ_n m, vid_of m)
                             | Some _ => inl (succ_n m)
                             end) (tried n j) with
  | inr (n', vid) => exists i, vid = vid_of (tried n i) /\ n' = tried n (S i) /\ iav_arena_find a vid = None
  | inl _ => forall i, (j <= i < j + k)%nat -> vid_of (tried n i) ∈ ab_vid <$> ar_blks a
  end.
Proof.
  intros Hn. revert j. induction k as [|k IH]; intros j; cbn [iter_nat]; [intros; lia|].
  destruct (iav_arena_find a (vid_of (tried n j))) as [p|] eqn:E.
  - rewrite succ_n_tried by done. specialize (IH (S j)). destruct (iter_nat _ _ _) as [n'|[n' vid]]; [|done].
    intros i Hi. destruct (decide (i = j)) as [->|]; [|apply IH; lia].
    apply find_vid_Some in E as (b & Hb & <-). apply list_elem_of_fmap. exists b. split; [done|].
    by eapply list_elem_of_lookup_2.
  - exists j. by rewrite succ_n_tried.
Qed.

Lemma next_vid_spec a :
  1 <= ar_next_n a <= Zpos IAV_ARENA_MAX_N -> Z.of_nat (length (ar_blks a)) < Zpos IAV_ARENA_MAX_N ->
  exists i, next_vid a = (tried (ar_next_n a) (S i), vid_of (tried (ar_next_n a) i)) /\
            iav_arena_find a (vid_of (tried (ar_next_n a) i)) = None.
Proof.
  intros Hn Hl. unfold next_vid. rewrite iter_until_nat.
  assert (E0 : tried (ar_next_n a) 0 = ar_next_n a)
    by (unfold tried; rewrite Z.mod_small; lia).
  pose proof (next_vid_tries a (ar_next_n a) (Pos.to_nat IAV_ARENA_MAX_N) 0 Hn) as H. rewrite E0 in H.
  destruct (iter_nat _ _ _) as [n'|[n' vid]].
  - exfalso. set (M := Pos.to_nat IAV_ARENA_MAX_N) in *. assert (HM : Z.of_nat M = Zpos IAV_ARENA_MAX_N) by (unfold M; lia).
    assert (Hle : (length (map (fun i => vid_of (tried (ar_next_n a) i)) (seq 0 M)) <= length (ab_vid <$> ar_blks a))%nat).
    { apply submseteq_length, NoDup_submseteq.
      - apply NoDup_fmap_2_strong; [|apply NoDup_seq]. intros x y Hx Hy Exy. apply elem_of_seq in Hx, Hy.
        rewrite !vid_of_val in Exy by apply tried_range. destruct (Nat.lt_trichotomy x y) as [|[|]]; [|done|].
        + destruct (tried_inj (ar_next_n a) x y); lia.
        + destruct (tried_inj (ar_next_n a) y x); lia.
      - intros x Hx. apply list_elem_of_fmap in Hx as (i & -> & Hi). apply elem_of_seq in Hi. apply H. lia. }
    rewrite length_map, length_seq, length_fmap in Hle. lia.
  - destruct H as (i & -> & -> & H). by exists i.
Qed.

(** ** Preservation *)

Lemma laid_out_sum lo hi bs :
  laid_out lo hi bs -> 0x10000 * Z.of_nat (length bs) <= sumZ ab_span bs <= hi - lo.
Proof.
  revert lo. induction bs as [|b bs IH]; intros lo H; cbn [sumZ length]; [cbn in *; lia|].
  destruct H as (? & Hb & H). apply IH in H. apply blk_span_pos in Hb. lia.
Qed.

Lemma maps_of_nonneg ms vid : 0 <= maps_of ms vid.
Proof. apply sumZ_nonneg. intros m _. by case_match. Qed.
Lemma maps_by_nonneg ms vid file : 0 <= maps_by ms vid file.
Proof. apply sumZ_nonneg. intros m _. by case_match. Qed.
Lemma maps_by_le ms vid file : maps_by ms vid file <= maps_of ms vid.
Proof.
  unfold maps_by, maps_of. induction ms as [|m ms IH]; cbn [sumZ]; [lia|].
  destruct (m.1 =? vid), (m.2 =? file); cbn; lia.
Qed.

Lemma maps_of_pos ms vid file : (vid, file) ∈ ms -> 0 < maps_of ms vid.
Proof.
  intros H. apply list_elem_of_split in H as (l1 & l2 & ->). unfold maps_of. rewrite sumZ_app. cbn [sumZ fst].
  rewrite Z.eqb_refl. pose proof (maps_of_nonneg l1 vid). pose proof (maps_of_nonneg l2 vid). unfold maps_of in *. lia.
Qed.

Lemma maps_of_cons ms vid v f : maps_of ((v, f) :: ms) vid = (if v =? vid then 1 else 0) + maps_of ms vid.
Proof. done. Qed.
Lemma maps_by_cons ms vid file v f :
  maps_by ((v, f) :: ms) vid file = (if (v =? vid) && (f =? file) then 1 else 0) + maps_by ms vid file.
Proof. done. Qed.
Lemma maps_of_mid ms1 ms2 vid v f :
  maps_of (ms1 ++ (v, f) :: ms2) vid = (if v =? vid then 1 else 0) + maps_of (ms1 ++ ms2) vid.
Proof. unfold maps_of. rewrite !sumZ_app. cbn [sumZ fst]. lia. Qed.
Lemma maps_by_mid ms1 ms2 vid file v f :
  maps_by (ms1 ++ (v, f) :: ms2) vid file =
  (if (v =? vid) && (f =? file) then 1 else 0) + maps_by (ms1 ++ ms2) vid file.
Proof. unfold maps_by. rewrite !sumZ_app. cbn [sumZ fst snd]. lia. Qed.

Lemma Forall2_same_insert bs i b c :
  bs !! i = Some b -> same_extent b c -> Forall2 same_extent bs (<[i := c]> bs).
Proof.
  intros Hi Hs. apply Forall2_same_length_lookup_2; [by rewrite length_insert|]. intros j x y Hx Hy.
  destruct (decide (i = j)) as [<-|].
  - rewrite list_lookup_insert_eq in Hy by by eapply lookup_lt_Some. by simplify_eq.
  - rewrite list_lookup_insert_ne in Hy by done. simplify_eq. by split_and!.
Qed.

Lemma same_extent_vids bs cs : Forall2 same_extent bs cs -> ab_vid <$> cs = ab_vid <$> bs.
Proof. induction 1 as [|b c bs cs (E & _) _ IH]; cbn; [done|]. by rewrite E, IH. Qed.
Lemma same_extent_spans bs cs : Forall2 same_extent bs cs -> sumZ ab_span cs = sumZ ab_span bs.
Proof. induction 1 as [|b c bs cs (_ & _ & _ & E) _ IH]; cbn [sumZ]; [done|]. by rewrite E, IH. Qed.

(** New blocks with the ids and extents of the old ones, whatever their users. *)
Lemma arena_ok_same a ms ms' bs' :
  arena_ok a ms -> Forall2 same_extent (ar_blks a) bs' ->
  (forall b, b ∈ bs' -> ab_maps b = maps_of ms' (ab_vid b) /\ users_ok ms' b) ->
  (forall m, m ∈ ms' -> exists b, b ∈ ar_blks a /\ ab_vid b = m.1) ->
  arena_ok (set_blks a bs') ms'.
Proof.
  intros [] HF Hb Hm. pose proof (same_extent_vids _ _ HF) as Ev.
  split; cbn; try done.
  - by eapply laid_out_same.
  - by rewrite <- (Forall2_length _ _ _ HF).
  - by rewrite (same_extent_spans _ _ HF).
  - by rewrite Ev.
  - intros b Hin. assert (Hv : ab_vid b ∈ ab_vid <$> bs') by (apply list_elem_of_fmap; by exists b).
    rewrite Ev in Hv. apply list_elem_of_fmap in Hv as (c & -> & Hc). by apply ao_anon0.
  - intros b Hin. by apply Hb.
  - intros b Hin. by apply Hb.
  - intros m Hin. apply Hm in Hin as (b & Hbin & E).
    assert (Hv : ab_vid b ∈ ab_vid <$> bs') by (rewrite Ev; apply list_elem_of_fmap; by exists b).
    apply list_elem_of_fmap in Hv as (c & Ec & Hc). exists c. split; [done|congruence].
Qed.

(** The same for one block. *)
Lemma arena_ok_insert a ms ms' i b b' :
  arena_ok a ms -> ar_blks a !! i = Some b -> same_extent b b' ->
  ab_maps b' = maps_of ms' (ab_vid b) -> users_ok ms' b' ->
  (forall c, c ∈ ar_blks a -> ab_vid c <> ab_vid b -> maps_of ms' (ab_vid c) = maps_of ms (ab_vid c)) ->
  (forall c f, c ∈ ar_blks a -> ab_vid c <> ab_vid b -> maps_by ms (ab_vid c) f <= maps_by ms' (ab_vid c) f) ->
  (forall m, m ∈ ms' -> m ∈ ms \/ m.1 = ab_vid b) ->
  arena_ok (set_blks a (<[i := b']> (ar_blks a))) ms'.
Proof.
  intros Hok Hi Hs Hmaps Hus Ho Hby Hms. apply (arena_ok_same a ms); [done|by eapply Forall2_same_insert| |].
  - intros c Hc. apply list_elem_of_lookup in Hc as [j Hj]. destruct (decide (i = j)) as [<-|Hne].
    + rewrite list_lookup_insert_eq in Hj by by eapply lookup_lt_Some. injection Hj as <-.
      destruct Hs as (Ev & _). by rewrite <- Ev.
    + rewrite list_lookup_insert_ne in Hj by done. pose proof (list_elem_of_lookup_2 _ _ _ Hj) as Hc.
      assert (Hv : ab_vid c <> ab_vid b).
      { intros E. apply Hne. pose proof (ao_vids _ _ Hok) as Hnd.
        apply (NoDup_lookup (ab_vid <$> ar_blks a) i j (ab_vid b)); [done|by rewrite list_lookup_fmap, Hi|].
        by rewrite list_lookup_fmap, Hj, <- E. }
      destruct Hok. rewrite Ho by done. split; [by apply ao_maps0|].
      destruct (ao_users0 c Hc) as [H1 H2 H3]. split; [done..|]. intros u Hu. apply H3 in Hu. specialize (Hby c (us_file u) Hc Hv). lia.
  - intros m Hm. apply Hms in Hm as [Hm|Hm]; [by apply Hok|]. exists b. split; [by eapply list_elem_of_lookup_2|done].
Qed.

(** Removing a block nobody maps. *)
Lemma arena_ok_unlink a ms i b :
  arena_ok a ms -> ar_blks a !! i = Some b -> ab_maps b = 0 -> arena_ok (unlink_blk a i) ms.
Proof.
  intros Hok Hi Hm. pose proof Hok as []. unfold unlink_blk. rewrite Hi.
  pose proof (lookup_lt_Some _ _ _ Hi) as Hlt. pose proof (laid_out_sum _ _ _ ao_layout0) as Hsum.
  assert (Hin : forall c, c ∈ delete i (ar_blks a) -> c ∈ ar_blks a)
    by (intros c; apply sublist_subseteq, sublist_delete).
  assert (Hsp : sumZ ab_span (ar_blks a) = ab_span b + sumZ ab_span (delete i (ar_blks a))).
  { rewrite delete_take_drop, sumZ_app. rewrite <- (take_drop_middle _ _ _ Hi) at 1. rewrite sumZ_app. cbn [sumZ]. lia. }
  assert (0 <= sumZ ab_span (delete i (ar_blks a))).
  { apply sumZ_nonneg. intros c Hc. apply Hin in Hc. apply (laid_out_elem _ _ _ _ ao_layout0) in Hc as (_ & _ & Hc).
    apply blk_span_pos in Hc. lia. }
  split; cbn; try done.
  - by apply laid_out_delete.
  - rewrite length_delete by done. rewrite u32_id by lia. lia.
  - rewrite u64_id; [lia|]. apply (laid_out_elem _ _ _ b) in ao_layout0 as (_ & _ & Hb); [|by eapply list_elem_of_lookup_2].
    apply blk_span_pos in Hb. lia.
  - eapply sublist_NoDup; [exact ao_vids0|]. apply fmap_sublist, sublist_delete.
  - intros c Hc. by apply ao_anon0, Hin.
  - intros c Hc. by apply ao_maps0, Hin.
  - intros c Hc. by apply ao_users0, Hin.
  - intros m Hmm. destruct (ao_mapped0 m Hmm) as (c & Hc & Ec). exists c. split; [|done].
    apply list_elem_of_lookup in Hc as [j Hj]. destruct (decide (i = j)) as [<-|Hne].
    + simplify_eq. exfalso. destruct m as [v f]. cbn in *. subst v. apply maps_of_pos in Hmm.
      rewrite (ao_maps0 b) in Hm by (by eapply list_elem_of_lookup_2). lia.
    + rewrite delete_take_drop. apply elem_of_app. destruct (decide (j < i)%nat).
      * left. apply list_elem_of_lookup. exists j. by rewrite lookup_take_lt.
      * right. apply list_elem_of_lookup. exists (j - S i)%nat. rewrite lookup_drop. by replace (S i + (j - S i))%nat with j by lia.
Qed.

(** *** Users *)

Lemma user_of_Some b file j :
  user_of b file = Some j -> exists u, ab_users b !! j = Some u /\ us_file u = file.
Proof. intros H. apply find_idx_Some in H as (u & Hu & E & _). exists u. split; [done|lia]. Qed.

Lemma user_of_None b file : user_of b file = None -> file ∉ us_file <$> ab_users b.
Proof.
  intros H Hin. apply list_elem_of_fmap in Hin as (u & -> & Hu). apply list_elem_of_lookup in Hu as [i Hi].
  pose proof (proj1 (find_idx_None _ _) H i u Hi) as E. cbn in E. lia.
Qed.

Lemma add_user_ok ms b file rc b' :
  users_ok ms b -> add_user b file = (rc, b') ->
  users_ok ms b' /\ same_extent b b' /\ ab_maps b' = ab_maps b /\
  (rc = 0 -> exists j u, user_of b' file = Some j /\ ab_users b' !! j = Some u /\ us_file u = file) /\ (rc <> 0 -> b' = b).
Proof.
  intros [H1 H2 H3]. unfold add_user. destruct (user_of b file) as [j|] eqn:E.
  - intros [= <- <-]. split_and!; try done. intros _. pose proof E as E'. apply user_of_Some in E' as (u & ? & ?). eauto.
  - pose proof (user_of_None _ _ E) as Hn. case_match; intros [= <- <-]; [by split_and!|]. bool_hyps.
    split_and!; try done.
    + split; cbn.
      * rewrite length_app. cbn. unfold IAV_ARENA_MAX_USERS in *. lia.
      * rewrite fmap_app. apply NoDup_app. split_and!; [done| |cbn; apply NoDup_singleton].
        intros x Hx Hx'. cbn in Hx'. apply list_elem_of_singleton in Hx' as ->. done.
      * intros u Hu. apply elem_of_app in Hu as [Hu|Hu]; [by apply H3|]. apply list_elem_of_singleton in Hu as ->.
        cbn. pose proof (maps_by_nonneg ms (ab_vid b) file). lia.
    + intros _. destruct (user_of (set_users b _) file) as [j|] eqn:E2.
      * pose proof E2 as E3. apply user_of_Some in E3 as (u & ? & ?). eauto.
      * apply user_of_None in E2. destruct E2. cbn. rewrite fmap_app. apply elem_of_app. right. cbn. by left.
Qed.

(** Moving the last element over the [i]-th and dropping the last place removes the [i]-th. *)
Lemma replace_last_perm {A} (l : list A) i x u :
  l !! i = Some x -> l !! (length l - 1)%nat = Some u -> l ≡ₚ x :: take (length l - 1) (<[i := u]> l).
Proof.
  destruct l as [|u' l' _] using rev_ind; [done|]. rewrite length_app. cbn [length].
  replace (length l' + 1 - 1)%nat with (length l') by lia.
  intros Hi Hu. rewrite lookup_app_r, Nat.sub_diag in Hu by lia. injection Hu as <-. destruct (decide (i < length l')%nat) as [Hlt|Hge].
  - rewrite insert_app_l by done. rewrite take_app_le, take_ge by (rewrite ?length_insert; lia).
    rewrite lookup_app_l in Hi by done. rewrite (Permutation_app_comm l' [u']). cbn.
    rewrite <- (take_drop_middle _ _ _ Hi) at 1. rewrite insert_take_drop by done.
    rewrite <- !Permutation_middle. by rewrite Permutation_swap.
  - apply lookup_lt_Some in Hi as Hl. rewrite length_app in Hl. cbn in Hl. assert (i = length l') as -> by lia.
    rewrite lookup_app_r, Nat.sub_diag in Hi by lia. cbn in Hi. injection Hi as ->.
    rewrite insert_app_r_alt, Nat.sub_diag by lia. cbn. rewrite take_app_length. symmetry. apply Permutation_cons_append.
Qed.

Lemma drop_user_ok ms b file :
  users_ok ms b ->
  users_ok ms (drop_user b file) /\ same_extent b (drop_user b file) /\ ab_maps (drop_user b file) = ab_maps b /\
  file ∉ us_file <$> ab_users (drop_user b file).
Proof.
  intros Hu. unfold drop_user. destruct (user_of b file) as [i|] eqn:E.
  - pose proof E as E'. apply user_of_Some in E' as (x & Hx & Ex). pose proof (lookup_lt_Some _ _ _ Hx) as Hlt.
    destruct (lookup_lt_is_Some_2 (ab_users b) (length (ab_users b) - 1)) as [u Hl]; [lia|]. rewrite Hl.
    pose proof (replace_last_perm _ _ _ _ Hx Hl) as Hp. destruct Hu as [H1 H2 H3].
    assert (Hnd : NoDup (us_file <$> x :: take (length (ab_users b) - 1) (<[i := u]> (ab_users b)))) by by rewrite <- Hp.
    cbn in Hnd. apply NoDup_cons in Hnd as [Hn Hnd]. subst file. split_and!; try done. split; cbn; [|done|].
    + rewrite length_take, length_insert. lia.
    + intros v Hv. apply H3. rewrite Hp. by right.
  - split_and!; [done..|]. by apply user_of_None.
Qed.

(** *** Allocation *)

(** The bytes a request takes: its size rounded to the boundary. *)
Definition span_of (req : Z) : Z := IAV_ARENA_ALIGN * ((req + IAV_ARENA_ALIGN - 1) / IAV_ARENA_ALIGN).

Lemma span_of_bounds req : req <= span_of req < req + IAV_ARENA_ALIGN.
Proof.
  unfold span_of, IAV_ARENA_ALIGN. pose proof (Z.div_mod (req + 0x10000 - 1) 0x10000 ltac:(lia)).
  pose proof (Z.mod_pos_bound (req + 0x10000 - 1) 0x10000 ltac:(lia)). lia.
Qed.

(** Rounding to the page first does not change the span. *)
Lemma round_twice req k l s :
  0 <= k <= 16 -> req <= l < req + 2 ^ k -> (2 ^ k | l) -> l <= s < l + IAV_ARENA_ALIGN -> (IAV_ARENA_ALIGN | s) ->
  s = span_of req.
Proof.
  intros Hk Hl [p Hp] Hs [q Hq]. pose proof (span_of_bounds req) as Hb.
  assert (HA : IAV_ARENA_ALIGN = 2 ^ k * 2 ^ (16 - k)) by (rewrite <- Z.pow_add_r by lia; by replace (k + (16 - k)) with 16 by lia).
  assert (Hk0 : 0 < 2 ^ k) by (apply Z.pow_pos_nonneg; lia).
  assert (Hc : exists c, span_of req = 2 ^ k * c)
    by (exists (2 ^ (16 - k) * ((req + IAV_ARENA_ALIGN - 1) / IAV_ARENA_ALIGN)); unfold span_of; rewrite HA; lia).
  destruct Hc as [c Hc]. assert (Hle : l <= span_of req).
  { rewrite Hc, Hp in *. assert (p - 1 < c) by nia. nia. }
  unfold span_of in *. set (d := (req + IAV_ARENA_ALIGN - 1) / IAV_ARENA_ALIGN) in *. unfold IAV_ARENA_ALIGN in *. lia.
Qed.

Lemma request_span req k :
  is_u64 req -> 0 < req -> 0 <= k <= 16 ->
  match arena_round_up req (2 ^ k) ≫= (fun l => pair l <$> arena_round_up l IAV_ARENA_ALIGN) with
  | Some (l, span) => span = span_of req /\ 0 < l <= span /\ req <= l < req + 2 ^ k /\ is_u64 span
  | None => 2 ^ 40 <= span_of req
  end.
Proof.
  intros Hr H0 Hk. pose proof (arena_round_up_spec req k Hr ltac:(lia)) as H1.
  assert (Hp : 0 < 2 ^ k <= 2 ^ 16) by (split; [apply Z.pow_pos_nonneg; lia|apply Z.pow_le_mono_r; lia]).
  pose proof (span_of_bounds req) as Hb. unfold IAV_ARENA_ALIGN in Hb.
  destruct (arena_round_up req (2 ^ k)) as [l|]; cbn; [|lia]. destruct H1 as (H1 & H2 & H3).
  pose proof (arena_round_up_spec l 16 H3 ltac:(lia)) as H4. change (2 ^ 16) with IAV_ARENA_ALIGN in H4.
  destruct (arena_round_up l IAV_ARENA_ALIGN) as [s|]; cbn; [|unfold IAV_ARENA_ALIGN in *; lia]. destruct H4 as (H4 & H5 & H6).
  split; [by eapply round_twice|]. split; [lia|by split].
Qed.

(** An arena with room for one more block has fewer blocks than ids. *)
Lemma fits_count span usable bs i o :
  IAV_ARENA_ALIGN <= span -> o + span <= usable < 2 ^ 40 -> (i <= length bs)%nat -> laid_out 0 o (take i bs) ->
  ((i < length bs)%nat -> laid_out (o + span) usable (drop i bs)) -> Z.of_nat (length bs) < Zpos IAV_ARENA_MAX_N.
Proof.
  unfold IAV_ARENA_ALIGN, IAV_ARENA_MAX_N. intros Hs Ho Hi H1 H2.
  apply laid_out_sum in H1. rewrite length_take, Nat.min_l in H1 by done.
  destruct (decide (i < length bs)%nat) as [Hlt|]; [|lia].
  pose proof (laid_out_sum _ _ _ (H2 Hlt)) as H3. rewrite length_drop in H3. lia.
Qed.

(** What an allocation does: an error leaves the arena as it was, a success puts a block with a fresh id at
    the lowest boundary where it fits. *)
Lemma alloc_cases z a ms file req r a' :
  arena_ok a ms -> is_u64 req -> iav_arena_alloc z a file req = (r, a') ->
  (exists rc, r = inl rc /\ rc < 0 /\ a' = a /\ (z = true -> 0 < req -> ~ room (span_of req) 0 (ar_usable a) (ar_blks a))) \/
  (exists l i n' nb, r = inr (ab_vid nb, ab_off nb, l) /\ nb = mk_blk (ab_vid nb) (ab_off nb) l (span_of req) 0 [mk_user file 0] /\
     0 < l <= span_of req /\ req <= l < req + ar_page a /\ 1 <= n' <= Zpos IAV_ARENA_MAX_N /\
     first_fit (span_of req) 0 (ar_blks a) = (ab_off nb, i) /\ ab_off nb + span_of req <= ar_usable a /\
     iav_arena_is_anon (ab_vid nb) = true /\ is_u32 (ab_vid nb) /\ iav_arena_find a (ab_vid nb) = None /\
     a' = mk_arena (ar_usable a) (ar_page a) n' (u32 (ar_nblk a + 1)) (u64 (ar_used a + span_of req))
                   (take i (ar_blks a) ++ nb :: drop i (ar_blks a))).
Proof.
  intros [] Hr. unfold iav_arena_alloc. destruct (Z.eqb_spec req 0) as [->|Hnz].
  { intros [= <- <-]. left. exists (- EINVAL). split_and!; [done..|lia]. }
  destruct ao_page0 as (k & Hk & ->). assert (0 < req) by (unfold is_u64 in Hr; lia).
  pose proof (request_span req k Hr ltac:(lia) Hk) as Hs. unfold mbind, option_bind in Hs.
  pose proof (span_of_bounds req) as Hsb.
  destruct (arena_round_up req (2 ^ k)) as [l|]; [destruct (arena_round_up l IAV_ARENA_ALIGN) as [s|]|]; cbn in Hs.
  2,3: intros [= <- <-]; left; exists (- EFAULT); split_and!; [done..|]; intros _ _ (x & Hx1 & Hx2 & _); lia.
  destruct Hs as (-> & Hl & Hlen & Hs). destruct (Z.ltb_spec (ar_usable a) (span_of req)) as [Hlt|Hge].
  { replace (span_of req >? ar_usable a) with true by (symmetry; rewrite Z.gtb_ltb; by apply Z.ltb_lt).
    intros [= <- <-]. left. exists (- EFAULT). split_and!; [done..|]. intros _ _ (x & Hx1 & Hx2 & _). lia. }
  replace (span_of req >? ar_usable a) with false by (symmetry; rewrite Z.gtb_ltb; by apply Z.ltb_ge).
  destruct (first_fit (span_of req) 0 (ar_blks a)) as [o i] eqn:Ef. pose proof Ef as Ef'.
  apply (first_fit_spec _ _ (ar_usable a)) in Ef' as (F1 & F2 & F3 & F4 & F5 & F6 & F7); [|lia|lia|lia|by exists 0|done].
  destruct ((o >? ar_usable a) || _) eqn:E1.
  { intros [= <- <-]. left. exists (- EFAULT). split_and!; [done..|]. intros _ _ (x & Hx). pose proof (F7 x Hx). destruct Hx as (_ & Hx & _).
    apply orb_true_iff in E1 as [E1|E1]; bool_hyps; lia. }
  bool_hyps. destruct z; cbn [negb]; [|intros [= <- <-]; left; exists (- EFAULT); by split_and!].
  assert (Hn : Z.of_nat (length (ar_blks a)) < Zpos IAV_ARENA_MAX_N)
    by (eapply (fits_count (span_of req)); [| |done..]; [unfold span_of, IAV_ARENA_ALIGN in *|]; lia).
  destruct (next_vid_spec a ao_next0 Hn) as (j & -> & Hfree). pose proof (tried_range (ar_next_n a) j) as Hj.
  pose proof (vid_of_anon _ Hj) as [Ha Hu]. rewrite (vid_of_val _ Hj) at 1. destruct (Z.eqb_spec (tried (ar_next_n a) j * 256 + 255) 0); [lia|].
  intros [= <- <-]. right. exists l, i, (tried (ar_next_n a) (S j)), (mk_blk (vid_of (tried (ar_next_n a) j)) o l (span_of req) 0 [mk_user file 0]).
  pose proof (tried_range (ar_next_n a) (S j)). cbn [ab_vid ab_off]. split_and!; try done; lia.
Qed.

Lemma arena_alloc_ok z a ms file req r a' :
  arena_ok a ms -> is_u64 req -> iav_arena_alloc z a file req = (r, a') -> arena_ok a' ms.
Proof.
  intros Hok Hr H. apply (alloc_cases _ _ _ _ _ _ _ Hok Hr) in H as [(rc & _ & _ & -> & _)|H]; [done|].
  destruct H as (l & i & n' & nb & _ & Enb & Hl & _ & Hn' & Ef & Hfit & Ha & Hu & Hfree & ->). pose proof Hok as [].
  pose proof (find_vid_None _ _ Ha Hfree) as Hnew. pose proof (span_of_bounds req) as Hsb.
  assert (Hs : IAV_ARENA_ALIGN <= span_of req) by (unfold span_of, IAV_ARENA_ALIGN in *; lia).
  assert (Hsp : ab_span nb = span_of req) by (by rewrite Enb).
  apply (first_fit_spec _ _ (ar_usable a)) in Ef as (F1 & F2 & F3 & F4 & F5 & F6 & _); [|lia|lia|lia|by exists 0|done].
  assert (Hp : take i (ar_blks a) ++ nb :: drop i (ar_blks a) ≡ₚ nb :: ar_blks a)
    by (rewrite <- Permutation_middle; by rewrite take_drop).
  assert (Hnb : blk_ok nb).
  { split; rewrite ?Hsp; [done|done|by exists ((req + IAV_ARENA_ALIGN - 1) / IAV_ARENA_ALIGN); unfold span_of; lia|by rewrite Enb]. }
  assert (Hmaps0 : maps_of ms (ab_vid nb) = 0).
  { destruct (decide (maps_of ms (ab_vid nb) = 0)) as [|Hne]; [done|]. exfalso. apply Hne. apply sumZ_zero.
    intros j m Hm. destruct (Z.eqb_spec m.1 (ab_vid nb)) as [E|]; [|done]. destruct Hnew. rewrite <- E.
    destruct (ao_mapped0 m ltac:(by eapply list_elem_of_lookup_2)) as (b & Hb & <-). apply list_elem_of_fmap. by exists b. }
  assert (Hsum := laid_out_sum _ _ _ ao_layout0). unfold IAV_ARENA_ALIGN in Hs.
  split; cbn [ar_usable ar_page ar_next_n ar_nblk ar_used ar_blks]; try done.
  - apply laid_out_app. exists (ab_off nb). split; [done|]. cbn. split_and!; [lia|done|]. rewrite Hsp.
    destruct (decide (i < length (ar_blks a))%nat); [auto|]. rewrite drop_ge by lia. cbn. lia.
  - rewrite Hp. cbn [length]. rewrite u32_id by lia. lia.
  - assert (Ep : sumZ ab_span (take i (ar_blks a) ++ nb :: drop i (ar_blks a)) = span_of req + sumZ ab_span (ar_blks a))
      by (rewrite <- (take_drop i (ar_blks a)) at 3; rewrite !sumZ_app; cbn [sumZ]; lia).
    rewrite Ep, u64_id by lia. lia.
  - rewrite Hp. cbn. by apply NoDup_cons.
  - intros b Hb. rewrite Hp in Hb. apply elem_of_cons in Hb as [->|Hb]; [done|by apply ao_anon0].
  - intros b Hb. rewrite Hp in Hb. apply elem_of_cons in Hb as [->|Hb]; [by rewrite Hmaps0, Enb|by apply ao_maps0].
  - intros b Hb. rewrite Hp in Hb. apply elem_of_cons in Hb as [->|Hb]; [|by apply ao_users0].
    rewrite Enb. split; cbn; [done|apply NoDup_singleton|]. intros u Hu'. apply list_elem_of_singleton in Hu' as ->. cbn.
    pose proof (maps_by_nonneg ms (ab_vid nb) file). lia.
  - intros m Hm. apply ao_mapped0 in Hm as (b & Hb & E). exists b. split; [|done]. rewrite Hp. by right.
Qed.

Lemma first_fit_lowest a ms span o i :
  arena_ok a ms -> 0 < span -> first_fit span 0 (ar_blks a) = (o, i) -> o + span <= ar_usable a ->
  free_at span 0 (ar_usable a) (ar_blks a) o /\ forall x, free_at span 0 (ar_usable a) (ar_blks a) x -> o <= x.
Proof.
  intros [] Hs Ef Hfit.
  apply (first_fit_spec _ _ (ar_usable a)) in Ef as (F1 & F2 & F3 & F4 & F5 & F6 & F7); [|lia|lia|lia|by exists 0|done].
  split; [|done]. split_and!; [lia|lia|]. intros b Hb. rewrite <- (take_drop i (ar_blks a)) in Hb. apply elem_of_app in Hb as [Hb|Hb].
  - apply (laid_out_elem _ _ _ _ F4) in Hb as (? & ? & _). right. lia.
  - left. destruct (decide (i < length (ar_blks a))%nat) as [Hi|]; [|rewrite drop_ge in Hb by lia; by apply elem_of_nil in Hb].
    apply (laid_out_elem _ _ _ _ (F6 Hi)) in Hb as (? & _). lia.
Qed.

(** *** The other operations *)

Lemma free_ok a ms vid rc a' : arena_ok a ms -> iav_arena_free a vid = (rc, a') -> arena_ok a' ms.
Proof.
  intros Hok. unfold iav_arena_free. destruct (iav_arena_find a vid) as [i|] eqn:E; [|by intros [= _ <-]].
  destruct (ar_blks a !! i) as [b|] eqn:Eb; [|by intros [= _ <-]]. destruct (Z.eqb_spec (ab_maps b) 0); intros [= _ <-]; [|done].
  by eapply arena_ok_unlink.
Qed.

(** One block changed in its users only. *)
Lemma arena_ok_users a ms i b b' :
  arena_ok a ms -> ar_blks a !! i = Some b -> same_extent b b' -> ab_maps b' = ab_maps b -> users_ok ms b' ->
  arena_ok (set_blks a (<[i := b']> (ar_blks a))) ms.
Proof.
  intros Hok Hi Hs Hm Hu. eapply arena_ok_insert; try done.
  - rewrite Hm. apply Hok. by eapply list_elem_of_lookup_2.
  - by intros m; left.
Qed.

Lemma register_ok a ms vid file rc a' : arena_ok a ms -> iav_arena_register a vid file = (rc, a') -> arena_ok a' ms.
Proof.
  intros Hok. unfold iav_arena_register. destruct (iav_arena_find a vid) as [i|]; [|by intros [= _ <-]].
  destruct (ar_blks a !! i) as [b|] eqn:Eb; [|by intros [= _ <-]]. destruct (add_user b file) as [r b'] eqn:Ea. intros [= _ <-].
  apply (add_user_ok ms) in Ea as (? & ? & ? & _); [|apply Hok; by eapply list_elem_of_lookup_2]. by eapply arena_ok_users.
Qed.

Lemma unregister_ok a ms vid file rc a' : arena_ok a ms -> iav_arena_unregister a vid file = (rc, a') -> arena_ok a' ms.
Proof.
  intros Hok. unfold iav_arena_unregister. destruct (iav_arena_find a vid) as [i|]; [|by intros [= _ <-]].
  destruct (ar_blks a !! i) as [b|] eqn:Eb; [|by intros [= _ <-]]. case_match; intros [= _ <-]; [done|].
  destruct (drop_user_ok ms b file) as (? & ? & ? & _); [apply Hok; by eapply list_elem_of_lookup_2|]. by eapply arena_ok_users.
Qed.

(** Counting one user up or down. *)
Lemma user_maps_ok ms ms' f j b u :
  users_ok ms b -> ab_users b !! j = Some u ->
  (forall file, file <> us_file u -> maps_by ms (ab_vid b) file <= maps_by ms' (ab_vid b) file) ->
  0 <= f (us_maps u) <= maps_by ms' (ab_vid b) (us_file u) ->
  users_ok ms' (user_maps f j b) /\ same_extent b (user_maps f j b) /\ ab_maps (user_maps f j b) = ab_maps b.
Proof.
  intros [H1 H2 H3] Hj Hle Hf. split_and!; try done. split; cbn.
  - by rewrite length_alter.
  - replace (us_file <$> alter _ j (ab_users b)) with (us_file <$> ab_users b); [done|].
    apply list_eq. intros i. rewrite !list_lookup_fmap. destruct (decide (i = j)) as [->|].
    + rewrite list_lookup_alter_eq, Hj. done.
    + by rewrite list_lookup_alter_ne.
  - intros v Hv. apply list_elem_of_lookup in Hv as [i Hi]. destruct (decide (i = j)) as [->|Hne].
    + rewrite list_lookup_alter_eq, Hj in Hi. cbn in Hi. injection Hi as <-. cbn. done.
    + rewrite list_lookup_alter_ne in Hi by done. assert (us_file v <> us_file u).
      { intros E. apply Hne. apply (NoDup_lookup (us_file <$> ab_users b) i j (us_file u)); [done|..]; rewrite list_lookup_fmap;
          [rewrite Hi|rewrite Hj]; cbn; congruence. }
      specialize (Hle (us_file v) H). specialize (H3 v ltac:(by eapply list_elem_of_lookup_2)). lia.
Qed.

Lemma set_maps_ok ms b m : users_ok ms b -> users_ok ms (set_maps b m) /\ same_extent b (set_maps b m).
Proof. intros []. by split_and!. Qed.

Lemma same_extent_trans b c d : same_extent b c -> same_extent c d -> same_extent b d.
Proof. unfold same_extent. intros (-> & -> & -> & ->) ?. done. Qed.

Lemma map_ok a ms i b file a' :
  arena_ok a ms -> ar_blks a !! i = Some b -> maps_of ms (ab_vid b) + 1 < 2 ^ 32 ->
  iav_arena_map a i file = (0, a') -> arena_ok a' ((ab_vid b, file) :: ms).
Proof.
  intros Hok Hi Hlim. unfold iav_arena_map. rewrite Hi. destruct (add_user b file) as [rc b1] eqn:Ea.
  assert (Hin : b ∈ ar_blks a) by by eapply list_elem_of_lookup_2.
  apply (add_user_ok ms) in Ea as (Hu1 & Hs1 & Hm1 & H0 & _); [|by apply Hok].
  destruct rc; [|done|done]. intros [= <-]. destruct (H0 eq_refl) as (j & u & -> & Hj & <-).
  pose proof (ao_maps _ _ Hok b Hin) as Hmb. pose proof (maps_of_nonneg ms (ab_vid b)).
  assert (Ev : ab_vid b1 = ab_vid b) by (by destruct Hs1 as (-> & _)).
  pose proof (uo_maps _ _ Hu1 u ltac:(by eapply list_elem_of_lookup_2)) as Hum.
  pose proof (maps_by_le ms (ab_vid b1) (us_file u)) as Hle.
  destruct (user_maps_ok ms ((ab_vid b, us_file u) :: ms) (fun m => u32 (m + 1)) j b1 u Hu1 Hj) as (Hu2 & Hs2 & Hm2).
  { intros f Hf. rewrite maps_by_cons. case_match; lia. }
  { rewrite maps_by_cons, Ev, !Z.eqb_refl. cbn. rewrite Ev in *. rewrite u32_id; lia. }
  rewrite Hm2, Hm1. destruct (set_maps_ok _ _ (u32 (ab_maps b + 1)) Hu2) as [Hu3 Hs3].
  eapply arena_ok_insert; [done|done|eapply same_extent_trans; [done|by eapply same_extent_trans]| |done|..].
  - cbn [ab_maps set_maps]. rewrite maps_of_cons, Z.eqb_refl, u32_id by lia. lia.
  - intros c _ Hne. rewrite maps_of_cons. destruct (Z.eqb_spec (ab_vid b) (ab_vid c)); [congruence|done].
  - intros c f _ _. rewrite maps_by_cons. case_match; lia.
  - intros m Hm. apply elem_of_cons in Hm as [->|Hm]; [by right|by left].
Qed.

Lemma map_full_ok a ms i file rc a' :
  arena_ok a ms -> iav_arena_map a i file = (rc, a') -> rc <> 0 -> arena_ok a' ms.
Proof.
  intros Hok. unfold iav_arena_map. destruct (ar_blks a !! i) as [b|] eqn:Hi; [|by intros [= _ <-]].
  destruct (add_user b file) as [r b1] eqn:Ea. apply (add_user_ok ms) in Ea as (? & ? & ? & _ & Hne); [|apply Hok; by eapply list_elem_of_lookup_2].
  destruct r; intros [= <- <-] ?; [done|by eapply arena_ok_users..].
Qed.

Lemma unmap_ok a ms1 ms2 i b file :
  arena_ok a (ms1 ++ (ab_vid b, file) :: ms2) -> ar_blks a !! i = Some b -> arena_ok (iav_arena_unmap a i file) (ms1 ++ ms2).
Proof.
  intros Hok Hi. unfold iav_arena_unmap. rewrite Hi. assert (Hin : b ∈ ar_blks a) by by eapply list_elem_of_lookup_2.
  pose proof (ao_maps _ _ Hok b Hin) as Hmb. rewrite maps_of_mid, Z.eqb_refl in Hmb. pose proof (maps_of_nonneg (ms1 ++ ms2) (ab_vid b)).
  pose proof (ao_users _ _ Hok b Hin) as Hu.
  assert (Hb1 : exists b1, match user_of b file with
                           | Some j => user_maps (fun m => if m =? 0 then m else m - 1) j b
                           | None => b
                           end = b1 /\ users_ok (ms1 ++ ms2) b1 /\ same_extent b b1 /\ ab_maps b1 = ab_maps b).
  { eexists. split; [done|]. destruct (user_of b file) as [j|] eqn:E.
    - apply user_of_Some in E as (u & Hj & <-). eapply user_maps_ok; [done|done|..].
      + intros f Hf. rewrite maps_by_mid. destruct (Z.eqb_spec (us_file u) f); [congruence|]. rewrite andb_false_r. lia.
      + pose proof (uo_maps _ _ Hu u ltac:(by eapply list_elem_of_lookup_2)) as Hum. rewrite maps_by_mid, !Z.eqb_refl in Hum. cbn in Hum.
        pose proof (maps_by_nonneg (ms1 ++ ms2) (ab_vid b) (us_file u)). case_match; lia.
    - apply user_of_None in E. split_and!; try done. destruct Hu as [H1 H2 H3]. split; [done..|]. intros u Hin'.
      specialize (H3 u Hin'). rewrite maps_by_mid in H3. destruct (Z.eqb_spec file (us_file u)) as [->|]; [|by rewrite andb_false_r in H3].
      destruct E. apply list_elem_of_fmap. by exists u. }
  destruct Hb1 as (b1 & -> & Hu1 & Hs1 & Hm1). rewrite Hm1. destruct (Z.eqb_spec (ab_maps b) 0); [lia|].
  destruct (set_maps_ok _ _ (ab_maps b - 1) Hu1) as [Hu2 Hs2].
  eapply arena_ok_insert; [done|done|by eapply same_extent_trans|cbn; lia|done|..].
  - intros c _ Hne. rewrite maps_of_mid. destruct (Z.eqb_spec (ab_vid b) (ab_vid c)); [congruence|done].
  - intros c f _ Hne. rewrite maps_by_mid. destruct (Z.eqb_spec (ab_vid b) (ab_vid c)); [congruence|cbn; lia].
  - intros m Hm. left. apply elem_of_app in Hm as [|]; apply elem_of_app; [by left|right; by right].
Qed.

(** *** Release of a file *)

(** A block that somebody uses or maps. *)
Definition busy (b : iav_arena_blk) : Prop := ab_users b <> [] \/ ab_maps b <> 0.
#[global] Instance busy_dec b : Decision (busy b).
Proof.
  unfold busy. destruct (ab_users b); [|left; by left]. destruct (decide (ab_maps b = 0)); [right; by intros [|]|left; by right].
Defined.

Lemma idle_test b : (Z.of_nat (length (ab_users b)) =? 0) && (ab_maps b =? 0) = true <-> ~ busy b.
Proof.
  rewrite andb_true_iff, !Z.eqb_eq. unfold busy. destruct (ab_users b); cbn; split; intros H; [|split; [done|]|lia|].
  - by intros [|]; [|destruct H].
  - destruct (decide (ab_maps b = 0)); [done|]. destruct H. by right.
  - destruct H. by left.
Qed.

(** The loop keeps the busy blocks, and unlinks the others. *)
Lemma release_idle_blks fuel i a :
  (length (ar_blks a) - i <= fuel)%nat ->
  ar_blks (release_idle fuel i a) = take i (ar_blks a) ++ filter busy (drop i (ar_blks a)).
Proof.
  revert i a. induction fuel as [|fuel IH]; intros i a Hf; cbn [release_idle].
  - by rewrite drop_ge, app_nil_r, take_ge by lia.
  - destruct (ar_blks a !! i) as [b|] eqn:Hi.
    2:{ apply lookup_ge_None in Hi. by rewrite drop_ge, app_nil_r, take_ge by lia. }
    pose proof (lookup_lt_Some _ _ _ Hi) as Hlt. rewrite (drop_S _ _ _ Hi), filter_cons. destruct (_ && _) eqn:E.
    + apply idle_test in E. rewrite decide_False by done. unfold unlink_blk. rewrite Hi. rewrite IH by (cbn; rewrite length_delete by done; lia).
      cbn [ar_blks]. rewrite delete_take_drop. rewrite take_app_le, take_take, Nat.min_id by (rewrite length_take; lia).
      rewrite drop_app_ge, drop_drop by (rewrite length_take; lia). f_equal. f_equal. f_equal. rewrite length_take. lia.
    + apply not_true_iff_false in E. rewrite idle_test in E. apply dec_stable in E. rewrite decide_True by done.
      rewrite IH by lia. by rewrite (take_S_r _ _ _ Hi), <- app_assoc.
Qed.

Lemma release_idle_ok fuel i a ms : arena_ok a ms -> arena_ok (release_idle fuel i a) ms.
Proof.
  revert i a. induction fuel as [|fuel IH]; intros i a Hok; cbn [release_idle]; [done|].
  destruct (ar_blks a !! i) as [b|] eqn:Hi; [|done]. destruct (_ && _) eqn:E; [|by apply IH].
  apply IH. eapply arena_ok_unlink; [done|done|]. bool_hyps. done.
Qed.

Lemma release_blks a file :
  ar_blks (iav_arena_release_file a file) = filter busy ((fun b => drop_user b file) <$> ar_blks a).
Proof. unfold iav_arena_release_file. rewrite release_idle_blks by (cbn; lia). done. Qed.

Lemma drop_all_ok a ms file : arena_ok a ms -> arena_ok (set_blks a (map (fun b => drop_user b file) (ar_blks a))) ms.
Proof.
  intros Hok. eapply arena_ok_same; [done| | |apply Hok].
  - apply Forall2_fmap_r, Forall_Forall2_diag, Forall_forall. intros b Hb. by apply (drop_user_ok ms), Hok.
  - intros c Hc. apply list_elem_of_fmap in Hc as (b & -> & Hb).
    destruct (drop_user_ok ms b file) as (? & (<- & _) & -> & _); [by apply Hok|]. split; [by apply Hok|done].
Qed.

Lemma arena_release_ok a ms file : arena_ok a ms -> arena_ok (iav_arena_release_file a file) ms.
Proof. intros Hok. by apply release_idle_ok, drop_all_ok. Qed.

(** *** Every step *)

Lemma arena_init_ok usable page a : usable < 2 ^ 40 -> 0 <= usable -> 0 <= page -> iav_arena_init usable page = inr a -> arena_ok a [].
Proof.
  intros Hu H0 Hp. unfold iav_arena_init. destruct (_ || _) eqn:E; [done|]. intros [= <-]. bool_hyps. unfold IAV_ARENA_ALIGN in *.
  split; cbn; try done; try lia.
  - exists (Z.log2 page). assert (0 < page) by lia. split; [|by apply pow2_test_true].
    split; [apply Z.log2_nonneg|]. pose proof (Z.log2_le_mono page 0x10000 ltac:(lia)) as H'. by change (Z.log2 0x10000) with 16 in H'.
  - apply NoDup_nil_2.
  - intros b Hb. by apply elem_of_nil in Hb.
  - intros b Hb. by apply elem_of_nil in Hb.
  - intros b Hb. by apply elem_of_nil in Hb.
  - intros b Hb. by apply elem_of_nil in Hb.
Qed.

Lemma destroy_ok a : arena_ok a [] -> arena_ok (iav_arena_destroy a) [].
Proof.
  intros []. split; cbn; try done; try lia; try (intros b Hb; by apply elem_of_nil in Hb). apply NoDup_nil_2.
Qed.

Lemma arena_step_ok st st' : arena_step st st' -> arena_ok st.1 st.2 -> arena_ok st'.1 st'.2.
Proof.
  destruct 1; cbn; intros Hok; [by eapply arena_alloc_ok|by eapply free_ok|by eapply register_ok|by eapply unregister_ok|
    by eapply map_ok|by eapply map_full_ok|by eapply unmap_ok|by apply arena_release_ok|by apply destroy_ok].
Qed.

(** *** Blocks do not move *)

(** Every block of [a'] is a block of [a] at its place, or has an id [a] did not use. *)
Definition in_place (a a' : iav_arena) : Prop :=
  forall b', b' ∈ ar_blks a' -> (exists b, b ∈ ar_blks a /\ same_extent b b') \/ ab_vid b' ∉ ab_vid <$> ar_blks a.

Lemma in_place_refl a : in_place a a.
Proof. intros b Hb. left. by exists b. Qed.

Lemma in_place_insert a i b b' : ar_blks a !! i = Some b -> same_extent b b' -> in_place a (set_blks a (<[i := b']> (ar_blks a))).
Proof.
  intros Hi Hs c Hc. left. cbn in Hc. apply list_elem_of_lookup in Hc as [j Hj].
  apply lookup_insert_inv in Hj as [[-> ->]|[_ Hj]]; [exists b|exists c]; (split; [by eapply list_elem_of_lookup_2|done]).
Qed.

Lemma in_place_unlink a i : in_place a (unlink_blk a i).
Proof.
  unfold unlink_blk. destruct (ar_blks a !! i) as [b|]; [|apply in_place_refl]. intros c Hc. left. exists c. split; [|done].
  by apply (sublist_subseteq _ _ (sublist_delete _ i)) in Hc.
Qed.

Lemma drop_user_extent b file : same_extent b (drop_user b file).
Proof. unfold drop_user. by repeat case_match. Qed.
Lemma add_user_extent b file rc b' : add_user b file = (rc, b') -> same_extent b b' /\ (rc = 0 \/ b' = b).
Proof. unfold add_user. repeat case_match; intros [= <- <-]; split; auto; done. Qed.

Lemma arena_step_in_place st st' : arena_ok st.1 st.2 -> arena_step st st' -> in_place st.1 st'.1.
Proof.
  destruct 2; cbn in *.
  - eapply alloc_cases in H1 as [(? & _ & _ & -> & _)|Hc]; [apply in_place_refl| |done|done].
    destruct Hc as (l & i & n' & nb & _ & _ & _ & _ & _ & _ & _ & Ha & _ & Hfree & ->). pose proof (find_vid_None _ _ Ha Hfree).
    intros b Hb. cbn in Hb. rewrite <- Permutation_middle, take_drop in Hb. apply elem_of_cons in Hb as [->|Hb]; [by right|left; by exists b].
  - revert H0. unfold iav_arena_free. repeat case_match; intros [= _ <-]; apply in_place_refl || apply in_place_unlink.
  - revert H0. unfold iav_arena_register. repeat case_match; intros [= _ <-]; try apply in_place_refl.
    apply add_user_extent in H2 as [? _]. by eapply in_place_insert.
  - revert H0. unfold iav_arena_unregister. repeat case_match; intros [= _ <-]; try apply in_place_refl;
      (eapply in_place_insert; [done|apply drop_user_extent]).
  - revert H2. unfold iav_arena_map. rewrite H0. destruct (add_user b file) as [rc b1] eqn:Ea. apply add_user_extent in Ea as [? _].
    destruct rc; intros [= <-]. eapply in_place_insert; [done|]. by case_match.
  - revert H0. unfold iav_arena_map. repeat case_match; intros [= <- <-]; try apply in_place_refl; try done;
      (match goal with E : add_user _ _ = _ |- _ => apply add_user_extent in E as [? _] end; by eapply in_place_insert).
  - unfold iav_arena_unmap. rewrite H0. eapply in_place_insert; [done|]. by case_match.
  - intros c Hc. rewrite release_blks in Hc. apply list_elem_of_filter in Hc as [_ Hc]. apply list_elem_of_fmap in Hc as (b & -> & Hb).
    left. exists b. split; [done|apply drop_user_extent].
  - intros c Hc. by apply elem_of_nil in Hc.
Qed.

(** * Theorems *)

Definition demo_arena : iav_arena := mk_arena 0x40000 0x1000 1 0 0 [].
Definition arena_alloced (file req : Z) (a : iav_arena) : iav_arena := snd (iav_arena_alloc true a file req).

Lemma arena_alloced_ok file req a ms : arena_ok a ms -> is_u64 req -> arena_ok (arena_alloced file req a) ms.
Proof.
  intros Hok Hr. unfold arena_alloced. destruct (iav_arena_alloc true a file req) as [r a'] eqn:E. by eapply arena_alloc_ok.
Qed.

(** C19: From initialisation on, through any order of allocations, frees, registrations, mappings, unmappings and
    releases of files: the blocks lie in offset order inside the slice on 64 KiB boundaries without overlap,
    their ids are distinct anonymous ids, the counters are exact, and every live mapping has its block. *)
Theorem arena_reachable_ok usable page st :
  0 <= usable < 2 ^ 40 -> 0 <= page -> arena_reachable usable page st -> arena_ok st.1 st.2.
Proof.
  intros Hu Hp (a0 & Hi & Hr). apply arena_init_ok in Hi; [|lia..]. change a0 with (a0, @nil mapping).1 in Hi.
  change [] with (a0, @nil mapping).2 in Hi at 2. remember (a0, []) as s0. clear Heqs0. induction Hr as [|s1 s2 s3 Hs _ IH]; [done|].
  by eapply IH, arena_step_ok.
Qed.

Lemma arena_reachable_ok_witness :
  exists a, ar_blks a <> [] /\ arena_ok a [(0x1ff, 7)].
Proof.
  exists (snd (iav_arena_map (arena_alloced 7 0x1800 demo_arena) 0 7)). split; [vm_compute; discriminate|].
  apply (arena_reachable_ok 0x40000 0x1000 (snd (iav_arena_map (arena_alloced 7 0x1800 demo_arena) 0 7), [(0x1ff, 7)]));
    [lia|lia|]. exists demo_arena. split; [reflexivity|].
  eapply rtc_l; [eapply (as_alloc true demo_arena [] 7 0x1800); [unfold is_u64; lia|vm_compute; reflexivity]|].
  eapply rtc_l; [|apply rtc_refl].
  eapply (as_map _ [] 0 (mk_blk 0x1ff 0 0x2000 0x10000 0 [mk_user 7 0]) 7); [reflexivity|unfold maps_of; cbn; lia|].
  vm_compute. reflexivity.
Defined.

(** An allocation succeeds exactly when the size is not zero and some range of the slice, anywhere, holds
    the size rounded to 64 KiB without touching a block; an error leaves the arena as it was. A success gives
    the bytes asked for, rounded up by less than a page, at the lowest offset where they fit. *)
Theorem arena_alloc_iff a ms file req :
  arena_ok a ms -> is_u64 req ->
  let r := iav_arena_alloc true a file req in
  ((exists vid off len, fst r = inr (vid, off, len)) <-> 0 < req /\ room (span_of req) 0 (ar_usable a) (ar_blks a)) /\
  (forall rc, fst r = inl rc -> snd r = a) /\
  (forall vid off len, fst r = inr (vid, off, len) ->
     req <= len < req + ar_page a /\ free_at (span_of req) 0 (ar_usable a) (ar_blks a) off /\
     forall x, free_at (span_of req) 0 (ar_usable a) (ar_blks a) x -> off <= x).
Proof.
  intros Hok Hr. cbn zeta. destruct (iav_arena_alloc true a file req) as [r a'] eqn:E. pose proof E as E'. cbn [fst snd].
  eapply alloc_cases in E as [(rc & -> & _ & -> & Hno)|Hc]; [| |done|done].
  - split; [|by split]. split; [intros (? & ? & ? & ?); done|]. intros [H0 Hroom]. by destruct (Hno eq_refl H0).
  - destruct Hc as (l & i & n' & nb & -> & _ & Hl & Hlen & _ & Ef & Hfit & _).
    assert (H0 : 0 < req).
    { destruct (decide (req = 0)) as [->|]; [|unfold is_u64 in Hr; lia]. revert E'. done. }
    assert (Hat : free_at (span_of req) 0 (ar_usable a) (ar_blks a) (ab_off nb) /\
                  forall x, free_at (span_of req) 0 (ar_usable a) (ar_blks a) x -> ab_off nb <= x)
      by (eapply first_fit_lowest; [done| |done..]; pose proof (span_of_bounds req); lia).
    destruct Hat as [Hat Hlow]. split; [|split; [done|]].
    + split; [|by eauto]. intros _. split; [done|by exists (ab_off nb)].
    + intros vid off len [= <- <- <-]. split; [done|by split].
Qed.

Lemma arena_alloc_iff_witness :
  room (span_of 0x11000) 0 0x40000 (ar_blks (arena_alloced 7 0x1800 demo_arena)).
Proof.
  apply (arena_alloc_iff (arena_alloced 7 0x1800 demo_arena) [] 7 0x11000); [|unfold is_u64; lia|vm_compute; do 3 eexists; reflexivity].
  apply arena_alloced_ok; [|unfold is_u64; lia].
  by apply (arena_init_ok 0x40000 0x1000).
Defined.

(** A step of any kind leaves the block of a mapping that stays live where it was: same id, offset, length
    and reserved bytes. No free, release or allocation takes memory away from a mapping. *)
Theorem mapped_block_stays a ms a' ms' b file :
  arena_ok a ms -> arena_step (a, ms) (a', ms') -> b ∈ ar_blks a -> (ab_vid b, file) ∈ ms' ->
  exists b', b' ∈ ar_blks a' /\ same_extent b b'.
Proof.
  intros Hok Hs Hb Hm. pose proof (arena_step_ok _ _ Hs Hok) as Hok'. cbn in Hok'.
  destruct (ao_mapped _ _ Hok' _ Hm) as (b' & Hb' & E). exists b'. split; [done|].
  destruct (arena_step_in_place (a, ms) (a', ms') Hok Hs b' Hb') as [(c & Hc & Hsame)|Hn]; cbn in *.
  - assert (c = b) as ->; [|done]. apply list_elem_of_lookup in Hc as [i Hi]. apply list_elem_of_lookup in Hb as [j Hj].
    assert (i = j) as <-; [|congruence]. destruct Hsame as (Ev & _).
    apply (NoDup_lookup (ab_vid <$> ar_blks a) i j (ab_vid b)); [by destruct Hok|..]; rewrite list_lookup_fmap; [rewrite Hi|rewrite Hj]; cbn; congruence.
  - destruct Hn. rewrite E. apply list_elem_of_fmap. by exists b.
Qed.

(** Two blocks, the second mapped by file 9. *)
Definition arena_mapped : iav_arena :=
  snd (iav_arena_map (arena_alloced 9 0x11000 (arena_alloced 7 0x1800 demo_arena)) 1 9).

Lemma arena_mapped_ok : arena_ok arena_mapped [(0x2ff, 9)].
Proof.
  eapply (map_ok (arena_alloced 9 0x11000 (arena_alloced 7 0x1800 demo_arena)) [] 1 (mk_blk 0x2ff 0x10000 0x11000 0x20000 0 [mk_user 9 0]) 9);
    [|reflexivity|unfold maps_of; cbn; lia|vm_compute; reflexivity].
  apply arena_alloced_ok; [|unfold is_u64; lia]. apply arena_alloced_ok; [|unfold is_u64; lia].
  by apply (arena_init_ok 0x40000 0x1000).
Qed.

Lemma mapped_block_stays_witness :
  exists b', b' ∈ ar_blks (iav_arena_release_file arena_mapped 9) /\
             same_extent (mk_blk 0x2ff 0x10000 0x11000 0x20000 1 [mk_user 9 1]) b'.
Proof.
  apply (mapped_block_stays arena_mapped [(0x2ff, 9)] _ [(0x2ff, 9)] _ 9); [apply arena_mapped_ok|apply as_release|vm_compute|by left].
  right. left.
Defined.

(** Releasing a file takes it off every block and frees exactly the blocks left with no user and no mapping:
    the others stay, in order, with their other users. *)
Theorem release_file_exact a ms file :
  arena_ok a ms ->
  ar_blks (iav_arena_release_file a file) = filter busy ((fun b => drop_user b file) <$> ar_blks a) /\
  (forall b, b ∈ ar_blks (iav_arena_release_file a file) -> (file ∉ us_file <$> ab_users b) /\ busy b) /\
  (forall b f, b ∈ ar_blks a -> f <> file ->
     (f ∈ us_file <$> ab_users b <-> f ∈ us_file <$> ab_users (drop_user b file))).
Proof.
  intros Hok. split; [apply release_blks|]. split.
  - intros b Hb. rewrite release_blks in Hb. apply list_elem_of_filter in Hb as [Hbusy Hb].
    apply list_elem_of_fmap in Hb as (c & -> & Hc). split; [|done]. eapply (drop_user_ok ms). by apply Hok.
  - intros b f Hb Hne. unfold drop_user. destruct (user_of b file) as [i|] eqn:E; [|done].
    apply user_of_Some in E as (x & Hx & Ex). pose proof (lookup_lt_Some _ _ _ Hx) as Hlt.
    destruct (lookup_lt_is_Some_2 (ab_users b) (length (ab_users b) - 1)) as [u Hl]; [lia|]. rewrite Hl. cbn.
    rewrite (replace_last_perm _ _ _ _ Hx Hl) at 1. cbn. rewrite elem_of_cons. split; [|by right]. intros [->|]; [congruence|done].
Qed.

Lemma release_file_exact_witness :
  ar_blks (iav_arena_release_file arena_mapped 7) = [mk_blk 0x2ff 0x10000 0x11000 0x20000 1 [mk_user 9 1]] /\
  filter busy ((fun b => drop_user b 7) <$> ar_blks arena_mapped) = [mk_blk 0x2ff 0x10000 0x11000 0x20000 1 [mk_user 9 1]].
Proof.
  destruct (release_file_exact arena_mapped [(0x2ff, 9)] 7 arena_mapped_ok) as [E _]. rewrite <- E. split; vm_compute; reflexivity.
Defined.
