(* ===== verification/SliceArena.v ===== *)
(** * Quarantine and scrub of the private slices

    [Module SliceArena] models tools/virt_slice_arena.c: per slice the count of jobs in flight, the quarantine
    after its lease was released, the time at which it may be scrubbed, the scrub itself and the slice header.
    [Module SliceRpc] models the table of tools/iav_slice_rpc.c that says which slice a guest holds. The clock
    is an argument, in milliseconds; a slice's memory is its bytes, and [good] says which of them take a
    write, so that a failed read-back is possible. *)

From Stdlib Require Import ZArith Lia Bool.
From stdpp Require Import base list numbers decidable.
From S2P Require Import Prelude.
#[local] Open Scope Z_scope.

Module SliceArena.

Definition VIRT_SLICE_ARENA_COUNT : Z := 8.
Definition VIRT_SLICE_ARENA_BYTES : Z := 0x4000000.
Definition VIRT_SLICE_ARENA_PAGE : Z := 4096.
Definition VIRT_SLICE_QUARANTINE_MS : Z := 4000.

(** struct slot *)
Record slot := mk_slot {
  so_quarantined : bool;
  so_inflight : Z;
  so_last_end_ms : Z;
  so_released_ms : Z;
  so_scrubs : Z;
  so_scrub_failures : Z;
  so_last_scrub_ms : Z;
  so_last_scrub_rc : Z;
}.

(** init_locked, as virt_slice_arena_reset runs it *)
Definition slot_init : slot := mk_slot false 0 0 0 0 0 (-1) 0.
Definition virt_slice_arena_reset : list slot := repeat slot_init (Z.to_nat VIRT_SLICE_ARENA_COUNT).

Definition in_range (index : Z) : bool := (0 <=? index) && (index <? VIRT_SLICE_ARENA_COUNT).
Definition slot_at (ss : list slot) (index : Z) : slot := default slot_init (ss !! Z.to_nat index).
Definition put_slot (ss : list slot) (index : Z) (s : slot) : list slot := <[Z.to_nat index := s]> ss.

(** virt_slice_arena_begin *)
Definition virt_slice_arena_begin (index : Z) (ss : list slot) : Z * list slot :=
  if negb (in_range index) then (- EINVAL, ss)
  else
    let s := slot_at ss index in
    if so_quarantined s then (- EBUSY, ss)
    else (0, put_slot ss index (mk_slot false (u32 (so_inflight s + 1)) (so_last_end_ms s) (so_released_ms s)
                                        (so_scrubs s) (so_scrub_failures s) (so_last_scrub_ms s) (so_last_scrub_rc s))).

(** virt_slice_arena_end *)
Definition virt_slice_arena_end (now index : Z) (ss : list slot) : list slot :=
  if negb (in_range index) then ss
  else
    let s := slot_at ss index in
    put_slot ss index (mk_slot (so_quarantined s) (if so_inflight s >? 0 then so_inflight s - 1 else so_inflight s) now
                               (so_released_ms s) (so_scrubs s) (so_scrub_failures s) (so_last_scrub_ms s)
                               (so_last_scrub_rc s)).

Definition set_quarantine (s : slot) (q : bool) (released : Z) : slot :=
  mk_slot q (so_inflight s) (so_last_end_ms s) released (so_scrubs s) (so_scrub_failures s) (so_last_scrub_ms s)
          (so_last_scrub_rc s).

(** virt_slice_arena_quarantine *)
Definition virt_slice_arena_quarantine (index released_ms : Z) (ss : list slot) : list slot :=
  if negb (in_range index) then ss else put_slot ss index (set_quarantine (slot_at ss index) true released_ms).

(** virt_slice_arena_quarantined *)
Definition virt_slice_arena_quarantined (index : Z) (ss : list slot) : bool :=
  in_range index && so_quarantined (slot_at ss index).

(** virt_slice_arena_unquarantine *)
Definition virt_slice_arena_unquarantine (index : Z) (ss : list slot) : list slot :=
  if negb (in_range index) then ss
  else put_slot ss index (set_quarantine (slot_at ss index) false (so_released_ms (slot_at ss index))).

(** virt_slice_arena_scrub_due: whether the slice may be scrubbed now, and the time to wait *)
Definition virt_slice_arena_scrub_due (now index : Z) (ss : list slot) : bool * Z :=
  if negb (in_range index) then (false, 0)
  else
    let s := slot_at ss index in
    if so_quarantined s && (so_inflight s =? 0) then
      let from := if so_released_ms s >? so_last_end_ms s then so_released_ms s else so_last_end_ms s in
      let until := u64 (from + VIRT_SLICE_QUARANTINE_MS) in
      if now >=? until then (true, 0) else (false, until - now)
    else (false, 0).

(** memset(p, 0, bytes): a byte that takes no write keeps its value *)
Definition zero_bytes (good : nat -> bool) (m : list Z) : list Z := imap (fun i b => if good i then 0 else b) m.

(** The read-back loop: [i] words from the word [k] on, 8 bytes each *)
Fixpoint words_zero (n k : nat) (m : list Z) : bool :=
  match n with
  | O => true
  | S n' => if forallb (fun b => b =? 0) (take 8 (drop (8 * k) m)) then words_zero n' (S k) m else false
  end.

(** virt_slice_arena_scrub: [map] is the errno of a mapping that failed (0 when it is not set) or the slice's bytes; the result is the return code,
    the slots and the bytes after the scrub *)
Definition virt_slice_arena_scrub (index t0 t1 : Z) (map : Z + list Z) (good : nat -> bool) (ss : list slot)
    : Z * list slot * option (list Z) :=
  if negb (in_range index) then (- EINVAL, ss, None)
  else
    let '(rc, m') :=
      match map with
      | inl e => (if e =? 0 then - EIO else - e, None)
      | inr m =>
          let m' := zero_bytes good m in
          (if words_zero (Nat.div (length m) 8) 0 m' then 0 else - EIO, Some m')
      end in
    let s := slot_at ss index in
    let s' := mk_slot (so_quarantined s) (so_inflight s) (so_last_end_ms s) (so_released_ms s)
                      (if rc =? 0 then u64 (so_scrubs s + 1) else so_scrubs s)
                      (if rc =? 0 then so_scrub_failures s else u64 (so_scrub_failures s + 1)) (t1 - t0) rc in
    (rc, put_slot ss index s', m').

Definition AMBA_VIRT_IAV_WIN_HDR_MAGIC : Z := 0x57494d41.
Definition AMBA_VIRT_IAV_WIN_HDR_VERSION : Z := 1.
Definition AMBA_VIRT_IAV_WIN_HDR_BYTES : nat := 64.
Definition AMBA_VIRT_IAV_WIN_ID_SLICE : Z := 0x100.

(** The [n] bytes of a little-endian integer. *)
Fixpoint le_bytes (n : nat) (z : Z) : list Z :=
  match n with
  | O => []
  | S k => u8 z :: le_bytes k (Z.shiftr z 8)
  end.

(** struct amba_virt_iav_win_hdr as bytes *)
Definition amba_virt_iav_win_hdr (magic version window_id reserved part_len size : Z) : list Z :=
  le_bytes 4 magic ++ le_bytes 4 version ++ le_bytes 4 window_id ++ le_bytes 4 reserved ++ le_bytes 8 part_len ++
  le_bytes 8 size.

(** virt_slice_arena_write_header *)
Definition virt_slice_arena_write_header (index : Z) (map : Z + list Z) : Z * option (list Z) :=
  if negb (in_range index) then (- EINVAL, None)
  else
    match map with
    | inl e => (if e =? 0 then - EIO else - e, None)
    | inr m =>
        let hdr := amba_virt_iav_win_hdr AMBA_VIRT_IAV_WIN_HDR_MAGIC AMBA_VIRT_IAV_WIN_HDR_VERSION
                     (u32 (AMBA_VIRT_IAV_WIN_ID_SLICE + index)) 0 (VIRT_SLICE_ARENA_BYTES - VIRT_SLICE_ARENA_PAGE)
                     VIRT_SLICE_ARENA_BYTES in
        (0, Some (take (length m - AMBA_VIRT_IAV_WIN_HDR_BYTES) m ++
                  hdr ++ repeat 0 (AMBA_VIRT_IAV_WIN_HDR_BYTES - length hdr)))
    end.

End SliceArena.

Module SliceRpc.

Definition SLICE_RPC_MAX : nat := 8.
Definition SLICE_USABLE_MAX : Z := 64 * 2 ^ 20 - 4096.

(** struct slice_binding *)
Record slice_binding := mk_bind { sb_used : bool; sb_cid : Z; sb_window_id : Z; sb_usable_length : Z }.

Definition bind_zero : slice_binding := mk_bind false 0 0 0.

(** find_cid *)
Definition find_cid (cid : Z) (bs : list slice_binding) : option nat :=
  if cid =? 0 then None else find_idx (fun b => sb_used b && (sb_cid b =? cid)) bs.

(** iav_slice_rpc_bind *)
Definition iav_slice_rpc_bind (cid window_id usable_length : Z) (bs : list slice_binding) : Z * list slice_binding :=
  if (cid =? 0) || (usable_length =? 0) || (usable_length >? SLICE_USABLE_MAX) then (- EINVAL, bs)
  else
    match (match find_cid cid bs with Some i => Some i | None => find_idx (fun b => negb (sb_used b)) bs end) with
    | None => (- ENOMEM, bs)
    | Some i => (0, <[i := mk_bind true cid window_id usable_length]> bs)
    end.

(** iav_slice_rpc_unbind *)
Definition iav_slice_rpc_unbind (cid : Z) (bs : list slice_binding) : list slice_binding :=
  match find_cid cid bs with
  | Some i => <[i := bind_zero]> bs
  | None => bs
  end.

(** iav_slice_rpc_reset *)
Definition iav_slice_rpc_reset : list slice_binding := repeat bind_zero SLICE_RPC_MAX.

(** iav_slice_rpc_held *)
Definition iav_slice_rpc_held (cid : Z) (bs : list slice_binding) : Z + Z * Z :=
  match find_cid cid bs ≫= (fun i => bs !! i) with
  | Some b => inr (sb_window_id b, sb_usable_length b)
  | None => inl (- ENOENT)
  end.

End SliceRpc.
