(* ===== verification/IavWin.v ===== *)
(** * The IAV windows and aux apertures of the host kernel

    Models drivers/amba_virt/amba_virt_iav_win.c. [Module IavWin] is a window node: a range of real memory with
    zeroed padding behind it up to a power of two. [Module IavAux] is the per-guest aperture node: several
    partitions composed into one BAR, one scratch page behind every gap and an identity header in the last page.
    A mapping is the list of segments handed to remap_pfn_range. The module parameters, the page allocator, the
    results of remap_pfn_range, the capability of the caller and the copy of the ioctl argument are arguments.
    [None] stands for a kernel fault (a NULL page, an index past the padding) or a loop that has not stopped. *)

From Stdlib Require Import ZArith Lia Bool.
From stdpp Require Import base list numbers decidable.
From S2P Require Import Prelude SliceArena.
Import SliceArena.
#[local] Open Scope Z_scope.
#[local] Open Scope list_scope.

Module IavWin.

Definition PAGE_SIZE : Z := 4096.
Definition PAGE_ALIGNED (z : Z) : bool := z mod PAGE_SIZE =? 0.
Definition is_power_of_2 (n : Z) : bool := negb (n =? 0) && pow2_test n.

(** check_add_overflow on [u64]: [None] on overflow *)
Definition check_add (a b : Z) : option Z := if a + b <? 2 ^ 64 then Some (a + b) else None.

(** The module parameters. *)
Record win_params := mk_params { win_min : Z; win_max : Z }.
Definition win_defaults : win_params := mk_params 0x28000000 0x100000000.

Definition IAV_WIN_MAX_PAD : Z := 64 * 2 ^ 20.
Definition IAV_WIN_CHUNK : Z := 2 * 2 ^ 20.
Definition IAV_WIN_MAX_SIZE : Z := 4 * 2 ^ 30.
Definition AMBA_VIRT_IAV_WIN_KINDS : Z := 4.
Definition AMBA_VIRT_IAV_WIN_F_NORMAL_NC : Z := 1.

(** struct amba_virt_iav_win_cfg *)
Record amba_virt_iav_win_cfg := mk_wcfg { wc_phys : Z; wc_len : Z; wc_size : Z; wc_flags : Z; wc_reserved : Z }.

(** A chunk of zeroed padding, and the bytes written over it: their offset and value. *)
Record win_chunk := mk_chunk { ck_phys : Z; ck_written : option (Z * list Z) }.

(** struct iav_win *)
Record iav_win := mk_win {
  iw_configured : bool;
  iw_maps : Z;
  iw_phys : Z;
  iw_len : Z;
  iw_size : Z;
  iw_pad : list win_chunk;
  iw_pad_len : Z;
}.

Definition win_zero : iav_win := mk_win false 0 0 0 0 [] 0.

(** iav_win_validate *)
Definition iav_win_validate (pr : win_params) (c : amba_virt_iav_win_cfg) : Z :=
  if negb (wc_flags c =? 0) || negb (wc_reserved c =? 0) then - EINVAL
  else if (wc_len c =? 0) || (wc_size c =? 0) then - EINVAL
  else if negb (PAGE_ALIGNED (wc_phys c)) || negb (PAGE_ALIGNED (wc_len c)) || negb (PAGE_ALIGNED (wc_size c)) then - EINVAL
  else if negb (is_power_of_2 (wc_size c)) || (wc_size c >? IAV_WIN_MAX_SIZE) || (wc_size c <? wc_len c) then - EINVAL
  else
    match check_add (wc_phys c) (wc_len c) with
    | None => - EINVAL
    | Some e =>
        if (wc_phys c <? win_min pr) || (e >? win_max pr) then - ERANGE
        else if wc_size c - wc_len c >? IAV_WIN_MAX_PAD then - EINVAL
        else 0
    end.

(** iav_win_chunk_len *)
Definition iav_win_chunk_len (pad_len i : Z) : Z := Z.min IAV_WIN_CHUNK (u64 (pad_len - i * IAV_WIN_CHUNK)).

(** DIV_ROUND_UP(pad_len, IAV_WIN_CHUNK) *)
Definition chunks_of (pad_len : Z) : nat := Z.to_nat ((pad_len + IAV_WIN_CHUNK - 1) / IAV_WIN_CHUNK).

(** The allocation loop of IOC_CONFIG: [alloc i] is what alloc_pages_exact returned for chunk [i]. What was
    allocated before a failure is freed. *)
Fixpoint alloc_pad (alloc : nat -> option Z) (i n : nat) : option (list win_chunk) :=
  match n with
  | O => Some []
  | S n' =>
      match alloc i with
      | None => None
      | Some p => cons (mk_chunk p None) <$> alloc_pad alloc (S i) n'
      end
  end.

(** iav_win_drop *)
Definition iav_win_drop (w : iav_win) : iav_win := mk_win false (iw_maps w) 0 0 0 [] 0.

(** iav_win_write_header of window [node] *)
Definition iav_win_write_header (node : Z) (c : amba_virt_iav_win_cfg) (w : iav_win) : iav_win :=
  if iw_pad_len w <? PAGE_SIZE then w
  else
    let hdr := amba_virt_iav_win_hdr AMBA_VIRT_IAV_WIN_HDR_MAGIC AMBA_VIRT_IAV_WIN_HDR_VERSION
                 (node mod AMBA_VIRT_IAV_WIN_KINDS) 0 (wc_len c) (wc_size c) in
    let last := (chunks_of (iw_pad_len w) - 1)%nat in
    let last_len := iav_win_chunk_len (iw_pad_len w) (Z.of_nat last) in
    mk_win (iw_configured w) (iw_maps w) (iw_phys w) (iw_len w) (iw_size w)
           (alter (fun k => mk_chunk (ck_phys k) (Some (last_len - Z.of_nat AMBA_VIRT_IAV_WIN_HDR_BYTES, hdr))) last (iw_pad w))
           (iw_pad_len w).

(** IOC_GET: [normal_nc] is whether the kernel has VM_ALLOW_ANY_UNCACHED *)
Definition iav_win_get (normal_nc : bool) (w : iav_win) : amba_virt_iav_win_cfg :=
  mk_wcfg (iw_phys w) (iw_len w) (iw_size w) (if normal_nc then AMBA_VIRT_IAV_WIN_F_NORMAL_NC else 0) 0.

(** IOC_CONFIG; [arg] is the configuration, when it could be copied *)
Definition iav_win_config (pr : win_params) (capable : bool) (arg : option amba_virt_iav_win_cfg)
    (alloc : nat -> option Z) (node : Z) (w : iav_win) : Z * iav_win :=
  if negb capable then (- EPERM, w)
  else
    match arg with
    | None => (- EFAULT, w)
    | Some c =>
        let ret := iav_win_validate pr c in
        if negb (ret =? 0) then (ret, w)
        else if negb (iw_maps w =? 0) then (- EBUSY, w)
        else
          let pad_len := wc_size c - wc_len c in
          match alloc_pad alloc 0 (chunks_of pad_len) with
          | None => (- ENOMEM, w)
          | Some pad =>
              let w1 := iav_win_drop w in
              let w2 := iav_win_write_header node c (mk_win false (iw_maps w1) 0 0 0 pad pad_len) in
              (0, mk_win true (iw_maps w2) (wc_phys c) (wc_len c) (wc_size c) (iw_pad w2) (iw_pad_len w2))
          end
    end.

(** IOC_CLEAR *)
Definition iav_win_clear (capable : bool) (w : iav_win) : Z * iav_win :=
  if negb capable then (- EPERM, w)
  else if negb (iw_maps w =? 0) then (- EBUSY, w)
  else (0, iav_win_drop w).

(** ** Mappings *)

(** A call of remap_pfn_range: user address, physical address, length and whether it is write-combined. *)
Record segment := mk_seg { sg_uaddr : Z; sg_phys : Z; sg_len : Z; sg_wc : bool }.

(** struct vm_area_struct, as far as mmap reads it *)
Record vma := mk_vma { vm_start : Z; vm_end : Z; vm_pgoff : Z; vm_shared : bool }.

Definition vma_off (v : vma) : Z := u64 (Z.shiftl (vm_pgoff v) 12).
Definition vma_size (v : vma) : Z := u64 (vm_end v - vm_start v).

Definition set_wmaps (w : iav_win) (m : Z) : iav_win :=
  mk_win (iw_configured w) m (iw_phys w) (iw_len w) (iw_size w) (iw_pad w) (iw_pad_len w).

(** One turn of the padding loop: the offset, the user address and the segments so far. [remap u] is what
    remap_pfn_range returns at user address [u]; [inr None] is an access past the padding. *)
Definition pad_step (remap : Z -> Z) (w : iav_win) (end_ : Z) (s : Z * Z * list segment)
    : (Z * Z * list segment) + option (Z * list segment) :=
  let '(off, uaddr, segs) := s in
  if off <? end_ then
    let rel := u64 (off - iw_len w) in
    let i := rel / IAV_WIN_CHUNK in
    let in_chunk := rel mod IAV_WIN_CHUNK in
    let n := Z.min (end_ - off) (u64 (iav_win_chunk_len (iw_pad_len w) i - in_chunk)) in
    match iw_pad w !! Z.to_nat i with
    | None => inr None
    | Some k =>
        let ret := remap uaddr in
        if negb (ret =? 0) then inr (Some (ret, segs))
        else inl (off + n, uaddr + n, segs ++ [mk_seg uaddr (ck_phys k + in_chunk) n false])
    end
  else inr (Some (0, segs)).

(** The bound on the turns: every turn but the first and the last maps a whole chunk. *)
Definition pad_turns (w : iav_win) : positive := Z.to_pos (iw_pad_len w / IAV_WIN_CHUNK + 3).

(** The real range and then the padding, from offset [off] to [end_]. *)
Definition win_map_range (remap : Z -> Z) (w : iav_win) (off end_ uaddr : Z) : option (Z * list segment) :=
  let real_end := Z.min end_ (iw_len w) in
  let '(ret, off1, uaddr1, segs1) :=
    if off <? real_end then
      let n := real_end - off in
      let ret := remap uaddr in
      if negb (ret =? 0) then (ret, off, uaddr, [])
      else (0, off + n, uaddr + n, [mk_seg uaddr (iw_phys w + off) n true])
    else (0, off, uaddr, []) in
  if negb (ret =? 0) then Some (ret, segs1)
  else
    match iter_until (pad_turns w) (pad_step remap w end_) (off1, uaddr1, segs1) with
    | inr r => r
    | inl _ => None
    end.

(** iav_win_mmap: the return code, the segments mapped and the node *)
Definition iav_win_mmap (remap : Z -> Z) (v : vma) (w : iav_win) : option (Z * list segment * iav_win) :=
  let off := vma_off v in
  if negb (vm_shared v) then Some (- EINVAL, [], w)
  else
    match check_add off (vma_size v) with
    | None => Some (- EINVAL, [], w)
    | Some end_ =>
        if negb (iw_configured w) then Some (- ENODEV, [], w)
        else if end_ >? iw_size w then Some (- EINVAL, [], w)
        else
          match win_map_range remap w off end_ (vm_start v) with
          | Some (0, segs) => Some (0, segs, set_wmaps w (iw_maps w + 1))
          | Some (ret, segs) => Some (ret, segs, w)
          | None => None
          end
    end.

(** iav_win_vma_open, iav_win_vma_close *)
Definition iav_win_vma_open (w : iav_win) : iav_win := set_wmaps w (iw_maps w + 1).
Definition iav_win_vma_close (w : iav_win) : iav_win := set_wmaps w (iw_maps w - 1).

End IavWin.

Module IavAux.

Import IavWin.

Definition AMBA_VIRT_IAV_AUX_NODES : nat := 8.
Definition AMBA_VIRT_IAV_AUX_MAX_RANGES : nat := 16.
Definition AMBA_VIRT_IAV_AUX_MAX_SOURCES : nat := 32.
Definition AMBA_VIRT_IAV_AUX_ALIGN : Z := 0x10000.
Definition AMBA_VIRT_IAV_AUX_MIN_SIZE : Z := 0x2000.
Definition AMBA_VIRT_IAV_AUX_MAX_SIZE : Z := 0x40000000.
Definition AMBA_VIRT_IAV_AUX_HDR_MAGIC : Z := 0x50414d41.
Definition AMBA_VIRT_IAV_AUX_HDR_VERSION : Z := 1.

(** struct amba_virt_iav_aux_range *)
Record amba_virt_iav_aux_range := mk_range {
  ra_phys : Z;
  ra_len : Z;
  ra_offset : Z;
  ra_pid : Z;
  ra_flags : Z;
}.

Definition range_zero : amba_virt_iav_aux_range := mk_range 0 0 0 0 0.
#[global] Instance range_eq_dec : EqDecision amba_virt_iav_aux_range.
Proof. solve_decision. Defined.

(** struct amba_virt_iav_aux_cfg *)
Record amba_virt_iav_aux_cfg := mk_acfg {
  ac_size : Z;
  ac_epoch : Z;
  ac_count : Z;
  ac_flags : Z;
  ac_maps : Z;
  ac_reserved : Z;
  ac_range : list amba_virt_iav_aux_range;
}.

Definition acfg_zero : amba_virt_iav_aux_cfg := mk_acfg 0 0 0 0 0 0 (repeat range_zero AMBA_VIRT_IAV_AUX_MAX_RANGES).
#[global] Instance acfg_eq_dec : EqDecision amba_virt_iav_aux_cfg.
Proof. solve_decision. Defined.

(** struct amba_virt_iav_aux_source, struct amba_virt_iav_aux_sources *)
Record amba_virt_iav_aux_source := mk_src { sr_phys : Z; sr_len : Z; sr_pid : Z; sr_reserved : Z }.
Record amba_virt_iav_aux_sources := mk_srcs { ss_count : Z; ss_reserved : Z; ss_src : list amba_virt_iav_aux_source }.

Definition src_zero : amba_virt_iav_aux_source := mk_src 0 0 0 0.
#[global] Instance src_eq_dec : EqDecision amba_virt_iav_aux_source.
Proof. solve_decision. Defined.
Definition srcs_zero : amba_virt_iav_aux_sources := mk_srcs 0 0 (repeat src_zero AMBA_VIRT_IAV_AUX_MAX_SOURCES).

(** A page of RAM. *)
Record page := mk_page { pg_phys : Z; pg_bytes : list Z }.

Definition page_bytes : nat := 4096.

(** clear_highpage *)
Definition clear_highpage (p : page) : page := mk_page (pg_phys p) (repeat 0 page_bytes).

(** struct iav_aux *)
Record iav_aux := mk_aux {
  x_configured : bool;
  x_maps : Z;
  x_cfg : amba_virt_iav_aux_cfg;
  x_scratch : option page;
  x_hdr : option page;
}.

Definition aux_zero : iav_aux := mk_aux false 0 acfg_zero None None.

(** The nodes, the sources and the pages the kernel's allocator has left. *)
Record aux_state := mk_auxst {
  g_aux : list iav_aux;
  g_sources : amba_virt_iav_aux_sources;
  free_pages : list page;
}.

(** iav_win_init, as far as the aux nodes go *)
Definition aux_init (pages : list page) : aux_state :=
  mk_auxst (repeat aux_zero AMBA_VIRT_IAV_AUX_NODES) srcs_zero pages.

(** iav_aux_phys_ok *)
Definition iav_aux_phys_ok (pr : win_params) (phys len : Z) : bool :=
  if (len =? 0) || negb (PAGE_ALIGNED phys) || negb (PAGE_ALIGNED len) then false
  else
    match check_add phys len with
    | None => false
    | Some e => (phys >=? win_min pr) && (e <=? win_max pr)
    end.

(** iav_aux_is_source *)
Definition iav_aux_is_source (s : amba_virt_iav_aux_sources) (phys len pid : Z) : bool :=
  existsb (fun x => (sr_phys x =? phys) && (sr_len x =? len) && (sr_pid x =? pid)) (take (Z.to_nat (ss_count s)) (ss_src s)).

(** Two ranges at one place in the BAR, or one memory twice. *)
Definition ranges_clash (r o : amba_virt_iav_aux_range) : bool :=
  ((ra_offset r <? u64 (ra_offset o + ra_len o)) && (ra_offset o <? u64 (ra_offset r + ra_len r))) ||
  ((ra_phys r <? u64 (ra_phys o + ra_len o)) && (ra_phys o <? u64 (ra_phys r + ra_len r))).

(** The loop of iav_aux_validate: the ranges [rs] from index [i] on, after the ranges [before] *)
Fixpoint validate_ranges (pr : win_params) (c : amba_virt_iav_aux_cfg) (before : list amba_virt_iav_aux_range) (i : Z)
    (rs : list amba_virt_iav_aux_range) : Z :=
  match rs with
  | [] => 0
  | r :: rs' =>
      if i >=? ac_count c then
        if bool_decide (r = range_zero) then validate_ranges pr c (before ++ [r]) (i + 1) rs' else - EINVAL
      else if negb (ra_flags r =? 0) then - EINVAL
      else if negb (iav_aux_phys_ok pr (ra_phys r) (ra_len r)) then - ERANGE
      else if negb (ra_offset r mod AMBA_VIRT_IAV_AUX_ALIGN =? 0) ||
              match check_add (ra_offset r) (ra_len r) with
              | None => true
              | Some e => e >? u64 (ac_size c - PAGE_SIZE)
              end then - EINVAL
      else if existsb (ranges_clash r) before then - EINVAL
      else validate_ranges pr c (before ++ [r]) (i + 1) rs'
  end.

(** iav_aux_validate *)
Definition iav_aux_validate (pr : win_params) (c : amba_virt_iav_aux_cfg) : Z :=
  if negb (ac_flags c =? 0) || negb (ac_maps c =? 0) || negb (ac_reserved c =? 0) || (ac_epoch c =? 0) then - EINVAL
  else if negb (is_power_of_2 (ac_size c)) || (ac_size c <? AMBA_VIRT_IAV_AUX_MIN_SIZE) ||
          (ac_size c >? AMBA_VIRT_IAV_AUX_MAX_SIZE) then - EINVAL
  else if (ac_count c =? 0) || (ac_count c >? Z.of_nat AMBA_VIRT_IAV_AUX_MAX_RANGES) then - EINVAL
  else validate_ranges pr c [] 0 (ac_range c).

(** struct amba_virt_iav_aux_hdr as bytes *)
Definition amba_virt_iav_aux_hdr (node count epoch size : Z) : list Z :=
  le_bytes 4 AMBA_VIRT_IAV_AUX_HDR_MAGIC ++ le_bytes 4 AMBA_VIRT_IAV_AUX_HDR_VERSION ++ le_bytes 4 node ++
  le_bytes 4 count ++ le_bytes 8 epoch ++ le_bytes 8 size ++ repeat 0 32.

(** iav_aux_write_header into the header page [p] *)
Definition iav_aux_write_header (node : Z) (c : amba_virt_iav_aux_cfg) (p : page) : page :=
  let at_ := (page_bytes - AMBA_VIRT_IAV_WIN_HDR_BYTES)%nat in
  let hdr := amba_virt_iav_aux_hdr node (ac_count c) (ac_epoch c) (ac_size c) in
  mk_page (pg_phys p) (take at_ (pg_bytes p) ++ hdr ++ drop (at_ + length hdr) (pg_bytes p)).

(** [if (!page) page = alloc_page(GFP_KERNEL);] *)
Definition alloc_page (p : option page) (free : list page) : option page * list page :=
  match p, free with
  | Some p, _ => (Some p, free)
  | None, q :: free' => (Some q, free')
  | None, [] => (None, [])
  end.

(** iav_aux_config of node [i] *)
Definition iav_aux_config (pr : win_params) (i : nat) (c : amba_virt_iav_aux_cfg) (st : aux_state) : Z * aux_state :=
  let ret := iav_aux_validate pr c in
  if negb (ret =? 0) then (ret, st)
  else
    match g_aux st !! i with
    | None => (- ENODEV, st)
    | Some x =>
        if negb (x_maps x =? 0) then (- EBUSY, st)
        else if negb (forallb (fun r => iav_aux_is_source (g_sources st) (ra_phys r) (ra_len r) (ra_pid r))
                              (take (Z.to_nat (ac_count c)) (ac_range c))) then (- EPERM, st)
        else
          let '(scratch, free1) := alloc_page (x_scratch x) (free_pages st) in
          let '(hdr, free2) := alloc_page (x_hdr x) free1 in
          let put x' := mk_auxst (<[i := x']> (g_aux st)) (g_sources st) free2 in
          match scratch, hdr with
          | Some s, Some h =>
              (0, put (mk_aux true (x_maps x) c (Some (clear_highpage s))
                              (Some (iav_aux_write_header (Z.of_nat i) c (clear_highpage h)))))
          | _, _ => (- ENOMEM, put (mk_aux (x_configured x) (x_maps x) (x_cfg x) scratch hdr))
          end
    end.

(** The check of the list in iav_aux_set_sources. *)
Fixpoint sources_ok (pr : win_params) (count i : Z) (l : list amba_virt_iav_aux_source) : bool :=
  match l with
  | [] => true
  | s :: l' =>
      (if i >=? count then bool_decide (s = src_zero)
       else (sr_reserved s =? 0) && iav_aux_phys_ok pr (sr_phys s) (sr_len s)) && sources_ok pr count (i + 1) l'
  end.

(** Does the list [s] name every range of a configured node? *)
Definition node_covered (s : amba_virt_iav_aux_sources) (x : iav_aux) : bool :=
  negb (x_configured x) ||
  forallb (fun r => iav_aux_is_source s (ra_phys r) (ra_len r) (ra_pid r)) (take (Z.to_nat (ac_count (x_cfg x))) (ac_range (x_cfg x))).

(** iav_aux_set_sources *)
Definition iav_aux_set_sources (pr : win_params) (s : amba_virt_iav_aux_sources) (st : aux_state) : Z * aux_state :=
  if negb (ss_reserved s =? 0) || (ss_count s >? Z.of_nat AMBA_VIRT_IAV_AUX_MAX_SOURCES) then (- EINVAL, st)
  else if negb (sources_ok pr (ss_count s) 0 (ss_src s)) then (- EINVAL, st)
  else if negb (forallb (node_covered s) (g_aux st)) then (- EBUSY, st)
  else (0, mk_auxst (g_aux st) s (free_pages st)).

(** IOC_AUX_GET *)
Definition iav_aux_get (normal_nc : bool) (x : iav_aux) : amba_virt_iav_aux_cfg :=
  let c := if x_configured x then x_cfg x else acfg_zero in
  mk_acfg (ac_size c) (ac_epoch c) (ac_count c) (if normal_nc then AMBA_VIRT_IAV_WIN_F_NORMAL_NC else 0) (u32 (x_maps x))
          (ac_reserved c) (ac_range c).

(** IOC_CLEAR *)
Definition iav_aux_clear (x : iav_aux) : Z * iav_aux :=
  if negb (x_maps x =? 0) then (- EBUSY, x) else (0, mk_aux false (x_maps x) acfg_zero (x_scratch x) (x_hdr x)).

(** The ioctls of an aux node, their argument copied from the caller; [None] when the copy fails (the kernel's
    small allocations are taken to succeed). *)
Inductive aux_cmd :=
| AUX_GET
| AUX_CONFIG (c : option amba_virt_iav_aux_cfg)
| AUX_SOURCES (s : option amba_virt_iav_aux_sources)
| AUX_CLEAR
| AUX_OTHER.

(** iav_aux_ioctl on node [i]; the configuration is what AUX_GET copies out *)
Definition iav_aux_ioctl (pr : win_params) (normal_nc capable : bool) (i : nat) (cmd : aux_cmd) (st : aux_state)
    : Z * amba_virt_iav_aux_cfg * aux_state :=
  match g_aux st !! i with
  | None => (- ENODEV, acfg_zero, st)
  | Some x =>
      match cmd with
      | AUX_GET => (0, iav_aux_get normal_nc x, st)
      | AUX_OTHER => (- ENOTTY, acfg_zero, st)
      | AUX_CONFIG c =>
          if negb capable then (- EPERM, acfg_zero, st)
          else match c with
               | None => (- EFAULT, acfg_zero, st)
               | Some c => let '(ret, st') := iav_aux_config pr i c st in (ret, acfg_zero, st')
               end
      | AUX_SOURCES s =>
          if negb capable then (- EPERM, acfg_zero, st)
          else match s with
               | None => (- EFAULT, acfg_zero, st)
               | Some s => let '(ret, st') := iav_aux_set_sources pr s st in (ret, acfg_zero, st')
               end
      | AUX_CLEAR =>
          if negb capable then (- EPERM, acfg_zero, st)
          else let '(ret, x') := iav_aux_clear x in
               (ret, acfg_zero, mk_auxst (<[i := x']> (g_aux st)) (g_sources st) (free_pages st))
      end
  end.

(** ** Mappings *)

Definition set_xmaps (x : iav_aux) (m : Z) : iav_aux := mk_aux (x_configured x) m (x_cfg x) (x_scratch x) (x_hdr x).

(** iav_aux_range_at *)
Definition iav_aux_range_at (c : amba_virt_iav_aux_cfg) (off : Z) : option amba_virt_iav_aux_range :=
  let rs := take (Z.to_nat (ac_count c)) (ac_range c) in
  find_idx (fun r => (off >=? ra_offset r) && (u64 (off - ra_offset r) <? ra_len r)) rs ≫= (fun k => rs !! k).

(** One turn of the loop of iav_aux_mmap. *)
Definition aux_step (remap : Z -> Z) (x : iav_aux) (end_ : Z) (s : Z * Z * list segment)
    : (Z * Z * list segment) + option (Z * list segment) :=
  let '(off, uaddr, segs) := s in
  if off <? end_ then
    let '(src, n, wc) :=
      match iav_aux_range_at (x_cfg x) off with
      | Some r => (Some (ra_phys r + (off - ra_offset r)), Z.min end_ (u64 (ra_offset r + ra_len r)) - off, true)
      | None => (pg_phys <$> (if off =? ac_size (x_cfg x) - PAGE_SIZE then x_hdr x else x_scratch x), PAGE_SIZE, false)
      end in
    match src with
    | None => inr None
    | Some phys =>
        let ret := remap uaddr in
        if negb (ret =? 0) then inr (Some (ret, segs))
        else inl (off + n, uaddr + n, segs ++ [mk_seg uaddr phys n wc])
    end
  else inr (Some (0, segs)).

(** One turn per page is enough. *)
Definition aux_turns (off end_ : Z) : positive := Z.to_pos ((end_ - off) / PAGE_SIZE + 2).

(** iav_aux_mmap of the node [x] *)
Definition iav_aux_mmap (remap : Z -> Z) (v : vma) (x : iav_aux) : option (Z * list segment * iav_aux) :=
  let off := vma_off v in
  if negb (vm_shared v) then Some (- EINVAL, [], x)
  else
    match check_add off (vma_size v) with
    | None => Some (- EINVAL, [], x)
    | Some end_ =>
        if negb (x_configured x) then Some (- ENODEV, [], x)
        else if end_ >? ac_size (x_cfg x) then Some (- EINVAL, [], x)
        else
          match iter_until (aux_turns off end_) (aux_step remap x end_) (off, vm_start v, []) with
          | inr (Some (0, segs)) => Some (0, segs, set_xmaps x (x_maps x + 1))
          | inr (Some (ret, segs)) => Some (ret, segs, x)
          | inr None | inl _ => None
          end
    end.

(** iav_aux_vma_open, iav_aux_vma_close *)
Definition iav_aux_vma_open (x : iav_aux) : iav_aux := set_xmaps x (x_maps x + 1).
Definition iav_aux_vma_close (x : iav_aux) : iav_aux := set_xmaps x (x_maps x - 1).

End IavAux.
