(* ===== verification/IavWinProps.v ===== *)
(** * Properties of the IAV windows and the aux apertures

    What a mapping of a node shows, byte by byte: the loops of the two mmap handlers against a function from the
    offset in the BAR to the physical address. Then the invariant of the aux module over every order of ioctls,
    mappings, forks and unmappings: a mapped node keeps its composition, which is valid and made of registered
    sources, and the RAM pages of different nodes are different. *)

From Stdlib Require Import ZArith Lia Bool.
From stdpp Require Import base list numbers decidable relations.
From S2P Require Import Prelude SliceArena IavWin.
Import SliceArena IavWin IavAux.
#[local] Open Scope Z_scope.
#[local] Open Scope list_scope.

(** ** Segments *)

(** The physical address behind user address [u]. *)
Fixpoint seg_at (segs : list segment) (u : Z) : option Z :=
  match segs with
  | [] => None
  | s :: segs' => if (sg_uaddr s <=? u) && (u <? sg_uaddr s + sg_len s) then Some (sg_phys s + (u - sg_uaddr s)) else seg_at segs' u
  end.

Lemma seg_at_app segs1 segs2 u :
  seg_at (segs1 ++ segs2) u = match seg_at segs1 u with Some p => Some p | None => seg_at segs2 u end.
Proof. induction segs1 as [|s l IH]; cbn; [done|]. by destruct (_ && _). Qed.

Lemma seg_at_None segs u :
  (forall s, s ∈ segs -> sg_uaddr s + sg_len s <= u) -> seg_at segs u = None.
Proof.
  induction segs as [|s l IH]; intros H; cbn; [done|]. pose proof (H s ltac:(by left)).
  rewrite (proj2 (Z.ltb_ge u _)) by lia. rewrite andb_false_r. apply IH. intros t Ht. apply H. by right.
Qed.

(** The segments mapped so far show [view] on [[off0, off)], at user addresses from [start] on. *)
Record covers (view : Z -> option Z) (start off0 off : Z) (segs : list segment) : Prop := {
  cv_below : forall s, s ∈ segs -> start <= sg_uaddr s /\ sg_uaddr s + sg_len s <= start + (off - off0);
  cv_view : forall b, off0 <= b < off -> seg_at segs (start + (b - off0)) = view b;
}.

Lemma covers_nil view start off0 : covers view start off0 off0 [].
Proof. split; [intros s Hs; by apply elem_of_nil in Hs|intros b Hb; lia]. Qed.

Lemma covers_snoc view start off0 off segs p n wc :
  off0 <= off -> 0 < n -> covers view start off0 off segs -> (forall b, off <= b < off + n -> view b = Some (p + (b - off))) ->
  covers view start off0 (off + n) (segs ++ [mk_seg (start + (off - off0)) p n wc]).
Proof.
  intros H0 Hn [Hb Hv] Hp. split.
  - intros s [Hs|Hs]%elem_of_app; [specialize (Hb s Hs); lia|]. apply list_elem_of_singleton in Hs as ->. cbn. lia.
  - intros b Hlt. rewrite seg_at_app. destruct (Z.lt_ge_cases b off) as [H|H].
    + pose proof (Hv b ltac:(lia)) as E. cbn [seg_at sg_uaddr sg_len].
      destruct (seg_at segs _) as [q|] eqn:Eq; [done|].
      rewrite (proj2 (Z.leb_gt _ _)) by lia. done.
    + rewrite seg_at_None by (intros s Hs; specialize (Hb s Hs); lia). cbn.
      rewrite (proj2 (Z.leb_le _ _)), (proj2 (Z.ltb_lt _ _)) by lia. cbn. rewrite (Hp b) by lia. f_equal. lia.
Qed.

(** ** Loops that advance *)

(** A loop with an invariant and a measure that decreases ends, within more turns than the measure. *)
Lemma iter_ends {St R} (step : St -> St + R) (I : St -> Prop) (Q : R -> Prop) (mu : St -> nat) (turns : nat) s :
  I s -> (forall s, I s -> match step s with inl s' => I s' /\ (mu s' < mu s)%nat | inr r => Q r end) ->
  (mu s < turns)%nat ->
  exists r, iter_nat turns step s = inr r /\ Q r.
Proof.
  intros Hi Hstep. revert s Hi. induction turns as [|n IH]; intros s Hi Hm; [lia|].
  cbn [iter_nat]. pose proof (Hstep s Hi) as Hs. destruct (step s) as [s'|r]; [|by exists r].
  destruct Hs as [Hi' Hd]. apply IH; [done|lia].
Qed.

(** ** Aux nodes: a valid composition *)

Definition is_page (z : Z) : Prop := z mod PAGE_SIZE = 0.

(** The ranges in use. *)
Definition ranges_of (c : amba_virt_iav_aux_cfg) : list amba_virt_iav_aux_range := take (Z.to_nat (ac_count c)) (ac_range c).

Record range_ok (pr : win_params) (size : Z) (r : amba_virt_iav_aux_range) : Prop := {
  rk_phys : 0 <= ra_phys r /\ is_page (ra_phys r);
  rk_len : 0 < ra_len r /\ is_page (ra_len r);
  rk_window : win_min pr <= ra_phys r /\ ra_phys r + ra_len r <= win_max pr /\ ra_phys r + ra_len r < 2 ^ 64;
  rk_offset : 0 <= ra_offset r /\ ra_offset r mod AMBA_VIRT_IAV_AUX_ALIGN = 0;
  rk_end : ra_offset r + ra_len r <= size - PAGE_SIZE;
}.

Definition range_apart (r o : amba_virt_iav_aux_range) : Prop :=
  disjoint_range (ra_offset r) (ra_offset r + ra_len r) (ra_offset o) (ra_offset o + ra_len o) /\
  disjoint_range (ra_phys r) (ra_phys r + ra_len r) (ra_phys o) (ra_phys o + ra_len o).

Record cfg_ok (pr : win_params) (c : amba_virt_iav_aux_cfg) : Prop := {
  co_size : exists k, 13 <= k <= 30 /\ ac_size c = 2 ^ k;
  co_epoch : ac_epoch c <> 0;
  co_count : 0 < ac_count c <= 16;
  co_ranges : Forall (range_ok pr (ac_size c)) (ranges_of c);
  co_apart : forall i j r o, ranges_of c !! i = Some r -> ranges_of c !! j = Some o -> i <> j -> range_apart r o;
  co_room : length (ac_range c) = 16%nat;
}.

(** What an ioctl argument can hold. *)
Definition range_typed (r : amba_virt_iav_aux_range) : Prop := is_u64 (ra_phys r) /\ is_u64 (ra_len r) /\ is_u64 (ra_offset r).
Definition cfg_typed (c : amba_virt_iav_aux_cfg) : Prop :=
  is_u64 (ac_size c) /\ is_u64 (ac_epoch c) /\ is_u32 (ac_count c) /\ length (ac_range c) = 16%nat /\ Forall range_typed (ac_range c).

Lemma phys_ok_iff pr phys len :
  is_u64 phys -> is_u64 len ->
  iav_aux_phys_ok pr phys len = true <->
  0 < len /\ is_page phys /\ is_page len /\ win_min pr <= phys /\ phys + len <= win_max pr /\ phys + len < 2 ^ 64.
Proof.
  unfold is_u64, iav_aux_phys_ok, PAGE_ALIGNED, check_add, is_page. intros Hp Hl. split.
  - destruct (_ || _) eqn:E; [done|]. bool_hyps. destruct (_ <? _) eqn:E3; [|done]. intros E4. bool_hyps. lia.
  - intros (H1 & H2 & H3 & H4 & H5 & H6). rewrite H2, H3. rewrite (proj2 (Z.eqb_neq len 0)), (proj2 (Z.ltb_lt _ (2 ^ 64))) by lia. cbn.
    rewrite Z.geb_leb, (proj2 (Z.leb_le _ _)), (proj2 (Z.leb_le _ _)) by lia. done.
Qed.

Lemma clash_false pr size r o :
  range_ok pr size r -> range_ok pr size o -> size <= 2 ^ 32 -> ranges_clash r o = false <-> range_apart r o.
Proof.
  intros [? ? ? ? ?] [? ? ? ? ?] Hs. unfold ranges_clash, range_apart, disjoint_range, PAGE_SIZE in *. rewrite !u64_id by lia.
  rewrite orb_false_iff, !andb_false_iff, !Z.ltb_ge. lia.
Qed.

(** The checks of one range, before it is compared with the earlier ones. *)
Lemma range_checks pr size r :
  range_typed r -> 2 ^ 13 <= size <= 2 ^ 30 ->
  (negb (iav_aux_phys_ok pr (ra_phys r) (ra_len r)) = false /\
   negb (ra_offset r mod AMBA_VIRT_IAV_AUX_ALIGN =? 0) ||
     match check_add (ra_offset r) (ra_len r) with None => true | Some e => e >? u64 (size - PAGE_SIZE) end = false) <->
  range_ok pr size r.
Proof.
  intros (Hp & Hl & Ho) Hs. rewrite negb_false_iff, (phys_ok_iff pr _ _ Hp Hl), orb_false_iff, negb_false_iff, Z.eqb_eq.
  unfold check_add, PAGE_SIZE, is_u64 in *. rewrite u64_id by lia. split.
  - intros [(H1 & H2 & H3 & H4 & H5 & H6) [H7 H8]]. destruct (_ <? _); [|done]. rewrite Z.gtb_ltb in H8. bool_hyps.
    split; [split; [lia|done]|split; [lia|done]|lia|split; [lia|done]|unfold PAGE_SIZE; lia].
  - intros [[H1 H1'] [H2 H2'] (H3 & H3' & H3'') [H4 H4'] H5]. unfold PAGE_SIZE in *. split; [split_and!; (done || lia)|]. split; [done|].
    rewrite (proj2 (Z.ltb_lt _ (2 ^ 64))) by lia. rewrite Z.gtb_ltb. apply Z.ltb_ge. lia.
Qed.

Lemma validate_ranges_iff pr c rs before i :
  2 ^ 13 <= ac_size c <= 2 ^ 30 -> Forall range_typed rs -> 0 <= i ->
  let n := Z.to_nat (ac_count c - i) in
  validate_ranges pr c before i rs = 0 <->
  Forall (fun r => ra_flags r = 0 /\ range_ok pr (ac_size c) r) (take n rs) /\
  (forall j r o, take n rs !! j = Some r -> o ∈ before ++ take j rs -> ranges_clash r o = false) /\
  Forall (fun r => r = range_zero) (drop n rs).
Proof.
  intros Hs. revert before i. induction rs as [|r rs IH]; intros before i Ht Hi n; cbn [validate_ranges].
  { unfold n. rewrite take_nil, drop_nil. split; [|done]. intros _. split_and!; [constructor| |constructor]. intros j r o Hj. done. }
  apply Forall_cons in Ht as [Hr Ht]. rewrite Z.geb_leb.
  destruct (Z.leb_spec (ac_count c) i) as [Hge|Hlt].
  - assert (n = 0%nat) as -> by lia. rewrite take_0, drop_0. case_bool_decide as Ez.
    + rewrite (IH (before ++ [r]) (i + 1)) by (done || lia). replace (Z.to_nat (ac_count c - (i + 1))) with 0%nat by lia.
      rewrite take_0, drop_0, Forall_cons. split; [intros (_ & _ & H3)|intros (_ & _ & _ & H3)]; (split_and!; [constructor|intros j x o Hj; done|..]); done.
    + split; [done|]. intros (_ & _ & H). by apply Forall_cons in H as [? _].
  - replace n with (S (Z.to_nat (ac_count c - (i + 1)))) by lia. cbn [take drop]. rewrite Forall_cons.
    pose proof (range_checks pr (ac_size c) r Hr Hs) as Hchk.
    destruct (ra_flags r =? 0) eqn:Ef; cbn [negb]; bool_hyps; [|split; [done|]; by intros [[[? _] _] _]].
    destruct (negb (iav_aux_phys_ok _ _ _)) eqn:E1; [split; [done|]; intros [[[_ Hk] _] _]; by apply Hchk in Hk as [? _]|].
    destruct (_ || _) eqn:E2; [split; [done|]; intros [[[_ Hk] _] _]; by apply Hchk in Hk as [_ ?]|].
    destruct (existsb _ before) eqn:E3.
    + split; [done|]. intros (_ & H & _). apply existsb_exists in E3 as (o & Ho & Hc). apply list_elem_of_In in Ho.
      pose proof (H 0%nat r o eq_refl ltac:(apply elem_of_app; by left)). congruence.
    + rewrite (IH (before ++ [r]) (i + 1)) by (done || lia). split.
      * intros (H1 & H2 & H3). split; [split; [split; [done|by apply Hchk]|done]|]. split; [|done]. intros [|j] x o Hj Ho; cbn in Hj.
        -- injection Hj as <-. rewrite app_nil_r in Ho. apply not_true_iff_false. intros E. apply not_true_iff_false in E3. apply E3.
           apply existsb_exists. exists o. by rewrite <- list_elem_of_In.
        -- apply (H2 j); [done|]. cbn in Ho. rewrite <- app_assoc. done.
      * intros ((_ & H1) & H2 & H3). split_and!; [done| |done]. intros j x o Hj Ho. apply (H2 (S j) x o Hj).
        cbn. rewrite <- app_assoc in Ho. done.
Qed.

Lemma pow2_bounds n : 0 <= n -> is_power_of_2 n = true -> AMBA_VIRT_IAV_AUX_MIN_SIZE <= n <= AMBA_VIRT_IAV_AUX_MAX_SIZE ->
  exists k, 13 <= k <= 30 /\ n = 2 ^ k.
Proof.
  unfold is_power_of_2, AMBA_VIRT_IAV_AUX_MIN_SIZE, AMBA_VIRT_IAV_AUX_MAX_SIZE. intros Hn Hp Hb. bool_hyps.
  exists (Z.log2 n). split; [|apply pow2_test_true; [lia|done]]. split.
  - apply Z.log2_le_pow2; [lia|]. change (2 ^ 13) with 8192. lia.
  - assert (Z.log2 n < 31); [|lia]. apply Z.log2_lt_pow2; [lia|]. change (2 ^ 31) with 2147483648. lia.
Qed.

Lemma pow2_of_bounds k : 13 <= k <= 30 ->
  is_power_of_2 (2 ^ k) = true /\ AMBA_VIRT_IAV_AUX_MIN_SIZE <= 2 ^ k <= AMBA_VIRT_IAV_AUX_MAX_SIZE.
Proof.
  intros Hk. assert (0 < 2 ^ k) by (apply Z.pow_pos_nonneg; lia). split.
  - unfold is_power_of_2. rewrite pow2_test_pow by lia. rewrite (proj2 (Z.eqb_neq _ 0)) by lia. done.
  - unfold AMBA_VIRT_IAV_AUX_MIN_SIZE, AMBA_VIRT_IAV_AUX_MAX_SIZE. change 8192 with (2 ^ 13). change 1073741824 with (2 ^ 30).
    split; apply Z.pow_le_mono_r; lia.
Qed.

(** The validation is exact. *)
Lemma validate_iff pr c :
  cfg_typed c ->
  iav_aux_validate pr c = 0 <->
  cfg_ok pr c /\ ac_flags c = 0 /\ ac_maps c = 0 /\ ac_reserved c = 0 /\ Forall (fun r => ra_flags r = 0) (ranges_of c) /\
  Forall (fun r => r = range_zero) (drop (Z.to_nat (ac_count c)) (ac_range c)).
Proof.
  intros (Hs & He & Hc & Hlen & Ht). unfold is_u64, is_u32 in *. unfold iav_aux_validate.
  destruct (_ || (ac_epoch c =? 0)) eqn:E1.
  { split; [done|]. intros ([] & F1 & F2 & F3 & _). rewrite F1, F2, F3, (proj2 (Z.eqb_neq _ _) co_epoch0) in E1. done. }
  bool_hyps. destruct (negb (is_power_of_2 _) || _ || _) eqn:E2.
  { split; [done|]. intros ([(k & Hk & Ek)] & _). destruct (pow2_of_bounds k Hk) as [F1 F2]. rewrite <- Ek in F1, F2.
    rewrite F1, Z.gtb_ltb, (proj2 (Z.ltb_ge _ _)), (proj2 (Z.ltb_ge _ _)) in E2 by lia. done. }
  bool_hyps. destruct (pow2_bounds (ac_size c)) as (k & Hk & Ek); [lia|done|lia|].
  assert (Hsz : 2 ^ 13 <= ac_size c <= 2 ^ 30) by (rewrite Ek; split; apply Z.pow_le_mono_r; lia).
  destruct ((ac_count c =? 0) || _) eqn:E3.
  { split; [done|]. intros ([? ? Hcnt] & _). rewrite Z.gtb_ltb, (proj2 (Z.ltb_ge _ _)), (proj2 (Z.eqb_neq _ _)) in E3
      by (unfold AMBA_VIRT_IAV_AUX_MAX_RANGES; lia). done. }
  bool_hyps. unfold AMBA_VIRT_IAV_AUX_MAX_RANGES in *. rewrite (validate_ranges_iff pr c (ac_range c) [] 0 Hsz Ht ltac:(lia)). rewrite Z.sub_0_r.
  fold (ranges_of c). split.
  - intros (K1 & K2 & K3). assert (Hok : Forall (range_ok pr (ac_size c)) (ranges_of c)) by (eapply Forall_impl; [exact K1|by intros ? []]).
    assert (Happ : forall i j r o, (i < j)%nat -> ranges_of c !! i = Some r -> ranges_of c !! j = Some o -> range_apart r o).
    { intros i j r o Hij Hr Ho. pose proof (proj1 (Forall_lookup _ _) Hok) as Hall.
      assert (range_apart o r) as [A1 A2].
      { apply (clash_false pr (ac_size c)); [by eapply Hall|by eapply Hall|lia|]. apply (K2 j o r Ho).
        cbn. apply (list_elem_of_lookup_2 _ i). unfold ranges_of in Hr. apply lookup_take_Some in Hr as [Hr _].
        rewrite lookup_take_lt by lia. done. }
      unfold range_apart, disjoint_range in *. lia. }
    split_and!; try done.
    + split; [by exists k|lia|lia|done| |done]. intros i j r o Hr Ho Hne. destruct (decide (i < j)%nat) as [Hij|Hij]; [by eapply Happ|].
      assert (range_apart o r) as [A1 A2] by (eapply (Happ j i); [lia|done..]). unfold range_apart, disjoint_range in *. lia.
    + eapply Forall_impl; [exact K1|by intros ? []].
  - intros ([_ _ _ Hok Happ _] & _ & _ & _ & Hf & Hz). split_and!; [| |done].
    + apply Forall_lookup. intros j r Hj. split; [exact (proj1 (Forall_lookup _ _) Hf j r Hj)|exact (proj1 (Forall_lookup _ _) Hok j r Hj)].
    + intros j r o Hj Ho. cbn in Ho. apply list_elem_of_lookup in Ho as [i Hi]. apply lookup_take_Some in Hi as [Hi Hij].
      assert (Hi' : ranges_of c !! i = Some o).
      { unfold ranges_of in *. pose proof (lookup_lt_Some _ _ _ Hj) as Hlt. rewrite length_take in Hlt. rewrite lookup_take_lt by lia. done. }
      apply (clash_false pr (ac_size c)); [exact (proj1 (Forall_lookup _ _) Hok j r Hj)|exact (proj1 (Forall_lookup _ _) Hok i o Hi')|lia|].
      eapply Happ; [done..|lia].
Qed.

(** ** What a mapping of an aux node shows *)

(** The physical address behind byte [b] of the BAR. *)
Definition aux_byte (x : iav_aux) (b : Z) : option Z :=
  match iav_aux_range_at (x_cfg x) b with
  | Some r => Some (ra_phys r + (b - ra_offset r))
  | None =>
      let pg := b - b mod PAGE_SIZE in
      p ← (if pg =? ac_size (x_cfg x) - PAGE_SIZE then x_hdr x else x_scratch x); Some (pg_phys p + (b - pg))
  end.

(** A segment that stays in one of the node's ranges or shows one of its two pages. *)
Definition seg_confined (x : iav_aux) (s : segment) : Prop :=
  (exists r, r ∈ ranges_of (x_cfg x) /\ ra_phys r <= sg_phys s /\ sg_phys s + sg_len s <= ra_phys r + ra_len r) \/
  (sg_len s = PAGE_SIZE /\ exists p, (x_scratch x = Some p \/ x_hdr x = Some p) /\ sg_phys s = pg_phys p).

Section AuxView.

Context (pr : win_params) (x : iav_aux).
Hypothesis (Hcfg : cfg_ok pr (x_cfg x)) (Hscratch : is_Some (x_scratch x)) (Hhdr : is_Some (x_hdr x)).

Lemma size_page : is_page (ac_size (x_cfg x)) /\ 8192 <= ac_size (x_cfg x) <= 2 ^ 30.
Proof.
  destruct Hcfg as [(k & Hk & ->) _ _ _ _ _]. destruct (pow2_of_bounds k Hk) as [_ Hb]. unfold is_page, PAGE_SIZE.
  split; [|exact Hb]. replace (2 ^ k) with (2 ^ (k - 12) * 4096) by (change 4096 with (2 ^ 12); rewrite <- Z.pow_add_r by lia; f_equal; lia).
  apply Z.mod_mul. lia.
Qed.

Lemma align_is_page z : z mod AMBA_VIRT_IAV_AUX_ALIGN = 0 -> is_page z.
Proof. unfold AMBA_VIRT_IAV_AUX_ALIGN, is_page, PAGE_SIZE. intros H. Z.div_mod_to_equations. lia. Qed.

Lemma range_at_Some b r :
  0 <= b < 2 ^ 64 -> iav_aux_range_at (x_cfg x) b = Some r ->
  r ∈ ranges_of (x_cfg x) /\ range_ok pr (ac_size (x_cfg x)) r /\ ra_offset r <= b < ra_offset r + ra_len r.
Proof.
  intros Hb. unfold iav_aux_range_at. fold (ranges_of (x_cfg x)). intros (k & Hk & Hr)%bind_Some.
  apply find_idx_Some in Hk as (r' & Hr' & Ht & _). rewrite Hr in Hr'. injection Hr' as <-.
  assert (Hin : r ∈ ranges_of (x_cfg x)) by (by eapply list_elem_of_lookup_2).
  pose proof (proj1 (Forall_forall _ _) (co_ranges _ _ Hcfg) r Hin) as Hok. split; [done|]. split; [done|].
  rewrite Z.geb_leb in Ht. bool_hyps. destruct Hok. rewrite u64_id in H0 by lia. lia.
Qed.

Lemma range_at_None b r :
  0 <= b < 2 ^ 64 -> iav_aux_range_at (x_cfg x) b = None -> r ∈ ranges_of (x_cfg x) -> ~ (ra_offset r <= b < ra_offset r + ra_len r).
Proof.
  intros Hb Hn Hin. unfold iav_aux_range_at in Hn. fold (ranges_of (x_cfg x)) in Hn.
  destruct (find_idx _ _) as [k|] eqn:Ek; cbn in Hn.
  { apply find_idx_Some in Ek as (r' & Hr' & _). congruence. }
  destruct (proj1 (Forall_forall _ _) (co_ranges _ _ Hcfg) r Hin) as [_ _ _ [Ho0 _] _].
  apply list_elem_of_lookup in Hin as [j Hj]. pose proof (proj1 (find_idx_None _ _) Ek j r Hj) as Hf.
  cbv beta in Hf. rewrite Z.geb_leb in Hf. intros Hr. rewrite (proj2 (Z.leb_le _ _)), u64_id, (proj2 (Z.ltb_lt _ _)) in Hf by lia. done.
Qed.

(** The range at a byte is the range of the bytes around it. *)
Lemma range_at_same b b' r :
  0 <= b < 2 ^ 64 -> 0 <= b' < 2 ^ 64 -> iav_aux_range_at (x_cfg x) b = Some r -> ra_offset r <= b' < ra_offset r + ra_len r ->
  iav_aux_range_at (x_cfg x) b' = Some r.
Proof.
  intros Hb Hb' Hr Hin. destruct (range_at_Some b r Hb Hr) as (Hr1 & _ & _).
  destruct (iav_aux_range_at (x_cfg x) b') as [o|] eqn:Eo; [|by destruct (range_at_None b' r Hb' Eo Hr1)].
  destruct (range_at_Some b' o Hb' Eo) as (Ho1 & _ & Ho2). f_equal.
  apply list_elem_of_lookup in Hr1 as [i Hi], Ho1 as [j Hj]. destruct (decide (i = j)) as [->|Hne]; [congruence|].
  destruct (co_apart _ _ Hcfg i j r o Hi Hj Hne) as [A _]. unfold disjoint_range in A. lia.
Qed.

Lemma range_at_page off b :
  is_page off -> 0 <= off -> off <= b < off + PAGE_SIZE -> b < 2 ^ 63 -> iav_aux_range_at (x_cfg x) off = None ->
  iav_aux_range_at (x_cfg x) b = None.
Proof.
  intros Hp H0 Hb Hw Hn. destruct (iav_aux_range_at (x_cfg x) b) as [r|] eqn:Er; [|done]. exfalso.
  destruct (range_at_Some b r ltac:(lia) Er) as (Hin & [? [_ Hl] _ [_ Ho] _] & Hr). apply align_is_page in Ho.
  apply (range_at_None off r ltac:(lia) Hn Hin). unfold is_page, PAGE_SIZE in *. Z.div_mod_to_equations. lia.
Qed.

(** The bytes of a page that no range covers. *)
Lemma aux_byte_page off b p :
  is_page off -> 0 <= off -> off <= b < off + PAGE_SIZE -> b < 2 ^ 63 -> iav_aux_range_at (x_cfg x) off = None ->
  (if off =? ac_size (x_cfg x) - PAGE_SIZE then x_hdr x else x_scratch x) = Some p ->
  aux_byte x b = Some (pg_phys p + (b - off)).
Proof.
  intros Hp H0 Hb Hw Hn Hpg. unfold aux_byte. rewrite (range_at_page off b) by done.
  assert (Eb : b - b mod PAGE_SIZE = off) by (unfold is_page, PAGE_SIZE in *; Z.div_mod_to_equations; lia).
  cbn zeta. rewrite Eb, Hpg. done.
Qed.

Definition loop_inv (start off0 end_ : Z) (s : Z * Z * list segment) : Prop :=
  let '(off, uaddr, segs) := s in
  is_page off /\ off0 <= off <= end_ /\ uaddr = start + (off - off0) /\ covers (aux_byte x) start off0 off segs /\
  Forall (seg_confined x) segs.

Definition loop_result (remap : Z -> Z) (start off0 end_ : Z) (r : option (Z * list segment)) : Prop :=
  match r with
  | None => False
  | Some (ret, segs) =>
      (ret = 0 -> covers (aux_byte x) start off0 end_ segs /\ Forall (seg_confined x) segs) /\ ((forall u, remap u = 0) -> ret = 0)
  end.

Lemma aux_step_inv remap start off0 end_ s :
  is_page end_ -> 0 <= off0 -> end_ <= ac_size (x_cfg x) -> loop_inv start off0 end_ s ->
  match aux_step remap x end_ s with
  | inl s' => loop_inv start off0 end_ s' /\ (Z.to_nat ((end_ - s'.1.1) / PAGE_SIZE) < Z.to_nat ((end_ - s.1.1) / PAGE_SIZE))%nat
  | inr r => loop_result remap start off0 end_ r
  end.
Proof.
  destruct s as [[off uaddr] segs]. intros He H0 Hs (Hp & Hoff & -> & Hcv & Hcf). destruct size_page as [_ Hsz].
  unfold aux_step. destruct (Z.ltb_spec off end_) as [Hlt|Hge].
  2:{ assert (off = end_) as -> by lia. by split. }
  destruct (iav_aux_range_at (x_cfg x) off) as [r|] eqn:Er.
  - destruct (range_at_Some off r ltac:(lia) Er) as (Hin & [Hrp [Hl0 Hlp] _ [_ Ho] Hre] & Hr). pose proof (align_is_page _ Ho) as Hop.
    rewrite u64_id by (unfold PAGE_SIZE in *; lia). destruct (_ =? 0) eqn:Eremap; cbn [negb]; bool_hyps; [|split; [done|]; intros H; by rewrite H in Eremap].
    set (n := Z.min end_ (ra_offset r + ra_len r) - off) in *.
    assert (Hn : PAGE_SIZE <= n /\ is_page (off + n) /\ n <= end_ - off /\ n <= ra_offset r + ra_len r - off)
      by (unfold n, is_page, PAGE_SIZE in *; Z.div_mod_to_equations; lia).
    destruct Hn as (Hn1 & Hn2 & Hn3 & Hn4). unfold PAGE_SIZE in Hn1. split.
    + split_and!; [done|lia..| |].
      * apply covers_snoc; [lia..|done|]. intros b Hb. unfold aux_byte. rewrite (range_at_same off b r) by (done || lia). f_equal. lia.
      * apply Forall_app. split; [done|]. apply Forall_singleton. left. exists r. cbn. split; [done|]. lia.
    + cbn. unfold PAGE_SIZE in *. apply Z2Nat.inj_lt; [apply Z.div_pos; lia..|]. Z.div_mod_to_equations. lia.
  - destruct (fmap _ _) as [p|] eqn:Epg.
    2:{ exfalso. apply fmap_None in Epg. destruct (off =? _); [by destruct Hhdr as [? E]; rewrite E in Epg|by destruct Hscratch as [? E]; rewrite E in Epg]. }
    apply fmap_Some in Epg as (pg & Epg & ->). destruct (_ =? 0) eqn:Eremap in |- *; cbn [negb]; bool_hyps; [|split; [done|]; intros H; by rewrite H in Eremap].
    assert (Hn : is_page (off + PAGE_SIZE) /\ off + PAGE_SIZE <= end_) by (unfold is_page, PAGE_SIZE in *; Z.div_mod_to_equations; lia).
    destruct Hn as [Hn1 Hn2]. split.
    + split_and!; [done|unfold PAGE_SIZE in *; lia..| |].
      * apply covers_snoc; [lia|done|done|]. intros b Hb. apply (aux_byte_page off b pg); (done || (unfold PAGE_SIZE in *; lia)).
      * apply Forall_app. split; [done|]. apply Forall_singleton. right. split; [done|]. exists pg. split; [|done].
        destruct (off =? _); auto.
    + cbn. unfold PAGE_SIZE in *. apply Z2Nat.inj_lt; [apply Z.div_pos; lia..|]. Z.div_mod_to_equations. lia.
Qed.

Lemma aux_loop remap start off0 end_ :
  is_page off0 -> is_page end_ -> 0 <= off0 <= end_ -> end_ <= ac_size (x_cfg x) ->
  exists r, iter_until (aux_turns off0 end_) (aux_step remap x end_) (off0, start, []) = inr r /\ loop_result remap start off0 end_ r.
Proof.
  intros Hp He H0 Hs. rewrite iter_until_nat.
  apply (iter_ends _ (loop_inv start off0 end_) (loop_result remap start off0 end_) (fun s => Z.to_nat ((end_ - s.1.1) / PAGE_SIZE))).
  - cbn. split_and!; [done|lia..|apply covers_nil|constructor].
  - intros s Hi. apply aux_step_inv; (done || lia).
  - cbn. unfold aux_turns. assert (0 <= (end_ - off0) / PAGE_SIZE) by (apply Z.div_pos; unfold PAGE_SIZE; lia).
    rewrite <- Z2Nat.inj_pos, Z2Pos.id by lia. lia.
Qed.

End AuxView.

(** A mapping as the kernel hands it to the handler. *)
Record vma_ok (v : vma) : Prop := {
  vo_start : 0 <= vm_start v < vm_end v /\ vm_end v < 2 ^ 64;
  vo_pages : is_page (vm_start v) /\ is_page (vm_end v);
  vo_pgoff : 0 <= vm_pgoff v < 2 ^ 52;
}.

Lemma vma_ok_off v : vma_ok v -> vma_off v = vm_pgoff v * PAGE_SIZE /\ is_page (vma_off v) /\ 0 <= vma_off v < 2 ^ 64.
Proof.
  intros [_ _ H]. unfold vma_off. rewrite Z.shiftl_mul_pow2 by lia. change (2 ^ 12) with PAGE_SIZE.
  assert (E : u64 (vm_pgoff v * PAGE_SIZE) = vm_pgoff v * PAGE_SIZE) by (apply u64_id; unfold PAGE_SIZE; lia).
  rewrite E. split; [done|]. split; [apply Z.mod_mul; done|]. unfold PAGE_SIZE; lia.
Qed.

Lemma vma_ok_size v : vma_ok v -> vma_size v = vm_end v - vm_start v /\ is_page (vma_size v) /\ 0 < vma_size v < 2 ^ 64.
Proof.
  intros [H1 [H2 H3] _]. unfold vma_size. rewrite u64_id by lia. split; [done|]. split; [|lia].
  unfold is_page, PAGE_SIZE in *. Z.div_mod_to_equations. lia.
Qed.

Lemma is_page_add a b : is_page a -> is_page b -> is_page (a + b).
Proof. unfold is_page, PAGE_SIZE. intros Ha Hb. Z.div_mod_to_equations. lia. Qed.

(** The outcomes of mapping a configured node. *)
Lemma aux_mmap_spec pr remap v x :
  cfg_ok pr (x_cfg x) -> is_Some (x_scratch x) -> is_Some (x_hdr x) -> x_configured x = true -> vma_ok v ->
  exists ret segs x', iav_aux_mmap remap v x = Some (ret, segs, x') /\
    (ret = 0 -> vm_shared v = true /\ vma_off v + vma_size v <= ac_size (x_cfg x) /\ x' = set_xmaps x (x_maps x + 1) /\
                covers (aux_byte x) (vm_start v) (vma_off v) (vma_off v + vma_size v) segs /\ Forall (seg_confined x) segs) /\
    (ret <> 0 -> x' = x) /\
    ((forall u, remap u = 0) -> vm_shared v = true -> vma_off v + vma_size v <= ac_size (x_cfg x) -> ret = 0).
Proof.
  intros Hc Hs Hh Hx Hv. destruct (vma_ok_off v Hv) as (_ & Hop & Ho). destruct (vma_ok_size v Hv) as (_ & Hzp & Hz).
  destruct (size_page pr x Hc) as [_ Hsz]. unfold iav_aux_mmap. rewrite Hx.
  destruct (vm_shared v); cbn [negb]; [|exists (- EINVAL), [], x; by split_and!].
  unfold check_add. destruct (Z.ltb_spec (vma_off v + vma_size v) (2 ^ 64)); [|exists (- EINVAL), [], x; split_and!; (done || lia)].
  rewrite Z.gtb_ltb. destruct (Z.ltb_spec (ac_size (x_cfg x)) (vma_off v + vma_size v)); [exists (- EINVAL), [], x; split_and!; (done || lia)|].
  destruct (aux_loop pr x Hc Hs Hh remap (vm_start v) (vma_off v) (vma_off v + vma_size v)) as ([[ret segs]|] & -> & Hr);
    [done|by apply is_page_add|lia|done| |done].
  destruct Hr as [Hr1 Hr2]. destruct ret as [|q|q]; eexists _, _, _; (split; [reflexivity|]); split_and!; try done; try (intros; by apply Hr2).
  intros _. destruct (Hr1 eq_refl). by split_and!.
Qed.

(** ** The aux module as a system *)

(** A live mapping: the node, its composition when it was mapped, and what is mapped. *)
Record aux_map := mk_amap { am_node : nat; am_cfg : amba_virt_iav_aux_cfg; am_segs : list segment }.

Definition put_aux (i : nat) (x : iav_aux) (st : aux_state) : aux_state :=
  mk_auxst (<[i := x]> (g_aux st)) (g_sources st) (free_pages st).

Definition src_typed (s : amba_virt_iav_aux_source) : Prop := is_u64 (sr_phys s) /\ is_u64 (sr_len s).
Definition cmd_typed (c : aux_cmd) : Prop :=
  match c with
  | AUX_CONFIG (Some c) => cfg_typed c
  | AUX_SOURCES (Some s) => is_u32 (ss_count s) /\ length (ss_src s) = 32%nat /\ Forall src_typed (ss_src s)
  | _ => True
  end.

(** A guest that maps the node writes the RAM pages it shows. *)
Definition rewrite_page (p p' : option page) : Prop := pg_phys <$> p = pg_phys <$> p'.

(** The steps of the module; [root] says whether an ioctl of a privileged process may be among them. *)
Inductive aux_step_rel (pr : win_params) (root : bool) : aux_state * list aux_map -> aux_state * list aux_map -> Prop :=
| as_ioctl nc capable i cmd st ms ret c st' :
    (capable = true -> root = true) -> cmd_typed cmd -> iav_aux_ioctl pr nc capable i cmd st = (ret, c, st') ->
    aux_step_rel pr root (st, ms) (st', ms)
| as_mmap remap v i x st ms ret segs x' :
    g_aux st !! i = Some x -> vma_ok v -> iav_aux_mmap remap v x = Some (ret, segs, x') ->
    aux_step_rel pr root (st, ms) (put_aux i x' st, if ret =? 0 then mk_amap i (x_cfg x) segs :: ms else ms)
| as_fork m x st ms :
    m ∈ ms -> g_aux st !! am_node m = Some x -> aux_step_rel pr root (st, ms) (put_aux (am_node m) (iav_aux_vma_open x) st, m :: ms)
| as_unmap m x st ms1 ms2 :
    g_aux st !! am_node m = Some x ->
    aux_step_rel pr root (st, ms1 ++ m :: ms2) (put_aux (am_node m) (iav_aux_vma_close x) st, ms1 ++ ms2)
| as_write m x scratch hdr st ms :
    m ∈ ms -> g_aux st !! am_node m = Some x -> rewrite_page (x_scratch x) scratch -> rewrite_page (x_hdr x) hdr ->
    aux_step_rel pr root (st, ms) (put_aux (am_node m) (mk_aux (x_configured x) (x_maps x) (x_cfg x) scratch hdr) st, ms).

(** ** Invariant *)

Definition page_list (x : iav_aux) : list Z := option_list (pg_phys <$> x_scratch x) ++ option_list (pg_phys <$> x_hdr x).
Definition all_pages (st : aux_state) : list Z := concat (page_list <$> g_aux st) ++ (pg_phys <$> free_pages st).

Record node_ok (pr : win_params) (srcs : amba_virt_iav_aux_sources) (x : iav_aux) : Prop := {
  no_cfg : x_configured x = true -> cfg_ok pr (x_cfg x) /\ is_Some (x_scratch x) /\ is_Some (x_hdr x);
  no_sources : x_configured x = true ->
    forall r, r ∈ ranges_of (x_cfg x) -> iav_aux_is_source srcs (ra_phys r) (ra_len r) (ra_pid r) = true;
}.

Definition maps_of_node (i : nat) (ms : list aux_map) : list aux_map := filter (fun m => am_node m = i) ms.

Record aux_ok (pr : win_params) (st : aux_state) (ms : list aux_map) : Prop := {
  ax_len : length (g_aux st) = AMBA_VIRT_IAV_AUX_NODES;
  ax_nodes : forall i x, g_aux st !! i = Some x -> node_ok pr (g_sources st) x /\ x_maps x = Z.of_nat (length (maps_of_node i ms));
  ax_maps : forall m, m ∈ ms ->
    exists x, g_aux st !! am_node m = Some x /\ x_configured x = true /\ x_cfg x = am_cfg m /\ Forall (seg_confined x) (am_segs m);
  ax_pages : NoDup (all_pages st);
}.

Lemma all_pages_put st i x x' free' :
  g_aux st !! i = Some x ->
  page_list x' ++ (pg_phys <$> free') ≡ₚ page_list x ++ (pg_phys <$> free_pages st) ->
  all_pages (mk_auxst (<[i := x']> (g_aux st)) (g_sources st) free') ≡ₚ all_pages st.
Proof.
  intros Hi Hp. unfold all_pages. cbn. rewrite insert_take_drop by (by eapply lookup_lt_Some).
  rewrite <- (take_drop_middle (g_aux st) i x Hi) at 3. rewrite !fmap_app, !concat_app, !fmap_cons. cbn.
  rewrite <- !app_assoc. apply Permutation_app_head.
  rewrite (Permutation_app_comm (concat _) (pg_phys <$> free')), (Permutation_app_comm (concat _) (pg_phys <$> free_pages st)).
  rewrite !app_assoc. by apply Permutation_app_tail.
Qed.

(** A page that was taken from the allocator if the node had none. *)
Lemma alloc_page_list p free q free' :
  alloc_page p free = (q, free') ->
  option_list (pg_phys <$> q) ++ (pg_phys <$> free') ≡ₚ option_list (pg_phys <$> p) ++ (pg_phys <$> free).
Proof. destruct p as [p|], free as [|f free]; cbn; by intros [= <- <-]. Qed.

Lemma aux_put_ok pr st ms i x x' free' ms' :
  aux_ok pr st ms -> g_aux st !! i = Some x -> node_ok pr (g_sources st) x' ->
  x_maps x' = Z.of_nat (length (maps_of_node i ms')) ->
  (forall j, j <> i -> length (maps_of_node j ms') = length (maps_of_node j ms)) ->
  (forall m, m ∈ ms' -> am_node m <> i -> m ∈ ms) ->
  (forall m, m ∈ ms' -> am_node m = i -> x_configured x' = true /\ x_cfg x' = am_cfg m /\ Forall (seg_confined x') (am_segs m)) ->
  page_list x' ++ (pg_phys <$> free') ≡ₚ page_list x ++ (pg_phys <$> free_pages st) ->
  aux_ok pr (mk_auxst (<[i := x']> (g_aux st)) (g_sources st) free') ms'.
Proof.
  intros [Hlen Hnodes Hmaps Hpages] Hi Hx' Hm' Hoth Hin Hown Hperm. split; cbn.
  - by rewrite length_insert.
  - intros j y Hj. destruct (decide (j = i)) as [->|Hne].
    + rewrite list_lookup_insert_eq in Hj by (by eapply lookup_lt_Some). injection Hj as <-. done.
    + rewrite list_lookup_insert_ne in Hj by done. rewrite Hoth by done. by apply Hnodes.
  - intros m Hm. destruct (decide (am_node m = i)) as [E|Hne].
    + exists x'. rewrite E, list_lookup_insert_eq by (by eapply lookup_lt_Some). split; [done|]. by apply Hown.
    + rewrite list_lookup_insert_ne by done. by apply Hmaps, Hin.
  - by rewrite (all_pages_put st i x x' free' Hi Hperm).
Qed.

Lemma seg_confined_same x x' s :
  x_cfg x = x_cfg x' -> pg_phys <$> x_scratch x = pg_phys <$> x_scratch x' -> pg_phys <$> x_hdr x = pg_phys <$> x_hdr x' ->
  seg_confined x s -> seg_confined x' s.
Proof.
  intros Ec Es Eh [(r & Hr)|[Hl (p & Hp & Ep)]]; [left; exists r; by rewrite <- Ec|right]. split; [done|].
  destruct Hp as [Hp|Hp].
  - rewrite Hp in Es. symmetry in Es. apply fmap_Some in Es as (p' & Hp' & E). exists p'. split; [by left|congruence].
  - rewrite Hp in Eh. symmetry in Eh. apply fmap_Some in Eh as (p' & Hp' & E). exists p'. split; [by right|congruence].
Qed.

Lemma page_list_same x x' :
  pg_phys <$> x_scratch x = pg_phys <$> x_scratch x' -> pg_phys <$> x_hdr x = pg_phys <$> x_hdr x' -> page_list x' = page_list x.
Proof. intros Es Eh. unfold page_list. by rewrite Es, Eh. Qed.

(** A node that is not mapped has no mappings. *)
Lemma unmapped_none pr st ms i x : aux_ok pr st ms -> g_aux st !! i = Some x -> x_maps x = 0 -> maps_of_node i ms = [].
Proof. intros Hok Hi H0. destruct (ax_nodes _ _ _ Hok i x Hi) as [_ E]. rewrite H0 in E. by destruct (maps_of_node i ms). Qed.

Lemma none_not_in i ms m : maps_of_node i ms = [] -> m ∈ ms -> am_node m <> i.
Proof.
  intros Hn Hm E. assert (H : m ∈ maps_of_node i ms) by (by apply list_elem_of_filter). rewrite Hn in H. by apply elem_of_nil in H.
Qed.

(** Replacing a node that is not mapped. *)
Lemma put_idle_ok pr st ms i x x' free' :
  aux_ok pr st ms -> g_aux st !! i = Some x -> x_maps x = 0 -> x_maps x' = 0 -> node_ok pr (g_sources st) x' ->
  page_list x' ++ (pg_phys <$> free') ≡ₚ page_list x ++ (pg_phys <$> free_pages st) ->
  aux_ok pr (mk_auxst (<[i := x']> (g_aux st)) (g_sources st) free') ms.
Proof.
  intros Hok Hi H0 H0' Hx' Hperm. pose proof (unmapped_none _ _ _ _ _ Hok Hi H0) as Hn.
  eapply aux_put_ok; [done..| | | | |done]; [by rewrite H0', Hn|done|done|]. intros m Hm E. by destruct (none_not_in i ms m Hn Hm).
Qed.

Lemma config_ok pr i c st ms ret st' :
  cfg_typed c -> aux_ok pr st ms -> iav_aux_config pr i c st = (ret, st') -> aux_ok pr st' ms.
Proof.
  intros Ht Hok. unfold iav_aux_config. destruct (iav_aux_validate pr c =? 0) eqn:Ev; cbn [negb]; [|by intros [= _ <-]].
  apply Z.eqb_eq in Ev. apply (validate_iff pr c Ht) in Ev as (Hc & _). destruct (g_aux st !! i) as [x|] eqn:Ei; [|by intros [= _ <-]].
  destruct (x_maps x =? 0) eqn:Em; cbn [negb]; [|by intros [= _ <-]]. apply Z.eqb_eq in Em. fold (ranges_of c).
  destruct (forallb _ (ranges_of c)) eqn:Es; cbn [negb]; [|by intros [= _ <-]].
  destruct (alloc_page (x_scratch x) (free_pages st)) as [scratch free1] eqn:E1.
  destruct (alloc_page (x_hdr x) free1) as [hdr free2] eqn:E2.
  pose proof (alloc_page_list _ _ _ _ E1) as P1. pose proof (alloc_page_list _ _ _ _ E2) as P2.
  assert (Hperm : (option_list (pg_phys <$> scratch) ++ option_list (pg_phys <$> hdr)) ++ (pg_phys <$> free2) ≡ₚ
                  page_list x ++ (pg_phys <$> free_pages st)).
  { unfold page_list. rewrite <- !app_assoc, P2. rewrite (app_assoc _ _ (pg_phys <$> free1)),
      (Permutation_app_comm (option_list (pg_phys <$> scratch))), <- app_assoc, P1.
    rewrite !app_assoc. apply Permutation_app_tail, Permutation_app_comm. }
  destruct (ax_nodes _ _ _ Hok i x Ei) as [Hx _].
  destruct scratch as [s|], hdr as [h|]; intros [= _ <-]; (eapply put_idle_ok; [done|done|done|exact Em| |exact Hperm]).
  1:{ split; cbn; [intros _; split_and!; [done|eauto..]|]. intros _ r Hr. rewrite forallb_forall in Es. apply Es. by apply list_elem_of_In. }
  all: split; cbn; [intros Hcf; exfalso|intros Hcf; by apply (no_sources _ _ _ Hx)].
  all: destruct (no_cfg _ _ _ Hx Hcf) as (_ & [s' Hs'] & [h' Hh']); rewrite ?Hs', ?Hh' in *; cbn in *.
  all: cbn in E1, E2; congruence.
Qed.

Lemma set_sources_ok pr s st ms ret st' : aux_ok pr st ms -> iav_aux_set_sources pr s st = (ret, st') -> aux_ok pr st' ms.
Proof.
  intros Hok. unfold iav_aux_set_sources. destruct (_ || _); [by intros [= _ <-]|]. destruct (sources_ok _ _ _ _); cbn [negb]; [|by intros [= _ <-]].
  destruct (forallb _ _) eqn:Ec; cbn [negb]; [|by intros [= _ <-]]. intros [= _ <-]. destruct Hok as [Hlen Hnodes Hmaps Hpages]. split; cbn; try done.
  intros i x Hi. destruct (Hnodes i x Hi) as [[Hc _] Hm]. split; [|done]. split; [done|]. intros Hcf r Hr.
  rewrite forallb_forall in Ec. specialize (Ec x (proj1 (list_elem_of_In _ _) (list_elem_of_lookup_2 _ _ _ Hi))).
  unfold node_covered in Ec. rewrite Hcf in Ec. cbn in Ec. rewrite forallb_forall in Ec. apply Ec. by apply list_elem_of_In.
Qed.

Lemma clear_ok pr i x st ms ret x' :
  aux_ok pr st ms -> g_aux st !! i = Some x -> iav_aux_clear x = (ret, x') -> aux_ok pr (put_aux i x' st) ms.
Proof.
  intros Hok Hi. unfold iav_aux_clear. destruct (x_maps x =? 0) eqn:Em; cbn [negb]; intros [= _ <-].
  - apply Z.eqb_eq in Em. eapply put_idle_ok; [done|done|done|exact Em|by split|done].
  - unfold put_aux. rewrite list_insert_id by done. by destruct st.
Qed.

(** A change of a mapped node that keeps its composition and its pages. *)
Lemma put_same_ok pr st ms i x x' ms' :
  aux_ok pr st ms -> g_aux st !! i = Some x -> x_configured x' = x_configured x -> x_cfg x' = x_cfg x ->
  pg_phys <$> x_scratch x = pg_phys <$> x_scratch x' -> pg_phys <$> x_hdr x = pg_phys <$> x_hdr x' ->
  x_maps x' = Z.of_nat (length (maps_of_node i ms')) ->
  (forall j, j <> i -> length (maps_of_node j ms') = length (maps_of_node j ms)) ->
  (forall m, m ∈ ms' -> m ∈ ms \/ am_node m = i /\ x_configured x = true /\ x_cfg x = am_cfg m /\ Forall (seg_confined x) (am_segs m)) ->
  aux_ok pr (put_aux i x' st) ms'.
Proof.
  intros Hok Hi Ecf Ec Es Eh Hm Hoth Hin. destruct (ax_nodes _ _ _ Hok i x Hi) as [[Hx1 Hx2] _].
  eapply (aux_put_ok pr st ms i x); [done|done| |done|done| | |by rewrite (page_list_same x x' Es Eh)].
  - split; rewrite Ecf, Ec; [|done]. intros Hcf. destruct (Hx1 Hcf) as (H1 & H2 & H3). split; [done|].
    split; [rewrite <- (fmap_is_Some pg_phys), <- Es, fmap_is_Some; done|rewrite <- (fmap_is_Some pg_phys), <- Eh, fmap_is_Some; done].
  - intros m Hm' Hne. destruct (Hin m Hm') as [|[? _]]; done.
  - intros m Hm' E. rewrite Ecf, Ec. destruct (Hin m Hm') as [Hold|(_ & H1 & H2 & H3)].
    + destruct (ax_maps _ _ _ Hok m Hold) as (y & Hy & H1 & H2 & H3). rewrite E, Hi in Hy. injection Hy as <-.
      split_and!; [done..|]. eapply Forall_impl; [exact H3|]. intros s. by apply seg_confined_same.
    + split_and!; [done..|]. eapply Forall_impl; [exact H3|]. intros s. by apply seg_confined_same.
Qed.

Lemma maps_cons i m ms : maps_of_node i (m :: ms) = if decide (am_node m = i) then m :: maps_of_node i ms else maps_of_node i ms.
Proof. unfold maps_of_node. rewrite filter_cons. done. Qed.

Lemma maps_mid i m ms1 ms2 :
  length (maps_of_node i (ms1 ++ m :: ms2)) = ((if decide (am_node m = i) then 1 else 0) + length (maps_of_node i (ms1 ++ ms2)))%nat.
Proof. unfold maps_of_node. rewrite !filter_app, filter_cons. destruct (decide _); rewrite !length_app; cbn; lia. Qed.

Lemma aux_mmap_ok pr remap v i x st ms ret segs x' :
  aux_ok pr st ms -> g_aux st !! i = Some x -> vma_ok v -> iav_aux_mmap remap v x = Some (ret, segs, x') ->
  aux_ok pr (put_aux i x' st) (if ret =? 0 then mk_amap i (x_cfg x) segs :: ms else ms).
Proof.
  intros Hok Hi Hv E. destruct (ax_nodes _ _ _ Hok i x Hi) as [[Hx1 Hx2] Hm].
  assert (Hsame : aux_ok pr (put_aux i x st) ms) by (unfold put_aux; rewrite list_insert_id by done; by destruct st).
  destruct (x_configured x) eqn:Hcf.
  - destruct (Hx1 eq_refl) as (Hc & Hs & Hh).
    destruct (aux_mmap_spec pr remap v x Hc Hs Hh Hcf Hv) as (ret' & segs' & y & E' & H1 & H2 & _). rewrite E in E'. injection E' as <- <- <-.
    destruct (Z.eqb_spec ret 0) as [->|Hne]; [|by rewrite (H2 Hne)]. destruct (H1 eq_refl) as (_ & _ & -> & _ & Hconf).
    eapply (put_same_ok pr st ms i x); [done..| | |].
    + rewrite maps_cons, decide_True by done. cbn. rewrite Hm. lia.
    + intros j Hj. by rewrite maps_cons, decide_False.
    + intros m [->|Hm']%elem_of_cons; [by right|by left].
  - revert E. unfold iav_aux_mmap. rewrite Hcf. destruct (negb _); [by intros [= <- _ <-]|]. destruct (check_add _ _); by intros [= <- _ <-].
Qed.

Lemma aux_step_ok pr root s s' : aux_step_rel pr root s s' -> aux_ok pr s.1 s.2 -> aux_ok pr s'.1 s'.2.
Proof.
  destruct 1 as [nc capable i cmd st ms ret c st' Hroot Ht E|remap v i x st ms ret segs x' Hi Hv E|m x st ms Hm Hi|m x st ms1 ms2 Hi|m x scratch hdr st ms Hm Hi Es Eh];
    cbn; intros Hok.
  - revert E. unfold iav_aux_ioctl. destruct (g_aux st !! i) as [x|] eqn:Hi; [|by intros [= _ _ <-]].
    destruct cmd as [|[c'|]|[s|]| |]; try (by intros [= _ _ <-]); (destruct capable; cbn [negb]; [|by intros [= _ _ <-]]); try (by intros [= _ _ <-]).
    + destruct (iav_aux_config pr i c' st) as [r st1] eqn:E. intros [= _ _ <-]. by eapply config_ok.
    + destruct (iav_aux_set_sources pr s st) as [r st1] eqn:E. intros [= _ _ <-]. by eapply set_sources_ok.
    + destruct (iav_aux_clear x) as [r x'] eqn:E. intros [= _ _ <-]. by eapply clear_ok.
  - by eapply aux_mmap_ok.
  - destruct (ax_nodes _ _ _ Hok _ x Hi) as [_ Hc]. eapply (put_same_ok pr st ms _ x); [done..| | |].
    + rewrite maps_cons, decide_True by done. cbn. rewrite Hc. lia.
    + intros j Hj. by rewrite maps_cons, decide_False.
    + intros m' [->|Hm']%elem_of_cons; by left.
  - destruct (ax_nodes _ _ _ Hok _ x Hi) as [_ Hc]. eapply (put_same_ok pr st (ms1 ++ m :: ms2) _ x); [done..| | |].
    + rewrite maps_mid, decide_True in Hc by done. cbn. rewrite Hc. lia.
    + intros j Hj. by rewrite maps_mid, decide_False.
    + intros m' Hm'. left. apply elem_of_app in Hm' as [|]; apply elem_of_app; [by left|right; by right].
  - destruct (ax_nodes _ _ _ Hok _ x Hi) as [_ Hc]. eapply (put_same_ok pr st ms _ x); [done..|by left].
Qed.

Definition aux_reachable (pr : win_params) (pages : list page) (s : aux_state * list aux_map) : Prop :=
  rtc (aux_step_rel pr true) (aux_init pages, []) s.

Lemma aux_init_ok pr pages : NoDup (pg_phys <$> pages) -> aux_ok pr (aux_init pages) [].
Proof.
  intros Hnd. split; cbn; [done| | |done].
  - intros i x Hi. change (repeat aux_zero 8 !! i = Some x) in Hi. apply repeat_lookup in Hi as ->. by split.
  - intros m Hm. by apply elem_of_nil in Hm.
Qed.

Lemma aux_reachable_inv pr pages s : NoDup (pg_phys <$> pages) -> aux_reachable pr pages s -> aux_ok pr s.1 s.2.
Proof.
  intros Hnd Hr. pose proof (aux_init_ok pr pages Hnd) as Hok. change (aux_ok pr (aux_init pages, @nil aux_map).1 (aux_init pages, @nil aux_map).2) in Hok.
  unfold aux_reachable in Hr. induction Hr as [|s1 s2 s3 Hs _ IH]; [done|]. by eapply IH, aux_step_ok.
Qed.

(** ** What a mapping of a window shows *)

(** A window is real memory up to [iw_len] and the chunks of padding behind it. *)
Definition win_byte (w : iav_win) (b : Z) : option Z :=
  if b <? iw_len w then Some (iw_phys w + b)
  else k ← iw_pad w !! Z.to_nat ((b - iw_len w) / IAV_WIN_CHUNK); Some (ck_phys k + (b - iw_len w) mod IAV_WIN_CHUNK).

Record win_ok (w : iav_win) : Prop := {
  wo_len : 0 < iw_len w <= iw_size w /\ is_page (iw_len w);
  wo_size : iw_size w <= IAV_WIN_MAX_SIZE;
  wo_pad_len : iw_pad_len w = iw_size w - iw_len w;
  wo_pad : length (iw_pad w) = chunks_of (iw_pad_len w);
}.

Lemma alloc_pad_length alloc i n pad : alloc_pad alloc i n = Some pad -> length pad = n.
Proof.
  revert i pad. induction n as [|n IH]; intros i pad; cbn; [by intros [= <-]|].
  destruct (alloc i); [|done]. intros (l & Hl & ->)%fmap_Some. cbn. f_equal. by eapply IH.
Qed.

Lemma header_keeps node c w :
  let w' := iav_win_write_header node c w in iw_pad_len w' = iw_pad_len w /\ length (iw_pad w') = length (iw_pad w) /\ iw_maps w' = iw_maps w.
Proof. unfold iav_win_write_header. destruct (_ <? _); cbn; [done|]. by rewrite length_alter. Qed.

(** A configuration that succeeds leaves a well-formed window over exactly the range asked for. *)
Lemma win_config_ok pr capable c alloc node w w' :
  is_u64 (wc_phys c) -> is_u64 (wc_len c) -> is_u64 (wc_size c) ->
  iav_win_config pr capable (Some c) alloc node w = (0, w') ->
  win_ok w' /\ iw_configured w' = true /\ iw_maps w' = 0 /\ iw_phys w' = wc_phys c /\ iw_len w' = wc_len c /\ iw_size w' = wc_size c /\
  win_min pr <= wc_phys c /\ wc_phys c + wc_len c <= win_max pr.
Proof.
  unfold is_u64. intros Hp Hl Hs. unfold iav_win_config. destruct capable; cbn [negb]; [|done].
  destruct (iav_win_validate pr c =? 0) eqn:Ev; cbn [negb]; [|apply Z.eqb_neq in Ev; by intros [= ? _]]. apply Z.eqb_eq in Ev.
  destruct (iw_maps w =? 0) eqn:Em; cbn [negb]; [|done]. apply Z.eqb_eq in Em.
  destruct (alloc_pad _ _ _) as [pad|] eqn:Ea; [|done]. intros [= <-]. apply alloc_pad_length in Ea.
  destruct (header_keeps node c (mk_win false (iw_maps w) 0 0 0 pad (wc_size c - wc_len c))) as (H1 & H2 & H3). cbn in H1, H2, H3.
  revert Ev. unfold iav_win_validate. destruct (_ || _) eqn:E1; [done|]. destruct ((wc_len c =? 0) || _) eqn:E2; [done|].
  destruct (_ || negb (PAGE_ALIGNED (wc_size c))) eqn:E3; [done|]. destruct (_ || (wc_size c <? wc_len c)) eqn:E4; [done|].
  unfold check_add. destruct (_ <? 2 ^ 64) eqn:E5; [|done]. destruct (_ || _) eqn:E6 in |- *; [done|].
  destruct (_ >? IAV_WIN_MAX_PAD) eqn:E7; [done|]. intros _. unfold PAGE_ALIGNED in *. bool_hyps. cbn.
  split; [|split_and!; (done || congruence)]. split; cbn; [unfold is_page; lia|lia|done|congruence].
Qed.

Section WinView.

Context (w : iav_win).
Hypothesis (Hw : win_ok w).

Definition pad_inv (start off0 end_ : Z) (s : Z * Z * list segment) : Prop :=
  let '(off, uaddr, segs) := s in
  off0 <= off <= end_ /\ (off < end_ -> iw_len w <= off) /\ uaddr = start + (off - off0) /\ covers (win_byte w) start off0 off segs.

Definition pad_result (remap : Z -> Z) (start off0 end_ : Z) (r : option (Z * list segment)) : Prop :=
  match r with
  | None => False
  | Some (ret, segs) => (ret = 0 -> covers (win_byte w) start off0 end_ segs) /\ ((forall u, remap u = 0) -> ret = 0)
  end.

Definition pad_left (end_ : Z) (s : Z * Z * list segment) : nat :=
  if s.1.1 <? end_ then S (Z.to_nat ((end_ - iw_len w + IAV_WIN_CHUNK - 1) / IAV_WIN_CHUNK - (s.1.1 - iw_len w) / IAV_WIN_CHUNK)) else O.

Lemma pad_step_inv remap start off0 end_ s :
  0 <= off0 -> end_ <= iw_size w -> pad_inv start off0 end_ s ->
  match pad_step remap w end_ s with
  | inl s' => pad_inv start off0 end_ s' /\ (pad_left end_ s' < pad_left end_ s)%nat
  | inr r => pad_result remap start off0 end_ r
  end.
Proof.
  destruct s as [[off uaddr] segs]. intros H0 He (Hoff & Hlen & -> & Hcv). destruct Hw as [[Hl _] Hs Hpl Hpad].
  unfold pad_step. destruct (Z.ltb_spec off end_) as [Hlt|Hge].
  2:{ assert (off = end_) as -> by lia. by split. }
  specialize (Hlen Hlt). unfold IAV_WIN_MAX_SIZE in Hs. rewrite (u64_id (off - iw_len w)) by lia.
  set (o := off - iw_len w) in *. assert (Ho : 0 <= o < iw_pad_len w) by lia.
  pose proof (Z.div_mod o IAV_WIN_CHUNK ltac:(done)) as Hdm. pose proof (Z.mod_pos_bound o IAV_WIN_CHUNK ltac:(done)) as Hmb.
  assert (Hi : 0 <= o / IAV_WIN_CHUNK) by (apply Z.div_pos; [lia|done]).
  assert (Hcl : iav_win_chunk_len (iw_pad_len w) (o / IAV_WIN_CHUNK) = Z.min IAV_WIN_CHUNK (iw_pad_len w - o / IAV_WIN_CHUNK * IAV_WIN_CHUNK)).
  { unfold iav_win_chunk_len. rewrite u64_id; [done|]. unfold IAV_WIN_CHUNK in *. lia. }
  rewrite Hcl. rewrite (u64_id (Z.min _ _ - _)) by (unfold IAV_WIN_CHUNK in *; lia).
  destruct (iw_pad w !! Z.to_nat (o / IAV_WIN_CHUNK)) as [k|] eqn:Ek.
  2:{ exfalso. apply lookup_ge_None in Ek. rewrite Hpad in Ek. unfold chunks_of in Ek.
      apply Z2Nat.inj_le in Ek; [|apply Z.div_pos; unfold IAV_WIN_CHUNK; lia|done]. unfold IAV_WIN_CHUNK in *. Z.div_mod_to_equations. lia. }
  destruct (_ =? 0) eqn:Er; cbn [negb]; bool_hyps; [|split; [done|]; intros Hr; by rewrite Hr in Er].
  set (n := Z.min (end_ - off) _). assert (Hn : 0 < n /\ n <= end_ - off /\ o mod IAV_WIN_CHUNK + n <= IAV_WIN_CHUNK) by (unfold n; lia).
  split.
  - split; [lia|]. split; [lia|]. split; [lia|]. apply covers_snoc; [lia|lia|done|]. intros b Hb. unfold win_byte.
    rewrite (proj2 (Z.ltb_ge _ _)) by lia.
    assert (Eq : (b - iw_len w) / IAV_WIN_CHUNK = o / IAV_WIN_CHUNK /\ (b - iw_len w) mod IAV_WIN_CHUNK = o mod IAV_WIN_CHUNK + (b - off))
      by (unfold IAV_WIN_CHUNK in *; Z.div_mod_to_equations; lia).
    destruct Eq as [-> ->]. rewrite Ek. cbn. f_equal. lia.
  - unfold pad_left. cbn. rewrite (proj2 (Z.ltb_lt off end_)) by lia. destruct (Z.ltb_spec (off + n) end_); [|lia].
    apply -> Nat.succ_lt_mono. apply Z2Nat.inj_lt; unfold n, o, IAV_WIN_CHUNK in *; Z.div_mod_to_equations; lia.
Qed.

Lemma pad_loop remap start off0 end_ s :
  0 <= off0 -> end_ <= iw_size w -> pad_inv start off0 end_ s ->
  exists r, iter_until (pad_turns w) (pad_step remap w end_) s = inr r /\ pad_result remap start off0 end_ r.
Proof.
  intros H0 He Hi. rewrite iter_until_nat. apply (iter_ends _ (pad_inv start off0 end_) _ (pad_left end_)); [done| |].
  - intros s' Hs'. by apply pad_step_inv.
  - destruct Hw as [[Hl _] Hs Hpl _]. unfold pad_left, pad_turns. destruct s as [[off uaddr] segs]. destruct Hi as (Ho & Hlen & _). cbn.
    assert (0 <= iw_pad_len w / IAV_WIN_CHUNK) by (apply Z.div_pos; [lia|done]).
    rewrite <- Z2Nat.inj_pos, Z2Pos.id by lia. destruct (Z.ltb_spec off end_); [|lia].
    specialize (Hlen ltac:(lia)). assert (0 <= (off - iw_len w) / IAV_WIN_CHUNK) by (apply Z.div_pos; [lia|done]).
    assert ((end_ - iw_len w + IAV_WIN_CHUNK - 1) / IAV_WIN_CHUNK <= iw_pad_len w / IAV_WIN_CHUNK + 1)
      by (unfold IAV_WIN_CHUNK in *; Z.div_mod_to_equations; lia). lia.
Qed.

Lemma win_map_range_spec remap start off end_ :
  (forall u, remap u = 0) -> 0 <= off <= end_ -> end_ <= iw_size w ->
  exists segs, win_map_range remap w off end_ start = Some (0, segs) /\ covers (win_byte w) start off end_ segs.
Proof.
  intros Hr Ho He. unfold win_map_range.
  assert (Hfin : forall s, pad_inv start off end_ s -> exists segs,
    (match iter_until (pad_turns w) (pad_step remap w end_) s with inr r => r | inl _ => None end) = Some (0, segs) /\
    covers (win_byte w) start off end_ segs).
  { intros s Hs. destruct (pad_loop remap start off end_ s ltac:(lia) ltac:(lia) Hs) as ([[ret segs]|] & -> & Hres); [|done].
    destruct Hres as [H1 H2]. assert (ret = 0) as -> by auto. exists segs. auto. }
  destruct (Z.ltb_spec off (Z.min end_ (iw_len w))) as [Hlt|Hge]; rewrite ?Hr; cbn [negb Z.eqb]; apply Hfin; cbn.
  - split; [lia|]. split; [lia|]. split; [lia|]. replace start with (start + (off - off)) at 2 by lia.
    apply (covers_snoc _ _ _ _ []); [lia|lia|apply covers_nil|]. intros b Hb. unfold win_byte. rewrite (proj2 (Z.ltb_lt _ _)) by lia. f_equal. lia.
  - split; [lia|]. split; [lia|]. split; [lia|apply covers_nil].
Qed.

End WinView.

(** * Theorems *)

(** C15: Through any order of ioctls by anyone, mappings, forks, unmappings and writes of the guests: a node that is
    mapped keeps the composition it was mapped with, every configured node has a valid composition (a power of
    two, ranges page aligned, disjoint in the BAR and in memory, inside the window limits and below the header
    page) made of registered sources only, the mapping counts are exact, and no RAM page belongs to two nodes. *)
Theorem aux_reachable_ok pr pages s : NoDup (pg_phys <$> pages) -> aux_reachable pr pages s -> aux_ok pr s.1 s.2.
Proof. apply aux_reachable_inv. Qed.

(** A partition as a source, and a composition of it. *)
Definition demo_src : amba_virt_iav_aux_sources :=
  mk_srcs 1 0 (mk_src 0x30000000 0x2000 7 0 :: repeat src_zero 31).
Definition demo_cfg : amba_virt_iav_aux_cfg :=
  mk_acfg 0x4000 5 1 0 0 0 (mk_range 0x30000000 0x2000 0 7 0 :: repeat range_zero 15).
Definition demo_pages : list page := [mk_page 0x80000000 (repeat 9 page_bytes); mk_page 0x80001000 (repeat 9 page_bytes)].
Definition demo_vma : vma := mk_vma 0x10000 0x14000 0 true.

Definition demo_sourced : aux_state := snd (iav_aux_set_sources win_defaults demo_src (aux_init demo_pages)).
Definition demo_aux : aux_state := snd (iav_aux_config win_defaults 2 demo_cfg demo_sourced).
Definition demo_node : iav_aux := default aux_zero (g_aux demo_aux !! 2%nat).

Lemma demo_cfg_typed : cfg_typed demo_cfg.
Proof.
  split_and!; try (unfold is_u64, is_u32; cbn; lia). apply Forall_cons. split; [unfold range_typed, is_u64; cbn; lia|].
  apply Forall_lookup. intros k r Hk. apply repeat_lookup in Hk as ->. unfold range_typed, is_u64. cbn. lia.
Qed.

Lemma demo_src_typed : cmd_typed (AUX_SOURCES (Some demo_src)).
Proof.
  split_and!; [unfold is_u32; cbn; lia|done|]. apply Forall_cons. split; [unfold src_typed, is_u64; cbn; lia|].
  apply Forall_lookup. intros k r Hk. apply repeat_lookup in Hk as ->. unfold src_typed, is_u64. cbn. lia.
Qed.

Lemma demo_aux_reachable : aux_reachable win_defaults demo_pages (demo_aux, []).
Proof.
  eapply rtc_l; [eapply (as_ioctl _ true true true 2 (AUX_SOURCES (Some demo_src))); [done|apply demo_src_typed|reflexivity]|].
  eapply rtc_l; [eapply (as_ioctl _ true true true 2 (AUX_CONFIG (Some demo_cfg))); [done|apply demo_cfg_typed|reflexivity]|apply rtc_refl].
Qed.

Lemma demo_pages_nodup : NoDup (pg_phys <$> demo_pages).
Proof. apply NoDup_cons. split; [by intros ?%list_elem_of_singleton|apply NoDup_singleton]. Qed.

Lemma aux_reachable_ok_witness : aux_ok win_defaults demo_aux [].
Proof. exact (aux_reachable_ok win_defaults demo_pages (demo_aux, []) demo_pages_nodup demo_aux_reachable). Defined.

(** Mapping a configured aux node succeeds exactly for a shared mapping inside the BAR, ends, and shows at every
    byte what the composition says: the memory of the range there, the header page at the end, and the node's
    scratch page everywhere else. A failure maps nothing and changes nothing. *)
Theorem aux_mmap_exact pr x v remap :
  cfg_ok pr (x_cfg x) -> is_Some (x_scratch x) -> is_Some (x_hdr x) -> x_configured x = true -> vma_ok v -> (forall u, remap u = 0) ->
  let off := vma_off v in let end_ := vma_off v + vma_size v in
  exists ret segs x', iav_aux_mmap remap v x = Some (ret, segs, x') /\
    (ret = 0 <-> vm_shared v = true /\ end_ <= ac_size (x_cfg x)) /\
    (ret = 0 -> x' = set_xmaps x (x_maps x + 1) /\ forall b, off <= b < end_ -> seg_at segs (vm_start v + (b - off)) = aux_byte x b) /\
    (ret <> 0 -> x' = x).
Proof.
  intros Hc Hs Hh Hx Hv Hr off end_. destruct (aux_mmap_spec pr remap v x Hc Hs Hh Hx Hv) as (ret & segs & x' & E & H1 & H2 & H3).
  exists ret, segs, x'. split; [done|]. split; [split; [intros E0; by destruct (H1 E0) as (? & ? & _)|intros []; by apply H3]|].
  split; [|done]. intros E0. destruct (H1 E0) as (_ & _ & -> & [_ Hv'] & _). by split.
Qed.

Lemma demo_node_ok : cfg_ok win_defaults (x_cfg demo_node) /\ is_Some (x_scratch demo_node) /\ is_Some (x_hdr demo_node).
Proof.
  destruct (ax_nodes _ _ _ (aux_reachable_inv win_defaults demo_pages (demo_aux, []) demo_pages_nodup demo_aux_reachable) 2%nat demo_node eq_refl) as [[H _] _].
  by apply H.
Qed.

Lemma demo_vma_ok : vma_ok demo_vma.
Proof. split; [cbn; lia|done|cbn; lia]. Qed.

Lemma aux_mmap_exact_witness :
  exists ret segs x', iav_aux_mmap (fun _ => 0) demo_vma demo_node = Some (ret, segs, x') /\
    (ret = 0 <-> vm_shared demo_vma = true /\ vma_off demo_vma + vma_size demo_vma <= ac_size (x_cfg demo_node)).
Proof.
  destruct (aux_mmap_exact win_defaults demo_node demo_vma (fun _ => 0) (proj1 demo_node_ok) (proj1 (proj2 demo_node_ok))
              (proj2 (proj2 demo_node_ok)) eq_refl demo_vma_ok (fun _ => eq_refl)) as (ret & segs & x' & H1 & H2 & _).
  exists ret, segs, x'. split; [exact H1|exact H2].
Defined.

Lemma seg_at_Some segs u p : seg_at segs u = Some p -> exists s, s ∈ segs /\ sg_phys s <= p < sg_phys s + sg_len s.
Proof.
  induction segs as [|s l IH]; cbn; [done|]. destruct (_ && _) eqn:E; [|intros H; destruct (IH H) as (t & Ht & Hp); exists t; split; [by right|done]].
  bool_hyps. intros [= <-]. exists s. split; [by left|lia].
Qed.

(** A page belongs to one node. *)
Lemma page_owner pr st ms i j x y q :
  aux_ok pr st ms -> g_aux st !! i = Some x -> g_aux st !! j = Some y -> q ∈ page_list x -> q ∈ page_list y -> i = j.
Proof.
  intros Hok Hi Hj Hx Hy. destruct (decide (i = j)) as [|Hne]; [done|exfalso].
  pose proof (ax_pages _ _ _ Hok) as Hnd. unfold all_pages in Hnd. apply NoDup_app in Hnd as [Hnd _].
  clear Hok. revert i j Hi Hj Hne. induction (g_aux st) as [|z l IH]; intros i j Hi Hj Hne; [done|].
  cbn in Hnd. apply NoDup_app in Hnd as (_ & Hd & Hnd).
  assert (Hin : forall k a, l !! k = Some a -> q ∈ page_list a -> q ∈ concat (page_list <$> l)).
  { intros k a Hk Ha. apply list_elem_of_In, in_concat. exists (page_list a). rewrite <- !list_elem_of_In. split; [|done].
    apply list_elem_of_fmap. exists a. split; [done|]. by eapply list_elem_of_lookup_2. }
  destruct i as [|i], j as [|j]; cbn in Hi, Hj; [done| | |by eapply (IH Hnd i j); [..|congruence]].
  - injection Hi as ->. by apply (Hd q Hx), (Hin j y).
  - injection Hj as ->. by apply (Hd q Hy), (Hin i x).
Qed.

(** In every reachable state, each byte a live mapping shows is a byte of a registered source, inside the window
    limits, or a byte of one of the two RAM pages of the mapped node, which no other node has. *)
Theorem aux_mapping_confined pr pages st ms m u p :
  NoDup (pg_phys <$> pages) -> aux_reachable pr pages (st, ms) -> m ∈ ms -> seg_at (am_segs m) u = Some p ->
  (exists r, r ∈ ranges_of (am_cfg m) /\ ra_phys r <= p < ra_phys r + ra_len r /\ win_min pr <= p < win_max pr /\
             iav_aux_is_source (g_sources st) (ra_phys r) (ra_len r) (ra_pid r) = true) \/
  (exists x q, g_aux st !! am_node m = Some x /\ q ∈ page_list x /\ q <= p < q + PAGE_SIZE /\
               forall j y, g_aux st !! j = Some y -> q ∈ page_list y -> j = am_node m).
Proof.
  intros Hnd Hr Hm Hp. apply (aux_reachable_inv _ _ _ Hnd) in Hr. cbn in Hr.
  destruct (ax_maps _ _ _ Hr m Hm) as (x & Hx & Hcf & Ec & Hf). destruct (ax_nodes _ _ _ Hr _ x Hx) as [[Hc Hs] _].
  apply seg_at_Some in Hp as (s & Hs' & Hp). destruct (proj1 (Forall_forall _ _) Hf s Hs') as [(r & Hrin & Hb)|(Hl & pg & Hpg & Eq)].
  - left. exists r. rewrite <- Ec. split; [done|]. split; [lia|]. split; [|by apply Hs].
    destruct (Hc Hcf) as (Hcfg & _). destruct (proj1 (Forall_forall _ _) (co_ranges _ _ Hcfg) r Hrin) as [_ _ Hwin _ _]. lia.
  - right. exists x, (pg_phys pg). assert (Hin : pg_phys pg ∈ page_list x).
    { unfold page_list. apply elem_of_app. destruct Hpg as [->| ->]; [left|right]; by left. }
    split; [done|]. split; [done|]. split; [lia|]. intros j y Hj Hq. by eapply (page_owner pr st ms j (am_node m)).
Qed.

(** The demo node mapped whole. *)
Definition demo_segs : list segment :=
  match iav_aux_mmap (fun _ => 0) demo_vma demo_node with Some (_, segs, _) => segs | None => [] end.
Definition demo_mapped : aux_state := put_aux 2 (set_xmaps demo_node 1) demo_aux.

Lemma demo_mapped_reachable : aux_reachable win_defaults demo_pages (demo_mapped, [mk_amap 2 demo_cfg demo_segs]).
Proof.
  eapply rtc_r; [exact demo_aux_reachable|].
  exact (as_mmap win_defaults true (fun _ => 0) demo_vma 2 demo_node demo_aux [] 0 demo_segs (set_xmaps demo_node 1) eq_refl demo_vma_ok eq_refl).
Qed.

Lemma aux_mapping_confined_witness :
  seg_at demo_segs 0x11000 = Some 0x30001000 /\
  ((exists r, r ∈ ranges_of demo_cfg /\ ra_phys r <= 0x30001000 < ra_phys r + ra_len r /\ 0x28000000 <= 0x30001000 < 0x100000000 /\
              iav_aux_is_source (g_sources demo_mapped) (ra_phys r) (ra_len r) (ra_pid r) = true) \/
   (exists x q, g_aux demo_mapped !! 2%nat = Some x /\ q ∈ page_list x /\ q <= 0x30001000 < q + PAGE_SIZE /\
                forall j y, g_aux demo_mapped !! j = Some y -> q ∈ page_list y -> j = 2%nat)).
Proof.
  split; [vm_compute; reflexivity|].
  exact (aux_mapping_confined win_defaults demo_pages demo_mapped [mk_amap 2 demo_cfg demo_segs] (mk_amap 2 demo_cfg demo_segs) 0x11000 0x30001000
    demo_pages_nodup demo_mapped_reachable ltac:(by left) ltac:(vm_compute; reflexivity)).
Defined.

(** A mapping refused with EINVAL. *)
Ltac map_refused w :=
  exists (- EINVAL), [], w; (split; [reflexivity|]); (split; [split; [done|intros [? ?]; (done || lia)]|]); by split.

(** Mapping a configured window succeeds exactly for a shared mapping inside it, ends, and shows the real memory
    up to the length of the window and the zeroed padding behind it, chunk after chunk, and nothing else. *)
Theorem win_mmap_exact w v remap :
  win_ok w -> iw_configured w = true -> vma_ok v -> (forall u, remap u = 0) ->
  let off := vma_off v in let end_ := vma_off v + vma_size v in
  exists ret segs w', iav_win_mmap remap v w = Some (ret, segs, w') /\
    (ret = 0 <-> vm_shared v = true /\ end_ <= iw_size w) /\
    (ret = 0 -> w' = set_wmaps w (iw_maps w + 1) /\ forall b, off <= b < end_ -> seg_at segs (vm_start v + (b - off)) = win_byte w b) /\
    (ret <> 0 -> w' = w).
Proof.
  intros Hw Hc Hv Hr off end_. destruct (vma_ok_off v Hv) as (_ & _ & Ho). destruct (vma_ok_size v Hv) as (_ & _ & Hz).
  unfold iav_win_mmap. rewrite Hc. fold off. pose proof (wo_size w Hw) as Hsz. unfold IAV_WIN_MAX_SIZE in Hsz.
  destruct (vm_shared v); cbn [negb]; [|map_refused w].
  unfold check_add. destruct (Z.ltb_spec (off + vma_size v) (2 ^ 64)); [|map_refused w].
  change (off + vma_size v) with end_ in *. rewrite Z.gtb_ltb. destruct (Z.ltb_spec (iw_size w) end_); [map_refused w|].
  destruct (win_map_range_spec w Hw remap (vm_start v) off end_ Hr) as (segs & -> & Hcv); [lia|lia|].
  exists 0, segs, (set_wmaps w (iw_maps w + 1)). split; [done|]. split_and!; try done. intros _. split; [done|]. apply Hcv.
Qed.

Definition demo_wcfg : amba_virt_iav_win_cfg := mk_wcfg 0x30000000 0x3000 0x4000 0 0.
Definition demo_win : iav_win := snd (iav_win_config win_defaults true (Some demo_wcfg) (fun _ => Some 0x90000000) 0 win_zero).

Lemma demo_win_ok : win_ok demo_win.
Proof.
  refine (proj1 (win_config_ok win_defaults true demo_wcfg (fun _ => Some 0x90000000) 0 win_zero demo_win _ _ _ eq_refl)); unfold is_u64; cbn; lia.
Qed.

Lemma win_mmap_exact_witness :
  exists ret segs w', iav_win_mmap (fun _ => 0) demo_vma demo_win = Some (ret, segs, w') /\
    (ret = 0 <-> vm_shared demo_vma = true /\ vma_off demo_vma + vma_size demo_vma <= iw_size demo_win).
Proof.
  destruct (win_mmap_exact demo_win demo_vma (fun _ => 0) demo_win_ok eq_refl demo_vma_ok (fun _ => eq_refl)) as (ret & segs & w' & H1 & H2 & _).
  exists ret, segs, w'. split; [exact H1|exact H2].
Defined.
