(* ===== verification/IavAperture.v ===== *)
(** * The aux apertures of the server

    [Module IavAperture] models tools/virt_iav_aperture.c: the composition of an aperture from the partitions, the
    table of what the guest of each lease index has attached, and the handling of the nodes. The nodes are the
    class [NodeDevice]; the instance [kernel_nodes] is the kernel module of IavWin, opened as root. The partition
    ids of the primary role come from the vendor's header and are an argument. *)

From Stdlib Require Import ZArith Lia Bool Ascii String.
From stdpp Require Import base list numbers decidable strings.
From S2P Require Import Prelude Text SliceArena IavWin.
Import Text IavWin IavAux.
#[local] Open Scope Z_scope.
#[local] Open Scope list_scope.

Module IavAperture.

Definition VIRT_IAV_APERTURE_NODES : Z := 8.
Definition VIRT_IAV_APERTURE_MAX_PARTS : nat := 16.
Definition VIRT_IAV_APERTURE_MAX_AVOID : nat := 4.
Definition PAGE_BYTES : Z := 4096.

(** struct virt_iav_aperture_part *)
Record virt_iav_aperture_part := mk_part { pa_pid : Z; pa_base : Z; pa_len : Z }.

(** struct node_state *)
Record node_state := mk_node { nd_attached : bool; nd_cfg : amba_virt_iav_aux_cfg }.

Definition node_zero : node_state := mk_node false acfg_zero.

(** The globals: the registered partitions and sizes to avoid, and the table of the nodes. *)
Record aperture_state := mk_ap {
  ap_ready : bool;
  ap_init_rc : Z;
  ap_parts : list virt_iav_aperture_part;
  ap_avoid : list Z;
  ap_node : list node_state;
}.

(** virt_iav_aperture_reset *)
Definition virt_iav_aperture_reset : aperture_state :=
  mk_ap false (- ENODATA) [] [] (repeat node_zero (Z.to_nat VIRT_IAV_APERTURE_NODES)).

Definition put_node (i : Z) (n : node_state) (a : aperture_state) : aperture_state :=
  mk_ap (ap_ready a) (ap_init_rc a) (ap_parts a) (ap_avoid a) (<[Z.to_nat i := n]> (ap_node a)).

(** ** Composition *)

(** is_pow2, round_up *)
Definition is_pow2 (v : Z) : bool := negb (v =? 0) && pow2_test v.
Definition round_up (v a : Z) : Z := u64 (u64 (v + a - 1) / a * a).

(** The loop over the partitions keeps the last one with the id. *)
Definition find_part (parts : list virt_iav_aperture_part) (pid : Z) : option virt_iav_aperture_part :=
  foldl (fun p x => if pa_pid x =? pid then Some x else p) None parts.

(** A partition that is left out. *)
Definition part_skipped (p : virt_iav_aperture_part) : bool :=
  (pa_len p =? 0) || negb (pa_base p mod PAGE_BYTES =? 0) || negb (pa_len p mod PAGE_BYTES =? 0) ||
  (u64 (pa_base p + pa_len p) <? pa_base p).

(** The loop over the ids: an error, or the offset after the last range. The ranges placed are returned too. *)
Fixpoint place_ranges (parts : list virt_iav_aperture_part) (pids : list Z) (off : Z) (placed : list amba_virt_iav_aux_range)
    : (Z + Z) * list amba_virt_iav_aux_range :=
  match pids with
  | [] => (inr off, placed)
  | pid :: pids' =>
      match find_part parts pid with
      | None => place_ranges parts pids' off placed
      | Some p =>
          if part_skipped p then place_ranges parts pids' off placed
          else if (AMBA_VIRT_IAV_AUX_MAX_RANGES <=? length placed)%nat then (inr off, placed)
          else
            let off := round_up off AMBA_VIRT_IAV_AUX_ALIGN in
            if (off >? AMBA_VIRT_IAV_AUX_MAX_SIZE) || (pa_len p >? AMBA_VIRT_IAV_AUX_MAX_SIZE - off) then (inl (- E2BIG), placed)
            else place_ranges parts pids' (u64 (off + pa_len p)) (placed ++ [mk_range (pa_base p) (pa_len p) off (pa_pid p) 0])
      end
  end.

(** [while (size < need) size <<= 1;] *)
Definition grow_size (need size : Z) : option Z :=
  match iter_until 64 (fun s => if s <? need then inl (u64 (Z.shiftl s 1)) else inr s) size with
  | inr s => Some s
  | inl _ => None
  end.

(** The body of the do loop: one pass over the sizes to avoid. *)
Definition avoid_pass (avoid : list Z) (size : Z) : Z * bool :=
  foldl (fun '(s, again) a => if a =? s then (u64 (Z.shiftl s 1), true) else (s, again)) (size, false) avoid.

(** [do ... while (again && size <= AMBA_VIRT_IAV_AUX_MAX_SIZE);] *)
Definition avoid_sizes (avoid : list Z) (size : Z) : option Z :=
  match iter_until 64 (fun s => let '(s', again) := avoid_pass avoid s in
                                if again && (s' <=? AMBA_VIRT_IAV_AUX_MAX_SIZE) then inl s' else inr s') size with
  | inr s => Some s
  | inl _ => None
  end.

Definition cfg_of (size epoch : Z) (count : nat) (placed : list amba_virt_iav_aux_range) : amba_virt_iav_aux_cfg :=
  mk_acfg size epoch (Z.of_nat count) 0 0 0 (placed ++ repeat range_zero (AMBA_VIRT_IAV_AUX_MAX_RANGES - length placed)).

(** virt_iav_aperture_compose: the result and what [out] holds; [None] is a loop that has not stopped *)
Definition virt_iav_aperture_compose (pids : list Z) (parts : list virt_iav_aperture_part) (avoid : list Z) (epoch : Z)
    : option (Z * amba_virt_iav_aux_cfg) :=
  if epoch =? 0 then Some (- EINVAL, acfg_zero)
  else
    match place_ranges parts pids 0 [] with
    | (inl rc, placed) => Some (rc, cfg_of 0 0 0 placed)
    | (inr off, placed) =>
        if (length placed =? 0)%nat then Some (0, acfg_zero)
        else
          let need := u64 (off + PAGE_BYTES) in
          size ← grow_size need AMBA_VIRT_IAV_AUX_MIN_SIZE;
          size ← avoid_sizes avoid size;
          Some (if (size >? AMBA_VIRT_IAV_AUX_MAX_SIZE) || negb (is_pow2 size) then (- E2BIG, cfg_of 0 0 0 placed)
                else (Z.of_nat (length placed), cfg_of size epoch (length placed) placed))
    end.

(** same_cfg *)
Definition same_cfg (a b : amba_virt_iav_aux_cfg) : bool :=
  (ac_size a =? ac_size b) && (ac_epoch a =? ac_epoch b) && (ac_count a =? ac_count b) && bool_decide (ac_range a = ac_range b).

(** ** Nodes *)

(** What the server asks of /dev/amba_virt_iav_aux<n>: each answer is 0 or a negative errno. *)
Class NodeDevice (K : Type) := {
  node_get : Z -> K -> Z * amba_virt_iav_aux_cfg;
  node_config : Z -> amba_virt_iav_aux_cfg -> K -> Z * K;
  node_clear : Z -> K -> Z * K;
  node_sources : amba_virt_iav_aux_sources -> K -> Z * K;
}.

Section Nodes.

Context {K : Type} {dev : NodeDevice K} (pids : list Z).

Definition source_of (p : virt_iav_aperture_part) : amba_virt_iav_aux_source := mk_src (pa_base p) (pa_len p) (pa_pid p) 0.

Definition sources_of (parts : list virt_iav_aperture_part) : amba_virt_iav_aux_sources :=
  mk_srcs (Z.of_nat (length parts)) 0 (map source_of parts ++ repeat src_zero (AMBA_VIRT_IAV_AUX_MAX_SOURCES - length parts)).

(** virt_iav_aperture_init *)
Definition virt_iav_aperture_init (parts : list virt_iav_aperture_part) (avoid : list Z) (a : aperture_state) (k : K)
    : Z * aperture_state * K :=
  if (VIRT_IAV_APERTURE_MAX_PARTS <? length parts)%nat || (VIRT_IAV_APERTURE_MAX_AVOID <? length avoid)%nat then (- EINVAL, a, k)
  else
    let '(rc, k') := node_sources (sources_of parts) k in
    if rc =? 0 then (rc, mk_ap true rc parts avoid (ap_node a), k')
    else (rc, mk_ap false rc (ap_parts a) (ap_avoid a) (ap_node a), k').

(** clear_if_idle *)
Definition clear_if_idle (index : Z) (k : K) : K :=
  let '(rc, have) := node_get index k in
  if negb (rc =? 0) then k
  else if negb (ac_size have =? 0) && (ac_maps have =? 0) then snd (node_clear index k)
  else k.

(** virt_iav_aperture_attach: the return code, the size and the two states; [None] is a composition that has not
    stopped *)
Definition virt_iav_aperture_attach (index epoch : Z) (primary : bool) (a : aperture_state) (k : K)
    : option (Z * Z * aperture_state * K) :=
  if index >=? VIRT_IAV_APERTURE_NODES then Some (- EINVAL, 0, a, k)
  else
    let a0 := put_node index node_zero a in
    if negb (ap_ready a) then Some (- ENODEV, 0, a0, k)
    else if negb primary || (epoch =? 0) || (epoch >? 0xffffffff) then Some (0, 0, a0, clear_if_idle index k)
    else
      c ← virt_iav_aperture_compose pids (ap_parts a) (ap_avoid a) epoch;
      let '(n, want) := c in
      Some (
        if n <=? 0 then (n, 0, a0, clear_if_idle index k)
        else
          let '(rc, have) := node_get index k in
          if negb (rc =? 0) then (rc, 0, a0, k)
          else if negb (ac_size have =? 0) && same_cfg have want then
            (0, ac_size want, put_node index (mk_node true want) a0, k)
          else if negb (ac_maps have =? 0) then (- EBUSY, 0, a0, k)
          else
            let '(rc, k') := node_config index want k in
            if negb (rc =? 0) then (rc, 0, a0, k')
            else (0, ac_size want, put_node index (mk_node true want) a0, k')).

(** virt_iav_aperture_detach *)
Definition virt_iav_aperture_detach (index : Z) (a : aperture_state) (k : K) : aperture_state * K :=
  if index >=? VIRT_IAV_APERTURE_NODES then (a, k)
  else (put_node index node_zero a, if ap_ready a then clear_if_idle index k else k).

(** virt_iav_aperture_adopt: whether the node was adopted *)
Definition virt_iav_aperture_adopt (index epoch : Z) (primary : bool) (a : aperture_state) (k : K)
    : option (bool * aperture_state * K) :=
  if index >=? VIRT_IAV_APERTURE_NODES then Some (false, a, k)
  else
    let a0 := put_node index node_zero a in
    if negb (ap_ready a) then Some (false, a0, k)
    else
      let '(rc, have) := node_get index k in
      if negb (rc =? 0) || (ac_size have =? 0) then Some (false, a0, k)
      else
        c ← (if primary && negb (epoch =? 0) && (epoch <=? 0xffffffff)
             then virt_iav_aperture_compose pids (ap_parts a) (ap_avoid a) epoch else Some (0, acfg_zero));
        let '(n, want) := c in
        Some (
          if (n >? 0) && same_cfg have want then (true, put_node index (mk_node true want) a0, k)
          else (false, a0, if ac_maps have =? 0 then snd (node_clear index k) else k)).

End Nodes.

(** struct virt_iav_aperture_view: an entry is its partition id, base, length and offset *)
Record virt_iav_aperture_view := mk_view { vw_size : Z; vw_epoch : Z; vw_count : Z; vw_e : list (Z * Z * Z * Z) }.

(** virt_iav_aperture_get *)
Definition virt_iav_aperture_get (index : Z) (a : aperture_state) : Z * virt_iav_aperture_view :=
  if index >=? VIRT_IAV_APERTURE_NODES then (- EINVAL, mk_view 0 0 0 [])
  else
    match ap_node a !! Z.to_nat index with
    | Some n =>
        if nd_attached n then
          let c := nd_cfg n in
          (0, mk_view (ac_size c) (ac_epoch c) (ac_count c)
                      (map (fun r => (ra_pid r, ra_phys r, ra_len r, ra_offset r)) (take (Z.to_nat (ac_count c)) (ac_range c))))
        else (0, mk_view 0 0 0 [])
    | None => (- EINVAL, mk_view 0 0 0 [])
    end.

(** ** The status line *)

Definition ends_with (c : ascii) (t : text) : bool := match last t with Some x => Ascii.eqb x c | None => false end.

(** One node of the loop: [t] is what has been printed, with what did not fit. *)
Definition format_node (len : nat) (t : text) (i : nat) (n : node_state) : text :=
  if (length t <? len)%nat && nd_attached n then
    t ++ (if ends_with "=" t then [] else lit ",") ++ print_u (Z.of_nat i) ++ lit ":0x" ++ print_llx (ac_size (nd_cfg n)) ++ lit "/" ++ print_u (ac_count (nd_cfg n))
  else t.

(** virt_iav_aperture_format: the result and what a buffer of [len] bytes holds *)
Definition virt_iav_aperture_format (len : nat) (a : aperture_state) : Z * text :=
  if (len =? 0)%nat then (- 1, [])
  else
    let t0 := lit "APERTURE state=" ++ (if ap_ready a then lit "ready" else lit "off") ++ lit " sources=" ++ print_u (Z.of_nat (length (ap_parts a))) ++ lit " nodes=" in
    let t1 := foldl (fun t '(i, n) => format_node len t i n) t0 (imap pair (ap_node a)) in
    let t2 := if (length t1 <? len)%nat then t1 ++ (if ends_with "=" t1 then lit "-" else []) ++ lit " init=" ++ print_d (ap_init_rc a) ++ [newline] else t1 in
    (if (len <=? length t2)%nat then - 1 else Z.of_nat (length t2), snprintf len t2).

(** ** The kernel's nodes *)

(** real_node_ioctl on the kernel module, the nodes present and the server root *)
Definition kernel_nodes (pr : win_params) (normal_nc : bool) : NodeDevice aux_state := {|
  node_get i k := fst (iav_aux_ioctl pr normal_nc true (Z.to_nat i) AUX_GET k);
  node_config i c k := let '(rc, _, k') := iav_aux_ioctl pr normal_nc true (Z.to_nat i) (AUX_CONFIG (Some c)) k in (rc, k');
  node_clear i k := let '(rc, _, k') := iav_aux_ioctl pr normal_nc true (Z.to_nat i) AUX_CLEAR k in (rc, k');
  node_sources s k := let '(rc, _, k') := iav_aux_ioctl pr normal_nc true 0 (AUX_SOURCES (Some s)) k in (rc, k');
|}.

End IavAperture.
