(* ===== verification/IavApertureProps.v ===== *)
(** * Properties of the aux apertures

    The composition against a reference layout (the usable partitions in order, each at the next 64 KiB boundary, in
    the smallest power of two that holds them and is not to be avoided), its acceptance by the kernel, and the
    agreement of the server's table with the kernel's nodes over every order of the server's operations and of the
    guests' mappings. *)

From Stdlib Require Import ZArith Lia Bool.
From stdpp Require Import base list numbers decidable relations.
From S2P Require Import Prelude SliceArena IavWin IavWinProps IavAperture.
Import IavWin IavAux IavAperture.
#[local] Open Scope Z_scope.
#[local] Open Scope list_scope.

(** ** The reference layout *)

(** The partitions an aperture is made of. *)
Definition usable (parts : list virt_iav_aperture_part) (pids : list Z) : list virt_iav_aperture_part :=
  omap (fun pid => p ← find_part parts pid; if part_skipped p then None else Some p) pids.

Definition next_slot (off : Z) : Z := (off + (AMBA_VIRT_IAV_AUX_ALIGN - 1)) / AMBA_VIRT_IAV_AUX_ALIGN * AMBA_VIRT_IAV_AUX_ALIGN.

Definition range_of (p : virt_iav_aperture_part) (off : Z) : amba_virt_iav_aux_range := mk_range (pa_base p) (pa_len p) off (pa_pid p) 0.

Fixpoint layout (off : Z) (l : list virt_iav_aperture_part) : list amba_virt_iav_aux_range :=
  match l with
  | [] => []
  | p :: l' => range_of p (next_slot off) :: layout (next_slot off + pa_len p) l'
  end.

Fixpoint layout_end (off : Z) (l : list virt_iav_aperture_part) : Z :=
  match l with
  | [] => off
  | p :: l' => layout_end (next_slot off + pa_len p) l'
  end.

(** A size exponent that holds [need] bytes and is not to be avoided. *)
Definition fits (avoid : list Z) (need k : Z) : Prop := 13 <= k <= 30 /\ need <= 2 ^ k /\ 2 ^ k ∉ avoid.

Definition part_typed (p : virt_iav_aperture_part) : Prop := is_u32 (pa_pid p) /\ is_u64 (pa_base p) /\ is_u64 (pa_len p).

Lemma next_slot_ge off : off <= next_slot off < off + AMBA_VIRT_IAV_AUX_ALIGN /\ next_slot off mod AMBA_VIRT_IAV_AUX_ALIGN = 0.
Proof. unfold next_slot, AMBA_VIRT_IAV_AUX_ALIGN. Z.div_mod_to_equations. lia. Qed.

Lemma round_up_slot off : 0 <= off <= AMBA_VIRT_IAV_AUX_MAX_SIZE -> round_up off AMBA_VIRT_IAV_AUX_ALIGN = next_slot off.
Proof.
  unfold AMBA_VIRT_IAV_AUX_MAX_SIZE. intros H. pose proof (next_slot_ge off) as [Hn _]. unfold round_up, next_slot, AMBA_VIRT_IAV_AUX_ALIGN in *.
  rewrite (u64_id (off + 65536 - 1)) by lia. rewrite <- Z.add_sub_assoc. by rewrite u64_id by lia.
Qed.

Lemma find_part_in parts pid p : find_part parts pid = Some p -> p ∈ parts /\ pa_pid p = pid.
Proof.
  unfold find_part. assert (H : forall l q, foldl (fun p x => if pa_pid x =? pid then Some x else p) q l = Some p ->
    q = Some p \/ (p ∈ l /\ pa_pid p = pid)).
  { induction l as [|x l IH]; intros q E; cbn in E; [by left|]. apply IH in E as [E|[E1 E2]]; [|right; split; [by right|done]].
    destruct (Z.eqb_spec (pa_pid x) pid); [|by left]. right. injection E as ->. split; [by left|done]. }
  intros E. apply H in E as [|]; done.
Qed.

Record part_usable (p : virt_iav_aperture_part) : Prop := {
  pu_len : 0 < pa_len p /\ is_page (pa_len p);
  pu_base : 0 <= pa_base p /\ is_page (pa_base p);
  pu_end : pa_base p + pa_len p < 2 ^ 64;
}.

Lemma skipped_false p : part_typed p -> part_skipped p = false -> part_usable p.
Proof.
  unfold part_typed, part_skipped, PAGE_BYTES, is_u64. intros (_ & Hb & Hl) E. bool_hyps. split; unfold is_page, PAGE_SIZE; [lia..|].
  destruct (Z.lt_ge_cases (pa_base p + pa_len p) (2 ^ 64)); [done|]. unfold u64 in *. exfalso.
  assert ((pa_base p + pa_len p) mod 2 ^ 64 = pa_base p + pa_len p - 2 ^ 64) as E3; [|lia].
  symmetry. apply (Z.mod_unique_pos _ _ 1); lia.
Qed.

Lemma usable_in parts pids p : p ∈ usable parts pids -> p ∈ parts /\ pa_pid p ∈ pids /\ part_skipped p = false.
Proof.
  intros (pid & Hpid & E)%list_elem_of_omap. apply bind_Some in E as (q & Hq & E). destruct (part_skipped q) eqn:Es; [done|].
  injection E as ->. destruct (find_part_in _ _ _ Hq) as [? <-]. done.
Qed.

Lemma usable_length parts pids : (length (usable parts pids) <= length pids)%nat.
Proof. unfold usable. induction pids as [|x l IH]; cbn; [lia|]. destruct (find_part _ _) as [p|]; cbn; [destruct (part_skipped p)|]; cbn; lia. Qed.

Lemma usable_ok parts pids : Forall part_typed parts -> Forall part_usable (usable parts pids).
Proof.
  intros Ht. apply Forall_forall. intros p (Hp & _ & Es)%usable_in. apply skipped_false; [|done]. by apply (proj1 (Forall_forall _ _) Ht).
Qed.

Lemma layout_end_ge off l : Forall part_usable l -> off <= layout_end off l.
Proof.
  revert off. induction l as [|p l IH]; intros off H; cbn; [lia|]. apply Forall_cons in H as [Hp Hl].
  specialize (IH (next_slot off + pa_len p) Hl). pose proof (next_slot_ge off). destruct (pu_len p Hp). lia.
Qed.

Lemma layout_length off l : length (layout off l) = length l.
Proof. revert off. induction l as [|p l IH]; intros off; cbn; [done|]. by rewrite IH. Qed.

(** The loop over the ids lays the usable partitions out, or finds that they are too large. *)
Lemma place_ranges_spec parts pids off placed :
  Forall part_typed parts -> 0 <= off <= AMBA_VIRT_IAV_AUX_MAX_SIZE -> (length placed + length pids <= 16)%nat ->
  let us := usable parts pids in
  if layout_end off us <=? AMBA_VIRT_IAV_AUX_MAX_SIZE then place_ranges parts pids off placed = (inr (layout_end off us), placed ++ layout off us)
  else fst (place_ranges parts pids off placed) = inl (- E2BIG).
Proof.
  intros Ht. revert off placed. induction pids as [|pid pids IH]; intros off placed Ho Hlen us; cbn [place_ranges].
  { subst us. cbn. rewrite (proj2 (Z.leb_le _ _)) by lia. by rewrite app_nil_r. }
  cbn in Hlen. unfold usable in us. cbn [omap list_omap] in us. destruct (find_part parts pid) as [p|] eqn:Ef; cbn in us; [|apply IH; lia].
  destruct (part_skipped p) eqn:Es; [apply IH; lia|]. fold (usable parts pids) in us.
  pose proof (usable_ok parts pids Ht) as Hu. destruct (find_part_in _ _ _ Ef) as [Hin _].
  pose proof (skipped_false p (proj1 (Forall_forall _ _) Ht p Hin) Es) as Hp. destruct (pu_len p Hp) as [Hl _].
  rewrite (proj2 (Nat.leb_gt _ _)) by (unfold AMBA_VIRT_IAV_AUX_MAX_RANGES; lia). rewrite round_up_slot by done.
  pose proof (next_slot_ge off) as [Hn _]. subst us. cbn [layout_end layout].
  destruct (_ || _) eqn:Eb; cbn [fst].
  - pose proof (layout_end_ge (next_slot off + pa_len p) _ Hu). rewrite (proj2 (Z.leb_gt _ _)); [done|].
    apply orb_prop in Eb as [Eb|Eb]; bool_hyps; lia.
  - bool_hyps. rewrite u64_id by (unfold AMBA_VIRT_IAV_AUX_MAX_SIZE in *; lia).
    specialize (IH (next_slot off + pa_len p) (placed ++ [range_of p (next_slot off)])).
    rewrite length_app in IH. cbn [length] in IH. specialize (IH ltac:(lia) ltac:(lia)). cbn zeta in IH.
    fold (range_of p (next_slot off)). by rewrite <- app_assoc in IH.
Qed.

(** ** The size *)

Lemma shl_pow2 k : 0 <= k <= 62 -> u64 (Z.shiftl (2 ^ k) 1) = 2 ^ (k + 1).
Proof.
  intros Hk. rewrite Z.shiftl_mul_pow2, <- Z.pow_add_r by lia. apply u64_id. split; [apply Z.pow_nonneg; lia|].
  apply Z.pow_lt_mono_r; lia.
Qed.

Lemma pow2_le_iff a b : 0 <= a -> 0 <= b -> 2 ^ a <= 2 ^ b <-> a <= b.
Proof. intros. symmetry. apply Z.pow_le_mono_r_iff; lia. Qed.

Lemma grow_size_spec need :
  need <= 2 ^ 31 ->
  exists k, grow_size need AMBA_VIRT_IAV_AUX_MIN_SIZE = Some (2 ^ k) /\ 13 <= k <= 31 /\ need <= 2 ^ k /\ forall j, 13 <= j < k -> 2 ^ j < need.
Proof.
  intros Hn. unfold grow_size. rewrite iter_until_nat.
  destruct (iter_ends (fun s => if s <? need then inl (u64 (Z.shiftl s 1)) else inr s)
      (fun s => exists k, s = 2 ^ k /\ 13 <= k <= 31 /\ forall j, 13 <= j < k -> 2 ^ j < need)
      (fun s => exists k, s = 2 ^ k /\ 13 <= k <= 31 /\ need <= 2 ^ k /\ forall j, 13 <= j < k -> 2 ^ j < need)
      (fun s => Z.to_nat (31 - Z.log2 s)) (Pos.to_nat 64) AMBA_VIRT_IAV_AUX_MIN_SIZE) as (s & -> & k & -> & H).
  - exists 13. split; [done|]. split; [lia|]. intros j Hj. lia.
  - intros s (k & -> & Hk & Hj). destruct (Z.ltb_spec (2 ^ k) need) as [Hlt|Hge]; [|by exists k].
    assert (k < 31) by (apply (Z.pow_lt_mono_r_iff 2); lia).
    rewrite shl_pow2, !Z.log2_pow2 by lia. split; [|lia]. exists (k + 1). split_and!; [done|lia..|].
    intros j Hj'. destruct (decide (j = k)) as [->|]; [done|apply Hj; lia].
  - cbn. lia.
  - exists k. done.
Qed.

(** A pass doubles the size through sizes to avoid, and says whether it did. *)
Lemma avoid_pass_spec avoid k again0 :
  0 <= k -> k + Z.of_nat (length avoid) <= 62 ->
  exists k' again, foldl (fun '(s, again) a => if a =? s then (u64 (Z.shiftl s 1), true) else (s, again)) (2 ^ k, again0) avoid = (2 ^ k', again) /\
    k <= k' <= k + Z.of_nat (length avoid) /\ (forall j, k <= j < k' -> 2 ^ j ∈ avoid) /\
    (k' = k -> (2 ^ k ∉ avoid) /\ again = again0) /\ (k < k' -> again = true).
Proof.
  revert k again0. induction avoid as [|a avoid IH]; intros k again0 Hk Hl; cbn [foldl length] in *.
  - exists k, again0. split_and!; try done; try lia. split; [by intros ?%elem_of_nil|done].
  - destruct (Z.eqb_spec a (2 ^ k)) as [->|Hne].
    + rewrite shl_pow2 by lia. destruct (IH (k + 1) true) as (k' & again & -> & Hk' & Hj & H1 & H2); [lia..|].
      exists k', again. split_and!; [done|lia..| | |].
      * intros j Hj'. destruct (decide (j = k)) as [->|]; [by left|right; apply Hj; lia].
      * lia.
      * intros _. destruct (decide (k' = k + 1)) as [->|]; [by apply H1|apply H2; lia].
    + destruct (IH k again0) as (k' & again & -> & Hk' & Hj & H1 & H2); [lia..|].
      exists k', again. split_and!; [done|lia..| | |done].
      * intros j Hj'. right. by apply Hj.
      * intros E. destruct (H1 E) as [Hin ->]. split; [|done]. by intros [|]%elem_of_cons.
Qed.

Lemma avoid_sizes_spec avoid k :
  13 <= k <= 31 -> (length avoid <= 4)%nat ->
  exists k', avoid_sizes avoid (2 ^ k) = Some (2 ^ k') /\ k <= k' <= 35 /\ (forall j, k <= j < k' -> 2 ^ j ∈ avoid) /\ (k' <= 30 -> 2 ^ k' ∉ avoid).
Proof.
  intros Hk Hl. unfold avoid_sizes. rewrite iter_until_nat.
  destruct (iter_ends (fun s => let '(s', again) := avoid_pass avoid s in
                                if again && (s' <=? AMBA_VIRT_IAV_AUX_MAX_SIZE) then inl s' else inr s')
      (fun s => exists i, s = 2 ^ i /\ k <= i <= 31 /\ forall j, k <= j < i -> 2 ^ j ∈ avoid)
      (fun s => exists i, s = 2 ^ i /\ k <= i <= 35 /\ (forall j, k <= j < i -> 2 ^ j ∈ avoid) /\ (i <= 30 -> 2 ^ i ∉ avoid))
      (fun s => Z.to_nat (31 - Z.log2 s)) (Pos.to_nat 64) (2 ^ k)) as (s & -> & k' & -> & H).
  - exists k. split; [done|]. split; [lia|]. intros j Hj. lia.
  - intros s (i & -> & Hi & Hj). unfold avoid_pass.
    destruct (avoid_pass_spec avoid i false) as (k' & again & -> & Hk' & Hj' & H1 & H2); [lia..|].
    assert (Hall : forall j, k <= j < k' -> 2 ^ j ∈ avoid).
    { intros j Hb. destruct (Z.lt_ge_cases j i); [apply Hj|apply Hj']; lia. }
    assert (Hmax : 2 ^ k' <= AMBA_VIRT_IAV_AUX_MAX_SIZE <-> k' <= 30) by (apply (pow2_le_iff k' 30); lia).
    destruct (decide (k' = i)) as [->|Hne].
    + destruct (H1 eq_refl) as [Hin ->]. cbn. exists i. split_and!; try done; lia.
    + rewrite (H2 ltac:(lia)). cbn. destruct (Z.leb_spec (2 ^ k') AMBA_VIRT_IAV_AUX_MAX_SIZE).
      * rewrite !Z.log2_pow2 by lia. split; [|lia]. exists k'. split_and!; try done; lia.
      * exists k'. split_and!; [done|lia|lia|done|lia].
  - rewrite Z.log2_pow2 by lia. lia.
  - exists k'. done.
Qed.

(** ** Composition *)

Lemma compose_run pids parts avoid epoch :
  Forall part_typed parts -> (length pids <= 16)%nat -> (length avoid <= 4)%nat -> epoch <> 0 ->
  let us := usable parts pids in
  let need := layout_end 0 us + PAGE_BYTES in
  exists rc c, virt_iav_aperture_compose pids parts avoid epoch = Some (rc, c) /\
    (us = [] -> rc = 0) /\
    (us <> [] ->
      (exists k, fits avoid need k /\ (forall j, fits avoid need j -> k <= j) /\ rc = Z.of_nat (length us) /\
                 c = cfg_of (2 ^ k) epoch (length us) (layout 0 us)) \/
      (rc = - E2BIG /\ forall k, ~ fits avoid need k)).
Proof.
  intros Ht Hp Ha He us need. unfold virt_iav_aperture_compose. rewrite (proj2 (Z.eqb_neq _ _) He).
  pose proof (place_ranges_spec parts pids 0 [] Ht ltac:(unfold AMBA_VIRT_IAV_AUX_MAX_SIZE; lia) Hp) as Hpl. cbn zeta in Hpl. fold us in Hpl.
  pose proof (layout_end_ge 0 us (usable_ok parts pids Ht)) as Hge.
  destruct (Z.leb_spec (layout_end 0 us) AMBA_VIRT_IAV_AUX_MAX_SIZE) as [Hle|Hgt].
  - rewrite Hpl. cbn [app]. rewrite layout_length. assert (us = [] \/ us <> []) as [E|Hne] by (destruct us; auto); [rewrite E; exists 0, acfg_zero; done|].
    rewrite (proj2 (Nat.eqb_neq _ _)) by by rewrite length_zero_iff_nil.
    fold need. unfold AMBA_VIRT_IAV_AUX_MAX_SIZE, PAGE_BYTES in *. rewrite u64_id by lia.
    destruct (grow_size_spec need ltac:(lia)) as (k0 & -> & Hk0 & Hn0 & Hj0). cbn.
    destruct (avoid_sizes_spec avoid k0 Hk0 Ha) as (k & -> & Hk & Hj & Hin). cbn.
    assert (Hleast : forall j, fits avoid need j -> k <= j).
    { intros j (Hj1 & Hj2 & Hj3). destruct (Z.lt_ge_cases j k0); [specialize (Hj0 j ltac:(lia)); lia|].
      destruct (Z.lt_ge_cases j k); [by specialize (Hj j ltac:(lia))|done]. }
    rewrite Z.gtb_ltb. assert (Hmax : 2 ^ 30 < 2 ^ k <-> 30 < k) by (symmetry; apply Z.pow_lt_mono_r_iff; lia).
    destruct (Z.ltb_spec 1073741824 (2 ^ k)); cbn [orb].
    + eexists _, _. split; [reflexivity|]. split; [done|]. intros _. right. split; [done|]. intros j Hf. specialize (Hleast j Hf). destruct Hf. lia.
    + assert (is_pow2 (2 ^ k) = true) as ->.
      { unfold is_pow2. rewrite pow2_test_pow by lia. rewrite (proj2 (Z.eqb_neq _ 0)); [done|]. apply Z.pow_nonzero; lia. }
      eexists _, _. split; [done|]. split; [done|]. intros _. left. exists k. split; [|by split_and!]. split; [lia|].
      split; [|apply Hin; lia]. etransitivity; [exact Hn0|]. apply pow2_le_iff; lia.
  - destruct (place_ranges parts pids 0 []) as [r placed]. cbn in Hpl. subst r. eexists _, _. split; [done|]. split.
    + intros E. rewrite E in Hgt. cbn in Hgt. unfold AMBA_VIRT_IAV_AUX_MAX_SIZE in Hgt. lia.
    + intros _. right. split; [done|]. intros k (Hk & Hn & _). unfold need, PAGE_BYTES in Hn.
      assert (2 ^ k <= 2 ^ 30) by (apply pow2_le_iff; lia). unfold AMBA_VIRT_IAV_AUX_MAX_SIZE in Hgt. lia.
Qed.

(** ** Acceptance by the kernel *)

Lemma layout_lookup off l i r :
  Forall part_usable l -> 0 <= off -> layout off l !! i = Some r ->
  exists p o, l !! i = Some p /\ r = range_of p o /\ off <= o /\ o mod AMBA_VIRT_IAV_AUX_ALIGN = 0 /\ o + pa_len p <= layout_end off l.
Proof.
  revert off i. induction l as [|p l IH]; intros off i H Ho; cbn; [done|]. apply Forall_cons in H as [Hp Hl].
  pose proof (next_slot_ge off) as [Hn Hm]. destruct (pu_len p Hp) as [Hlen _].
  destruct i as [|i]; cbn.
  - intros [= <-]. exists p, (next_slot off). split_and!; (done || lia || by apply layout_end_ge).
  - intros Hi. destruct (IH (next_slot off + pa_len p) i Hl ltac:(lia) Hi) as (q & o & ? & ? & ? & ? & ?). exists q, o. split_and!; (done || lia).
Qed.

Lemma layout_apart off l i j r o :
  Forall part_usable l -> 0 <= off -> layout off l !! i = Some r -> layout off l !! j = Some o -> (i < j)%nat -> ra_offset r + ra_len r <= ra_offset o.
Proof.
  revert off i j. induction l as [|p l IH]; intros off i j H Ho; cbn; [done|]. pose proof (next_slot_ge off) as [Hn _].
  apply Forall_cons in H as [Hp Hl]. destruct (pu_len p Hp) as [Hlen _]. destruct i as [|i], j as [|j]; try lia; cbn.
  - intros [= <-] Hj _. destruct (layout_lookup (next_slot off + pa_len p) _ _ _ Hl ltac:(lia) Hj) as (q & o' & _ & -> & Hle & _). cbn. lia.
  - intros Hi Hj Hij. apply (IH (next_slot off + pa_len p) i j Hl ltac:(lia) Hi Hj). lia.
Qed.

Lemma ranges_of_cfg size epoch l :
  (length l <= 16)%nat -> ranges_of (cfg_of size epoch (length l) l) = l /\
  Forall (fun r => r = range_zero) (drop (length l) (ac_range (cfg_of size epoch (length l) l))) /\ length (ac_range (cfg_of size epoch (length l) l)) = 16%nat.
Proof.
  intros Hl. unfold ranges_of, cfg_of. cbn [ac_count ac_range]. rewrite Nat2Z.id, take_app_length, drop_app_length. split; [done|]. split.
  - apply Forall_lookup. intros k r Hk. by apply repeat_lookup in Hk.
  - rewrite length_app, repeat_length. unfold AMBA_VIRT_IAV_AUX_MAX_RANGES. lia.
Qed.

Lemma range_of_typed off l : Forall part_usable l -> 0 <= off -> layout_end off l < 2 ^ 64 -> Forall range_typed (layout off l).
Proof.
  intros Hu Ho He. apply Forall_lookup. intros i r Hi. destruct (layout_lookup _ _ _ _ Hu Ho Hi) as (p & o & Hp & -> & H1 & H2 & H3).
  destruct (proj1 (Forall_lookup _ _) Hu i p Hp) as [[? _] [? _] ?]. unfold range_typed, range_of, is_u64. cbn. lia.
Qed.

Lemma fits_bounds avoid l k : fits avoid (layout_end 0 l + PAGE_BYTES) k -> layout_end 0 l <= 2 ^ k - 4096 /\ 2 ^ 13 <= 2 ^ k <= 2 ^ 30.
Proof.
  intros (Hk & Hn & _). unfold PAGE_BYTES in Hn. split; [lia|]. split; apply pow2_le_iff; lia.
Qed.

Lemma composed_typed avoid epoch us k :
  Forall part_usable us -> (length us <= 16)%nat -> is_u64 epoch -> fits avoid (layout_end 0 us + PAGE_BYTES) k ->
  cfg_typed (cfg_of (2 ^ k) epoch (length us) (layout 0 us)).
Proof.
  intros Hu Hl He Hf. apply fits_bounds in Hf as [H1 H2]. unfold cfg_typed, is_u64, is_u32 in *. cbn [ac_size ac_epoch ac_count cfg_of]. split_and!; try lia.
  - rewrite <- (layout_length 0). apply ranges_of_cfg. by rewrite layout_length.
  - apply Forall_app. split; [apply range_of_typed; (done || lia)|]. apply Forall_lookup. intros i r Hi. apply repeat_lookup in Hi as ->.
    unfold range_typed, is_u64. cbn. lia.
Qed.

(** The memory of the usable partitions is inside the limits of the windows and not shared. *)
Record parts_apart (pr : win_params) (us : list virt_iav_aperture_part) : Prop := {
  pp_window : forall p, p ∈ us -> win_min pr <= pa_base p /\ pa_base p + pa_len p <= win_max pr;
  pp_disjoint : forall i j p q, us !! i = Some p -> us !! j = Some q -> i <> j ->
    disjoint_range (pa_base p) (pa_base p + pa_len p) (pa_base q) (pa_base q + pa_len q);
}.

Lemma composed_accepted pr avoid epoch us k :
  Forall part_usable us -> us <> [] -> (length us <= 16)%nat -> is_u64 epoch -> epoch <> 0 -> parts_apart pr us ->
  fits avoid (layout_end 0 us + PAGE_BYTES) k -> iav_aux_validate pr (cfg_of (2 ^ k) epoch (length us) (layout 0 us)) = 0.
Proof.
  intros Hu Hne Hl He He0 [Hwin Hdis] Hf. apply validate_iff; [by eapply composed_typed|]. pose proof (fits_bounds _ _ _ Hf) as [H1 H2].
  destruct (ranges_of_cfg (2 ^ k) epoch (layout 0 us)) as (Er & Ed & _); [by rewrite layout_length|]. rewrite layout_length in Er, Ed.
  cbn [ac_count cfg_of]. rewrite Nat2Z.id. assert (0 < length us)%nat by (destruct us; [done|cbn; lia]).
  assert (Hlay : forall i r, layout 0 us !! i = Some r -> exists p o, us !! i = Some p /\ r = range_of p o /\ 0 <= o /\
    o mod AMBA_VIRT_IAV_AUX_ALIGN = 0 /\ o + pa_len p <= layout_end 0 us) by (intros i r; by apply layout_lookup).
  split_and!; try done.
  - split; [exists k; by destruct Hf|done|cbn; lia| | |].
    + rewrite Er. apply Forall_lookup. intros i r Hi. destruct (Hlay i r Hi) as (p & o & Hp & -> & H3 & H4 & H5).
      destruct (proj1 (Forall_lookup _ _) Hu i p Hp) as [? ? ?]. destruct (Hwin p ltac:(by eapply list_elem_of_lookup_2)).
      split; cbn; try done. unfold PAGE_SIZE. lia.
    + rewrite Er. intros i j r o Hr Ho Hij. destruct (Hlay i r Hr) as (p & a & Hp & -> & _), (Hlay j o Ho) as (q & b & Hq & -> & _).
      split; [|by eapply Hdis]. unfold disjoint_range.
      destruct (Nat.lt_gt_cases i j) as [[Hlt|Hlt] _]; [done| |];
        [left; by apply (layout_apart 0 us i j)|right; by apply (layout_apart 0 us j i)].
    + rewrite <- (layout_length 0). apply ranges_of_cfg. by rewrite layout_length.
  - rewrite Er. apply Forall_lookup. intros i r Hi. by destruct (Hlay i r Hi) as (p & o & _ & -> & _).
Qed.

(** ** The server and the kernel *)

Section Server.

Context (pr : win_params) (nc : bool) (pids : list Z).
Hypothesis (Hpids : (length pids <= 16)%nat).

#[local] Instance server_nodes : NodeDevice aux_state := kernel_nodes pr nc.

(** The server's table, the kernel's nodes and the live mappings. The server is the only privileged process; it may
    die and start again with an empty table. *)
Definition ap_sys : Type := aperture_state * (aux_state * list aux_map).

Inductive ap_step : ap_sys -> ap_sys -> Prop :=
| ap_guest a s s' : aux_step_rel pr false s s' -> ap_step (a, s) (a, s')
| ap_restart a s : ap_step (a, s) (virt_iav_aperture_reset, s)
| ap_init parts avoid a k ms rc a' k' :
    Forall part_typed parts -> virt_iav_aperture_init parts avoid a k = (rc, a', k') -> ap_step (a, (k, ms)) (a', (k', ms))
| ap_attach index epoch primary a k ms rc size a' k' :
    is_u32 index -> is_u64 epoch -> virt_iav_aperture_attach pids index epoch primary a k = Some (rc, size, a', k') ->
    ap_step (a, (k, ms)) (a', (k', ms))
| ap_detach index a k ms a' k' :
    is_u32 index -> virt_iav_aperture_detach index a k = (a', k') -> ap_step (a, (k, ms)) (a', (k', ms))
| ap_adopt index epoch primary a k ms b a' k' :
    is_u32 index -> is_u64 epoch -> virt_iav_aperture_adopt pids index epoch primary a k = Some (b, a', k') ->
    ap_step (a, (k, ms)) (a', (k', ms)).

Definition ap_reachable (pages : list page) (s : ap_sys) : Prop := rtc ap_step (virt_iav_aperture_reset, (aux_init pages, [])) s.

(** Node [i] of the kernel holds what the table says. *)
Definition holds (k : aux_state) (i : nat) (n : node_state) : Prop :=
  nd_attached n = true -> exists x, g_aux k !! i = Some x /\ x_configured x = true /\ same_cfg (x_cfg x) (nd_cfg n) = true.

Record ap_ok (s : ap_sys) : Prop := {
  ak_kernel : aux_ok pr s.2.1 s.2.2;
  ak_len : length (ap_node s.1) = 8%nat;
  ak_parts : Forall part_typed (ap_parts s.1) /\ (length (ap_parts s.1) <= 16)%nat;
  ak_avoid : (length (ap_avoid s.1) <= 4)%nat;
  ak_agree : forall i n, ap_node s.1 !! i = Some n -> holds s.2.1 i n;
}.

(** What a privileged request to node [i] may change. *)
Definition only_node (i : nat) (k k' : aux_state) : Prop := forall j, j <> i -> g_aux k' !! j = g_aux k !! j.

Lemma put_node_ok i n a k k' ms :
  ap_ok (a, (k, ms)) -> aux_ok pr k' ms -> only_node (Z.to_nat i) k k' -> holds k' (Z.to_nat i) n -> ap_ok (put_node i n a, (k', ms)).
Proof.
  intros [_ Hl Hp Ha Hg] Hk' Ho Hn. split; cbn; try done; [by rewrite length_insert|].
  intros j m Hj. apply lookup_insert_inv in Hj as [[-> ->]|[Hne Hj]]; [done|]. intros Hat. rewrite (Ho j Hne). by apply Hg.
Qed.

Lemma put_node_twice i n n' a : put_node i n (put_node i n' a) = put_node i n a.
Proof. unfold put_node. cbn. by rewrite list_insert_insert_eq. Qed.

Lemma only_refl i k : only_node i k k.
Proof. done. Qed.

Lemma clear_step i k ms : aux_ok pr k ms -> aux_ok pr (snd (node_clear i k)) ms /\ only_node (Z.to_nat i) k (snd (node_clear i k)).
Proof.
  intros Hok. cbn. unfold iav_aux_ioctl. destruct (g_aux k !! Z.to_nat i) as [x|] eqn:Ei; cbn; [|done].
  destruct (iav_aux_clear x) as [rc x'] eqn:Ec. cbn. split; [by eapply clear_ok|]. intros j Hj. cbn. by rewrite list_lookup_insert_ne.
Qed.

Lemma clear_if_idle_step i k ms : aux_ok pr k ms -> aux_ok pr (clear_if_idle i k) ms /\ only_node (Z.to_nat i) k (clear_if_idle i k).
Proof.
  intros Hok. unfold clear_if_idle. destruct (node_get i k) as [rc have]. destruct (negb (rc =? 0)); [done|].
  destruct (_ && _); [by apply clear_step|done].
Qed.

Lemma config_step i c k ms :
  cfg_typed c -> aux_ok pr k ms ->
  let '(rc, k') := node_config i c k in
  aux_ok pr k' ms /\ only_node (Z.to_nat i) k k' /\ (rc = 0 -> exists x, g_aux k' !! Z.to_nat i = Some x /\ x_configured x = true /\ x_cfg x = c).
Proof.
  intros Ht Hok. cbn. unfold iav_aux_ioctl. destruct (g_aux k !! Z.to_nat i) as [x|] eqn:Ei; [|done]. cbn [negb].
  destruct (iav_aux_config pr (Z.to_nat i) c k) as [rc k'] eqn:E. split; [by eapply config_ok|]. revert E. unfold iav_aux_config.
  destruct (Z.eqb_spec (iav_aux_validate pr c) 0) as [Ev|Ev]; cbn [negb]; [|by intros [= <- <-]]. rewrite Ei.
  destruct (negb (x_maps x =? 0)); [by intros [= <- <-]|]. destruct (negb (forallb _ _)); [by intros [= <- <-]|].
  destruct (alloc_page _ _) as [s f1], (alloc_page _ _) as [h f2].
  assert (Hput : forall y, only_node (Z.to_nat i) k (mk_auxst (<[Z.to_nat i := y]> (g_aux k)) (g_sources k) f2)).
  { intros y j Hj. cbn. by rewrite list_lookup_insert_ne. }
  destruct s as [s|], h as [h|]; intros [= <- <-]; (split; [apply Hput|]); try done. intros _. eexists.
  split; [cbn; apply list_lookup_insert_eq; by eapply lookup_lt_Some|done].
Qed.

Lemma same_cfg_refl c : same_cfg c c = true.
Proof. unfold same_cfg. by rewrite !Z.eqb_refl, bool_decide_eq_true_2. Qed.

(** What AUX_GET copies out is the node's composition, when it has one. *)
Lemma get_configured i k ms rc have :
  aux_ok pr k ms -> node_get i k = (rc, have) -> rc = 0 -> ac_size have <> 0 ->
  exists x, g_aux k !! Z.to_nat i = Some x /\ x_configured x = true /\ forall c, same_cfg have c = same_cfg (x_cfg x) c.
Proof.
  intros Hok. cbn. unfold iav_aux_ioctl. destruct (g_aux k !! Z.to_nat i) as [x|] eqn:Ei; cbn; [|by intros [= <- _]].
  intros [= <- <-] _ Hs. exists x. split; [done|]. unfold iav_aux_get in *. destruct (x_configured x); [done|]. by cbn in Hs.
Qed.

Lemma compose_wanted a k ms epoch n want :
  ap_ok (a, (k, ms)) -> is_u64 epoch -> virt_iav_aperture_compose pids (ap_parts a) (ap_avoid a) epoch = Some (n, want) -> 0 < n ->
  cfg_typed want /\ ac_epoch want = epoch /\ ac_size want <> 0.
Proof.
  intros [_ _ [Ht _] Ha _] He E Hn. cbn in *. destruct (decide (epoch = 0)) as [->|He0]; [cbn in E; injection E as <- _; by cbn in Hn|].
  destruct (compose_run pids _ _ epoch Ht Hpids Ha He0) as (rc & c & E' & H0 & H1). rewrite E in E'. injection E' as <- <-.
  assert (Hne : usable (ap_parts a) pids <> []) by (intros Hu; specialize (H0 Hu); lia).
  destruct (H1 Hne) as [(k' & Hf & _ & _ & ->)|[-> _]]; [|by cbn in Hn]. split; [|split; [done|apply fits_bounds in Hf; cbn; lia]].
  eapply composed_typed; [by apply usable_ok| |done|done]. etransitivity; [apply usable_length|done].
Qed.

(** Guests change no composition. *)
Definition same_nodes (k k' : aux_state) : Prop :=
  forall i x, g_aux k !! i = Some x -> exists x', g_aux k' !! i = Some x' /\ x_configured x' = x_configured x /\ x_cfg x' = x_cfg x.

Lemma put_same_nodes k i x x' :
  g_aux k !! i = Some x -> x_configured x' = x_configured x -> x_cfg x' = x_cfg x -> same_nodes k (put_aux i x' k).
Proof.
  intros Hi Hc Hx j y Hj. cbn. destruct (decide (j = i)) as [->|Hne].
  - rewrite list_lookup_insert_eq by by eapply lookup_lt_Some. rewrite Hi in Hj. injection Hj as <-. by exists x'.
  - rewrite list_lookup_insert_ne by done. by exists y.
Qed.

Lemma mmap_same remap v x ret segs x' :
  iav_aux_mmap remap v x = Some (ret, segs, x') -> x_configured x' = x_configured x /\ x_cfg x' = x_cfg x.
Proof.
  unfold iav_aux_mmap. destruct (negb _); [by intros [= _ _ <-]|]. destruct (check_add _ _); [|by intros [= _ _ <-]].
  destruct (negb _); [by intros [= _ _ <-]|]. destruct (_ >? _); [by intros [= _ _ <-]|].
  destruct (iter_until _ _ _) as [|[[[] l]|]]; try done; by intros [= _ _ <-].
Qed.

Lemma guest_keeps s s' : aux_step_rel pr false s s' -> same_nodes s.1 s'.1.
Proof.
  destruct 1 as [nc' capable i cmd st ms ret c st' Hroot Ht E|remap v i x st ms ret segs x' Hi Hv E|m x st ms Hm Hi|m x st ms1 ms2 Hi|m x scratch hdr st ms Hm Hi Es Eh]; cbn.
  - assert (st' = st) as ->.
    { revert E. unfold iav_aux_ioctl. destruct capable; [by specialize (Hroot eq_refl)|]. destruct (g_aux st !! i); [|by intros [= _ _ <-]].
      destruct cmd; by intros [= _ _ <-]. }
    intros j x Hj. by exists x.
  - apply mmap_same in E as [? ?]. by eapply put_same_nodes.
  - by eapply put_same_nodes.
  - by eapply put_same_nodes.
  - by eapply put_same_nodes.
Qed.

Lemma holds_same k k' i n : same_nodes k k' -> holds k i n -> holds k' i n.
Proof.
  intros Hs Hh Hat. destruct (Hh Hat) as (x & Hx & Hc & He). destruct (Hs i x Hx) as (x' & Hx' & Ec & Ex).
  exists x'. rewrite Ec, Ex. done.
Qed.

(** Attaching: the table is right afterwards, and an aperture is reported only to a primary guest, with a composition
    of the epoch of its lease. *)
Definition attach_post (index epoch : Z) (primary : bool) (ms : list aux_map) (rc size : Z) (a' : aperture_state) (k' : aux_state) : Prop :=
  ap_ok (a', (k', ms)) /\ (index < 8 -> exists n, ap_node a' !! Z.to_nat index = Some n /\
    (nd_attached n = true <-> size <> 0) /\
    (nd_attached n = true -> primary = true /\ rc = 0 /\ size = ac_size (nd_cfg n) /\ ac_epoch (nd_cfg n) = epoch)).

Lemma put_node_lookup index n a k ms : 0 <= index < 8 -> ap_ok (a, (k, ms)) -> ap_node (put_node index n a) !! Z.to_nat index = Some n.
Proof. intros Hi Hok. cbn. apply list_lookup_insert_eq. pose proof (ak_len _ Hok) as Hl. cbn in Hl. rewrite Hl. lia. Qed.

Lemma attach_none index epoch primary a k ms rc k' :
  0 <= index < 8 -> ap_ok (a, (k, ms)) -> aux_ok pr k' ms -> only_node (Z.to_nat index) k k' ->
  attach_post index epoch primary ms rc 0 (put_node index node_zero a) k'.
Proof.
  intros Hi Hok H1 H2. split; [by eapply put_node_ok|]. intros _. exists node_zero. split; [by eapply put_node_lookup|]. by split.
Qed.

Lemma attach_some index epoch a k ms want k' :
  0 <= index < 8 -> ap_ok (a, (k, ms)) -> aux_ok pr k' ms -> only_node (Z.to_nat index) k k' -> holds k' (Z.to_nat index) (mk_node true want) ->
  ac_epoch want = epoch -> ac_size want <> 0 ->
  attach_post index epoch true ms 0 (ac_size want) (put_node index (mk_node true want) (put_node index node_zero a)) k'.
Proof.
  intros Hi Hok H1 H2 H3 He Hs. rewrite put_node_twice. split; [by eapply put_node_ok|]. intros _. exists (mk_node true want).
  split; [by eapply put_node_lookup|]. by split.
Qed.

Lemma attach_ok index epoch primary a k ms rc size a' k' :
  is_u32 index -> is_u64 epoch -> ap_ok (a, (k, ms)) -> virt_iav_aperture_attach pids index epoch primary a k = Some (rc, size, a', k') ->
  attach_post index epoch primary ms rc size a' k'.
Proof.
  intros Hi He Hok E. revert E. unfold virt_iav_aperture_attach, VIRT_IAV_APERTURE_NODES. rewrite Z.geb_leb.
  destruct (Z.leb_spec 8 index) as [Hge|Hlt]; [intros [= _ _ <- <-]; split; [done|lia]|].
  assert (Hidx : 0 <= index < 8) by (unfold is_u32 in Hi; lia).
  pose proof (ak_kernel _ Hok) as Hk. destruct (clear_if_idle_step index k ms Hk) as [Hc1 Hc2].
  destruct (negb (ap_ready a)); [intros [= <- <- <- <-]; by eapply attach_none|].
  destruct primary; cbn [negb orb]; [|intros [= <- <- <- <-]; by eapply attach_none].
  destruct (_ || _) eqn:Ee; [intros [= <- <- <- <-]; by eapply attach_none|]. bool_hyps.
  destruct (virt_iav_aperture_compose pids (ap_parts a) (ap_avoid a) epoch) as [[n want]|] eqn:Ec; cbn [mbind option_bind]; [|done].
  destruct (Z.leb_spec n 0) as [Hn|Hn]; [intros [= <- <- <- <-]; by eapply attach_none|].
  destruct (compose_wanted _ _ _ _ _ _ Hok He Ec Hn) as (Ht & Hwe & Hws).
  destruct (node_get index k) as [rc1 have] eqn:Eg.
  destruct (Z.eqb_spec rc1 0) as [->|]; cbn [negb]; [|intros [= <- <- <- <-]; by eapply attach_none].
  destruct (negb (ac_size have =? 0) && same_cfg have want) eqn:Esame.
  - bool_hyps. destruct (get_configured _ _ _ _ _ Hk Eg eq_refl ltac:(done)) as (x & Hx & Hxc & Hxs). intros [= <- <- <- <-].
    eapply attach_some; try done. intros _. exists x. cbn. rewrite <- Hxs. done.
  - destruct (negb (ac_maps have =? 0)); [intros [= <- <- <- <-]; by eapply attach_none|].
    pose proof (config_step index want k ms Ht Hk) as Hcs. destruct (node_config index want k) as [rc2 k2] eqn:Ecf. destruct Hcs as (H1 & H2 & H3).
    destruct (Z.eqb_spec rc2 0) as [->|]; cbn [negb]; intros [= <- <- <- <-]; [|by eapply attach_none].
    eapply attach_some; try done. intros _. destruct (H3 eq_refl) as (x & Hx & Hxc & Hxe). exists x. cbn. rewrite Hxe.
    split_and!; [done..|apply same_cfg_refl].
Qed.

Lemma adopt_ok index epoch primary a k ms b a' k' :
  is_u32 index -> is_u64 epoch -> ap_ok (a, (k, ms)) -> virt_iav_aperture_adopt pids index epoch primary a k = Some (b, a', k') -> ap_ok (a', (k', ms)).
Proof.
  intros Hi He Hok. unfold virt_iav_aperture_adopt. destruct (_ >=? _); [by intros [= _ <- <-]|].
  pose proof (ak_kernel _ Hok) as Hk.
  assert (Hnone : forall k1, aux_ok pr k1 ms -> only_node (Z.to_nat index) k k1 -> ap_ok (put_node index node_zero a, (k1, ms)))
    by (intros k1 H1 H2; by eapply put_node_ok).
  destruct (negb (ap_ready a)); [intros [= _ <- <-]; by apply Hnone|]. destruct (node_get index k) as [rc have] eqn:Eg.
  destruct (_ || _) eqn:Er; [intros [= _ <- <-]; by apply Hnone|]. bool_hyps.
  destruct (if primary && _ && _ then _ else _) as [[n want]|]; cbn [mbind option_bind]; [|done].
  destruct ((n >? 0) && same_cfg have want) eqn:Es; intros [= _ <- <-]; bool_hyps.
  - rewrite put_node_twice. destruct (get_configured _ _ _ _ _ Hk Eg ltac:(done) ltac:(done)) as (x & Hx & Hxc & Hxs).
    eapply put_node_ok; [done|done|done|]. intros _. exists x. cbn. rewrite <- Hxs. done.
  - destruct (ac_maps have =? 0); [|by apply Hnone]. destruct (clear_step index k ms Hk). by apply Hnone.
Qed.

Lemma sources_typed parts : Forall part_typed parts -> (length parts <= 16)%nat -> cmd_typed (AUX_SOURCES (Some (sources_of parts))).
Proof.
  intros Ht Hl. unfold cmd_typed, sources_of, is_u32, AMBA_VIRT_IAV_AUX_MAX_SOURCES. cbn [ss_count ss_src]. split; [lia|]. split.
  - rewrite length_app, length_map, repeat_length. lia.
  - apply Forall_app. split; [|apply Forall_lookup; intros i x Hx; apply repeat_lookup in Hx as ->; unfold src_typed, is_u64; cbn; lia].
    apply Forall_fmap. eapply Forall_impl; [exact Ht|]. intros p (_ & H1 & H2). done.
Qed.

Lemma aperture_init_ok parts avoid a k ms rc a' k' :
  Forall part_typed parts -> ap_ok (a, (k, ms)) -> virt_iav_aperture_init parts avoid a k = (rc, a', k') -> ap_ok (a', (k', ms)).
Proof.
  intros Ht Hok. unfold virt_iav_aperture_init. destruct (_ || _) eqn:El; [by intros [= _ <- <-]|]. apply orb_false_elim in El as [El1 El2].
  apply Nat.ltb_ge in El1, El2. unfold VIRT_IAV_APERTURE_MAX_PARTS, VIRT_IAV_APERTURE_MAX_AVOID in *.
  destruct (node_sources (sources_of parts) k) as [r k1] eqn:Es.
  pose proof (ak_kernel _ Hok) as Hk. cbn in Hk. assert (Hk1 : aux_ok pr k1 ms /\ g_aux k1 = g_aux k).
  { revert Es. cbn. unfold iav_aux_ioctl. destruct (g_aux k !! 0%nat); cbn; [|by intros [= _ <-]].
    destruct (iav_aux_set_sources pr (sources_of parts) k) as [r' k2] eqn:E. intros [= _ <-]. split; [by eapply set_sources_ok|].
    revert E. unfold iav_aux_set_sources. destruct (_ || _); [by intros [= _ <-]|].
    destruct (negb (sources_ok _ _ _ _)); [by intros [= _ <-]|]. destruct (negb _); by intros [= _ <-]. }
  destruct Hk1 as [Hk1 Eg], Hok as [_ Hl Hp Ha Hh].
  assert (Hh' : forall i n, ap_node a !! i = Some n -> holds k1 i n) by (intros i n Hn; unfold holds; rewrite Eg; by apply Hh).
  destruct (r =? 0); intros [= _ <- <-]; split; cbn; try done; lia.
Qed.

Lemma ap_step_ok s s' : ap_step s s' -> ap_ok s -> ap_ok s'.
Proof.
  destruct 1 as [a s s' Hg|a s|parts avoid a k ms rc a' k' Ht E|index epoch primary a k ms rc size a' k' Hi He E|index a k ms a' k' Hi E|index epoch primary a k ms b a' k' Hi He E]; intros Hok.
  - destruct Hok as [Hk Hl Hp Ha Hh]. split; cbn in *; try done; [by eapply aux_step_ok|]. intros i n Hn.
    eapply holds_same; [by apply guest_keeps|by apply Hh].
  - destruct Hok as [Hk Hl Hp Ha Hh]. split; cbn; try done; [split; [done|lia]|lia|]. intros i n Hn.
    change (repeat node_zero 8 !! i = Some n) in Hn. by apply repeat_lookup in Hn as ->.
  - by eapply aperture_init_ok.
  - by destruct (attach_ok _ _ _ _ _ _ _ _ _ _ Hi He Hok E).
  - revert E. unfold virt_iav_aperture_detach. destruct (_ >=? _); [by intros [= <- <-]|]. intros [= <- <-].
    pose proof (ak_kernel _ Hok) as Hk. destruct (clear_if_idle_step index k ms Hk). destruct (ap_ready a); by eapply put_node_ok.
  - by eapply adopt_ok.
Qed.

Lemma ap_reachable_inv pages s : NoDup (pg_phys <$> pages) -> ap_reachable pages s -> ap_ok s.
Proof.
  intros Hnd Hr. assert (Hok : ap_ok (virt_iav_aperture_reset, (aux_init pages, []))).
  { split; cbn; try done; [by apply aux_init_ok|split; [done|lia]|lia|]. intros i n Hn. change (repeat node_zero 8 !! i = Some n) in Hn.
    by apply repeat_lookup in Hn as ->. }
  unfold ap_reachable in Hr. induction Hr as [|s1 s2 s3 Hs _ IH]; [done|]. by eapply IH, ap_step_ok.
Qed.

(** A composition always stops. *)
Lemma compose_total a k ms epoch : ap_ok (a, (k, ms)) -> exists n want, virt_iav_aperture_compose pids (ap_parts a) (ap_avoid a) epoch = Some (n, want).
Proof.
  intros [_ _ [Ht _] Ha _]. cbn in Ht, Ha. destruct (decide (epoch = 0)) as [->|He]; [by eexists _, _|].
  destruct (compose_run pids _ _ epoch Ht Hpids Ha He) as (n & want & E & _). by exists n, want.
Qed.

Lemma attach_total index epoch primary a k ms :
  ap_ok (a, (k, ms)) -> exists rc size a' k', virt_iav_aperture_attach pids index epoch primary a k = Some (rc, size, a', k').
Proof.
  intros Hok. destruct (compose_total _ _ _ epoch Hok) as (n & want & Ec). unfold virt_iav_aperture_attach.
  destruct (_ >=? _); [by eexists _, _, _, _|]. destruct (negb (ap_ready a)); [by eexists _, _, _, _|].
  destruct (_ || _); [by eexists _, _, _, _|]. rewrite Ec. cbn [mbind option_bind]. destruct (n <=? 0); [by eexists _, _, _, _|].
  destruct (node_get index k) as [rc have]. destruct (negb (rc =? 0)); [by eexists _, _, _, _|]. destruct (_ && _); [by eexists _, _, _, _|].
  destruct (negb _); [by eexists _, _, _, _|]. destruct (node_config index want k) as [rc2 k2]. destruct (negb _); by eexists _, _, _, _.
Qed.

(** An idle node is left without a composition. *)
Lemma clear_if_idle_clears i k ms x :
  aux_ok pr k ms -> g_aux k !! Z.to_nat i = Some x -> x_maps x = 0 ->
  exists x', g_aux (clear_if_idle i k) !! Z.to_nat i = Some x' /\ x_configured x' = false.
Proof.
  intros Hok Hx Hm. destruct (ax_nodes _ _ _ Hok _ _ Hx) as [[Hc _] _].
  unfold clear_if_idle. cbn. unfold iav_aux_ioctl. rewrite Hx. unfold iav_aux_get, iav_aux_clear. rewrite Hm. cbn.
  destruct (x_configured x) eqn:Ex; cbn; [|by exists x].
  destruct (Hc eq_refl) as (Hcfg & _ & _). destruct (size_page pr x Hcfg) as [_ Hs]. rewrite (proj2 (Z.eqb_neq _ 0)) by lia. cbn.
  eexists. split; [apply list_lookup_insert_eq; by eapply lookup_lt_Some|done].
Qed.

(** The bytes of a range of the composition. *)
Lemma aux_byte_range x r d :
  cfg_ok pr (x_cfg x) -> r ∈ ranges_of (x_cfg x) -> 0 <= d < ra_len r -> aux_byte x (ra_offset r + d) = Some (ra_phys r + d).
Proof.
  intros Hc Hr Hd. destruct (proj1 (Forall_forall _ _) (co_ranges _ _ Hc) r Hr) as [_ _ _ [Ho _] He]. destruct (size_page pr x Hc) as [_ Hs].
  unfold PAGE_SIZE in He. unfold aux_byte. destruct (iav_aux_range_at (x_cfg x) (ra_offset r + d)) as [o|] eqn:Eo.
  - destruct (range_at_Some pr x Hc (ra_offset r + d) o ltac:(lia) Eo) as (Hin & _ & Hb). apply list_elem_of_lookup in Hr as [i Hi], Hin as [j Hj].
    destruct (decide (i = j)) as [->|Hne]; [assert (o = r) as -> by congruence; f_equal; lia|].
    destruct (co_apart _ _ Hc i j r o Hi Hj Hne) as [A _]. unfold disjoint_range in A. lia.
  - exfalso. apply (range_at_None pr x Hc (ra_offset r + d) r ltac:(lia) Eo Hr). lia.
Qed.

Lemma same_cfg_eq c c' : same_cfg c c' = true -> ac_size c = ac_size c' /\ ac_epoch c = ac_epoch c' /\ ac_count c = ac_count c' /\ ac_range c = ac_range c'.
Proof. unfold same_cfg. intros H. bool_hyps. by apply bool_decide_eq_true in H0. Qed.

End Server.

(** * Theorems *)

(** Composing an aperture always ends. It places exactly the usable partitions of the role, in the order of the role,
    each at the next 64 KiB boundary, and the size is the smallest power of two that holds them and the header page and
    is not to be avoided; it fails with E2BIG exactly when there is no such size up to 1 GiB. *)
Theorem compose_exact pids parts avoid epoch :
  Forall part_typed parts -> (length pids <= 16)%nat -> (length avoid <= 4)%nat -> epoch <> 0 ->
  let us := usable parts pids in
  let need := layout_end 0 us + PAGE_BYTES in
  exists rc c, virt_iav_aperture_compose pids parts avoid epoch = Some (rc, c) /\
    (us = [] -> rc = 0) /\
    (us <> [] ->
      (exists k, fits avoid need k /\ (forall j, fits avoid need j -> k <= j) /\ rc = Z.of_nat (length us) /\
                 c = cfg_of (2 ^ k) epoch (length us) (layout 0 us)) \/
      (rc = - E2BIG /\ forall k, ~ fits avoid need k)).
Proof. apply compose_run. Qed.

Definition demo_parts : list virt_iav_aperture_part := [mk_part 9 0x31000000 0x3000; mk_part 7 0x30000000 0x2000; mk_part 8 0x32000001 0x1000].
Definition demo_pids : list Z := [7; 8; 9].

Lemma demo_parts_typed : Forall part_typed demo_parts.
Proof. repeat (apply Forall_cons; split; [unfold part_typed, is_u32, is_u64; cbn; lia|]). constructor. Qed.

Lemma compose_exact_witness :
  usable demo_parts demo_pids = [mk_part 7 0x30000000 0x2000; mk_part 9 0x31000000 0x3000] /\
  exists rc c, virt_iav_aperture_compose demo_pids demo_parts [0x20000] 5 = Some (rc, c) /\ (usable demo_parts demo_pids = [] -> rc = 0).
Proof.
  split; [reflexivity|].
  destruct (compose_exact demo_pids demo_parts [0x20000] 5 demo_parts_typed ltac:(cbn; lia) ltac:(cbn; lia) ltac:(lia)) as (rc & c & H1 & H2 & _).
  exists rc, c. split; [exact H1|exact H2].
Defined.

(** What the server composes, the kernel's validation accepts: when the partitions it uses lie inside the window
    limits and do not share memory, a composition with ranges passes iav_aux_validate. *)
Theorem composition_accepted pr pids parts avoid epoch rc c :
  Forall part_typed parts -> (length pids <= 16)%nat -> (length avoid <= 4)%nat -> is_u64 epoch ->
  parts_apart pr (usable parts pids) -> virt_iav_aperture_compose pids parts avoid epoch = Some (rc, c) -> 0 < rc ->
  iav_aux_validate pr c = 0.
Proof.
  intros Ht Hp Ha He Hd E Hrc. destruct (decide (epoch = 0)) as [->|He0]; [cbn in E; injection E as <- _; by cbn in Hrc|].
  destruct (compose_run pids parts avoid epoch Ht Hp Ha He0) as (rc' & c' & E' & H0 & H1). rewrite E in E'. injection E' as <- <-.
  assert (Hne : usable parts pids <> []) by (intros Hu; specialize (H0 Hu); lia).
  destruct (H1 Hne) as [(k & Hf & _ & _ & ->)|[-> _]]; [|by cbn in Hrc].
  eapply composed_accepted; [by apply usable_ok|done| |done..]. etransitivity; [apply usable_length|done].
Qed.

Lemma demo_parts_apart : parts_apart win_defaults (usable demo_parts demo_pids).
Proof.
  change (usable demo_parts demo_pids) with [mk_part 7 0x30000000 0x2000; mk_part 9 0x31000000 0x3000]. split.
  - intros p [->|[->|Hp]%elem_of_cons]%elem_of_cons; [cbn; lia..|by apply elem_of_nil in Hp].
  - intros [|[|i]] [|[|j]] p q Hp Hq Hij; cbn in Hp, Hq; simplify_eq; unfold disjoint_range; cbn; lia.
Qed.

Definition demo_want : amba_virt_iav_aux_cfg := default acfg_zero (snd <$> virt_iav_aperture_compose demo_pids demo_parts [0x20000] 5).

Lemma composition_accepted_witness : ac_size demo_want = 0x40000 /\ iav_aux_validate win_defaults demo_want = 0.
Proof.
  split; [reflexivity|].
  exact (composition_accepted win_defaults demo_pids demo_parts [0x20000] 5 2 demo_want demo_parts_typed ltac:(cbn; lia) ltac:(cbn; lia)
           ltac:(unfold is_u64; lia) demo_parts_apart ltac:(vm_compute; reflexivity) ltac:(lia)).
Defined.

(** The mapping of a whole BAR. *)
Definition whole_bar (start size : Z) : vma := mk_vma start (start + size) 0 true.

Lemma whole_bar_ok start k :
  13 <= k <= 30 -> 0 <= start -> is_page start -> start + 2 ^ k < 2 ^ 64 ->
  vma_ok (whole_bar start (2 ^ k)) /\ vma_off (whole_bar start (2 ^ k)) = 0 /\ vma_size (whole_bar start (2 ^ k)) = 2 ^ k.
Proof.
  intros Hk H0 Hp He. destruct (pow2_of_bounds k Hk) as [_ Hb]. unfold AMBA_VIRT_IAV_AUX_MIN_SIZE, AMBA_VIRT_IAV_AUX_MAX_SIZE in Hb. split_and!.
  - split; cbn; [lia| |lia]. split; [done|]. apply is_page_add; [done|]. unfold is_page, PAGE_SIZE.
    replace (2 ^ k) with (2 ^ (k - 12) * 4096); [apply Z.mod_mul; lia|].
    change 4096 with (2 ^ 12). rewrite <- Z.pow_add_r by lia. f_equal. lia.
  - done.
  - unfold vma_size. cbn. rewrite u64_id by lia. lia.
Qed.

(** What the server tells the broker about a guest's aperture is what the guest sees. Through every order of server
    operations, server restarts and guest mappings: when the table shows an aperture for a lease index, mapping that
    node succeeds and shows at the offset of every entry the memory of that entry, byte by byte, and every mapping of
    the node that is alive was made from the composition of this epoch, not of an earlier guest's. *)
Theorem aperture_view_true pr nc pids pages a k ms index v start :
  (length pids <= 16)%nat -> NoDup (pg_phys <$> pages) -> ap_reachable pr nc pids pages (a, (k, ms)) -> is_u32 index ->
  virt_iav_aperture_get index a = (0, v) -> vw_count v <> 0 ->
  0 <= start -> is_page start -> start + vw_size v < 2 ^ 64 ->
  exists x segs x', g_aux k !! Z.to_nat index = Some x /\
    iav_aux_mmap (fun _ => 0) (whole_bar start (vw_size v)) x = Some (0, segs, x') /\
    Z.of_nat (length (vw_e v)) = vw_count v /\
    (forall pid base len off d, (pid, base, len, off) ∈ vw_e v -> 0 <= d < len -> seg_at segs (start + off + d) = Some (base + d)) /\
    (forall m, m ∈ ms -> am_node m = Z.to_nat index -> ac_epoch (am_cfg m) = vw_epoch v).
Proof.
  intros Hp Hnd Hr Hi E Hv H0 Hpg Hend. apply (ap_reachable_inv pr nc pids Hp) in Hr; [|done]. revert E. unfold virt_iav_aperture_get.
  destruct (_ >=? _); [done|]. destruct (ap_node a !! Z.to_nat index) as [n|] eqn:En; [|done].
  destruct (nd_attached n) eqn:Eat; intros [= <-]; [|done]. cbn [vw_size vw_count vw_e vw_epoch] in *.
  destruct (ak_agree _ _ Hr _ _ En Eat) as (x & Hx & Hxc & Hs). apply same_cfg_eq in Hs as (E1 & E2 & E3 & E4). cbn in Hx.
  pose proof (ak_kernel _ _ Hr) as Hk. cbn in Hk. destruct (ax_nodes _ _ _ Hk _ _ Hx) as [[Hcfg _] _].
  destruct (Hcfg Hxc) as (Hc & Hsc & Hh). destruct (co_size _ _ Hc) as (j & Hj & Ej). rewrite <- E1, Ej in *.
  destruct (whole_bar_ok start j Hj H0 Hpg Hend) as (Hvma & Eo & Ez).
  destruct (aux_mmap_spec pr (fun _ => 0) (whole_bar start (2 ^ j)) x Hc Hsc Hh Hxc Hvma) as (ret & segs & x' & Em & H1 & _ & H3).
  rewrite Eo, Ez, Ej in *. assert (ret = 0) as -> by (apply H3; [done|done|lia]).
  destruct (H1 eq_refl) as (_ & _ & _ & [_ Hview] & _). exists x, segs, x'. split; [done|]. split; [done|].
  assert (Er : take (Z.to_nat (ac_count (nd_cfg n))) (ac_range (nd_cfg n)) = ranges_of (x_cfg x)) by (unfold ranges_of; by rewrite E3, E4).
  rewrite Er, length_map. split_and!.
  - pose proof (co_count _ _ Hc) as Hcnt. rewrite <- E3. unfold ranges_of. rewrite length_take, (co_room _ _ Hc). lia.
  - intros pid base len off d Hin Hd. apply list_elem_of_In, in_map_iff in Hin as (r & [= <- <- <- <-] & Hin). apply list_elem_of_In in Hin.
    pose proof (proj1 (Forall_forall _ _) (co_ranges _ _ Hc) r Hin) as [_ _ _ [Hro _] Hre]. rewrite Ej in Hre. unfold PAGE_SIZE in Hre.
    specialize (Hview (ra_offset r + d) ltac:(lia)). replace (start + ra_offset r + d) with (start + (ra_offset r + d - 0)) by lia.
    cbn in Hview. rewrite Hview. by eapply aux_byte_range.
  - intros m Hm Em'. destruct (ax_maps _ _ _ Hk m Hm) as (y & Hy & _ & Ey & _). rewrite Em', Hx in Hy. injection Hy as <-. by rewrite <- Ey.
Qed.

#[local] Instance demo_nodes : NodeDevice aux_state := kernel_nodes win_defaults true.

(** A server that registers the partitions and attaches the aperture of a primary guest at index 2, epoch 5. *)
Definition demo_ready : aperture_state * aux_state :=
  let '(_, a, k) := virt_iav_aperture_init (take 2 demo_parts) [0x20000] virt_iav_aperture_reset (aux_init demo_pages) in (a, k).
Definition demo_attached : aperture_state * aux_state :=
  match virt_iav_aperture_attach demo_pids 2 5 true (fst demo_ready) (snd demo_ready) with Some (_, _, a, k) => (a, k) | None => demo_ready end.
Definition demo_view : virt_iav_aperture_view := snd (virt_iav_aperture_get 2 (fst demo_attached)).

Lemma demo_ready_reachable : ap_reachable win_defaults true demo_pids demo_pages (fst demo_ready, (snd demo_ready, [])).
Proof. apply rtc_once. eapply (ap_init _ _ _ (take 2 demo_parts) [0x20000]); [apply Forall_take, demo_parts_typed|reflexivity]. Qed.

Lemma demo_attached_reachable : ap_reachable win_defaults true demo_pids demo_pages (fst demo_attached, (snd demo_attached, [])).
Proof.
  eapply rtc_r; [exact demo_ready_reachable|].
  eapply (ap_attach _ _ _ 2 5 true); [unfold is_u32; lia|unfold is_u64; lia|vm_compute; reflexivity].
Qed.

Lemma aperture_view_true_witness :
  demo_view = mk_view 0x40000 5 2 [(7, 0x30000000, 0x2000, 0); (9, 0x31000000, 0x3000, 0x10000)] /\
  exists x segs x', g_aux (snd demo_attached) !! 2%nat = Some x /\
    iav_aux_mmap (fun _ => 0) (whole_bar 0x100000 0x40000) x = Some (0, segs, x') /\ seg_at segs 0x112fff = Some 0x31002fff.
Proof.
  split; [vm_compute; reflexivity|].
  destruct (aperture_view_true win_defaults true demo_pids demo_pages (fst demo_attached) (snd demo_attached) [] 2 demo_view 0x100000
    ltac:(cbn; lia) demo_pages_nodup demo_attached_reachable ltac:(unfold is_u32; lia) ltac:(vm_compute; reflexivity) ltac:(vm_compute; discriminate)
    ltac:(lia) ltac:(reflexivity) ltac:(vm_compute; reflexivity)) as (x & segs & x' & H1 & H2 & _ & H3 & _).
  exists x, segs, x'. split; [exact H1|]. split; [exact H2|].
  exact (H3 9 0x31000000 0x3000 0x10000 0x2fff (list_elem_of_lookup_2 (vw_e demo_view) 1 _ ltac:(vm_compute; reflexivity)) ltac:(lia)).
Defined.

(** Attaching always ends. Afterwards the table shows an aperture at that index exactly when a size was reported,
    and then the guest is a primary one, the result is 0 and the composition carries the epoch of its lease. A guest
    that is not primary leaves the node without a composition unless someone still maps it. *)
Theorem attach_reports pr nc pids pages a k ms index epoch primary :
  (length pids <= 16)%nat -> NoDup (pg_phys <$> pages) -> ap_reachable pr nc pids pages (a, (k, ms)) -> is_u64 epoch -> 0 <= index < 8 ->
  exists rc size a' k' n, virt_iav_aperture_attach (dev := kernel_nodes pr nc) pids index epoch primary a k = Some (rc, size, a', k') /\
    ap_node a' !! Z.to_nat index = Some n /\ (nd_attached n = true <-> size <> 0) /\
    (nd_attached n = true -> primary = true /\ rc = 0 /\ size = ac_size (nd_cfg n) /\ ac_epoch (nd_cfg n) = epoch) /\
    (primary = false -> ap_ready a = true -> forall x, g_aux k !! Z.to_nat index = Some x -> x_maps x = 0 ->
      exists x', g_aux k' !! Z.to_nat index = Some x' /\ x_configured x' = false).
Proof.
  intros Hp Hnd Hr He Hi. apply (ap_reachable_inv pr nc pids Hp) in Hr; [|done].
  destruct (attach_total pr nc pids Hp index epoch primary a k ms Hr) as (rc & size & a' & k' & E).
  destruct (attach_ok pr nc pids Hp index epoch primary a k ms rc size a' k' ltac:(unfold is_u32; lia) He Hr E) as [_ H].
  destruct (H ltac:(lia)) as (n & Hn & H1 & H2). exists rc, size, a', k', n. split_and!; [done..|].
  intros -> Hrd x Hx Hm. revert E. unfold virt_iav_aperture_attach, VIRT_IAV_APERTURE_NODES. rewrite Z.geb_leb, (proj2 (Z.leb_gt _ _)), Hrd by lia.
  cbn [negb orb]. intros [= _ _ _ <-]. pose proof (ak_kernel _ _ Hr). by eapply (clear_if_idle_clears pr nc).
Qed.

Lemma attach_reports_witness :
  exists rc size a' k' n, virt_iav_aperture_attach demo_pids 2 6 false (fst demo_attached) (snd demo_attached) = Some (rc, size, a', k') /\
    ap_node a' !! 2%nat = Some n /\ (nd_attached n = true <-> size <> 0).
Proof.
  destruct (attach_reports win_defaults true demo_pids demo_pages (fst demo_attached) (snd demo_attached) [] 2 6 false
    ltac:(cbn; lia) demo_pages_nodup demo_attached_reachable ltac:(unfold is_u64; lia) ltac:(lia)) as (rc & size & a' & k' & n & H1 & H2 & H3 & _).
  exists rc, size, a', k', n. split; [exact H1|]. split; [exact H2|exact H3].
Defined.
