(* ===== verification/LowLease.v ===== *)
(** * Leases of the private low-memory slices

    [Module LowLease] models tools/virt_low_lease.c: the eight slices leased by UUID, their bindings to guest
    ids, the quarantine and the scrub of released slices, and the store that survives a restart of the server.
    A line of the store is its four fields. Writing the store and mapping a slice can fail, which arguments
    say. A reserve that finds every free slice in quarantine sleeps; its two halves are [reserve_locked] and
    [reserve_wake]. The scrubber works outside the lock: its pass is [scrub_check], [scrub_run] and
    [scrub_finish] for each slice. *)

From Stdlib Require Import ZArith Lia Bool Ascii String.
From stdpp Require Import base list numbers decidable.
From S2P Require Import Prelude SliceArena.
Import SliceArena SliceRpc.
#[local] Open Scope Z_scope.
#[local] Open Scope list_scope.

Module LowLease.

Definition VIRT_LOW_LEASE_COUNT : nat := 8.
Definition VIRT_LOW_LEASE_BYTES : Z := 0x4000000.
Definition VIRT_LOW_LEASE_USABLE : Z := VIRT_LOW_LEASE_BYTES - 4096.

(** struct low_slot *)
Record low_slot := mk_low { lo_in_use : bool; lo_uuid : string; lo_index : Z; lo_epoch : Z; lo_cid : Z }.

Definition low_zero : low_slot := mk_low false EmptyString 0 0 0.

(** A line of the store: "%s %u %llu %u". *)
Record store_line := mk_line { ln_uuid : string; ln_index : Z; ln_epoch : Z; ln_cid : Z }.

(** The server's tables, the slices' memory and the store. *)
Record low_state := mk_lowst {
  lw_slots : list low_slot;
  lw_scrub : list bool;
  lw_ready : bool;
  lw_next_epoch : Z;
  lw_wait_ms : Z;
  lw_binds : list slice_binding;
  lw_arena : list slot;
  lw_mem : list (list Z);
  lw_store : list store_line;
}.

Definition set_slots (st : low_state) (x : list low_slot) : low_state :=
  mk_lowst x (lw_scrub st) (lw_ready st) (lw_next_epoch st) (lw_wait_ms st) (lw_binds st) (lw_arena st) (lw_mem st) (lw_store st).
Definition set_scrub (st : low_state) (x : list bool) : low_state :=
  mk_lowst (lw_slots st) x (lw_ready st) (lw_next_epoch st) (lw_wait_ms st) (lw_binds st) (lw_arena st) (lw_mem st) (lw_store st).
Definition set_next_epoch (st : low_state) (x : Z) : low_state :=
  mk_lowst (lw_slots st) (lw_scrub st) (lw_ready st) x (lw_wait_ms st) (lw_binds st) (lw_arena st) (lw_mem st) (lw_store st).
Definition set_binds (st : low_state) (x : list slice_binding) : low_state :=
  mk_lowst (lw_slots st) (lw_scrub st) (lw_ready st) (lw_next_epoch st) (lw_wait_ms st) x (lw_arena st) (lw_mem st) (lw_store st).
Definition set_arena (st : low_state) (x : list slot) : low_state :=
  mk_lowst (lw_slots st) (lw_scrub st) (lw_ready st) (lw_next_epoch st) (lw_wait_ms st) (lw_binds st) x (lw_mem st) (lw_store st).
Definition set_mem (st : low_state) (x : list (list Z)) : low_state :=
  mk_lowst (lw_slots st) (lw_scrub st) (lw_ready st) (lw_next_epoch st) (lw_wait_ms st) (lw_binds st) (lw_arena st) x (lw_store st).
Definition set_store (st : low_state) (x : list store_line) : low_state :=
  mk_lowst (lw_slots st) (lw_scrub st) (lw_ready st) (lw_next_epoch st) (lw_wait_ms st) (lw_binds st) (lw_arena st) (lw_mem st) x.

(** ** Helpers *)

(** isxdigit *)
Definition isxdigit (c : ascii) : bool :=
  let n := Z.of_nat (nat_of_ascii c) in
  ((48 <=? n) && (n <=? 57)) || ((65 <=? n) && (n <=? 70)) || ((97 <=? n) && (n <=? 102)).

(** uuid_ok *)
Definition uuid_ok (uuid : string) : bool :=
  let n := String.length uuid in
  (1 <=? n)%nat && (n <=? 36)%nat &&
  forallb (fun c => (nat_of_ascii c =? 45)%nat || isxdigit c) (list_ascii_of_string uuid).

(** The lines save_locked writes: the leases, then the slices that wait for their scrub. *)
Definition lease_lines (slots : list low_slot) : list store_line :=
  map (fun s => mk_line (lo_uuid s) (lo_index s) (lo_epoch s) (lo_cid s)) (filter (fun s => lo_in_use s = true) slots).
Definition scrub_lines (scrub : list bool) : list store_line :=
  concat (imap (fun i (b : bool) => if b then [mk_line "scrub" (Z.of_nat i) 0 0] else []) scrub).

(** save_locked: the file is replaced as a whole, or left as it was *)
Definition save_locked (ok : bool) (st : low_state) : bool * low_state :=
  if ok then (true, set_store st (lease_lines (lw_slots st) ++ scrub_lines (lw_scrub st))) else (false, st).

(** find_uuid *)
Definition find_uuid (uuid : string) (st : low_state) : option nat :=
  find_idx (fun s => lo_in_use s && String.eqb (lo_uuid s) uuid) (lw_slots st).

(** index_leased *)
Definition index_leased (index : Z) (st : low_state) : bool :=
  existsb (fun s => lo_in_use s && (lo_index s =? index)) (lw_slots st).

Definition scrub_flag (index : Z) (st : low_state) : bool := default false (lw_scrub st !! Z.to_nat index).

(** index_taken *)
Definition index_taken (index : Z) (st : low_state) : bool :=
  index_leased index st || ((index <? Z.of_nat VIRT_LOW_LEASE_COUNT) && scrub_flag index st).

(** any_scrub_pending *)
Definition any_scrub_pending (st : low_state) : bool := existsb (fun b => b) (lw_scrub st).

Definition put_scrub (index : Z) (b : bool) (st : low_state) : low_state :=
  set_scrub st (<[Z.to_nat index := b]> (lw_scrub st)).

(** The first index that is not taken. *)
Definition pick_index (st : low_state) : option Z :=
  Z.of_nat <$> find_idx (fun i => negb (index_taken (Z.of_nat i) st)) (seq 0 VIRT_LOW_LEASE_COUNT).

Definition slice_map (ok : bool) (index : Z) (st : low_state) : Z + list Z :=
  if ok then match lw_mem st !! Z.to_nat index with Some m => inr m | None => inl 0 end else inl 0.

(** write_header *)
Definition write_header (mapped : bool) (index : Z) (st : low_state) : low_state :=
  match virt_slice_arena_write_header index (slice_map mapped index st) with
  | (_, Some m) => set_mem st (<[Z.to_nat index := m]> (lw_mem st))
  | (_, None) => st
  end.

(** bind_slot *)
Definition bind_slot (s : low_slot) (st : low_state) : low_state :=
  if lo_cid s =? 0 then st
  else set_binds st (snd (iav_slice_rpc_bind (lo_cid s) (lo_index s) VIRT_LOW_LEASE_USABLE (lw_binds st))).

(** ** Requests *)

(** The answers of the admin protocol. *)
Inductive reply :=
| OK_LEASE (index epoch : Z)
| OK
| ERR_GEOMETRY
| ERR_INVAL
| ERR_PERSIST
| ERR_EXHAUSTED
| ERR_NOT_FOUND
| ERR_STALE.

(** Whether the store can be written and the slice mapped. *)
Record lease_env := mk_lenv { le_save : bool; le_map : bool }.

(** The end of reserve_locked: a free slot takes the index. *)
Definition grant (env : lease_env) (uuid : string) (cid : Z) (index : option Z) (st : low_state) : reply * low_state :=
  match index with
  | None => (ERR_EXHAUSTED, st)
  | Some index =>
      match find_idx (fun s => negb (lo_in_use s)) (lw_slots st) with
      | None => (ERR_EXHAUSTED, st)
      | Some j =>
          let s := mk_low true uuid index (lw_next_epoch st) cid in
          let st1 := set_next_epoch (set_slots st (<[j := s]> (lw_slots st))) (u64 (lw_next_epoch st + 1)) in
          match save_locked (le_save env) st1 with
          | (false, st2) => (ERR_PERSIST, set_slots st2 (<[j := low_zero]> (lw_slots st2)))
          | (true, st2) => (OK_LEASE index (lo_epoch s), write_header (le_map env) index (bind_slot s st2))
          end
      end
  end.

(** The loop of reserve_locked up to where it sleeps: [None] is a request asleep. *)
Definition reserve_try (env : lease_env) (uuid : string) (cid : Z) (st : low_state) : option reply * low_state :=
  match pick_index st with
  | None => if any_scrub_pending st && negb (lw_wait_ms st =? 0) then (None, st)
            else let '(r, st') := grant env uuid cid None st in (Some r, st')
  | i => let '(r, st') := grant env uuid cid i st in (Some r, st')
  end.

(** reserve_locked *)
Definition reserve_locked (env : lease_env) (uuid : string) (cid : Z) (st : low_state) : option reply * low_state :=
  if negb (lw_ready st) then (Some ERR_GEOMETRY, st)
  else if negb (uuid_ok uuid) || (cid =? 0) then (Some ERR_INVAL, st)
  else
    match find_uuid uuid st with
    | Some j =>
        match lw_slots st !! j with
        | None => (Some ERR_EXHAUSTED, st)
        | Some s =>
            let st1 := if lo_cid s =? cid then st else set_binds st (iav_slice_rpc_unbind (lo_cid s) (lw_binds st)) in
            let s' := mk_low true (lo_uuid s) (lo_index s) (lo_epoch s) cid in
            match save_locked (le_save env) (set_slots st1 (<[j := s']> (lw_slots st1))) with
            | (false, st2) => (Some ERR_PERSIST, st2)
            | (true, st2) => (Some (OK_LEASE (lo_index s') (lo_epoch s')), write_header (le_map env) (lo_index s') (bind_slot s' st2))
            end
        end
    | None =>
        if lw_next_epoch st =? 0 then (Some ERR_EXHAUSTED, st) else reserve_try env uuid cid st
    end.

(** reserve_locked after its sleep: at the timeout a last look for an index, else the loop again *)
Definition reserve_wake (env : lease_env) (timedout : bool) (uuid : string) (cid : Z) (st : low_state)
    : option reply * low_state :=
  if timedout then let '(r, st') := grant env uuid cid (pick_index st) st in (Some r, st')
  else
    match find_uuid uuid st ≫= (fun j => lw_slots st !! j) with
    | Some s => (Some (OK_LEASE (lo_index s) (lo_epoch s)), bind_slot s st)
    | None => reserve_try env uuid cid st
    end.

(** release_locked *)
Definition release_locked (env : lease_env) (now : Z) (uuid : string) (epoch : Z) (st : low_state) : reply * low_state :=
  if negb (uuid_ok uuid) then (ERR_INVAL, st)
  else
    match find_uuid uuid st with
    | None => (ERR_NOT_FOUND, st)
    | Some j =>
        match lw_slots st !! j with
        | None => (ERR_NOT_FOUND, st)
        | Some saved =>
            if negb (lo_epoch saved =? epoch) then (ERR_STALE, st)
            else
              let st1 := set_arena st (virt_slice_arena_quarantine (lo_index saved) now (lw_arena st)) in
              let st2 := put_scrub (lo_index saved) true st1 in
              let st3 := set_binds st2 (iav_slice_rpc_unbind (lo_cid saved) (lw_binds st2)) in
              let st4 := set_slots st3 (<[j := low_zero]> (lw_slots st3)) in
              match save_locked (le_save env) st4 with
              | (true, st5) => (OK, st5)
              | (false, st5) =>
                  let st6 := put_scrub (lo_index saved) false (set_slots st5 (<[j := saved]> (lw_slots st5))) in
                  let st7 := set_arena st6 (virt_slice_arena_unquarantine (lo_index saved) (lw_arena st6)) in
                  (ERR_PERSIST, bind_slot saved st7)
              end
        end
    end.

(** QUERY_LOW *)
Definition query_low (uuid : string) (st : low_state) : reply :=
  match find_uuid uuid st ≫= (fun j => lw_slots st !! j) with
  | Some s => OK_LEASE (lo_index s) (lo_epoch s)
  | None => ERR_NOT_FOUND
  end.

(** ** The scrubber *)

(** virt_low_lease_scrub_pass, one slice: is a scrub pending and due? *)
Definition scrub_check (now index : Z) (st : low_state) : bool :=
  scrub_flag index st && negb (index_leased index st) && fst (virt_slice_arena_scrub_due now index (lw_arena st)).

(** the scrub, outside the lock *)
Definition scrub_run (t0 t1 : Z) (mapped : bool) (good : nat -> bool) (index : Z) (st : low_state) : Z * low_state :=
  match virt_slice_arena_scrub index t0 t1 (slice_map mapped index st) good (lw_arena st) with
  | (rc, ss, Some m) => (rc, set_mem (set_arena st ss) (<[Z.to_nat index := m]> (lw_mem st)))
  | (rc, ss, None) => (rc, set_arena st ss)
  end.

(** after a scrub that succeeded *)
Definition scrub_finish (save : bool) (index : Z) (st : low_state) : low_state :=
  let st1 := put_scrub index false st in
  snd (save_locked save (set_arena st1 (virt_slice_arena_unquarantine index (lw_arena st1)))).

(** One turn of the loop of virt_low_lease_scrub_pass. *)
Definition scrub_one (now t0 t1 : Z) (mapped : bool) (good : nat -> bool) (save : bool) (index : Z) (st : low_state)
    : Z * low_state :=
  if negb (scrub_check now index st) then (0, st)
  else
    match scrub_run t0 t1 mapped good index st with
    | (0, st1) => (1, scrub_finish save index st1)
    | (_, st1) => (0, st1)
    end.

(** virt_low_lease_scrub_pass: how many slices were freed *)
Definition virt_low_lease_scrub_pass (now t0 t1 : Z) (mapped : bool) (good : Z -> nat -> bool) (save : bool) (st : low_state)
    : Z * low_state :=
  foldl (fun '(done, st) i => let '(d, st') := scrub_one now t0 t1 mapped (good (Z.of_nat i)) save (Z.of_nat i) st in (done + d, st'))
        (0, st) (seq 0 VIRT_LOW_LEASE_COUNT).

(** ** Start of the server *)

(** virt_low_lease_reset (the memory and the store are not the server's) *)
Definition virt_low_lease_reset (mem : list (list Z)) (store : list store_line) : low_state :=
  mk_lowst (repeat low_zero VIRT_LOW_LEASE_COUNT) (repeat false VIRT_LOW_LEASE_COUNT) false 1
           (VIRT_SLICE_QUARANTINE_MS + 6000) iav_slice_rpc_reset virt_slice_arena_reset mem store.

(** virt_low_lease_set_parent *)
Definition virt_low_lease_set_parent (base : Z) (st : low_state) : Z * low_state :=
  if (base =? 0) || negb (base mod VIRT_LOW_LEASE_BYTES =? 0) then (- EINVAL, st)
  else (0, mk_lowst (lw_slots st) (lw_scrub st) true (lw_next_epoch st) (lw_wait_ms st) (lw_binds st) (lw_arena st)
                    (lw_mem st) (lw_store st)).

(** quarantine_unleased_locked, one slice *)
Definition quarantine_unleased_one (now index : Z) (st : low_state) : low_state :=
  if index_leased index st then st
  else if negb (scrub_flag index st) then
    let st1 := put_scrub index true st in
    set_arena st1 (virt_slice_arena_quarantine index (if now >? VIRT_SLICE_QUARANTINE_MS then now - VIRT_SLICE_QUARANTINE_MS else 0)
                                               (lw_arena st1))
  else set_arena st (virt_slice_arena_quarantine index now (lw_arena st)).

(** quarantine_unleased_locked *)
Definition quarantine_unleased_locked (now : Z) (st : low_state) : low_state :=
  if negb (lw_ready st) then st
  else foldl (fun st i => quarantine_unleased_one now (Z.of_nat i) st) st (seq 0 VIRT_LOW_LEASE_COUNT).

(** The body of the loop of virt_low_lease_load: [None] is the break. *)
Definition low_load_line (ln : store_line) (st : low_state) : option low_state :=
  if String.eqb (ln_uuid ln) "scrub" then
    Some (if ln_index ln <? Z.of_nat VIRT_LOW_LEASE_COUNT then put_scrub (ln_index ln) true st else st)
  else if negb (lw_ready st) || negb (uuid_ok (ln_uuid ln)) || (ln_epoch ln =? 0) || (ln_cid ln =? 0) then Some st
  else if (ln_index ln >=? Z.of_nat VIRT_LOW_LEASE_COUNT) || bool_decide (is_Some (find_uuid (ln_uuid ln) st)) ||
          index_taken (ln_index ln) st then Some st
  else
    match find_idx (fun s => negb (lo_in_use s)) (lw_slots st) with
    | None => None
    | Some j =>
        let s := mk_low true (ln_uuid ln) (ln_index ln) (ln_epoch ln) (ln_cid ln) in
        let st1 := set_slots st (<[j := s]> (lw_slots st)) in
        let st2 := if ln_epoch ln >=? lw_next_epoch st1
                   then set_next_epoch st1 (if ln_epoch ln =? 2 ^ 64 - 1 then 0 else ln_epoch ln + 1) else st1 in
        Some (bind_slot s st2)
    end.

Fixpoint low_load_lines (lns : list store_line) (st : low_state) : low_state :=
  match lns with
  | [] => st
  | ln :: lns' =>
      match low_load_line ln st with
      | None => st
      | Some st' => low_load_lines lns' st'
      end
  end.

(** virt_low_lease_load *)
Definition virt_low_lease_load (now : Z) (st : low_state) : low_state :=
  quarantine_unleased_locked now (low_load_lines (lw_store st) st).

(** virt_low_lease_arm_module: [module] is the result of loading the kernel module. The leases taken over get
    their slice header. *)
Definition virt_low_lease_arm_module (now base module : Z) (mapped : bool) (st : low_state) : Z * low_state :=
  match virt_low_lease_set_parent base st with
  | (0, st1) =>
      let st2 := virt_low_lease_load now st1 in
      let rc := if module =? - EEXIST then 0 else module in
      if rc =? 0 then
        (0, foldl (fun st s => if lo_in_use s then write_header mapped (lo_index s) st else st) st2 (lw_slots st2))
      else (rc, st2)
  | (rc, st1) => (rc, st1)
  end.

End LowLease.
