(* ===== verification/LowLeaseProps.v ===== *)
(** * Properties of the low-slice leases

    The step relation [sys_step] runs the lease requests, the scrubber, the jobs of the guests on the DSP and
    restarts of the server in any order. A job is counted between its begin and its end and may still write
    its slice for the quarantine time after its end. The invariant [sys_ok] gives isolation: a slice that is
    leased anew holds zeroes, and no job of an earlier holder can write it. *)

From Stdlib Require Import ZArith Lia Bool Ascii String.
From stdpp Require Import base list numbers decidable relations.
From S2P Require Import Prelude SliceArena LowLease.
Import SliceArena SliceRpc LowLease.
#[local] Open Scope Z_scope.
#[local] Open Scope list_scope.

(** ** The system *)

(** A job on a slice: admitted by virt_slice_arena_begin for a guest id, running for the owner of the slice, or
    returned at a time, which the DSP may outlive. *)
Inductive phase := Begun (cid : Z) | Running (owner : string) | Ended (owner : string) (t : Z).
Record job := mk_job { jb_index : Z; jb_phase : phase }.

#[global] Instance phase_eq_dec : EqDecision phase.
Proof. intros x y. unfold Decision. decide equality; apply Z.eq_dec || apply string_dec. Defined.
#[global] Instance job_eq_dec : EqDecision job.
Proof. solve_decision. Defined.

(** The server, the clock, the jobs, the slice the scrubber works on (and whether it is zeroed) and the
    reserves asleep. *)
Record system := mk_sys {
  sy_low : low_state;
  sy_clk : Z;
  sy_jobs : list job;
  sy_scrubber : option (Z * bool);
  sy_waiters : list (string * Z);
}.

(** [st] has leased slice [i] to [u]. *)
Definition owner_of (slots : list low_slot) (i : Z) (u : string) : Prop :=
  exists s, s ∈ slots /\ lo_in_use s = true /\ lo_index s = i /\ lo_uuid s = u.

(** The DSP may still write the slice of the job, for [u]. *)
Definition live (clk : Z) (p : phase) (u : string) : Prop :=
  p = Running u \/ exists t, p = Ended u t /\ clk < t + VIRT_SLICE_QUARANTINE_MS.

(** Jobs after the server died: nothing is counted, what ran may go on. *)
Definition orphan (clk : Z) (jb : job) : list job :=
  match jb_phase jb with
  | Begun _ => []
  | Running u => [mk_job (jb_index jb) (Ended u clk)]
  | Ended _ _ => [jb]
  end.

Definition write_mem (i : Z) (m : list Z) (st : low_state) : low_state := set_mem st (<[Z.to_nat i := m]> (lw_mem st)).

Definition server_start (now base : Z) (st : low_state) : low_state :=
  snd (virt_low_lease_arm_module now base 0 true (virt_low_lease_reset (lw_mem st) (lw_store st))).

(** The reserves asleep once [w] was answered, or not. *)
Definition asleep (r : option reply) (w : string * Z) (ws : list (string * Z)) : list (string * Z) :=
  match r with Some _ => ws | None => w :: ws end.

Inductive sys_step : system -> system -> Prop :=
| ss_tick st c c' js sc ws : c <= c' < 2 ^ 63 -> sys_step (mk_sys st c js sc ws) (mk_sys st c' js sc ws)
| ss_reserve env u cid st c js sc ws r st' :
    reserve_locked env u cid st = (r, st') ->
    sys_step (mk_sys st c js sc ws) (mk_sys st' c js sc (asleep r (u, cid) ws))
| ss_wake env timedout u cid w1 w2 st c js sc r st' :
    (** one admin thread serves the requests, so those of one owner do not overlap; the epochs are not used up *)
    (timedout = true -> find_uuid u st = None) -> lw_next_epoch st <> 0 ->
    reserve_wake env timedout u cid st = (r, st') ->
    sys_step (mk_sys st c js sc (w1 ++ (u, cid) :: w2)) (mk_sys st' c js sc (asleep r (u, cid) (w1 ++ w2)))
| ss_release env u epoch st c js sc ws r st' :
    release_locked env c u epoch st = (r, st') -> sys_step (mk_sys st c js sc ws) (mk_sys st' c js sc ws)
| ss_guest_write i u m m' st c js sc ws :
    owner_of (lw_slots st) i u -> lw_mem st !! Z.to_nat i = Some m -> length m' = length m ->
    sys_step (mk_sys st c js sc ws) (mk_sys (write_mem i m' st) c js sc ws)
| ss_begin i cid st c js sc ws ss' :
    virt_slice_arena_begin i (lw_arena st) = (0, ss') -> so_inflight (slot_at (lw_arena st) i) + 1 < 2 ^ 32 ->
    sys_step (mk_sys st c js sc ws) (mk_sys (set_arena st ss') c (mk_job i (Begun cid) :: js) sc ws)
| ss_admit i cid u usable j1 j2 st c sc ws :
    iav_slice_rpc_held cid (lw_binds st) = inr (i, usable) -> owner_of (lw_slots st) i u ->
    sys_step (mk_sys st c (j1 ++ mk_job i (Begun cid) :: j2) sc ws) (mk_sys st c (j1 ++ mk_job i (Running u) :: j2) sc ws)
| ss_refuse i cid j1 j2 st c sc ws :
    (forall usable, iav_slice_rpc_held cid (lw_binds st) <> inr (i, usable)) ->
    sys_step (mk_sys st c (j1 ++ mk_job i (Begun cid) :: j2) sc ws)
             (mk_sys (set_arena st (virt_slice_arena_end c i (lw_arena st))) c (j1 ++ j2) sc ws)
| ss_end i u j1 j2 st c sc ws :
    sys_step (mk_sys st c (j1 ++ mk_job i (Running u) :: j2) sc ws)
             (mk_sys (set_arena st (virt_slice_arena_end c i (lw_arena st))) c (j1 ++ mk_job i (Ended u c) :: j2) sc ws)
| ss_dsp_write jb u m m' st c js sc ws :
    jb ∈ js -> live c (jb_phase jb) u -> lw_mem st !! Z.to_nat (jb_index jb) = Some m -> length m' = length m ->
    sys_step (mk_sys st c js sc ws) (mk_sys (write_mem (jb_index jb) m' st) c js sc ws)
| ss_scrub_check i st c js ws :
    0 <= i < 8 -> scrub_check c i st = true -> sys_step (mk_sys st c js None ws) (mk_sys st c js (Some (i, false)) ws)
| ss_scrub_run i t0 t1 mapped good st c js ws rc st' :
    scrub_run t0 t1 mapped good i st = (rc, st') ->
    sys_step (mk_sys st c js (Some (i, false)) ws) (mk_sys st' c js (if rc =? 0 then Some (i, true) else None) ws)
| ss_scrub_finish i save st c js ws :
    sys_step (mk_sys st c js (Some (i, true)) ws) (mk_sys (scrub_finish save i st) c js None ws)
| ss_restart base st c js sc ws :
    base <> 0 -> base mod VIRT_LOW_LEASE_BYTES = 0 ->
    sys_step (mk_sys st c js sc ws) (mk_sys (server_start c base st) c (flat_map (orphan c) js) None []).

(** ** Invariant *)

(** The tables of leases: an index and an owner are leased once. *)
Record slots_ok (slots : list low_slot) : Prop := {
  sl_len : length slots = 8%nat;
  sl_slot : forall s, s ∈ slots -> lo_in_use s = true ->
    0 <= lo_index s < 8 /\ uuid_ok (lo_uuid s) = true /\ lo_epoch s <> 0 /\ lo_cid s <> 0;
  sl_index : forall j k s t, slots !! j = Some s -> slots !! k = Some t ->
    lo_in_use s = true -> lo_in_use t = true -> lo_index s = lo_index t -> j = k;
  sl_uuid : forall j k s t, slots !! j = Some s -> slots !! k = Some t ->
    lo_in_use s = true -> lo_in_use t = true -> lo_uuid s = lo_uuid t -> j = k;
}.

Definition flagged (scrub : list bool) (i : Z) : Prop := scrub !! Z.to_nat i = Some true.
#[global] Instance flagged_dec scrub i : Decision (flagged scrub i).
Proof. unfold flagged. apply _. Defined.

(** Nothing can write slice [i] any more. *)
Definition quiet (clk : Z) (js : list job) (i : Z) : Prop :=
  forall jb u, jb ∈ js -> jb_index jb = i -> ~ live clk (jb_phase jb) u.

Definition zeroed (mem : list (list Z)) (i : Z) : Prop :=
  exists m, mem !! Z.to_nat i = Some m /\ Forall (fun b => b = 0) m.

Definition counted (i : Z) (jb : job) : Prop :=
  jb_index jb = i /\ match jb_phase jb with Ended _ _ => False | _ => True end.
#[global] Instance counted_dec i jb : Decision (counted i jb).
Proof. unfold counted. destruct (jb_phase jb); apply _. Defined.

(** Eight slices of whole words, with room for the header. *)
Definition mem_shape (mem : list (list Z)) : Prop :=
  length mem = 8%nat /\ forall m, m ∈ mem -> (64 <= length m)%nat /\ (length m mod 8 = 0)%nat.

Section Invariant.
Context (own : Z -> string -> Prop) (flag : Z -> Prop).

Record flags_ok (arena : list slot) (clk : Z) : Prop := {
  fl_len : length arena = 8%nat;
  fl_free : forall i u, own i u -> ~ flag i;
  fl_quarantined : forall i, 0 <= i < 8 -> flag i -> so_quarantined (slot_at arena i) = true;
  fl_stamps : forall i, 0 <= i < 8 -> 0 <= so_released_ms (slot_at arena i) <= clk /\ 0 <= so_last_end_ms (slot_at arena i) <= clk;
}.

Record jobs_ok (arena : list slot) (clk : Z) (js : list job) : Prop := {
  jo_range : forall jb, jb ∈ js -> 0 <= jb_index jb < 8;
  jo_count : forall i, 0 <= i < 8 -> so_inflight (slot_at arena i) = Z.of_nat (length (filter (counted i) js));
  jo_owner : forall jb u, jb ∈ js -> live clk (jb_phase jb) u -> own (jb_index jb) u \/ flag (jb_index jb);
  jo_time : forall jb u t, jb ∈ js -> jb_phase jb = Ended u t -> t <= clk;
  jo_due : forall jb u t, jb ∈ js -> flag (jb_index jb) -> jb_phase jb = Ended u t -> clk < t + VIRT_SLICE_QUARANTINE_MS ->
    t <= Z.max (so_released_ms (slot_at arena (jb_index jb))) (so_last_end_ms (slot_at arena (jb_index jb)));
}.

(** A slice that is neither leased nor waiting for its scrub is zero. *)
Definition mem_ok (mem : list (list Z)) : Prop :=
  mem_shape mem /\ forall i, 0 <= i < 8 -> (forall u, ~ own i u) -> ~ flag i -> zeroed mem i.

(** The slice in the scrubber's hands. *)
Definition scrubber_ok (mem : list (list Z)) (clk : Z) (js : list job) (sc : option (Z * bool)) : Prop :=
  match sc with
  | None => True
  | Some (i, z) =>
      0 <= i < 8 /\ flag i /\ (forall u, ~ own i u) /\ quiet clk js i /\ (forall jb, jb ∈ js -> ~ counted i jb) /\
      (z = true -> zeroed mem i)
  end.
End Invariant.

(** Every binding is that of a lease, and a guest id has one. *)
Record binds_ok (slots : list low_slot) (binds : list slice_binding) : Prop := {
  bi_lease : forall b, b ∈ binds -> sb_used b = true ->
    exists s, s ∈ slots /\ lo_in_use s = true /\ lo_index s = sb_window_id b /\ lo_cid s = sb_cid b;
  bi_unique : forall j k a b, binds !! j = Some a -> binds !! k = Some b -> sb_used a = true -> sb_used b = true ->
    sb_cid a = sb_cid b -> j = k;
}.

(** A line of the store for a lease. *)
Definition line_of (ln : store_line) (s : low_slot) : Prop :=
  ln_uuid ln = lo_uuid s /\ ln_index ln = lo_index s /\ ln_epoch ln = lo_epoch s /\ ln_cid ln <> 0.

(** The store holds the leases, and every slice without a lease either waits for its scrub there or is quiet. *)
Definition store_ok (slots : list low_slot) (clk : Z) (js : list job) (store : list store_line) : Prop :=
  exists lns sc, store = lns ++ scrub_lines sc /\ length sc = 8%nat /\
    Forall2 line_of lns (filter (fun s => lo_in_use s = true) slots) /\
    (forall i u, owner_of slots i u -> ~ flagged sc i) /\
    (forall i, 0 <= i < 8 -> (forall u, ~ owner_of slots i u) -> flagged sc i \/ quiet clk js i).

(** Everything but the store. *)
Record core_ok (s : system) : Prop := {
  ok_clk : 0 <= sy_clk s < 2 ^ 63;
  ok_ready : lw_ready (sy_low s) = true;
  ok_scrub_len : length (lw_scrub (sy_low s)) = 8%nat;
  ok_slots : slots_ok (lw_slots (sy_low s));
  ok_binds : binds_ok (lw_slots (sy_low s)) (lw_binds (sy_low s));
  ok_flags : flags_ok (owner_of (lw_slots (sy_low s))) (flagged (lw_scrub (sy_low s))) (lw_arena (sy_low s)) (sy_clk s);
  ok_jobs : jobs_ok (owner_of (lw_slots (sy_low s))) (flagged (lw_scrub (sy_low s))) (lw_arena (sy_low s)) (sy_clk s) (sy_jobs s);
  ok_mem : mem_ok (owner_of (lw_slots (sy_low s))) (flagged (lw_scrub (sy_low s))) (lw_mem (sy_low s));
  ok_waiters : forall w, w ∈ sy_waiters s -> uuid_ok w.1 = true /\ w.2 <> 0;
  ok_scrubber : scrubber_ok (owner_of (lw_slots (sy_low s))) (flagged (lw_scrub (sy_low s))) (lw_mem (sy_low s)) (sy_clk s) (sy_jobs s) (sy_scrubber s);
}.

Definition sys_ok (s : system) : Prop :=
  core_ok s /\ store_ok (lw_slots (sy_low s)) (sy_clk s) (sy_jobs s) (lw_store (sy_low s)).

(** ** Lemmas on the tables *)

Lemma slot_at_put ss i k s :
  length ss = 8%nat -> 0 <= i < 8 -> 0 <= k < 8 -> slot_at (put_slot ss i s) k = if decide (i = k) then s else slot_at ss k.
Proof.
  intros Hl Hi Hk. unfold slot_at, put_slot. case_decide as E.
  - subst. by rewrite list_lookup_insert_eq by lia.
  - by rewrite list_lookup_insert_ne by lia.
Qed.

Lemma length_put ss i s : length (put_slot ss i s) = length ss.
Proof. apply length_insert. Qed.

Lemma in_range_iff i : in_range i = true <-> 0 <= i < 8.
Proof. unfold in_range, VIRT_SLICE_ARENA_COUNT. rewrite andb_true_iff. lia. Qed.

Lemma index_leased_iff i st : index_leased i st = true <-> exists u, owner_of (lw_slots st) i u.
Proof.
  unfold index_leased, owner_of. rewrite existsb_exists. split.
  - intros (s & Hs & H). bool_hyps. exists (lo_uuid s), s. rewrite list_elem_of_In. done.
  - intros (u & s & Hs & Hu & Hi & _). exists s. rewrite <- list_elem_of_In. split; [done|]. rewrite Hu, Hi. cbn. apply Z.eqb_refl.
Qed.

Lemma scrub_flag_iff i st : scrub_flag i st = true <-> flagged (lw_scrub st) i.
Proof. unfold scrub_flag, flagged. destruct (lw_scrub st !! Z.to_nat i) as [[]|]; naive_solver. Qed.

Lemma flagged_insert scrub i k b :
  length scrub = 8%nat -> 0 <= i < 8 -> 0 <= k < 8 ->
  flagged (<[Z.to_nat i := b]> scrub) k <-> if decide (i = k) then b = true else flagged scrub k.
Proof.
  intros Hl Hi Hk. unfold flagged. case_decide as E.
  - subst. rewrite list_lookup_insert_eq by lia. split; [by intros [= ->]|by intros ->].
  - by rewrite list_lookup_insert_ne by lia.
Qed.

Lemma flagged_range scrub i : length scrub = 8%nat -> flagged scrub i -> i < 8.
Proof. intros Hl H. apply lookup_lt_Some in H. lia. Qed.

(** Leasing an index that was free, in a slot that was free. *)
Lemma owner_grant slots j s0 s :
  slots !! j = Some s0 -> lo_in_use s0 = false -> lo_in_use s = true ->
  forall i u, owner_of (<[j := s]> slots) i u <-> owner_of slots i u \/ (i = lo_index s /\ u = lo_uuid s).
Proof.
  intros Hj H0 Hs i u. unfold owner_of. split.
  - intros (x & Hx & Hu & <- & <-). apply list_elem_of_lookup in Hx as [k Hk].
    apply lookup_insert_inv in Hk as [[-> ->]|[_ Hk]]; [by right|left]. exists x. split; [by eapply list_elem_of_lookup_2|done].
  - intros [(x & Hx & Hu & <- & <-)|[-> ->]].
    + apply list_elem_of_lookup in Hx as [k Hk]. exists x. split; [|done]. apply (list_elem_of_lookup_2 _ k).
      rewrite list_lookup_insert_ne; [done|]. intros ->. congruence.
    + exists s. split; [|done]. apply (list_elem_of_lookup_2 _ j), list_lookup_insert_eq. by eapply lookup_lt_Some.
Qed.

(** Freeing a slot. *)
Lemma owner_release slots j s0 :
  slots_ok slots -> slots !! j = Some s0 -> lo_in_use s0 = true ->
  forall i u, owner_of (<[j := low_zero]> slots) i u <-> owner_of slots i u /\ i <> lo_index s0.
Proof.
  intros Hok Hj H0 i u. unfold owner_of. split.
  - intros (x & Hx & Hu & <- & <-). apply list_elem_of_lookup in Hx as [k Hk].
    apply lookup_insert_inv in Hk as [[-> ->]|[Hne Hk]]; [done|]. split; [exists x; split; [by eapply list_elem_of_lookup_2|done]|].
    intros E. apply Hne. by eapply (sl_index _ Hok).
  - intros ((x & Hx & Hu & <- & <-) & Hne). apply list_elem_of_lookup in Hx as [k Hk]. exists x. split; [|done].
    apply (list_elem_of_lookup_2 _ k). rewrite list_lookup_insert_ne; [done|]. intros ->. simplify_eq.
Qed.

(** Another guest id in a slot. *)
Lemma owner_same slots j s0 s :
  slots !! j = Some s0 -> lo_in_use s = lo_in_use s0 -> lo_index s = lo_index s0 -> lo_uuid s = lo_uuid s0 ->
  forall i u, owner_of (<[j := s]> slots) i u <-> owner_of slots i u.
Proof.
  intros Hj E1 E2 E3 i u. unfold owner_of. split.
  - intros (x & Hx & Hu & <- & <-). apply list_elem_of_lookup in Hx as [k Hk].
    apply lookup_insert_inv in Hk as [[-> ->]|[_ Hk]]; [exists s0|exists x]; (split; [by eapply list_elem_of_lookup_2|]); [|done].
    by rewrite <- E1, E2, E3.
  - intros (x & Hx & Hu & <- & <-). apply list_elem_of_lookup in Hx as [k Hk]. destruct (decide (k = j)) as [->|Hne].
    + simplify_eq. exists s. split; [|by rewrite E1, E2, E3].
      apply (list_elem_of_lookup_2 _ j), list_lookup_insert_eq. by eapply lookup_lt_Some.
    + exists x. split; [|done]. apply (list_elem_of_lookup_2 _ k). by rewrite list_lookup_insert_ne.
Qed.

(** ** Saving, binding and the header *)

Definition leases_of (slots : list low_slot) : list low_slot := filter (fun s => lo_in_use s = true) slots.

Lemma owned_in_range slots i u : slots_ok slots -> owner_of slots i u -> 0 <= i < 8.
Proof. intros Hok (s & Hs & Hu & <- & _). by apply (sl_slot _ Hok s). Qed.

(** A slice without lease and without flag is quiet. *)
Lemma idle_quiet own flag arena clk js i :
  jobs_ok own flag arena clk js -> (forall u, ~ own i u) -> ~ flag i -> quiet clk js i.
Proof. intros Hj Ho Hf jb u Hjb <- Hl. destruct (jo_owner _ _ _ _ _ Hj jb u Hjb Hl); [by eapply Ho|done]. Qed.

(** The lines a save writes describe the tables. *)
Lemma saved_ok s :
  core_ok s ->
  store_ok (lw_slots (sy_low s)) (sy_clk s) (sy_jobs s)
           (lease_lines (lw_slots (sy_low s)) ++ scrub_lines (lw_scrub (sy_low s))).
Proof.
  intros []. exists (lease_lines (lw_slots (sy_low s))), (lw_scrub (sy_low s)). split_and!; [done|done|..].
  - unfold lease_lines. apply Forall2_fmap_l, Forall_Forall2_diag, Forall_forall. intros x Hx.
    apply list_elem_of_filter in Hx as [Hu Hx]. split_and!; [done..|]. by apply (sl_slot _ ok_slots0 x).
  - apply (fl_free _ _ _ _ ok_flags0).
  - intros i Hi Ho. destruct (decide (flagged (lw_scrub (sy_low s)) i)) as [Hf|Hf]; [by left|right]. by eapply idle_quiet.
Qed.

Lemma save_sys_ok ok st c js sc ws b st' :
  core_ok (mk_sys st c js sc ws) -> save_locked ok st = (b, st') ->
  (b = true /\ sys_ok (mk_sys st' c js sc ws)) \/ (b = false /\ st' = st).
Proof.
  intros Hok. unfold save_locked. destruct ok; intros [= <- <-]; [left|by right]. split; [done|].
  split; [|exact (saved_ok _ Hok)]. by destruct Hok.
Qed.

Lemma find_cid_Some cid binds i :
  find_cid cid binds = Some i -> exists b, binds !! i = Some b /\ sb_used b = true /\ sb_cid b = cid.
Proof.
  unfold find_cid. case_match; [done|]. intros H'. apply find_idx_Some in H' as (b & Hb & E & _). bool_hyps. by exists b.
Qed.

Lemma find_cid_None cid binds k b :
  cid <> 0 -> find_cid cid binds = None -> binds !! k = Some b -> sb_used b = true -> sb_cid b <> cid.
Proof.
  unfold find_cid. intros Hc H Hk Hu <-. destruct (Z.eqb_spec (sb_cid b) 0); [done|].
  pose proof (proj1 (find_idx_None _ _) H k b Hk) as E. cbn in E. by rewrite Hu, Z.eqb_refl in E.
Qed.

Lemma binds_ok_bind slots binds s :
  binds_ok slots binds -> s ∈ slots -> lo_in_use s = true ->
  binds_ok slots (snd (iav_slice_rpc_bind (lo_cid s) (lo_index s) VIRT_LOW_LEASE_USABLE binds)).
Proof.
  intros Hok Hs Hu. pose proof Hok as [Hb Hq]. unfold iav_slice_rpc_bind. destruct (_ || _) eqn:E0; [done|].
  assert (Hc0 : lo_cid s <> 0) by (bool_hyps; done). clear E0.
  destruct (match find_cid _ _ with Some i => Some i | None => _ end) as [i|] eqn:Ei; [|done]. cbn [snd].
  assert (Hother : forall k b, k <> i -> binds !! k = Some b -> sb_used b = true -> sb_cid b <> lo_cid s).
  { intros k b Hk Hb' Hub. destruct (find_cid (lo_cid s) binds) as [i'|] eqn:Ec.
    - injection Ei as ->. apply find_cid_Some in Ec as (b0 & Hb0 & Hu0 & E). intros E'. apply Hk. eapply Hq; [done..|congruence].
    - by eapply find_cid_None. }
  split.
  - intros b Hb'. apply list_elem_of_lookup in Hb' as [k Hk]. apply lookup_insert_inv in Hk as [[-> ->]|[_ Hk]]; [cbn; intros _; by exists s|].
    apply Hb. by eapply list_elem_of_lookup_2.
  - intros k1 k2 a b H1 H2 U1 U2 E. apply lookup_insert_inv in H1 as [[-> ->]|[N1 H1]], H2 as [[-> ->]|[N2 H2]]; [done|..|by eapply Hq].
    + by destruct (Hother k2 b N2 H2 U2).
    + by destruct (Hother k1 a N1 H1 U1).
Qed.

(** Once a guest id is unbound, the bindings left are those of slots with another guest id. *)
Lemma binds_ok_unbind slots slots' binds cid :
  binds_ok slots binds -> cid <> 0 ->
  (forall s, s ∈ slots -> lo_in_use s = true -> lo_cid s <> cid ->
     exists s', s' ∈ slots' /\ lo_in_use s' = true /\ lo_index s' = lo_index s /\ lo_cid s' = lo_cid s) ->
  binds_ok slots' (iav_slice_rpc_unbind cid binds).
Proof.
  intros [Hb Hq] Hc H.
  assert (Hin : forall k b, iav_slice_rpc_unbind cid binds !! k = Some b -> sb_used b = true -> binds !! k = Some b /\ sb_cid b <> cid).
  { unfold iav_slice_rpc_unbind. intros k b. destruct (find_cid cid binds) as [i|] eqn:Ec.
    - intros Hk Hu. apply lookup_insert_inv in Hk as [[-> ->]|[Hne Hk]]; [done|]. split; [done|]. intros E. apply Hne.
      apply find_cid_Some in Ec as (b0 & Hb0 & Hu0 & E0). eapply Hq; [done..|congruence].
    - intros Hk Hu. split; [done|by eapply find_cid_None]. }
  split.
  - intros b Hb' Hu. apply list_elem_of_lookup in Hb' as [k Hk]. destruct (Hin k b Hk Hu) as [Hk' Hne].
    destruct (Hb b ltac:(by eapply list_elem_of_lookup_2) Hu) as (s & Hs & Us & Ei & Ec).
    destruct (H s Hs Us ltac:(congruence)) as (s' & ? & ? & E1 & E2). exists s'. by rewrite E1, E2.
  - intros j k a b Ha Hb' Ua Ub E. destruct (Hin j a Ha Ua), (Hin k b Hb' Ub). by eapply Hq.
Qed.

Lemma bind_core_ok s st c js sc ws :
  core_ok (mk_sys st c js sc ws) -> s ∈ lw_slots st -> lo_in_use s = true -> core_ok (mk_sys (bind_slot s st) c js sc ws).
Proof.
  intros [] Hs Hu. unfold bind_slot. case_match; split; cbn in *; try done. by apply binds_ok_bind.
Qed.

Lemma bind_sys_ok s st c js sc ws :
  sys_ok (mk_sys st c js sc ws) -> s ∈ lw_slots st -> lo_in_use s = true -> sys_ok (mk_sys (bind_slot s st) c js sc ws).
Proof.
  intros [Hc Hst] Hs Hu. split; [by apply bind_core_ok|]. cbn in *. unfold bind_slot. by case_match.
Qed.

Lemma write_header_slots mapped i st :
  let st' := write_header mapped i st in
  lw_slots st' = lw_slots st /\ lw_scrub st' = lw_scrub st /\ lw_ready st' = lw_ready st /\ lw_next_epoch st' = lw_next_epoch st /\
  lw_binds st' = lw_binds st /\ lw_arena st' = lw_arena st /\ lw_store st' = lw_store st.
Proof. unfold write_header. cbn zeta. by repeat case_match. Qed.

Lemma win_hdr_length a b c d e f : length (amba_virt_iav_win_hdr a b c d e f) = 32%nat.
Proof. done. Qed.

Lemma write_header_mem mapped i st :
  mem_shape (lw_mem st) -> 0 <= i < 8 ->
  mem_shape (lw_mem (write_header mapped i st)) /\
  forall k, k <> Z.to_nat i -> lw_mem (write_header mapped i st) !! k = lw_mem st !! k.
Proof.
  intros [Hl Hm] Hi. unfold write_header, virt_slice_arena_write_header, slice_map.
  destruct (negb (in_range i)); [done|]. destruct mapped; [|done].
  destruct (lw_mem st !! Z.to_nat i) as [m|] eqn:E; [|done]. cbn [lw_mem set_mem].
  split; [|intros k Hk; by rewrite list_lookup_insert_ne]. split; [by rewrite length_insert|].
  intros x Hx. apply list_elem_of_lookup in Hx as [k Hk]. apply lookup_insert_inv in Hk as [[-> ->]|[_ Hk]].
  - destruct (Hm m) as [H64 H8]; [by eapply list_elem_of_lookup_2|]. unfold AMBA_VIRT_IAV_WIN_HDR_BYTES.
    rewrite !length_app, length_take, repeat_length, win_hdr_length.
    by replace ((length m - 64) `min` length m + (32 + (64 - 32)))%nat with (length m) by lia.
  - apply Hm. by eapply list_elem_of_lookup_2.
Qed.

Lemma zeroed_frame mem mem' i : mem' !! Z.to_nat i = mem !! Z.to_nat i -> zeroed mem i -> zeroed mem' i.
Proof. intros E (m & Hm & Hz). exists m. by rewrite E. Qed.

(** A write to a leased slice, or to one that waits for its scrub and is not in the scrubber's hands. *)
Lemma mem_ok_write own flag mem mem' i :
  mem_ok own flag mem -> 0 <= i < 8 -> mem_shape mem' -> (forall k, k <> Z.to_nat i -> mem' !! k = mem !! k) ->
  (exists u, own i u) \/ flag i -> mem_ok own flag mem'.
Proof.
  intros [Hs Hz] Hi Hs' Hk Hw. split; [done|]. intros x Hx Ho Hf. eapply zeroed_frame; [apply Hk|by apply Hz].
  intros E. assert (x = i) as -> by lia. destruct Hw as [[u Hu]|Hw]; [by eapply Ho|done].
Qed.

Lemma scrubber_ok_write own flag mem mem' clk js sc i :
  scrubber_ok own flag mem clk js sc -> 0 <= i < 8 -> (forall k, k <> Z.to_nat i -> mem' !! k = mem !! k) ->
  (exists u, own i u) \/ ~ quiet clk js i -> scrubber_ok own flag mem' clk js sc.
Proof.
  destruct sc as [[k z]|]; [|done]. intros (H1 & H2 & H3 & H4 & H5 & H6) Hi Hk Hw. repeat (split; [assumption|]).
  intros Hz. eapply zeroed_frame; [apply Hk|by apply H6]. intros E. assert (k = i) as -> by lia.
  destruct Hw as [[u Hu]|Hw]; [by eapply H3|done].
Qed.

Lemma header_sys_ok mapped i u st c js sc ws :
  sys_ok (mk_sys st c js sc ws) -> owner_of (lw_slots st) i u -> sys_ok (mk_sys (write_header mapped i st) c js sc ws).
Proof.
  intros [[] Hst] Ho. cbn in *. pose proof (owned_in_range _ _ _ ok_slots0 Ho) as Hi.
  destruct (write_header_slots mapped i st) as (E1 & E2 & E3 & E4 & E5 & E6 & E7).
  destruct (write_header_mem mapped i st (proj1 ok_mem0) Hi) as [Hs Hk].
  split; [split; cbn; rewrite ?E1, ?E2, ?E3, ?E4, ?E5, ?E6; try done|cbn; by rewrite E1, E7].
  - eapply mem_ok_write; try done. left. by exists u.
  - eapply scrubber_ok_write; try done. left. by exists u.
Qed.

(** ** Reserve *)

(** The four conditions on owners and flags, for other owners and flags. *)
Section Change.
Context (own own' : Z -> string -> Prop) (flag flag' : Z -> Prop) (arena : list slot) (clk : Z) (js : list job)
  (mem : list (list Z)) (sc : option (Z * bool)).

Lemma flags_ok_change :
  flags_ok own flag arena clk -> (forall i u, own' i u -> ~ flag' i) -> (forall i, 0 <= i < 8 -> flag' i -> flag i) ->
  flags_ok own' flag' arena clk.
Proof. intros [] H1 H2. split; try done. intros i Hi Hf. apply fl_quarantined0; [done|by apply H2]. Qed.

Lemma jobs_ok_change :
  jobs_ok own flag arena clk js -> (forall i, 0 <= i < 8 -> flag' i -> flag i) ->
  (forall jb u, jb ∈ js -> 0 <= jb_index jb < 8 -> live clk (jb_phase jb) u -> own (jb_index jb) u \/ flag (jb_index jb) ->
     own' (jb_index jb) u \/ flag' (jb_index jb)) ->
  jobs_ok own' flag' arena clk js.
Proof.
  intros [] H1 H2. split; try done.
  - intros jb u Hjb Hl. apply H2; [done|by apply jo_range0|done|by apply jo_owner0].
  - intros jb u t Hjb Hf. apply jo_due0; [done|]. apply H1; [by apply jo_range0|done].
Qed.

Lemma mem_ok_change :
  mem_ok own flag mem ->
  (forall i, 0 <= i < 8 -> (forall u, ~ own' i u) -> ~ flag' i -> ((forall u, ~ own i u) /\ ~ flag i) \/ zeroed mem i) ->
  mem_ok own' flag' mem.
Proof. intros [Hs Hz] H. split; [done|]. intros i Hi Ho Hf. destruct (H i Hi Ho Hf) as [[? ?]|]; [by apply Hz|done]. Qed.

Lemma scrubber_ok_change :
  scrubber_ok own flag mem clk js sc ->
  (forall i z, sc = Some (i, z) -> flag i -> (forall u, ~ own i u) -> flag' i /\ forall u, ~ own' i u) ->
  scrubber_ok own' flag' mem clk js sc.
Proof.
  destruct sc as [[i z]|]; [|done]. intros (H1 & H2 & H3 & H4 & H5 & H6) H.
  destruct (H i z eq_refl H2 H3). by repeat (split; [assumption|]).
Qed.
End Change.

Lemma slots_ok_insert slots j s0 s :
  slots_ok slots -> slots !! j = Some s0 ->
  (lo_in_use s = true -> 0 <= lo_index s < 8 /\ uuid_ok (lo_uuid s) = true /\ lo_epoch s <> 0 /\ lo_cid s <> 0) ->
  (lo_in_use s = true -> forall k t, k <> j -> slots !! k = Some t -> lo_in_use t = true ->
     lo_index t <> lo_index s /\ lo_uuid t <> lo_uuid s) ->
  slots_ok (<[j := s]> slots).
Proof.
  intros [] Hj Hs Hd. split; [by rewrite length_insert|..].
  - intros t Ht Hu. apply list_elem_of_lookup in Ht as [k Hk]. apply lookup_insert_inv in Hk as [[-> ->]|[_ Hk]]; [auto|].
    apply sl_slot0; [by eapply list_elem_of_lookup_2|done].
  - intros k1 k2 s1 s2 H1 H2 U1 U2 E. apply lookup_insert_inv in H1 as [[-> ->]|[N1 H1]], H2 as [[-> ->]|[N2 H2]]; [done|..].
    + by destruct (Hd U1 k2 s2 N2 H2 U2) as [[] _].
    + by destruct (Hd U2 k1 s1 N1 H1 U1) as [[] _].
    + by eapply sl_index0.
  - intros k1 k2 s1 s2 H1 H2 U1 U2 E. apply lookup_insert_inv in H1 as [[-> ->]|[N1 H1]], H2 as [[-> ->]|[N2 H2]]; [done|..].
    + by destruct (Hd U1 k2 s2 N2 H2 U2) as [_ []].
    + by destruct (Hd U2 k1 s1 N1 H1 U1) as [_ []].
    + by eapply sl_uuid0.
Qed.

Lemma binds_ok_slots slots slots' binds :
  binds_ok slots binds ->
  (forall s, s ∈ slots -> lo_in_use s = true ->
     exists s', s' ∈ slots' /\ lo_in_use s' = true /\ lo_index s' = lo_index s /\ lo_cid s' = lo_cid s) ->
  binds_ok slots' binds.
Proof.
  intros [Hb Hq] H. split; [|done]. intros b Hin Hu. destruct (Hb b Hin Hu) as (s & Hs & Us & Ei & Ec).
  destruct (H s Hs Us) as (s' & ? & ? & E1 & E2). exists s'. by rewrite E1, E2.
Qed.

Lemma find_uuid_None u st i : find_uuid u st = None -> ~ owner_of (lw_slots st) i u.
Proof.
  intros H (s & Hs & Hu & _ & <-). apply list_elem_of_lookup in Hs as [k Hk].
  pose proof (proj1 (find_idx_None _ _) H k s Hk) as E. cbn in E. by rewrite Hu, String.eqb_refl in E.
Qed.

Lemma find_uuid_Some u st j :
  find_uuid u st = Some j -> exists s, lw_slots st !! j = Some s /\ lo_in_use s = true /\ lo_uuid s = u.
Proof.
  intros H. apply find_idx_Some in H as (s & Hs & E & _). bool_hyps. exists s. by rewrite <- String.eqb_eq.
Qed.

Lemma not_taken i st : 0 <= i < 8 -> index_taken i st = false -> (forall u, ~ owner_of (lw_slots st) i u) /\ ~ flagged (lw_scrub st) i.
Proof.
  unfold index_taken. intros Hi H. apply orb_false_iff in H as [H1 H2]. apply not_true_iff_false in H1. rewrite index_leased_iff in H1.
  split; [intros u Hu; apply H1; by exists u|]. rewrite <- scrub_flag_iff. apply andb_false_iff in H2 as [H2|H2]; [|congruence].
  change (Z.of_nat VIRT_LOW_LEASE_COUNT) with 8 in H2. lia.
Qed.

Lemma pick_index_Some st i : pick_index st = Some i -> 0 <= i < 8 /\ index_taken i st = false.
Proof.
  unfold pick_index. destruct (find_idx _ _) as [k|] eqn:E; [|done]. cbn. intros [= <-].
  apply find_idx_Some in E as (x & Hx & E & _). apply lookup_seq in Hx as [-> Hlt]. cbn in *. apply negb_true_iff in E.
  unfold VIRT_LOW_LEASE_COUNT in *. split; [lia|done].
Qed.

(** A free slot takes a free index. *)
Lemma grant_core_ok st c js sc ws j s0 i u cid :
  core_ok (mk_sys st c js sc ws) -> uuid_ok u = true -> cid <> 0 -> (forall k, ~ owner_of (lw_slots st) k u) ->
  lw_next_epoch st <> 0 -> 0 <= i < 8 -> index_taken i st = false ->
  lw_slots st !! j = Some s0 -> lo_in_use s0 = false ->
  core_ok (mk_sys (set_next_epoch (set_slots st (<[j := mk_low true u i (lw_next_epoch st) cid]> (lw_slots st)))
                                  (u64 (lw_next_epoch st + 1))) c js sc ws).
Proof.
  intros Hok Hu Hcid Hnew He Hi Ht Hj H0. destruct (not_taken i st Hi Ht) as [Hno Hnf]. set (s := mk_low true u i _ cid).
  pose proof (owner_grant (lw_slots st) j s0 s Hj H0 eq_refl) as Ho. destruct Hok. cbn in *. split; cbn; try done.
  - eapply slots_ok_insert; [done|done|done|]. intros _ k t Hk Hkt Hut. cbn. split; intros E.
    + apply (Hno (lo_uuid t)). exists t. split; [by eapply list_elem_of_lookup_2|done].
    + apply (Hnew (lo_index t)). exists t. split; [by eapply list_elem_of_lookup_2|done].
  - eapply binds_ok_slots; [done|]. intros x Hx Hux. apply list_elem_of_lookup in Hx as [k Hk]. exists x. split; [|done].
    apply (list_elem_of_lookup_2 _ k). rewrite list_lookup_insert_ne; [done|]. intros <-. congruence.
  - eapply flags_ok_change; [done| |done]. intros k v. rewrite Ho. intros [Hk|[-> ->]]; [by eapply fl_free|done].
  - eapply jobs_ok_change; [done|done|]. intros jb v _ _ _ [Hk|Hk]; [left; rewrite Ho; by left|by right].
  - eapply mem_ok_change; [done|]. intros k _ Hk Hf. left. split; [|done]. intros v Hv. apply (Hk v). rewrite Ho. by left.
  - eapply scrubber_ok_change; [done|]. intros k z _ Hf Hk. split; [done|]. intros v. rewrite Ho.
    intros [Hv|[-> ->]]; [by eapply Hk|done].
Qed.

(** Tables with the same owners, and the same leases in the store's order. *)
Lemma sys_ok_same_owners st slots' e binds' c js sc ws :
  sys_ok (mk_sys st c js sc ws) -> slots_ok slots' -> binds_ok slots' binds' ->
  (forall i u, owner_of slots' i u <-> owner_of (lw_slots st) i u) ->
  (forall lns, Forall2 line_of lns (leases_of (lw_slots st)) -> Forall2 line_of lns (leases_of slots')) ->
  sys_ok (mk_sys (set_binds (set_next_epoch (set_slots st slots') e) binds') c js sc ws).
Proof.
  intros [[] Hst] Hs Hb Ho Hl. cbn in *. split; [split; cbn; try done|cbn].
  - eapply flags_ok_change; [done| |done]. intros i u. rewrite Ho. by eapply fl_free.
  - eapply jobs_ok_change; [done|done|]. intros jb u _ _ _. by rewrite Ho.
  - eapply mem_ok_change; [done|]. intros i _ Hi Hf. left. split; [|done]. intros u. by rewrite <- Ho.
  - eapply scrubber_ok_change; [done|]. intros i z _ Hf Hi. split; [done|]. intros u. by rewrite Ho.
  - destruct Hst as (lns & scr & E & Hlen & HF & H1 & H2). exists lns, scr. split_and!; [done|done|by apply Hl|..].
    + intros i u. rewrite Ho. apply H1.
    + intros i Hi Hno. apply H2; [done|]. intros u. by rewrite <- Ho.
Qed.

Lemma leases_of_insert slots j s0 s :
  slots !! j = Some s0 -> lo_in_use s = lo_in_use s0 ->
  exists l1 l2, leases_of slots = l1 ++ (if lo_in_use s0 then [s0] else []) ++ l2 /\
                leases_of (<[j := s]> slots) = l1 ++ (if lo_in_use s0 then [s] else []) ++ l2.
Proof.
  intros Hj E. exists (leases_of (take j slots)), (leases_of (drop (S j) slots)). unfold leases_of.
  rewrite insert_take_drop by by eapply lookup_lt_Some. rewrite <- (take_drop_middle _ _ _ Hj) at 1.
  rewrite !filter_app, !filter_cons. destruct (lo_in_use s0) eqn:E0.
  - rewrite !decide_True by congruence. done.
  - rewrite !decide_False by congruence. done.
Qed.

(** A slot that is not in use may hold anything. *)
Lemma unused_sys_ok st j s0 s e c js sc ws :
  sys_ok (mk_sys st c js sc ws) -> lw_slots st !! j = Some s0 -> lo_in_use s0 = false -> lo_in_use s = false ->
  sys_ok (mk_sys (set_next_epoch (set_slots st (<[j := s]> (lw_slots st))) e) c js sc ws).
Proof.
  intros Hok Hj H0 Hs. pose proof Hok as [[] _]. cbn in *.
  apply (sys_ok_same_owners st (<[j := s]> (lw_slots st)) e (lw_binds st)) in Hok; [exact Hok|..].
  - eapply slots_ok_insert; [done|done|congruence..].
  - eapply binds_ok_slots; [done|]. intros x Hx Hux. apply list_elem_of_lookup in Hx as [k Hk]. exists x. split; [|done].
    apply (list_elem_of_lookup_2 _ k). rewrite list_lookup_insert_ne; [done|]. intros <-. congruence.
  - intros i u. unfold owner_of. split; intros (x & Hx & Hux & Hr); apply list_elem_of_lookup in Hx as [k Hk].
    + apply lookup_insert_inv in Hk as [[-> ->]|[_ Hk]]; [congruence|]. exists x. split; [by eapply list_elem_of_lookup_2|done].
    + exists x. split; [|done]. apply (list_elem_of_lookup_2 _ k). rewrite list_lookup_insert_ne; [done|]. intros <-. congruence.
  - intros lns. destruct (leases_of_insert _ _ _ s Hj ltac:(congruence)) as (l1 & l2 & -> & ->). by rewrite H0.
Qed.

Lemma grant_ok env u cid idx st c js sc ws r st' :
  sys_ok (mk_sys st c js sc ws) -> uuid_ok u = true -> cid <> 0 -> find_uuid u st = None -> lw_next_epoch st <> 0 ->
  (forall i, idx = Some i -> 0 <= i < 8 /\ index_taken i st = false) -> grant env u cid idx st = (r, st') ->
  sys_ok (mk_sys st' c js sc ws).
Proof.
  intros Hok Hu Hcid Hnew He Hidx. unfold grant. destruct idx as [i|]; [|by intros [= _ <-]].
  destruct (Hidx i eq_refl) as [Hi Ht]. destruct (find_idx _ _) as [j|] eqn:Ej; [|by intros [= _ <-]].
  apply find_idx_Some in Ej as (s0 & Hj & H0 & _). apply negb_true_iff in H0.
  assert (Hcore : core_ok (mk_sys (set_next_epoch (set_slots st (<[j := mk_low true u i (lw_next_epoch st) cid]> (lw_slots st)))
                                  (u64 (lw_next_epoch st + 1))) c js sc ws))
    by (eapply grant_core_ok; [apply Hok|done|done|intros k; by apply find_uuid_None|done..]).
  destruct (save_locked _ _) as [b st2] eqn:Es. pose proof Es as Es'.
  eapply save_sys_ok in Es as [[-> Hs2]|[-> ->]]; [| |exact Hcore].
  - intros [= _ <-]. assert (Esl : lw_slots st2 = <[j := mk_low true u i (lw_next_epoch st) cid]> (lw_slots st)).
    { unfold save_locked in Es'. destruct (le_save env); [by injection Es' as <-|done]. }
    assert (Hin : mk_low true u i (lw_next_epoch st) cid ∈ lw_slots st2)
      by (rewrite Esl; apply (list_elem_of_lookup_2 _ j), list_lookup_insert_eq; by eapply lookup_lt_Some).
    eapply header_sys_ok; [by apply bind_sys_ok|]. unfold bind_slot. case_match; eexists; split_and!; done.
  - intros [= _ <-]. eapply (unused_sys_ok st j s0 low_zero) in Hok; [|done|done|done].
    unfold set_slots, set_next_epoch in *. cbn in *. rewrite list_insert_insert_eq. exact Hok.
Qed.

Lemma reserve_try_ok env u cid st c js sc ws r st' :
  sys_ok (mk_sys st c js sc ws) -> uuid_ok u = true -> cid <> 0 -> find_uuid u st = None -> lw_next_epoch st <> 0 ->
  reserve_try env u cid st = (r, st') -> sys_ok (mk_sys st' c js sc ws).
Proof.
  intros Hok Hu Hcid Hnew He. unfold reserve_try. destruct (pick_index st) as [i|] eqn:Ep.
  - destruct (grant env u cid (Some i) st) as [r0 st0] eqn:Eg. intros [= _ <-]. eapply (grant_ok env u cid (Some i)); [done..| |exact Eg].
    intros k [= <-]. by apply pick_index_Some.
  - destruct (_ && _); [by intros [= _ <-]|]. by intros [= _ <-].
Qed.

(** The owner of a slot comes again, with the same or another guest id. *)
Lemma rebind_ok st c js sc ws j s cid :
  sys_ok (mk_sys st c js sc ws) -> lw_slots st !! j = Some s -> lo_in_use s = true -> cid <> 0 ->
  let st1 := if lo_cid s =? cid then st else set_binds st (iav_slice_rpc_unbind (lo_cid s) (lw_binds st)) in
  sys_ok (mk_sys (set_slots st1 (<[j := mk_low true (lo_uuid s) (lo_index s) (lo_epoch s) cid]> (lw_slots st1))) c js sc ws).
Proof.
  intros Hok Hj Hu Hcid st1. pose proof Hok as [[] _]. cbn in *. set (s' := mk_low true _ _ _ cid).
  destruct (sl_slot _ ok_slots0 s) as (Hi & Huu & He & Hc); [by eapply list_elem_of_lookup_2|done|].
  assert (Hin' : s' ∈ <[j := s']> (lw_slots st)) by (apply (list_elem_of_lookup_2 _ j), list_lookup_insert_eq; by eapply lookup_lt_Some).
  assert (Hkeep : forall x, x ∈ lw_slots st -> x = s \/ x ∈ <[j := s']> (lw_slots st)).
  { intros x Hx. apply list_elem_of_lookup in Hx as [k Hk]. destruct (decide (k = j)) as [->|]; [left; congruence|right].
    apply (list_elem_of_lookup_2 _ k). by rewrite list_lookup_insert_ne. }
  set (binds' := lw_binds st1). assert (Hb : binds_ok (<[j := s']> (lw_slots st)) binds').
  { unfold binds', st1. destruct (Z.eqb_spec (lo_cid s) cid) as [E|Hne].
    - eapply binds_ok_slots; [done|]. intros x Hx Hux. destruct (Hkeep x Hx) as [->|]; [by exists s'|by exists x].
    - eapply binds_ok_unbind; [done|done|]. intros x Hx Hux Hcx. destruct (Hkeep x Hx) as [->|]; [done|by exists x]. }
  apply (sys_ok_same_owners st (<[j := s']> (lw_slots st)) (lw_next_epoch st) binds') in Hok; [|..|done| |].
  - unfold st1 in *. destruct (lo_cid s =? cid); exact Hok.
  - eapply slots_ok_insert; [done|done|done|]. intros _ k t Hk Hkt Hut. split; intros E; apply Hk.
    + by eapply (sl_index _ ok_slots0).
    + by eapply (sl_uuid _ ok_slots0).
  - by eapply owner_same.
  - intros lns. destruct (leases_of_insert _ _ _ s' Hj ltac:(by rewrite Hu)) as (l1 & l2 & -> & ->). rewrite Hu. intros HF.
    apply Forall2_app_inv_r in HF as (x1 & x2 & H1 & H2 & ->). apply Forall2_cons_inv_r in H2 as (y & x3 & Hy & H3 & ->).
    apply Forall2_app; [done|]. by constructor.
Qed.

Lemma slots_of_bind s st : lw_slots (bind_slot s st) = lw_slots st.
Proof. unfold bind_slot. by case_match. Qed.

Lemma reserve_ok env u cid st c js sc ws r st' :
  sys_ok (mk_sys st c js sc ws) -> reserve_locked env u cid st = (r, st') -> sys_ok (mk_sys st' c js sc (asleep r (u, cid) ws)).
Proof.
  intros Hok. unfold reserve_locked. destruct (lw_ready st); [cbn [negb]|by intros [= <- <-]].
  destruct (_ || _) eqn:E; [by intros [= <- <-]|]. apply orb_false_iff in E as [Hu Hcid]. apply negb_false_iff in Hu. bool_hyps.
  destruct (find_uuid u st) as [j|] eqn:Ef.
  - apply find_uuid_Some in Ef as (s & Hj & Us & <-). rewrite Hj. pose proof (rebind_ok _ _ _ _ _ _ _ cid Hok Hj Us Hcid) as Hr.
    cbn zeta in Hr. set (st1 := if lo_cid s =? cid then st else _) in *. destruct (save_locked _ _) as [b st2] eqn:Es. pose proof Es as Es'.
    eapply save_sys_ok in Es as [[-> Hs2]|[-> ->]]; [| |apply Hr]; intros [= <- <-]; [|done]. cbn [asleep].
    assert (Esl : lw_slots st2 = <[j := mk_low true (lo_uuid s) (lo_index s) (lo_epoch s) cid]> (lw_slots st1))
      by (unfold save_locked in Es'; destruct (le_save env); [by injection Es' as <-|done]).
    assert (E1 : lw_slots st1 = lw_slots st) by (unfold st1; by case_match).
    assert (Hin : mk_low true (lo_uuid s) (lo_index s) (lo_epoch s) cid ∈ lw_slots st2)
      by (rewrite Esl, E1; apply (list_elem_of_lookup_2 _ j), list_lookup_insert_eq; by eapply lookup_lt_Some).
    apply (header_sys_ok _ _ (lo_uuid s)); [by apply bind_sys_ok|]. rewrite slots_of_bind. by eexists.
  - destruct (Z.eqb_spec (lw_next_epoch st) 0); [by intros [= <- <-]|]. intros H.
    eapply reserve_try_ok in H; [|done..]. destruct r; [done|]. destruct H as [[] H]. split; [|done]. split; try done.
    cbn. intros w Hw. apply elem_of_cons in Hw as [->|Hw]; [done|by apply ok_waiters0].
Qed.

Lemma waiters_sys_ok st c js sc ws ws' :
  sys_ok (mk_sys st c js sc ws) -> (forall w, w ∈ ws' -> w ∈ ws) -> sys_ok (mk_sys st c js sc ws').
Proof. intros [[] Hst] H. split; [|done]. split; try done. cbn. intros w Hw. by apply ok_waiters0, H. Qed.

Lemma wake_ok env timedout u cid w1 w2 st c js sc r st' :
  sys_ok (mk_sys st c js sc (w1 ++ (u, cid) :: w2)) -> (timedout = true -> find_uuid u st = None) -> lw_next_epoch st <> 0 ->
  reserve_wake env timedout u cid st = (r, st') -> sys_ok (mk_sys st' c js sc (asleep r (u, cid) (w1 ++ w2))).
Proof.
  intros Hok Ht He H. destruct (ok_waiters _ (proj1 Hok) (u, cid)) as [Hu Hcid]; [apply elem_of_app; right; by left|]. cbn in Hu, Hcid.
  apply (waiters_sys_ok _ _ _ _ (w1 ++ (u, cid) :: w2)).
  - revert H. unfold reserve_wake. destruct timedout.
    + destruct (grant _ _ _ _ _) as [r0 st0] eqn:Eg. intros [= _ <-]. eapply (grant_ok env u cid (pick_index st)); [done..|by apply Ht|done| |exact Eg].
      intros i Hi. by apply pick_index_Some.
    + destruct (find_uuid u st) as [j|] eqn:Ef; cbn.
      * apply find_uuid_Some in Ef as (s & Hj & Us & <-). rewrite Hj. intros [= _ <-]. apply bind_sys_ok; [done| |done].
        by eapply list_elem_of_lookup_2.
      * by eapply reserve_try_ok.
  - intros w Hw. destruct r; cbn in Hw; rewrite ?elem_of_cons, ?elem_of_app in *; rewrite ?elem_of_cons; tauto.
Qed.

(** ** Release *)

Lemma quarantine_at i released ss k :
  length ss = 8%nat -> 0 <= i < 8 -> 0 <= k < 8 ->
  slot_at (virt_slice_arena_quarantine i released ss) k =
  if decide (i = k) then set_quarantine (slot_at ss k) true released else slot_at ss k.
Proof.
  intros Hl Hi Hk. unfold virt_slice_arena_quarantine. rewrite (proj2 (in_range_iff i)) by done. cbn [negb].
  rewrite slot_at_put by done. by case_decide; subst.
Qed.

Lemma unquarantine_at i ss k :
  length ss = 8%nat -> 0 <= i < 8 -> 0 <= k < 8 ->
  slot_at (virt_slice_arena_unquarantine i ss) k =
  if decide (i = k) then set_quarantine (slot_at ss k) false (so_released_ms (slot_at ss k)) else slot_at ss k.
Proof.
  intros Hl Hi Hk. unfold virt_slice_arena_unquarantine. rewrite (proj2 (in_range_iff i)) by done. cbn [negb].
  rewrite slot_at_put by done. by case_decide; subst.
Qed.

Lemma quarantine_length i released ss : length (virt_slice_arena_quarantine i released ss) = length ss.
Proof. unfold virt_slice_arena_quarantine. case_match; [done|apply length_put]. Qed.
Lemma unquarantine_length i ss : length (virt_slice_arena_unquarantine i ss) = length ss.
Proof. unfold virt_slice_arena_unquarantine. case_match; [done|apply length_put]. Qed.

Lemma requarantine_at i released ss k :
  length ss = 8%nat -> 0 <= i < 8 -> 0 <= k < 8 ->
  slot_at (virt_slice_arena_unquarantine i (virt_slice_arena_quarantine i released ss)) k =
  if decide (i = k) then set_quarantine (slot_at ss k) false released else slot_at ss k.
Proof.
  intros Hl Hi Hk. rewrite unquarantine_at by (rewrite ?quarantine_length; done). rewrite quarantine_at by done.
  by case_decide.
Qed.

(** The lease of [s] ends: its slice is quarantined from now on. *)
Lemma release_core_ok st c js sc ws j s :
  core_ok (mk_sys st c js sc ws) -> lw_slots st !! j = Some s -> lo_in_use s = true ->
  core_ok (mk_sys (set_slots (set_binds (put_scrub (lo_index s) true
                     (set_arena st (virt_slice_arena_quarantine (lo_index s) c (lw_arena st))))
                     (iav_slice_rpc_unbind (lo_cid s) (lw_binds st))) (<[j := low_zero]> (lw_slots st))) c js sc ws).
Proof.
  intros Hok Hj Hu. pose proof Hok as []. cbn in *. set (i := lo_index s).
  destruct (sl_slot _ ok_slots0 s) as (Hi & _ & _ & Hc); [by eapply list_elem_of_lookup_2|done|].
  pose proof (owner_release _ _ _ ok_slots0 Hj Hu) as Ho. fold i in Ho, Hi.
  assert (Hown : owner_of (lw_slots st) i (lo_uuid s)) by (exists s; split; [by eapply list_elem_of_lookup_2|done]).
  assert (Hf : forall k, 0 <= k < 8 -> flagged (<[Z.to_nat i := true]> (lw_scrub st)) k <-> k = i \/ flagged (lw_scrub st) k).
  { intros k Hk. rewrite flagged_insert by done. case_decide as E; [split; [by left|done]|].
    split; [by right|]. intros [->|]; done. }
  assert (Hq := fun k Hk => quarantine_at i c (lw_arena st) k (fl_len _ _ _ _ ok_flags0) Hi Hk).
  split; cbn; try done; try by rewrite ?length_insert.
  - eapply slots_ok_insert; done.
  - eapply binds_ok_unbind; [done|done|]. intros x Hx Hux Hcx. exists x. split; [|done]. apply list_elem_of_lookup in Hx as [k Hk].
    apply (list_elem_of_lookup_2 _ k). rewrite list_lookup_insert_ne; [done|]. intros <-. congruence.
  - destruct ok_flags0. split; [by rewrite quarantine_length|..].
    + intros k u. rewrite Ho. intros [Hk Hne]. pose proof (owned_in_range _ _ _ ok_slots0 Hk). rewrite Hf by done.
      intros [->|Hfk]; [done|by eapply fl_free0].
    + intros k Hk. rewrite Hf, Hq by done. case_decide; [done|]. intros [->|]; [done|by apply fl_quarantined0].
    + intros k Hk. rewrite Hq by done. specialize (fl_stamps0 k Hk). case_decide; cbn; lia.
  - destruct ok_jobs0. split; try done.
    + intros k Hk. rewrite Hq by done. rewrite <- jo_count0 by done. by case_decide.
    + intros jb u Hjb Hl. rewrite Ho, Hf by by apply jo_range0. destruct (decide (jb_index jb = i)); [by right; left|].
      destruct (jo_owner0 jb u Hjb Hl); [by left|by right; right].
    + intros jb u t Hjb Hfl Ep Hlt. pose proof (jo_range0 jb Hjb). rewrite Hq by done. case_decide as E; cbn.
      * pose proof (jo_time0 _ _ _ Hjb Ep). lia.
      * apply Hf in Hfl as [E'|Hfl]; [congruence| |done]. by eapply jo_due0.
  - eapply mem_ok_change; [done|]. intros k Hk Hno Hfk. left. rewrite Hf in Hfk by done.
    split; [|tauto]. intros u Hku. apply (Hno u). rewrite Ho. split; [done|]. intros ->. tauto.
  - eapply scrubber_ok_change; [done|]. intros k z -> Hfk Hno. destruct ok_scrubber0 as (Hk & _). split; [rewrite Hf by done; by right|].
    intros u. rewrite Ho. intros [Hku _]. by eapply Hno.
Qed.

(** The stamps of a slice without flag do not matter. *)
Lemma arena_sys_ok st arena' c js sc ws i :
  sys_ok (mk_sys st c js sc ws) -> length arena' = 8%nat -> 0 <= i < 8 -> ~ flagged (lw_scrub st) i ->
  (forall k, 0 <= k < 8 -> k <> i -> slot_at arena' k = slot_at (lw_arena st) k) ->
  so_inflight (slot_at arena' i) = so_inflight (slot_at (lw_arena st) i) ->
  0 <= so_released_ms (slot_at arena' i) <= c -> 0 <= so_last_end_ms (slot_at arena' i) <= c ->
  sys_ok (mk_sys (set_arena st arena') c js sc ws).
Proof.
  intros [[] Hst] Hl Hi Hnf Hsame Hin Hr He. cbn in *. split; [split; cbn; try done|done].
  - destruct ok_flags0. split; try done.
    + intros k Hk Hfk. rewrite Hsame; [by apply fl_quarantined0|done|]. by intros ->.
    + intros k Hk. destruct (decide (k = i)) as [->|]; [done|]. rewrite Hsame by done. by apply fl_stamps0.
  - destruct ok_jobs0. split; try done.
    + intros k Hk. destruct (decide (k = i)) as [->|]; [rewrite Hin|rewrite Hsame by done]; by apply jo_count0.
    + intros jb u t Hjb Hfl. rewrite Hsame; [by apply jo_due0|by apply jo_range0|]. by intros E; rewrite E in Hfl.
Qed.

Lemma low_release_ok env u epoch st c js sc ws r st' :
  sys_ok (mk_sys st c js sc ws) -> release_locked env c u epoch st = (r, st') -> sys_ok (mk_sys st' c js sc ws).
Proof.
  intros Hok. unfold release_locked. destruct (uuid_ok u); [cbn [negb]|by intros [= _ <-]].
  destruct (find_uuid u st) as [j|] eqn:Ef; [|by intros [= _ <-]]. apply find_uuid_Some in Ef as (s & Hj & Us & <-). rewrite Hj.
  destruct (negb _); [by intros [= _ <-]|]. pose proof (release_core_ok _ _ _ _ _ _ _ (proj1 Hok) Hj Us) as Hc.
  unfold save_locked. destruct (le_save env).
  - intros [= _ <-]. split; [by destruct Hc|exact (saved_ok _ Hc)].
  - intros [= _ <-]. pose proof Hok as [[] _]. cbn in *.
    assert (Hs : s ∈ lw_slots st) by by eapply list_elem_of_lookup_2. destruct (sl_slot _ ok_slots0 s Hs Us) as (Hi & _ & _ & Hcid).
    assert (Hnf : ~ flagged (lw_scrub st) (lo_index s)) by (eapply (fl_free _ _ _ _ ok_flags0); by exists s).
    assert (Eslots : <[j := s]> (<[j := low_zero]> (lw_slots st)) = lw_slots st) by (rewrite list_insert_insert_eq; by apply list_insert_id).
    assert (Escrub : <[Z.to_nat (lo_index s) := false]> (<[Z.to_nat (lo_index s) := true]> (lw_scrub st)) = lw_scrub st).
    { rewrite list_insert_insert_eq. apply list_insert_id.
      destruct (lookup_lt_is_Some_2 (lw_scrub st) (Z.to_nat (lo_index s))) as [[] E]; [lia| |done]. by destruct Hnf. }
    unfold set_arena, set_binds, put_scrub, set_scrub, set_slots. cbn. rewrite Eslots, Escrub.
    set (arena' := virt_slice_arena_unquarantine _ _).
    pose proof (arena_sys_ok st arena' c js sc ws (lo_index s) Hok) as Ha.
    assert (Hlen := fl_len _ _ _ _ ok_flags0).
    pose proof (fun k => requarantine_at (lo_index s) c (lw_arena st) k Hlen Hi) as Hat. fold arena' in Hat.
    apply (bind_sys_ok s (mk_lowst (lw_slots st) (lw_scrub st) (lw_ready st) (lw_next_epoch st) (lw_wait_ms st)
             (iav_slice_rpc_unbind (lo_cid s) (lw_binds st)) arena' (lw_mem st) (lw_store st))); [|done|done].
    assert (Hb : binds_ok (lw_slots st) (iav_slice_rpc_unbind (lo_cid s) (lw_binds st)))
      by (eapply binds_ok_unbind; [done|done|]; intros x Hx Hux _; by exists x).
    destruct Ha as [Hcore Hstore]; [by unfold arena'; rewrite unquarantine_length, quarantine_length|done|done|..].
    + intros k Hk Hne. rewrite Hat by done. by rewrite decide_False by done.
    + rewrite Hat by done. by rewrite decide_True by done.
    + rewrite Hat by done. rewrite decide_True by done. cbn. lia.
    + rewrite Hat by done. rewrite decide_True by done. cbn. by apply (fl_stamps _ _ _ _ ok_flags0).
    + split; [|exact Hstore]. destruct Hcore. by split.
Qed.

(** ** Time, jobs and writes *)

Lemma live_tick c c' p u : c <= c' -> live c' p u -> live c p u.
Proof. intros Hc [->|(t & -> & Ht)]; [by left|right]. exists t. split; [done|lia]. Qed.

Lemma quiet_tick c c' js i : c <= c' -> quiet c js i -> quiet c' js i.
Proof. intros Hc Hq jb u Hjb E Hl. by eapply Hq, live_tick. Qed.

Lemma tick_ok st c c' js sc ws : sys_ok (mk_sys st c js sc ws) -> c <= c' < 2 ^ 63 -> sys_ok (mk_sys st c' js sc ws).
Proof.
  intros [[] Hst] Hc. cbn in *. split; [split; cbn; try done|cbn].
  - lia.
  - destruct ok_flags0. split; try done. intros i Hi. specialize (fl_stamps0 i Hi). lia.
  - destruct ok_jobs0. split; try done.
    + intros jb u Hjb Hl. apply jo_owner0; [done|]. eapply live_tick; [|exact Hl]. lia.
    + intros jb u t Hjb Ep. specialize (jo_time0 _ _ _ Hjb Ep). lia.
    + intros jb u t Hjb Hf Ep Ht. eapply jo_due0; [done..|lia].
  - destruct sc as [[i z]|]; [|done]. destruct ok_scrubber0 as (? & ? & ? & Hq & ?).
    repeat (split; [assumption|]). split; [|done]. eapply quiet_tick; [|done]. lia.
  - destruct Hst as (lns & scr & H1 & H2 & H3 & H4 & H5). exists lns, scr. split_and!; try done.
    intros i Hi Ho. destruct (H5 i Hi Ho); [by left|right]. eapply quiet_tick; [|done]. lia.
Qed.

(** A write to a leased slice, or by a job that is live. *)
Lemma write_ok i m m' st c js sc ws :
  sys_ok (mk_sys st c js sc ws) -> 0 <= i < 8 -> lw_mem st !! Z.to_nat i = Some m -> length m' = length m ->
  (exists u, owner_of (lw_slots st) i u) \/ (exists jb u, jb ∈ js /\ jb_index jb = i /\ live c (jb_phase jb) u) ->
  sys_ok (mk_sys (write_mem i m' st) c js sc ws).
Proof.
  intros [[] Hst] Hi Hm Hlen Hw. cbn in *. unfold write_mem.
  assert (Hs : mem_shape (<[Z.to_nat i := m']> (lw_mem st))).
  { destruct ok_mem0 as [[Hl Hall] _]. split; [by rewrite length_insert|]. intros x Hx. apply list_elem_of_lookup in Hx as [k Hk].
    apply lookup_insert_inv in Hk as [[-> ->]|[_ Hk]]; [rewrite Hlen|]; apply Hall; by eapply list_elem_of_lookup_2. }
  assert (Hk : forall k, k <> Z.to_nat i -> <[Z.to_nat i := m']> (lw_mem st) !! k = lw_mem st !! k)
    by (intros k Hk; by rewrite list_lookup_insert_ne).
  split; [split; cbn; try done|done].
  - eapply mem_ok_write; try done. destruct Hw as [|(jb & u & Hjb & <- & Hl)]; [by left|].
    destruct (jo_owner _ _ _ _ _ ok_jobs0 jb u Hjb Hl); [left; by exists u|by right].
  - eapply scrubber_ok_write; try done. destruct Hw as [|(jb & u & Hjb & E & Hl)]; [by left|right].
    intros Hq. by eapply Hq.
Qed.

(** Only the slot of slice [i] changed, in its job count and the time of its last end. *)
Definition counts_changed (i n e : Z) (ss ss' : list slot) : Prop :=
  length ss' = 8%nat /\ (forall k, 0 <= k < 8 -> k <> i -> slot_at ss' k = slot_at ss k) /\
  so_inflight (slot_at ss' i) = n /\ so_last_end_ms (slot_at ss' i) = e /\
  so_quarantined (slot_at ss' i) = so_quarantined (slot_at ss i) /\ so_released_ms (slot_at ss' i) = so_released_ms (slot_at ss i).

Lemma begin_counts i ss ss' :
  length ss = 8%nat -> virt_slice_arena_begin i ss = (0, ss') -> so_inflight (slot_at ss i) + 1 < 2 ^ 32 ->
  0 <= so_inflight (slot_at ss i) ->
  0 <= i < 8 /\ so_quarantined (slot_at ss i) = false /\
  counts_changed i (so_inflight (slot_at ss i) + 1) (so_last_end_ms (slot_at ss i)) ss ss'.
Proof.
  intros Hl. unfold virt_slice_arena_begin. destruct (in_range i) eqn:E; [apply in_range_iff in E|done]. cbn [negb].
  destruct (so_quarantined (slot_at ss i)) eqn:Eq; [done|]. intros [= <-] H1 H2. rewrite u32_id by lia. split; [done|]. split; [done|].
  unfold counts_changed. rewrite length_put, slot_at_put, decide_True by done. cbn.
  split; [done|]. split; [|done]. intros k Hk Hne. by rewrite slot_at_put, decide_False by done.
Qed.

Lemma end_counts c i ss :
  length ss = 8%nat -> 0 <= i < 8 -> 0 < so_inflight (slot_at ss i) ->
  counts_changed i (so_inflight (slot_at ss i) - 1) c ss (virt_slice_arena_end c i ss).
Proof.
  intros Hl Hi Hp. unfold virt_slice_arena_end. rewrite (proj2 (in_range_iff i)) by done. cbn [negb].
  unfold counts_changed. rewrite length_put, slot_at_put, decide_True by done. cbn.
  split; [done|]. split; [intros k Hk Hne; by rewrite slot_at_put, decide_False by done|]. by destruct (Z.gtb_spec (so_inflight (slot_at ss i)) 0); [|lia].
Qed.

(** New counts and new jobs that match them. *)
Lemma jobs_sys_ok st ss' c js js' sc ws i n e :
  sys_ok (mk_sys st c js sc ws) -> 0 <= i < 8 -> counts_changed i n e (lw_arena st) ss' ->
  so_last_end_ms (slot_at (lw_arena st) i) <= e <= c ->
  (forall k, 0 <= k < 8 -> k <> i -> length (filter (counted k) js') = length (filter (counted k) js)) ->
  n = Z.of_nat (length (filter (counted i) js')) ->
  (forall jb, jb ∈ js' -> jb ∈ js \/ jb_index jb = i) ->
  (forall jb u, jb ∈ js' -> jb ∉ js -> live c (jb_phase jb) u ->
     owner_of (lw_slots st) i u \/ exists jb0, jb0 ∈ js /\ jb_index jb0 = i /\ live c (jb_phase jb0) u) ->
  (forall jb u t, jb ∈ js' -> jb ∉ js -> jb_phase jb = Ended u t -> t <= e) ->
  (forall jb, jb ∈ js' -> jb ∉ js -> counted i jb -> ~ flagged (lw_scrub st) i \/ exists jb0, jb0 ∈ js /\ counted i jb0) ->
  sys_ok (mk_sys (set_arena st ss') c js' sc ws).
Proof.
  intros [[] Hst] Hi (Hl & Hsame & Hn & He & Hq & Hr) Hel Hcnt Hni Hsub Hlive Hend Hc. cbn in *.
  assert (Hold : forall jb u, jb ∈ js' -> live c (jb_phase jb) u ->
                   owner_of (lw_slots st) (jb_index jb) u \/ exists jb0, jb0 ∈ js /\ jb_index jb0 = jb_index jb /\ live c (jb_phase jb0) u).
  { intros jb u Hjb Hlv. destruct (decide (jb ∈ js)) as [Hin|Hnin]; [right; by exists jb|].
    destruct (Hsub jb Hjb) as [|E]; [done|]. rewrite E. by eapply Hlive. }
  assert (Hquiet : forall k, quiet c js k -> (forall u, ~ owner_of (lw_slots st) k u) -> quiet c js' k).
  { intros k Hqk Hno jb u Hjb <- Hlv. destruct (Hold jb u Hjb Hlv) as [Ho|(jb0 & H0 & E0 & Hl0)]; [by eapply Hno|by eapply Hqk]. }
  split; [split; cbn; try done|cbn].
  - destruct ok_flags0. split; try done.
    + intros k Hk Hf. destruct (decide (k = i)) as [->|]; [rewrite Hq|rewrite Hsame by done]; by apply fl_quarantined0.
    + intros k Hk. destruct (decide (k = i)) as [->|]; [rewrite Hr, He|rewrite Hsame by done]; specialize (fl_stamps0 _ Hk); lia.
  - destruct ok_jobs0. assert (Hrng : forall jb, jb ∈ js' -> 0 <= jb_index jb < 8)
      by (intros jb Hjb; destruct (Hsub jb Hjb) as [|E]; [by apply jo_range0|by rewrite E]).
    split; [done|..].
    + intros k Hk. destruct (decide (k = i)) as [->|]; [by rewrite Hn|]. rewrite Hsame, Hcnt by done. by apply jo_count0.
    + intros jb u Hjb Hlv. destruct (Hold jb u Hjb Hlv) as [|(jb0 & H0 & <- & Hl0)]; [by left|by apply jo_owner0].
    + intros jb u t Hjb Ep. destruct (decide (jb ∈ js)); [by eapply jo_time0|]. specialize (Hend jb u t Hjb n0 Ep). lia.
    + intros jb u t Hjb Hf Ep Ht. destruct (decide (jb ∈ js)) as [Hin|Hnin].
      * pose proof (jo_due0 jb u t Hin Hf Ep Ht) as Hd. destruct (decide (jb_index jb = i)) as [E|]; [|rewrite Hsame by auto; done].
        rewrite E in *. rewrite Hr, He. lia.
      * destruct (Hsub jb Hjb) as [|E]; [done|]. rewrite E, He. specialize (Hend jb u t Hjb Hnin Ep). lia.
  - destruct sc as [[k z]|]; [|done]. destruct ok_scrubber0 as (H1 & H2 & H3 & H4 & H5 & H6).
    repeat (split; [assumption|]). split; [by apply Hquiet|]. split; [|done].
    intros jb Hjb Hcj. destruct (decide (jb ∈ js)) as [Hin|Hnin]; [by eapply H5|].
    destruct (Hsub jb Hjb) as [|E]; [done|]. assert (k = i) as -> by (destruct Hcj; congruence).
    destruct (Hc jb Hjb Hnin Hcj) as [|(jb0 & Hj0 & Hc0)]; [done|by eapply H5].
  - destruct Hst as (lns & scr & H1 & H2 & H3 & H4 & H5). exists lns, scr. split_and!; try done.
    intros k Hk Ho. destruct (H5 k Hk Ho); [by left|right]. by apply Hquiet.
Qed.

Lemma elem_mid {A} (x : A) l1 y l2 : x ∈ l1 ++ y :: l2 <-> x = y \/ x ∈ l1 ++ l2.
Proof. rewrite !elem_of_app, elem_of_cons. tauto. Qed.

Lemma count_mid k j1 jb j2 :
  length (filter (counted k) (j1 ++ jb :: j2)) = ((if decide (counted k jb) then 1 else 0) + length (filter (counted k) (j1 ++ j2)))%nat.
Proof. rewrite !filter_app, !length_app, filter_cons. case_decide; cbn; lia. Qed.

Lemma begin_ok i cid st c js sc ws ss' :
  sys_ok (mk_sys st c js sc ws) -> virt_slice_arena_begin i (lw_arena st) = (0, ss') ->
  so_inflight (slot_at (lw_arena st) i) + 1 < 2 ^ 32 ->
  sys_ok (mk_sys (set_arena st ss') c (mk_job i (Begun cid) :: js) sc ws).
Proof.
  intros Hok Hb Hlim. pose proof Hok as [[] _]. cbn in *.
  assert (Hi : 0 <= i < 8).
  { unfold virt_slice_arena_begin in Hb. destruct (in_range i) eqn:E; [by apply in_range_iff|done]. }
  pose proof (jo_count _ _ _ _ _ ok_jobs0 i Hi) as Hn. apply begin_counts in Hb as (_ & Hq & Hc); [|apply ok_flags0|done|lia].
  assert (Hnf : ~ flagged (lw_scrub st) i) by (intros Hf; by rewrite (fl_quarantined _ _ _ _ ok_flags0) in Hq).
  pose proof (fl_stamps _ _ _ _ ok_flags0 i Hi).
  eapply jobs_sys_ok; [done|exact Hi|exact Hc|lia|..].
  - intros k Hk Hne. rewrite filter_cons, decide_False; [done|]. intros [E _]. cbn in E. lia.
  - rewrite filter_cons, decide_True by done. cbn. lia.
  - intros jb Hjb. apply elem_of_cons in Hjb as [->|]; [by right|by left].
  - intros jb u Hjb Hnin Hl. apply elem_of_cons in Hjb as [->|]; [|done]. by destruct Hl as [|(t & [=] & _)].
  - intros jb u t Hjb Hnin Ep. by apply elem_of_cons in Hjb as [->|].
  - by left.
Qed.

Lemma low_admit_ok i cid u j1 j2 st c sc ws :
  sys_ok (mk_sys st c (j1 ++ mk_job i (Begun cid) :: j2) sc ws) -> owner_of (lw_slots st) i u ->
  sys_ok (mk_sys st c (j1 ++ mk_job i (Running u) :: j2) sc ws).
Proof.
  intros Hok Ho. pose proof Hok as [[] _]. cbn in *. pose proof (owned_in_range _ _ _ ok_slots0 Ho) as Hi.
  assert (Hnf := fl_free _ _ _ _ ok_flags0 i u Ho). pose proof (fl_stamps _ _ _ _ ok_flags0 i Hi).
  replace st with (set_arena st (lw_arena st)) by (by destruct st).
  eapply (jobs_sys_ok st _ _ _ _ _ _ i); [exact Hok|done| |instantiate (1 := so_last_end_ms (slot_at (lw_arena st) i)); lia|..].
  - by repeat split; [apply ok_flags0|..].
  - intros k Hk Hne. rewrite !count_mid, !decide_False; [done|..]; intros [E _]; cbn in E; lia.
  - rewrite (jo_count _ _ _ _ _ ok_jobs0 i Hi). rewrite !count_mid, !decide_True by done. done.
  - intros jb. rewrite !elem_mid. intros [->|]; [by right|by left; right].
  - intros jb v. rewrite !elem_mid. intros [->|] Hnin Hl; [|tauto]. left. destruct Hl as [[= ->]|(t & [=] & _)]. done.
  - intros jb v t. rewrite !elem_mid. intros [->|] Hnin Ep; [done|tauto].
  - by left.
Qed.

Lemma refuse_ok i cid j1 j2 st c sc ws :
  sys_ok (mk_sys st c (j1 ++ mk_job i (Begun cid) :: j2) sc ws) ->
  sys_ok (mk_sys (set_arena st (virt_slice_arena_end c i (lw_arena st))) c (j1 ++ j2) sc ws).
Proof.
  intros Hok. pose proof Hok as [[] _]. cbn in *.
  assert (Hi : 0 <= i < 8) by (apply (jo_range _ _ _ _ _ ok_jobs0 (mk_job i (Begun cid))), elem_mid; by left).
  pose proof (jo_count _ _ _ _ _ ok_jobs0 i Hi) as Hn. rewrite count_mid, decide_True in Hn by done.
  pose proof (fl_stamps _ _ _ _ ok_flags0 i Hi).
  eapply (jobs_sys_ok st _ _ _ _ _ _ i); [exact Hok|done|apply end_counts; [apply ok_flags0|done|lia]|lia|..].
  - intros k Hk Hne. rewrite count_mid, decide_False; [done|]. intros [E _]. cbn in E. lia.
  - lia.
  - intros jb Hjb. left. apply elem_mid. by right.
  - intros jb u Hjb Hnin. destruct Hnin. apply elem_mid. by right.
  - intros jb u t Hjb Hnin. destruct Hnin. apply elem_mid. by right.
  - intros jb Hjb Hnin. destruct Hnin. apply elem_mid. by right.
Qed.

Lemma end_ok i u j1 j2 st c sc ws :
  sys_ok (mk_sys st c (j1 ++ mk_job i (Running u) :: j2) sc ws) ->
  sys_ok (mk_sys (set_arena st (virt_slice_arena_end c i (lw_arena st))) c (j1 ++ mk_job i (Ended u c) :: j2) sc ws).
Proof.
  intros Hok. pose proof Hok as [[] _]. cbn in *. set (jb0 := mk_job i (Running u)) in *.
  assert (Hin : jb0 ∈ j1 ++ jb0 :: j2) by (apply elem_mid; by left).
  assert (Hi : 0 <= i < 8) by apply (jo_range _ _ _ _ _ ok_jobs0 jb0 Hin).
  pose proof (jo_count _ _ _ _ _ ok_jobs0 i Hi) as Hn. rewrite count_mid, decide_True in Hn by done.
  pose proof (fl_stamps _ _ _ _ ok_flags0 i Hi).
  assert (Hnc : forall k, ~ counted k (mk_job i (Ended u c))) by (by intros k [_ []]).
  eapply (jobs_sys_ok st _ _ _ _ _ _ i); [exact Hok|done|apply end_counts; [apply ok_flags0|done|lia]|lia|..].
  - intros k Hk Hne. rewrite !count_mid, !decide_False; [done| |done]. intros [E _]. cbn in E. lia.
  - rewrite count_mid, decide_False by done. lia.
  - intros jb. rewrite !elem_mid. intros [->|]; [by right|by left; right].
  - intros jb v. rewrite !elem_mid. intros [->|] Hnin Hl; [|tauto]. right. exists jb0. split; [done|]. split; [done|].
    destruct Hl as [[=]|(t & [= -> _] & _)]. by left.
  - intros jb v t. rewrite !elem_mid. intros [->|] Hnin Ep; [injection Ep as _ ->; lia|tauto].
  - intros jb. rewrite !elem_mid. intros [->|] Hnin Hc; [by apply Hnc in Hc|tauto].
Qed.

(** ** The scrubber *)

(** The read-back loop looks at every byte of whole words. *)
Lemma words_zero_spec n k m :
  words_zero n k m = true <-> Forall (fun b => b = 0) (take (8 * n) (drop (8 * k) m)).
Proof.
  revert k. induction n as [|n IH]; intros k; cbn [words_zero].
  - by rewrite Nat.mul_0_r.
  - assert (E : take (8 * S n) (drop (8 * k) m) = take 8 (drop (8 * k) m) ++ take (8 * n) (drop (8 * S k) m)).
    { replace (8 * S n)%nat with (8 + 8 * n)%nat by lia. rewrite <- take_take_drop.
      rewrite drop_drop. by replace (8 * k + 8)%nat with (8 * S k)%nat by lia. }
    rewrite E, Forall_app, <- IH. destruct (forallb _ _) eqn:Ef.
    + rewrite forallb_forall in Ef. split; [intros Hw; split; [|done]|by intros [_ ?]].
      apply Forall_forall. intros b Hb. apply Z.eqb_eq, Ef. by apply list_elem_of_In.
    + split; [done|]. intros [HF _]. exfalso. apply not_true_iff_false in Ef. apply Ef, forallb_forall. intros b Hb.
      apply list_elem_of_In in Hb. rewrite Forall_forall in HF. by apply Z.eqb_eq, HF.
Qed.

Lemma scrub_zeroes m m' good :
  (length m mod 8 = 0)%nat -> m' = zero_bytes good m ->
  words_zero (Nat.div (length m) 8) 0 m' = true <-> Forall (fun b => b = 0) m'.
Proof.
  intros Hm ->. rewrite words_zero_spec, Nat.mul_0_r, drop_0.
  assert (Hl : length (zero_bytes good m) = length m) by (unfold zero_bytes; by rewrite length_imap).
  rewrite take_ge; [done|]. rewrite Hl. pose proof (Nat.div_mod_eq (length m) 8). lia.
Qed.

(** A scrub changes the slice it is given, and the counters of its slot. *)
Lemma scrub_run_spec t0 t1 mapped good i st rc st' :
  mem_shape (lw_mem st) -> length (lw_arena st) = 8%nat -> 0 <= i < 8 -> scrub_run t0 t1 mapped good i st = (rc, st') ->
  exists ss' mem', st' = set_mem (set_arena st ss') mem' /\
    counts_changed i (so_inflight (slot_at (lw_arena st) i)) (so_last_end_ms (slot_at (lw_arena st) i)) (lw_arena st) ss' /\
    mem_shape mem' /\ (forall k, k <> Z.to_nat i -> mem' !! k = lw_mem st !! k) /\ (rc = 0 -> zeroed mem' i).
Proof.
  intros [Hl Hm] Ha Hi. unfold scrub_run, virt_slice_arena_scrub, slice_map. rewrite (proj2 (in_range_iff i)) by done. cbn [negb].
  assert (Hcc : forall a b d e f, counts_changed i (so_inflight (slot_at (lw_arena st) i)) (so_last_end_ms (slot_at (lw_arena st) i)) (lw_arena st)
    (put_slot (lw_arena st) i (mk_slot (so_quarantined (slot_at (lw_arena st) i)) (so_inflight (slot_at (lw_arena st) i))
       (so_last_end_ms (slot_at (lw_arena st) i)) (so_released_ms (slot_at (lw_arena st) i)) a b (d - e) f))).
  { intros. unfold counts_changed. rewrite length_put, slot_at_put, decide_True by done. cbn. split; [done|]. split; [|done].
    intros k Hk Hne. by rewrite slot_at_put, decide_False by done. }
  destruct (lookup_lt_is_Some_2 (lw_mem st) (Z.to_nat i)) as [m Em]; [lia|].
  assert (Hmm : m ∈ lw_mem st) by by eapply list_elem_of_lookup_2. destruct (Hm m Hmm) as [H64 H8].
  destruct mapped; [rewrite Em|]; intros [= <- <-].
  - eexists _, _. split; [reflexivity|]. split; [apply Hcc|]. set (m' := zero_bytes good m).
    assert (Hlen : length m' = length m) by (unfold m', zero_bytes; by rewrite length_imap).
    split; [split; [by rewrite length_insert|]|split].
    + intros x Hx. apply list_elem_of_lookup in Hx as [k Hk]. apply lookup_insert_inv in Hk as [[-> ->]|[_ Hk]]; [by rewrite Hlen|].
      apply Hm. by eapply list_elem_of_lookup_2.
    + intros k Hk. by rewrite list_lookup_insert_ne.
    + intros Hrc. exists m'. split; [apply list_lookup_insert_eq; lia|]. apply (scrub_zeroes m m' good); [done|done|]. by case_match.
  - eexists _, (lw_mem st). split; [reflexivity|]. split; [apply Hcc|]. split; [by split|]. by split.
Qed.

Lemma scrub_check_ok i st c js ws :
  sys_ok (mk_sys st c js None ws) -> 0 <= i < 8 -> scrub_check c i st = true -> sys_ok (mk_sys st c js (Some (i, false)) ws).
Proof.
  intros [[] Hst] Hi. cbn in *. unfold scrub_check. intros H. apply andb_true_iff in H as [H Hdue]. apply andb_true_iff in H as [Hf Hnl].
  apply scrub_flag_iff in Hf. apply negb_true_iff, not_true_iff_false in Hnl. rewrite index_leased_iff in Hnl.
  assert (Hno : forall u, ~ owner_of (lw_slots st) i u) by (intros u Hu; apply Hnl; by exists u).
  revert Hdue. unfold virt_slice_arena_scrub_due. rewrite (proj2 (in_range_iff i)) by done. cbn [negb].
  destruct (so_quarantined _ && _) eqn:E; [|done]. apply andb_true_iff in E as [_ E]. bool_hyps.
  pose proof (fl_stamps _ _ _ _ ok_flags0 i Hi). pose proof (jo_count _ _ _ _ _ ok_jobs0 i Hi) as Hn.
  rewrite Z.gtb_ltb. set (from := if _ <? _ then _ else _). 
  assert (Hfrom : from = Z.max (so_released_ms (slot_at (lw_arena st) i)) (so_last_end_ms (slot_at (lw_arena st) i)))
    by (unfold from; destruct (Z.ltb_spec (so_last_end_ms (slot_at (lw_arena st) i)) (so_released_ms (slot_at (lw_arena st) i))); lia).
  rewrite u64_id by (unfold VIRT_SLICE_QUARANTINE_MS; lia). destruct (c >=? _) eqn:Ec; [|done]. intros _. bool_hyps.
  assert (Hnone : forall jb, jb ∈ js -> ~ counted i jb).
  { intros jb Hjb Hc. assert (Hin : jb ∈ filter (counted i) js) by (by apply list_elem_of_filter).
    destruct (filter (counted i) js); [by apply elem_of_nil in Hin|]. cbn in Hn. lia. }
  split; [|done]. split; try done. cbn. split; [done|]. split; [done|]. split; [done|]. split; [|done].
  intros jb u Hjb E' [Hr|(t & Ep & Ht)].
  - apply (Hnone jb Hjb). split; [done|]. by rewrite Hr.
  - pose proof (jo_due _ _ _ _ _ ok_jobs0 jb u t Hjb ltac:(by rewrite E') Ep Ht) as Hd. rewrite E' in Hd. lia.
Qed.

Lemma scrub_run_ok i t0 t1 mapped good st c js ws rc st' :
  sys_ok (mk_sys st c js (Some (i, false)) ws) -> scrub_run t0 t1 mapped good i st = (rc, st') ->
  sys_ok (mk_sys st' c js (if rc =? 0 then Some (i, true) else None) ws).
Proof.
  intros Hok H. pose proof Hok as [[] Hst]. cbn in *. destruct ok_scrubber0 as (Hi & Hf & Hno & Hq & Hnc & _).
  apply scrub_run_spec in H as (ss' & mem' & -> & Hcc & Hs & Hk & Hz); [|apply ok_mem0|apply ok_flags0|done].
  pose proof (fl_stamps _ _ _ _ ok_flags0 i Hi).
  assert (Hok' : sys_ok (mk_sys (set_arena st ss') c js (Some (i, false)) ws)).
  { eapply (jobs_sys_ok st ss' c js js _ ws i); [done..|lia|done|by apply ok_jobs0|by left|done|done|].
    intros jb Hjb Hnin. by destruct Hnin. }
  clear Hok ok_scrub_len0 ok_slots0 ok_binds0 ok_flags0 ok_jobs0 ok_waiters0 Hst.
  destruct Hok' as [[] Hst]. cbn in *. split; [split; cbn; try done|done].
  - eapply mem_ok_write; try done. by right.
  - destruct (Z.eqb_spec rc 0); [|done]. repeat (split; [assumption|]). auto.
Qed.

Lemma scrub_finish_ok save i st c js ws :
  sys_ok (mk_sys st c js (Some (i, true)) ws) -> sys_ok (mk_sys (scrub_finish save i st) c js None ws).
Proof.
  intros [[] Hst]. cbn in *. destruct ok_scrubber0 as (Hi & Hf & Hno & Hq & Hnc & Hz). unfold scrub_finish.
  set (st1 := set_arena _ _). assert (Hc : core_ok (mk_sys st1 c js None ws)).
  { assert (Hfl : forall k, 0 <= k < 8 -> flagged (<[Z.to_nat i := false]> (lw_scrub st)) k <-> k <> i /\ flagged (lw_scrub st) k).
    { intros k Hk. rewrite flagged_insert by done. case_decide as E; [split; [done|by intros []]|]. split; [|by intros []]. auto. }
    assert (Hat := unquarantine_at i (lw_arena st)). pose proof (fl_len _ _ _ _ ok_flags0) as Hlen.
    split; cbn; try done; try by rewrite length_insert.
    - destruct ok_flags0. split; [by rewrite unquarantine_length|..].
      + intros k u Hku. pose proof (owned_in_range _ _ _ ok_slots0 Hku). rewrite Hfl by done. intros [_ Hfk]. by eapply fl_free0.
      + intros k Hk. rewrite Hfl, Hat by done. case_decide; [by intros [[] _]|]. intros [_ ?]. by apply fl_quarantined0.
      + intros k Hk. rewrite Hat by done. case_decide; cbn; by apply fl_stamps0.
    - destruct ok_jobs0. split; try done.
      + intros k Hk. rewrite Hat, <- jo_count0 by done. by case_decide.
      + intros jb u Hjb Hl. rewrite Hfl by auto. destruct (jo_owner0 jb u Hjb Hl); [by left|right]. split; [|done].
        intros E. by eapply Hq.
      + intros jb u t Hjb Hfk Ep Ht. pose proof (jo_range0 jb Hjb). apply Hfl in Hfk as [Hne Hfk]; [|done].
        rewrite Hat, decide_False by (done || lia). by eapply jo_due0.
    - eapply mem_ok_change; [done|]. intros k Hk Ho Hnf. rewrite Hfl in Hnf by done.
      destruct (decide (k = i)) as [->|]; [right; auto|left]. split; [done|]. tauto. }
  unfold save_locked. destruct save; cbn [snd].
  - split; [by destruct Hc|exact (saved_ok _ Hc)].
  - split; [done|exact Hst].
Qed.

(** ** Restart *)

Definition slot_of_line (ln : store_line) : low_slot := mk_low true (ln_uuid ln) (ln_index ln) (ln_epoch ln) (ln_cid ln).

(** Lines that load as leases. *)
Record lines_ok (lns : list store_line) : Prop := {
  lk_len : (length lns <= 8)%nat;
  lk_line : forall ln, ln ∈ lns -> 0 <= ln_index ln < 8 /\ uuid_ok (ln_uuid ln) = true /\ ln_epoch ln <> 0 /\ ln_cid ln <> 0;
  lk_index : NoDup (ln_index <$> lns);
  lk_uuid : NoDup (ln_uuid <$> lns);
}.

Definition slots_of (lns : list store_line) : list low_slot := map slot_of_line lns ++ repeat low_zero (8 - length lns).

Lemma slots_of_elem lns s : s ∈ slots_of lns -> lo_in_use s = true -> exists ln, ln ∈ lns /\ s = slot_of_line ln.
Proof.
  unfold slots_of. intros Hs Hu. apply elem_of_app in Hs as [Hs|Hs].
  - apply list_elem_of_fmap in Hs as (ln & -> & Hln). by exists ln.
  - apply list_elem_of_lookup in Hs as [k Hk]. apply repeat_lookup in Hk as ->. done.
Qed.

Lemma owner_slots_of lns i u : owner_of (slots_of lns) i u <-> exists ln, ln ∈ lns /\ ln_index ln = i /\ ln_uuid ln = u.
Proof.
  split.
  - intros (s & Hs & Hu & <- & <-). apply slots_of_elem in Hs as (ln & Hln & ->); [|done]. by exists ln.
  - intros (ln & Hln & <- & <-). exists (slot_of_line ln). split; [|done]. apply elem_of_app. left. apply list_elem_of_fmap. by exists ln.
Qed.

Lemma slots_of_app lns ln :
  (length lns < 8)%nat -> <[length lns := slot_of_line ln]> (slots_of lns) = slots_of (lns ++ [ln]).
Proof.
  intros Hl. unfold slots_of. rewrite insert_app_r_alt by (rewrite length_map; lia). rewrite length_map, Nat.sub_diag, length_app. cbn [length].
  replace (8 - length lns)%nat with (S (8 - (length lns + 1))) by lia. cbn. by rewrite map_app, <- app_assoc.
Qed.

Lemma lines_slots_ok lns : lines_ok lns -> slots_ok (slots_of lns).
Proof.
  intros []. assert (Hk : forall j s, slots_of lns !! j = Some s -> lo_in_use s = true -> exists ln, lns !! j = Some ln /\ s = slot_of_line ln).
  { intros j s Hs Hu. unfold slots_of in Hs. apply lookup_app_Some in Hs as [Hs|[_ Hs]]; [|by apply repeat_lookup in Hs as ->].
    apply lookup_map_inv in Hs as (ln & ? & ->). by exists ln. }
  split.
  - unfold slots_of. rewrite length_app, length_map, repeat_length. lia.
  - intros s Hs Hu. apply slots_of_elem in Hs as (ln & Hln & ->); [|done]. by apply lk_line0.
  - intros j k s t Hs Ht Hu Hv E. apply Hk in Hs as (a & Ha & ->), Ht as (b & Hb & ->); [|done..]. cbn in E.
    apply (NoDup_lookup _ j k (ln_index a) lk_index0); rewrite list_lookup_fmap; [rewrite Ha|rewrite Hb]; cbn; congruence.
  - intros j k s t Hs Ht Hu Hv E. apply Hk in Hs as (a & Ha & ->), Ht as (b & Hb & ->); [|done..]. cbn in E.
    apply (NoDup_lookup _ j k (ln_uuid a) lk_uuid0); rewrite list_lookup_fmap; [rewrite Ha|rewrite Hb]; cbn; congruence.
Qed.

Lemma leases_of_slots_of lns : leases_of (slots_of lns) = map slot_of_line lns.
Proof.
  unfold leases_of, slots_of. rewrite filter_app.
  assert (E1 : forall l, filter (fun s => lo_in_use s = true) (map slot_of_line l) = map slot_of_line l)
    by (induction l as [|a l IH]; [done|];
        change (map slot_of_line (a :: l)) with (slot_of_line a :: map slot_of_line l); rewrite filter_cons, decide_True by done; by rewrite IH).
  assert (E2 : forall n, filter (fun s => lo_in_use s = true) (repeat low_zero n) = [])
    by (induction n as [|n IH]; [done|];
        change (repeat low_zero (S n)) with (low_zero :: repeat low_zero n); rewrite filter_cons, decide_False by done; done).
  by rewrite E1, E2, app_nil_r.
Qed.

Lemma slots_of_free lns : (length lns < 8)%nat -> find_idx (fun s => negb (lo_in_use s)) (slots_of lns) = Some (length lns).
Proof.
  intros H. unfold slots_of. destruct (8 - length lns)%nat as [|k] eqn:E; [lia|]. clear H E.
  induction lns as [|a l IH]; [done|]. cbn in *. by rewrite IH.
Qed.

Lemma slots_of_last lns ln : slot_of_line ln ∈ slots_of (lns ++ [ln]).
Proof. unfold slots_of. rewrite map_app. apply elem_of_app. left. apply elem_of_app. right. by left. Qed.

Lemma slots_of_old lns ln s : s ∈ slots_of lns -> lo_in_use s = true -> s ∈ slots_of (lns ++ [ln]).
Proof.
  intros Hs Us. apply slots_of_elem in Hs as (l & Hl & ->); [|done]. unfold slots_of. rewrite map_app.
  apply elem_of_app. left. apply elem_of_app. left. apply list_elem_of_fmap. by exists l.
Qed.

(** The state while the leases are loaded. *)
Record loaded (st0 : low_state) (done : list store_line) (st : low_state) : Prop := {
  ld_slots : lw_slots st = slots_of done;
  ld_scrub : lw_scrub st = repeat false 8;
  ld_ready : lw_ready st = true;
  ld_binds : binds_ok (lw_slots st) (lw_binds st);
  ld_arena : lw_arena st = virt_slice_arena_reset;
  ld_mem : lw_mem st = lw_mem st0;
  ld_store : lw_store st = lw_store st0;
}.

Lemma load_lease st0 done st ln :
  loaded st0 done st -> lines_ok (done ++ [ln]) -> exists st', low_load_line ln st = Some st' /\ loaded st0 (done ++ [ln]) st'.
Proof.
  intros [] Hok. pose proof Hok as []. rewrite length_app in lk_len0. cbn in lk_len0.
  destruct (lk_line0 ln) as (Hi & Hu & He & Hc); [apply elem_of_app; right; by left|].
  rewrite fmap_app in lk_index0. rewrite fmap_app in lk_uuid0. apply NoDup_app in lk_index0 as (_ & Hdi & _), lk_uuid0 as (_ & Hdu & _).
  unfold low_load_line. destruct (String.eqb_spec (ln_uuid ln) "scrub") as [E|_]; [by rewrite E in Hu|].
  rewrite ld_ready0, Hu. destruct (Z.eqb_spec (ln_epoch ln) 0); [done|]. destruct (Z.eqb_spec (ln_cid ln) 0); [done|]. cbn [negb orb].
  rewrite Z.geb_leb. destruct (Z.leb_spec (Z.of_nat VIRT_LOW_LEASE_COUNT) (ln_index ln)) as [Hge|_];
    [change (Z.of_nat VIRT_LOW_LEASE_COUNT) with 8 in Hge; lia|]. cbn [orb].
  assert (Hfind : find_uuid (ln_uuid ln) st = None).
  { destruct (find_uuid (ln_uuid ln) st) as [j|] eqn:E; [|done]. exfalso. apply find_uuid_Some in E as (s & Hs & Us & Eu).
    rewrite ld_slots0 in Hs. apply list_elem_of_lookup_2, slots_of_elem in Hs as (l & Hl & ->); [|done].
    apply (Hdu (ln_uuid ln)); [|cbn; by left]. apply list_elem_of_fmap. by exists l. }
  assert (Hnl : index_taken (ln_index ln) st = false).
  { unfold index_taken. apply orb_false_iff. split.
    - apply not_true_iff_false. rewrite index_leased_iff, ld_slots0. intros (u & Ho). apply owner_slots_of in Ho as (l & Hl & E & _).
      apply (Hdi (ln_index ln)); [|cbn; by left]. apply list_elem_of_fmap. by exists l.
    - apply andb_false_iff. right. unfold scrub_flag. rewrite ld_scrub0.
      destruct (repeat false 8 !! Z.to_nat (ln_index ln)) eqn:E; [|done]. by apply repeat_lookup in E as ->. }
  rewrite Hfind, bool_decide_false, Hnl by (by intros [? [=]]). cbn [orb].
  replace (find_idx (fun s => negb (lo_in_use s)) (lw_slots st)) with (Some (length done))
    by (rewrite ld_slots0; symmetry; apply slots_of_free; lia). eexists. split; [reflexivity|]. fold (slot_of_line ln). set (st1 := if _ >=? _ then _ else _).
  assert (Hst1 : exists e, st1 = set_next_epoch (set_slots st (slots_of (done ++ [ln]))) e).
  { rewrite <- slots_of_app, <- ld_slots0 by lia. unfold st1. case_match; [by eexists|exists (lw_next_epoch st); by destruct st]. }
  destruct Hst1 as (e & ->). unfold bind_slot. destruct (Z.eqb_spec (lo_cid (slot_of_line ln)) 0) as [|_]; [done|].
  split; cbn; try done. apply (binds_ok_bind _ _ (slot_of_line ln)); [|apply slots_of_last|done].
  eapply binds_ok_slots; [exact ld_binds0|]. intros s Hs Us. exists s. split; [|done]. rewrite ld_slots0 in Hs. by apply slots_of_old.
Qed.

Lemma lines_ok_app l1 l2 : lines_ok (l1 ++ l2) -> lines_ok l1.
Proof.
  intros [H1 H2 H4 H5]. rewrite length_app in H1. rewrite fmap_app in H4. rewrite fmap_app in H5.
  apply NoDup_app in H4 as (? & _), H5 as (? & _). split; [lia| |done|done]. intros x Hx. apply H2, elem_of_app. by left.
Qed.

Lemma load_leases st0 lns done rest st :
  loaded st0 done st -> lines_ok (done ++ lns) ->
  exists st', low_load_lines (lns ++ rest) st = low_load_lines rest st' /\ loaded st0 (done ++ lns) st'.
Proof.
  revert done st. induction lns as [|ln lns IH]; intros done st Hl Hok; [exists st; by rewrite app_nil_r|].
  rewrite cons_middle, app_assoc in Hok. destruct (load_lease st0 done st ln Hl) as (st1 & E1 & Hl1); [by eapply lines_ok_app|].
  destruct (IH (done ++ [ln]) st1 Hl1 Hok) as (st' & E & Hl').
  exists st'. cbn [low_load_lines app]. rewrite E1. split; [done|]. by rewrite <- app_assoc in Hl'.
Qed.

(** The lines of slices that wait for their scrub. *)
Lemma scrub_lines_elem sc ln :
  ln ∈ scrub_lines sc <-> exists i, sc !! i = Some true /\ ln = mk_line "scrub" (Z.of_nat i) 0 0.
Proof.
  unfold scrub_lines. rewrite list_elem_of_In, in_concat. split.
  - intros (l & Hl & Hin). apply list_elem_of_In, list_elem_of_lookup in Hl as [i Hi].
    rewrite list_lookup_imap in Hi. destruct (sc !! i) as [[]|] eqn:E; [|by injection Hi as <-|done]. injection Hi as <-.
    destruct Hin as [<-|[]]. by exists i.
  - intros (i & Hi & ->). exists [mk_line "scrub" (Z.of_nat i) 0 0]. split; [|by left].
    apply list_elem_of_In, list_elem_of_lookup. exists i. by rewrite list_lookup_imap, Hi.
Qed.

Lemma load_scrubs lns st :
  length (lw_scrub st) = 8%nat -> (forall ln, ln ∈ lns -> ln_uuid ln = "scrub"%string /\ 0 <= ln_index ln < 8) ->
  exists sc', low_load_lines lns st = set_scrub st sc' /\ length sc' = 8%nat /\
    forall i, 0 <= i < 8 -> flagged sc' i <-> flagged (lw_scrub st) i \/ exists ln, ln ∈ lns /\ ln_index ln = i.
Proof.
  revert st. induction lns as [|ln lns IH]; intros st Hl Hs; cbn [low_load_lines].
  - exists (lw_scrub st). split; [by destruct st|]. split; [done|]. intros i Hi. split; [by left|]. intros [|(ln & Hln & _)]; [done|].
    by apply elem_of_nil in Hln.
  - destruct (Hs ln) as [Eu Hi]; [by left|]. unfold low_load_line. rewrite Eu, String.eqb_refl.
    change (Z.of_nat VIRT_LOW_LEASE_COUNT) with 8. destruct (Z.ltb_spec (ln_index ln) 8); [|lia].
    destruct (IH (put_scrub (ln_index ln) true st)) as (sc' & E & Hl' & Hf); [cbn; by rewrite length_insert|intros x Hx; apply Hs; by right|].
    exists sc'. split; [by rewrite E|]. split; [done|]. intros i Hr. rewrite Hf by done. cbn. rewrite flagged_insert by done.
    setoid_rewrite elem_of_cons. split.
    + case_decide as Ei; [intros _; right; exists ln; by split; [left|]|]. intros [|(x & Hx & E')]; [by left|]. right. exists x. by split; [right|].
    + intros [Hfl|(x & [->|Hx] & E')]; [left; by case_decide|left; by rewrite decide_True|right; by exists x].
Qed.

(** ** The slices without a lease at the start *)

Definition start_stamp (now : Z) (flag : bool) : Z :=
  if flag then now else if now >? VIRT_SLICE_QUARANTINE_MS then now - VIRT_SLICE_QUARANTINE_MS else 0.

(** After the slices below [n] were looked at, from [st0]. *)
Record started (st0 : low_state) (now : Z) (n : nat) (st : low_state) : Prop := {
  sd_rest : st = set_arena (set_scrub st0 (lw_scrub st)) (lw_arena st);
  sd_slen : length (lw_scrub st) = 8%nat;
  sd_alen : length (lw_arena st) = 8%nat;
  sd_done : forall i, 0 <= i < Z.of_nat n -> i < 8 -> (forall u, ~ owner_of (lw_slots st0) i u) ->
    flagged (lw_scrub st) i /\ slot_at (lw_arena st) i = set_quarantine slot_init true (start_stamp now (scrub_flag i st0));
  sd_todo : forall i, 0 <= i < 8 -> Z.of_nat n <= i \/ (exists u, owner_of (lw_slots st0) i u) ->
    scrub_flag i st = scrub_flag i st0 /\ slot_at (lw_arena st) i = slot_init;
}.

Lemma started_step st0 now n st :
  (n < 8)%nat -> started st0 now n st -> started st0 now (S n) (quarantine_unleased_one now (Z.of_nat n) st).
Proof.
  intros Hn Hst. pose proof Hst as []. assert (Eslots : lw_slots st = lw_slots st0) by (by rewrite sd_rest0). set (i := Z.of_nat n).
  assert (Hi : 0 <= i < 8) by lia. unfold quarantine_unleased_one. destruct (index_leased i st) eqn:El.
  { apply index_leased_iff in El. rewrite Eslots in El. split; try done.
    - intros k Hk Hk8 Hno. apply sd_done0; [|done|done]. destruct (decide (k = i)) as [->|]; [|lia]. destruct El as [u Hu]. by destruct (Hno u).
    - intros k Hk H. apply sd_todo0; [done|]. destruct (decide (k = i)) as [->|]; [by right|]. destruct H; [left; lia|by right]. }
  assert (Hno : forall u, ~ owner_of (lw_slots st0) i u)
    by (intros u Hu; apply not_true_iff_false in El; apply El, index_leased_iff; rewrite Eslots; by exists u).
  destruct (sd_todo0 i Hi ltac:(left; lia)) as [Ef Es].
  set (stamp := start_stamp now (scrub_flag i st0)).
  assert (Hgoal : started st0 now (S n) (set_arena (put_scrub i true st) (virt_slice_arena_quarantine i stamp (lw_arena st)))).
  { split; cbn.
    - rewrite sd_rest0. by destruct st0.
    - by rewrite length_insert.
    - by rewrite quarantine_length.
    - intros k Hk Hk8 Hnok. rewrite flagged_insert, quarantine_at by (done || lia). case_decide as E; [subst k; by rewrite Es|].
      apply sd_done0; [lia|done|done].
    - intros k Hk H. assert (Hne : i <> k) by (intros <-; destruct H as [|[u Hu]]; [lia|by eapply Hno]).
      rewrite quarantine_at, decide_False by done. unfold scrub_flag. cbn. rewrite list_lookup_insert_ne by lia.
      apply sd_todo0; [done|]. destruct H; [left; lia|by right]. }
  destruct (scrub_flag i st) eqn:Esf; cbn [negb].
  - replace (set_arena st (virt_slice_arena_quarantine i now (lw_arena st)))
      with (set_arena (put_scrub i true st) (virt_slice_arena_quarantine i stamp (lw_arena st))); [done|].
    unfold stamp. rewrite <- Ef. cbn. unfold put_scrub. rewrite list_insert_id; [by destruct st|]. by apply scrub_flag_iff.
  - replace (if now >? VIRT_SLICE_QUARANTINE_MS then now - VIRT_SLICE_QUARANTINE_MS else 0) with stamp; [done|].
    unfold stamp. by rewrite <- Ef.
Qed.

Lemma quarantine_unleased_spec now st0 :
  lw_ready st0 = true -> length (lw_scrub st0) = 8%nat -> lw_arena st0 = virt_slice_arena_reset ->
  started st0 now 8 (quarantine_unleased_locked now st0).
Proof.
  intros Hr Hl Ha. unfold quarantine_unleased_locked. rewrite Hr. cbn [negb]. change (seq 0 VIRT_LOW_LEASE_COUNT) with [0; 1; 2; 3; 4; 5; 6; 7]%nat.
  assert (H0 : started st0 now 0 st0).
  { split; [by destruct st0|done|by rewrite Ha|lia|]. intros i Hi _. split; [done|]. rewrite Ha. unfold slot_at, virt_slice_arena_reset.
    destruct (repeat slot_init (Z.to_nat VIRT_SLICE_ARENA_COUNT) !! Z.to_nat i) eqn:E; [by apply repeat_lookup in E as ->|done]. }
  cbn [foldl]. repeat (apply started_step; [lia|]). done.
Qed.

(** *** The state after a start *)

Lemma orphan_elem c js jb :
  jb ∈ flat_map (orphan c) js -> exists u t, jb_phase jb = Ended u t /\
    exists jb0, jb0 ∈ js /\ jb_index jb0 = jb_index jb /\ (jb0 = jb \/ (jb_phase jb0 = Running u /\ t = c)).
Proof.
  rewrite list_elem_of_In, in_flat_map. intros (jb0 & H0 & Hin). apply list_elem_of_In in H0. unfold orphan in Hin.
  destruct (jb_phase jb0) as [cid|u|u t] eqn:Ep; cbn in Hin; [done|..]; destruct Hin as [<-|[]].
  - exists u, c. split; [done|]. exists jb0. by split_and!; [..|right].
  - exists u, t. split; [done|]. exists jb0. by split_and!; [..|left].
Qed.

Lemma orphan_live c js jb u :
  jb ∈ flat_map (orphan c) js -> live c (jb_phase jb) u -> exists jb0, jb0 ∈ js /\ jb_index jb0 = jb_index jb /\ live c (jb_phase jb0) u.
Proof.
  intros H Hl. apply orphan_elem in H as (v & t & Ep & jb0 & H0 & Ei & [->|[Er ->]]); [by exists jb|].
  exists jb0. split; [done|]. split; [done|]. destruct Hl as [|(t' & E & _)]; [congruence|]. rewrite Ep in E. injection E as -> _. by left.
Qed.

Lemma orphan_quiet c js i : quiet c js i -> quiet c (flat_map (orphan c) js) i.
Proof. intros Hq jb u Hjb E Hl. destruct (orphan_live _ _ _ _ Hjb Hl) as (jb0 & ? & ? & ?). eapply Hq; [done|congruence|done]. Qed.

Lemma orphan_counted c js k : filter (counted k) (flat_map (orphan c) js) = [].
Proof.
  destruct (filter _ _) as [|jb l] eqn:E; [done|]. exfalso. assert (Hin : jb ∈ filter (counted k) (flat_map (orphan c) js)) by (rewrite E; by left).
  apply list_elem_of_filter in Hin as [[_ Hc] Hin]. apply orphan_elem in Hin as (u & t & Ep & _). by rewrite Ep in Hc.
Qed.

Lemma leases_NoDup {B} (f : low_slot -> B) l :
  (forall j k s t, l !! j = Some s -> l !! k = Some t -> lo_in_use s = true -> lo_in_use t = true -> f s = f t -> j = k) ->
  NoDup (f <$> filter (fun s => lo_in_use s = true) l).
Proof.
  induction l as [|a l IH]; intros H; [apply NoDup_nil_2|]. rewrite filter_cons.
  assert (IH' : NoDup (f <$> filter (fun s => lo_in_use s = true) l))
    by (apply IH; intros j k s t Hs Ht Us Ut E; specialize (H (S j) (S k) s t Hs Ht Us Ut E); lia).
  case_decide as Ha; [|done]. cbn. apply NoDup_cons. split; [|done]. intros Hx. apply list_elem_of_fmap in Hx as (x & Ex & Hx).
  apply list_elem_of_filter in Hx as [Ux Hx]. apply list_elem_of_lookup in Hx as [k Hk].
  by specialize (H 0%nat (S k) a x eq_refl Hk Ha Ux Ex).
Qed.

(** The lines of the store of a server that kept the invariant load as its leases. *)
Lemma store_lines_ok slots lns :
  slots_ok slots -> Forall2 line_of lns (leases_of slots) ->
  lines_ok lns /\ (forall i u, owner_of (slots_of lns) i u <-> owner_of slots i u).
Proof.
  intros Hok HF. assert (Hlk : forall k ln, lns !! k = Some ln -> exists s, leases_of slots !! k = Some s /\ line_of ln s).
  { intros k ln Hk. by eapply Forall2_lookup_l in HF. }
  assert (Hin : forall s, s ∈ leases_of slots <-> lo_in_use s = true /\ s ∈ slots) by (intros s; unfold leases_of; by rewrite list_elem_of_filter).
  assert (Hnd : NoDup (lo_index <$> leases_of slots) /\ NoDup (lo_uuid <$> leases_of slots)).
  { destruct Hok. clear HF Hlk Hin. unfold leases_of.
    split; by apply leases_NoDup. }
  assert (Hmap : ln_index <$> lns = lo_index <$> leases_of slots /\ ln_uuid <$> lns = lo_uuid <$> leases_of slots).
  { clear -HF. induction HF as [|ln s lns l (E1 & E2 & _) _ [IH1 IH2]]; [done|]. cbn. by rewrite E1, E2, IH1, IH2. }
  destruct Hmap as [M1 M2], Hnd as [N1 N2]. split.
  - split; [|..|by rewrite M1|by rewrite M2].
    + rewrite (Forall2_length _ _ _ HF). pose proof (length_filter (fun s => lo_in_use s = true) slots). destruct Hok. unfold leases_of. lia.
    + intros ln Hln. apply list_elem_of_lookup in Hln as [k Hk]. destruct (Hlk k ln Hk) as (s & Hs & E1 & E2 & E3 & E4).
      apply list_elem_of_lookup_2, Hin in Hs as [Us Hs]. destruct (sl_slot _ Hok s Hs Us) as (? & ? & ? & ?). by rewrite E1, E2, E3.
  - intros i u. rewrite owner_slots_of. split.
    + intros (ln & Hln & <- & <-). apply list_elem_of_lookup in Hln as [k Hk]. destruct (Hlk k ln Hk) as (s & Hs & E1 & E2 & _).
      apply list_elem_of_lookup_2, Hin in Hs as [Us Hs]. exists s. by rewrite E1, E2.
    + intros (s & Hs & Us & <- & <-). assert (Hl : s ∈ leases_of slots) by by apply Hin. apply list_elem_of_lookup in Hl as [k Hk].
      eapply Forall2_lookup_r in HF as (ln & Hln & E1 & E2 & _); [|exact Hk]. exists ln. split; [by eapply list_elem_of_lookup_2|done].
Qed.

(** What virt_low_lease_load makes of a store [lns ++ scrub_lines sc]. *)
Record load_result (mem : list (list Z)) (lns : list store_line) (sc : list bool) (c : Z) (st : low_state) : Prop := {
  lr_slots : lw_slots st = slots_of lns;
  lr_ready : lw_ready st = true;
  lr_binds : binds_ok (slots_of lns) (lw_binds st);
  lr_mem : lw_mem st = mem;
  lr_store : lw_store st = lns ++ scrub_lines sc;
  lr_slen : length (lw_scrub st) = 8%nat;
  lr_alen : length (lw_arena st) = 8%nat;
  lr_unleased : forall i, 0 <= i < 8 -> (forall u, ~ owner_of (slots_of lns) i u) ->
    flagged (lw_scrub st) i /\
    slot_at (lw_arena st) i = set_quarantine slot_init true (start_stamp c (bool_decide (flagged sc i)));
  lr_leased : forall i u, owner_of (slots_of lns) i u ->
    (flagged (lw_scrub st) i <-> flagged sc i) /\ slot_at (lw_arena st) i = slot_init;
}.

Lemma scrub_flag_bool i st sc : (flagged (lw_scrub st) i <-> flagged sc i) -> scrub_flag i st = bool_decide (flagged sc i).
Proof.
  intros H. destruct (scrub_flag i st) eqn:E; symmetry.
  - apply bool_decide_eq_true, H, scrub_flag_iff, E.
  - apply bool_decide_eq_false. rewrite <- H, <- scrub_flag_iff. congruence.
Qed.

Lemma load_spec mem lns sc c base :
  lines_ok lns -> length sc = 8%nat -> base <> 0 -> base mod VIRT_LOW_LEASE_BYTES = 0 ->
  load_result mem lns sc c
    (virt_low_lease_load c (snd (virt_low_lease_set_parent base (virt_low_lease_reset mem (lns ++ scrub_lines sc))))).
Proof.
  intros Hlns Hsc Hb0 Hb. set (st := snd _).
  assert (Est : st = mk_lowst (slots_of []) (repeat false 8) true 1 (VIRT_SLICE_QUARANTINE_MS + 6000) iav_slice_rpc_reset
                              virt_slice_arena_reset mem (lns ++ scrub_lines sc)).
  { unfold st, virt_low_lease_set_parent. destruct (Z.eqb_spec base 0); [done|]. by rewrite Hb. }
  destruct (load_leases st lns [] (scrub_lines sc) st) as (st1 & E1 & Hl1); [|done|].
  { rewrite Est. split; try done. change (binds_ok (slots_of []) (repeat bind_zero 8)). split.
    - intros b Hb' Hu. apply list_elem_of_lookup in Hb' as [k Hk]. by apply repeat_lookup in Hk as ->.
    - intros j k a b Ha _ Hu. by apply repeat_lookup in Ha as ->. }
  cbn [app] in Hl1. destruct Hl1. assert (Hs8 : length (lw_scrub st1) = 8%nat) by (by rewrite ld_scrub0).
  destruct (load_scrubs (scrub_lines sc) st1 Hs8) as (sc' & E2 & Hl2 & Hf2).
  { intros ln Hln. apply scrub_lines_elem in Hln as (i & Hi & ->). split; [done|]. cbn. apply lookup_lt_Some in Hi. lia. }
  assert (Hf : forall i, 0 <= i < 8 -> flagged sc' i <-> flagged sc i).
  { intros i Hi. rewrite Hf2 by done. rewrite ld_scrub0. split.
    - intros [H|(ln & Hln & <-)]; [by apply repeat_lookup in H|]. apply scrub_lines_elem in Hln as (k & Hk & ->). unfold flagged. cbn. by rewrite Nat2Z.id.
    - intros H. right. exists (mk_line "scrub" (Z.of_nat (Z.to_nat i)) 0 0). split; [apply scrub_lines_elem; by exists (Z.to_nat i)|cbn; lia]. }
  unfold virt_low_lease_load. replace (lw_store st) with (lns ++ scrub_lines sc) by (by rewrite Est). rewrite E1, E2.
  set (st2 := set_scrub st1 sc').
  assert (Hfb : forall i, 0 <= i < 8 -> scrub_flag i st2 = bool_decide (flagged sc i)) by (intros i Hi; by apply scrub_flag_bool, Hf).
  destruct (quarantine_unleased_spec c st2) as [Hrest Hsl Hal Hdone Htodo]; [done..|]. set (st3 := quarantine_unleased_locked c st2) in *.
  change (lw_slots st2) with (lw_slots st1) in *. rewrite ld_slots0 in *.
  split; [by rewrite Hrest|by rewrite Hrest|by rewrite Hrest|rewrite Hrest; cbn; by rewrite ld_mem0, Est|
          rewrite Hrest; cbn; by rewrite ld_store0, Est|done|done|..].
  - intros i Hi Hno. rewrite <- Hfb by done. apply Hdone; [lia|lia|done].
  - intros i u Ho. pose proof (owned_in_range _ _ _ (lines_slots_ok _ Hlns) Ho) as Hi.
    destruct (Htodo i Hi) as [E ->]; [right; by exists u|]. split; [|done]. by rewrite <- scrub_flag_iff, E, scrub_flag_iff, <- Hf.
Qed.

Lemma start_stamp_range c b : 0 <= c -> 0 <= start_stamp c b <= c.
Proof. intros Hc. unfold start_stamp, VIRT_SLICE_QUARANTINE_MS. destruct b; [lia|]. case_match; bool_hyps; lia. Qed.

(** A server that starts with jobs that only the DSP still runs. *)
Lemma load_ok mem lns sc c js st :
  0 <= c < 2 ^ 63 -> mem_shape mem -> lines_ok lns -> length sc = 8%nat ->
  (forall i u, owner_of (slots_of lns) i u -> ~ flagged sc i) ->
  (forall jb, jb ∈ js -> 0 <= jb_index jb < 8) ->
  (forall jb u, jb ∈ js -> live c (jb_phase jb) u -> owner_of (slots_of lns) (jb_index jb) u \/ flagged sc (jb_index jb)) ->
  (forall jb u t, jb ∈ js -> jb_phase jb = Ended u t -> t <= c) ->
  (forall k, filter (counted k) js = []) -> load_result mem lns sc c st -> sys_ok (mk_sys st c js None []).
Proof.
  intros Hc Hmem Hlns Hsc Hfree Hrange Hlive Hend Hcnt []. pose proof (lines_slots_ok _ Hlns) as Hsok.
  assert (Hslot : forall i, 0 <= i < 8 -> (exists u, owner_of (slots_of lns) i u) \/ forall u, ~ owner_of (slots_of lns) i u).
  { intros i Hi. destruct (index_leased i st) eqn:El; [left|right].
    - apply index_leased_iff in El. by rewrite lr_slots0 in El.
    - intros u Hu. apply not_true_iff_false in El. apply El, index_leased_iff. rewrite lr_slots0. by exists u. }
  split; [split; cbn; rewrite ?lr_slots0, ?lr_mem0; try done|cbn; rewrite lr_slots0, lr_store0].
  - split; [done|..].
    + intros i u Ho. rewrite (proj1 (lr_leased0 i u Ho)). by eapply Hfree.
    + intros i Hi Hf. destruct (Hslot i Hi) as [[u Hu]|Hno]; [|by rewrite (proj2 (lr_unleased0 i Hi Hno))].
      rewrite (proj1 (lr_leased0 i u Hu)) in Hf. by destruct (Hfree i u Hu).
    + intros i Hi. destruct (Hslot i Hi) as [[u Hu]|Hno]; [rewrite (proj2 (lr_leased0 i u Hu))|rewrite (proj2 (lr_unleased0 i Hi Hno))]; cbn; [lia|].
      pose proof (start_stamp_range c (bool_decide (flagged sc i))). lia.
  - split; [done|..].
    + intros i Hi. rewrite Hcnt. by destruct (Hslot i Hi) as [[u Hu]|Hno]; [rewrite (proj2 (lr_leased0 i u Hu))|rewrite (proj2 (lr_unleased0 i Hi Hno))].
    + intros jb u Hjb Hl. destruct (Hlive jb u Hjb Hl) as [|Hfl]; [by left|right]. apply lr_unleased0; [by apply Hrange|].
      intros v Hv. by destruct (Hfree _ v Hv).
    + done.
    + intros jb u t Hjb Hfl Ep Ht. pose proof (Hrange jb Hjb) as Hi. pose proof (Hend jb u t Hjb Ep).
      destruct (Hlive jb u Hjb) as [Ho|Hfs]; [right; by exists t| |].
      { rewrite (proj1 (lr_leased0 _ u Ho)) in Hfl. by destruct (Hfree _ u Ho). }
      destruct (Hslot _ Hi) as [[v Hv]|Hno]; [by destruct (Hfree _ v Hv)|]. rewrite (proj2 (lr_unleased0 _ Hi Hno)), bool_decide_true by done. cbn. lia.
  - split; [done|]. intros i Hi Hno Hnf. by destruct Hnf; apply lr_unleased0.
  - intros w Hw. by apply elem_of_nil in Hw.
  - exists lns, sc. split_and!; [done|done| |done|].
    + change (filter (fun s => lo_in_use s = true) (slots_of lns)) with (leases_of (slots_of lns)).
      rewrite leases_of_slots_of. apply Forall2_fmap_r, Forall_Forall2_diag, Forall_forall. intros ln Hln.
      split_and!; try done. by apply (lk_line _ Hlns).
    + intros i Hi Hno. destruct (decide (flagged sc i)) as [|Hnf]; [by left|right]. intros jb u Hjb <- Hl.
      destruct (Hlive jb u Hjb Hl); [by eapply Hno|done].
Qed.

(** The headers of the leases taken over. *)
Lemma headers_ok mapped ss st c js sc ws :
  sys_ok (mk_sys st c js sc ws) -> (forall s, s ∈ ss -> s ∈ lw_slots st) ->
  sys_ok (mk_sys (foldl (fun st s => if lo_in_use s then write_header mapped (lo_index s) st else st) st ss) c js sc ws).
Proof.
  revert st. induction ss as [|s ss IH]; intros st Hok Hin; cbn [foldl]; [done|]. apply IH.
  - destruct (lo_in_use s) eqn:Eu; [|done]. apply (header_sys_ok _ _ (lo_uuid s)); [done|]. exists s. split; [apply Hin; by left|done].
  - intros x Hx. destruct (lo_in_use s); [destruct (write_header_slots mapped (lo_index s) st) as (-> & _)|]; apply Hin; by right.
Qed.

Lemma server_start_ok st lns sc c base js :
  0 <= c < 2 ^ 63 -> mem_shape (lw_mem st) -> lines_ok lns -> length sc = 8%nat ->
  (forall i u, owner_of (slots_of lns) i u -> ~ flagged sc i) ->
  (forall jb, jb ∈ js -> 0 <= jb_index jb < 8) ->
  (forall jb u, jb ∈ js -> live c (jb_phase jb) u -> owner_of (slots_of lns) (jb_index jb) u \/ flagged sc (jb_index jb)) ->
  (forall jb u t, jb ∈ js -> jb_phase jb = Ended u t -> t <= c) ->
  (forall k, filter (counted k) js = []) -> base <> 0 -> base mod VIRT_LOW_LEASE_BYTES = 0 ->
  lw_store st = lns ++ scrub_lines sc -> sys_ok (mk_sys (server_start c base st) c js None []).
Proof.
  intros Hc Hmem Hlns Hsc H1 H2 H3 H4 H5 Hb0 Hb Est. pose proof (load_spec (lw_mem st) lns sc c base Hlns Hsc Hb0 Hb) as Hl.
  rewrite <- Est in Hl. unfold server_start, virt_low_lease_arm_module.
  assert (E : fst (virt_low_lease_set_parent base (virt_low_lease_reset (lw_mem st) (lw_store st))) = 0).
  { unfold virt_low_lease_set_parent. destruct (Z.eqb_spec base 0); [done|]. by rewrite Hb. }
  destruct (virt_low_lease_set_parent base _) as [rc st1]. cbn in E, Hl. subst rc. cbn [Z.eqb snd].
  apply headers_ok; [|done]. by eapply load_ok.
Qed.

Lemma restart_ok base st c js sc ws :
  sys_ok (mk_sys st c js sc ws) -> base <> 0 -> base mod VIRT_LOW_LEASE_BYTES = 0 ->
  sys_ok (mk_sys (server_start c base st) c (flat_map (orphan c) js) None []).
Proof.
  intros [[] (lns & scr & Est & Hscr & HF & Hfree & Hunl)] Hb0 Hb. cbn in *.
  destruct (store_lines_ok _ _ ok_slots0 HF) as [Hlns Ho].
  eapply (server_start_ok st lns scr); [done|apply ok_mem0|done|done|..|done|done|done].
  - intros i u. rewrite Ho. apply Hfree.
  - intros jb Hjb. apply orphan_elem in Hjb as (u & t & _ & jb0 & H0 & <- & _). by apply (jo_range _ _ _ _ _ ok_jobs0).
  - intros jb u Hjb Hl. destruct (orphan_live _ _ _ _ Hjb Hl) as (jb0 & H0 & <- & Hl0). rewrite Ho.
    pose proof (jo_range _ _ _ _ _ ok_jobs0 jb0 H0) as Hi.
    destruct (jo_owner _ _ _ _ _ ok_jobs0 jb0 u H0 Hl0) as [|Hf]; [by left|right].
    destruct (Hunl (jb_index jb0) Hi) as [|Hq]; [|done|by destruct (Hq jb0 u H0 eq_refl)].
    intros v Hv. by destruct (fl_free _ _ _ _ ok_flags0 _ v Hv).
  - intros jb u t Hjb Ep. apply orphan_elem in Hjb as (v & t' & Ep' & jb0 & H0 & _ & [->|[_ ->]]); rewrite Ep in Ep'; injection Ep' as -> ->; [|done].
    by eapply (jo_time _ _ _ _ _ ok_jobs0).
  - intros k. apply orphan_counted.
Qed.

Lemma sys_step_ok s s' : sys_step s s' -> sys_ok s -> sys_ok s'.
Proof.
  destruct 1; intros Hok.
  - by eapply tick_ok.
  - by eapply reserve_ok.
  - by eapply wake_ok.
  - by eapply low_release_ok.
  - pose proof Hok as [[] _]. cbn in *. eapply write_ok; [done|by eapply owned_in_range|done|done|left; by exists u].
  - by apply begin_ok.
  - by eapply low_admit_ok.
  - by eapply refuse_ok.
  - by apply end_ok.
  - pose proof Hok as [[] _]. cbn in *. eapply write_ok; [done|by eapply jo_range|done|done|right; by exists jb, u].
  - by apply scrub_check_ok.
  - by eapply scrub_run_ok.
  - by apply scrub_finish_ok.
  - by eapply restart_ok.
Qed.

(** The server's first start, with whatever the slices hold and no store. *)
Definition first_start (mem : list (list Z)) (c base : Z) : system :=
  mk_sys (server_start c base (virt_low_lease_reset mem [])) c [] None [].

Definition sys_reachable (mem : list (list Z)) (base : Z) (s : system) : Prop :=
  exists c, 0 <= c < 2 ^ 63 /\ rtc sys_step (first_start mem c base) s.

Lemma first_start_ok mem c base :
  0 <= c < 2 ^ 63 -> mem_shape mem -> base <> 0 -> base mod VIRT_LOW_LEASE_BYTES = 0 -> sys_ok (first_start mem c base).
Proof.
  intros Hc Hm Hb0 Hb. eapply (server_start_ok _ [] (repeat false 8)); try done.
  - split; [cbn; lia|intros ln Hln; by apply elem_of_nil in Hln|apply NoDup_nil_2|apply NoDup_nil_2].
  - intros i u Ho Hf. by apply repeat_lookup in Hf.
  - intros jb Hjb. by apply elem_of_nil in Hjb.
  - intros jb u Hjb. by apply elem_of_nil in Hjb.
  - intros jb u t Hjb. by apply elem_of_nil in Hjb.
Qed.

Lemma sys_reachable_inv mem base s :
  mem_shape mem -> base <> 0 -> base mod VIRT_LOW_LEASE_BYTES = 0 -> sys_reachable mem base s -> sys_ok s.
Proof.
  intros Hm Hb0 Hb (c & Hc & Hr). pose proof (first_start_ok mem c base Hc Hm Hb0 Hb) as Hok.
  induction Hr as [|s1 s2 s3 Hs _ IH]; [done|]. by eapply IH, sys_step_ok.
Qed.

(** ** The scrub pass *)

(** A turn of the pass for slice [k] touches only that slice. *)
Lemma scrub_one_frame now t0 t1 mapped good save k st d st' i :
  mem_shape (lw_mem st) -> length (lw_arena st) = 8%nat -> length (lw_scrub st) = 8%nat -> 0 <= k < 8 -> 0 <= i < 8 ->
  scrub_one now t0 t1 mapped good save k st = (d, st') ->
  lw_slots st' = lw_slots st /\ mem_shape (lw_mem st') /\ length (lw_arena st') = 8%nat /\ length (lw_scrub st') = 8%nat /\
  (i <> k -> scrub_flag i st' = scrub_flag i st /\ slot_at (lw_arena st') i = slot_at (lw_arena st) i /\
             lw_mem st' !! Z.to_nat i = lw_mem st !! Z.to_nat i).
Proof.
  intros Hm Ha Hs Hk Hi. unfold scrub_one. destruct (scrub_check now k st); cbn [negb]; [|by intros [= _ <-]].
  destruct (scrub_run t0 t1 mapped good k st) as [rc st1] eqn:Er.
  apply scrub_run_spec in Er as (ss' & mem' & -> & (Hl & Hsame & _) & Hshape & Hmem & _); [|done..].
  assert (Hfin : forall st2, st2 = set_mem (set_arena st ss') mem' \/ st2 = scrub_finish save k (set_mem (set_arena st ss') mem') ->
    lw_slots st2 = lw_slots st /\ mem_shape (lw_mem st2) /\ length (lw_arena st2) = 8%nat /\ length (lw_scrub st2) = 8%nat /\
    (i <> k -> scrub_flag i st2 = scrub_flag i st /\ slot_at (lw_arena st2) i = slot_at (lw_arena st) i /\
               lw_mem st2 !! Z.to_nat i = lw_mem st !! Z.to_nat i)).
  { intros st2 [->| ->]; [split_and!; try done; intros Hne; split_and!; [done|by apply Hsame|apply Hmem; lia]|].
    unfold scrub_finish, save_locked, scrub_flag. destruct save; cbn; rewrite unquarantine_length, length_insert; (split_and!; try done; intros Hne;
      rewrite list_lookup_insert_ne by lia; rewrite unquarantine_at, decide_False by done; split_and!; [done|by apply Hsame|apply Hmem; lia]). }
  destruct rc; intros [= _ <-]; apply Hfin; auto.
Qed.

(** A turn for a slice that is due frees it zeroed, or leaves it waiting; it frees it when the slice can be mapped
    and its bytes read back as written. *)
Lemma scrub_one_frees now t0 t1 mapped good save i st d st' :
  mem_shape (lw_mem st) -> length (lw_arena st) = 8%nat -> length (lw_scrub st) = 8%nat -> 0 <= i < 8 ->
  scrub_check now i st = true -> scrub_one now t0 t1 mapped good save i st = (d, st') ->
  let freed := scrub_flag i st' = false /\ so_quarantined (slot_at (lw_arena st') i) = false /\ zeroed (lw_mem st') i in
  (freed \/ scrub_flag i st' = true) /\ (mapped = true -> (forall k, good k = true) -> freed).
Proof.
  intros Hm Ha Hs Hi Hc. unfold scrub_one. rewrite Hc. cbn [negb]. destruct (scrub_run t0 t1 mapped good i st) as [rc st1] eqn:Er.
  pose proof Er as Er'. apply scrub_run_spec in Er' as (ss' & mem' & -> & (Hl & _) & _ & _ & Hz); [|done..].
  assert (Hrc : mapped = true -> (forall k, good k = true) -> rc = 0).
  { intros -> Hg. revert Er. unfold scrub_run, virt_slice_arena_scrub, slice_map. rewrite (proj2 (in_range_iff i)) by done. cbn [negb].
    destruct Hm as [Hml Hm]. destruct (lookup_lt_is_Some_2 (lw_mem st) (Z.to_nat i)) as [m Em]; [lia|]. rewrite Em.
    destruct (Hm m) as [_ H8]; [by eapply list_elem_of_lookup_2|].
    rewrite (proj2 (scrub_zeroes m (zero_bytes good m) good H8 eq_refl)); [by intros [= <- _]|].
    unfold zero_bytes. apply Forall_lookup. intros k b Hb. rewrite list_lookup_imap in Hb.
    destruct (m !! k); [|done]. cbn in Hb. rewrite Hg in Hb. by injection Hb as <-. }
  assert (Hf : scrub_flag i st = true) by (unfold scrub_check in Hc; by bool_hyps).
  destruct (decide (rc = 0)) as [->|Hn].
  - intros [= _ <-]. cbn zeta. unfold scrub_finish, save_locked, scrub_flag.
    destruct save; cbn; (rewrite list_lookup_insert_eq by lia; rewrite unquarantine_at, decide_True by done; specialize (Hz eq_refl); tauto).
  - assert (E : forall x : Z * low_state, match rc with 0 => x | _ => (0, set_mem (set_arena st ss') mem') end = (0, set_mem (set_arena st ss') mem'))
      by (intros x; by destruct rc).
    rewrite E. intros [= _ <-]. split; [by right|]. intros Hmap Hg. by destruct Hn, Hrc.
Qed.

Definition pass_over (now t0 t1 : Z) (mapped : bool) (good : Z -> nat -> bool) (save : bool) (l : list nat) (a : Z * low_state) : Z * low_state :=
  foldl (fun '(done, st) i => let '(d, st') := scrub_one now t0 t1 mapped (good (Z.of_nat i)) save (Z.of_nat i) st in (done + d, st')) a l.

(** What a pass over the slices of [l] does to slice [i]. *)
Lemma pass_over_spec now t0 t1 mapped good save l n st i :
  mem_shape (lw_mem st) -> length (lw_arena st) = 8%nat -> length (lw_scrub st) = 8%nat -> 0 <= i < 8 ->
  NoDup l -> (forall k, k ∈ l -> (k < 8)%nat) ->
  let st' := snd (pass_over now t0 t1 mapped good save l (n, st)) in
  let freed := scrub_flag i st' = false /\ so_quarantined (slot_at (lw_arena st') i) = false /\ zeroed (lw_mem st') i in
  mem_shape (lw_mem st') /\ length (lw_arena st') = 8%nat /\ length (lw_scrub st') = 8%nat /\ lw_slots st' = lw_slots st /\
  (Z.to_nat i ∈ l -> scrub_check now i st = true ->
     (freed \/ scrub_flag i st' = true) /\ (mapped = true -> (forall k, good i k = true) -> freed)) /\
  (Z.to_nat i ∉ l \/ scrub_check now i st = false ->
     scrub_flag i st' = scrub_flag i st /\ slot_at (lw_arena st') i = slot_at (lw_arena st) i /\ lw_mem st' !! Z.to_nat i = lw_mem st !! Z.to_nat i).
Proof.
  revert n st. induction l as [|k l IH]; intros n st Hm Ha Hs Hi Hnd Hl; cbn zeta.
  { cbn. split_and!; try done. intros H. by apply elem_of_nil in H. }
  apply NoDup_cons in Hnd as [Hk Hnd]. pose proof (Hl k ltac:(by left)) as Hk8. unfold pass_over. cbn [foldl].
  destruct (scrub_one now t0 t1 mapped (good (Z.of_nat k)) save (Z.of_nat k) st) as [d st1] eqn:E1.
  pose proof E1 as E1'. apply (scrub_one_frame _ _ _ _ _ _ _ _ _ _ i Hm Ha Hs) in E1' as (F1 & F2 & F3 & F4 & F5); [|lia|done].
  destruct (IH (n + d) st1 F2 F3 F4 Hi Hnd ltac:(intros x Hx; apply Hl; by right)) as (I1 & I2 & I3 & I4 & I5 & I6).
  fold (pass_over now t0 t1 mapped good save l (n + d, st1)) in *. set (st' := snd (pass_over now t0 t1 mapped good save l (n + d, st1))) in *.
  assert (Hcheck : i <> Z.of_nat k -> scrub_check now i st1 = scrub_check now i st).
  { intros Hne. destruct (F5 Hne) as (G1 & G2 & _). unfold scrub_check, index_leased. rewrite G1, F1. f_equal.
    unfold virt_slice_arena_scrub_due. by rewrite G2. }
  split; [done|]. split; [done|]. split; [done|]. split; [congruence|]. split.
  - intros Hin Hc. destruct (decide (i = Z.of_nat k)) as [->|Hne].
    + pose proof (scrub_one_frees _ _ _ _ _ _ _ _ _ _ Hm Ha Hs Hi Hc E1) as G. cbn zeta in G.
      destruct I6 as (J1 & J2 & J3); [left; by rewrite Nat2Z.id|]. rewrite J1, J2.
      assert (Hz : zeroed (lw_mem st1) (Z.of_nat k) -> zeroed (lw_mem st') (Z.of_nat k)) by (intros H; by eapply zeroed_frame).
      destruct G as [G1 G2]. split; [destruct G1 as [(? & ? & ?)|?]; [left; auto|by right]|]. intros M1 M2. destruct (G2 M1 M2) as (? & ? & ?). auto.
    + apply I5; [|by rewrite Hcheck]. apply elem_of_cons in Hin as [E|]; [lia|done].
  - intros H. destruct (decide (i = Z.of_nat k)) as [->|Hne].
    + destruct H as [H|H]; [destruct H; rewrite Nat2Z.id; by left|]. unfold scrub_one in E1. rewrite H in E1. cbn in E1. injection E1 as _ <-.
      apply I6. by right.
    + destruct (F5 Hne) as (<- & <- & <-). apply I6. rewrite Hcheck by done. destruct H as [H|H]; [|by right]. left.
      intros Hin. apply H. by right.
Qed.

Lemma slots_of_header mapped i st : lw_slots (write_header mapped i st) = lw_slots st.
Proof. apply write_header_slots. Qed.

(** * Theorems *)

Definition demo_mem : list (list Z) := repeat (repeat 7 64) 8.
Definition demo_base : Z := 0x40000000.
Definition env_ok : lease_env := mk_lenv true true.
Definition uuid_a : string := "aa".
Definition uuid_b : string := "bb".

(** A server that started and scrubbed every slice. *)
Definition scrubbed (c : Z) (st : low_state) : low_state := snd (virt_low_lease_scrub_pass c c c true (fun _ _ => true) true st).
Definition fresh_server : low_state := scrubbed 9000 (server_start 9000 demo_base (virt_low_lease_reset demo_mem [])).

Lemma demo_mem_shape : mem_shape demo_mem.
Proof.
  split; [done|]. intros m Hm. apply list_elem_of_lookup in Hm as [k Hk]. apply repeat_lookup in Hk as ->. by split; [cbn; lia|].
Qed.

(** C9: Through any order of reserves, releases, scrubs, guest writes, jobs, time and restarts of the server, with
    or without failures to write the store or to map a slice: an index and an owner are leased at most once,
    every binding is that of a lease, the counts of jobs in flight are exact, a slice that waits for its scrub
    is quarantined and not leased, and a slice that is neither leased nor waiting holds only zeroes. *)
Theorem low_reachable_ok mem base s :
  mem_shape mem -> base <> 0 -> base mod VIRT_LOW_LEASE_BYTES = 0 -> sys_reachable mem base s -> sys_ok s.
Proof. apply sys_reachable_inv. Qed.

Lemma low_reachable_ok_witness : sys_ok (first_start demo_mem 9000 demo_base).
Proof.
  apply (low_reachable_ok demo_mem demo_base); [apply demo_mem_shape|done|done|]. exists 9000. split; [lia|apply rtc_refl].
Defined.

(** What a grant of the lowest free index gives. *)
Lemma grant_fresh s env u cid r st' :
  sys_ok s -> grant env u cid (pick_index (sy_low s)) (sy_low s) = (r, st') ->
  match r with
  | OK_LEASE i e => 0 <= i < 8 /\ (forall v, ~ owner_of (lw_slots (sy_low s)) i v) /\ zeroed (lw_mem (sy_low s)) i /\
                    quiet (sy_clk s) (sy_jobs s) i /\ owner_of (lw_slots st') i u
  | _ => True
  end.
Proof.
  intros [Hok _]. unfold grant. destruct (pick_index (sy_low s)) as [k|] eqn:Ep; [|by intros [= <- _]].
  destruct (pick_index_Some _ _ Ep) as [Hk Ht]. destruct (not_taken _ _ Hk Ht) as [Hno Hnf].
  destruct (find_idx _ _) as [j|] eqn:Ej; [|by intros [= <- _]]. unfold save_locked. destruct (le_save env); [|by intros [= <- _]].
  intros [= <- <-]. apply find_idx_Some in Ej as (s0 & Hj & _). destruct Hok.
  split; [done|]. split; [done|]. split; [by apply ok_mem0|]. split; [by eapply idle_quiet|].
  rewrite slots_of_header, slots_of_bind. cbn.
  exists (mk_low true u k (lw_next_epoch (sy_low s)) cid). split; [|done].
  apply (list_elem_of_lookup_2 _ j), list_lookup_insert_eq. by eapply lookup_lt_Some.
Qed.

(** The two places where a reserve is answered: at once, or after its sleep. *)
Inductive answered := AtOnce | AfterWait (timedout : bool).

Definition reserve_at (w : answered) (env : lease_env) (u : string) (cid : Z) (st : low_state) : option reply * low_state :=
  match w with AtOnce => reserve_locked env u cid st | AfterWait timedout => reserve_wake env timedout u cid st end.

(** C20: A reserve that gives an owner a new lease, at once, after it slept until a scrub was done, or at the timeout of
    its sleep, gives it a slice that nobody leased, whose bytes are all zero and that no job of anybody can still write.
    A lease is new when the owner had none; at the timeout, which does not look for a lease of the owner, always. *)
Theorem fresh_lease_zeroed mem base s w env u cid i e st' :
  mem_shape mem -> base <> 0 -> base mod VIRT_LOW_LEASE_BYTES = 0 -> sys_reachable mem base s ->
  (w <> AfterWait true -> find_uuid u (sy_low s) = None) -> reserve_at w env u cid (sy_low s) = (Some (OK_LEASE i e), st') ->
  0 <= i < 8 /\ (forall v, ~ owner_of (lw_slots (sy_low s)) i v) /\ zeroed (lw_mem (sy_low s)) i /\
  quiet (sy_clk s) (sy_jobs s) i /\ owner_of (lw_slots st') i u.
Proof.
  intros Hm Hb0 Hb Hr Hnew. apply (sys_reachable_inv _ _ _ Hm Hb0 Hb) in Hr as Hok.
  assert (Hg : forall r st1, grant env u cid (pick_index (sy_low s)) (sy_low s) = (r, st1) -> Some r = Some (OK_LEASE i e) -> st1 = st' ->
    0 <= i < 8 /\ (forall v, ~ owner_of (lw_slots (sy_low s)) i v) /\ zeroed (lw_mem (sy_low s)) i /\
    quiet (sy_clk s) (sy_jobs s) i /\ owner_of (lw_slots st') i u).
  { intros r st1 E [= ->] ->. exact (grant_fresh s env u cid (OK_LEASE i e) st' Hok E). }
  assert (Htry : reserve_try env u cid (sy_low s) = (Some (OK_LEASE i e), st') ->
    exists r st1, grant env u cid (pick_index (sy_low s)) (sy_low s) = (r, st1) /\ Some r = Some (OK_LEASE i e) /\ st1 = st').
  { unfold reserve_try. destruct (pick_index (sy_low s)); [|destruct (_ && _); [done|]];
      (destruct (grant _ _ _ _ _) as [r st1]; intros [= -> ->]; by eexists _, _). }
  destruct w as [|timedout]; cbn [reserve_at].
  - unfold reserve_locked. destruct (negb (lw_ready _)); [done|]. destruct (_ || _); [done|]. rewrite Hnew by done.
    destruct (lw_next_epoch _ =? 0); [done|]. intros (r & st1 & E1 & E2 & E3)%Htry. by eapply Hg.
  - unfold reserve_wake. destruct timedout.
    + destruct (grant _ _ _ _ _) as [r st1] eqn:E. intros [= H1 H2]. eapply Hg; [reflexivity|by f_equal|done].
    + rewrite Hnew by done. cbn. intros (r & st1 & E1 & E2 & E3)%Htry. by eapply Hg.
Qed.

(** Slice 0 scrubbed and free after the first start. *)
Definition first_started : low_state := server_start 9000 demo_base (virt_low_lease_reset demo_mem []).
Definition zero_run : Z * low_state := scrub_run 9000 9000 true (fun _ => true) 0 first_started.
Definition scrubbed_zero : low_state := scrub_finish true 0 (snd zero_run).

#[local] Opaque server_start scrub_run scrub_finish reserve_locked reserve_wake.

Lemma first_due : scrub_check 9000 0 first_started = true.
Proof. vm_compute. reflexivity. Qed.

Lemma zero_run_rc : fst zero_run = 0.
Proof. vm_compute. reflexivity. Qed.

Lemma zero_run_eq : scrub_run 9000 9000 true (fun _ => true) 0 first_started = (0, snd zero_run).
Proof. rewrite <- zero_run_rc. apply surjective_pairing. Qed.

Lemma scrubbed_zero_reachable : sys_reachable demo_mem demo_base (mk_sys scrubbed_zero 9000 [] None []).
Proof.
  exists 9000. split; [lia|]. unfold first_start. fold first_started.
  eapply rtc_l; [exact (ss_scrub_check 0 first_started 9000 [] [] ltac:(lia) first_due)|].
  eapply rtc_l; [exact (ss_scrub_run 0 9000 9000 true (fun _ => true) first_started 9000 [] [] 0 (snd zero_run) zero_run_eq)|].
  eapply rtc_l; [exact (ss_scrub_finish 0 true (snd zero_run) 9000 [] [])|apply rtc_refl].
Qed.

Lemma fresh_lease_zeroed_witness :
  zeroed (lw_mem scrubbed_zero) 0 /\ owner_of (lw_slots (snd (reserve_wake env_ok true uuid_a 5 scrubbed_zero))) 0 uuid_a.
Proof.
  destruct (fresh_lease_zeroed demo_mem demo_base (mk_sys scrubbed_zero 9000 [] None []) (AfterWait true) env_ok uuid_a 5 0 1
              (snd (reserve_wake env_ok true uuid_a 5 scrubbed_zero)) demo_mem_shape ltac:(done) ltac:(reflexivity) scrubbed_zero_reachable
              ltac:(vm_compute; reflexivity) ltac:(vm_compute; reflexivity)) as (_ & _ & H1 & _ & H2).
  split; [exact H1|exact H2].
Defined.

(** While a slice is leased, every job that may still write it was admitted for its present owner: no job of an
    earlier owner outlives the quarantine, not even across a restart of the server. *)
Theorem foreign_job_excluded mem base s jb u v :
  mem_shape mem -> base <> 0 -> base mod VIRT_LOW_LEASE_BYTES = 0 -> sys_reachable mem base s ->
  jb ∈ sy_jobs s -> live (sy_clk s) (jb_phase jb) u -> owner_of (lw_slots (sy_low s)) (jb_index jb) v -> u = v.
Proof.
  intros Hm Hb0 Hb Hr Hjb Hl Hv. apply (sys_reachable_inv _ _ _ Hm Hb0 Hb) in Hr as [[] _].
  destruct (jo_owner _ _ _ _ _ ok_jobs0 jb u Hjb Hl) as [Hu|Hf]; [|by destruct (fl_free _ _ _ _ ok_flags0 _ v Hv)].
  destruct Hu as (s1 & Hs1 & U1 & I1 & <-), Hv as (s2 & Hs2 & U2 & I2 & <-).
  apply list_elem_of_lookup in Hs1 as [j Hj], Hs2 as [k Hk]. assert (j = k) as <- by (eapply (sl_index _ ok_slots0); [done..|congruence]).
  congruence.
Qed.

(** Slice 0 leased, with a job running on it. *)
Definition leased_zero : low_state := snd (reserve_locked env_ok uuid_a 5 scrubbed_zero).
Definition with_job (st : low_state) : low_state := set_arena st (snd (virt_slice_arena_begin 0 (lw_arena st))).

Lemma leased_zero_eq : reserve_locked env_ok uuid_a 5 scrubbed_zero = (Some (OK_LEASE 0 1), leased_zero).
Proof. vm_compute. reflexivity. Qed.

Lemma begin_zero_eq : virt_slice_arena_begin 0 (lw_arena leased_zero) = (0, snd (virt_slice_arena_begin 0 (lw_arena leased_zero))).
Proof. vm_compute. reflexivity. Qed.

Lemma inflight_zero : so_inflight (slot_at (lw_arena leased_zero) 0) + 1 < 2 ^ 32.
Proof. vm_compute. reflexivity. Qed.

Lemma held_zero : iav_slice_rpc_held 5 (lw_binds (with_job leased_zero)) = inr (0, VIRT_LOW_LEASE_USABLE).
Proof. vm_compute. reflexivity. Qed.

Lemma owner_zero : owner_of (lw_slots (with_job leased_zero)) 0 uuid_a.
Proof. exists (mk_low true uuid_a 0 1 5). split; [|done]. apply (list_elem_of_lookup_2 _ 0). vm_compute. reflexivity. Qed.

Definition job_zero : job := mk_job 0 (Running uuid_a).

Lemma with_job_reachable : sys_reachable demo_mem demo_base (mk_sys (with_job leased_zero) 9000 [job_zero] None []).
Proof.
  destruct scrubbed_zero_reachable as (c & Hc & Hr). exists c. split; [exact Hc|]. eapply rtc_trans; [exact Hr|].
  eapply rtc_l; [exact (ss_reserve env_ok uuid_a 5 scrubbed_zero 9000 [] None [] _ leased_zero leased_zero_eq)|].
  eapply rtc_l; [exact (ss_begin 0 5 leased_zero 9000 [] None [] _ begin_zero_eq inflight_zero)|].
  eapply rtc_l; [exact (ss_admit 0 5 uuid_a _ [] [] (with_job leased_zero) 9000 None [] held_zero owner_zero)|apply rtc_refl].
Qed.

Lemma foreign_job_excluded_witness : exists v, owner_of (lw_slots (with_job leased_zero)) 0 v /\ uuid_a = v.
Proof.
  exists uuid_a. split; [exact owner_zero|].
  exact (foreign_job_excluded demo_mem demo_base (mk_sys (with_job leased_zero) 9000 [job_zero] None []) job_zero uuid_a uuid_a
    demo_mem_shape ltac:(done) ltac:(reflexivity) with_job_reachable ltac:(by left) ltac:(by left) owner_zero).
Defined.

(** C34: A pass of the scrubber visits every slice that waits for its scrub, has no job in flight and whose quarantine
    is over. When the slice can be mapped and its bytes read back as they were written ([mapped] and [good i]), it is
    zeroed and can be leased again; when mapping or reading back fails, it is freed only if it is zeroed all the same,
    and otherwise goes on waiting. Leased slices keep their bytes. Whether the store is written does not matter. *)
Theorem scrub_pass_frees mem base s t0 t1 mapped good save i :
  mem_shape mem -> base <> 0 -> base mod VIRT_LOW_LEASE_BYTES = 0 -> sys_reachable mem base s ->
  0 <= i < 8 ->
  let st := sy_low s in
  let st' := snd (virt_low_lease_scrub_pass (sy_clk s) t0 t1 mapped good save st) in
  (scrub_flag i st = true -> (forall jb, jb ∈ sy_jobs s -> ~ counted i jb) ->
   Z.max (so_released_ms (slot_at (lw_arena st) i)) (so_last_end_ms (slot_at (lw_arena st) i)) + VIRT_SLICE_QUARANTINE_MS <= sy_clk s ->
   (index_taken i st' = false /\ zeroed (lw_mem st') i \/ index_leased i st' = false /\ scrub_flag i st' = true) /\
   (mapped = true -> (forall k, good i k = true) -> index_taken i st' = false /\ zeroed (lw_mem st') i)) /\
  (index_leased i st = true -> lw_mem st' !! Z.to_nat i = lw_mem st !! Z.to_nat i).
Proof.
  intros Hm Hb0 Hb Hr Hi st st'. apply (sys_reachable_inv _ _ _ Hm Hb0 Hb) in Hr as [[] _].
  destruct (pass_over_spec (sy_clk s) t0 t1 mapped good save (seq 0 8) 0 st i) as (_ & _ & _ & Esl & Hfree & Hkeep);
    [apply ok_mem0|apply ok_flags0|done|done|apply NoDup_seq|intros k Hk; apply elem_of_seq in Hk; lia|].
  change (pass_over (sy_clk s) t0 t1 mapped good save (seq 0 8) (0, st)) with (virt_low_lease_scrub_pass (sy_clk s) t0 t1 mapped good save st) in *.
  fold st' in Esl, Hfree, Hkeep. pose proof (fl_stamps _ _ _ _ ok_flags0 i Hi) as Hst. split.
  - intros Hf Hjobs Htime. pose proof (proj1 (scrub_flag_iff i st) Hf) as Hfl.
    assert (Hnl : index_leased i st = false).
    { apply not_true_iff_false. rewrite index_leased_iff. intros [u Hu]. by destruct (fl_free _ _ _ _ ok_flags0 i u Hu). }
    assert (Hnl' : index_leased i st' = false) by (unfold index_leased in *; by rewrite Esl).
    assert (Htk : index_taken i st' = scrub_flag i st').
    { unfold index_taken. rewrite Hnl'. cbn [orb]. rewrite (proj2 (Z.ltb_lt _ _)) by (unfold VIRT_LOW_LEASE_COUNT; lia). done. }
    destruct Hfree as [G1 G2]; [apply elem_of_seq; lia| |].
    + unfold scrub_check. rewrite Hf, Hnl. unfold virt_slice_arena_scrub_due. rewrite (proj2 (in_range_iff i)) by done. cbn [negb andb].
      fold st in ok_flags0, ok_jobs0. rewrite (fl_quarantined _ _ _ _ ok_flags0 i Hi Hfl), (jo_count _ _ _ _ _ ok_jobs0 i Hi).
      destruct (filter (counted i) (sy_jobs s)) as [|jb l] eqn:E.
      2:{ exfalso. assert (Hin : jb ∈ filter (counted i) (sy_jobs s)) by (rewrite E; by left).
          apply list_elem_of_filter in Hin as [Hc Hin]. by destruct (Hjobs jb Hin). }
      unfold VIRT_SLICE_QUARANTINE_MS in *. cbn [length Z.of_nat Z.eqb andb]. rewrite Z.gtb_ltb, Z.geb_leb. fold st in Hst.
      destruct (Z.ltb_spec (so_last_end_ms (slot_at (lw_arena st) i)) (so_released_ms (slot_at (lw_arena st) i))); rewrite u64_id by lia;
        by rewrite (proj2 (Z.leb_le _ _)) by lia.
    + rewrite Htk. split; [tauto|]. intros M1 M2. destruct (G2 M1 M2) as (? & _ & ?). done.
  - intros Hl. apply Hkeep. right. unfold scrub_check. by rewrite Hl, andb_false_r.
Qed.

Lemma scrub_pass_frees_witness :
  let s := first_start demo_mem 9000 demo_base in
  index_taken 3 (snd (virt_low_lease_scrub_pass 9000 9000 9000 true (fun _ _ => true) true (sy_low s))) = false.
Proof.
  apply (scrub_pass_frees demo_mem demo_base (first_start demo_mem 9000 demo_base) 9000 9000 true (fun _ _ => true) true 3);
    [apply demo_mem_shape|done|reflexivity|exists 9000; split; [lia|apply rtc_refl]|lia|vm_compute; reflexivity| |vm_compute; discriminate|done|done].
  intros jb Hjb. by apply elem_of_nil in Hjb.
Defined.

(** ** Executions that show a limit of the code *)

(** Reserve, release, scrub, restart, reserve again by the same owner. *)
Definition leased_once : low_state := snd (reserve_locked env_ok uuid_a 5 fresh_server).
Definition released_once : low_state := scrubbed 18000 (snd (release_locked env_ok 9000 uuid_a 1 leased_once)).
Definition restarted : low_state := scrubbed 27000 (server_start 20000 demo_base released_once).

(** The counter of epochs is rebuilt from the leases in the store alone. Once they are all released, a restart
    begins at epoch 1 again, and the release of the first lease, sent late, ends the second. *)
Theorem epoch_reused_after_restart :
  fst (reserve_locked env_ok uuid_a 5 fresh_server) = Some (OK_LEASE 0 1) /\
  fst (release_locked env_ok 9000 uuid_a 1 leased_once) = OK /\
  fst (reserve_locked env_ok uuid_a 6 restarted) = Some (OK_LEASE 0 1) /\
  fst (release_locked env_ok 27000 uuid_a 1 (snd (reserve_locked env_ok uuid_a 6 restarted))) = OK.
Proof. vm_compute. split_and!; reflexivity. Qed.

(** A second reserve of an owner, from another guest id, whose store cannot be written: the answer is an error,
    the old guest id has lost its slice and the new one has none, and the lease names the new guest id. *)
Theorem rebind_persist_failure :
  let '(r, st) := reserve_locked (mk_lenv false true) uuid_a 6 leased_once in
  r = Some ERR_PERSIST /\ iav_slice_rpc_held 5 (lw_binds leased_once) = inr (0, VIRT_LOW_LEASE_USABLE) /\
  iav_slice_rpc_held 5 (lw_binds st) = inl (- ENOENT) /\ iav_slice_rpc_held 6 (lw_binds st) = inl (- ENOENT) /\
  (lo_cid <$> lw_slots st !! 0%nat) = Some 6.
Proof. vm_compute. split_and!; reflexivity. Qed.
