(* ===== verification/MemPool.v ===== *)
(** * Tenant memory pool: the extent manager of the server

    Models drivers/amba_virt/tools/virt_mem_pool.c: the table of tenants, each with a BAR, a quota, the
    partitions its virtual devices negotiated and the extents it allocated. The global table and the
    mutexes are one explicit state: each operation is one critical section of the source. A search loop
    of the source carries fuel; [None] stands for a loop that has not stopped when the fuel runs out, and
    the theorems of MemPoolProps show that the fuel given here (one more than the number of slots) is
    enough for every well-formed pool. *)

From Stdlib Require Import ZArith Lia Bool.
From stdpp Require Import base list numbers.
From S2P Require Import Prelude.

Module MemPool.

Definition VIRT_MEM_DEFAULT_BAR_SIZE : Z := 0x40000000.
Definition VIRT_MEM_MAX_TENANTS : nat := 8.
Definition VIRT_MEM_MAX_DEVICES : nat := 8.
Definition VIRT_MEM_MAX_EXTENTS : nat := 32.

(** ** UAPI constants and messages (include/uapi/amba_virt.h) *)

Definition AMBA_VIRT_DEV_TYPE_NONE : Z := 0.
Definition AMBA_VIRT_DEV_TYPE_CAVALRY : Z := 1.
Definition AMBA_VIRT_DEV_TYPE_GDMA : Z := 2.
Definition AMBA_VIRT_DEV_TYPE_IAV : Z := 3.
Definition AMBA_VIRT_DEV_TYPE_SCRATCH : Z := 4.
Definition AMBA_VIRT_MAX_DEV_TYPES : Z := 8.
Definition AMBA_VIRT_OFFSET_AUTO : Z := 0xFFFFFFFF.

Definition AMBA_VIRT_DEV_F_BEST_EFFORT : Z := 2.
Definition AMBA_VIRT_DEV_F_REPLACE : Z := 4.
Definition AMBA_VIRT_DEV_F_ZERO_INIT : Z := 8.

Definition AMBA_VIRT_ERR_NONE : Z := 0.
Definition AMBA_VIRT_ERR_QUOTA_EXCEEDED : Z := 2.
Definition AMBA_VIRT_ERR_HOST_OOM : Z := 3.
Definition AMBA_VIRT_ERR_OFFSET_COLLISION : Z := 4.
Definition AMBA_VIRT_ERR_DEV_ALREADY_REG : Z := 5.
Definition AMBA_VIRT_ERR_INVALID_ALIGN : Z := 6.
Definition AMBA_VIRT_ERR_UNKNOWN_DEVICE : Z := 7.
Definition AMBA_VIRT_ERR_BAR_OVERFLOW : Z := 8.

(** [flags & bit] as a condition. *)
Definition has_flag (flags bit : Z) : bool := negb (Z.land flags bit =? 0).

(** struct amba_virt_dev_bounds_req *)
Record amba_virt_dev_bounds_req := mk_breq {
  bq_dev_type : Z;
  bq_requested_size : Z;
  bq_preferred_offset : Z;
  bq_rpc_arena_size : Z;
  bq_align : Z;
  bq_flags : Z;
}.

(** struct amba_virt_dev_bounds_resp *)
Record amba_virt_dev_bounds_resp := mk_bresp {
  bp_status : Z;
  bp_err_code : Z;
  bp_granted_offset : Z;
  bp_granted_size : Z;
  bp_rpc_arena_offset : Z;
  bp_max_avail_size : Z;
  bp_suggested_offset : Z;
  bp_colliding_dev : Z;
}.

(** struct amba_virt_mem_req *)
Record amba_virt_mem_req := mk_mreq {
  mq_op : Z;
  mq_size : Z;
  mq_align : Z;
  mq_dev_affinity : Z;
  mq_bar_offset : Z;
  mq_flags : Z;
}.

(** struct amba_virt_mem_resp *)
Record amba_virt_mem_resp := mk_mresp {
  mp_status : Z;
  mp_bar_offset : Z;
  mp_allocated_size : Z;
  mp_phys_addr : Z;
  mp_total_allocated : Z;
  mp_total_free : Z;
}.

(** A refusal: a zeroed response with a status, a reason, and the hints the branch fills in. *)
Definition bounds_refusal (status err avail suggested colliding : Z) : amba_virt_dev_bounds_resp :=
  mk_bresp status err 0 0 0 avail suggested colliding.

Definition mem_refusal (status total_allocated total_free : Z) : amba_virt_mem_resp :=
  mk_mresp status 0 0 0 total_allocated total_free.

(** ** State *)

(** struct virt_dev_partition *)
Record virt_dev_partition := mk_dev {
  dp_dev_type : Z;
  dp_base_offset : Z;
  dp_size : Z;
  dp_rpc_arena_offset : Z;
  dp_rpc_arena_size : Z;
  dp_flags : Z;
  dp_in_use : bool;
}.

(** struct virt_mem_extent *)
Record virt_mem_extent := mk_ext {
  me_offset : Z;
  me_size : Z;
  me_dev_type : Z;
  me_flags : Z;
  me_in_use : bool;
}.

(** struct virt_tenant_pool *)
Record virt_tenant_pool := mk_pool {
  tp_cid : Z;
  tp_tenant_idx : Z;
  tp_bar_size : Z;
  tp_quota_min : Z;
  tp_quota_max : Z;
  tp_allocated_bytes : Z;
  tp_high_water_mark : Z;
  tp_devices : list virt_dev_partition;
  tp_extents : list virt_mem_extent;
  tp_in_use : bool;
}.

(** The globals of virt_mem_pool.c. *)
Record pool_state := mk_state {
  g_tenant_pools : list virt_tenant_pool;
  g_default_bar_size : Z;
  g_pool_initialized : bool;
}.

Definition set_pools (st : pool_state) (ps : list virt_tenant_pool) : pool_state :=
  mk_state ps (g_default_bar_size st) (g_pool_initialized st).

Definition dev_zero : virt_dev_partition := mk_dev 0 0 0 0 0 0 false.
Definition ext_zero : virt_mem_extent := mk_ext 0 0 0 0 false.

Definition dev_clear (d : virt_dev_partition) : virt_dev_partition :=
  mk_dev (dp_dev_type d) (dp_base_offset d) (dp_size d) (dp_rpc_arena_offset d) (dp_rpc_arena_size d)
         (dp_flags d) false.

Definition ext_clear (e : virt_mem_extent) : virt_mem_extent :=
  mk_ext (me_offset e) (me_size e) (me_dev_type e) (me_flags e) false.

(** ** Lifecycle and tenant table *)

(** virt_mem_pool_init *)
Definition virt_mem_pool_init (default_bar_size : Z) (st : pool_state) : Z * pool_state :=
  let bar := if default_bar_size >? 0 then default_bar_size else g_default_bar_size st in
  let entry := mk_pool 0 0 bar 0 bar 0 0 (repeat dev_zero VIRT_MEM_MAX_DEVICES)
                       (repeat ext_zero VIRT_MEM_MAX_EXTENTS) false in
  (0, mk_state (repeat entry VIRT_MEM_MAX_TENANTS) bar true).

(** virt_mem_pool_cleanup *)
Definition virt_mem_pool_cleanup (st : pool_state) : pool_state :=
  let entry := mk_pool 0 0 0 0 0 0 0 (repeat dev_zero VIRT_MEM_MAX_DEVICES)
                       (repeat ext_zero VIRT_MEM_MAX_EXTENTS) false in
  mk_state (repeat entry VIRT_MEM_MAX_TENANTS) (g_default_bar_size st) false.

(** pool_entry_release_locked, on the entry *)
Definition pool_entry_release_locked (p : virt_tenant_pool) : virt_tenant_pool :=
  mk_pool (tp_cid p) (tp_tenant_idx p) (tp_bar_size p) (tp_quota_min p) (tp_quota_max p) 0
          (tp_high_water_mark p) (map dev_clear (tp_devices p)) (map ext_clear (tp_extents p)) false.

(** [g_tenant_pools[i].in_use && g_tenant_pools[i].cid == cid] *)
Definition entry_of (cid : Z) (p : virt_tenant_pool) : bool := tp_in_use p && (tp_cid p =? cid).

(** virt_mem_pool_register_tenant *)
Definition virt_mem_pool_register_tenant (cid tenant_idx bar_size quota_max : Z) (st : pool_state)
    : Z * pool_state :=
  if negb (g_pool_initialized st) then (- EINVAL, st)
  else
    let ps := map (fun p => if tp_in_use p && negb (tp_cid p =? cid) && (tp_tenant_idx p =? tenant_idx)
                            then pool_entry_release_locked p else p) (g_tenant_pools st) in
    match find_idx (entry_of cid) ps with
    | Some i =>
        (0, set_pools st
              (alter (fun p =>
                 mk_pool (tp_cid p) tenant_idx
                         (if bar_size >? 0 then bar_size else tp_bar_size p) (tp_quota_min p)
                         (if quota_max >? 0 then quota_max else tp_quota_max p)
                         (tp_allocated_bytes p) (tp_high_water_mark p) (tp_devices p) (tp_extents p)
                         (tp_in_use p)) i ps))
    | None =>
        match find_idx (fun p => negb (tp_in_use p)) ps with
        | Some i =>
            let bar := if bar_size >? 0 then bar_size else g_default_bar_size st in
            (0, set_pools st
                  (alter (fun p =>
                     mk_pool cid tenant_idx bar 0 (if quota_max >? 0 then quota_max else bar) 0 0
                             (tp_devices p) (tp_extents p) true) i ps))
        | None => (- ENOSPC, set_pools st ps)
        end
    end.

(** virt_mem_pool_unregister_tenant *)
Definition virt_mem_pool_unregister_tenant (cid : Z) (st : pool_state) : Z * pool_state :=
  match find_idx (entry_of cid) (g_tenant_pools st) with
  | Some i => (0, set_pools st (alter pool_entry_release_locked i (g_tenant_pools st)))
  | None => (- ENOENT, st)
  end.

(** virt_mem_pool_get_tenant: the index of the tenant's entry, [None] for NULL. *)
Definition virt_mem_pool_get_tenant (cid : Z) (st : pool_state) : option nat :=
  if negb (g_pool_initialized st) then None else find_idx (entry_of cid) (g_tenant_pools st).

(** The tenant's entry and its index. *)
Definition tenant_entry (cid : Z) (st : pool_state) : option (nat * virt_tenant_pool) :=
  match virt_mem_pool_get_tenant cid st with
  | Some i => match g_tenant_pools st !! i with Some p => Some (i, p) | None => None end
  | None => None
  end.

Definition put_entry (i : nat) (p : virt_tenant_pool) (st : pool_state) : pool_state :=
  set_pools st (<[i := p]> (g_tenant_pools st)).

(** virt_mem_pool_set_quota *)
Definition virt_mem_pool_set_quota (cid quota_mb : Z) (st : pool_state) : Z * pool_state :=
  let quota_bytes := u64 (quota_mb * 1024 * 1024) in
  match tenant_entry cid st with
  | None => (- ENOENT, st)
  | Some (i, p) =>
      if quota_bytes >? tp_bar_size p then (- ERANGE, st)
      else
        (0, put_entry i (mk_pool (tp_cid p) (tp_tenant_idx p) (tp_bar_size p) (tp_quota_min p)
                                 (u32 quota_bytes) (tp_allocated_bytes p) (tp_high_water_mark p)
                                 (tp_devices p) (tp_extents p) (tp_in_use p)) st)
  end.

(** virt_mem_pool_get_quota: [(quota_max, allocated)] *)
Definition virt_mem_pool_get_quota (cid : Z) (st : pool_state) : Z * option (Z * Z) :=
  match tenant_entry cid st with
  | None => (- ENOENT, None)
  | Some (_, p) => (0, Some (tp_quota_max p, tp_allocated_bytes p))
  end.

(** ** Device bounds *)

(** ranges_overlap *)
Definition ranges_overlap (s1 e1 s2 e2 : Z) : bool := (s1 <? e2) && (e1 >? s2).

(** Ends of a partition and of its arena, in 32-bit arithmetic. *)
Definition d_end (d : virt_dev_partition) : Z := u32 (dp_base_offset d + dp_size d).
Definition a_end (d : virt_dev_partition) : Z := u32 (dp_rpc_arena_offset d + dp_rpc_arena_size d).
Definition dev_next (d : virt_dev_partition) : Z := if d_end d >? a_end d then d_end d else a_end d.

(** [quota_max > allocated_bytes ? quota_max - allocated_bytes : 0] *)
Definition quota_left (quota allocated : Z) : Z := if quota >? allocated then quota - allocated else 0.

(** A span [[s, e)] against a partition and its arena. *)
Definition span_hits (s e : Z) (d : virt_dev_partition) : bool :=
  ranges_overlap s e (dp_base_offset d) (d_end d) ||
  ((dp_rpc_arena_size d >? 0) && ranges_overlap s e (dp_rpc_arena_offset d) (a_end d)).

(** A candidate placement (device range, arena range) against a partition. *)
Definition placement_hits (dev_s dev_e arena_sz arena_s arena_e : Z) (d : virt_dev_partition) : bool :=
  span_hits dev_s dev_e d || ((arena_sz >? 0) && span_hits arena_s arena_e d).

(** [i == existing_slot || !in_use] is skipped. *)
Definition considered (existing : option nat) (i : nat) (d : virt_dev_partition) : bool :=
  negb (bool_decide (existing = Some i)) && dp_in_use d.

(** The scan for [suggested_offset] after a collision (0 when the BAR is exhausted). *)
Fixpoint suggest_scan (fuel : nat) (p : virt_tenant_pool) (existing : option nat)
    (align total_span cand : Z) : option Z :=
  match fuel with
  | O => None
  | S f =>
      if u32 (cand + total_span) <=? tp_bar_size p then
        match find_idxi (fun k d => considered existing k d && span_hits cand (u32 (cand + total_span)) d)
                        (tp_devices p) with
        | Some k =>
            match tp_devices p !! k with
            | Some d => suggest_scan f p existing align total_span (align_up32 (dev_next d) align)
            | None => None
            end
        | None => Some cand
        end
      else Some 0
  end.

(** Where the pool places a device: [(dev_start, arena_start)], or the refusal. *)
Inductive placement :=
| Placed (dev_start arena_start : Z)
| Refused (r : amba_virt_dev_bounds_resp).

(** Placement at the preferred offset. *)
Definition place_fixed (p : virt_tenant_pool) (existing : option nat)
    (preferred align req_size arena_sz avail_quota : Z) : option placement :=
  let dev_start := preferred in
  let dev_end := u32 (dev_start + req_size) in
  let arena_start := if arena_sz >? 0 then dev_end else 0 in
  let arena_end := if arena_sz >? 0 then u32 (arena_start + arena_sz) else 0 in
  if (arena_end >? tp_bar_size p) || (dev_end >? tp_bar_size p) then
    Some (Refused (bounds_refusal (- ERANGE) AMBA_VIRT_ERR_BAR_OVERFLOW avail_quota 0 0))
  else
    match find_idxi (fun i d => considered existing i d &&
                                placement_hits dev_start dev_end arena_sz arena_start arena_end d)
                    (tp_devices p) with
    | Some i =>
        match tp_devices p !! i with
        | Some d =>
            match suggest_scan (S (length (tp_devices p))) p existing align (u32 (req_size + arena_sz))
                               (align_up32 (dev_next d) align) with
            | Some sugg =>
                Some (Refused (bounds_refusal (- EEXIST) AMBA_VIRT_ERR_OFFSET_COLLISION 0 sugg (dp_dev_type d)))
            | None => None
            end
        | None => None
        end
    | None => Some (Placed dev_start arena_start)
    end.

(** The four values the AUTO search computes for a candidate. *)
Definition auto_candidate (align req_size arena_sz cand : Z) : Z * Z * Z * Z :=
  if arena_sz >? 0 then
    let arena_start := cand in
    let arena_end := u32 (cand + arena_sz) in
    let dev_start := align_up32 arena_end align in
    (dev_start, u32 (dev_start + req_size), arena_start, arena_end)
  else (cand, u32 (cand + req_size), 0, 0).

(** The AUTO first-fit loop: the candidate and the four values it stops with. *)
Fixpoint auto_search (fuel : nat) (p : virt_tenant_pool) (existing : option nat)
    (align req_size arena_sz total_needed cand : Z) (last : Z * Z * Z * Z) : option (Z * (Z * Z * Z * Z)) :=
  match fuel with
  | O => None
  | S f =>
      if cand + total_needed <=? tp_bar_size p then
        let c := auto_candidate align req_size arena_sz cand in
        let '(dev_start, dev_end, arena_start, arena_end) := c in
        if dev_end >? tp_bar_size p then Some (cand, c)
        else
          match find_idxi (fun i d => considered existing i d &&
                                      placement_hits dev_start dev_end arena_sz arena_start arena_end d)
                          (tp_devices p) with
          | Some i =>
              match tp_devices p !! i with
              | Some d =>
                  let step_align := if arena_sz >? 0 then 4096 else align in
                  auto_search f p existing align req_size arena_sz total_needed
                              (align_up32 (dev_next d) step_align) c
              | None => None
              end
          | None => Some (cand, c)
          end
      else Some (cand, last)
  end.

(** Placement with AMBA_VIRT_OFFSET_AUTO. *)
Definition place_auto (p : virt_tenant_pool) (existing : option nat)
    (align req_size arena_sz total_needed avail_quota : Z) : option placement :=
  match auto_search (S (length (tp_devices p))) p existing align req_size arena_sz total_needed 0 (0, 0, 0, 0) with
  | None => None
  | Some (cand, (dev_start, dev_end, arena_start, arena_end)) =>
      if (cand + total_needed >? tp_bar_size p) || (dev_end >? tp_bar_size p) then
        Some (Refused (bounds_refusal (- ENOMEM) AMBA_VIRT_ERR_HOST_OOM avail_quota 0 0))
      else Some (Placed dev_start arena_start)
  end.

(** Alignment of a request: 2 MiB by default for Cavalry and IAV, else 4 KiB. *)
Definition bounds_align (req : amba_virt_dev_bounds_req) : Z :=
  if bq_align req =? 0 then
    if (bq_dev_type req =? AMBA_VIRT_DEV_TYPE_CAVALRY) || (bq_dev_type req =? AMBA_VIRT_DEV_TYPE_IAV)
    then 0x00200000 else 4096
  else bq_align req.

Definition bounds_arena_sz (req : amba_virt_dev_bounds_req) : Z :=
  if bq_rpc_arena_size req >? 0 then align_up32 (bq_rpc_arena_size req) 4096 else bq_rpc_arena_size req.

(** Step 3, the quota ceiling: the size to place, or the refusal. *)
Definition quota_clamp (req : amba_virt_dev_bounds_req) (align req_size arena_sz avail_quota : Z)
    : Z + amba_virt_dev_bounds_resp :=
  let refuse := inr (bounds_refusal (- ENOMEM) AMBA_VIRT_ERR_QUOTA_EXCEEDED avail_quota 0 0) in
  if req_size + arena_sz >? avail_quota then
    if has_flag (bq_flags req) AMBA_VIRT_DEV_F_BEST_EFFORT &&
       negb (bq_dev_type req =? AMBA_VIRT_DEV_TYPE_CAVALRY) &&
       negb (bq_dev_type req =? AMBA_VIRT_DEV_TYPE_GDMA) then
      if avail_quota >? arena_sz then
        let clamped := align_down32 (avail_quota - arena_sz) align in
        if clamped >? 0 then inl clamped else refuse
      else refuse
    else refuse
  else inl req_size.

(** allocated_excl: the live bytes without the partition being replaced. *)
Definition allocated_excl (p : virt_tenant_pool) (existing : option nat) : Z :=
  match existing with
  | Some i =>
      match tp_devices p !! i with
      | Some d =>
          let old := u32 (dp_size d + dp_rpc_arena_size d) in
          if tp_allocated_bytes p >=? old then tp_allocated_bytes p - old else 0
      | None => tp_allocated_bytes p
      end
  | None => tp_allocated_bytes p
  end.

(** Step 5, the commit: slot choice, the partition, the accounting and the response. *)
Definition commit_bounds (p : virt_tenant_pool) (req : amba_virt_dev_bounds_req) (existing : option nat)
    (excl req_size arena_sz dev_start arena_start : Z)
    : virt_tenant_pool * amba_virt_dev_bounds_resp * list (Z * Z) :=
  let target := match existing with
                | Some i => Some i
                | None => find_idx (fun d => negb (dp_in_use d)) (tp_devices p)
                end in
  match target with
  | None => (p, bounds_refusal (- ENOMEM) AMBA_VIRT_ERR_HOST_OOM 0 0 0, [])
  | Some i =>
      let a_off := if arena_sz >? 0 then arena_start else 0 in
      let d := mk_dev (bq_dev_type req) dev_start req_size a_off arena_sz (bq_flags req) true in
      let allocated := u32 (excl + req_size + arena_sz) in
      let hwm := if allocated >? tp_high_water_mark p then allocated else tp_high_water_mark p in
      let p' := mk_pool (tp_cid p) (tp_tenant_idx p) (tp_bar_size p) (tp_quota_min p) (tp_quota_max p)
                        allocated hwm (<[i := d]> (tp_devices p)) (tp_extents p) (tp_in_use p) in
      let resp := mk_bresp 0 AMBA_VIRT_ERR_NONE dev_start req_size a_off
                           (quota_left (tp_quota_max p) allocated) 0 0 in
      let zeroed := if has_flag (bq_flags req) AMBA_VIRT_DEV_F_ZERO_INIT
                    then (dev_start, req_size) :: (if arena_sz >? 0 then [(arena_start, arena_sz)] else [])
                    else [] in
      (p', resp, zeroed)
  end.

(** Steps 3 to 5, once the size, the alignment and the replaced slot are known. *)
Definition bounds_allocate (p : virt_tenant_pool) (req : amba_virt_dev_bounds_req) (existing : option nat)
    (align req_size0 arena_sz : Z)
    : option (virt_tenant_pool * amba_virt_dev_bounds_resp * list (Z * Z)) :=
  let excl := allocated_excl p existing in
  let avail_quota := quota_left (tp_quota_max p) excl in
  match quota_clamp req align req_size0 arena_sz avail_quota with
  | inr r => Some (p, r, [])
  | inl req_size =>
      let placed :=
        if negb (bq_preferred_offset req =? AMBA_VIRT_OFFSET_AUTO)
        then place_fixed p existing (bq_preferred_offset req) align req_size arena_sz avail_quota
        else place_auto p existing align req_size arena_sz (req_size + arena_sz) avail_quota in
      match placed with
      | None => None
      | Some (Refused r) => Some (p, r, [])
      | Some (Placed dev_start arena_start) =>
          Some (commit_bounds p req existing excl req_size arena_sz dev_start arena_start)
      end
  end.

(** The part of virt_mem_pool_set_device_bounds under the tenant's lock: the new tenant entry, the
    response and the ranges of the BAR that are zeroed when the window is mapped. *)
Definition tenant_set_device_bounds (p : virt_tenant_pool) (req : amba_virt_dev_bounds_req)
    : option (virt_tenant_pool * amba_virt_dev_bounds_resp * list (Z * Z)) :=
  let align := bounds_align req in
  let refuse status err avail sugg := Some (p, bounds_refusal status err avail sugg 0, []) in
  if (align <? 4096) || negb (pow2_test align) then refuse (- EINVAL) AMBA_VIRT_ERR_INVALID_ALIGN 0 0
  else
    let req_size := align_up32 (bq_requested_size req) align in
    let arena_sz := bounds_arena_sz req in
    let avail := quota_left (tp_quota_max p) (tp_allocated_bytes p) in
    let pref := bq_preferred_offset req in
    let fixed := negb (pref =? AMBA_VIRT_OFFSET_AUTO) in
    if req_size + arena_sz >? tp_bar_size p then refuse (- ERANGE) AMBA_VIRT_ERR_BAR_OVERFLOW avail 0
    else if fixed && negb (pref mod align =? 0) then
      refuse (- EINVAL) AMBA_VIRT_ERR_INVALID_ALIGN 0 (align_up32 pref align)
    else if fixed && (pref + req_size >? tp_bar_size p) then
      refuse (- ERANGE) AMBA_VIRT_ERR_BAR_OVERFLOW avail 0
    else
      let existing := find_idx (fun d => dp_in_use d && (dp_dev_type d =? bq_dev_type req)) (tp_devices p) in
      match existing with
      | Some _ =>
          if negb (has_flag (bq_flags req) AMBA_VIRT_DEV_F_REPLACE) then
            refuse (- EBUSY) AMBA_VIRT_ERR_DEV_ALREADY_REG avail 0
          else bounds_allocate p req existing align req_size arena_sz
      | None => bounds_allocate p req existing align req_size arena_sz
      end.

(** virt_mem_pool_set_device_bounds (with non-null [req] and [resp]). The zeroed ranges are those of a
    request with AMBA_VIRT_DEV_F_ZERO_INIT; they reach memory when [shm_map] is a mapping. *)
Definition virt_mem_pool_set_device_bounds (cid : Z) (req : amba_virt_dev_bounds_req) (shm_mapped : bool)
    (st : pool_state) : option (pool_state * amba_virt_dev_bounds_resp * list (Z * Z)) :=
  if (bq_dev_type req =? AMBA_VIRT_DEV_TYPE_NONE) || (bq_dev_type req >=? AMBA_VIRT_MAX_DEV_TYPES)
  then Some (st, bounds_refusal (- EINVAL) AMBA_VIRT_ERR_UNKNOWN_DEVICE 0 0 0, [])
  else if bq_requested_size req =? 0
  then Some (st, bounds_refusal (- EINVAL) AMBA_VIRT_ERR_INVALID_ALIGN 0 0 0, [])
  else
    match tenant_entry cid st with
    | None => Some (st, bounds_refusal (- ENOMEM) AMBA_VIRT_ERR_HOST_OOM 0 0 0, [])
    | Some (i, p) =>
        match tenant_set_device_bounds p req with
        | None => None
        | Some (p', r, z) => Some (put_entry i p' st, r, if shm_mapped then z else [])
        end
    end.

(** [allocated_bytes] after giving [freed] bytes back. *)
Definition minus_floor (allocated freed : Z) : Z := if allocated >=? freed then allocated - freed else 0.

(** virt_mem_pool_release_device_bounds *)
Definition virt_mem_pool_release_device_bounds (cid dev_type : Z) (st : pool_state) : Z * pool_state :=
  match tenant_entry cid st with
  | None => (- ENOENT, st)
  | Some (i, p) =>
      match find_idx (fun d => dp_in_use d && (dp_dev_type d =? dev_type)) (tp_devices p) with
      | Some k =>
          match tp_devices p !! k with
          | Some d =>
              let freed := u32 (dp_size d + dp_rpc_arena_size d) in
              (0, put_entry i
                    (mk_pool (tp_cid p) (tp_tenant_idx p) (tp_bar_size p) (tp_quota_min p) (tp_quota_max p)
                             (minus_floor (tp_allocated_bytes p) freed) (tp_high_water_mark p)
                             (<[k := dev_clear d]> (tp_devices p)) (tp_extents p) (tp_in_use p)) st)
          | None => (- ENOENT, st)
          end
      | None => (- ENOENT, st)
      end
  end.

(** virt_mem_pool_get_device_bounds: base, size, arena offset and arena size. *)
Definition virt_mem_pool_get_device_bounds (cid dev_type : Z) (st : pool_state) : Z * option (Z * Z * Z * Z) :=
  match tenant_entry cid st with
  | None => (- ENOENT, None)
  | Some (_, p) =>
      match find_idx (fun d => dp_in_use d && (dp_dev_type d =? dev_type)) (tp_devices p) with
      | Some k =>
          match tp_devices p !! k with
          | Some d =>
              (0, Some (dp_base_offset d, dp_size d, dp_rpc_arena_offset d, dp_rpc_arena_size d))
          | None => (- ENOENT, None)
          end
      | None => (- ENOENT, None)
      end
  end.

(** ** Extents *)

Definition e_end (e : virt_mem_extent) : Z := u32 (me_offset e + me_size e).

(** The search loop of virt_mem_pool_alloc_extent: the candidate it stops with. *)
Fixpoint extent_search (fuel : nat) (p : virt_tenant_pool) (align alloc_sz cand : Z) : option Z :=
  match fuel with
  | O => None
  | S f =>
      if u32 (cand + alloc_sz) <=? tp_bar_size p then
        match find_idx (fun d => dp_in_use d && span_hits cand (u32 (cand + alloc_sz)) d) (tp_devices p) with
        | Some k =>
            match tp_devices p !! k with
            | Some d => extent_search f p align alloc_sz (align_up32 (dev_next d) align)
            | None => None
            end
        | None =>
            match find_idx (fun e => me_in_use e &&
                                     ranges_overlap cand (u32 (cand + alloc_sz)) (me_offset e) (e_end e))
                           (tp_extents p) with
            | Some k =>
                match tp_extents p !! k with
                | Some e => extent_search f p align alloc_sz (align_up32 (e_end e) align)
                | None => None
                end
            | None => Some cand
            end
        end
      else Some cand
  end.

(** The part of virt_mem_pool_alloc_extent under the tenant's lock. *)
Definition tenant_alloc_extent (p : virt_tenant_pool) (req : amba_virt_mem_req) (phys_base : Z)
    : option (virt_tenant_pool * amba_virt_mem_resp * list (Z * Z)) :=
  let align := if mq_align req =? 0 then 4096 else mq_align req in
  if (align <? 4096) || negb (pow2_test align) then Some (p, mem_refusal (- EINVAL) 0 0, [])
  else
    let alloc_sz := align_up32 (mq_size req) align in
    let avail := quota_left (tp_quota_max p) (tp_allocated_bytes p) in
    if alloc_sz =? 0 then Some (p, mem_refusal (- EINVAL) 0 0, [])
    else if alloc_sz >? tp_bar_size p then Some (p, mem_refusal (- ERANGE) (tp_allocated_bytes p) avail, [])
    else if alloc_sz >? avail then Some (p, mem_refusal (- ENOMEM) (tp_allocated_bytes p) avail, [])
    else
      match find_idx (fun e => negb (me_in_use e)) (tp_extents p) with
      | None => Some (p, mem_refusal (- ENOMEM) (tp_allocated_bytes p) avail, [])
      | Some slot =>
          match extent_search (S (length (tp_devices p) + length (tp_extents p))) p align alloc_sz 0 with
          | None => None
          | Some cand =>
              if u32 (cand + alloc_sz) >? tp_bar_size p
              then Some (p, mem_refusal (- ENOMEM) (tp_allocated_bytes p) avail, [])
              else
                let allocated := u32 (tp_allocated_bytes p + alloc_sz) in
                let hwm := if allocated >? tp_high_water_mark p then allocated else tp_high_water_mark p in
                let e := mk_ext cand alloc_sz (mq_dev_affinity req) (mq_flags req) true in
                let p' := mk_pool (tp_cid p) (tp_tenant_idx p) (tp_bar_size p) (tp_quota_min p)
                                  (tp_quota_max p) allocated hwm (tp_devices p)
                                  (<[slot := e]> (tp_extents p)) (tp_in_use p) in
                let phys := if phys_base =? 0 then 0 else u64 (phys_base + cand) in
                Some (p', mk_mresp 0 cand alloc_sz phys allocated (quota_left (tp_quota_max p) allocated),
                      if has_flag (mq_flags req) AMBA_VIRT_DEV_F_ZERO_INIT then [(cand, alloc_sz)] else [])
          end
      end.

(** virt_mem_pool_alloc_extent (with non-null [req] and [resp]) *)
Definition virt_mem_pool_alloc_extent (cid : Z) (req : amba_virt_mem_req) (shm_mapped : bool) (phys_base : Z)
    (st : pool_state) : option (pool_state * amba_virt_mem_resp * list (Z * Z)) :=
  match tenant_entry cid st with
  | None => Some (st, mem_refusal (- ENOENT) 0 0, [])
  | Some (i, p) =>
      match tenant_alloc_extent p req phys_base with
      | None => None
      | Some (p', r, z) => Some (put_entry i p' st, r, if shm_mapped then z else [])
      end
  end.

(** virt_mem_pool_free_extent: the return code, the state and the caller's response ([None] is a null
    pointer), of which only the fields the source writes change. *)
Definition virt_mem_pool_free_extent (cid bar_offset : Z) (resp : option amba_virt_mem_resp) (st : pool_state)
    : Z * pool_state * option amba_virt_mem_resp :=
  match tenant_entry cid st with
  | None => (- ENOENT, st, resp)
  | Some (i, p) =>
      match find_idx (fun e => me_in_use e && (me_offset e =? bar_offset)) (tp_extents p) with
      | Some k =>
          match tp_extents p !! k with
          | Some e =>
              let allocated := minus_floor (tp_allocated_bytes p) (me_size e) in
              (0, put_entry i
                    (mk_pool (tp_cid p) (tp_tenant_idx p) (tp_bar_size p) (tp_quota_min p) (tp_quota_max p)
                             allocated (tp_high_water_mark p) (tp_devices p)
                             (<[k := ext_clear e]> (tp_extents p)) (tp_in_use p)) st,
               (fun r => mk_mresp 0 bar_offset (me_size e) (mp_phys_addr r) allocated
                                  (quota_left (tp_quota_max p) allocated)) <$> resp)
          | None => (- ENOENT, st, resp)
          end
      | None =>
          (- ENOENT, st,
           (fun r => mk_mresp (- ENOENT) (mp_bar_offset r) (mp_allocated_size r) (mp_phys_addr r)
                              (tp_allocated_bytes p)
                              (quota_left (tp_quota_max p) (tp_allocated_bytes p))) <$> resp)
      end
  end.

(** ** Validation *)

(** A request [[off, off + size)] inside a live partition, its arena, or a live extent (64-bit ends). *)
Definition dev_covers (off req_end : Z) (d : virt_dev_partition) : bool :=
  dp_in_use d &&
  (((off >=? dp_base_offset d) && (req_end <=? dp_base_offset d + dp_size d)) ||
   ((dp_rpc_arena_size d >? 0) && (off >=? dp_rpc_arena_offset d) &&
    (req_end <=? dp_rpc_arena_offset d + dp_rpc_arena_size d))).

Definition ext_covers (off req_end : Z) (e : virt_mem_extent) : bool :=
  me_in_use e && (off >=? me_offset e) && (req_end <=? me_offset e + me_size e).

(** virt_mem_pool_validate_range *)
Definition virt_mem_pool_validate_range (cid bar_offset size : Z) (st : pool_state) : Z :=
  let req_end := bar_offset + size in
  match tenant_entry cid st with
  | None => - ENOENT
  | Some (_, p) =>
      match find_idx (dev_covers bar_offset req_end) (tp_devices p) with
      | Some _ => 0
      | None =>
          match find_idx (ext_covers bar_offset req_end) (tp_extents p) with
          | Some _ => 0
          | None => - EFAULT
          end
      end
  end.

End MemPool.
