(* ===== verification/MemPoolProps.v ===== *)
(** * Tenant memory pool: invariant and theorems

    [pool_ok] is the well-formedness of one tenant's entry and [table_ok] of the tenant table; every
    operation of MemPool preserves them. The lemmas on the two searches (termination within the number
    of slots, first-fit placement free of collisions) carry the theorems. *)

From Stdlib Require Import ZArith Lia Bool.
From stdpp Require Import base list numbers relations.
From S2P Require Import Prelude MemPool.
Import MemPool.

(** ** Well-formed pools *)

(** A live partition and its arena lie inside the BAR; a partition without an arena records offset 0. *)
Record dev_ok (bar : Z) (d : virt_dev_partition) : Prop := {
  dok_base : 0 <= dp_base_offset d;
  dok_size : 0 <= dp_size d;
  dok_end : dp_base_offset d + dp_size d <= bar;
  dok_aoff : 0 <= dp_rpc_arena_offset d;
  dok_asize : 0 <= dp_rpc_arena_size d;
  dok_aend : dp_rpc_arena_offset d + dp_rpc_arena_size d <= bar;
  dok_anone : dp_rpc_arena_size d = 0 -> dp_rpc_arena_offset d = 0;
}.

Record ext_ok (bar : Z) (e : virt_mem_extent) : Prop := {
  eok_off : 0 <= me_offset e;
  eok_size : 0 < me_size e;
  eok_end : me_offset e + me_size e <= bar;
}.

(** A span shares no byte with a partition nor with its arena. *)
Definition span_clear (s e : Z) (d : virt_dev_partition) : Prop :=
  disjoint_range s e (dp_base_offset d) (dp_base_offset d + dp_size d) /\
  disjoint_range s e (dp_rpc_arena_offset d) (dp_rpc_arena_offset d + dp_rpc_arena_size d).

Definition dev_disjoint (d1 d2 : virt_dev_partition) : Prop :=
  span_clear (dp_base_offset d1) (dp_base_offset d1 + dp_size d1) d2 /\
  span_clear (dp_rpc_arena_offset d1) (dp_rpc_arena_offset d1 + dp_rpc_arena_size d1) d2.

Definition ext_disjoint (e1 e2 : virt_mem_extent) : Prop :=
  disjoint_range (me_offset e1) (me_offset e1 + me_size e1) (me_offset e2) (me_offset e2 + me_size e2).

Definition dev_bytes (d : virt_dev_partition) : Z := if dp_in_use d then dp_size d + dp_rpc_arena_size d else 0.
Definition ext_bytes (e : virt_mem_extent) : Z := if me_in_use e then me_size e else 0.

(** The bytes of the live partitions, arenas and extents. *)
Definition live_bytes (p : virt_tenant_pool) : Z := sumZ dev_bytes (tp_devices p) + sumZ ext_bytes (tp_extents p).

Record pool_ok (p : virt_tenant_pool) : Prop := {
  po_bar : 0 < tp_bar_size p < 2 ^ 31;
  po_quota : is_u32 (tp_quota_max p);
  po_ndev : length (tp_devices p) = VIRT_MEM_MAX_DEVICES;
  po_next : length (tp_extents p) = VIRT_MEM_MAX_EXTENTS;
  po_dev : forall i d, tp_devices p !! i = Some d -> dp_in_use d = true -> dev_ok (tp_bar_size p) d;
  po_ext : forall i e, tp_extents p !! i = Some e -> me_in_use e = true -> ext_ok (tp_bar_size p) e;
  po_devs : forall i j d1 d2, i <> j -> tp_devices p !! i = Some d1 -> tp_devices p !! j = Some d2 ->
              dp_in_use d1 = true -> dp_in_use d2 = true ->
              dev_disjoint d1 d2 /\ dp_dev_type d1 <> dp_dev_type d2;
  po_exts : forall i j e1 e2, i <> j -> tp_extents p !! i = Some e1 -> tp_extents p !! j = Some e2 ->
              me_in_use e1 = true -> me_in_use e2 = true -> ext_disjoint e1 e2;
  po_sum : tp_allocated_bytes p = live_bytes p;
  po_sum32 : is_u32 (tp_allocated_bytes p);
}.

(** A request whose fields are 32-bit values. *)
Definition breq_ok (q : amba_virt_dev_bounds_req) : Prop :=
  is_u32 (bq_dev_type q) /\ is_u32 (bq_requested_size q) /\ is_u32 (bq_preferred_offset q) /\
  is_u32 (bq_rpc_arena_size q) /\ is_u32 (bq_align q) /\ is_u32 (bq_flags q).

Definition mreq_ok (q : amba_virt_mem_req) : Prop := is_u32 (mq_size q) /\ is_u32 (mq_align q).

(** What a placement promises: inside the BAR, aligned, and clear of every other live partition. *)
Record placed_ok (p : virt_tenant_pool) (existing : option nat) (align req_size arena_sz ds as_ : Z) : Prop := {
  pl_ds : 0 <= ds;
  pl_de : ds + req_size <= tp_bar_size p;
  pl_align : ds mod align = 0;
  pl_as : 0 <= as_;
  pl_ae : as_ + arena_sz <= tp_bar_size p;
  pl_none : arena_sz = 0 -> as_ = 0;
  pl_own : disjoint_range ds (ds + req_size) as_ (as_ + arena_sz);
  pl_clear : forall i d, tp_devices p !! i = Some d -> existing <> Some i -> dp_in_use d = true ->
               span_clear ds (ds + req_size) d /\ span_clear as_ (as_ + arena_sz) d;
}.

Create HintDb pool.

(** ** Ends and overlaps *)

Section Ends.
Context (bar : Z) (Hbar : 0 < bar < 2 ^ 31).

Lemma d_end_ok d : dev_ok bar d -> d_end d = dp_base_offset d + dp_size d.
Proof using Hbar. intros []. unfold d_end. apply u32_id. lia. Qed.

Lemma a_end_ok d : dev_ok bar d -> a_end d = dp_rpc_arena_offset d + dp_rpc_arena_size d.
Proof using Hbar. intros []. unfold a_end. apply u32_id. lia. Qed.

Lemma e_end_ok e : ext_ok bar e -> e_end e = me_offset e + me_size e.
Proof using Hbar. intros []. unfold e_end. apply u32_id. lia. Qed.

Lemma dev_next_bounds d :
  dev_ok bar d -> 0 <= dev_next d <= bar /\ d_end d <= dev_next d /\ a_end d <= dev_next d.
Proof using Hbar.
  intros Hd. unfold dev_next. pose proof (d_end_ok d Hd) as E1. pose proof (a_end_ok d Hd) as E2.
  destruct Hd. destruct (d_end d >? a_end d) eqn:E; bool_hyps; lia.
Qed.

(** A span that hits a partition starts before the end of the partition or of its arena. *)
Lemma span_hits_next s e d : dev_ok bar d -> span_hits s e d = true -> s < dev_next d.
Proof using Hbar.
  intros Hd. destruct (dev_next_bounds d Hd) as (_ & H1 & H2). unfold span_hits, ranges_overlap.
  rewrite orb_true_iff. intros [H|H]; bool_hyps; lia.
Qed.

Lemma span_hits_clear s e d : dev_ok bar d -> 0 <= s -> span_hits s e d = false -> span_clear s e d.
Proof using Hbar.
  intros Hd Hs. unfold span_hits, ranges_overlap, span_clear, disjoint_range.
  rewrite (d_end_ok d Hd), (a_end_ok d Hd). intros H. bool_hyps. destruct Hd.
  rewrite andb_false_iff in *. split.
  - destruct H as [H|H]; bool_hyps; lia.
  - destruct H0 as [H0|H0]; [|rewrite andb_false_iff in H0; destruct H0 as [H0|H0]; bool_hyps; lia].
    bool_hyps. assert (E : dp_rpc_arena_size d = 0) by lia. specialize (dok_anone0 E). lia.
Qed.

(** Rounding the end of a live partition up cannot wrap. *)
Lemma align_next v k : 0 <= v <= bar -> 0 <= k <= 31 -> v <= align_up32 v (2 ^ k) /\ align_up32 v (2 ^ k) mod 2 ^ k = 0.
Proof using Hbar.
  intros Hv Hk. assert (2 ^ k <= 2 ^ 31) by (apply Z.pow_le_mono_r; lia).
  destruct (align_up32_bounds v k) as [[H1 _] H2]; [lia..|]. split; [lia|done].
Qed.

Lemma placement_hits_next ds de asz as_ ae d cand :
  dev_ok bar d -> cand <= ds -> (0 < asz -> cand <= as_) ->
  placement_hits ds de asz as_ ae d = true -> cand < dev_next d.
Proof using Hbar.
  intros Hd H1 H2. unfold placement_hits. rewrite orb_true_iff. intros [H|H].
  - apply (span_hits_next _ _ _ Hd) in H. lia.
  - bool_hyps. apply (span_hits_next _ _ _ Hd) in H0. lia.
Qed.

Lemma placement_hits_clear ds de asz as_ ae d :
  dev_ok bar d -> 0 <= ds -> 0 <= asz -> 0 <= as_ -> (asz = 0 -> as_ = 0 /\ ae = 0) ->
  placement_hits ds de asz as_ ae d = false -> span_clear ds de d /\ span_clear as_ ae d.
Proof using Hbar.
  intros Hd H0 H1 H2 H3. unfold placement_hits. intros H. bool_hyps.
  split; [by apply span_hits_clear|]. destruct (Z.eq_dec asz 0) as [E|E].
  - destruct (H3 E) as [-> ->]. destruct Hd. unfold span_clear, disjoint_range. lia.
  - apply span_hits_clear; [done..|]. destruct (asz >? 0) eqn:E'; [done|bool_hyps; lia].
Qed.

End Ends.

(** A value up to 2^31 rounded up to a power of two stays at most 2^31. *)
Lemma align_up32_half v k : 0 <= v <= 2 ^ 31 -> 0 <= k <= 31 -> align_up32 v (2 ^ k) <= 2 ^ 31.
Proof.
  intros Hv Hk. assert (0 < 2 ^ k <= 2 ^ 31) by (split; [apply Z.pow_pos_nonneg|apply Z.pow_le_mono_r]; lia).
  destruct (align_up32_bounds v k) as [[B1 B2] B3]; [lia..|].
  apply Z.mod_divide in B3 as [q Hq]; [|lia]. rewrite Hq in *.
  destruct (Z.le_gt_cases (q * 2 ^ k) (2 ^ 31)) as [|Hgt]; [done|exfalso].
  assert (Hpow : 2 ^ 31 = 2 ^ (31 - k) * 2 ^ k) by (rewrite <- Z.pow_add_r by lia; f_equal; lia).
  rewrite Hpow in Hgt. assert (2 ^ (31 - k) < q) by nia.
  assert (2 ^ (31 - k) * 2 ^ k + 2 ^ k <= q * 2 ^ k) by nia. lia.
Qed.

Lemma has_align req :
  breq_ok req -> (bounds_align req <? 4096) || negb (pow2_test (bounds_align req)) = false ->
  exists k, 12 <= k <= 31 /\ bounds_align req = 2 ^ k.
Proof.
  intros (_ & _ & _ & _ & Ha & _) H. bool_hyps.
  assert (Hr : 0 < bounds_align req < 2 ^ 32).
  { unfold bounds_align, is_u32 in *. repeat case_match; lia. }
  destruct (pow2_test_32 _ Hr H0) as (k & Hk & E). exists k. split; [|done].
  split; [|lia]. destruct (Z.lt_ge_cases k 12) as [Hlt|]; [|done]. exfalso.
  assert (2 ^ k <= 2 ^ 11) by (apply Z.pow_le_mono_r; lia). lia.
Qed.

(** ** The searches *)

Section Searches.
Context (p : virt_tenant_pool) (Hp : pool_ok p) (existing : option nat).

Lemma considered_ok i d :
  tp_devices p !! i = Some d -> considered existing i d = true -> dev_ok (tp_bar_size p) d.
Proof using Hp. intros Hi Hc. unfold considered in Hc. bool_hyps. by apply (po_dev p Hp i). Qed.

(** The suggestion scan stops: each hit moves the candidate past one partition for good. *)
Lemma suggest_scan_total fuel k span cand :
  0 <= k <= 31 -> (count_above dev_next cand (tp_devices p) < fuel)%nat ->
  exists s, suggest_scan fuel p existing (2 ^ k) span cand = Some s.
Proof using Hp.
  intros Hk. revert cand. induction fuel as [|f IH]; intros cand Hf; [lia|]. simpl.
  destruct (u32 (cand + span) <=? tp_bar_size p); [|eauto].
  destruct (find_idxi _ (tp_devices p)) as [i|] eqn:E; [|eauto].
  apply find_idxi_Some in E as (d & Hd & Hh). rewrite Hd. bool_hyps.
  pose proof (considered_ok i d Hd H) as Hok.
  pose proof (span_hits_next _ (po_bar p Hp) _ _ _ Hok H0).
  destruct (dev_next_bounds _ (po_bar p Hp) d Hok) as (Hn & _).
  destruct (align_next _ (po_bar p Hp) (dev_next d) k Hn Hk) as [Ha _].
  apply IH. pose proof (count_above_lt dev_next cand (align_up32 (dev_next d) (2 ^ k)) _ i d Hd). lia.
Qed.

(** No hit among the considered partitions: the placement is clear of every other live one. *)
Lemma no_hits_clear ds de asz as_ ae :
  find_idxi (fun i d => considered existing i d && placement_hits ds de asz as_ ae d) (tp_devices p) = None ->
  0 <= ds -> 0 <= asz -> 0 <= as_ -> (asz = 0 -> as_ = 0 /\ ae = 0) ->
  forall i d, tp_devices p !! i = Some d -> existing <> Some i -> dp_in_use d = true ->
    span_clear ds de d /\ span_clear as_ ae d.
Proof using Hp.
  intros E H1 H2 H3 H4 i d Hd He Hu. pose proof (find_idxi_None _ _ E i d Hd) as Hh. cbv beta in Hh.
  unfold considered in Hh. rewrite bool_decide_eq_false_2, Hu in Hh by done. simpl in Hh.
  apply (placement_hits_clear _ (po_bar p Hp)) in Hh; [done|by apply (po_dev p Hp i)|done..].
Qed.

Lemma place_fixed_spec pref k req_size asz avail :
  0 <= k <= 31 -> 0 <= pref -> pref mod 2 ^ k = 0 -> 0 <= req_size -> 0 <= asz ->
  pref + req_size <= tp_bar_size p -> req_size + asz <= tp_bar_size p ->
  exists r, place_fixed p existing pref (2 ^ k) req_size asz avail = Some r /\
    forall ds as_, r = Placed ds as_ -> placed_ok p existing (2 ^ k) req_size asz ds as_.
Proof using Hp.
  intros Hk Hp0 Hal Hr Ha Hend Htot. pose proof (po_bar p Hp) as Hbar. unfold place_fixed.
  rewrite (u32_id (pref + req_size)) by lia.
  set (a0 := if asz >? 0 then pref + req_size else 0).
  set (a1 := if asz >? 0 then u32 (a0 + asz) else 0).
  assert (Ea : (0 < asz /\ a0 = pref + req_size /\ a1 = a0 + asz) \/ (asz = 0 /\ a0 = 0 /\ a1 = 0)).
  { unfold a0, a1. destruct (asz >? 0) eqn:E; bool_hyps; [left|right; lia]. rewrite u32_id; lia. }
  clearbody a0 a1. destruct (_ || _) eqn:E1; [eexists; split; [done|]; by intros|]. bool_hyps.
  destruct (find_idxi _ (tp_devices p)) as [i|] eqn:E.
  - apply find_idxi_Some in E as (d & Hd & Hh). rewrite Hd.
    destruct (suggest_scan_total (S (length (tp_devices p))) k (u32 (req_size + asz))
                (align_up32 (dev_next d) (2 ^ k)) Hk) as [s ->].
    { pose proof (count_above_length dev_next (align_up32 (dev_next d) (2 ^ k)) (tp_devices p)). lia. }
    eexists; split; [done|]. by intros.
  - eexists; split; [done|]. intros ds as_ [= <- <-].
    assert (Ee : a0 + asz = a1) by lia.
    constructor; [lia|lia|done|lia|lia|lia|unfold disjoint_range; lia|].
    rewrite Ee. apply (no_hits_clear _ _ _ _ _ E); lia.
Qed.

(** The four values of a candidate, without wrap-around. *)
Lemma auto_candidate_spec k req_size asz cand ds de as_ ae :
  12 <= k <= 31 -> 0 <= cand -> 0 <= req_size -> 0 <= asz -> cand + (req_size + asz) <= tp_bar_size p ->
  cand mod (if asz >? 0 then 4096 else 2 ^ k) = 0 ->
  auto_candidate (2 ^ k) req_size asz cand = (ds, de, as_, ae) ->
  cand <= ds /\ ds mod 2 ^ k = 0 /\ de = ds + req_size /\ ae = as_ + asz /\ 0 <= as_ /\
  (0 < asz -> as_ = cand /\ ae <= ds) /\ (asz = 0 -> as_ = 0 /\ ae = 0).
Proof using Hp.
  intros Hk Hc Hr Ha Ht Hm. pose proof (po_bar p Hp) as Hbar. unfold auto_candidate.
  assert (2 ^ k <= 2 ^ 31) by (apply Z.pow_le_mono_r; lia).
  destruct (asz >? 0) eqn:E; bool_hyps.
  - rewrite (u32_id (cand + asz)) by lia. intros [= <- <- <- <-].
    destruct (align_up32_bounds (cand + asz) k) as [[B1 B2] B3]; [lia..|].
    rewrite (u32_id (align_up32 _ _ + req_size)); [split_and!; try done; lia|].
    pose proof (align_up32_half (cand + asz) k ltac:(lia) ltac:(lia)). lia.
  - rewrite (u32_id (cand + req_size)) by lia. intros [= <- <- <- <-]. split_and!; try done; lia.
Qed.

(** The AUTO search stops, and when it stops inside the BAR its candidate is clear. *)
Lemma auto_search_spec fuel k req_size asz cand last :
  12 <= k <= 31 -> 0 <= cand -> 0 <= req_size -> 0 <= asz ->
  cand mod (if asz >? 0 then 4096 else 2 ^ k) = 0 ->
  (count_above dev_next cand (tp_devices p) < fuel)%nat ->
  exists c ds de as_ ae,
    auto_search fuel p existing (2 ^ k) req_size asz (req_size + asz) cand last = Some (c, (ds, de, as_, ae)) /\
    0 <= c /\
    (c + (req_size + asz) <= tp_bar_size p -> de <= tp_bar_size p -> placed_ok p existing (2 ^ k) req_size asz ds as_).
Proof using Hp.
  intros Hk Hc0 Hr Ha. revert cand last Hc0.
  induction fuel as [|f IH]; intros cand last Hc Hm Hf; [lia|]. simpl.
  destruct (Z.leb_spec (cand + (req_size + asz)) (tp_bar_size p)) as [Hle|Hgt].
  2:{ destruct last as [[[ds de] as_] ae]. do 5 eexists. split; [done|]. split; [lia|]. lia. }
  destruct (auto_candidate (2 ^ k) req_size asz cand) as [[[ds de] as_] ae] eqn:Ec.
  destruct (auto_candidate_spec _ _ _ _ _ _ _ _ Hk Hc Hr Ha Hle Hm Ec)
    as (C1 & C2 & C3 & C4 & C5 & C6 & C7).
  destruct (de >? tp_bar_size p) eqn:Ede; bool_hyps.
  { do 5 eexists. split; [done|]. split; [lia|]. lia. }
  destruct (find_idxi _ (tp_devices p)) as [i|] eqn:E.
  - apply find_idxi_Some in E as (d & Hd & Hh). rewrite Hd. bool_hyps.
    pose proof (considered_ok i d Hd H) as Hok.
    assert (Hlt : cand < dev_next d).
    { eapply placement_hits_next; [apply (po_bar p Hp)|done| | |exact H0]; lia. }
    destruct (dev_next_bounds _ (po_bar p Hp) d Hok) as (Hn & _).
    set (sa := if asz >? 0 then 4096 else 2 ^ k).
    assert (Hsa : exists j, 0 <= j <= 31 /\ sa = 2 ^ j).
    { unfold sa. destruct (asz >? 0); [exists 12; lia|exists k; split; [lia|done]]. }
    destruct Hsa as (j & Hj & Esa).
    destruct (align_next _ (po_bar p Hp) (dev_next d) j Hn Hj) as [Ha1 Ha2]. rewrite <- Esa in Ha1, Ha2.
    apply IH; [lia|exact Ha2|].
    pose proof (count_above_lt dev_next cand (align_up32 (dev_next d) sa) _ i d Hd). lia.
  - do 5 eexists. split; [done|]. split; [lia|]. intros _ _. subst de ae.
    constructor; [lia|lia|done|lia|lia|lia|unfold disjoint_range; lia|].
    apply (no_hits_clear _ _ _ _ _ E); lia.
Qed.

Lemma place_auto_spec k req_size asz avail :
  12 <= k <= 31 -> 0 <= req_size -> 0 <= asz ->
  exists r, place_auto p existing (2 ^ k) req_size asz (req_size + asz) avail = Some r /\
    forall ds as_, r = Placed ds as_ -> placed_ok p existing (2 ^ k) req_size asz ds as_.
Proof using Hp.
  intros Hk Hr Ha. unfold place_auto.
  destruct (auto_search_spec (S (length (tp_devices p))) k req_size asz 0 (0, 0, 0, 0))
    as (c & ds & de & as_ & ae & -> & Hc & Hpl); [done|lia|done..| | |].
  { destruct (asz >? 0); by rewrite Z.mod_0_l by (try apply Z.pow_nonzero; lia). }
  { pose proof (count_above_length dev_next 0 (tp_devices p)). lia. }
  destruct (_ || _) eqn:E; eexists; (split; [done|]); [by intros|].
  intros ds' as' [= <- <-]. bool_hyps. apply Hpl; lia.
Qed.

End Searches.

(** ** Updating one slot *)

(** The entry with another device array, extent array and accounting. *)
Definition with_live (p : virt_tenant_pool) (alloc hwm : Z) (ds : list virt_dev_partition)
    (es : list virt_mem_extent) : virt_tenant_pool :=
  mk_pool (tp_cid p) (tp_tenant_idx p) (tp_bar_size p) (tp_quota_min p) (tp_quota_max p) alloc hwm ds es
          (tp_in_use p).

Lemma dev_disjoint_sym d1 d2 : dev_disjoint d1 d2 -> dev_disjoint d2 d1.
Proof. unfold dev_disjoint, span_clear, disjoint_range. lia. Qed.

Lemma dev_bytes_nonneg p x : pool_ok p -> x ∈ tp_devices p -> 0 <= dev_bytes x.
Proof.
  intros Hp (i & Hi)%list_elem_of_lookup. unfold dev_bytes. destruct (dp_in_use x) eqn:E; [|lia].
  destruct (po_dev p Hp i x Hi E). lia.
Qed.

Lemma ext_bytes_nonneg p x : pool_ok p -> x ∈ tp_extents p -> 0 <= ext_bytes x.
Proof.
  intros Hp (i & Hi)%list_elem_of_lookup. unfold ext_bytes. destruct (me_in_use x) eqn:E; [|lia].
  destruct (po_ext p Hp i x Hi E). lia.
Qed.

Lemma dev_bytes_le p t d : pool_ok p -> tp_devices p !! t = Some d -> dev_bytes d <= tp_allocated_bytes p.
Proof.
  intros Hp Ht. rewrite (po_sum p Hp). unfold live_bytes.
  pose proof (sumZ_lookup_le dev_bytes _ t d (fun y => dev_bytes_nonneg p y Hp) Ht).
  pose proof (sumZ_nonneg ext_bytes _ (fun y => ext_bytes_nonneg p y Hp)). lia.
Qed.

Lemma ext_bytes_le p t e : pool_ok p -> tp_extents p !! t = Some e -> ext_bytes e <= tp_allocated_bytes p.
Proof.
  intros Hp Ht. rewrite (po_sum p Hp). unfold live_bytes.
  pose proof (sumZ_lookup_le ext_bytes _ t e (fun y => ext_bytes_nonneg p y Hp) Ht).
  pose proof (sumZ_nonneg dev_bytes _ (fun y => dev_bytes_nonneg p y Hp)). lia.
Qed.

Lemma pool_ok_set_dev p t d0 d alloc hwm :
  pool_ok p -> tp_devices p !! t = Some d0 ->
  (dp_in_use d = true ->
     dev_ok (tp_bar_size p) d /\
     forall i d', i <> t -> tp_devices p !! i = Some d' -> dp_in_use d' = true ->
       dev_disjoint d d' /\ dp_dev_type d <> dp_dev_type d') ->
  alloc = tp_allocated_bytes p - dev_bytes d0 + dev_bytes d -> is_u32 alloc ->
  pool_ok (with_live p alloc hwm (<[t := d]> (tp_devices p)) (tp_extents p)).
Proof.
  intros Hp Ht Hd Ha H32. destruct Hp as [Hbar Hq Hnd Hne Hdev Hext Hdd Hee Hs Hs32].
  constructor; simpl; [done|done|by rewrite length_insert|done| |done| |done| |done].
  - intros i x [[-> ->]|[Hn Hx]]%lookup_insert_inv Hu; [by apply Hd|by apply (Hdev i)].
  - intros i j x y Hij [[-> ->]|[Hi Hx]]%lookup_insert_inv [[-> ->]|[Hj Hy]]%lookup_insert_inv Hu1 Hu2.
    + done.
    + by apply Hd with j.
    + destruct (proj2 (Hd Hu2) i x Hij Hx Hu1) as [H1 H2]. split; [by apply dev_disjoint_sym|congruence].
    + by apply Hdd with i j.
  - unfold live_bytes in *. simpl. rewrite (sumZ_insert _ _ _ _ _ Ht). lia.
Qed.

Lemma pool_ok_set_ext p t e0 e alloc hwm :
  pool_ok p -> tp_extents p !! t = Some e0 ->
  (me_in_use e = true ->
     ext_ok (tp_bar_size p) e /\
     forall i e', i <> t -> tp_extents p !! i = Some e' -> me_in_use e' = true -> ext_disjoint e e') ->
  alloc = tp_allocated_bytes p - ext_bytes e0 + ext_bytes e -> is_u32 alloc ->
  pool_ok (with_live p alloc hwm (tp_devices p) (<[t := e]> (tp_extents p))).
Proof.
  intros Hp Ht He Ha H32. destruct Hp as [Hbar Hq Hnd Hne Hdev Hext Hdd Hee Hs Hs32].
  constructor; simpl; [done|done|done|by rewrite length_insert|done| |done| | |done].
  - intros i x [[-> ->]|[Hn Hx]]%lookup_insert_inv Hu; [by apply He|by apply (Hext i)].
  - intros i j x y Hij [[-> ->]|[Hi Hx]]%lookup_insert_inv [[-> ->]|[Hj Hy]]%lookup_insert_inv Hu1 Hu2.
    + done.
    + by apply He with j.
    + pose proof (proj2 (He Hu2) i x Hij Hx Hu1). unfold ext_disjoint, disjoint_range in *. lia.
    + by apply Hee with i j.
  - unfold live_bytes in *. simpl. rewrite (sumZ_insert _ _ _ _ _ Ht). lia.
Qed.

(** ** Device bounds *)

(** The slot a request replaces: the first live partition of its type, if any. *)
Definition slot_of (p : virt_tenant_pool) (ty : Z) : option nat :=
  find_idx (fun d => dp_in_use d && (dp_dev_type d =? ty)) (tp_devices p).

Lemma slot_of_Some p ty i :
  slot_of p ty = Some i -> exists d, tp_devices p !! i = Some d /\ dp_in_use d = true /\ dp_dev_type d = ty.
Proof. intros (d & Hd & Hf & _)%find_idx_Some. bool_hyps. by exists d. Qed.

Lemma slot_of_None p ty i d :
  slot_of p ty = None -> tp_devices p !! i = Some d -> dp_in_use d = true -> dp_dev_type d <> ty.
Proof.
  intros H Hd Hu. pose proof (proj1 (find_idx_None _ _) H i d Hd) as Hf. cbv beta in Hf.
  rewrite Hu in Hf. simpl in Hf. by bool_hyps.
Qed.

Lemma allocated_excl_spec p ty :
  pool_ok p -> 0 <= allocated_excl p (slot_of p ty) /\
  allocated_excl p (slot_of p ty) =
    tp_allocated_bytes p - match slot_of p ty with
                           | Some i => match tp_devices p !! i with Some d => dev_bytes d | None => 0 end
                           | None => 0 end.
Proof.
  intros Hp. unfold allocated_excl. destruct (slot_of p ty) as [i|] eqn:E.
  2:{ destruct (po_sum32 p Hp). lia. }
  destruct (slot_of_Some _ _ _ E) as (d & Hd & Hu & _). rewrite Hd.
  pose proof (dev_bytes_le p i d Hp Hd) as Hle. pose proof (po_bar p Hp).
  destruct (po_dev p Hp i d Hd Hu). unfold dev_bytes in *. rewrite Hu in *.
  rewrite u32_id by lia. destruct (tp_allocated_bytes p >=? _) eqn:Eg; bool_hyps; lia.
Qed.

Lemma quota_left_le q a x : 0 <= q -> 0 <= a -> 0 < x -> x <= quota_left q a -> a + x <= q.
Proof. unfold quota_left. intros. destruct (q >? a) eqn:E; bool_hyps; lia. Qed.

Lemma quota_left_range q a : is_u32 q -> 0 <= a -> is_u32 (quota_left q a).
Proof. unfold quota_left, is_u32. intros. destruct (q >? a) eqn:E; bool_hyps; lia. Qed.

Lemma quota_left_sum q a x : is_u32 q -> is_u32 a -> 0 <= x -> x <= quota_left q a -> is_u32 (a + x).
Proof. unfold quota_left, is_u32. intros. destruct (q >? a) eqn:E; bool_hyps; lia. Qed.

(** A committed placement keeps the pool well formed and within its quota. *)
Lemma commit_ok p req k rs asz ds as_ p' r z :
  pool_ok p -> 0 <= rs -> 0 <= asz ->
  placed_ok p (slot_of p (bq_dev_type req)) k rs asz ds as_ ->
  rs + asz <= quota_left (tp_quota_max p) (allocated_excl p (slot_of p (bq_dev_type req))) ->
  commit_bounds p req (slot_of p (bq_dev_type req)) (allocated_excl p (slot_of p (bq_dev_type req)))
    rs asz ds as_ = (p', r, z) ->
  pool_ok p' /\ tp_bar_size p' = tp_bar_size p.
Proof.
  intros Hp Hrs Ha Hpl Hq. destruct (allocated_excl_spec p (bq_dev_type req) Hp) as [He0 He].
  set (ex := allocated_excl p (slot_of p (bq_dev_type req))) in *. clearbody ex.
  assert (H32 : is_u32 (ex + (rs + asz))).
  { apply (quota_left_sum (tp_quota_max p)); [by apply po_quota| |lia|done].
    pose proof (po_sum32 p Hp). unfold is_u32 in *. destruct (slot_of p (bq_dev_type req)) as [i|] eqn:E; [|lia].
    destruct (slot_of_Some _ _ _ E) as (d & Hd & Hu & _). rewrite Hd in He.
    pose proof (dev_bytes_nonneg p d Hp (proj2 (list_elem_of_lookup _ _) (ex_intro _ i Hd))). lia. }
  unfold commit_bounds. destruct (match slot_of p _ with Some i => Some i | None => _ end) as [t|] eqn:Et.
  2:{ by intros [= <- _ _]. }
  assert (Ht : exists d0, tp_devices p !! t = Some d0 /\ ex = tp_allocated_bytes p - dev_bytes d0 /\
               forall i d', i <> t -> tp_devices p !! i = Some d' -> dp_in_use d' = true ->
                 slot_of p (bq_dev_type req) <> Some i /\ bq_dev_type req <> dp_dev_type d').
  { destruct (slot_of p (bq_dev_type req)) as [i|] eqn:E.
    - injection Et as <-. destruct (slot_of_Some _ _ _ E) as (d & Hd & Hu & Hty). rewrite Hd in He.
      exists d. split_and!; [done..|]. intros j d' Hj Hd' Hu'. split; [congruence|].
      rewrite <- Hty. by apply (po_devs p Hp i j d d').
    - apply find_idx_Some in Et as (d & Hd & Hu & _). apply negb_true_iff in Hu.
      exists d. unfold dev_bytes. rewrite Hu. split_and!; [done|lia|].
      intros j d' Hj Hd' Hu'. split; [done|]. intros Heq. by apply (slot_of_None _ _ j d' E). }
  destruct Ht as (d0 & Hd0 & Hex & Hoth). intros [= <- _ _]. split; [|done].
  rewrite u32_id by (unfold is_u32 in H32; lia).
  assert (Eas : (if asz >? 0 then as_ else 0) = as_).
  { destruct (asz >? 0) eqn:E; [done|]. bool_hyps. symmetry. apply (pl_none _ _ _ _ _ _ _ Hpl). lia. }
  rewrite Eas. apply (pool_ok_set_dev p t d0); [done..| |rewrite Hex; unfold dev_bytes; simpl; lia|].
  2:{ by replace (ex + rs + asz) with (ex + (rs + asz)) by lia. }
  intros _. destruct Hpl as [P1 P2 _ P4 P5 P6 P7 P8]. split; [constructor; simpl; done|].
  intros i d' Hi Hd' Hu'. destruct (Hoth i d' Hi Hd' Hu') as [Hs Hty].
  split; [|done]. unfold dev_disjoint; simpl. by apply (P8 i).
Qed.

Lemma align_up32_range v k : 0 <= k <= 31 -> is_u32 (align_up32 v (2 ^ k)).
Proof.
  intros Hk. pose proof (u32_range (v + 2 ^ k - 1)) as Hr. unfold align_up32, is_u32 in *.
  change (Z.land (u32 (v + 2 ^ k - 1)) (not32 (2 ^ k - 1))) with (align_down32 (u32 (v + 2 ^ k - 1)) (2 ^ k)).
  rewrite align_down32_spec by lia. assert (0 < 2 ^ k) by (apply Z.pow_pos_nonneg; lia).
  pose proof (Z.mod_pos_bound (u32 (v + 2 ^ k - 1)) (2 ^ k) ltac:(lia)).
  pose proof (Z.mod_le (u32 (v + 2 ^ k - 1)) (2 ^ k) ltac:(lia) ltac:(lia)). lia.
Qed.

Lemma bounds_arena_range req : breq_ok req -> is_u32 (bounds_arena_sz req).
Proof.
  intros (_ & _ & _ & Ha & _). unfold bounds_arena_sz. destruct (_ >? 0); [|done].
  apply (align_up32_range _ 12). lia.
Qed.

(** The size kept after the quota check never exceeds what was asked nor what is left. *)
Lemma quota_clamp_inl req k rs asz avail rs' :
  0 <= k <= 31 -> 0 <= rs -> 0 <= asz -> is_u32 avail ->
  quota_clamp req (2 ^ k) rs asz avail = inl rs' ->
  0 <= rs' <= rs /\ rs' + asz <= avail /\
  (rs' = rs \/ (has_flag (bq_flags req) AMBA_VIRT_DEV_F_BEST_EFFORT = true /\ 0 < rs' /\
                bq_dev_type req <> AMBA_VIRT_DEV_TYPE_CAVALRY /\ bq_dev_type req <> AMBA_VIRT_DEV_TYPE_GDMA)).
Proof.
  intros Hk Hr Ha Hv. unfold quota_clamp.
  destruct (rs + asz >? avail) eqn:E1; [|intros [= <-]; bool_hyps; lia].
  destruct (_ && _ && _) eqn:E2; [|done]. destruct (avail >? asz) eqn:E3; [|done].
  destruct (_ >? 0) eqn:E4; [|done]. intros [= <-]. bool_hyps. unfold is_u32 in Hv.
  rewrite align_down32_spec in * by lia.
  pose proof (Z.mod_pos_bound (avail - asz) (2 ^ k) (Z.pow_pos_nonneg 2 k ltac:(lia) ltac:(lia))).
  split_and!; [lia..|]. right. split_and!; [done|lia|done..].
Qed.

(** What a granted device gets. *)
Record granted (p p' : virt_tenant_pool) (req : amba_virt_dev_bounds_req) (r : amba_virt_dev_bounds_resp) : Prop := {
  gr_slot : exists i d, tp_devices p' !! i = Some d /\ dp_in_use d = true /\ dp_dev_type d = bq_dev_type req /\
              dp_base_offset d = bp_granted_offset r /\ dp_size d = bp_granted_size r /\
              dp_rpc_arena_size d = bounds_arena_sz req /\ dp_rpc_arena_offset d = bp_rpc_arena_offset r /\
              (forall j d', j <> i -> tp_devices p !! j = Some d' -> tp_devices p' !! j = Some d');
  gr_aligned : bp_granted_offset r mod bounds_align req = 0;
  gr_quota : tp_allocated_bytes p' <= Z.max (tp_quota_max p) (tp_allocated_bytes p);
  gr_exact : has_flag (bq_flags req) AMBA_VIRT_DEV_F_BEST_EFFORT = false ->
             bp_granted_size r = align_up32 (bq_requested_size req) (bounds_align req);
}.

(** A refusal always carries a non-zero status. *)
Lemma place_refused p ex b k rs asz avail tot pref r :
  (if b : bool then place_fixed p ex pref k rs asz avail else place_auto p ex k rs asz tot avail) =
    Some (Refused r) -> bp_status r <> 0.
Proof.
  destruct b; unfold place_fixed, place_auto; repeat case_match; intros; simplify_eq; done.
Qed.

Lemma quota_refused req k rs asz avail r : quota_clamp req k rs asz avail = inr r -> bp_status r <> 0.
Proof. unfold quota_clamp. repeat case_match; intros; simplify_eq; done. Qed.

Lemma commit_granted p req k rs asz ds as_ p' r z :
  pool_ok p -> 0 <= rs -> asz = bounds_arena_sz req -> 0 <= asz -> bounds_align req = k ->
  placed_ok p (slot_of p (bq_dev_type req)) k rs asz ds as_ ->
  rs + asz <= quota_left (tp_quota_max p) (allocated_excl p (slot_of p (bq_dev_type req))) ->
  (has_flag (bq_flags req) AMBA_VIRT_DEV_F_BEST_EFFORT = false -> rs = align_up32 (bq_requested_size req) k) ->
  commit_bounds p req (slot_of p (bq_dev_type req)) (allocated_excl p (slot_of p (bq_dev_type req)))
    rs asz ds as_ = (p', r, z) ->
  bp_status r = 0 -> granted p p' req r.
Proof.
  intros Hp Hrs Ea Ha Ek Hpl Hq Hex. destruct (allocated_excl_spec p (bq_dev_type req) Hp) as [He0 He].
  unfold commit_bounds. destruct (match slot_of p _ with Some i => Some i | None => _ end) as [t|] eqn:Et.
  2:{ intros [= _ <- _]. done. }
  assert (Ht : exists d0, tp_devices p !! t = Some d0).
  { destruct (slot_of p (bq_dev_type req)) as [i|] eqn:E.
    - injection Et as <-. destruct (slot_of_Some _ _ _ E) as (d & Hd & _). by exists d.
    - apply find_idx_Some in Et as (d & Hd & _). by exists d. }
  destruct Ht as [d0 Hd0]. intros [= <- <- _] _. constructor; simpl.
  - exists t. eexists. split; [apply list_lookup_insert_eq; by eapply lookup_lt_Some|]. simpl.
    split_and!; [done..|]. intros j d' Hj Hd'. by rewrite list_lookup_insert_ne.
  - rewrite Ek. apply Hpl.
  - assert (Hle : allocated_excl p (slot_of p (bq_dev_type req)) <= tp_allocated_bytes p).
    { rewrite He. destruct (slot_of p (bq_dev_type req)) as [i|] eqn:E; [|lia].
      destruct (slot_of_Some _ _ _ E) as (d & Hd & _). rewrite Hd.
      pose proof (dev_bytes_nonneg p d Hp (proj2 (list_elem_of_lookup _ _) (ex_intro _ i Hd))). lia. }
    set (ex := allocated_excl _ _) in *. clearbody ex.
    pose proof (u32_le (ex + rs + asz) ltac:(lia)). unfold quota_left in Hq.
    destruct (tp_quota_max p >? ex) eqn:E; bool_hyps; lia.
  - rewrite Ek. done.
Qed.

(** ** One tenant *)

Lemma tenant_set_device_bounds_spec p req :
  pool_ok p -> breq_ok req ->
  exists p' r z, tenant_set_device_bounds p req = Some (p', r, z) /\ pool_ok p' /\
    tp_bar_size p' = tp_bar_size p /\ tp_cid p' = tp_cid p /\ tp_tenant_idx p' = tp_tenant_idx p /\
    tp_in_use p' = tp_in_use p /\ (bp_status r = 0 -> granted p p' req r).
Proof.
  intros Hp Hq. unfold tenant_set_device_bounds.
  destruct (_ || _) eqn:Eal; [by do 3 eexists|].
  destruct (has_align req Hq Eal) as (k & Hk & Ek). rewrite Ek.
  pose proof (bounds_arena_range req Hq) as Harena.
  pose proof (align_up32_range (bq_requested_size req) k ltac:(lia)) as Hsize.
  unfold is_u32 in Harena, Hsize.
  set (rs := align_up32 (bq_requested_size req) (2 ^ k)) in *.
  destruct (_ >? tp_bar_size p) eqn:E1; [by do 3 eexists|].
  destruct (negb (bq_preferred_offset req =? AMBA_VIRT_OFFSET_AUTO) && negb _) eqn:E2; [by do 3 eexists|].
  destruct (negb (bq_preferred_offset req =? AMBA_VIRT_OFFSET_AUTO) && (_ >? _)) eqn:E3; [by do 3 eexists|].
  change (find_idx _ (tp_devices p)) with (slot_of p (bq_dev_type req)).
  assert (Hmain : exists p' r z,
    bounds_allocate p req (slot_of p (bq_dev_type req)) (2 ^ k) rs (bounds_arena_sz req) = Some (p', r, z) /\
    pool_ok p' /\ tp_bar_size p' = tp_bar_size p /\ tp_cid p' = tp_cid p /\
    tp_tenant_idx p' = tp_tenant_idx p /\ tp_in_use p' = tp_in_use p /\ (bp_status r = 0 -> granted p p' req r)).
  2:{ destruct (slot_of p (bq_dev_type req)); [|exact Hmain].
      destruct (negb (has_flag (bq_flags req) AMBA_VIRT_DEV_F_REPLACE)); [by do 3 eexists|exact Hmain]. }
  unfold bounds_allocate. destruct (allocated_excl_spec p (bq_dev_type req) Hp) as [He0 He].
  pose proof (quota_left_range _ _ (po_quota p Hp) He0) as Hav.
  destruct (quota_clamp req (2 ^ k) rs _ _) as [rs'|r'] eqn:Eq.
  2:{ do 3 eexists. split; [done|]. split_and!; [done..|]. intros Hst. by apply quota_refused in Eq. }
  apply quota_clamp_inl in Eq as (Hr1 & Hr2 & Hr3); [|lia..|done]. bool_hyps.
  assert (Hpl : exists pl,
    (if negb (bq_preferred_offset req =? AMBA_VIRT_OFFSET_AUTO)
     then place_fixed p (slot_of p (bq_dev_type req)) (bq_preferred_offset req) (2 ^ k) rs' (bounds_arena_sz req)
            (quota_left (tp_quota_max p) (allocated_excl p (slot_of p (bq_dev_type req))))
     else place_auto p (slot_of p (bq_dev_type req)) (2 ^ k) rs' (bounds_arena_sz req) (rs' + bounds_arena_sz req)
            (quota_left (tp_quota_max p) (allocated_excl p (slot_of p (bq_dev_type req))))) = Some pl /\
    (forall ds as_, pl = Placed ds as_ ->
       placed_ok p (slot_of p (bq_dev_type req)) (2 ^ k) rs' (bounds_arena_sz req) ds as_)).
  { destruct (negb (bq_preferred_offset req =? AMBA_VIRT_OFFSET_AUTO)) eqn:E4.
    - simpl in E2, E3. bool_hyps. destruct Hq as (_ & _ & Hpref & _). unfold is_u32 in Hpref.
      apply place_fixed_spec; (done || lia).
    - apply place_auto_spec; [done|lia..]. }
  destruct Hpl as (pl & Epl & Hpl). rewrite Epl. destruct pl as [ds as_|r'].
  2:{ do 3 eexists. split; [done|]. split_and!; [done..|]. intros Hst. by apply place_refused in Epl. }
  specialize (Hpl ds as_ eq_refl). destruct (commit_bounds _ _ _ _ _ _ _ _) as [[p' r] z] eqn:Ec.
  do 3 eexists. split; [done|]. assert (Hx := Ec). apply (commit_ok _ _ (2 ^ k)) in Hx as [Hok Hbar]; [|done || lia..].
  split_and!; [done..| | | |].
  1-3: revert Ec; unfold commit_bounds; repeat case_match; intros; by simplify_eq.
  apply (commit_granted p req (2 ^ k) rs' (bounds_arena_sz req) ds as_ p' r z); try (done || lia).
  intros Hbe. destruct Hr3 as [->|(Hb & _)]; [done|congruence].
Qed.

Lemma extent_search_spec p fuel k sz cand :
  pool_ok p -> 0 <= k <= 31 -> 0 <= cand <= 2 ^ 31 -> cand mod 2 ^ k = 0 -> 0 < sz <= tp_bar_size p ->
  (count_above dev_next cand (tp_devices p) + count_above e_end cand (tp_extents p) < fuel)%nat ->
  exists c, extent_search fuel p (2 ^ k) sz cand = Some c /\ 0 <= c <= 2 ^ 31 /\ c mod 2 ^ k = 0 /\
    (c + sz <= tp_bar_size p ->
     (forall i d, tp_devices p !! i = Some d -> dp_in_use d = true -> span_clear c (c + sz) d) /\
     (forall i e, tp_extents p !! i = Some e -> me_in_use e = true ->
        disjoint_range c (c + sz) (me_offset e) (me_offset e + me_size e))).
Proof.
  intros Hp Hk. pose proof (po_bar p Hp) as Hbar.
  revert cand. induction fuel as [|f IH]; intros cand Hc Hm Hsz Hf; [lia|]. simpl.
  rewrite (u32_id (cand + sz)) by lia.
  destruct (Z.leb_spec (cand + sz) (tp_bar_size p)) as [Hle|Hgt].
  2:{ exists cand. split_and!; [done|lia..|done|lia]. }
  destruct (find_idx _ (tp_devices p)) as [i|] eqn:Ed.
  - apply find_idx_Some in Ed as (d & Hd & Hh & _). rewrite Hd. bool_hyps.
    pose proof (po_dev p Hp i d Hd H) as Hok. pose proof (span_hits_next _ Hbar _ _ _ Hok H0).
    destruct (dev_next_bounds _ Hbar d Hok) as (Hn & _).
    destruct (align_next _ Hbar (dev_next d) k Hn Hk) as [Ha1 Ha2].
    pose proof (align_up32_half (dev_next d) k ltac:(lia) Hk).
    pose proof (count_above_lt dev_next cand (align_up32 (dev_next d) (2 ^ k)) _ i d Hd).
    pose proof (count_above_mono e_end cand (align_up32 (dev_next d) (2 ^ k)) (tp_extents p)).
    apply IH; [lia|done|done|lia].
  - destruct (find_idx _ (tp_extents p)) as [i|] eqn:Ee.
    + apply find_idx_Some in Ee as (e & He & Hh & _). rewrite He. unfold ranges_overlap in Hh. bool_hyps.
      pose proof (po_ext p Hp i e He H) as Hok. pose proof (e_end_ok _ Hbar e Hok) as Een.
      assert (Hn : 0 <= e_end e <= tp_bar_size p) by (destruct Hok; lia).
      destruct (align_next _ Hbar (e_end e) k Hn Hk) as [Ha1 Ha2].
      pose proof (align_up32_half (e_end e) k ltac:(lia) Hk).
      pose proof (count_above_lt e_end cand (align_up32 (e_end e) (2 ^ k)) _ i e He).
      pose proof (count_above_mono dev_next cand (align_up32 (e_end e) (2 ^ k)) (tp_devices p)).
      apply IH; [lia|done|done|lia].
    + exists cand. split_and!; [done|lia..|done|]. intros _. split.
      * intros i d Hd Hu. pose proof (proj1 (find_idx_None _ _) Ed i d Hd) as Hh. cbv beta in Hh.
        rewrite Hu in Hh. apply (span_hits_clear _ Hbar); [by apply (po_dev p Hp i)|lia|done].
      * intros i e He Hu. pose proof (proj1 (find_idx_None _ _) Ee i e He) as Hh. cbv beta in Hh.
        rewrite Hu, (e_end_ok _ Hbar) in Hh by (by apply (po_ext p Hp i)). unfold ranges_overlap, disjoint_range in *.
        simpl in Hh. apply andb_false_iff in Hh as [Hh|Hh]; bool_hyps; lia.
Qed.

(** What an allocated extent gets: a range of the BAR clear of every live partition, arena and extent. *)
Record extent_granted (p p' : virt_tenant_pool) (r : amba_virt_mem_resp) : Prop := {
  eg_off : 0 <= mp_bar_offset r;
  eg_size : 0 < mp_allocated_size r;
  eg_end : mp_bar_offset r + mp_allocated_size r <= tp_bar_size p;
  eg_devs : forall i d, tp_devices p !! i = Some d -> dp_in_use d = true ->
              span_clear (mp_bar_offset r) (mp_bar_offset r + mp_allocated_size r) d;
  eg_exts : forall i e, tp_extents p !! i = Some e -> me_in_use e = true ->
              disjoint_range (mp_bar_offset r) (mp_bar_offset r + mp_allocated_size r)
                             (me_offset e) (me_offset e + me_size e);
  eg_quota : tp_allocated_bytes p' = tp_allocated_bytes p + mp_allocated_size r /\
             tp_allocated_bytes p' <= tp_quota_max p;
  eg_slot : exists i e0 e, tp_extents p !! i = Some e0 /\ me_in_use e0 = false /\
              tp_extents p' = <[i := e]> (tp_extents p) /\ tp_devices p' = tp_devices p /\
              me_in_use e = true /\ me_offset e = mp_bar_offset r /\ me_size e = mp_allocated_size r;
}.

Lemma tenant_alloc_extent_spec p req phys :
  pool_ok p -> mreq_ok req ->
  exists p' r z, tenant_alloc_extent p req phys = Some (p', r, z) /\ pool_ok p' /\
    tp_bar_size p' = tp_bar_size p /\ tp_cid p' = tp_cid p /\ tp_tenant_idx p' = tp_tenant_idx p /\
    tp_in_use p' = tp_in_use p /\ (mp_status r = 0 -> extent_granted p p' r).
Proof.
  intros Hp [Hs Ha]. pose proof (po_bar p Hp) as Hbar. unfold tenant_alloc_extent.
  set (al := if mq_align req =? 0 then 4096 else mq_align req).
  assert (Hal : 0 < al < 2 ^ 32) by (unfold al, is_u32 in *; case_match; bool_hyps; lia).
  clearbody al. destruct (_ || _) eqn:E0; [by do 3 eexists|]. bool_hyps.
  destruct (pow2_test_32 al Hal H0) as (k & Hk & ->).
  pose proof (align_up32_range (mq_size req) k Hk) as Hsz.
  set (sz := align_up32 (mq_size req) (2 ^ k)) in *. clearbody sz. unfold is_u32 in Hsz.
  destruct (sz =? 0) eqn:E1; [by do 3 eexists|].
  destruct (sz >? tp_bar_size p) eqn:E2; [by do 3 eexists|].
  destruct (sz >? quota_left _ _) eqn:E3; [by do 3 eexists|].
  destruct (find_idx _ (tp_extents p)) as [slot|] eqn:E4; [|by do 3 eexists].
  apply find_idx_Some in E4 as (e0 & He0 & Hu0 & _). bool_hyps.
  destruct (extent_search_spec p (S (length (tp_devices p) + length (tp_extents p))) k sz 0)
    as (c & -> & Hc & Hcm & Hclear); [done|lia|lia| |lia| |].
  { apply Z.mod_0_l. apply Z.pow_nonzero; lia. }
  { pose proof (count_above_length dev_next 0 (tp_devices p)).
    pose proof (count_above_length e_end 0 (tp_extents p)). lia. }
  rewrite (u32_id (c + sz)) by lia.
  destruct (c + sz >? tp_bar_size p) eqn:E5; [by do 3 eexists|]. bool_hyps.
  destruct (Hclear ltac:(lia)) as [Hcd Hce]. pose proof (po_sum32 p Hp) as H32. unfold is_u32 in H32.
  pose proof (quota_left_le (tp_quota_max p) (tp_allocated_bytes p) sz
                (proj1 (po_quota p Hp)) ltac:(lia) ltac:(lia) ltac:(lia)) as Hql.
  assert (Hq : tp_quota_max p < 2 ^ 32) by apply (po_quota p Hp).
  rewrite (u32_id (tp_allocated_bytes p + sz)) by lia.
  do 3 eexists. split; [done|]. split_and!; [|done..|].
  - apply (pool_ok_set_ext p slot e0); [done..| |unfold ext_bytes; rewrite Hu0; simpl; lia|unfold is_u32; lia].
    intros _. split; [constructor; simpl; lia|]. intros i e Hi He Hu. by apply (Hce i).
  - intros _. constructor; simpl; [lia..|done|done|lia|].
    by exists slot, e0; eexists.
Qed.

(** ** The tenant table *)

(** An entry that is not in use holds no live partition and no live extent. *)
Definition idle (p : virt_tenant_pool) : Prop :=
  length (tp_devices p) = VIRT_MEM_MAX_DEVICES /\ length (tp_extents p) = VIRT_MEM_MAX_EXTENTS /\
  (forall i d, tp_devices p !! i = Some d -> dp_in_use d = false) /\
  (forall i e, tp_extents p !! i = Some e -> me_in_use e = false).

Record table_ok (st : pool_state) : Prop := {
  to_len : length (g_tenant_pools st) = VIRT_MEM_MAX_TENANTS;
  to_live : forall i p, g_tenant_pools st !! i = Some p -> tp_in_use p = true -> pool_ok p;
  to_idle : forall i p, g_tenant_pools st !! i = Some p -> tp_in_use p = false -> idle p;
  to_cid : forall i j p q, g_tenant_pools st !! i = Some p -> g_tenant_pools st !! j = Some q ->
             tp_in_use p = true -> tp_in_use q = true -> tp_cid p = tp_cid q -> i = j;
  to_idx : forall i j p q, g_tenant_pools st !! i = Some p -> g_tenant_pools st !! j = Some q ->
             tp_in_use p = true -> tp_in_use q = true -> tp_tenant_idx p = tp_tenant_idx q -> i = j;
  to_bar : 0 < g_default_bar_size st < 2 ^ 31;
}.

Lemma tenant_entry_Some cid st i p :
  tenant_entry cid st = Some (i, p) ->
  g_pool_initialized st = true /\ g_tenant_pools st !! i = Some p /\ tp_in_use p = true /\ tp_cid p = cid.
Proof.
  unfold tenant_entry, virt_mem_pool_get_tenant. destruct (g_pool_initialized st); [|done]. simpl.
  destruct (find_idx _ _) as [k|] eqn:E; [|done]. apply find_idx_Some in E as (q & Hq & Hf & _).
  rewrite Hq. intros [= <- <-]. unfold entry_of in Hf. by bool_hyps.
Qed.

(** The table with an entry whose identity is unchanged. *)
Lemma table_ok_put st i p p' :
  table_ok st -> g_tenant_pools st !! i = Some p -> tp_in_use p = true -> pool_ok p' ->
  tp_cid p' = tp_cid p -> tp_tenant_idx p' = tp_tenant_idx p -> tp_in_use p' = tp_in_use p ->
  table_ok (put_entry i p' st).
Proof.
  intros [H1 H2 H3 H4 H5 H6] Hi Hu Hok Ec Ei Eu. constructor; simpl; [by rewrite length_insert| | | | |done].
  - intros j q [[-> ->]|[_ Hq]]%lookup_insert_inv Hq'; [done|by apply (H2 j)].
  - intros j q [[-> ->]|[_ Hq]]%lookup_insert_inv Hq'; [congruence|by apply (H3 j)].
  - intros j k q r [[-> ->]|[Hj Hq]]%lookup_insert_inv [[-> ->]|[Hk Hr]]%lookup_insert_inv U1 U2 E; [done|..].
    + apply (H4 i k p r); congruence.
    + apply (H4 j i q p); congruence.
    + by apply (H4 j k q r).
  - intros j k q r [[-> ->]|[Hj Hq]]%lookup_insert_inv [[-> ->]|[Hk Hr]]%lookup_insert_inv U1 U2 E; [done|..].
    + apply (H5 i k p r); congruence.
    + apply (H5 j i q p); congruence.
    + by apply (H5 j k q r).
Qed.

Lemma release_idle p : pool_ok p \/ idle p -> idle (pool_entry_release_locked p).
Proof.
  intros H. unfold idle, pool_entry_release_locked; simpl. rewrite !length_map. split_and!.
  - destruct H as [[]|[]]; done.
  - destruct H as [[]|(_ & ? & _)]; done.
  - by intros i d (x & _ & ->)%lookup_map_inv.
  - by intros i e (x & _ & ->)%lookup_map_inv.
Qed.

Lemma idle_pool_ok p cid idx bar q :
  idle p -> 0 < bar < 2 ^ 31 -> is_u32 q ->
  pool_ok (mk_pool cid idx bar 0 q 0 0 (tp_devices p) (tp_extents p) true).
Proof.
  intros (H1 & H2 & H3 & H4) Hb Hq. constructor; simpl; try done.
  - intros i d Hd Hu. rewrite (H3 i d Hd) in Hu. done.
  - intros i e He Hu. rewrite (H4 i e He) in Hu. done.
  - intros i j d1 d2 _ Hd _ Hu. rewrite (H3 i d1 Hd) in Hu. done.
  - intros i j e1 e2 _ He _ Hu. rewrite (H4 i e1 He) in Hu. done.
  - unfold live_bytes; simpl. rewrite !sumZ_zero; [done| |].
    + intros i e He. unfold ext_bytes. by rewrite (H4 i e He).
    + intros i d Hd. unfold dev_bytes. by rewrite (H3 i d Hd).
Qed.

Lemma pool_ok_resize p idx bar q :
  pool_ok p -> tp_bar_size p <= bar < 2 ^ 31 -> is_u32 q ->
  pool_ok (mk_pool (tp_cid p) idx bar (tp_quota_min p) q (tp_allocated_bytes p) (tp_high_water_mark p)
                   (tp_devices p) (tp_extents p) (tp_in_use p)).
Proof.
  intros [Hb Hq H1 H2 H3 H4 H5 H6 H7 H8] Hbar Hq'. constructor; simpl; try done; [lia|..].
  - intros i d Hd Hu. destruct (H3 i d Hd Hu). constructor; lia.
  - intros i e He Hu. destruct (H4 i e He Hu). constructor; lia.
Qed.

(** Releasing a set of entries keeps the table well formed. *)
Lemma table_ok_release st (f : virt_tenant_pool -> bool) :
  table_ok st ->
  table_ok (set_pools st (map (fun p => if f p then pool_entry_release_locked p else p) (g_tenant_pools st))).
Proof.
  intros [H1 H2 H3 H4 H5 H6]. constructor; simpl; [by rewrite length_map| | | | |done].
  - intros i p (x & Hx & ->)%lookup_map_inv. destruct (f x); [done|]. by apply (H2 i).
  - intros i p (x & Hx & ->)%lookup_map_inv. destruct (f x); [|by apply (H3 i)]. intros _.
    apply release_idle. destruct (tp_in_use x) eqn:E; [left; by apply (H2 i)|right; by apply (H3 i)].
  - intros i j p q (x & Hx & ->)%lookup_map_inv (y & Hy & ->)%lookup_map_inv.
    destruct (f x), (f y); simpl; [done..|]. by apply H4.
  - intros i j p q (x & Hx & ->)%lookup_map_inv (y & Hy & ->)%lookup_map_inv.
    destruct (f x), (f y); simpl; [done..|]. by apply H5.
Qed.

(** A fresh or resized identity in one slot. *)
Lemma table_ok_alter st i (f : virt_tenant_pool -> virt_tenant_pool) p :
  table_ok st -> g_tenant_pools st !! i = Some p -> pool_ok (f p) -> tp_in_use (f p) = true ->
  (forall j q, j <> i -> g_tenant_pools st !! j = Some q -> tp_in_use q = true ->
     tp_cid q <> tp_cid (f p) /\ tp_tenant_idx q <> tp_tenant_idx (f p)) ->
  table_ok (set_pools st (alter f i (g_tenant_pools st))).
Proof.
  intros [H1 H2 H3 H4 H5 H6] Hi Hok Hu Hoth. constructor; simpl; [by rewrite length_alter| | | | |done].
  - intros j q [[-> (x & Hx & ->)]|[_ Hq]]%lookup_alter_inv Hq'; [congruence|by apply (H2 j)].
  - intros j q [[-> (x & Hx & ->)]|[_ Hq]]%lookup_alter_inv Hq'; [congruence|by apply (H3 j)].
  - intros j k q r [[-> (x & Hx & ->)]|[Hj Hq]]%lookup_alter_inv [[-> (y & Hy & ->)]|[Hk Hr]]%lookup_alter_inv U1 U2 E;
      simplify_eq; [done|..].
    + by destruct (Hoth k r Hk Hr U2).
    + by destruct (Hoth j q Hj Hq U1).
    + by apply (H4 j k q r).
  - intros j k q r [[-> (x & Hx & ->)]|[Hj Hq]]%lookup_alter_inv [[-> (y & Hy & ->)]|[Hk Hr]]%lookup_alter_inv U1 U2 E;
      simplify_eq; [done|..].
    + by destruct (Hoth k r Hk Hr U2).
    + by destruct (Hoth j q Hj Hq U1).
    + by apply (H5 j k q r).
Qed.

(** A step gives no live tenant a BAR of 2 GiB or more, and does not shrink the BAR of a tenant that stays. *)
Definition bars_kept (st st' : pool_state) : Prop :=
  forall i p', g_tenant_pools st' !! i = Some p' -> tp_in_use p' = true ->
    tp_bar_size p' < 2 ^ 31 /\
    forall p, g_tenant_pools st !! i = Some p -> tp_in_use p = true -> tp_cid p = tp_cid p' -> tp_bar_size p <= tp_bar_size p'.

Lemma register_table_ok cid idx bar q st rc st' :
  table_ok st -> is_u32 bar -> is_u32 q -> bars_kept st st' ->
  virt_mem_pool_register_tenant cid idx bar q st = (rc, st') -> table_ok st'.
Proof.
  intros Hok Hb Hq Hg. unfold is_u32 in Hb. unfold virt_mem_pool_register_tenant.
  destruct (g_pool_initialized st); [|by intros [= <- <-]]. simpl.
  set (rel := fun p => tp_in_use p && negb (tp_cid p =? cid) && (tp_tenant_idx p =? idx)).
  pose proof (table_ok_release st rel Hok) as Hrel.
  set (ps := map (fun p => if rel p then pool_entry_release_locked p else p) (g_tenant_pools st)) in *.
  change (map _ (g_tenant_pools st)) with ps.
  assert (Hfree : forall j p, ps !! j = Some p -> tp_in_use p = true -> tp_cid p <> cid -> tp_tenant_idx p <> idx).
  { intros j p (x & Hx & ->)%lookup_map_inv. destruct (rel x) eqn:E; simpl; [done|]. intros Hu Hc Ht.
    unfold rel in E. rewrite Hu, Ht, Z.eqb_refl in E. destruct (Z.eqb_spec (tp_cid x) cid); done. }
  destruct (find_idx (entry_of cid) ps) as [i|] eqn:E.
  - apply find_idx_Some in E as (p & Hp & Hf & _). intros [= <- <-]. pose proof Hf as Hf'.
    unfold entry_of in Hf. bool_hyps. pose proof (to_live _ Hrel i p Hp H) as Hpok.
    apply (table_ok_alter (set_pools st ps) i _ p Hrel Hp).
    + pose proof (po_bar p Hpok). pose proof (po_quota p Hpok).
      apply pool_ok_resize; [done| |by destruct (q >? 0)].
      assert (Hgi := Hg i). cbn [set_pools g_tenant_pools] in Hgi. rewrite list_lookup_alter_eq, Hp in Hgi. specialize (Hgi _ eq_refl).
      apply lookup_map_inv in Hp as (x & Hx & ->).
      destruct (rel x) eqn:Er; [done|]. cbn in Hgi. destruct (Hgi H) as [Hg1 Hg2]. specialize (Hg2 x Hx H eq_refl). lia.
    + done.
    + simpl. intros j r Hj Hr Hu.
      assert (tp_cid r <> cid) by (intros He; apply Hj; apply (to_cid _ Hrel j i r p); simpl; congruence).
      split; [congruence|]. by apply (Hfree j).
  - destruct (find_idx (fun p => negb (tp_in_use p)) ps) as [i|] eqn:E2; [|by intros [= <- <-]].
    apply find_idx_Some in E2 as (p & Hp & Hf & _). intros [= <- <-]. bool_hyps.
    pose proof (to_bar _ Hok) as Hdb.
    assert (Hnew : 0 < (if bar >? 0 then bar else g_default_bar_size st) < 2 ^ 31).
    { assert (Hgi := Hg i). cbn [set_pools g_tenant_pools] in Hgi. rewrite list_lookup_alter_eq, Hp in Hgi. specialize (Hgi _ eq_refl). cbn in Hgi. destruct (Hgi eq_refl) as [Hg1 _].
      destruct (bar >? 0) eqn:Eb; bool_hyps; lia. }
    apply (table_ok_alter (set_pools st ps) i _ p Hrel Hp); [|done|].
    + apply idle_pool_ok; [by apply (to_idle _ Hrel i)|done|].
      destruct (q >? 0); [done|]. unfold is_u32. lia.
    + simpl. intros j r Hj Hr Hu. assert (Hc : tp_cid r <> cid).
      { pose proof (proj1 (find_idx_None _ _) E j r Hr) as He. unfold entry_of in He. rewrite Hu in He.
        simpl in He. by bool_hyps. }
      split; [done|]. by apply (Hfree j).
Qed.

Lemma unregister_table_ok cid st rc st' :
  table_ok st -> virt_mem_pool_unregister_tenant cid st = (rc, st') -> table_ok st'.
Proof.
  intros Hok. unfold virt_mem_pool_unregister_tenant.
  destruct (find_idx _ _) as [i|] eqn:E; [|by intros [= <- <-]]. intros [= <- <-].
  apply find_idx_Some in E as (p & Hp & _). destruct Hok as [H1 H2 H3 H4 H5 H6].
  constructor; simpl; [by rewrite length_alter| | | | |done].
  - intros j q [[-> (x & Hx & ->)]|[_ Hq]]%lookup_alter_inv Hu; [done|by apply (H2 j)].
  - intros j q [[-> (x & Hx & ->)]|[_ Hq]]%lookup_alter_inv Hu; [|by apply (H3 j)].
    apply release_idle. destruct (tp_in_use x) eqn:E; [left; by apply (H2 i)|right; by apply (H3 i)].
  - intros j k q r [[-> (x & Hx & ->)]|[Hj Hq]]%lookup_alter_inv [[-> (y & Hy & ->)]|[Hk Hr]]%lookup_alter_inv;
      try done. by apply H4.
  - intros j k q r [[-> (x & Hx & ->)]|[Hj Hq]]%lookup_alter_inv [[-> (y & Hy & ->)]|[Hk Hr]]%lookup_alter_inv;
      try done. by apply H5.
Qed.

Lemma set_quota_table_ok cid mb st rc st' :
  table_ok st -> virt_mem_pool_set_quota cid mb st = (rc, st') -> table_ok st'.
Proof.
  intros Hok. unfold virt_mem_pool_set_quota.
  destruct (tenant_entry cid st) as [[i p]|] eqn:E; [|by intros [= <- <-]].
  apply tenant_entry_Some in E as (_ & Hp & Hu & _).
  destruct (_ >? tp_bar_size p); [by intros [= <- <-]|]. intros [= <- <-].
  pose proof (to_live _ Hok i p Hp Hu) as Hpok. pose proof (po_bar p Hpok).
  apply (table_ok_put st i p); [done..| |done|done|done].
  apply (pool_ok_resize p (tp_tenant_idx p) (tp_bar_size p)); [done|lia|]. apply u32_range.
Qed.

(** Giving a partition back subtracts exactly its bytes. *)
Lemma minus_floor_dev p k d :
  pool_ok p -> tp_devices p !! k = Some d -> dp_in_use d = true ->
  minus_floor (tp_allocated_bytes p) (u32 (dp_size d + dp_rpc_arena_size d)) = tp_allocated_bytes p - dev_bytes d.
Proof.
  intros Hp Hd Hu. pose proof (dev_bytes_le p k d Hp Hd) as Hle. pose proof (po_bar p Hp).
  destruct (po_dev p Hp k d Hd Hu). unfold dev_bytes, minus_floor in *. rewrite Hu in *.
  rewrite u32_id by lia. destruct (_ >=? _) eqn:E; bool_hyps; lia.
Qed.

Lemma minus_floor_ext p k e :
  pool_ok p -> tp_extents p !! k = Some e -> me_in_use e = true ->
  minus_floor (tp_allocated_bytes p) (me_size e) = tp_allocated_bytes p - ext_bytes e.
Proof.
  intros Hp He Hu. pose proof (ext_bytes_le p k e Hp He) as Hle. unfold ext_bytes, minus_floor in *. rewrite Hu in *.
  destruct (_ >=? _) eqn:E; bool_hyps; lia.
Qed.

Lemma release_device_table_ok cid ty st rc st' :
  table_ok st -> virt_mem_pool_release_device_bounds cid ty st = (rc, st') -> table_ok st'.
Proof.
  intros Hok. unfold virt_mem_pool_release_device_bounds.
  destruct (tenant_entry cid st) as [[i p]|] eqn:E; [|by intros [= <- <-]].
  apply tenant_entry_Some in E as (_ & Hp & Hu & _). pose proof (to_live _ Hok i p Hp Hu) as Hpok.
  destruct (find_idx _ (tp_devices p)) as [k|] eqn:Ek; [|by intros [= <- <-]].
  apply find_idx_Some in Ek as (d & Hd & Hf & _). rewrite Hd. bool_hyps. intros [= <- <-].
  apply (table_ok_put st i p); [done..| |done|done|done].
  rewrite (minus_floor_dev p k d) by done. pose proof (dev_bytes_le p k d Hpok Hd). pose proof (po_sum32 p Hpok).
  pose proof (dev_bytes_nonneg p d Hpok (proj2 (list_elem_of_lookup _ _) (ex_intro _ k Hd))).
  apply (pool_ok_set_dev p k d); [done..| |unfold is_u32 in *; lia]. unfold dev_bytes at 3; simpl. lia.
Qed.

Lemma free_extent_table_ok cid off r st rc st' r' :
  table_ok st -> virt_mem_pool_free_extent cid off r st = (rc, st', r') -> table_ok st'.
Proof.
  intros Hok. unfold virt_mem_pool_free_extent.
  destruct (tenant_entry cid st) as [[i p]|] eqn:E; [|by intros [= <- <- <-]].
  apply tenant_entry_Some in E as (_ & Hp & Hu & _). pose proof (to_live _ Hok i p Hp Hu) as Hpok.
  destruct (find_idx _ (tp_extents p)) as [k|] eqn:Ek; [|by intros [= <- <- <-]].
  apply find_idx_Some in Ek as (e & He & Hf & _). rewrite He. bool_hyps. intros [= <- <- <-].
  apply (table_ok_put st i p); [done..| |done|done|done].
  rewrite (minus_floor_ext p k e) by done. pose proof (ext_bytes_le p k e Hpok He). pose proof (po_sum32 p Hpok).
  pose proof (ext_bytes_nonneg p e Hpok (proj2 (list_elem_of_lookup _ _) (ex_intro _ k He))).
  apply (pool_ok_set_ext p k e); [done..| |unfold is_u32 in *; lia]. unfold ext_bytes at 3; simpl. lia.
Qed.

Lemma set_device_bounds_table_ok cid req m st :
  table_ok st -> breq_ok req ->
  exists st' r z, virt_mem_pool_set_device_bounds cid req m st = Some (st', r, z) /\ table_ok st'.
Proof.
  intros Hok Hq. unfold virt_mem_pool_set_device_bounds.
  destruct (_ || _); [by do 3 eexists|]. destruct (_ =? 0); [by do 3 eexists|].
  destruct (tenant_entry cid st) as [[i p]|] eqn:E; [|by do 3 eexists].
  apply tenant_entry_Some in E as (_ & Hp & Hu & _). pose proof (to_live _ Hok i p Hp Hu) as Hpok.
  destruct (tenant_set_device_bounds_spec p req Hpok Hq) as (p' & r & z & -> & Hok' & _ & Ec & Ei & Eu & _).
  do 3 eexists. split; [done|]. by apply (table_ok_put st i p).
Qed.

Lemma alloc_extent_table_ok cid req m phys st :
  table_ok st -> mreq_ok req ->
  exists st' r z, virt_mem_pool_alloc_extent cid req m phys st = Some (st', r, z) /\ table_ok st'.
Proof.
  intros Hok Hq. unfold virt_mem_pool_alloc_extent.
  destruct (tenant_entry cid st) as [[i p]|] eqn:E; [|by do 3 eexists].
  apply tenant_entry_Some in E as (_ & Hp & Hu & _). pose proof (to_live _ Hok i p Hp Hu) as Hpok.
  destruct (tenant_alloc_extent_spec p req phys Hpok Hq) as (p' & r & z & -> & Hok' & _ & Ec & Ei & Eu & _).
  do 3 eexists. split; [done|]. by apply (table_ok_put st i p).
Qed.

Lemma init_table_ok bar st :
  0 < g_default_bar_size st < 2 ^ 31 -> 0 <= bar < 2 ^ 31 -> table_ok (snd (virt_mem_pool_init bar st)).
Proof.
  intros Hd Hb. constructor.
  - done.
  - by intros i p ->%repeat_lookup.
  - intros i p ->%repeat_lookup _. split_and!; [done..| |].
    + by intros j d ->%(repeat_lookup dev_zero 8).
    + by intros j e ->%(repeat_lookup ext_zero 32).
  - by intros i j p q ->%repeat_lookup _ Hu.
  - by intros i j p q ->%repeat_lookup _ Hu.
  - simpl. destruct (bar >? 0) eqn:E; bool_hyps; lia.
Qed.

(** ** Reachable tables *)

(** One operation of the server on the pool, with 32-bit arguments. *)
Inductive pool_step : pool_state -> pool_state -> Prop :=
| step_register cid idx bar q st rc st' :
    is_u32 bar -> is_u32 q -> virt_mem_pool_register_tenant cid idx bar q st = (rc, st') -> pool_step st st'
| step_unregister cid st rc st' :
    virt_mem_pool_unregister_tenant cid st = (rc, st') -> pool_step st st'
| step_set_quota cid mb st rc st' :
    virt_mem_pool_set_quota cid mb st = (rc, st') -> pool_step st st'
| step_set_bounds cid req m st st' r z :
    breq_ok req -> virt_mem_pool_set_device_bounds cid req m st = Some (st', r, z) -> pool_step st st'
| step_release_bounds cid ty st rc st' :
    virt_mem_pool_release_device_bounds cid ty st = (rc, st') -> pool_step st st'
| step_alloc cid req m phys st st' r z :
    mreq_ok req -> virt_mem_pool_alloc_extent cid req m phys st = Some (st', r, z) -> pool_step st st'
| step_free cid off r st rc st' r' :
    virt_mem_pool_free_extent cid off r st = (rc, st', r') -> pool_step st st'.

#[export] Hint Constructors pool_step : pool.
#[export] Hint Resolve register_table_ok unregister_table_ok set_quota_table_ok release_device_table_ok
  free_extent_table_ok : pool.

Lemma pool_step_ok st st' : pool_step st st' -> bars_kept st st' -> table_ok st -> table_ok st'.
Proof.
  intros Hstep Hg Hok. inversion Hstep; subst; eauto with pool.
  - edestruct set_device_bounds_table_ok as (? & ? & ? & E & ?); [done|eassumption|].
    rewrite E in *. by simplify_eq.
  - edestruct alloc_extent_table_ok as (? & ? & ? & E & ?); [done|eassumption|].
    rewrite E in *. by simplify_eq.
Qed.

(** The table right after virt_mem_pool_init(bar) on the zero-initialised globals. *)
Definition pool_boot (bar : Z) : pool_state :=
  snd (virt_mem_pool_init bar (mk_state [] VIRT_MEM_DEFAULT_BAR_SIZE false)).

(** Runs from the start of the server in which every step keeps the BARs. *)
Definition pool_runs (bar : Z) (st : pool_state) : Prop :=
  rtc (fun a b => pool_step a b /\ bars_kept a b) (pool_boot bar) st.

Lemma reachable_table_ok bar st : 0 <= bar < 2 ^ 31 -> pool_runs bar st -> table_ok st.
Proof.
  intros Hb Hr. assert (H0 : table_ok (pool_boot bar)) by (apply init_table_ok; simpl; lia || done). unfold pool_runs in Hr.
  induction Hr as [|x y z [Hxy Hg] _ IH]; [done|]. apply IH. by apply (pool_step_ok x).
Qed.

(** * Properties *)

(** C16: From server start, whatever sequence of register, unregister, quota, bounds, release, allocate and
    free operations runs, the tenant table stays well formed: at most one live entry per guest and per slice,
    every live partition, arena and extent inside the tenant's BAR, the partitions and arenas of a tenant
    pairwise disjoint with distinct device types, its extents pairwise disjoint, and [allocated_bytes] equal
    to the bytes that are live. Provided that no registration gives a guest a BAR of 2 GiB or more, or shrinks
    the BAR of a guest that is registered ([bars_kept]): the pool tests neither, and both are needed
    ([bar_shrinks_below_extent], [extent_wraps_bar]). *)
Theorem pool_reachable_ok bar st :
  0 <= bar < 2 ^ 31 -> rtc (fun a b => pool_step a b /\ bars_kept a b) (pool_boot bar) st -> table_ok st.
Proof. apply reachable_table_ok. Qed.

(** [bars_kept] as a test of two tables. *)
Definition bar_kept_b (x : virt_tenant_pool * virt_tenant_pool) : bool :=
  let '(p, p') := x in
  negb (tp_in_use p') ||
  (tp_bar_size p' <? 2 ^ 31) && (negb (tp_in_use p && (tp_cid p =? tp_cid p')) || (tp_bar_size p <=? tp_bar_size p')).

Lemma bars_kept_b_spec st st' :
  length (g_tenant_pools st) = length (g_tenant_pools st') ->
  forallb bar_kept_b (zip (g_tenant_pools st) (g_tenant_pools st')) = true -> bars_kept st st'.
Proof.
  intros Hl H i p' Hp' Hu. destruct (lookup_lt_is_Some_2 (g_tenant_pools st) i) as [p Hp]; [rewrite Hl; by eapply lookup_lt_Some|].
  rewrite forallb_forall in H. specialize (H (p, p')). rewrite <- list_elem_of_In in H.
  specialize (H (list_elem_of_lookup_2 _ i _ (proj2 (lookup_zip_with_Some _ _ _ _ _) (ex_intro _ p (ex_intro _ p' (conj eq_refl (conj Hp Hp'))))))).
  cbn in H. rewrite Hu in H. cbn in H. apply andb_true_iff in H as [H1%Z.ltb_lt H2]. split; [done|]. intros p0 Hp0 Hu0 Hc.
  rewrite Hp in Hp0. injection Hp0 as ->. rewrite Hu0, Hc, Z.eqb_refl in H2. cbn in H2. by apply Z.leb_le.
Qed.

Lemma pool_reachable_ok_witness :
  table_ok (snd (virt_mem_pool_register_tenant 5 0 0x1ffff000 0 (pool_boot 0x40000000))).
Proof.
  apply (pool_reachable_ok 0x40000000); [lia|]. eapply rtc_l; [|apply rtc_refl]. split.
  - eapply (step_register 5 0 0x1ffff000 0); [unfold is_u32; lia|unfold is_u32; lia|apply surjective_pairing].
  - apply bars_kept_b_spec; vm_compute; reflexivity.
Defined.

Definition bar_end (p : virt_tenant_pool) : Z * list Z :=
  (tp_bar_size p, map (fun e => me_offset e + me_size e) (List.filter me_in_use (tp_extents p))).

(** A second registration of a guest with a smaller BAR leaves its extent outside. *)
Theorem bar_shrinks_below_extent :
  match virt_mem_pool_alloc_extent 5 (mk_mreq 1 0x5000 0 4096 0 0) true 0
          (snd (virt_mem_pool_register_tenant 5 0 0x100000 0 (pool_boot 0x40000000))) with
  | Some (st, _, _) => (bar_end <$> g_tenant_pools (snd (virt_mem_pool_register_tenant 5 0 0x1000 0 st)) !! 0%nat) = Some (0x1000, [0x5000])
  | None => False
  end.
Proof. vm_compute. reflexivity. Qed.

(** In a BAR of almost 4 GiB the 32-bit sum of the search wraps, and an extent that ends behind the BAR is granted. *)
Theorem extent_wraps_bar :
  match virt_mem_pool_set_device_bounds 5 (mk_breq 1 0x1000 0x18000000 0 4096 0) true
          (snd (virt_mem_pool_register_tenant 5 0 0xffffffff 0 (pool_boot 0x40000000))) with
  | Some (st, _, _) =>
      match virt_mem_pool_alloc_extent 5 (mk_mreq 1 0xf0000000 0 4096 0 0) true 0 st with
      | Some (st', r, _) => mp_status r = 0 /\ (bar_end <$> g_tenant_pools st' !! 0%nat) = Some (0xffffffff, [0x108001000])
      | None => False
      end
  | None => False
  end.
Proof. vm_compute. split; reflexivity. Qed.

(** A request for device bounds always terminates with an answer, and a granted one records, for the
    requested device type, a partition at the granted offset and size, aligned as asked, of exactly the
    requested size rounded up when the request is not best-effort, without touching any other partition and
    without exceeding the quota. *)
Theorem set_device_bounds_grants cid req m st :
  table_ok st -> breq_ok req ->
  exists st' r z, virt_mem_pool_set_device_bounds cid req m st = Some (st', r, z) /\
    (bp_status r = 0 -> exists i p p',
       tenant_entry cid st = Some (i, p) /\ g_tenant_pools st' !! i = Some p' /\
       pool_ok p' /\ granted p p' req r).
Proof.
  intros Hok Hq. unfold virt_mem_pool_set_device_bounds.
  destruct (_ || _); [by do 3 eexists|]. destruct (_ =? 0); [by do 3 eexists|].
  destruct (tenant_entry cid st) as [[i p]|] eqn:E; [|by do 3 eexists].
  pose proof (tenant_entry_Some _ _ _ _ E) as (_ & Hp & Hu & _). pose proof (to_live _ Hok i p Hp Hu) as Hpok.
  destruct (tenant_set_device_bounds_spec p req Hpok Hq) as (p' & r & z & -> & Hok' & _ & _ & _ & _ & Hg).
  do 3 eexists. split; [done|]. intros Hr. exists i, p, p'. split_and!; [done| |done|by apply Hg].
  simpl. apply list_lookup_insert_eq. by eapply lookup_lt_Some.
Qed.

(** A table with one registered guest, for the witnesses. *)
Definition demo_state : pool_state :=
  snd (virt_mem_pool_register_tenant 5 0 0x1ffff000 0 (pool_boot 0x40000000)).

Lemma demo_state_ok : table_ok demo_state.
Proof.
  apply (reachable_table_ok 0x40000000); [lia|]. eapply rtc_l; [|apply rtc_refl]. split.
  - eapply (step_register 5 0 0x1ffff000 0); [unfold is_u32; lia|unfold is_u32; lia|apply surjective_pairing].
  - apply bars_kept_b_spec; vm_compute; reflexivity.
Qed.

Lemma set_device_bounds_grants_witness :
  exists st' r z,
    virt_mem_pool_set_device_bounds 5 (mk_breq 1 0x300000 0xFFFFFFFF 4096 0 0) true demo_state = Some (st', r, z) /\
    bp_status r = 0 /\ bp_granted_offset r mod 0x200000 = 0.
Proof.
  destruct (set_device_bounds_grants 5 (mk_breq 1 0x300000 0xFFFFFFFF 4096 0 0) true demo_state)
    as (st' & r & z & H & Hg); [exact demo_state_ok|unfold breq_ok, is_u32; simpl; lia|].
  exists st', r, z. split; [exact H|]. assert (Hr : bp_status r = 0).
  { revert H. vm_compute. intros [= _ <- _]. reflexivity. }
  split; [exact Hr|]. destruct (Hg Hr) as (i & p & p' & _ & _ & _ & G). exact (gr_aligned _ _ _ _ G).
Defined.

(** An extent request always terminates with an answer, and a granted extent lies inside the BAR,
    shares no byte with any live partition, arena or extent of the tenant, and fits its quota. *)
Theorem alloc_extent_grants cid req m phys st :
  table_ok st -> mreq_ok req ->
  exists st' r z, virt_mem_pool_alloc_extent cid req m phys st = Some (st', r, z) /\
    (mp_status r = 0 -> exists i p p',
       tenant_entry cid st = Some (i, p) /\ g_tenant_pools st' !! i = Some p' /\
       pool_ok p' /\ extent_granted p p' r).
Proof.
  intros Hok Hq. unfold virt_mem_pool_alloc_extent.
  destruct (tenant_entry cid st) as [[i p]|] eqn:E; [|by do 3 eexists].
  pose proof (tenant_entry_Some _ _ _ _ E) as (_ & Hp & Hu & _). pose proof (to_live _ Hok i p Hp Hu) as Hpok.
  destruct (tenant_alloc_extent_spec p req phys Hpok Hq) as (p' & r & z & -> & Hok' & _ & _ & _ & _ & Hg).
  do 3 eexists. split; [done|]. intros Hr. exists i, p, p'. split_and!; [done| |done|by apply Hg].
  simpl. apply list_lookup_insert_eq. by eapply lookup_lt_Some.
Qed.

Lemma alloc_extent_grants_witness :
  exists st' r z,
    virt_mem_pool_alloc_extent 5 (mk_mreq 1 5000 0 4 0 8) true 0 demo_state = Some (st', r, z) /\
    mp_status r = 0 /\ 0 < mp_allocated_size r.
Proof.
  destruct (alloc_extent_grants 5 (mk_mreq 1 5000 0 4 0 8) true 0 demo_state)
    as (st' & r & z & H & Hg); [exact demo_state_ok|unfold mreq_ok, is_u32; simpl; lia|].
  exists st', r, z. split; [exact H|]. assert (Hr : mp_status r = 0).
  { revert H. vm_compute. intros [= _ <- _]. reflexivity. }
  split; [exact Hr|]. destruct (Hg Hr) as (i & p & p' & _ & _ & _ & G). exact (eg_size _ _ _ G).
Defined.

(** The ranges a tenant may use: its live partitions, their arenas and its live extents. *)
Definition owned (p : virt_tenant_pool) (s e : Z) : Prop :=
  (exists i d, tp_devices p !! i = Some d /\ dp_in_use d = true /\
     (s = dp_base_offset d /\ e = dp_base_offset d + dp_size d \/
      0 < dp_rpc_arena_size d /\ s = dp_rpc_arena_offset d /\ e = dp_rpc_arena_offset d + dp_rpc_arena_size d)) \/
  (exists i x, tp_extents p !! i = Some x /\ me_in_use x = true /\
     s = me_offset x /\ e = me_offset x + me_size x).

Lemma validate_range_spec cid off size st :
  virt_mem_pool_validate_range cid off size st = 0 <->
  exists i p, tenant_entry cid st = Some (i, p) /\ exists s e, owned p s e /\ s <= off /\ off + size <= e.
Proof.
  unfold virt_mem_pool_validate_range. destruct (tenant_entry cid st) as [[i p]|].
  2:{ split; [done|]. by intros (? & ? & ? & _). }
  destruct (find_idx (dev_covers off (off + size)) (tp_devices p)) as [k|] eqn:Ed.
  - split; [intros _|done]. apply find_idx_Some in Ed as (d & Hd & Hc & _). exists i, p. split; [done|].
    unfold dev_covers in Hc. bool_hyps. apply orb_true_iff in H0 as [H0|H0]; bool_hyps.
    + do 2 eexists. split; [left; exists k, d; split_and!; [done..|by left]|]. lia.
    + do 2 eexists. split; [left; exists k, d; split_and!; [done..|right; split_and!; [lia|done..]]|]. lia.
  - destruct (find_idx (ext_covers off (off + size)) (tp_extents p)) as [k|] eqn:Ee.
    + split; [intros _|done]. apply find_idx_Some in Ee as (e & He & Hc & _). exists i, p. split; [done|].
      unfold ext_covers in Hc. bool_hyps. do 2 eexists. split; [right; by exists k, e|]. lia.
    + split; [done|]. intros (i' & p' & [= <- <-] & s & e & Ho & Hs & Hend). exfalso.
      destruct Ho as [(k & d & Hd & Hu & Hr)|(k & x & Hx & Hu & -> & ->)].
      * pose proof (proj1 (find_idx_None _ _) Ed k d Hd) as Hf. unfold dev_covers in Hf. rewrite Hu in Hf.
        simpl in Hf. bool_hyps. destruct Hr as [[-> ->]|(Hz & -> & ->)].
        -- apply andb_false_iff in H as [H|H]; bool_hyps; lia.
        -- rewrite !andb_false_iff in H0. destruct H0 as [[H0|H0]|H0]; bool_hyps; lia.
      * pose proof (proj1 (find_idx_None _ _) Ee k x Hx) as Hf. unfold ext_covers in Hf. rewrite Hu in Hf.
        simpl in Hf. apply andb_false_iff in Hf as [H|H]; bool_hyps; lia.
Qed.

(** The range validation the other handlers rely on is exact: it accepts a guest range if and only if
    the guest is registered and the whole range lies inside one live partition, arena or extent of that guest. *)
Theorem validate_range_iff cid off size st :
  virt_mem_pool_validate_range cid off size st = 0 <->
  exists i p, tenant_entry cid st = Some (i, p) /\ exists s e, owned p s e /\ s <= off /\ off + size <= e.
Proof. apply validate_range_spec. Qed.

(** Operations on behalf of one guest leave the entry of every other guest as it was. *)
Theorem pool_tenant_frame cid st i q :
  g_tenant_pools st !! i = Some q -> tp_cid q <> cid ->
  (forall req m st' r z, virt_mem_pool_set_device_bounds cid req m st = Some (st', r, z) ->
     g_tenant_pools st' !! i = Some q) /\
  (forall req m phys st' r z, virt_mem_pool_alloc_extent cid req m phys st = Some (st', r, z) ->
     g_tenant_pools st' !! i = Some q) /\
  (forall ty rc st', virt_mem_pool_release_device_bounds cid ty st = (rc, st') -> g_tenant_pools st' !! i = Some q) /\
  (forall off r rc st' r', virt_mem_pool_free_extent cid off r st = (rc, st', r') -> g_tenant_pools st' !! i = Some q) /\
  (forall mb rc st', virt_mem_pool_set_quota cid mb st = (rc, st') -> g_tenant_pools st' !! i = Some q).
Proof.
  intros Hi Hc.
  assert (Hput : forall k p p', tenant_entry cid st = Some (k, p) -> g_tenant_pools (put_entry k p' st) !! i = Some q).
  { intros k p p' (_ & Hk & _ & Hcid)%tenant_entry_Some. simpl. rewrite list_lookup_insert_ne; congruence. }
  unfold virt_mem_pool_set_device_bounds, virt_mem_pool_alloc_extent, virt_mem_pool_release_device_bounds,
    virt_mem_pool_free_extent, virt_mem_pool_set_quota.
  split_and!; intros; repeat case_match; simplify_eq; try done; by eapply Hput.
Qed.

Lemma pool_tenant_frame_witness :
  let st := snd (virt_mem_pool_register_tenant 6 1 0x1ffff000 0 demo_state) in
  match virt_mem_pool_alloc_extent 6 (mk_mreq 1 5000 0 4 0 0) true 0 st with
  | Some (st', _, _) => g_tenant_pools st' !! 0%nat = g_tenant_pools st !! 0%nat
  | None => False
  end.
Proof.
  intros st. destruct (g_tenant_pools st !! 0%nat) as [q|] eqn:Hq; [|vm_compute in Hq; discriminate].
  destruct (virt_mem_pool_alloc_extent _ _ _ _ st) as [[[st' r] z]|] eqn:H; [|vm_compute in H; discriminate].
  refine (proj1 (proj2 (pool_tenant_frame 6 st 0 q Hq _)) _ _ _ _ _ _ H).
  vm_compute in Hq. injection Hq as <-. vm_compute. discriminate.
Defined.

Lemma tenant_entry_put cid st i p p' :
  tenant_entry cid st = Some (i, p) -> tp_in_use p' = true -> tp_cid p' = cid ->
  tenant_entry cid (put_entry i p' st) = Some (i, p').
Proof.
  intros He Hu Hc. pose proof (tenant_entry_Some _ _ _ _ He) as (Hini & Hp & _).
  unfold tenant_entry, virt_mem_pool_get_tenant in *. simpl. rewrite Hini in *. simpl in *.
  destruct (find_idx (entry_of cid) (g_tenant_pools st)) as [k|] eqn:E; [|done].
  assert (k = i) as -> by (destruct (g_tenant_pools st !! k); congruence).
  rewrite (find_idx_insert _ _ _ _ E) by (unfold entry_of; by rewrite Hu, Hc, Z.eqb_refl).
  by rewrite list_lookup_insert_eq by (by eapply lookup_lt_Some).
Qed.

(** A free slot that was filled and emptied again changes nothing a tenant owns. *)
Lemma owned_refill p p'' i e0 e s t :
  tp_extents p !! i = Some e0 -> me_in_use e0 = false -> me_in_use e = false ->
  tp_devices p'' = tp_devices p -> tp_extents p'' = <[i := e]> (tp_extents p) ->
  owned p'' s t <-> owned p s t.
Proof.
  intros Hi Hu0 Hu Hd He. unfold owned. rewrite Hd, He.
  enough (Hex : (exists k x, <[i := e]> (tp_extents p) !! k = Some x /\ me_in_use x = true /\
                   s = me_offset x /\ t = me_offset x + me_size x) <->
                (exists k x, tp_extents p !! k = Some x /\ me_in_use x = true /\
                   s = me_offset x /\ t = me_offset x + me_size x)) by (rewrite Hex; done).
  split; intros (k & x & Hx & Hux & Hr).
  - apply lookup_insert_inv in Hx as [[-> ->]|[Hne Hx]]; [congruence|]. by exists k, x.
  - exists k, x. split; [|done]. rewrite list_lookup_insert_ne; [done|]. intros ->. congruence.
Qed.

(** A granted extent is accepted by the range validation, and freeing it succeeds, reports its size,
    gives its bytes back, and restores the answer of the validation on every range to what it was before
    the allocation. *)
Theorem alloc_free_roundtrip cid req m phys st st' r z r0 :
  table_ok st -> mreq_ok req ->
  virt_mem_pool_alloc_extent cid req m phys st = Some (st', r, z) -> mp_status r = 0 ->
  virt_mem_pool_validate_range cid (mp_bar_offset r) (mp_allocated_size r) st' = 0 /\
  exists st'' r'', virt_mem_pool_free_extent cid (mp_bar_offset r) (Some r0) st' = (0, st'', Some r'') /\
    mp_allocated_size r'' = mp_allocated_size r /\
    snd (virt_mem_pool_get_quota cid st'') = snd (virt_mem_pool_get_quota cid st) /\
    forall off size, virt_mem_pool_validate_range cid off size st'' = 0 <->
                     virt_mem_pool_validate_range cid off size st = 0.
Proof.
  intros Hok Hq Hal Hr. unfold virt_mem_pool_alloc_extent in Hal.
  destruct (tenant_entry cid st) as [[i p]|] eqn:E; [|simplify_eq; done].
  pose proof (tenant_entry_Some _ _ _ _ E) as (_ & Hp & Hu & Hcid). pose proof (to_live _ Hok i p Hp Hu) as Hpok.
  destruct (tenant_alloc_extent_spec p req phys Hpok Hq) as (p' & r' & z' & Et & Hok' & Hbar & Ec & Ei & Eu & Hg).
  rewrite Et in Hal. simplify_eq. specialize (Hg Hr).
  destruct (eg_slot _ _ _ Hg) as (k & e0 & e & He0 & Hu0 & Hexts & Hdevs & Hue & Hoff & Hsz).
  assert (E' : tenant_entry (tp_cid p) (put_entry i p' st) = Some (i, p')) by (apply (tenant_entry_put _ _ _ p); congruence).
  assert (Hk : tp_extents p' !! k = Some e) by (rewrite Hexts; apply list_lookup_insert_eq; by eapply lookup_lt_Some).
  split.
  { apply validate_range_spec. exists i, p'. split; [done|]. do 2 eexists. split; [right; by exists k, e|]. lia. }
  unfold virt_mem_pool_free_extent. rewrite E'.
  rewrite (find_idx_unique _ _ k e Hk), Hk.
  2:{ by rewrite Hue, Hoff, Z.eqb_refl. }
  2:{ intros j y Hj Hy. bool_hyps. destruct (decide (j = k)) as [|Hne]; [done|exfalso].
      pose proof (po_exts p' Hok' j k y e Hne Hj Hk H Hue) as Hd.
      pose proof (eok_size _ _ (po_ext p' Hok' j y Hj H)). pose proof (eg_size _ _ _ Hg).
      unfold ext_disjoint, disjoint_range in Hd. lia. }
  do 2 eexists. split; [done|]. set (p'' := mk_pool _ _ _ _ _ _ _ _ _ _).
  assert (E'' : tenant_entry (tp_cid p) (put_entry i p'' (put_entry i p' st)) = Some (i, p''))
    by (apply (tenant_entry_put _ _ _ p'); unfold p''; simpl; congruence).
  destruct (eg_quota _ _ _ Hg) as [Hq1 Hq2].
  assert (Hqm : tp_quota_max p' = tp_quota_max p).
  { revert Et. unfold tenant_alloc_extent. repeat case_match; intros; by simplify_eq. }
  split_and!; [done| |].
  - unfold virt_mem_pool_get_quota. rewrite E'', E. unfold p''; simpl. rewrite Hqm.
    do 2 f_equal.
    rewrite (minus_floor_ext p' k e) by done. unfold ext_bytes. rewrite Hue. lia.
  - intros off size. rewrite !validate_range_spec, E'', E.
    assert (Ho : forall s t, owned p'' s t <-> owned p s t).
    { intros s t. apply (owned_refill p p'' k e0 (ext_clear e)); [done..|unfold p''; simpl].
      by rewrite Hexts, list_insert_insert_eq. }
    split; intros (j & q & [= <- <-] & s & t & Hs & Hle); exists i; eexists; (split; [done|]);
      exists s, t; (split; [|done]); by apply Ho.
Qed.

Lemma alloc_free_roundtrip_witness :
  match virt_mem_pool_alloc_extent 5 (mk_mreq 1 5000 0 4 0 8) true 0 demo_state with
  | Some (st', r, _) => virt_mem_pool_validate_range 5 (mp_bar_offset r) (mp_allocated_size r) st' = 0
  | None => False
  end.
Proof.
  destruct (virt_mem_pool_alloc_extent 5 _ true 0 demo_state) as [[[st' r] z]|] eqn:H;
    [|vm_compute in H; discriminate].
  apply (alloc_free_roundtrip 5 (mk_mreq 1 5000 0 4 0 8) true 0 demo_state st' r z (mem_refusal 0 0 0));
    [exact demo_state_ok|unfold mreq_ok, is_u32; simpl; lia|exact H|].
  vm_compute in H. injection H as _ <- _. reflexivity.
Defined.

(** ** Restarts do not use up the tenant table *)

(** The slice indices of the live entries are in range and pairwise distinct. *)
Record idx_ok (ps : list virt_tenant_pool) : Prop := {
  io_len : length ps = VIRT_MEM_MAX_TENANTS;
  io_range : forall i p, ps !! i = Some p -> tp_in_use p = true ->
               0 <= tp_tenant_idx p < Z.of_nat VIRT_MEM_MAX_TENANTS;
  io_inj : forall i j p q, ps !! i = Some p -> ps !! j = Some q -> tp_in_use p = true -> tp_in_use q = true ->
             tp_tenant_idx p = tp_tenant_idx q -> i = j;
  io_cid : forall i j p q, ps !! i = Some p -> ps !! j = Some q -> tp_in_use p = true -> tp_in_use q = true ->
             tp_cid p = tp_cid q -> i = j;
}.

(** With every live index distinct and one index of the range not among them, an entry is free. *)
Lemma idx_pigeonhole ps idx :
  idx_ok ps -> 0 <= idx < Z.of_nat VIRT_MEM_MAX_TENANTS ->
  (forall i p, ps !! i = Some p -> tp_in_use p = true -> tp_tenant_idx p <> idx) ->
  find_idx (fun p => negb (tp_in_use p)) ps <> None.
Proof.
  intros [Hl Hr Hi _] Hidx Hno Hf. assert (Hlive : forall i p, ps !! i = Some p -> tp_in_use p = true).
  { intros i p Hp. apply negb_false_iff. exact (proj1 (find_idx_None _ _) Hf i p Hp). }
  assert (Hnd : NoDup (idx :: map tp_tenant_idx ps)).
  { apply NoDup_cons. split.
    - intros (p & -> & [i Hp]%list_elem_of_lookup)%list_elem_of_fmap. by apply (Hno i p Hp (Hlive i p Hp)).
    - apply NoDup_alt. intros i j x (p & Hp & ->)%lookup_map_inv (q & Hq & Heq)%lookup_map_inv.
      apply (Hi i j p q); eauto. }
  assert (Hsub : idx :: map tp_tenant_idx ps ⊆ seqZ 0 (Z.of_nat VIRT_MEM_MAX_TENANTS)).
  { intros x [->|(p & -> & [i Hp]%list_elem_of_lookup)%list_elem_of_fmap]%elem_of_cons; apply elem_of_seqZ; [lia|].
    specialize (Hr i p Hp (Hlive i p Hp)). lia. }
  pose proof (submseteq_length _ _ (NoDup_submseteq _ _ Hnd Hsub)) as Hlen.
  rewrite length_seqZ in Hlen. cbn [length] in Hlen. rewrite length_map, Hl in Hlen. unfold VIRT_MEM_MAX_TENANTS in Hlen. lia.
Qed.

(** The entry of a slice index taken over by another cid is released. *)
Lemma takeover_idx_ok cid idx ps :
  idx_ok ps ->
  let ps' := map (fun p => if tp_in_use p && negb (tp_cid p =? cid) && (tp_tenant_idx p =? idx)
                           then pool_entry_release_locked p else p) ps in
  idx_ok ps' /\ forall i p, ps' !! i = Some p -> tp_in_use p = true ->
    ps !! i = Some p /\ (tp_cid p = cid \/ tp_tenant_idx p <> idx).
Proof.
  intros [Hl Hr Hi Hc] ps'.
  assert (Hb : forall i p, ps' !! i = Some p -> tp_in_use p = true ->
                 ps !! i = Some p /\ (tp_cid p = cid \/ tp_tenant_idx p <> idx)).
  { intros i p (q & Hq & Hpq)%lookup_map_inv Hu. destruct (tp_in_use q && _ && _) eqn:E.
    - rewrite Hpq in Hu. done.
    - subst q. split; [done|]. rewrite Hu in E. simpl in E. apply andb_false_iff in E as [E|E]; bool_hyps; lia. }
  split; [|done]. split.
  - unfold ps'. by rewrite length_map.
  - intros i p Hp Hu. destruct (Hb i p Hp Hu). by eapply Hr.
  - intros i j p q Hp Hq Hup Huq. destruct (Hb i p Hp Hup), (Hb j q Hq Huq). by eapply Hi.
  - intros i j p q Hp Hq Hup Huq. destruct (Hb i p Hp Hup), (Hb j q Hq Huq). by eapply Hc.
Qed.

Lemma idx_ok_alter ps f i cid idx :
  idx_ok ps -> 0 <= idx < Z.of_nat VIRT_MEM_MAX_TENANTS -> (forall p, tp_tenant_idx (f p) = idx) ->
  (forall p, ps !! i = Some p -> tp_cid (f p) = cid) ->
  (forall j p, ps !! j = Some p -> tp_in_use p = true -> tp_cid p = cid \/ tp_tenant_idx p <> idx) ->
  (forall j p, ps !! j = Some p -> tp_in_use p = true -> tp_cid p = cid -> j = i) ->
  idx_ok (alter f i ps).
Proof.
  intros [Hl Hr Hi Hc] Hidx Hf Hfc Hfree Hcid.
  assert (Hother : forall j p, j <> i -> ps !! j = Some p -> tp_in_use p = true ->
                     tp_tenant_idx p <> idx /\ tp_cid p <> cid).
  { intros j p Hne Hp Hu. assert (tp_cid p <> cid) by (intros E; by destruct Hne; eapply Hcid).
    destruct (Hfree j p Hp Hu); done. }
  split.
  - by rewrite length_alter.
  - intros j p [[-> (x & Hx & ->)]|[Hne Hp]]%lookup_alter_inv Hu; [by rewrite Hf|by eapply Hr].
  - intros j k p q [[-> (x & Hx & ->)]|[Hne Hp]]%lookup_alter_inv [[-> (y & Hy & ->)]|[Hne' Hq]]%lookup_alter_inv Hu Hu';
      rewrite ?Hf; [done| | |by eapply Hi]; intros Heq.
    + by destruct (Hother k q Hne' Hq Hu').
    + by destruct (Hother j p Hne Hp Hu).
  - intros j k p q [[-> (x & Hx & ->)]|[Hne Hp]]%lookup_alter_inv [[-> (y & Hy & ->)]|[Hne' Hq]]%lookup_alter_inv Hu Hu';
      rewrite ?Hfc by done; [done| | |by eapply Hc]; intros Heq.
    + by destruct (Hother k q Hne' Hq Hu').
    + by destruct (Hother j p Hne Hp Hu).
Qed.

(** Registering on an index of the range succeeds and keeps the table in order. *)
Lemma register_idx_ok cid idx bar quota st :
  g_pool_initialized st = true -> idx_ok (g_tenant_pools st) -> 0 <= idx < Z.of_nat VIRT_MEM_MAX_TENANTS ->
  fst (virt_mem_pool_register_tenant cid idx bar quota st) = 0 /\
  g_pool_initialized (snd (virt_mem_pool_register_tenant cid idx bar quota st)) = true /\
  idx_ok (g_tenant_pools (snd (virt_mem_pool_register_tenant cid idx bar quota st))).
Proof.
  intros Hinit Hok Hidx. unfold virt_mem_pool_register_tenant. rewrite Hinit. cbn [negb].
  destruct (takeover_idx_ok cid idx _ Hok) as [Hok' Hback]. set (ps := map _ _) in *.
  assert (Hfree : forall j p, ps !! j = Some p -> tp_in_use p = true -> tp_cid p = cid \/ tp_tenant_idx p <> idx)
    by (intros j q Hq Hu; by apply (Hback j q)).
  destruct (find_idx (entry_of cid) ps) as [i|] eqn:E.
  - apply find_idx_Some in E as (p & Hp & He & _). unfold entry_of in He. bool_hyps.
    split_and!; [done..|]. apply (idx_ok_alter ps _ i cid idx); [done..| |done|].
    + intros q Hq. simplify_eq. simpl. lia.
    + intros j q Hq Hu Hc. eapply (io_cid ps Hok' j i q p); [done..|lia].
  - assert (Hno : forall i p, ps !! i = Some p -> tp_in_use p = true -> tp_cid p <> cid).
    { intros i p Hp Hu. pose proof (proj1 (find_idx_None _ _) E i p Hp) as Hf. unfold entry_of in Hf.
      rewrite Hu in Hf. simpl in Hf. lia. }
    destruct (find_idx (fun p => negb (tp_in_use p)) ps) as [i|] eqn:E'.
    + split_and!; [done..|]. apply (idx_ok_alter ps _ i cid idx); [done..|].
      intros j q Hq Hu Hc. by destruct (Hno j q Hq Hu).
    + exfalso. apply (idx_pigeonhole ps idx Hok' Hidx); [|done].
      intros i p Hp Hu. destruct (Hfree i p Hp Hu) as [Hc|]; [|done]. by destruct (Hno i p Hp Hu).
Qed.

(** The results of a sequence of registrations [(cid, slice index, BAR size, quota)]. *)
Fixpoint register_results (regs : list (Z * Z * Z * Z)) (st : pool_state) : list Z :=
  match regs with
  | [] => []
  | (cid, idx, bar, quota) :: regs' =>
      let '(rc, st') := virt_mem_pool_register_tenant cid idx bar quota st in
      rc :: register_results regs' st'
  end.

Lemma boot_idx_ok bar : idx_ok (g_tenant_pools (pool_boot bar)) /\ g_pool_initialized (pool_boot bar) = true.
Proof.
  split; [|done]. split; [done|..].
  - intros i p Hp Hu. apply repeat_lookup in Hp as ->. discriminate Hu.
  - intros i j p q Hp Hq Hu. apply repeat_lookup in Hp as ->. discriminate Hu.
  - intros i j p q Hp Hq Hu. apply repeat_lookup in Hp as ->. discriminate Hu.
Qed.

(** However many times guests restart and come back with fresh cids, every registration on a slice
    index below the table size succeeds: the entry of the index's previous cid is reclaimed, so the table
    never fills up. *)
Theorem restarts_never_fill bar regs :
  Forall (fun '(_, idx, _, _) => 0 <= idx < Z.of_nat VIRT_MEM_MAX_TENANTS) regs ->
  Forall (fun rc => rc = 0) (register_results regs (pool_boot bar)).
Proof.
  intros Hregs. destruct (boot_idx_ok bar) as [Hok Hinit]. revert Hok Hinit. generalize (pool_boot bar).
  induction Hregs as [|[[[cid idx] b] q] regs Hidx _ IH]; intros st Hok Hinit; simpl; [constructor|].
  destruct (register_idx_ok cid idx b q st Hinit Hok Hidx) as (Hrc & Hinit' & Hok').
  destruct (virt_mem_pool_register_tenant cid idx b q st) as [rc st']. constructor; auto.
Qed.

Lemma restarts_never_fill_witness :
  Forall (fun rc => rc = 0)
    (register_results [(3, 0, 0, 0); (4, 0, 0, 0); (5, 1, 0, 0); (6, 0, 0, 0); (4, 1, 4096, 0); (9, 7, 0, 0)]
                      (pool_boot 0)).
Proof. apply restarts_never_fill. repeat constructor; simpl; lia. Defined.

(** ** What the bounds negotiation does not check *)

(** A bounds request looks at the live partitions only: on a fresh tenant, an extent is allocated and
    then a partition is granted over the very bytes of that live extent, so one range of the BAR is both
    the extent's and the device's. *)
Theorem bounds_overlap_live_extent :
  exists st1 r1 z1 st2 r2 z2,
    virt_mem_pool_alloc_extent 5 (mk_mreq 1 8192 4096 4 0 0) true 0 demo_state = Some (st1, r1, z1) /\
    virt_mem_pool_set_device_bounds 5 (mk_breq 1 0x200000 (mp_bar_offset r1) 0 4096 0) true st1 = Some (st2, r2, z2) /\
    mp_status r1 = 0 /\ bp_status r2 = 0 /\
    bp_granted_offset r2 = mp_bar_offset r1 /\ mp_allocated_size r1 <= bp_granted_size r2.
Proof.
  destruct (virt_mem_pool_alloc_extent 5 _ true 0 demo_state) as [[[st1 r1] z1]|] eqn:E1;
    vm_compute in E1; [|discriminate]. injection E1 as <- <- <-.
  do 6 eexists. split; [reflexivity|]. split; [vm_compute; reflexivity|].
  repeat split; try reflexivity; discriminate.
Qed.

(** The round-up of the requested size is done in 32 bits: a request of the last page of the 32-bit
    range is not refused as larger than the BAR but granted with status 0 and a partition of zero bytes. *)
Theorem bounds_size_wraps :
  exists st r z,
    virt_mem_pool_set_device_bounds 5 (mk_breq 1 0xFFFFF001 0xFFFFFFFF 0 4096 0) true demo_state = Some (st, r, z) /\
    bp_status r = 0 /\ bp_granted_size r = 0.
Proof. do 3 eexists. split; [vm_compute; reflexivity|]. split; reflexivity. Qed.
