(* ===== verification/Fips180.v ===== *)
(** * FIPS 180-4: the hash SHA-256 as the standard defines it

    The specification that the hash of drivers/amba_virt/tools/hmac_sha256.c is compared with in Sha256.v. It
    takes nothing from the code: the functions on words are given bit by bit, the constants are computed
    from the roots of the first primes, the integers of a message are read and written in base 256, the
    message schedule and the rounds are recursive functions. A word is a [Z] below [2 ^ 32]. *)

From Stdlib Require Import ZArith Lia Bool.
From stdpp Require Import base list numbers.
From S2P Require Import Prelude.

Module Fips180.

(** ** Words (sections 2.2.2, 3.2 and 4.1.2) *)

(** The word whose bit [i], from the least significant one, is [f i]. *)
Definition word_of (f : nat -> bool) : Z :=
  foldr (fun i acc => Z.b2z (f i) * 2 ^ Z.of_nat i + acc) 0 (seq 0 32).

Definition bit (x : Z) (i : nat) : bool := Z.testbit x (Z.of_nat i).

(** Rotation to the right: bit [i] comes from bit [i + n], cyclically. *)
Definition rotr (n : nat) (x : Z) : Z := word_of (fun i => bit x ((i + n) mod 32)).

(** Shift to the right. *)
Definition shr (n : nat) (x : Z) : Z := word_of (fun i => if (i + n <? 32)%nat then bit x (i + n) else false).

Definition parity (x y z : Z) : Z := word_of (fun i => xorb (bit x i) (xorb (bit y i) (bit z i))).

(** [x] chooses between [y] and [z]. *)
Definition choose (x y z : Z) : Z := word_of (fun i => if bit x i then bit y i else bit z i).

Definition majority (x y z : Z) : Z :=
  word_of (fun i => (bit x i && bit y i) || (bit y i && bit z i) || (bit z i && bit x i)).

Definition big_sigma0 (x : Z) : Z := parity (rotr 2 x) (rotr 13 x) (rotr 22 x).
Definition big_sigma1 (x : Z) : Z := parity (rotr 6 x) (rotr 11 x) (rotr 25 x).
Definition small_sigma0 (x : Z) : Z := parity (rotr 7 x) (rotr 18 x) (shr 3 x).
Definition small_sigma1 (x : Z) : Z := parity (rotr 17 x) (rotr 19 x) (shr 10 x).

(** Addition of words. *)
Definition sum32 (l : list Z) : Z := foldr Z.add 0 l mod 2 ^ 32.

(** ** Constants (sections 4.2.2 and 5.3.3) *)

Definition divides_b (d n : Z) : bool := n mod d =? 0.

Definition prime_b (n : Z) : bool :=
  (2 <=? n) && forallb (fun d => negb (divides_b (Z.of_nat d) n)) (seq 2 (Z.to_nat n - 2)).

(** The primes below 312: there are 64 of them. *)
Definition primes : list Z := filter (fun n => prime_b n = true) (map Z.of_nat (seq 2 310)).

(** The largest [r] with [r ^ e <= n], bit by bit: [r] is what the bits above [k] add up to. *)
Fixpoint root_bits (k : nat) (e n r : Z) : Z :=
  match k with
  | O => r
  | S j => root_bits j e n (if (r + 2 ^ Z.of_nat j) ^ e <=? n then r + 2 ^ Z.of_nat j else r)
  end.

Definition root (e n : Z) : Z := root_bits 48 e n 0.

(** The first 32 bits of the fractional part of the [e]-th root of [p]. *)
Definition frac_root (e p : Z) : Z := root e (p * 2 ^ (32 * e)) mod 2 ^ 32.

Definition round_constants : list Z := map (frac_root 3) primes.
Definition initial_hash : list Z := map (frac_root 2) (take 8 primes).

(** ** Integers and bytes, most significant first *)

Definition be_value (l : list Z) : Z := foldl (fun acc b => acc * 256 + b) 0 l.

Fixpoint be_bytes (n : nat) (v : Z) : list Z :=
  match n with
  | O => []
  | S k => be_bytes k (v / 256) ++ [v mod 256]
  end.

(** ** Preprocessing (sections 5.1.1 and 5.2.1) *)

(** One bit, zeros to eight bytes before a block's end (as few as possible), the length in bits. *)
Definition pad (m : list Z) : list Z :=
  m ++ [128] ++ repeat 0 (Z.to_nat ((55 - Z.of_nat (length m)) mod 64)) ++ be_bytes 8 (8 * Z.of_nat (length m)).

(** Cutting into groups of [k], from the front. *)
Fixpoint groups (n k : nat) (l : list Z) : list (list Z) :=
  match n with
  | O => []
  | S n' => take k l :: groups n' k (drop k l)
  end.

Definition blocks (m : list Z) : list (list Z) := groups (length m / 64) 64 m.

(** ** Hash computation (section 6.2.2) *)

(** The schedule words [W_t ... W_0], the newest first. *)
Fixpoint schedule_upto (n : nat) (block : list Z) : list Z :=
  match n with
  | O => rev (map be_value (groups 16 4 block))
  | S n' =>
      let w := schedule_upto n' block in
      sum32 [small_sigma1 (nth 1 w 0); nth 6 w 0; small_sigma0 (nth 14 w 0); nth 15 w 0] :: w
  end.

Definition schedule_words (block : list Z) : list Z := rev (schedule_upto 48 block).

(** The working variables a ... h. *)
Definition hash_round (v : list Z) (kw : Z * Z) : list Z :=
  match v with
  | [a; b; c; d; e; f; g; h] =>
      let t1 := sum32 [h; big_sigma1 e; choose e f g; kw.1; kw.2] in
      let t2 := sum32 [big_sigma0 a; majority a b c] in
      [sum32 [t1; t2]; a; b; c; sum32 [d; t1]; e; f; g]
  | _ => v
  end.

Definition hash_block (h block : list Z) : list Z :=
  zip_with (fun x y => sum32 [x; y]) h (foldl hash_round h (zip round_constants (schedule_words block))).

Definition SHA256 (m : list Z) : list Z :=
  concat (map (be_bytes 4) (foldl hash_block initial_hash (blocks (pad m)))).

(** ** What the definitions mean *)

Lemma word_of_from f s n :
  let w := foldr (fun i acc => Z.b2z (f i) * 2 ^ Z.of_nat i + acc) 0 (seq s n) in
  exists v, w = v * 2 ^ Z.of_nat s /\ 0 <= v < 2 ^ Z.of_nat n /\
            forall i, (i < n)%nat -> Z.testbit v (Z.of_nat i) = f (s + i)%nat.
Proof.
  revert s. induction n as [|n IH]; intros s; cbn zeta.
  { exists 0. simpl. split_and!; [lia..|]. intros i H. lia. }
  destruct (IH (S s)) as (v & E & Hv & Hb). exists (2 * v + Z.b2z (f s)).
  cbn [seq foldr]. rewrite E, Nat2Z.inj_succ, Z.pow_succ_r by lia. rewrite Nat2Z.inj_succ, Z.pow_succ_r by lia.
  assert (0 <= Z.b2z (f s) <= 1) by (destruct (f s); simpl; lia).
  split_and!; [ring|lia|lia|]. intros [|i] Hi.
  - rewrite Nat.add_0_r, Z.testbit_0_r. done.
  - rewrite Nat2Z.inj_succ, Z.testbit_succ_r by lia. rewrite Hb by lia. f_equal. lia.
Qed.

Lemma word_of_range f : is_u32 (word_of f).
Proof. destruct (word_of_from f 0 32) as (v & E & Hv & _). unfold word_of, is_u32. rewrite E. simpl in *. lia. Qed.

Lemma word_of_bit f i : (i < 32)%nat -> bit (word_of f) i = f i.
Proof.
  intros Hi. destruct (word_of_from f 0 32) as (v & E & _ & Hb). unfold bit, word_of.
  rewrite E, Z.pow_0_r, Z.mul_1_r. by rewrite Hb.
Qed.

(** A word is its thirty-two bits. *)
Lemma word_ext x y : is_u32 x -> is_u32 y -> (forall i, (i < 32)%nat -> bit x i = bit y i) -> x = y.
Proof.
  intros Hx Hy H. apply Z.bits_inj'. intros n Hn. destruct (decide (n < 32)).
  - specialize (H (Z.to_nat n) ltac:(lia)). unfold bit in H. by rewrite Z2Nat.id in H by lia.
  - unfold is_u32 in *. rewrite <- (Z.mod_small x (2 ^ 32)), <- (Z.mod_small y (2 ^ 32)) by lia.
    by rewrite !Z.mod_pow2_bits_high by lia.
Qed.

Lemma word_of_eq x f : is_u32 x -> (forall i, (i < 32)%nat -> bit x i = f i) -> x = word_of f.
Proof.
  intros Hx H. apply word_ext; [done|apply word_of_range|]. intros i Hi. by rewrite word_of_bit, H.
Qed.

(** [root] is the integer root wherever 48 bits hold it. *)
Lemma root_bits_spec k e n r :
  0 < e -> 0 <= r -> r ^ e <= n < (r + 2 ^ Z.of_nat k) ^ e ->
  let q := root_bits k e n r in 0 <= q /\ q ^ e <= n < (q + 1) ^ e.
Proof.
  intros He. revert r. induction k as [|k IH]; intros r Hr H; cbn [root_bits].
  { by rewrite Z.pow_0_r in H. }
  apply IH; destruct (Z.leb_spec ((r + 2 ^ Z.of_nat k) ^ e) n); try lia.
  split; [done|]. rewrite Nat2Z.inj_succ, Z.pow_succ_r in H by lia.
  replace (r + 2 ^ Z.of_nat k + 2 ^ Z.of_nat k) with (r + 2 * 2 ^ Z.of_nat k) by lia. apply H.
Qed.

Lemma root_spec e n : 0 < e -> 0 <= n < (2 ^ 48) ^ e -> 0 <= root e n /\ root e n ^ e <= n < (root e n + 1) ^ e.
Proof.
  intros He Hn. apply (root_bits_spec 48 e n 0 He); [lia|]. rewrite Z.pow_0_l by done. exact Hn.
Qed.

#[local] Opaque root.

Lemma frac_root_word e p : is_u32 (frac_root e p).
Proof. apply u32_range. Qed.

Lemma map_words (f : Z -> Z) l : (forall x, is_u32 (f x)) -> Forall is_u32 (map f l).
Proof. intros Hf. induction l; simpl; auto. Qed.

Lemma constants_words : Forall is_u32 round_constants /\ Forall is_u32 initial_hash.
Proof. split; apply map_words, frac_root_word. Qed.

Lemma primes_64 : length primes = 64%nat.
Proof. vm_compute. reflexivity. Qed.

Lemma initial_hash_length : length initial_hash = 8%nat.
Proof. unfold initial_hash. rewrite length_map, length_take, primes_64. reflexivity. Qed.

Lemma be_bytes_length n v : length (be_bytes n v) = n.
Proof. revert v. induction n as [|n IH]; intros v; simpl; [done|]. rewrite length_app, IH. simpl. lia. Qed.

Lemma be_bytes_bytes n v : Forall is_u8 (be_bytes n v).
Proof.
  revert v. induction n as [|n IH]; intros v; simpl; [done|]. apply Forall_app. split; [apply IH|].
  constructor; [|done]. unfold is_u8. pose proof (Z.mod_pos_bound v 256 ltac:(lia)). lia.
Qed.

Lemma hash_round_length v kw : length (hash_round v kw) = length v.
Proof. by destruct v as [|? [|? [|? [|? [|? [|? [|? [|? [|? ?]]]]]]]]]. Qed.

Lemma hash_block_length h block : length (hash_block h block) = length h.
Proof.
  unfold hash_block. rewrite length_zip_with. generalize (zip round_constants (schedule_words block)). intros kws.
  enough (E : forall v, length (foldl hash_round v kws) = length v) by (rewrite E; apply Nat.min_id).
  induction kws as [|kw kws IH]; intros v; [done|]. cbn [foldl]. by rewrite IH, hash_round_length.
Qed.

Lemma concat_be_length n l : length (concat (map (be_bytes n) l)) = (n * length l)%nat.
Proof. induction l as [|x l IH]; cbn; [lia|]. rewrite length_app, be_bytes_length, IH. lia. Qed.

Lemma SHA256_length m : length (SHA256 m) = 32%nat.
Proof.
  unfold SHA256. rewrite concat_be_length.
  enough (E : forall l h, length (foldl hash_block h l) = length h) by (rewrite E, initial_hash_length; reflexivity).
  induction l as [|b l IH]; intros h; [done|]. cbn [foldl]. by rewrite IH, hash_block_length.
Qed.

Lemma SHA256_bytes m : Forall is_u8 (SHA256 m).
Proof.
  unfold SHA256. apply Forall_concat, Forall_map, Forall_forall. intros x _. apply be_bytes_bytes.
Qed.

Lemma groups_length n k l : length (groups n k l) = n.
Proof. revert l. induction n as [|n IH]; intros l; simpl; [done|]. by rewrite IH. Qed.

Lemma schedule_upto_length n block : length (schedule_upto n block) = (16 + n)%nat.
Proof.
  induction n as [|n IH]; cbn [schedule_upto length].
  - by rewrite length_rev, length_map, groups_length.
  - rewrite IH. lia.
Qed.

(** The recurrence of the schedule: [W_t] for [t] from 16 on. *)
Lemma schedule_upto_next n block t :
  (16 + n = t)%nat ->
  let W i := nth (t - 1 - i) (schedule_upto n block) 0 in
  schedule_upto (S n) block =
  sum32 [small_sigma1 (W (t - 2)%nat); W (t - 7)%nat; small_sigma0 (W (t - 15)%nat); W (t - 16)%nat] ::
  schedule_upto n block.
Proof.
  intros <-. cbn zeta. cbn [schedule_upto].
  replace (16 + n - 1 - (16 + n - 2))%nat with 1%nat by lia.
  replace (16 + n - 1 - (16 + n - 7))%nat with 6%nat by lia.
  replace (16 + n - 1 - (16 + n - 15))%nat with 14%nat by lia.
  replace (16 + n - 1 - (16 + n - 16))%nat with 15%nat by lia. done.
Qed.

End Fips180.
