(* ===== verification/Sha256.v ===== *)
(** * SHA-256, HMAC-SHA-256 and HKDF-SHA-256

    Models drivers/amba_virt/tools/hmac_sha256.c. Bytes and words are [Z] kept at their width, the
    64-byte buffer is a list, [memcpy] into it is [blit]. The theorems are in Sha256Props.v. *)

From Stdlib Require Import ZArith Lia Bool.
From stdpp Require Import base list numbers.
From S2P Require Import Prelude.

Module Sha256.

(** ** The code *)

Definition SHA256_BLOCK_SIZE : nat := 64.
Definition SHA256_DIGEST_SIZE : nat := 32.

(** sha256_ctx_t *)
Record sha256_ctx_t := mk_ctx { sc_state : list Z; sc_count : Z; sc_buffer : list Z }.

(** hmac_sha256_ctx_t *)
Record hmac_sha256_ctx_t := mk_hctx { hc_inner : sha256_ctx_t; hc_outer : sha256_ctx_t }.

(** [memcpy(&buf[off], data, len)] with [off + len] inside the array. *)
Definition blit (buf : list Z) (off : nat) (data : list Z) : list Z :=
  take off buf ++ data ++ drop (off + length data) buf.

Definition ROTR (x n : Z) : Z := Z.lor (Z.shiftr x n) (u32 (Z.shiftl x (32 - n))).
Definition CH (x y z : Z) : Z := Z.lxor (Z.land x y) (Z.land (not32 x) z).
Definition MAJ (x y z : Z) : Z := Z.lxor (Z.lxor (Z.land x y) (Z.land x z)) (Z.land y z).
Definition SIGMA0 (x : Z) : Z := Z.lxor (Z.lxor (ROTR x 2) (ROTR x 13)) (ROTR x 22).
Definition SIGMA1 (x : Z) : Z := Z.lxor (Z.lxor (ROTR x 6) (ROTR x 11)) (ROTR x 25).
Definition sigma0 (x : Z) : Z := Z.lxor (Z.lxor (ROTR x 7) (ROTR x 18)) (Z.shiftr x 3).
Definition sigma1 (x : Z) : Z := Z.lxor (Z.lxor (ROTR x 17) (ROTR x 19)) (Z.shiftr x 10).

Definition K : list Z := concat [
  [0x428a2f98; 0x71374491; 0xb5c0fbcf; 0xe9b5dba5];
  [0x3956c25b; 0x59f111f1; 0x923f82a4; 0xab1c5ed5];
  [0xd807aa98; 0x12835b01; 0x243185be; 0x550c7dc3];
  [0x72be5d74; 0x80deb1fe; 0x9bdc06a7; 0xc19bf174];
  [0xe49b69c1; 0xefbe4786; 0x0fc19dc6; 0x240ca1cc];
  [0x2de92c6f; 0x4a7484aa; 0x5cb0a9dc; 0x76f988da];
  [0x983e5152; 0xa831c66d; 0xb00327c8; 0xbf597fc7];
  [0xc6e00bf3; 0xd5a79147; 0x06ca6351; 0x14292967];
  [0x27b70a85; 0x2e1b2138; 0x4d2c6dfc; 0x53380d13];
  [0x650a7354; 0x766a0abb; 0x81c2c92e; 0x92722c85];
  [0xa2bfe8a1; 0xa81a664b; 0xc24b8b70; 0xc76c51a3];
  [0xd192e819; 0xd6990624; 0xf40e3585; 0x106aa070];
  [0x19a4c116; 0x1e376c08; 0x2748774c; 0x34b0bcb5];
  [0x391c0cb3; 0x4ed8aa4a; 0x5b9cca4f; 0x682e6ff3];
  [0x748f82ee; 0x78a5636f; 0x84c87814; 0x8cc70208];
  [0x90befffa; 0xa4506ceb; 0xbef9a3f7; 0xc67178f2] ].

(** [W[i]] for [i < 16]: four bytes, most significant first. *)
Definition load_be32 (data : list Z) (i : nat) : Z :=
  Z.lor (Z.lor (Z.lor (Z.shiftl (nth (i * 4) data 0) 24) (Z.shiftl (nth (i * 4 + 1) data 0) 16))
               (Z.shiftl (nth (i * 4 + 2) data 0) 8))
        (nth (i * 4 + 3) data 0).

(** [for (i = 16; i < 64; i++) W[i] = ...], with the words computed so far. *)
Fixpoint extend_schedule (n : nat) (w : list Z) : list Z :=
  match n with
  | O => w
  | S n' =>
      let i := length w in
      extend_schedule n'
        (w ++ [u32 (sigma1 (nth (i - 2) w 0) + nth (i - 7) w 0 + sigma0 (nth (i - 15) w 0) + nth (i - 16) w 0)])
  end.

Definition schedule (data : list Z) : list Z := extend_schedule 48 (map (load_be32 data) (seq 0 16)).

(** The eight working variables. *)
Record vars := mk_vars { va : Z; vb : Z; vc : Z; vd : Z; ve : Z; vf : Z; vg : Z; vh : Z }.

(** One round with [K[i]] and [W[i]]. *)
Definition round (v : vars) (kw : Z * Z) : vars :=
  let '(k, w) := kw in
  let T1 := u32 (vh v + SIGMA1 (ve v) + CH (ve v) (vf v) (vg v) + k + w) in
  let T2 := u32 (SIGMA0 (va v) + MAJ (va v) (vb v) (vc v)) in
  mk_vars (u32 (T1 + T2)) (va v) (vb v) (vc v) (u32 (vd v + T1)) (ve v) (vf v) (vg v).

(** The effect of sha256_transform on [ctx->state]. *)
Definition compress (st data : list Z) : list Z :=
  let s i := nth i st 0 in
  let v := foldl round (mk_vars (s 0%nat) (s 1%nat) (s 2%nat) (s 3%nat) (s 4%nat) (s 5%nat) (s 6%nat) (s 7%nat))
                 (zip K (schedule data)) in
  [u32 (s 0%nat + va v); u32 (s 1%nat + vb v); u32 (s 2%nat + vc v); u32 (s 3%nat + vd v);
   u32 (s 4%nat + ve v); u32 (s 5%nat + vf v); u32 (s 6%nat + vg v); u32 (s 7%nat + vh v)].

(** sha256_transform *)
Definition sha256_transform (ctx : sha256_ctx_t) (data : list Z) : sha256_ctx_t :=
  mk_ctx (compress (sc_state ctx) data) (sc_count ctx) (sc_buffer ctx).

Definition set_buffer (ctx : sha256_ctx_t) (buf : list Z) : sha256_ctx_t :=
  mk_ctx (sc_state ctx) (sc_count ctx) buf.

Definition H0 : list Z :=
  [0x6a09e667; 0xbb67ae85; 0x3c6ef372; 0xa54ff53a; 0x510e527f; 0x9b05688c; 0x1f83d9ab; 0x5be0cd19].

(** sha256_init; the buffer keeps whatever the context held. *)
Definition sha256_init (ctx : sha256_ctx_t) : sha256_ctx_t := mk_ctx H0 0 (sc_buffer ctx).

(** The [while (len > 0)] loop of sha256_update. Every turn but the last consumes at least one byte, so
    [S (length p)] turns are enough; [update_loop_spec] gives the exact result with that fuel. *)
Fixpoint update_loop (fuel : nat) (ctx : sha256_ctx_t) (buf_idx : nat) (p : list Z) : sha256_ctx_t :=
  match fuel with
  | O => ctx
  | S f =>
      match p with
      | [] => ctx
      | _ =>
          let to_fill := (64 - buf_idx)%nat in
          if (length p <? to_fill)%nat then set_buffer ctx (blit (sc_buffer ctx) buf_idx p)
          else
            let ctx1 := set_buffer ctx (blit (sc_buffer ctx) buf_idx (take to_fill p)) in
            update_loop f (sha256_transform ctx1 (sc_buffer ctx1)) 0 (drop to_fill p)
      end
  end.

(** sha256_update *)
Definition sha256_update (ctx : sha256_ctx_t) (data : list Z) : sha256_ctx_t :=
  let buf_idx := Z.to_nat (Z.land (sc_count ctx) 0x3f) in
  let ctx1 := mk_ctx (sc_state ctx) (u64 (sc_count ctx + Z.of_nat (length data))) (sc_buffer ctx) in
  update_loop (S (length data)) ctx1 buf_idx data.

(** The 64-bit big-endian length field. *)
Definition be64 (bits : Z) : list Z :=
  map (fun k => u8 (Z.land (Z.shiftr bits (k * 8)) 0xff)) [7; 6; 5; 4; 3; 2; 1; 0].

(** The four digest bytes of a state word. *)
Definition be32 (w : Z) : list Z :=
  [u8 (Z.land (Z.shiftr w 24) 0xff); u8 (Z.land (Z.shiftr w 16) 0xff);
   u8 (Z.land (Z.shiftr w 8) 0xff); u8 (Z.land w 0xff)].

Definition ctx_zero : sha256_ctx_t := mk_ctx (repeat 0 8) 0 (repeat 0 64).

(** sha256_final: the digest and the wiped context. *)
Definition sha256_final (ctx : sha256_ctx_t) : list Z * sha256_ctx_t :=
  let total_bits := u64 (sc_count ctx * 8) in
  let b0 := Z.to_nat (Z.land (sc_count ctx) 0x3f) in
  let ctx1 := set_buffer ctx (blit (sc_buffer ctx) b0 [0x80]) in
  let b1 := S b0 in
  let '(ctx2, b2) :=
    if (56 <? b1)%nat then
      let c := set_buffer ctx1 (blit (sc_buffer ctx1) b1 (repeat 0 (64 - b1))) in
      (sha256_transform c (sc_buffer c), 0%nat)
    else (ctx1, b1) in
  let ctx3 := set_buffer ctx2 (blit (sc_buffer ctx2) b2 (repeat 0 (56 - b2))) in
  let ctx4 := set_buffer ctx3 (blit (sc_buffer ctx3) 56 (be64 total_bits)) in
  let ctx5 := sha256_transform ctx4 (sc_buffer ctx4) in
  (flat_map be32 (sc_state ctx5), ctx_zero).

(** sha256, on a stack context with arbitrary contents *)
Definition sha256 (stack : sha256_ctx_t) (data : list Z) : list Z :=
  fst (sha256_final (sha256_update (sha256_init stack) data)).

(** hmac_sha256_init, [ctx] holding arbitrary contents and [stack] the context inside sha256 *)
Definition hmac_sha256_init (stack : sha256_ctx_t) (ctx : hmac_sha256_ctx_t) (key : list Z) : hmac_sha256_ctx_t :=
  let k := if (SHA256_BLOCK_SIZE <? length key)%nat
           then blit (repeat 0 SHA256_BLOCK_SIZE) 0 (sha256 stack key)
           else blit (repeat 0 SHA256_BLOCK_SIZE) 0 key in
  let k_ipad := map (fun b => Z.lxor b 0x36) k in
  let k_opad := map (fun b => Z.lxor b 0x5c) k in
  mk_hctx (sha256_update (sha256_init (hc_inner ctx)) k_ipad) (sha256_update (sha256_init (hc_outer ctx)) k_opad).

(** hmac_sha256_update *)
Definition hmac_sha256_update (ctx : hmac_sha256_ctx_t) (data : list Z) : hmac_sha256_ctx_t :=
  mk_hctx (sha256_update (hc_inner ctx) data) (hc_outer ctx).

(** hmac_sha256_final *)
Definition hmac_sha256_final (ctx : hmac_sha256_ctx_t) : list Z * hmac_sha256_ctx_t :=
  let '(inner_hash, inner) := sha256_final (hc_inner ctx) in
  let '(out, outer) := sha256_final (sha256_update (hc_outer ctx) inner_hash) in
  (out, mk_hctx inner outer).

(** hmac_sha256 *)
Definition hmac_sha256 (stack : sha256_ctx_t) (ctx : hmac_sha256_ctx_t) (key data : list Z) : list Z :=
  fst (hmac_sha256_final (hmac_sha256_update (hmac_sha256_init stack ctx key) data)).

(** hkdf_sha256_extract; a null or empty salt is the empty list *)
Definition hkdf_sha256_extract (stack : sha256_ctx_t) (ctx : hmac_sha256_ctx_t) (salt ikm : list Z) : list Z :=
  match salt with
  | [] => hmac_sha256 stack ctx (repeat 0 SHA256_DIGEST_SIZE) ikm
  | _ => hmac_sha256 stack ctx salt ikm
  end.

(** The expansion loop [for (i = 1; i <= (uint8_t)N; i++)] with [uint8_t i]. [None]: the fuel ran out. *)
Fixpoint expand_loop (fuel : nat) (stack : sha256_ctx_t) (hstack : hmac_sha256_ctx_t) (prk info : list Z)
    (n i : Z) (T okm : list Z) (where_ : nat) : option (list Z) :=
  match fuel with
  | O => None
  | S f =>
      if i <=? u8 n then
        let c0 := hmac_sha256_init stack hstack prk in
        let c1 := match T with [] => c0 | _ => hmac_sha256_update c0 T end in
        let c2 := match info with [] => c1 | _ => hmac_sha256_update c1 info end in
        let c3 := hmac_sha256_update c2 [i] in
        let T' := fst (hmac_sha256_final c3) in
        let rest := (length okm - where_)%nat in
        let to_copy := if (SHA256_DIGEST_SIZE <? rest)%nat then SHA256_DIGEST_SIZE else rest in
        expand_loop f stack hstack prk info n (u8 (i + 1)) T' (blit okm where_ (take to_copy T')) (where_ + to_copy)
      else Some okm
  end.

(** hkdf_sha256_expand into the caller's array [okm]; [None] for a call that has not returned within the
    fuel, [Some (rc, okm')] otherwise. *)
Definition hkdf_sha256_expand (fuel : nat) (stack : sha256_ctx_t) (hstack : hmac_sha256_ctx_t)
    (prk info : list Z) (okm : option (list Z)) : option (Z * option (list Z)) :=
  match okm with
  | None => Some (-1, None)
  | Some buf =>
      let n := u32 (u64 (Z.of_nat (length buf) + 32 - 1) / 32) in
      if n >? 255 then Some (-1, Some buf)
      else
        match expand_loop fuel stack hstack prk info n 1 [] buf 0 with
        | Some buf' => Some (0, Some buf')
        | None => None
        end
  end.

(** hkdf_sha256 *)
Definition hkdf_sha256 (fuel : nat) (stack : sha256_ctx_t) (hstack : hmac_sha256_ctx_t)
    (salt ikm info : list Z) (okm : option (list Z)) : option (Z * option (list Z)) :=
  hkdf_sha256_expand fuel stack hstack (hkdf_sha256_extract stack hstack salt ikm) info okm.

End Sha256.
