(* ===== verification/Sha256Props.v ===== *)
(** * SHA-256, HMAC and HKDF: the theorems

    [repr ctx m] says that a streaming context of Sha256.v stands for the message [m] fed so far; every
    operation of the source is shown to refine the operation on messages. The digest is compared with the hash
    of Fips180.v, HMAC with RFC 2104 and HKDF with RFC 5869 over that hash. *)

From Stdlib Require Import ZArith Lia Bool.
From stdpp Require Import base list numbers.
From S2P Require Import Prelude Fips180 Sha256.

Module Sha256Props.
Import Sha256 Fips180.

(** *** Chaining over whole blocks *)

Section Blocks.
Context {S : Type} (step : S -> list Z -> S).

Fixpoint chain (n : nat) (s : S) (m : list Z) : S :=
  match n with
  | O => s
  | Datatypes.S n' => chain n' (step s (take 64 m)) (drop 64 m)
  end.

(** The state after the whole blocks of [m], and the bytes of the block still open. *)
Definition absorb (s : S) (m : list Z) : S := chain (length m / 64) s m.
Definition tail (m : list Z) : list Z := drop (64 * (length m / 64)) m.

Lemma absorb_short s m : (length m < 64)%nat -> absorb s m = s /\ tail m = m.
Proof. intros H. unfold absorb, tail. rewrite Nat.div_small by done. done. Qed.

Lemma block_div (b m : list Z) : length b = 64%nat -> (length (b ++ m) / 64 = Datatypes.S (length m / 64))%nat.
Proof.
  intros H. rewrite length_app, H. replace (64 + length m)%nat with (length m + 1 * 64)%nat by lia.
  rewrite Nat.div_add by lia. lia.
Qed.

Lemma absorb_block s b m : length b = 64%nat -> absorb s (b ++ m) = absorb (step s b) m /\ tail (b ++ m) = tail m.
Proof.
  intros H. unfold absorb, tail. rewrite (block_div b m H). split.
  - cbn [chain]. by rewrite take_app_length', drop_app_length' by done.
  - replace (64 * Datatypes.S (length m / 64))%nat with (length b + 64 * (length m / 64))%nat by lia.
    by rewrite drop_app_add.
Qed.

Lemma tail_length m : length (tail m) = (length m mod 64)%nat.
Proof.
  unfold tail. rewrite length_drop. pose proof (Nat.div_mod_eq (length m) 64). lia.
Qed.

(** Feeding [m ++ d] is feeding [d] after the open bytes of [m]. *)
Lemma absorb_app s m d :
  absorb s (m ++ d) = absorb (absorb s m) (tail m ++ d) /\ tail (m ++ d) = tail (tail m ++ d).
Proof.
  remember (length m) as n eqn:Hn. revert s m Hn. induction (lt_wf n) as [n _ IH]. intros s m ->.
  destruct (decide (length m < 64)%nat) as [Hlt|Hge].
  - destruct (absorb_short s m Hlt) as [-> ->]. done.
  - rewrite <- (take_drop 64 m). set (b := take 64 m). set (r := drop 64 m).
    assert (Hb : length b = 64%nat) by (unfold b; rewrite length_take; lia).
    rewrite <- app_assoc. destruct (absorb_block s b (r ++ d) Hb) as [-> ->].
    destruct (absorb_block s b r Hb) as [-> ->].
    apply (IH (length r)); [unfold r; rewrite length_drop; lia|done].
Qed.

End Blocks.

(** *** The byte buffer *)

Lemma blit_take buf off data :
  (off + length data <= length buf)%nat -> take (off + length data) (blit buf off data) = take off buf ++ data.
Proof.
  intros H. unfold blit. rewrite app_assoc, take_app_le by (rewrite length_app, length_take; lia).
  apply take_ge. rewrite length_app, length_take. lia.
Qed.

Lemma blit_length buf off data : (off + length data <= length buf)%nat -> length (blit buf off data) = length buf.
Proof. intros H. unfold blit. rewrite !length_app, length_take, length_drop. lia. Qed.

Lemma blit_full buf off data :
  (off + length data = length buf)%nat -> blit buf off data = take off buf ++ data.
Proof. intros H. rewrite <- blit_take by lia. symmetry. apply take_ge. rewrite blit_length; lia. Qed.

(** *** Streaming *)

(** FIPS 180-4 chaining value and the open block of a message. *)
Definition H_of (m : list Z) : list Z := absorb compress H0 m.

(** A context stands for the message fed so far. *)
Record repr (ctx : sha256_ctx_t) (m : list Z) : Prop := {
  rp_state : sc_state ctx = H_of m;
  rp_count : sc_count ctx = u64 (Z.of_nat (length m));
  rp_blen : length (sc_buffer ctx) = 64%nat;
  rp_open : take (length (tail m)) (sc_buffer ctx) = tail m;
}.

Lemma buf_idx_repr ctx m : repr ctx m -> Z.to_nat (Z.land (sc_count ctx) 0x3f) = length (tail m).
Proof.
  intros Hr. rewrite (rp_count _ _ Hr), tail_length. change 0x3f with (Z.ones 6). rewrite Z.land_ones by lia.
  unfold u64. change (2 ^ 64) with (2 ^ 6 * 2 ^ 58). rewrite Z.rem_mul_r by lia.
  rewrite Z.mul_comm, Z_mod_plus_full, Zmod_mod. change (2 ^ 6) with (Z.of_nat 64).
  rewrite <- Nat2Z.inj_mod. apply Nat2Z.id.
Qed.

(** The update loop, from an open block of [b] bytes. *)
Lemma update_loop_spec fuel ctx b p :
  (length p < fuel)%nat -> (b < 64)%nat -> length (sc_buffer ctx) = 64%nat ->
  let pend := take b (sc_buffer ctx) in
  let ctx' := update_loop fuel ctx b p in
  sc_state ctx' = absorb compress (sc_state ctx) (pend ++ p) /\ sc_count ctx' = sc_count ctx /\
  length (sc_buffer ctx') = 64%nat /\ take (length (tail (pend ++ p))) (sc_buffer ctx') = tail (pend ++ p).
Proof.
  revert ctx b p. induction fuel as [|fuel IH]; intros ctx b p Hf Hb Hl; [lia|].
  set (pend := take b (sc_buffer ctx)). assert (Hpl : length pend = b) by (unfold pend; rewrite length_take; lia).
  destruct (decide (p = [])) as [->|Hne].
  { cbn [update_loop]. rewrite app_nil_r. fold pend. cbn zeta.
    destruct (absorb_short compress (sc_state ctx) pend) as [-> ->]; [lia|].
    split_and!; [done..|]. unfold pend. by rewrite length_take, Hl, Nat.min_l by lia. }
  assert (Hp : (0 < length p)%nat) by (destruct p; [done|simpl; lia]).
  set (ctx' := update_loop _ _ _ _). cbn zeta.
  assert (E : ctx' = if (length p <? 64 - b)%nat then set_buffer ctx (blit (sc_buffer ctx) b p)
                     else update_loop fuel (sha256_transform (set_buffer ctx (blit (sc_buffer ctx) b (take (64 - b) p)))
                                                            (blit (sc_buffer ctx) b (take (64 - b) p))) 0 (drop (64 - b) p))
    by (unfold ctx'; destruct p; done).
  rewrite E. destruct (Nat.ltb_spec (length p) (64 - b)) as [Hlt|Hge].
  - destruct (absorb_short compress (sc_state ctx) (pend ++ p)) as [-> ->]; [rewrite length_app; lia|].
    cbn [set_buffer sc_state sc_count sc_buffer]. rewrite blit_length by lia. split_and!; [done..|].
    rewrite length_app, Hpl. by rewrite blit_take by lia.
  - assert (Htl : length (take (64 - b) p) = (64 - b)%nat) by (rewrite length_take; lia).
    rewrite blit_full by lia. fold pend. set (blk := pend ++ take (64 - b) p).
    assert (Hbl : length blk = 64%nat) by (unfold blk; rewrite length_app; lia).
    assert (Hsp : pend ++ p = blk ++ drop (64 - b) p) by (unfold blk; by rewrite <- app_assoc, take_drop).
    rewrite Hsp. destruct (absorb_block compress (sc_state ctx) blk (drop (64 - b) p) Hbl) as [-> ->].
    apply (IH (sha256_transform (set_buffer ctx blk) blk) 0%nat); [rewrite length_drop; lia|lia|done].
Qed.

Lemma tail_lt m : (length (tail m) < 64)%nat.
Proof. rewrite tail_length. apply Nat.mod_upper_bound. lia. Qed.

Lemma init_repr ctx : length (sc_buffer ctx) = 64%nat -> repr (sha256_init ctx) [].
Proof. intros H. by split. Qed.

Lemma update_repr ctx m d : repr ctx m -> repr (sha256_update ctx d) (m ++ d).
Proof.
  intros Hr. unfold sha256_update. rewrite (buf_idx_repr ctx m Hr).
  set (c1 := mk_ctx _ _ _).
  destruct (update_loop_spec (S (length d)) c1 (length (tail m)) d) as (Hs & Hc & Hl & Ht);
    [lia|apply tail_lt|apply Hr|]. cbn [c1 sc_buffer sc_state sc_count] in *.
  rewrite (rp_open _ _ Hr) in *. destruct (absorb_app compress H0 m d) as [Ha Hb].
  split; [|rewrite Hc|done|by rewrite Hb].
  - rewrite Hs, (rp_state _ _ Hr). unfold H_of. by rewrite Ha.
  - rewrite (rp_count _ _ Hr), length_app, Nat2Z.inj_add. unfold u64. by rewrite Zplus_mod_idemp_l.
Qed.

(** *** Padding and digest: FIPS 180-4, 5.1.1 *)

(** [m], a one bit, zeros up to 8 bytes before the end of a block, the bit length on 64 bits. *)
Definition padding (len : nat) : list Z :=
  [0x80] ++ repeat 0 ((119 - len mod 64) mod 64) ++ be64 (Z.of_nat len * 8).

Definition digest_ref (m : list Z) : list Z := flat_map be32 (H_of (m ++ padding (length m))).

Lemma repeat_length' {A} (x : A) n : length (repeat x n) = n.
Proof. apply repeat_length. Qed.

(** The blocks that complete an open block of [b] bytes. *)
Lemma padding_blocks (t : list Z) len s :
  length t = (len mod 64)%nat ->
  absorb compress s (t ++ padding len) =
  if (56 <? S (length t))%nat
  then compress (compress s (t ++ [0x80] ++ repeat 0 (63 - length t))) (repeat 0 56 ++ be64 (Z.of_nat len * 8))
  else compress s (t ++ [0x80] ++ repeat 0 (55 - length t) ++ be64 (Z.of_nat len * 8)).
Proof.
  intros Ht. unfold padding. rewrite <- Ht. set (L := be64 _). assert (HL : length L = 8%nat) by done.
  pose proof (Nat.mod_upper_bound len 64 ltac:(lia)) as Hlt.
  destruct (Nat.ltb_spec 56 (S (length t))) as [H|H].
  - replace ((119 - length t) mod 64)%nat with ((63 - length t) + 56)%nat.
    2:{ rewrite Nat.mod_small; lia. }
    rewrite repeat_app, <- !app_assoc.
    replace (t ++ [128] ++ repeat 0 (63 - length t) ++ repeat 0 56 ++ L)
      with ((t ++ [128] ++ repeat 0 (63 - length t)) ++ ((repeat 0 56 ++ L) ++ [])) by (rewrite app_nil_r, <- !app_assoc; done).
    destruct (absorb_block compress s (t ++ [128] ++ repeat 0 (63 - length t)) ((repeat 0 56 ++ L) ++ [])) as [-> _].
    { rewrite !length_app, repeat_length'. simpl. lia. }
    destruct (absorb_block compress (compress s (t ++ [128] ++ repeat 0 (63 - length t))) (repeat 0 56 ++ L) []) as [-> _].
    { by rewrite length_app, repeat_length', HL. }
    done.
  - replace ((119 - length t) mod 64)%nat with (55 - length t)%nat.
    2:{ replace (119 - length t)%nat with (55 - length t + 1 * 64)%nat by lia.
        rewrite Nat.Div0.mod_add, Nat.mod_small; lia. }
    rewrite <- (app_nil_r (repeat 0 _ ++ L)).
    replace (t ++ [128] ++ (repeat 0 (55 - length t) ++ L) ++ [])
      with ((t ++ [128] ++ repeat 0 (55 - length t) ++ L) ++ []) by (rewrite <- !app_assoc; done).
    rewrite (proj1 (absorb_block compress s (t ++ [128] ++ repeat 0 (55 - length t) ++ L) [] ltac:(
      rewrite !length_app, repeat_length', HL; simpl; lia))).
    by rewrite app_nil_r.
Qed.

(** The two block-filling steps of sha256_final on the buffer. *)
Lemma buffer_mark buf t :
  length buf = 64%nat -> take (length t) buf = t -> (length t < 64)%nat ->
  take (S (length t)) (blit buf (length t) [0x80]) = t ++ [0x80] /\ length (blit buf (length t) [0x80]) = 64%nat.
Proof.
  intros Hl Ht Hlt. split; [|rewrite blit_length; simpl; lia].
  replace (S (length t)) with (length t + length [0x80%Z])%nat by (simpl; lia).
  rewrite blit_take by (simpl; lia). by rewrite Ht.
Qed.

Lemma buffer_pad buf t n L :
  length buf = 64%nat -> take (length t) buf = t -> (length t + n = 56)%nat -> length L = 8%nat ->
  blit (blit buf (length t) (repeat 0 n)) 56 L = t ++ repeat 0 n ++ L.
Proof.
  intros Hl Ht Hn HL. rewrite blit_full.
  2:{ rewrite blit_length; rewrite ?repeat_length', ?HL; lia. }
  replace 56%nat with (length t + length (repeat 0%Z n))%nat by (rewrite repeat_length'; lia).
  rewrite blit_take by (rewrite repeat_length'; lia). by rewrite Ht, <- app_assoc.
Qed.

Lemma final_spec ctx m :
  repr ctx m -> Z.of_nat (length m) * 8 < 2 ^ 64 -> sha256_final ctx = (digest_ref m, ctx_zero).
Proof.
  intros Hr Hlen. unfold sha256_final, digest_ref, H_of.
  destruct (absorb_app compress H0 m (padding (length m))) as [-> _]. fold (H_of m).
  rewrite (padding_blocks (tail m)) by apply tail_length.
  rewrite (buf_idx_repr ctx m Hr), (rp_count _ _ Hr), (u64_id (Z.of_nat (length m))), u64_id by lia.
  set (L := be64 _). assert (HL : length L = 8%nat) by done. pose proof (tail_lt m) as Hlt.
  destruct (buffer_mark (sc_buffer ctx) (tail m) (rp_blen _ _ Hr) (rp_open _ _ Hr) Hlt) as [Hm Hml].
  cbn [set_buffer sc_buffer sc_state]. set (buf := blit (sc_buffer ctx) _ _) in *.
  destruct (Nat.ltb_spec 56 (S (length (tail m)))) as [H|H]; cbn [sha256_transform set_buffer sc_buffer sc_state].
  - rewrite blit_full by (rewrite repeat_length', Hml; lia). rewrite Hm.
    change (64 - S (length (tail m)))%nat with (63 - length (tail m))%nat. rewrite <- app_assoc.
    rewrite (buffer_pad _ [] 56 L); [|rewrite !length_app, repeat_length'; simpl; lia|done..].
    by rewrite (rp_state _ _ Hr).
  - replace (S (length (tail m))) with (length (tail m ++ [128])) in * by (rewrite length_app; simpl; lia).
    rewrite (buffer_pad buf (tail m ++ [128])) by (done || lia). rewrite <- !app_assoc, (rp_state _ _ Hr).
    rewrite length_app. simpl (length [128]). replace (56 - (length (tail m) + 1))%nat with (55 - length (tail m))%nat by lia.
    done.
Qed.

Lemma sha256_correct stack m :
  length (sc_buffer stack) = 64%nat -> Z.of_nat (length m) * 8 < 2 ^ 64 -> sha256 stack m = digest_ref m.
Proof.
  intros Hs Hm. unfold sha256. erewrite (final_spec _ m); [done| |done].
  apply (update_repr _ [] m). by apply init_repr.
Qed.

(** Feeding a list of chunks one after the other. *)
Lemma updates_repr chunks ctx m : repr ctx m -> repr (foldl sha256_update ctx chunks) (m ++ concat chunks).
Proof.
  revert ctx m. induction chunks as [|d chunks IH]; intros ctx m Hr; simpl; [by rewrite app_nil_r|].
  rewrite app_assoc. apply IH. by apply update_repr.
Qed.

(** *** The compression function: FIPS 180-4, 4 and 6.2

    [digest_ref] chains the code's own compression function. The lemmas of this part show that, on bytes,
    it is the hash of Fips180.v, which shares no definition with the code. *)

Definition words (l : list Z) : Prop := Forall is_u32 l.
Definition bytes (l : list Z) : Prop := Forall is_u8 l.

Lemma sum32_word l : is_u32 (sum32 l).
Proof. apply u32_range. Qed.

Lemma sum32_u32 l x : foldr Z.add 0 l = x -> u32 x = sum32 l.
Proof. by intros <-. Qed.

Ltac sum_eq := cbn [foldr]; rewrite ?Z.add_0_r, ?Z.add_assoc; reflexivity.

Lemma sum32_pair x y : u32 (x + y) = sum32 [x; y].
Proof. apply sum32_u32. sum_eq. Qed.

Lemma nth_Forall (P : Z -> Prop) l i : P 0 -> Forall P l -> P (nth i l 0).
Proof. intros H0 H. revert i. induction H as [|x l Hx _ IH]; intros [|i]; simpl; auto. Qed.

Lemma nth_word l i : words l -> is_u32 (nth i l 0).
Proof. intros H. apply nth_Forall; [|done]. split; reflexivity || discriminate. Qed.

Lemma high_bit x i : is_u32 x -> 32 <= i -> Z.testbit x i = false.
Proof.
  intros Hx Hi. unfold is_u32 in Hx. rewrite <- (Z.mod_small x (2 ^ 32)) by lia. apply Z.mod_pow2_bits_high. lia.
Qed.

(** A bitwise expression whose bits above the width are clear is a word. *)
Lemma bits_word x : 0 <= x -> (forall i, 32 <= i -> Z.testbit x i = false) -> is_u32 x.
Proof.
  intros Hx H. assert (E : x = x mod 2 ^ 32); [|rewrite E; apply u32_range].
  apply Z.bits_inj'. intros n Hn. destruct (decide (n < 32)).
  - by rewrite Z.mod_pow2_bits_low by lia.
  - by rewrite Z.mod_pow2_bits_high, H by lia.
Qed.

Lemma rotr_eq x n : is_u32 x -> (0 < n < 32)%nat -> ROTR x (Z.of_nat n) = rotr n x.
Proof.
  intros Hx Hn. unfold ROTR, u32. pose proof (Z.mod_pos_bound (Z.shiftl x (32 - Z.of_nat n)) (2 ^ 32) ltac:(lia)).
  apply word_of_eq.
  - apply bits_word.
    + apply Z.lor_nonneg. split; [apply Z.shiftr_nonneg; unfold is_u32 in Hx; lia|lia].
    + intros i Hi. rewrite Z.lor_spec, Z.shiftr_spec, high_bit, Z.mod_pow2_bits_high by (done || lia). done.
  - intros i Hi. unfold bit. rewrite Z.lor_spec, Z.shiftr_spec, Z.mod_pow2_bits_low, Z.shiftl_spec by lia.
    destruct (decide (i + n < 32)%nat).
    + rewrite Nat.mod_small, (Z.testbit_neg_r x (_ - _)), orb_false_r by lia. f_equal. lia.
    + rewrite (high_bit x (_ + _)), orb_false_l by (done || lia). f_equal.
      replace (i + n)%nat with (i + n - 32 + 1 * 32)%nat by lia. rewrite Nat.Div0.mod_add, Nat.mod_small by lia. lia.
Qed.

Lemma shr_eq x n : is_u32 x -> Z.shiftr x (Z.of_nat n) = shr n x.
Proof.
  intros Hx. apply word_of_eq.
  - apply bits_word; [apply Z.shiftr_nonneg; unfold is_u32 in Hx; lia|].
    intros i Hi. by rewrite Z.shiftr_spec, high_bit by (done || lia).
  - intros i Hi. unfold bit. rewrite Z.shiftr_spec by lia. destruct (Nat.ltb_spec (i + n) 32).
    + f_equal. lia.
    + apply high_bit; [done|lia].
Qed.

Lemma parity_eq x y z : is_u32 x -> is_u32 y -> is_u32 z -> Z.lxor (Z.lxor x y) z = parity x y z.
Proof.
  intros Hx Hy Hz. apply word_of_eq.
  - apply bits_word; [unfold is_u32 in *; rewrite !Z.lxor_nonneg; lia|].
    intros i Hi. by rewrite !Z.lxor_spec, !high_bit by done.
  - intros i Hi. unfold bit. rewrite !Z.lxor_spec. apply xorb_assoc.
Qed.

(** The complement of a word, bit by bit. *)
Lemma not32_bit x i : is_u32 x -> 0 <= i < 32 -> Z.testbit (not32 x) i = negb (Z.testbit x i).
Proof.
  intros Hx Hi. unfold is_u32 in Hx. replace (not32 x) with ((Z.lnot x) mod 2 ^ 32).
  - rewrite Z.mod_pow2_bits_low, Z.lnot_spec by lia. done.
  - unfold not32. symmetry. apply (Z.mod_unique _ _ (-1)); [lia|]. pose proof (Z.add_lnot_diag x). lia.
Qed.

Lemma choose_eq x y z : is_u32 x -> is_u32 y -> is_u32 z -> CH x y z = choose x y z.
Proof.
  intros Hx Hy Hz. unfold CH. apply word_of_eq.
  - apply bits_word.
    + unfold is_u32 in *. rewrite Z.lxor_nonneg, !Z.land_nonneg. lia.
    + intros i Hi. by rewrite Z.lxor_spec, !Z.land_spec, (high_bit y), (high_bit z), !andb_false_r by done.
  - intros i Hi. unfold bit. rewrite Z.lxor_spec, !Z.land_spec, not32_bit by (done || lia).
    by destruct (Z.testbit x _), (Z.testbit y _), (Z.testbit z _).
Qed.

Lemma majority_eq x y z : is_u32 x -> is_u32 y -> is_u32 z -> MAJ x y z = majority x y z.
Proof.
  intros Hx Hy Hz. unfold MAJ. apply word_of_eq.
  - apply bits_word.
    + unfold is_u32 in *. rewrite !Z.lxor_nonneg, !Z.land_nonneg. lia.
    + intros i Hi. by rewrite !Z.lxor_spec, !Z.land_spec, (high_bit y), (high_bit z), !andb_false_r by done.
  - intros i Hi. unfold bit. rewrite !Z.lxor_spec, !Z.land_spec.
    by destruct (Z.testbit x _), (Z.testbit y _), (Z.testbit z _).
Qed.

Lemma rotr_word n x : is_u32 (rotr n x).
Proof. apply word_of_range. Qed.

Lemma shr_word n x : is_u32 (shr n x).
Proof. apply word_of_range. Qed.

Ltac sigma_eq Hx :=
  repeat match goal with
  | |- context [ROTR ?x ?n] =>
      change (ROTR x n) with (ROTR x (Z.of_nat (Z.to_nat n))); rewrite (rotr_eq x (Z.to_nat n) Hx) by (cbv; lia)
  | |- context [Z.shiftr ?x ?n] =>
      change (Z.shiftr x n) with (Z.shiftr x (Z.of_nat (Z.to_nat n))); rewrite (shr_eq x (Z.to_nat n) Hx)
  end; apply parity_eq; apply rotr_word || apply shr_word.

Lemma sigmas_eq x : is_u32 x ->
  SIGMA0 x = big_sigma0 x /\ SIGMA1 x = big_sigma1 x /\ sigma0 x = small_sigma0 x /\ sigma1 x = small_sigma1 x.
Proof. intros Hx. split_and!; [unfold SIGMA0|unfold SIGMA1|unfold sigma0|unfold sigma1]; sigma_eq Hx. Qed.

(** The tables of the source are the fractional parts of the roots of the primes. *)
Lemma K_eq : K = round_constants.
Proof. vm_compute. reflexivity. Qed.

Lemma H0_eq : H0 = initial_hash.
Proof. vm_compute. reflexivity. Qed.

#[local] Opaque K H0 round_constants initial_hash.

(** One round. *)
Definition vars_list (v : vars) : list Z := [va v; vb v; vc v; vd v; ve v; vf v; vg v; vh v].

Lemma round_eq v kw : words (vars_list v) -> words (vars_list (round v kw)) /\
  vars_list (round v kw) = hash_round (vars_list v) kw.
Proof.
  destruct v as [a b c d e f g h], kw as [k w]. intros Hv. unfold vars_list, words in *. cbn in Hv |- *.
  rewrite !Forall_cons_iff in Hv. destruct Hv as (Ha & Hb & Hc & Hd & He & Hf & Hg & Hh & _).
  split; [repeat (apply List.Forall_cons; [done || apply u32_range|]); by apply List.Forall_nil|].
  rewrite choose_eq, majority_eq by done.
  destruct (sigmas_eq a Ha) as (-> & _). destruct (sigmas_eq e He) as (_ & -> & _).
  rewrite (sum32_u32 [h; big_sigma1 e; choose e f g; k; w] (h + big_sigma1 e + choose e f g + k + w)) by sum_eq.
  rewrite (sum32_pair (big_sigma0 a)).
  set (t1 := sum32 [h; _; _; _; _]). set (t2 := sum32 [big_sigma0 a; _]).
  by rewrite !sum32_pair.
Qed.

Lemma rounds_eq kws v : words (vars_list v) ->
  vars_list (foldl round v kws) = foldl hash_round (vars_list v) kws.
Proof.
  revert v. induction kws as [|kw kws IH]; intros v Hv; [done|]. cbn [foldl].
  destruct (round_eq v kw Hv) as [Hw E]. by rewrite IH, E.
Qed.

(** The schedule. *)
Lemma lor_next_byte v b n : 0 <= n -> is_u8 b ->
  Z.lor (Z.shiftl v (8 + n)) (Z.shiftl b n) = Z.shiftl (v * 256 + b) n.
Proof.
  intros Hn Hb. unfold is_u8 in Hb. assert (0 < 2 ^ n) by (apply Z.pow_pos_nonneg; lia).
  rewrite shiftl_lor_add; rewrite ?Z.shiftl_mul_pow2 by lia; rewrite ?Z.pow_add_r by lia; nia.
Qed.

Lemma load_be32_eq data i : bytes data ->
  load_be32 data i = be_value [nth (i * 4) data 0; nth (i * 4 + 1) data 0; nth (i * 4 + 2) data 0; nth (i * 4 + 3) data 0] /\
  is_u32 (load_be32 data i).
Proof.
  intros Hd. assert (Hb : forall j, is_u8 (nth j data 0)) by (intros j; apply nth_Forall; [split; done|done]).
  pose proof (Hb (i * 4)%nat). pose proof (Hb (i * 4 + 1)%nat) as B1.
  pose proof (Hb (i * 4 + 2)%nat) as B2. pose proof (Hb (i * 4 + 3)%nat) as B3.
  unfold load_be32, be_value, is_u32. cbn [foldl].
  rewrite (lor_next_byte _ _ 16), (lor_next_byte _ _ 8), (shiftl_lor_add _ _ 8) by (done || lia).
  unfold is_u8 in *. lia.
Qed.

Lemma groups_be data n j : bytes data -> (4 * (j + n) <= length data)%nat ->
  map be_value (groups n 4 (drop (4 * j) data)) = map (load_be32 data) (seq j n).
Proof.
  intros Hd. revert j. induction n as [|n IH]; intros j Hl; [done|]. cbn [groups map seq]. f_equal.
  - rewrite (proj1 (load_be32_eq data j Hd)). f_equal. apply list_eq. intros i.
    destruct (decide (i < 4)%nat).
    + rewrite lookup_take_lt, lookup_drop by done.
      destruct (lookup_lt_is_Some_2 data (4 * j + i)) as [x Hx]; [lia|]. rewrite Hx.
      apply (nth_lookup_Some _ _ 0) in Hx. subst x.
      destruct i as [|[|[|[|i]]]]; [..|lia]; cbn; do 2 f_equal; lia.
    + rewrite lookup_take_ge by lia. symmetry. apply lookup_ge_None. simpl. lia.
  - rewrite drop_drop. replace (4 * j + 4)%nat with (4 * S j)%nat by lia. apply IH. lia.
Qed.

Lemma extend_schedule_eq block n j w :
  words w -> w = rev (schedule_upto j block) ->
  words (extend_schedule n w) /\ extend_schedule n w = rev (schedule_upto (j + n) block).
Proof.
  revert j w. induction n as [|n IH]; intros j w Hw Ej; cbn [extend_schedule].
  { by rewrite Nat.add_0_r. }
  assert (Hl : length w = (16 + j)%nat) by (rewrite Ej, length_rev; apply schedule_upto_length).
  assert (Hn : forall k, (k < 16 + j)%nat -> nth k w 0 = nth (15 + j - k) (schedule_upto j block) 0).
  { intros k Hk. rewrite Ej, rev_nth by (rewrite schedule_upto_length; lia). by rewrite schedule_upto_length. }
  rewrite Nat.add_succ_r, <- Nat.add_succ_l. apply IH.
  - apply Forall_app. split; [done|]. constructor; [apply u32_range|done].
  - destruct (sigmas_eq _ (nth_word w (length w - 2) Hw)) as (_ & _ & _ & ->).
    destruct (sigmas_eq _ (nth_word w (length w - 15) Hw)) as (_ & _ & -> & _).
    rewrite (sum32_u32 [small_sigma1 (nth (length w - 2) w 0); nth (length w - 7) w 0;
                        small_sigma0 (nth (length w - 15) w 0); nth (length w - 16) w 0]) by sum_eq.
    rewrite (schedule_upto_next j block (length w)) by lia. cbn [rev]. rewrite <- Ej, !Hn, Hl by lia. done.
Qed.

Lemma schedule_eq block : bytes block -> length block = 64%nat ->
  schedule block = schedule_words block.
Proof.
  intros Hb Hl. unfold schedule, schedule_words. apply (extend_schedule_eq block 48 0).
  - apply Forall_map, Forall_forall. intros i _. by apply load_be32_eq.
  - cbn [schedule_upto]. rewrite rev_involutive. symmetry. apply (groups_be block 16 0); [done|lia].
Qed.

(** The compression function of the code is the one of the standard. *)
Lemma compress_eq st block : words st -> length st = 8%nat -> bytes block -> length block = 64%nat ->
  compress st block = hash_block st block /\ words (compress st block) /\ length (compress st block) = 8%nat.
Proof.
  intros Hw Hl Hb Hbl. destruct st as [|a [|b [|c [|d [|e [|f [|g [|h [|? ?]]]]]]]]]; try done.
  unfold compress, hash_block. cbn zeta. cbn [nth]. rewrite (schedule_eq block Hb Hbl), K_eq.
  set (kw := zip _ _). pose proof (rounds_eq kw (mk_vars a b c d e f g h) Hw) as E. unfold vars_list at 2 in E.
  cbn [va vb vc vd ve vf vg vh] in E. rewrite <- E. set (v := foldl round _ _). split; [|split; [|done]].
  - unfold vars_list. cbn [zip_with]. by rewrite !sum32_pair.
  - repeat (apply List.Forall_cons; [apply u32_range|]). by apply List.Forall_nil.
Qed.

Lemma chain_eq n st m : words st -> length st = 8%nat -> bytes m -> (64 * n <= length m)%nat ->
  chain compress n st m = foldl hash_block st (groups n 64 m).
Proof.
  revert st m. induction n as [|n IH]; intros st m Hw Hl Hm Hn; [done|]. cbn [chain groups foldl].
  destruct (compress_eq st (take 64 m)) as (<- & Hw' & Hl'); [done|done|by apply Forall_take|rewrite length_take; lia|].
  apply IH; [done|done|by apply Forall_drop|rewrite length_drop; lia].
Qed.

Lemma byte_of v k : 0 <= k -> u8 (Z.land (Z.shiftr v k) 0xff) = (v / 2 ^ k) mod 256.
Proof.
  intros Hk. change 0xff with (Z.ones 8). rewrite Z.land_ones, Z.shiftr_div_pow2 by lia.
  apply u8_id. apply Z.mod_pos_bound. lia.
Qed.

Lemma be64_eq v : be64 v = be_bytes 8 v.
Proof.
  unfold be64. cbn [map be_bytes app]. rewrite !byte_of by lia. rewrite !Z.div_div by lia.
  change (2 ^ (0 * 8)) with 1. rewrite Z.div_1_r. done.
Qed.

Lemma be32_eq w : be32 w = be_bytes 4 w.
Proof.
  unfold be32. cbn [be_bytes app]. rewrite !byte_of by lia. rewrite !Z.div_div by lia.
  pose proof (byte_of w 0 ltac:(lia)) as E. rewrite Z.shiftr_0_r, Z.pow_0_r, Z.div_1_r in E. by rewrite E.
Qed.

Lemma padding_eq m : m ++ padding (length m) = pad m.
Proof.
  unfold padding, pad. rewrite be64_eq, (Z.mul_comm 8). do 4 f_equal.
  set (l := length m). pose proof (Nat.div_mod_eq l 64) as Hd. pose proof (Nat.mod_upper_bound l 64 ltac:(lia)) as Hm.
  replace (55 - Z.of_nat l) with (Z.of_nat (119 - l mod 64) + (- (1 + Z.of_nat (l / 64))) * 64) by lia.
  rewrite Z.mod_add by lia. rewrite <- (Nat2Z.inj_mod _ 64). by rewrite Nat2Z.id.
Qed.

Lemma padding_bytes n : bytes (padding n).
Proof.
  unfold padding. rewrite be64_eq. constructor; [split; done|]. apply Forall_app. split.
  - generalize ((119 - n mod 64) mod 64)%nat. intros k. induction k; constructor; [split; done|done].
  - apply be_bytes_bytes.
Qed.

(** The digest of the code's chaining is the hash of the standard. *)
Lemma digest_ref_eq m : bytes m -> digest_ref m = SHA256 m.
Proof.
  intros Hm. unfold digest_ref, SHA256, H_of, absorb, blocks. rewrite padding_eq, H0_eq.
  rewrite flat_map_concat_map. rewrite chain_eq.
  - f_equal. apply map_ext, be32_eq.
  - apply constants_words.
  - apply initial_hash_length.
  - rewrite <- padding_eq. apply Forall_app. split; [done|apply padding_bytes].
  - apply Nat.Div0.mul_div_le.
Qed.

(** sha256_final on a context that stands for a message of bytes. *)
Lemma final_fips ctx m :
  repr ctx m -> bytes m -> Z.of_nat (length m) * 8 < 2 ^ 64 -> sha256_final ctx = (SHA256 m, ctx_zero).
Proof. intros Hr Hm Hl. by rewrite (final_spec ctx m Hr Hl), digest_ref_eq. Qed.



(** *** HMAC: RFC 2104 *)

Definition hmac_key (key : list Z) : list Z :=
  let k := if (64 <? length key)%nat then SHA256 key else key in k ++ repeat 0 (64 - length k).
Definition ipad (key : list Z) : list Z := map (fun b => Z.lxor b 0x36) (hmac_key key).
Definition opad (key : list Z) : list Z := map (fun b => Z.lxor b 0x5c) (hmac_key key).
Definition HMAC (key m : list Z) : list Z := SHA256 (opad key ++ SHA256 (ipad key ++ m)).

Lemma drop_repeat {A} (x : A) n k : drop n (repeat x k) = repeat x (k - n).
Proof. revert n. induction k as [|k IH]; intros [|n]; simpl; auto. Qed.

Lemma hmac_key_length key : length (hmac_key key) = 64%nat.
Proof.
  unfold hmac_key. rewrite length_app, repeat_length'.
  destruct (Nat.ltb_spec 64 (length key)); [rewrite SHA256_length|]; lia.
Qed.

Lemma lxor_byte b c : is_u8 b -> is_u8 c -> is_u8 (Z.lxor b c).
Proof.
  unfold is_u8. intros Hb Hc. assert (E : Z.lxor b c = Z.lxor b c mod 2 ^ 8); [|rewrite E; apply Z.mod_pos_bound; lia].
  rewrite <- (Z.mod_small b (2 ^ 8)), <- (Z.mod_small c (2 ^ 8)) by lia. apply Z.bits_inj'. intros n Hn.
  destruct (decide (n < 8)); [by rewrite Z.mod_pow2_bits_low|].
  by rewrite Z.lxor_spec, !Z.mod_pow2_bits_high by lia.
Qed.

Lemma pads_bytes key : bytes key -> bytes (ipad key) /\ bytes (opad key).
Proof.
  intros Hk. assert (H : bytes (hmac_key key)).
  { unfold hmac_key. apply Forall_app. split; [destruct (_ <? _)%nat; [apply SHA256_bytes|done]|].
    generalize (64 - length (if (64 <? length key)%nat then SHA256 key else key))%nat. intros k.
    induction k; constructor; [split; done|done]. }
  split; apply Forall_map; (eapply Forall_impl; [|exact H]); intros b Hb; apply lxor_byte; done || (split; done).
Qed.

(** A streaming HMAC context stands for a key and the message fed so far, both made of bytes. *)
Record hrepr (ctx : hmac_sha256_ctx_t) (key m : list Z) : Prop := {
  hr_inner : repr (hc_inner ctx) (ipad key ++ m);
  hr_outer : repr (hc_outer ctx) (opad key);
  hr_key : bytes key;
  hr_msg : bytes m;
}.

Definition hctx_ok (ctx : hmac_sha256_ctx_t) : Prop :=
  length (sc_buffer (hc_inner ctx)) = 64%nat /\ length (sc_buffer (hc_outer ctx)) = 64%nat.

Lemma hmac_init_repr stack ctx key :
  length (sc_buffer stack) = 64%nat -> hctx_ok ctx -> bytes key -> Z.of_nat (length key) * 8 < 2 ^ 64 ->
  hrepr (hmac_sha256_init stack ctx key) key [].
Proof.
  intros Hs [Hi Ho] Hb Hk. unfold hmac_sha256_init. rewrite (sha256_correct stack key Hs Hk), (digest_ref_eq key Hb).
  assert (E : (if (SHA256_BLOCK_SIZE <? length key)%nat
               then blit (repeat 0 SHA256_BLOCK_SIZE) 0 (SHA256 key)
               else blit (repeat 0 SHA256_BLOCK_SIZE) 0 key) = hmac_key key).
  { unfold hmac_key, blit, SHA256_BLOCK_SIZE.
    by destruct (Nat.ltb_spec 64 (length key)); cbn [take app]; rewrite drop_repeat. }
  rewrite E. split; [| |done|constructor]; cbn [hc_inner hc_outer].
  - rewrite app_nil_r. by apply (update_repr _ []), init_repr.
  - by apply (update_repr _ []), init_repr.
Qed.

Lemma hmac_update_repr ctx key m d :
  hrepr ctx key m -> bytes d -> hrepr (hmac_sha256_update ctx d) key (m ++ d).
Proof.
  intros [Hi Ho Hk Hm] Hd.
  split; [cbn; rewrite app_assoc; by apply update_repr|done|done|by apply Forall_app].
Qed.

Lemma hmac_final_spec ctx key m :
  hrepr ctx key m -> (64 + Z.of_nat (length m)) * 8 < 2 ^ 64 ->
  hmac_sha256_final ctx = (HMAC key m, mk_hctx ctx_zero ctx_zero).
Proof.
  intros [Hi Ho Hk Hm] Hl. destruct (pads_bytes key Hk) as [Bi Bo]. unfold hmac_sha256_final, ipad, opad in *.
  rewrite (final_fips _ _ Hi);
    [|by apply Forall_app|rewrite length_app, length_map, hmac_key_length; lia].
  erewrite final_fips; [done|by apply update_repr| |].
  - apply Forall_app. split; [done|apply SHA256_bytes].
  - unfold opad. rewrite length_app, SHA256_length, length_map, hmac_key_length. lia.
Qed.

Lemma hmac_spec stack ctx key data :
  length (sc_buffer stack) = 64%nat -> hctx_ok ctx -> bytes key -> bytes data ->
  Z.of_nat (length key) * 8 < 2 ^ 64 -> (64 + Z.of_nat (length data)) * 8 < 2 ^ 64 ->
  hmac_sha256 stack ctx key data = HMAC key data.
Proof.
  intros Hs Hc Bk Bd Hk Hd. unfold hmac_sha256. erewrite hmac_final_spec; [done| |done].
  apply (hmac_update_repr _ _ []); [by apply hmac_init_repr|done].
Qed.

(** ** Properties *)

(** C37: The streaming SHA-256 computes the hash of FIPS 180-4: however a message of bytes is cut into
    updates, and whatever the context's buffer held before, the digest is the one of Fips180.v, whose word
    functions, constants, schedule, rounds and padding are written from the standard alone; the context is
    wiped. The length in bits fits the 64-bit length field. *)
Theorem sha256_streaming_correct ctx chunks :
  length (sc_buffer ctx) = 64%nat -> Forall (Forall is_u8) chunks ->
  Z.of_nat (length (concat chunks)) * 8 < 2 ^ 64 ->
  sha256_final (foldl sha256_update (sha256_init ctx) chunks) = (Fips180.SHA256 (concat chunks), ctx_zero).
Proof.
  intros Hb Hc Hl. apply final_fips; [|by apply Forall_concat|done].
  apply (updates_repr chunks _ []). by apply init_repr.
Qed.

Lemma sha256_streaming_correct_witness :
  fst (sha256_final (foldl sha256_update (sha256_init ctx_zero) [[97]; []; [98; 99]])) =
  Fips180.SHA256 [97; 98; 99].
Proof.
  rewrite (sha256_streaming_correct ctx_zero [[97]; []; [98; 99]]); [reflexivity|reflexivity| |simpl; lia].
  repeat constructor; intro; discriminate.
Defined.

Definition hex_abc : list Z :=
  be32 0xba7816bf ++ be32 0x8f01cfea ++ be32 0x414140de ++ be32 0x5dae2223 ++
  be32 0xb00361a3 ++ be32 0x96177a9c ++ be32 0xb410ff61 ++ be32 0xf20015ad.

(** The implementation reproduces the published vectors its unit test lists: SHA-256 of the empty
    string and of abc, and HMAC-SHA-256 of RFC 4231 case 2 (key Jefe). *)
Theorem sha256_published_vectors :
  sha256 ctx_zero [] = be32 0xe3b0c442 ++ be32 0x98fc1c14 ++ be32 0x9afbf4c8 ++ be32 0x996fb924 ++
                       be32 0x27ae41e4 ++ be32 0x649b934c ++ be32 0xa495991b ++ be32 0x7852b855 /\
  sha256 ctx_zero [97; 98; 99] = hex_abc /\
  hmac_sha256 ctx_zero (mk_hctx ctx_zero ctx_zero) [74; 101; 102; 101]
    [119; 104; 97; 116; 32; 100; 111; 32; 121; 97; 32; 119; 97; 110; 116; 32;
     102; 111; 114; 32; 110; 111; 116; 104; 105; 110; 103; 63] =
    be32 0x5bdcc146 ++ be32 0xbf60754e ++ be32 0x6a042426 ++ be32 0x089575c7 ++
    be32 0x5a003f08 ++ be32 0x9d273983 ++ be32 0x9dec58b9 ++ be32 0x64ec3843.
Proof. vm_compute. repeat split; reflexivity. Qed.

(** *** HKDF: RFC 5869 *)

Lemma expand_n (buf : list Z) :
  (length buf <= 255 * 32)%nat ->
  u32 (u64 (Z.of_nat (length buf) + 32 - 1) / 32) = Z.of_nat ((length buf + 31) / 32).
Proof.
  intros H. rewrite (u64_id (_ + 32 - 1)) by lia. rewrite Nat2Z.inj_div, Nat2Z.inj_add.
  replace (Z.of_nat (length buf) + 32 - 1) with (Z.of_nat (length buf) + Z.of_nat 31) by lia.
  apply u32_id. split; [apply Z.div_pos; lia|apply Z.div_lt_upper_bound; lia].
Qed.

Section Hkdf.
Context (stack : sha256_ctx_t) (hstack : hmac_sha256_ctx_t) (prk info : list Z).
Context (Hstack : length (sc_buffer stack) = 64%nat) (Hhstack : hctx_ok hstack).
Context (Bprk : bytes prk) (Binfo : bytes info).
Context (Hprk : Z.of_nat (length prk) * 8 < 2 ^ 64) (Hinfo : (128 + Z.of_nat (length info)) * 8 < 2 ^ 64).

(** T(0) is empty and T(i) = HMAC(PRK, T(i-1) | info | i). *)
Fixpoint hkdf_T (i : nat) : list Z :=
  match i with
  | O => []
  | S j => HMAC prk (hkdf_T j ++ info ++ [Z.of_nat i])
  end.

(** T(1) | ... | T(n) *)
Fixpoint hkdf_stream (n : nat) : list Z :=
  match n with
  | O => []
  | S k => hkdf_stream k ++ hkdf_T n
  end.

Lemma hkdf_T_length i : length (hkdf_T i) = if decide (i = 0%nat) then 0%nat else 32%nat.
Proof. destruct i; [done|]. apply SHA256_length. Qed.

Lemma hkdf_T_bytes i : bytes (hkdf_T i).
Proof. destruct i; [constructor|]. apply SHA256_bytes. Qed.

Lemma hkdf_stream_length n : length (hkdf_stream n) = (32 * n)%nat.
Proof.
  induction n as [|n IH]; [done|]. cbn [hkdf_stream]. rewrite length_app, IH, hkdf_T_length.
  case_decide; lia.
Qed.

Lemma hkdf_stream_prefix i n : (i <= n)%nat -> exists r, hkdf_stream n = hkdf_stream i ++ r.
Proof.
  induction 1 as [|n _ [r IH]]; [exists []; by rewrite app_nil_r|].
  exists (r ++ hkdf_T (S n)). cbn [hkdf_stream]. by rewrite IH, <- app_assoc.
Qed.

(** Writing the next bytes of a stream keeps the array a prefix of it. *)
Lemma blit_prefix (S buf d r : list Z) w :
  (w + length d <= length buf)%nat -> (w <= length S)%nat -> drop w S = d ++ r ->
  blit (take w S ++ drop w buf) w d = take (w + length d) S ++ drop (w + length d) buf.
Proof.
  intros Hw HS Hd. assert (Hl : length (take w S) = w) by (rewrite length_take; lia). unfold blit.
  rewrite take_app_length' by done. rewrite drop_app_ge by lia. rewrite Hl, drop_drop.
  rewrite app_assoc. f_equal; [|f_equal; lia].
  transitivity (take w S ++ take (length d) (drop w S)).
  - by rewrite Hd, take_app_length.
  - by rewrite take_take_drop.
Qed.

(** One turn of the loop computes the next T. *)
Lemma hkdf_turn i (T : list Z) :
  (i < 255)%nat -> T = hkdf_T i ->
  fst (hmac_sha256_final
         (hmac_sha256_update
            (let c1 := match T with
                       | [] => hmac_sha256_init stack hstack prk
                       | _ => hmac_sha256_update (hmac_sha256_init stack hstack prk) T
                       end in match info with [] => c1 | _ => hmac_sha256_update c1 info end)
            [Z.of_nat (S i)])) = hkdf_T (S i).
Proof.
  intros Hi HT. pose proof (hmac_init_repr stack hstack prk Hstack Hhstack Bprk Hprk) as Hr.
  assert (BT : bytes T) by (rewrite HT; apply hkdf_T_bytes).
  set (c0 := hmac_sha256_init stack hstack prk) in *.
  assert (H1 : hrepr (match T with [] => c0 | _ => hmac_sha256_update c0 T end) prk T)
    by (destruct T; [done|by apply (hmac_update_repr _ _ []) ]).
  set (c1 := match T with [] => _ | _ => _ end) in *.
  assert (H2 : hrepr (match info with [] => c1 | _ => hmac_sha256_update c1 info end) prk (T ++ info))
    by (destruct info; [by rewrite app_nil_r|by apply hmac_update_repr]).
  apply (hmac_update_repr _ _ _ [Z.of_nat (S i)]) in H2; [|constructor; [unfold is_u8; lia|constructor]]. cbn zeta.
  rewrite (hmac_final_spec _ _ _ H2).
  - cbn [fst hkdf_T]. by rewrite HT, <- app_assoc.
  - rewrite !length_app, HT, hkdf_T_length. simpl length. case_decide; lia.
Qed.

Lemma stream_drop j n : (j < n)%nat -> exists r, drop (32 * j) (hkdf_stream n) = hkdf_T (S j) ++ r.
Proof.
  intros Hj. destruct (hkdf_stream_prefix (S j) n Hj) as [r Hr]. exists r. rewrite Hr. cbn [hkdf_stream].
  rewrite <- app_assoc. apply drop_app_length'. by rewrite hkdf_stream_length.
Qed.

Lemma expand_loop_spec fuel n (buf : list Z) k j :
  (n <= 254)%nat -> (32 * n < length buf + 32)%nat -> (length buf <= 32 * n)%nat ->
  (j + k = n)%nat -> (k < fuel)%nat ->
  let w := (Nat.min (32 * j) (length buf)) in
  expand_loop fuel stack hstack prk info (Z.of_nat n) (Z.of_nat (S j)) (hkdf_T j)
    (take w (hkdf_stream n) ++ drop w buf) w = Some (take (length buf) (hkdf_stream n)).
Proof.
  intros Hn Hlo Hhi. revert fuel j. induction k as [|k IH]; intros fuel j Hj Hf w;
    (destruct fuel as [|fuel]; [lia|]); cbn [expand_loop]; rewrite u8_id by lia.
  - destruct (Z.leb_spec (Z.of_nat (S j)) (Z.of_nat n)); [lia|].
    unfold w. rewrite Nat.min_r by lia. by rewrite drop_all, app_nil_r.
  - destruct (Z.leb_spec (Z.of_nat (S j)) (Z.of_nat n)); [|lia].
    pose proof (hkdf_turn j (hkdf_T j) ltac:(lia) eq_refl) as Hturn. cbn zeta in Hturn. rewrite Hturn. set (okm := take w _ ++ _).
    assert (Hw : w = (32 * j)%nat) by lia.
    assert (Hol : length okm = length buf)
      by (unfold okm; rewrite length_app, length_take, length_drop, hkdf_stream_length; lia).
    rewrite Hol. unfold SHA256_DIGEST_SIZE.
    set (c := if (32 <? length buf - w)%nat then 32%nat else (length buf - w)%nat).
    assert (Hc : (w + c = Nat.min (32 * S j) (length buf))%nat)
      by (unfold c; destruct (Nat.ltb_spec 32 (length buf - w)); lia).
    assert (Hd : length (take c (hkdf_T (S j))) = c) by (rewrite length_take, hkdf_T_length; case_decide; lia).
    destruct (stream_drop j n) as [r Hr]; [lia|]. rewrite <- Hw in Hr.
    unfold okm. rewrite (blit_prefix _ buf _ (drop c (hkdf_T (S j)) ++ r) w); rewrite ?Hd;
      [|lia|rewrite hkdf_stream_length; lia|by rewrite app_assoc, take_drop].
    rewrite u8_id by lia. replace (Z.of_nat (S j) + 1) with (Z.of_nat (S (S j))) by lia.
    rewrite Hc. apply IH; lia.
Qed.

Lemma expand_spec fuel buf :
  (length buf <= 254 * 32)%nat -> (255 <= fuel)%nat ->
  hkdf_sha256_expand fuel stack hstack prk info (Some buf) =
  Some (0, Some (take (length buf) (hkdf_stream ((length buf + 31) / 32)))).
Proof.
  intros Hb Hf. unfold hkdf_sha256_expand. rewrite (expand_n buf) by lia. set (n := ((length buf + 31) / 32)%nat).
  pose proof (Nat.div_mod_eq (length buf + 31) 32) as Hdm. fold n in Hdm.
  pose proof (Nat.mod_upper_bound (length buf + 31) 32 ltac:(lia)) as Hm.
  destruct (Z.gtb_spec (Z.of_nat n) 255); [lia|].
  pose proof (expand_loop_spec fuel n buf n 0 ltac:(lia) ltac:(lia) ltac:(lia) eq_refl ltac:(lia)) as E.
  cbn zeta in E. rewrite Nat.mul_0_r, Nat.min_0_l in E. rewrite take_0, drop_0 in E. change ([] ++ buf) with buf in E. change (Z.of_nat 1) with 1 in E.
  change (hkdf_T 0) with (@nil Z) in E. by rewrite E.
Qed.
End Hkdf.

(** With N = 255 the 8-bit counter can never exceed the bound. *)
Lemma expand_loop_255 fuel stack hstack prk info i T okm w :
  0 <= i < 256 -> expand_loop fuel stack hstack prk info 255 i T okm w = None.
Proof.
  revert i T okm w. induction fuel as [|fuel IH]; intros i T okm w Hi; [done|]. cbn [expand_loop].
  change (u8 255) with 255. destruct (Z.leb_spec i 255); [|lia]. apply IH. pose proof (u8_range (i + 1)). done.
Qed.

(** HMAC-SHA-256 is the RFC 2104 construction over the FIPS hash, for keys of any length (a key longer
    than a block is hashed first) and whatever the contexts held before. *)
Theorem hmac_sha256_correct stack ctx key data :
  length (sc_buffer stack) = 64%nat -> hctx_ok ctx -> bytes key -> bytes data ->
  Z.of_nat (length key) * 8 < 2 ^ 64 -> (64 + Z.of_nat (length data)) * 8 < 2 ^ 64 ->
  hmac_sha256 stack ctx key data = HMAC key data.
Proof. apply hmac_spec. Qed.

Lemma hmac_sha256_correct_witness :
  hmac_sha256 ctx_zero (mk_hctx ctx_zero ctx_zero) (repeat 170 131) [1; 2; 3] = HMAC (repeat 170 131) [1; 2; 3].
Proof.
  apply hmac_sha256_correct; [reflexivity|split; reflexivity| | |simpl; lia|simpl; lia];
    repeat constructor; intro; discriminate.
Defined.

(** HKDF-Expand terminates and fills the caller's array with the first bytes of T(1) | T(2) | ... of
    RFC 5869, for every output of at most 254 blocks. *)
Theorem hkdf_expand_correct fuel stack hstack prk info buf :
  length (sc_buffer stack) = 64%nat -> hctx_ok hstack -> bytes prk -> bytes info ->
  Z.of_nat (length prk) * 8 < 2 ^ 64 -> (128 + Z.of_nat (length info)) * 8 < 2 ^ 64 ->
  (length buf <= 254 * 32)%nat -> (255 <= fuel)%nat ->
  hkdf_sha256_expand fuel stack hstack prk info (Some buf) =
  Some (0, Some (take (length buf) (hkdf_stream prk info ((length buf + 31) / 32)))).
Proof. intros. apply expand_spec; try done; lia. Qed.

Lemma hkdf_expand_correct_witness :
  hkdf_sha256_expand 255 ctx_zero (mk_hctx ctx_zero ctx_zero) (repeat 7 32) [1; 2] (Some (repeat 0 42)) =
  Some (0, Some (take 42 (hkdf_stream (repeat 7 32) [1; 2] 2))).
Proof.
  apply (hkdf_expand_correct 255 ctx_zero (mk_hctx ctx_zero ctx_zero) (repeat 7 32) [1; 2] (repeat 0 42));
    [reflexivity|split; reflexivity| | |simpl; lia|simpl; lia|simpl; lia|lia]; repeat constructor; intro; discriminate.
Defined.

(** For an output of exactly 255 blocks, which the length check admits, the expansion never returns:
    the block counter is an 8-bit variable that wraps to 0 and stays at most 255. *)
Theorem hkdf_expand_255_diverges stack hstack prk info buf :
  (254 * 32 < length buf <= 255 * 32)%nat ->
  forall fuel, hkdf_sha256_expand fuel stack hstack prk info (Some buf) = None.
Proof.
  intros Hb fuel. unfold hkdf_sha256_expand. rewrite (expand_n buf) by lia.
  assert (E : ((length buf + 31) / 32)%nat = 255%nat).
  { symmetry. apply (Nat.div_unique _ 32 _ (length buf + 31 - 255 * 32)); lia. }
  rewrite E. simpl (Z.of_nat 255 >? 255). cbv iota. by rewrite (expand_loop_255 fuel) by lia.
Qed.

Lemma hkdf_expand_255_diverges_witness :
  (254 * 32 < length (repeat 0 (255 * 32)) <= 255 * 32)%nat /\
  hkdf_sha256_expand 2000 ctx_zero (mk_hctx ctx_zero ctx_zero) (repeat 7 32) [] (Some (repeat 0 (255 * 32))) = None.
Proof. split; [rewrite repeat_length; lia|]. apply hkdf_expand_255_diverges. rewrite repeat_length. lia. Defined.

End Sha256Props.
