(* ===== verification/Acl.v ===== *)
(** * Access control list of the server

    Models drivers/amba_virt/tools/virt_acl.c: the table of sixteen rules, the capability test, and the
    policy file that saves and reloads the rules. Text is a list of characters without NUL; the file
    system is an argument (the contents of the policy file, when one can be opened). *)

From Stdlib Require Import ZArith Lia Bool Ascii String.
From stdpp Require Import base list numbers.
From S2P Require Import Prelude Text.

Module Acl.

Export Text.

#[local] Open Scope Z_scope.
#[local] Open Scope list_scope.

Definition VIRT_ACL_MAX_RULES : nat := 16.
Definition VIRT_PRIORITY_NORMAL : Z := 1.

(** Capability bits and roles (include/uapi/amba_virt.h). *)
Definition AMBA_VIRT_CAP_PING : Z := 0x1.
Definition AMBA_VIRT_CAP_QUERY_SELF : Z := 0x2.
Definition AMBA_VIRT_CAP_MEM_ALLOC : Z := 0x10.
Definition AMBA_VIRT_CAP_DEV_CONFIG : Z := 0x40.
Definition AMBA_VIRT_CAP_GDMA_COPY : Z := 0x80.
Definition AMBA_VIRT_CAP_GDMA_PITCH : Z := 0x100.
Definition AMBA_VIRT_CAP_CAVALRY_PATH_B : Z := 0x200.
Definition AMBA_VIRT_CAP_CAVALRY_REGISTER : Z := 0x800.
Definition AMBA_VIRT_CAP_DMA_SLAVE : Z := 0x2000.
Definition AMBA_VIRT_CAP_IAV_DEV : Z := 0x4000.

Definition bits (l : list Z) : Z := fold_right Z.lor 0 l.
Definition AMBA_VIRT_ROLE_UNTRUSTED : Z :=
  bits [AMBA_VIRT_CAP_PING; AMBA_VIRT_CAP_QUERY_SELF; AMBA_VIRT_CAP_CAVALRY_PATH_B; AMBA_VIRT_CAP_CAVALRY_REGISTER].
Definition AMBA_VIRT_ROLE_STANDARD : Z :=
  bits [AMBA_VIRT_ROLE_UNTRUSTED; AMBA_VIRT_CAP_MEM_ALLOC; AMBA_VIRT_CAP_DEV_CONFIG; AMBA_VIRT_CAP_GDMA_COPY;
        AMBA_VIRT_CAP_GDMA_PITCH; AMBA_VIRT_CAP_DMA_SLAVE; AMBA_VIRT_CAP_IAV_DEV].

(** ** Rules *)

(** struct virt_acl_entry *)
Record virt_acl_entry := mk_acl {
  ae_cid : Z;
  ae_caps : Z;
  ae_quota_mb : Z;
  ae_priority : Z;
  ae_tenant_name : text;
  ae_in_use : bool;
}.

Definition acl_zero : virt_acl_entry := mk_acl 0 0 0 0 [] false.

Record acl_state := mk_aclst { g_acl_entries : list virt_acl_entry; g_acl_initialized : bool }.

Definition rule_of (cid : Z) (e : virt_acl_entry) : bool := ae_in_use e && (ae_cid e =? cid).

(** snprintf(tenant_name, 64, ...) of the given or the default name *)
Definition rule_name (cid : Z) (name : option text) : text :=
  match name with
  | Some (c :: n) => take 63 (c :: n)
  | _ => take 63 (lit "guest-" ++ print_u cid)
  end.

(** The table update of virt_acl_set_rule, once the list is initialised *)
Definition acl_put (cid : Z) (name : option text) (caps quota_mb priority : Z) (es : list virt_acl_entry)
    : option (list virt_acl_entry) :=
  let target := match find_idx (rule_of cid) es with
                | Some i => Some i
                | None => find_idx (fun e => negb (ae_in_use e)) es
                end in
  match target with
  | None => None
  | Some i => Some (<[i := mk_acl cid caps quota_mb priority (rule_name cid name) true]> es)
  end.

(** ** Policy file *)

(** The object being read by virt_acl_load_policies. *)
Record policy_obj := mk_obj {
  po_in_obj : bool;
  po_cid : Z;
  po_quota : Z;
  po_priority : Z;
  po_caps : Z;
  po_name : text;
}.

Definition obj_start (in_obj : bool) : policy_obj :=
  mk_obj in_obj 0 1024 1 AMBA_VIRT_ROLE_STANDARD (lit "guest").

(** One field line of an object. *)
Definition load_field (p : text) (o : policy_obj) : policy_obj :=
  if contains (lit "'cid'") p then
    mk_obj (po_in_obj o) (sscanf_u (lit "'cid': ") p (po_cid o)) (po_quota o) (po_priority o) (po_caps o) (po_name o)
  else if contains (lit "'tenant_name'") p then
    match scan_literal (lit "'tenant_name': '") p with
    | Some rest =>
        match scan_name 63 rest with
        | [] => o
        | n => mk_obj (po_in_obj o) (po_cid o) (po_quota o) (po_priority o) (po_caps o) (take 63 n)
        end
    | None => o
    end
  else if contains (lit "'quota_mb'") p then
    mk_obj (po_in_obj o) (po_cid o) (sscanf_u (lit "'quota_mb': ") p (po_quota o)) (po_priority o) (po_caps o) (po_name o)
  else if contains (lit "'priority'") p then
    mk_obj (po_in_obj o) (po_cid o) (po_quota o) (sscanf_u (lit "'priority': ") p (po_priority o)) (po_caps o) (po_name o)
  else if contains (lit "'caps'") p then
    mk_obj (po_in_obj o) (po_cid o) (po_quota o) (po_priority o) (sscanf_u (lit "'caps': ") p (po_caps o)) (po_name o)
  else o.

(** One line of the file. *)
Definition load_line (line : text) (o : policy_obj) (es : list virt_acl_entry) : policy_obj * list virt_acl_entry :=
  let p := skip_space line in
  match p with
  | c :: _ =>
      if Ascii.eqb c "{" then (obj_start true, es)
      else if Ascii.eqb c "}" then
        let es' := if po_in_obj o && (po_cid o >? 0)
                   then default es (acl_put (po_cid o) (Some (po_name o)) (po_caps o) (po_quota o) (po_priority o) es)
                   else es in
        (mk_obj false (po_cid o) (po_quota o) (po_priority o) (po_caps o) (po_name o), es')
      else (load_field p o, es)
  | [] => (load_field p o, es)
  end.

(** The fgets loop: every turn consumes at least one character, so the length of the file is enough fuel. *)
Fixpoint load_loop (fuel : nat) (s : text) (o : policy_obj) (es : list virt_acl_entry) : list virt_acl_entry :=
  match fuel, s with
  | S f, _ :: _ =>
      let '(line, rest) := next_line 511 s in
      let '(o', es') := load_line line o es in
      load_loop f rest o' es'
  | _, _ => es
  end.

(** virt_acl_load_policies into the table, from the file that could be opened, if any *)
Definition virt_acl_load_policies (file : option text) (es : list virt_acl_entry) : list virt_acl_entry :=
  match file with
  | Some s => load_loop (length s) s (obj_start false) es
  | None => es
  end.

(** The object virt_acl_save_policies writes for one rule. *)
Definition save_entry (e : virt_acl_entry) : text :=
  lit "  {" ++ [newline] ++
  lit "    'cid': " ++ print_u (ae_cid e) ++ lit "," ++ [newline] ++
  lit "    'tenant_name': '" ++ ae_tenant_name e ++ lit "'," ++ [newline] ++
  lit "    'quota_mb': " ++ print_u (ae_quota_mb e) ++ lit "," ++ [newline] ++
  lit "    'priority': " ++ print_u (ae_priority e) ++ lit "," ++ [newline] ++
  lit "    'caps': " ++ print_u (ae_caps e) ++ [newline] ++
  lit "  }".

(** The objects with their separators. *)
Fixpoint save_entries (count : nat) (es : list virt_acl_entry) : text :=
  match es with
  | [] => []
  | e :: es' =>
      if ae_in_use e then
        (if (0 <? count)%nat then lit "," ++ [newline] else []) ++ save_entry e ++ save_entries (S count) es'
      else save_entries count es'
  end.

(** The text virt_acl_save_policies writes *)
Definition virt_acl_save_policies (es : list virt_acl_entry) : text :=
  lit "[" ++ [newline] ++ save_entries 0 es ++ [newline] ++ lit "]" ++ [newline].

(** ** Operations on the global list *)

(** virt_acl_init; [file] is the policy file found on disk *)
Definition virt_acl_init (file : option text) : acl_state :=
  mk_aclst (virt_acl_load_policies file (repeat acl_zero VIRT_ACL_MAX_RULES)) true.

(** virt_acl_cleanup *)
Definition virt_acl_cleanup (st : acl_state) : acl_state := mk_aclst (repeat acl_zero VIRT_ACL_MAX_RULES) false.

(** [if (!g_acl_initialized) virt_acl_init();] *)
Definition ensure_init (file : option text) (st : acl_state) : acl_state :=
  if g_acl_initialized st then st else virt_acl_init file.

(** virt_acl_get_caps *)
Definition virt_acl_get_caps (file : option text) (cid : Z) (st : acl_state) : Z * acl_state :=
  let st := ensure_init file st in
  match find_idx (rule_of cid) (g_acl_entries st) with
  | Some i => (from_option ae_caps AMBA_VIRT_ROLE_STANDARD (g_acl_entries st !! i), st)
  | None => (AMBA_VIRT_ROLE_STANDARD, st)
  end.

(** virt_acl_has_cap *)
Definition virt_acl_has_cap (file : option text) (cid cap : Z) (st : acl_state) : bool * acl_state :=
  let '(caps, st) := virt_acl_get_caps file cid st in (Z.land caps cap =? cap, st).

(** virt_acl_set_rule *)
Definition virt_acl_set_rule (file : option text) (cid : Z) (name : option text) (caps quota_mb priority : Z)
    (st : acl_state) : Z * acl_state :=
  let st := ensure_init file st in
  match acl_put cid name caps quota_mb priority (g_acl_entries st) with
  | Some es => (0, mk_aclst es (g_acl_initialized st))
  | None => (- ENOSPC, st)
  end.

(** virt_acl_get_rule *)
Definition virt_acl_get_rule (file : option text) (cid : Z) (st : acl_state) : virt_acl_entry * acl_state :=
  let st := ensure_init file st in
  let dflt := mk_acl cid AMBA_VIRT_ROLE_STANDARD 1024 VIRT_PRIORITY_NORMAL (take 63 (lit "guest-" ++ print_u cid)) true in
  match find_idx (rule_of cid) (g_acl_entries st) with
  | Some i => (default dflt (g_acl_entries st !! i), st)
  | None => (dflt, st)
  end.

(** virt_acl_remove_rule *)
Definition virt_acl_remove_rule (cid : Z) (st : acl_state) : Z * acl_state :=
  if negb (g_acl_initialized st) then (- ENOENT, st)
  else
    match find_idx (rule_of cid) (g_acl_entries st) with
    | Some i =>
        (0, mk_aclst (alter (fun e => mk_acl (ae_cid e) (ae_caps e) (ae_quota_mb e) (ae_priority e)
                                             (ae_tenant_name e) false) i (g_acl_entries st)) true)
    | None => (- ENOENT, st)
    end.

(** virt_acl_get_all_entries *)
Definition virt_acl_get_all_entries (file : option text) (max_entries : Z) (st : acl_state)
    : list virt_acl_entry * acl_state :=
  if max_entries <=? 0 then ([], st)
  else
    let st := ensure_init file st in
    (take (Z.to_nat max_entries) (filter (fun e => ae_in_use e = true) (g_acl_entries st)), st).

End Acl.
