(* ===== verification/AclProps.v ===== *)
(** * Properties of the access control list

    The capability test against the rule table, the table invariant, and the round trip of the policy file:
    what virt_acl_save_policies writes, virt_acl_load_policies reads back. *)

From Stdlib Require Import ZArith Lia Bool Ascii String.
From stdpp Require Import base list numbers gmap.
From S2P Require Import Prelude Text Acl.
Import Acl.
#[local] Open Scope Z_scope.
#[local] Open Scope list_scope.

(** ** The lines of the policy file *)

Definition name_ok (n : text) : Prop :=
  n <> [] /\ (length n <= 63)%nat /\ Forall plain n /\ n <> lit "cid".

Record entry_ok (e : virt_acl_entry) : Prop := {
  eo_cid : 0 < ae_cid e < 2 ^ 32;
  eo_caps : is_u32 (ae_caps e);
  eo_quota : is_u32 (ae_quota_mb e);
  eo_priority : is_u32 (ae_priority e);
  eo_name : name_ok (ae_tenant_name e);
}.

(** The text after a number: a comma and the end of the line, or the end of the line. *)
Definition num_end (t : text) : Prop := t = lit "," ++ [newline] \/ t = [newline].

Lemma contains_num pat n t : is_u32 n -> num_end t -> contains (dquote :: pat) (print_u n ++ t) = false.
Proof.
  intros Hn Ht. rewrite contains_skip.
  - destruct Ht as [-> | ->]; destruct pat; reflexivity.
  - by apply plain_no_quote, print_u_plain.
Qed.

Lemma sscanf_num n t old : is_u32 n -> num_end t -> default old (scan_uint (skip_space (print_u n ++ t))) = n.
Proof.
  intros Hn Ht. rewrite skip_space_print by done. rewrite scan_uint_print; [done|done|]. by destruct Ht as [-> | ->].
Qed.

Section Fields.
Context (n : Z) (t : text) (Hn : is_u32 n) (Ht : num_end t) (o : policy_obj) (es : list virt_acl_entry).

Lemma load_cid :
  load_line (lit "    'cid': " ++ print_u n ++ t) o es =
  (mk_obj (po_in_obj o) n (po_quota o) (po_priority o) (po_caps o) (po_name o), es).
Proof.
  change (load_line (lit "    'cid': " ++ print_u n ++ t) o es) with
    (mk_obj (po_in_obj o) (default (po_cid o) (scan_uint (skip_space (print_u n ++ t)))) (po_quota o)
            (po_priority o) (po_caps o) (po_name o), es).
  by rewrite sscanf_num.
Qed.

Lemma load_quota :
  load_line (lit "    'quota_mb': " ++ print_u n ++ t) o es =
  (mk_obj (po_in_obj o) (po_cid o) n (po_priority o) (po_caps o) (po_name o), es).
Proof.
  change (load_line (lit "    'quota_mb': " ++ print_u n ++ t) o es)
    with (load_field (lit "'quota_mb': " ++ print_u n ++ t) o, es). unfold load_field.
  change (contains (lit "'cid'") (lit "'quota_mb': " ++ print_u n ++ t)) with (contains (lit "'cid'") (print_u n ++ t)).
  change (contains (lit "'tenant_name'") (lit "'quota_mb': " ++ print_u n ++ t))
    with (contains (lit "'tenant_name'") (print_u n ++ t)).
  rewrite (contains_num (lit "cid'")), (contains_num (lit "tenant_name'")) by done.
  change (contains (lit "'quota_mb'") (lit "'quota_mb': " ++ print_u n ++ t)) with true.
  change (sscanf_u (lit "'quota_mb': ") (lit "'quota_mb': " ++ print_u n ++ t) (po_quota o))
    with (default (po_quota o) (scan_uint (skip_space (print_u n ++ t)))). by rewrite sscanf_num.
Qed.

Lemma load_priority :
  load_line (lit "    'priority': " ++ print_u n ++ t) o es =
  (mk_obj (po_in_obj o) (po_cid o) (po_quota o) n (po_caps o) (po_name o), es).
Proof.
  change (load_line (lit "    'priority': " ++ print_u n ++ t) o es)
    with (load_field (lit "'priority': " ++ print_u n ++ t) o, es). unfold load_field.
  change (contains (lit "'cid'") (lit "'priority': " ++ print_u n ++ t)) with (contains (lit "'cid'") (print_u n ++ t)).
  change (contains (lit "'tenant_name'") (lit "'priority': " ++ print_u n ++ t))
    with (contains (lit "'tenant_name'") (print_u n ++ t)).
  change (contains (lit "'quota_mb'") (lit "'priority': " ++ print_u n ++ t))
    with (contains (lit "'quota_mb'") (print_u n ++ t)).
  rewrite (contains_num (lit "cid'")), (contains_num (lit "tenant_name'")), (contains_num (lit "quota_mb'")) by done.
  change (contains (lit "'priority'") (lit "'priority': " ++ print_u n ++ t)) with true.
  change (sscanf_u (lit "'priority': ") (lit "'priority': " ++ print_u n ++ t) (po_priority o))
    with (default (po_priority o) (scan_uint (skip_space (print_u n ++ t)))). by rewrite sscanf_num.
Qed.

Lemma load_caps :
  load_line (lit "    'caps': " ++ print_u n ++ t) o es =
  (mk_obj (po_in_obj o) (po_cid o) (po_quota o) (po_priority o) n (po_name o), es).
Proof.
  change (load_line (lit "    'caps': " ++ print_u n ++ t) o es)
    with (load_field (lit "'caps': " ++ print_u n ++ t) o, es). unfold load_field.
  change (contains (lit "'cid'") (lit "'caps': " ++ print_u n ++ t)) with (contains (lit "'cid'") (print_u n ++ t)).
  change (contains (lit "'tenant_name'") (lit "'caps': " ++ print_u n ++ t))
    with (contains (lit "'tenant_name'") (print_u n ++ t)).
  change (contains (lit "'quota_mb'") (lit "'caps': " ++ print_u n ++ t))
    with (contains (lit "'quota_mb'") (print_u n ++ t)).
  change (contains (lit "'priority'") (lit "'caps': " ++ print_u n ++ t))
    with (contains (lit "'priority'") (print_u n ++ t)).
  rewrite (contains_num (lit "cid'")), (contains_num (lit "tenant_name'")), (contains_num (lit "quota_mb'")),
    (contains_num (lit "priority'")) by done.
  change (contains (lit "'caps'") (lit "'caps': " ++ print_u n ++ t)) with true.
  change (sscanf_u (lit "'caps': ") (lit "'caps': " ++ print_u n ++ t) (po_caps o))
    with (default (po_caps o) (scan_uint (skip_space (print_u n ++ t)))). by rewrite sscanf_num.
Qed.
End Fields.

Lemma load_name N o es :
  name_ok N ->
  load_line (lit "    'tenant_name': '" ++ N ++ lit "'," ++ [newline]) o es =
  (mk_obj (po_in_obj o) (po_cid o) (po_quota o) (po_priority o) (po_caps o) N, es).
Proof.
  intros (Hne & Hlen & Hpl & Hcid). pose proof (plain_no_quote N Hpl) as Hq.
  change (lit "'," ++ [newline]) with (dquote :: lit "," ++ [newline]). set (t := lit "," ++ [newline]).
  change (load_line (lit "    'tenant_name': '" ++ N ++ dquote :: t) o es)
    with (load_field (lit "'tenant_name': '" ++ N ++ dquote :: t) o, es). unfold load_field.
  assert (Hc : contains (lit "'cid'") (lit "'tenant_name': '" ++ N ++ dquote :: t) = false).
  { change (starts_with (lit "cid" ++ [dquote]) (N ++ dquote :: t) || contains (lit "'cid'") (N ++ dquote :: t) = false).
    apply orb_false_iff. split.
    - apply not_true_iff_false. intros H. apply Hcid. apply (starts_with_quoted (lit "cid") N t); [|done|done].
      repeat constructor; discriminate.
    - change (lit "'cid'") with (dquote :: lit "cid'"). by rewrite contains_skip. }
  rewrite Hc. change (contains (lit "'tenant_name'") (lit "'tenant_name': '" ++ N ++ dquote :: t)) with true.
  change (scan_literal (lit "'tenant_name': '") (lit "'tenant_name': '" ++ N ++ dquote :: t)) with (Some (N ++ dquote :: t)).
  cbv iota. rewrite (scan_name_spec 63 N t Hlen Hq). destruct N as [|c N]; [done|].
  by rewrite take_ge.
Qed.

(** *** The whole file as lines *)

(** [s] is the lines [ls], each shorter than the buffer and ended by a newline. *)
Definition line_ok (l : text) : Prop := Forall (fun c => c <> newline) l /\ (length l < 511)%nat.
Definition unlines (ls : list text) : text := concat (map (fun l => l ++ [newline]) ls).

Definition load_lines (ls : list text) (oe : policy_obj * list virt_acl_entry) : policy_obj * list virt_acl_entry :=
  foldl (fun '(o, es) l => load_line (l ++ [newline]) o es) oe ls.

Lemma load_loop_lines ls fuel o es :
  Forall line_ok ls -> (length (unlines ls) <= fuel)%nat ->
  load_loop fuel (unlines ls) o es = snd (load_lines ls (o, es)).
Proof.
  intros Hls. revert fuel o es. induction Hls as [|l ls [Hnl Hlen] _ IH]; intros fuel o es Hf.
  - by destruct fuel.
  - assert (E : unlines (l :: ls) = l ++ newline :: unlines ls) by (unfold unlines; cbn; by rewrite <- app_assoc).
    rewrite E in *. rewrite length_app in Hf. cbn [length] in Hf. destruct fuel as [|fuel]; [lia|].
    cbn [load_loop]. rewrite next_line_spec by (done || lia).
    destruct (l ++ newline :: unlines ls) eqn:E2; [by destruct l|].
    unfold load_lines. cbn [foldl]. destruct (load_line (l ++ [newline]) o es) as [o' es'].
    apply IH. lia.
Qed.

Definition entry_lines (e : virt_acl_entry) (last : bool) : list text :=
  [lit "  {";
   lit "    'cid': " ++ print_u (ae_cid e) ++ lit ",";
   lit "    'tenant_name': '" ++ ae_tenant_name e ++ lit "',";
   lit "    'quota_mb': " ++ print_u (ae_quota_mb e) ++ lit ",";
   lit "    'priority': " ++ print_u (ae_priority e) ++ lit ",";
   lit "    'caps': " ++ print_u (ae_caps e);
   lit "  }" ++ (if last then [] else lit ",")].

Fixpoint body_lines (L : list virt_acl_entry) : list text :=
  match L with
  | [] => []
  | [e] => entry_lines e true
  | e :: L' => entry_lines e false ++ body_lines L'
  end.

Definition save_lines (L : list virt_acl_entry) : list text :=
  lit "[" :: (match L with [] => [[]] | _ => body_lines L end) ++ [lit "]"].

Lemma unlines_app a b : unlines (a ++ b) = unlines a ++ unlines b.
Proof. unfold unlines. by rewrite map_app, concat_app. Qed.

Lemma save_entries_filter c es : save_entries c es = save_entries c (filter (fun e => ae_in_use e = true) es).
Proof.
  revert c. induction es as [|e es IH]; intros c; [done|]. rewrite filter_cons. case_decide as H.
  - cbn [save_entries]. rewrite H. by rewrite IH.
  - cbn [save_entries]. destruct (ae_in_use e); [done|]. apply IH.
Qed.

Lemma save_entry_lines e (last : bool) :
  save_entry e ++ (if last then [] else lit ",") ++ [newline] = unlines (entry_lines e last).
Proof.
  unfold save_entry, entry_lines, unlines. cbn [map concat]. rewrite app_nil_r.
  destruct last; rewrite <- !app_assoc; reflexivity.
Qed.

Lemma save_entries_lines L e c :
  Forall (fun e => ae_in_use e = true) L ->
  save_entry e ++ save_entries (S c) L ++ [newline] = unlines (body_lines (e :: L)).
Proof.
  intros HL. revert e c. induction HL as [|e2 L H2 _ IH]; intros e c.
  - change (body_lines [e]) with (entry_lines e true). by rewrite <- save_entry_lines.
  - cbn [save_entries]. rewrite H2. change (0 <? S c)%nat with true. cbv iota.
    change (body_lines (e :: e2 :: L)) with (entry_lines e false ++ body_lines (e2 :: L)).
    rewrite unlines_app, <- (IH e2 (S c)), <- save_entry_lines. cbv iota. by rewrite <- !app_assoc.
Qed.

Lemma save_text_lines es : virt_acl_save_policies es = unlines (save_lines (filter (fun e => ae_in_use e = true) es)).
Proof.
  unfold virt_acl_save_policies, save_lines. rewrite save_entries_filter.
  assert (HL : Forall (fun e => ae_in_use e = true) (filter (fun e => ae_in_use e = true) es))
    by (apply Forall_lookup; intros i x Hx; by apply list_elem_of_lookup_2, list_elem_of_filter in Hx as [? _]).
  destruct HL as [|e L He HL]; [done|]. cbn [save_entries]. rewrite He. change (0 <? 0)%nat with false. cbv iota.
  change (lit "[" :: body_lines (e :: L) ++ [lit "]"]) with ([lit "["] ++ body_lines (e :: L) ++ [lit "]"]).
  rewrite !unlines_app, <- (save_entries_lines L e 0 HL). cbn [app]. unfold unlines. cbn [map concat app].
  by rewrite <- !app_assoc.
Qed.

(** *** Reading one object *)

Lemma load_entry e last o es :
  entry_ok e ->
  exists o', load_lines (entry_lines e last) (o, es) =
    (o', default es (acl_put (ae_cid e) (Some (ae_tenant_name e)) (ae_caps e) (ae_quota_mb e) (ae_priority e) es)).
Proof.
  intros []. unfold load_lines, entry_lines. cbn [foldl].
  change (load_line (lit "  {" ++ [newline]) o es) with (obj_start true, es). cbv beta iota.
  rewrite <- !app_assoc.
  rewrite load_cid by (try (by left); unfold is_u32; lia). cbv beta iota. rewrite <- !app_assoc.
  rewrite load_name by done. cbv beta iota. rewrite <- !app_assoc.
  rewrite load_quota by (try (by left); done). cbv beta iota. rewrite <- !app_assoc.
  rewrite load_priority by (try (by left); done). cbv beta iota. rewrite <- !app_assoc.
  rewrite load_caps by (try (by right); done). cbv beta iota. rewrite <- !app_assoc.
  set (o' := mk_obj _ _ _ _ _ _).
  change (load_line (lit "  }" ++ (if last then [] else lit ",") ++ [newline]) o' es) with
    (mk_obj false (po_cid o') (po_quota o') (po_priority o') (po_caps o') (po_name o'),
     if true && (ae_cid e >? 0)
     then default es (acl_put (ae_cid e) (Some (ae_tenant_name e)) (ae_caps e) (ae_quota_mb e) (ae_priority e) es)
     else es).
  rewrite (proj2 (Z.gtb_lt _ _)) by lia. by eexists.
Qed.

(** The next free slot of a compact table. *)
Lemma acl_put_append e done k :
  entry_ok e -> ae_in_use e = true -> (0 < k)%nat ->
  Forall (fun x => ae_in_use x = true /\ ae_cid x <> ae_cid e) done ->
  acl_put (ae_cid e) (Some (ae_tenant_name e)) (ae_caps e) (ae_quota_mb e) (ae_priority e) (done ++ repeat acl_zero k) =
  Some ((done ++ [e]) ++ repeat acl_zero (k - 1)).
Proof.
  intros [? ? ? ? (Hne & Hlen & _)] Hu Hk Hd. unfold acl_put.
  assert (H1 : find_idx (rule_of (ae_cid e)) (done ++ repeat acl_zero k) = None).
  { apply find_idx_None. intros i x [Hx|[_ Hx]]%lookup_app_Some; unfold rule_of.
    - rewrite Forall_lookup in Hd. destruct (Hd i x Hx) as [_ Hc]. rewrite (proj2 (Z.eqb_neq _ _) Hc). apply andb_false_r.
    - by apply repeat_lookup in Hx as ->. }
  rewrite H1.
  assert (H2 : find_idx (fun x => negb (ae_in_use x)) (done ++ repeat acl_zero k) = Some (length done)).
  { clear - Hd Hk. induction Hd as [|x done [Hx _] _ IH]; cbn [app length].
    - by destruct k; [lia|].
    - cbn [find_idx]. rewrite Hx. cbn [negb]. by rewrite IH. }
  rewrite H2. destruct k as [|k]; [lia|]. cbn [repeat]. rewrite Nat.sub_succ, Nat.sub_0_r.
  assert (Hname : rule_name (ae_cid e) (Some (ae_tenant_name e)) = ae_tenant_name e)
    by (unfold rule_name; destruct (ae_tenant_name e); [done|by apply take_ge]).
  rewrite Hname, <- app_assoc. f_equal. rewrite insert_app_r_alt by lia. rewrite Nat.sub_diag.
  destruct e; cbn in *. congruence.
Qed.

(** *** Reading all objects *)

Lemma load_body L done o k :
  Forall (fun e => entry_ok e /\ ae_in_use e = true) L -> NoDup (map ae_cid (done ++ L)) ->
  Forall (fun x => ae_in_use x = true) done -> (length L <= k)%nat ->
  exists o', load_lines (body_lines L) (o, done ++ repeat acl_zero k) =
             (o', (done ++ L) ++ repeat acl_zero (k - length L)).
Proof.
  intros HL. revert done o k. induction HL as [|e L [He Hu] HL IH]; intros dn o k Hnd Hd Hk.
  { exists o. cbn. by rewrite app_nil_r, Nat.sub_0_r. }
  assert (Hput : acl_put (ae_cid e) (Some (ae_tenant_name e)) (ae_caps e) (ae_quota_mb e) (ae_priority e)
                   (dn ++ repeat acl_zero k) = Some ((dn ++ [e]) ++ repeat acl_zero (k - 1))).
  { apply acl_put_append; [done|done|cbn in Hk; lia|]. apply Forall_lookup. intros i x Hx.
    rewrite Forall_lookup in Hd. split; [by apply (Hd i)|]. intros Hc. rewrite map_app in Hnd. apply list.NoDup_app in Hnd.
    destruct Hnd as (_ & Hdis & _). apply (Hdis (ae_cid x)).
    - apply list_elem_of_fmap_2. by eapply list_elem_of_lookup_2.
    - rewrite Hc. cbn. apply elem_of_cons. by left. }
  assert (Hstep : forall last, exists o', load_lines (entry_lines e last) (o, dn ++ repeat acl_zero k) =
                    (o', (dn ++ [e]) ++ repeat acl_zero (k - 1))).
  { intros last. destruct (load_entry e last o (dn ++ repeat acl_zero k) He) as [o' Ho']. exists o'.
    by rewrite Ho', Hput. }
  destruct L as [|e2 L].
  - destruct (Hstep true) as [o' Ho']. exists o'. exact Ho'.
  - destruct (Hstep false) as [o1 Ho1].
    change (body_lines (e :: e2 :: L)) with (entry_lines e false ++ body_lines (e2 :: L)).
    unfold load_lines in *. rewrite foldl_app, Ho1.
    destruct (IH (dn ++ [e]) o1 (k - 1)%nat) as [o' Ho'].
    + by rewrite <- app_assoc.
    + apply Forall_app. split; [done|by constructor].
    + cbn in Hk |- *. lia.
    + exists o'. rewrite Ho', <- (app_assoc dn [e]). cbn [length app].
      by replace (k - 1 - S (length L))%nat with (k - S (S (length L)))%nat by lia.
Qed.

(** A piece of a line: no newline and at most 63 characters. *)
Definition piece (s : text) : Prop := Forall (fun c => c <> newline) s /\ (length s <= 63)%nat.

Lemma line_of_pieces a b c : piece a -> piece b -> piece c -> line_ok (a ++ b ++ c).
Proof.
  intros [Ha La] [Hb Lb] [Hc Lc]. split; [by repeat (apply Forall_app; split)|]. rewrite !length_app. lia.
Qed.

Lemma piece_lit s :
  forallb (fun c => negb (Ascii.eqb c newline)) (lit s) = true -> (length (lit s) <=? 63)%nat = true -> piece (lit s).
Proof.
  intros H1 H2. split; [|by apply Nat.leb_le]. rewrite forallb_forall in H1. apply Forall_lookup.
  intros i c Hc. specialize (H1 c). rewrite <- list_elem_of_In in H1. specialize (H1 (list_elem_of_lookup_2 _ _ _ Hc)).
  intros ->. discriminate H1.
Qed.

Lemma piece_num n : is_u32 n -> piece (print_u n).
Proof.
  intros Hn. split; [by apply plain_no_newline, print_u_plain|].
  pose proof (print_digits_length 9 n) as H. unfold print_u. lia.
Qed.

Lemma piece_nil : piece [].
Proof. split; [constructor|cbn; lia]. Qed.

Lemma entry_lines_ok e last : entry_ok e -> Forall line_ok (entry_lines e last).
Proof.
  intros [Hc Hp Hq Hr (_ & Hlen & Hpl & _)].
  assert (Hname : piece (ae_tenant_name e)) by (split; [by apply plain_no_newline|done]).
  assert (Hcid : piece (print_u (ae_cid e))) by (apply piece_num; unfold is_u32; lia).
  assert (H1 : forall a, piece a -> line_ok a)
    by (intros a Ha; rewrite <- (app_nil_r a), <- (app_nil_r a), <- app_assoc; apply line_of_pieces; auto using piece_nil).
  assert (H2 : forall a b, piece a -> piece b -> line_ok (a ++ b))
    by (intros a b Ha Hb; rewrite <- (app_nil_r b); apply line_of_pieces; auto using piece_nil).
  assert (H3 : piece (if last then [] else lit ",")) by (destruct last; [apply piece_nil|by apply piece_lit]).
  unfold entry_lines. do 7 (apply Forall_cons_2; [auto using line_of_pieces, piece_lit, piece_num|]). apply Forall_nil_2.
Qed.

Lemma save_lines_ok L : Forall entry_ok L -> Forall line_ok (save_lines L).
Proof.
  intros HL. assert (Hb : Forall line_ok (body_lines L)).
  { induction HL as [|e [|e2 L] He HL IH]; [constructor|by apply entry_lines_ok|].
    change (body_lines (e :: e2 :: L)) with (entry_lines e false ++ body_lines (e2 :: L)).
    apply Forall_app. split; [by apply entry_lines_ok|done]. }
  assert (H1 : forall a, forallb (fun c => negb (Ascii.eqb c newline)) (lit a) = true -> (length (lit a) <=? 63)%nat = true ->
                 Forall line_ok [lit a]).
  { intros a E1 E2. destruct (piece_lit a E1 E2) as [Hf Hl]. apply Forall_cons_2; [split; [done|lia]|apply Forall_nil_2]. }
  unfold save_lines. change (lit "[" :: ?x) with ([lit "["] ++ x). apply Forall_app. split; [by apply H1|].
  apply Forall_app. split; [destruct L; [by apply (H1 (String.EmptyString))|done]|by apply H1].
Qed.

(** ** Properties *)

Definition live (es : list virt_acl_entry) : list virt_acl_entry := filter (fun e => ae_in_use e = true) es.

(** The policy file round trip: reloading what was saved gives back exactly the live rules, in order, in
    a fresh table, whenever the rules have distinct non-zero guest ids and names of at most 63 characters
    without quotes or newlines, other than the word cid. *)
Theorem policy_roundtrip es :
  Forall entry_ok (live es) -> NoDup (map ae_cid (live es)) -> (length (live es) <= VIRT_ACL_MAX_RULES)%nat ->
  g_acl_entries (virt_acl_init (Some (virt_acl_save_policies es))) =
  live es ++ repeat acl_zero (VIRT_ACL_MAX_RULES - length (live es)).
Proof.
  intros Hok Hnd Hlen. unfold virt_acl_init, virt_acl_load_policies. cbn [g_acl_entries].
  rewrite save_text_lines. fold (live es). rewrite load_loop_lines by (done || by apply save_lines_ok).
  unfold save_lines, load_lines. set (o1 := obj_start false). cbn [foldl]. rewrite foldl_app.
  change (load_line (lit "[" ++ [newline]) o1 (repeat acl_zero VIRT_ACL_MAX_RULES)) with (o1, repeat acl_zero VIRT_ACL_MAX_RULES).
  assert (Hclose : forall oe : policy_obj * list virt_acl_entry,
            foldl (fun '(o, es) l => load_line (l ++ [newline]) o es) oe [lit "]"] = oe) by (intros [o x]; reflexivity).
  rewrite Hclose. destruct (live es) as [|e L] eqn:E; [reflexivity|].
  destruct (load_body (e :: L) [] o1 VIRT_ACL_MAX_RULES) as [o' Ho'].
  - apply Forall_lookup. intros i x Hx. rewrite Forall_lookup in Hok. split; [by eapply Hok|].
    rewrite <- E in Hx. by apply list_elem_of_lookup_2, list_elem_of_filter in Hx as [? _].
  - done.
  - constructor.
  - done.
  - unfold load_lines in Ho'. cbn [app] in Ho'. by rewrite Ho'.
Qed.

Definition roundtrip_demo : list virt_acl_entry :=
  [mk_acl 5 0x2001 64 2 (lit "camera vm") true; mk_acl 9 1 2 3 (lit "old") false; mk_acl 4294967295 7 0 1 (lit "x") true].

Lemma policy_roundtrip_witness :
  g_acl_entries (virt_acl_init (Some (virt_acl_save_policies roundtrip_demo))) = live roundtrip_demo ++ repeat acl_zero 14.
Proof.
  apply (policy_roundtrip roundtrip_demo).
  - change (live roundtrip_demo) with
      [mk_acl 5 0x2001 64 2 (lit "camera vm") true; mk_acl 4294967295 7 0 1 (lit "x") true].
    assert (Hp : forall s, forallb (fun c => negb (Ascii.eqb c dquote) && negb (Ascii.eqb c newline)) s = true -> Forall plain s).
    { intros s Hs. induction s as [|c s IH]; [constructor|]. cbn in Hs. bool_hyps. constructor; [|by apply IH].
      split; intros ->; discriminate. }
    repeat (apply Forall_cons_2 || apply Forall_nil_2); split; cbn; unfold is_u32; try lia;
      (split; [discriminate|]; split; [cbn; lia|]; split; [by apply Hp|discriminate]).
  - apply (bool_decide_eq_true_1 _). vm_compute. reflexivity.
  - apply Nat.leb_le. vm_compute. reflexivity.
Defined.

(** A rule whose tenant is named cid does not survive the reload: the name line is taken for the guest id
    line, so the rule comes back under the name guest. *)
Theorem policy_name_cid_lost :
  map ae_tenant_name (take 1 (g_acl_entries (virt_acl_init (Some (virt_acl_save_policies [mk_acl 5 1 2 3 (lit "cid") true])))))
  = [lit "guest"].
Proof. vm_compute. reflexivity. Qed.

(** ** The table as a map from guest ids to capabilities *)

Definition acl_abs (es : list virt_acl_entry) : gmap Z Z :=
  foldr (fun e m => if ae_in_use e then <[ae_cid e := ae_caps e]> m else m) ∅ es.

Lemma acl_abs_lookup es cid :
  acl_abs es !! cid = match find_idx (rule_of cid) es with
                      | Some i => ae_caps <$> es !! i
                      | None => None
                      end.
Proof.
  induction es as [|e es IH]; [done|]. cbn [acl_abs foldr find_idx]. unfold rule_of at 1.
  destruct (ae_in_use e); cbn [andb].
  - destruct (Z.eqb_spec (ae_cid e) cid) as [->|Hne]; [by rewrite lookup_insert_eq|].
    rewrite lookup_insert_ne by done. fold (acl_abs es). rewrite IH. by destruct (find_idx _ es).
  - fold (acl_abs es). rewrite IH. by destruct (find_idx _ es).
Qed.

(** Writing a rule over a free slot, or over the first rule of the same guest. *)
Lemma acl_abs_insert es i e0 e :
  es !! i = Some e0 -> ae_in_use e = true -> (ae_in_use e0 = true -> ae_cid e0 = ae_cid e) ->
  (forall j x, (j < i)%nat -> es !! j = Some x -> rule_of (ae_cid e) x = false) ->
  acl_abs (<[i := e]> es) = <[ae_cid e := ae_caps e]> (acl_abs es).
Proof.
  intros Hi Hu H0 Hbefore. revert i Hi Hbefore. induction es as [|x es IH]; intros i Hi Hbefore; [done|].
  destruct i as [|i]; cbn in Hi.
  - injection Hi as ->. cbn. rewrite Hu. destruct (ae_in_use e0); [|done]. rewrite H0 by done. by rewrite insert_insert_eq.
  - cbn [insert list_insert acl_abs foldr]. fold (acl_abs (<[i := e]> es)) (acl_abs es).
    rewrite IH; [|done|intros j y Hj Hy; apply (Hbefore (S j)); [lia|done]].
    pose proof (Hbefore 0%nat x ltac:(lia) eq_refl) as Hx. unfold rule_of in Hx. destruct (ae_in_use x); [|done].
    cbn in Hx. bool_hyps. by rewrite insert_insert_ne by congruence.
Qed.

Lemma acl_put_abs cid name caps quota prio es es' :
  acl_put cid name caps quota prio es = Some es' -> acl_abs es' = <[cid := caps]> (acl_abs es).
Proof.
  unfold acl_put. destruct (find_idx (rule_of cid) es) as [i|] eqn:E.
  - intros [= <-]. apply find_idx_Some in E as (x & Hx & Hr & Hb). unfold rule_of in Hr. bool_hyps.
    by apply (acl_abs_insert es i x (mk_acl cid caps quota prio (rule_name cid name) true)).
  - destruct (find_idx (fun e => negb (ae_in_use e)) es) as [i|] eqn:E'; [|done]. intros [= <-].
    apply find_idx_Some in E' as (x & Hx & Hr & _). bool_hyps.
    apply (acl_abs_insert es i x (mk_acl cid caps quota prio (rule_name cid name) true)); try done; [congruence|].
    intros j y _ Hy. exact (proj1 (find_idx_None _ _) E j y Hy).
Qed.

(** *** The table invariant *)

Record acl_ok (es : list virt_acl_entry) : Prop := {
  ao_len : length es = VIRT_ACL_MAX_RULES;
  ao_uniq : forall i j x y, es !! i = Some x -> es !! j = Some y -> ae_in_use x = true -> ae_in_use y = true ->
              ae_cid x = ae_cid y -> i = j;
}.

Lemma acl_put_ok cid name caps quota prio es es' :
  acl_ok es -> acl_put cid name caps quota prio es = Some es' -> acl_ok es'.
Proof.
  intros [Hl Hu]. unfold acl_put. set (e := mk_acl cid caps quota prio (rule_name cid name) true).
  assert (Hgen : forall i, (forall j x, es !! j = Some x -> ae_in_use x = true -> ae_cid x = cid -> j = i) ->
                   acl_ok (<[i := e]> es)).
  { intros i Hi. split; [by rewrite length_insert|].
    intros j k x y [[-> ->]|[Hne Hx]]%lookup_insert_inv [[-> ->]|[Hne' Hy]]%lookup_insert_inv Hux Huy Hc; [done| | |by eapply Hu].
    - symmetry. by eapply Hi.
    - by eapply Hi. }
  destruct (find_idx (rule_of cid) es) as [i|] eqn:E.
  - intros [= <-]. apply Hgen. apply find_idx_Some in E as (x & Hx & Hr & _). unfold rule_of in Hr. bool_hyps.
    intros j y Hy Huy Hc. eapply Hu; [done..|congruence].
  - destruct (find_idx (fun e => negb (ae_in_use e)) es) as [i|]; [|done]. intros [= <-]. apply Hgen. intros j x Hx Hux Hc.
    pose proof (proj1 (find_idx_None _ _) E j x Hx) as Hf. unfold rule_of in Hf. rewrite Hux, Hc, Z.eqb_refl in Hf. done.
Qed.

Lemma load_line_ok line o es : acl_ok es -> acl_ok (snd (load_line line o es)).
Proof.
  intros Hok. unfold load_line. repeat case_match; cbn [snd]; try done.
  destruct (acl_put _ _ _ _ _ es) eqn:E; cbn; [by eapply acl_put_ok|done].
Qed.

Lemma load_loop_ok fuel s o es : acl_ok es -> acl_ok (load_loop fuel s o es).
Proof.
  revert s o es. induction fuel as [|fuel IH]; intros [|c s] o es Hok; try done. cbn [load_loop].
  destruct (next_line 511 (c :: s)) as [line rest]. pose proof (load_line_ok line o es Hok) as Hl.
  destruct (load_line line o es) as [o' es']. by apply IH.
Qed.

Lemma acl_zero_ok : acl_ok (repeat acl_zero VIRT_ACL_MAX_RULES).
Proof. split; [done|]. intros i j x y Hx _ Hu. apply repeat_lookup in Hx as ->. done. Qed.

(** Whatever bytes the policy file holds, loading it ends with a table of sixteen slots in which no guest
    has two rules. *)
Theorem policy_load_robust file : acl_ok (g_acl_entries (virt_acl_init file)).
Proof.
  unfold virt_acl_init, virt_acl_load_policies. cbn. destruct file as [s|]; [|apply acl_zero_ok].
  apply load_loop_ok, acl_zero_ok.
Qed.

Lemma acl_abs_remove es i e :
  acl_ok es -> es !! i = Some e -> ae_in_use e = true ->
  acl_abs (alter (fun e => mk_acl (ae_cid e) (ae_caps e) (ae_quota_mb e) (ae_priority e) (ae_tenant_name e) false) i es) =
  delete (ae_cid e) (acl_abs es).
Proof.
  intros [_ Hu] Hi Hue. set (f := fun e => mk_acl _ _ _ _ _ false).
  assert (Hother : forall j x, j <> i -> es !! j = Some x -> ae_in_use x = true -> ae_cid x <> ae_cid e)
    by (intros j x Hne Hx Hux Hc; by destruct Hne; eapply Hu).
  clear Hu. revert i Hi Hother. induction es as [|x es IH]; intros i Hi Hother; [done|].
  assert (Hnone : forall l : list virt_acl_entry, (forall j y, l !! j = Some y -> ae_in_use y = true -> ae_cid y <> ae_cid e) ->
                    acl_abs l !! ae_cid e = None).
  { intros l Hl. rewrite acl_abs_lookup. destruct (find_idx _ l) as [j|] eqn:E; [|done].
    apply find_idx_Some in E as (y & Hy & Hr & _). unfold rule_of in Hr. bool_hyps. by destruct (Hl j y Hy). }
  destruct i as [|i]; cbn in Hi.
  - injection Hi as ->. cbn. rewrite Hue, delete_insert_eq. symmetry. apply delete_id. fold (acl_abs es).
    apply Hnone. intros j y Hy. by apply (Hother (S j)).
  - assert (IHi := IH i Hi (fun j y Hj Hy => Hother (S j) y (fun H => Hj (eq_add_S _ _ H)) Hy)).
    pose proof (Hother 0%nat x ltac:(lia) eq_refl) as Hx. unfold acl_abs in IHi |- *. cbn. rewrite IHi.
    destruct (ae_in_use x); [|done]. by rewrite delete_insert_ne by (symmetry; auto).
Qed.

(** The map has one key per slot in use. *)
Definition uniq_rules (es : list virt_acl_entry) : Prop :=
  forall i j x y, es !! i = Some x -> es !! j = Some y -> ae_in_use x = true -> ae_in_use y = true ->
    ae_cid x = ae_cid y -> i = j.

Lemma acl_abs_size es : uniq_rules es -> size (acl_abs es) = length (live es).
Proof.
  unfold live. induction es as [|e es IH]; intros Hu; [done|].
  assert (Hu' : uniq_rules es)
    by (intros i j x y Hx Hy Hux Huy Hc; apply Nat.succ_inj; exact (Hu (S i) (S j) x y Hx Hy Hux Huy Hc)).
  rewrite filter_cons. cbn [acl_abs foldr]. fold (acl_abs es). case_decide as He; [|destruct (ae_in_use e); [done|by apply IH]].
  rewrite He, map_size_insert_None; [cbn [length]; by rewrite IH|].
  rewrite acl_abs_lookup. destruct (find_idx _ es) as [j|] eqn:E; [|done].
  apply find_idx_Some in E as (y & Hy & Hr & _). unfold rule_of in Hr. bool_hyps.
  by pose proof (Hu 0%nat (S j) e y eq_refl Hy He ltac:(done) ltac:(congruence)).
Qed.

(** A table without a free slot maps sixteen guests, one with a free slot fewer. *)
Lemma acl_full es : acl_ok es ->
  match find_idx (fun e => negb (ae_in_use e)) es with
  | Some _ => (size (acl_abs es) < VIRT_ACL_MAX_RULES)%nat
  | None => size (acl_abs es) = VIRT_ACL_MAX_RULES
  end.
Proof.
  intros [Hl Hu]. rewrite (acl_abs_size es Hu). unfold live. rewrite <- Hl.
  destruct (find_idx _ es) as [i|] eqn:E.
  - apply find_idx_Some in E as (x & Hx & Hr & _). bool_hyps.
    assert (Hin : x ∈ es) by (by eapply list_elem_of_lookup_2).
    apply (length_filter_lt _ es x Hin). congruence.
  - clear Hl Hu. induction es as [|x es IH]; [done|]. cbn [find_idx] in E. rewrite filter_cons.
    destruct (ae_in_use x); [|done]. cbn [negb] in E. destruct (find_idx _ es); [done|]. case_decide; [|done]. cbn [length]. by rewrite IH.
Qed.

Lemma acl_put_room cid name caps quota prio es es' :
  acl_ok es -> acl_put cid name caps quota prio es = Some es' ->
  is_Some (acl_abs es !! cid) \/ (size (acl_abs es) < VIRT_ACL_MAX_RULES)%nat.
Proof.
  intros Hok. pose proof (acl_full es Hok) as Hf. unfold acl_put. rewrite acl_abs_lookup.
  destruct (find_idx (rule_of cid) es) as [i|] eqn:E.
  - apply find_idx_Some in E as (x & -> & _). left. by eexists.
  - destruct (find_idx _ es); [by right|done].
Qed.

Lemma acl_put_full cid name caps quota prio es :
  acl_ok es -> acl_put cid name caps quota prio es = None ->
  acl_abs es !! cid = None /\ size (acl_abs es) = VIRT_ACL_MAX_RULES.
Proof.
  intros Hok. pose proof (acl_full es Hok) as Hf. unfold acl_put. rewrite acl_abs_lookup.
  destruct (find_idx (rule_of cid) es) as [i|]; [done|]. by destruct (find_idx _ es).
Qed.

Lemma acl_remove_ok i es :
  acl_ok es ->
  acl_ok (alter (fun e => mk_acl (ae_cid e) (ae_caps e) (ae_quota_mb e) (ae_priority e) (ae_tenant_name e) false) i es).
Proof.
  intros [Hl Hu]. split; [by rewrite length_alter|].
  assert (H : forall k y, alter (fun e => mk_acl (ae_cid e) (ae_caps e) (ae_quota_mb e) (ae_priority e)
                                           (ae_tenant_name e) false) i es !! k = Some y ->
                ae_in_use y = true -> es !! k = Some y).
  { intros k y Hy Huy. destruct (decide (k = i)) as [->|Hne]; [|by rewrite list_lookup_alter_ne in Hy].
    rewrite list_lookup_alter_eq in Hy. apply fmap_Some in Hy as (x & _ & ->). done. }
  intros j k x y Hx Hy Hux Huy. apply Hu; by auto.
Qed.

(** C39: The rule table implements a map from guest ids to capabilities that holds sixteen guests: setting
    a rule is insertion when the guest has a rule already or fewer than sixteen guests do, and ENOSPC with
    nothing changed exactly when sixteen other guests fill the table; removing one is deletion, or ENOENT
    with nothing changed for a guest without a rule; reading the capabilities is lookup with the standard
    role as default, and the capability test asks for every bit of the mask. *)
Theorem acl_refines_map file st cid cid' name caps quota prio cap :
  g_acl_initialized st = true -> acl_ok (g_acl_entries st) ->
  let m := acl_abs (g_acl_entries st) in
  (let '(rc, st') := virt_acl_set_rule file cid name caps quota prio st in
   acl_ok (g_acl_entries st') /\
   (rc = 0 /\ (is_Some (m !! cid) \/ (size m < 16)%nat) /\ acl_abs (g_acl_entries st') = <[cid := caps]> m \/
    rc = - ENOSPC /\ m !! cid = None /\ size m = 16%nat /\ st' = st)) /\
  (let '(rc, st') := virt_acl_remove_rule cid st in
   acl_ok (g_acl_entries st') /\
   (rc = 0 /\ is_Some (m !! cid) /\ acl_abs (g_acl_entries st') = delete cid m \/
    rc = - ENOENT /\ m !! cid = None /\ st' = st)) /\
  virt_acl_get_caps file cid' st = (default AMBA_VIRT_ROLE_STANDARD (m !! cid'), st) /\
  virt_acl_has_cap file cid' cap st = (Z.land (default AMBA_VIRT_ROLE_STANDARD (m !! cid')) cap =? cap, st).
Proof.
  intros Hi Hok m. unfold virt_acl_has_cap, virt_acl_get_caps, virt_acl_set_rule, virt_acl_remove_rule, ensure_init.
  rewrite Hi. cbn [negb]. split_and!.
  - destruct (acl_put _ _ _ _ _ _) as [es'|] eqn:E; cbn.
    + split; [by eapply acl_put_ok|left]. split_and!; [done| |by eapply acl_put_abs]. by eapply acl_put_room.
    + split; [done|right]. by apply acl_put_full in E as [? ?].
  - unfold m. rewrite (acl_abs_lookup _ cid). destruct (find_idx (rule_of cid) (g_acl_entries st)) as [i|] eqn:E.
    + apply find_idx_Some in E as (e & He & Hr & _). unfold rule_of in Hr. bool_hyps. cbn [g_acl_entries].
      split; [by apply acl_remove_ok|left]. rewrite He, (acl_abs_remove _ i e) by done. subst. split_and!; [done|by eexists|done].
    + by split; [|right].
  - unfold m. rewrite acl_abs_lookup. destruct (find_idx _ _) as [i|] eqn:E; [|done].
    apply find_idx_Some in E as (e & -> & _). done.
  - unfold m. rewrite acl_abs_lookup. destruct (find_idx _ _) as [i|] eqn:E; [|done].
    apply find_idx_Some in E as (e & -> & _). done.
Qed.

Lemma acl_refines_map_witness :
  let st := virt_acl_init None in
  virt_acl_get_caps None 5 (snd (virt_acl_set_rule None 5 None 0x2001 64 1 st)) =
  (0x2001, snd (virt_acl_set_rule None 5 None 0x2001 64 1 st)).
Proof.
  intros st.
  destruct (acl_refines_map None (snd (virt_acl_set_rule None 5 None 0x2001 64 1 st)) 5 5 None 0 0 0 0) as (_ & _ & H & _).
  - vm_compute. reflexivity.
  - pose proof (acl_put_ok 5 None 0x2001 64 1 (repeat acl_zero 16) _ acl_zero_ok eq_refl) as H. exact H.
  - rewrite H. f_equal.
Defined.
