(* ===== verification/CameraPolicy.v ===== *)
(** * Camera policy and IAV roles

    [Module Store] is the file system as the policy sees it: the files by path, opening one, and write_atomic with the
    result of every system call as an argument. [Module CameraPolicy] models tools/virt_camera_policy.c: the overrides
    and last seen intents by ticket, the windows, the verdict for a reserve, the role table, and the admin requests
    with their replies. Messages on stderr are left out. *)

From Stdlib Require Import ZArith Lia Bool Ascii String.
From stdpp Require Import base list numbers strings gmap.
From S2P Require Import Prelude Text.
Import Text.
#[local] Open Scope Z_scope.
#[local] Open Scope list_scope.

Module Store.

(** The contents of the files by path. *)
Abbreviation disk := (gmap text text).

(** What a call of write(2) does: take some bytes, be interrupted, or fail. *)
Inductive write_res := W_bytes (n : nat) | W_eintr | W_error.

(** The results of the system calls of write_atomic: [true] is success (for mkdir, also EEXIST). *)
Record fs_results := mk_fs {
  fr_mkdir : bool;
  fr_open : bool;
  fr_fchmod : bool;
  fr_writes : list write_res;
  fr_fsync : bool;
  fr_rename : bool;
}.

Definition fs_good : fs_results := mk_fs true true true [] true true.

(** The write loop: whether it got to the end, and what the file holds. After the results given, a write takes all. *)
Fixpoint write_loop (rs : list write_res) (rest done_ : text) : bool * text :=
  match rest with
  | [] => (true, done_)
  | _ =>
      match rs with
      | [] => (true, done_ ++ rest)
      | W_bytes n :: rs' => write_loop rs' (drop n rest) (done_ ++ take n rest)
      | W_eintr :: rs' => write_loop rs' rest done_
      | W_error :: _ => (false, done_)
      end
  end.

(** The directory is made first, if the path has one; a name that does not fit fails. *)
Definition make_dir (r : fs_results) (path : text) : bool :=
  match last_index "/" path with
  | Some (S k) => if (256 <=? S k)%nat then false else fr_mkdir r
  | _ => true
  end.

(** write_atomic *)
Definition write_atomic (r : fs_results) (path buf : text) (d : disk) : Z * disk :=
  let tmp := snprintf 288 (path ++ lit ".tmp") in
  if negb (make_dir r path) then (- 1, d)
  else if negb (fr_open r) then (- 1, d)
  else
    let d := <[tmp := []]> d in
    if negb (fr_fchmod r) then (- 1, delete tmp d)
    else
      let '(ok, content) := write_loop (fr_writes r) buf [] in
      let d := <[tmp := content]> d in
      if negb ok then (- 1, delete tmp d)
      else if negb (fr_fsync r) then (- 1, delete tmp d)
      else if negb (fr_rename r) then (- 1, delete tmp d)
      else (0, <[path := content]> (delete tmp d)).

(** fopen(path, "r"): an errno, or the contents; [err] is an error other than a missing file *)
Definition fopen (err : option Z) (path : text) (d : disk) : Z + text :=
  match err with
  | Some e => inl e
  | None => match d !! path with Some s => inr s | None => inl ENOENT end
  end.

End Store.

Module CameraPolicy.

Import Store.

Definition VIRT_CAMERA_STORE : text := lit "/persist/etc/amba-virt/camera-tickets".
Definition VIRT_IAV_ROLE_STORE : text := lit "/persist/etc/amba-virt/iav-roles".
Definition VIRT_CAMERA_TICKET_MAX : nat := 48.
Definition VIRT_CAMERA_MAX_ENTRIES : nat := 64.
Definition VIRT_CAMERA_STORE_MAX_BYTES : nat := 4096.
Definition VIRT_CAMERA_GET_MAX_LINES : nat := 32.
Definition VIRT_IAV_DEFAULT_PRIMARY : text := lit "amba_shm0".
Definition AMBA_VIRT_IAV_WIN_DSP : nat := 0.
Definition AMBA_VIRT_IAV_WIN_BSB : nat := 1.
Definition AMBA_VIRT_IAV_WIN_DEC : nat := 2.
Definition AMBA_VIRT_IAV_WIN_OVL : nat := 3.
Definition AMBA_VIRT_IAV_MAX_WINDOWS : nat := 4.

(** enum virt_camera_intent, OV_*, enum virt_iav_role, ROLES_* *)
Inductive virt_camera_intent := VIRT_CAMERA_INTENT_ABSENT | VIRT_CAMERA_INTENT_OFF | VIRT_CAMERA_INTENT_ON.
Inductive camera_override := OV_INHERIT | OV_ON | OV_OFF.
Inductive virt_iav_role := VIRT_IAV_ROLE_CONSUMER | VIRT_IAV_ROLE_PRIMARY.
Inductive roles_state := ROLES_MISSING | ROLES_VALID | ROLES_INVALID.

#[global] Instance intent_eq_dec : EqDecision virt_camera_intent.
Proof. solve_decision. Defined.
#[global] Instance override_eq_dec : EqDecision camera_override.
Proof. solve_decision. Defined.
#[global] Instance role_eq_dec : EqDecision virt_iav_role.
Proof. solve_decision. Defined.
#[global] Instance roles_state_eq_dec : EqDecision roles_state.
Proof. solve_decision. Defined.

(** struct entry *)
Record entry := mk_entry {
  en_in_use : bool;
  en_ticket : text;
  en_override : camera_override;
  en_seen : bool;
  en_last : virt_camera_intent;
}.
Definition entry_zero : entry := mk_entry false [] OV_INHERIT false VIRT_CAMERA_INTENT_ABSENT.

(** struct role_line *)
Record role_line := mk_rline { rl_in_use : bool; rl_ticket : text; rl_role : virt_iav_role }.
Definition rline_zero : role_line := mk_rline false [] VIRT_IAV_ROLE_CONSUMER.

(** struct virt_camera_window, struct virt_camera_verdict *)
Record virt_camera_window := mk_cwin { cw_id : Z; cw_size : Z }.
Record virt_camera_verdict := mk_verdict { vd_camera : bool; vd_dsp : Z; vd_bsb : Z; vd_dec : Z; vd_ovl : Z }.
Definition verdict_zero : virt_camera_verdict := mk_verdict false 0 0 0 0.

(** The globals. The status callback gets the size of its buffer; it returns its result and what it wrote. *)
Record policy := mk_policy {
  g_entries : list entry;
  g_roles : list role_line;
  g_roles_state : roles_state;
  g_role_store : text;
  g_iav_status : option (nat -> Z * text);
  g_store : text;
  g_present : list bool;
  g_size : list Z;
  g_windows_ready : bool;
  g_ready_ms : Z;
}.

Definition set_entries (es : list entry) (p : policy) : policy :=
  mk_policy es (g_roles p) (g_roles_state p) (g_role_store p) (g_iav_status p) (g_store p) (g_present p) (g_size p) (g_windows_ready p) (g_ready_ms p).
Definition set_roles (rs : list role_line) (s : roles_state) (p : policy) : policy :=
  mk_policy (g_entries p) rs s (g_role_store p) (g_iav_status p) (g_store p) (g_present p) (g_size p) (g_windows_ready p) (g_ready_ms p).

(** virt_camera_policy_reset *)
Definition virt_camera_policy_reset : policy :=
  mk_policy (repeat entry_zero VIRT_CAMERA_MAX_ENTRIES) (repeat rline_zero VIRT_CAMERA_MAX_ENTRIES) ROLES_MISSING VIRT_IAV_ROLE_STORE None
            VIRT_CAMERA_STORE (repeat false AMBA_VIRT_IAV_MAX_WINDOWS) (repeat 0 AMBA_VIRT_IAV_MAX_WINDOWS) false 0.

(** ** Tickets and entries *)

(** A character of a ticket. *)
Definition ticket_char (c : ascii) : bool :=
  let n := nat_of_ascii c in
  ((97 <=? n)%nat && (n <=? 122)%nat) || ((65 <=? n)%nat && (n <=? 90)%nat) || ((48 <=? n)%nat && (n <=? 57)%nat) ||
  Ascii.eqb c "_" || Ascii.eqb c "." || Ascii.eqb c "-".

(** virt_camera_ticket_ok *)
Definition virt_camera_ticket_ok (ticket : text) : bool :=
  negb ((length ticket <? 1)%nat || (VIRT_CAMERA_TICKET_MAX <? length ticket)%nat) && forallb ticket_char ticket.

(** virt_camera_intent_parse *)
Definition virt_camera_intent_parse (s : text) : option virt_camera_intent :=
  if str_eq s (lit "on") then Some VIRT_CAMERA_INTENT_ON
  else if str_eq s (lit "off") then Some VIRT_CAMERA_INTENT_OFF
  else if str_eq s (lit "absent") then Some VIRT_CAMERA_INTENT_ABSENT
  else None.

(** find_entry, add_entry: the index of the entry *)
Definition find_entry (ticket : text) (es : list entry) : option nat := find_idx (fun e => en_in_use e && str_eq (en_ticket e) ticket) es.

Definition add_entry (ticket : text) (es : list entry) : option (nat * list entry) :=
  match find_idx (fun e => negb (en_in_use e)) es with
  | Some i => Some (i, <[i := mk_entry true (snprintf (VIRT_CAMERA_TICKET_MAX + 1) ticket) OV_INHERIT false VIRT_CAMERA_INTENT_ABSENT]> es)
  | None => None
  end.

(** [e = find_entry(t); if (!e) e = add_entry(t);] *)
Definition find_or_add (ticket : text) (es : list entry) : option (nat * list entry) :=
  match find_entry ticket es with
  | Some i => Some (i, es)
  | None => add_entry ticket es
  end.

(** drop_if_idle *)
Definition drop_if_idle (e : entry) : entry :=
  if bool_decide (en_override e = OV_INHERIT) && negb (en_seen e) then entry_zero else e.

Definition with_override (ov : camera_override) (e : entry) : entry := mk_entry (en_in_use e) (en_ticket e) ov (en_seen e) (en_last e).

(** clear_overrides *)
Definition clear_overrides (es : list entry) : list entry :=
  map (fun e => if negb (en_in_use e) then e else drop_if_idle (with_override OV_INHERIT e)) es.

(** virt_camera_policy_set_store, virt_iav_role_set_store, virt_camera_policy_set_iav_status *)
Definition virt_camera_policy_set_store (path : text) (p : policy) : policy :=
  if negb (length path =? 0)%nat && (length path <? 256 - 8)%nat then
    mk_policy (g_entries p) (g_roles p) (g_roles_state p) (g_role_store p) (g_iav_status p) (snprintf 256 path) (g_present p) (g_size p) (g_windows_ready p) (g_ready_ms p)
  else p.

Definition virt_iav_role_set_store (path : text) (p : policy) : policy :=
  if negb (length path =? 0)%nat && (length path <? 256 - 8)%nat then
    mk_policy (g_entries p) (g_roles p) (g_roles_state p) (snprintf 256 path) (g_iav_status p) (g_store p) (g_present p) (g_size p) (g_windows_ready p) (g_ready_ms p)
  else p.

Definition virt_camera_policy_set_iav_status (fn : option (nat -> Z * text)) (p : policy) : policy :=
  mk_policy (g_entries p) (g_roles p) (g_roles_state p) (g_role_store p) fn (g_store p) (g_present p) (g_size p) (g_windows_ready p) (g_ready_ms p).

(** ** The store of the overrides *)

Definition space : ascii := " ".

(** parse_line: [sp] is the index of the only space *)
Definition parse_line (line : text) : option (text * camera_override) :=
  if (length line <? 1)%nat then None
  else
    match cut_at space line with
    | (_, None) => None
    | (ticket, Some rest) =>
        if existsb (Ascii.eqb space) rest then None
        else if (length ticket =? 0)%nat || (VIRT_CAMERA_TICKET_MAX <? length ticket)%nat then None
        else if negb (virt_camera_ticket_ok ticket) then None
        else if str_eq rest (lit "on") then Some (ticket, OV_ON)
        else if str_eq rest (lit "off") then Some (ticket, OV_OFF)
        else None
    end.

(** The loop over the lines of a store: the lines parsed so far are [got], in order. *)
Fixpoint load_lines {A} (fuel : nat) (parse : text -> option (text * A)) (s : text) (got : list (text * A)) : option (list (text * A)) :=
  match fuel, s with
  | _, [] => Some got
  | O, _ => None
  | S f, _ =>
      let '(line, rest) := cut_at newline s in
      if (VIRT_CAMERA_MAX_ENTRIES <=? length got)%nat then None
      else
        match parse line with
        | None => None
        | Some (ticket, v) =>
            if existsb (fun g => str_eq (fst g) ticket) got then None
            else load_lines f parse (default [] rest) (got ++ [(ticket, v)])
        end
  end.

(** fread into a buffer one byte larger than a store may be, and the checks on the whole of it *)
Definition read_store (s : text) : option text :=
  let buf := take (VIRT_CAMERA_STORE_MAX_BYTES + 1) s in
  if (VIRT_CAMERA_STORE_MAX_BYTES <? length buf)%nat then None
  else if existsb (Ascii.eqb (ascii_of_nat 0)) buf then None
  else Some buf.

(** The overrides read are put into the table; [false] when it is full. *)
Fixpoint put_overrides (got : list (text * camera_override)) (es : list entry) : bool * list entry :=
  match got with
  | [] => (true, es)
  | (ticket, ov) :: got' =>
      match find_or_add ticket es with
      | None => (false, es)
      | Some (i, es') => put_overrides got' (alter (with_override ov) i es')
      end
  end.

(** load_locked: [true] is valid or missing *)
Definition load_locked (err : option Z) (path : text) (d : disk) (es : list entry) : bool * list entry :=
  let es := clear_overrides es in
  match fopen err path d with
  | inl _ => (true, es)
  | inr s =>
      match read_store s with
      | None => (false, es)
      | Some buf =>
          match load_lines (length buf) parse_line buf [] with
          | None => (false, es)
          | Some got => put_overrides got es
          end
      end
  end.

(** virt_camera_policy_load *)
Definition virt_camera_policy_load (err : option Z) (d : disk) (p : policy) : policy :=
  let '(ok, es) := load_locked err (g_store p) d (g_entries p) in
  set_entries (if ok then es else clear_overrides es) p.

(** The text of a store: each line is formatted into what is left of the buffer. *)
Fixpoint save_text {A} (line_of : A -> option text) (l : list A) (buf : text) : option text :=
  match l with
  | [] => Some buf
  | x :: l' =>
      match line_of x with
      | None => save_text line_of l' buf
      | Some w =>
          if (VIRT_CAMERA_STORE_MAX_BYTES - length buf <=? length w)%nat then None
          else save_text line_of l' (buf ++ w)
      end
  end.

(** The line of an entry with an override. *)
Definition entry_line (e : entry) : option text :=
  if negb (en_in_use e) || bool_decide (en_override e = OV_INHERIT) then None
  else Some (en_ticket e ++ [space] ++ (if bool_decide (en_override e = OV_ON) then lit "on" else lit "off") ++ [newline]).

(** save_locked *)
Definition save_locked (r : fs_results) (path : text) (es : list entry) (d : disk) : Z * disk :=
  match save_text entry_line es [] with
  | None => (- 1, d)
  | Some buf => write_atomic r path buf d
  end.

(** ** Windows and verdicts *)

(** virt_camera_policy_set_windows *)
Definition virt_camera_policy_set_windows (w : list virt_camera_window) (ready_ms : Z) (p : policy) : policy :=
  let step '(present, size) x :=
    if (cw_id x >=? Z.of_nat AMBA_VIRT_IAV_MAX_WINDOWS) || (cw_size x =? 0) then (present, size)
    else (<[Z.to_nat (cw_id x) := true]> present, <[Z.to_nat (cw_id x) := cw_size x]> size) in
  let '(present, size) := foldl step (repeat false AMBA_VIRT_IAV_MAX_WINDOWS, repeat 0 AMBA_VIRT_IAV_MAX_WINDOWS) w in
  let ready := nth AMBA_VIRT_IAV_WIN_DSP present false && nth AMBA_VIRT_IAV_WIN_BSB present false in
  mk_policy (g_entries p) (g_roles p) (g_roles_state p) (g_role_store p) (g_iav_status p) (g_store p) present size ready (if ready then ready_ms else 0).

(** camera_on *)
Definition camera_on (ov : camera_override) (intent : virt_camera_intent) : bool :=
  match ov with
  | OV_INHERIT => bool_decide (intent = VIRT_CAMERA_INTENT_ON)
  | _ => bool_decide (ov = OV_ON)
  end.

Definition see_intent (intent : virt_camera_intent) (e : entry) : entry := mk_entry (en_in_use e) (en_ticket e) (en_override e) true intent.

(** virt_camera_policy_decide *)
Definition virt_camera_policy_decide (ticket : text) (intent : virt_camera_intent) (primary : bool) (p : policy)
    : Z * virt_camera_verdict * policy :=
  if negb (virt_camera_ticket_ok ticket) then (- 1, verdict_zero, p)
  else
    let '(ov, es) :=
      match find_or_add ticket (g_entries p) with
      | Some (i, es) => (from_option en_override OV_INHERIT (es !! i), alter (see_intent intent) i es)
      | None => (OV_INHERIT, g_entries p)
      end in
    let on := camera_on ov intent in
    let size k := nth k (g_size p) 0 in
    let opt k := if primary && nth k (g_present p) false then size k else 0 in
    let v :=
      if g_windows_ready p && on then
        mk_verdict true (size AMBA_VIRT_IAV_WIN_DSP) (size AMBA_VIRT_IAV_WIN_BSB) (opt AMBA_VIRT_IAV_WIN_DEC) (opt AMBA_VIRT_IAV_WIN_OVL)
      else verdict_zero in
    (0, v, set_entries es p).

(** virt_camera_verdict_format: the result and what the buffer of [len] bytes holds *)
Definition virt_camera_verdict_format (v : virt_camera_verdict) (len : nat) : Z * text :=
  if (len =? 0)%nat then (- 1, [])
  else
    let t0 := if vd_camera v then lit " camera=1 dsp=" ++ print_llu (vd_dsp v) ++ lit " bsb=" ++ print_llu (vd_bsb v) else lit " camera=0" in
    let add (name : string) x t := if vd_camera v && (length t <? len)%nat && negb (x =? 0) then t ++ lit name ++ print_llu x else t in
    let t := add " ovl="%string (vd_ovl v) (add " dec="%string (vd_dec v) t0) in
    (if (len <=? length t)%nat then - 1 else Z.of_nat (length t), snprintf len t).

(** ** GET_CAMERA *)

(** ov_name, intent_name, effective_of *)
Definition ov_name (ov : camera_override) : text := match ov with OV_ON => lit "on" | OV_OFF => lit "off" | OV_INHERIT => lit "inherit" end.

Definition intent_name (e : entry) : text :=
  if negb (en_seen e) then lit "none"
  else match en_last e with
       | VIRT_CAMERA_INTENT_ON => lit "on"
       | VIRT_CAMERA_INTENT_OFF => lit "off"
       | VIRT_CAMERA_INTENT_ABSENT => lit "absent"
       end.

Definition effective_of (p : policy) (e : entry) : bool :=
  g_windows_ready p && camera_on (en_override e) (if en_seen e then en_last e else VIRT_CAMERA_INTENT_ABSENT).

(** append_entry: the line of an entry *)
Definition append_entry (p : policy) (e : entry) : text :=
  lit "TICKET " ++ en_ticket e ++ lit " override=" ++ ov_name (en_override e) ++ lit " intent=" ++ intent_name e ++
  lit " effective=" ++ (if effective_of p e then lit "1" else lit "0") ++ [newline].

(** The lines of a reply, into a body of 2048 bytes: at most VIRT_CAMERA_GET_MAX_LINES, those that fit. *)
Definition body_line (st : nat * text * bool) (w : text) : nat * text * bool :=
  let '(count, body, truncated) := st in
  if (VIRT_CAMERA_GET_MAX_LINES <=? count)%nat || (2048 - length body <=? length w)%nat then (count, body, true)
  else (S count, body ++ w, truncated).

Definition body_of (lines : list text) : nat * text * bool := foldl body_line (O, [], false) lines.

(** Does an optional ticket of the request ask for [t]? *)
Definition asked (ticket : option text) (t : text) : bool := match ticket with Some a => str_eq t a | None => true end.

Definition truncated_line (truncated : bool) : text := if truncated then lit "TRUNCATED" ++ [newline] else [].

(** get_locked *)
Definition get_locked (ticket : option text) (resp_len : nat) (p : policy) : text :=
  let '(count, body, truncated) :=
    body_of (map (append_entry p) (filter (fun e => en_in_use e && asked ticket (en_ticket e) = true) (g_entries p))) in
  snprintf resp_len (lit "OK COUNT " ++ print_u (Z.of_nat count) ++ [newline] ++ body ++ truncated_line truncated).

(** ** IAV roles *)

(** virt_iav_role_name *)
Definition virt_iav_role_name (role : virt_iav_role) : text :=
  match role with VIRT_IAV_ROLE_PRIMARY => lit "primary" | VIRT_IAV_ROLE_CONSUMER => lit "consumer" end.

(** role_find *)
Definition role_find (ticket : text) (rs : list role_line) : option nat := find_idx (fun l => rl_in_use l && str_eq (rl_ticket l) ticket) rs.

(** A line that names a primary. *)
Definition primary_line (l : role_line) : bool := rl_in_use l && bool_decide (rl_role l = VIRT_IAV_ROLE_PRIMARY).

(** role_primary_line_locked *)
Definition role_primary_line_locked (rs : list role_line) : bool := existsb primary_line rs.

(** role_of_locked: the role, and whether it is from the store *)
Definition role_of_locked (ticket : text) (p : policy) : virt_iav_role * bool :=
  if negb (virt_camera_ticket_ok ticket) || bool_decide (g_roles_state p = ROLES_INVALID) then (VIRT_IAV_ROLE_CONSUMER, false)
  else
    match role_find ticket (g_roles p) ≫= (fun i => g_roles p !! i) with
    | Some l => (rl_role l, true)
    | None =>
        (if role_primary_line_locked (g_roles p) then VIRT_IAV_ROLE_CONSUMER
         else if str_eq ticket VIRT_IAV_DEFAULT_PRIMARY then VIRT_IAV_ROLE_PRIMARY else VIRT_IAV_ROLE_CONSUMER, false)
    end.

(** virt_iav_role_of *)
Definition virt_iav_role_of (ticket : text) (p : policy) : virt_iav_role := fst (role_of_locked ticket p).

(** role_parse_line *)
Definition role_parse_line (line : text) : option (text * virt_iav_role) :=
  match cut_at space line with
  | (_, None) => None
  | (ticket, Some rest) =>
      if (length ticket <? 1)%nat || (VIRT_CAMERA_TICKET_MAX <? length ticket)%nat || existsb (Ascii.eqb space) rest then None
      else if negb (virt_camera_ticket_ok ticket) then None
      else if str_eq rest (lit "primary") then Some (ticket, VIRT_IAV_ROLE_PRIMARY)
      else if str_eq rest (lit "consumer") then Some (ticket, VIRT_IAV_ROLE_CONSUMER)
      else None
  end.

Definition roles_zero : list role_line := repeat rline_zero VIRT_CAMERA_MAX_ENTRIES.

(** The lines that were read, as the table. *)
Definition roles_of_lines (got : list (text * virt_iav_role)) : list role_line :=
  map (fun g => mk_rline true (fst g) (snd g)) got ++ repeat rline_zero (VIRT_CAMERA_MAX_ENTRIES - length got).

(** role_load_locked: the state and the table *)
Definition role_load_locked (err : option Z) (path : text) (d : disk) : roles_state * list role_line :=
  match fopen err path d with
  | inl e => (if e =? ENOENT then ROLES_MISSING else ROLES_INVALID, roles_zero)
  | inr s =>
      match read_store s with
      | None => (ROLES_INVALID, roles_zero)
      | Some buf =>
          match load_lines (length buf) role_parse_line buf [] with
          | None => (ROLES_INVALID, roles_zero)
          | Some got =>
              if (1 <? length (filter (fun g => snd g = VIRT_IAV_ROLE_PRIMARY) got))%nat then (ROLES_INVALID, roles_zero)
              else (ROLES_VALID, roles_of_lines got)
          end
      end
  end.

(** virt_iav_role_load *)
Definition virt_iav_role_load (err : option Z) (d : disk) (p : policy) : policy :=
  let '(st, rs) := role_load_locked err (g_role_store p) d in
  set_roles (if bool_decide (st = ROLES_INVALID) then roles_zero else rs) st p.

(** The line of a role. *)
Definition role_store_line (l : role_line) : option text :=
  if rl_in_use l then Some (rl_ticket l ++ [space] ++ virt_iav_role_name (rl_role l) ++ [newline]) else None.

(** role_save_locked *)
Definition role_save_locked (r : fs_results) (path : text) (rs : list role_line) (d : disk) : Z * disk :=
  match save_text role_store_line rs [] with
  | None => (- 1, d)
  | Some buf => write_atomic r path buf d
  end.

(** What SET_ROLE asks for. *)
Inductive role_request := SET_INHERIT | SET_TO (role : virt_iav_role).

(** Every other primary line goes. *)
Definition drop_other_primaries (ticket : text) (rs : list role_line) : list role_line :=
  map (fun l => if primary_line l && negb (str_eq (rl_ticket l) ticket) then rline_zero else l) rs.

(** The table after the request, before it is saved; [None] when it is full *)
Definition role_update (ticket : text) (what : role_request) (rs : list role_line) : option (list role_line) :=
  let l := role_find ticket rs in
  match what with
  | SET_INHERIT => Some (match l with Some i => <[i := rline_zero]> rs | None => rs end)
  | SET_TO role =>
      let rs := if bool_decide (role = VIRT_IAV_ROLE_PRIMARY) then drop_other_primaries ticket rs else rs in
      let l := match l with Some i => Some i | None => find_idx (fun x => negb (rl_in_use x)) rs end in
      i ← l; Some (<[i := mk_rline true (take VIRT_CAMERA_TICKET_MAX ticket) role]> rs)
  end.

(** role_set *)
Definition role_set (r : fs_results) (ticket : text) (what : role_request) (resp_len : nat) (p : policy) (d : disk) : text * policy * disk :=
  let rs := if bool_decide (g_roles_state p = ROLES_INVALID) then roles_zero else g_roles p in
  match role_update ticket what rs with
  | None => (snprintf resp_len (lit "ERR PERSIST" ++ [newline]), p, d)
  | Some rs' =>
      let '(rc, d') := role_save_locked r (g_role_store p) rs' d in
      if negb (rc =? 0) then (snprintf resp_len (lit "ERR PERSIST" ++ [newline]), p, d')
      else (snprintf resp_len (lit "OK" ++ [newline]), set_roles rs' ROLES_VALID p, d')
  end.

(** role_listed *)
Definition role_listed (seen : list text) (t : text) : bool := existsb (fun x => str_eq x t) seen.

(** The tickets GET_ROLE names: those of the table, the default primary, and those a reserve has named. *)
Definition role_tickets (p : policy) : list text :=
  let seen := rl_ticket <$> filter (fun l => rl_in_use l = true) (g_roles p) in
  let seen := if role_listed seen VIRT_IAV_DEFAULT_PRIMARY then seen else seen ++ [VIRT_IAV_DEFAULT_PRIMARY] in
  foldl (fun seen e => if en_in_use e && negb (role_listed seen (en_ticket e)) then seen ++ [en_ticket e] else seen) seen (g_entries p).

(** The line of a ticket in a GET_ROLE reply. *)
Definition role_line_text (p : policy) (t : text) : text :=
  let '(r, from_store) := role_of_locked t p in
  lit "ROLE " ++ t ++ lit " role=" ++ virt_iav_role_name r ++ lit " source=" ++
  (if bool_decide (g_roles_state p = ROLES_INVALID) then lit "invalid-store" else if from_store then lit "store" else lit "default") ++ [newline].

(** role_get *)
Definition role_get (ticket : option text) (resp_len : nat) (p : policy) : text :=
  let '(count, body, truncated) := body_of (map (role_line_text p) (filter (fun t => asked ticket t = true) (role_tickets p))) in
  snprintf resp_len (lit "OK COUNT " ++ print_u (Z.of_nat count) ++ lit " store=" ++
    (match g_roles_state p with ROLES_VALID => lit "valid" | ROLES_INVALID => lit "invalid" | ROLES_MISSING => lit "missing" end) ++
    [newline] ++ body ++ truncated_line truncated).

(** ** Admin requests *)

Definition reply (resp_len : nat) (s : string) : text := snprintf resp_len (lit s ++ [newline]).

(** SET_CAMERA with a valid ticket and override *)
Definition set_camera (r : fs_results) (ticket : text) (ov : camera_override) (resp_len : nat) (p : policy) (d : disk) : text * policy * disk :=
  let slot :=
    match find_entry ticket (g_entries p) with
    | Some i => Some (i, g_entries p)
    | None => if bool_decide (ov = OV_INHERIT) then None else add_entry ticket (g_entries p)
    end in
  match slot with
  | None => (reply resp_len (if bool_decide (ov = OV_INHERIT) then "OK" else "ERR PERSIST")%string, p, d)
  | Some (i, es) =>
      let old := from_option en_override OV_INHERIT (es !! i) in
      let es1 := alter (with_override ov) i es in
      let '(rc, d') := save_locked r (g_store p) es1 d in
      if negb (rc =? 0) then (reply resp_len "ERR PERSIST"%string, set_entries (alter (fun e => drop_if_idle (with_override old e)) i es1) p, d')
      else (reply resp_len "OK"%string, set_entries (alter drop_if_idle i es1) p, d')
  end.

(** The reply to CAMERA_STATUS. *)
Definition camera_status (resp_len : nat) (p : policy) : text :=
  let pin :=
    match g_iav_status p with
    | Some fn => let '(n, st) := fn 1024%nat in
                 if n >? 0 then (if contains (lit "windows=stale") st then lit "stale" else lit "pinned") else lit "unknown"
    | None => lit "unknown"
    end in
  let size k := print_llu (nth k (g_size p) 0) in
  snprintf resp_len (lit "OK windows=" ++ (if g_windows_ready p then lit "ready" else lit "none") ++
    lit " dsp=" ++ size AMBA_VIRT_IAV_WIN_DSP ++ lit " bsb=" ++ size AMBA_VIRT_IAV_WIN_BSB ++
    lit " dec=" ++ size AMBA_VIRT_IAV_WIN_DEC ++ lit " ovl=" ++ size AMBA_VIRT_IAV_WIN_OVL ++
    lit " ready_ms=" ++ print_llu (g_ready_ms p) ++ lit " pinning=" ++ pin ++ [newline]).

(** The reply to IAV_STATUS: what the broker wrote, or an error. *)
Definition iav_status (resp_len : nat) (p : policy) : text :=
  match g_iav_status p with
  | Some fn => let '(n, st) := fn resp_len in if n <=? 0 then reply resp_len "ERR NO_BROKER"%string else st
  | None => reply resp_len "ERR NO_BROKER"%string
  end.

Definition parse_override (s : text) : option camera_override :=
  if str_eq s (lit "on") then Some OV_ON else if str_eq s (lit "off") then Some OV_OFF
  else if str_eq s (lit "inherit") then Some OV_INHERIT else None.

Definition parse_role_request (s : text) : option role_request :=
  if str_eq s (lit "primary") then Some (SET_TO VIRT_IAV_ROLE_PRIMARY) else if str_eq s (lit "consumer") then Some (SET_TO VIRT_IAV_ROLE_CONSUMER)
  else if str_eq s (lit "inherit") then Some SET_INHERIT else None.

(** virt_camera_policy_admin: the result, the reply and the state *)
Definition virt_camera_policy_admin (r : fs_results) (req : text) (resp_len : nat) (p : policy) (d : disk) : Z * text * policy * disk :=
  if (resp_len =? 0)%nat then (- 1, [], p, d)
  else
    let inval := (0, reply resp_len "ERR INVAL"%string, p, d) in
    match scan_words 4 63 req with
    | [] => (0, reply resp_len "ERR UNKNOWN_CMD"%string, p, d)
    | cmd :: args =>
        if str_eq cmd (lit "SET_CAMERA") then
          match args with
          | [a1; a2] =>
              if negb (virt_camera_ticket_ok a1) then inval
              else match parse_override a2 with
                   | None => inval
                   | Some ov => let '(t, p', d') := set_camera r a1 ov resp_len p d in (0, t, p', d')
                   end
          | _ => inval
          end
        else if str_eq cmd (lit "GET_CAMERA") then
          match args with
          | [] => (0, get_locked None resp_len p, p, d)
          | [a1] => if negb (virt_camera_ticket_ok a1) then inval else (0, get_locked (Some a1) resp_len p, p, d)
          | _ => inval
          end
        else if str_eq cmd (lit "CAMERA_STATUS") then
          match args with [] => (0, camera_status resp_len p, p, d) | _ => inval end
        else if str_eq cmd (lit "SET_ROLE") then
          match args with
          | [a1; a2] =>
              if negb (virt_camera_ticket_ok a1) then inval
              else match parse_role_request a2 with
                   | None => inval
                   | Some what => let '(t, p', d') := role_set r a1 what resp_len p d in (0, t, p', d')
                   end
          | _ => inval
          end
        else if str_eq cmd (lit "GET_ROLE") then
          match args with
          | [] => (0, role_get None resp_len p, p, d)
          | [a1] => if negb (virt_camera_ticket_ok a1) then inval else (0, role_get (Some a1) resp_len p, p, d)
          | _ => inval
          end
        else if str_eq cmd (lit "IAV_STATUS") then
          match args with [] => (0, iav_status resp_len p, p, d) | _ => inval end
        else (0, reply resp_len "ERR UNKNOWN_CMD"%string, p, d)
    end.

End CameraPolicy.
