(* ===== verification/CameraPolicyProps.v ===== *)
(** * Properties of the camera policy and the IAV roles

    The stores: writing is atomic whatever system call fails, and what is written is read back. The role table as a
    finite map from tickets to roles, with SET_ROLE as an operation on the map. The invariant over every order of
    requests, loads, failing writes, foreign writes to the stores and restarts: no two tickets are primary. *)

From Stdlib Require Import ZArith Lia Bool Ascii String.
From stdpp Require Import base list numbers strings gmap relations.
From S2P Require Import Prelude Text CameraPolicy.
Import Text Store CameraPolicy.
#[local] Open Scope Z_scope.
#[local] Open Scope list_scope.

(** ** Text *)

Lemma str_eq_true a b : str_eq a b = true <-> a = b.
Proof. apply bool_decide_eq_true. Qed.

Lemma str_eq_refl a : str_eq a a = true.
Proof. by apply str_eq_true. Qed.

Lemma str_eq_false a b : str_eq a b = false <-> a <> b.
Proof. apply bool_decide_eq_false. Qed.

Lemma cut_at_app c l r : c ∉ l -> cut_at c (l ++ c :: r) = (l, Some r).
Proof.
  induction l as [|x l IH]; intros Hc; cbn; [by rewrite Ascii.eqb_refl|].
  destruct (Ascii.eqb_spec x c) as [->|]; [set_solver|]. rewrite IH; [done|set_solver].
Qed.

Lemma cut_at_none c l : c ∉ l -> cut_at c l = (l, None).
Proof.
  induction l as [|x l IH]; intros Hc; cbn; [done|]. destruct (Ascii.eqb_spec x c) as [->|]; [set_solver|]. rewrite IH; [done|set_solver].
Qed.

(** What comes out of a cut. *)
Lemma cut_at_inv c s l r : cut_at c s = (l, r) -> (c ∉ l) /\ s = l ++ match r with Some r => c :: r | None => [] end.
Proof.
  revert l r. induction s as [|x s IH]; intros l r; cbn; [intros [= <- <-]; split; [apply not_elem_of_nil|done]|].
  destruct (Ascii.eqb_spec x c) as [Exc|Hne]; [intros [= <- <-]; subst x; split; [apply not_elem_of_nil|done]|].
  destruct (cut_at c s) as [l' r'] eqn:E. intros [= <- <-]. destruct (IH l' r' eq_refl) as [H1 H2].
  split; [by rewrite not_elem_of_cons|]. cbn. by rewrite H2 at 1.
Qed.

Lemma existsb_elem_of c (s : text) : existsb (Ascii.eqb c) s = false <-> c ∉ s.
Proof.
  rewrite <- not_true_iff_false, existsb_exists. split; intros H.
  - intros Hin. apply H. exists c. split; [by apply list_elem_of_In|apply Ascii.eqb_refl].
  - intros (x & Hx & E). apply Ascii.eqb_eq in E as <-. by apply H, list_elem_of_In.
Qed.

(** ** Writing a store *)

Lemma write_loop_ok rs rest done_ content : write_loop rs rest done_ = (true, content) -> content = done_ ++ rest.
Proof.
  revert rest done_. induction rs as [|w rs IH]; intros rest done_; destruct rest as [|c rest]; cbn.
  1-3: intros [= <-]; by rewrite ?app_nil_r.
  destruct w as [n| |]; [|apply IH|done]. intros E. apply IH in E as ->. by rewrite <- app_assoc, take_drop.
Qed.

(** The name of the temporary file is another one. *)
Definition tmp_of (path : text) : text := snprintf 288 (path ++ lit ".tmp").

Lemma tmp_ne path : (length path < 248)%nat -> tmp_of path <> path.
Proof.
  intros Hl E. apply (f_equal length) in E. unfold tmp_of, snprintf in E. rewrite length_take, length_app in E. change (length (lit ".tmp")) with 4%nat in E. lia.
Qed.

(** Either the store holds the new text, or no file but the temporary one has changed. *)
Lemma write_atomic_spec r path buf d rc d' :
  (length path < 248)%nat -> write_atomic r path buf d = (rc, d') ->
  (rc = 0 /\ d' !! path = Some buf \/ rc = - 1 /\ d' !! path = d !! path) /\
  forall q, q <> path -> q <> tmp_of path -> d' !! q = d !! q.
Proof.
  intros Hl. pose proof (tmp_ne path Hl) as Hne. unfold write_atomic. fold (tmp_of path).
  destruct (negb (make_dir r path)); [intros [= <- <-]; split; [by right|done]|]. destruct (negb (fr_open r)); [intros [= <- <-]; split; [by right|done]|].
  assert (Hdel : forall t, rc = - 1 -> d' = delete (tmp_of path) (<[tmp_of path := t]> d) ->
    (rc = 0 /\ d' !! path = Some buf \/ rc = - 1 /\ d' !! path = d !! path) /\ forall q, q <> path -> q <> tmp_of path -> d' !! q = d !! q).
  { intros t -> ->. split; [right; split; [done|]; by rewrite lookup_delete_ne, lookup_insert_ne|].
    intros q _ Hq. by rewrite lookup_delete_ne, lookup_insert_ne. }
  destruct (negb (fr_fchmod r)); [intros [= <- <-]; by eapply Hdel|]. destruct (write_loop _ _ _) as [ok content] eqn:Ew.
  rewrite insert_insert_eq.
  destruct ok; cbn [negb]; [|intros [= <- <-]; by eapply Hdel]. apply write_loop_ok in Ew as ->. cbn [app].
  destruct (negb (fr_fsync r)); [intros [= <- <-]; by eapply Hdel|]. destruct (negb (fr_rename r)); [intros [= <- <-]; by eapply Hdel|].
  intros [= <- <-]. split; [left; split; [done|apply lookup_insert_eq]|]. intros q H1 H2. by rewrite lookup_insert_ne, lookup_delete_ne, lookup_insert_ne.
Qed.

Lemma write_atomic_good path buf d : (length path < 248)%nat -> (make_dir fs_good path) = true -> fst (write_atomic fs_good path buf d) = 0.
Proof. intros Hl Hm. unfold write_atomic. rewrite Hm. cbn. by destruct buf. Qed.

(** ** Reading back a store *)

(** A valid ticket has no separator. *)
Lemma ticket_chars t c : virt_camera_ticket_ok t = true -> c ∈ t -> ticket_char c = true.
Proof. unfold virt_camera_ticket_ok. intros H Hc. bool_hyps. rewrite forallb_forall in H0. by apply H0, list_elem_of_In. Qed.

Lemma ticket_plain t : virt_camera_ticket_ok t = true -> (1 <= length t <= 48)%nat /\ (space ∉ t) /\ (newline ∉ t) /\ (ascii_of_nat 0 ∉ t).
Proof.
  intros H. pose proof (ticket_chars t) as Hc. split; [|split_and!; intros Hin; by specialize (Hc _ H Hin)].
  unfold virt_camera_ticket_ok in H. bool_hyps. apply Nat.ltb_ge in H, H1. unfold VIRT_CAMERA_TICKET_MAX in *. lia.
Qed.

(** A ticket that the lines before do not have. *)
Lemma fresh_ticket {A} (got : list (text * A)) t v l : NoDup (fst <$> (got ++ (t, v) :: l)) -> existsb (fun x => str_eq (fst x) t) got = false.
Proof.
  intros Hnd. apply not_true_iff_false. rewrite existsb_exists. intros (x & Hx & E). apply str_eq_true in E. rewrite fmap_app in Hnd. cbn in Hnd.
  apply NoDup_app in Hnd as (_ & Hd & _). apply (Hd t); [|by left]. apply list_elem_of_fmap. exists x. split; [done|]. by apply list_elem_of_In.
Qed.

Section Lines.

Context {A : Type} (parse : text -> option (text * A)) (print : text * A -> text).

Definition store_text (l : list (text * A)) : text := concat (map (fun g => print g ++ [newline]) l).

(** The lines that are printed are read back, after others. *)
Lemma load_lines_print l got fuel :
  Forall (fun g => parse (print g) = Some g /\ (newline ∉ print g) /\ print g <> []) l -> NoDup (fst <$> (got ++ l)) ->
  (length got + length l <= VIRT_CAMERA_MAX_ENTRIES)%nat -> (length (store_text l) <= fuel)%nat ->
  load_lines fuel parse (store_text l) got = Some (got ++ l).
Proof.
  revert got fuel. induction l as [|g l IH]; intros got fuel Hl Hnd Hlen Hf; [destruct fuel; cbn; by rewrite app_nil_r|].
  apply Forall_cons in Hl as [(Hp & Hn & Hne) Hl]. unfold store_text in *. cbn [map concat] in *. rewrite <- app_assoc in Hf |- *. cbn [app] in Hf |- *.
  rewrite length_app in Hf. cbn [length] in Hf. destruct fuel as [|fuel]; [lia|].
  destruct (print g ++ newline :: _) as [|c s] eqn:Es; [by destruct (print g)|]. rewrite <- Es. cbn [load_lines]. rewrite Es, <- Es. clear Es c s.
  rewrite cut_at_app by done. cbn [length] in Hlen. rewrite (proj2 (Nat.leb_gt _ _)) by (cbn in Hlen; lia). rewrite Hp. destruct g as [t v].
  rewrite (fresh_ticket got t v l) by done.
  cbn [default]. rewrite IH; [by rewrite <- app_assoc|done| | |lia].
  - by rewrite <- app_assoc.
  - rewrite length_app. cbn in Hlen |- *. lia.
Qed.

End Lines.

(** ** The role table as a map *)

Record roles_ok (rs : list role_line) : Prop := {
  ro_len : length rs = VIRT_CAMERA_MAX_ENTRIES;
  ro_ticket : forall i l, rs !! i = Some l -> rl_in_use l = true -> virt_camera_ticket_ok (rl_ticket l) = true;
  ro_unique : forall i j l l', rs !! i = Some l -> rs !! j = Some l' -> rl_in_use l = true -> rl_in_use l' = true -> rl_ticket l = rl_ticket l' -> i = j;
  ro_primary : forall i j l l', rs !! i = Some l -> rs !! j = Some l' -> primary_line l = true -> primary_line l' = true -> i = j;
}.

(** The table says that [t] has role [r]. *)
Definition has_role (rs : list role_line) (t : text) (r : virt_iav_role) : Prop :=
  exists i l, rs !! i = Some l /\ rl_in_use l = true /\ rl_ticket l = t /\ rl_role l = r.

Fixpoint roles_map (rs : list role_line) : gmap text virt_iav_role :=
  match rs with
  | [] => ∅
  | l :: rs' => if rl_in_use l then <[rl_ticket l := rl_role l]> (roles_map rs') else roles_map rs'
  end.

Lemma roles_map_has rs t r :
  (forall i j l l', rs !! i = Some l -> rs !! j = Some l' -> rl_in_use l = true -> rl_in_use l' = true -> rl_ticket l = rl_ticket l' -> i = j) ->
  roles_map rs !! t = Some r <-> has_role rs t r.
Proof.
  induction rs as [|x rs IH]; intros Hu; cbn [roles_map].
  - split; [by rewrite lookup_empty|]. by intros (i & l & Hi & _).
  - assert (Hu' : forall i j l l', rs !! i = Some l -> rs !! j = Some l' -> rl_in_use l = true -> rl_in_use l' = true -> rl_ticket l = rl_ticket l' -> i = j).
    { intros i j l l' Hi Hj H1 H2 H3. by pose proof (Hu (S i) (S j) l l' Hi Hj H1 H2 H3) as [= ->]. }
    specialize (IH Hu'). destruct (rl_in_use x) eqn:Ex; [destruct (decide (rl_ticket x = t)) as [<-|Hne]|].
    + rewrite lookup_insert_eq. split; [intros [= <-]; by exists 0%nat, x|]. intros ([|i] & l & Hi & H1 & H2 & <-); [by injection Hi as ->|].
      by pose proof (Hu 0%nat (S i) x l eq_refl Hi Ex H1 (eq_sym H2)).
    + rewrite lookup_insert_ne by done. rewrite IH. split; [intros (i & l & ?); by exists (S i), l|].
      intros ([|i] & l & Hi & H1 & H2 & H3); [injection Hi as ->; by rewrite H2 in Hne|by exists i, l].
    + rewrite IH. split; [intros (i & l & ?); by exists (S i), l|]. intros ([|i] & l & Hi & H1 & H2 & H3); [injection Hi as ->; congruence|by exists i, l].
Qed.

Lemma role_find_spec rs t :
  match role_find t rs with
  | Some i => exists l, rs !! i = Some l /\ rl_in_use l = true /\ rl_ticket l = t
  | None => forall i l, rs !! i = Some l -> rl_in_use l = true -> rl_ticket l <> t
  end.
Proof.
  unfold role_find. destruct (find_idx _ rs) as [i|] eqn:E.
  - apply find_idx_Some in E as (l & Hl & Ht & _). bool_hyps. apply str_eq_true in H0. by exists l.
  - intros i l Hi Hu Ht. pose proof (proj1 (find_idx_None _ _) E i l Hi) as Hf. cbv beta in Hf. by rewrite Hu, Ht, str_eq_refl in Hf.
Qed.

Lemma role_found rs t :
  roles_ok rs -> match role_find t rs ≫= (fun i => rs !! i) with Some l => roles_map rs !! t = Some (rl_role l) | None => roles_map rs !! t = None end.
Proof.
  intros Hok. pose proof (role_find_spec rs t) as Hf. destruct (role_find t rs) as [i|]; cbn.
  - destruct Hf as (l & Hl & H1 & H2). rewrite Hl. apply roles_map_has; [apply Hok|]. by exists i, l.
  - destruct (roles_map rs !! t) as [r|] eqn:E; [|done]. apply roles_map_has in E as (i & l & Hi & H1 & H2 & _); [|apply Hok]. by destruct (Hf i l Hi H1).
Qed.

Lemma primary_line_true l : primary_line l = true <-> rl_in_use l = true /\ rl_role l = VIRT_IAV_ROLE_PRIMARY.
Proof. unfold primary_line. rewrite andb_true_iff, bool_decide_eq_true. done. Qed.

Lemma primary_in_map rs : roles_ok rs -> role_primary_line_locked rs = true <-> exists t, roles_map rs !! t = Some VIRT_IAV_ROLE_PRIMARY.
Proof.
  intros Hok. unfold role_primary_line_locked. rewrite existsb_exists. split.
  - intros (l & Hl & Hp). apply list_elem_of_In, list_elem_of_lookup in Hl as [i Hi]. apply primary_line_true in Hp as [H1 H2].
    exists (rl_ticket l). apply roles_map_has; [apply Hok|]. by exists i, l.
  - intros (t & Ht). apply roles_map_has in Ht as (i & l & Hi & H1 & _ & H2); [|apply Hok]. exists l.
    split; [by eapply list_elem_of_In, list_elem_of_lookup_2|]. by apply primary_line_true.
Qed.

(** The roles the policy goes by. *)
Definition roles_in_force (p : policy) : gmap text virt_iav_role :=
  if bool_decide (g_roles_state p = ROLES_INVALID) then ∅ else roles_map (g_roles p).

(** The rule of virt_camera_policy.h. *)
Definition resolves_primary (m : gmap text virt_iav_role) (t : text) : Prop :=
  m !! t = Some VIRT_IAV_ROLE_PRIMARY \/
  m !! t = None /\ (forall t', m !! t' <> Some VIRT_IAV_ROLE_PRIMARY) /\ t = VIRT_IAV_DEFAULT_PRIMARY.

Lemma role_of_iff p t :
  roles_ok (g_roles p) ->
  virt_iav_role_of t p = VIRT_IAV_ROLE_PRIMARY <->
  virt_camera_ticket_ok t = true /\ g_roles_state p <> ROLES_INVALID /\ resolves_primary (roles_in_force p) t.
Proof.
  intros Hok. unfold virt_iav_role_of, role_of_locked, roles_in_force. destruct (virt_camera_ticket_ok t); cbn [negb orb]; [|by split; [|intros []]].
  destruct (bool_decide_reflect (g_roles_state p = ROLES_INVALID)) as [|Hv]; cbn [fst]; [by split; [|intros (_ & ? & _)]|].
  pose proof (role_found (g_roles p) t Hok) as Hf. pose proof (primary_in_map (g_roles p) Hok) as Hp. unfold resolves_primary.
  destruct (role_find t (g_roles p) ≫= _) as [l|]; cbn [fst]; rewrite Hf.
  - split; [intros ->; by split_and!; [..|left]|]. intros (_ & _ & [[= ->]|[? _]]); done.
  - destruct (role_primary_line_locked (g_roles p)) eqn:Epl.
    + split; [done|]. intros (_ & _ & [|(_ & Hno & _)]); [done|]. destruct (proj1 Hp eq_refl) as (t' & Ht'). by destruct (Hno t').
    + destruct (str_eq t _) eqn:Et; (split; [|intros (_ & _ & [|(_ & _ & ->)]); [done|]]); try done.
      * apply str_eq_true in Et. intros _. split_and!; [done..|]. right. split_and!; [done| |done]. intros t' Ht'.
        by assert (false = true) by (apply Hp; by exists t').
Qed.

(** At most one ticket of a map resolves to primary, if at most one line does. *)
Lemma roles_map_primary rs t t' :
  roles_ok rs -> roles_map rs !! t = Some VIRT_IAV_ROLE_PRIMARY -> roles_map rs !! t' = Some VIRT_IAV_ROLE_PRIMARY -> t = t'.
Proof.
  intros Hok Ht Ht'. apply roles_map_has in Ht as (i & l & Hi & H1 & H2 & H3), Ht' as (j & l' & Hj & H1' & H2' & H3'); [|apply Hok..].
  pose proof (ro_primary rs Hok i j l l' Hi Hj) as E. rewrite !primary_line_true in E. rewrite E in Hi by done. congruence.
Qed.

Lemma primary_unique p t t' :
  roles_ok (g_roles p) -> virt_iav_role_of t p = VIRT_IAV_ROLE_PRIMARY -> virt_iav_role_of t' p = VIRT_IAV_ROLE_PRIMARY -> t = t'.
Proof.
  intros Hok Ht Ht'. apply (role_of_iff _ _ Hok) in Ht as (_ & Hv & Ht), Ht' as (_ & _ & Ht'). unfold roles_in_force in *.
  rewrite bool_decide_eq_false_2 in Ht, Ht' by done. destruct Ht as [Ht|(_ & Hno & ->)], Ht' as [Ht'|(_ & Hno' & ->)].
  - by eapply roles_map_primary.
  - by destruct (Hno' t).
  - by destruct (Hno t').
  - done.
Qed.

(** ** SET_ROLE as an operation on the map *)

Definition map_set (t : text) (what : role_request) (m : gmap text virt_iav_role) : gmap text virt_iav_role :=
  match what with
  | SET_INHERIT => delete t m
  | SET_TO VIRT_IAV_ROLE_CONSUMER => <[t := VIRT_IAV_ROLE_CONSUMER]> m
  | SET_TO VIRT_IAV_ROLE_PRIMARY => <[t := VIRT_IAV_ROLE_PRIMARY]> (filter (fun '(_, r) => r <> VIRT_IAV_ROLE_PRIMARY) m)
  end.

(** Two tables that say the same have the same map. *)
Lemma roles_map_ext rs m : roles_ok rs -> (forall t r, has_role rs t r <-> m !! t = Some r) -> roles_map rs = m.
Proof.
  intros Hok H. apply map_eq. intros t. apply option_eq. intros r. rewrite <- H. apply roles_map_has, Hok.
Qed.

Lemma has_role_map rs t r : roles_ok rs -> has_role rs t r <-> roles_map rs !! t = Some r.
Proof. intros Hok. symmetry. apply roles_map_has, Hok. Qed.

(** Lines that go. *)
Lemma drop_lines_ok rs (f : nat -> bool) rs' :
  roles_ok rs -> length rs' = length rs -> (forall i l, rs !! i = Some l -> rs' !! i = Some (if f i then rline_zero else l)) ->
  roles_ok rs' /\ forall t r, has_role rs' t r <-> exists i l, rs !! i = Some l /\ f i = false /\ rl_in_use l = true /\ rl_ticket l = t /\ rl_role l = r.
Proof.
  intros Hok Hlen Hf. assert (Hinv : forall i l, rs' !! i = Some l -> rl_in_use l = true -> rs !! i = Some l /\ f i = false).
  { intros i l Hi Hu. destruct (lookup_lt_is_Some_2 rs i) as [l0 Hl0]; [rewrite <- Hlen; by eapply lookup_lt_Some|].
    specialize (Hf i l0 Hl0). rewrite Hi in Hf. destruct (f i); injection Hf as ->; done. }
  split.
  - split; [rewrite Hlen; apply Hok|..].
    + intros i l Hi Hu. destruct (Hinv i l Hi Hu). by eapply (ro_ticket rs Hok).
    + intros i j l l' Hi Hj H1 H2 H3. destruct (Hinv i l Hi H1), (Hinv j l' Hj H2). by eapply (ro_unique rs Hok).
    + intros i j l l' Hi Hj H1 H2. pose proof (proj1 (primary_line_true l) H1) as []. pose proof (proj1 (primary_line_true l') H2) as [].
      destruct (Hinv i l), (Hinv j l'); try done. by eapply (ro_primary rs Hok).
  - intros t r. split.
    + intros (i & l & Hi & H1 & H2 & H3). destruct (Hinv i l Hi H1). by exists i, l.
    + intros (i & l & Hi & H0 & H1 & H2 & H3). exists i, l. split_and!; try done. rewrite (Hf i l Hi), H0. done.
Qed.

(** A line that is written into a free slot or over the ticket's own line. *)
Lemma put_line_ok rs i l0 t role :
  roles_ok rs -> rs !! i = Some l0 -> virt_camera_ticket_ok t = true ->
  (forall j l, rs !! j = Some l -> rl_in_use l = true -> rl_ticket l = t -> j = i) -> (rl_in_use l0 = true -> rl_ticket l0 = t) ->
  (role = VIRT_IAV_ROLE_PRIMARY -> forall j l, rs !! j = Some l -> primary_line l = true -> j = i) ->
  roles_ok (<[i := mk_rline true t role]> rs) /\ roles_map (<[i := mk_rline true t role]> rs) = <[t := role]> (roles_map rs).
Proof.
  intros Hok Hi Ht Hown Hl0 Hpr. assert (Hok' : roles_ok (<[i := mk_rline true t role]> rs)).
  { split; [rewrite length_insert; apply Hok|..].
    - intros j l [[-> ->]|[Hne Hj]]%lookup_insert_inv Hu; [done|]. by eapply (ro_ticket rs Hok).
    - intros j k l l' [[-> ->]|[Hj Hjl]]%lookup_insert_inv [[-> ->]|[Hk Hkl]]%lookup_insert_inv H1 H2 H3; cbn in *; [done| | |by eapply (ro_unique rs Hok)].
      + by destruct (Hk (Hown k l' Hkl H2 (eq_sym H3))).
      + by destruct (Hj (Hown j l Hjl H1 H3)).
    - intros j k l l' [[-> ->]|[Hj Hjl]]%lookup_insert_inv [[-> ->]|[Hk Hkl]]%lookup_insert_inv H1 H2; [done| | |by eapply (ro_primary rs Hok)].
      + apply primary_line_true in H1 as [_ H1]. by destruct (Hk (Hpr H1 k l' Hkl H2)).
      + apply primary_line_true in H2 as [_ H2]. by destruct (Hj (Hpr H2 j l Hjl H1)). }
  split; [done|]. apply roles_map_ext; [done|]. intros t' r. destruct (decide (t' = t)) as [->|Hne].
  - rewrite lookup_insert_eq. split.
    + intros (j & l & [[-> ->]|[Hj Hjl]]%lookup_insert_inv & H1 & H2 & H3); [cbn in H3; congruence|]. by destruct (Hj (Hown j l Hjl H1 H2)).
    + intros [= <-]. exists i, (mk_rline true t role). split; [|done]. apply list_lookup_insert_eq. by eapply lookup_lt_Some.
  - rewrite lookup_insert_ne by done. rewrite <- (has_role_map rs t' r Hok). split.
    + intros (j & l & [[-> ->]|[Hj Hjl]]%lookup_insert_inv & H1 & H2 & H3); [cbn in H2; congruence|]. by exists j, l.
    + intros (j & l & Hj & H1 & H2 & H3). exists j, l. split; [|done]. destruct (decide (j = i)) as [->|]; [|by rewrite list_lookup_insert_ne].
      rewrite Hi in Hj. injection Hj as ->. by rewrite Hl0 in H2 by done.
Qed.

Lemma drop_primaries_ok rs t :
  roles_ok rs -> let rs1 := drop_other_primaries t rs in
  roles_ok rs1 /\ <[t := VIRT_IAV_ROLE_PRIMARY]> (roles_map rs1) = map_set t (SET_TO VIRT_IAV_ROLE_PRIMARY) (roles_map rs) /\
  (forall i l, rs1 !! i = Some l -> primary_line l = true -> rl_ticket l = t) /\
  (forall i l, rs !! i = Some l -> rl_ticket l = t -> rs1 !! i = Some l) /\
  (forall i l, rs1 !! i = Some l -> rl_in_use l = true -> rs !! i = Some l).
Proof.
  intros Hok rs1. set (gone l := primary_line l && negb (str_eq (rl_ticket l) t)).
  assert (Hl : forall i l, rs1 !! i = Some l <-> exists l0, rs !! i = Some l0 /\ l = if gone l0 then rline_zero else l0).
  { intros i l. unfold rs1, drop_other_primaries. rewrite list_lookup_fmap_Some. split; intros (l0 & H1 & H2); exists l0; by rewrite ?H2. }
  destruct (drop_lines_ok rs (fun i => from_option gone false (rs !! i)) rs1 Hok) as [Hok1 Hhas].
  { apply length_map. }
  { intros i l Hi. apply Hl. exists l. by rewrite Hi. }
  split; [done|]. split_and!.
  - cbn. apply map_eq. intros t'. destruct (decide (t' = t)) as [->|Hne]; [by rewrite !lookup_insert_eq|]. rewrite !lookup_insert_ne by done.
    apply option_eq. intros r. rewrite <- (has_role_map rs1 t' r Hok1), Hhas, map_lookup_filter_Some, <- (has_role_map rs t' r Hok). split.
    + intros (i & l & Hi & Hg & H1 & H2 & H3). rewrite Hi in Hg. cbn in Hg. split; [by exists i, l|]. intros ->. unfold gone in Hg.
      rewrite (proj2 (primary_line_true l)), (proj2 (str_eq_false _ _)) in Hg by (done || congruence). done.
    + intros [(i & l & Hi & H1 & H2 & H3) Hr]. exists i, l. rewrite Hi. cbn. split_and!; try done. unfold gone.
      destruct (primary_line l) eqn:Ep; [|done]. apply primary_line_true in Ep as [_ Ep]. congruence.
  - intros i l (l0 & Hi & ->)%Hl. destruct (gone l0) eqn:Eg; [done|]. intros Hp. unfold gone in Eg. rewrite Hp in Eg. cbn in Eg. bool_hyps. by apply str_eq_true.
  - intros i l Hi Ht. apply Hl. exists l. split; [done|]. unfold gone. by rewrite Ht, str_eq_refl, andb_false_r.
  - intros i l (l0 & Hi & ->)%Hl Hu. by destruct (gone l0).
Qed.

Lemma role_update_ok t what rs rs' :
  roles_ok rs -> virt_camera_ticket_ok t = true -> role_update t what rs = Some rs' ->
  roles_ok rs' /\ roles_map rs' = map_set t what (roles_map rs).
Proof.
  intros Hok Ht. pose proof (role_find_spec rs t) as Hf. destruct (ticket_plain t Ht) as [Hlen _]. unfold role_update.
  destruct what as [|role].
  - intros [= <-]. destruct (role_find t rs) as [i|].
    + destruct Hf as (l & Hi & Hu & Hti).
      destruct (drop_lines_ok rs (fun j => bool_decide (j = i)) (<[i := rline_zero]> rs) Hok) as [Hok' Hhas]; [by rewrite length_insert|..].
      { intros j l' Hj. destruct (bool_decide_reflect (j = i)) as [->|]; [|by rewrite list_lookup_insert_ne].
        apply list_lookup_insert_eq. by eapply lookup_lt_Some. }
      split; [done|]. apply roles_map_ext; [done|]. intros t' r. rewrite Hhas. cbn. rewrite lookup_delete_Some, <- (has_role_map rs t' r Hok). split.
      * intros (j & l' & Hj & Hne & H1 & H2 & H3). apply bool_decide_eq_false in Hne. split; [|by exists j, l']. intros <-. apply Hne.
        eapply (ro_unique rs Hok); [exact Hj|exact Hi|done..|by rewrite H2].
      * intros [Hne (j & l' & Hj & H1 & H2 & H3)]. exists j, l'. split_and!; try done. apply bool_decide_eq_false. intros ->. congruence.
    + split; [done|]. cbn. rewrite delete_id; [done|]. destruct (roles_map rs !! t) as [r|] eqn:E; [|done].
      apply (has_role_map rs t r Hok) in E as (i & l & Hi & H1 & H2 & _). by destruct (Hf i l Hi H1).
  - rewrite take_ge by (unfold VIRT_CAMERA_TICKET_MAX; lia).
    assert (Hfree : forall rs1, (forall i l, rs1 !! i = Some l -> rl_in_use l = true -> rs !! i = Some l) ->
      (forall i l, rs !! i = Some l -> rl_ticket l = t -> rs1 !! i = Some l) -> forall i,
      match role_find t rs with Some i => Some i | None => find_idx (fun x => negb (rl_in_use x)) rs1 end = Some i ->
      exists l0, rs1 !! i = Some l0 /\ (rl_in_use l0 = true -> rl_ticket l0 = t) /\ forall j l, rs1 !! j = Some l -> rl_in_use l = true -> rl_ticket l = t -> j = i).
    { intros rs1 H1 H2 i E. destruct (role_find t rs) as [k|].
      - injection E as ->. destruct Hf as (l & Hi & Hu & Hti). exists l. split_and!; [by apply H2|done|].
        intros j l' Hj Hu' Ht'. eapply (ro_unique rs Hok); [by apply H1|exact Hi|done..|by rewrite Ht'].
      - apply find_idx_Some in E as (l & Hi & Hu & _). bool_hyps. exists l. split_and!; [done|congruence|].
        intros j l' Hj Hu' Ht'. by destruct (Hf j l' (H1 j l' Hj Hu') Hu'). }
    destruct role; cbn [bool_decide decide_rel role_eq_dec decide].
    + destruct (match role_find t rs with Some i => _ | None => _ end) as [i|] eqn:Ei; cbn; [|done]. intros [= <-].
      destruct (Hfree rs ltac:(done) ltac:(done) i Ei) as (l0 & Hi & Hl0 & Hown). by eapply put_line_ok.
    + destruct (drop_primaries_ok rs t Hok) as (Hok1 & Hmap & Hprim & Hkeep & Hsub).
      destruct (match role_find t rs with Some i => _ | None => _ end) as [i|] eqn:Ei; cbn; [|done]. intros [= <-].
      destruct (Hfree _ Hsub Hkeep i Ei) as (l0 & Hi & Hl0 & Hown). fold (map_set t (SET_TO VIRT_IAV_ROLE_PRIMARY) (roles_map rs)). rewrite <- Hmap.
      eapply put_line_ok; try done. intros _ j l Hj Hp. apply (Hown j l Hj); [by apply primary_line_true in Hp as []|by eapply Hprim].
Qed.

(** A request fails only when every line is in use. *)
Lemma role_update_none t what rs :
  role_update t what rs = None -> Forall (fun l => rl_in_use l = true) rs /\ exists role, what = SET_TO role.
Proof.
  unfold role_update. destruct what as [|role]; [done|]. intros H. split; [|by exists role].
  destruct (role_find t rs) as [i|]; [done|]. cbn in H. destruct (find_idx _ _) as [i|] eqn:Ef; [done|]. apply Forall_lookup. intros i l Hi.
  destruct (bool_decide (role = VIRT_IAV_ROLE_PRIMARY)).
  - pose proof (proj1 (find_idx_None _ _) Ef i (if primary_line l && negb (str_eq (rl_ticket l) t) then rline_zero else l)) as Hf.
    rewrite negb_false_iff in Hf. unfold drop_other_primaries in Hf. specialize (Hf ltac:(apply list_lookup_fmap_Some; by exists l)).
    by destruct (_ && _).
  - pose proof (proj1 (find_idx_None _ _) Ef i l Hi) as Hf. by apply negb_false_iff.
Qed.

(** ** Saving and loading the roles *)

Definition role_text (g : text * virt_iav_role) : text := fst g ++ [space] ++ virt_iav_role_name (snd g).
Definition role_pair (l : role_line) : option (text * virt_iav_role) := if rl_in_use l then Some (rl_ticket l, rl_role l) else None.

(** The lines that are saved, when they fit. *)
Lemma save_text_spec {A B} (line_of : B -> option text) (pair : B -> option (text * A)) (print : text * A -> text) l buf :
  (forall x, x ∈ l -> line_of x = (fun g => print g ++ [newline]) <$> pair x) ->
  (forall x g, x ∈ l -> pair x = Some g -> (length (print g) <= 57)%nat) -> (length buf + 58 * length l < VIRT_CAMERA_STORE_MAX_BYTES)%nat ->
  save_text line_of l buf = Some (buf ++ store_text print (omap pair l)) /\ (length (store_text print (omap pair l)) <= 58 * length l)%nat.
Proof.
  unfold VIRT_CAMERA_STORE_MAX_BYTES. revert buf. induction l as [|x l IH]; intros buf Hl Hb Hlen; cbn [save_text omap list_omap length] in *;
    [by rewrite app_nil_r|].
  assert (IH' : forall buf, (length buf + 58 * length l < 4096)%nat -> save_text line_of l buf = Some (buf ++ store_text print (omap pair l)) /\
    (length (store_text print (omap pair l)) <= 58 * length l)%nat) by (intros b Hb'; apply IH; [intros y Hy; apply Hl; by right|intros y g Hy; apply Hb; by right|done]). clear IH.
  rewrite (Hl x) by by left. destruct (pair x) as [g|] eqn:Ep; cbn [fmap option_fmap option_map]; [|destruct (IH' buf); [lia|]; split; [done|lia]].
  pose proof (Hb x g ltac:(by left) Ep) as Hg. destruct (IH' (buf ++ print g ++ [newline])) as [-> Hlen']; [rewrite !length_app; cbn [length]; lia|].
  rewrite (length_app (print g)). cbn [length]. rewrite (proj2 (Nat.leb_gt _ _)) by (unfold VIRT_CAMERA_STORE_MAX_BYTES; lia). unfold store_text in *. cbn [map concat]. rewrite !length_app. cbn [length].
  split; [by rewrite <- !app_assoc|lia].
Qed.

(** What a successful parse of all lines guarantees. *)
Lemma load_lines_inv {A} (parse : text -> option (text * A)) (P : text * A -> Prop) fuel s got l :
  (forall line g, parse line = Some g -> P g) -> NoDup (fst <$> got) -> (length got <= VIRT_CAMERA_MAX_ENTRIES)%nat -> Forall P got ->
  load_lines fuel parse s got = Some l -> NoDup (fst <$> l) /\ (length l <= VIRT_CAMERA_MAX_ENTRIES)%nat /\ Forall P l.
Proof.
  intros HP. revert s got. induction fuel as [|fuel IH]; intros s got Hnd Hlen Hf; destruct s as [|c s]; try done; try (intros [= <-]; done).
  cbn [load_lines]. destruct (cut_at newline (c :: s)) as [line rest]. destruct (Nat.leb_spec VIRT_CAMERA_MAX_ENTRIES (length got)); [done|].
  destruct (parse line) as [[t v]|] eqn:Ep; [|done]. destruct (existsb _ got) eqn:Ee; [done|]. apply IH.
  - rewrite fmap_app. cbn. apply NoDup_app. split_and!; [done| |apply NoDup_singleton]. intros x Hx Hin. apply list_elem_of_singleton in Hin as ->.
    apply not_true_iff_false in Ee. apply Ee, existsb_exists. apply list_elem_of_fmap in Hx as (g & Ht & Hg). exists g.
    split; [by apply list_elem_of_In|by apply str_eq_true].
  - rewrite length_app. cbn. lia.
  - apply Forall_app. split; [done|]. apply Forall_singleton. by eapply HP.
Qed.

Lemma role_parse_ticket line g : role_parse_line line = Some g -> virt_camera_ticket_ok (fst g) = true.
Proof.
  unfold role_parse_line. destruct (cut_at space line) as [t [rest|]]; [|done]. destruct (_ || _ || _); [done|].
  destruct (virt_camera_ticket_ok t) eqn:Et; cbn [negb]; [|done]. destruct (str_eq rest _); [by intros [= <-]|]. destruct (str_eq rest _); by intros [= <-].
Qed.

(** The texts of the roles and the overrides have no separator. *)
Definition word_ok (w : text) : Prop := (space ∉ w) /\ (newline ∉ w) /\ (ascii_of_nat 0 ∉ w) /\ (length w <= 8)%nat.

Ltac not_in := apply existsb_elem_of; reflexivity.

Lemma role_name_ok r : word_ok (virt_iav_role_name r).
Proof. destruct r; (split_and!; [not_in|not_in|not_in|cbn; lia]). Qed.

(** A line of a ticket, a space and a word. *)
Lemma line_cut t w : virt_camera_ticket_ok t = true -> word_ok w ->
  cut_at space (t ++ [space] ++ w) = (t, Some w) /\ (newline ∉ t ++ [space] ++ w) /\ t ++ [space] ++ w <> [] /\
  (length (t ++ [space] ++ w) <= 57)%nat /\ (ascii_of_nat 0 ∉ t ++ [space] ++ w) /\ (length t <? 1)%nat = false /\
  (length t =? 0)%nat = false /\ (VIRT_CAMERA_TICKET_MAX <? length t)%nat = false /\ existsb (Ascii.eqb space) w = false.
Proof.
  intros Ht (Hw1 & Hw2 & Hw3 & Hw4). destruct (ticket_plain t Ht) as (Hl & H1 & H2 & H3).
  assert (Hin : forall c, c <> space -> c ∉ t -> c ∉ w -> c ∉ t ++ [space] ++ w).
  { intros c Hc Hct Hcw. rewrite not_elem_of_app. split; [done|]. cbn. by rewrite not_elem_of_cons. }
  split_and!; [by apply cut_at_app|by apply Hin|by destruct t| |by apply Hin|apply Nat.ltb_ge; lia|apply Nat.eqb_neq; lia| |by apply existsb_elem_of].
  - rewrite !length_app. cbn. lia.
  - apply Nat.ltb_ge. unfold VIRT_CAMERA_TICKET_MAX. lia.
Qed.

Lemma role_parse_print g : virt_camera_ticket_ok (fst g) = true -> role_parse_line (role_text g) = Some g.
Proof.
  destruct g as [t r]. cbn [fst]. intros Ht. unfold role_parse_line, role_text. cbn [fst snd].
  destruct (line_cut t (virt_iav_role_name r) Ht (role_name_ok r)) as (-> & _ & _ & _ & _ & -> & _ & -> & ->). cbn [orb]. rewrite Ht. by destruct r.
Qed.

(** The text of a whole store has no NUL. *)
Lemma store_no_nul {A} (print : text * A -> text) l : Forall (fun g => ascii_of_nat 0 ∉ print g) l -> ascii_of_nat 0 ∉ store_text print l.
Proof.
  unfold store_text. induction 1 as [|g l Hg _ IH]; cbn; [apply not_elem_of_nil|]. rewrite !not_elem_of_app. split; [split; [done|not_in]|done].
Qed.

Lemma read_store_ok s : (length s <= VIRT_CAMERA_STORE_MAX_BYTES)%nat -> ascii_of_nat 0 ∉ s -> read_store s = Some s.
Proof.
  intros Hl Hn. unfold read_store. rewrite take_ge by lia. rewrite (proj2 (Nat.ltb_ge _ _) Hl). by rewrite (proj2 (existsb_elem_of _ _) Hn).
Qed.

Lemma omap_length {A B} (f : A -> option B) l : (length (omap f l) <= length l)%nat.
Proof. induction l as [|x l IH]; cbn; [lia|]. destruct (f x); cbn; lia. Qed.

(** The tickets of the lines in use are different. *)
Lemma omap_nodup {A B} (pair : B -> option (text * A)) l :
  (forall i j x y g h, l !! i = Some x -> l !! j = Some y -> pair x = Some g -> pair y = Some h -> fst g = fst h -> i = j) -> NoDup (fst <$> omap pair l).
Proof.
  induction l as [|x l IH]; intros Hu; cbn; [apply NoDup_nil_2|].
  assert (Hl : NoDup (fst <$> omap pair l)).
  { apply IH. intros i j y z g h Hi Hj H1 H2 H3. by pose proof (Hu (S i) (S j) y z g h Hi Hj H1 H2 H3) as [= ->]. }
  destruct (pair x) as [g|] eqn:Ex; [|done]. cbn. apply NoDup_cons. split; [|done]. intros (h & Hh & Hin)%list_elem_of_fmap.
  apply list_elem_of_omap in Hin as (y & Hy & Hp). apply list_elem_of_lookup in Hy as [i Hi].
  by pose proof (Hu 0%nat (S i) x y g h eq_refl Hi Ex Hp Hh).
Qed.

Lemma role_pairs_ok rs :
  roles_ok rs -> let l := omap role_pair rs in
  NoDup (fst <$> l) /\ (length l <= 64)%nat /\ Forall (fun g => virt_camera_ticket_ok (fst g) = true) l /\
  (length (filter (fun g => snd g = VIRT_IAV_ROLE_PRIMARY) l) <= 1)%nat.
Proof.
  intros Hok l. split_and!.
  - apply omap_nodup. intros i j x y g h Hi Hj. unfold role_pair. destruct (rl_in_use x) eqn:E1; [|done]. destruct (rl_in_use y) eqn:E2; [|done].
    intros [= <-] [= <-]. cbn. by eapply (ro_unique rs Hok).
  - etransitivity; [apply omap_length|]. by rewrite (ro_len rs Hok).
  - apply Forall_forall. intros g (x & Hx & Hp)%list_elem_of_omap. apply list_elem_of_lookup in Hx as [i Hi]. unfold role_pair in Hp.
    destruct (rl_in_use x) eqn:E; [|done]. injection Hp as <-. by eapply (ro_ticket rs Hok).
  - pose proof (ro_primary rs Hok) as Hp. subst l. clear Hok. induction rs as [|x rs IH]; cbn; [lia|].
    assert (Htail : forall i j l l', rs !! i = Some l -> rs !! j = Some l' -> primary_line l = true -> primary_line l' = true -> i = j).
    { intros i j l l' Hi Hj H1 H2. by pose proof (Hp (S i) (S j) l l' Hi Hj H1 H2) as [= ->]. }
    specialize (IH Htail). unfold role_pair at 1. destruct (rl_in_use x) eqn:Eu; [|done]. rewrite filter_cons. cbn [snd].
    destruct (decide (rl_role x = VIRT_IAV_ROLE_PRIMARY)) as [Ex|]; [|done]. cbn [length].
    replace (filter _ (omap role_pair rs)) with (@nil (text * virt_iav_role)); [cbn; lia|]. symmetry. apply elem_of_nil_inv. intros g Hg.
    apply list_elem_of_filter in Hg as [Hr (y & Hy & Hpy)%list_elem_of_omap]. apply list_elem_of_lookup in Hy as [i Hi].
    unfold role_pair in Hpy. destruct (rl_in_use y) eqn:Ey; [|done]. injection Hpy as <-. cbn in Hr.
    by pose proof (Hp 0%nat (S i) x y eq_refl Hi (proj2 (primary_line_true x) (conj Eu Ex)) (proj2 (primary_line_true y) (conj Ey Hr))).
Qed.

Lemma roles_of_lines_ok got :
  NoDup (fst <$> got) -> (length got <= 64)%nat -> Forall (fun g => virt_camera_ticket_ok (fst g) = true) got ->
  (length (filter (fun g => snd g = VIRT_IAV_ROLE_PRIMARY) got) <= 1)%nat -> roles_ok (roles_of_lines got).
Proof.
  intros Hnd Hlen Ht Hp. assert (Hlk : forall i l, roles_of_lines got !! i = Some l -> rl_in_use l = true -> exists g, got !! i = Some g /\ l = mk_rline true (fst g) (snd g)).
  { intros i l Hi Hu. unfold roles_of_lines in Hi. apply lookup_app_Some in Hi as [Hi|[_ Hi]].
    - apply list_lookup_fmap_Some in Hi as (g & Hg & ->). by exists g.
    - by apply repeat_lookup in Hi as ->. }
  split.
  - unfold roles_of_lines. rewrite length_app, length_map, repeat_length. unfold VIRT_CAMERA_MAX_ENTRIES. lia.
  - intros i l Hi Hu. destruct (Hlk i l Hi Hu) as (g & Hg & ->). by apply (proj1 (Forall_lookup _ _) Ht i).
  - intros i j l l' Hi Hj H1 H2 H3. destruct (Hlk i l Hi H1) as (g & Hg & ->), (Hlk j l' Hj H2) as (h & Hh & ->). cbn in H3.
    eapply (NoDup_lookup _ i j); [exact Hnd|by rewrite list_lookup_fmap, Hg|by rewrite list_lookup_fmap, Hh, H3].
  - intros i j l l' Hi Hj H1 H2. apply primary_line_true in H1 as [H1 R1], H2 as [H2 R2].
    destruct (Hlk i l Hi H1) as (g & Hg & ->), (Hlk j l' Hj H2) as (h & Hh & ->). cbn in R1, R2. clear -Hp Hg Hh R1 R2.
    revert i j Hg Hh. induction got as [|x got IH]; intros i j Hg Hh; [done|]. rewrite filter_cons in Hp.
    destruct i as [|i], j as [|j]; cbn in Hg, Hh; [done| | |f_equal; apply IH; try done; destruct (decide _); cbn in Hp; lia].
    1: injection Hg as ->; rewrite decide_True in Hp by done. 2: injection Hh as ->; rewrite decide_True in Hp by done.
    all: cbn in Hp; exfalso; assert (Hnil : filter (fun g => snd g = VIRT_IAV_ROLE_PRIMARY) got = []) by (apply length_zero_iff_nil; lia).
    1: apply (elem_of_nil h); rewrite <- Hnil; apply list_elem_of_filter; split; [done|by eapply list_elem_of_lookup_2].
    1: apply (elem_of_nil g); rewrite <- Hnil; apply list_elem_of_filter; split; [done|by eapply list_elem_of_lookup_2].
Qed.

Lemma roles_map_zeros rs n : roles_map (rs ++ repeat rline_zero n) = roles_map rs.
Proof.
  induction rs as [|l rs IH]; cbn; [|by rewrite IH]. induction n as [|n IH]; cbn; done.
Qed.

Lemma roles_map_lines rs : roles_map (roles_of_lines (omap role_pair rs)) = roles_map rs.
Proof.
  unfold roles_of_lines. rewrite roles_map_zeros. induction rs as [|l rs IH]; cbn; [done|]. unfold role_pair at 1. destruct (rl_in_use l); cbn; by rewrite IH.
Qed.

Definition roles_text (rs : list role_line) : text := store_text role_text (omap role_pair rs).

Lemma role_save_text rs : roles_ok rs -> save_text role_store_line rs [] = Some (roles_text rs) /\ (length (roles_text rs) <= 4096)%nat.
Proof.
  intros Hok. pose proof (ro_len rs Hok) as Hlen. unfold VIRT_CAMERA_MAX_ENTRIES in Hlen.
  destruct (save_text_spec role_store_line role_pair role_text rs []) as [E Hl].
  - intros x _. unfold role_store_line, role_pair, role_text. destruct (rl_in_use x); [|done]. cbn. by rewrite <- app_assoc.
  - intros x g Hx Hg. apply list_elem_of_lookup in Hx as [i Hi]. unfold role_pair in Hg. destruct (rl_in_use x) eqn:Eu; [|done]. injection Hg as <-.
    by apply (line_cut (rl_ticket x) _ (ro_ticket rs Hok i x Hi Eu) (role_name_ok (rl_role x))).
  - rewrite Hlen. unfold VIRT_CAMERA_STORE_MAX_BYTES. cbn. lia.
  - split; [done|]. unfold roles_text. lia.
Qed.

(** The saved table is read back. *)
Lemma role_load_saved rs path d :
  roles_ok rs -> d !! path = Some (roles_text rs) ->
  exists rs', role_load_locked None path d = (ROLES_VALID, rs') /\ roles_ok rs' /\ roles_map rs' = roles_map rs.
Proof.
  intros Hok Hd. destruct (role_pairs_ok rs Hok) as (Hnd & Hlen & Ht & Hp). destruct (role_save_text rs Hok) as [_ Hl].
  exists (roles_of_lines (omap role_pair rs)). split; [|split; [by apply roles_of_lines_ok|apply roles_map_lines]].
  unfold role_load_locked, fopen. rewrite Hd. rewrite read_store_ok; [|done|].
  - unfold roles_text. rewrite (load_lines_print role_parse_line role_text _ []); [|..|done]; cbn [app].
    + rewrite (proj2 (Nat.ltb_ge _ _)) by lia. done.
    + eapply Forall_impl; [exact Ht|]. intros g Hg. split; [by apply role_parse_print|].
      destruct (line_cut (fst g) _ Hg (role_name_ok (snd g))) as (_ & ? & ? & _). done.
    + done.
    + unfold VIRT_CAMERA_MAX_ENTRIES. cbn. lia.
  - apply store_no_nul. eapply Forall_impl; [exact Ht|]. intros g Hg. by apply (line_cut (fst g) _ Hg (role_name_ok (snd g))).
Qed.

(** Whatever the store holds, the table that is loaded is well formed. *)
Lemma role_load_ok err path d st rs : role_load_locked err path d = (st, rs) -> roles_ok rs.
Proof.
  assert (Hz : roles_ok roles_zero).
  { split; [done|..]; intros i; [intros l Hi|intros j l l' Hi _|intros j l l' Hi _ Hp]; apply repeat_lookup in Hi as ->; done. }
  unfold role_load_locked. destruct (fopen err path d) as [e|s]; [by intros [= _ <-]|]. destruct (read_store s) as [buf|]; [|by intros [= _ <-]].
  destruct (load_lines _ _ _ _) as [got|] eqn:El; [|by intros [= _ <-]]. destruct (Nat.ltb_spec 1 (length (filter (fun g => snd g = VIRT_IAV_ROLE_PRIMARY) got))) as [|Hp]; intros [= _ <-]; [done|].
  apply (load_lines_inv _ (fun g => virt_camera_ticket_ok (fst g) = true)) in El as (H1 & H2 & H3);
    [by apply roles_of_lines_ok|apply role_parse_ticket|apply NoDup_nil_2|cbn; unfold VIRT_CAMERA_MAX_ENTRIES; lia|done].
Qed.

(** ** The entries by ticket *)

Record entries_ok (es : list entry) : Prop := {
  eo_len : length es = VIRT_CAMERA_MAX_ENTRIES;
  eo_ticket : forall i e, es !! i = Some e -> en_in_use e = true -> virt_camera_ticket_ok (en_ticket e) = true;
  eo_unique : forall i j e e', es !! i = Some e -> es !! j = Some e' -> en_in_use e = true -> en_in_use e' = true -> en_ticket e = en_ticket e' -> i = j;
}.

Definition entry_at (es : list entry) (t : text) : option entry := find_entry t es ≫= (fun i => es !! i).

(** What the policy holds for a ticket. *)
Definition override_of (es : list entry) (t : text) : camera_override := from_option en_override OV_INHERIT (entry_at es t).
Definition intent_of (es : list entry) (t : text) : option virt_camera_intent := e ← entry_at es t; if en_seen e then Some (en_last e) else None.

Lemma find_entry_spec es t :
  match find_entry t es with
  | Some i => exists e, es !! i = Some e /\ en_in_use e = true /\ en_ticket e = t /\ entry_at es t = Some e
  | None => entry_at es t = None /\ forall i e, es !! i = Some e -> en_in_use e = true -> en_ticket e <> t
  end.
Proof.
  unfold entry_at, find_entry. destruct (find_idx _ es) as [i|] eqn:E; cbn.
  - apply find_idx_Some in E as (e & He & Ht & _). bool_hyps. apply str_eq_true in H0. by exists e.
  - split; [done|]. intros i e Hi Hu Ht. pose proof (proj1 (find_idx_None _ _) E i e Hi) as Hf. cbv beta in Hf. by rewrite Hu, Ht, str_eq_refl in Hf.
Qed.

Lemma entry_at_iff es t e : entries_ok es -> entry_at es t = Some e <-> exists i, es !! i = Some e /\ en_in_use e = true /\ en_ticket e = t.
Proof.
  intros Hok. pose proof (find_entry_spec es t) as Hf. destruct (find_entry t es) as [i|].
  - destruct Hf as (e0 & Hi & Hu & Ht & ->). split; [intros [= <-]; by exists i|]. intros (j & Hj & Hu' & Ht').
    pose proof (eo_unique es Hok i j e0 e Hi Hj Hu Hu' ltac:(congruence)) as <-. congruence.
  - destruct Hf as [-> Hf]. split; [done|]. intros (j & Hj & Hu & Ht). by destruct (Hf j e Hj Hu).
Qed.

(** Writing the slot of a ticket, or a free one when the ticket has none. *)
Lemma entry_put es i e0 e' t :
  entries_ok es -> es !! i = Some e0 -> (en_in_use e0 = true -> en_ticket e0 = t) ->
  (forall j e, es !! j = Some e -> en_in_use e = true -> en_ticket e = t -> j = i) ->
  (en_in_use e' = true -> en_ticket e' = t /\ virt_camera_ticket_ok t = true) ->
  entries_ok (<[i := e']> es) /\
  forall t', entry_at (<[i := e']> es) t' = if decide (t' = t) then (if en_in_use e' then Some e' else None) else entry_at es t'.
Proof.
  intros Hok Hi H0 Hown He'. assert (Hok' : entries_ok (<[i := e']> es)).
  { split; [rewrite length_insert; apply Hok|..].
    - intros j e [[-> ->]|[Hne Hj]]%lookup_insert_inv Hu; [by destruct (He' Hu) as [-> ?]|]. by eapply (eo_ticket es Hok).
    - intros j k e e1 [[-> ->]|[Hj Hjl]]%lookup_insert_inv [[-> ->]|[Hk Hkl]]%lookup_insert_inv H1 H2 H3; [done| | |by eapply (eo_unique es Hok)].
      + destruct (He' H1) as [Et _]. by destruct (Hk (Hown k e1 Hkl H2 ltac:(congruence))).
      + destruct (He' H2) as [Et _]. by destruct (Hj (Hown j e Hjl H1 ltac:(congruence))). }
  split; [done|]. intros t'. apply option_eq. intros e. rewrite (entry_at_iff _ _ _ Hok').
  assert (Hat : <[i := e']> es !! i = Some e') by (apply list_lookup_insert_eq; by eapply lookup_lt_Some).
  destruct (decide (t' = t)) as [->|Hne].
  - split.
    + intros (j & [[-> ->]|[Hj Hjl]]%lookup_insert_inv & H1 & H2); [by rewrite H1|]. by destruct (Hj (Hown j e Hjl H1 H2)).
    + destruct (en_in_use e') eqn:Eu; [|done]. intros [= <-]. exists i. split_and!; [done..|]. by apply He'.
  - rewrite (entry_at_iff _ _ _ Hok). split.
    + intros (j & [[-> ->]|[Hj Hjl]]%lookup_insert_inv & H1 & H2); [by destruct (He' H1); congruence|by exists j].
    + intros (j & Hj & H1 & H2). exists j. split; [|done]. destruct (decide (j = i)) as [->|]; [|by rewrite list_lookup_insert_ne].
      rewrite Hi in Hj. injection Hj as ->. by rewrite H0 in H2 by done.
Qed.

Lemma alter_as_insert {A} (f : A -> A) (l : list A) i x : l !! i = Some x -> alter f i l = <[i := f x]> l.
Proof. revert i. induction l as [|y l IH]; intros [|i] H; cbn in *; simplify_eq; [done|]. by f_equal; apply IH. Qed.

(** Changing the entry a ticket has. *)
Lemma entry_alter es i e t (f : entry -> entry) :
  entries_ok es -> es !! i = Some e -> en_in_use e = true -> en_ticket e = t -> (en_in_use (f e) = true -> en_ticket (f e) = t) ->
  entries_ok (alter f i es) /\
  forall t', entry_at (alter f i es) t' = if decide (t' = t) then (if en_in_use (f e) then Some (f e) else None) else entry_at es t'.
Proof.
  intros Hok Hi Hu Ht Hf. rewrite (alter_as_insert f es i e Hi). eapply entry_put; [done|done|done| |].
  - intros j e1 Hj H1 H2. eapply (eo_unique es Hok); [exact Hj|exact Hi|done..|congruence].
  - intros H. split; [by apply Hf|]. rewrite <- Ht. by eapply (eo_ticket es Hok).
Qed.

Definition entry_new (t : text) : entry := mk_entry true t OV_INHERIT false VIRT_CAMERA_INTENT_ABSENT.

Lemma add_entry_ok t es i es' :
  entries_ok es -> virt_camera_ticket_ok t = true -> entry_at es t = None -> add_entry t es = Some (i, es') ->
  entries_ok es' /\ es' !! i = Some (entry_new t) /\ forall t', entry_at es' t' = if decide (t' = t) then Some (entry_new t) else entry_at es t'.
Proof.
  intros Hok Ht Hn. unfold add_entry. destruct (find_idx _ es) as [k|] eqn:Ek; [|done]. intros [= <- <-].
  apply find_idx_Some in Ek as (e0 & Hk & Hu & _). bool_hyps. destruct (ticket_plain t Ht) as [Hl _]. unfold snprintf, VIRT_CAMERA_TICKET_MAX.
  rewrite take_ge by lia. fold (entry_new t). destruct (entry_put es k e0 (entry_new t) t) as [H1 H2]; try done; [congruence| |].
  - intros j e Hj Hje Hjt. assert (entry_at es t = Some e); [|congruence]. apply entry_at_iff; [done|]. by exists j.
  - split; [done|]. split; [|done]. apply list_lookup_insert_eq. by eapply lookup_lt_Some.
Qed.

Lemma find_or_add_ok t es i es' :
  entries_ok es -> virt_camera_ticket_ok t = true -> find_or_add t es = Some (i, es') ->
  entries_ok es' /\ exists e, es' !! i = Some e /\ en_in_use e = true /\ en_ticket e = t /\ entry_at es' t = Some e /\
    (entry_at es t = Some e \/ entry_at es t = None /\ e = entry_new t) /\ forall t', t' <> t -> entry_at es' t' = entry_at es t'.
Proof.
  intros Hok Ht. unfold find_or_add. pose proof (find_entry_spec es t) as Hf. destruct (find_entry t es) as [k|].
  - intros [= <- <-]. destruct Hf as (e & H1 & H2 & H3 & H4). split; [done|]. exists e. split_and!; auto.
  - destruct Hf as [Hn _]. intros E. destruct (add_entry_ok t es i es' Hok Ht Hn E) as (H1 & H2 & H3). split; [done|].
    exists (entry_new t). split_and!; try done; [by rewrite H3, decide_True|by right|]. intros t' Hne. by rewrite H3, decide_False.
Qed.

(** ** The store of the overrides *)

Definition cleared (e : entry) : option entry := if en_seen e then Some (with_override OV_INHERIT e) else None.

Lemma clear_overrides_ok es :
  entries_ok es -> entries_ok (clear_overrides es) /\ forall t, entry_at (clear_overrides es) t = entry_at es t ≫= cleared.
Proof.
  intros Hok. assert (Hlk : forall i e', clear_overrides es !! i = Some e' -> en_in_use e' = true ->
    exists e, es !! i = Some e /\ en_in_use e = true /\ en_ticket e' = en_ticket e /\ cleared e = Some e').
  { intros i e' Hi Hu. apply lookup_map_inv in Hi as (e & Hi & ->). destruct (en_in_use e) eqn:Eu; cbn in *; [|congruence].
    exists e. revert Hu. unfold drop_if_idle, cleared. destruct (en_seen e) eqn:Es; cbn; rewrite Es; cbn; done. }
  assert (Hok' : entries_ok (clear_overrides es)).
  { split; [unfold clear_overrides; rewrite length_map; apply Hok|..].
    - intros i e' Hi Hu. destruct (Hlk i e' Hi Hu) as (e & Hi' & Hu' & -> & _). by eapply (eo_ticket es Hok).
    - intros i j e e' Hi Hj H1 H2 H3. destruct (Hlk i e Hi H1) as (x & Hx & Hxu & Ex & _), (Hlk j e' Hj H2) as (y & Hy & Hyu & Ey & _).
      eapply (eo_unique es Hok); [exact Hx|exact Hy|done..|congruence]. }
  split; [done|]. intros t. apply option_eq. intros e'. rewrite (entry_at_iff _ _ _ Hok'). split.
  - intros (i & Hi & Hu & Ht). destruct (Hlk i e' Hi Hu) as (e & He & Heu & Et & Hc). apply bind_Some. exists e. split; [|done].
    apply entry_at_iff; [done|]. exists i. by rewrite <- Et.
  - intros (e & He & Hc)%bind_Some. apply entry_at_iff in He as (i & Hi & Hu & Ht); [|done]. exists i. unfold cleared in Hc.
    destruct (en_seen e) eqn:Es; [|done]. injection Hc as <-. split; [|done].
    unfold clear_overrides. rewrite list_lookup_fmap, Hi. cbn. rewrite Hu. cbn. unfold drop_if_idle. cbn. by rewrite Es.
Qed.

(** Free slots. *)
Definition free_slots (es : list entry) : nat := length (filter (fun e => en_in_use e = false) es).

Lemma free_insert es i e e' :
  es !! i = Some e -> en_in_use e' = true -> free_slots es = (free_slots (<[i := e']> es) + (if en_in_use e then 0 else 1))%nat.
Proof.
  unfold free_slots. revert i. induction es as [|x es IH]; intros [|i] Hi He'; cbn in Hi; simplify_eq; cbn [insert list_insert]; rewrite !filter_cons.
  - rewrite (decide_False (P := en_in_use e' = false)) by congruence. destruct (en_in_use e); [rewrite decide_False by done|rewrite decide_True by done]; cbn; lia.
  - specialize (IH i Hi He'). destruct (decide (en_in_use x = false)); [cbn; f_equal|]; exact IH.
Qed.

Lemma add_entry_free t es : (0 < free_slots es)%nat -> exists i es', add_entry t es = Some (i, es') /\ free_slots es = S (free_slots es').
Proof.
  intros Hf. unfold add_entry. destruct (find_idx _ es) as [i|] eqn:E.
  - apply find_idx_Some in E as (e & Hi & Hu & _). bool_hyps. set (e' := mk_entry true _ _ _ _). exists i, (<[i := e']> es).
    split; [done|]. rewrite (free_insert es i e e' Hi eq_refl), Hu. lia.
  - exfalso. unfold free_slots in Hf. destruct (filter _ es) as [|e l] eqn:El; [cbn in Hf; lia|].
    assert (Hin : e ∈ filter (fun e => en_in_use e = false) es) by (rewrite El; by left). apply list_elem_of_filter in Hin as [Hu Hin].
    apply list_elem_of_lookup in Hin as [i Hi]. pose proof (proj1 (find_idx_None _ _) E i e Hi) as Hn. cbv beta in Hn. by rewrite Hu in Hn.
Qed.

(** The overrides that were read are in force afterwards, and nothing else changed. *)
Lemma put_overrides_ok got es ok es' :
  entries_ok es -> Forall (fun g => virt_camera_ticket_ok (fst g) = true) got -> put_overrides got es = (ok, es') ->
  entries_ok es' /\ (forall t, intent_of es' t = intent_of es t) /\
  (ok = true -> NoDup (fst <$> got) -> forall t, override_of es' t = default (override_of es t) ((list_to_map got : gmap text camera_override) !! t)).
Proof.
  intros Hok Ht. revert es Hok. induction Ht as [|[t ov] got Htk Hgot IH]; intros es Hok; cbn [put_overrides]; [by intros [= <- <-]|].
  destruct (find_or_add t es) as [[i es1]|] eqn:Ef; [|by intros [= <- <-]]. intros E. cbn [fst] in Htk.
  destruct (find_or_add_ok t es i es1 Hok Htk Ef) as (Hok1 & e & Hi & Hu & Et & He & Hold & Hoth).
  destruct (entry_alter es1 i e t (with_override ov) Hok1 Hi Hu Et ltac:(done)) as [Hok2 Hat]. cbn in Hat. rewrite Hu in Hat.
  destruct (IH _ Hok2 E) as (H1 & H2 & H3). split; [done|]. split.
  - intros t'. rewrite H2. unfold intent_of. rewrite Hat. destruct (decide (t' = t)) as [->|Hne]; [|by rewrite Hoth].
    cbn. destruct Hold as [->|[-> ->]]; done.
  - intros -> Hnd t'. cbn in Hnd. apply NoDup_cons in Hnd as [Hnin Hnd]. rewrite (H3 eq_refl Hnd t'). unfold override_of at 1. rewrite Hat. cbn.
    destruct (decide (t' = t)) as [->|Hne].
    + rewrite lookup_insert_eq. cbn. by rewrite (not_elem_of_list_to_map_1 got t Hnin).
    + rewrite lookup_insert_ne by done. unfold override_of. by rewrite Hoth.
Qed.

Lemma put_overrides_room got es ok es' : put_overrides got es = (ok, es') -> (length got <= free_slots es)%nat -> ok = true.
Proof.
  revert es. induction got as [|[t ov] got IH]; intros es; cbn [put_overrides]; [by intros [= <- _]|]. unfold find_or_add. cbn [length].
  pose proof (find_entry_spec es t) as Hf. destruct (find_entry t es) as [i|].
  - destruct Hf as (e & Hi & Hu & _). intros E Hl. apply (IH _ E). rewrite (alter_as_insert _ _ _ _ Hi).
    rewrite (free_insert es i e (with_override ov e) Hi Hu) in Hl. rewrite Hu in Hl. lia.
  - intros E Hl. destruct (add_entry_free t es ltac:(lia)) as (i & es1 & Ea & Ef). rewrite Ea in E. apply (IH _ E).
    unfold add_entry in Ea. destruct (find_idx _ es) as [k|] eqn:Ek; [|done]. injection Ea as <- <-.
    apply find_idx_Some in Ek as (e & Hk & _). pose proof (lookup_lt_Some _ _ _ Hk) as Hlt.
    set (e' := mk_entry true _ _ _ _) in *. pose proof (list_lookup_insert_eq es k e' Hlt) as Hk'.
    rewrite (alter_as_insert _ _ _ _ Hk'). rewrite (free_insert _ k e' (with_override ov e') Hk' eq_refl) in Ef. cbn in Ef. lia.
Qed.

Definition camera_text (g : text * camera_override) : text := fst g ++ [space] ++ (if bool_decide (snd g = OV_ON) then lit "on" else lit "off").
Definition entry_pair (e : entry) : option (text * camera_override) :=
  if negb (en_in_use e) || bool_decide (en_override e = OV_INHERIT) then None else Some (en_ticket e, en_override e).
Definition entries_text (es : list entry) : text := store_text camera_text (omap entry_pair es).

Lemma entry_pair_some e g : entry_pair e = Some g <-> en_in_use e = true /\ en_override e <> OV_INHERIT /\ g = (en_ticket e, en_override e).
Proof.
  unfold entry_pair. destruct (en_in_use e); cbn; [|by split; [|intros []]].
  destruct (bool_decide_reflect (en_override e = OV_INHERIT)); [by split; [|intros (_ & ? & _)]|]. split; [by intros [= <-]|]. by intros (_ & _ & ->).
Qed.

Lemma on_off_ok ov : word_ok (if bool_decide (ov = OV_ON) then lit "on" else lit "off").
Proof. destruct (bool_decide _); (split_and!; [not_in|not_in|not_in|cbn; lia]). Qed.

Lemma entry_pairs_ok es :
  entries_ok es -> let l := omap entry_pair es in
  NoDup (fst <$> l) /\ (length l <= 64)%nat /\ Forall (fun g => virt_camera_ticket_ok (fst g) = true /\ snd g <> OV_INHERIT) l /\
  forall t, (list_to_map l : gmap text camera_override) !! t = if bool_decide (override_of es t = OV_INHERIT) then None else Some (override_of es t).
Proof.
  intros Hok l. assert (Hnd : NoDup (fst <$> l)).
  { apply omap_nodup. intros i j x y g h Hi Hj (H1 & _ & ->)%entry_pair_some (H2 & _ & ->)%entry_pair_some. cbn. by eapply (eo_unique es Hok). }
  split_and!; [done| | |].
  - etransitivity; [apply omap_length|]. by rewrite (eo_len es Hok).
  - apply Forall_forall. intros g (e & He & (H1 & H2 & ->)%entry_pair_some)%list_elem_of_omap. apply list_elem_of_lookup in He as [i Hi].
    split; [by eapply (eo_ticket es Hok)|done].
  - intros t. apply option_eq. intros ov. rewrite <- elem_of_list_to_map by done. unfold l. rewrite list_elem_of_omap. unfold override_of. split.
    + intros (e & He & (H1 & H2 & [= -> ->])%entry_pair_some). apply list_elem_of_lookup in He as [i Hi].
      assert (entry_at es (en_ticket e) = Some e) as -> by (apply entry_at_iff; [done|]; by exists i). cbn. by rewrite bool_decide_eq_false_2.
    + destruct (entry_at es t) as [e|] eqn:Ee; cbn; [|done]. destruct (bool_decide_reflect (en_override e = OV_INHERIT)); [done|]. intros [= <-].
      apply entry_at_iff in Ee as (i & Hi & Hu & <-); [|done]. exists e. split; [by eapply list_elem_of_lookup_2|]. by apply entry_pair_some.
Qed.

Lemma camera_save_text es : entries_ok es -> save_text entry_line es [] = Some (entries_text es) /\ (length (entries_text es) <= 4096)%nat.
Proof.
  intros Hok. pose proof (eo_len es Hok) as Hlen. unfold VIRT_CAMERA_MAX_ENTRIES in Hlen.
  destruct (save_text_spec entry_line entry_pair camera_text es []) as [E Hl].
  - intros x _. unfold entry_line, entry_pair, camera_text. destruct (_ || _); [done|]. cbn. by rewrite <- app_assoc.
  - intros x g Hx (H1 & _ & ->)%entry_pair_some. apply list_elem_of_lookup in Hx as [i Hi].
    by apply (line_cut (en_ticket x) _ (eo_ticket es Hok i x Hi H1) (on_off_ok (en_override x))).
  - rewrite Hlen. unfold VIRT_CAMERA_STORE_MAX_BYTES. cbn. lia.
  - split; [done|]. unfold entries_text. lia.
Qed.

Lemma parse_line_print g : virt_camera_ticket_ok (fst g) = true /\ snd g <> OV_INHERIT -> parse_line (camera_text g) = Some g.
Proof.
  destruct g as [t ov]. cbn [fst snd]. intros [Ht Hov]. unfold parse_line, camera_text. cbn [fst snd].
  destruct (line_cut t _ Ht (on_off_ok ov)) as (-> & _ & _ & _ & _ & Hl & -> & -> & ->).
  assert ((length (t ++ [space] ++ (if bool_decide (ov = OV_ON) then lit "on" else lit "off")) <? 1)%nat = false) as ->.
  { apply Nat.ltb_ge. rewrite length_app. apply Nat.ltb_ge in Hl. lia. }
  cbn [orb]. rewrite Ht. by destruct ov.
Qed.

Lemma parse_line_ticket line g : parse_line line = Some g -> virt_camera_ticket_ok (fst g) = true.
Proof.
  unfold parse_line. destruct (_ <? _)%nat; [done|]. destruct (cut_at space line) as [t [rest|]]; [|done]. destruct (existsb _ _); [done|].
  destruct (_ || _); [done|]. destruct (virt_camera_ticket_ok t) eqn:Et; cbn [negb]; [|done].
  destruct (str_eq rest _); [by intros [= <-]|]. destruct (str_eq rest _); by intros [= <-].
Qed.

(** The table of a server that starts. *)
Lemma fresh_entries : entries_ok (repeat entry_zero VIRT_CAMERA_MAX_ENTRIES) /\ forall t, entry_at (repeat entry_zero VIRT_CAMERA_MAX_ENTRIES) t = None.
Proof.
  assert (Hz : entries_ok (repeat entry_zero VIRT_CAMERA_MAX_ENTRIES)).
  { split; [done|..]; intros i; [intros l Hi|intros j l l' Hi _]; apply repeat_lookup in Hi as ->; done. }
  split; [done|]. intros t. destruct (entry_at _ t) as [e|] eqn:Ee; [|done]. apply (entry_at_iff _ _ _ Hz) in Ee as (i & Hi & Hu & _).
  by apply repeat_lookup in Hi as ->.
Qed.

(** The saved overrides are read back by a server that starts. *)
Lemma camera_load_saved es path d :
  entries_ok es -> d !! path = Some (entries_text es) ->
  exists es', load_locked None path d (repeat entry_zero VIRT_CAMERA_MAX_ENTRIES) = (true, es') /\ forall t, override_of es' t = override_of es t.
Proof.
  intros Hok Hd. destruct (entry_pairs_ok es Hok) as (Hnd & Hlen & Ht & Hmap). destruct (camera_save_text es Hok) as [_ Hl].
  unfold load_locked, fopen. rewrite Hd. change (clear_overrides (repeat entry_zero VIRT_CAMERA_MAX_ENTRIES)) with (repeat entry_zero VIRT_CAMERA_MAX_ENTRIES).
  rewrite read_store_ok; [|done|].
  - unfold entries_text. rewrite (load_lines_print parse_line camera_text _ []); [|..|done]; cbn [app].
    + destruct (put_overrides _ _) as [ok es'] eqn:Ep. exists es'.
      assert (ok = true) as -> by (eapply put_overrides_room; [exact Ep|exact Hlen]). split; [done|]. intros t.
      destruct fresh_entries as [Hz Hnone].
      assert (Ht' : Forall (fun g => virt_camera_ticket_ok (fst g) = true) (omap entry_pair es)) by (eapply Forall_impl; [exact Ht|by intros ? []]).
      destruct (put_overrides_ok _ _ _ _ Hz Ht' Ep) as (_ & _ & H). rewrite (H eq_refl Hnd t), Hmap.
      destruct (bool_decide_reflect (override_of es t = OV_INHERIT)) as [->|]; [|done]. unfold override_of. by rewrite Hnone.
    + eapply Forall_impl; [exact Ht|]. intros g Hg. split; [by apply parse_line_print|].
      destruct (line_cut (fst g) _ (proj1 Hg) (on_off_ok (snd g))) as (_ & ? & ? & _). done.
    + done.
    + unfold VIRT_CAMERA_MAX_ENTRIES. cbn. lia.
  - apply store_no_nul. eapply Forall_impl; [exact Ht|]. intros g Hg. by apply (line_cut (fst g) _ (proj1 Hg) (on_off_ok (snd g))).
Qed.

(** ** The invariant of the policy *)

Record pol_ok (p : policy) : Prop := {
  po_entries : entries_ok (g_entries p);
  po_roles : roles_ok (g_roles p);
  po_store : (length (g_store p) < 248)%nat;
  po_role_store : (length (g_role_store p) < 248)%nat;
}.

(** SET_CAMERA: the overrides of the other tickets and all intents stay; the override changes exactly when the reply
    is OK, and then the store holds the new table if there was anything to write. *)
Definition camera_kept (p p' : policy) : Prop :=
  p' = set_entries (g_entries p') p /\ forall t, intent_of (g_entries p') t = intent_of (g_entries p) t.

Lemma camera_kept_refl p : camera_kept p p.
Proof. split; [by destruct p|done]. Qed.

Lemma drop_view e :
  en_in_use e = true ->
  from_option en_override OV_INHERIT (if en_in_use (drop_if_idle e) then Some (drop_if_idle e) else None) = en_override e /\
  ((if en_in_use (drop_if_idle e) then Some (drop_if_idle e) else None) ≫= (fun e => if en_seen e then Some (en_last e) else None)) =
    (if en_seen e then Some (en_last e) else None) /\
  (en_in_use (drop_if_idle e) = true -> en_ticket (drop_if_idle e) = en_ticket e).
Proof.
  intros Hu. unfold drop_if_idle. destruct (bool_decide_reflect (en_override e = OV_INHERIT)) as [Eo|]; cbn.
  - destruct (en_seen e) eqn:Es; cbn; rewrite ?Hu; cbn; rewrite ?Es, ?Eo; done.
  - rewrite Hu. done.
Qed.

(** Rewriting the entry of a ticket and dropping it if it is idle. *)
Lemma entry_drop es i e1 e2 t f :
  entries_ok es -> es !! i = Some e1 -> en_in_use e1 = true -> en_ticket e1 = t -> f e1 = drop_if_idle e2 -> en_in_use e2 = true -> en_ticket e2 = t ->
  entries_ok (alter f i es) /\
  forall t', override_of (alter f i es) t' = (if decide (t' = t) then en_override e2 else override_of es t') /\
             intent_of (alter f i es) t' = (if decide (t' = t) then (if en_seen e2 then Some (en_last e2) else None) else intent_of es t').
Proof.
  intros Hok Hi Hu Ht Ef Hu2 Ht2. destruct (drop_view e2 Hu2) as (V1 & V2 & V3).
  destruct (entry_alter es i e1 t f Hok Hi Hu Ht) as [Hok' Hat]; [rewrite Ef; intros H; by rewrite V3|]. rewrite Ef in Hat. split; [done|].
  intros t'. unfold override_of, intent_of. rewrite Hat. destruct (decide (t' = t)); done.
Qed.

(** The slot SET_CAMERA writes holds the entry of the ticket. *)
Lemma camera_slot p t ov i es :
  entries_ok (g_entries p) -> virt_camera_ticket_ok t = true ->
  (match find_entry t (g_entries p) with Some i => Some (i, g_entries p) | None => if bool_decide (ov = OV_INHERIT) then None else add_entry t (g_entries p) end) = Some (i, es) ->
  entries_ok es /\ exists e, es !! i = Some e /\ en_in_use e = true /\ en_ticket e = t /\ entry_at es t = Some e /\
    (forall t', override_of es t' = override_of (g_entries p) t' /\ intent_of es t' = intent_of (g_entries p) t').
Proof.
  intros Hes Ht E. assert (Ef : find_or_add t (g_entries p) = Some (i, es)).
  { unfold find_or_add. destruct (find_entry t (g_entries p)); [done|]. by destruct (bool_decide _). }
  destruct (find_or_add_ok t _ i es Hes Ht Ef) as (H1 & e & H2 & H3 & H4 & H5 & H6 & H7). split; [done|]. exists e. split_and!; try done.
  intros t'. unfold override_of, intent_of. destruct (decide (t' = t)) as [->|Hne]; [|by rewrite H7]. rewrite H5. destruct H6 as [->|[-> ->]]; done.
Qed.

Lemma set_camera_ok r t ov n p d resp p' d' :
  pol_ok p -> virt_camera_ticket_ok t = true -> set_camera r t ov n p d = (resp, p', d') ->
  pol_ok p' /\ camera_kept p p' /\
  (resp = reply n "OK" /\ (forall t', override_of (g_entries p') t' = if decide (t' = t) then ov else override_of (g_entries p) t') /\
     (ov <> OV_INHERIT -> exists es, entries_ok es /\ (forall t', override_of es t' = override_of (g_entries p') t') /\ d' !! g_store p = Some (entries_text es)) \/
   resp = reply n "ERR PERSIST" /\ (forall t', override_of (g_entries p') t' = override_of (g_entries p) t') /\ d' !! g_store p = d !! g_store p).
Proof.
  intros [Hes Hrs Hst Hrst] Ht. unfold set_camera. pose proof (find_entry_spec (g_entries p) t) as Hf. pose proof (camera_slot p t ov) as Hslot.
  destruct (match find_entry t (g_entries p) with Some i => _ | None => _ end) as [[i es]|] eqn:Es.
  2:{ intros [= <- <- <-]. split; [done|]. split; [apply camera_kept_refl|]. destruct (bool_decide_reflect (ov = OV_INHERIT)) as [->|]; [left|by right].
      split_and!; [done| |done]. intros t'. destruct (decide (t' = t)) as [->|]; [|done].
      destruct (find_entry t (g_entries p)) as [i|]; [done|]. destruct Hf as [Hn _]. unfold override_of. by rewrite Hn. }
  destruct (Hslot i es Hes Ht eq_refl) as (Hok & e & Hi & Hu & Et & He & Hsame). clear Hslot Hf Es. rewrite Hi. cbn [from_option].
  set (es1 := alter (with_override ov) i es).
  destruct (entry_alter es i e t (with_override ov) Hok Hi Hu Et ltac:(done)) as [Hok1 Hat1]. fold es1 in Hok1, Hat1. cbn in Hat1. rewrite Hu in Hat1.
  assert (Hi1 : es1 !! i = Some (with_override ov e)) by (unfold es1; by rewrite list_lookup_alter_eq, Hi).
  assert (Hov1 : forall t', override_of es1 t' = if decide (t' = t) then ov else override_of (g_entries p) t').
  { intros t'. unfold override_of at 1. rewrite Hat1. destruct (decide (t' = t)); [done|apply Hsame]. }
  assert (Hin1 : forall t', intent_of es1 t' = intent_of (g_entries p) t').
  { intros t'. unfold intent_of at 1. rewrite Hat1. destruct (Hsame t') as [_ <-]. unfold intent_of. destruct (decide (t' = t)) as [->|]; [by rewrite He|done]. }
  assert (Hint : (if en_seen e then Some (en_last e) else None) = intent_of (g_entries p) t).
  { destruct (Hsame t) as [_ <-]. unfold intent_of. by rewrite He. }
  destruct (save_locked r (g_store p) es1 d) as [rc d1] eqn:Esv. unfold save_locked in Esv. rewrite (proj1 (camera_save_text es1 Hok1)) in Esv.
  destruct (write_atomic_spec _ _ _ _ _ _ Hst Esv) as [Hw _].
  destruct Hw as [[-> Hd]|[-> Hd]]; cbn [Z.eqb negb Z.opp]; intros [= <- <- <-].
  - destruct (entry_drop es1 i _ (with_override ov e) t drop_if_idle Hok1 Hi1 Hu Et eq_refl Hu Et) as [Hok2 Hv]. cbn [en_override en_seen en_last with_override] in Hv.
    split; [done|]. split; [split; [done|]|left]; cbn [g_entries set_entries].
    + intros t'. destruct (Hv t') as [_ ->]. destruct (decide (t' = t)) as [->|]; [done|apply Hin1].
    + assert (Hov : forall t', override_of (alter drop_if_idle i es1) t' = override_of es1 t').
      { intros t'. destruct (Hv t') as [-> _]. rewrite Hov1. by destruct (decide (t' = t)). }
      split_and!; [done|intros t'; by rewrite Hov, Hov1|]. intros _. exists es1. by split_and!.
  - destruct (entry_drop es1 i _ e t (fun x => drop_if_idle (with_override (en_override e) x)) Hok1 Hi1 Hu Et ltac:(by destruct e) Hu Et) as [Hok2 Hv].
    split; [done|]. split; [split; [done|]|right]; cbn [g_entries set_entries].
    + intros t'. destruct (Hv t') as [_ ->]. destruct (decide (t' = t)) as [->|]; [done|apply Hin1].
    + split_and!; [done| |done]. intros t'. destruct (Hv t') as [-> _]. destruct (Hsame t') as [<- _]. unfold override_of at 2.
      destruct (decide (t' = t)) as [->|Hne]; [by rewrite He|]. rewrite Hov1, decide_False by done. by destruct (Hsame t') as [<- _].
Qed.

(** SET_ROLE: the map of roles changes as asked and is on disk, or nothing changes. *)
Lemma role_set_ok r t what n p d resp p' d' :
  pol_ok p -> virt_camera_ticket_ok t = true -> role_set r t what n p d = (resp, p', d') ->
  pol_ok p' /\
  (resp = reply n "OK" /\ p' = set_roles (g_roles p') ROLES_VALID p /\ roles_map (g_roles p') = map_set t what (roles_in_force p) /\
     d' !! g_role_store p = Some (roles_text (g_roles p')) \/
   resp = reply n "ERR PERSIST" /\ p' = p /\ d' !! g_role_store p = d !! g_role_store p).
Proof.
  intros Hp Ht. destruct Hp as [Hes Hrs Hst Hrst]. unfold role_set.
  assert (Hbase : let rs := if bool_decide (g_roles_state p = ROLES_INVALID) then roles_zero else g_roles p in roles_ok rs /\ roles_map rs = roles_in_force p).
  { unfold roles_in_force. destruct (bool_decide _); [|done]. split; [|vm_compute; done]. by apply (role_load_ok (Some EIO) [] ∅ ROLES_INVALID). }
  destruct Hbase as [Hok Hmap]. set (rs := if bool_decide _ then _ else _) in *. destruct (role_update t what rs) as [rs'|] eqn:Eu.
  2:{ intros [= <- <- <-]. split; [done|by right]. }
  destruct (role_update_ok t what rs rs' Hok Ht Eu) as [Hok' Hm']. unfold role_save_locked. rewrite (proj1 (role_save_text rs' Hok')).
  destruct (write_atomic _ _ _ _) as [rc d1] eqn:Ew. destruct (write_atomic_spec _ _ _ _ _ _ Hrst Ew) as [Hw _].
  destruct Hw as [[-> Hd]|[-> Hd]]; cbn [Z.eqb negb Z.opp]; intros [= <- <- <-]; [|split; [done|by right]].
  split; [done|]. left. split_and!; [done..| |done]. cbn. by rewrite Hm', Hmap.
Qed.

(** Deciding records the intent, when there is a slot, and changes no override. *)
Lemma decide_ok t intent primary p rc v p' :
  pol_ok p -> virt_camera_policy_decide t intent primary p = (rc, v, p') -> pol_ok p' /\ p' = set_entries (g_entries p') p /\
  forall t', override_of (g_entries p') t' = override_of (g_entries p) t'.
Proof.
  intros Hp. unfold virt_camera_policy_decide. destruct (virt_camera_ticket_ok t) eqn:Ht; cbn [negb].
  2:{ intros [= _ _ <-]. split; [done|]. split; [by destruct p|done]. }
  destruct Hp as [Hes Hrs Hst Hrst]. destruct (find_or_add t (g_entries p)) as [[i es]|] eqn:Ef.
  2:{ intros [= _ _ <-]. done. }
  destruct (find_or_add_ok t _ i es Hes Ht Ef) as (H1 & e & H2 & H3 & H4 & H5 & H6 & H7). rewrite H2. intros [= _ _ <-].
  destruct (entry_alter es i e t (see_intent intent) H1 H2 H3 H4 ltac:(done)) as [Hok Hat]. split; [done|]. split; [done|]. intros t'.
  unfold override_of at 1. cbn [g_entries set_entries]. rewrite Hat. cbn. rewrite H3. unfold override_of.
  destruct (decide (t' = t)) as [->|Hne]; [|by rewrite H7]. destruct H6 as [->|[-> ->]]; done.
Qed.

(** ** Reachable states *)

Inductive cp_step : policy * disk -> policy * disk -> Prop :=
| cp_decide t intent primary p d rc v p' : virt_camera_policy_decide t intent primary p = (rc, v, p') -> cp_step (p, d) (p', d)
| cp_admin r req n p d rc resp p' d' : virt_camera_policy_admin r req n p d = (rc, resp, p', d') -> cp_step (p, d) (p', d')
| cp_load err p d : cp_step (p, d) (virt_camera_policy_load err d p, d)
| cp_role_load err p d : cp_step (p, d) (virt_iav_role_load err d p, d)
| cp_windows w ms p d : cp_step (p, d) (virt_camera_policy_set_windows w ms p, d)
| cp_set_store path p d : cp_step (p, d) (virt_camera_policy_set_store path p, d)
| cp_role_set_store path p d : cp_step (p, d) (virt_iav_role_set_store path p, d)
| cp_status fn p d : cp_step (p, d) (virt_camera_policy_set_iav_status fn p, d)
| cp_restart p d : cp_step (p, d) (virt_camera_policy_reset, d)
| cp_foreign p d d' : cp_step (p, d) (p, d').

Definition cp_reachable (s : policy * disk) : Prop := exists d, rtc cp_step (virt_camera_policy_reset, d) s.

Lemma load_locked_ok err path d es ok es' : entries_ok es -> load_locked err path d es = (ok, es') -> entries_ok es'.
Proof.
  intros Hok. destruct (clear_overrides_ok es Hok) as [Hc _]. unfold load_locked. destruct (fopen err path d) as [|s]; [by intros [= _ <-]|].
  destruct (read_store s) as [buf|]; [|by intros [= _ <-]]. destruct (load_lines _ _ _ _) as [got|] eqn:El; [|by intros [= _ <-]].
  apply (load_lines_inv _ (fun g => virt_camera_ticket_ok (fst g) = true)) in El as (_ & _ & Ht);
    [|apply parse_line_ticket|apply NoDup_nil_2|cbn; unfold VIRT_CAMERA_MAX_ENTRIES; lia|done].
  intros E. by destruct (put_overrides_ok _ _ _ _ Hc Ht E).
Qed.

Lemma policy_reset_ok : pol_ok virt_camera_policy_reset.
Proof.
  split; [apply fresh_entries|by apply (role_load_ok (Some EIO) [] ∅ ROLES_INVALID)|..]; vm_compute; lia.
Qed.

Lemma set_store_length path : negb (length path =? 0)%nat && (length path <? 256 - 8)%nat = true -> (length (snprintf 256 path) < 248)%nat.
Proof. intros H. bool_hyps. apply Nat.ltb_lt in H0. unfold snprintf. rewrite length_take. lia. Qed.

Lemma admin_ok r req n p d rc resp p' d' : pol_ok p -> virt_camera_policy_admin r req n p d = (rc, resp, p', d') -> pol_ok p'.
Proof.
  intros Hp. unfold virt_camera_policy_admin. destruct (n =? 0)%nat; [by intros [= _ _ <- _]|]. destruct (scan_words 4 63 req) as [|cmd args]; [by intros [= _ _ <- _]|].
  destruct (str_eq cmd (lit "SET_CAMERA")).
  { destruct args as [|a1 [|a2 [|]]]; try by intros [= _ _ <- _]. destruct (virt_camera_ticket_ok a1) eqn:Ht; cbn [negb]; [|by intros [= _ _ <- _]].
    destruct (parse_override a2) as [ov|]; [|by intros [= _ _ <- _]]. destruct (set_camera _ _ _ _ _ _) as [[x p1] d1] eqn:E. intros [= _ _ <- _].
    by destruct (set_camera_ok _ _ _ _ _ _ _ _ _ Hp Ht E). }
  destruct (str_eq cmd (lit "GET_CAMERA")); [destruct args as [|a1 [|]]; [|destruct (negb _)|]; by intros [= _ _ <- _]|].
  destruct (str_eq cmd (lit "CAMERA_STATUS")); [destruct args; by intros [= _ _ <- _]|].
  destruct (str_eq cmd (lit "SET_ROLE")).
  { destruct args as [|a1 [|a2 [|]]]; try by intros [= _ _ <- _]. destruct (virt_camera_ticket_ok a1) eqn:Ht; cbn [negb]; [|by intros [= _ _ <- _]].
    destruct (parse_role_request a2) as [what|]; [|by intros [= _ _ <- _]]. destruct (role_set _ _ _ _ _ _) as [[x p1] d1] eqn:E. intros [= _ _ <- _].
    by destruct (role_set_ok _ _ _ _ _ _ _ _ _ Hp Ht E). }
  destruct (str_eq cmd (lit "GET_ROLE")); [destruct args as [|a1 [|]]; [|destruct (negb _)|]; by intros [= _ _ <- _]|].
  destruct (str_eq cmd (lit "IAV_STATUS")); [destruct args; by intros [= _ _ <- _]|]. by intros [= _ _ <- _].
Qed.

Lemma cp_step_ok s s' : cp_step s s' -> pol_ok (fst s) -> pol_ok (fst s').
Proof.
  destruct 1 as [t intent primary p d rc v p' E|r req n p d rc resp p' d' E|err p d|err p d|w ms p d|path p d|path p d|fn p d|p d|p d d']; cbn [fst]; intros Hp.
  - by destruct (decide_ok _ _ _ _ _ _ _ Hp E).
  - by eapply admin_ok.
  - destruct Hp as [Hes Hrs Hst Hrst]. unfold virt_camera_policy_load. destruct (load_locked err (g_store p) d (g_entries p)) as [ok es] eqn:E.
    pose proof (load_locked_ok _ _ _ _ _ _ Hes E) as Hok. split; cbn; try done. destruct ok; [done|by apply clear_overrides_ok].
  - destruct Hp as [Hes Hrs Hst Hrst]. unfold virt_iav_role_load. destruct (role_load_locked err (g_role_store p) d) as [st rs] eqn:E.
    split; cbn; try done. destruct (bool_decide _); [by apply (role_load_ok (Some EIO) [] ∅ ROLES_INVALID)|by eapply role_load_ok].
  - destruct Hp. unfold virt_camera_policy_set_windows. destruct (foldl _ _ _). done.
  - destruct Hp as [Hes Hrs Hst Hrst]. unfold virt_camera_policy_set_store. destruct (_ && _) eqn:E; [|done]. apply set_store_length in E. done.
  - destruct Hp as [Hes Hrs Hst Hrst]. unfold virt_iav_role_set_store. destruct (_ && _) eqn:E; [|done]. apply set_store_length in E. done.
  - by destruct Hp.
  - apply policy_reset_ok.
  - done.
Qed.

Lemma cp_reachable_ok s : cp_reachable s -> pol_ok (fst s).
Proof.
  intros [d Hr]. pose proof policy_reset_ok as Hok. change (pol_ok (fst (virt_camera_policy_reset, d))) in Hok.
  induction Hr as [|s1 s2 s3 Hs _ IH]; [done|]. by eapply IH, cp_step_ok.
Qed.

(** ** Exactly the well-formed stores are accepted *)

(** The lines [l], the last one with or without its newline. *)
Definition is_text {A} (print : text * A -> text) (s : text) (l : list (text * A)) : Prop :=
  s = store_text print l \/ l <> [] /\ s ++ [newline] = store_text print l.

Lemma load_lines_text {A} (parse : text -> option (text * A)) (print : text * A -> text) fuel s got l :
  (forall line g, parse line = Some g -> line = print g) -> load_lines fuel parse s got = Some l -> exists l', l = got ++ l' /\ is_text print s l'.
Proof.
  intros Hp. revert s got. induction fuel as [|fuel IH]; intros s got; (destruct s as [|c s]; [intros [= <-]; exists []; rewrite app_nil_r; split; [done|by left]|]); [done|].
  cbn [load_lines]. destruct (cut_at newline (c :: s)) as [line rest] eqn:Ec. apply cut_at_inv in Ec as [_ Es]. rewrite Es.
  destruct (_ <=? _)%nat; [done|]. destruct (parse line) as [[t v]|] eqn:Ep; [|done]. destruct (existsb _ got); [done|]. apply Hp in Ep.
  destruct rest as [r|]; cbn [default from_option id]; intros E.
  - destruct (IH _ _ E) as (l' & -> & Ht). exists ((t, v) :: l'). split; [by rewrite <- app_assoc|].
    unfold is_text, store_text in *. cbn [map concat]. rewrite <- Ep, <- !app_assoc. cbn.
    destruct Ht as [->|[_ Ht]]; [by left|]. right. split; [done|]. by rewrite Ht.
  - assert (l = got ++ [(t, v)]) as -> by (destruct fuel; by injection E as ->). exists [(t, v)]. split; [done|]. right. split; [done|].
    unfold store_text. cbn. by rewrite Ep, !app_nil_r.
Qed.

(** A store without its last newline is read like the one with it. *)
Lemma load_lines_open {A} (parse : text -> option (text * A)) (print : text * A -> text) l got fuel s :
  Forall (fun g => parse (print g) = Some g /\ (newline ∉ print g) /\ print g <> []) l -> NoDup (fst <$> (got ++ l)) ->
  (length got + length l <= VIRT_CAMERA_MAX_ENTRIES)%nat -> (length s <= fuel)%nat -> l <> [] -> s ++ [newline] = store_text print l ->
  load_lines fuel parse s got = Some (got ++ l).
Proof.
  intros Hl Hnd Hlen Hf Hne Hs. destruct l as [|g l _] using rev_ind; [done|]. clear Hne.
  unfold store_text in Hs. rewrite map_app, concat_app in Hs. cbn in Hs. rewrite app_nil_r, app_assoc in Hs.
  apply app_inj_tail in Hs as [-> _]. fold (store_text print l).
  apply Forall_app in Hl as [Hl Hg]. apply Forall_singleton in Hg as (Hp & Hn & Hne). rewrite length_app in Hlen. cbn in Hlen.
  revert got fuel Hnd Hlen Hf. induction Hl as [|h l (Hhp & Hhn & Hhne) Hl IH]; intros got fuel Hnd Hlen Hf.
  - cbn. cbn in Hf. destruct (print g) as [|c w] eqn:Eg; [done|]. destruct fuel as [|fuel]; [cbn in Hf; lia|]. cbn [load_lines]. rewrite <- Eg in *.
    rewrite cut_at_none by done. rewrite (proj2 (Nat.leb_gt _ _)) by (cbn in Hlen; lia). rewrite Hp. destruct g as [t v].
    rewrite (fresh_ticket got t v []) by done. by destruct fuel.
  - unfold store_text in *. cbn [map concat] in *. rewrite <- !app_assoc in *. cbn [app] in *. destruct fuel as [|fuel]; [rewrite length_app in Hf; cbn in Hf; lia|].
    destruct (print h ++ newline :: _) as [|c w] eqn:Es; [by destruct (print h)|]. rewrite <- Es in *. cbn [load_lines]. rewrite Es, <- Es. clear Es c w.
    rewrite cut_at_app by done. cbn [length] in Hlen. rewrite (proj2 (Nat.leb_gt _ _)) by lia. rewrite Hhp. destruct h as [t v].
    rewrite (fresh_ticket got t v (l ++ [g])) by done. cbn [default from_option id]. rewrite IH; [by rewrite <- app_assoc|by rewrite <- app_assoc| |].
    + rewrite length_app. cbn. lia.
    + rewrite length_app in Hf. cbn in Hf. lia.
Qed.

Lemma role_parse_inv line g : role_parse_line line = Some g -> line = role_text g.
Proof.
  unfold role_parse_line. destruct (cut_at space line) as [t r] eqn:Ec. apply cut_at_inv in Ec as [_ ->]. destruct r as [rest|]; [|done].
  destruct (_ || _ || _); [done|]. destruct (negb _); [done|]. destruct (str_eq rest (lit "primary")) eqn:E1; [apply str_eq_true in E1 as ->; by intros [= <-]|].
  destruct (str_eq rest (lit "consumer")) eqn:E2; [apply str_eq_true in E2 as ->; by intros [= <-]|done].
Qed.

(** A well-formed role store: at most 64 lines with different valid tickets, at most one of them primary. *)
Record role_lines_ok (l : list (text * virt_iav_role)) : Prop := {
  rf_nodup : NoDup (fst <$> l);
  rf_count : (length l <= 64)%nat;
  rf_tickets : Forall (fun g => virt_camera_ticket_ok (fst g) = true) l;
  rf_primary : (length (filter (fun g => snd g = VIRT_IAV_ROLE_PRIMARY) l) <= 1)%nat;
}.

Lemma role_load_iff path d s :
  d !! path = Some s -> (length s <= 4096)%nat ->
  (forall l, role_lines_ok l -> is_text role_text s l -> role_load_locked None path d = (ROLES_VALID, roles_of_lines l)) /\
  ((forall l, role_lines_ok l -> ~ is_text role_text s l) -> role_load_locked None path d = (ROLES_INVALID, roles_zero)).
Proof.
  intros Hd Hlen. unfold role_load_locked, fopen. rewrite Hd. split.
  - intros l [Hnd Hcnt Htk Hpr] Hs.
    assert (Hl : Forall (fun g => role_parse_line (role_text g) = Some g /\ (newline ∉ role_text g) /\ role_text g <> []) l).
    { eapply Forall_impl; [exact Htk|]. intros g Hg. split; [by apply role_parse_print|]. by destruct (line_cut (fst g) _ Hg (role_name_ok (snd g))) as (_ & ? & ? & _). }
    assert (Hnul : ascii_of_nat 0 ∉ s).
    { assert (Hn : ascii_of_nat 0 ∉ store_text role_text l).
      { apply store_no_nul. eapply Forall_impl; [exact Htk|]. intros g Hg. by apply (line_cut (fst g) _ Hg (role_name_ok (snd g))). }
      destruct Hs as [->|[_ Hs]]; [done|]. rewrite <- Hs in Hn. intros Hin. apply Hn, elem_of_app. by left. }
    rewrite read_store_ok by done. assert (load_lines (length s) role_parse_line s [] = Some l) as ->.
    { destruct Hs as [->|[Hne Hs]]; [by apply (load_lines_print role_parse_line role_text l [])|by apply (load_lines_open role_parse_line role_text l [])]. }
    by rewrite (proj2 (Nat.ltb_ge _ _)) by lia.
  - intros Hno. destruct (read_store s) as [buf|] eqn:Er; [|done].
    assert (buf = s) as ->.
    { unfold read_store in Er. destruct (_ <? _)%nat; [done|]. destruct (existsb _ _); [done|]. injection Er as <-. apply take_ge. unfold VIRT_CAMERA_STORE_MAX_BYTES. lia. }
    destruct (load_lines (length s) role_parse_line s []) as [l|] eqn:El; [|done].
    destruct (Nat.ltb_spec 1 (length (filter (fun g => snd g = VIRT_IAV_ROLE_PRIMARY) l))) as [|Hpr]; [done|]. exfalso.
    pose proof El as El'. apply (load_lines_text _ role_text) in El' as (l' & -> & Ht); [|apply role_parse_inv].
    apply (load_lines_inv _ (fun g => virt_camera_ticket_ok (fst g) = true)) in El as (H1 & H2 & H3);
      [|apply role_parse_ticket|apply NoDup_nil_2|cbn; unfold VIRT_CAMERA_MAX_ENTRIES; lia|done].
    by apply (Hno l').
Qed.

Lemma role_load_long path d s : d !! path = Some s -> (4096 < length s)%nat -> role_load_locked None path d = (ROLES_INVALID, roles_zero).
Proof.
  intros Hd Hl. unfold role_load_locked, fopen. rewrite Hd. unfold read_store, VIRT_CAMERA_STORE_MAX_BYTES.
  rewrite (proj2 (Nat.ltb_lt _ _)); [done|]. rewrite length_take. lia.
Qed.

(** ** The text of a request *)

Definition stops (r : text) : Prop := match r with [] => True | c :: _ => isspace c = true end.

Lemma scan_chars_word k w r : (length w <= k)%nat -> Forall (fun c => isspace c = false) w -> stops r -> scan_chars k (w ++ r) = (w, r).
Proof.
  intros Hk Hw Hr. revert k Hk. induction Hw as [|c w Hc _ IH]; intros k Hk; cbn [app].
  - destruct k; [done|]. destruct r as [|c r]; [done|]. cbn in *. by rewrite Hr.
  - destruct k as [|k]; [cbn in Hk; lia|]. cbn. rewrite Hc, IH; [done|]. cbn in Hk. lia.
Qed.

Lemma scan_words_cons n k w r :
  w <> [] -> (length w <= k)%nat -> Forall (fun c => isspace c = false) w -> stops r -> scan_words (S n) k (w ++ r) = w :: scan_words n k r.
Proof.
  intros Hne Hk Hw Hr. cbn [scan_words]. unfold scan_word. assert (skip_space (w ++ r) = w ++ r) as ->.
  { destruct Hw as [|c w Hc _]; [done|]. cbn. by rewrite Hc. }
  rewrite scan_chars_word by done. by destruct w.
Qed.

Lemma scan_words_space n k r : scan_words n k (space :: r) = scan_words n k r.
Proof. by destruct n. Qed.

Lemma ticket_no_space t : virt_camera_ticket_ok t = true -> Forall (fun c => isspace c = false) t.
Proof.
  intros Ht. apply Forall_forall. intros c Hc. pose proof (ticket_chars t c Ht Hc) as H. revert H. clear.
  destruct c as [[] [] [] [] [] [] [] []]; vm_compute; done.
Qed.

(** A request of a command, a ticket and a word. *)
Definition request (cmd t w : text) : text := cmd ++ [space] ++ t ++ [space] ++ w.

Lemma scan_request cmd t w :
  virt_camera_ticket_ok t = true -> forallb (fun c => negb (isspace c)) (cmd ++ w) = true -> cmd <> [] -> w <> [] ->
  (length cmd <= 63)%nat -> (length w <= 63)%nat -> scan_words 4 63 (request cmd t w) = [cmd; t; w].
Proof.
  intros Ht Hs Hc Hw Lc Lw. destruct (ticket_plain t Ht) as [Hl _].
  assert (Hns : forall l, (forall c, c ∈ l -> c ∈ cmd ++ w) -> Forall (fun c => isspace c = false) l).
  { intros l Hin. apply Forall_forall. intros c Hcl. rewrite forallb_forall in Hs. apply negb_true_iff, Hs, list_elem_of_In, Hin, Hcl. }
  assert (Hc' : Forall (fun c => isspace c = false) cmd) by (apply Hns; intros c Hc'; apply elem_of_app; by left).
  assert (Hw' : Forall (fun c => isspace c = false) w) by (apply Hns; intros c Hc''; apply elem_of_app; by right).
  unfold request. rewrite scan_words_cons by done. cbn [app]. rewrite scan_words_space.
  rewrite scan_words_cons; [|by destruct t|lia|by apply ticket_no_space|done]. cbn [app]. rewrite scan_words_space.
  rewrite <- (app_nil_r w) at 1. rewrite scan_words_cons by done. done.
Qed.

Definition request_name (what : role_request) : text := match what with SET_INHERIT => lit "inherit" | SET_TO r => virt_iav_role_name r end.

Lemma admin_set_role r t what n p d :
  virt_camera_ticket_ok t = true -> n <> O ->
  virt_camera_policy_admin r (request (lit "SET_ROLE") t (request_name what)) n p d = let '(x, p', d') := role_set r t what n p d in (0, x, p', d').
Proof.
  intros Ht Hn. unfold virt_camera_policy_admin. rewrite (proj2 (Nat.eqb_neq _ _) Hn).
  rewrite scan_request; [|done|by destruct what as [|[]]|done|by destruct what as [|[]]|cbn; lia|destruct what as [|[]]; cbn; lia].
  change (str_eq (lit "SET_ROLE") (lit "SET_CAMERA")) with false. change (str_eq (lit "SET_ROLE") (lit "GET_CAMERA")) with false.
  change (str_eq (lit "SET_ROLE") (lit "CAMERA_STATUS")) with false. change (str_eq (lit "SET_ROLE") (lit "SET_ROLE")) with true. cbn iota. rewrite Ht. cbn [negb].
  by assert (parse_role_request (request_name what) = Some what) as -> by (destruct what as [|[]]; reflexivity).
Qed.

Lemma admin_set_camera r t ov n p d :
  virt_camera_ticket_ok t = true -> n <> O ->
  virt_camera_policy_admin r (request (lit "SET_CAMERA") t (ov_name ov)) n p d = let '(x, p', d') := set_camera r t ov n p d in (0, x, p', d').
Proof.
  intros Ht Hn. unfold virt_camera_policy_admin. rewrite (proj2 (Nat.eqb_neq _ _) Hn).
  rewrite scan_request; [|done|by destruct ov|done|by destruct ov|cbn; lia|destruct ov; cbn; lia].
  change (str_eq (lit "SET_CAMERA") (lit "SET_CAMERA")) with true. cbn iota. rewrite Ht. cbn [negb].
  by assert (parse_override (ov_name ov) = Some ov) as -> by (destruct ov; reflexivity).
Qed.

(** * Theorems *)

(** C27: However the requests, loads, failing writes, restarts and foreign changes of the stores are ordered, at most one
    ticket has the primary role, the default primary included. *)
Theorem one_primary p d t t' :
  cp_reachable (p, d) -> virt_iav_role_of t p = VIRT_IAV_ROLE_PRIMARY -> virt_iav_role_of t' p = VIRT_IAV_ROLE_PRIMARY -> t = t'.
Proof. intros Hr. apply primary_unique. apply (po_roles _ (cp_reachable_ok _ Hr)). Qed.

Lemma one_primary_witness : virt_iav_role_of VIRT_IAV_DEFAULT_PRIMARY virt_camera_policy_reset = VIRT_IAV_ROLE_PRIMARY /\
  VIRT_IAV_DEFAULT_PRIMARY = lit "amba_shm0".
Proof.
  split; [reflexivity|].
  exact (one_primary virt_camera_policy_reset ∅ VIRT_IAV_DEFAULT_PRIMARY (lit "amba_shm0") (ex_intro _ ∅ (rtc_refl _ _)) eq_refl eq_refl).
Defined.

(** The request SET_ROLE works on the table as on a map from tickets to roles: making a ticket primary drops every
    other primary line, making it a consumer or inheriting touches its own line only. Either the reply is OK, the map
    is the new one and the store holds exactly its text, or the reply is an error and neither the policy nor the store
    has changed, whichever system call of the atomic write failed. *)
Theorem set_role_exact r t what n p d :
  cp_reachable (p, d) -> virt_camera_ticket_ok t = true -> n <> O ->
  exists resp p' d', virt_camera_policy_admin r (request (lit "SET_ROLE") t (request_name what)) n p d = (0, resp, p', d') /\
    (resp = reply n "OK" /\ p' = set_roles (g_roles p') ROLES_VALID p /\ roles_map (g_roles p') = map_set t what (roles_in_force p) /\
       d' !! g_role_store p = Some (roles_text (g_roles p')) \/
     resp = reply n "ERR PERSIST" /\ p' = p /\ d' !! g_role_store p = d !! g_role_store p).
Proof.
  intros Hr Ht Hn. rewrite admin_set_role by done. destruct (role_set r t what n p d) as [[resp p'] d'] eqn:E. exists resp, p', d'. split; [done|].
  by destruct (role_set_ok r t what n p d resp p' d' (cp_reachable_ok _ Hr) Ht E).
Qed.

Lemma set_role_exact_witness :
  exists resp p' d', virt_camera_policy_admin fs_good (request (lit "SET_ROLE") (lit "t1") (lit "primary")) 64 virt_camera_policy_reset ∅ = (0, resp, p', d') /\
    (resp = reply 64 "OK" /\ p' = set_roles (g_roles p') ROLES_VALID virt_camera_policy_reset /\
       roles_map (g_roles p') = map_set (lit "t1") (SET_TO VIRT_IAV_ROLE_PRIMARY) ∅ /\ d' !! VIRT_IAV_ROLE_STORE = Some (roles_text (g_roles p')) \/
     resp = reply 64 "ERR PERSIST" /\ p' = virt_camera_policy_reset /\ d' !! VIRT_IAV_ROLE_STORE = None).
Proof.
  exact (set_role_exact fs_good (lit "t1") (SET_TO VIRT_IAV_ROLE_PRIMARY) 64 virt_camera_policy_reset ∅ (ex_intro _ ∅ (rtc_refl _ _)) eq_refl ltac:(discriminate)).
Defined.

(** A SET_ROLE that was answered with OK survives: a server that reads the same store, whatever it knew before,
    gives every ticket the role it had. *)
Theorem role_restart r t what n p d p' d' q t' :
  cp_reachable (p, d) -> virt_camera_ticket_ok t = true -> role_set r t what n p d = (reply n "OK", p', d') -> (2 <= n)%nat ->
  g_role_store q = g_role_store p -> virt_iav_role_of t' (virt_iav_role_load None d' q) = virt_iav_role_of t' p'.
Proof.
  intros Hr Ht E Hn Hq. destruct (role_set_ok r t what n p d _ p' d' (cp_reachable_ok _ Hr) Ht E) as [Hok [(_ & Ep & _ & Hd)|(Eerr & _)]].
  2:{ exfalso. destruct n as [|[|n]]; [lia|lia|]. unfold reply, snprintf in Eerr. cbn in Eerr. by destruct n. }
  destruct (role_load_saved (g_roles p') (g_role_store p) d' (po_roles _ Hok) Hd) as (rs' & El & Hrs' & Em).
  unfold virt_iav_role_load. rewrite Hq, El. rewrite bool_decide_eq_false_2 by done.
  assert (Hv : g_roles_state p' = ROLES_VALID) by by rewrite Ep.
  assert (Hiff : virt_iav_role_of t' (set_roles rs' ROLES_VALID q) = VIRT_IAV_ROLE_PRIMARY <-> virt_iav_role_of t' p' = VIRT_IAV_ROLE_PRIMARY).
  { rewrite (role_of_iff _ _ (po_roles _ Hok)). rewrite role_of_iff by done. unfold roles_in_force. rewrite Hv. cbn. by rewrite Em. }
  destruct (virt_iav_role_of t' (set_roles rs' ROLES_VALID q)), (virt_iav_role_of t' p'); try done; [by apply Hiff|symmetry; by apply Hiff].
Qed.

Definition demo_role : text * policy * disk := role_set fs_good (lit "t1") (SET_TO VIRT_IAV_ROLE_PRIMARY) 64 virt_camera_policy_reset ∅.

Lemma demo_role_set : demo_role = (reply 64 "OK", snd (fst demo_role), snd demo_role).
Proof. assert (E : fst (fst demo_role) = reply 64 "OK") by (vm_compute; reflexivity). rewrite <- E. by destruct demo_role as [[]]. Qed.

Lemma role_restart_witness : virt_iav_role_of (lit "t1") (virt_iav_role_load None (snd demo_role) virt_camera_policy_reset) = VIRT_IAV_ROLE_PRIMARY.
Proof.
  etransitivity.
  - exact (role_restart fs_good (lit "t1") (SET_TO VIRT_IAV_ROLE_PRIMARY) 64 virt_camera_policy_reset ∅ (snd (fst demo_role)) (snd demo_role)
      virt_camera_policy_reset (lit "t1") (ex_intro _ ∅ (rtc_refl _ _)) eq_refl demo_role_set ltac:(lia) eq_refl).
  - vm_compute. reflexivity.
Defined.

(** The request SET_CAMERA changes the override of its ticket and nothing else, or answers with an error and changes
    no override and not the store. An override that was set is in force again after the server restarts. *)
Theorem set_camera_exact r t ov n p d :
  cp_reachable (p, d) -> virt_camera_ticket_ok t = true -> n <> O ->
  exists resp p' d', virt_camera_policy_admin r (request (lit "SET_CAMERA") t (ov_name ov)) n p d = (0, resp, p', d') /\ camera_kept p p' /\
    (resp = reply n "OK" /\ (forall t', override_of (g_entries p') t' = if decide (t' = t) then ov else override_of (g_entries p) t') /\
       (ov <> OV_INHERIT -> forall q t', g_entries q = repeat entry_zero VIRT_CAMERA_MAX_ENTRIES -> g_store q = g_store p ->
          override_of (g_entries (virt_camera_policy_load None d' q)) t' = override_of (g_entries p') t') \/
     resp = reply n "ERR PERSIST" /\ (forall t', override_of (g_entries p') t' = override_of (g_entries p) t') /\ d' !! g_store p = d !! g_store p).
Proof.
  intros Hr Ht Hn. rewrite admin_set_camera by done. destruct (set_camera r t ov n p d) as [[resp p'] d'] eqn:E. exists resp, p', d'. split; [done|].
  destruct (set_camera_ok r t ov n p d resp p' d' (cp_reachable_ok _ Hr) Ht E) as (_ & Hk & [(H1 & H2 & H3)|H]); (split; [done|]); [left|by right].
  split_and!; [done..|]. intros Hov q t' Hq Hs. destruct (H3 Hov) as (es & Hes & Hsame & Hd).
  destruct (camera_load_saved es (g_store p) d' Hes Hd) as (es' & El & He). unfold virt_camera_policy_load. rewrite Hs, Hq, El. cbn [g_entries set_entries]. by rewrite He, Hsame.
Qed.

Lemma set_camera_exact_witness :
  exists resp p' d', virt_camera_policy_admin fs_good (request (lit "SET_CAMERA") (lit "t1") (lit "off")) 64 virt_camera_policy_reset ∅ = (0, resp, p', d') /\
    camera_kept virt_camera_policy_reset p'.
Proof.
  destruct (set_camera_exact fs_good (lit "t1") OV_OFF 64 virt_camera_policy_reset ∅ (ex_intro _ ∅ (rtc_refl _ _)) eq_refl ltac:(discriminate))
    as (resp & p' & d' & H1 & H2 & _). exists resp, p', d'. split; [exact H1|exact H2].
Defined.

(** The verdict for a reserve: the camera is on exactly when the windows are ready and the override, or without one
    the intent, is on; then the DSP and bitstream windows are given, the decode and overlay windows to the primary
    guest only; otherwise no window is. *)
Theorem camera_verdict_exact p d t intent primary rc v p' :
  cp_reachable (p, d) -> virt_camera_ticket_ok t = true -> virt_camera_policy_decide t intent primary p = (rc, v, p') ->
  rc = 0 /\
  (vd_camera v = true <-> g_windows_ready p = true /\
     (override_of (g_entries p) t = OV_ON \/ override_of (g_entries p) t = OV_INHERIT /\ intent = VIRT_CAMERA_INTENT_ON)) /\
  (vd_camera v = false -> v = verdict_zero) /\
  (vd_camera v = true -> vd_dsp v = nth AMBA_VIRT_IAV_WIN_DSP (g_size p) 0 /\ vd_bsb v = nth AMBA_VIRT_IAV_WIN_BSB (g_size p) 0) /\
  (primary = false -> vd_dec v = 0 /\ vd_ovl v = 0).
Proof.
  intros Hr Ht. pose proof (cp_reachable_ok _ Hr) as [Hes _ _ _]. cbn in Hes. unfold virt_camera_policy_decide. rewrite Ht. cbn [negb].
  set (oe := match find_or_add t (g_entries p) with
             | Some (i, es) => (from_option en_override OV_INHERIT (es !! i), alter (see_intent intent) i es)
             | None => (OV_INHERIT, g_entries p)
             end).
  assert (Hov : fst oe = override_of (g_entries p) t).
  { unfold oe. destruct (find_or_add t (g_entries p)) as [[i es]|] eqn:Ef; cbn [fst].
    - destruct (find_or_add_ok t _ i es Hes Ht Ef) as (_ & e & H2 & _ & _ & _ & H6 & _). rewrite H2. unfold override_of. destruct H6 as [->|[-> ->]]; done.
    - unfold find_or_add in Ef. pose proof (find_entry_spec (g_entries p) t) as Hf. destruct (find_entry t (g_entries p)); [done|].
      unfold override_of. by destruct Hf as [-> _]. }
  clearbody oe. destruct oe as [ov es]. cbn [fst] in Hov. rewrite <- Hov. clear Hov. intros [= <- <- <-]. split; [done|].
  destruct (g_windows_ready p); cbn [andb]; [|split; [split; [done|by intros []]|done]].
  destruct ov; cbn; [destruct (bool_decide_reflect (intent = VIRT_CAMERA_INTENT_ON))| |]; cbn; (split; [split; [by auto|by intros (_ & [|[? ?]])]|]); (split; [done|]); (split; [done|]); by intros ->.
Qed.

Definition demo_windows : policy := virt_camera_policy_set_windows [mk_cwin 0 0x100000; mk_cwin 1 0x200000] 5 virt_camera_policy_reset.

Lemma camera_verdict_exact_witness :
  let '(rc, v, p') := virt_camera_policy_decide (lit "t1") VIRT_CAMERA_INTENT_ON false demo_windows in
  vd_camera v = true /\ rc = 0 /\ (vd_camera v = true -> vd_dsp v = 0x100000 /\ vd_bsb v = 0x200000).
Proof.
  split; [reflexivity|].
  destruct (camera_verdict_exact demo_windows ∅ (lit "t1") VIRT_CAMERA_INTENT_ON false _ _ _ (ex_intro _ ∅ (rtc_once _ _ (cp_windows _ _ _ _))) eq_refl eq_refl)
    as (H1 & _ & _ & H2 & _). split; [exact H1|exact H2].
Defined.

(** Loading the role store accepts exactly the well-formed texts of at most 4096 bytes (lines of a valid ticket, a
    space and a role, the last newline optional, at most 64 of them, no ticket twice, at most one primary), and then the
    table is those lines; with any other text no ticket is primary, not even the default one. *)
Theorem role_store_accepts p d s :
  d !! g_role_store p = Some s ->
  (forall l, (length s <= 4096)%nat -> role_lines_ok l -> is_text role_text s l ->
     virt_iav_role_load None d p = set_roles (roles_of_lines l) ROLES_VALID p) /\
  ((4096 < length s)%nat \/ (forall l, role_lines_ok l -> ~ is_text role_text s l) ->
     forall t, virt_iav_role_of t (virt_iav_role_load None d p) = VIRT_IAV_ROLE_CONSUMER).
Proof.
  intros Hd. unfold virt_iav_role_load. split.
  - intros l Hl Hok Hs. by rewrite (proj1 (role_load_iff _ _ _ Hd Hl) l Hok Hs).
  - intros Hbad t. assert (role_load_locked None (g_role_store p) d = (ROLES_INVALID, roles_zero)) as ->.
    { destruct (Nat.le_gt_cases (length s) 4096) as [Hle|Hgt]; [|by apply (role_load_long _ _ s)].
      destruct Hbad as [Hgt|Hno]; [lia|]. by apply (role_load_iff _ _ s). }
    unfold virt_iav_role_of, role_of_locked. cbn. by rewrite orb_true_r.
Qed.

Lemma role_store_accepts_witness :
  virt_iav_role_load None {[ VIRT_IAV_ROLE_STORE := lit "t1 primary" ]} virt_camera_policy_reset =
    set_roles (roles_of_lines [(lit "t1", VIRT_IAV_ROLE_PRIMARY)]) ROLES_VALID virt_camera_policy_reset.
Proof.
  refine (proj1 (role_store_accepts virt_camera_policy_reset {[ VIRT_IAV_ROLE_STORE := lit "t1 primary" ]} (lit "t1 primary") _) _ _ _ _).
  - apply lookup_singleton_eq.
  - cbn. lia.
  - split; [apply NoDup_singleton|cbn; lia|by apply Forall_singleton|apply Nat.leb_le; reflexivity].
  - right. split; [done|reflexivity].
Defined.
