(* ===== verification/SliceLease.v ===== *)
(** * Leases of the slices of the shared window

    [Module SliceLease] models tools/virt_slice_lease.c: eight slots leased by UUID, the store that is rewritten before a
    grant is told, the ticket and role a lease carries, the reply with the camera verdict and the aperture, and the admin
    requests. The camera policy is CameraPolicy; the two hooks of the aperture are the class [AuxHooks], with the
    apertures of IavAperture as the instance [aperture_hooks]. The files and the results of the system calls are those
    of CameraPolicy's [Store]. [primary_by_ticket] is the broker's decision from the lease and the role table. *)

From Stdlib Require Import ZArith Lia Bool Ascii String.
From stdpp Require Import base list numbers strings gmap.
From S2P Require Import Prelude Text IavWin IavAperture CameraPolicy.
Import Text Store CameraPolicy.
#[local] Open Scope Z_scope.
#[local] Open Scope list_scope.

Module SliceLease.

Definition LEASE_MAX : nat := 8.
Definition VIRT_SLICE_LEASE_STORE : text := lit "/run/amba-virt/slice-leases".

(** struct lease_slot *)
Record lease_slot := mk_lslot {
  ls_in_use : bool;
  ls_uuid : text;
  ls_index : Z;
  ls_epoch : Z;
  ls_bytes : Z;
  ls_ticket : text;
  ls_primary : bool;
}.
Definition lslot_zero : lease_slot := mk_lslot false [] 0 0 0 [] false.

(** The globals; [sl_aux] says whether the hooks are set. *)
Record lease_state := mk_lease {
  sl_slots : list lease_slot;
  sl_aux : bool;
  sl_matched : bool;
  sl_count : Z;
  sl_bytes : Z;
  sl_next_epoch : Z;
  sl_store : text;
}.

Definition put_slots (x : list lease_slot) (st : lease_state) : lease_state :=
  mk_lease x (sl_aux st) (sl_matched st) (sl_count st) (sl_bytes st) (sl_next_epoch st) (sl_store st).
Definition put_epoch (x : Z) (st : lease_state) : lease_state :=
  mk_lease (sl_slots st) (sl_aux st) (sl_matched st) (sl_count st) (sl_bytes st) x (sl_store st).

(** isxdigit in the C locale *)
Definition isxdigit (c : ascii) : bool :=
  let n := nat_of_ascii c in
  ((48 <=? n)%nat && (n <=? 57)%nat) || ((65 <=? n)%nat && (n <=? 70)%nat) || ((97 <=? n)%nat && (n <=? 102)%nat).

(** uuid_ok *)
Definition uuid_ok (uuid : text) : bool :=
  negb ((length uuid <? 1)%nat || (36 <? length uuid)%nat) && forallb (fun c => Ascii.eqb c "-" || isxdigit c) uuid.

(** parse_u64 *)
Definition parse_u64 (s : text) : option Z :=
  match s with
  | [] => None
  | _ => match strtoull s with Some (v, false, []) => Some v | _ => None end
  end.

(** ** The store *)

(** The line save_locked prints for a lease. *)
Definition lease_line (s : lease_slot) : text :=
  ls_uuid s ++ [space] ++ print_u (ls_index s) ++ [space] ++ print_llu (ls_epoch s) ++ [space] ++ print_llu (ls_bytes s) ++ [space] ++
  (match ls_ticket s with [] => lit "-" | t => t end) ++ [space] ++ (if ls_primary s then lit "primary" else lit "consumer") ++ [newline].

(** One fprintf per lease; each takes the next result, and fails on an error. *)
Fixpoint print_leases (rs : list write_res) (l : list lease_slot) (done_ : text) : option text :=
  match l with
  | [] => Some done_
  | s :: l' =>
      if negb (ls_in_use s) then print_leases rs l' done_
      else match rs with
           | W_error :: _ => None
           | _ => print_leases (tail rs) l' (done_ ++ lease_line s)
           end
  end.

(** save_locked *)
Definition save_locked (r : fs_results) (st : lease_state) (d : disk) : Z * disk :=
  if negb (fr_mkdir r) then (- 1, d)
  else
    let tmp := snprintf 288 (sl_store st ++ lit ".tmp") in
    if negb (fr_open r) then (- 1, d)
    else
      let d := <[tmp := []]> d in
      if negb (fr_fchmod r) then (- 1, delete tmp d)
      else
        match print_leases (fr_writes r) (sl_slots st) [] with
        | None => (- 1, delete tmp d)
        | Some t =>
            let d := <[tmp := t]> d in
            if negb (fr_fsync r) then (- 1, delete tmp d)
            else if negb (fr_rename r) then (- 1, delete tmp d)
            else (0, <[sl_store st := t]> (delete tmp d))
        end.

(** ** Lookups *)

(** find_uuid, index_taken *)
Definition find_uuid (uuid : text) (l : list lease_slot) : option nat := find_idx (fun s => ls_in_use s && str_eq (ls_uuid s) uuid) l.
Definition index_taken (index : Z) (l : list lease_slot) : bool := existsb (fun s => ls_in_use s && (ls_index s =? index)) l.

(** ** Requests *)

(** The replies before they are text. *)
Inductive lease_reply := R_LEASE (index epoch : Z) | R_OK | R_ERR (what : string).

(** format_ok and the other replies, into a buffer of [len] bytes *)
Definition format_reply (len : nat) (r : lease_reply) : text :=
  match r with
  | R_LEASE index epoch =>
      snprintf len (lit "OK index=" ++ print_u index ++ lit " path=/dev/amba_virt_shm" ++ print_u index ++ lit " epoch=" ++ print_llu epoch ++ [newline])
  | R_OK => snprintf len (lit "OK" ++ [newline])
  | R_ERR what => snprintf len (lit "ERR " ++ lit what ++ [newline])
  end.

Definition ok_slot (s : lease_slot) : lease_reply := R_LEASE (ls_index s) (ls_epoch s).

(** The loop that looks for a free index from [index] on: the fuel is the number of indexes. *)
Fixpoint first_free (fuel : nat) (index count : Z) (l : list lease_slot) : option Z :=
  match fuel with
  | O => None
  | S f => if index <? count then (if index_taken index l then first_free f (index + 1) count l else Some index) else None
  end.

Definition pick_slice_index (min_index : Z) (exact : bool) (st : lease_state) : option Z :=
  if exact then (if (min_index >=? sl_count st) || index_taken min_index (sl_slots st) then None else Some min_index)
  else first_free LEASE_MAX min_index (sl_count st) (sl_slots st).

(** reserve_range_locked *)
Definition reserve_range_locked (r : fs_results) (uuid : text) (bytes min_index : Z) (exact : bool) (st : lease_state) (d : disk)
    : lease_reply * lease_state * disk :=
  if negb (sl_matched st) || (sl_count st =? 0) || (sl_bytes st =? 0) then (R_ERR "GEOMETRY", st, d)
  else if negb (uuid_ok uuid) then (R_ERR "INVAL", st, d)
  else if bytes =? 0 then (R_ERR "ZERO", st, d)
  else if negb (bytes mod 4096 =? 0) then (R_ERR "ALIGN", st, d)
  else if negb (bytes =? sl_bytes st) then (R_ERR "SIZE", st, d)
  else
    match find_uuid uuid (sl_slots st) ≫= (fun i => sl_slots st !! i) with
    | Some s => (ok_slot s, st, d)
    | None =>
        if sl_next_epoch st =? 0 then (R_ERR "EXHAUSTED", st, d)
        else
          match pick_slice_index min_index exact st with
          | None => (R_ERR "EXHAUSTED", st, d)
          | Some index =>
              match find_idx (fun s => negb (ls_in_use s)) (sl_slots st) with
              | None => (R_ERR "EXHAUSTED", st, d)
              | Some j =>
                  let s := mk_lslot true (snprintf 64 uuid) index (sl_next_epoch st) bytes [] false in
                  let st1 := put_epoch (u64 (sl_next_epoch st + 1)) (put_slots (<[j := s]> (sl_slots st)) st) in
                  let '(rc, d') := save_locked r st1 d in
                  if negb (rc =? 0) then (R_ERR "PERSIST", put_slots (<[j := lslot_zero]> (sl_slots st1)) st1, d')
                  else (ok_slot s, st1, d')
              end
          end
    end.

(** query_locked *)
Definition query_locked (uuid : text) (st : lease_state) : lease_reply :=
  if negb (uuid_ok uuid) then R_ERR "INVAL"
  else match find_uuid uuid (sl_slots st) ≫= (fun i => sl_slots st !! i) with
       | Some s => ok_slot s
       | None => R_ERR "NOT_FOUND"
       end.

(** virt_slice_lease_reset *)
Definition virt_slice_lease_reset : lease_state :=
  mk_lease (repeat lslot_zero LEASE_MAX) false false 0 0 1 VIRT_SLICE_LEASE_STORE.

(** virt_slice_lease_set_store, virt_slice_lease_set_aux_hooks *)
Definition virt_slice_lease_set_store (path : text) (st : lease_state) : lease_state :=
  if negb (length path =? 0)%nat && (length path <? 256)%nat then
    mk_lease (sl_slots st) (sl_aux st) (sl_matched st) (sl_count st) (sl_bytes st) (sl_next_epoch st) (snprintf 256 path)
  else st.

Definition virt_slice_lease_set_aux_hooks (set : bool) (st : lease_state) : lease_state :=
  mk_lease (sl_slots st) set (sl_matched st) (sl_count st) (sl_bytes st) (sl_next_epoch st) (sl_store st).

(** virt_slice_lease_set_geometry: the slots that do not fit are dropped and the store rewritten *)
Definition slot_misfit (count bytes : Z) (s : lease_slot) : bool := ls_in_use s && ((ls_index s >=? count) || negb (ls_bytes s =? bytes)).

Definition virt_slice_lease_set_geometry (r : fs_results) (matched : bool) (count slice_bytes : Z) (st : lease_state) (d : disk) : lease_state * disk :=
  if matched && (count >=? 1) && (count <=? Z.of_nat LEASE_MAX) && negb (slice_bytes =? 0) && (slice_bytes mod 4096 =? 0) then
    let drop := existsb (slot_misfit count slice_bytes) (sl_slots st) in
    let st1 := mk_lease (map (fun s => if slot_misfit count slice_bytes s then lslot_zero else s) (sl_slots st)) (sl_aux st) true count slice_bytes
                        (sl_next_epoch st) (sl_store st) in
    (st1, if drop then snd (save_locked r st1 d) else d)
  else (mk_lease (sl_slots st) (sl_aux st) false 0 0 (sl_next_epoch st) (sl_store st), d).

(** ** Loading *)

(** The six conversions of a line: how many were made, and the values. *)
Definition scan_lease (line : text) : nat * (text * Z * Z * Z * text * text) :=
  match scan_word 63 line with
  | None => (0%nat, ([], 0, 0, 0, [], []))
  | Some (uuid, s) =>
      match scan_num 32 s with
      | None => (1%nat, (uuid, 0, 0, 0, [], []))
      | Some (index, s) =>
          match scan_num 64 s with
          | None => (2%nat, (uuid, index, 0, 0, [], []))
          | Some (epoch, s) =>
              match scan_num 64 s with
              | None => (3%nat, (uuid, index, epoch, 0, [], []))
              | Some (bytes, s) =>
                  match scan_word 63 s with
                  | None => (4%nat, (uuid, index, epoch, bytes, [], []))
                  | Some (ticket, s) =>
                      match scan_word 63 s with
                      | None => (5%nat, (uuid, index, epoch, bytes, ticket, []))
                      | Some (role, _) => (6%nat, (uuid, index, epoch, bytes, ticket, role))
                      end
                  end
              end
          end
      end
  end.

(** A line of the store: [None] is the break when the table is full. *)
Definition load_lease (line : text) (st : lease_state) : option lease_state :=
  match line with
  | [] => Some st
  | c :: _ =>
      if Ascii.eqb c "#" || Ascii.eqb c newline then Some st
      else
        let '(fields, (uuid, index, epoch, bytes, ticket, role)) := scan_lease line in
        if (fields <? 4)%nat then Some st
        else
          let ticketed := (fields =? 6)%nat && negb (str_eq ticket (lit "-")) && virt_camera_ticket_ok ticket &&
                          (str_eq role (lit "primary") || str_eq role (lit "consumer")) in
          if negb (uuid_ok uuid) || (epoch =? 0) || (bytes =? 0) then Some st
          else if negb (sl_matched st) || (index >=? sl_count st) || negb (bytes =? sl_bytes st) then Some st
          else if bool_decide (is_Some (find_uuid uuid (sl_slots st))) || index_taken index (sl_slots st) then Some st
          else
            match find_idx (fun s => negb (ls_in_use s)) (sl_slots st) with
            | None => None
            | Some j =>
                let s := mk_lslot true (snprintf 64 uuid) index epoch bytes
                           (if ticketed then take VIRT_CAMERA_TICKET_MAX ticket else []) (ticketed && str_eq role (lit "primary")) in
                let st1 := put_slots (<[j := s]> (sl_slots st)) st in
                Some (if epoch >=? sl_next_epoch st1 then put_epoch (if epoch =? 2 ^ 64 - 1 then 0 else epoch + 1) st1 else st1)
            end
  end.

(** The fgets loop: every turn takes at least one character. *)
Fixpoint load_leases (fuel : nat) (s : text) (st : lease_state) : lease_state :=
  match fuel, s with
  | S f, _ :: _ =>
      let '(line, rest) := next_line 255 s in
      match load_lease line st with
      | None => st
      | Some st' => load_leases f rest st'
      end
  | _, _ => st
  end.

(** virt_slice_lease_load *)
Definition virt_slice_lease_load (err : option Z) (d : disk) (st : lease_state) : lease_state :=
  match fopen err (sl_store st) d with
  | inl _ => st
  | inr s => load_leases (length s) s st
  end.

(** ** Requests with the policy and the apertures *)

(** The hooks of the aux aperture: attaching returns a result and the size. *)
Class AuxHooks (K : Type) := {
  aux_attach : Z -> Z -> bool -> K -> Z * Z * K;
  aux_detach : Z -> K -> K;
}.

Section System.

Context {K : Type} {hooks : AuxHooks K}.

(** The lease table, the camera policy, the files and the state behind the hooks. *)
Record lease_sys := mk_lsys { y_lease : lease_state; y_policy : policy; y_disk : disk; y_aux : K }.

(** release_locked *)
Definition release_locked (r : fs_results) (uuid : text) (epoch : Z) (y : lease_sys) : lease_reply * lease_sys :=
  let st := y_lease y in
  if negb (uuid_ok uuid) then (R_ERR "INVAL", y)
  else
    match find_uuid uuid (sl_slots st) ≫= (fun i => (fun s => (i, s)) <$> sl_slots st !! i) with
    | None => (R_ERR "NOT_FOUND", y)
    | Some (i, saved) =>
        if negb (ls_epoch saved =? epoch) then (R_ERR "STALE", y)
        else
          let st1 := put_slots (<[i := lslot_zero]> (sl_slots st)) st in
          let '(rc, d') := save_locked r st1 (y_disk y) in
          if negb (rc =? 0) then (R_ERR "PERSIST", mk_lsys st (y_policy y) d' (y_aux y))
          else (R_OK, mk_lsys st1 (y_policy y) d' (if sl_aux st then aux_detach (ls_index saved) (y_aux y) else y_aux y))
    end.

(** The suffix of a grant: the verdict, the aperture and the role, in a buffer of 160 bytes. [None] when it does not
    fit and the reply stays as it is. *)
Definition grant_suffix (s : lease_slot) (ticket : option text) (v : virt_camera_verdict) (aux : bool) (k : K) : option text * K :=
  let '(n, suffix) := virt_camera_verdict_format v 160 in
  if n <? 0 then (None, k)
  else
    match ticket with
    | None => (Some suffix, k)
    | Some _ =>
        let '(shown, size, k') :=
          if aux then
            let '(rc, size, k') := aux_attach (ls_index s) (ls_epoch s) (vd_camera v && ls_primary s) k in
            ((rc =? 0) && negb (size =? 0) && vd_camera v, size, k')
          else (false, 0, k) in
        let t1 := if shown then suffix ++ lit " aux=" ++ print_llu size else suffix in
        if (160 <=? length t1)%nat then (None, k')
        else
          let t2 := t1 ++ lit " role=" ++ (if ls_primary s then lit "primary" else lit "consumer") in
          if (160 <=? length t2)%nat then (None, k') else (Some t2, k')
    end.

(** The suffix goes in front of the newline of the reply, if there is room. *)
Definition append_suffix (resp suffix : text) (resp_len : nat) : text :=
  let n := match last resp with Some c => if Ascii.eqb c newline then (length resp - 1)%nat else length resp | None => O end in
  if (resp_len <? n + length suffix + 2)%nat then resp else take n resp ++ suffix ++ [newline].

(** append_camera_locked *)
Definition append_camera_locked (r : fs_results) (uuid : text) (ticket : option text) (intent : virt_camera_intent)
    (resp : text) (resp_len : nat) (y : lease_sys) : text * lease_sys :=
  if negb (starts_with (lit "OK index=") resp) then (resp, y)
  else
    let st := y_lease y in
    match find_uuid uuid (sl_slots st) ≫= (fun i => (fun s => (i, s)) <$> sl_slots st !! i) with
    | None => (resp, y)
    | Some (i, saved) =>
        match ticket with
        | None =>
            let '(suffix, k) := grant_suffix saved None verdict_zero (sl_aux st) (y_aux y) in
            (match suffix with Some t => append_suffix resp t resp_len | None => resp end, mk_lsys st (y_policy y) (y_disk y) k)
        | Some t =>
            let primary := bool_decide (virt_iav_role_of t (y_policy y) = VIRT_IAV_ROLE_PRIMARY) in
            let s := mk_lslot (ls_in_use saved) (ls_uuid saved) (ls_index saved) (ls_epoch saved) (ls_bytes saved) (take VIRT_CAMERA_TICKET_MAX t) primary in
            let st1 := put_slots (<[i := s]> (sl_slots st)) st in
            let '(rc, d') := save_locked r st1 (y_disk y) in
            if negb (rc =? 0) then (format_reply resp_len (R_ERR "PERSIST"), mk_lsys st (y_policy y) d' (y_aux y))
            else
              let '(rc, v, p') := virt_camera_policy_decide t intent primary (y_policy y) in
              let '(suffix, k) := grant_suffix s ticket (if negb (rc =? 0) then verdict_zero else v) (sl_aux st) (y_aux y) in
              (match suffix with Some x => append_suffix resp x resp_len | None => resp end, mk_lsys st1 p' d' k)
        end
    end.

(** A reserve and the suffix of its reply: [r1] is for the lease, [r2] for the ticket. *)
Definition reserve_and_append (r1 r2 : fs_results) (uuid : text) (bytes min_index : Z) (exact : bool) (ticket : option text)
    (intent : virt_camera_intent) (resp_len : nat) (y : lease_sys) : text * lease_sys :=
  let '(reply, st, d) := reserve_range_locked r1 uuid bytes min_index exact (y_lease y) (y_disk y) in
  append_camera_locked r2 uuid ticket intent (format_reply resp_len reply) resp_len (mk_lsys st (y_policy y) d (y_aux y)).

(** virt_slice_lease_admin: the result, the reply and the state; a field that was not read is empty *)
Definition virt_slice_lease_admin (r1 r2 : fs_results) (req : text) (resp_len : nat) (y : lease_sys) : Z * text * lease_sys :=
  if (resp_len =? 0)%nat then (- 1, [], y)
  else
    let err what := (0, format_reply resp_len (R_ERR what), y) in
    let words := scan_words 7 63 req in
    let word i := nth i words [] in
    match words with
    | [] => err "INVAL"%string
    | cmd :: _ =>
        let uuid := word 1%nat in
        let num := word 2%nat in
        if str_eq cmd (lit "RESERVE_SLICE") then
          match parse_u64 num with
          | None => err "INVAL"%string
          | Some value =>
              let '(t, y') := reserve_and_append r1 r2 uuid value 0 false None VIRT_CAMERA_INTENT_ABSENT resp_len y in (0, t, y')
          end
        else if str_eq cmd (lit "RESERVE_SLICE_AT") || str_eq cmd (lit "RESERVE_SLICE_MIN") then
          if negb (length words =? 6)%nat then err "INVAL"%string
          else
            match parse_u64 num, parse_u64 (word 3%nat), virt_camera_intent_parse (word 5%nat) with
            | Some value, Some index, Some intent =>
                if (index >? 2 ^ 32 - 1) || negb (virt_camera_ticket_ok (word 4%nat)) then err "INVAL"%string
                else
                  let '(t, y') := reserve_and_append r1 r2 uuid value index (str_eq cmd (lit "RESERVE_SLICE_AT")) (Some (word 4%nat)) intent resp_len y in
                  (0, t, y')
            | _, _, _ => err "INVAL"%string
            end
        else if str_eq cmd (lit "RELEASE_SLICE") then
          match parse_u64 num with
          | None => err "INVAL"%string
          | Some value => let '(reply, y') := release_locked r1 uuid value y in (0, format_reply resp_len reply, y')
          end
        else if str_eq cmd (lit "QUERY_SLICE") then (0, format_reply resp_len (query_locked uuid (y_lease y)), y)
        else err "UNKNOWN_CMD"%string
    end.

End System.

(** ** Queries of the other modules *)

(** virt_slice_lease_index_used *)
Definition virt_slice_lease_index_used (index : Z) (st : lease_state) : bool := index_taken index (sl_slots st).

(** virt_slice_lease_ticket_of_index, into a buffer of [len] bytes *)
Definition virt_slice_lease_ticket_of_index (index : Z) (len : nat) (st : lease_state) : option (text * bool) :=
  (fun s => (snprintf len (ls_ticket s), ls_primary s)) <$>
    (find_idx (fun s => ls_in_use s && (ls_index s =? index)) (sl_slots st) ≫= (fun i => sl_slots st !! i)).

(** virt_slice_lease_ticket_count *)
Definition virt_slice_lease_ticket_count (ticket : text) (st : lease_state) : nat :=
  match ticket with
  | [] => O
  | _ => length (filter (fun s => ls_in_use s && str_eq (ls_ticket s) ticket = true) (sl_slots st))
  end.

(** virt_slice_lease_foreach: what the callback is called with, in order *)
Definition virt_slice_lease_foreach (st : lease_state) : list (Z * Z * bool * bool) :=
  map (fun s => (ls_index s, ls_epoch s, ls_primary s, match ls_ticket s with [] => false | _ => true end))
      (filter (fun s => ls_in_use s = true) (sl_slots st)).

(** primary_by_ticket: [None] is undecided *)
Definition primary_by_ticket (index : Z) (st : lease_state) (p : policy) : option bool :=
  match virt_slice_lease_ticket_of_index index (VIRT_CAMERA_TICKET_MAX + 1) st with
  | None => None
  | Some ([], _) => None
  | Some (ticket, lease_primary) =>
      Some (lease_primary && bool_decide (virt_iav_role_of ticket p = VIRT_IAV_ROLE_PRIMARY) && (virt_slice_lease_ticket_count ticket st =? 1)%nat)
  end.

(** ** The apertures behind the hooks *)

(** aux_attach_hook and virt_iav_aperture_detach; a composition that has not stopped would never return *)
Definition aperture_hooks {K} (dev : IavAperture.NodeDevice K) (pids : list Z) : AuxHooks (IavAperture.aperture_state * K) := {|
  aux_attach index epoch primary '(a, k) :=
    match IavAperture.virt_iav_aperture_attach pids index epoch primary a k with
    | Some (rc, size, a', k') => (rc, size, (a', k'))
    | None => (- 1, 0, (a, k))
    end;
  aux_detach index '(a, k) := IavAperture.virt_iav_aperture_detach index a k;
|}.

(** adopt_cb over the leases *)
Definition adopt_leases {K} (dev : IavAperture.NodeDevice K) (pids : list Z) (st : lease_state) (ak : IavAperture.aperture_state * K)
    : IavAperture.aperture_state * K :=
  foldl (fun '(a, k) '(index, epoch, primary, ticketed) =>
           if ticketed : bool then
             match IavAperture.virt_iav_aperture_adopt pids index epoch primary a k with
             | Some (_, a', k') => (a', k')
             | None => (a, k)
             end
           else (a, k)) ak (virt_slice_lease_foreach st).

(** setup_apertures from the partitions and the sizes to avoid on; [pinnable] is the broker's answer to the sources *)
Definition setup_apertures {K} (dev : IavAperture.NodeDevice K) (pids : list Z) (parts : list IavAperture.virt_iav_aperture_part) (avoid : list Z) (pinnable : bool)
    (st : lease_state) (ak : IavAperture.aperture_state * K) : lease_state * (IavAperture.aperture_state * K) :=
  let '(rc, a, k) := IavAperture.virt_iav_aperture_init parts avoid (fst ak) (snd ak) in
  if negb (rc =? 0) then (st, (a, k))
  else if negb pinnable then (st, (IavAperture.virt_iav_aperture_reset, k))
  else (virt_slice_lease_set_aux_hooks true st, adopt_leases dev pids st (a, k)).

End SliceLease.
