(* ===== verification/SliceLeaseProps.v ===== *)
(** * Properties of the slice leases

    The table as a map from UUIDs to leases, what a reserve does on every branch, the store read back after a restart,
    and two facts that tie the components together: the broker never takes two lease indexes for primary, and an
    aperture is attached at an index only for the primary lease that holds the index now. *)

From Stdlib Require Import ZArith Lia Bool Ascii String.
From stdpp Require Import base list numbers strings gmap relations.
From S2P Require Import Prelude Text IavWin IavWinProps IavAperture IavApertureProps CameraPolicy CameraPolicyProps SliceLease.
Import Text Store CameraPolicy SliceLease.
#[local] Open Scope Z_scope.
#[local] Open Scope list_scope.

(** ** The table *)

Record slot_ok (s : lease_slot) : Prop := {
  so_uuid : uuid_ok (ls_uuid s) = true;
  so_index : 0 <= ls_index s < 8;
  so_epoch : 0 < ls_epoch s < 2 ^ 64;
  so_bytes : 0 < ls_bytes s < 2 ^ 64;
  so_ticket : ls_ticket s = [] \/ virt_camera_ticket_ok (ls_ticket s) = true;
  so_primary : ls_primary s = true -> ls_ticket s <> [];
}.

Record slots_ok (l : list lease_slot) : Prop := {
  sk_len : length l = LEASE_MAX;
  sk_slot : forall i s, l !! i = Some s -> ls_in_use s = true -> slot_ok s;
  sk_uuid : forall i j s s', l !! i = Some s -> l !! j = Some s' -> ls_in_use s = true -> ls_in_use s' = true -> ls_uuid s = ls_uuid s' -> i = j;
  sk_index : forall i j s s', l !! i = Some s -> l !! j = Some s' -> ls_in_use s = true -> ls_in_use s' = true -> ls_index s = ls_index s' -> i = j;
}.

(** A lease that fits the geometry. *)
Definition fits_geometry (st : lease_state) (s : lease_slot) : Prop := ls_index s < sl_count st /\ ls_bytes s = sl_bytes st.

Record lease_ok (st : lease_state) : Prop := {
  lk_slots : slots_ok (sl_slots st);
  lk_fits : sl_matched st = true -> 1 <= sl_count st <= 8 /\ 0 < sl_bytes st < 2 ^ 64 /\ sl_bytes st mod 4096 = 0 /\
            forall i s, sl_slots st !! i = Some s -> ls_in_use s = true -> fits_geometry st s;
  lk_epoch : 0 <= sl_next_epoch st < 2 ^ 64;
  lk_store : (length (sl_store st) < 256)%nat;
}.

(** Every lease was granted before the next epoch; 0 stands for the epochs used up. *)
Definition epochs_below (st : lease_state) : Prop :=
  sl_next_epoch st <> 0 -> forall i s, sl_slots st !! i = Some s -> ls_in_use s = true -> ls_epoch s < sl_next_epoch st.

(** The lease of a UUID. *)
Definition lease_of (l : list lease_slot) (uuid : text) : option lease_slot := find_uuid uuid l ≫= (fun i => l !! i).
#[global] Arguments lease_of : simpl never.

Lemma find_uuid_spec l uuid :
  match find_uuid uuid l with
  | Some i => exists s, l !! i = Some s /\ ls_in_use s = true /\ ls_uuid s = uuid /\ lease_of l uuid = Some s
  | None => lease_of l uuid = None /\ forall i s, l !! i = Some s -> ls_in_use s = true -> ls_uuid s <> uuid
  end.
Proof.
  unfold lease_of, find_uuid. destruct (find_idx _ l) as [i|] eqn:E; cbn.
  - apply find_idx_Some in E as (s & Hs & Ht & _). bool_hyps. apply str_eq_true in H0. by exists s.
  - split; [done|]. intros i s Hi Hu Ht. pose proof (proj1 (find_idx_None _ _) E i s Hi) as Hf. cbv beta in Hf. by rewrite Hu, Ht, str_eq_refl in Hf.
Qed.

Lemma lease_of_iff l uuid s : slots_ok l -> lease_of l uuid = Some s <-> exists i, l !! i = Some s /\ ls_in_use s = true /\ ls_uuid s = uuid.
Proof.
  intros Hok. pose proof (find_uuid_spec l uuid) as Hf. destruct (find_uuid uuid l) as [i|].
  - destruct Hf as (s0 & Hi & Hu & Ht & ->). split; [intros [= <-]; by exists i|]. intros (j & Hj & Hu' & Ht').
    pose proof (sk_uuid l Hok i j s0 s Hi Hj Hu Hu' ltac:(congruence)) as <-. congruence.
  - destruct Hf as [-> Hf]. split; [done|]. intros (j & Hj & Hu & Ht). by destruct (Hf j s Hj Hu).
Qed.

Lemma index_taken_true l index : index_taken index l = true <-> exists i s, l !! i = Some s /\ ls_in_use s = true /\ ls_index s = index.
Proof.
  unfold index_taken. rewrite existsb_exists. split.
  - intros (s & Hs & E). bool_hyps. apply list_elem_of_In, list_elem_of_lookup in Hs as [i Hi]. by exists i, s.
  - intros (i & s & Hi & Hu & <-). exists s. split; [by eapply list_elem_of_In, list_elem_of_lookup_2|]. by rewrite Hu, Z.eqb_refl.
Qed.

Lemma index_taken_false l index i s : index_taken index l = false -> l !! i = Some s -> ls_in_use s = true -> ls_index s <> index.
Proof. intros E Hi Hu Hx. apply not_true_iff_false in E. apply E, index_taken_true. by exists i, s. Qed.

(** Writing a slot: a lease of the same UUID and index, or a free slot for a new UUID and index, or none. *)
Lemma slot_put l i s0 s :
  slots_ok l -> l !! i = Some s0 -> (ls_in_use s = true -> slot_ok s) ->
  (ls_in_use s = true -> forall j x, l !! j = Some x -> ls_in_use x = true -> ls_uuid x = ls_uuid s \/ ls_index x = ls_index s -> j = i) ->
  slots_ok (<[i := s]> l).
Proof.
  intros Hok Hi Hs Hown. split; [rewrite length_insert; apply Hok|..].
  - intros j x [[-> ->]|[Hne Hj]]%lookup_insert_inv Hu; [by apply Hs|]. by eapply (sk_slot l Hok).
  - intros j k x y [[-> ->]|[Hj Hjl]]%lookup_insert_inv [[-> ->]|[Hk Hkl]]%lookup_insert_inv H1 H2 H3; [done| | |by eapply (sk_uuid l Hok)].
    + by destruct (Hk (Hown H1 k y Hkl H2 (or_introl (eq_sym H3)))).
    + by destruct (Hj (Hown H2 j x Hjl H1 (or_introl H3))).
  - intros j k x y [[-> ->]|[Hj Hjl]]%lookup_insert_inv [[-> ->]|[Hk Hkl]]%lookup_insert_inv H1 H2 H3; [done| | |by eapply (sk_index l Hok)].
    + by destruct (Hk (Hown H1 k y Hkl H2 (or_intror (eq_sym H3)))).
    + by destruct (Hj (Hown H2 j x Hjl H1 (or_intror H3))).
Qed.

(** The map after the slot of [uuid], or a free one, is written. *)
Lemma slot_put_view l i s0 s uuid :
  slots_ok l -> slots_ok (<[i := s]> l) -> l !! i = Some s0 -> (ls_in_use s0 = true -> ls_uuid s0 = uuid) -> (ls_in_use s = true -> ls_uuid s = uuid) ->
  (forall j x, l !! j = Some x -> ls_in_use x = true -> ls_uuid x = uuid -> j = i) ->
  forall u, lease_of (<[i := s]> l) u = if decide (u = uuid) then (if ls_in_use s then Some s else None) else lease_of l u.
Proof.
  intros Hok Hok' Hi H0 Hs Hown u. apply option_eq. intros x. rewrite (lease_of_iff _ _ _ Hok').
  assert (Hat : <[i := s]> l !! i = Some s) by (apply list_lookup_insert_eq; by eapply lookup_lt_Some).
  destruct (decide (u = uuid)) as [->|Hne].
  - split.
    + intros (j & [[-> ->]|[Hj Hjl]]%lookup_insert_inv & H1 & H2); [by rewrite H1|]. by destruct (Hj (Hown j x Hjl H1 H2)).
    + destruct (ls_in_use s) eqn:Eu; [|done]. intros [= <-]. exists i. split_and!; [done..|]. by apply Hs.
  - rewrite (lease_of_iff _ _ _ Hok). split.
    + intros (j & [[-> ->]|[Hj Hjl]]%lookup_insert_inv & H1 & H2); [by rewrite Hs in H2 by done|by exists j].
    + intros (j & Hj & H1 & H2). exists j. split; [|done]. destruct (decide (j = i)) as [->|]; [|by rewrite list_lookup_insert_ne].
      rewrite Hi in Hj. injection Hj as ->. by rewrite H0 in H2 by done.
Qed.

(** ** The store *)

Definition leases_text (l : list lease_slot) : text := concat (map lease_line (filter (fun s => ls_in_use s = true) l)).

Lemma print_leases_ok rs l done_ t : print_leases rs l done_ = Some t -> t = done_ ++ leases_text l.
Proof.
  unfold leases_text. revert rs done_. induction l as [|s l IH]; intros rs done_; cbn [print_leases]; [intros [= <-]; cbn; by rewrite app_nil_r|].
  rewrite filter_cons. destruct (ls_in_use s) eqn:Eu; cbn [negb].
  - rewrite decide_True by done. cbn [map concat]. intros E. rewrite app_assoc. destruct rs as [|[]]; try done; by apply IH in E.
  - rewrite decide_False by done. apply IH.
Qed.

Lemma lease_tmp_ne path : (length path < 256)%nat -> snprintf 288 (path ++ lit ".tmp") <> path.
Proof.
  intros Hl E. apply (f_equal length) in E. unfold snprintf in E. rewrite length_take, length_app in E. change (length (lit ".tmp")) with 4%nat in E. lia.
Qed.

Lemma save_spec r st d rc d' :
  (length (sl_store st) < 256)%nat -> save_locked r st d = (rc, d') ->
  rc = 0 /\ d' !! sl_store st = Some (leases_text (sl_slots st)) \/ rc = - 1 /\ d' !! sl_store st = d !! sl_store st.
Proof.
  intros Hl. pose proof (lease_tmp_ne _ Hl) as Hne. unfold save_locked. set (tmp := snprintf 288 _) in *.
  destruct (negb (fr_mkdir r)); [intros [= <- <-]; by right|]. destruct (negb (fr_open r)); [intros [= <- <-]; by right|].
  assert (Hdel : forall t, delete tmp (<[tmp := t]> d) !! sl_store st = d !! sl_store st) by (intros t; by rewrite lookup_delete_ne, lookup_insert_ne).
  destruct (negb (fr_fchmod r)); [intros [= <- <-]; right; by rewrite Hdel|].
  destruct (print_leases _ _ _) as [t|] eqn:Ep; [|intros [= <- <-]; right; by rewrite Hdel]. rewrite insert_insert_eq.
  destruct (negb (fr_fsync r)); [intros [= <- <-]; right; by rewrite Hdel|]. destruct (negb (fr_rename r)); [intros [= <- <-]; right; by rewrite Hdel|].
  intros [= <- <-]. left. split; [done|]. rewrite lookup_insert_eq. by rewrite (print_leases_ok _ _ _ _ Ep).
Qed.

(** ** Reading a line back *)

Lemma scan_word_spec k w r : w <> [] -> (length w <= k)%nat -> Forall (fun c => isspace c = false) w -> stops r -> scan_word k (w ++ r) = Some (w, r).
Proof.
  intros Hne Hk Hw Hr. unfold scan_word. assert (skip_space (w ++ r) = w ++ r) as ->.
  { destruct Hw as [|c w Hc _]; [done|]. cbn. by rewrite Hc. }
  rewrite scan_chars_word by done. by destruct w.
Qed.

Lemma scan_word_space k r : scan_word k (space :: r) = scan_word k r.
Proof. done. Qed.

Lemma strtoull_print fuel n r :
  0 <= n < 10 ^ (Z.of_nat fuel + 1) -> n < 2 ^ 64 -> no_digit r -> strtoull (print_digits fuel n ++ r) = Some (n, false, r).
Proof.
  intros Hn H64 Hr. destruct (print_digits_spec fuel n Hn) as (ds & Hne & Hds & Hp & Hv). rewrite Hp. unfold strtoull.
  destruct ds as [|d ds]; [done|]. apply Forall_cons in Hds as [Hd Hds]. destruct (digit_char_spec d Hd) as (_ & Hs & _ & _ & Hm & Hpl).
  assert (skip_space (map digit_char (d :: ds) ++ r) = map digit_char (d :: ds) ++ r) as -> by (cbn; by rewrite Hs).
  cbn [map app]. rewrite Hm, Hpl. change (digit_char d :: map digit_char ds ++ r) with (map digit_char (d :: ds) ++ r).
  rewrite scan_digits_map by (by try constructor). rewrite Hv. cbn [length Nat.eqb]. rewrite Z.geb_leb, (proj2 (Z.leb_gt _ _)) by lia.
  assert (drop (S (length ds)) (map digit_char (d :: ds) ++ r) = r) as ->; [|done].
  change (S (length ds)) with (length (d :: ds)). by rewrite <- (length_map digit_char (d :: ds)), drop_app_length.
Qed.

Lemma strtoull_space s : strtoull (space :: s) = strtoull s.
Proof. done. Qed.

Lemma scan_num_print w fuel n r :
  0 <= n < 10 ^ (Z.of_nat fuel + 1) -> n < 2 ^ 64 -> 0 <= n < 2 ^ w -> no_digit r -> scan_num w (space :: print_digits fuel n ++ r) = Some (n, r).
Proof. intros H1 H2 H3 Hr. unfold scan_num. rewrite strtoull_space, strtoull_print by done. by rewrite Z.mod_small. Qed.

Lemma uuid_plain u : uuid_ok u = true -> (1 <= length u <= 36)%nat /\ Forall (fun c => isspace c = false /\ c <> newline /\ c <> "#"%char) u.
Proof.
  unfold uuid_ok. intros H. bool_hyps. apply Nat.ltb_ge in H, H1. split; [lia|]. apply Forall_forall. intros c Hc.
  rewrite forallb_forall in H0. specialize (H0 c (proj1 (list_elem_of_In _ _) Hc)). revert H0. clear.
  destruct c as [[] [] [] [] [] [] [] []]; vm_compute; intros; (done || (split_and!; congruence)).
Qed.

Definition ticket_text (s : lease_slot) : text := match ls_ticket s with [] => lit "-" | t => t end.
Definition role_word (s : lease_slot) : text := if ls_primary s then lit "primary" else lit "consumer".

Lemma ticket_text_plain s : slot_ok s -> ticket_text s <> [] /\ (length (ticket_text s) <= 48)%nat /\ Forall (fun c => isspace c = false) (ticket_text s).
Proof.
  intros Hs. unfold ticket_text. destruct (ls_ticket s) as [|c t] eqn:Et; [split_and!; [done|cbn; lia|by repeat constructor]|].
  destruct (so_ticket s Hs) as [H|H]; [congruence|]. rewrite Et in H. destruct (ticket_plain _ H) as [Hl _]. split_and!; [done|lia|by apply ticket_no_space].
Qed.

Lemma scan_lease_line s :
  slot_ok s -> scan_lease (lease_line s) = (6%nat, (ls_uuid s, ls_index s, ls_epoch s, ls_bytes s, ticket_text s, role_word s)).
Proof.
  intros Hs. destruct (uuid_plain _ (so_uuid s Hs)) as [Hl Hu]. pose proof (so_index s Hs). pose proof (so_epoch s Hs). pose proof (so_bytes s Hs).
  destruct (ticket_text_plain s Hs) as (Ht1 & Ht2 & Ht3). unfold scan_lease, lease_line. fold (ticket_text s) (role_word s). unfold print_u, print_llu.
  rewrite scan_word_spec; [|intros E; rewrite E in Hl; cbn in Hl; lia|lia|eapply Forall_impl; [exact Hu|by intros ? []]|done]. cbn [app].
  rewrite (scan_num_print 32) by (done || (cbn; lia)). rewrite (scan_num_print 64) by (done || (cbn; lia)). rewrite (scan_num_print 64) by (done || (cbn; lia)).
  rewrite scan_word_space, scan_word_spec by (done || lia). rewrite scan_word_space.
  rewrite scan_word_spec; [done|by unfold role_word; destruct (ls_primary s)|unfold role_word; destruct (ls_primary s); cbn; lia| |done].
  unfold role_word. destruct (ls_primary s); by repeat constructor.
Qed.

(** ** The store of a table read by a new server *)

Lemma filter_fmap_nodup {A B} (P : A -> Prop) `{!forall x, Decision (P x)} (f : A -> B) l :
  (forall i j x y, l !! i = Some x -> l !! j = Some y -> P x -> P y -> f x = f y -> i = j) -> NoDup (f <$> filter P l).
Proof.
  induction l as [|x l IH]; intros Hu; [apply NoDup_nil_2|].
  assert (Hl : NoDup (f <$> filter P l)).
  { apply IH. intros i j y z Hi Hj H1 H2 H3. by pose proof (Hu (S i) (S j) y z Hi Hj H1 H2 H3) as [= ->]. }
  rewrite filter_cons. destruct (decide (P x)) as [Hx|]; [|done]. cbn. apply NoDup_cons. split; [|done]. intros (y & Hy & Hin)%list_elem_of_fmap.
  apply list_elem_of_filter in Hin as [Py Hin]. apply list_elem_of_lookup in Hin as [i Hi]. by pose proof (Hu 0%nat (S i) x y eq_refl Hi Hx Py Hy).
Qed.

(** A lease that is read back as it was: its ticket is not the mark of a lease without one. *)
Definition lease_kept (st : lease_state) (s : lease_slot) : Prop := ls_in_use s = true /\ slot_ok s /\ fits_geometry st s /\ ls_ticket s <> lit "-".

Lemma find_free_app (done_ : list lease_slot) k :
  Forall (fun s => ls_in_use s = true) done_ -> find_idx (fun s => negb (ls_in_use s)) (done_ ++ lslot_zero :: repeat lslot_zero k) = Some (length done_).
Proof. induction 1 as [|s l Hs _ IH]; cbn; [done|]. rewrite Hs. cbn. by rewrite IH. Qed.

Lemma absent_uuid l k u : u ∉ (ls_uuid <$> l) -> is_Some (find_uuid u (l ++ repeat lslot_zero k)) <-> False.
Proof.
  intros Hn. split; [|done]. intros [i Hi]. pose proof (find_uuid_spec (l ++ repeat lslot_zero k) u) as Hf. rewrite Hi in Hf.
  destruct Hf as (s & Hs & Hu & <- & _). apply Hn, list_elem_of_fmap. exists s. split; [done|].
  apply lookup_app_Some in Hs as [Hs|[_ Hs]]; [by eapply list_elem_of_lookup_2|]. by apply repeat_lookup in Hs as ->.
Qed.

Lemma absent_index l k x : x ∉ (ls_index <$> l) -> index_taken x (l ++ repeat lslot_zero k) = false.
Proof.
  intros Hn. apply not_true_iff_false. rewrite index_taken_true. intros (i & s & Hs & Hu & <-). apply Hn, list_elem_of_fmap. exists s. split; [done|].
  apply lookup_app_Some in Hs as [Hs|[_ Hs]]; [by eapply list_elem_of_lookup_2|]. by apply repeat_lookup in Hs as ->.
Qed.

Definition geometry_of (st : lease_state) : bool * Z * Z := (sl_matched st, sl_count st, sl_bytes st).

Lemma load_lease_ok st s done_ k :
  sl_matched st = true -> lease_kept st s -> sl_slots st = done_ ++ repeat lslot_zero (S k) -> Forall (fun s => ls_in_use s = true) done_ ->
  ls_uuid s ∉ (ls_uuid <$> done_) -> ls_index s ∉ (ls_index <$> done_) ->
  exists st', load_lease (lease_line s) st = Some st' /\ sl_slots st' = (done_ ++ [s]) ++ repeat lslot_zero k /\ geometry_of st' = geometry_of st.
Proof.
  intros Hm (Hu & Hs & [Hf1 Hf2] & Htk) Hsl Hdone Hnu Hni. pose proof (scan_lease_line s Hs) as Escan. unfold load_lease.
  destruct (uuid_plain _ (so_uuid s Hs)) as [Hl Hpl]. pose proof (so_index s Hs). pose proof (so_epoch s Hs). pose proof (so_bytes s Hs).
  destruct (lease_line s) as [|c line] eqn:El; [unfold lease_line in El; destruct (ls_uuid s); [cbn in Hl; lia|done]|]. rewrite <- El in *.
  assert (Ascii.eqb c "#" || Ascii.eqb c newline = false) as ->.
  { unfold lease_line in El. destruct (ls_uuid s) as [|c' u]; [cbn in Hl; lia|]. injection El as -> _. apply Forall_cons in Hpl as [(_ & H3 & H4) _].
    destruct (Ascii.eqb_spec c "#"); [done|]. by destruct (Ascii.eqb_spec c newline). }
  rewrite Escan. cbn [Nat.ltb Nat.leb Nat.eqb andb]. rewrite (so_uuid s Hs), Hm. cbn [negb orb].
  rewrite (proj2 (Z.eqb_neq (ls_epoch s) 0)), (proj2 (Z.eqb_neq (ls_bytes s) 0)) by lia. rewrite Z.geb_leb, (proj2 (Z.leb_gt _ _)) by lia. rewrite Hf2, Z.eqb_refl. cbn [negb orb].
  rewrite Hsl. rewrite bool_decide_eq_false_2 by (intros Hx; by apply absent_uuid in Hx). rewrite absent_index by done. cbn [orb repeat]. rewrite find_free_app by done.
  set (s' := mk_lslot true _ _ _ _ _ _). assert (Es : s' = s).
  { unfold s', ticket_text, role_word, snprintf. rewrite take_ge by lia. destruct s as [u uu ix ep by_ tk pm]. cbn in *. subst u by_.
    destruct tk as [|c' t'] eqn:Et; [pose proof (so_primary _ Hs) as Hp; cbn in Hp; destruct pm; [by destruct Hp|done]|]. rewrite <- Et in *.
    rewrite (proj2 (str_eq_false _ _) Htk). destruct (so_ticket _ Hs) as [Hb|Hb]; cbn in Hb; [congruence|]. rewrite Hb. destruct (ticket_plain _ Hb) as [Hlt _].
    unfold VIRT_CAMERA_TICKET_MAX. rewrite take_ge by lia. by destruct pm. }
  rewrite Es. eexists. split; [reflexivity|].
  assert (Hins : <[length done_ := s]> (done_ ++ lslot_zero :: repeat lslot_zero k) = (done_ ++ [s]) ++ repeat lslot_zero k).
  { rewrite insert_app_r_alt by lia. rewrite Nat.sub_diag. cbn. by rewrite <- app_assoc. }
  destruct (_ >=? _); cbn; by rewrite Hins.
Qed.

Lemma print_no_newline fuel n : 0 <= n < 10 ^ (Z.of_nat fuel + 1) -> Forall (fun c => c <> newline) (print_digits fuel n).
Proof.
  intros Hn. destruct (print_digits_spec fuel n Hn) as (ds & _ & Hds & -> & _). apply Forall_map. eapply Forall_impl; [exact Hds|].
  intros d Hd. by destruct (digit_char_spec d Hd) as (_ & _ & _ & ? & _).
Qed.

Lemma lease_line_cut s rest : slot_ok s -> next_line 255 (lease_line s ++ rest) = (lease_line s, rest).
Proof.
  intros Hs. destruct (uuid_plain _ (so_uuid s Hs)) as [Hl Hpl]. destruct (ticket_text_plain s Hs) as (_ & Ht2 & Ht3).
  pose proof (so_index s Hs). pose proof (so_epoch s Hs). pose proof (so_bytes s Hs).
  set (body := ls_uuid s ++ [space] ++ print_u (ls_index s) ++ [space] ++ print_llu (ls_epoch s) ++ [space] ++ print_llu (ls_bytes s) ++ [space] ++
               ticket_text s ++ [space] ++ role_word s).
  assert (Eb : lease_line s = body ++ [newline]) by (unfold lease_line, body; fold (ticket_text s) (role_word s); by rewrite <- !app_assoc).
  rewrite Eb, <- app_assoc. cbn [app]. apply next_line_spec.
  - unfold body. rewrite !length_app. cbn [length]. pose proof (print_digits_length 9 (ls_index s)). pose proof (print_digits_length 19 (ls_epoch s)).
    pose proof (print_digits_length 19 (ls_bytes s)). assert (length (role_word s) <= 8)%nat by (unfold role_word; destruct (ls_primary s); cbn; lia).
    unfold print_u, print_llu. lia.
  - assert (Hsp : forall l, Forall (fun c => isspace c = false) l -> Forall (fun c => c <> newline) l).
    { intros l Hf. eapply Forall_impl; [exact Hf|]. by intros c Hc ->. }
    unfold body. rewrite !Forall_app, !Forall_singleton. unfold print_u, print_llu.
    split_and!; try done; [eapply Forall_impl; [exact Hpl|by intros ? (_ & ? & _)]|apply print_no_newline; cbn; lia..|by apply Hsp|].
    unfold role_word. destruct (ls_primary s); by repeat constructor.
Qed.

Lemma lease_line_ne s : slot_ok s -> exists c l, lease_line s = c :: l.
Proof. intros Hs. destruct (uuid_plain _ (so_uuid s Hs)) as [Hl _]. unfold lease_line. destruct (ls_uuid s); [cbn in Hl; lia|]. by eexists _, _. Qed.

(** The leases of a store are put one after the other into the free slots. *)
Lemma load_leases_saved l : forall st done_ k fuel,
  sl_matched st = true -> Forall (lease_kept st) l -> sl_slots st = done_ ++ repeat lslot_zero k -> (length l <= k)%nat ->
  Forall (fun s => ls_in_use s = true) done_ -> NoDup (ls_uuid <$> (done_ ++ l)) -> NoDup (ls_index <$> (done_ ++ l)) ->
  (length (concat (map lease_line l)) <= fuel)%nat ->
  sl_slots (load_leases fuel (concat (map lease_line l)) st) = (done_ ++ l) ++ repeat lslot_zero (k - length l).
Proof.
  induction l as [|s l IH]; intros st done_ k fuel Hm Hl Hsl Hk Hd Hu Hx Hf.
  { cbn. rewrite app_nil_r, Nat.sub_0_r. by destruct fuel. }
  apply Forall_cons in Hl as [Hs Hl]. destruct k as [|k]; [cbn in Hk; lia|]. cbn [map concat] in *. destruct Hs as (Hin & Hso & Hg & Htk).
  destruct (lease_line_ne s Hso) as (c & line & El). destruct fuel as [|fuel]; [rewrite El in Hf; cbn in Hf; lia|].
  destruct (load_lease_ok st s done_ k Hm (conj Hin (conj Hso (conj Hg Htk))) Hsl Hd) as (st' & Eload & Hsl' & Hgeo).
  { rewrite fmap_app in Hu. apply NoDup_app in Hu as (_ & Hu & _). intros Hc. by apply (Hu _ Hc), elem_of_cons; left. }
  { rewrite fmap_app in Hx. apply NoDup_app in Hx as (_ & Hx & _). intros Hc. by apply (Hx _ Hc), elem_of_cons; left. }
  replace (load_leases (S fuel) (lease_line s ++ concat (map lease_line l)) st) with (load_leases fuel (concat (map lease_line l)) st').
  2: { pose proof (lease_line_cut s (concat (map lease_line l)) Hso) as Ecut. rewrite El in Eload, Ecut |- *. cbn [load_leases app] in *. by rewrite Ecut, Eload. }
  replace (done_ ++ s :: l) with ((done_ ++ [s]) ++ l) in * by (by rewrite <- app_assoc).
  assert (Hgeo' : sl_matched st' = true /\ sl_count st' = sl_count st /\ sl_bytes st' = sl_bytes st) by (unfold geometry_of in Hgeo; simplify_eq; by split_and!; congruence).
  destruct Hgeo' as (Hm' & Hc' & Hb'). rewrite (IH st' (done_ ++ [s]) k fuel Hm'); try done.
  - eapply Forall_impl; [exact Hl|]. intros x (H1 & H2 & [H3 H4] & H5). split_and!; try done. split; congruence.
  - cbn in Hk. lia.
  - apply Forall_app. split; [done|by constructor].
  - rewrite length_app, El in Hf. cbn in Hf. lia.
Qed.

Definition in_use (l : list lease_slot) : list lease_slot := filter (fun s => ls_in_use s = true) l.

(** A server that starts with the same geometry and reads the store has the same leases. *)
Lemma load_saved st d st0 :
  lease_ok st -> sl_matched st = true -> (forall i s, sl_slots st !! i = Some s -> ls_in_use s = true -> ls_ticket s <> lit "-") ->
  d !! sl_store st = Some (leases_text (sl_slots st)) ->
  geometry_of st0 = geometry_of st -> sl_slots st0 = repeat lslot_zero LEASE_MAX -> sl_store st0 = sl_store st ->
  sl_slots (virt_slice_lease_load None d st0) = in_use (sl_slots st) ++ repeat lslot_zero (LEASE_MAX - length (in_use (sl_slots st))).
Proof.
  intros Hok Hm Ht Hd Hg Hz Hst. unfold virt_slice_lease_load, fopen. rewrite Hst, Hd. unfold leases_text. fold (in_use (sl_slots st)).
  pose proof (lk_slots st Hok) as Hs. unfold geometry_of in Hg. injection Hg as G1 G2 G3.
  assert (Hin : forall s, s ∈ in_use (sl_slots st) -> exists i, sl_slots st !! i = Some s /\ ls_in_use s = true).
  { intros s [Hu Hs']%list_elem_of_filter. apply list_elem_of_lookup in Hs' as [i Hi]. by exists i. }
  rewrite (load_leases_saved (in_use (sl_slots st)) st0 [] LEASE_MAX); try done.
  - congruence.
  - apply Forall_forall. intros s (i & Hi & Hu)%Hin. split_and!; [done|by eapply sk_slot| |by eapply Ht].
    destruct (lk_fits st Hok Hm) as (_ & _ & _ & Hf). destruct (Hf i s Hi Hu). split; congruence.
  - rewrite <- (sk_len _ Hs). apply length_filter.
  - apply filter_fmap_nodup. intros i j x y Hi Hj H1 H2 H3. by eapply (sk_uuid _ Hs).
  - apply filter_fmap_nodup. intros i j x y Hi Hj H1 H2 H3. by eapply (sk_index _ Hs).
Qed.

Lemma in_use_lookup l k s : (exists i, (in_use l ++ repeat lslot_zero k) !! i = Some s /\ ls_in_use s = true) <-> exists i, l !! i = Some s /\ ls_in_use s = true.
Proof.
  split.
  - intros (i & [Hi|[_ Hi]]%lookup_app_Some & Hu); [|by apply repeat_lookup in Hi as ->].
    apply list_elem_of_lookup_2, list_elem_of_filter in Hi as [_ Hi]. apply list_elem_of_lookup in Hi as [j Hj]. by exists j.
  - intros (i & Hi & Hu). assert (Hin : s ∈ in_use l) by (apply list_elem_of_filter; split; [done|by eapply list_elem_of_lookup_2]).
    apply list_elem_of_lookup in Hin as [j Hj]. exists j. split; [by apply lookup_app_l_Some|done].
Qed.

(** ** Reserving *)

Lemma first_free_spec fuel index count l :
  match first_free fuel index count l with
  | Some i => index <= i < count /\ index_taken i l = false /\ forall j, index <= j < i -> index_taken j l = true
  | None => count - index <= Z.of_nat fuel -> forall j, index <= j < count -> index_taken j l = true
  end.
Proof.
  revert index. induction fuel as [|fuel IH]; intros index; cbn [first_free]; [intros H j Hj; lia|].
  destruct (Z.ltb_spec index count); [|intros _ j Hj; lia]. destruct (index_taken index l) eqn:Et.
  - specialize (IH (index + 1)). destruct (first_free fuel (index + 1) count l) as [i|].
    + destruct IH as (H1 & H2 & H3). split_and!; [lia|lia|done|]. intros j Hj. destruct (decide (j = index)) as [->|]; [done|]. apply H3. lia.
    + intros H0 j Hj. destruct (decide (j = index)) as [->|]; [done|]. apply IH; lia.
  - split_and!; [lia|lia|done|]. intros j Hj. lia.
Qed.

(** The index a request may have. *)
Definition may_take (st : lease_state) (min_index : Z) (exact : bool) (i : Z) : Prop :=
  min_index <= i < sl_count st /\ (exact = true -> i = min_index) /\ index_taken i (sl_slots st) = false.

Lemma pick_spec min_index exact st :
  0 <= min_index -> sl_count st <= 8 ->
  match pick_slice_index min_index exact st with
  | Some i => may_take st min_index exact i /\ forall j, may_take st min_index exact j -> i <= j
  | None => forall i, ~ may_take st min_index exact i
  end.
Proof.
  intros Hm Hc. unfold pick_slice_index, may_take. destruct exact.
  - destruct (Z.geb_spec min_index (sl_count st)); cbn [orb]; [intros i (? & H1 & _); specialize (H1 eq_refl); lia|].
    destruct (index_taken min_index (sl_slots st)) eqn:Et.
    + intros i (_ & H1 & H2). rewrite (H1 eq_refl) in H2. congruence.
    + split; [split_and!; try done; lia|]. intros j (_ & H1 & _). by rewrite (H1 eq_refl).
  - pose proof (first_free_spec LEASE_MAX min_index (sl_count st) (sl_slots st)) as Hf. destruct (first_free _ _ _ _) as [i|].
    + destruct Hf as (H1 & H2 & H3). split; [by split_and!; try lia|]. intros j (Hj & _ & Ht).
      destruct (Z.le_gt_cases i j) as [|Hlt]; [done|]. specialize (H3 j ltac:(lia)). congruence.
    + intros i (Hi & _ & Ht). rewrite Hf in Ht; [done|unfold LEASE_MAX; lia|done].
Qed.

(** A new lease in a free slot. *)
Lemma put_new st j s uuid epoch :
  lease_ok st -> find_idx (fun s => negb (ls_in_use s)) (sl_slots st) = Some j -> lease_of (sl_slots st) uuid = None ->
  index_taken (ls_index s) (sl_slots st) = false -> ls_in_use s = true -> ls_uuid s = uuid -> slot_ok s -> (sl_matched st = true -> fits_geometry st s) ->
  0 <= epoch < 2 ^ 64 ->
  let st' := put_epoch epoch (put_slots (<[j := s]> (sl_slots st)) st) in
  lease_ok st' /\ (forall u, lease_of (sl_slots st') u = if decide (u = uuid) then Some s else lease_of (sl_slots st) u) /\
  sl_slots st !! j = Some (default lslot_zero (sl_slots st !! j)) /\ ls_in_use (default lslot_zero (sl_slots st !! j)) = false.
Proof.
  intros Hok Ej Hnone Hnt Hu Hid Hs Hf He. pose proof (lk_slots st Hok) as Hsl. apply find_idx_Some in Ej as (s0 & Hj & Hfree & _).
  apply negb_true_iff in Hfree. assert (Hnu : forall i x, sl_slots st !! i = Some x -> ls_in_use x = true -> ls_uuid x <> uuid).
  { intros i x Hi Hx Hid'. assert (lease_of (sl_slots st) uuid = Some x) by (apply (lease_of_iff _ _ _ Hsl); by exists i). congruence. }
  assert (Hsl' : slots_ok (<[j := s]> (sl_slots st))).
  { eapply slot_put; [done|done|by intros _|]. intros _ i x Hi Hx [H1|H1]; [by destruct (Hnu i x Hi Hx); congruence|]. by destruct (index_taken_false _ _ _ _ Hnt Hi Hx). }
  cbn. rewrite Hj. cbn. split_and!; try done.
  - split; cbn; [done| |done|apply Hok]. intros Hm. destruct (lk_fits st Hok Hm) as (H1 & H2 & H3 & H4). split_and!; try done; try lia.
    intros i x [[-> ->]|[_ Hi]]%lookup_insert_inv Hx; [by apply Hf|by eapply H4].
  - intros u. rewrite (slot_put_view (sl_slots st) j s0 s uuid); try done; [by rewrite Hu|intros H0; congruence|].
    intros i x Hi Hx Hid'. by destruct (Hnu i x Hi Hx).
Qed.

Definition freed (j : nat) (st : lease_state) : lease_state := put_slots (<[j := lslot_zero]> (sl_slots st)) st.

(** A slot that is given back. *)
Lemma put_free st j s0 uuid :
  lease_ok st -> sl_slots st !! j = Some s0 -> ls_in_use s0 = true -> ls_uuid s0 = uuid ->
  lease_ok (freed j st) /\ forall u, lease_of (sl_slots (freed j st)) u = if decide (u = uuid) then None else lease_of (sl_slots st) u.
Proof.
  intros Hok Hj Hu0 Hid. pose proof (lk_slots st Hok) as Hsl.
  assert (Hown : forall i x, sl_slots st !! i = Some x -> ls_in_use x = true -> ls_uuid x = uuid -> i = j).
  { intros i x Hi Hx H1. apply (sk_uuid _ Hsl i j x s0 Hi Hj Hx Hu0). congruence. }
  assert (Hsl' : slots_ok (<[j := lslot_zero]> (sl_slots st))) by (by eapply slot_put).
  split; [|intros u; cbn; by rewrite (slot_put_view (sl_slots st) j s0 lslot_zero uuid)].
  split; cbn; [done| |apply Hok|apply Hok]. intros Hm. destruct (lk_fits st Hok Hm) as (H1 & H2 & H3 & H4). split_and!; try done; try lia.
  intros i x [[-> ->]|[_ Hi]]%lookup_insert_inv Hx; [done|by eapply H4].
Qed.

(** Eight leases have the eight indexes. *)
Lemma full_table l i : slots_ok l -> find_idx (fun s => negb (ls_in_use s)) l = None -> 0 <= i < 8 -> index_taken i l = true.
Proof.
  intros Hok Hfull Hi. assert (Hu : forall j s, l !! j = Some s -> ls_in_use s = true).
  { intros j s Hj. pose proof (proj1 (find_idx_None _ _) Hfull j s Hj) as Hf. by apply negb_false_iff in Hf. }
  assert (Hnd : NoDup (ls_index <$> l)).
  { apply NoDup_alt. intros j k x Hj Hk. rewrite list_lookup_fmap in Hj, Hk. destruct (l !! j) as [s|] eqn:Es; [|done]. destruct (l !! k) as [s'|] eqn:Es'; [|done].
    cbn in *. simplify_eq. eapply (sk_index l Hok j k s s'); eauto. }
  assert (Hsub : (ls_index <$> l) ⊆+ seqZ 0 8).
  { apply NoDup_submseteq; [done|]. intros x (s & -> & Hs)%list_elem_of_fmap. apply list_elem_of_lookup in Hs as [j Hj]. apply elem_of_seqZ.
    pose proof (so_index s (sk_slot l Hok j s Hj (Hu j s Hj))). lia. }
  assert (Hperm : (ls_index <$> l) ≡ₚ seqZ 0 8).
  { apply submseteq_length_Permutation; [done|]. rewrite length_fmap, length_seqZ, (sk_len l Hok). done. }
  assert (Hin : i ∈ ls_index <$> l) by (rewrite Hperm; apply elem_of_seqZ; lia). apply list_elem_of_fmap in Hin as (s & -> & Hs).
  apply list_elem_of_lookup in Hs as [j Hj]. apply index_taken_true. exists j, s. eauto.
Qed.

(** What a request must satisfy before the table is looked at. *)
Definition request_valid (st : lease_state) (uuid : text) (bytes : Z) : Prop :=
  sl_matched st = true /\ uuid_ok uuid = true /\ bytes = sl_bytes st.

(** The index, if there is one, is the least the request may have. *)
Definition least_index (st : lease_state) (min_index : Z) (exact : bool) (i : Z) : Prop :=
  may_take st min_index exact i /\ forall j, may_take st min_index exact j -> i <= j.

Definition request_errors : list string := ["GEOMETRY"; "INVAL"; "ZERO"; "ALIGN"; "SIZE"]%string.

Definition same_leases (st st' : lease_state) : Prop := forall u, lease_of (sl_slots st') u = lease_of (sl_slots st) u.

Definition same_setup (st st' : lease_state) : Prop :=
  geometry_of st' = geometry_of st /\ sl_store st' = sl_store st /\ sl_aux st' = sl_aux st.

Definition new_lease (uuid : text) (index epoch bytes : Z) : lease_slot := mk_lslot true uuid index epoch bytes [] false.

(** The outcomes of a reserve. *)
Inductive reserved (uuid : text) (bytes min_index : Z) (exact : bool) (st : lease_state) (d : disk) : lease_reply -> lease_state -> disk -> Prop :=
| rs_refused w : ~ request_valid st uuid bytes -> w ∈ request_errors -> reserved uuid bytes min_index exact st d (R_ERR w) st d
| rs_again s : request_valid st uuid bytes -> lease_of (sl_slots st) uuid = Some s -> reserved uuid bytes min_index exact st d (ok_slot s) st d
| rs_exhausted : request_valid st uuid bytes -> lease_of (sl_slots st) uuid = None ->
    (sl_next_epoch st = 0 \/ forall i, ~ may_take st min_index exact i) -> reserved uuid bytes min_index exact st d (R_ERR "EXHAUSTED") st d
| rs_granted i st' d' : request_valid st uuid bytes -> lease_of (sl_slots st) uuid = None -> sl_next_epoch st <> 0 -> least_index st min_index exact i ->
    (forall u, lease_of (sl_slots st') u = if decide (u = uuid) then Some (new_lease uuid i (sl_next_epoch st) bytes) else lease_of (sl_slots st) u) ->
    d' !! sl_store st = Some (leases_text (sl_slots st')) -> sl_next_epoch st' = u64 (sl_next_epoch st + 1) ->
    reserved uuid bytes min_index exact st d (R_LEASE i (sl_next_epoch st)) st' d'
| rs_not_stored st' d' : request_valid st uuid bytes -> lease_of (sl_slots st) uuid = None -> same_leases st st' ->
    d' !! sl_store st = d !! sl_store st -> sl_next_epoch st' = u64 (sl_next_epoch st + 1) -> sl_next_epoch st <> 0 ->
    reserved uuid bytes min_index exact st d (R_ERR "PERSIST") st' d'.

Lemma uuid_short u : uuid_ok u = true -> snprintf 64 u = u.
Proof. intros H. destruct (uuid_plain u H) as [Hl _]. unfold snprintf. apply take_ge. lia. Qed.

(** The epochs stay below the next one when it is counted up and the new lease has it. *)
Lemma epochs_next st st' :
  lease_ok st -> sl_next_epoch st <> 0 -> epochs_below st -> sl_next_epoch st' = u64 (sl_next_epoch st + 1) ->
  (forall i s, sl_slots st' !! i = Some s -> ls_in_use s = true -> ls_epoch s = sl_next_epoch st \/ exists j s', sl_slots st !! j = Some s' /\ ls_in_use s' = true /\ ls_epoch s = ls_epoch s') ->
  epochs_below st'.
Proof.
  intros Hok H0 Hb E H Hn i s Hi Hu. pose proof (lk_epoch st Hok). rewrite E in *. unfold u64 in *.
  destruct (decide (sl_next_epoch st = 2 ^ 64 - 1)) as [Ee|Ene]; [by rewrite Ee in Hn|]. rewrite Z.mod_small by lia.
  destruct (H i s Hi Hu) as [->|(j & s' & Hj & Hu' & ->)]; [lia|]. pose proof (Hb H0 j s' Hj Hu'). lia.
Qed.

Lemma reserve_run r uuid bytes min_index exact st d rep st' d' :
  lease_ok st -> 0 <= min_index -> reserve_range_locked r uuid bytes min_index exact st d = (rep, st', d') ->
  reserved uuid bytes min_index exact st d rep st' d' /\ lease_ok st' /\ same_setup st st' /\ (epochs_below st -> epochs_below st').
Proof.
  intros Hok Hmin. unfold reserve_range_locked.
  assert (Hbad : forall w, ~ request_valid st uuid bytes -> bool_decide (w ∈ request_errors) = true -> (R_ERR w, st, d) = (rep, st', d') ->
            reserved uuid bytes min_index exact st d rep st' d' /\ lease_ok st' /\ same_setup st st' /\ (epochs_below st -> epochs_below st')).
  { intros w Hv Hw [= <- <- <-]. split_and!; try done. apply rs_refused; [done|by apply bool_decide_eq_true in Hw]. }
  destruct (negb (sl_matched st) || _ || _) eqn:Eg; [apply Hbad; [|reflexivity]; intros (Hm & _ & _)|].
  { destruct (lk_fits st Hok Hm) as (H1 & H2 & _). rewrite Hm in Eg. cbn in Eg. apply orb_true_iff in Eg as [E%Z.eqb_eq|E%Z.eqb_eq]; lia. }
  apply orb_false_iff in Eg as [[Em _]%orb_false_iff _]. apply negb_false_iff in Em. destruct (lk_fits st Hok Em) as (Hcnt & Hb & Hal & Hfits).
  destruct (uuid_ok uuid) eqn:Eu; cbn [negb]; [|apply Hbad; [intros (_ & Hx & _); congruence|reflexivity]].
  destruct (Z.eqb_spec bytes 0); [apply Hbad; [intros (_ & _ & Hx); lia|reflexivity]|].
  destruct (Z.eqb_spec (bytes mod 4096) 0); cbn [negb]; [|apply Hbad; [intros (_ & _ & Hx); congruence|reflexivity]].
  destruct (Z.eqb_spec bytes (sl_bytes st)) as [Eb|]; cbn [negb]; [|apply Hbad; [intros (_ & _ & Hx); congruence|reflexivity]].
  assert (Hv : request_valid st uuid bytes) by done. clear Hbad. fold (lease_of (sl_slots st) uuid).
  destruct (lease_of (sl_slots st) uuid) as [s|] eqn:El; [intros [= <- <- <-]; split_and!; try done; by apply rs_again|].
  destruct (Z.eqb_spec (sl_next_epoch st) 0) as [E0|E0]; [intros [= <- <- <-]; split_and!; try done; apply rs_exhausted; try done; by left|].
  pose proof (pick_spec min_index exact st Hmin ltac:(lia)) as Hpick.
  destruct (pick_slice_index min_index exact st) as [index|]; [|intros [= <- <- <-]; split_and!; try done; apply rs_exhausted; try done; by right].
  pose proof Hpick as [(Hix & _ & Hnt) _].
  destruct (find_idx _ (sl_slots st)) as [j|] eqn:Ej; [|rewrite (full_table _ index (lk_slots st Hok) Ej ltac:(lia)) in Hnt; done].
  rewrite uuid_short by done. fold (new_lease uuid index (sl_next_epoch st) bytes). set (s := new_lease _ _ _ _).
  assert (Hs : slot_ok s) by (pose proof (lk_epoch st Hok); split; cbn; try done; try lia; by left).
  destruct (put_new st j s uuid (u64 (sl_next_epoch st + 1)) Hok Ej El Hnt eq_refl eq_refl Hs ltac:(intros _; split; cbn; [lia|done]) ltac:(apply u64_range))
    as (Hok1 & Hview & Hj & Hfree). set (st1 := put_epoch _ _) in *.
  assert (Hback : forall i x, i <> j -> sl_slots st1 !! i = Some x -> sl_slots st !! i = Some x) by (intros i x Hne; cbn; by rewrite list_lookup_insert_ne).
  destruct (save_locked r st1 d) as [rc d1] eqn:Es. destruct (save_spec r st1 d rc d1 (lk_store st1 Hok1) Es) as [[-> Hd1]|[-> Hd1]]; cbn [negb Z.eqb]; intros [= <- <- <-].
  - split_and!; try done.
    + by eapply rs_granted.
    + intros Hb'. apply (epochs_next st); try done. intros i x [[-> ->]|[_ Hi]]%lookup_insert_inv Hx; [by left|]. right. by exists i, x.
  - assert (Hj1 : sl_slots st1 !! j = Some s) by (cbn; apply list_lookup_insert_eq; by eapply lookup_lt_Some).
    destruct (put_free st1 j s uuid Hok1 Hj1 eq_refl eq_refl) as [Hok2 Hview2]. fold (freed j st1). split_and!; try done.
    + apply rs_not_stored; try done. intros u. rewrite Hview2, Hview. destruct (decide (u = uuid)) as [->|]; congruence.
    + intros Hb'. apply (epochs_next st); try done. intros i x [[-> ->]|[Hne Hi]]%lookup_insert_inv Hx; [done|]. right. exists i, x. split; [|done]. by apply Hback.
Qed.

(** ** The ticket of a reserve *)

Lemma print_llu_length n : (length (print_llu n) <= 20)%nat.
Proof. apply print_digits_length. Qed.

(** The verdict always fits in the buffer of the suffix, and so do the aperture and the role. *)
Lemma verdict_fits v : exists n t, virt_camera_verdict_format v 160 = (n, t) /\ 0 <= n /\ (length t <= 109)%nat.
Proof.
  assert (Hadd : forall (b : bool) name x (t : text) m, length name = 5%nat -> (length t <= m)%nat ->
            (length (if b then t ++ name ++ print_llu x else t) <= m + 25)%nat).
  { intros b name x t m Hn Ht. pose proof (print_llu_length x). destruct b; [|lia]. rewrite !length_app. lia. }
  unfold virt_camera_verdict_format. cbn [Nat.eqb]. eexists _, _. split; [reflexivity|]. cbv zeta beta.
  match goal with |- context [snprintf 160 ?x] => set (t := x) end. assert (Ht : (length t <= 109)%nat).
  { apply (Hadd _ _ _ _ 84%nat); [done|]. apply (Hadd _ _ _ _ 59%nat); [done|]. pose proof (print_llu_length (vd_dsp v)). pose proof (print_llu_length (vd_bsb v)).
    destruct (vd_camera v); [|cbn; lia]. rewrite !length_app. change (length (lit " camera=1 dsp=")) with 14%nat. change (length (lit " bsb=")) with 5%nat. lia. }
  rewrite (proj2 (Nat.leb_gt 160 (length t))) by lia. split; [lia|]. unfold snprintf. rewrite length_take. lia.
Qed.

Section Append.
Context {K : Type} {hooks : AuxHooks K}.

(** The state behind the hooks after a ticketed grant. *)
Definition after_grant (s : lease_slot) (camera : bool) (aux : bool) (k : K) : K :=
  if aux then snd (aux_attach (ls_index s) (ls_epoch s) (camera && ls_primary s) k) else k.

Lemma grant_suffix_none s v aux (k : K) : exists t, grant_suffix s None v aux k = (Some t, k).
Proof. unfold grant_suffix. destruct (verdict_fits v) as (n & t & -> & Hn & _). rewrite (proj2 (Z.ltb_ge _ _)) by lia. by exists t. Qed.

Lemma grant_suffix_some s tk v aux (k : K) : exists t, grant_suffix s (Some tk) v aux k = (Some t, after_grant s (vd_camera v) aux k).
Proof.
  unfold grant_suffix, after_grant. destruct (verdict_fits v) as (n & t & -> & Hn & Ht). rewrite (proj2 (Z.ltb_ge _ _)) by lia.
  assert (Hfin : forall (shown : bool) size (k' : K), exists x,
    (let t1 := if shown then t ++ lit " aux=" ++ print_llu size else t in
     if (160 <=? length t1)%nat then (None, k')
     else let t2 := t1 ++ lit " role=" ++ (if ls_primary s then lit "primary" else lit "consumer") in
          if (160 <=? length t2)%nat then (None, k') else (Some t2, k')) = (Some x, k')).
  { intros shown size k'. cbn zeta. pose proof (print_llu_length size). set (t1 := if shown then _ else t).
    assert (H1 : (length t1 <= 134)%nat) by (unfold t1; destruct shown; [|lia]; rewrite !length_app; change (length (lit " aux=")) with 5%nat; lia).
    rewrite (proj2 (Nat.leb_gt 160 (length t1))) by lia. set (t2 := t1 ++ _).
    assert (H2 : (length t2 <= 148)%nat) by (unfold t2; rewrite !length_app; change (length (lit " role=")) with 6%nat; destruct (ls_primary s); cbn; lia).
    rewrite (proj2 (Nat.leb_gt 160 (length t2))) by lia. by eexists. }
  destruct aux; [|exact (Hfin false 0 k)]. destruct (aux_attach _ _ _ k) as [[rc size] k']. apply Hfin.
Qed.

(** The lease of a ticketed grant. *)
Definition ticketed (s : lease_slot) (t : text) (primary : bool) : lease_slot :=
  mk_lslot (ls_in_use s) (ls_uuid s) (ls_index s) (ls_epoch s) (ls_bytes s) t primary.

Definition set_view (uuid : text) (s : lease_slot) (l l' : list lease_slot) : Prop :=
  forall u, lease_of l' u = if decide (u = uuid) then Some s else lease_of l u.

(** The outcomes of the appending. *)
Inductive appended (uuid : text) (ticket : option text) (intent : virt_camera_intent) (resp : text) (n : nat) (y : lease_sys) : text -> lease_sys -> Prop :=
| ad_legacy resp' : ticket = None -> appended uuid ticket intent resp n y resp' y
| ad_same : (starts_with (lit "OK index=") resp = false \/ lease_of (sl_slots (y_lease y)) uuid = None) -> appended uuid ticket intent resp n y resp y
| ad_not_stored d' : d' !! sl_store (y_lease y) = y_disk y !! sl_store (y_lease y) ->
    appended uuid ticket intent resp n y (format_reply n (R_ERR "PERSIST")) (mk_lsys (y_lease y) (y_policy y) d' (y_aux y))
| ad_recorded resp' t s st' rc v p' d' :
    ticket = Some t -> starts_with (lit "OK index=") resp = true -> lease_of (sl_slots (y_lease y)) uuid = Some s ->
    let s' := ticketed s t (bool_decide (virt_iav_role_of t (y_policy y) = VIRT_IAV_ROLE_PRIMARY)) in
    set_view uuid s' (sl_slots (y_lease y)) (sl_slots st') -> same_setup (y_lease y) st' -> sl_next_epoch st' = sl_next_epoch (y_lease y) ->
    d' !! sl_store st' = Some (leases_text (sl_slots st')) ->
    virt_camera_policy_decide t intent (ls_primary s') (y_policy y) = (rc, v, p') ->
    appended uuid ticket intent resp n y resp'
      (mk_lsys st' p' d' (after_grant s' (vd_camera (if negb (rc =? 0) then verdict_zero else v)) (sl_aux (y_lease y)) (y_aux y))).

Lemma put_same st i s s' :
  lease_ok st -> sl_slots st !! i = Some s -> ls_in_use s = true -> slot_ok s' -> ls_in_use s' = true -> ls_uuid s' = ls_uuid s -> ls_index s' = ls_index s ->
  ls_bytes s' = ls_bytes s -> ls_epoch s' = ls_epoch s ->
  let st' := put_slots (<[i := s']> (sl_slots st)) st in
  lease_ok st' /\ set_view (ls_uuid s) s' (sl_slots st) (sl_slots st') /\ (epochs_below st -> epochs_below st').
Proof.
  intros Hok Hi Hu Hs' Hu' E1 E2 E3 E4. pose proof (lk_slots st Hok) as Hsl.
  assert (Hown : forall j x, sl_slots st !! j = Some x -> ls_in_use x = true -> ls_uuid x = ls_uuid s -> j = i).
  { intros j x Hj Hx H1. by apply (sk_uuid _ Hsl j i x s Hj Hi Hx Hu). }
  assert (Hsl' : slots_ok (<[i := s']> (sl_slots st))).
  { eapply slot_put; [done|done|by intros _|]. intros _ j x Hj Hx [H1|H1]; [apply (Hown j x Hj Hx); congruence|].
    apply (sk_index _ Hsl j i x s Hj Hi Hx Hu). congruence. }
  cbn. split_and!.
  - split; cbn; [done| |apply Hok|apply Hok]. intros Hm. destruct (lk_fits st Hok Hm) as (H1 & H2 & H3 & H4). split_and!; try done; try lia.
    intros j x [[-> ->]|[_ Hj]]%lookup_insert_inv Hx; [|by eapply H4]. destruct (H4 i s Hi Hu). split; cbn; congruence.
  - intros u. rewrite (slot_put_view (sl_slots st) i s s' (ls_uuid s)); try done. by rewrite Hu'.
  - intros Hb Hn j x [[-> ->]|[_ Hj]]%lookup_insert_inv Hx; cbn; [rewrite E4; by eapply Hb|by eapply Hb].
Qed.

Lemma append_run r uuid ticket intent resp n (y : lease_sys) txt y' :
  lease_ok (y_lease y) -> (forall t, ticket = Some t -> virt_camera_ticket_ok t = true) ->
  append_camera_locked r uuid ticket intent resp n y = (txt, y') ->
  appended uuid ticket intent resp n y txt y' /\ lease_ok (y_lease y') /\ (epochs_below (y_lease y) -> epochs_below (y_lease y')).
Proof.
  intros Hok Ht. unfold append_camera_locked. destruct y as [st p d k]. cbn [y_lease y_policy y_disk y_aux] in *.
  destruct (starts_with _ resp) eqn:Eok; cbn [negb]; [|intros [= <- <-]; split_and!; try done; apply ad_same; by left].
  pose proof (find_uuid_spec (sl_slots st) uuid) as Hf. destruct (find_uuid uuid (sl_slots st)) as [i|]; cbn [mbind option_bind].
  2: { intros [= <- <-]. split_and!; try done. apply ad_same. right. apply Hf. }
  destruct Hf as (s & Hi & Hu & Hid & Hof). rewrite Hi. cbn [fmap option_fmap option_map].
  destruct ticket as [t|].
  2: { destruct (grant_suffix_none s verdict_zero (sl_aux st) k) as [x ->]. intros [= <- <-]. split_and!; try done. by apply ad_legacy. }
  specialize (Ht t eq_refl). destruct (ticket_plain t Ht) as [Hlt _]. unfold VIRT_CAMERA_TICKET_MAX. rewrite take_ge by lia.
  set (primary := bool_decide _). fold (ticketed s t primary). set (s' := ticketed s t primary).
  assert (Hs' : slot_ok s').
  { destruct (sk_slot _ (lk_slots st Hok) i s Hi Hu). split; cbn; try done; [by right|]. intros _ ->. by vm_compute in Ht. }
  destruct (put_same st i s s' Hok Hi Hu Hs' Hu eq_refl eq_refl eq_refl eq_refl) as (Hok1 & Hview & Hep). set (st1 := put_slots _ st) in *.
  destruct (save_locked r st1 d) as [rc d1] eqn:Es. destruct (save_spec r st1 d rc d1 (lk_store st1 Hok1) Es) as [[-> Hd1]|[-> Hd1]]; cbn [negb Z.eqb].
  - destruct (virt_camera_policy_decide t intent primary p) as [[rc2 v] p'] eqn:Ed.
    destruct (grant_suffix_some s' t (if negb (rc2 =? 0) then verdict_zero else v) (sl_aux st) k) as [x ->]. intros [= <- <-]. split_and!; try done.
    eapply (ad_recorded uuid (Some t) intent resp n (mk_lsys st p d k)); try done. by rewrite <- Hid.
  - intros [= <- <-]. split_and!; try done. by apply (ad_not_stored uuid (Some t) intent resp n (mk_lsys st p d k)).
Qed.

(** The outcomes of a release. *)
Inductive released (uuid : text) (epoch : Z) (y : lease_sys) : lease_reply -> lease_sys -> Prop :=
| rl_refused w : w ∈ (["INVAL"; "NOT_FOUND"; "STALE"]%string) -> released uuid epoch y (R_ERR w) y
| rl_not_stored d' : d' !! sl_store (y_lease y) = y_disk y !! sl_store (y_lease y) ->
    released uuid epoch y (R_ERR "PERSIST") (mk_lsys (y_lease y) (y_policy y) d' (y_aux y))
| rl_done s st' d' :
    lease_of (sl_slots (y_lease y)) uuid = Some s -> ls_epoch s = epoch ->
    (forall u, lease_of (sl_slots st') u = if decide (u = uuid) then None else lease_of (sl_slots (y_lease y)) u) ->
    same_setup (y_lease y) st' -> d' !! sl_store st' = Some (leases_text (sl_slots st')) ->
    released uuid epoch y R_OK (mk_lsys st' (y_policy y) d' (if sl_aux (y_lease y) then aux_detach (ls_index s) (y_aux y) else y_aux y)).

Lemma release_run r uuid epoch (y : lease_sys) rep y' :
  lease_ok (y_lease y) -> release_locked r uuid epoch y = (rep, y') ->
  released uuid epoch y rep y' /\ lease_ok (y_lease y') /\ (epochs_below (y_lease y) -> epochs_below (y_lease y')).
Proof.
  intros Hok. unfold release_locked. destruct y as [st p d k]. cbn [y_lease y_policy y_disk y_aux] in *.
  assert (Href : forall w, bool_decide (w ∈ ["INVAL"; "NOT_FOUND"; "STALE"]%string) = true -> (R_ERR w, mk_lsys st p d k) = (rep, y') ->
            released uuid epoch (mk_lsys st p d k) rep y' /\ lease_ok (y_lease y') /\ (epochs_below st -> epochs_below (y_lease y'))).
  { intros w Hw [= <- <-]. split_and!; try done. apply rl_refused. by apply bool_decide_eq_true in Hw. }
  destruct (negb (uuid_ok uuid)); [by apply Href|].
  pose proof (find_uuid_spec (sl_slots st) uuid) as Hf. destruct (find_uuid uuid (sl_slots st)) as [i|]; cbn [mbind option_bind]; [|by apply Href].
  destruct Hf as (s & Hi & Hu & Hid & Hof). rewrite Hi. cbn [fmap option_fmap option_map].
  destruct (Z.eqb_spec (ls_epoch s) epoch) as [He|]; cbn [negb]; [|by apply Href]. clear Href. fold (freed i st).
  destruct (put_free st i s uuid Hok Hi Hu Hid) as [Hok1 Hview]. destruct (save_locked r (freed i st) d) as [rc d1] eqn:Es.
  destruct (save_spec r (freed i st) d rc d1 (lk_store _ Hok1) Es) as [[-> Hd1]|[-> Hd1]]; cbn [negb Z.eqb]; intros [= <- <-].
  - split_and!; try done; [by eapply (rl_done uuid epoch (mk_lsys st p d k))|].
    intros Hb Hn j x [[-> ->]|[_ Hj]]%lookup_insert_inv Hx; [done|]. by eapply Hb.
  - split_and!; try done. by apply (rl_not_stored uuid epoch (mk_lsys st p d k)).
Qed.

End Append.

(** ** Loading and the geometry *)

Definition keeps (st st' : lease_state) : Prop := forall i s, sl_slots st !! i = Some s -> ls_in_use s = true -> sl_slots st' !! i = Some s.

(** No lease has the last epoch, and the epochs are not used up. *)
Definition epochs_left (st : lease_state) : Prop := forall i s, sl_slots st !! i = Some s -> ls_in_use s = true -> ls_epoch s <> 2 ^ 64 - 1.

Lemma scan_num_range w s v r : 0 <= w -> scan_num w s = Some (v, r) -> 0 <= v < 2 ^ w.
Proof. unfold scan_num. intros Hw. destruct (strtoull s) as [[[x o] r']|]; [|done]. intros [= <- _]. apply Z.mod_pos_bound. lia. Qed.

Lemma scan_lease_range line f uuid index epoch bytes t role :
  scan_lease line = (f, (uuid, index, epoch, bytes, t, role)) -> 0 <= index /\ 0 <= epoch < 2 ^ 64 /\ 0 <= bytes < 2 ^ 64.
Proof.
  unfold scan_lease. destruct (scan_word 63 line) as [[u s]|]; [|intros; simplify_eq; lia].
  destruct (scan_num 32 s) as [[x s1]|] eqn:E1; [apply scan_num_range in E1; [|lia]|intros; simplify_eq; lia].
  destruct (scan_num 64 s1) as [[e s2]|] eqn:E2; [apply scan_num_range in E2; [|lia]|intros; simplify_eq; lia].
  destruct (scan_num 64 s2) as [[b s3]|] eqn:E3; [apply scan_num_range in E3; [|lia]|intros; simplify_eq; lia].
  destruct (scan_word 63 s3) as [[tk s4]|]; [|intros; simplify_eq; lia]. destruct (scan_word 63 s4) as [[ro s5]|]; intros; simplify_eq; lia.
Qed.

Lemma load_lease_run line st st' :
  lease_ok st -> load_lease line st = Some st' ->
  lease_ok st' /\ same_setup st st' /\ keeps st st' /\
  (sl_next_epoch st <> 0 -> epochs_below st -> epochs_left st' -> sl_next_epoch st' <> 0 /\ epochs_below st').
Proof.
  intros Hok. assert (Hskip : Some st = Some st' -> lease_ok st' /\ same_setup st st' /\ keeps st st' /\
    (sl_next_epoch st <> 0 -> epochs_below st -> epochs_left st' -> sl_next_epoch st' <> 0 /\ epochs_below st')) by (intros [= <-]; split; [done|]; split; [done|]; split; [by intros ? ?|done]).
  destruct line as [|c line]; [exact Hskip|]. cbn [load_lease]. destruct (_ || _); [exact Hskip|].
  destruct (scan_lease (c :: line)) as [f [[[[[uuid index] epoch] bytes] t] role]] eqn:Es. apply scan_lease_range in Es as (Hx & He & Hb).
  destruct (f <? 4)%nat; [exact Hskip|]. set (tk := (f =? 6)%nat && _ && _ && _).
  destruct (negb (uuid_ok uuid) || _ || _) eqn:E1; [exact Hskip|]. bool_hyps.
  destruct (negb (sl_matched st) || _ || _) eqn:E2; [exact Hskip|]. apply orb_false_iff in E2 as [[Hm E2]%orb_false_iff E3]. apply negb_false_iff in Hm, E3.
  destruct (bool_decide _ || _) eqn:E4; [exact Hskip|]. apply orb_false_iff in E4 as [E4 Hnt]. destruct (find_idx _ _) as [j|] eqn:Ej; [|done].
  destruct (lk_fits st Hok Hm) as (Hcnt & Hbt & _). rewrite Z.geb_leb in E2. apply Z.leb_gt in E2. apply Z.eqb_eq in E3. subst bytes.
  assert (Htk : tk = true -> virt_camera_ticket_ok t = true) by (unfold tk; intros Et; by bool_hyps).
  assert ((if tk then take VIRT_CAMERA_TICKET_MAX t else []) = (if tk then t else [])) as ->.
  { destruct tk; [|done]. destruct (ticket_plain t (Htk eq_refl)) as [Hl _]. unfold VIRT_CAMERA_TICKET_MAX. by rewrite take_ge by lia. }
  rewrite uuid_short by done. set (s := mk_lslot _ _ _ _ _ _ _).
  assert (Hs : slot_ok s).
  { split; cbn; try done; try lia; destruct tk; [right; by apply Htk|by left| |done]. specialize (Htk eq_refl). by intros _ ->. }
  assert (Hnone : lease_of (sl_slots st) uuid = None).
  { pose proof (find_uuid_spec (sl_slots st) uuid) as Hf. destruct (find_uuid uuid (sl_slots st)); [by apply bool_decide_eq_false in E4; destruct E4|apply Hf]. }
  assert (Hput : forall e, 0 <= e < 2 ^ 64 -> lease_ok (put_epoch e (put_slots (<[j:=s]> (sl_slots st)) st)) /\ keeps st (put_epoch e (put_slots (<[j:=s]> (sl_slots st)) st))).
  { intros e Hee. destruct (put_new st j s uuid e Hok Ej Hnone Hnt eq_refl eq_refl Hs ltac:(by intros _; split; cbn) Hee) as (H1' & _ & Hj & Hfree). split; [done|].
    intros i x Hi Hux. cbn. destruct (decide (i = j)) as [->|]; [|by rewrite list_lookup_insert_ne]. rewrite Hi in Hfree. cbn in Hfree. congruence. }
  intros E. set (e := if epoch >=? sl_next_epoch st then (if epoch =? 2 ^ 64 - 1 then 0 else epoch + 1) else sl_next_epoch st).
  pose proof (lk_epoch st Hok) as Hn. assert (Hee : 0 <= e < 2 ^ 64) by (unfold e; destruct (_ >=? _); [destruct (Z.eqb_spec epoch (2 ^ 64 - 1))|]; lia).
  set (st1 := put_slots _ st) in E. assert (st' = put_epoch e st1) as -> by (injection E as <-; unfold e; cbn; by destruct (_ >=? _)).
  destruct (Hput e Hee) as [H1' H2']. split_and!; try done. intros Hn0 Hbl Hlast.
  assert (Hj : (j < length (sl_slots st))%nat) by (apply find_idx_Some in Ej as (s0 & Hj & _); by eapply lookup_lt_Some).
  assert (epoch <> 2 ^ 64 - 1) as Hne by (apply (Hlast j s); [cbn; by apply list_lookup_insert_eq|done]).
  assert (Hmax : sl_next_epoch st <= e /\ epoch < e).
  { unfold e. rewrite Z.geb_leb. destruct (Z.leb_spec (sl_next_epoch st) epoch); [rewrite (proj2 (Z.eqb_neq _ _)) by done|]; lia. }
  cbn. split; [lia|]. intros _ i x [[-> ->]|[_ Hi]]%lookup_insert_inv Hux; cbn; [lia|]. pose proof (Hbl Hn0 i x Hi Hux). lia.
Qed.

Lemma same_setup_trans a b c : same_setup a b -> same_setup b c -> same_setup a c.
Proof. intros (? & ? & ?) (? & ? & ?). split_and!; congruence. Qed.

Lemma keeps_left st st' : keeps st st' -> epochs_left st' -> epochs_left st.
Proof. intros Hk Hl i s Hi Hu. eapply Hl; [by apply Hk|done]. Qed.

Lemma load_leases_run fuel s st :
  lease_ok st -> let st' := load_leases fuel s st in
  lease_ok st' /\ same_setup st st' /\ keeps st st' /\
  (sl_next_epoch st <> 0 -> epochs_below st -> epochs_left st' -> sl_next_epoch st' <> 0 /\ epochs_below st').
Proof.
  revert s st. induction fuel as [|fuel IH]; intros s st Hok; [cbn; split_and!; try done; by intros ? ?|].
  cbn [load_leases]. destruct s as [|c s]; [split_and!; try done; by intros ? ?|]. destruct (next_line 255 (c :: s)) as [line rest].
  destruct (load_lease line st) as [st1|] eqn:E; [|split_and!; try done; by intros ? ?].
  destruct (load_lease_run line st st1 Hok E) as (Hok1 & Hs1 & Hk1 & He1). destruct (IH rest st1 Hok1) as (Hok2 & Hs2 & Hk2 & He2). cbn zeta. split_and!; try done.
  - by eapply same_setup_trans.
  - intros i x Hi Hu. apply Hk2; [by apply Hk1|done].
  - intros Hn Hb Hl. destruct (He1 Hn Hb (keeps_left _ _ Hk2 Hl)) as [H1 H2]. by apply He2.
Qed.

Lemma load_run err d st :
  lease_ok st -> let st' := virt_slice_lease_load err d st in
  lease_ok st' /\ same_setup st st' /\ keeps st st' /\
  (sl_next_epoch st <> 0 -> epochs_below st -> epochs_left st' -> sl_next_epoch st' <> 0 /\ epochs_below st').
Proof.
  intros Hok. unfold virt_slice_lease_load. destruct (fopen err (sl_store st) d); [cbn; split_and!; try done; by intros ? ?|by apply load_leases_run].
Qed.

Lemma reset_ok : lease_ok virt_slice_lease_reset.
Proof.
  split; cbn [sl_slots sl_matched sl_next_epoch sl_store virt_slice_lease_reset]; [|done|lia|by cbn; lia].
  split; [done|..]; intros i; intros; match goal with H : repeat lslot_zero LEASE_MAX !! i = Some _ |- _ => by apply repeat_lookup in H as -> end.
Qed.

Definition geometry_args (count bytes : Z) : Prop := 0 <= count < 2 ^ 32 /\ 0 <= bytes < 2 ^ 64.

Lemma set_geometry_run r matched count bytes st d st' d' :
  lease_ok st -> geometry_args count bytes -> virt_slice_lease_set_geometry r matched count bytes st d = (st', d') ->
  lease_ok st' /\ (epochs_below st -> epochs_below st') /\ sl_aux st' = sl_aux st /\
  (existsb (slot_misfit count bytes) (sl_slots st) = false -> keeps st st').
Proof.
  intros Hok [Hc Hb]. unfold virt_slice_lease_set_geometry. destruct (_ && _ && _ && _ && _) eqn:Eg; intros [= <- _].
  - apply andb_true_iff in Eg as [[[[Em E1]%andb_true_iff E2]%andb_true_iff E3]%andb_true_iff E4]. rewrite Z.geb_leb in E1. unfold LEASE_MAX in E2. bool_hyps.
    set (f := fun s => if slot_misfit count bytes s then lslot_zero else s).
    assert (Hf : forall i s, map f (sl_slots st) !! i = Some s -> ls_in_use s = true -> sl_slots st !! i = Some s /\ slot_misfit count bytes s = false).
    { intros i s Hi Hu. apply lookup_map_inv in Hi as (s0 & Hi & ->). unfold f in *. destruct (slot_misfit count bytes s0) eqn:Es; done. }
    pose proof (lk_slots st Hok) as Hsl. split_and!; try done.
    + split; cbn [sl_slots sl_matched sl_count sl_bytes sl_next_epoch sl_store]; [|intros _|apply Hok|apply Hok].
      * split; [rewrite length_map; apply Hsl|..].
        -- intros i s Hi Hu. destruct (Hf i s Hi Hu). by eapply sk_slot.
        -- intros i j s s' Hi Hj Hu Hu' E. destruct (Hf i s Hi Hu), (Hf j s' Hj Hu'). by eapply (sk_uuid _ Hsl i j s s').
        -- intros i j s s' Hi Hj Hu Hu' E. destruct (Hf i s Hi Hu), (Hf j s' Hj Hu'). by eapply (sk_index _ Hsl i j s s').
      * split_and!; try lia; try done. intros i s Hi Hu. destruct (Hf i s Hi Hu) as [_ Hm]. unfold slot_misfit in Hm. rewrite Hu in Hm. cbn in Hm.
        apply orb_false_iff in Hm as [Hm1 Hm2]. rewrite Z.geb_leb in Hm1. apply Z.leb_gt in Hm1. apply negb_false_iff, Z.eqb_eq in Hm2. done.
    + intros Hbl Hn i s Hi Hu. destruct (Hf i s Hi Hu). by eapply Hbl.
    + intros Hno i s Hi Hu. cbn. rewrite list_lookup_fmap, Hi. cbn. unfold f. destruct (slot_misfit count bytes s) eqn:Es; [|done].
      apply not_true_iff_false in Hno. exfalso. apply Hno, existsb_exists. exists s. split; [by eapply list_elem_of_In, list_elem_of_lookup_2|done].
  - split_and!; try done; [|by intros _ ? ?]. split; cbn; [apply Hok|done|apply Hok|apply Hok].
Qed.

(** ** Requests *)

Lemma scan_digits_nonneg acc s : 0 <= acc -> 0 <= fst (scan_digits acc s).
Proof.
  revert acc. induction s as [|c s IH]; intros acc Ha; cbn [scan_digits]; [done|]. destruct (digit_of c) as [d|] eqn:Ed; [|done].
  assert (0 <= d) by (unfold digit_of in Ed; destruct (_ && _) eqn:E; simplify_eq; bool_hyps; lia).
  specialize (IH (acc * 10 + d) ltac:(lia)). by destruct (scan_digits _ s).
Qed.

Lemma strtoull_range s v o r : strtoull s = Some (v, o, r) -> 0 <= v < 2 ^ 64.
Proof.
  assert (Hval : forall (neg : bool) r0, (let '(v, k) := scan_digits 0 r0 in
    if (k =? 0)%nat then None else if v >=? 2 ^ 64 then Some (2 ^ 64 - 1, true, drop k r0) else Some (if neg then u64 (- v) else v, false, drop k r0)) = Some (v, o, r) ->
    0 <= v < 2 ^ 64).
  { intros neg r0. pose proof (scan_digits_nonneg 0 r0 ltac:(lia)) as Hn. destruct (scan_digits 0 r0) as [x k]. cbn in Hn. destruct (k =? 0)%nat; [done|]. rewrite Z.geb_leb.
    destruct (Z.leb_spec (2 ^ 64) x); intros [= <- _ _]; [lia|]. destruct neg; [apply u64_range|lia]. }
  unfold strtoull. cbv zeta. destruct (skip_space s) as [|c s1]; [by apply (Hval false)|].
  destruct (Ascii.eqb c "-"); [by apply (Hval true)|]. destruct (Ascii.eqb c "+"); by apply (Hval false).
Qed.

Lemma parse_u64_range s v : parse_u64 s = Some v -> 0 <= v < 2 ^ 64.
Proof. unfold parse_u64. destruct s; [done|]. destruct (strtoull _) as [[[x []] []]|] eqn:E; try done. intros [= <-]. by apply strtoull_range in E. Qed.

Section Requests.
Context {K : Type} {hooks : AuxHooks K}.

(** What a request may do to the system. *)
Inductive request_done (r1 r2 : fs_results) (n : nat) (y : lease_sys) (resp : text) : lease_sys -> Prop :=
| rd_same : request_done r1 r2 n y resp y
| rd_reserve uuid bytes min_index exact ticket intent y' :
    0 <= min_index -> (forall t, ticket = Some t -> virt_camera_ticket_ok t = true) ->
    reserve_and_append r1 r2 uuid bytes min_index exact ticket intent n y = (resp, y') -> request_done r1 r2 n y resp y'
| rd_release uuid epoch rep y' : release_locked r1 uuid epoch y = (rep, y') -> request_done r1 r2 n y resp y'.

Lemma admin_run r1 r2 req n (y : lease_sys) rc resp y' :
  virt_slice_lease_admin r1 r2 req n y = (rc, resp, y') -> request_done r1 r2 n y resp y'.
Proof.
  unfold virt_slice_lease_admin. destruct (n =? 0)%nat; [intros [= _ _ <-]; constructor|]. set (words := scan_words 7 63 req). destruct words as [|cmd words'] eqn:Ew; [intros [= _ _ <-]; constructor|].
  rewrite <- Ew. clear Ew. destruct (str_eq cmd (lit "RESERVE_SLICE")).
  { destruct (parse_u64 (nth 2 words [])) as [v|]; [|intros [= _ _ <-]; constructor].
    destruct (reserve_and_append _ _ _ _ _ _ _ _ _ _) as [t y1] eqn:E. intros [= _ <- <-]. by eapply (rd_reserve _ _ _ _ _ (nth 1 words []) v 0 false None). }
  destruct (_ || _).
  { destruct (negb _); [intros [= _ _ <-]; constructor|]. destruct (parse_u64 (nth 2 words [])) as [v|]; [|intros [= _ _ <-]; constructor].
    destruct (parse_u64 (nth 3 words [])) as [index|] eqn:Ei; [|intros [= _ _ <-]; constructor].
    destruct (virt_camera_intent_parse (nth 5 words [])) as [intent|]; [|intros [= _ _ <-]; constructor].
    destruct ((index >? 2 ^ 32 - 1) || _) eqn:Et; [intros [= _ _ <-]; constructor|]. apply orb_false_iff in Et as [_ Et]. apply negb_false_iff in Et.
    destruct (reserve_and_append _ _ _ _ _ _ _ _ _ _) as [t y1] eqn:E. intros [= _ <- <-]. apply parse_u64_range in Ei.
    eapply rd_reserve; [|..|exact E]; [lia|]. by intros t' [= <-]. }
  destruct (str_eq cmd (lit "RELEASE_SLICE")).
  { destruct (parse_u64 (nth 2 words [])) as [v|]; [|intros [= _ _ <-]; constructor]. destruct (release_locked _ _ _ _) as [rep y1] eqn:E. intros [= _ _ <-]. by eapply rd_release. }
  destruct (str_eq cmd (lit "QUERY_SLICE")); intros [= _ _ <-]; constructor.
Qed.

(** A reserve and the suffix together keep the table. *)
Lemma reserve_and_append_ok r1 r2 uuid bytes min_index exact ticket intent n (y : lease_sys) resp y' :
  lease_ok (y_lease y) -> 0 <= min_index -> (forall t, ticket = Some t -> virt_camera_ticket_ok t = true) ->
  reserve_and_append r1 r2 uuid bytes min_index exact ticket intent n y = (resp, y') ->
  exists rep st d, reserved uuid bytes min_index exact (y_lease y) (y_disk y) rep st d /\ lease_ok st /\ same_setup (y_lease y) st /\
    (epochs_below (y_lease y) -> epochs_below st) /\
    append_camera_locked r2 uuid ticket intent (format_reply n rep) n (mk_lsys st (y_policy y) d (y_aux y)) = (resp, y').
Proof.
  intros Hok Hm Ht. unfold reserve_and_append. destruct (reserve_range_locked _ _ _ _ _ _ _) as [[rep st] d] eqn:E. intros Ea.
  destruct (reserve_run _ _ _ _ _ _ _ _ _ _ Hok Hm E) as (H1 & H2 & H3 & H4). by exists rep, st, d.
Qed.

Lemma request_ok r1 r2 req n (y : lease_sys) rc resp y' :
  lease_ok (y_lease y) -> virt_slice_lease_admin r1 r2 req n y = (rc, resp, y') ->
  lease_ok (y_lease y') /\ (epochs_below (y_lease y) -> epochs_below (y_lease y')).
Proof.
  intros Hok E. destruct (admin_run _ _ _ _ _ _ _ _ E) as [|uuid bytes mi ex ticket intent y' Hm Ht Er|uuid epoch rep y' Er]; [done| |].
  - destruct (reserve_and_append_ok _ _ _ _ _ _ _ _ _ _ _ _ Hok Hm Ht Er) as (rep & st & d & _ & Hok1 & _ & Hb & Ea).
    destruct (append_run r2 uuid ticket intent _ n (mk_lsys st (y_policy y) d (y_aux y)) resp y' Hok1 Ht Ea) as (_ & H1 & H2). split; [done|]. auto.
  - by destruct (release_run _ _ _ _ _ _ Hok Er) as (_ & H1 & H2).
Qed.

(** The lease table among the others: requests, the policy and whatever else happens to the files and behind the
    hooks, and the life of the server. With [fresh], no store that is read has a lease of the last epoch. *)
Inductive lease_step (fresh : bool) : lease_sys -> lease_sys -> Prop :=
| ls_request r1 r2 req n y rc resp y' : virt_slice_lease_admin r1 r2 req n y = (rc, resp, y') -> lease_step fresh y y'
| ls_geometry r matched count bytes y st d : geometry_args count bytes ->
    virt_slice_lease_set_geometry r matched count bytes (y_lease y) (y_disk y) = (st, d) -> lease_step fresh y (mk_lsys st (y_policy y) d (y_aux y))
| ls_load err y : (fresh = true -> sl_next_epoch (y_lease y) <> 0 /\ epochs_left (virt_slice_lease_load err (y_disk y) (y_lease y))) ->
    lease_step fresh y (mk_lsys (virt_slice_lease_load err (y_disk y) (y_lease y)) (y_policy y) (y_disk y) (y_aux y))
| ls_restart y : lease_step fresh y (mk_lsys virt_slice_lease_reset (y_policy y) (y_disk y) (y_aux y))
| ls_set_store path y : lease_step fresh y (mk_lsys (virt_slice_lease_set_store path (y_lease y)) (y_policy y) (y_disk y) (y_aux y))
| ls_set_hooks b y : lease_step fresh y (mk_lsys (virt_slice_lease_set_aux_hooks b (y_lease y)) (y_policy y) (y_disk y) (y_aux y))
| ls_policy y p d : cp_step (y_policy y, y_disk y) (p, d) -> lease_step fresh y (mk_lsys (y_lease y) p d (y_aux y))
| ls_aux y k : lease_step fresh y (mk_lsys (y_lease y) (y_policy y) (y_disk y) k).

Definition lease_reachable (fresh : bool) (y : lease_sys) : Prop :=
  exists d k, rtc (lease_step fresh) (mk_lsys virt_slice_lease_reset virt_camera_policy_reset d k) y.

Lemma lease_step_ok fresh (y y' : lease_sys) :
  lease_step fresh y y' -> lease_ok (y_lease y) /\ (fresh = true -> epochs_below (y_lease y)) -> lease_ok (y_lease y') /\ (fresh = true -> epochs_below (y_lease y')).
Proof.
  intros Hs [Hok Hb]. destruct Hs as [r1 r2 req n y rc resp y' E|r m c b y st d Hg E|err y Hf|y|path y|b y|y p d Hp|y k]; cbn [y_lease].
  - destruct (request_ok _ _ _ _ _ _ _ _ Hok E). auto.
  - destruct (set_geometry_run _ _ _ _ _ _ _ _ Hok Hg E) as (H1 & H2 & _). auto.
  - destruct (load_run err (y_disk y) (y_lease y) Hok) as (H1 & _ & _ & H4). split; [done|]. intros ->. destruct (Hf eq_refl) as [Hn Hl]. by apply H4; auto.
  - split; [apply reset_ok|]. intros _ _ i s Hi. change (repeat lslot_zero LEASE_MAX !! i = Some s) in Hi. by apply repeat_lookup in Hi as ->.
  - unfold virt_slice_lease_set_store. destruct (_ && _) eqn:El; [|done]. split; [|done]. destruct Hok as [H1 H2 H3 H4]. split; try done. cbn. bool_hyps.
    apply Nat.ltb_lt in H0. unfold snprintf. rewrite length_take. lia.
  - split; [|done]. by destruct Hok.
  - done.
  - done.
Qed.

Lemma lease_reachable_inv fresh (y : lease_sys) : lease_reachable fresh y -> lease_ok (y_lease y) /\ (fresh = true -> epochs_below (y_lease y)).
Proof.
  intros (d & k & Hr). assert (H0 : lease_ok virt_slice_lease_reset /\ (fresh = true -> epochs_below virt_slice_lease_reset)).
  { split; [apply reset_ok|]. intros _ _ i s Hi. change (repeat lslot_zero LEASE_MAX !! i = Some s) in Hi. by apply repeat_lookup in Hi as ->. }
  revert H0. change virt_slice_lease_reset with (y_lease (mk_lsys virt_slice_lease_reset virt_camera_policy_reset d k)).
  induction Hr as [|y1 y2 y3 Hs _ IH]; [done|]. intros H0. by eapply IH, lease_step_ok.
Qed.

(** A request changes the policy only by a decision. *)
Lemma request_policy r1 r2 req n (y : lease_sys) rc resp y' :
  lease_ok (y_lease y) -> virt_slice_lease_admin r1 r2 req n y = (rc, resp, y') -> pol_ok (y_policy y) -> pol_ok (y_policy y').
Proof.
  intros Hok E Hp. destruct (admin_run _ _ _ _ _ _ _ _ E) as [|uuid bytes mi ex ticket intent y' Hm Ht Er|uuid epoch rep y' Er]; [done| |].
  - destruct (reserve_and_append_ok _ _ _ _ _ _ _ _ _ _ _ _ Hok Hm Ht Er) as (rep & st & d & _ & Hok1 & _ & _ & Ea).
    destruct (append_run r2 uuid ticket intent _ n (mk_lsys st (y_policy y) d (y_aux y)) resp y' Hok1 Ht Ea) as (Hap & _).
    inversion Hap; subst; try done. cbn in *. eapply (decide_ok t intent _ (y_policy y)); eauto.
  - destruct (release_run _ _ _ _ _ _ Hok Er) as (Hr & _). by inversion Hr; subst.
Qed.

Lemma lease_step_weaken fresh (y y' : lease_sys) : lease_step fresh y y' -> lease_step false y y'.
Proof.
  destruct 1; [by eapply ls_request|by eapply ls_geometry|by apply ls_load|apply ls_restart|apply ls_set_store|apply ls_set_hooks|by apply ls_policy|apply ls_aux].
Qed.

Lemma lease_policy_ok fresh (y : lease_sys) : lease_reachable fresh y -> pol_ok (y_policy y).
Proof.
  intros (d & k & Hr). enough (lease_ok (y_lease y) /\ pol_ok (y_policy y)) by tauto.
  assert (H0 : lease_ok (y_lease (mk_lsys virt_slice_lease_reset virt_camera_policy_reset d k)) /\ pol_ok (y_policy (mk_lsys virt_slice_lease_reset virt_camera_policy_reset d k)))
    by (split; [apply reset_ok|apply policy_reset_ok]).
  induction Hr as [|y1 y2 y3 Hs _ IH]; [done|]. apply IH. destruct H0 as [Hok Hp]. split; [by apply (lease_step_ok false y1 y2); [eapply lease_step_weaken|]|].
  destruct Hs as [r1 r2 req n y rc resp y' E| | | | | |y p d' Hc|]; try done; [by eapply request_policy|]. by apply (cp_step_ok _ _ Hc).
Qed.

End Requests.

Lemma save_good st d : fst (save_locked fs_good st d) = 0.
Proof.
  unfold save_locked. cbn [negb fr_mkdir fr_open fr_fchmod fr_writes fr_fsync fr_rename fs_good].
  assert (H : forall l done_, exists t, print_leases [] l done_ = Some t).
  { induction l as [|s l IH]; intros done_; [by exists done_|]. cbn [print_leases]. destruct (negb _); apply IH. }
  by destruct (H (sl_slots st) []) as [t ->].
Qed.

(** A ticket that two leases have is counted twice. *)
Lemma count_one l t i j s s' :
  length (filter (fun s => ls_in_use s && str_eq (ls_ticket s) t = true) l) = 1%nat -> l !! i = Some s -> l !! j = Some s' ->
  ls_in_use s && str_eq (ls_ticket s) t = true -> ls_in_use s' && str_eq (ls_ticket s') t = true -> i = j.
Proof.
  revert i j. induction l as [|x l IH]; intros i j Hc Hi Hj Hs Hs'; [done|]. rewrite filter_cons in Hc.
  assert (Hno : forall k y, length (filter (fun s => ls_in_use s && str_eq (ls_ticket s) t = true) l) = 0%nat -> l !! k = Some y -> ls_in_use y && str_eq (ls_ticket y) t = true -> False).
  { intros k y H0 Hk Hy. assert (Hin : y ∈ filter (fun s => ls_in_use s && str_eq (ls_ticket s) t = true) l) by (apply list_elem_of_filter; split; [done|by eapply list_elem_of_lookup_2]).
    apply length_zero_iff_nil in H0. rewrite H0 in Hin. by apply elem_of_nil in Hin. }
  destruct i as [|i], j as [|j]; cbn in Hi, Hj; simplify_eq; [done|..].
  - rewrite decide_True in Hc by done. cbn in Hc. injection Hc as Hc. by destruct (Hno j s' Hc Hj Hs').
  - rewrite decide_True in Hc by done. cbn in Hc. injection Hc as Hc. by destruct (Hno i s Hc Hi Hs).
  - f_equal. destruct (decide _) as [_|_]; [|by apply IH]. cbn in Hc. injection Hc as Hc. by destruct (Hno i s Hc Hi Hs).
Qed.

Lemma ticket_of_index_some st index t pm :
  lease_ok st -> virt_slice_lease_ticket_of_index index (VIRT_CAMERA_TICKET_MAX + 1) st = Some (t, pm) ->
  exists i s, sl_slots st !! i = Some s /\ ls_in_use s = true /\ ls_index s = index /\ ls_ticket s = t /\ ls_primary s = pm.
Proof.
  intros Hok. unfold virt_slice_lease_ticket_of_index. destruct (find_idx _ _) as [i|] eqn:E; cbn [mbind option_bind]; [|done].
  apply find_idx_Some in E as (s & Hi & Hs & _). rewrite Hi. cbn [fmap option_fmap option_map]. bool_hyps. intros [= <- <-]. exists i, s. split_and!; try done.
  unfold snprintf, VIRT_CAMERA_TICKET_MAX. rewrite take_ge; [done|]. destruct (so_ticket s) as [->|Ht]; [by eapply (sk_slot _ (lk_slots st Hok))|cbn; lia|].
  destruct (ticket_plain _ Ht) as [Hl _]. lia.
Qed.

(** ** A server that starts again *)

Lemma err_not_ok n w : starts_with (lit "OK index=") (format_reply n (R_ERR w)) = false.
Proof. unfold format_reply, snprintf. by destruct (n - 1)%nat. Qed.

(** The table of a new server with the geometry of [st]. *)
Definition restarted (st : lease_state) (d : disk) : lease_state :=
  fst (virt_slice_lease_set_geometry fs_good true (sl_count st) (sl_bytes st) virt_slice_lease_reset d).

Lemma restarted_fresh st d :
  lease_ok st -> sl_matched st = true ->
  geometry_of (restarted st d) = geometry_of st /\ sl_slots (restarted st d) = repeat lslot_zero LEASE_MAX /\ sl_store (restarted st d) = VIRT_SLICE_LEASE_STORE.
Proof.
  intros Hok Hm. destruct (lk_fits st Hok Hm) as (Hc & Hb & Ha & _). unfold restarted, virt_slice_lease_set_geometry.
  rewrite Z.geb_leb, (proj2 (Z.leb_le 1 _)), (proj2 (Z.leb_le (sl_count st) _)), (proj2 (Z.eqb_neq _ _)), Ha by (unfold LEASE_MAX; lia). unfold geometry_of. cbn. by rewrite Hm.
Qed.

(** When the store was just written, the new server has the same leases. *)
Lemma restart_same st d u :
  lease_ok st -> sl_matched st = true -> sl_store st = VIRT_SLICE_LEASE_STORE ->
  (forall s u, lease_of (sl_slots st) u = Some s -> ls_ticket s <> lit "-") -> d !! sl_store st = Some (leases_text (sl_slots st)) ->
  lease_of (sl_slots (virt_slice_lease_load None d (restarted st d))) u = lease_of (sl_slots st) u.
Proof.
  intros Hok Hm Hst Ht Hd. destruct (restarted_fresh st d Hok Hm) as (Hg & Hz & Hs). pose proof (lk_slots st Hok) as Hsl.
  assert (Hok0 : lease_ok (restarted st d)).
  { destruct (lk_fits st Hok Hm) as (H1 & H2 & _). assert (Ha : geometry_args (sl_count st) (sl_bytes st)) by (unfold geometry_args; lia). unfold restarted.
    destruct (virt_slice_lease_set_geometry fs_good true (sl_count st) (sl_bytes st) virt_slice_lease_reset d) as [x y] eqn:E.
    by destruct (set_geometry_run _ _ _ _ _ _ _ _ reset_ok Ha E). }
  destruct (load_run None d (restarted st d) Hok0) as (Hok1 & _). apply option_eq. intros s. rewrite (lease_of_iff _ _ _ (lk_slots _ Hok1)), (lease_of_iff _ _ _ Hsl).
  rewrite (load_saved st d (restarted st d)); try done; [| |congruence].
  - split.
    + intros (i & Hi & Hu & Hid). destruct (proj1 (in_use_lookup (sl_slots st) (LEASE_MAX - length (in_use (sl_slots st))) s)) as (j & Hj & _); [by exists i|]. by exists j.
    + intros (i & Hi & Hu & Hid). destruct (proj2 (in_use_lookup (sl_slots st) (LEASE_MAX - length (in_use (sl_slots st))) s)) as (j & Hj & _); [by exists i|]. by exists j.
  - intros i x Hi Hu. apply (Ht x (ls_uuid x)). apply (lease_of_iff _ _ _ Hsl). by exists i.
Qed.

Lemma reserved_ok uuid bytes min_index exact st d rep st' d' n :
  reserved uuid bytes min_index exact st d rep st' d' -> starts_with (lit "OK index=") (format_reply n rep) = true ->
  sl_matched st = true /\ exists s, lease_of (sl_slots st') uuid = Some s.
Proof.
  intros Hres Hok. destruct Hres as [w _ _|s [] Hs|_ _ _|i st' d' [] _ _ _ Hv _ _|st' d' _ _ _ _ _ _]; try by rewrite err_not_ok in Hok.
  - split; [done|by exists s].
  - split; [done|]. rewrite Hv, decide_True by done. by eexists.
Qed.

(** A ticketed reserve that is told has just been stored. *)
Lemma ticketed_stored {K} {hooks : AuxHooks K} r1 r2 uuid bytes min_index exact t intent n (y : lease_sys) resp y' :
  lease_ok (y_lease y) -> 0 <= min_index -> virt_camera_ticket_ok t = true ->
  reserve_and_append r1 r2 uuid bytes min_index exact (Some t) intent n y = (resp, y') -> starts_with (lit "OK index=") resp = true ->
  lease_ok (y_lease y') /\ sl_matched (y_lease y') = true /\ sl_store (y_lease y') = sl_store (y_lease y) /\
  y_disk y' !! sl_store (y_lease y') = Some (leases_text (sl_slots (y_lease y'))) /\
  exists s, lease_of (sl_slots (y_lease y')) uuid = Some s /\ ls_ticket s = t /\
    ls_primary s = bool_decide (virt_iav_role_of t (y_policy y) = VIRT_IAV_ROLE_PRIMARY).
Proof.
  intros Hok Hm Ht Er Hresp. assert (Ht' : forall t', Some t = Some t' -> virt_camera_ticket_ok t' = true) by (by intros t' [= <-]).
  destruct (reserve_and_append_ok _ _ _ _ _ _ _ _ _ _ _ _ Hok Hm Ht' Er) as (rep & st & d & Hres & Hok1 & (Hg & Hst & _) & _ & Ea).
  destruct (append_run r2 uuid (Some t) intent _ n (mk_lsys st (y_policy y) d (y_aux y)) resp y' Hok1 Ht' Ea) as (Hap & Hok2 & _).
  destruct Hap as [resp' Hn|Hwhy|d' _|resp' t0 s st' rc v p' d' [= <-] Hrep Hof s' Hview (Hg' & Hst' & _) _ Hd' _]; [done| |by rewrite err_not_ok in Hresp|].
  - destruct (reserved_ok _ _ _ _ _ _ _ _ _ n Hres Hresp) as (_ & s & Hs). destruct Hwhy as [Hn|Hn]; [congruence|]. cbn in Hn. congruence.
  - destruct (reserved_ok _ _ _ _ _ _ _ _ _ n Hres Hrep) as (Hmt & _). cbn in *. unfold geometry_of in *. injection Hg as Hg1 _ _. injection Hg' as Hg2 _ _.
    split_and!; try done; [congruence..|]. exists s'. by rewrite Hview, decide_True.
Qed.

(** * Theorems *)

(** C21: Through every order of requests, failing writes, geometry changes, loads of arbitrary stores and restarts, no two
    leases share a UUID or an index, every lease fits the geometry that is active, and, as long as no store with a
    lease of the last epoch is read, every lease was granted before the next epoch. *)
Theorem leases_consistent {K} {hooks : AuxHooks K} fresh (y : lease_sys) :
  lease_reachable fresh y -> lease_ok (y_lease y) /\ (fresh = true -> epochs_below (y_lease y)).
Proof. apply lease_reachable_inv. Qed.

#[local] Instance demo_hooks : AuxHooks (IavAperture.aperture_state * IavWin.IavAux.aux_state) :=
  aperture_hooks (IavAperture.kernel_nodes IavWin.IavWin.win_defaults true) demo_pids.

(** Two slices of 1 MiB. *)
Definition demo_uuid : text := lit "0a-1".
Definition demo_start : lease_sys := mk_lsys virt_slice_lease_reset virt_camera_policy_reset ∅ demo_ready.
Definition demo_geo : lease_sys :=
  mk_lsys (fst (virt_slice_lease_set_geometry fs_good true 2 0x100000 virt_slice_lease_reset ∅)) virt_camera_policy_reset ∅ demo_ready.

Lemma demo_geo_reachable : lease_reachable true demo_geo.
Proof.
  exists ∅, demo_ready. apply rtc_once. apply (ls_geometry true fs_good true 2 0x100000 demo_start); [unfold geometry_args; lia|].
  unfold demo_start. cbn [y_lease y_disk]. by vm_compute.
Qed.

Lemma leases_consistent_witness : sl_count (y_lease demo_geo) = 2 /\ epochs_below (y_lease demo_geo).
Proof. split; [reflexivity|]. exact (proj2 (leases_consistent true demo_geo demo_geo_reachable) eq_refl). Defined.

(** C30: What a reserve does, on every branch and in every state that the leases reach: a request that does not fit the
    geometry or names no UUID is refused with nothing changed; a UUID that has a lease is told the same lease again;
    otherwise the least index the request may have is leased under the next epoch, and the store holds the new table
    before the reply; or nothing is leased, because no index the request may have is free or the epochs are used up
    (EXHAUSTED, only then), or because the store could not be written (PERSIST, which uses up an epoch, leaves the stored
    table as it was and does not happen when every write succeeds). The index is no other lease's; the new epoch is
    above those of all leases as long as no store with a lease of the last epoch was read ([fresh]). *)
Theorem reserve_exact {K} {hooks : AuxHooks K} fresh r uuid bytes min_index exact (y : lease_sys) :
  lease_reachable fresh y -> 0 <= min_index ->
  exists rep st' d', reserve_range_locked r uuid bytes min_index exact (y_lease y) (y_disk y) = (rep, st', d') /\
    reserved uuid bytes min_index exact (y_lease y) (y_disk y) rep st' d' /\
    (r = fs_good -> rep <> R_ERR "PERSIST") /\
    (forall i e u s, rep = R_LEASE i e -> u <> uuid -> lease_of (sl_slots st') u = Some s ->
       ls_index s <> i /\ (fresh = true -> lease_of (sl_slots (y_lease y)) uuid = None -> ls_epoch s < e)).
Proof.
  intros Hr Hm. destruct (lease_reachable_inv _ _ Hr) as [Hok Hb].
  destruct (reserve_range_locked r uuid bytes min_index exact (y_lease y) (y_disk y)) as [[rep st'] d'] eqn:E. exists rep, st', d'. split; [done|].
  destruct (reserve_run _ _ _ _ _ _ _ _ _ _ Hok Hm E) as (Hres & Hok' & _). split; [done|]. split.
  - intros ->. revert E. unfold reserve_range_locked. repeat (destruct (negb _ || _ || _) || destruct (negb _) || destruct (_ =? 0)%Z); try by intros [= <- _ _].
    all: destruct (find_uuid _ _ ≫= _); [by intros [= <- _ _]|]; try by intros [= <- _ _].
    all: destruct (pick_slice_index _ _ _); [|by intros [= <- _ _]]; destruct (find_idx _ _); [|by intros [= <- _ _]].
    all: match goal with |- context [save_locked fs_good ?a ?b] => pose proof (save_good a b) as Hg; destruct (save_locked fs_good a b) as [rc dd] end.
    all: cbn in Hg; subst rc; by intros [= <- _ _].
  - intros i e u s -> Hne Hs. apply (lease_of_iff _ _ _ (lk_slots _ Hok')) in Hs as (j & Hj & Hu & Hid).
    assert (Hmine : exists s', lease_of (sl_slots st') uuid = Some s' /\ ls_index s' = i).
    { inversion Hres; subst; [by eexists|]. eexists. split; [match goal with H : forall u, lease_of (sl_slots st') u = _ |- _ => rewrite H, decide_True by done end|]; done. }
    destruct Hmine as (s' & Hs' & Hi). apply (lease_of_iff _ _ _ (lk_slots _ Hok')) in Hs' as (j' & Hj' & Hu' & Hid'). split.
    + intros Hx. pose proof (sk_index _ (lk_slots _ Hok') j j' s s' Hj Hj' Hu Hu' ltac:(congruence)) as <-. congruence.
    + intros Hf Hnone. specialize (Hb Hf). inversion Hres; subst; [congruence|]. match goal with H : forall u, lease_of (sl_slots st') u = _ |- _ => rename H into Hv end.
      assert (Hof : lease_of (sl_slots st') (ls_uuid s) = Some s) by (apply (lease_of_iff _ _ _ (lk_slots _ Hok')); by exists j).
      rewrite Hv, decide_False in Hof by done. apply (lease_of_iff _ _ _ (lk_slots _ Hok)) in Hof as (j0 & Hj0 & Hu0 & _). by eapply Hb.
Qed.

Lemma reserve_exact_witness :
  exists st' d', reserve_range_locked fs_good demo_uuid 0x100000 1 false (y_lease demo_geo) ∅ = (R_LEASE 1 1, st', d') /\
    reserved demo_uuid 0x100000 1 false (y_lease demo_geo) ∅ (R_LEASE 1 1) st' d'.
Proof.
  destruct (reserve_exact true fs_good demo_uuid 0x100000 1 false demo_geo demo_geo_reachable ltac:(lia)) as (rep & st' & d' & E & H & _).
  assert (Erep : fst (fst (reserve_range_locked fs_good demo_uuid 0x100000 1 false (y_lease demo_geo) ∅)) = R_LEASE 1 1) by (vm_compute; reflexivity).
  change (y_disk demo_geo) with (∅ : disk) in *. rewrite E in Erep. cbn in Erep. subst rep. exists st', d'. split; [exact E|exact H].
Defined.

(** A ticketed reserve whose reply was OK survives: a server that starts with the same geometry and reads the store
    has, for every UUID, the lease there was, with its index, epoch, ticket and role, the new one among them. The mark
    of a lease without a ticket must not be used as a ticket. *)
Theorem grant_survives {K} {hooks : AuxHooks K} fresh r1 r2 uuid bytes min_index exact t intent n (y : lease_sys) resp y' u :
  lease_reachable fresh y -> sl_store (y_lease y) = VIRT_SLICE_LEASE_STORE -> 0 <= min_index -> virt_camera_ticket_ok t = true ->
  reserve_and_append r1 r2 uuid bytes min_index exact (Some t) intent n y = (resp, y') -> starts_with (lit "OK index=") resp = true ->
  (forall s u, lease_of (sl_slots (y_lease y')) u = Some s -> ls_ticket s <> lit "-") ->
  lease_of (sl_slots (virt_slice_lease_load None (y_disk y') (restarted (y_lease y') (y_disk y')))) u = lease_of (sl_slots (y_lease y')) u /\
  exists s, lease_of (sl_slots (y_lease y')) uuid = Some s /\ ls_ticket s = t /\
    ls_primary s = bool_decide (virt_iav_role_of t (y_policy y) = VIRT_IAV_ROLE_PRIMARY).
Proof.
  intros Hr Hst Hm Ht E Hresp Hdash. destruct (lease_reachable_inv _ _ Hr) as [Hok _].
  destruct (ticketed_stored _ _ _ _ _ _ _ _ _ _ _ _ Hok Hm Ht E Hresp) as (Hok' & Hmt & Hst' & Hd & Hs). split; [|done].
  apply restart_same; try done. congruence.
Qed.

(** The demo reserve of the default primary ticket. *)
Definition demo_grant : text * lease_sys :=
  reserve_and_append fs_good fs_good demo_uuid 0x100000 0 false (Some VIRT_IAV_DEFAULT_PRIMARY) VIRT_CAMERA_INTENT_ON 256 demo_geo.

Lemma demo_grant_slots :
  sl_slots (y_lease (snd demo_grant)) = mk_lslot true demo_uuid 0 1 0x100000 VIRT_IAV_DEFAULT_PRIMARY true :: repeat lslot_zero 7.
Proof. vm_compute. reflexivity. Qed.

Lemma grant_survives_witness :
  exists s, lease_of (sl_slots (virt_slice_lease_load None (y_disk (snd demo_grant)) (restarted (y_lease (snd demo_grant)) (y_disk (snd demo_grant))))) demo_uuid = Some s /\
    ls_epoch s = 1 /\ ls_ticket s = VIRT_IAV_DEFAULT_PRIMARY.
Proof.
  destruct (grant_survives true fs_good fs_good demo_uuid 0x100000 0 false VIRT_IAV_DEFAULT_PRIMARY VIRT_CAMERA_INTENT_ON 256 demo_geo (fst demo_grant) (snd demo_grant) demo_uuid
    demo_geo_reachable eq_refl ltac:(lia) eq_refl) as [H _].
  - unfold demo_grant. destruct (reserve_and_append _ _ _ _ _ _ _ _ _ _). reflexivity.
  - vm_compute. reflexivity.
  - intros s u Hs. rewrite demo_grant_slots in Hs. unfold lease_of in Hs. destruct (find_uuid u _) as [i|]; cbn in Hs; [|done].
    destruct i as [|i]; [injection Hs as <-; done|]. change (repeat lslot_zero 7 !! i = Some s) in Hs. by apply repeat_lookup in Hs as ->.
  - rewrite H, demo_grant_slots. eexists. split; [reflexivity|]. split; reflexivity.
Defined.

(** The broker never takes two lease indexes for the primary guest: however the leases, roles, stores and restarts are
    ordered, primary_by_ticket answers yes for at most one index. *)
Theorem one_primary_index {K} {hooks : AuxHooks K} fresh (y : lease_sys) i j :
  lease_reachable fresh y -> primary_by_ticket i (y_lease y) (y_policy y) = Some true -> primary_by_ticket j (y_lease y) (y_policy y) = Some true -> i = j.
Proof.
  intros Hr Hi Hj. destruct (lease_reachable_inv _ _ Hr) as [Hok _]. pose proof (po_roles _ (lease_policy_ok _ _ Hr)) as Hroles.
  assert (Hpri : forall x, primary_by_ticket x (y_lease y) (y_policy y) = Some true -> exists a s, sl_slots (y_lease y) !! a = Some s /\ ls_in_use s = true /\ ls_index s = x /\
            virt_iav_role_of (ls_ticket s) (y_policy y) = VIRT_IAV_ROLE_PRIMARY /\ length (filter (fun z => ls_in_use z && str_eq (ls_ticket z) (ls_ticket s) = true) (sl_slots (y_lease y))) = 1%nat).
  { intros x. unfold primary_by_ticket. destruct (virt_slice_lease_ticket_of_index _ _ _) as [[t pm]|] eqn:E; [|done].
    destruct (ticket_of_index_some _ _ _ _ Hok E) as (a & s & Ha & Hu & Hx & Ht & Hp). destruct t as [|c t]; [done|]. intros [= Hb].
    apply andb_true_iff in Hb as [[_ Hrole]%andb_true_iff Hcount]. apply bool_decide_eq_true in Hrole. apply Nat.eqb_eq in Hcount. exists a, s. by rewrite Ht. }
  destruct (Hpri i Hi) as (a & s & Ha & Hu & <- & Hro & Hc). destruct (Hpri j Hj) as (b & s' & Hb & Hu' & <- & Hro' & _).
  pose proof (primary_unique _ _ _ Hroles Hro Hro') as Et. assert (a = b) as <- by (eapply (count_one _ _ a b s s' Hc Ha Hb); rewrite ?Hu, ?Hu', ?Et; by rewrite str_eq_refl).
  congruence.
Qed.

Lemma demo_grant_reachable : lease_reachable true (snd demo_grant).
Proof.
  destruct demo_geo_reachable as (d & k & Hr). exists d, k. eapply rtc_r; [exact Hr|].
  apply (ls_request true fs_good fs_good (lit "RESERVE_SLICE_MIN 0a-1 1048576 0 amba_shm0 on") 256 demo_geo 0 (fst demo_grant)).
  unfold demo_grant, demo_uuid. vm_compute. reflexivity.
Qed.

Lemma one_primary_index_witness :
  primary_by_ticket 0 (y_lease (snd demo_grant)) (y_policy (snd demo_grant)) = Some true /\
  forall j, primary_by_ticket j (y_lease (snd demo_grant)) (y_policy (snd demo_grant)) = Some true -> 0 = j.
Proof.
  split; [vm_compute; reflexivity|]. intros j Hj.
  exact (one_primary_index true (snd demo_grant) 0 j demo_grant_reachable ltac:(vm_compute; reflexivity) Hj).
Defined.

(** ** Limits *)

(** The mark of a lease without a ticket passes as a ticket, and the lease is read back without it. *)
Example dash_ticket_lost :
  virt_camera_ticket_ok (lit "-") = true /\
  (fun st => sl_slots st !! 0%nat) <$> load_lease (lease_line (ticketed (new_lease demo_uuid 0 1 0x100000) (lit "-") true)) (y_lease demo_geo) =
    Some (Some (new_lease demo_uuid 0 1 0x100000)).
Proof. split; vm_compute; reflexivity. Qed.

(** A store with a lease of the last epoch uses the epochs up, and the next line of the store starts them again, so that
    the epoch of a live lease would be granted a second time. *)
Example last_epoch_forgotten :
  sl_next_epoch <$> load_lease (lease_line (new_lease (lit "a") 0 (2 ^ 64 - 1) 0x100000)) (y_lease demo_geo) = Some 0 /\
  sl_next_epoch <$> (load_lease (lease_line (new_lease (lit "a") 0 (2 ^ 64 - 1) 0x100000)) (y_lease demo_geo) ≫=
                     load_lease (lease_line (new_lease (lit "b") 1 5 0x100000))) = Some 6.
Proof. split; vm_compute; reflexivity. Qed.
