(* ===== verification/LeaseApertureProps.v ===== *)
(** * The leases and the apertures together

    The composition of four components: the lease requests of SliceLease, the roles of CameraPolicy, the table of
    IavAperture behind the hooks and the kernel's nodes of IavWin, with the guests that map them. The theorem ties an
    aperture that is attached at an index to the lease that holds the index. *)

From Stdlib Require Import ZArith Lia Bool Ascii String.
From stdpp Require Import base list numbers strings gmap relations.
From S2P Require Import Prelude Text IavWin IavWinProps IavAperture IavApertureProps CameraPolicy CameraPolicyProps SliceLease SliceLeaseProps.
Import Text Store CameraPolicy SliceLease IavWin.IavWin IavWin.IavAux IavAperture.
#[local] Open Scope Z_scope.
#[local] Open Scope list_scope.

(** ** What an operation on an index leaves alone *)

Section Frame.
Context {K : Type} {dev : NodeDevice K} (pids : list Z).

Definition only_index (index : Z) (a a' : aperture_state) : Prop := forall j, j <> Z.to_nat index -> ap_node a' !! j = ap_node a !! j.

Lemma put_only index n a : only_index index a (put_node index n a).
Proof. intros j Hj. cbn. by rewrite list_lookup_insert_ne. Qed.

Lemma put_only_twice index n n' a : only_index index a (put_node index n (put_node index n' a)).
Proof. intros j Hj. cbn. by rewrite !list_lookup_insert_ne. Qed.

#[local] Hint Resolve put_only put_only_twice : core.

Lemma attach_frame index epoch primary a (k : K) rc size a' k' :
  virt_iav_aperture_attach pids index epoch primary a k = Some (rc, size, a', k') -> only_index index a a'.
Proof.
  unfold virt_iav_aperture_attach. destruct (_ >=? _); [by intros [= _ _ <- _]|]. destruct (negb _); [intros [= _ _ <- _]; auto|].
  destruct (_ || _ || _); [intros [= _ _ <- _]; auto|]. destruct (virt_iav_aperture_compose _ _ _ _) as [[n want]|]; [|done]. cbn [mbind option_bind].
  destruct (n <=? 0); [intros [= _ _ <- _]; auto|]. destruct (node_get index k) as [rc1 have]. destruct (negb _); [intros [= _ _ <- _]; auto|].
  destruct (_ && _); [intros [= _ _ <- _]; auto|]. destruct (negb _); [intros [= _ _ <- _]; auto|]. destruct (node_config _ _ _) as [rc2 k2].
  destruct (negb _); intros [= _ _ <- _]; auto.
Qed.

Lemma adopt_frame index epoch primary a (k : K) b a' k' :
  virt_iav_aperture_adopt pids index epoch primary a k = Some (b, a', k') -> only_index index a a'.
Proof.
  unfold virt_iav_aperture_adopt. destruct (_ >=? _); [by intros [= _ <- _]|]. destruct (negb _); [intros [= _ <- _]; auto|].
  destruct (node_get index k) as [rc have]. destruct (_ || _); [intros [= _ <- _]; auto|].
  destruct (if primary && _ && _ then _ else _) as [[n want]|]; [|done]. cbn [mbind option_bind]. destruct (_ && _); intros [= _ <- _]; auto.
Qed.

Lemma detach_frame index a (k : K) : only_index index a (fst (virt_iav_aperture_detach index a k)).
Proof. unfold virt_iav_aperture_detach. destruct (_ >=? _); cbn [fst]; auto. by intros ? ?. Qed.

End Frame.

(** ** The composed system *)

Section Composed.
Context (pr : win_params) (nc : bool) (pids : list Z).
Hypothesis pids_few : (length pids <= 16)%nat.

#[local] Instance nodes : NodeDevice aux_state := kernel_nodes pr nc.
#[local] Instance composed_hooks : AuxHooks (aperture_state * aux_state) := aperture_hooks nodes pids.

Definition composed : Type := lease_sys (K := aperture_state * aux_state) * list aux_map.

(** Requests, changes of the policy, the guests' mappings, and the life of the server: it starts with nothing, is told
    the geometry, reads the store and sets the apertures up. A geometry that leases do not fit is not one of the steps:
    those leases are dropped and their apertures are not. *)
Inductive composed_step : composed -> composed -> Prop :=
| cs_request r1 r2 req n y rc resp y' ms : virt_slice_lease_admin r1 r2 req n y = (rc, resp, y') -> composed_step (y, ms) (y', ms)
| cs_policy y p d ms : cp_step (y_policy y, y_disk y) (p, d) -> composed_step (y, ms) (mk_lsys (y_lease y) p d (y_aux y), ms)
| cs_guest y k ms ms' : aux_step_rel pr false (snd (y_aux y), ms) (k, ms') ->
    composed_step (y, ms) (mk_lsys (y_lease y) (y_policy y) (y_disk y) (fst (y_aux y), k), ms')
| cs_restart y ms : composed_step (y, ms) (mk_lsys virt_slice_lease_reset virt_camera_policy_reset (y_disk y) (virt_iav_aperture_reset, snd (y_aux y)), ms)
| cs_geometry r matched count bytes y st d ms : geometry_args count bytes -> existsb (slot_misfit count bytes) (sl_slots (y_lease y)) = false ->
    virt_slice_lease_set_geometry r matched count bytes (y_lease y) (y_disk y) = (st, d) -> composed_step (y, ms) (mk_lsys st (y_policy y) d (y_aux y), ms)
| cs_load err y ms : composed_step (y, ms) (mk_lsys (virt_slice_lease_load err (y_disk y) (y_lease y)) (y_policy y) (y_disk y) (y_aux y), ms)
| cs_setup parts avoid pinnable y st ak ms : Forall part_typed parts -> setup_apertures nodes pids parts avoid pinnable (y_lease y) (y_aux y) = (st, ak) ->
    composed_step (y, ms) (mk_lsys st (y_policy y) (y_disk y) ak, ms).

Definition composed_reachable (pages : list page) (s : composed) : Prop :=
  exists d, rtc composed_step (mk_lsys virt_slice_lease_reset virt_camera_policy_reset d (virt_iav_aperture_reset, aux_init pages), []) s.

(** The primary, ticketed lease of the index, with that epoch. *)
Definition holder (st : lease_state) (index epoch : Z) : Prop :=
  exists u s, lease_of (sl_slots st) u = Some s /\ ls_index s = index /\ ls_epoch s = epoch /\ ls_primary s = true /\ ls_ticket s <> [].

Record composed_ok (s : composed) : Prop := {
  cm_lease : lease_ok (y_lease s.1);
  cm_nodes : ap_ok pr (fst (y_aux s.1), (snd (y_aux s.1), s.2));
  cm_agree : forall i n, ap_node (fst (y_aux s.1)) !! i = Some n -> nd_attached n = true ->
             sl_aux (y_lease s.1) = true /\ holder (y_lease s.1) (Z.of_nat i) (ac_epoch (nd_cfg n));
}.

(** Leases that are kept keep the holders. *)
Lemma holder_kept st st' index epoch : (forall u s, lease_of (sl_slots st) u = Some s -> lease_of (sl_slots st') u = Some s) -> holder st index epoch -> holder st' index epoch.
Proof. intros Hk (u & s & Hs & H). exists u, s. split; [by apply Hk|done]. Qed.

Lemma keeps_leases st st' : lease_ok st -> lease_ok st' -> keeps st st' -> forall u s, lease_of (sl_slots st) u = Some s -> lease_of (sl_slots st') u = Some s.
Proof.
  intros H1 H2 Hk u s Hs. apply (lease_of_iff _ _ _ (lk_slots _ H1)) in Hs as (i & Hi & Hu & Hid). apply (lease_of_iff _ _ _ (lk_slots _ H2)).
  exists i. split; [by apply Hk|done].
Qed.

Lemma reserved_kept uuid bytes mi ex st d rep st' d' :
  reserved uuid bytes mi ex st d rep st' d' -> forall u s, lease_of (sl_slots st) u = Some s -> lease_of (sl_slots st') u = Some s.
Proof.
  destruct 1 as [w _ _|s0 _ _|_ _ _|i st' d' _ Hn _ _ Hv _ _|st' d' _ _ Hs _ _ _]; intros u s Hu; try done; [|by rewrite Hs].
  rewrite Hv. destruct (decide (u = uuid)) as [->|]; [congruence|done].
Qed.

(** Only the holders of [uuid]'s own index are touched when its lease is written. *)
Lemma holder_other st st' uuid s0 index epoch :
  (forall u, u <> uuid -> lease_of (sl_slots st') u = lease_of (sl_slots st) u) -> lease_of (sl_slots st) uuid = Some s0 -> ls_index s0 <> index ->
  holder st index epoch -> holder st' index epoch.
Proof.
  intros Hv H0 Hne (u & s & Hs & Hi & H). exists u, s. split; [|done]. rewrite Hv; [done|]. intros ->. rewrite H0 in Hs. injection Hs as <-. done.
Qed.

(** Agreement of a table with the leases, when the hooks are set. *)
Definition agrees (st : lease_state) (a : aperture_state) : Prop :=
  forall i n, ap_node a !! i = Some n -> nd_attached n = true -> sl_aux st = true /\ holder st (Z.of_nat i) (ac_epoch (nd_cfg n)).

Lemma agrees_kept st st' a :
  (forall u s, lease_of (sl_slots st) u = Some s -> lease_of (sl_slots st') u = Some s) -> (sl_aux st = true -> sl_aux st' = true) -> agrees st a -> agrees st' a.
Proof. intros Hk Hx Ha i n Hn Hat. destruct (Ha i n Hn Hat) as [H1 H2]. split; [by apply Hx|by eapply holder_kept]. Qed.

(** One index is written for a lease, the rest of the table stays: enough that the new node is right. *)
Lemma agrees_index st st' a a' uuid s0 :
  agrees st a -> only_index (ls_index s0) a a' -> lease_of (sl_slots st) uuid = Some s0 -> 0 <= ls_index s0 ->
  (forall u, u <> uuid -> lease_of (sl_slots st') u = lease_of (sl_slots st) u) -> sl_aux st' = sl_aux st ->
  (forall n, ap_node a' !! Z.to_nat (ls_index s0) = Some n -> nd_attached n = true -> sl_aux st' = true /\ holder st' (ls_index s0) (ac_epoch (nd_cfg n))) ->
  agrees st' a'.
Proof.
  intros Ha Ho H0 Hix Hv Hx Hn i n Hi Hat. destruct (decide (i = Z.to_nat (ls_index s0))) as [->|Hne].
  - rewrite Z2Nat.id by done. by apply Hn.
  - rewrite (Ho i Hne) in Hi. destruct (Ha i n Hi Hat) as [H1 H2]. split; [congruence|]. eapply holder_other; [done|done| |done]. lia.
Qed.

Lemma lease_of_slot st u s : lease_ok st -> lease_of (sl_slots st) u = Some s -> slot_ok s.
Proof. intros Hok Hs. apply (lease_of_iff _ _ _ (lk_slots st Hok)) in Hs as (i & Hi & Hu & _). by eapply (sk_slot _ (lk_slots st Hok)). Qed.

Lemma grant_agrees uuid s t primary camera st st' a k ms :
  lease_ok st -> lease_ok st' -> ap_ok pr (a, (k, ms)) -> agrees st a -> lease_of (sl_slots st) uuid = Some s -> t <> [] ->
  set_view uuid (ticketed s t primary) (sl_slots st) (sl_slots st') -> sl_aux st' = sl_aux st ->
  let k' := after_grant (ticketed s t primary) camera (sl_aux st) (a, k) in
  ap_ok pr (fst k', (snd k', ms)) /\ agrees st' (fst k').
Proof.
  intros Hok Hok' Hap Hag Hs Ht Hv Hx. pose proof (lease_of_slot st uuid s Hok Hs) as Hso. pose proof (so_index s Hso). pose proof (so_epoch s Hso).
  assert (H32 : is_u32 (ls_index s)) by (unfold is_u32; lia). assert (H64 : is_u64 (ls_epoch s)) by (unfold is_u64; lia).
  assert (Hoth : forall u, u <> uuid -> lease_of (sl_slots st') u = lease_of (sl_slots st) u) by (intros u Hu; rewrite Hv; by rewrite decide_False).
  unfold after_grant. destruct (sl_aux st) eqn:Ex; cbn [fst snd].
  - cbn [ls_index ls_epoch ls_primary ticketed aux_attach composed_hooks aperture_hooks].
    destruct (attach_total pr nc pids pids_few (ls_index s) (ls_epoch s) (camera && primary) a k ms Hap) as (rc & size & a' & k' & E).
    change nodes with (server_nodes pr nc). rewrite E. cbn [fst snd]. destruct (attach_ok pr nc pids pids_few _ _ _ _ _ _ _ _ _ _ H32 H64 Hap E) as [Hap' Hpost].
    split; [done|]. eapply (agrees_index st st' a a' uuid s); try done; [by eapply attach_frame|lia|congruence|]. intros n Hn Hat. split; [done|].
    destruct (Hpost ltac:(lia)) as (n' & Hn' & _ & Hw). rewrite Hn in Hn'. injection Hn' as <-. destruct (Hw Hat) as (Hp & _ & _ & He). apply andb_true_iff in Hp as [_ ->].
    exists uuid, (ticketed s t true). rewrite Hv, decide_True by done. by split_and!.
  - split; [done|]. intros i n Hn Hat. destruct (Hag i n Hn Hat). congruence.
Qed.

Lemma release_agrees uuid s st st' a k ms :
  lease_ok st -> ap_ok pr (a, (k, ms)) -> agrees st a -> lease_of (sl_slots st) uuid = Some s ->
  (forall u, lease_of (sl_slots st') u = if decide (u = uuid) then None else lease_of (sl_slots st) u) -> sl_aux st' = sl_aux st ->
  let k' := if sl_aux st then aux_detach (ls_index s) (a, k) else (a, k) in
  ap_ok pr (fst k', (snd k', ms)) /\ agrees st' (fst k').
Proof.
  intros Hok Hap Hag Hs Hv Hx. pose proof (so_index s (lease_of_slot st uuid s Hok Hs)) as Hi.
  assert (Hoth : forall u, u <> uuid -> lease_of (sl_slots st') u = lease_of (sl_slots st) u) by (intros u Hu; rewrite Hv; by rewrite decide_False).
  destruct (sl_aux st) eqn:Ex; cbn [fst snd].
  - cbn [aux_detach composed_hooks aperture_hooks]. destruct (virt_iav_aperture_detach (ls_index s) a k) as [a' k'] eqn:E. cbn [fst snd].
    split; [eapply (ap_step_ok pr nc pids pids_few); [eapply (ap_detach _ _ _ (ls_index s)); [unfold is_u32; lia|exact E]|done]|].
    pose proof (detach_frame (ls_index s) a k) as Hfr. rewrite E in Hfr. eapply (agrees_index st st' a a' uuid s); try done; [lia|congruence|]. intros n Hn Hat. exfalso.
    revert E. unfold virt_iav_aperture_detach, VIRT_IAV_APERTURE_NODES. rewrite Z.geb_leb, (proj2 (Z.leb_gt _ _)) by lia. intros [= <- _].
    rewrite (put_node_lookup pr pids pids_few (ls_index s) node_zero a k ms ltac:(lia) Hap) in Hn. by injection Hn as <-.
  - split; [done|]. intros i n Hn Hat. destruct (Hag i n Hn Hat). congruence.
Qed.

Lemma request_composed r1 r2 req n (y : lease_sys) ms rc resp y' :
  virt_slice_lease_admin r1 r2 req n y = (rc, resp, y') -> composed_ok (y, ms) -> composed_ok (y', ms).
Proof.
  intros E [Hok Hap Hag]. cbn [fst snd] in *. pose proof (request_ok _ _ _ _ _ _ _ _ Hok E) as [Hok' _].
  destruct (admin_run _ _ _ _ _ _ _ _ E) as [|uuid bytes mi ex ticket intent y' Hm Ht Er|uuid epoch rep y' Er]; [done| |].
  - destruct (reserve_and_append_ok _ _ _ _ _ _ _ _ _ _ _ _ Hok Hm Ht Er) as (rep & st & d & Hres & Hok1 & (_ & _ & Hx) & _ & Ea).
    assert (Hag1 : agrees st (fst (y_aux y))) by (eapply (agrees_kept (y_lease y)); [by eapply reserved_kept|congruence|done]).
    destruct (append_run r2 uuid ticket intent _ n (mk_lsys st (y_policy y) d (y_aux y)) resp y' Hok1 Ht Ea) as (Happ & _). destruct (y_aux y) as [a k].
    destruct Happ as [resp' Hn|Hwhy|d' _|resp' t s st' rc' v p' d' -> _ Hof s' Hview (_ & _ & Hx') _ _ _]; [by split..|].
    cbn [y_lease y_aux] in *. destruct (grant_agrees uuid s t _ (vd_camera (if negb (rc' =? 0) then verdict_zero else v)) st st' a k ms Hok1 Hok' Hap Hag1 Hof
      ltac:(intros ->; by specialize (Ht [] eq_refl)) Hview Hx') as [H1 H2]. by split.
  - destruct (release_run _ _ _ _ _ _ Hok Er) as (Hr & _). destruct y as [st p d [a k]]. cbn [y_lease y_aux] in *.
    destruct Hr as [w _|d' _|s st' d' Hof _ Hv (_ & _ & Hx) _]; [by split..|]. cbn [y_lease y_aux] in *.
    destruct (release_agrees uuid s st st' a k ms Hok Hap Hag Hof Hv Hx) as [H1 H2]. by split.
Qed.

(** ** Adopting the leases that were read *)

Lemma adopt_post index epoch primary a k ms b a' k' :
  0 <= index < 8 -> is_u64 epoch -> ap_ok pr (a, (k, ms)) -> virt_iav_aperture_adopt pids index epoch primary a k = Some (b, a', k') ->
  forall n, ap_node a' !! Z.to_nat index = Some n -> nd_attached n = true -> primary = true /\ ac_epoch (nd_cfg n) = epoch.
Proof.
  intros Hi He Hap. unfold virt_iav_aperture_adopt, VIRT_IAV_APERTURE_NODES. rewrite Z.geb_leb, (proj2 (Z.leb_gt _ _)) by lia.
  assert (Hzero : forall n, ap_node (put_node index node_zero a) !! Z.to_nat index = Some n -> nd_attached n = true -> False).
  { intros n Hn. rewrite (put_node_lookup pr pids pids_few index node_zero a k ms Hi Hap) in Hn. by injection Hn as <-. }
  destruct (negb (ap_ready a)); [intros [= _ <- _] n Hn Hat; by destruct (Hzero n Hn)|]. destruct (node_get index k) as [rc have].
  destruct (_ || _); [intros [= _ <- _] n Hn Hat; by destruct (Hzero n Hn)|]. destruct (primary && _ && _) eqn:Ep.
  - apply andb_true_iff in Ep as [[Hp _]%andb_true_iff _]. destruct (virt_iav_aperture_compose _ _ _ _) as [[n0 want]|] eqn:Ec; [|done]. cbn [mbind option_bind].
    destruct ((n0 >? 0) && _) eqn:Es; intros [= _ <- _] n Hn Hat; [|by destruct (Hzero n Hn)]. apply andb_true_iff in Es as [Hn0 _]. rewrite Z.gtb_ltb in Hn0. apply Z.ltb_lt in Hn0.
    destruct (compose_wanted pr pids pids_few _ _ _ _ _ _ Hap He Ec Hn0) as (_ & Hw & _).
    rewrite put_node_twice, (put_node_lookup pr pids pids_few index _ a k ms Hi Hap) in Hn. injection Hn as <-. done.
  - cbn [mbind option_bind]. cbn [Z.gtb Z.compare andb]. intros [= _ <- _] n Hn Hat. by destruct (Hzero n Hn).
Qed.

Definition held (st : lease_state) (a : aperture_state) : Prop :=
  forall i n, ap_node a !! i = Some n -> nd_attached n = true -> holder st (Z.of_nat i) (ac_epoch (nd_cfg n)).

Lemma adopt_list st (l : list (Z * Z * bool * bool)) a k ms :
  (forall index epoch primary t, (index, epoch, primary, t) ∈ l -> 0 <= index < 8 /\ is_u64 epoch /\ (primary = true -> t = true -> holder st index epoch)) ->
  ap_ok pr (a, (k, ms)) -> held st a ->
  let ak := foldl (fun '(a, k) '(index, epoch, primary, ticketed) =>
           if ticketed : bool then
             match virt_iav_aperture_adopt pids index epoch primary a k with
             | Some (_, a', k') => (a', k')
             | None => (a, k)
             end
           else (a, k)) (a, k) l in
  ap_ok pr (fst ak, (snd ak, ms)) /\ held st (fst ak).
Proof.
  revert a k. induction l as [|[[[index epoch] primary] t] l IH]; intros a k Hl Hap Hh; [done|]. cbn [foldl].
  assert (Hl' : forall index epoch primary t, (index, epoch, primary, t) ∈ l -> 0 <= index < 8 /\ is_u64 epoch /\ (primary = true -> t = true -> holder st index epoch))
    by (intros; apply Hl, elem_of_cons; by right).
  destruct (Hl index epoch primary t ltac:(apply elem_of_cons; by left)) as (Hi & He & Hown). destruct t; [|by apply IH].
  destruct (virt_iav_aperture_adopt pids index epoch primary a k) as [[[b a'] k']|] eqn:E; [|by apply IH]. apply IH; [done|..].
  - eapply (adopt_ok pr nc pids index epoch primary a k ms b a' k'); try done. unfold is_u32. lia.
  - intros i n Hn Hat. destruct (decide (i = Z.to_nat index)) as [->|Hne].
    + destruct (adopt_post index epoch primary a k ms b a' k' Hi He Hap E n Hn Hat) as [Hp ->]. rewrite Z2Nat.id by lia. by apply Hown.
    + rewrite (adopt_frame pids index epoch primary a k b a' k' E i Hne) in Hn. by apply Hh.
Qed.

Lemma foreach_held st index epoch primary t :
  lease_ok st -> (index, epoch, primary, t) ∈ virt_slice_lease_foreach st -> 0 <= index < 8 /\ is_u64 epoch /\ (primary = true -> t = true -> holder st index epoch).
Proof.
  intros Hok Hin. unfold virt_slice_lease_foreach in Hin. apply list_elem_of_In, in_map_iff in Hin as (s & [= <- <- <- <-] & Hin).
  apply list_elem_of_In, list_elem_of_filter in Hin as [Hu Hin]. apply list_elem_of_lookup in Hin as [i Hi].
  pose proof (sk_slot _ (lk_slots st Hok) i s Hi Hu) as Hs. pose proof (so_index s Hs). pose proof (so_epoch s Hs). split_and!; [lia|lia|unfold is_u64; lia|].
  intros Hp _. exists (ls_uuid s), s. split; [apply (lease_of_iff _ _ _ (lk_slots st Hok)); by exists i|]. split_and!; try done. by apply (so_primary s Hs).
Qed.

Lemma init_nodes parts avoid a (k : aux_state) rc a' k' : virt_iav_aperture_init parts avoid a k = (rc, a', k') -> ap_node a' = ap_node a.
Proof.
  unfold virt_iav_aperture_init. destruct (_ || _); [by intros [= _ <- _]|]. destruct (node_sources _ k) as [r k1]. destruct (r =? 0); by intros [= _ <- _].
Qed.

Lemma reset_unattached i n : ap_node virt_iav_aperture_reset !! i = Some n -> nd_attached n = true -> False.
Proof. intros Hn. change (repeat node_zero 8 !! i = Some n) in Hn. by apply repeat_lookup in Hn as ->. Qed.

Lemma setup_composed parts avoid pinnable (y : lease_sys) st ak ms :
  Forall part_typed parts -> setup_apertures nodes pids parts avoid pinnable (y_lease y) (y_aux y) = (st, ak) -> composed_ok (y, ms) ->
  composed_ok (mk_lsys st (y_policy y) (y_disk y) ak, ms).
Proof.
  intros Ht E [Hok Hap Hag]. cbn [fst snd] in *. destruct y as [st0 p d [a k]]. cbn [y_lease y_policy y_disk y_aux fst snd] in *. revert E. unfold setup_apertures. cbn [fst snd].
  destruct (virt_iav_aperture_init parts avoid a k) as [[rc a1] k1] eqn:Ei. pose proof (init_nodes _ _ _ _ _ _ _ Ei) as En.
  pose proof (aperture_init_ok pr nc parts avoid a k ms rc a1 k1 Ht Hap Ei) as Hap1.
  destruct (negb (rc =? 0)); [intros [= <- <-]; split; cbn; [done..|]; rewrite En; exact Hag|].
  destruct (negb pinnable); intros [= <- <-].
  { split; cbn [fst snd y_lease y_aux]; [done| |intros i n Hn Hat; by destruct (reset_unattached i n)].
    eapply (ap_step_ok pr nc pids pids_few); [apply ap_restart|exact Hap1]. }
  assert (Hheld : held st0 a1) by (intros i n Hn Hat; rewrite En in Hn; by destruct (Hag i n Hn Hat)).
  destruct (adopt_list st0 (virt_slice_lease_foreach st0) a1 k1 ms ltac:(intros; by apply (foreach_held st0 _ _ _ _ Hok)) Hap1 Hheld) as [H1 H2].
  split; cbn [fst snd y_lease y_aux]; [|exact H1|]; [by destruct Hok|]. intros i n Hn Hat. split; [done|]. by apply H2.
Qed.

Lemma composed_step_ok s s' : composed_step s s' -> composed_ok s -> composed_ok s'.
Proof.
  destruct 1 as [r1 r2 req n y rc resp y' ms E|y p d ms _|y k ms ms' Hg|y ms|r m c b y st d ms Hg Hfit E|err y ms|parts avoid pin y st ak ms Ht E]; intros Hc.
  - by eapply request_composed.
  - destruct Hc. by split.
  - destruct Hc as [Hok Hap Hag]. split; [done| |done]. eapply (ap_step_ok pr nc pids pids_few); [apply ap_guest; exact Hg|exact Hap].
  - destruct Hc as [_ Hap _]. split; cbn [fst snd y_lease y_aux]; [apply reset_ok| |intros i n Hn Hat; by destruct (reset_unattached i n)].
    eapply (ap_step_ok pr nc pids pids_few); [apply ap_restart|exact Hap].
  - destruct Hc as [Hok Hap Hag]. destruct (set_geometry_run _ _ _ _ _ _ _ _ Hok Hg E) as (Hok' & _ & Hx & Hk). split; [done..|].
    eapply (agrees_kept (y_lease y)); [apply keeps_leases; auto|cbn [y_lease fst]; by rewrite Hx|exact Hag].
  - destruct Hc as [Hok Hap Hag]. destruct (load_run err (y_disk y) (y_lease y) Hok) as (Hok' & (_ & _ & Hx) & Hk & _). split; [done..|].
    eapply (agrees_kept (y_lease y)); [by apply keeps_leases|cbn; congruence|exact Hag].
  - by eapply setup_composed.
Qed.

Lemma composed_inv pages s : NoDup (pg_phys <$> pages) -> composed_reachable pages s -> composed_ok s.
Proof.
  intros Hnd [d Hr]. assert (H0 : composed_ok (mk_lsys virt_slice_lease_reset virt_camera_policy_reset d (virt_iav_aperture_reset, aux_init pages), [])).
  { split; cbn [fst snd y_lease y_aux]; [apply reset_ok| |intros i n Hn Hat; by destruct (reset_unattached i n)].
    apply (ap_reachable_inv pr nc pids pids_few pages); [done|]. apply rtc_refl. }
  induction Hr as [|s1 s2 s3 Hs _ IH]; [done|]. by eapply IH, composed_step_ok.
Qed.

(** The live mappings of an attached node were made from its composition. *)
Lemma attached_maps a k ms i n m :
  ap_ok pr (a, (k, ms)) -> ap_node a !! i = Some n -> nd_attached n = true -> m ∈ ms -> am_node m = i -> ac_epoch (am_cfg m) = ac_epoch (nd_cfg n).
Proof.
  intros Hap Hn Hat Hm Hi. destruct (ak_agree _ _ Hap _ _ Hn Hat) as (x & Hx & Hxc & Hs). apply same_cfg_eq in Hs as (_ & E2 & _). cbn in Hx.
  pose proof (ak_kernel _ _ Hap) as Hk. cbn in Hk. destruct (ax_maps _ _ _ Hk m Hm) as (x' & Hy & _ & Ey & _). rewrite Hi, Hx in Hy. injection Hy as <-. congruence.
Qed.

End Composed.

(** * Theorems *)

(** C10: An aperture belongs to the lease that holds its index now. Through every order of reserves, releases, role changes,
    failing writes, guest mappings, server restarts and adoptions: when the table shows an aperture at an index, that
    index is leased, the lease carries a ticket and was granted as primary, its epoch is the aperture's, and every
    mapping of the node that is alive was made of a composition with the epoch of that lease. An epoch does not name one
    lease for ever: [stale_mapping_attached] shows a run with a restart in which two leases have the same one. *)
Theorem aperture_of_primary_lease pr nc pids pages (y : lease_sys) ms index v :
  (length pids <= 16)%nat -> NoDup (pg_phys <$> pages) -> composed_reachable pr nc pids pages (y, ms) -> is_u32 index ->
  virt_iav_aperture_get index (fst (y_aux y)) = (0, v) -> vw_count v <> 0 ->
  exists u s, lease_of (sl_slots (y_lease y)) u = Some s /\ ls_index s = index /\ ls_epoch s = vw_epoch v /\ ls_primary s = true /\ ls_ticket s <> [] /\
    forall m, m ∈ ms -> am_node m = Z.to_nat index -> ac_epoch (am_cfg m) = ls_epoch s.
Proof.
  intros Hp Hnd Hr Hi E Hv. destruct (composed_inv pr nc pids Hp pages _ Hnd Hr) as [_ Hap Hag]. cbn [fst snd] in *. revert E. unfold virt_iav_aperture_get.
  destruct (_ >=? _); [done|]. destruct (ap_node (fst (y_aux y)) !! Z.to_nat index) as [n|] eqn:En; [|done].
  destruct (nd_attached n) eqn:Eat; intros [= <-]; [|done]. cbn [vw_epoch vw_count] in *.
  destruct (Hag _ n En Eat) as (_ & u & s & Hs & H1 & H2 & H3 & H4). exists u, s. rewrite Z2Nat.id in H1 by (unfold is_u32 in Hi; lia).
  split_and!; try done. intros m Hm Hmi. rewrite H2. by eapply attached_maps.
Qed.

(** A server with the camera windows, two slices and the apertures set up, and a reserve of the default primary. *)
Definition demo_boot : lease_sys (K := aperture_state * aux_state) :=
  let y0 := mk_lsys (fst (virt_slice_lease_set_geometry fs_good true 2 0x100000 virt_slice_lease_reset ∅)) demo_windows ∅ (virt_iav_aperture_reset, aux_init demo_pages) in
  let '(st, ak) := setup_apertures (kernel_nodes win_defaults true) demo_pids (take 2 demo_parts) [0x20000] true (y_lease y0) (y_aux y0) in
  mk_lsys st (y_policy y0) (y_disk y0) ak.

Definition demo_request : text := lit "RESERVE_SLICE_AT 0a-1 1048576 1 amba_shm0 on".
Definition demo_told : Z * text * lease_sys (K := aperture_state * aux_state) :=
  virt_slice_lease_admin (hooks := aperture_hooks (kernel_nodes win_defaults true) demo_pids) fs_good fs_good demo_request 256 demo_boot.

Lemma demo_boot_reachable : composed_reachable win_defaults true demo_pids demo_pages (demo_boot, []).
Proof.
  exists ∅. set (y0 := mk_lsys virt_slice_lease_reset virt_camera_policy_reset ∅ (virt_iav_aperture_reset, aux_init demo_pages)).
  eapply rtc_l; [apply (cs_policy _ _ _ y0 demo_windows ∅); apply cp_windows|].
  eapply rtc_l; [eapply (cs_geometry _ _ _ fs_good true 2 0x100000); [unfold geometry_args; lia|vm_compute; reflexivity|vm_compute; reflexivity]|].
  apply rtc_once. eapply (cs_setup _ _ _ (take 2 demo_parts) [0x20000] true); [apply Forall_take, demo_parts_typed|vm_compute; reflexivity].
Qed.

Lemma demo_told_reachable : composed_reachable win_defaults true demo_pids demo_pages (snd demo_told, []).
Proof.
  destruct demo_boot_reachable as [d Hr]. exists d. eapply rtc_r; [exact Hr|].
  eapply (cs_request _ _ _ fs_good fs_good demo_request 256 demo_boot (fst (fst demo_told)) (snd (fst demo_told))).
  unfold demo_told. by destruct (virt_slice_lease_admin _ _ _ _ _) as [[]].
Qed.

Example demo_told_reply :
  snd (fst demo_told) = lit "OK index=1 path=/dev/amba_virt_shm1 epoch=1 camera=1 dsp=1048576 bsb=2097152 aux=262144 role=primary" ++ [newline].
Proof. vm_compute. reflexivity. Qed.

Lemma aperture_of_primary_lease_witness :
  exists u s, lease_of (sl_slots (y_lease (snd demo_told))) u = Some s /\ ls_index s = 1 /\ ls_epoch s = 1 /\ ls_primary s = true.
Proof.
  destruct (aperture_of_primary_lease win_defaults true demo_pids demo_pages (snd demo_told) [] 1 (snd (virt_iav_aperture_get 1 (fst (y_aux (snd demo_told)))))
    ltac:(cbn; lia) demo_pages_nodup demo_told_reachable ltac:(unfold is_u32; lia) ltac:(vm_compute; reflexivity) ltac:(vm_compute; discriminate)) as (u & s & H1 & H2 & H3 & H4 & _).
  exists u, s. split; [exact H1|]. split; [exact H2|]. split; [rewrite H3; vm_compute; reflexivity|exact H4].
Defined.

(** A geometry that the lease does not fit drops the lease and leaves its aperture attached. *)
Example geometry_leaves_aperture :
  let '(st, _) := virt_slice_lease_set_geometry fs_good true 1 0x100000 (y_lease (snd demo_told)) (y_disk (snd demo_told)) in
  virt_slice_lease_index_used 1 st = false /\ vw_count (snd (virt_iav_aperture_get 1 (fst (y_aux (snd demo_told))))) = 2.
Proof. vm_compute. split; reflexivity. Qed.

(** A request to the composed server. *)
Definition demo_ask (req : text) (y : lease_sys (K := aperture_state * aux_state)) : Z * text * lease_sys (K := aperture_state * aux_state) :=
  virt_slice_lease_admin (hooks := aperture_hooks (kernel_nodes win_defaults true) demo_pids) fs_good fs_good req 256 y.

(** The guest maps its aperture, the lease is released, the server restarts and another owner reserves the slice. *)
Definition demo_mapped : lease_sys (K := aperture_state * aux_state) :=
  let y := snd demo_told in let k := snd (y_aux y) in
  match g_aux k !! 1%nat with
  | Some x => match iav_aux_mmap (fun _ => 0) (whole_bar 0x100000 0x40000) x with
              | Some (_, _, x') => mk_lsys (y_lease y) (y_policy y) (y_disk y) (fst (y_aux y), put_aux 1 x' k)
              | None => y
              end
  | None => y
  end.
Definition demo_released : lease_sys := snd (demo_ask (lit "RELEASE_SLICE 0a-1 1") demo_mapped).
Definition demo_restarted : lease_sys (K := aperture_state * aux_state) :=
  let '(st0, d) := virt_slice_lease_set_geometry fs_good true 2 0x100000 virt_slice_lease_reset (y_disk demo_released) in
  let y0 := mk_lsys (virt_slice_lease_load None d st0) demo_windows d (virt_iav_aperture_reset, snd (y_aux demo_released)) in
  let '(st, ak) := setup_apertures (kernel_nodes win_defaults true) demo_pids (take 2 demo_parts) [0x20000] true (y_lease y0) (y_aux y0) in
  mk_lsys st (y_policy y0) (y_disk y0) ak.
Definition demo_next : Z * text * lease_sys (K := aperture_state * aux_state) :=
  demo_ask (lit "RESERVE_SLICE_AT 0b-2 1048576 1 amba_shm0 on") demo_restarted.

(** A mapping outlives its lease and passes as one of the next lease. The guest of 0a-1 maps the aperture of slice 1 at
    epoch 1 and its lease is released while it is mapped; the server restarts, and as no lease is stored the epochs begin
    at 1 again; 0b-2 reserves the slice, the node still has the composition the attach wants, so the aperture is attached
    with the mapping of the first guest alive. *)
Theorem stale_mapping_attached :
  snd (fst (demo_ask (lit "RELEASE_SLICE 0a-1 1") demo_mapped)) = lit "OK" ++ [newline] /\
  snd (fst demo_next) = lit "OK index=1 path=/dev/amba_virt_shm1 epoch=1 camera=1 dsp=1048576 bsb=2097152 aux=262144 role=primary" ++ [newline] /\
  vw_count (snd (virt_iav_aperture_get 1 (fst (y_aux (snd demo_next))))) = 2 /\
  (x_maps <$> g_aux (snd (y_aux (snd demo_next))) !! 1%nat) = Some 1.
Proof. vm_compute. split_and!; reflexivity. Qed.
