(* ===== verification/LowAdmin.v ===== *)
(** * Requests for the low slices

    [Module LowAdmin] models what LowLease leaves out of tools/virt_low_lease.c: the requests and replies as text
    (virt_low_lease_admin), the pairing with a lease of the shared window, which is asked of SliceLease in text too, the
    store as the bytes that fprintf and fgets see, and the parent partition. A RESERVE_LOW that sleeps for a scrub is
    the result [Asleep]; it goes on with LowLease's [reserve_wake]. *)

From Stdlib Require Import ZArith Lia Bool Ascii String.
From stdpp Require Import base list numbers strings gmap.
From S2P Require Import Prelude Text SliceArena LowLease CameraPolicy CameraPolicyProps SliceLease SliceLeaseProps.
Import Text Store CameraPolicy.
#[local] Open Scope Z_scope.
#[local] Open Scope list_scope.

Module LowAdmin.
Import LowLease.

Definition to_text (s : string) : text := list_ascii_of_string s.
Definition of_text (t : text) : string := string_of_list_ascii t.

(** ** The store as text *)

(** The lines of save_locked. *)
Definition low_line_text (ln : store_line) : text :=
  to_text (ln_uuid ln) ++ [space] ++ print_u (ln_index ln) ++ [space] ++ print_llu (ln_epoch ln) ++ [space] ++ print_u (ln_cid ln) ++ [newline].

Definition low_store_text (lns : list store_line) : text := concat (map low_line_text lns).

(** The sscanf of virt_low_lease_load: the line if all four conversions were made *)
Definition scan_low_line (line : text) : option store_line :=
  match scan_word 63 line with
  | None => None
  | Some (uuid, s) =>
      match scan_num 32 s with
      | None => None
      | Some (index, s) =>
          match scan_num 64 s with
          | None => None
          | Some (epoch, s) =>
              match scan_num 32 s with
              | None => None
              | Some (cid, _) => Some (mk_line (of_text uuid) index epoch cid)
              end
          end
      end
  end.

(** The fgets loop of virt_low_lease_load: every turn takes at least one character. *)
Fixpoint scan_low_lines (fuel : nat) (s : text) : list store_line :=
  match fuel, s with
  | S f, _ :: _ =>
      let '(line, rest) := next_line 255 s in
      match scan_low_line line with
      | Some ln => ln :: scan_low_lines f rest
      | None => scan_low_lines f rest
      end
  | _, _ => []
  end.

(** ** The parent partition *)

Record low_parent := mk_parent { pt_ready : bool; pt_base : Z; pt_pid : Z; pt_have_pid : bool }.
Definition parent_reset : low_parent := mk_parent false 0 0 false.

(** virt_low_lease_set_partition, the base of virt_low_lease_set_parent, virt_low_lease_geometry *)
Definition virt_low_lease_set_partition (pid : Z) (p : low_parent) : Z * low_parent := (0, mk_parent (pt_ready p) (pt_base p) pid true).

Definition parent_set_base (base : Z) (p : low_parent) : low_parent :=
  if (base =? 0) || negb (base mod VIRT_LOW_LEASE_BYTES =? 0) then p else mk_parent true base (pt_pid p) (pt_have_pid p).

Definition virt_low_lease_geometry (p : low_parent) : Z * option (Z * Z) :=
  if pt_ready p && pt_have_pid p then (0, Some (pt_base p, pt_pid p)) else (- ENODEV, None).

(** virt_low_lease_scrub_pending, virt_low_lease_set_reserve_wait_ms, virt_low_lease_index_used *)
Definition virt_low_lease_scrub_pending (index : Z) (st : low_state) : bool :=
  if index >=? Z.of_nat VIRT_LOW_LEASE_COUNT then false else scrub_flag index st.

Definition virt_low_lease_set_reserve_wait_ms (ms : Z) (st : low_state) : low_state :=
  mk_lowst (lw_slots st) (lw_scrub st) (lw_ready st) (lw_next_epoch st) ms (lw_binds st) (lw_arena st) (lw_mem st) (lw_store st).

Definition virt_low_lease_index_used (index : Z) (st : low_state) : bool := index_leased index st.

(** ** Requests *)

(** parse_u32 *)
Definition parse_u32 (s : text) : option Z :=
  match s with
  | [] => None
  | _ => match strtoull s with Some (v, false, []) => if v >? 0xffffffff then None else Some v | _ => None end
  end.

(** format_ok and the other replies, into a buffer of [len] bytes *)
Definition format_low (len : nat) (r : reply) : text :=
  match r with
  | OK_LEASE index epoch =>
      snprintf len (lit "OK index=" ++ print_u index ++ lit " path=/dev/amba_virt_iav_slice" ++ print_u index ++ lit " epoch=" ++ print_llu epoch ++
                    lit " usable=" ++ print_u VIRT_LOW_LEASE_USABLE ++ [newline])
  | OK => snprintf len (lit "OK" ++ [newline])
  | ERR_GEOMETRY => snprintf len (lit "ERR GEOMETRY" ++ [newline])
  | ERR_INVAL => snprintf len (lit "ERR INVAL" ++ [newline])
  | ERR_PERSIST => snprintf len (lit "ERR PERSIST" ++ [newline])
  | ERR_EXHAUSTED => snprintf len (lit "ERR EXHAUSTED" ++ [newline])
  | ERR_NOT_FOUND => snprintf len (lit "ERR NOT_FOUND" ++ [newline])
  | ERR_STALE => snprintf len (lit "ERR STALE" ++ [newline])
  end.

Section Admin.
Context {K : Type} {hooks : SliceLease.AuxHooks K}.

(** cavalry_held: a QUERY_SLICE of the shared window; no file is written by it *)
Definition cavalry_held (uuid : text) (y : SliceLease.lease_sys (K := K)) : bool * SliceLease.lease_sys (K := K) :=
  let req := snprintf 96 (lit "QUERY_SLICE " ++ uuid) in
  let '(rc, resp, y') := SliceLease.virt_slice_lease_admin fs_good fs_good req 160 y in
  (if negb (rc =? 0) then false else starts_with (lit "OK ") resp, y').

(** A request is answered, or sleeps inside reserve_locked. *)
Inductive answer := Replied (rc : Z) (resp : text) | Asleep (uuid : string) (cid : Z).

(** virt_low_lease_admin; a field that was not read is empty *)
Definition virt_low_lease_admin (env : lease_env) (now : Z) (req : text) (resp_len : nat) (y : SliceLease.lease_sys (K := K)) (st : low_state)
    : answer * SliceLease.lease_sys (K := K) * low_state :=
  if (resp_len =? 0)%nat then (Replied (- 1) [], y, st)
  else
    let err what := (Replied 0 (snprintf resp_len (lit "ERR " ++ lit what ++ [newline])), y, st) in
    let words := scan_words 4 63 req in
    let word i := nth i words [] in
    match words with
    | [] => err "INVAL"%string
    | cmd :: _ =>
        let uuid := word 1%nat in
        let num := word 2%nat in
        if str_eq cmd (lit "RESERVE_LOW") then
          match parse_u32 num with
          | None => err "INVAL"%string
          | Some cid =>
              let '(paired, y') := cavalry_held uuid y in
              if negb paired then (Replied 0 (snprintf resp_len (lit "ERR NOT_PAIRED" ++ [newline])), y', st)
              else
                match reserve_locked env (of_text uuid) cid st with
                | (Some r, st') => (Replied 0 (format_low resp_len r), y', st')
                | (None, st') => (Asleep (of_text uuid) cid, y', st')
                end
          end
        else if str_eq cmd (lit "RELEASE_LOW") then
          match SliceLease.parse_u64 num with
          | None => err "INVAL"%string
          | Some epoch => let '(r, st') := release_locked env now (of_text uuid) epoch st in (Replied 0 (format_low resp_len r), y, st')
          end
        else if str_eq cmd (lit "QUERY_LOW") then (Replied 0 (format_low resp_len (query_low (of_text uuid) st)), y, st)
        else err "UNKNOWN_CMD"%string
    end.

End Admin.

End LowAdmin.
