(* ===== verification/LowAdminProps.v ===== *)
(** * Properties of the requests for the low slices

    A low slice is given only to a guest that holds a slice of the shared window, and the text of the store is read back
    as the lines it was written from, which ties the field-level store of LowLease to the bytes of the file. *)

From Stdlib Require Import ZArith Lia Bool Ascii String.
From stdpp Require Import base list numbers strings gmap.
From S2P Require Import Prelude Text SliceArena LowLease LowLeaseProps CameraPolicy CameraPolicyProps SliceLease SliceLeaseProps LowAdmin.
Import Text Store CameraPolicy LowLease LowAdmin.
#[local] Open Scope Z_scope.
#[local] Open Scope list_scope.

(** ** Words of a request *)

Lemma scan_chars_plain k s w r : scan_chars k s = (w, r) -> (length w <= k)%nat /\ Forall (fun c => isspace c = false) w.
Proof.
  revert s w r. induction k as [|k IH]; intros s w r; cbn; [intros [= <- <-]; split; [cbn; lia|done]|].
  destruct s as [|c s]; [intros [= <- <-]; split; [cbn; lia|done]|]. destruct (isspace c) eqn:Ec; [intros [= <- <-]; split; [cbn; lia|done]|].
  destruct (scan_chars k s) as [w' r'] eqn:E. intros [= <- <-]. destruct (IH s w' r' E). split; [cbn; lia|by constructor].
Qed.

Lemma scan_words_plain n k s w : w ∈ scan_words n k s -> w <> [] /\ (length w <= k)%nat /\ Forall (fun c => isspace c = false) w.
Proof.
  revert s. induction n as [|n IH]; intros s; cbn [scan_words]; [by intros H%elem_of_nil|]. unfold scan_word.
  destruct (scan_chars k (skip_space s)) as [w' r] eqn:E. apply scan_chars_plain in E as [H1 H2]. destruct w' as [|c w']; [by intros H%elem_of_nil|].
  intros [->|H]%elem_of_cons; [done|]. by eapply IH.
Qed.

Lemma of_to_text s : of_text (to_text s) = s.
Proof. apply string_of_list_ascii_of_string. Qed.
Lemma to_of_text t : to_text (of_text t) = t.
Proof. apply list_ascii_of_string_of_list_ascii. Qed.

(** ** The pairing *)

Section Pairing.
Context {K : Type} {hooks : SliceLease.AuxHooks K}.
Abbreviation lease_sys := (SliceLease.lease_sys (K := K)).

Definition window_lease (uuid : text) (y : lease_sys) : option SliceLease.lease_slot := lease_of (SliceLease.sl_slots (SliceLease.y_lease y)) uuid.

Lemma lease_reply_ok n i e : (4 <= n)%nat -> starts_with (lit "OK ") (SliceLease.format_reply n (SliceLease.R_LEASE i e)) = true.
Proof. intros Hn. unfold SliceLease.format_reply, snprintf. destruct n as [|[|[|[|n]]]]; try lia. done. Qed.

(** cavalry_held is true exactly when the UUID of the request has a lease of the shared window. *)
Lemma cavalry_held_iff uuid (y : lease_sys) :
  lease_ok (SliceLease.y_lease y) -> (uuid = [] \/ (length uuid <= 63)%nat /\ Forall (fun c => isspace c = false) uuid) ->
  exists b, cavalry_held uuid y = (b, y) /\ (b = true <-> is_Some (window_lease uuid y)).
Proof.
  intros Hok Hw. unfold cavalry_held. assert (Hs : snprintf 96 (lit "QUERY_SLICE " ++ uuid) = lit "QUERY_SLICE" ++ [space] ++ uuid).
  { unfold snprintf. rewrite take_ge; [done|]. rewrite length_app. change (length (lit "QUERY_SLICE ")) with 12%nat. destruct Hw as [->|[Hl _]]; cbn; lia. }
  rewrite Hs. clear Hs. unfold SliceLease.virt_slice_lease_admin. cbn [Nat.eqb].
  rewrite scan_words_cons by (done || (cbn; lia) || by repeat constructor). cbn [app]. rewrite scan_words_space.
  change (str_eq (lit "QUERY_SLICE") (lit "RESERVE_SLICE")) with false. change (str_eq (lit "QUERY_SLICE") (lit "RESERVE_SLICE_AT")) with false.
  change (str_eq (lit "QUERY_SLICE") (lit "RESERVE_SLICE_MIN")) with false. change (str_eq (lit "QUERY_SLICE") (lit "RELEASE_SLICE")) with false.
  change (str_eq (lit "QUERY_SLICE") (lit "QUERY_SLICE")) with true. cbn [orb Z.eqb negb nth].
  assert (Hu : nth 0 (scan_words 6 63 uuid) [] = uuid).
  { destruct Hw as [->|[Hl Hp]]; [done|]. destruct uuid as [|c uuid]; [done|]. rewrite <- (app_nil_r (c :: uuid)) at 1. by rewrite scan_words_cons. }
  rewrite Hu. eexists. split; [reflexivity|]. unfold SliceLease.query_locked, window_lease. fold (lease_of (SliceLease.sl_slots (SliceLease.y_lease y)) uuid).
  destruct (lease_of _ uuid) as [s|] eqn:El.
  - apply (lease_of_iff _ _ _ (lk_slots _ Hok)) in El as (i & Hi & Hin & <-). rewrite (so_uuid s (sk_slot _ (lk_slots _ Hok) i s Hi Hin)). cbn [negb]. unfold SliceLease.ok_slot.
    rewrite lease_reply_ok by lia. by split.
  - split; [|by intros []]. by destruct (negb _).
Qed.

(** ** The leases a request adds *)

Definition has_lease (u : string) (st : low_state) : Prop := exists k s, lw_slots st !! k = Some s /\ lo_in_use s = true /\ lo_uuid s = u.

Lemma has_lease_put u st st' j s0 uuid :
  lw_slots st' = <[j := s0]> (lw_slots st) -> (lo_in_use s0 = true -> lo_uuid s0 = uuid) -> has_lease u st' -> has_lease u st \/ u = uuid.
Proof.
  intros E Hs (k & s & Hk & Hu & Hid). rewrite E in Hk. apply lookup_insert_inv in Hk as [[-> ->]|[_ Hk]]; [right; rewrite <- Hid; by apply Hs|]. left. by exists k, s.
Qed.

Lemma save_slots ok st b st' : save_locked ok st = (b, st') -> lw_slots st' = lw_slots st.
Proof. unfold save_locked. destruct ok; by intros [= _ <-]. Qed.

Lemma grant_adds env uuid cid i st r st' u : grant env uuid cid i st = (r, st') -> has_lease u st' -> has_lease u st \/ u = uuid.
Proof.
  unfold grant. destruct i as [i|]; [|intros [= _ <-]; by left]. destruct (find_idx _ _) as [j|]; [|intros [= _ <-]; by left].
  set (st1 := set_next_epoch _ _). destruct (save_locked (le_save env) st1) as [b st2] eqn:Es. pose proof (save_slots _ _ _ _ Es) as Hs. destruct b; intros [= _ <-].
  - apply (has_lease_put u st _ j (mk_low true uuid i (lw_next_epoch st) cid) uuid); [|done]. by rewrite slots_of_header, slots_of_bind, Hs.
  - apply (has_lease_put u st _ j low_zero uuid); [|done]. cbn. rewrite Hs. cbn. by rewrite list_insert_insert_eq.
Qed.

Lemma reserve_adds env uuid cid st r st' u : reserve_locked env uuid cid st = (r, st') -> has_lease u st' -> has_lease u st \/ u = uuid.
Proof.
  unfold reserve_locked. destruct (negb _); [intros [= _ <-]; by left|]. destruct (_ || _); [intros [= _ <-]; by left|].
  destruct (LowLease.find_uuid uuid st) as [j|] eqn:Ef.
  - apply find_idx_Some in Ef as (s & Hj & Hid & _). rewrite Hj. bool_hyps. apply String.eqb_eq in H0.
    set (st1 := if lo_cid s =? cid then st else _). set (s' := mk_low true _ _ _ cid). assert (E1 : lw_slots st1 = lw_slots st) by (unfold st1; by destruct (_ =? _)).
    destruct (save_locked (le_save env) _) as [b st2] eqn:Es. pose proof (save_slots _ _ _ _ Es) as Hs. cbn in Hs. rewrite E1 in Hs.
    destruct b; intros [= _ <-]; apply (has_lease_put u st _ j s' uuid); try done. by rewrite slots_of_header, slots_of_bind.
  - destruct (_ =? _); [intros [= _ <-]; by left|]. unfold reserve_try. destruct (pick_index st) as [i|].
    + destruct (grant env uuid cid (Some i) st) as [r0 st0] eqn:E. intros [= _ <-]. by eapply grant_adds.
    + destruct (_ && _); [intros [= _ <-]; by left|]. intros [= _ <-]. by left.
Qed.

Lemma release_adds env now uuid epoch st r st' u : release_locked env now uuid epoch st = (r, st') -> has_lease u st' -> has_lease u st.
Proof.
  unfold release_locked. destruct (negb _); [by intros [= _ <-]|]. destruct (LowLease.find_uuid uuid st) as [j|] eqn:Ef; [|by intros [= _ <-]].
  destruct (lw_slots st !! j) as [saved|] eqn:Ej; [|by intros [= _ <-]]. destruct (negb _); [by intros [= _ <-]|].
  destruct (save_locked (le_save env) _) as [b st5] eqn:Es. pose proof (save_slots _ _ _ _ Es) as Hs. cbn in Hs. destruct b; intros [= _ <-].
  - intros (k & s & Hk & Hu & Hid). rewrite Hs in Hk. apply lookup_insert_inv in Hk as [[-> ->]|[_ Hk]]; [done|]. by exists k, s.
  - intros (k & s & Hk & Hu & Hid). rewrite slots_of_bind in Hk. cbn in Hk. rewrite Hs, list_insert_insert_eq, (list_insert_id _ _ _ Ej) in Hk. by exists k, s.
Qed.

Lemma query_has u st : query_low u st <> ERR_NOT_FOUND <-> has_lease u st.
Proof.
  unfold query_low, LowLease.find_uuid. destruct (find_idx _ _) as [j|] eqn:E; cbn [mbind option_bind].
  - apply find_idx_Some in E as (s & Hj & Hid & _). rewrite Hj. bool_hyps. apply String.eqb_eq in H0. split; [intros _; by exists j, s|done].
  - split; [done|]. intros (k & s & Hk & Hu & Hid). pose proof (proj1 (find_idx_None _ _) E k s Hk) as Hf. cbv beta in Hf. by rewrite Hu, Hid, String.eqb_refl in Hf.
Qed.

End Pairing.

(** ** The text of the store *)

Record low_line_ok (ln : store_line) : Prop := {
  ll_uuid : LowLease.uuid_ok (ln_uuid ln) = true \/ ln_uuid ln = "scrub"%string;
  ll_index : is_u32 (ln_index ln);
  ll_epoch : is_u64 (ln_epoch ln);
  ll_cid : is_u32 (ln_cid ln);
}.

Lemma low_uuid_plain ln : low_line_ok ln -> (1 <= length (to_text (ln_uuid ln)) <= 36)%nat /\ Forall (fun c => isspace c = false /\ c <> newline) (to_text (ln_uuid ln)).
Proof.
  intros [[H| ->] _ _ _]; [|split; [cbn; lia|by repeat constructor]]. unfold LowLease.uuid_ok in H. bool_hyps. unfold to_text.
  assert (Hlen : forall s, length (list_ascii_of_string s) = String.length s) by (induction s; cbn; congruence).
  rewrite Hlen. apply Nat.leb_le in H, H1. split; [lia|]. apply Forall_forall. intros c Hc. rewrite forallb_forall in H0. specialize (H0 c (proj1 (list_elem_of_In _ _) Hc)).
  revert H0. clear. destruct c as [[] [] [] [] [] [] [] []]; vm_compute; intros; (done || (split; congruence)).
Qed.

Lemma scan_low_line_text ln : low_line_ok ln -> scan_low_line (low_line_text ln) = Some ln.
Proof.
  intros Hln. destruct (low_uuid_plain ln Hln) as [Hl Hp]. destruct (ll_index ln Hln), (ll_epoch ln Hln), (ll_cid ln Hln). unfold scan_low_line, low_line_text, print_u, print_llu.
  rewrite scan_word_spec; [|intros E; rewrite E in Hl; cbn in Hl; lia|lia|eapply Forall_impl; [exact Hp|by intros ? []]|done]. cbn [app].
  rewrite (scan_num_print 32) by (done || (cbn; lia)). rewrite (scan_num_print 64) by (done || (cbn; lia)). rewrite (scan_num_print 32) by (done || (cbn; lia)).
  rewrite of_to_text. by destruct ln.
Qed.

Lemma low_line_cut ln rest : low_line_ok ln -> next_line 255 (low_line_text ln ++ rest) = (low_line_text ln, rest).
Proof.
  intros Hln. destruct (low_uuid_plain ln Hln) as [Hl Hp]. destruct (ll_index ln Hln), (ll_epoch ln Hln), (ll_cid ln Hln).
  set (body := to_text (ln_uuid ln) ++ [space] ++ print_u (ln_index ln) ++ [space] ++ print_llu (ln_epoch ln) ++ [space] ++ print_u (ln_cid ln)).
  assert (Eb : low_line_text ln = body ++ [newline]) by (unfold low_line_text, body; by rewrite <- !app_assoc).
  rewrite Eb, <- app_assoc. cbn [app]. apply next_line_spec.
  - unfold body. rewrite !length_app. cbn [length]. pose proof (print_digits_length 9 (ln_index ln)). pose proof (print_digits_length 19 (ln_epoch ln)).
    pose proof (print_digits_length 9 (ln_cid ln)). unfold print_u, print_llu. lia.
  - unfold body. rewrite !Forall_app, !Forall_singleton. unfold print_u, print_llu.
    split_and!; try done; [eapply Forall_impl; [exact Hp|by intros ? []]|apply print_no_newline; cbn; lia..].
Qed.

Lemma scan_low_text lns fuel : Forall low_line_ok lns -> (length (low_store_text lns) <= fuel)%nat -> scan_low_lines fuel (low_store_text lns) = lns.
Proof.
  intros Hf. revert fuel. induction Hf as [|ln lns Hln _ IH]; intros fuel Hfuel; [by destruct fuel|]. unfold low_store_text in *. cbn [map concat] in *.
  pose proof (low_line_cut ln (concat (map low_line_text lns)) Hln) as Ecut. pose proof (scan_low_line_text ln Hln) as Escan.
  assert (Hne : exists c l, low_line_text ln = c :: l).
  { destruct (low_uuid_plain ln Hln) as [Hl _]. unfold low_line_text. destruct (to_text (ln_uuid ln)); [cbn in Hl; lia|]. by eexists _, _. }
  destruct Hne as (c & l & El). rewrite El in *. destruct fuel as [|fuel]; [cbn in Hfuel; lia|]. cbn [app scan_low_lines] in *. rewrite Ecut, Escan. f_equal. apply IH.
  cbn in Hfuel. rewrite length_app in Hfuel. lia.
Qed.

(** The leases the admin requests make. *)
Definition low_slot_typed (s : low_slot) : Prop := LowLease.uuid_ok (lo_uuid s) = true /\ is_u32 (lo_index s) /\ is_u64 (lo_epoch s) /\ is_u32 (lo_cid s).

Lemma saved_lines_ok st :
  (forall s, s ∈ lw_slots st -> lo_in_use s = true -> low_slot_typed s) -> (length (lw_scrub st) <= 8)%nat -> Forall low_line_ok (lw_store (snd (save_locked true st))).
Proof.
  intros Hs Hl. cbn. apply Forall_app. split.
  - unfold lease_lines. apply Forall_fmap, Forall_forall. intros s [Hu Hin]%list_elem_of_filter. destruct (Hs s Hin Hu) as (H1 & H2 & H3 & H4). split; [by left|done..].
  - unfold scrub_lines. apply Forall_concat, Forall_lookup. intros i ls Hi. rewrite list_lookup_imap in Hi. destruct (lw_scrub st !! i) as [b|] eqn:E; [|done]. cbn in Hi.
    injection Hi as <-. destruct b; [|constructor]. apply lookup_lt_Some in E. apply Forall_singleton. split; cbn; [by right|unfold is_u32; lia|unfold is_u64; lia|unfold is_u32; lia].
Qed.

(** * Theorems *)

(** A low slice is given only to a guest that holds a slice of the shared window: no request, whatever its text and
    whatever fails, gives a lease to a UUID, or lets it wait for one, unless that UUID has a lease in the other table
    then, and a request never changes the other table. *)
Theorem low_slice_paired {K} {hooks : SliceLease.AuxHooks K} fresh env now req n (y : SliceLease.lease_sys (K := K)) st ans y' st' u :
  lease_reachable fresh y -> virt_low_lease_admin env now req n y st = (ans, y', st') ->
  y' = y /\
  (query_low u st = ERR_NOT_FOUND -> query_low u st' <> ERR_NOT_FOUND -> is_Some (window_lease (to_text u) y)) /\
  (forall cid, ans = Asleep u cid -> is_Some (window_lease (to_text u) y)).
Proof.
  intros Hr. destruct (lease_reachable_inv _ _ Hr) as [Hok _]. unfold virt_low_lease_admin. destruct (n =? 0)%nat; [by intros [= <- <- <-]|].
  set (words := scan_words 4 63 req). destruct words as [|cmd words'] eqn:Ew; [by intros [= <- <- <-]|]. rewrite <- Ew. clear Ew.
  destruct (str_eq cmd (lit "RESERVE_LOW")).
  - destruct (parse_u32 _) as [cid|]; [|by intros [= <- <- <-]]. set (uuid := nth 1 words []).
    assert (Hw : uuid = [] \/ (length uuid <= 63)%nat /\ Forall (fun c => isspace c = false) uuid).
    { unfold uuid. destruct (words !! 1%nat) as [w|] eqn:E1; [|left; by apply nth_overflow, lookup_ge_None].
      right. erewrite nth_lookup_Some by exact E1. by apply list_elem_of_lookup_2, scan_words_plain in E1 as (_ & H1 & H2). }
    destruct (cavalry_held_iff uuid y Hok Hw) as (b & -> & Hb). destruct b; cbn [negb]; [|by intros [= <- <- <-]].
    pose proof (proj1 Hb eq_refl) as Hheld. destruct (reserve_locked env (of_text uuid) cid st) as [[r|] st1] eqn:Eres; intros [= <- <- <-].
    + split; [done|]. split; [|done]. intros Hn Hy. apply query_has in Hy. destruct (reserve_adds _ _ _ _ _ _ _ Eres Hy) as [H| ->]; [by apply query_has in H|by rewrite to_of_text].
    + split; [done|]. split; [|intros c [= <- <-]; by rewrite to_of_text]. intros Hn Hy. apply query_has in Hy.
      destruct (reserve_adds _ _ _ _ _ _ _ Eres Hy) as [H| ->]; [by apply query_has in H|by rewrite to_of_text].
  - destruct (str_eq cmd (lit "RELEASE_LOW")); [|destruct (str_eq cmd (lit "QUERY_LOW")); by intros [= <- <- <-]].
    destruct (SliceLease.parse_u64 _) as [epoch|]; [|by intros [= <- <- <-]]. destruct (release_locked _ _ _ _ _) as [r st1] eqn:Er. intros [= <- <- <-].
    split; [done|]. split; [|done]. intros Hn Hy. apply query_has in Hy. by apply (release_adds _ _ _ _ _ _ _ _ Er), query_has in Hy.
Qed.

#[local] Existing Instance demo_hooks.

Definition demo_low : low_state := snd (virt_low_lease_set_parent 0x4000000 (virt_low_lease_reset (repeat [] 8) [])).
Definition demo_low_told : answer * SliceLease.lease_sys * low_state :=
  virt_low_lease_admin (mk_lenv true false) 0 (lit "RESERVE_LOW 0a-1 7") 128 (snd demo_grant) demo_low.

Lemma low_slice_paired_witness :
  fst (fst demo_low_told) = Replied 0 (lit "OK index=0 path=/dev/amba_virt_iav_slice0 epoch=1 usable=67104768" ++ [newline]) /\
  is_Some (window_lease (to_text "0a-1") (snd demo_grant)).
Proof.
  split; [vm_compute; reflexivity|].
  refine (proj1 (proj2 (low_slice_paired true (mk_lenv true false) 0 (lit "RESERVE_LOW 0a-1 7") 128 (snd demo_grant) demo_low (fst (fst demo_low_told))
    (snd (fst demo_low_told)) (snd demo_low_told) "0a-1" demo_grant_reachable _)) _ _).
  - unfold demo_low_told. destruct (virt_low_lease_admin _ _ _ _ _ _) as [[a b] c]. reflexivity.
  - vm_compute. reflexivity.
  - vm_compute. discriminate.
Defined.

(** The bytes of the store are the lines it was written from: what save_locked prints for the leases and the slices
    that wait for their scrub, fgets and sscanf read back as exactly those lines. *)
Theorem low_store_reads_back st :
  (forall s, s ∈ lw_slots st -> lo_in_use s = true -> low_slot_typed s) -> (length (lw_scrub st) <= 8)%nat ->
  let lns := lw_store (snd (save_locked true st)) in
  scan_low_lines (length (low_store_text lns)) (low_store_text lns) = lns.
Proof. intros Hs Hl. apply scan_low_text; [by apply saved_lines_ok|done]. Qed.

Definition demo_leased : low_state := snd demo_low_told.

Lemma low_store_reads_back_witness :
  low_store_text (lw_store demo_leased) = lit "0a-1 0 1 7" ++ [newline] /\
  let lns := lw_store (snd (save_locked true demo_leased)) in scan_low_lines (length (low_store_text lns)) (low_store_text lns) = lns.
Proof.
  split; [vm_compute; reflexivity|]. apply (low_store_reads_back demo_leased).
  - assert (E : lw_slots demo_leased = mk_low true "0a-1" 0 1 7 :: repeat low_zero 7) by (vm_compute; reflexivity). rewrite E.
    intros s [->|Hs]%elem_of_cons Hu; [unfold low_slot_typed, is_u32, is_u64; cbn; split; [reflexivity|lia]|].
    apply list_elem_of_lookup in Hs as [i Hi]. apply repeat_lookup in Hi as ->. done.
  - vm_compute. lia.
Defined.
