(* ===== verification/DmaLease.v ===== *)
(** * The DMA lease reference monitor of the host kernel

    Models drivers/amba_virt/amba_virt_dma.c: four leases, each with a 16 MiB slice of the DMA32 pool, and
    two UART endpoints. A dispatched request is a thread that checks the request, hands a descriptor to the
    DMA engine and sleeps until the completion callback, the watchdog or a forced drain wakes it up; so one
    request is three steps here: [dispatch_submit], a wake-up, [dispatch_finish]. A drain that waits is two:
    [amba_dma_drain_lease] and [drain_resume]. Descriptors in flight are [hw], sleeping threads are
    [waiters] and [drainers], and [events] logs what reaches memory and the engine. The kernel's
    DMA engine, random numbers, [ioremap] and clock are arguments. *)

From Stdlib Require Import ZArith Lia Bool.
From stdpp Require Import base list numbers decidable.
From S2P Require Import Prelude.

Module DmaLease.

(** ** UAPI constants (include/uapi/amba_virt.h) *)

Definition AMBA_VIRT_DMA32_POOL_BASE : Z := 0x17c00000.
Definition AMBA_VIRT_DMA32_NUM_SLICES : nat := 4.
Definition AMBA_VIRT_DMA32_SLICE_SIZE : Z := 0x01000000.

(** AMBA_DMA_LEASE_FREE to AMBA_DMA_LEASE_QUARANTINED *)
Inductive lease_state := FREE | STARTING | ACTIVE | DRAINING | SANITIZING | QUARANTINED.

#[global] Instance lease_state_eq_dec : EqDecision lease_state.
Proof. solve_decision. Defined.

Definition AMBA_DMA_ENDPOINT_NONE : Z := 0.
Definition AMBA_DMA_ENDPOINT_UART2 : Z := 2.
Definition AMBA_DMA_ENDPOINT_UART3 : Z := 3.
Definition AMBA_DMA_BOOTSTRAP_SIZE : Z := 4096.
Definition AMBA_DMA_OP_MEM_TO_DEV : Z := 1.
Definition AMBA_DMA_OP_DEV_TO_MEM : Z := 2.
Definition U32_MAX : Z := 0xffffffff.

(** struct amba_virt_dma_request *)
Record amba_virt_dma_request := mk_dreq {
  rq_capability : Z;
  rq_epoch : Z;
  rq_cookie : Z;
  rq_endpoint_id : Z;
  rq_operation : Z;
  rq_offset : Z;
  rq_length : Z;
}.

(** struct amba_virt_dma_response *)
Record amba_virt_dma_response := mk_dresp { rs_cookie : Z; rs_status : Z; rs_transferred : Z }.

(** struct amba_dma_lease_alloc *)
Record amba_dma_lease_alloc := mk_alloc {
  la_vm_uuid : list Z;
  la_boot_generation : Z;
  la_vsock_cid : Z;
  la_lease_id : Z;
  la_endpoint_id : Z;
  la_capability : Z;
  la_epoch : Z;
}.

(** struct amba_dma_lease_stats: the counters the monitor keeps *)
Record amba_dma_lease_stats := mk_stats {
  s_requests_total : Z;
  s_bytes_total : Z;
  s_err_invalid_capability : Z;
  s_err_invalid_bounds : Z;
  s_err_invalid_epoch : Z;
  s_err_dma_watchdog : Z;
  s_teardown_drain_ms : Z;
  s_sanitize_duration_us : Z;
}.

(** struct amba_dma_lease, its fields in the groups of the declaration: identity, slice, active
    transaction ([x_done] is the count of the completion, [x_armed] whether the watchdog timer is
    pending), replay ring, telemetry. *)
Record lease_ident := mk_ident {
  i_state : lease_state;
  i_bound : Z;
  i_epoch : Z;
  i_capability : Z;
  i_hmac_key : list Z;
  i_vm_uuid : list Z;
  i_boot_generation : Z;
  i_vsock_cid : Z;
}.

Record lease_slice := mk_slice { sl_phys : Z; sl_size : Z; sl_dma : Z }.

Record lease_xfer := mk_xfer {
  x_in_flight : bool;
  x_cookie : Z;
  x_endpoint : Z;
  x_operation : Z;
  x_done : nat;
  x_armed : bool;
  x_timeout_ms : Z;
  x_status : Z;
  x_transferred : Z;
}.

Record lease_replay := mk_replay { rp_cookies : list Z; rp_idx : nat }.

Record amba_dma_lease := mk_lease {
  l_ident : lease_ident;
  l_slice : lease_slice;
  l_xfer : lease_xfer;
  l_replay : lease_replay;
  l_stats : amba_dma_lease_stats;
}.

Definition l_state (l : amba_dma_lease) : lease_state := i_state (l_ident l).
Definition l_bound (l : amba_dma_lease) : Z := i_bound (l_ident l).
Definition l_epoch (l : amba_dma_lease) : Z := i_epoch (l_ident l).

Definition with_ident (l : amba_dma_lease) (i : lease_ident) : amba_dma_lease :=
  mk_lease i (l_slice l) (l_xfer l) (l_replay l) (l_stats l).
Definition with_xfer (l : amba_dma_lease) (x : lease_xfer) : amba_dma_lease :=
  mk_lease (l_ident l) (l_slice l) x (l_replay l) (l_stats l).
Definition with_replay (l : amba_dma_lease) (r : lease_replay) : amba_dma_lease :=
  mk_lease (l_ident l) (l_slice l) (l_xfer l) r (l_stats l).
Definition with_stats (l : amba_dma_lease) (s : amba_dma_lease_stats) : amba_dma_lease :=
  mk_lease (l_ident l) (l_slice l) (l_xfer l) (l_replay l) s.

Definition ident_state (i : lease_ident) (s : lease_state) : lease_ident :=
  mk_ident s (i_bound i) (i_epoch i) (i_capability i) (i_hmac_key i) (i_vm_uuid i) (i_boot_generation i)
           (i_vsock_cid i).
Definition set_state (l : amba_dma_lease) (s : lease_state) : amba_dma_lease :=
  with_ident l (ident_state (l_ident l) s).

(** A transfer channel of an endpoint. *)
Record dma_chan := mk_chan { ch_dreq : Z }.

(** struct amba_dma_endpoint_policy *)
Record amba_dma_endpoint_policy := mk_ep {
  ep_id : Z;
  ep_tx_dreq : Z;
  ep_rx_dreq : Z;
  ep_fifo_phys : Z;
  ep_fifo_dma : Z;
  ep_addr_width : Z;
  ep_max_burst : Z;
  ep_tx_chan : option dma_chan;
  ep_rx_chan : option dma_chan;
  ep_owner_lease : Z;
}.

Definition set_owner (ep : amba_dma_endpoint_policy) (o : Z) : amba_dma_endpoint_policy :=
  mk_ep (ep_id ep) (ep_tx_dreq ep) (ep_rx_dreq ep) (ep_fifo_phys ep) (ep_fifo_dma ep) (ep_addr_width ep)
        (ep_max_burst ep) (ep_tx_chan ep) (ep_rx_chan ep) o.

Inductive dma_dir := DMA_MEM_TO_DEV | DMA_DEV_TO_MEM.

(** A descriptor handed to the engine by dmaengine_submit and issue_pending, [d_lease] being the
    callback parameter. *)
Record dma_desc := mk_desc {
  d_lease : nat;
  d_endpoint : Z;
  d_dreq : Z;
  d_dir : dma_dir;
  d_fifo : Z;
  d_addr : Z;
  d_len : Z;
}.

(** What reaches the slices and the engine. *)
Inductive dma_event :=
| EvSanitize (lease : nat)
| EvBootstrap (lease : nat) (epoch : Z) (key : list Z)
| EvIssue (d : dma_desc).

Record dma_state := mk_dma {
  leases : list amba_dma_lease;
  endpoint_uart2 : amba_dma_endpoint_policy;
  endpoint_uart3 : amba_dma_endpoint_policy;
  hw : list dma_desc;
  waiters : list (nat * amba_virt_dma_request);
  drainers : list nat;
  events : list dma_event;
}.

Definition put_lease (id : nat) (l : amba_dma_lease) (st : dma_state) : dma_state :=
  mk_dma (<[id := l]> (leases st)) (endpoint_uart2 st) (endpoint_uart3 st) (hw st) (waiters st) (drainers st)
         (events st).
Definition put_eps (e2 e3 : amba_dma_endpoint_policy) (st : dma_state) : dma_state :=
  mk_dma (leases st) e2 e3 (hw st) (waiters st) (drainers st)
         (events st).
Definition set_hw (h : list dma_desc) (st : dma_state) : dma_state :=
  mk_dma (leases st) (endpoint_uart2 st) (endpoint_uart3 st) h (waiters st) (drainers st)
         (events st).
Definition set_waiters (w : list (nat * amba_virt_dma_request)) (st : dma_state) : dma_state :=
  mk_dma (leases st) (endpoint_uart2 st) (endpoint_uart3 st) (hw st) w (drainers st) (events st).
Definition set_drainers (w : list nat) (st : dma_state) : dma_state :=
  mk_dma (leases st) (endpoint_uart2 st) (endpoint_uart3 st) (hw st) (waiters st) w (events st).
Definition log (e : dma_event) (st : dma_state) : dma_state :=
  mk_dma (leases st) (endpoint_uart2 st) (endpoint_uart3 st) (hw st) (waiters st) (drainers st)
         (e :: events st).

(** ** Completion, callback and watchdog *)

(** complete(&lease->xfer_done) *)
Definition complete (x : lease_xfer) : lease_xfer :=
  mk_xfer (x_in_flight x) (x_cookie x) (x_endpoint x) (x_operation x) (S (x_done x)) (x_armed x)
          (x_timeout_ms x) (x_status x) (x_transferred x).

Definition set_status (x : lease_xfer) (s : Z) : lease_xfer :=
  mk_xfer (x_in_flight x) (x_cookie x) (x_endpoint x) (x_operation x) (x_done x) (x_armed x)
          (x_timeout_ms x) s (x_transferred x).

Definition del_timer (x : lease_xfer) : lease_xfer :=
  mk_xfer (x_in_flight x) (x_cookie x) (x_endpoint x) (x_operation x) (x_done x) false
          (x_timeout_ms x) (x_status x) (x_transferred x).

(** dmaengine_terminate_sync on the channel with request line [dreq]: nothing of it stays in flight. *)
Definition terminate_chan (c : option dma_chan) (h : list dma_desc) : list dma_desc :=
  match c with
  | Some ch => filter (fun d => d_dreq d <> ch_dreq ch) h
  | None => h
  end.

(** The channel the watchdog terminates on one endpoint. *)
Definition watchdog_endpoint (lease_id op : Z) (ep : amba_dma_endpoint_policy) (h : list dma_desc) : list dma_desc :=
  if ep_owner_lease ep =? lease_id then
    if (op =? AMBA_DMA_OP_MEM_TO_DEV) && bool_decide (is_Some (ep_tx_chan ep)) then terminate_chan (ep_tx_chan ep) h
    else if (op =? AMBA_DMA_OP_DEV_TO_MEM) && bool_decide (is_Some (ep_rx_chan ep))
         then terminate_chan (ep_rx_chan ep) h
    else h
  else h.

(** amba_dma_watchdog_fired *)
Definition amba_dma_watchdog_fired (id : nat) (st : dma_state) : dma_state :=
  match leases st !! id with
  | None => st
  | Some l =>
      let x := l_xfer l in
      let s := l_stats l in
      let s' := mk_stats (s_requests_total s) (s_bytes_total s) (s_err_invalid_capability s)
                         (s_err_invalid_bounds s) (s_err_invalid_epoch s) (u64 (s_err_dma_watchdog s + 1))
                         (s_teardown_drain_ms s) (s_sanitize_duration_us s) in
      let h2 := watchdog_endpoint (Z.of_nat id) (x_operation x) (endpoint_uart2 st) (hw st) in
      let h3 := watchdog_endpoint (Z.of_nat id) (x_operation x) (endpoint_uart3 st) h2 in
      let x' := complete (set_status (del_timer x) (- ETIMEDOUT)) in
      set_hw h3 (put_lease id (with_stats (with_xfer l x') s') st)
  end.

(** amba_dma_callback for a descriptor the engine has finished *)
Definition amba_dma_callback (d : dma_desc) (h : list dma_desc) (st : dma_state) : dma_state :=
  match leases st !! d_lease d with
  | None => set_hw h st
  | Some l => set_hw h (put_lease (d_lease d) (with_xfer l (complete (set_status (del_timer (l_xfer l)) 0))) st)
  end.

(** ** Sanitisation and bootstrap page *)

(** amba_dma_sanitize_slice; [remap] whether ioremap_wc succeeds, [us] the measured time *)
Definition amba_dma_sanitize_slice (id : nat) (l : amba_dma_lease) (remap : bool) (us : Z) (st : dma_state)
    : Z * amba_dma_lease * dma_state :=
  if remap then
    let s := l_stats l in
    let s' := mk_stats (s_requests_total s) (s_bytes_total s) (s_err_invalid_capability s)
                       (s_err_invalid_bounds s) (s_err_invalid_epoch s) (s_err_dma_watchdog s)
                       (s_teardown_drain_ms s) (u32 us) in
    (0, with_stats l s', log (EvSanitize id) st)
  else (- ENOMEM, l, st).

(** amba_dma_write_bootstrap_page *)
Definition amba_dma_write_bootstrap_page (id : nat) (l : amba_dma_lease) (remap : bool) (st : dma_state) : dma_state :=
  if remap then log (EvBootstrap id (l_epoch l) (i_hmac_key (l_ident l))) st else st.

(** ** Lease allocation *)

Definition is_live (l : amba_dma_lease) : bool :=
  bool_decide (l_state l = ACTIVE) || bool_decide (l_state l = STARTING).

(** Random values and mapping result used by one allocation. *)
Record alloc_env := mk_aenv { ae_capability : Z; ae_hmac_key : list Z; ae_remap : bool }.

(** amba_dma_alloc_lease *)
Definition amba_dma_alloc_lease (env : alloc_env) (a : amba_dma_lease_alloc) (st : dma_state)
    : Z * amba_dma_lease_alloc * dma_state :=
  let ep := la_endpoint_id a in
  if negb (ep =? AMBA_DMA_ENDPOINT_NONE) && negb (ep =? AMBA_DMA_ENDPOINT_UART2) &&
     negb (ep =? AMBA_DMA_ENDPOINT_UART3) then (- EINVAL, a, st)
  else
    let existing :=
      if la_vsock_cid a =? 0 then None
      else find_idx (fun l => is_live l && (i_vsock_cid (l_ident l) =? la_vsock_cid a)) (leases st) in
    match existing with
    | Some id =>
        match leases st !! id with
        | Some l =>
            if negb (ep =? AMBA_DMA_ENDPOINT_NONE) && negb (ep =? l_bound l) then (- EBUSY, a, st)
            else (0, mk_alloc (la_vm_uuid a) (la_boot_generation a) (la_vsock_cid a) (Z.of_nat id) (l_bound l)
                              (i_capability (l_ident l)) (l_epoch l), st)
        | None => (- EINVAL, a, st)
        end
    | None =>
        let reserved :=
          negb (ep =? AMBA_DMA_ENDPOINT_NONE) &&
          existsb (fun l => negb (bool_decide (l_state l = FREE)) && (l_bound l =? ep)) (leases st) in
        if reserved then (- EBUSY, a, st)
        else
          match find_idx (fun l => bool_decide (l_state l = FREE)) (leases st) with
          | None => (- ENOSPC, a, st)
          | Some id =>
              match leases st !! id with
              | None => (- ENOSPC, a, st)
              | Some l =>
                  let epoch := u64 (l_epoch l + 1) in
                  let l' := with_ident l (mk_ident STARTING ep epoch (ae_capability env) (ae_hmac_key env)
                                            (la_vm_uuid a) (la_boot_generation a) (la_vsock_cid a)) in
                  let e2 := if ep =? AMBA_DMA_ENDPOINT_UART2 then set_owner (endpoint_uart2 st) (Z.of_nat id)
                            else endpoint_uart2 st in
                  let e3 := if ep =? AMBA_DMA_ENDPOINT_UART3 then set_owner (endpoint_uart3 st) (Z.of_nat id)
                            else endpoint_uart3 st in
                  let st1 := put_lease id l' (put_eps e2 e3 st) in
                  (0, mk_alloc (la_vm_uuid a) (la_boot_generation a) (la_vsock_cid a) (Z.of_nat id) ep
                               (ae_capability env) epoch,
                   amba_dma_write_bootstrap_page id l' (ae_remap env) st1)
              end
          end
    end.

(** ** Drain, release and quarantine *)

(** The terminations of a forced drain on one endpoint. *)
Definition drain_endpoint (lease_id : Z) (ep : amba_dma_endpoint_policy) (h : list dma_desc) : list dma_desc :=
  if ep_owner_lease ep =? lease_id then terminate_chan (ep_rx_chan ep) (terminate_chan (ep_tx_chan ep) h) else h.

Definition set_drain_ms (l : amba_dma_lease) (ms : Z) : amba_dma_lease :=
  let s := l_stats l in
  with_stats l (mk_stats (s_requests_total s) (s_bytes_total s) (s_err_invalid_capability s)
                         (s_err_invalid_bounds s) (s_err_invalid_epoch s) (s_err_dma_watchdog s)
                         (u32 ms) (s_sanitize_duration_us s)).

(** amba_dma_drain_lease: DRAINING is set and, when forced, the channels of a request in flight are
    terminated and the sleeping thread woken. Without force the caller sleeps on the same completion with
    the lease unlocked: the result is [None] then and [drain_resume] is the rest. *)
Definition amba_dma_drain_lease (lease_id : nat) (epoch : Z) (force : bool) (ms : Z) (st : dma_state)
    : option Z * dma_state :=
  match leases st !! lease_id with
  | None => (Some (- EINVAL), st)
  | Some l =>
      if negb (epoch =? 0) && negb (l_epoch l =? epoch) then (Some (- ESTALE), st)
      else if negb (is_live l) then (Some (- EBUSY), st)
      else
        let l1 := set_state l DRAINING in
        if x_in_flight (l_xfer l) then
          if force then
            let h2 := drain_endpoint (Z.of_nat lease_id) (endpoint_uart2 st) (hw st) in
            let h3 := drain_endpoint (Z.of_nat lease_id) (endpoint_uart3 st) h2 in
            let l2 := with_xfer l1 (complete (del_timer (l_xfer l1))) in
            (Some 0, set_hw h3 (put_lease lease_id (set_drain_ms l2 ms) st))
          else (None, set_drainers (lease_id :: drainers st) (put_lease lease_id l1 st))
        else (Some 0, put_lease lease_id (set_drain_ms l1 ms) st)
  end.

(** The rest of a drain that slept. [woken]: the completion was there, and waiting has consumed it;
    otherwise the wait timed out after AMBA_DMA_DRAIN_TIMEOUT_MS. *)
Definition drain_resume (lease_id : nat) (woken : bool) (ms : Z) (st : dma_state) : dma_state :=
  match leases st !! lease_id with
  | None => st
  | Some l =>
      let x := l_xfer l in
      let x' := if woken
                then mk_xfer (x_in_flight x) (x_cookie x) (x_endpoint x) (x_operation x) (pred (x_done x))
                             (x_armed x) (x_timeout_ms x) (x_status x) (x_transferred x)
                else x in
      put_lease lease_id (set_drain_ms (with_xfer l x') ms) st
  end.

(** Ownership of an endpoint given up by a lease. *)
Definition disown (lease_id : nat) (ep : amba_dma_endpoint_policy) : amba_dma_endpoint_policy :=
  if ep_owner_lease ep =? Z.of_nat lease_id then set_owner ep (-1) else ep.

Definition zero_key : list Z := repeat 0 32.
Definition zero_replay : lease_replay := mk_replay (repeat 0 32) 0.

(** amba_dma_release_lease *)
Definition amba_dma_release_lease (lease_id : nat) (epoch : Z) (remap : bool) (us : Z) (st : dma_state)
    : Z * dma_state :=
  match leases st !! lease_id with
  | None => (- EINVAL, st)
  | Some l =>
      if negb (epoch =? 0) && negb (l_epoch l =? epoch) then (- ESTALE, st)
      else
        let st1 := put_eps (disown lease_id (endpoint_uart2 st)) (disown lease_id (endpoint_uart3 st)) st in
        let '(ret, l1, st2) := amba_dma_sanitize_slice lease_id (set_state l SANITIZING) remap us st1 in
        if negb (ret =? 0) then (ret, put_lease lease_id (set_state l1 QUARANTINED) st2)
        else
          let x := l_xfer l1 in
          let x' := mk_xfer false 0 (x_endpoint x) (x_operation x) (x_done x) (x_armed x) (x_timeout_ms x)
                            (x_status x) (x_transferred x) in
          let i' := mk_ident FREE AMBA_DMA_ENDPOINT_NONE (l_epoch l1) 0 zero_key (repeat 0 16) 0 0 in
          (0, put_lease lease_id (mk_lease i' (l_slice l1) x' zero_replay (l_stats l1)) st2)
  end.

(** amba_dma_quarantine_release; the epoch argument is not looked at *)
Definition amba_dma_quarantine_release (lease_id : nat) (epoch : Z) (remap : bool) (us : Z) (st : dma_state)
    : Z * dma_state :=
  match leases st !! lease_id with
  | None => (- EINVAL, st)
  | Some l =>
      if negb (bool_decide (l_state l = QUARANTINED)) then (- EINVAL, st)
      else
        let st1 := put_eps (disown lease_id (endpoint_uart2 st)) (disown lease_id (endpoint_uart3 st)) st in
        let '(_, l1, st2) := amba_dma_sanitize_slice lease_id l remap us st1 in
        let i := l_ident l1 in
        let i' := mk_ident FREE AMBA_DMA_ENDPOINT_NONE (u64 (i_epoch i + 1)) (i_capability i) zero_key
                           (i_vm_uuid i) (i_boot_generation i) (i_vsock_cid i) in
        (0, put_lease lease_id (with_ident l1 i') st2)
  end.

(** ** Dispatch *)

(** amba_dma_cookie_is_replayed *)
Definition amba_dma_cookie_is_replayed (l : amba_dma_lease) (cookie : Z) : bool :=
  if cookie =? 0 then false
  else if x_in_flight (l_xfer l) && (x_cookie (l_xfer l) =? cookie) then true
  else existsb (fun c => negb (c =? 0) && (c =? cookie)) (rp_cookies (l_replay l)).

(** amba_dma_record_cookie *)
Definition amba_dma_record_cookie (l : amba_dma_lease) (cookie : Z) : amba_dma_lease :=
  let r := l_replay l in
  with_replay l (mk_replay (<[rp_idx r := cookie]> (rp_cookies r)) ((rp_idx r + 1) mod 32)%nat).

Inductive err_counter := ErrCapability | ErrBounds | ErrEpoch.

Definition bump (e : err_counter) (l : amba_dma_lease) : amba_dma_lease :=
  let s := l_stats l in
  let b e' v := match e, e' with
                | ErrCapability, ErrCapability | ErrBounds, ErrBounds | ErrEpoch, ErrEpoch => u64 (v + 1)
                | _, _ => v
                end in
  with_stats l (mk_stats (s_requests_total s) (s_bytes_total s) (b ErrCapability (s_err_invalid_capability s))
                         (b ErrBounds (s_err_invalid_bounds s)) (b ErrEpoch (s_err_invalid_epoch s))
                         (s_err_dma_watchdog s) (s_teardown_drain_ms s) (s_sanitize_duration_us s)).

(** Steps 1 to 5 of the dispatch, which look at the lease and the request only: the lease they leave and
    [inl rc] for a refusal, [inr endpoint] for the effective endpoint. *)
Definition dispatch_check (l0 : amba_dma_lease) (req : amba_virt_dma_request) : amba_dma_lease * (Z + Z) :=
  if negb (is_live l0) then (l0, inl (- EPERM))
  else
    let l := if bool_decide (l_state l0 = STARTING) then set_state l0 ACTIVE else l0 in
    let size := sl_size (l_slice l) in
    let off := rq_offset req in
    let len := rq_length req in
    let rep := rq_endpoint_id req in
    if negb (rq_capability req =? i_capability (l_ident l)) then (bump ErrCapability l, inl (- EACCES))
    else if negb (rq_epoch req =? l_epoch l) then (bump ErrEpoch l, inl (- ESTALE))
    else if amba_dma_cookie_is_replayed l (rq_cookie req) then (bump ErrEpoch l, inl (- EALREADY))
    else if x_in_flight (l_xfer l) then (l, inl (- EBUSY))
    else if (len =? 0) || (len >? 4 * 1024 * 1024) then (bump ErrBounds l, inl (- EINVAL))
    else if (off <? AMBA_DMA_BOOTSTRAP_SIZE) || (off >=? size) || (off >? u64 (size - len))
         then (bump ErrBounds l, inl (- ERANGE))
    else if negb (Z.land off 3 =? 0) then (bump ErrBounds l, inl (- EINVAL))
    else
      let buf_dma := u64 (sl_dma (l_slice l) + off) in
      if u64 (u64 (buf_dma + len) - 1) >? U32_MAX then (bump ErrBounds l, inl (- EFBIG))
      else if negb (rep =? AMBA_DMA_ENDPOINT_NONE) && negb (rep =? AMBA_DMA_ENDPOINT_UART2) &&
              negb (rep =? AMBA_DMA_ENDPOINT_UART3) then (l, inl (- ENODEV))
      else if l_bound l =? AMBA_DMA_ENDPOINT_NONE then (l, inl (- EPERM))
      else if negb (rep =? AMBA_DMA_ENDPOINT_NONE) && negb (rep =? l_bound l) then (l, inl (- EPERM))
      else
        let effective_ep := if negb (rep =? AMBA_DMA_ENDPOINT_NONE) then rep else l_bound l in
        if (effective_ep =? AMBA_DMA_ENDPOINT_UART2) || (effective_ep =? AMBA_DMA_ENDPOINT_UART3)
        then (l, inr effective_ep) else (l, inl (- ENODEV)).

(** The endpoint of the dispatch and the other one. *)
Definition ep_of (e : Z) (st : dma_state) : amba_dma_endpoint_policy :=
  if e =? AMBA_DMA_ENDPOINT_UART2 then endpoint_uart2 st else endpoint_uart3 st.
Definition other_ep (e : Z) (st : dma_state) : amba_dma_endpoint_policy :=
  if e =? AMBA_DMA_ENDPOINT_UART2 then endpoint_uart3 st else endpoint_uart2 st.
Definition put_ep (e : Z) (ep : amba_dma_endpoint_policy) (st : dma_state) : dma_state :=
  if e =? AMBA_DMA_ENDPOINT_UART2 then put_eps ep (endpoint_uart3 st) st else put_eps (endpoint_uart2 st) ep st.

(** What the DMA engine answers: the result of dmaengine_slave_config and whether a descriptor could be
    prepared. *)
Record engine_env := mk_eenv { ee_config : Z; ee_prep : bool }.

(** The watchdog delay: line time of the transfer at 115200 baud plus 2000 ms. *)
Definition watchdog_ms (len : Z) : Z := u32 (u64 (len * 10 * 1000) / 115200 + 2000).

(** Step 6, the direction and the channel. *)
Definition choose_chan (op : Z) (tx rx : dma_chan) : option (dma_dir * dma_chan) :=
  if op =? AMBA_DMA_OP_MEM_TO_DEV then Some (DMA_MEM_TO_DEV, tx)
  else if op =? AMBA_DMA_OP_DEV_TO_MEM then Some (DMA_DEV_TO_MEM, rx)
  else None.

(** amba_dma_dispatch_request up to wait_for_completion: [inl rc] when it returns [rc] before handing
    anything to the engine, [inr d] when descriptor [d] is issued and the caller sleeps. *)
Definition dispatch_submit (lease_id : nat) (req : amba_virt_dma_request) (env : engine_env) (st : dma_state)
    : dma_state * (Z + dma_desc) :=
  match leases st !! lease_id with
  | None => (st, inl (- EINVAL))
  | Some l0 =>
      let '(l, r) := dispatch_check l0 req in
      let st1 := put_lease lease_id l st in
      match r with
      | inl rc => (st1, inl rc)
      | inr e =>
          let ep := ep_of e st in
          if ep_owner_lease (other_ep e st) =? Z.of_nat lease_id then (st1, inl (- EBUSY))
          else
            match ep_tx_chan ep, ep_rx_chan ep with
            | Some tx, Some rx =>
                if negb (ep_owner_lease ep =? -1) && negb (ep_owner_lease ep =? Z.of_nat lease_id)
                then (st1, inl (- EBUSY))
                else
                  let st2 := put_ep e (set_owner ep (Z.of_nat lease_id)) st1 in
                  match choose_chan (rq_operation req) tx rx with
                  | None => (st2, inl (- EINVAL))
                  | Some (dir, chan) =>
                      if negb (ee_config env =? 0) then (st2, inl (ee_config env))
                      else if negb (ee_prep env) then (st2, inl (- EIO))
                      else
                        let d := mk_desc lease_id e (ch_dreq chan) dir (ep_fifo_dma ep)
                                         (u64 (sl_dma (l_slice l) + rq_offset req)) (rq_length req) in
                        let x := mk_xfer true (rq_cookie req) e (rq_operation req) 0 true (watchdog_ms (rq_length req))
                                         (- EINPROGRESS) 0 in
                        let st3 := put_lease lease_id (with_xfer l x) st2 in
                        (log (EvIssue d) (set_waiters ((lease_id, req) :: waiters st3) (set_hw (d :: hw st3) st3)),
                         inr d)
                  end
            | _, _ => (st1, inl (- ENODEV))
            end
      end
  end.

(** The rest of amba_dma_dispatch_request once the completion has woken the caller. *)
Definition dispatch_finish (lease_id : nat) (req : amba_virt_dma_request) (st : dma_state)
    : dma_state * option amba_virt_dma_response :=
  match leases st !! lease_id with
  | None => (st, None)
  | Some l =>
      let x := l_xfer l in
      let x1 := mk_xfer false (x_cookie x) (x_endpoint x) (x_operation x) (pred (x_done x)) (x_armed x)
                        (x_timeout_ms x) (x_status x) (x_transferred x) in
      let l1 := amba_dma_record_cookie (with_xfer l x1) (rq_cookie req) in
      let s := l_stats l1 in
      if x_status x =? 0 then
        let s' := mk_stats (u64 (s_requests_total s + 1)) (u64 (s_bytes_total s + rq_length req))
                           (s_err_invalid_capability s) (s_err_invalid_bounds s) (s_err_invalid_epoch s)
                           (s_err_dma_watchdog s) (s_teardown_drain_ms s) (s_sanitize_duration_us s) in
        (put_lease lease_id (with_stats l1 s') st, Some (mk_dresp (rq_cookie req) (x_status x) (rq_length req)))
      else (put_lease lease_id l1 st, Some (mk_dresp (rq_cookie req) (x_status x) 0))
  end.

(** ** Control and lease devices *)

Definition AMBA_DMA_LEASE_CMD_DRAIN : Z := 1.
Definition AMBA_DMA_LEASE_CMD_FORCE_DRAIN : Z := 2.
Definition AMBA_DMA_LEASE_CMD_RELEASE : Z := 3.
Definition AMBA_DMA_LEASE_CMD_QUARANTINE_RELEASE : Z := 4.

(** amba_dma_ctl_ioctl, AMBA_DMA_IOC_LEASE_CTRL; [None] while a drain sleeps *)
Definition amba_dma_lease_ctrl (command : Z) (lease_id : nat) (epoch : Z) (remap : bool) (t : Z) (st : dma_state)
    : option Z * dma_state :=
  let ret '(rc, st') := (Some rc, st') in
  if command =? AMBA_DMA_LEASE_CMD_DRAIN then amba_dma_drain_lease lease_id epoch false t st
  else if command =? AMBA_DMA_LEASE_CMD_FORCE_DRAIN then amba_dma_drain_lease lease_id epoch true t st
  else if command =? AMBA_DMA_LEASE_CMD_RELEASE then ret (amba_dma_release_lease lease_id epoch remap t st)
  else if command =? AMBA_DMA_LEASE_CMD_QUARANTINE_RELEASE
       then ret (amba_dma_quarantine_release lease_id epoch remap t st)
  else (Some (- EINVAL), st).

(** amba_dma_get_lease_stats: the counters, the state and the epoch *)
Definition amba_dma_get_lease_stats (lease_id : nat) (st : dma_state)
    : option (amba_dma_lease_stats * lease_state * Z) :=
  match leases st !! lease_id with
  | None => None
  | Some l => Some (l_stats l, l_state l, l_epoch l)
  end.

(** amba_dma_mmap_slice: the physical range a mapping of [size] bytes exposes *)
Definition amba_dma_mmap_slice (lease_id : nat) (size : Z) (st : dma_state) : Z + Z * Z :=
  match leases st !! lease_id with
  | None => inl (- EINVAL)
  | Some l => if size >? sl_size (l_slice l) then inl (- EINVAL) else inr (sl_phys (l_slice l), size)
  end.

(** amba_dma_lease_open: the lease of a minor number *)
Definition amba_dma_lease_open (minor : Z) : option nat :=
  if (minor =? 0) || (minor >? Z.of_nat AMBA_VIRT_DMA32_NUM_SLICES) then None else Some (Z.to_nat (minor - 1)).

(** ** Start of the module *)

Definition zero_xfer : lease_xfer := mk_xfer false 0 0 0 0 false 0 0 0.
Definition zero_stats : amba_dma_lease_stats := mk_stats 0 0 0 0 0 0 0 0.

(** One turn of the loop of amba_virt_dma_init that sets up the leases; [dma] is the address
    dma_map_resource returns for the slice, 0 without a device or on a mapping error. *)
Definition init_lease (i : nat) (dma : Z) : amba_dma_lease :=
  mk_lease (mk_ident FREE AMBA_DMA_ENDPOINT_NONE 1 0 zero_key (repeat 0 16) 0 0)
           (mk_slice (u64 (AMBA_VIRT_DMA32_POOL_BASE + Z.of_nat i * AMBA_VIRT_DMA32_SLICE_SIZE))
                     AMBA_VIRT_DMA32_SLICE_SIZE dma)
           zero_xfer zero_replay zero_stats.

(** The endpoint table. *)
Definition uart2_policy : amba_dma_endpoint_policy :=
  mk_ep AMBA_DMA_ENDPOINT_UART2 13 14 0xe0018040 0 1 8 None None (-1).
Definition uart3_policy : amba_dma_endpoint_policy :=
  mk_ep AMBA_DMA_ENDPOINT_UART3 15 16 0xe0019040 0 1 8 None None (-1).

(** amba_dma_acquire_endpoint: [tx] and [rx] are the channels the device tree gives, [None] when the node
    is missing; [fifo] is the DMA address of the FIFO, [None] on a mapping error, 0 without a device. *)
Definition amba_dma_acquire_endpoint (tx rx : option dma_chan) (fifo : option Z) (ep : amba_dma_endpoint_policy)
    : amba_dma_endpoint_policy :=
  let set f := mk_ep (ep_id ep) (ep_tx_dreq ep) (ep_rx_dreq ep) (ep_fifo_phys ep) f (ep_addr_width ep)
                     (ep_max_burst ep) tx rx (ep_owner_lease ep) in
  match tx, rx with
  | Some _, Some _ => set (default 0 fifo)
  | _, _ => set 0
  end.

(** amba_virt_dma_init: the endpoints, then the leases *)
Definition amba_virt_dma_init (tx2 rx2 tx3 rx3 : option dma_chan) (fifo2 fifo3 : option Z) (slice_dma : nat -> Z)
    : dma_state :=
  mk_dma (map (fun i => init_lease i (slice_dma i)) (seq 0 AMBA_VIRT_DMA32_NUM_SLICES))
         (amba_dma_acquire_endpoint tx2 rx2 fifo2 uart2_policy)
         (amba_dma_acquire_endpoint tx3 rx3 fifo3 uart3_policy) [] [] [] [].

(** amba_dma_release_endpoint: [dev] tells whether a device is found to unmap the FIFO with *)
Definition amba_dma_release_endpoint (dev : bool) (ep : amba_dma_endpoint_policy) (h : list dma_desc)
    : amba_dma_endpoint_policy * list dma_desc :=
  (mk_ep (ep_id ep) (ep_tx_dreq ep) (ep_rx_dreq ep) (ep_fifo_phys ep) (if dev then 0 else ep_fifo_dma ep)
         (ep_addr_width ep) (ep_max_burst ep) None None (-1),
   terminate_chan (ep_rx_chan ep) (terminate_chan (ep_tx_chan ep) h)).

(** amba_virt_dma_exit: the endpoints give back their channels, then every watchdog is deleted *)
Definition amba_virt_dma_exit (dev2 dev3 : bool) (st : dma_state) : dma_state :=
  let '(e2, h2) := amba_dma_release_endpoint dev2 (endpoint_uart2 st) (hw st) in
  let '(e3, h3) := amba_dma_release_endpoint dev3 (endpoint_uart3 st) h2 in
  mk_dma (map (fun l => with_xfer l (del_timer (l_xfer l))) (leases st)) e2 e3 h3 (waiters st) (drainers st)
         (events st).

End DmaLease.
