(* ===== verification/DmaLeaseProps.v ===== *)
(** * Properties of the DMA lease reference monitor

    The step relation [dma_step] interleaves the control operations, the request threads, the drains, the
    completion callback and the watchdog in any order. The invariant [dma_ok] is shown for every reachable
    state, and from it the exact admission condition of a request, slice containment of every descriptor
    ever issued, replay protection and refusal of stale epochs. *)

From Stdlib Require Import ZArith Lia Bool.
From stdpp Require Import base list numbers decidable relations.
From S2P Require Import Prelude DmaLease.
Import DmaLease.
#[local] Open Scope Z_scope.

(** ** Steps *)

(** Requests as they come over the wire. *)
Definition dreq_ok (req : amba_virt_dma_request) : Prop :=
  is_u64 (rq_offset req) /\ is_u32 (rq_length req).

Inductive dma_step : dma_state -> dma_state -> Prop :=
| step_alloc env a st rc a' st' :
    amba_dma_alloc_lease env a st = (rc, a', st') -> dma_step st st'
| step_submit id req env st st' r :
    dreq_ok req -> dispatch_submit id req env st = (st', r) -> dma_step st st'
| step_callback d h1 h2 st :
    hw st = h1 ++ d :: h2 -> dma_step st (amba_dma_callback d (h1 ++ h2) st)
| step_watchdog id l st :
    leases st !! id = Some l -> x_armed (l_xfer l) = true -> dma_step st (amba_dma_watchdog_fired id st)
| step_finish id req w1 w2 l st :
    waiters st = w1 ++ (id, req) :: w2 -> leases st !! id = Some l -> (0 < x_done (l_xfer l))%nat ->
    dma_step st (fst (dispatch_finish id req (set_waiters (w1 ++ w2) st)))
| step_drain id epoch force ms st rc st' :
    amba_dma_drain_lease id epoch force ms st = (rc, st') -> dma_step st st'
| step_drain_resume id woken ms w1 w2 l st :
    drainers st = w1 ++ id :: w2 -> leases st !! id = Some l -> (woken = true -> (0 < x_done (l_xfer l))%nat) ->
    dma_step st (drain_resume id woken ms (set_drainers (w1 ++ w2) st))
| step_release id epoch remap us st rc st' :
    amba_dma_release_lease id epoch remap us st = (rc, st') -> dma_step st st'
| step_quarantine id epoch remap us st rc st' :
    amba_dma_quarantine_release id epoch remap us st = (rc, st') -> dma_step st st'.

(** ** Invariant *)

(** A descriptor that stays in the slice of its lease, above the bootstrap page and below 4 GiB. *)
Record desc_ok (sd : nat -> Z) (d : dma_desc) : Prop := {
  do_lease : (d_lease d < AMBA_VIRT_DMA32_NUM_SLICES)%nat;
  do_len : 0 < d_len d <= 4 * 1024 * 1024;
  do_low : sd (d_lease d) + AMBA_DMA_BOOTSTRAP_SIZE <= d_addr d;
  do_high : d_addr d + d_len d <= sd (d_lease d) + AMBA_VIRT_DMA32_SLICE_SIZE;
  do_32 : d_addr d + d_len d <= 2 ^ 32;
  do_ep : d_endpoint d = AMBA_DMA_ENDPOINT_UART2 \/ d_endpoint d = AMBA_DMA_ENDPOINT_UART3;
}.

Definition ring_ok (l : amba_dma_lease) : Prop :=
  length (rp_cookies (l_replay l)) = 32%nat /\ (rp_idx (l_replay l) < 32)%nat.

(** Nobody owns the endpoint, or a lease bound to it does. *)
Definition owner_ok (ls : list amba_dma_lease) (e : Z) (ep : amba_dma_endpoint_policy) : Prop :=
  ep_owner_lease ep = -1 \/
  exists i l, ep_owner_lease ep = Z.of_nat i /\ ls !! i = Some l /\ l_bound l = e.

(** The slice of lease [i], mapped for the device at [sd i]. *)
Definition slice_of (sd : nat -> Z) (i : nat) : lease_slice :=
  mk_slice (AMBA_VIRT_DMA32_POOL_BASE + Z.of_nat i * AMBA_VIRT_DMA32_SLICE_SIZE) AMBA_VIRT_DMA32_SLICE_SIZE (sd i).

Record dma_ok (sd : nat -> Z) (st : dma_state) : Prop := {
  ok_len : length (leases st) = AMBA_VIRT_DMA32_NUM_SLICES;
  ok_slice : forall i l, leases st !! i = Some l -> l_slice l = slice_of sd i;
  ok_ring : forall i l, leases st !! i = Some l -> ring_ok l;
  ok_bound : forall i l, leases st !! i = Some l ->
    l_bound l = AMBA_DMA_ENDPOINT_NONE \/ l_bound l = AMBA_DMA_ENDPOINT_UART2 \/ l_bound l = AMBA_DMA_ENDPOINT_UART3;
  ok_free : forall i l, leases st !! i = Some l -> l_state l = FREE -> l_bound l = AMBA_DMA_ENDPOINT_NONE;
  ok_excl : forall i j li lj, leases st !! i = Some li -> leases st !! j = Some lj ->
    l_bound li = l_bound lj -> l_bound li <> AMBA_DMA_ENDPOINT_NONE -> i = j;
  ok_cid : forall i j li lj, leases st !! i = Some li -> leases st !! j = Some lj ->
    is_live li = true -> is_live lj = true -> i_vsock_cid (l_ident li) = i_vsock_cid (l_ident lj) ->
    i_vsock_cid (l_ident li) <> 0 -> i = j;
  ok_own2 : owner_ok (leases st) AMBA_DMA_ENDPOINT_UART2 (endpoint_uart2 st);
  ok_own3 : owner_ok (leases st) AMBA_DMA_ENDPOINT_UART3 (endpoint_uart3 st);
  ok_issued : forall d, EvIssue d ∈ events st -> desc_ok sd d;
}.

(** The device addresses of the slices do not wrap. *)
Definition slice_dma_ok (sd : nat -> Z) : Prop :=
  forall i, (i < AMBA_VIRT_DMA32_NUM_SLICES)%nat -> 0 <= sd i /\ sd i + AMBA_VIRT_DMA32_SLICE_SIZE <= 2 ^ 64.

(** *** Changes that keep a lease's place *)

Record evolves (l l' : amba_dma_lease) : Prop := {
  ev_slice : l_slice l' = l_slice l;
  ev_ring : ring_ok l -> ring_ok l';
  ev_bound : l_bound l' = l_bound l;
  ev_free : l_state l' = FREE -> l_state l = FREE;
  ev_live : is_live l' = true -> is_live l = true;
  ev_cid : i_vsock_cid (l_ident l') = i_vsock_cid (l_ident l);
}.

#[global] Instance evolves_preorder : PreOrder evolves.
Proof.
  split.
  - intros l. split; auto.
  - intros a b c [] []. split; try congruence; auto.
Qed.

Lemma owner_ok_put ls e ep id l l' :
  ls !! id = Some l -> l_bound l' = l_bound l -> owner_ok ls e ep -> owner_ok (<[id := l']> ls) e ep.
Proof.
  intros Hl Hb [H|(i & x & Ho & Hx & He)]; [by left|]. right. exists i.
  destruct (decide (i = id)) as [->|Hne].
  - exists l'. rewrite list_lookup_insert_eq by (by eapply lookup_lt_Some). split_and!; congruence.
  - exists x. by rewrite list_lookup_insert_ne.
Qed.

Lemma put_evolves sd st id l l' :
  dma_ok sd st -> leases st !! id = Some l -> evolves l l' -> dma_ok sd (put_lease id l' st).
Proof.
  intros Hok Hl Hev. destruct Hev as [H1 H2 H3 H4 H5 H6]. split; cbn [put_lease leases endpoint_uart2 endpoint_uart3 events].
  - rewrite length_insert. apply Hok.
  - intros i x [[-> ->]|[Hne Hx]]%lookup_insert_inv; [rewrite H1|]; by eapply ok_slice.
  - intros i x [[-> ->]|[Hne Hx]]%lookup_insert_inv; [apply H2|]; by eapply ok_ring.
  - intros i x [[-> ->]|[Hne Hx]]%lookup_insert_inv; [rewrite H3|]; by eapply ok_bound.
  - intros i x [[-> ->]|[Hne Hx]]%lookup_insert_inv; [rewrite H3; intros; eapply ok_free; eauto|by eapply ok_free].
  - intros i j x y [[-> ->]|[Hne Hx]]%lookup_insert_inv [[-> ->]|[Hne' Hy]]%lookup_insert_inv;
      rewrite ?H3; [done|by eapply ok_excl..].
  - intros i j x y [[-> ->]|[Hne Hx]]%lookup_insert_inv [[-> ->]|[Hne' Hy]]%lookup_insert_inv;
      rewrite ?H6; [done|..]; intros; eapply ok_cid; eauto.
  - eapply owner_ok_put; [done..|apply Hok].
  - eapply owner_ok_put; [done..|apply Hok].
  - apply Hok.
Qed.

(** Engine, waiters and the log leave the table alone. *)
Lemma dma_ok_frame sd st st' :
  leases st' = leases st -> endpoint_uart2 st' = endpoint_uart2 st -> endpoint_uart3 st' = endpoint_uart3 st ->
  (forall d, EvIssue d ∈ events st' -> EvIssue d ∈ events st \/ desc_ok sd d) -> dma_ok sd st -> dma_ok sd st'.
Proof.
  intros El E2 E3 Ee Hok. split; rewrite ?El, ?E2, ?E3; try apply Hok.
  intros d [Hd|Hd]%Ee; [by eapply ok_issued|done].
Qed.

Lemma set_hw_ok sd h st : dma_ok sd st -> dma_ok sd (set_hw h st).
Proof. apply dma_ok_frame; auto. Qed.
Lemma set_waiters_ok sd w st : dma_ok sd st -> dma_ok sd (set_waiters w st).
Proof. apply dma_ok_frame; auto. Qed.
Lemma set_drainers_ok sd w st : dma_ok sd st -> dma_ok sd (set_drainers w st).
Proof. apply dma_ok_frame; auto. Qed.
Lemma log_ok sd e st : (forall d, e = EvIssue d -> desc_ok sd d) -> dma_ok sd st -> dma_ok sd (log e st).
Proof.
  intros He. apply dma_ok_frame; auto. intros d [Hd|Hd]%elem_of_cons; [right; by apply He|by left].
Qed.

Create HintDb dma.
#[export] Hint Resolve set_hw_ok set_waiters_ok set_drainers_ok put_evolves : dma.

(** A lease whose identity is the same evolves. *)
Lemma evolves_same_ident l x r s :
  (ring_ok l -> length (rp_cookies r) = 32%nat /\ (rp_idx r < 32)%nat) ->
  evolves l (mk_lease (l_ident l) (l_slice l) x r s).
Proof. intros H. by split. Qed.

Lemma evolves_xfer l x : evolves l (with_xfer l x).
Proof. by apply evolves_same_ident. Qed.
Lemma evolves_stats l s : evolves l (with_stats l s).
Proof. by apply evolves_same_ident. Qed.
Lemma evolves_record l c : evolves l (amba_dma_record_cookie l c).
Proof.
  apply evolves_same_ident. intros [Hl Hi]. cbn [rp_cookies rp_idx]. rewrite length_insert. split; [done|].
  apply Nat.mod_upper_bound. lia.
Qed.

Lemma evolves_state l s :
  s <> FREE -> (s = ACTIVE \/ s = STARTING -> is_live l = true) -> evolves l (set_state l s).
Proof.
  intros Hf Hs. split; try done. unfold is_live, l_state; cbn. intros H. apply Hs.
  apply orb_true_iff in H as [H|H]; apply bool_decide_eq_true in H; auto.
Qed.
#[export] Hint Resolve evolves_xfer evolves_stats evolves_record : dma.

(** *** Dispatch *)

Lemma evolves_bump e l : evolves l (bump e l).
Proof. apply evolves_stats. Qed.

Lemma is_live_iff l : is_live l = true <-> l_state l = ACTIVE \/ l_state l = STARTING.
Proof. unfold is_live. rewrite orb_true_iff, !bool_decide_eq_true. done. Qed.

(** The lease after the first state check. *)
Definition activated (l : amba_dma_lease) : amba_dma_lease :=
  if bool_decide (l_state l = STARTING) then set_state l ACTIVE else l.

Lemma evolves_activated l : is_live l = true -> evolves l (activated l).
Proof. intros H. unfold activated. case_bool_decide; [by apply evolves_state|done]. Qed.

(** What the checks on the lease and the request alone ask for. *)
Record admissible (l : amba_dma_lease) (req : amba_virt_dma_request) : Prop := {
  ad_live : is_live l = true;
  ad_capability : rq_capability req = i_capability (l_ident l);
  ad_epoch : rq_epoch req = l_epoch l;
  ad_replay : amba_dma_cookie_is_replayed l (rq_cookie req) = false;
  ad_idle : x_in_flight (l_xfer l) = false;
  ad_len : 0 < rq_length req <= 4 * 1024 * 1024;
  ad_low : AMBA_DMA_BOOTSTRAP_SIZE <= rq_offset req;
  ad_high : rq_offset req + rq_length req <= sl_size (l_slice l);
  ad_align : rq_offset req mod 4 = 0;
  ad_32 : sl_dma (l_slice l) + rq_offset req + rq_length req <= 2 ^ 32;
  ad_bound : l_bound l = AMBA_DMA_ENDPOINT_UART2 \/ l_bound l = AMBA_DMA_ENDPOINT_UART3;
  ad_ep : rq_endpoint_id req = AMBA_DMA_ENDPOINT_NONE \/ rq_endpoint_id req = l_bound l;
}.

Definition slice_ok (s : lease_slice) : Prop :=
  sl_size s = AMBA_VIRT_DMA32_SLICE_SIZE /\ 0 <= sl_dma s /\ sl_dma s + sl_size s <= 2 ^ 64.

Lemma land_3 z : Z.land z 3 = z mod 4.
Proof. change 3 with (Z.ones 2). by rewrite Z.land_ones by lia. Qed.

(** Splitting the conditionals of a handler. *)
Ltac split_ifs := repeat (case_match; try done).

(** A request refused by a failed check is not admissible. *)
Ltac refuse := cbn [fst snd]; split; [done|]; split; [done|]; intros []; bool_hyps;
  unfold AMBA_DMA_ENDPOINT_NONE, AMBA_DMA_ENDPOINT_UART2, AMBA_DMA_ENDPOINT_UART3, AMBA_DMA_BOOTSTRAP_SIZE in *;
  try congruence; lia.

Lemma dispatch_check_spec l req :
  dreq_ok req -> slice_ok (l_slice l) ->
  evolves l (fst (dispatch_check l req)) /\
  match snd (dispatch_check l req) with
  | inr e => admissible l req /\ e = l_bound l /\ fst (dispatch_check l req) = activated l
  | inl rc => rc < 0 /\ ~ admissible l req
  end.
Proof.
  intros [Ho Hl] (Hsz & Hd0 & Hd1). unfold dispatch_check. destruct (is_live l) eqn:Elive; cbn [negb].
  2:{ cbn. split; [done|]. split; [done|]. intros []. congruence. }
  fold (activated l). pose proof (evolves_activated l Elive) as Hev.
  assert (Hid : i_capability (l_ident (activated l)) = i_capability (l_ident l) /\
                l_epoch (activated l) = l_epoch l /\ l_bound (activated l) = l_bound l /\
                l_slice (activated l) = l_slice l /\ l_xfer (activated l) = l_xfer l /\
                l_replay (activated l) = l_replay l)
    by (unfold activated; case_bool_decide; done).
  destruct Hid as (E1 & E2 & E3 & E4 & E5 & E6). rewrite E1, E2, E3, E4, E5.
  assert (E7 : amba_dma_cookie_is_replayed (activated l) (rq_cookie req) =
               amba_dma_cookie_is_replayed l (rq_cookie req))
    by (unfold amba_dma_cookie_is_replayed; by rewrite E5, E6).
  rewrite E7, Hsz, land_3. unfold is_u64, is_u32 in *.
  assert (Hbump : forall e, evolves l (bump e (activated l))) by (intros e; etransitivity; [done|apply evolves_bump]).
  pose proof (Z.mod_pos_bound (rq_offset req) 4 ltac:(lia)) as Hm4.
  unfold AMBA_DMA_ENDPOINT_NONE, AMBA_DMA_ENDPOINT_UART2, AMBA_DMA_ENDPOINT_UART3, AMBA_DMA_BOOTSTRAP_SIZE,
    AMBA_VIRT_DMA32_SLICE_SIZE, U32_MAX in *.
  destruct (rq_capability req =? _) eqn:C1; cbn [negb]; [|refuse].
  destruct (rq_epoch req =? _) eqn:C2; cbn [negb]; [|refuse].
  destruct (amba_dma_cookie_is_replayed l _) eqn:C3; [refuse|].
  destruct (x_in_flight (l_xfer l)) eqn:C4; [refuse|].
  destruct ((rq_length req =? 0) || _) eqn:C5; [apply orb_true_iff in C5; refuse|].
  apply orb_false_iff in C5 as [C5 C5']. bool_hyps. rewrite (u64_id (16777216 - rq_length req)) by lia.
  destruct ((rq_offset req <? 4096) || _ || _) eqn:C6; [rewrite !orb_true_iff in C6; refuse|].
  apply orb_false_iff in C6 as [[C6 C6']%orb_false_iff C6'']. bool_hyps.
  destruct (rq_offset req mod 4 =? 0) eqn:C7; cbn [negb]; [|refuse]. bool_hyps.
  rewrite (u64_id (sl_dma (l_slice l) + rq_offset req)) by lia.
  assert (C8 : (u64 (u64 (sl_dma (l_slice l) + rq_offset req + rq_length req) - 1) >? 4294967295) =
               negb (sl_dma (l_slice l) + rq_offset req + rq_length req <=? 2 ^ 32)).
  { rewrite Z.gtb_ltb. unfold u64 at 2.
    destruct (decide (sl_dma (l_slice l) + rq_offset req + rq_length req = 2 ^ 64)) as [->|Hne]; [done|].
    rewrite Z.mod_small, u64_id by lia. lia. }
  rewrite C8. destruct (_ <=? 2 ^ 32) eqn:C9; cbn [negb]; [|refuse]. bool_hyps.
  destruct (negb (rq_endpoint_id req =? 0) && _ && _) eqn:C10; [cbn [fst snd]; split; [done|]; split; [done|]|].
  { intros []. bool_hyps. unfold AMBA_DMA_ENDPOINT_UART2, AMBA_DMA_ENDPOINT_UART3, AMBA_DMA_ENDPOINT_NONE in *. lia. }
  destruct (l_bound l =? 0) eqn:C11; [refuse|].
  destruct (negb (rq_endpoint_id req =? 0) && negb (rq_endpoint_id req =? l_bound l)) eqn:C12; [refuse|].
  assert (E : (if negb (rq_endpoint_id req =? 0) then rq_endpoint_id req else l_bound l) = l_bound l)
    by (destruct (rq_endpoint_id req =? 0); cbn in *; bool_hyps; lia).
  rewrite E. destruct ((l_bound l =? 2) || _) eqn:C13; [|refuse].
  cbn [fst snd]. split; [done|]. split; [|done]. apply orb_true_iff in C13. bool_hyps.
  split; unfold AMBA_DMA_ENDPOINT_NONE, AMBA_DMA_ENDPOINT_UART2, AMBA_DMA_ENDPOINT_UART3; try done; try lia.
Qed.

Lemma ok_slice_ok sd st id l : dma_ok sd st -> slice_dma_ok sd -> leases st !! id = Some l -> slice_ok (l_slice l).
Proof.
  intros Hok Hsd Hl. rewrite (ok_slice _ _ Hok id l Hl). pose proof (lookup_lt_Some _ _ _ Hl) as Hlt.
  rewrite (ok_len _ _ Hok) in Hlt. destruct (Hsd id Hlt). by split_and!.
Qed.

Definition is_uart (e : Z) : Prop := e = AMBA_DMA_ENDPOINT_UART2 \/ e = AMBA_DMA_ENDPOINT_UART3.

Lemma owner_ok_ep sd st e : dma_ok sd st -> is_uart e -> owner_ok (leases st) e (ep_of e st).
Proof. intros Hok [-> | ->]; apply Hok. Qed.

Lemma owner_ok_other sd st e :
  dma_ok sd st -> is_uart e -> exists e', e' <> e /\ owner_ok (leases st) e' (other_ep e st).
Proof. intros Hok [-> | ->]; eexists; (split; [|apply Hok]); done. Qed.

(** The endpoint a lease is bound to is free or its own, and the other one is not its own: the ownership
    tests of the dispatch never refuse a lease on its bound endpoint. *)
Lemma owners_of_bound sd st id l :
  dma_ok sd st -> leases st !! id = Some l -> is_uart (l_bound l) ->
  (ep_owner_lease (other_ep (l_bound l) st) =? Z.of_nat id) = false /\
  negb (ep_owner_lease (ep_of (l_bound l) st) =? -1) &&
  negb (ep_owner_lease (ep_of (l_bound l) st) =? Z.of_nat id) = false.
Proof.
  intros Hok Hl Hb. split.
  - destruct (owner_ok_other sd st _ Hok Hb) as (e' & Hne & [->|(i & x & -> & Hx & He)]); [apply Z.eqb_neq; lia|].
    apply Z.eqb_neq. intros ->%Nat2Z.inj. congruence.
  - destruct (owner_ok_ep sd st _ Hok Hb) as [->|(i & x & -> & Hx & He)]; [done|].
    assert (i = id) as ->.
    { eapply (ok_excl _ _ Hok i id x l); [done..|]. rewrite He. destruct Hb as [-> | ->]; done. }
    rewrite Z.eqb_refl. by rewrite andb_false_r.
Qed.

Lemma put_ep_ok sd st e id l :
  dma_ok sd st -> is_uart e -> leases st !! id = Some l -> l_bound l = e ->
  dma_ok sd (put_ep e (set_owner (ep_of e st) (Z.of_nat id)) st).
Proof.
  intros Hok He Hl Hb.
  assert (Ho : owner_ok (leases st) e (set_owner (ep_of e st) (Z.of_nat id))) by (right; by exists id, l).
  destruct He as [-> | ->]; (split; try apply Hok; apply Ho).
Qed.

(** What remains to be true of the endpoint, the operation and the engine. *)
Record issuable (st : dma_state) (l : amba_dma_lease) (req : amba_virt_dma_request) (env : engine_env) : Prop := {
  is_admissible : admissible l req;
  is_chans : is_Some (ep_tx_chan (ep_of (l_bound l) st)) /\ is_Some (ep_rx_chan (ep_of (l_bound l) st));
  is_op : rq_operation req = AMBA_DMA_OP_MEM_TO_DEV \/ rq_operation req = AMBA_DMA_OP_DEV_TO_MEM;
  is_config : ee_config env = 0;
  is_prep : ee_prep env = true;
}.

(** The descriptor a request turns into. *)
Definition expected_desc (st : dma_state) (id : nat) (l : amba_dma_lease) (req : amba_virt_dma_request)
    (d : dma_desc) : Prop :=
  d_lease d = id /\ d_endpoint d = l_bound l /\ d_fifo d = ep_fifo_dma (ep_of (l_bound l) st) /\
  d_addr d = sl_dma (l_slice l) + rq_offset req /\ d_len d = rq_length req /\
  match d_dir d with
  | DMA_MEM_TO_DEV => rq_operation req = AMBA_DMA_OP_MEM_TO_DEV /\
                      Some (mk_chan (d_dreq d)) = ep_tx_chan (ep_of (l_bound l) st)
  | DMA_DEV_TO_MEM => rq_operation req = AMBA_DMA_OP_DEV_TO_MEM /\
                      Some (mk_chan (d_dreq d)) = ep_rx_chan (ep_of (l_bound l) st)
  end.

Lemma admissible_desc_ok sd st id l req d :
  dma_ok sd st -> slice_dma_ok sd -> leases st !! id = Some l -> admissible l req -> expected_desc st id l req d ->
  desc_ok sd d.
Proof.
  intros Hok Hsd Hl Had (E1 & E2 & _ & E4 & E5 & _). pose proof (lookup_lt_Some _ _ _ Hl) as Hlt.
  rewrite (ok_len _ _ Hok) in Hlt. destruct Had. rewrite (ok_slice _ _ Hok id l Hl) in *.
  unfold slice_of in *. cbn in *. split; rewrite ?E1, ?E2, ?E4, ?E5; try done; lia.
Qed.

Lemma activated_ident l :
  l_bound (activated l) = l_bound l /\ l_slice (activated l) = l_slice l.
Proof. unfold activated. by case_bool_decide. Qed.

Lemma choose_chan_spec op tx rx :
  match choose_chan op tx rx with
  | Some (DMA_MEM_TO_DEV, c) => op = AMBA_DMA_OP_MEM_TO_DEV /\ c = tx
  | Some (DMA_DEV_TO_MEM, c) => op = AMBA_DMA_OP_DEV_TO_MEM /\ c = rx
  | None => op <> AMBA_DMA_OP_MEM_TO_DEV /\ op <> AMBA_DMA_OP_DEV_TO_MEM
  end.
Proof. unfold choose_chan. repeat case_match; bool_hyps; simplify_eq; done. Qed.

(** The last part of the dispatch, once the endpoint is owned. *)
Lemma issue_spec st id l req env tx rx dir chan :
  admissible l req -> slice_ok (l_slice l) -> dreq_ok req -> let ep := ep_of (l_bound l) st in
  ep_tx_chan ep = Some tx -> ep_rx_chan ep = Some rx -> choose_chan (rq_operation req) tx rx = Some (dir, chan) ->
  ee_config env = 0 -> ee_prep env = true ->
  issuable st l req env /\
  expected_desc st id l req (mk_desc id (l_bound l) (ch_dreq chan) dir (ep_fifo_dma ep)
                                     (u64 (sl_dma (l_slice l) + rq_offset req)) (rq_length req)).
Proof.
  intros Had Hsl Hreq ep Etx Erx Eop Ec Ep. pose proof (choose_chan_spec (rq_operation req) tx rx) as Hc.
  rewrite Eop in Hc. split.
  - split; [done| | |done..]; fold ep; [by rewrite Etx, Erx|]. destruct dir; [left|right]; apply Hc.
  - split_and!; try done; cbn.
    + apply u64_id. destruct Had, Hsl as (? & ? & ?), Hreq as [[? ?] [? ?]]. lia.
    + fold ep. rewrite Etx, Erx. destruct dir, Hc as [-> ->]; (split; [done|]); by destruct tx, rx.
Qed.

Lemma dispatch_submit_spec sd st id req env :
  dma_ok sd st -> slice_dma_ok sd -> dreq_ok req ->
  dma_ok sd (fst (dispatch_submit id req env st)) /\
  match snd (dispatch_submit id req env st) with
  | inr d => exists l, leases st !! id = Some l /\ issuable st l req env /\ expected_desc st id l req d
  | inl _ => forall l, leases st !! id = Some l -> ~ issuable st l req env
  end.
Proof.
  intros Hok Hsd Hreq. unfold dispatch_submit. destruct (leases st !! id) as [l0|] eqn:El; [|by split].
  pose proof (ok_slice_ok _ _ _ _ Hok Hsd El) as Hsl.
  pose proof (dispatch_check_spec l0 req Hreq Hsl) as [Hev Hchk].
  destruct (dispatch_check l0 req) as [l r]. cbn [fst snd] in Hev, Hchk.
  assert (Hok1 : dma_ok sd (put_lease id l st)) by eauto with dma.
  assert (Hno : (issuable st l0 req env -> False) -> forall x, Some l0 = Some x -> ~ issuable st x req env)
    by (intros HP x [= <-]; exact HP).
  destruct r as [rc|e]; [split; [done|]; cbn [snd]; apply Hno; intros []; by apply Hchk|].
  destruct Hchk as (Had & -> & ->). set (l := activated l0) in *.
  assert (Hb : is_uart (l_bound l0)) by apply Had.
  destruct (owners_of_bound sd st id l0 Hok El Hb) as [-> Hown].
  assert (Hl1 : leases (put_lease id l st) !! id = Some l)
    by (apply list_lookup_insert_eq; by eapply lookup_lt_Some).
  destruct (activated_ident l0) as [Hbd Hsle]. fold l in Hbd, Hsle. set (ep := ep_of (l_bound l0) st) in *.
  assert (Hok2 : dma_ok sd (put_ep (l_bound l0) (set_owner ep (Z.of_nat id)) (put_lease id l st)))
    by (apply (put_ep_ok sd (put_lease id l st) _ id l); done).
  destruct (ep_tx_chan ep) as [tx|] eqn:Etx;
    [|split; [done|]; cbn [snd]; apply Hno; intros [_ [[? H] _]]; fold ep in H; congruence].
  destruct (ep_rx_chan ep) as [rx|] eqn:Erx;
    [|split; [done|]; cbn [snd]; apply Hno; intros [_ [_ [? H]]]; fold ep in H; congruence].
  rewrite Hown. set (st2 := put_ep _ _ _) in *.
  destruct (choose_chan (rq_operation req) tx rx) as [[dir chan]|] eqn:Eop.
  2:{ pose proof (choose_chan_spec (rq_operation req) tx rx) as Hc. rewrite Eop in Hc.
      split; [done|]. cbn [snd]. apply Hno. intros [_ _ [H|H] _ _]; tauto. }
  destruct (ee_config env =? 0) eqn:Ec; cbn [negb];
    [|split; [done|]; cbn [snd]; apply Hno; intros []; bool_hyps; congruence].
  destruct (ee_prep env) eqn:Ep; cbn [negb]; [|split; [done|]; cbn [snd]; apply Hno; intros []; congruence].
  bool_hyps. destruct (issue_spec st id l0 req env tx rx dir chan Had Hsl Hreq Etx Erx Eop Ec Ep) as [His Hd].
  rewrite Hsle. fold ep in Hd. set (d := mk_desc _ _ _ _ _ _ _) in *. cbn [fst snd]. split; [|by exists l0].
  apply log_ok; [intros ? [= <-]; exact (admissible_desc_ok sd st id l0 req d Hok Hsd El Had Hd)|]. apply set_waiters_ok, set_hw_ok.
  eapply put_evolves; [done| |apply evolves_xfer].
  unfold st2, put_ep. by case_match.
Qed.

(** *** Release and quarantine *)

Lemma disown_spec ls e id ep : owner_ok ls e ep -> owner_ok ls e (disown id ep) /\ ep_owner_lease (disown id ep) <> Z.of_nat id.
Proof.
  intros H. unfold disown. destruct (ep_owner_lease ep =? Z.of_nat id) eqn:E; bool_hyps; [|by split].
  cbn. split; [by left|lia].
Qed.

Definition disown_all (id : nat) (st : dma_state) : dma_state :=
  put_eps (disown id (endpoint_uart2 st)) (disown id (endpoint_uart3 st)) st.

Lemma disown_all_ok sd id st : dma_ok sd st -> dma_ok sd (disown_all id st).
Proof. intros Hok. split; try apply Hok; cbn; apply disown_spec, Hok. Qed.

(** The same for a state whose endpoints were disowned and whose log may have grown. *)
Definition unowned (id : nat) (st : dma_state) : Prop :=
  ep_owner_lease (endpoint_uart2 st) <> Z.of_nat id /\ ep_owner_lease (endpoint_uart3 st) <> Z.of_nat id.

Lemma disown_all_unowned sd id st : dma_ok sd st -> unowned id (disown_all id st).
Proof. intros Hok. split; cbn; eapply disown_spec, Hok. Qed.

Lemma owner_ok_retire ls e ep id l' :
  ep_owner_lease ep <> Z.of_nat id -> owner_ok ls e ep -> owner_ok (<[id := l']> ls) e ep.
Proof.
  intros Hne [H|(i & x & Ho & Hx & He)]; [by left|]. right. exists i, x.
  rewrite list_lookup_insert_ne; [done|congruence].
Qed.

(** A lease that no endpoint names any more can be put back. *)
Lemma retire_ok sd st id l l' :
  dma_ok sd st -> unowned id st -> leases st !! id = Some l ->
  l_slice l' = l_slice l -> ring_ok l' -> l_bound l' = AMBA_DMA_ENDPOINT_NONE -> is_live l' = false ->
  dma_ok sd (put_lease id l' st).
Proof.
  intros Hok [Hu2 Hu3] Hl Hs Hr Hb Hlive. split; cbn [put_lease leases endpoint_uart2 endpoint_uart3 events].
  - rewrite length_insert. apply Hok.
  - intros i x [[-> ->]|[Hne Hx]]%lookup_insert_inv; [rewrite Hs|]; by eapply ok_slice.
  - intros i x [[-> ->]|[Hne Hx]]%lookup_insert_inv; [done|]. by eapply ok_ring.
  - intros i x [[-> ->]|[Hne Hx]]%lookup_insert_inv; [by left|]. by eapply ok_bound.
  - intros i x [[-> ->]|[Hne Hx]]%lookup_insert_inv; [done|]. by eapply ok_free.
  - intros i j x y [[-> ->]|[Hne Hx]]%lookup_insert_inv [[-> ->]|[Hne' Hy]]%lookup_insert_inv; [done| | |].
    + intros _ H. congruence.
    + intros H1 H2. congruence.
    + by eapply ok_excl.
  - intros i j x y [[-> ->]|[Hne Hx]]%lookup_insert_inv [[-> ->]|[Hne' Hy]]%lookup_insert_inv; [done| | |].
    + congruence.
    + congruence.
    + by eapply ok_cid.
  - apply owner_ok_retire; [done|apply Hok].
  - apply owner_ok_retire; [done|apply Hok].
  - apply Hok.
Qed.

Lemma zero_replay_ok : length (rp_cookies zero_replay) = 32%nat /\ (rp_idx zero_replay < 32)%nat.
Proof. split; [done|]. cbn. lia. Qed.

(** What sanitisation returns. *)
Lemma sanitize_spec sd id l remap us st ret l1 st2 :
  amba_dma_sanitize_slice id l remap us st = (ret, l1, st2) ->
  l_ident l1 = l_ident l /\ l_slice l1 = l_slice l /\ l_xfer l1 = l_xfer l /\ l_replay l1 = l_replay l /\
  leases st2 = leases st /\ (unowned id st -> unowned id st2) /\ (dma_ok sd st -> dma_ok sd st2).
Proof.
  unfold amba_dma_sanitize_slice. destruct remap; intros [= <- <- <-]; split_and!; auto.
  intros Hok. by apply log_ok.
Qed.

Lemma release_ok sd id epoch remap us st rc st' :
  dma_ok sd st -> amba_dma_release_lease id epoch remap us st = (rc, st') -> dma_ok sd st'.
Proof.
  intros Hok. unfold amba_dma_release_lease. destruct (leases st !! id) as [l|] eqn:El; [|by intros [= _ <-]].
  destruct (negb (epoch =? 0) && _); [by intros [= _ <-]|]. fold (disown_all id st).
  destruct (amba_dma_sanitize_slice _ _ _ _ _) as [[ret l1] st2] eqn:Es.
  apply (sanitize_spec sd) in Es as (E1 & E2 & E3 & E4 & E5 & E6 & E7).
  specialize (E7 (disown_all_ok sd id st Hok)). specialize (E6 (disown_all_unowned sd id st Hok)).
  assert (El2 : leases st2 !! id = Some l) by (by rewrite E5).
  destruct (negb (ret =? 0)); intros [= _ <-].
  - eapply put_evolves; [done..|]. split; cbn; rewrite ?E1, ?E2; try done.
    unfold ring_ok. cbn. by rewrite E4.
  - apply (retire_ok sd st2 id l); [done..|exact zero_replay_ok|done|done].
Qed.

Lemma quarantine_ok sd id epoch remap us st rc st' :
  dma_ok sd st -> amba_dma_quarantine_release id epoch remap us st = (rc, st') -> dma_ok sd st'.
Proof.
  intros Hok. unfold amba_dma_quarantine_release. destruct (leases st !! id) as [l|] eqn:El; [|by intros [= _ <-]].
  destruct (negb _); [by intros [= _ <-]|]. fold (disown_all id st).
  destruct (amba_dma_sanitize_slice _ _ _ _ _) as [[ret l1] st2] eqn:Es.
  apply (sanitize_spec sd) in Es as (E1 & E2 & E3 & E4 & E5 & E6 & E7).
  specialize (E7 (disown_all_ok sd id st Hok)). specialize (E6 (disown_all_unowned sd id st Hok)).
  assert (El2 : leases st2 !! id = Some l) by (by rewrite E5). intros [= _ <-].
  apply (retire_ok sd st2 id l); [done..| |done|done]. unfold ring_ok. cbn. rewrite E4. by eapply ok_ring.
Qed.

(** *** Drain, callback, watchdog, end of a request *)

Lemma drain_ok sd id epoch force ms st rc st' :
  dma_ok sd st -> amba_dma_drain_lease id epoch force ms st = (rc, st') -> dma_ok sd st'.
Proof.
  intros Hok. unfold amba_dma_drain_lease. destruct (leases st !! id) as [l|] eqn:El; [|by intros [= _ <-]].
  destruct (negb (epoch =? 0) && _); [by intros [= _ <-]|].
  destruct (is_live l) eqn:Elive; cbn [negb]; [|by intros [= _ <-]].
  assert (Hev : evolves l (set_state l DRAINING)) by (apply evolves_state; [done|intros [|]; done]).
  assert (Hms : forall l', evolves l l' -> evolves l (set_drain_ms l' ms))
    by (intros l' H; etransitivity; [exact H|apply evolves_stats]).
  assert (Hx : evolves l (with_xfer (set_state l DRAINING) (complete (del_timer (l_xfer (set_state l DRAINING))))))
    by (etransitivity; [exact Hev|apply evolves_xfer]).
  repeat case_match; intros [= _ <-]; eauto 6 with dma.
Qed.

Lemma drain_resume_ok sd id woken ms st : dma_ok sd st -> dma_ok sd (drain_resume id woken ms st).
Proof.
  intros Hok. unfold drain_resume. destruct (leases st !! id) as [l|] eqn:El; [|done].
  eapply put_evolves; [done..|]. etransitivity; [apply evolves_xfer|apply evolves_stats].
Qed.

Lemma callback_ok sd d h st : dma_ok sd st -> dma_ok sd (amba_dma_callback d h st).
Proof. intros Hok. unfold amba_dma_callback. destruct (leases st !! _) eqn:El; eauto with dma. Qed.

Lemma watchdog_ok sd id st : dma_ok sd st -> dma_ok sd (amba_dma_watchdog_fired id st).
Proof.
  intros Hok. unfold amba_dma_watchdog_fired. destruct (leases st !! id) as [l|] eqn:El; [|done].
  apply set_hw_ok. eapply put_evolves; [done..|]. etransitivity; [apply evolves_xfer|apply evolves_stats].
Qed.

Lemma finish_ok sd id req st : dma_ok sd st -> dma_ok sd (fst (dispatch_finish id req st)).
Proof.
  intros Hok. unfold dispatch_finish. destruct (leases st !! id) as [l|] eqn:El; [|done].
  case_match; cbn [fst]; (eapply put_evolves; [done..|]).
  - etransitivity; [apply evolves_xfer|]. etransitivity; [apply evolves_record|apply evolves_stats].
  - etransitivity; [apply evolves_xfer|apply evolves_record].
Qed.

(** *** Allocation *)

(** A free lease handed out: its endpoint was bound to nobody and its guest had no live lease. *)
Lemma admit_ok sd st id l l' e2 e3 :
  dma_ok sd st -> leases st !! id = Some l -> l_state l = FREE ->
  l_slice l' = l_slice l -> l_replay l' = l_replay l -> l_state l' = STARTING ->
  (l_bound l' = AMBA_DMA_ENDPOINT_NONE \/ is_uart (l_bound l')) ->
  (forall j x, leases st !! j = Some x -> l_bound x = l_bound l' -> l_bound l' = AMBA_DMA_ENDPOINT_NONE) ->
  (forall j x, leases st !! j = Some x -> is_live x = true ->
     i_vsock_cid (l_ident x) = i_vsock_cid (l_ident l') -> i_vsock_cid (l_ident l') = 0) ->
  (e2 = endpoint_uart2 st \/ ep_owner_lease e2 = Z.of_nat id /\ l_bound l' = AMBA_DMA_ENDPOINT_UART2) ->
  (e3 = endpoint_uart3 st \/ ep_owner_lease e3 = Z.of_nat id /\ l_bound l' = AMBA_DMA_ENDPOINT_UART3) ->
  dma_ok sd (put_lease id l' (put_eps e2 e3 st)).
Proof.
  intros Hok Hl Hfree Hs Hr Hst Hb Hexcl Hcid H2 H3. pose proof (lookup_lt_Some _ _ _ Hl) as Hlt.
  assert (Hl' : <[id := l']> (leases st) !! id = Some l') by (by apply list_lookup_insert_eq).
  assert (Hown : forall e ep0 ep, owner_ok (leases st) e ep0 -> e <> AMBA_DMA_ENDPOINT_NONE ->
            ep = ep0 \/ ep_owner_lease ep = Z.of_nat id /\ l_bound l' = e -> owner_ok (<[id := l']> (leases st)) e ep).
  { intros e ep0 ep [Ho|(i & x & Ho & Hx & He)] Hne [->|[Ho' Hb']]; try (by left); try (right; by exists id, l').
    right. exists i, x. rewrite list_lookup_insert_ne; [done|]. intros ->.
    assert (x = l) as -> by congruence. rewrite (ok_free _ _ Hok _ _ Hl Hfree) in He. done. }
  split; cbn [put_lease put_eps leases endpoint_uart2 endpoint_uart3 events].
  - rewrite length_insert. apply Hok.
  - intros i x [[-> ->]|[Hne Hx]]%lookup_insert_inv; [rewrite Hs|]; by eapply ok_slice.
  - intros i x [[-> ->]|[Hne Hx]]%lookup_insert_inv; [unfold ring_ok; rewrite Hr|]; by eapply (ok_ring _ _ Hok).
  - intros i x [[-> ->]|[Hne Hx]]%lookup_insert_inv; [destruct Hb as [|[|]]; auto|by eapply ok_bound].
  - intros i x [[-> ->]|[Hne Hx]]%lookup_insert_inv; [congruence|by eapply ok_free].
  - intros i j x y [[-> ->]|[Hne Hx]]%lookup_insert_inv [[-> ->]|[Hne' Hy]]%lookup_insert_inv; [done| | |].
    + intros E Hn. destruct Hn. by eapply Hexcl.
    + intros E Hn. destruct Hn. rewrite E. by eapply Hexcl.
    + by eapply ok_excl.
  - intros i j x y [[-> ->]|[Hne Hx]]%lookup_insert_inv [[-> ->]|[Hne' Hy]]%lookup_insert_inv; [done| | |].
    + intros _ Hy1 E Hn. destruct Hn. by eapply Hcid.
    + intros Hx1 _ E Hn. destruct Hn. rewrite E. by eapply Hcid.
    + by eapply ok_cid.
  - by eapply Hown; [apply Hok| |].
  - by eapply Hown; [apply Hok| |].
  - apply Hok.
Qed.

Lemma bootstrap_ok sd id l remap st : dma_ok sd st -> dma_ok sd (amba_dma_write_bootstrap_page id l remap st).
Proof. intros Hok. unfold amba_dma_write_bootstrap_page. destruct remap; [by apply log_ok|done]. Qed.

Lemma alloc_ok sd env a st rc a' st' :
  dma_ok sd st -> amba_dma_alloc_lease env a st = (rc, a', st') -> dma_ok sd st'.
Proof.
  intros Hok. unfold amba_dma_alloc_lease. destruct (negb (la_endpoint_id a =? _) && _ && _) eqn:Eep; [by intros [= _ _ <-]|].
  destruct (if la_vsock_cid a =? 0 then None else _) as [id|] eqn:Ecid; [repeat case_match; by intros [= _ _ <-]|].
  destruct (negb (la_endpoint_id a =? AMBA_DMA_ENDPOINT_NONE) && existsb _ _) eqn:Eres; [by intros [= _ _ <-]|].
  destruct (find_idx (fun l => bool_decide (l_state l = FREE)) (leases st)) as [id|] eqn:Ef; [|by intros [= _ _ <-]].
  apply find_idx_Some in Ef as (l & Hl & Hfree & _). rewrite Hl. apply bool_decide_eq_true in Hfree.
  intros [= _ _ <-]. apply bootstrap_ok. set (l' := with_ident l _). apply (admit_ok sd st id l l'); try done.
  - cbn. unfold is_uart. lia.
  - intros j x Hx Hbx. cbn in Hbx |- *. destruct (la_endpoint_id a =? AMBA_DMA_ENDPOINT_NONE) eqn:En; bool_hyps; [done|].
    cbn in Eres. destruct (decide (l_state x = FREE)) as [Hxf|Hxf].
    { rewrite (ok_free _ _ Hok _ _ Hx Hxf) in Hbx. congruence. }
    exfalso. rewrite <- not_true_iff_false in Eres. apply Eres, existsb_exists. exists x.
    split; [apply list_elem_of_In; by eapply list_elem_of_lookup_2|].
    rewrite bool_decide_false by done. by rewrite Hbx, Z.eqb_refl.
  - intros j x Hx Hlive Hc. cbn in Hc |- *. destruct (la_vsock_cid a =? 0) eqn:E0; bool_hyps; [done|].
    pose proof (proj1 (find_idx_None _ _) Ecid j x Hx) as Hf. cbn in Hf. rewrite Hlive, Hc, Z.eqb_refl in Hf. done.
  - destruct (la_endpoint_id a =? AMBA_DMA_ENDPOINT_UART2) eqn:En; bool_hyps; [by right|by left].
  - destruct (la_endpoint_id a =? AMBA_DMA_ENDPOINT_UART3) eqn:En; bool_hyps; [by right|by left].
Qed.

(** *** Reachable states *)

Lemma dma_step_ok sd st st' : slice_dma_ok sd -> dma_step st st' -> dma_ok sd st -> dma_ok sd st'.
Proof.
  intros Hsd Hstep Hok. inversion Hstep; subst.
  - by eapply alloc_ok.
  - destruct (dispatch_submit_spec sd st id req env) as [Hok' _]; [done..|]. by rewrite H0 in Hok'.
  - by apply callback_ok.
  - by apply watchdog_ok.
  - by apply finish_ok, set_waiters_ok.
  - by eapply drain_ok.
  - by apply drain_resume_ok, set_drainers_ok.
  - by eapply release_ok.
  - by eapply quarantine_ok.
Qed.

Lemma init_ok tx2 rx2 tx3 rx3 f2 f3 sd : dma_ok sd (amba_virt_dma_init tx2 rx2 tx3 rx3 f2 f3 sd).
Proof.
  assert (Hi : forall i l, leases (amba_virt_dma_init tx2 rx2 tx3 rx3 f2 f3 sd) !! i = Some l ->
                 l = init_lease i (sd i) /\ (i < 4)%nat).
  { intros i l (k & Hk & ->)%lookup_map_inv. apply lookup_seq in Hk as [-> Hk]. done. }
  split; try done.
  - intros i l [-> Hlt]%Hi. unfold init_lease, slice_of. cbn. f_equal. apply u64_id.
    unfold AMBA_VIRT_DMA32_POOL_BASE, AMBA_VIRT_DMA32_SLICE_SIZE. lia.
  - intros i l [-> Hlt]%Hi. exact zero_replay_ok.
  - intros i l [-> Hlt]%Hi. by left.
  - by intros i l [-> Hlt]%Hi.
  - by intros i j li lj [-> Hlt]%Hi [-> Hlt']%Hi.
  - by intros i j li lj [-> Hlt]%Hi [-> Hlt']%Hi.
  - left. cbn. unfold amba_dma_acquire_endpoint. repeat case_match; done.
  - left. cbn. unfold amba_dma_acquire_endpoint. repeat case_match; done.
  - intros d Hd. by apply not_elem_of_nil in Hd.
Qed.

(** Any state reached from the start of the module. *)
Definition dma_reachable (sd : nat -> Z) (st : dma_state) : Prop :=
  exists tx2 rx2 tx3 rx3 f2 f3, rtc dma_step (amba_virt_dma_init tx2 rx2 tx3 rx3 f2 f3 sd) st.

Lemma reachable_ok sd st : slice_dma_ok sd -> dma_reachable sd st -> dma_ok sd st.
Proof.
  intros Hsd (tx2 & rx2 & tx3 & rx3 & f2 & f3 & Hr). pose proof (init_ok tx2 rx2 tx3 rx3 f2 f3 sd) as H0.
  induction Hr as [|x y z Hxy _ IH]; [done|]. apply IH. by eapply dma_step_ok.
Qed.

(** ** Epochs *)

Definition epoch_next (l l' : amba_dma_lease) : Prop :=
  l_epoch l' = l_epoch l \/ l_epoch l' = u64 (l_epoch l + 1).

Definition epochs_next (st st' : dma_state) : Prop :=
  forall i l, leases st !! i = Some l -> exists l', leases st' !! i = Some l' /\ epoch_next l l'.

Lemma epochs_put st st' id l l' :
  leases st !! id = Some l -> epoch_next l l' -> leases st' = <[id := l']> (leases st) -> epochs_next st st'.
Proof.
  intros Hl Hn E i x Hx. rewrite E. destruct (decide (i = id)) as [->|Hne].
  - exists l'. rewrite list_lookup_insert_eq by (by eapply lookup_lt_Some). split; [done|congruence].
  - exists x. rewrite list_lookup_insert_ne by done. split; [done|by left].
Qed.

Lemma epochs_same st st' : leases st' = leases st -> epochs_next st st'.
Proof. intros E i l Hl. exists l. rewrite E. split; [done|by left]. Qed.

Lemma dispatch_check_epoch l req : l_epoch (fst (dispatch_check l req)) = l_epoch l.
Proof. unfold dispatch_check. repeat case_match; done. Qed.

Lemma submit_epochs id req env st : epochs_next st (fst (dispatch_submit id req env st)).
Proof.
  unfold dispatch_submit. destruct (leases st !! id) as [l0|] eqn:El; [|by apply epochs_same].
  pose proof (dispatch_check_epoch l0 req) as He. destruct (dispatch_check l0 req) as [l r]. cbn [fst] in He.
  assert (H1 : forall st', leases st' = <[id := l]> (leases st) -> epochs_next st st')
    by (intros st'; apply (epochs_put st st' id l0); [done|by left]).
  assert (H2 : forall e ep, leases (put_ep e ep (put_lease id l st)) = <[id := l]> (leases st))
    by (intros e ep; unfold put_ep; by case_match).
  destruct r as [rc|e]; [by apply H1|]. repeat case_match; try (by apply H1); cbn [fst]; try (by apply H1, H2).
  eapply (epochs_put _ _ id l0 (with_xfer l _)); [done|by left|]. cbn. rewrite H2. apply list_insert_insert_eq.
Qed.

(** One lease rewritten with its epoch kept or increased. *)
Local Ltac epoch_put := eapply epochs_put; [eassumption| |reflexivity]; first [by left|by right].

Lemma dma_step_epochs st st' : dma_step st st' -> epochs_next st st'.
Proof.
  intros Hstep. inversion Hstep; subst.
  - revert H. unfold amba_dma_alloc_lease, amba_dma_write_bootstrap_page.
    repeat case_match; intros [= _ _ <-]; try (by apply epochs_same);
      epoch_put.
  - pose proof (submit_epochs id req env st) as He. by rewrite H0 in He.
  - unfold amba_dma_callback. case_match; [|by apply epochs_same]. epoch_put.
  - unfold amba_dma_watchdog_fired. case_match; [|done]. epoch_put.
  - unfold dispatch_finish. cbn [set_waiters leases]. rewrite H0. case_match; epoch_put.
  - revert H. unfold amba_dma_drain_lease. repeat case_match; intros [= _ <-]; try (by apply epochs_same);
      epoch_put.
  - unfold drain_resume. cbn [set_drainers leases]. rewrite H0. epoch_put.
  - revert H. unfold amba_dma_release_lease, amba_dma_sanitize_slice.
    repeat case_match; intros; simplify_eq; try (by apply epochs_same); epoch_put.
  - revert H. unfold amba_dma_quarantine_release, amba_dma_sanitize_slice.
    repeat case_match; intros; simplify_eq; try (by apply epochs_same); epoch_put.
Qed.

(** In [n] steps an epoch that cannot overflow grows by at most [n] and never shrinks. *)
Lemma nsteps_epochs n st st' i l b :
  nsteps dma_step n st st' -> leases st !! i = Some l -> 0 <= l_epoch l <= b -> b + Z.of_nat n < 2 ^ 64 ->
  exists l', leases st' !! i = Some l' /\ l_epoch l <= l_epoch l' <= b + Z.of_nat n.
Proof.
  intros Hn. revert l b. induction Hn as [st|n x y z Hxy _ IH]; intros l b Hl Hb Ho; [exists l; split; [done|lia]|].
  destruct (dma_step_epochs _ _ Hxy i l Hl) as (l1 & Hl1 & Hnext).
  assert (He : l_epoch l <= l_epoch l1 <= b + 1).
  { destruct Hnext as [->| ->]; [lia|]. rewrite u64_id; lia. }
  destruct (IH l1 (b + 1) Hl1) as (l' & Hl' & Hle); [lia|lia|]. exists l'. split; [done|lia].
Qed.

(** ** The replay ring *)

Section Ring.
Context (l0 : amba_dma_lease) (Hring : ring_ok l0).

Definition ring_after (ds : list Z) : amba_dma_lease := foldl amba_dma_record_cookie l0 ds.

Lemma ring_after_idx ds :
  ring_ok (ring_after ds) /\ rp_idx (l_replay (ring_after ds)) = ((rp_idx (l_replay l0) + length ds) mod 32)%nat /\
  l_xfer (ring_after ds) = l_xfer l0 /\ l_ident (ring_after ds) = l_ident l0.
Proof.
  induction ds as [|x ds IH] using rev_ind.
  - split_and!; try done. cbn [length]. rewrite Nat.add_0_r. symmetry. apply Nat.mod_small, Hring.
  - unfold ring_after in *. rewrite foldl_app. destruct IH as (H1 & H2 & H3 & H4). split_and!; try done.
    + by apply (ev_ring _ _ (evolves_record _ x)).
    + cbn [foldl amba_dma_record_cookie with_replay l_replay rp_idx]. rewrite H2, length_app.
      cbn [length]. rewrite Nat.Div0.add_mod_idemp_l. f_equal. lia.
Qed.

Lemma mod32_inj a k n : (k < n)%nat -> (n - k < 32)%nat -> ((a + k) mod 32 <> (a + n) mod 32)%nat.
Proof. intros H1 H2 E. rewrite (Nat.Div0.mod_eq (a + k)), (Nat.Div0.mod_eq (a + n)) in E.
  pose proof (Nat.div_mod_eq (a + k) 32). pose proof (Nat.div_mod_eq (a + n) 32).
  assert ((a + n) / 32 - (a + k) / 32 < 1)%nat by lia. assert ((a + k) / 32 <= (a + n) / 32)%nat by (apply Nat.Div0.div_le_mono; lia). lia. Qed.

(** The last 32 cookies are in the ring, each at its place. *)
Lemma ring_after_lookup ds k c :
  ds !! k = Some c -> (length ds - k <= 32)%nat ->
  rp_cookies (l_replay (ring_after ds)) !! ((rp_idx (l_replay l0) + k) mod 32)%nat = Some c.
Proof.
  revert k c. induction ds as [|x ds IH] using rev_ind; intros k c Hk Hw; [done|].
  destruct (ring_after_idx ds) as ([Hlen Hidx] & Hi & _). unfold ring_after in *. rewrite foldl_app.
  cbn [foldl amba_dma_record_cookie with_replay l_replay rp_cookies]. rewrite Hi.
  rewrite length_app in Hw. cbn [length] in Hw.
  apply lookup_app_Some in Hk as [Hk|[Hge Hk]].
  - pose proof (lookup_lt_Some _ _ _ Hk) as Hlt. rewrite list_lookup_insert_ne; [apply IH; [done|lia]|].
    intros E. symmetry in E. revert E. apply mod32_inj; lia.
  - apply list_lookup_singleton_Some in Hk as [Hk <-]. replace k with (length ds) by lia.
    apply list_lookup_insert_eq. rewrite Hlen. apply Nat.mod_upper_bound. lia.
Qed.
End Ring.

Lemma replayed_in l c k :
  c <> 0 -> rp_cookies (l_replay l) !! k = Some c -> amba_dma_cookie_is_replayed l c = true.
Proof.
  intros Hc Hk. unfold amba_dma_cookie_is_replayed. rewrite (proj2 (Z.eqb_neq _ _) Hc).
  destruct (x_in_flight (l_xfer l) && _); [done|]. apply existsb_exists. exists c.
  split; [apply list_elem_of_In; by eapply list_elem_of_lookup_2|]. rewrite (proj2 (Z.eqb_neq _ _) Hc), Z.eqb_refl. done.
Qed.

(** ** Examples used by the witnesses *)

(** Both UARTs with their channels, slices mapped at their physical address. *)
Definition demo_sd (i : nat) : Z := AMBA_VIRT_DMA32_POOL_BASE + Z.of_nat i * AMBA_VIRT_DMA32_SLICE_SIZE.
Definition boot (sd : nat -> Z) : dma_state :=
  amba_virt_dma_init (Some (mk_chan 13)) (Some (mk_chan 14)) (Some (mk_chan 15)) (Some (mk_chan 16))
                     (Some 0xe0018040) (Some 0xe0019040) sd.
Definition demo_env : alloc_env := mk_aenv 77 (repeat 5 32) true.
Definition demo_alloc (cid ep : Z) : amba_dma_lease_alloc := mk_alloc (repeat 9 16) 1 cid 0 ep 0 0.
Definition demo_req (cookie off len : Z) : amba_virt_dma_request := mk_dreq 77 2 cookie 0 AMBA_DMA_OP_DEV_TO_MEM off len.
Definition engine_ok : engine_env := mk_eenv 0 true.
Definition after_alloc (cid ep : Z) (st : dma_state) : dma_state := snd (amba_dma_alloc_lease demo_env (demo_alloc cid ep) st).
Definition after_submit (id : nat) (req : amba_virt_dma_request) (st : dma_state) : dma_state :=
  fst (dispatch_submit id req engine_ok st).

Lemma demo_sd_ok : slice_dma_ok demo_sd.
Proof. intros i Hi. unfold demo_sd, AMBA_VIRT_DMA32_POOL_BASE, AMBA_VIRT_DMA32_SLICE_SIZE in *. unfold AMBA_VIRT_DMA32_NUM_SLICES in Hi. lia. Qed.

Lemma after_alloc_step cid ep st : dma_step st (after_alloc cid ep st).
Proof.
  unfold after_alloc. destruct (amba_dma_alloc_lease _ _ _) as [[rc a'] st'] eqn:E. by eapply step_alloc.
Qed.
Lemma after_submit_step id req st : dreq_ok req -> dma_step st (after_submit id req st).
Proof.
  intros Hr. unfold after_submit. destruct (dispatch_submit _ _ _ _) as [st' r] eqn:E. by eapply step_submit.
Qed.
Lemma boot_reachable sd st : rtc dma_step (boot sd) st -> dma_reachable sd st.
Proof. intros H. by do 6 eexists. Qed.

Lemma demo_reachable : dma_reachable demo_sd (after_alloc 3 2 (boot demo_sd)).
Proof. apply boot_reachable. eapply rtc_l; [apply after_alloc_step|apply rtc_refl]. Qed.

(** ** Properties *)

(** C4: Whatever the interleaving of allocations, requests, completions, watchdog expiries, drains, releases
    and quarantine clearings, every reachable state of the monitor is well formed: an endpoint is bound to at
    most one lease and owned only by the lease bound to it, a guest has at most one live lease, a free lease
    is bound to nothing, every lease keeps its own 16 MiB slice, and every descriptor ever handed to the
    engine lies in the slice of its lease above the bootstrap page. *)
Theorem dma_reachable_ok sd st : slice_dma_ok sd -> dma_reachable sd st -> dma_ok sd st.
Proof. apply reachable_ok. Qed.

Lemma dma_reachable_ok_witness : dma_ok demo_sd (after_alloc 3 2 (boot demo_sd)).
Proof. apply dma_reachable_ok; [exact demo_sd_ok|exact demo_reachable]. Defined.

(** C28: In a reachable state a request is handed to the engine exactly when the lease is live, capability and
    epoch match, the cookie is fresh, nothing is in flight, the transfer is one to 4 MiB of aligned bytes of
    the slice outside the bootstrap page and below 4 GiB, the endpoint is the bound one, the operation is
    valid and the engine accepts it; and the descriptor is then the one the request describes. *)
Theorem dispatch_admits_iff sd st id l req env :
  slice_dma_ok sd -> dma_reachable sd st -> dreq_ok req -> leases st !! id = Some l ->
  match snd (dispatch_submit id req env st) with
  | inr d => issuable st l req env /\ expected_desc st id l req d
  | inl _ => ~ issuable st l req env
  end.
Proof.
  intros Hsd Hr Hq Hl. pose proof (reachable_ok sd st Hsd Hr) as Hok.
  destruct (dispatch_submit_spec sd st id req env Hok Hsd Hq) as [_ H].
  destruct (snd (dispatch_submit id req env st)); [by apply H|].
  destruct H as (l' & Hl' & H). assert (l' = l) as -> by congruence. done.
Qed.

Lemma dispatch_admits_iff_witness :
  exists d, snd (dispatch_submit 0 (demo_req 1 0x1000 64) engine_ok (after_alloc 3 2 (boot demo_sd))) = inr d /\
            d_addr d = 0x17c01000 /\ d_endpoint d = AMBA_DMA_ENDPOINT_UART2.
Proof.
  destruct (leases (after_alloc 3 2 (boot demo_sd)) !! 0%nat) as [l|] eqn:E; [|vm_compute in E; discriminate].
  pose proof (dispatch_admits_iff demo_sd (after_alloc 3 2 (boot demo_sd)) 0 l (demo_req 1 0x1000 64) engine_ok
                demo_sd_ok demo_reachable) as H.
  specialize (H ltac:(unfold dreq_ok, is_u64, is_u32; cbn; lia) E).
  vm_compute in E. injection E as <-.
  destruct (snd (dispatch_submit _ _ _ _)) as [rc|d] eqn:Ed; [vm_compute in Ed; discriminate|].
  exists d. split; [reflexivity|]. destruct H as [_ (_ & -> & _ & -> & _)]. split; reflexivity.
Defined.

(** Isolation of tenants: when the slices are mapped apart, no two descriptors ever issued for different
    leases share a byte, and none touches the bootstrap page, which holds the session key, of any lease. *)
Theorem dma_slices_isolated sd st d1 d2 :
  slice_dma_ok sd -> dma_reachable sd st ->
  (forall i j, (i < 4)%nat -> (j < 4)%nat -> i <> j ->
     disjoint_range (sd i) (sd i + AMBA_VIRT_DMA32_SLICE_SIZE) (sd j) (sd j + AMBA_VIRT_DMA32_SLICE_SIZE)) ->
  EvIssue d1 ∈ events st -> EvIssue d2 ∈ events st ->
  (d_lease d1 <> d_lease d2 -> disjoint_range (d_addr d1) (d_addr d1 + d_len d1) (d_addr d2) (d_addr d2 + d_len d2)) /\
  forall i, (i < 4)%nat ->
    disjoint_range (d_addr d1) (d_addr d1 + d_len d1) (sd i) (sd i + AMBA_DMA_BOOTSTRAP_SIZE).
Proof.
  intros Hsd Hr Hapart H1 H2. pose proof (reachable_ok sd st Hsd Hr) as Hok.
  destruct (ok_issued _ _ Hok d1 H1), (ok_issued _ _ Hok d2 H2).
  unfold disjoint_range, AMBA_VIRT_DMA32_NUM_SLICES, AMBA_VIRT_DMA32_SLICE_SIZE, AMBA_DMA_BOOTSTRAP_SIZE in *. split.
  - intros Hne. specialize (Hapart (d_lease d1) (d_lease d2) ltac:(lia) ltac:(lia) Hne). lia.
  - intros i Hi. destruct (decide (i = d_lease d1)) as [->|Hne]; [lia|]. specialize (Hapart i (d_lease d1) Hi ltac:(lia) Hne). lia.
Qed.

Definition two_issued : dma_state :=
  after_submit 1 (demo_req 1 0x1000 64) (after_submit 0 (demo_req 1 0x2000 4096) (after_alloc 4 3 (after_alloc 3 2 (boot demo_sd)))).

Lemma two_issued_reachable : dma_reachable demo_sd two_issued.
Proof.
  apply boot_reachable. unfold two_issued.
  do 2 (eapply rtc_r; [|apply after_submit_step; unfold dreq_ok, is_u64, is_u32; cbn; lia]).
  do 2 (eapply rtc_r; [|apply after_alloc_step]). apply rtc_refl.
Qed.

Lemma dma_slices_isolated_witness :
  match hw two_issued with
  | [d1; d2] => d_lease d1 <> d_lease d2 /\
                disjoint_range (d_addr d1) (d_addr d1 + d_len d1) (d_addr d2) (d_addr d2 + d_len d2)
  | _ => False
  end.
Proof.
  destruct (hw two_issued) as [|d1 [|d2 [|]]] eqn:E; try (vm_compute in E; discriminate).
  assert (Hne : d_lease d1 <> d_lease d2) by (vm_compute in E; injection E as <- <-; discriminate).
  split; [exact Hne|]. apply (dma_slices_isolated demo_sd two_issued d1 d2); [exact demo_sd_ok|exact two_issued_reachable|..|exact Hne].
  - intros i j Hi Hj Hij. unfold disjoint_range, demo_sd, AMBA_VIRT_DMA32_SLICE_SIZE, AMBA_VIRT_DMA32_POOL_BASE. lia.
  - vm_compute in E. injection E as <- <-. vm_compute. apply list_elem_of_In. simpl. tauto.
  - vm_compute in E. injection E as <- <-. vm_compute. apply list_elem_of_In. simpl. tauto.
Defined.

(** Replay protection: a completed non-zero cookie is refused with EALREADY by every request with the
    right capability and epoch until 32 further requests of the lease have completed. *)
Theorem replay_refused l0 c ds req :
  ring_ok l0 -> is_live l0 = true -> c <> 0 -> (length ds < 32)%nat ->
  rq_cookie req = c -> rq_capability req = i_capability (l_ident l0) -> rq_epoch req = l_epoch l0 ->
  snd (dispatch_check (foldl amba_dma_record_cookie l0 (c :: ds)) req) = inl (- EALREADY).
Proof.
  intros Hr Hlive Hc Hds Hcookie Hcap Hep. fold (ring_after l0 (c :: ds)).
  destruct (ring_after_idx l0 Hr (c :: ds)) as (_ & _ & _ & Hid).
  pose proof (ring_after_lookup l0 Hr (c :: ds) 0 c eq_refl) as Hk. specialize (Hk ltac:(cbn; lia)).
  set (l := ring_after l0 (c :: ds)) in *.
  assert (Hl : is_live l = true) by (unfold is_live, l_state; by rewrite Hid).
  unfold dispatch_check. rewrite Hl. cbn [negb]. fold (activated l).
  assert (E : i_capability (l_ident (activated l)) = i_capability (l_ident l) /\ l_epoch (activated l) = l_epoch l /\
              l_replay (activated l) = l_replay l) by (unfold activated; by case_bool_decide).
  destruct E as (-> & -> & Hrep). unfold l_epoch in *. rewrite Hid, Hcap, Hep, !Z.eqb_refl. cbn [negb].
  rewrite (replayed_in (activated l) (rq_cookie req) ((rp_idx (l_replay l0) + 0) mod 32)); [done|congruence|].
  rewrite Hrep. congruence.
Qed.

Lemma replay_refused_witness :
  exists l, leases (after_alloc 3 2 (boot demo_sd)) !! 0%nat = Some l /\
    snd (dispatch_check (foldl amba_dma_record_cookie l [9; 10; 11]) (demo_req 9 0x1000 64)) = inl (- EALREADY).
Proof.
  destruct (leases (after_alloc 3 2 (boot demo_sd)) !! 0%nat) as [l|] eqn:E; [|vm_compute in E; discriminate].
  exists l. split; [reflexivity|]. apply (replay_refused l 9 [10; 11]).
  - apply (ok_ring demo_sd (after_alloc 3 2 (boot demo_sd)) (reachable_ok _ _ demo_sd_ok demo_reachable) 0 l E).
  - vm_compute in E. injection E as <-. reflexivity.
  - lia.
  - simpl. lia.
  - reflexivity.
  - vm_compute in E. injection E as <-. reflexivity.
  - vm_compute in E. injection E as <-. reflexivity.
Defined.

(** A fresh allocation of a lease increases its epoch. *)
Lemma fresh_alloc_epoch env a st a' st' id l :
  amba_dma_alloc_lease env a st = (0, a', st') -> leases st !! id = Some l -> l_state l = FREE ->
  la_lease_id a' = Z.of_nat id ->
  exists l', leases st' !! id = Some l' /\ l_epoch l' = u64 (l_epoch l + 1).
Proof.
  unfold amba_dma_alloc_lease. intros H Hl Hfree Hid.
  destruct (negb (la_endpoint_id a =? _) && _ && _); [done|].
  destruct (if la_vsock_cid a =? 0 then None else _) as [k|] eqn:Ek.
  { destruct (la_vsock_cid a =? 0); [done|]. apply find_idx_Some in Ek as (x & Hx & Hlive & _).
    rewrite Hx in H. destruct (negb _ && negb _); [done|]. injection H as <- _. cbn in Hid.
    apply Nat2Z.inj in Hid as ->. bool_hyps. apply is_live_iff in H. rewrite Hl in Hx. destruct H; congruence. }
  destruct (negb _ && existsb _ _); [done|].
  destruct (find_idx (fun l => bool_decide (l_state l = FREE)) (leases st)) as [k|]; [|done].
  destruct (leases st !! k) as [x|] eqn:Hx; [|done]. injection H as <- <-. cbn in Hid. apply Nat2Z.inj in Hid as ->.
  assert (x = l) as -> by congruence. eexists. split; [|shelve].
  unfold amba_dma_write_bootstrap_page. destruct (ae_remap env); cbn; by apply list_lookup_insert_eq, (lookup_lt_Some _ _ _ Hl).
  Unshelve. done.
Qed.

(** Stale requests: once a lease has been released and handed out again, no request that carries an epoch
    from before the new allocation is ever handed to the engine, in any later state (within the 2^64 steps
    before the counter could wrap). *)
Theorem stale_epoch_refused n2 n3 st0 st1 st2 st3 env a a' id l l1 req eenv :
  leases st0 !! id = Some l -> 0 <= l_epoch l ->
  nsteps dma_step n2 st0 st1 -> leases st1 !! id = Some l1 -> l_state l1 = FREE ->
  amba_dma_alloc_lease env a st1 = (0, a', st2) -> la_lease_id a' = Z.of_nat id ->
  nsteps dma_step n3 st2 st3 -> l_epoch l + Z.of_nat n2 + Z.of_nat n3 + 1 < 2 ^ 64 ->
  rq_epoch req = l_epoch l ->
  exists rc, snd (dispatch_submit id req eenv st3) = inl rc.
Proof.
  intros Hl Hep H2 Hl1 Hfree Hal Hid H3 Hbound Hreq.
  destruct (nsteps_epochs n2 st0 st1 id l (l_epoch l) H2 Hl) as (x & Hx & Hle1); [lia|lia|].
  assert (x = l1) as -> by congruence.
  destruct (fresh_alloc_epoch _ _ _ _ _ _ _ Hal Hl1 Hfree Hid) as (l2 & Hl2 & He2).
  rewrite u64_id in He2 by lia.
  destruct (nsteps_epochs n3 st2 st3 id l2 (l_epoch l2) H3 Hl2) as (l3 & Hl3 & Hle3); [lia|lia|].
  unfold dispatch_submit. rewrite Hl3. unfold dispatch_check.
  destruct (is_live l3); cbn [negb]; [|by eexists]. fold (activated l3).
  assert (Ha : l_epoch (activated l3) = l_epoch l3) by (unfold activated; by case_bool_decide). rewrite Ha.
  destruct (negb (rq_capability req =? _)); [by eexists|].
  destruct (rq_epoch req =? l_epoch l3) eqn:E; [bool_hyps; lia|]. by eexists.
Qed.

Definition after_release (id : nat) (remap : bool) (st : dma_state) : dma_state :=
  snd (amba_dma_release_lease id 0 remap 0 st).
Lemma after_release_step id remap st : dma_step st (after_release id remap st).
Proof. unfold after_release. destruct (amba_dma_release_lease _ _ _ _ _) as [rc st'] eqn:E. by eapply step_release. Qed.

Lemma stale_epoch_refused_witness :
  exists rc, snd (dispatch_submit 0 (demo_req 1 0x1000 64) engine_ok
                    (after_alloc 4 2 (after_release 0 true (after_alloc 3 2 (boot demo_sd))))) = inl rc.
Proof.
  destruct (leases (after_alloc 3 2 (boot demo_sd)) !! 0%nat) as [l|] eqn:E; [|vm_compute in E; discriminate].
  destruct (leases (after_release 0 true (after_alloc 3 2 (boot demo_sd))) !! 0%nat) as [l1|] eqn:E1;
    [|vm_compute in E1; discriminate].
  destruct (amba_dma_alloc_lease demo_env (demo_alloc 4 2) (after_release 0 true (after_alloc 3 2 (boot demo_sd))))
    as [[rc a'] st2] eqn:E2.
  apply (stale_epoch_refused 1 0 (after_alloc 3 2 (boot demo_sd)) (after_release 0 true (after_alloc 3 2 (boot demo_sd)))
           st2 _ demo_env (demo_alloc 4 2) a' 0 l l1); try exact E; try exact E1.
  - vm_compute in E. injection E as <-. cbn. lia.
  - apply nsteps_once. apply after_release_step.
  - vm_compute in E1. injection E1 as <-. reflexivity.
  - vm_compute in E2. injection E2 as <- <- <-. vm_compute. reflexivity.
  - vm_compute in E2. injection E2 as <- <- <-. reflexivity.
  - assert (Est : st2 = after_alloc 4 2 (after_release 0 true (after_alloc 3 2 (boot demo_sd))))
      by (unfold after_alloc at 1; rewrite E2; reflexivity). rewrite Est. apply nsteps_O.
  - vm_compute in E. injection E as <-. cbn. lia.
  - vm_compute in E. injection E as <-. reflexivity.
Defined.

(** ** What teardown and start-up do not guarantee *)

(** A request of 1 MiB on lease 0, a plain drain that times out, then the release, then the lease handed
    to another guest. *)
Definition drain_timed_out (st : dma_state) : dma_state :=
  drain_resume 0 false 2000 (set_drainers [] (snd (amba_dma_drain_lease 0 0 false 0 st))).
Definition released_in_flight : dma_state :=
  after_alloc 4 3 (after_release 0 true (drain_timed_out (after_submit 0 (demo_req 1 0x1000 0x100000)
    (after_alloc 3 2 (boot demo_sd))))).

(** A drain without force that gives up after its timeout does not stop the transfer, and the release
    does not look at it: the slice can be sanitised and handed to the next guest while a device-to-memory
    descriptor of the previous guest is still writing into it. *)
Theorem release_leaves_dma_in_flight :
  dma_reachable demo_sd released_in_flight /\
  exists d l, hw released_in_flight = [d] /\ d_lease d = 0%nat /\ d_dir d = DMA_DEV_TO_MEM /\
    leases released_in_flight !! 0%nat = Some l /\ is_live l = true /\ i_vsock_cid (l_ident l) = 4 /\
    events released_in_flight = [EvBootstrap 0 3 (repeat 5 32); EvSanitize 0; EvIssue d; EvBootstrap 0 2 (repeat 5 32)].
Proof.
  split.
  - apply boot_reachable. unfold released_in_flight. eapply rtc_r; [|apply after_alloc_step].
    eapply rtc_r; [|apply after_release_step]. unfold drain_timed_out.
    set (st := after_submit _ _ _). set (st' := snd (amba_dma_drain_lease 0 0 false 0 st)).
    apply (rtc_r (boot demo_sd) st').
    2:{ destruct (leases st' !! 0%nat) as [l|] eqn:E; [|vm_compute in E; discriminate].
        apply (step_drain_resume 0 false 2000 [] [] l); [vm_compute; reflexivity|exact E|done]. }
    apply (rtc_r (boot demo_sd) st); [|eapply (step_drain 0 0 false 0), surjective_pairing].
    eapply rtc_r; [|apply after_submit_step; unfold dreq_ok, is_u64, is_u32; cbn; lia].
    eapply rtc_r; [|apply after_alloc_step]. apply rtc_refl.
  - do 2 eexists. split; [vm_compute; reflexivity|]. split_and!; [reflexivity|reflexivity| |..];
      [vm_compute; reflexivity|vm_compute; reflexivity|vm_compute; reflexivity|vm_compute; reflexivity].
Qed.

Definition unsanitized : dma_state :=
  after_alloc 4 3 (snd (amba_dma_quarantine_release 0 0 false 0 (after_release 0 false (after_alloc 3 2 (boot demo_sd))))).

(** Clearing a quarantine ignores the result of the sanitisation: a slice whose wiping failed is
    quarantined, the clearing fails to wipe it again, and the lease is free and handed to another guest
    without the slice ever having been wiped. *)
Theorem quarantine_clear_without_wipe :
  dma_reachable demo_sd unsanitized /\
  fst (amba_dma_release_lease 0 0 false 0 (after_alloc 3 2 (boot demo_sd))) = - ENOMEM /\
  events unsanitized = [EvBootstrap 0 4 (repeat 5 32); EvBootstrap 0 2 (repeat 5 32)] /\
  exists l, leases unsanitized !! 0%nat = Some l /\ is_live l = true /\ i_vsock_cid (l_ident l) = 4.
Proof.
  split.
  - apply boot_reachable. unfold unsanitized. eapply rtc_r; [|apply after_alloc_step].
    eapply rtc_r; [|eapply (step_quarantine 0 0 false 0), surjective_pairing].
    eapply rtc_r; [|apply after_release_step]. eapply rtc_r; [|apply after_alloc_step]. apply rtc_refl.
  - split; [vm_compute; reflexivity|]. split; [vm_compute; reflexivity|]. eexists.
    split; [vm_compute; reflexivity|]. split; reflexivity.
Qed.

(** A finished transfer whose completion a drain consumes before the request's thread has run. *)
Definition finished : dma_state :=
  let st := after_submit 0 (demo_req 1 0x1000 64) (after_alloc 3 2 (boot demo_sd)) in
  match hw st with d :: h => amba_dma_callback d h st | [] => st end.
Definition completion_stolen : dma_state :=
  drain_resume 0 true 0 (set_drainers [] (snd (amba_dma_drain_lease 0 0 false 0 finished))).

(** The request thread and a waiting drain sleep on the same completion, which is completed once: a
    drain that arrives between the callback and the wake-up consumes it, and the request's thread sleeps on
    with no descriptor, no timer and no completion left to wake it; a forced drain is refused by then. *)
Theorem drain_steals_completion :
  dma_reachable demo_sd completion_stolen /\
  waiters completion_stolen = [(0%nat, demo_req 1 0x1000 64)] /\ hw completion_stolen = [] /\
  (exists l, leases completion_stolen !! 0%nat = Some l /\ x_done (l_xfer l) = 0%nat /\
             x_armed (l_xfer l) = false /\ x_status (l_xfer l) = 0) /\
  fst (amba_dma_drain_lease 0 0 true 0 completion_stolen) = Some (- EBUSY).
Proof.
  split.
  - apply boot_reachable. unfold completion_stolen. set (st' := snd (amba_dma_drain_lease 0 0 false 0 finished)).
    apply (rtc_r (boot demo_sd) st').
    2:{ destruct (leases st' !! 0%nat) as [l|] eqn:E; [|vm_compute in E; discriminate].
        apply (step_drain_resume 0 true 0 [] [] l); [vm_compute; reflexivity|exact E|].
        intros _. vm_compute in E. injection E as <-. cbn. lia. }
    apply (rtc_r (boot demo_sd) finished); [|eapply (step_drain 0 0 false 0), surjective_pairing].
    unfold finished. set (st0 := after_submit _ _ _). destruct (hw st0) as [|d h] eqn:Eh; [vm_compute in Eh; discriminate|].
    apply (rtc_r (boot demo_sd) st0); [|by apply (step_callback d [] h)].
    eapply rtc_r; [|apply after_submit_step; unfold dreq_ok, is_u64, is_u32; cbn; lia].
    eapply rtc_r; [|apply after_alloc_step]. apply rtc_refl.
  - split; [vm_compute; reflexivity|]. split; [vm_compute; reflexivity|]. split; [|vm_compute; reflexivity].
    eexists. split; [vm_compute; reflexivity|]. split_and!; reflexivity.
Qed.

(** When the slices cannot be mapped for the device their address is recorded as 0, and nothing checks
    it: a request is then handed to the engine for physical page 1, outside the DMA pool. *)
Theorem unmapped_slice_is_dispatched :
  exists d, snd (dispatch_submit 0 (demo_req 1 0x1000 64) engine_ok (after_alloc 3 2 (boot (fun _ => 0)))) = inr d /\
            d_addr d = 0x1000 /\ d_addr d + d_len d < AMBA_VIRT_DMA32_POOL_BASE.
Proof. eexists. split; [vm_compute; reflexivity|]. split; [reflexivity|]. vm_compute. reflexivity. Qed.

(** What an issued request leaves behind. *)
Lemma submit_issued id req env st st1 d :
  dispatch_submit id req env st = (st1, inr d) ->
  d_lease d = id /\ hw st1 = d :: hw st /\
  exists l0 x, leases st !! id = Some l0 /\ leases st1 !! id = Some (with_xfer (fst (dispatch_check l0 req)) x) /\
    x_in_flight x = true /\ x_cookie x = rq_cookie req /\ x_done x = 0%nat /\ x_armed x = true.
Proof.
  unfold dispatch_submit. destruct (leases st !! id) as [l0|] eqn:El; [|done].
  destruct (dispatch_check l0 req) as [l [rc|e]] eqn:Ec; [done|].
  assert (Hlen : forall ep, (id < length (leases (put_ep e ep (put_lease id l st))))%nat).
  { intros ep. unfold put_ep. case_match; cbn; rewrite length_insert; by eapply lookup_lt_Some. }
  repeat case_match; intros [= <- <-]; try done. split_and!; [done|unfold put_ep; by case_match|].
  exists l0. eexists. rewrite Ec. split; [done|]. split; [cbn; by apply list_lookup_insert_eq|]. by split_and!.
Qed.

(** A request that is issued and completed by the engine returns to its caller with status 0 and the
    whole length transferred; the lease is idle again and its cookie is remembered, so the same request is
    refused as a replay. *)
Theorem dispatch_completes sd st id req env st1 d :
  dma_ok sd st -> slice_dma_ok sd -> dreq_ok req -> rq_cookie req <> 0 ->
  dispatch_submit id req env st = (st1, inr d) ->
  let '(st3, resp) := dispatch_finish id req (amba_dma_callback d (hw st) st1) in
  resp = Some (mk_dresp (rq_cookie req) 0 (rq_length req)) /\ hw st3 = hw st /\
  exists l, leases st3 !! id = Some l /\ x_in_flight (l_xfer l) = false /\
            amba_dma_cookie_is_replayed l (rq_cookie req) = true.
Proof.
  intros Hok Hsd Hq Hc Hs. destruct (submit_issued _ _ _ _ _ _ Hs) as (Hid & Hhw & l0 & x & Hl0 & Hl1 & _).
  set (l1 := fst (dispatch_check l0 req)) in *.
  assert (Hring : ring_ok l1).
  { pose proof (ok_slice_ok _ _ _ _ Hok Hsd Hl0) as Hsl.
    destruct (dispatch_check_spec l0 req Hq Hsl) as [Hev _]. apply Hev. by eapply ok_ring. }
  unfold amba_dma_callback, dispatch_finish. rewrite Hid, Hl1. cbn [set_hw put_lease leases].
  rewrite list_lookup_insert_eq by (by eapply lookup_lt_Some).
  cbn [l_xfer with_xfer complete set_status del_timer x_status]. cbn [Z.eqb].
  split; [done|]. split; [done|]. eexists. split; [|split].
  - cbn [put_lease set_hw leases]. rewrite list_insert_insert_eq. apply list_lookup_insert_eq. by eapply lookup_lt_Some.
  - done.
  - eapply (replayed_in _ _ (rp_idx (l_replay l1))); [done|]. cbn. apply list_lookup_insert_eq.
    destruct Hring as [-> ?]. done.
Qed.

Lemma dispatch_completes_witness :
  exists d st1, dispatch_submit 0 (demo_req 1 0x1000 64) engine_ok (after_alloc 3 2 (boot demo_sd)) = (st1, inr d) /\
    snd (dispatch_finish 0 (demo_req 1 0x1000 64) (amba_dma_callback d [] st1)) = Some (mk_dresp 1 0 64).
Proof.
  destruct (dispatch_submit 0 (demo_req 1 0x1000 64) engine_ok (after_alloc 3 2 (boot demo_sd))) as [st1 [rc|d]] eqn:E;
    [vm_compute in E; discriminate|]. exists d, st1. split; [reflexivity|].
  pose proof (dispatch_completes demo_sd (after_alloc 3 2 (boot demo_sd)) 0 (demo_req 1 0x1000 64) engine_ok st1 d) as H.
  specialize (H (reachable_ok _ _ demo_sd_ok demo_reachable) demo_sd_ok ltac:(unfold dreq_ok, is_u64, is_u32; cbn; lia)
                ltac:(cbn; lia) E).
  change (hw (after_alloc 3 2 (boot demo_sd))) with (@nil dma_desc) in H.
  destruct (dispatch_finish 0 _ _) as [st3 resp]. cbn [snd]. exact (proj1 H).
Defined.
