(* ===== verification/DmaBroker.v ===== *)
(** * The DMA broker of the server

    Models drivers/amba_virt/tools/virt_dma_broker.c: the channel table with its watchdogs, the bindings of
    guests to lease devices with their token buckets, the forwarding of requests, and the authentication of
    TCP clients. The broker talks to the kernel through [/dev/amba_dma_ctl] and [/dev/amba_dma_lease<N>]:
    the class [LeaseDevice] is what it relies on, and the reference monitor of DmaLease is an instance.
    Times, timer creation, [open] and random numbers are arguments. *)

From Stdlib Require Import ZArith Lia Bool Ascii String.
From stdpp Require Import base list numbers decidable.
From S2P Require Import Prelude Sha256 Acl DmaLease.

Module DmaBroker.
Import Acl DmaLease.
#[local] Open Scope Z_scope.
#[local] Open Scope list_scope.

Definition VIRT_DMA_MAX_CHANNELS : Z := 16.
Definition VIRT_DMA_MAX_TRANSFER_LEN : Z := 2 ^ 22 - 1.
Definition AMBA_VIRT_DMA_DIR_MEM_TO_DEV : Z := 1.
Definition AMBA_VIRT_DMA_DIR_DEV_TO_MEM : Z := 2.

(** ** Channel authorisation *)

(** struct amba_virt_dma_channel_acl *)
Record amba_virt_dma_channel_acl := mk_chacl { ca_cid : Z; ca_tx_channel : Z; ca_rx_channel : Z }.

Definition g_dma_acl_table : list amba_virt_dma_channel_acl :=
  [mk_chacl 4 11 12; mk_chacl 4 13 14; mk_chacl 5 13 14; mk_chacl 5 15 16; mk_chacl 6 11 12; mk_chacl 6 13 14;
   mk_chacl 7 11 12; mk_chacl 7 13 14; mk_chacl 7 15 16; mk_chacl 8 13 14; mk_chacl 8 15 16].

(** virt_dma_validate_channel_access *)
Definition virt_dma_validate_channel_access (cid channel : Z) : Z :=
  if (cid >=? 3) && (channel >=? 11) && (channel <=? 16) then 0
  else if existsb (fun a => (ca_cid a =? cid) && ((ca_tx_channel a =? channel) || (ca_rx_channel a =? channel)))
                  g_dma_acl_table then 0
  else - EPERM.

(** virt_dma_validate_buffer_bounds *)
Definition virt_dma_validate_buffer_bounds (offset length window_size : Z) : Z :=
  if length =? 0 then - EINVAL
  else if offset >=? window_size then - ERANGE
  else if u64 (offset + length) >? window_size then - ERANGE
  else 0.

(** ** Channels and watchdogs *)

(** struct dma_channel_state; [c_armed] is watchdog_armed (a POSIX timer exists) and [c_running] whether
    that timer is counting. *)
Record dma_channel_state := mk_chst {
  c_active : bool;
  c_owner_cid : Z;
  c_cookie : Z;
  c_direction : Z;
  c_buf_offset : Z;
  c_buf_len : Z;
  c_armed : bool;
  c_running : bool;
}.

Definition chst_zero : dma_channel_state := mk_chst false 0 0 0 0 0 false false.

(** The channel table and the number of POSIX timers in existence. *)
Record chan_table := mk_chans { g_channels : list dma_channel_state; g_timers : Z }.

Definition set_active (c : dma_channel_state) (a : bool) : dma_channel_state :=
  mk_chst a (c_owner_cid c) (c_cookie c) (c_direction c) (c_buf_offset c) (c_buf_len c) (c_armed c) (c_running c).
Definition set_timer (c : dma_channel_state) (armed running : bool) : dma_channel_state :=
  mk_chst (c_active c) (c_owner_cid c) (c_cookie c) (c_direction c) (c_buf_offset c) (c_buf_len c) armed running.

Definition alter_chan (f : dma_channel_state -> dma_channel_state) (channel : Z) (t : chan_table) : chan_table :=
  mk_chans (alter f (Z.to_nat channel) (g_channels t)) (g_timers t).

(** virt_dma_broker_init *)
Definition virt_dma_broker_init (t : chan_table) : chan_table := mk_chans (repeat chst_zero 16) (g_timers t).

(** virt_dma_broker_cleanup *)
Definition virt_dma_broker_cleanup (t : chan_table) : chan_table :=
  mk_chans (map (fun c => set_timer (set_active c false) false false) (g_channels t))
           (g_timers t - sumZ (fun c => if c_armed c then 1 else 0) (g_channels t)).

(** watchdog_handler of a timer that has expired *)
Definition watchdog_handler (chan : Z) (t : chan_table) : chan_table :=
  if chan <? VIRT_DMA_MAX_CHANNELS then
    alter_chan (fun c => if c_active c then set_timer (set_active c false) false false else c) chan t
  else t.

(** arm_watchdog; [created] and [started] are the results of timer_create and timer_settime *)
Definition arm_watchdog (created started : bool) (channel : Z) (t : chan_table) : chan_table :=
  if channel >=? VIRT_DMA_MAX_CHANNELS then t
  else
    match g_channels t !! Z.to_nat channel with
    | None => t
    | Some c =>
        if c_armed c then
          if started then alter_chan (fun c => set_timer c true true) channel t else t
        else if created then
          let t1 := mk_chans (g_channels t) (g_timers t + 1) in
          if started then alter_chan (fun c => set_timer c true true) channel t1
          else alter_chan (fun c => set_timer c true (c_running c)) channel t1
        else t
    end.

(** disarm_watchdog *)
Definition disarm_watchdog (channel : Z) (t : chan_table) : chan_table :=
  if channel >=? VIRT_DMA_MAX_CHANNELS then t
  else alter_chan (fun c => if c_armed c then set_timer c true false else c) channel t.

(** ** Slave configuration and submission *)

(** struct amba_virt_dma_slave_cfg: the fields that are checked *)
Record amba_virt_dma_slave_cfg := mk_scfg { sg_channel : Z; sg_direction : Z; sg_src_addr_width : Z }.

(** virt_dma_handle_slave_cfg: the status of the response *)
Definition virt_dma_handle_slave_cfg (file : option text) (cid : Z) (req : amba_virt_dma_slave_cfg) (acl : acl_state)
    : Z * acl_state :=
  let ret := virt_dma_validate_channel_access cid (sg_channel req) in
  if ret <? 0 then (ret, acl)
  else
    let '(ok, acl) := virt_acl_has_cap file cid AMBA_VIRT_CAP_DMA_SLAVE acl in
    if negb ok then (- EPERM, acl)
    else if negb (sg_direction req =? AMBA_VIRT_DMA_DIR_MEM_TO_DEV) &&
            negb (sg_direction req =? AMBA_VIRT_DMA_DIR_DEV_TO_MEM) then (- EINVAL, acl)
    else if negb (sg_src_addr_width req =? 1) && negb (sg_src_addr_width req =? 2) &&
            negb (sg_src_addr_width req =? 4) then (- EINVAL, acl)
    else (0, acl).

(** struct amba_virt_dma_submit *)
Record amba_virt_dma_submit := mk_submit {
  sb_channel : Z;
  sb_direction : Z;
  sb_buf_offset : Z;
  sb_buf_len : Z;
  sb_cookie : Z;
}.

(** struct amba_virt_dma_slave_xfer, as handed to the host driver *)
Record amba_virt_dma_slave_xfer := mk_sxfer {
  xf_channel : Z;
  xf_direction : Z;
  xf_buf_phys : Z;
  xf_buf_len : Z;
  xf_timeout_ms : Z;
}.

(** virt_dma_handle_submit up to the ioctl: [inl status] for a refusal, [inr xfer] for the transfer the
    host driver is asked to run. *)
Definition virt_dma_submit_begin (file : option text) (created started : bool) (cid tenant_phys_base ivshmem_size : Z)
    (req : amba_virt_dma_submit) (acl : acl_state) (t : chan_table)
    : (Z + amba_virt_dma_slave_xfer) * acl_state * chan_table :=
  let ret := virt_dma_validate_channel_access cid (sb_channel req) in
  if ret <? 0 then (inl ret, acl, t)
  else
    let '(ok, acl) := virt_acl_has_cap file cid AMBA_VIRT_CAP_DMA_SLAVE acl in
    if negb ok then (inl (- EPERM), acl, t)
    else
      let ret := virt_dma_validate_buffer_bounds (sb_buf_offset req) (sb_buf_len req) ivshmem_size in
      if ret <? 0 then (inl ret, acl, t)
      else if sb_buf_len req >? VIRT_DMA_MAX_TRANSFER_LEN then (inl (- E2BIG), acl, t)
      else
        let ch := sb_channel req in
        let tracked := ch <? VIRT_DMA_MAX_CHANNELS in
        let busy := match g_channels t !! Z.to_nat ch with Some c => c_active c | None => false end in
        if tracked && busy then (inl (- EBUSY), acl, t)
        else
          let t1 :=
            if tracked then
              arm_watchdog created started ch
                (alter_chan (fun c => mk_chst true cid (sb_cookie req) (sb_direction req) (sb_buf_offset req)
                                              (sb_buf_len req) (c_armed c) (c_running c)) ch t)
            else t in
          (inr (mk_sxfer ch (sb_direction req) (u64 (tenant_phys_base + sb_buf_offset req)) (sb_buf_len req) 1000),
           acl, t1).

(** The rest of virt_dma_handle_submit, once the ioctl has returned. *)
Definition virt_dma_submit_end (req : amba_virt_dma_submit) (t : chan_table) : chan_table :=
  let ch := sb_channel req in
  if ch <? VIRT_DMA_MAX_CHANNELS then disarm_watchdog ch (alter_chan (fun c => set_active c false) ch t) else t.

(** virt_dma_handle_terminate: the status *)
Definition virt_dma_handle_terminate (cid channel : Z) (t : chan_table) : Z * chan_table :=
  let ret := virt_dma_validate_channel_access cid channel in
  if ret <? 0 then (ret, t)
  else
    match (if channel <? VIRT_DMA_MAX_CHANNELS then g_channels t !! Z.to_nat channel else None) with
    | Some c =>
        if c_active c then
          if negb (c_owner_cid c =? cid) then (- EPERM, t)
          else (0, alter_chan (fun c => set_active c false) channel (disarm_watchdog channel t))
        else (0, t)
    | None => (0, t)
    end.

(** ** The kernel behind the broker *)

(** struct amba_dma_lease_info *)
Record amba_dma_lease_info := mk_info {
  li_lease_id : Z;
  li_state : lease_state;
  li_capability : Z;
  li_epoch : Z;
  li_hmac_key : list Z;
}.

(** What the broker asks of the lease devices: an allocation without endpoint for a guest, giving lease,
    capability and epoch; the release of a lease whatever its epoch; the information of a lease; and a
    request on a lease, giving the response. Errors are negative errno values. *)
Class LeaseDevice (K : Type) := {
  ioc_lease_alloc : Z -> K -> K * (Z + Z * Z * Z);
  ioc_lease_release : Z -> K -> K;
  ioc_get_info : Z -> K -> option amba_dma_lease_info;
  ioc_request : Z -> amba_virt_dma_request -> K -> K * (Z + amba_virt_dma_response);
  (** The capability and epoch a lease currently asks for. *)
  lease_credentials : K -> Z -> option (Z * Z);
  (** A lease handed out asks for the credentials given with it. *)
  ld_alloc_credentials cid k k' id cap ep :
    ioc_lease_alloc cid k = (k', inr (id, cap, ep)) -> lease_credentials k' id = Some (cap, ep);
  (** A request is served only under the credentials of the lease. *)
  ld_request_credentials id req k k' resp :
    ioc_request id req k = (k', inr resp) -> lease_credentials k id = Some (rq_capability req, rq_epoch req);
  (** A refusal is a negative errno. *)
  ld_request_error id req k k' e : ioc_request id req k = (k', inl e) -> e < 0;
}.

(** ** Bindings and token buckets *)

(** struct cid_lease_binding; [cb_fd] is -1 while the lease device is not open *)
Record cid_lease_binding := mk_cb {
  cb_cid : Z;
  cb_lease_id : Z;
  cb_capability : Z;
  cb_epoch : Z;
  cb_fd : Z;
  cb_last_token_ns : Z;
  cb_op_tokens : Z;
  cb_byte_tokens : Z;
}.

Definition MAX_CID_BINDINGS : nat := 16.
Definition TOKEN_BUCKET_RATE_OPS : Z := 2000.
Definition TOKEN_BUCKET_BURST_OPS : Z := 64.
Definition TOKEN_BUCKET_RATE_BYTES : Z := 50 * 1024 * 1024.
Definition TOKEN_BUCKET_BURST_BYTES : Z := 2 * 1024 * 1024.

Definition fresh_binding (cid lease_id capability epoch now : Z) : cid_lease_binding :=
  mk_cb cid lease_id capability epoch (-1) now TOKEN_BUCKET_BURST_OPS TOKEN_BUCKET_BURST_BYTES.

(** virt_dma_bind_cid_lease_with_cap at time [now] *)
Definition virt_dma_bind_cid_lease_with_cap (now cid lease_id capability epoch : Z) (bs : list cid_lease_binding)
    : Z * list cid_lease_binding :=
  match find_idx (fun b => (cb_cid b =? cid) || (cb_cid b =? 0)) bs with
  | Some i => (0, <[i := fresh_binding cid lease_id capability epoch now]> bs)
  | None => (- ENOSPC, bs)
  end.

(** Token-bucket replenishment of virt_dma_handle_request *)
Definition replenish (now : Z) (b : cid_lease_binding) : cid_lease_binding :=
  let elapsed := u64 (now - cb_last_token_ns b) in
  let added_ops := u64 (elapsed * TOKEN_BUCKET_RATE_OPS) / 1000000000 in
  let ops := if added_ops >? 0 then
               let o := u32 (cb_op_tokens b + added_ops) in
               if o >? TOKEN_BUCKET_BURST_OPS then TOKEN_BUCKET_BURST_OPS else o
             else cb_op_tokens b in
  let added_bytes := u64 (elapsed * TOKEN_BUCKET_RATE_BYTES) / 1000000000 in
  let bytes := if added_bytes >? 0 then
                 let o := u32 (cb_byte_tokens b + added_bytes) in
                 if o >? TOKEN_BUCKET_BURST_BYTES then TOKEN_BUCKET_BURST_BYTES else o
               else cb_byte_tokens b in
  mk_cb (cb_cid b) (cb_lease_id b) (cb_capability b) (cb_epoch b) (cb_fd b) now ops bytes.

(** The admission check: the binding after paying for [length] bytes, or the refused binding. *)
Definition admit_tokens (length : Z) (b : cid_lease_binding) : cid_lease_binding * bool :=
  if (cb_op_tokens b <? 1) || (cb_byte_tokens b <? length) then (b, false)
  else (mk_cb (cb_cid b) (cb_lease_id b) (cb_capability b) (cb_epoch b) (cb_fd b) (cb_last_token_ns b)
              (cb_op_tokens b - 1) (cb_byte_tokens b - length), true).

Definition set_fd (b : cid_lease_binding) (fd : Z) : cid_lease_binding :=
  mk_cb (cb_cid b) (cb_lease_id b) (cb_capability b) (cb_epoch b) fd (cb_last_token_ns b) (cb_op_tokens b)
        (cb_byte_tokens b).

(** [kernel_req = *req] with the credentials of the session *)
Definition with_credentials (req : amba_virt_dma_request) (capability epoch : Z) : amba_virt_dma_request :=
  mk_dreq capability epoch (rq_cookie req) (rq_endpoint_id req) (rq_operation req) (rq_offset req) (rq_length req).

(** The response for a given outcome of the ioctl. *)
Definition response_of (req : amba_virt_dma_request) (r : Z + amba_virt_dma_response) : amba_virt_dma_response :=
  match r with
  | inl err => mk_dresp (rq_cookie req) err 0
  | inr k => mk_dresp (rs_cookie k) (rs_status k) (rs_transferred k)
  end.

Section Broker.
Context {K : Type} `{LeaseDevice K}.

(** virt_dma_bind_cid_lease; [ctl] whether the control device opens *)
Definition virt_dma_bind_cid_lease (ctl : bool) (now cid lease_id : Z) (k : K) (bs : list cid_lease_binding)
    : Z * list cid_lease_binding * K :=
  let '(k', l, cap, ep) :=
    if ctl then
      match ioc_lease_alloc cid k with
      | (k', inr (l, cap, ep)) => (k', l, cap, ep)
      | (k', inl _) => (k', lease_id, 0, 0)
      end
    else (k, lease_id, 0, 0) in
  let '(rc, bs') := virt_dma_bind_cid_lease_with_cap now cid l cap ep bs in (rc, bs', k').

(** get_cid_binding: the index of the binding of a guest, made on first use *)
Definition get_cid_binding (ctl : bool) (now cid : Z) (k : K) (bs : list cid_lease_binding)
    : option nat * list cid_lease_binding * K :=
  match find_idx (fun b => (cb_cid b =? cid) && negb (cb_cid b =? 0)) bs with
  | Some i => (Some i, bs, k)
  | None =>
      if negb (cid =? 0) && ctl then
        match ioc_lease_alloc cid k with
        | (k', inr (l, cap, ep)) =>
            match find_idx (fun b => (cb_cid b =? 0) || (cb_cid b =? cid)) bs with
            | Some i => (Some i, <[i := fresh_binding cid l cap ep now]> bs, k')
            | None => (None, bs, k')
            end
        | (k', inl _) => (None, bs, k')
        end
      else (None, bs, k)
  end.

(** What one request meets in the system: whether the control device opens, the two clock readings, and
    the descriptor or the errno of opening the lease device. *)
Record req_env := mk_renv { re_ctl : bool; re_bind_now : Z; re_now : Z; re_open : Z }.

(** virt_dma_handle_request *)
Definition virt_dma_handle_request (env : req_env) (cid : Z) (req : amba_virt_dma_request) (k : K)
    (bs : list cid_lease_binding) : amba_virt_dma_response * list cid_lease_binding * K :=
  let '(ob, bs1, k1) := get_cid_binding (re_ctl env) (re_bind_now env) cid k bs in
  match ob with
  | None => (mk_dresp (rq_cookie req) (- EPERM) 0, bs1, k1)
  | Some i =>
      match bs1 !! i with
      | None => (mk_dresp (rq_cookie req) (- EPERM) 0, bs1, k1)
      | Some b =>
          let '(b1, ok) := admit_tokens (rq_length req) (replenish (re_now env) b) in
          if negb ok then (mk_dresp (rq_cookie req) (- EDQUOT) 0, <[i := b1]> bs1, k1)
          else
            let fd := if cb_fd b1 <? 0 then re_open env else cb_fd b1 in
            if fd <? 0 then (mk_dresp (rq_cookie req) fd 0, <[i := set_fd b1 (-1)]> bs1, k1)
            else
              let '(k2, r) := ioc_request (cb_lease_id b1) (with_credentials req (cb_capability b1) (cb_epoch b1)) k1 in
              (response_of req r, <[i := set_fd b1 fd]> bs1, k2)
      end
  end.

(** ** Requests of authenticated TCP sessions *)

(** A copy between the lease slice and the shared window, same offset on both sides. *)
Inductive slice_copy := CopyIn (offset length : Z) | CopyOut (offset length : Z).

Definition map_len : Z := 16 * 1024 * 1024.

(** virt_dma_handle_authenticated_request; [opened] is 0 or the negative errno of opening the lease device,
    [mapped] whether both mappings exist *)
Definition virt_dma_handle_authenticated_request (opened : Z) (mapped : bool) (lease_id capability epoch : Z)
    (req : amba_virt_dma_request) (k : K) : amba_virt_dma_response * list slice_copy * K :=
  if opened <? 0 then (mk_dresp (rq_cookie req) opened 0, [], k)
  else
    let copy_in := if mapped && (rq_operation req =? AMBA_DMA_OP_MEM_TO_DEV) &&
                      (u64 (rq_offset req + rq_length req) <=? map_len)
                   then [CopyIn (rq_offset req) (rq_length req)] else [] in
    let '(k', r) := ioc_request lease_id (with_credentials req capability epoch) k in
    let resp := response_of req r in
    let copy_out := if mapped && (rq_operation req =? AMBA_DMA_OP_DEV_TO_MEM) &&
                       (u64 (rq_offset req + rs_transferred resp) <=? map_len)
                    then [CopyOut (rq_offset req) (rs_transferred resp)] else [] in
    (resp, copy_in ++ copy_out, k').

(** ** Authentication of TCP clients *)

(** struct amba_virt_auth_challenge_req *)
Record amba_virt_auth_challenge_req := mk_areq { aq_lease_id : Z; aq_epoch : Z; aq_client_nonce : list Z }.

(** What a successful challenge yields: the nonce and tag sent back, and the session key, lease and
    capability kept for the session. *)
Record auth_session := mk_session {
  as_server_nonce : list Z;
  as_server_tag : list Z;
  as_session_key : list Z;
  as_lease_id : Z;
  as_capability : Z;
}.

Definition bytes_of (t : text) : list Z := map (fun c => Z.of_nat (nat_of_ascii c)) t.

(** [snprintf(key_seed, 64, ...)] of the lease and the epoch *)
Definition key_seed (lease_id epoch : Z) : list Z :=
  bytes_of (take 63 (lit "AMBA_VIRT_LEASE_" ++ print_u lease_id ++ lit "_" ++ print_digits 19 epoch)).

(** The stack contexts of the hash functions. *)
Context (stack : Sha256.sha256_ctx_t) (hstack : Sha256.hmac_sha256_ctx_t).

Definition fallback_key (lease_id epoch : Z) : list Z :=
  Sha256.hmac_sha256 stack hstack (key_seed lease_id epoch) (bytes_of (lit "LEASE_KEY")).

(** The part for a lease without capability: allocate, release and allocate again when the table is full,
    and fall back to a key derived from the lease id and the epoch. *)
Definition auth_fallback (ctl : bool) (req : amba_virt_auth_challenge_req) (info : amba_dma_lease_info) (k : K)
    : amba_dma_lease_info * K :=
  let cid := u32 (8820 + aq_lease_id req) in
  let '(info1, k1) :=
    if ctl then
      let '(k1, r) := ioc_lease_alloc cid k in
      let '(k2, r2) := match r with
                       | inl e => if (e =? - ENOSPC) || (e =? - EINVAL)
                                  then ioc_lease_alloc cid (ioc_lease_release (aq_lease_id req) k1) else (k1, r)
                       | inr _ => (k1, r)
                       end in
      match r2 with
      | inr (l, cap, ep) => (mk_info l ACTIVE cap ep (li_hmac_key info), k2)
      | inl _ => (info, k2)
      end
    else (info, k) in
  let info2 := if li_capability info1 =? 0
               then mk_info (aq_lease_id req) ACTIVE (li_capability info1) (aq_epoch req) (li_hmac_key info1)
               else info1 in
  (mk_info (li_lease_id info2) (li_state info2) (li_capability info2) (li_epoch info2)
           (fallback_key (aq_lease_id req) (li_epoch info2)), k1).

(** Nonces, session key and tag. *)
Definition auth_keys (req : amba_virt_auth_challenge_req) (info : amba_dma_lease_info) (server_nonce : list Z)
    : option auth_session :=
  let prk := Sha256.hmac_sha256 stack hstack (li_hmac_key info) (aq_client_nonce req ++ server_nonce) in
  match Sha256.hkdf_sha256_expand 255 stack hstack prk (bytes_of (lit "amba-dma-session-v1")) (Some (repeat 0 32)) with
  | Some (0, Some session_key) =>
      Some (mk_session server_nonce
              (Sha256.hmac_sha256 stack hstack session_key
                 (bytes_of (lit "SERVER_OK") ++ server_nonce ++ aq_client_nonce req))
              session_key (li_lease_id info) (li_capability info))
  | _ => None
  end.

Definition info_zero : amba_dma_lease_info := mk_info 0 FREE 0 0 (repeat 0 32).

(** virt_dma_handle_auth_challenge: the status and, on success, the session. [opened] is 0 or the negative
    errno of opening the lease device, [ctl] whether the control device opens, [nonce] what /dev/urandom
    gives. *)
Definition virt_dma_handle_auth_challenge (opened : Z) (ctl : bool) (nonce : option (list Z))
    (req : amba_virt_auth_challenge_req) (k : K) : Z * option auth_session * K :=
  if aq_lease_id req >=? 4 then (- EINVAL, None, k)
  else if opened <? 0 then (opened, None, k)
  else
    let got := ioc_get_info (aq_lease_id req) k in
    let info0 := default info_zero got in
    let '(info, k1) :=
      if negb (bool_decide (is_Some got)) || bool_decide (li_state info0 = FREE) || (li_capability info0 =? 0)
      then auth_fallback ctl req info0 k else (info0, k) in
    if negb (bool_decide (li_state info = ACTIVE)) && negb (bool_decide (li_state info = STARTING))
    then (- EPERM, None, k1)
    else if negb (li_epoch info =? aq_epoch req) then (- ESTALE, None, k1)
    else
      match nonce with
      | None => (- EIO, None, k1)
      | Some sn =>
          match auth_keys req info sn with
          | Some s => (0, Some s, k1)
          | None => (- EFAULT, None, k1)
          end
      end.

End Broker.
End DmaBroker.
