(* ===== verification/DmaBrokerProps.v ===== *)
(** * Properties of the DMA broker

    The reference monitor as an instance of [LeaseDevice], then the broker's properties: credentials come
    from the binding, the token bucket bounds what a guest gets, the channel authorisation and the window
    checks, and what they do not cover. *)

From Stdlib Require Import ZArith Lia Bool Ascii String.
From stdpp Require Import base list numbers decidable.
From S2P Require Import Prelude Sha256 Acl DmaLease DmaLeaseProps DmaBroker.
Import Acl DmaLease DmaBroker.
#[local] Open Scope Z_scope.
#[local] Open Scope list_scope.

(** ** The reference monitor behind the broker *)

Section KernelDevice.
Context (aenv : alloc_env) (eenv : engine_env) (Hconfig : ee_config eenv <= 0).

(** A lease number of the broker as an index of the monitor's table. *)
Definition lease_index (id : Z) : nat := Z.to_nat id.

(** A request with an engine that completes every descriptor. *)
Definition run_request (id : Z) (req : amba_virt_dma_request) (st : dma_state) : dma_state * (Z + amba_virt_dma_response) :=
  if id <? 0 then (st, inl (- EINVAL))
  else
    match dispatch_submit (lease_index id) req eenv st with
    | (st1, inl rc) => (st1, inl rc)
    | (st1, inr d) =>
        match dispatch_finish (lease_index id) req (amba_dma_callback d (hw st) (set_waiters (waiters st) st1)) with
        | (st2, Some resp) => (st2, inr resp)
        | (st2, None) => (st2, inl (- EINVAL))
        end
    end.

Definition run_alloc (cid : Z) (st : dma_state) : dma_state * (Z + Z * Z * Z) :=
  let '(rc, a, st') := amba_dma_alloc_lease aenv (mk_alloc (repeat 0 16) 1 cid 0 0 0 0) st in
  if rc =? 0 then (st', inr (la_lease_id a, la_capability a, la_epoch a)) else (st', inl rc).

Definition monitor_credentials (st : dma_state) (id : Z) : option (Z * Z) :=
  if id <? 0 then None
  else match leases st !! lease_index id with
       | Some l => Some (i_capability (l_ident l), l_epoch l)
       | None => None
       end.

Definition run_info (id : Z) (st : dma_state) : option amba_dma_lease_info :=
  match leases st !! lease_index id with
  | Some l => Some (mk_info id (l_state l) (i_capability (l_ident l)) (l_epoch l) (i_hmac_key (l_ident l)))
  | None => None
  end.

Lemma run_alloc_credentials cid k k' id cap ep :
  run_alloc cid k = (k', inr (id, cap, ep)) -> monitor_credentials k' id = Some (cap, ep).
Proof.
  unfold run_alloc, amba_dma_alloc_lease. cbn [la_endpoint_id la_vsock_cid la_vm_uuid la_boot_generation].
  destruct (if cid =? 0 then None else _) as [i|] eqn:E.
  - destruct (leases k !! i) as [l|] eqn:El; [|cbn; done]. cbn. intros [= <- <- <- <-].
    unfold monitor_credentials, lease_index. destruct (Z.ltb_spec (Z.of_nat i) 0); [lia|]. by rewrite Nat2Z.id, El.
  - cbn. destruct (find_idx (fun l => bool_decide (l_state l = FREE)) _) as [i|] eqn:Ef; [|cbn; done].
    destruct (leases k !! i) as [l|] eqn:El; [|cbn; done]. cbn. intros [= <- <- <- <-]. unfold monitor_credentials, lease_index.
    destruct (Z.ltb_spec (Z.of_nat i) 0); [lia|]. rewrite Nat2Z.id.
    unfold amba_dma_write_bootstrap_page. destruct (ae_remap aenv); cbn;
      (rewrite list_lookup_insert_eq; [done|by eapply lookup_lt_Some]).
Qed.

Lemma dispatch_check_credentials l req e :
  snd (dispatch_check l req) = inr e -> rq_capability req = i_capability (l_ident l) /\ rq_epoch req = l_epoch l.
Proof.
  unfold dispatch_check. destruct (is_live l); [|done]. cbn [negb]. fold (activated l).
  assert (Ha : i_capability (l_ident (activated l)) = i_capability (l_ident l) /\ l_epoch (activated l) = l_epoch l)
    by (unfold activated; by case_bool_decide). destruct Ha as [-> ->].
  destruct (rq_capability req =? _) eqn:E1; [|done]. cbn [negb]. destruct (rq_epoch req =? _) eqn:E2; [|done].
  bool_hyps. done.
Qed.

Lemma run_request_credentials id req k k' resp :
  run_request id req k = (k', inr resp) -> monitor_credentials k id = Some (rq_capability req, rq_epoch req).
Proof.
  unfold run_request, monitor_credentials. destruct (id <? 0); [done|].
  destruct (dispatch_submit _ _ _ _) as [st1 [rc|d]] eqn:E; [done|]. intros _. revert E. unfold dispatch_submit.
  destruct (leases k !! lease_index id) as [l|]; [|done].
  pose proof (dispatch_check_credentials l req) as Hc. destruct (dispatch_check l req) as [l1 [rc|e]]; [done|].
  intros _. destruct (Hc e eq_refl) as [-> ->]. done.
Qed.

Lemma dispatch_check_error l req rc : snd (dispatch_check l req) = inl rc -> rc < 0.
Proof. unfold dispatch_check. repeat case_match; cbn; by intros [= <-]. Qed.

Lemma dispatch_submit_error id req st rc : snd (dispatch_submit id req eenv st) = inl rc -> rc < 0.
Proof.
  unfold dispatch_submit. destruct (leases st !! id) as [l|]; [|by intros [= <-]].
  pose proof (dispatch_check_error l req) as Hc. destruct (dispatch_check l req) as [l1 [e|e]].
  - intros [= <-]. by apply Hc.
  - repeat case_match; cbn; intros [= <-]; try done. bool_hyps. lia.
Qed.

Lemma run_request_error id req k k' e : run_request id req k = (k', inl e) -> e < 0.
Proof.
  unfold run_request. destruct (id <? 0); [by intros [= _ <-]|].
  pose proof (dispatch_submit_error (lease_index id) req k) as He.
  destruct (dispatch_submit _ _ _ _) as [st1 [rc|d]]; [intros [= _ <-]; by apply He|].
  destruct (dispatch_finish _ _ _) as [st2 [r|]]; by intros [= _ <-].
Qed.

#[export] Instance kernel_device : LeaseDevice dma_state := {|
  ioc_lease_alloc := run_alloc;
  ioc_lease_release id st := snd (amba_dma_release_lease (lease_index id) 0 true 0 st);
  ioc_get_info := run_info;
  ioc_request := run_request;
  lease_credentials := monitor_credentials;
  ld_alloc_credentials := run_alloc_credentials;
  ld_request_credentials := run_request_credentials;
  ld_request_error := run_request_error;
|}.
End KernelDevice.

(** ** Credentials *)

Section Client.
Context {K : Type} {dev : LeaseDevice K}.

(** The binding a request ends up with, and the kernel it is then sent to. *)
Definition binding_used (env : req_env) (cid : Z) (k : K) (bs : list cid_lease_binding)
    : option (cid_lease_binding * K) :=
  let '(ob, bs1, k1) := get_cid_binding (re_ctl env) (re_bind_now env) cid k bs in
  match ob with
  | Some i => match bs1 !! i with Some b => Some (b, k1) | None => None end
  | None => None
  end.

Lemma replenish_ident now b :
  cb_cid (replenish now b) = cb_cid b /\ cb_lease_id (replenish now b) = cb_lease_id b /\
  cb_capability (replenish now b) = cb_capability b /\ cb_epoch (replenish now b) = cb_epoch b.
Proof. done. Qed.

Lemma admit_ident len b b' ok :
  admit_tokens len b = (b', ok) -> cb_cid b' = cb_cid b /\ cb_lease_id b' = cb_lease_id b /\
  cb_capability b' = cb_capability b /\ cb_epoch b' = cb_epoch b.
Proof. unfold admit_tokens. case_match; by intros [= <- <-]. Qed.

(** The credentials a guest puts in its request play no part: the broker answers as if the guest had
    sent any others. It forwards the request to the lease of the guest's binding with the binding's
    capability and epoch, so a request succeeds only while those are the ones the lease asks for. *)
Theorem request_uses_binding env cid req k bs cap ep :
  virt_dma_handle_request env cid (with_credentials req cap ep) k bs = virt_dma_handle_request env cid req k bs /\
  forall resp bs' k', virt_dma_handle_request env cid req k bs = (resp, bs', k') -> rs_status resp = 0 ->
    exists b k1, binding_used env cid k bs = Some (b, k1) /\
      lease_credentials k1 (cb_lease_id b) = Some (cb_capability b, cb_epoch b).
Proof.
  split.
  - unfold virt_dma_handle_request. destruct (get_cid_binding _ _ _ _ _) as [[[i|] bs1] k1]; [|done].
    destruct (bs1 !! i) as [b|]; [|done]. cbn [with_credentials rq_length rq_cookie].
    destruct (admit_tokens _ _) as [b1 ok]. destruct (negb ok); [done|].
    set (fd := if cb_fd b1 <? 0 then _ else _). destruct (fd <? 0); [done|].
    change (with_credentials (with_credentials req cap ep) (cb_capability b1) (cb_epoch b1))
      with (with_credentials req (cb_capability b1) (cb_epoch b1)).
    destruct (ioc_request _ _ _) as [k2 [e|r]]; done.
  - intros resp bs' k' H Hst. unfold virt_dma_handle_request in H. unfold binding_used.
    destruct (get_cid_binding _ _ _ _ _) as [[[i|] bs1] k1]; [|injection H as <- _ _; done].
    destruct (bs1 !! i) as [b|]; [|injection H as <- _ _; done].
    destruct (admit_tokens _ _) as [b1 ok] eqn:Ea. apply admit_ident in Ea as (_ & Hl & Hc & He).
    destruct (replenish_ident (re_now env) b) as (_ & Hl' & Hc' & He'). rewrite Hl', Hc', He' in *.
    destruct (negb ok); [injection H as <- _ _; done|].
    set (fd := if cb_fd b1 <? 0 then _ else _) in H.
    destruct (Z.ltb_spec fd 0); [injection H as <- _ _; cbn in Hst; lia|].
    destruct (ioc_request _ _ k1) as [k2 [e|r]] eqn:Er; injection H as <- _ _.
    { cbn in Hst. apply ld_request_error in Er. lia. }
    exists b, k1. split; [done|]. apply ld_request_credentials in Er. cbn in Er. by rewrite <- Hl, <- Hc, <- He.
Qed.
End Client.

(** The monitor after the host has given guest 3 a lease on UART2, and no binding made yet. *)
Definition demo_kernel : LeaseDevice dma_state := kernel_device demo_env engine_ok ltac:(cbn; lia).
Definition no_bindings : list cid_lease_binding := repeat (mk_cb 0 0 0 0 0 0 0 0) MAX_CID_BINDINGS.
Definition demo_renv : req_env := mk_renv true 1000 2000 7.

Lemma request_uses_binding_witness :
  exists b k1, binding_used (dev := demo_kernel) demo_renv 3 (after_alloc 3 2 (boot demo_sd)) no_bindings = Some (b, k1) /\
    lease_credentials (LeaseDevice := demo_kernel) k1 (cb_lease_id b) = Some (cb_capability b, cb_epoch b).
Proof.
  destruct (virt_dma_handle_request (H := demo_kernel) demo_renv 3 (mk_dreq 0 0 5 0 2 0x1000 64)
              (after_alloc 3 2 (boot demo_sd)) no_bindings) as [[resp bs'] k'] eqn:E.
  apply (proj2 (request_uses_binding (dev := demo_kernel) demo_renv 3 (mk_dreq 0 0 5 0 2 0x1000 64)
                  (after_alloc 3 2 (boot demo_sd)) no_bindings 0 0) resp bs' k' E).
  vm_compute in E. injection E as <- _ _. reflexivity.
Defined.

(** ** Token bucket *)

(** Requests [(time, length)] on one binding: admitted operations, admitted bytes, and the binding left. *)
Fixpoint bucket_run (reqs : list (Z * Z)) (b : cid_lease_binding) : Z * Z * cid_lease_binding :=
  match reqs with
  | [] => (0, 0, b)
  | (now, len) :: reqs' =>
      let '(b1, ok) := admit_tokens len (replenish now b) in
      let '(ops, bytes, b2) := bucket_run reqs' b1 in
      if ok then (ops + 1, bytes + len, b2) else (ops, bytes, b2)
  end.

(** Clock readings that do not go back, from [t] on. *)
Fixpoint clock_from (t : Z) (reqs : list (Z * Z)) : Prop :=
  match reqs with
  | [] => True
  | (now, len) :: reqs' => t <= now < 2 ^ 64 /\ 0 <= len /\ clock_from now reqs'
  end.

Definition last_time (t : Z) (reqs : list (Z * Z)) : Z := foldl (fun _ '(now, _) => now) t reqs.

Record bucket_ok (b : cid_lease_binding) : Prop := {
  bk_time : 0 <= cb_last_token_ns b < 2 ^ 64;
  bk_ops : 0 <= cb_op_tokens b <= TOKEN_BUCKET_BURST_OPS;
  bk_bytes : 0 <= cb_byte_tokens b <= TOKEN_BUCKET_BURST_BYTES;
}.

(** A counter refilled at [rate] per second, clamped to [burst]. *)
Lemma refill_bound tokens rate burst elapsed :
  0 <= tokens <= burst -> 0 <= rate -> 0 <= elapsed -> 0 <= burst ->
  let added := u64 (elapsed * rate) / 1000000000 in
  let t' := if added >? 0 then (let o := u32 (tokens + added) in if o >? burst then burst else o) else tokens in
  0 <= t' <= burst /\ 1000000000 * t' <= 1000000000 * tokens + rate * elapsed.
Proof.
  intros Ht Hr He Hb added. assert (Hadd : 0 <= added /\ 1000000000 * added <= rate * elapsed).
  { pose proof (u64_range (elapsed * rate)) as Hu. unfold is_u64 in Hu.
    pose proof (u64_le (elapsed * rate) ltac:(nia)) as Hle. unfold added. split; [apply Z.div_pos; lia|].
    pose proof (Z.mul_div_le (u64 (elapsed * rate)) 1000000000 ltac:(lia)). nia. }
  destruct (Z.gtb_spec added 0); cbn zeta; [|nia].
  pose proof (u32_le (tokens + added) ltac:(lia)). pose proof (u32_range (tokens + added)) as Hu. unfold is_u32 in Hu.
  destruct (Z.gtb_spec (u32 (tokens + added)) burst); nia.
Qed.

Lemma replenish_bound now b :
  bucket_ok b -> cb_last_token_ns b <= now < 2 ^ 64 ->
  let b' := replenish now b in let e := now - cb_last_token_ns b in
  bucket_ok b' /\ cb_last_token_ns b' = now /\
  1000000000 * cb_op_tokens b' <= 1000000000 * cb_op_tokens b + TOKEN_BUCKET_RATE_OPS * e /\
  1000000000 * cb_byte_tokens b' <= 1000000000 * cb_byte_tokens b + TOKEN_BUCKET_RATE_BYTES * e.
Proof.
  intros [Ht Ho Hb] Hn b' e. assert (He : u64 (now - cb_last_token_ns b) = e) by (unfold e; apply u64_id; lia).
  pose proof (refill_bound (cb_op_tokens b) TOKEN_BUCKET_RATE_OPS TOKEN_BUCKET_BURST_OPS e Ho) as H1.
  pose proof (refill_bound (cb_byte_tokens b) TOKEN_BUCKET_RATE_BYTES TOKEN_BUCKET_BURST_BYTES e Hb) as H2.
  unfold TOKEN_BUCKET_RATE_OPS, TOKEN_BUCKET_RATE_BYTES, TOKEN_BUCKET_BURST_OPS, TOKEN_BUCKET_BURST_BYTES in *.
  specialize (H1 ltac:(lia) ltac:(lia) ltac:(lia)). specialize (H2 ltac:(lia) ltac:(lia) ltac:(lia)).
  unfold b', replenish. rewrite He. destruct H1 as [H1 H1'], H2 as [H2 H2'].
  split; [split; [cbn; lia|exact H1|exact H2]|]. split; [done|]. split; [exact H1'|exact H2'].
Qed.

Lemma admit_bound len b b' ok :
  bucket_ok b -> 0 <= len -> admit_tokens len b = (b', ok) ->
  bucket_ok b' /\ cb_last_token_ns b' = cb_last_token_ns b /\
  cb_op_tokens b' = cb_op_tokens b - (if ok then 1 else 0) /\
  cb_byte_tokens b' = cb_byte_tokens b - (if ok then len else 0).
Proof.
  intros [Ht Ho Hb] Hl. unfold admit_tokens. destruct (_ || _) eqn:E; intros [= <- <-]; cbn; [split_and!; try done; lia|].
  apply orb_false_iff in E as [E1 E2]. bool_hyps. split_and!; try lia. split; cbn; lia.
Qed.

Lemma bucket_run_bound reqs b :
  bucket_ok b -> clock_from (cb_last_token_ns b) reqs ->
  let '(ops, bytes, b') := bucket_run reqs b in
  bucket_ok b' /\
  1000000000 * (ops + cb_op_tokens b') <=
    1000000000 * cb_op_tokens b + TOKEN_BUCKET_RATE_OPS * (last_time (cb_last_token_ns b) reqs - cb_last_token_ns b) /\
  1000000000 * (bytes + cb_byte_tokens b') <=
    1000000000 * cb_byte_tokens b + TOKEN_BUCKET_RATE_BYTES * (last_time (cb_last_token_ns b) reqs - cb_last_token_ns b).
Proof.
  revert b. induction reqs as [|[now len] reqs IH]; intros b Hb Hc; cbn [bucket_run last_time foldl].
  { split; [done|]. split; lia. }
  cbn in Hc. destruct Hc as (Hn & Hl & Hc).
  destruct (replenish_bound now b Hb ltac:(lia)) as (Hb1 & Ht1 & Ho1 & By1).
  destruct (admit_tokens len (replenish now b)) as [b1 ok] eqn:Ea.
  destruct (admit_bound _ _ _ _ Hb1 Hl Ea) as (Hb2 & Ht2 & Ho2 & By2).
  specialize (IH b1 Hb2). rewrite Ht2, Ht1 in IH. specialize (IH Hc).
  destruct (bucket_run reqs b1) as [[ops bytes] b']. destruct IH as (Hb' & Ho' & By').
  unfold last_time in Ho', By'. destruct ok; (split; [done|]); split; lia.
Qed.

(** Rate limiting: over any series of requests on a binding, the admitted operations and bytes never
    exceed the burst plus the rate times the elapsed time. *)
Theorem rate_limit_bound reqs b :
  bucket_ok b -> clock_from (cb_last_token_ns b) reqs ->
  let '(ops, bytes, _) := bucket_run reqs b in
  let elapsed := last_time (cb_last_token_ns b) reqs - cb_last_token_ns b in
  1000000000 * ops <= 1000000000 * TOKEN_BUCKET_BURST_OPS + TOKEN_BUCKET_RATE_OPS * elapsed /\
  1000000000 * bytes <= 1000000000 * TOKEN_BUCKET_BURST_BYTES + TOKEN_BUCKET_RATE_BYTES * elapsed.
Proof.
  intros Hb Hc. pose proof (bucket_run_bound reqs b Hb Hc) as H. destruct (bucket_run reqs b) as [[ops bytes] b'].
  destruct H as ([_ ? ?] & ? & ?), Hb as [_ ? ?]. cbn zeta. lia.
Qed.

Lemma rate_limit_bound_witness :
  let b := fresh_binding 3 0 77 2 1000 in
  let '(ops, bytes, _) := bucket_run [(2000, 4096); (1000000, 2097152); (50000000, 2097152)] b in
  1000000000 * bytes <= 1000000000 * TOKEN_BUCKET_BURST_BYTES + TOKEN_BUCKET_RATE_BYTES * 49999000.
Proof.
  intros b. pose proof (rate_limit_bound [(2000, 4096); (1000000, 2097152); (50000000, 2097152)] b) as H.
  specialize (H ltac:(split; cbn; unfold TOKEN_BUCKET_BURST_OPS, TOKEN_BUCKET_BURST_BYTES; lia)
                ltac:(cbn; lia)).
  destruct (bucket_run _ b) as [[ops bytes] b']. exact (proj2 H).
Defined.

(** Requests closer together than the time one operation token takes. *)
Fixpoint fast_poll (t : Z) (reqs : list (Z * Z)) : Prop :=
  match reqs with
  | [] => True
  | (now, len) :: reqs' => 0 <= now - t < 500000 /\ fast_poll now reqs'
  end.

(** Starvation: refused requests reset the clock of the bucket too, and a gap below 500 microseconds
    rounds to no token; so a guest that keeps asking at that pace gets only the operations it had tokens
    for, however long it goes on, although the configured rate is 2000 per second. *)
Theorem fast_poll_starves reqs b :
  fast_poll (cb_last_token_ns b) reqs -> 0 <= cb_op_tokens b ->
  fst (fst (bucket_run reqs b)) <= cb_op_tokens b.
Proof.
  revert b. induction reqs as [|[now len] reqs IH]; intros b Hf Hb; cbn [bucket_run]; [cbn; lia|].
  cbn in Hf. destruct Hf as [Hgap Hf].
  assert (Hr : cb_op_tokens (replenish now b) = cb_op_tokens b /\ cb_last_token_ns (replenish now b) = now).
  { split; [|done]. unfold replenish. cbn [cb_op_tokens]. rewrite (u64_id (now - cb_last_token_ns b)) by lia.
    unfold TOKEN_BUCKET_RATE_OPS. rewrite (u64_id (_ * 2000)) by lia.
    rewrite (Z.div_small (_ * 2000) 1000000000) by lia. done. }
  destruct Hr as [Ho Ht]. destruct (admit_tokens len (replenish now b)) as [b1 ok] eqn:Ea. unfold admit_tokens in Ea.
  rewrite Ho in Ea. destruct ((cb_op_tokens b <? 1) || _) eqn:Et; injection Ea as <- <-.
  - specialize (IH (replenish now b)). rewrite Ho, Ht in IH. specialize (IH Hf Hb).
    destruct (bucket_run reqs _) as [[ops bytes] b']. exact IH.
  - apply orb_false_iff in Et as [Et _]. bool_hyps. set (b1 := mk_cb _ _ _ _ _ _ _ _).
    assert (E1 : cb_last_token_ns b1 = now) by done. assert (E2 : cb_op_tokens b1 = cb_op_tokens b - 1) by done.
    specialize (IH b1). rewrite E1, E2 in IH. specialize (IH Hf ltac:(lia)).
    destruct (bucket_run reqs b1) as [[ops bytes] b']. cbn in IH |- *. lia.
Qed.

Lemma fast_poll_starves_witness :
  fst (fst (bucket_run [(100000, 1); (500000, 1); (900000, 1)] (mk_cb 3 0 77 2 (-1) 0 1 TOKEN_BUCKET_BURST_BYTES))) <= 1.
Proof. apply (fast_poll_starves [(100000, 1); (500000, 1); (900000, 1)]); cbn; lia. Defined.

(** The byte bucket is refilled in 32 bits before it is clamped: after 81.88 seconds without a request a
    full bucket is refilled to zero, and the next one-byte request is refused for quota. *)
Theorem idle_guest_loses_tokens :
  let b := fresh_binding 3 0 77 2 0 in
  cb_byte_tokens b = TOKEN_BUCKET_BURST_BYTES /\ cb_byte_tokens (replenish 81880000000 b) = 0 /\
  snd (admit_tokens 1 (replenish 81880000000 b)) = false.
Proof. vm_compute. repeat split; reflexivity. Qed.

(** ** Channels *)

Lemma acl_table_in_range :
  Forall (fun a => 3 <= ca_cid a /\ 11 <= ca_tx_channel a <= 16 /\ 11 <= ca_rx_channel a <= 16) g_dma_acl_table.
Proof. repeat constructor; cbn; lia. Qed.

Lemma channel_access_range cid channel :
  virt_dma_validate_channel_access cid channel = 0 -> 3 <= cid /\ 11 <= channel <= 16.
Proof.
  unfold virt_dma_validate_channel_access. destruct ((cid >=? 3) && _ && _) eqn:E; [bool_hyps; lia|].
  destruct (existsb _ _) eqn:Ht; [|done]. intros _. apply existsb_exists in Ht as (a & Ha & Hm).
  pose proof (proj1 (List.Forall_forall _ _) acl_table_in_range a Ha) as Hr. cbn beta in Hr.
  apply andb_true_iff in Hm as [Hc Hm]. apply orb_true_iff in Hm as [Hm|Hm]; lia.
Qed.

(** The channel authorisation is exactly: guest id at least 3 and channel 11 to 16. The per-guest channel
    table never decides anything, so every guest is authorised on the channels of every other guest. *)
Theorem channel_access_exact cid channel :
  virt_dma_validate_channel_access cid channel = 0 <-> 3 <= cid /\ 11 <= channel <= 16.
Proof.
  split; [apply channel_access_range|]. intros H. unfold virt_dma_validate_channel_access.
  destruct ((cid >=? 3) && _ && _) eqn:E; [done|]. apply not_true_iff_false in E. destruct E. rewrite !andb_true_iff. lia.
Qed.

Lemma buffer_bounds_spec off len win :
  is_u32 off -> is_u32 len -> 0 <= win < 2 ^ 64 ->
  virt_dma_validate_buffer_bounds off len win = 0 <-> 0 < len /\ off + len <= win.
Proof.
  intros Ho Hl Hw. unfold is_u32, virt_dma_validate_buffer_bounds in *. rewrite u64_id by lia.
  repeat if_case; bool_hyps; split; try done; try lia.
Qed.

Lemma neg_or_zero_access cid ch : (virt_dma_validate_channel_access cid ch <? 0) = false -> virt_dma_validate_channel_access cid ch = 0.
Proof. unfold virt_dma_validate_channel_access. repeat case_match; done. Qed.

Lemma neg_or_zero_bounds off len win :
  (virt_dma_validate_buffer_bounds off len win <? 0) = false -> virt_dma_validate_buffer_bounds off len win = 0.
Proof. unfold virt_dma_validate_buffer_bounds. repeat case_match; done. Qed.

(** A transfer the broker asks the host to run belongs to a guest that holds the slave DMA capability and
    is authorised on the channel, lies inside the tenant's shared window, is shorter than 4 MiB, and its
    channel, when it is one of the tracked ones, was idle. *)
Theorem submit_confined file created started cid base win req acl t xfer acl' t' :
  is_u32 (sb_buf_offset req) -> is_u32 (sb_buf_len req) -> 0 <= win -> 0 <= base -> base + win < 2 ^ 64 ->
  virt_dma_submit_begin file created started cid base win req acl t = (inr xfer, acl', t') ->
  3 <= cid /\ 11 <= xf_channel xfer <= 16 /\ fst (virt_acl_has_cap file cid AMBA_VIRT_CAP_DMA_SLAVE acl) = true /\
  base <= xf_buf_phys xfer /\ xf_buf_phys xfer + xf_buf_len xfer <= base + win /\
  0 < xf_buf_len xfer < 4 * 1024 * 1024 /\
  (xf_channel xfer < VIRT_DMA_MAX_CHANNELS ->
   forall c, g_channels t !! Z.to_nat (xf_channel xfer) = Some c -> c_active c = false).
Proof.
  intros Ho Hl Hw Hb0 Hb. unfold virt_dma_submit_begin.
  destruct (_ <? 0) eqn:E1; [done|]. apply neg_or_zero_access in E1.
  destruct (virt_acl_has_cap file cid AMBA_VIRT_CAP_DMA_SLAVE acl) as [ok acl1]. destruct ok; [cbn [negb]|done].
  destruct (virt_dma_validate_buffer_bounds _ _ _ <? 0) eqn:E2; [done|]. apply neg_or_zero_bounds in E2.
  destruct (sb_buf_len req >? _) eqn:E3; [done|].
  destruct ((sb_channel req <? VIRT_DMA_MAX_CHANNELS) && _) eqn:E4; [done|]. intros [= <- _ _].
  apply buffer_bounds_spec in E2; [|done|done|lia]. unfold is_u32, VIRT_DMA_MAX_TRANSFER_LEN in *. bool_hyps.
  cbn [xf_channel xf_buf_phys xf_buf_len fst]. rewrite u64_id by lia.
  pose proof (channel_access_range _ _ E1) as Hacc.
  split_and!; try done; try lia. intros Hlt c Hc. rewrite Hc in E4. apply andb_false_iff in E4 as [E4|E4]; bool_hyps; [lia|done].
Qed.

Definition acl_std : acl_state := mk_aclst (repeat acl_zero 16) true.
Definition chans0 : chan_table := mk_chans (repeat chst_zero 16) 0.
Definition demo_submit (ch : Z) : amba_virt_dma_submit := mk_submit ch 1 0x1000 64 1.

Lemma submit_confined_witness :
  match virt_dma_submit_begin None true true 4 0x100000 0x10000 (demo_submit 13) acl_std chans0 with
  | (inr xfer, _, _) => 0x100000 <= xf_buf_phys xfer
  | _ => False
  end.
Proof.
  destruct (virt_dma_submit_begin None true true 4 0x100000 0x10000 (demo_submit 13) acl_std chans0)
    as [[[rc|xfer] acl'] t'] eqn:E; [vm_compute in E; discriminate|].
  apply (submit_confined None true true 4 0x100000 0x10000 (demo_submit 13) acl_std chans0 xfer acl' t');
    [unfold is_u32; cbn; lia|unfold is_u32; cbn; lia|lia|lia|lia|exact E].
Defined.

(** Guest 4 submits on channel 13, terminates it while the host still runs it, guest 5 submits on the same
    channel, then the host returns to guest 4's thread. *)
Definition handover : chan_table :=
  let '(_, _, t1) := virt_dma_submit_begin None true true 4 0 0x10000 (demo_submit 13) acl_std chans0 in
  let '(_, t2) := virt_dma_handle_terminate 4 13 t1 in
  let '(_, _, t3) := virt_dma_submit_begin None true true 5 0 0x10000 (demo_submit 13) acl_std t2 in t3.

(** The end of a submission clears the channel without looking at who owns it: after a termination and a
    new submission by another guest, the first guest's return marks the second guest's transfer idle and
    stops its watchdog, so a third submission is accepted on the busy channel. *)
Theorem submit_end_clears_successor :
  (exists c, g_channels handover !! 13%nat = Some c /\ c_active c = true /\ c_owner_cid c = 5 /\ c_running c = true) /\
  (exists c, g_channels (virt_dma_submit_end (demo_submit 13) handover) !! 13%nat = Some c /\
             c_active c = false /\ c_owner_cid c = 5 /\ c_running c = false) /\
  exists xfer acl' t', virt_dma_submit_begin None true true 6 0 0x10000 (demo_submit 13) acl_std
                         (virt_dma_submit_end (demo_submit 13) handover) = (inr xfer, acl', t').
Proof.
  split; [eexists; vm_compute; repeat split; reflexivity|].
  split; [eexists; vm_compute; repeat split; reflexivity|]. do 3 eexists. vm_compute. reflexivity.
Qed.

(** ** Authenticated requests *)

(** A copy that stays inside both mappings. *)
Definition copy_inside (c : slice_copy) : Prop :=
  match c with CopyIn off len | CopyOut off len => 0 <= off /\ 0 <= len /\ off + len <= map_len end.

(** For offsets that leave room for a 32-bit length below 2^64, the copies between the lease slice and
    the shared window stay inside the 16 MiB mappings. *)
Theorem authenticated_copies_inside {K : Type} {dev : LeaseDevice K} opened mapped lease cap ep req (k : K) resp copies k' :
  0 <= rq_offset req -> rq_offset req + 2 ^ 32 <= 2 ^ 64 -> is_u32 (rq_length req) ->
  virt_dma_handle_authenticated_request opened mapped lease cap ep req k = (resp, copies, k') ->
  is_u32 (rs_transferred resp) ->
  Forall copy_inside copies.
Proof.
  intros H0 H1 H2 H Ht. unfold is_u32 in *. unfold virt_dma_handle_authenticated_request in H.
  destruct (opened <? 0); [injection H as _ <- _; constructor|].
  destruct (ioc_request _ _ _) as [k1 r]. injection H as <- <- _.
  apply Forall_app. split; case_match; try apply Forall_nil_2; (apply Forall_cons_2; [|apply Forall_nil_2]); bool_hyps;
    cbn; rewrite u64_id in * by lia; lia.
Qed.

Lemma authenticated_copies_inside_witness :
  match virt_dma_handle_authenticated_request (H := demo_kernel) 0 true 0 77 2 (mk_dreq 0 0 5 0 2 0x1000 64)
          (after_alloc 3 2 (boot demo_sd)) with
  | (_, copies, _) => copies = [CopyOut 0x1000 64] /\ Forall copy_inside copies
  end.
Proof.
  destruct (virt_dma_handle_authenticated_request (H := demo_kernel) 0 true 0 77 2 (mk_dreq 0 0 5 0 2 0x1000 64)
              (after_alloc 3 2 (boot demo_sd))) as [[resp copies] k'] eqn:E.
  split; [vm_compute in E; injection E as _ <- _; reflexivity|].
  apply (authenticated_copies_inside (dev := demo_kernel) 0 true 0 77 2 (mk_dreq 0 0 5 0 2 0x1000 64)
           (after_alloc 3 2 (boot demo_sd)) resp copies k'); try (unfold is_u32; cbn; lia); [exact E|].
  vm_compute in E. injection E as <- _ _. unfold is_u32. cbn. lia.
Defined.

(** The bound of the copy is tested on a 64-bit sum that wraps: an authenticated client that sends the
    offset 2^64 - 4096 passes the test, and the server copies 8 KiB from and to addresses that start 4 KiB
    before its mappings, before the kernel has looked at the request. *)
Theorem authenticated_copy_wraps {K : Type} {dev : LeaseDevice K} lease cap ep cookie (k : K) :
  let req := mk_dreq 0 0 cookie 0 AMBA_DMA_OP_MEM_TO_DEV (2 ^ 64 - 4096) 8192 in
  exists resp k', virt_dma_handle_authenticated_request 0 true lease cap ep req k =
                  (resp, [CopyIn (2 ^ 64 - 4096) 8192], k') /\ ~ copy_inside (CopyIn (2 ^ 64 - 4096) 8192).
Proof.
  intros req. unfold virt_dma_handle_authenticated_request. destruct (ioc_request _ _ _) as [k1 r].
  eexists _, _. split; [reflexivity|]. unfold copy_inside, map_len. lia.
Qed.
