(* ===== verification/ByteBuf.v ===== *)
(** * Buffers of bytes

    Code that parses memory a guest wrote reads a buffer of [length p] bytes: a read is [Val] of what is there, or
    [Oob] when it touches a byte outside the buffer. Integers in buffers are little-endian ([le_val]). *)

From stdpp Require Import base list.
From Stdlib Require Import ZArith Lia.
From S2P Require Import Prelude SliceArena.
Import SliceArena.

(** The value read, or a read outside the buffer. *)
Inductive rd (A : Type) : Type :=
| Val (a : A)
| Oob.
Arguments Val {A} a.
Arguments Oob {A}.

Definition rd_bind {A B : Type} (r : rd A) (f : A -> rd B) : rd B :=
  match r with Val a => f a | Oob => Oob end.

Declare Scope rd_scope.
Notation "'let*' x ':=' e 'in' k" := (rd_bind e (fun x => k))
  (at level 10, x binder, k at level 200) : rd_scope.

(** [p[i]]. *)
Definition byte_at (p : list Z) (i : nat) : rd Z :=
  match p !! i with Some b => Val b | None => Oob end.

(** The [m] bytes at [p + k], all of which [memcmp] (or the summing loop) may read. *)
Definition bytes_at (p : list Z) (k m : nat) : rd (list Z) :=
  if bool_decide (k + m <= length p)%nat then Val (take m (drop k p)) else Oob.

Fixpoint le_val (bs : list Z) : Z :=
  match bs with
  | [] => 0
  | b :: rest => b + 2 ^ 8 * le_val rest
  end.

(** The integer of [w] bytes at [p + k]. *)
Definition le_at (w : nat) (p : list Z) (k : nat) : rd Z :=
  match bytes_at p k w with Val bs => Val (le_val bs) | Oob => Oob end.
Definition u16_at : list Z -> nat -> rd Z := le_at 2.
Definition u32_at : list Z -> nat -> rd Z := le_at 4.
Definition u64_at : list Z -> nat -> rd Z := le_at 8.

(** ** Lemmas *)

Lemma le_val_bytes n z : le_val (le_bytes n z) = z mod 2 ^ (8 * Z.of_nat n).
Proof.
  revert z. induction n as [|n IH]; intros z; [cbn; by rewrite Z.mod_1_r|].
  cbn [le_bytes le_val]. rewrite IH. unfold u8. rewrite Z.shiftr_div_pow2 by lia.
  replace (8 * Z.of_nat (S n)) with (8 + 8 * Z.of_nat n) by lia. rewrite Z.pow_add_r by lia.
  rewrite Z.rem_mul_r by lia. lia.
Qed.

Lemma le_val_range bs : Forall is_u8 bs -> 0 <= le_val bs < 2 ^ (8 * Z.of_nat (length bs)).
Proof.
  induction 1 as [|b bs Hb _ IH]; [done|]. cbn [le_val length].
  replace (8 * Z.of_nat (S (length bs))) with (8 + 8 * Z.of_nat (length bs)) by lia. rewrite Z.pow_add_r by lia.
  unfold is_u8 in Hb. nia.
Qed.

Lemma bytes_at_Val p k m bs : bytes_at p k m = Val bs <-> (k + m <= length p)%nat /\ bs = take m (drop k p).
Proof. unfold bytes_at. case_bool_decide; split; [intros [= <-]|intros [_ ->]| |intros []]; done. Qed.

Lemma le_at_Val w p k z : le_at w p k = Val z <-> (k + w <= length p)%nat /\ z = le_val (take w (drop k p)).
Proof.
  unfold le_at, bytes_at. case_bool_decide; split; [intros [= <-]|intros [_ ->]| |intros []]; done.
Qed.

Lemma le_at_range w p k z : Forall is_u8 p -> le_at w p k = Val z -> 0 <= z < 2 ^ (8 * Z.of_nat w).
Proof.
  intros Hp [Hk ->]%le_at_Val. pose proof (le_val_range (take w (drop k p)) ltac:(by apply Forall_take, Forall_drop)) as Hr.
  by rewrite length_take_le in Hr by (rewrite length_drop; lia).
Qed.

Lemma rd_bind_Val {A B} (r : rd A) (f : A -> rd B) b : rd_bind r f = Val b <-> exists a, r = Val a /\ f a = Val b.
Proof. destruct r as [a|]; cbn; split; [by exists a|by intros (? & [= <-] & ?)|done|by intros (? & ? & _)]. Qed.

Lemma le_at_in w p k : (k + w <= length p)%nat -> exists z, le_at w p k = Val z.
Proof. intros Hk. exists (le_val (take w (drop k p))). by apply le_at_Val. Qed.

(** The values read on the way to a result. *)
Ltac rd_inv H :=
  repeat match type of H with
         | rd_bind _ _ = Val _ =>
             let v := fresh "v" in let E := fresh "Ev" in
             apply rd_bind_Val in H; destruct H as (v & E & H); cbv beta in H
         end.
