(* ===== verification/IavJpeg.v ===== *)
(** * The JPEG header check of the IAV policy (tools/iav_policy.c)

    Before a picture reaches the decoder of the DSP, the server reads its header (at most
    [IAV_JPEG_HEADER_MAX] bytes) and admits only the one kind of JPEG the decoder is known to take:
    [iav_jpeg_admit_info]. The header is memory the guest wrote, so this is a parser of hostile input: here
    every read goes through [byte_at] and [bytes_at], which fail outside the [n] bytes the caller gave, and the
    result says whether the parser read out of range, ran out of steps, refused or admitted. *)

From stdpp Require Import base list sorting.
From Stdlib Require Import ZArith Lia.
From S2P Require Import Prelude ByteBuf.

(** ** The four Huffman tables of ITU-T T.81 Annex K *)

Definition std_dht_dc_luma : list Z :=
  [0; 0; 1; 5; 1; 1; 1; 1; 1; 1; 0; 0; 0; 0; 0; 0; 0; 0; 1; 2; 3; 4; 5; 6;
   7; 8; 9; 10; 11].

Definition std_dht_dc_chroma : list Z :=
  [1; 0; 3; 1; 1; 1; 1; 1; 1; 1; 1; 1; 0; 0; 0; 0; 0; 0; 1; 2; 3; 4; 5; 6;
   7; 8; 9; 10; 11].

Definition std_dht_ac_luma : list Z :=
  [16; 0; 2; 1; 3; 3; 2; 4; 3; 5; 5; 4; 4; 0; 0; 1; 125; 1; 2; 3; 0; 4; 17; 5;
   18; 33; 49; 65; 6; 19; 81; 97; 7; 34; 113; 20; 50; 129; 145; 161; 8; 35; 66; 177; 193; 21; 82; 209;
   240; 36; 51; 98; 114; 130; 9; 10; 22; 23; 24; 25; 26; 37; 38; 39; 40; 41; 42; 52; 53; 54; 55; 56;
   57; 58; 67; 68; 69; 70; 71; 72; 73; 74; 83; 84; 85; 86; 87; 88; 89; 90; 99; 100; 101; 102; 103; 104;
   105; 106; 115; 116; 117; 118; 119; 120; 121; 122; 131; 132; 133; 134; 135; 136; 137; 138; 146; 147; 148; 149; 150; 151;
   152; 153; 154; 162; 163; 164; 165; 166; 167; 168; 169; 170; 178; 179; 180; 181; 182; 183; 184; 185; 186; 194; 195; 196;
   197; 198; 199; 200; 201; 202; 210; 211; 212; 213; 214; 215; 216; 217; 218; 225; 226; 227; 228; 229; 230; 231; 232; 233;
   234; 241; 242; 243; 244; 245; 246; 247; 248; 249; 250].

Definition std_dht_ac_chroma : list Z :=
  [17; 0; 2; 1; 2; 4; 4; 3; 4; 7; 5; 4; 4; 0; 1; 2; 119; 0; 1; 2; 3; 17; 4; 5;
   33; 49; 6; 18; 65; 81; 7; 97; 113; 19; 34; 50; 129; 8; 20; 66; 145; 161; 177; 193; 9; 35; 51; 82;
   240; 21; 98; 114; 209; 10; 22; 36; 52; 225; 37; 241; 23; 24; 25; 26; 38; 39; 40; 41; 42; 53; 54; 55;
   56; 57; 58; 67; 68; 69; 70; 71; 72; 73; 74; 83; 84; 85; 86; 87; 88; 89; 90; 99; 100; 101; 102; 103;
   104; 105; 106; 115; 116; 117; 118; 119; 120; 121; 122; 130; 131; 132; 133; 134; 135; 136; 137; 138; 146; 147; 148; 149;
   150; 151; 152; 153; 154; 162; 163; 164; 165; 166; 167; 168; 169; 170; 178; 179; 180; 181; 182; 183; 184; 185; 186; 194;
   195; 196; 197; 198; 199; 200; 201; 202; 210; 211; 212; 213; 214; 215; 216; 217; 218; 226; 227; 228; 229; 230; 231; 232;
   233; 234; 242; 243; 244; 245; 246; 247; 248; 249; 250].

Definition IAV_JPEG_HEADER_MAX : Z := 4096.
Definition IAV_JPEG_DHT_N : nat := 4.

(** [struct iav_jpeg_std_table] is the table with its length; the list carries its own. *)
Definition iav_jpeg_std_dht : list (list Z) :=
  [std_dht_dc_luma; std_dht_dc_chroma; std_dht_ac_luma; std_dht_ac_chroma].

(** The bytes the decoder writes for a picture: [w + 15u] is 32-bit arithmetic, the product 64-bit. *)
Definition iav_jpeg_decoded_bytes (w h : Z) (sub422 : bool) : Z :=
  let pix := u64 (u32 (u32 (w + 15) / 16 * 16) * u32 (u32 (h + 15) / 16 * 16)) in
  if sub422 then u64 (pix * 2) else u64 (pix * 3) / 2.

(** ** Reads of the header *)

Open Scope rd_scope.

(** A big-endian 16-bit field, [((unsigned int)p[k] << 8) | p[k + 1]]. *)
Definition be16_at (p : list Z) (k : nat) : rd Z :=
  let* hi := byte_at p k in
  let* lo := byte_at p (S k) in
  Val (Z.lor (Z.shiftl hi 8) lo).

(** What the header says once it is complete. *)
Record jpeg_info := { ji_w : Z; ji_h : Z; ji_422 : bool }.

(** The local variables of the loop over the segments ([i] apart). *)
Record jpeg_scan := {
  js_sof : bool; js_dqt : bool; js_app0 : bool; js_dht : Z;
  js_pw : Z; js_ph : Z; js_422 : bool }.

Definition jpeg_scan0 : jpeg_scan :=
  {| js_sof := false; js_dqt := false; js_app0 := false; js_dht := 0; js_pw := 0; js_ph := 0; js_422 := false |}.

(** The loop over the standard tables: the first one of this length whose bytes are those at [p + k]. *)
Fixpoint std_index (p : list Z) (k len t : nat) (tables : list (list Z)) : rd (option nat) :=
  match tables with
  | [] => Val None
  | tab :: rest =>
      if bool_decide (length tab = len) then
        let* b := bytes_at p k (length tab) in
        if bool_decide (b = tab) then Val (Some t) else std_index p k len (S t) rest
      else std_index p k len (S t) rest
  end.

(** How a loop over the bytes ends: no steps left, or its result ([None]: refused). *)
Inductive loop_end (A : Type) : Type :=
| No_fuel
| Ends (a : A).
Arguments No_fuel {A}.
Arguments Ends {A} a.

(** The tables of a DHT segment from [k] up to [stop]; the result is the new set of tables seen. *)
Fixpoint dht_loop (fuel : nat) (p : list Z) (k stop : nat) (dht : Z) : rd (loop_end (option Z)) :=
  match fuel with
  | O => Val No_fuel
  | S fuel' =>
      if negb (Nat.ltb k stop) then Val (Ends (Some dht))
      else if Nat.ltb (stop - k) 17 then Val (Ends None)
      else
        let* counts := bytes_at p (k + 1) 16 in
        let sum := u32 (sumZ id counts) in
        if (256 <? sum) || Nat.ltb (stop - k) (17 + Z.to_nat sum) then Val (Ends None)
        else
          let* found := std_index p k (17 + Z.to_nat sum) 0 iav_jpeg_std_dht in
          match found with
          | None => Val (Ends None)
          | Some t =>
              if Z.testbit dht (Z.of_nat t) then Val (Ends None)
              else dht_loop fuel' p (k + 17 + Z.to_nat sum) stop (Z.lor dht (Z.shiftl 1 (Z.of_nat t)))
          end
  end.

(** The SOF0 segment at [i]: its 15 bytes at [s = p + i + 4]. *)
Definition sof_segment (p : list Z) (i : nat) (len : Z) (st : jpeg_scan) : rd (option jpeg_scan) :=
  let s := (i + 4)%nat in
  if js_sof st || negb (len =? 8 + 3 * 3) then Val None
  else
    let* s0 := byte_at p s in
    if negb (s0 =? 8) then Val None
    else
      let* s5 := byte_at p (s + 5) in
      if negb (s5 =? 3) then Val None
      else
        let* h := be16_at p (s + 1) in
        let* w := be16_at p (s + 3) in
        if (h =? 0) || (w =? 0) || (16384 <? h) || (16384 <? w) then Val None
        else
          let* s7 := byte_at p (s + 7) in
          if negb (s7 =? 0x22) && negb (s7 =? 0x21) then Val None
          else
            let* s10 := byte_at p (s + 10) in
            if negb (s10 =? 0x11) then Val None
            else
              let* s13 := byte_at p (s + 13) in
              if negb (s13 =? 0x11) then Val None
              else Val (Some {| js_sof := true; js_dqt := js_dqt st; js_app0 := js_app0 st; js_dht := js_dht st;
                                js_pw := w; js_ph := h; js_422 := s7 =? 0x21 |}).

(** The APP0 segment at [i]: the bytes compared are "JFIF" and its zero. *)
Definition JFIF : list Z := [0x4a; 0x46; 0x49; 0x46; 0].

Definition app0_segment (p : list Z) (i : nat) (len : Z) (st : jpeg_scan) : rd (option jpeg_scan) :=
  if js_app0 st || (len <? 16) then Val None
  else
    let* id := bytes_at p (i + 4) 5 in
    if negb (bool_decide (id = JFIF)) then Val None
    else Val (Some {| js_sof := js_sof st; js_dqt := js_dqt st; js_app0 := true; js_dht := js_dht st;
                      js_pw := js_pw st; js_ph := js_ph st; js_422 := js_422 st |}).

Definition set_dht (st : jpeg_scan) (dht : Z) : jpeg_scan :=
  {| js_sof := js_sof st; js_dqt := js_dqt st; js_app0 := js_app0 st; js_dht := dht;
     js_pw := js_pw st; js_ph := js_ph st; js_422 := js_422 st |}.

Definition set_dqt (st : jpeg_scan) : jpeg_scan :=
  {| js_sof := js_sof st; js_dqt := true; js_app0 := js_app0 st; js_dht := js_dht st;
     js_pw := js_pw st; js_ph := js_ph st; js_422 := js_422 st |}.

(** One segment other than SOS. *)
Definition segment (p : list Z) (i : nat) (m len : Z) (st : jpeg_scan) : rd (loop_end (option jpeg_scan)) :=
  if m =? 0xC0 then let* r := sof_segment p i len st in Val (Ends r)
  else if m =? 0xDB then Val (Ends (Some (set_dqt st)))
  else if m =? 0xC4 then
    let stop := (i + 2 + Z.to_nat len)%nat in
    let* r := dht_loop (S (stop - (i + 4))) p (i + 4) stop (js_dht st) in
    Val match r with
        | No_fuel => No_fuel
        | Ends None => Ends None
        | Ends (Some dht) => Ends (Some (set_dht st dht))
        end
  else if m =? 0xE0 then let* r := app0_segment p i len st in Val (Ends r)
  else Val (Ends None).

(** The loop over the segments, from position [i]. *)
Fixpoint segment_loop (fuel : nat) (p : list Z) (i : nat) (st : jpeg_scan) : rd (loop_end (option jpeg_info)) :=
  match fuel with
  | O => Val No_fuel
  | S fuel' =>
      let n := length p in
      if negb (Nat.ltb (i + 1) n) then Val (Ends None)
      else
        let* ff := byte_at p i in
        if negb (ff =? 0xFF) then Val (Ends None)
        else
          let* m := byte_at p (i + 1) in
          if Nat.ltb n (i + 4) then Val (Ends None)
          else
            let* len := be16_at p (i + 2) in
            if (len <? 2) || Nat.ltb n (i + 2 + Z.to_nat len) then Val (Ends None)
            else if m =? 0xDA then
              Val (Ends (if js_sof st && js_dqt st && (js_dht st =? Z.shiftl 1 (Z.of_nat IAV_JPEG_DHT_N) - 1)
                         then Some {| ji_w := js_pw st; ji_h := js_ph st; ji_422 := js_422 st |}
                         else None))
            else
              let* r := segment p i m len st in
              match r with
              | No_fuel => Val No_fuel
              | Ends None => Val (Ends None)
              | Ends (Some st') => segment_loop fuel' p (i + 2 + Z.to_nat len) st'
              end
  end.

(** [iav_jpeg_admit_info(p, n, ...)] with [n] the length of the buffer; [None] stands for a null [p]. *)
Definition iav_jpeg_admit_info (p : option (list Z)) : rd (loop_end (option jpeg_info)) :=
  match p with
  | None => Val (Ends None)
  | Some p =>
      if Nat.ltb (length p) 4 then Val (Ends None)
      else
        let* p0 := byte_at p 0 in
        if negb (p0 =? 0xFF) then Val (Ends None)
        else
          let* p1 := byte_at p 1 in
          if negb (p1 =? 0xD8) then Val (Ends None)
          else segment_loop (length p) p 2 jpeg_scan0
  end.

(** The return value: 0 or [-EINVAL] ([None] when the parser did not end inside its buffer). *)
Definition iav_jpeg_admit (p : option (list Z)) : option Z :=
  match iav_jpeg_admit_info p with
  | Val (Ends (Some _)) => Some 0
  | Val (Ends None) => Some (- EINVAL)
  | _ => None
  end.
