(* ===== verification/IavJpegProps.v ===== *)
(** * What the JPEG header check guarantees

    [Module JpegProps]: the parser never reads outside the bytes it is given and always ends ([jpeg_parser_total]),
    and it admits exactly the headers of a grammar stated without it ([jpeg_admit_iff]). *)

From stdpp Require Import base list sorting.
From Stdlib Require Import ZArith Lia.
From S2P Require Import Prelude ByteBuf IavJpeg.

Module JpegProps.

Local Open Scope rd_scope.

(** ** Reads inside the buffer *)

Lemma byte_at_in p i : (i < length p)%nat -> exists b, p !! i = Some b /\ byte_at p i = Val b.
Proof.
  intros H. destruct (lookup_lt_is_Some_2 p i H) as [b Hb]. exists b. unfold byte_at. by rewrite Hb.
Qed.

Lemma byte_at_Val p i b : p !! i = Some b -> byte_at p i = Val b.
Proof. unfold byte_at. by intros ->. Qed.

Lemma bytes_at_in p k m : (k + m <= length p)%nat -> bytes_at p k m = Val (take m (drop k p)).
Proof. intros H. unfold bytes_at. by rewrite bool_decide_eq_true_2. Qed.

Lemma be16_at_in p k : (S k < length p)%nat -> exists v, be16_at p k = Val v.
Proof.
  intros H. unfold be16_at. destruct (byte_at_in p k) as (a & _ & ->); [lia|]. simpl.
  destruct (byte_at_in p (S k)) as (b & _ & ->); [lia|]. simpl. eauto.
Qed.

(** Take the next read of the goal, which the context shows to be inside the buffer. *)
Ltac read_in :=
  match goal with
  | |- context [byte_at ?p ?i] =>
      let b := fresh "b" in let E := fresh "E" in
      destruct (byte_at_in p i) as (b & E & ->); [lia|]; cbn [rd_bind]
  | |- context [be16_at ?p ?i] =>
      let v := fresh "v" in destruct (be16_at_in p i) as (v & ->); [lia|]; cbn [rd_bind]
  | |- context [bytes_at ?p ?i ?m] => rewrite (bytes_at_in p i m) by lia; cbn [rd_bind]
  end.

Ltac ends := first [ by eauto | eexists; reflexivity ].

Lemma std_index_total p k len t tables :
  (k + len <= length p)%nat -> exists r, std_index p k len t tables = Val r.
Proof.
  intros H. revert t. induction tables as [|tab rest IH]; intros t; cbn [std_index]; [ends|].
  case_bool_decide as E; [|apply IH]. read_in. case_bool_decide; [ends|apply IH].
Qed.

Lemma dht_loop_total fuel p k stop dht :
  (stop <= length p)%nat -> (stop - k < fuel)%nat -> exists r, dht_loop fuel p k stop dht = Val (Ends r).
Proof.
  intros Hs. revert k dht. induction fuel as [|fuel IH]; intros k dht Hf; [lia|]. cbn [dht_loop].
  destruct (Nat.ltb_spec k stop) as [Hk|Hk]; cbn [negb]; [|ends].
  destruct (Nat.ltb_spec (stop - k) 17) as [H17|H17]; [ends|]. read_in.
  set (sum := u32 _). destruct (256 <? sum) eqn:E1; [ends|]. cbn [orb].
  destruct (Nat.ltb_spec (stop - k) (17 + Z.to_nat sum)) as [Hl|Hl]; [ends|].
  destruct (std_index_total p k (17 + Z.to_nat sum) 0 iav_jpeg_std_dht) as [[t|] ->]; [lia| |ends].
  cbn [rd_bind]. destruct (Z.testbit dht _); [ends|]. apply IH. lia.
Qed.

Lemma sof_segment_total p i len st :
  (i + 2 + Z.to_nat len <= length p)%nat -> exists r, sof_segment p i len st = Val r.
Proof.
  intros H. unfold sof_segment. destruct (js_sof st); [ends|]. cbn [orb].
  destruct (len =? 8 + 3 * 3) eqn:E; cbn [negb]; [|ends]. apply Z.eqb_eq in E.
  assert (Hn : Z.to_nat len = 17%nat) by (subst len; reflexivity).
  repeat first [read_in | match goal with |- context [if ?c then _ else _] => destruct c end]; ends.
Qed.

Lemma segment_total p i m len st :
  (i + 4 <= length p)%nat -> (i + 2 + Z.to_nat len <= length p)%nat ->
  exists r, segment p i m len st = Val (Ends r).
Proof.
  intros H4 H. unfold segment.
  destruct (m =? 0xC0). { destruct (sof_segment_total p i len st) as [r ->]; [done|]. ends. }
  destruct (m =? 0xDB); [ends|].
  destruct (m =? 0xC4).
  { destruct (dht_loop_total (S (i + 2 + Z.to_nat len - (i + 4))) p (i + 4) (i + 2 + Z.to_nat len) (js_dht st))
      as [[d|] ->]; [lia|lia|ends|ends]. }
  destruct (m =? 0xE0); [|ends].
  unfold app0_segment. destruct (js_app0 st); [ends|]. cbn [orb].
  destruct (Z.ltb_spec len 16); [ends|]. read_in. case_bool_decide; ends.
Qed.

Lemma segment_loop_total fuel p i st :
  (length p - i < fuel)%nat -> exists r, segment_loop fuel p i st = Val (Ends r).
Proof.
  revert i st. induction fuel as [|fuel IH]; intros i st Hf; [lia|]. cbn [segment_loop].
  destruct (Nat.ltb_spec (i + 1) (length p)) as [Hi|Hi]; cbn [negb]; [|ends].
  read_in. destruct (_ =? 0xFF); cbn [negb]; [|ends]. read_in.
  destruct (Nat.ltb_spec (length p) (i + 4)) as [H4|H4]; [ends|].
  read_in. destruct (Z.ltb_spec v 2) as [Hv|Hv]; [ends|]. cbn [orb].
  destruct (Nat.ltb_spec (length p) (i + 2 + Z.to_nat v)) as [Hl|Hl]; [ends|].
  destruct (_ =? 0xDA); [ends|].
  destruct (segment_total p i b0 v st) as [[st'|] ->]; [lia|lia| |ends].
  cbn [rd_bind]. apply IH. lia.
Qed.

(** C40: the header parser run on any bytes, however hostile, ends without a read outside the buffer it was
    given; no hypothesis on the contents or the length is needed. *)
Theorem jpeg_parser_total (p : option (list Z)) : exists r, iav_jpeg_admit_info p = Val (Ends r).
Proof.
  destruct p as [p|]; [|ends]. unfold iav_jpeg_admit_info.
  destruct (Nat.ltb_spec (length p) 4) as [H|H]; [ends|]. read_in.
  destruct (_ =? 0xFF); cbn [negb]; [|ends]. read_in.
  destruct (_ =? 0xD8); cbn [negb]; [|ends]. apply segment_loop_total. lia.
Qed.

(** ** The grammar of an admitted header *)

(** A segment of the header, by what it means. *)
Inductive header_seg :=
| SegSof (w h s7 : Z) (ids : list Z)   (** SOF0; [ids] are the component ids and table selectors, any six bytes *)
| SegDqt (body : list Z)               (** quantization tables, any bytes *)
| SegDht (ts : list nat)               (** Huffman tables, by their index in [iav_jpeg_std_dht] *)
| SegApp0 (body : list Z).             (** the JFIF marker with what follows it *)

Definition std_table (t : nat) : list Z := default [] (iav_jpeg_std_dht !! t).

Definition seg_marker (s : header_seg) : Z :=
  match s with SegSof _ _ _ _ => 0xC0 | SegDqt _ => 0xDB | SegDht _ => 0xC4 | SegApp0 _ => 0xE0 end.

Definition seg_payload (s : header_seg) : list Z :=
  match s with
  | SegSof w h s7 ids =>
      let id j := default 0 (ids !! j) in
      [8; h / 256; h mod 256; w / 256; w mod 256; 3; id 0%nat; s7; id 1%nat; id 2%nat; 0x11; id 3%nat; id 4%nat;
       0x11; id 5%nat]
  | SegDqt body => body
  | SegDht ts => concat (map std_table ts)
  | SegApp0 body => JFIF ++ body
  end.

(** A marker segment: the marker, the length with its own two bytes, the payload. *)
Definition seg_len (s : header_seg) : Z := 2 + Z.of_nat (length (seg_payload s)).

Definition seg_bytes (s : header_seg) : list Z :=
  [0xFF; seg_marker s; seg_len s / 256; seg_len s mod 256] ++ seg_payload s.

Definition seg_ok (s : header_seg) : Prop :=
  seg_len s < 65536 /\
  match s with
  | SegSof w h s7 ids =>
      1 <= w <= 16384 /\ 1 <= h <= 16384 /\ (s7 = 0x22 \/ s7 = 0x21) /\ length ids = 6%nat
  | SegDqt _ => True
  | SegDht ts => Forall (fun t => (t < 4)%nat) ts
  | SegApp0 body => 9 <= Z.of_nat (length body)
  end.

Definition sof_of (s : header_seg) : list jpeg_info :=
  match s with SegSof w h s7 _ => [{| ji_w := w; ji_h := h; ji_422 := s7 =? 0x21 |}] | _ => [] end.
Definition dqt_of (s : header_seg) : list (list Z) := match s with SegDqt b => [b] | _ => [] end.
Definition dht_of (s : header_seg) : list nat := match s with SegDht ts => ts | _ => [] end.
Definition app0_of (s : header_seg) : list (list Z) := match s with SegApp0 b => [b] | _ => [] end.

(** The header as the decoder takes it: SOI, the segments in any order and number, with one SOF0, at least one
    DQT, at most one APP0, and each of the four standard Huffman tables exactly once over all the DHT segments;
    then an SOS segment that is complete in the bytes given, and anything after it. *)
Definition jpeg_header (p : list Z) (info : jpeg_info) : Prop :=
  exists (segs : list header_seg) (len : Z) (rest : list Z),
    p = [0xFF; 0xD8] ++ concat (map seg_bytes segs) ++ [0xFF; 0xDA; len / 256; len mod 256] ++ rest /\
    2 <= len < 65536 /\ len - 2 <= Z.of_nat (length rest) /\
    Forall seg_ok segs /\
    concat (map sof_of segs) = [info] /\
    concat (map dqt_of segs) <> [] /\
    concat (map dht_of segs) ≡ₚ [0; 1; 2; 3]%nat /\
    (length (concat (map app0_of segs)) <= 1)%nat.

(** ** The state of the scan after the segments *)

(** Adding tables to the set seen so far; a table seen already fails. *)
Fixpoint add_tables (d : Z) (ts : list nat) : option Z :=
  match ts with
  | [] => Some d
  | t :: ts' =>
      if Z.testbit d (Z.of_nat t) then None else add_tables (Z.lor d (Z.shiftl 1 (Z.of_nat t))) ts'
  end.

Definition seg_apply (st : jpeg_scan) (s : header_seg) : option jpeg_scan :=
  match s with
  | SegSof w h s7 _ =>
      if js_sof st then None
      else Some {| js_sof := true; js_dqt := js_dqt st; js_app0 := js_app0 st; js_dht := js_dht st;
                   js_pw := w; js_ph := h; js_422 := s7 =? 0x21 |}
  | SegDqt _ => Some (set_dqt st)
  | SegDht ts => set_dht st <$> add_tables (js_dht st) ts
  | SegApp0 _ =>
      if js_app0 st then None
      else Some {| js_sof := js_sof st; js_dqt := js_dqt st; js_app0 := true; js_dht := js_dht st;
                   js_pw := js_pw st; js_ph := js_ph st; js_422 := js_422 st |}
  end.

Fixpoint segs_apply (st : jpeg_scan) (segs : list header_seg) : option jpeg_scan :=
  match segs with
  | [] => Some st
  | s :: rest => match seg_apply st s with Some st' => segs_apply st' rest | None => None end
  end.

(** ** Reading at a known place *)

Lemma byte_at_drop p i l post j b :
  drop i p = l ++ post -> l !! j = Some b -> byte_at p (i + j) = Val b.
Proof.
  intros Hd Hj. apply byte_at_Val. rewrite <- lookup_drop, Hd. by apply lookup_app_l_Some.
Qed.

Lemma bytes_at_drop p i l post :
  drop i p = l ++ post -> (i <= length p)%nat -> bytes_at p i (length l) = Val l.
Proof.
  intros Hd Hi. assert (Hl : length (drop i p) = (length l + length post)%nat) by (rewrite Hd; by rewrite length_app).
  rewrite length_drop in Hl. rewrite bytes_at_in by lia. f_equal. rewrite Hd. by rewrite take_app_length.
Qed.

Lemma drop_drop_app {A} (p : list A) i l post : drop i p = l ++ post -> drop (i + length l) p = post.
Proof. intros H. rewrite <- drop_drop, H. by rewrite drop_app_length. Qed.

Lemma lor_be16 a b : 0 <= b < 256 -> Z.lor (Z.shiftl a 8) b = a * 256 + b.
Proof. intros Hb. by apply (shiftl_lor_add a b 8). Qed.

Lemma be16_at_drop p i l post j v :
  drop i p = l ++ post -> 0 <= v < 65536 -> l !! j = Some (v / 256) -> l !! S j = Some (v mod 256) ->
  be16_at p (i + j) = Val v.
Proof.
  intros Hd Hv H0 H1. unfold be16_at. rewrite (byte_at_drop p i l post j _ Hd H0). cbn [rd_bind].
  replace (S (i + j)) with (i + S j)%nat by lia. rewrite (byte_at_drop p i l post (S j) _ Hd H1). cbn [rd_bind].
  f_equal. rewrite lor_be16 by (apply Z.mod_pos_bound; lia). rewrite (Z.div_mod v 256) at 3 by lia. lia.
Qed.

(** ** The tables *)

Lemma std_table_counts t :
  (t < 4)%nat ->
  sumZ id (take 16 (drop 1 (std_table t))) = Z.of_nat (length (std_table t)) - 17 /\
  (17 <= length (std_table t) <= 200)%nat.
Proof.
  intros H. do 4 (destruct t as [|t]; [vm_compute; by repeat split; try lia|]). lia.
Qed.

Lemma std_tables_distinct : NoDup iav_jpeg_std_dht.
Proof. apply (bool_decide_eq_true_1 (NoDup iav_jpeg_std_dht)). vm_compute. reflexivity. Qed.

Lemma std_index_Some p k len t0 tables t :
  std_index p k len t0 tables = Val (Some t) ->
  exists tab, (t0 <= t)%nat /\ tables !! (t - t0)%nat = Some tab /\ length tab = len /\ take len (drop k p) = tab.
Proof.
  revert t0. induction tables as [|tab rest IH]; intros t0; cbn [std_index]; [done|].
  assert (Hrest : std_index p k len (S t0) rest = Val (Some t) ->
    exists tab', (t0 <= t)%nat /\ (tab :: rest) !! (t - t0)%nat = Some tab' /\ length tab' = len /\
                 take len (drop k p) = tab').
  { intros H. apply IH in H as (tab' & Ht & Hl & H1 & H2). exists tab'. split; [lia|]. split; [|done].
    replace (t - t0)%nat with (S (t - S t0)) by lia. done. }
  case_bool_decide as E; [|done]. unfold bytes_at. case_bool_decide as E2; cbn [rd_bind]; [|done].
  case_bool_decide as E3; [|done]. intros [= <-]. exists tab. rewrite Nat.sub_diag. split_and!; try done.
  by rewrite <- E.
Qed.

Lemma std_index_found p k t0 tables t tab post :
  (k <= length p)%nat -> drop k p = tab ++ post -> NoDup tables -> tables !! t = Some tab ->
  std_index p k (length tab) t0 tables = Val (Some (t0 + t)%nat).
Proof.
  intros Hk Hd. revert t0 t. induction tables as [|tab0 rest IH]; intros t0 t Hnd Ht; [done|].
  apply NoDup_cons in Hnd as [Hnin Hnd]. cbn [std_index]. destruct t as [|t]; simpl in Ht.
  - injection Ht as ->. rewrite bool_decide_eq_true_2 by done. rewrite (bytes_at_drop p k tab post) by done.
    cbn [rd_bind]. rewrite bool_decide_eq_true_2 by done. by rewrite Nat.add_0_r.
  - assert (Hne : tab <> tab0) by (intros ->; apply Hnin; by eapply list_elem_of_lookup_2).
    rewrite (IH (S t0) t) by done. replace (S t0 + t)%nat with (t0 + S t)%nat by lia.
    case_bool_decide as E; [|done]. rewrite E, (bytes_at_drop p k tab post) by done. cbn [rd_bind].
    by rewrite bool_decide_eq_false_2.
Qed.

Lemma std_table_lookup t : (t < 4)%nat -> iav_jpeg_std_dht !! t = Some (std_table t).
Proof. intros H. do 4 (destruct t as [|t]; [done|]). lia. Qed.

Lemma tables_length ts : Forall (fun t => (t < 4)%nat) ts -> (length ts <= length (concat (map std_table ts)))%nat.
Proof.
  induction 1 as [|t ts Ht _ IH]; cbn [map concat]; [done|]. rewrite length_app. cbn [length].
  destruct (std_table_counts t Ht). lia.
Qed.

(** The tables of a DHT segment, read one after the other, are those of the segment. *)
Lemma dht_loop_read p post ts k d fuel :
  Forall (fun t => (t < 4)%nat) ts -> (k <= length p)%nat -> drop k p = concat (map std_table ts) ++ post ->
  (length ts < fuel)%nat ->
  dht_loop fuel p k (k + length (concat (map std_table ts))) d = Val (Ends (add_tables d ts)).
Proof.
  intros Hts. revert k d fuel. induction Hts as [|t ts Ht Hts IH]; intros k d fuel Hk Hd Hf;
    (destruct fuel as [|fuel]; [simpl in Hf; lia|]); cbn [dht_loop map concat add_tables length].
  - rewrite Nat.add_0_r, Nat.ltb_irrefl. done.
  - destruct (std_table_counts t Ht) as [Hsum Hlen]. cbn [map concat] in Hd. rewrite <- app_assoc in Hd.
    set (tail := concat (map std_table ts)) in *. rewrite length_app.
    assert (Hin : (k + length (std_table t) + length tail <= length p)%nat).
    { assert (Hl : length (drop k p) = length (std_table t ++ tail ++ post)) by by rewrite Hd.
      rewrite length_drop, !length_app in Hl. lia. }
    rewrite (proj2 (Nat.ltb_lt k _)) by lia. cbn [negb]. rewrite (proj2 (Nat.ltb_ge _ 17)) by lia.
    rewrite bytes_at_in by lia. cbn [rd_bind].
    replace (take 16 (drop (k + 1) p)) with (take 16 (drop 1 (std_table t))).
    2:{ rewrite <- drop_drop, Hd, drop_app_le, take_app_le; [done|rewrite length_drop; lia|lia]. }
    rewrite Hsum, u32_id by lia. replace (17 + Z.to_nat (Z.of_nat (length (std_table t)) - 17))%nat
      with (length (std_table t)) by lia.
    rewrite (proj2 (Z.ltb_ge 256 _)) by lia. cbn [orb].
    rewrite (proj2 (Nat.ltb_ge _ (length (std_table t)))) by lia.
    rewrite (std_index_found p k 0 iav_jpeg_std_dht t (std_table t) (tail ++ post) Hk Hd std_tables_distinct
               (std_table_lookup t Ht)). cbn [rd_bind]. rewrite Nat.add_0_l.
    destruct (Z.testbit d (Z.of_nat t)); [done|].
    replace (k + 17 + Z.to_nat (Z.of_nat (length (std_table t)) - 17))%nat with (k + length (std_table t))%nat by lia.
    rewrite Nat.add_assoc. apply IH; [lia| |simpl in Hf; lia]. by apply (drop_drop_app p k (std_table t)).
Qed.

(** Conversely a DHT segment that is accepted is made of standard tables. *)
Lemma dht_loop_accepts fuel p k stop d d' :
  (k <= stop)%nat -> (stop <= length p)%nat -> dht_loop fuel p k stop d = Val (Ends (Some d')) ->
  exists ts, Forall (fun t => (t < 4)%nat) ts /\ take (stop - k) (drop k p) = concat (map std_table ts) /\
             add_tables d ts = Some d'.
Proof.
  intros Hks Hs. revert k d Hks. induction fuel as [|fuel IH]; intros k d Hks; [done|]. cbn [dht_loop].
  destruct (Nat.ltb_spec k stop) as [Hk|Hk]; cbn [negb].
  2:{ intros [= <-]. exists []. by replace (stop - k)%nat with 0%nat by lia. }
  destruct (Nat.ltb_spec (stop - k) 17) as [H17|H17]; [done|]. rewrite bytes_at_in by lia. cbn [rd_bind].
  set (sum := u32 _). destruct (256 <? sum); [done|]. cbn [orb].
  destruct (Nat.ltb_spec (stop - k) (17 + Z.to_nat sum)) as [Hl|Hl]; [done|].
  destruct (std_index p k _ 0 _) as [[t|]|] eqn:Ei; cbn [rd_bind]; try done.
  apply std_index_Some in Ei as (tab & _ & Ht & Hlen & Htake). rewrite Nat.sub_0_r in Ht.
  assert (Ht4 : (t < 4)%nat) by (by apply lookup_lt_Some in Ht).
  rewrite std_table_lookup in Ht by done. injection Ht as <-.
  destruct (Z.testbit d (Z.of_nat t)) eqn:Et; [done|]. intros H.
  apply IH in H as (ts & Hts & Htk & Hadd); [|lia]. exists (t :: ts).
  split; [by constructor|]. split; [|by cbn [add_tables]; rewrite Et]. cbn [map concat]. rewrite <- Htk, <- Htake.
  replace (k + 17 + Z.to_nat sum)%nat with (k + (17 + Z.to_nat sum))%nat by lia.
  rewrite <- drop_drop, take_take_drop. f_equal. lia.
Qed.

(** ** One segment *)

(** A segment of the grammar is processed as [seg_apply] says. *)
Lemma segment_read p i s post st :
  seg_ok s -> (i <= length p)%nat -> drop i p = seg_bytes s ++ post ->
  segment p i (seg_marker s) (seg_len s) st = Val (Ends (seg_apply st s)).
Proof.
  intros [Hlen Hok] Hi Hd. unfold seg_bytes in Hd. rewrite <- app_assoc in Hd.
  pose proof (drop_drop_app p i _ _ Hd) as Hd4. cbn [length] in Hd4.
  assert (Hin : (i + 4 <= length p)%nat).
  { assert (Hl : length (drop i p) = length ([0xFF; seg_marker s; seg_len s / 256; seg_len s mod 256] ++
      seg_payload s ++ post)) by by rewrite Hd.
    rewrite length_drop, !length_app in Hl. cbn [length] in Hl. lia. }
  assert (Hstop : (i + 2 + Z.to_nat (seg_len s) = i + 4 + length (seg_payload s))%nat) by (unfold seg_len; lia).
  unfold segment. rewrite Hstop. destruct s as [w h s7 ids|body|ts|body]; cbn [seg_marker seg_apply].
  - cbn [Z.eqb]. change (0xC0 =? 0xC0) with true. cbv iota. unfold sof_segment.
    destruct (js_sof st); [done|]. change (seg_len _ =? 8 + 3 * 3) with true. cbn [orb negb].
    destruct Hok as (Hw & Hh & Hs7 & _).
    rewrite <- (Nat.add_0_r (i + 4)) at 1. rewrite (byte_at_drop p _ _ _ 0 8 Hd4) by done. cbn [rd_bind Z.eqb negb].
    change (negb (8 =? 8)) with false. cbv iota.
    rewrite (byte_at_drop p _ _ _ 5 3 Hd4) by done. cbn [rd_bind]. change (negb (3 =? 3)) with false. cbv iota.
    rewrite (be16_at_drop p _ _ _ 1 h Hd4) by (done || lia). cbn [rd_bind].
    rewrite (be16_at_drop p _ _ _ 3 w Hd4) by (done || lia). cbn [rd_bind].
    assert (Hb : (h =? 0) || (w =? 0) || (16384 <? h) || (16384 <? w) = false) by lia. rewrite Hb.
    rewrite (byte_at_drop p _ _ _ 7 s7 Hd4) by done. cbn [rd_bind].
    assert (H7 : negb (s7 =? 0x22) && negb (s7 =? 0x21) = false) by lia. rewrite H7.
    rewrite (byte_at_drop p _ _ _ 10 0x11 Hd4) by done. cbn [rd_bind]. change (negb (0x11 =? 0x11)) with false. cbv iota.
    rewrite (byte_at_drop p _ _ _ 13 0x11 Hd4) by done. cbn [rd_bind]. by change (negb (0x11 =? 0x11)) with false.
  - done.
  - change (0xC4 =? 0xC0) with false. change (0xC4 =? 0xDB) with false. change (0xC4 =? 0xC4) with true. cbv iota.
    cbn [seg_payload] in *.
    rewrite (dht_loop_read p post ts (i + 4) (js_dht st)); [|done|done|done|].
    + cbn [rd_bind]. by destruct (add_tables (js_dht st) ts).
    + pose proof (tables_length ts Hok). lia.
  - change (0xE0 =? 0xC0) with false. change (0xE0 =? 0xDB) with false. change (0xE0 =? 0xC4) with false.
    change (0xE0 =? 0xE0) with true. cbv iota. unfold app0_segment. destruct (js_app0 st); [done|]. cbn [orb].
    rewrite (proj2 (Z.ltb_ge (seg_len _) 16)) by (unfold seg_len; cbn [seg_payload]; rewrite length_app; cbn [length JFIF]; lia).
    cbn [seg_payload] in Hd4. rewrite <- app_assoc in Hd4.
    change 5%nat with (length JFIF). rewrite (bytes_at_drop p (i + 4) JFIF (body ++ post)) by done. cbn [rd_bind].
    by rewrite bool_decide_eq_true_2.
Qed.

Lemma be16_parts a b : is_u8 a -> is_u8 b ->
  Z.lor (Z.shiftl a 8) b / 256 = a /\ Z.lor (Z.shiftl a 8) b mod 256 = b /\ 0 <= Z.lor (Z.shiftl a 8) b < 65536.
Proof.
  unfold is_u8. change (2 ^ 8) with 256. intros Ha Hb. rewrite lor_be16 by lia.
  split; [rewrite Z.div_add_l, (Z.div_small b) by lia; lia|].
  split; [rewrite Z.add_comm, Z.mod_add by lia; by apply Z.mod_small|lia].
Qed.

(** A 15-byte payload that passes the SOF0 checks. *)
Lemma sof_segment_accepts p i st st' l post :
  Forall is_u8 l -> length l = 15%nat -> drop (i + 4) p = l ++ post ->
  sof_segment p i 17 st = Val (Some st') ->
  exists w h s7 ids, seg_ok (SegSof w h s7 ids) /\ l = seg_payload (SegSof w h s7 ids) /\
                     seg_apply st (SegSof w h s7 ids) = Some st'.
Proof.
  intros Hu Hl Hd. do 15 (destruct l as [|? l]; [done|]). destruct l; [clear Hl|done].
  pose proof (fun j b => byte_at_drop p (i + 4) _ post j b Hd) as Hb.
  unfold sof_segment, be16_at. replace (i + 4)%nat with (i + 4 + 0)%nat at 1 by lia.
  rewrite <- !(Nat.add_succ_r (i + 4)). 
  repeat (match goal with |- context [byte_at p (i + 4 + ?j)] => rewrite (Hb j _ eq_refl) end; cbn [rd_bind]).
  cbn [seg_apply]. destruct (js_sof st); [done|]. change (17 =? 8 + 3 * 3) with true. cbn [orb negb].
  repeat match goal with |- (if ?c then _ else _) = _ -> _ => destruct c eqn:? end; try done.
  intros [= <-]. repeat match goal with H : Forall _ (_ :: _) |- _ => apply Forall_cons in H as [? H] end.
  destruct (be16_parts z0 z1) as (Eh1 & Eh2 & ?); [done..|]. destruct (be16_parts z2 z3) as (Ew1 & Ew2 & ?); [done..|].
  exists (Z.lor (Z.shiftl z2 8) z3), (Z.lor (Z.shiftl z0 8) z1), z6, [z5; z7; z8; z10; z11; z13].
  split; [split; [reflexivity|split_and!; (lia || done)]|]. split; [|done].
  cbn [seg_payload default lookup list_lookup]. rewrite Eh1, Eh2, Ew1, Ew2. repeat f_equal; lia.
Qed.

(** A segment that is accepted is one of the grammar, and leaves the state [seg_apply] computes. *)
Lemma segment_accepts p i m len st st' :
  Forall is_u8 p -> 2 <= len < 65536 -> (i + 4 <= length p)%nat -> (i + 2 + Z.to_nat len <= length p)%nat ->
  segment p i m len st = Val (Ends (Some st')) ->
  exists s, seg_ok s /\ seg_marker s = m /\ seg_len s = len /\
            take (Z.to_nat len - 2) (drop (i + 4) p) = seg_payload s /\ seg_apply st s = Some st'.
Proof.
  intros Hu Hlen Hi Hin. unfold segment.
  set (l := take (Z.to_nat len - 2) (drop (i + 4) p)).
  assert (Hl : length l = (Z.to_nat len - 2)%nat) by (unfold l; rewrite length_take, length_drop; lia).
  assert (Hd : drop (i + 4) p = l ++ drop (Z.to_nat len - 2) (drop (i + 4) p)) by (symmetry; apply take_drop).
  destruct (m =? 0xC0) eqn:E0.
  { destruct (sof_segment p i len st) as [[x|]|] eqn:Es; cbn [rd_bind]; try done. intros [= ->].
    assert (len = 17) as ->.
    { unfold sof_segment in Es. destruct (js_sof st); [done|]. destruct (len =? 8 + 3 * 3) eqn:E; [lia|done]. }
    eapply sof_segment_accepts in Es as (w & h & s7 & ids & Hok & -> & Ha); [| |done|exact Hd].
    - exists (SegSof w h s7 ids). split_and!; try done. cbn [seg_marker]. lia.
    - unfold l. by apply Forall_take, Forall_drop. }
  destruct (m =? 0xDB) eqn:E1.
  { intros [= <-]. exists (SegDqt l). unfold seg_ok, seg_len. cbn [seg_payload seg_marker]. split_and!; try done; lia. }
  destruct (m =? 0xC4) eqn:E2.
  { destruct (dht_loop _ p (i + 4) _ _) as [[|[d|]]|] eqn:Ed; cbn [rd_bind]; try done. intros [= <-].
    apply dht_loop_accepts in Ed as (ts & Hts & Htk & Ha); [|lia|lia].
    replace (i + 2 + Z.to_nat len - (i + 4))%nat with (Z.to_nat len - 2)%nat in Htk by lia. fold l in Htk.
    exists (SegDht ts). unfold seg_ok, seg_len. cbn [seg_payload seg_marker seg_apply]. rewrite <- Htk, Ha.
    split_and!; try done; lia. }
  destruct (m =? 0xE0) eqn:E3; [|done].
  unfold app0_segment. cbn [seg_apply]. destruct (js_app0 st) eqn:Ea; [done|]. cbn [orb].
  destruct (Z.ltb_spec len 16) as [|H16]; [done|]. rewrite bytes_at_in by lia. cbn [rd_bind].
  case_bool_decide as Ej; [|done]. cbn [negb rd_bind]. intros [= <-].
  assert (Hl5 : l = JFIF ++ drop 5 l).
  { rewrite <- (take_drop 5 l) at 1. f_equal. unfold l. rewrite take_take. by replace (5 `min` _)%nat with 5%nat by lia. }
  exists (SegApp0 (drop 5 l)). unfold seg_ok, seg_len. cbn [seg_payload seg_marker seg_apply].
  rewrite <- Hl5, Ea, length_drop. split_and!; try done; lia.
Qed.

(** ** The whole header *)

(** The SOS test at the end of the header. *)
Definition scan_end (st : jpeg_scan) : option jpeg_info :=
  if js_sof st && js_dqt st && (js_dht st =? 15)
  then Some {| ji_w := js_pw st; ji_h := js_ph st; ji_422 := js_422 st |} else None.

Lemma segment_loop_read fuel p i st segs len rest :
  (i <= length p)%nat ->
  drop i p = concat (map seg_bytes segs) ++ [0xFF; 0xDA; len / 256; len mod 256] ++ rest ->
  2 <= len < 65536 -> len - 2 <= Z.of_nat (length rest) -> Forall seg_ok segs -> (length segs < fuel)%nat ->
  segment_loop fuel p i st = Val (Ends (segs_apply st segs ≫= scan_end)).
Proof.
  intros Hi Hd Hlen Hrest Hok. revert fuel i st Hi Hd.
  induction Hok as [|s segs Hs Hok IH]; intros fuel i st Hi Hd Hf; (destruct fuel as [|fuel]; [simpl in Hf; lia|]);
    cbn [segment_loop map concat segs_apply] in *.
  - assert (Hl : (length p - i = 4 + length rest)%nat) by (rewrite <- length_drop, Hd; done).
    rewrite (proj2 (Nat.ltb_lt (i + 1) _)) by lia. cbn [negb app] in *.
    rewrite <- (Nat.add_0_r i) at 1.
    rewrite (byte_at_drop p i [0xFF; 0xDA; len / 256; len mod 256] rest 0 0xFF Hd) by done. cbn [rd_bind].
    change (negb (0xFF =? 0xFF)) with false. cbv iota.
    rewrite (byte_at_drop p i [0xFF; 0xDA; len / 256; len mod 256] rest 1 0xDA Hd) by done. cbn [rd_bind].
    rewrite (proj2 (Nat.ltb_ge _ (i + 4))) by lia.
    rewrite (be16_at_drop p i [0xFF; 0xDA; len / 256; len mod 256] rest 2 len Hd) by (done || lia). cbn [rd_bind].
    rewrite (proj2 (Z.ltb_ge len 2)) by lia. rewrite (proj2 (Nat.ltb_ge _ (i + 2 + Z.to_nat len))) by lia. done.
  - rewrite <- app_assoc in Hd. set (post := concat _ ++ _) in *.
    pose proof Hs as [Hls _]. assert (Hls2 : 2 <= seg_len s) by (unfold seg_len; lia).
    assert (Hsz : length (seg_bytes s) = (2 + Z.to_nat (seg_len s))%nat)
      by (unfold seg_bytes, seg_len; rewrite length_app; cbn [length]; lia).
    assert (Hl : (length p - i = 2 + Z.to_nat (seg_len s) + length post)%nat)
      by (rewrite <- length_drop, Hd, length_app; lia).
    rewrite (proj2 (Nat.ltb_lt (i + 1) _)) by lia. cbn [negb].
    rewrite <- (Nat.add_0_r i) at 1. rewrite (byte_at_drop p i (seg_bytes s) post 0 0xFF Hd) by done. cbn [rd_bind].
    change (negb (0xFF =? 0xFF)) with false. cbv iota.
    rewrite (byte_at_drop p i (seg_bytes s) post 1 (seg_marker s) Hd) by done. cbn [rd_bind].
    rewrite (proj2 (Nat.ltb_ge _ (i + 4))) by lia.
    rewrite (be16_at_drop p i (seg_bytes s) post 2 (seg_len s) Hd) by (done || lia). cbn [rd_bind].
    rewrite (proj2 (Z.ltb_ge (seg_len s) 2)) by lia. cbn [orb].
    rewrite (proj2 (Nat.ltb_ge _ (i + 2 + Z.to_nat (seg_len s)))) by lia.
    assert (Hm : (seg_marker s =? 0xDA) = false) by (by destruct s). rewrite Hm.
    rewrite (segment_read p i s post st) by done. cbn [rd_bind].
    destruct (seg_apply st s) as [st'|]; [|done].
    apply IH; [lia| |simpl in Hf; lia].
    replace (i + 2 + Z.to_nat (seg_len s))%nat with (i + length (seg_bytes s))%nat by lia.
    by apply (drop_drop_app p i (seg_bytes s)).
Qed.

Lemma segment_loop_accepts fuel p i st info :
  Forall is_u8 p -> segment_loop fuel p i st = Val (Ends (Some info)) ->
  exists segs len rest,
    drop i p = concat (map seg_bytes segs) ++ [0xFF; 0xDA; len / 256; len mod 256] ++ rest /\
    2 <= len < 65536 /\ len - 2 <= Z.of_nat (length rest) /\ Forall seg_ok segs /\
    segs_apply st segs ≫= scan_end = Some info.
Proof.
  intros Hu. revert i st. induction fuel as [|fuel IH]; intros i st; [done|]. cbn [segment_loop].
  destruct (Nat.ltb_spec (i + 1) (length p)) as [Hi|]; cbn [negb]; [|done].
  destruct (byte_at_in p i) as (ff & Eff & ->); [lia|]. cbn [rd_bind].
  destruct (Z.eqb_spec ff 0xFF) as [->|]; cbn [negb]; [|done].
  destruct (byte_at_in p (i + 1)) as (m & Em & ->); [lia|]. cbn [rd_bind].
  destruct (Nat.ltb_spec (length p) (i + 4)) as [|H4]; [done|].
  unfold be16_at. destruct (byte_at_in p (i + 2)) as (hi & Ehi & ->); [lia|]. cbn [rd_bind].
  destruct (byte_at_in p (S (i + 2))) as (lo & Elo & ->); [lia|]. cbn [rd_bind].
  destruct (be16_parts hi lo) as (Hhi & Hlo & Hlen); [by eapply Forall_lookup_1..|].
  set (len := Z.lor (Z.shiftl hi 8) lo) in *.
  destruct (Z.ltb_spec len 2) as [|Hlen2]; [done|]. cbn [orb].
  destruct (Nat.ltb_spec (length p) (i + 2 + Z.to_nat len)) as [|Hin]; [done|].
  assert (Hd : drop i p = [0xFF; m; len / 256; len mod 256] ++ drop (i + 4) p).
  { rewrite Hhi, Hlo, (drop_S p 0xFF i Eff), (drop_S p m (S i)), (drop_S p hi (S (S i))), (drop_S p lo (S (S (S i))));
      [by replace (S (S (S (S i)))) with (i + 4)%nat by lia|..]; first [by replace (S (S (S i))) with (S (i + 2)) by lia
      |by replace (S (S i)) with (i + 2)%nat by lia|by replace (S i) with (i + 1)%nat by lia]. }
  destruct (Z.eqb_spec m 0xDA) as [->|Hm].
  - intros [= Hend]. exists [], len, (drop (i + 4) p). split; [done|]. split; [lia|].
    rewrite length_drop. split; [lia|]. split; [constructor|]. done.
  - destruct (segment p i m len st) as [[|[st'|]]|] eqn:Es; cbn [rd_bind]; try done. intros Hloop.
    apply segment_accepts in Es as (s & Hok & <- & Hsl & Htk & Ha); [|done|lia|lia|lia].
    apply IH in Hloop as (segs & len' & rest & Hd' & Hl' & Hr' & Hoks & Hap).
    exists (s :: segs), len', rest. 
    split; [|split; [done|]; split; [done|]; split; [by constructor|]; cbn [segs_apply]; by rewrite Ha].
    cbn [map concat]. rewrite Hd. unfold seg_bytes at 1. rewrite Hsl, <- Htk, <- !app_assoc, <- Hd'. f_equal.
    rewrite <- (take_drop (Z.to_nat len - 2) (drop (i + 4) p)) at 1. f_equal. rewrite drop_drop. f_equal. lia.
Qed.

(** ** The state after the segments, as the grammar counts *)

Definition info_of (st : jpeg_scan) : list jpeg_info :=
  if js_sof st then [{| ji_w := js_pw st; ji_h := js_ph st; ji_422 := js_422 st |}] else [].

Definition app0_count (st : jpeg_scan) : nat := if js_app0 st then 1 else 0.

Lemma add_tables_app d ts1 ts2 : add_tables d (ts1 ++ ts2) = add_tables d ts1 ≫= (fun d' => add_tables d' ts2).
Proof. revert d. induction ts1 as [|t ts1 IH]; intros d; [done|]. cbn. destruct (Z.testbit d _); [done|apply IH]. Qed.

Lemma segs_apply_Some st segs st' :
  segs_apply st segs = Some st' ->
  info_of st' = info_of st ++ concat (map sof_of segs) /\
  js_dqt st' = js_dqt st || negb (bool_decide (concat (map dqt_of segs) = [])) /\
  add_tables (js_dht st) (concat (map dht_of segs)) = Some (js_dht st') /\
  (app0_count st + length (concat (map app0_of segs)) = app0_count st')%nat.
Proof.
  revert st. induction segs as [|s segs IH]; intros st; cbn [segs_apply map concat].
  { intros [= <-]. rewrite app_nil_r, orb_false_r, Nat.add_0_r. done. }
  destruct (seg_apply st s) as [st1|] eqn:E; [|done]. intros H. apply IH in H as (Hi & Hq & Ht & Ha). clear IH.
  rewrite Hi, Hq, <- Ha. unfold info_of, app0_count in *.
  destruct s as [w h s7 ids|b|ts|b]; cbn [seg_apply sof_of dqt_of dht_of app0_of app] in *.
  - destruct (js_sof st); [done|]. injection E as <-. done.
  - injection E as <-. cbn. by rewrite orb_true_r.
  - destruct (add_tables (js_dht st) ts) as [d|] eqn:Ed; [|done]. injection E as <-.
    rewrite add_tables_app, Ed. done.
  - destruct (js_app0 st); [done|]. injection E as <-. cbn in *. split_and!; try done.
Qed.

Lemma segs_apply_defined st segs d :
  (length (info_of st ++ concat (map sof_of segs)) <= 1)%nat ->
  add_tables (js_dht st) (concat (map dht_of segs)) = Some d ->
  (app0_count st + length (concat (map app0_of segs)) <= 1)%nat ->
  exists st', segs_apply st segs = Some st'.
Proof.
  revert st. induction segs as [|s segs IH]; intros st Hi Hd Ha; cbn [segs_apply map concat] in *; [eauto|].
  unfold info_of, app0_count in *.
  destruct s as [w h s7 ids|b|ts|b]; cbn [seg_apply sof_of dqt_of dht_of app0_of app] in *.
  - destruct (js_sof st); [simpl in Hi; lia|]. by apply IH.
  - by apply IH.
  - rewrite add_tables_app in Hd. destruct (add_tables (js_dht st) ts) as [d1|]; [|done]. by apply IH.
  - destruct (js_app0 st); [simpl in Ha; lia|]. apply IH; [done|done|]. cbn in *. lia.
Qed.

(** The set of tables seen, bit by bit. *)
Lemma add_tables_bits d ts d' :
  add_tables d ts = Some d' ->
  NoDup ts /\ (forall t, t ∈ ts -> Z.testbit d (Z.of_nat t) = false) /\
  forall t, Z.testbit d' (Z.of_nat t) = Z.testbit d (Z.of_nat t) || bool_decide (t ∈ ts).
Proof.
  revert d. induction ts as [|t ts IH]; intros d; cbn [add_tables].
  { intros [= <-]. split; [constructor|]. split; [by intros t ?%not_elem_of_nil|]. intros t. by rewrite orb_false_r. }
  destruct (Z.testbit d (Z.of_nat t)) eqn:E; [done|]. intros H. apply IH in H as (Hnd & Hno & Hbits).
  assert (Hb : forall u, Z.testbit (Z.lor d (Z.shiftl 1 (Z.of_nat t))) (Z.of_nat u) =
                         Z.testbit d (Z.of_nat u) || bool_decide (u = t)).
  { intros u. rewrite Z.lor_spec, Z.shiftl_1_l, Z.pow2_bits_eqb by lia. f_equal.
    destruct (Z.eqb_spec (Z.of_nat t) (Z.of_nat u)); case_bool_decide; lia || done. }
  split; [|split].
  - constructor; [|done]. intros Hin. specialize (Hno t Hin). rewrite Hb, bool_decide_eq_true_2, orb_true_r in Hno; done.
  - intros u Hu. apply elem_of_cons in Hu as [->|Hu]; [done|]. specialize (Hno u Hu). rewrite Hb in Hno.
    by apply orb_false_elim in Hno as [? _].
  - intros u. rewrite Hbits, Hb, <- orb_assoc. f_equal.
    destruct (decide (u = t)) as [->|Hne].
    { by rewrite (bool_decide_eq_true_2 (t = t)), (bool_decide_eq_true_2 (t ∈ t :: ts)) by (done || left). }
    rewrite (bool_decide_eq_false_2 (u = t)) by done. cbn. apply bool_decide_ext. rewrite elem_of_cons. tauto.
Qed.

(** All four tables, each once: the sets of the grammar and of the scan agree. *)
Lemma add_tables_all ts : add_tables 0 ts = Some 15 <-> ts ≡ₚ [0; 1; 2; 3]%nat.
Proof.
  split.
  - intros H. apply add_tables_bits in H as (Hnd & _ & Hbits). apply NoDup_Permutation; [done| |].
    { apply (bool_decide_eq_true_1 (NoDup [0; 1; 2; 3]%nat)). reflexivity. }
    intros t. rewrite <- (bool_decide_eq_true (t ∈ ts)). specialize (Hbits t). rewrite Z.bits_0 in Hbits. cbn in Hbits.
    rewrite <- Hbits. change 15 with (Z.ones 4).
    rewrite Z.testbit_ones_nonneg by lia. rewrite Z.ltb_lt, !elem_of_cons.
    split; [intros; lia|]. intros [->|[->|[->|[->|Hx%not_elem_of_nil]]]]; lia || done.
  - intros H. assert (Hall : Forall (fun l => add_tables 0 l = Some 15) (permutations [0; 1; 2; 3]%nat))
      by (vm_compute; repeat constructor).
    rewrite Forall_forall in Hall. apply Hall. by apply permutations_Permutation.
Qed.

Lemma jpeg_admit_exact (p : list Z) (info : jpeg_info) :
  Forall is_u8 p ->
  iav_jpeg_admit_info (Some p) = Val (Ends (Some info)) <-> jpeg_header p info.
Proof.
  intros Hu. split.
  - unfold iav_jpeg_admit_info. destruct (Nat.ltb_spec (length p) 4) as [|H4]; [done|].
    destruct p as [|b0 [|b1 p']] eqn:Ep; [simpl in H4; lia..|].
    change (byte_at (b0 :: b1 :: p') 0) with (@Val Z b0). change (byte_at (b0 :: b1 :: p') 1) with (@Val Z b1).
    cbn [rd_bind]. destruct (Z.eqb_spec b0 0xFF) as [->|]; cbn [negb]; [|done]. destruct (Z.eqb_spec b1 0xD8) as [->|]; cbn [negb]; [|done].
    intros H. apply (segment_loop_accepts _ _ 2 jpeg_scan0 info Hu) in H
      as (segs & len & rest & Hd & Hlen & Hrest & Hok & Hend).
    destruct (segs_apply jpeg_scan0 segs) as [st|] eqn:Ea; cbn in Hend; [|done].
    apply segs_apply_Some in Ea as (Hi & Hq & Ht & Ha). unfold scan_end in Hend.
    destruct (js_sof st) eqn:Es; [|done]. destruct (js_dqt st); [|done]. cbn [andb] in Hend.
    destruct (Z.eqb_spec (js_dht st) 15) as [E15|]; [|done]. injection Hend as <-.
    exists segs, len, rest. split; [by rewrite <- Hd|]. split; [done|]. split; [done|]. split; [done|].
    unfold info_of in Hi. rewrite Es in Hi. cbn in Hi. split; [done|]. split.
    { intros Hnil. rewrite Hnil in Hq. done. }
    split; [by apply add_tables_all; rewrite <- E15|]. unfold app0_count in Ha. cbn in Ha. destruct (js_app0 st); lia.
  - intros (segs & len & rest & -> & Hlen & Hrest & Hok & Hsof & Hdqt & Hdht & Happ).
    set (sos := [0xFF; 0xDA; len / 256; len mod 256] ++ rest) in *.
    unfold iav_jpeg_admit_info. rewrite !length_app. destruct (Nat.ltb_spec
      (length [0xFF; 0xD8] + (length (concat (map seg_bytes segs)) + length sos)) 4) as [Hc|_]; [cbn in Hc; lia|].
    cbn [byte_at rd_bind lookup list_lookup app]. change (byte_at _ 0) with (@Val Z 0xFF).
    change (byte_at _ 1) with (@Val Z 0xD8). cbn [rd_bind].
    change (negb (0xFF =? 0xFF)) with false. change (negb (0xD8 =? 0xD8)) with false. cbv iota.
    apply add_tables_all in Hdht. destruct (segs_apply_defined jpeg_scan0 segs 15) as [st Hst]; [|done|cbn; lia|].
    { cbn. rewrite Hsof. cbn. lia. }
    rewrite (segment_loop_read _ _ 2 jpeg_scan0 segs len rest); [|cbn; lia|done|done|done|done|].
    + apply segs_apply_Some in Hst as Hst'. destruct Hst' as (Hi & Hq & Ht & _). rewrite Hst. cbn.
      rewrite Hsof in Hi. unfold info_of in Hi. cbn in Hi. destruct (js_sof st) eqn:Es; [|done]. injection Hi as Hi.
      unfold scan_end. rewrite Es, Hi. rewrite bool_decide_eq_false_2 in Hq by done. cbn in Hq. rewrite Hq.
      change (js_dht jpeg_scan0) with 0 in Ht. rewrite Hdht in Ht. injection Ht as <-. done.
    + cbn [length]. assert (Hl : (length segs <= length (concat (map seg_bytes segs)))%nat); [|lia].
      clear. induction segs as [|s segs IH]; cbn [map concat length]; [done|]. rewrite length_app. cbn. lia.
Qed.

(** C26: the header check admits a header with a width, height and sampling exactly when the bytes are a header
    of the grammar [jpeg_header]: SOI, then segments in any order that hold one SOF0 (8 bit, three components,
    2x2 or 2x1 luma, sides of 1 to 16384), at least one DQT, at most one APP0 (JFIF), and the four standard
    Huffman tables each exactly once and no other, then a complete SOS. Nothing else is admitted. *)
Theorem jpeg_admit_iff (p : list Z) (info : jpeg_info) :
  Forall is_u8 p ->
  iav_jpeg_admit_info (Some p) = Val (Ends (Some info)) <-> jpeg_header p info.
Proof. apply jpeg_admit_exact. Qed.

(** A 640 x 480 4:2:0 header with its tables split over two DHT segments. *)
Definition sample_header : list Z :=
  [0xFF; 0xD8] ++
  concat (map seg_bytes [SegApp0 (repeat 0 9); SegDht [2; 0]%nat; SegDqt (repeat 1 65);
                         SegSof 640 480 0x22 [1; 0; 2; 1; 3; 1]; SegDht [3; 1]%nat]) ++
  [0xFF; 0xDA; 0; 12] ++ repeat 0 10.

Lemma jpeg_admit_iff_witness :
  jpeg_header sample_header {| ji_w := 640; ji_h := 480; ji_422 := false |}.
Proof.
  apply (jpeg_admit_iff sample_header).
  - apply Forall_forall. intros x Hx. apply list_elem_of_In in Hx. revert x Hx. unfold is_u8.
    apply (List.Forall_forall (fun x => 0 <= x < 2 ^ 8)). vm_compute. repeat constructor; discriminate.
  - vm_compute. reflexivity.
Defined.

(** The same header with one Huffman table missing, and with one given twice, is refused. *)
Example jpeg_table_missing_or_twice :
  iav_jpeg_admit (Some ([0xFF; 0xD8] ++ concat (map seg_bytes [SegDqt []; SegSof 16 16 0x21 [1; 0; 2; 1; 3; 1];
    SegDht [0; 1; 2]%nat]) ++ [0xFF; 0xDA; 0; 2])) = Some (- EINVAL) /\
  iav_jpeg_admit (Some ([0xFF; 0xD8] ++ concat (map seg_bytes [SegDqt []; SegSof 16 16 0x21 [1; 0; 2; 1; 3; 1];
    SegDht [0; 1; 2; 3]%nat; SegDht [0]%nat]) ++ [0xFF; 0xDA; 0; 2])) = Some (- EINVAL).
Proof. vm_compute. done. Qed.

(** ** The room a picture takes *)

Definition round16 (v : Z) : Z := (v + 15) / 16 * 16.

Lemma round16_bounds v : 0 <= v -> v <= round16 v < v + 16 /\ (16 | round16 v).
Proof.
  intros Hv. unfold round16. pose proof (Z.div_mod (v + 15) 16). pose proof (Z.mod_pos_bound (v + 15) 16).
  split; [lia|]. exists ((v + 15) / 16). done.
Qed.

(** For every size the header check admits, the 32- and 64-bit arithmetic of [iav_jpeg_decoded_bytes] is exact. *)
Lemma decoded_bytes_exact w h sub422 :
  1 <= w <= 16384 -> 1 <= h <= 16384 ->
  iav_jpeg_decoded_bytes w h sub422 =
  if sub422 then round16 w * round16 h * 2 else round16 w * round16 h * 3 / 2.
Proof.
  intros Hw Hh. unfold iav_jpeg_decoded_bytes. pose proof (round16_bounds w) as [Bw _]; [lia|].
  pose proof (round16_bounds h) as [Bh _]; [lia|]. rewrite !(u32_id (_ + 15)) by lia.
  fold (round16 w) (round16 h). rewrite !u32_id by lia.
  assert (Hp : 0 <= round16 w * round16 h <= 16400 * 16400) by nia.
  rewrite (u64_id (round16 w * round16 h)) by lia. destruct sub422; rewrite u64_id by lia; done.
Qed.

(** The size an admitted header describes is in the range the arithmetic was checked for. *)
Lemma jpeg_header_size p info : jpeg_header p info -> 1 <= ji_w info <= 16384 /\ 1 <= ji_h info <= 16384.
Proof.
  intros (segs & len & rest & _ & _ & _ & Hok & Hsof & _). clear -Hok Hsof.
  assert (Hin : info ∈ concat (map sof_of segs)) by (rewrite Hsof; left).
  clear Hsof. induction Hok as [|s segs [_ Hs] _ IH]; cbn [map concat] in Hin; [by apply not_elem_of_nil in Hin|].
  apply elem_of_app in Hin as [Hin|Hin]; [|by apply IH]. destruct s; cbn [sof_of] in Hin;
    try by apply not_elem_of_nil in Hin.
  apply list_elem_of_singleton in Hin as ->. cbn. lia.
Qed.

End JpegProps.
