(* ===== verification/IavTable.v ===== *)
(** * The ioctl table of the IAV driver and the allow-list over it

    The server forwards to /dev/iav only the calls its policy names. The table of every ioctl of the driver is
    generated (tools/iav_ioctl_table.inc), the list of the calls the primary guest may make with plain arguments
    too (tools/iav_allow_primary.inc); the list with checks is written by hand (g_allow in tools/iav_policy.c).
    Here: the three tables, [iav_policy_init], which applies the lists to the table and sorts it, and
    [iav_policy_lookup], the binary search every request of a guest goes through.

    The numbers of the ioctls, the sizes of their structures and the limits of the driver come from the vendor's
    iav_ioctl.h, which is not part of this repository: they are the class [IavAbi]. *)

From stdpp Require Import base list sorting strings.
From Stdlib Require Import ZArith Lia.
From S2P Require Import Prelude Text.

(** ** The vendor's header *)

Class IavAbi := {
  ioc : string -> Z;        (** the number of an ioctl, by its name *)
  sizeof : string -> Z;     (** the size of a C type, by its name *)
  IAV_DESC_FRAME : Z; IAV_DESC_CANVAS : Z; IAV_DESC_PYRAMID : Z;
  MAX_POLL_EVENT : Z; IAV_MAX_DECODER_NUMBER : Z;
  IAV_PART_DSP : Z; IAV_PART_BSB : Z; IAV_PART_DEC_BSB : Z; IAV_PART_OVERLAY : Z; IAV_PART_CANVAS_OVERLAY : Z;
  IAV_PART_ARB_BLUR : Z; IAV_PART_BLUR : Z; IAV_PART_SMOOTH_BLUR : Z; IAV_PART_MASK : Z; IAV_PART_WARP : Z;
  IAV_PART_YUV_REMAP : Z; IAV_PART_QPMATRIX : Z; IAV_PART_CE_GO_MAP : Z;
  IAV_MAX_CANVAS_BUF_NUM : Z;
  IAV_YUV_FORMAT_YUV422 : Z; IAV_YUV_FORMAT_YUV420 : Z; IAV_YUV_FORMAT_YUV400 : Z;
  IAV_INPUT_WIN_FORMAT_U32 : Z; IAV_INPUT_WIN_FORMAT_U24_8 : Z;
  IAV_BLUR_TYPE_NUM : Z; IAV_BLUR_TYPE_SMOOTH : Z;
  IAV_CANVAS_SYNC_CFG_BLUR : Z; IAV_CANVAS_SYNC_CFG_POSTP_SCALE : Z; IAV_CANVAS_SYNC_CFG_OVERLAY : Z;
  IAV_CACHE_CLEAN : Z; IAV_CACHE_INVALIDATE : Z;
  CONFIG_AMBARELLA_MAX_CHANNEL_NUM : Z; VIN_CONTROLLER_NUM : Z; IAV_MAX_PASS_NUM : Z; IAV_SRCBUF_NUM : Z;
  IAV_INVALID_CANVAS_ID : Z; IAV_MAX_CHANNEL_NUM : Z;
  IAV_VIDEO_PROC_MASK : Z; IAV_VIDEO_PROC_DPTZ : Z; IAV_VIDEO_PROC_CANVAS_FPS : Z;
  IAV_VIDEO_PROC_CANVAS_VV_SYNC_CFG : Z; IAV_VIDEO_PROC_CANVAS_DUMMY_LATENCY : Z; IAV_VIDEO_PROC_VSRC_UPDATE : Z;
  IAV_VIDEO_PROC_CANVAS_OVERLAY : Z; IAV_VIDEO_PROC_PYRAMID_ROI : Z; IAV_VIDEO_PROC_PYRAMID_FPS : Z;
  IAV_VIDEO_PROC_CANVAS_ORDER : Z; IAV_VIDEO_PROC_VCAP_FLUSH : Z; IAV_VIDEO_PROC_POSTP_SCALE : Z;
  IAV_VIDEO_PROC_CAWARP : Z; IAV_VIDEO_PROC_MULTI_BLEND : Z; IAV_VIDEO_PROC_BLEND_WARP : Z; IAV_VIDEO_PROC_NUM : Z;
  IAV_WARP_CTRL_MAIN : Z; IAV_WARP_CTRL_DPTZ : Z; IAV_WARP_CTRL_MAX_CFG : Z;
  IAV_STMCFG_CUSTOM_SEI : Z; IAV_H264_CFG_QP_ROI : Z; IAV_H265_CFG_QP_ROI : Z; IAV_STMCFG_OVERLAY : Z;
  IAV_STMCFG_BLUR : Z; IAV_STMCFG_YUV_REMAP : Z }.

(** ** The vocabulary of the table (include/uapi/amba_virt_iav_table.h, tools/iav_policy.h) *)

Inductive iav_magic := IAV_MAGIC_ENC | IAV_MAGIC_DEC | IAV_MAGIC_VIN | IAV_MAGIC_VOUT | IAV_MAGIC_IMAGE.
Inductive iav_arg_kind := IAV_ARG_NONE | IAV_ARG_VALUE | IAV_ARG_PTR.
Inductive iav_dir := IAV_DIR_NONE | IAV_DIR_R | IAV_DIR_W | IAV_DIR_RW.

#[export] Instance iav_arg_kind_eq_dec : EqDecision iav_arg_kind.
Proof. solve_decision. Defined.

(** The numbers of the enumerators, for the bit tests of [dir] and the hash of the table. *)
Definition kind_num (k : iav_arg_kind) : Z :=
  match k with IAV_ARG_NONE => 0 | IAV_ARG_VALUE => 1 | IAV_ARG_PTR => 2 end.
Definition dir_num (d : iav_dir) : Z :=
  match d with IAV_DIR_NONE => 0 | IAV_DIR_R => 1 | IAV_DIR_W => 2 | IAV_DIR_RW => 3 end.
Definition dir_reads (d : iav_dir) : bool := negb (Z.land (dir_num d) (dir_num IAV_DIR_R) =? 0).
Definition dir_writes (d : iav_dir) : bool := negb (Z.land (dir_num d) (dir_num IAV_DIR_W) =? 0).

Definition IAV_CLS_PLAIN : Z := 0x01.
Definition IAV_CLS_POINTER : Z := 0x02.
Definition IAV_CLS_PHYS : Z := 0x04.
Definition IAV_CLS_OFFSET_FD : Z := 0x08.

Definition IAV_F_STATE : Z := 0x01.
Definition IAV_F_DEBUG : Z := 0x02.
Definition IAV_F_BLOCKING : Z := 0x04.
Definition IAV_F_LEADING_ID : Z := 0x08.
Definition IAV_F_BOUNDED_DESC : Z := 0x100.
Definition IAV_F_WINDOW : Z := 0x200.
Definition IAV_F_WIRE_AUDITED : Z := 0x400.
Definition IAV_F_INLINE : Z := 0x800.

Definition has_flag (flags f : Z) : bool := negb (Z.land flags f =? 0).

Inductive iav_profile := IAV_PROFILE_CONSUMER | IAV_PROFILE_QUALIFICATION | IAV_PROFILE_PRIMARY.

#[export] Instance iav_profile_eq_dec : EqDecision iav_profile.
Proof. solve_decision. Defined.

Definition profile_num (p : iav_profile) : Z :=
  match p with IAV_PROFILE_CONSUMER => 0 | IAV_PROFILE_QUALIFICATION => 1 | IAV_PROFILE_PRIMARY => 2 end.
Definition IAV_PROFILE_BIT (p : iav_profile) : Z := Z.shiftl 1 (profile_num p).

(** The check and post functions an entry can point to. *)
Inductive check_fn :=
| C_check_query_desc | C_check_poll_cfg | C_check_create_decoder | C_check_decode_jpeg | C_check_decode_video
| C_check_decode_bsb | C_check_decode_status | C_check_wait_eos | C_check_set_overlay | C_check_get_overlay |
C_check_chan_cfg_pinned | C_check_system_resource_pinned | C_check_img_scale | C_check_get_vproc |
C_check_get_vin_idsp | C_check_set_blur | C_check_canvas_sync | C_check_gdma_copy | C_check_sync_cache |
C_check_efm_pool_info | C_check_efm_release_all | C_check_release_canvas | C_check_release_pyramid |
C_check_release_raw | C_check_cfg_vproc | C_check_warp_ctrl | C_check_stream_cfg | C_check_set_yuv_remap |
C_check_ce_request | C_check_ce_handshake | C_check_misc_info | C_check_apply_vproc | C_check_apply_warp |
C_check_apply_canvas_sync.

Inductive post_fn :=
| P_post_decode_status | P_post_isp_nn | P_post_misc_info.

#[export] Instance check_fn_eq_dec : EqDecision check_fn.
Proof. solve_decision. Defined.
#[export] Instance post_fn_eq_dec : EqDecision post_fn.
Proof. solve_decision. Defined.

(** [struct iav_policy_entry]. *)
Record iav_policy_entry := {
  e_cmd : Z; e_name : string; e_magic : iav_magic; e_kind : iav_arg_kind; e_dir : iav_dir;
  e_size : Z; e_wire : Z; e_cls : Z; e_flags : Z;
  e_profiles : Z; e_check : option check_fn; e_post : option post_fn }.

(** [struct iav_allow]; its [cmd] is written as the macro's name ([a_cmd] below is the number). *)
Record iav_allow := {
  a_name : string; a_profiles : Z; a_add_flags : Z; a_check : option check_fn; a_post : option post_fn }.

Section WithAbi.
Context `{Abi : IavAbi}.

(** The macro that expands a row of the generated table. *)
Definition IAV_IOCTL (name : string) (magic : iav_magic) (kind : iav_arg_kind) (dir : iav_dir)
    (size cls flags wire : Z) : iav_policy_entry :=
  {| e_cmd := ioc name; e_name := name; e_magic := magic; e_kind := kind; e_dir := dir; e_size := size;
     e_wire := wire; e_cls := cls; e_flags := flags; e_profiles := 0; e_check := None; e_post := None |}.

(** tools/iav_ioctl_table.inc. *)
Definition g_table : list iav_policy_entry :=
  [
   IAV_IOCTL "IAV_IOC_ABORT_ENCODE" IAV_MAGIC_ENC IAV_ARG_VALUE IAV_DIR_W 0 IAV_CLS_PLAIN IAV_F_STATE 0;
   IAV_IOCTL "IAV_IOC_ALLOC_ANON_MEM_PART" IAV_MAGIC_ENC IAV_ARG_PTR IAV_DIR_RW (sizeof "u32") IAV_CLS_PLAIN 0 (sizeof "struct iav_alloc_mem_part");
   IAV_IOCTL "IAV_IOC_ALLOC_ANON_MEM_PART_FD" IAV_MAGIC_ENC IAV_ARG_PTR IAV_DIR_RW (sizeof "u16") IAV_CLS_PLAIN 0 (sizeof "struct iav_alloc_mem_part_fd");
   IAV_IOCTL "IAV_IOC_ALLOC_MEM_PART" IAV_MAGIC_ENC IAV_ARG_PTR IAV_DIR_RW (sizeof "u8") IAV_CLS_PLAIN 0 (sizeof "struct iav_alloc_mem_part");
   IAV_IOCTL "IAV_IOC_APPLY_CANVAS_FRAME_SYNC_PROC" IAV_MAGIC_ENC IAV_ARG_PTR IAV_DIR_W (sizeof "u8") IAV_CLS_PLAIN 0 (sizeof "struct iav_apply_canvas_frame_sync");
   IAV_IOCTL "IAV_IOC_APPLY_FRAME_SYNC_PROC" IAV_MAGIC_ENC IAV_ARG_PTR IAV_DIR_W (sizeof "u8") IAV_CLS_PLAIN 0 (sizeof "struct iav_apply_frame_sync");
   IAV_IOCTL "IAV_IOC_APPLY_IDSP_ENC_SYNC_PROC" IAV_MAGIC_ENC IAV_ARG_PTR IAV_DIR_W (sizeof "u16") IAV_CLS_PLAIN 0 (sizeof "struct iav_apply_idsp_enc_sync");
   IAV_IOCTL "IAV_IOC_APPLY_IDSP_SYNC_PROC" IAV_MAGIC_ENC IAV_ARG_PTR IAV_DIR_RW (sizeof "u8") IAV_CLS_PLAIN 0 (sizeof "struct iav_apply_frame_sync_flag");
   IAV_IOCTL "IAV_IOC_APPLY_MULTI_REGION_DPTZ_CTRL" IAV_MAGIC_ENC IAV_ARG_PTR IAV_DIR_W (sizeof "u8") IAV_CLS_PLAIN 0 (sizeof "struct iav_apply_flag");
   IAV_IOCTL "IAV_IOC_APPLY_VIDEO_PROC" IAV_MAGIC_ENC IAV_ARG_PTR IAV_DIR_W (sizeof "u8") IAV_CLS_PLAIN IAV_F_STATE (sizeof "struct iav_apply_flag[IAV_VIDEO_PROC_NUM]");
   IAV_IOCTL "IAV_IOC_APPLY_WARP_CTRL" IAV_MAGIC_ENC IAV_ARG_PTR IAV_DIR_W (sizeof "u8") IAV_CLS_PLAIN 0 (sizeof "struct iav_apply_flag");
   IAV_IOCTL "IAV_IOC_APPLY_WARP_CTRL_IDSP_FRAME_SYNC" IAV_MAGIC_ENC IAV_ARG_PTR IAV_DIR_RW (sizeof "u8") IAV_CLS_PLAIN 0 (sizeof "struct iav_apply_frame_sync_flag");
   IAV_IOCTL "IAV_IOC_CE_GO_MAP_HANDSHAKE_BUFFER" IAV_MAGIC_ENC IAV_ARG_PTR IAV_DIR_W (sizeof "struct iav_ce_go_map_handshake_buffer") IAV_CLS_PLAIN 0 0;
   IAV_IOCTL "IAV_IOC_CE_GO_MAP_REQUEST_BUFFER" IAV_MAGIC_ENC IAV_ARG_PTR IAV_DIR_RW (sizeof "struct iav_ce_go_map_request_buffer") IAV_CLS_OFFSET_FD IAV_F_BLOCKING 0;
   IAV_IOCTL "IAV_IOC_CFG_CANVAS_FRAME_SYNC_PROC" IAV_MAGIC_ENC IAV_ARG_PTR IAV_DIR_W (sizeof "struct iav_canvas_sync_cfg") IAV_CLS_OFFSET_FD 0 0;
   IAV_IOCTL "IAV_IOC_CFG_FRAME_SYNC_PROC" IAV_MAGIC_ENC IAV_ARG_PTR IAV_DIR_W (sizeof "struct iav_stream_cfg") IAV_CLS_OFFSET_FD 0 0;
   IAV_IOCTL "IAV_IOC_CFG_MULTI_REGION_DPTZ_CTRL" IAV_MAGIC_ENC IAV_ARG_PTR IAV_DIR_W (sizeof "struct iav_multi_region_dptz_ctrl") IAV_CLS_PLAIN 0 0;
   IAV_IOCTL "IAV_IOC_CFG_VIDEO_PROC" IAV_MAGIC_ENC IAV_ARG_PTR IAV_DIR_W (sizeof "struct iav_video_proc") IAV_CLS_OFFSET_FD IAV_F_STATE 0;
   IAV_IOCTL "IAV_IOC_CFG_WARP_CTRL" IAV_MAGIC_ENC IAV_ARG_PTR IAV_DIR_W (sizeof "struct iav_warp_ctrl") IAV_CLS_OFFSET_FD 0 0;
   IAV_IOCTL "IAV_IOC_CLEAR_POLL_EVENT_CFG" IAV_MAGIC_ENC IAV_ARG_NONE IAV_DIR_NONE 0 IAV_CLS_PLAIN 0 0;
   IAV_IOCTL "IAV_IOC_CREATE_DECODER" IAV_MAGIC_DEC IAV_ARG_PTR IAV_DIR_RW (sizeof "struct iav_decoder_info") IAV_CLS_OFFSET_FD 0 0;
   IAV_IOCTL "IAV_IOC_CUSTOM_CMDS" IAV_MAGIC_ENC IAV_ARG_PTR IAV_DIR_RW (sizeof "struct iav_custom_cfg") IAV_CLS_PLAIN 0 0;
   IAV_IOCTL "IAV_IOC_DECODE_JPEG" IAV_MAGIC_DEC IAV_ARG_PTR IAV_DIR_W (sizeof "struct iav_decode_jpeg") IAV_CLS_OFFSET_FD IAV_F_BLOCKING 0;
   IAV_IOCTL "IAV_IOC_DECODE_SPEED" IAV_MAGIC_DEC IAV_ARG_PTR IAV_DIR_W (sizeof "struct iav_decode_speed") IAV_CLS_PLAIN 0 0;
   IAV_IOCTL "IAV_IOC_DECODE_START" IAV_MAGIC_DEC IAV_ARG_VALUE IAV_DIR_W 0 IAV_CLS_PLAIN 0 0;
   IAV_IOCTL "IAV_IOC_DECODE_STOP" IAV_MAGIC_DEC IAV_ARG_PTR IAV_DIR_W (sizeof "struct iav_decode_stop") IAV_CLS_PLAIN 0 0;
   IAV_IOCTL "IAV_IOC_DECODE_TRICK_PLAY" IAV_MAGIC_DEC IAV_ARG_PTR IAV_DIR_W (sizeof "struct iav_decode_trick_play") IAV_CLS_PLAIN 0 0;
   IAV_IOCTL "IAV_IOC_DECODE_VIDEO" IAV_MAGIC_DEC IAV_ARG_PTR IAV_DIR_W (sizeof "struct iav_decode_video") IAV_CLS_OFFSET_FD 0 0;
   IAV_IOCTL "IAV_IOC_DESTROY_DECODER" IAV_MAGIC_DEC IAV_ARG_VALUE IAV_DIR_W 0 IAV_CLS_PLAIN 0 0;
   IAV_IOCTL "IAV_IOC_DRV_DSP_INFO" IAV_MAGIC_ENC IAV_ARG_PTR IAV_DIR_RW (sizeof "struct iav_driver_dsp_info") IAV_CLS_PLAIN IAV_F_DEBUG 0;
   IAV_IOCTL "IAV_IOC_EFM_GET_POOL_INFO" IAV_MAGIC_ENC IAV_ARG_PTR IAV_DIR_RW (sizeof "struct iav_efm_get_pool_info") IAV_CLS_PLAIN 0 0;
   IAV_IOCTL "IAV_IOC_EFM_HANDSHAKE_FRAME" IAV_MAGIC_ENC IAV_ARG_PTR IAV_DIR_W (sizeof "struct iav_efm_handshake_frame") IAV_CLS_OFFSET_FD 0 0;
   IAV_IOCTL "IAV_IOC_EFM_RELEASE_ALL_FRAMES" IAV_MAGIC_ENC IAV_ARG_PTR IAV_DIR_W (sizeof "u8") IAV_CLS_PLAIN 0 (sizeof "struct iav_efm_release_all_frame");
   IAV_IOCTL "IAV_IOC_EFM_REQUEST_FRAME" IAV_MAGIC_ENC IAV_ARG_PTR IAV_DIR_RW (sizeof "struct iav_efm_request_frame") IAV_CLS_OFFSET_FD IAV_F_BLOCKING 0;
   IAV_IOCTL "IAV_IOC_EFM_SET_EXT_POOL" IAV_MAGIC_ENC IAV_ARG_PTR IAV_DIR_W (sizeof "u16") IAV_CLS_PLAIN 0 (sizeof "struct iav_efm_ext_pool");
   IAV_IOCTL "IAV_IOC_ENABLE_DRAM_TEST" IAV_MAGIC_ENC IAV_ARG_NONE IAV_DIR_W 0 IAV_CLS_PLAIN 0 0;
   IAV_IOCTL "IAV_IOC_ENABLE_PREVIEW" IAV_MAGIC_ENC IAV_ARG_PTR IAV_DIR_W (sizeof "u8") IAV_CLS_PLAIN IAV_F_STATE (sizeof "struct iav_preview_params");
   IAV_IOCTL "IAV_IOC_ENTER_DECODE_MODE" IAV_MAGIC_DEC IAV_ARG_PTR IAV_DIR_RW (sizeof "struct iav_decode_mode_config") IAV_CLS_PLAIN IAV_F_STATE 0;
   IAV_IOCTL "IAV_IOC_ENTER_IDLE" IAV_MAGIC_ENC IAV_ARG_PTR IAV_DIR_W (sizeof "u8") IAV_CLS_PLAIN IAV_F_STATE (sizeof "struct iav_idle_params");
   IAV_IOCTL "IAV_IOC_FEED_CANVAS_BUF" IAV_MAGIC_ENC IAV_ARG_PTR IAV_DIR_W (sizeof "struct iav_feed_canvas") IAV_CLS_PLAIN 0 0;
   IAV_IOCTL "IAV_IOC_FEED_PYRAMID_BUF" IAV_MAGIC_ENC IAV_ARG_PTR IAV_DIR_W (sizeof "struct iav_feed_pyramid") IAV_CLS_PLAIN 0 0;
   IAV_IOCTL "IAV_IOC_FEED_RAW_BUF" IAV_MAGIC_ENC IAV_ARG_PTR IAV_DIR_W (sizeof "struct iav_feed_raw") IAV_CLS_PLAIN 0 0;
   IAV_IOCTL "IAV_IOC_FLUSH_FRAMEDESC" IAV_MAGIC_ENC IAV_ARG_PTR IAV_DIR_RW (sizeof "u16") IAV_CLS_PLAIN IAV_F_BLOCKING (sizeof "struct iav_flush_framedesc");
   IAV_IOCTL "IAV_IOC_FREE_MEM_PART" IAV_MAGIC_ENC IAV_ARG_PTR IAV_DIR_W (sizeof "struct iav_free_mem_part") IAV_CLS_OFFSET_FD 0 0;
   IAV_IOCTL "IAV_IOC_GDMA_COPY" IAV_MAGIC_ENC IAV_ARG_PTR IAV_DIR_W (sizeof "struct iav_gdma_copy") (Z.lor IAV_CLS_PHYS IAV_CLS_OFFSET_FD) IAV_F_DEBUG 0;
   IAV_IOCTL "IAV_IOC_GET_AUDIT_CONFIG" IAV_MAGIC_ENC IAV_ARG_PTR IAV_DIR_RW (sizeof "struct iav_audit_cfg") IAV_CLS_PLAIN 0 0;
   IAV_IOCTL "IAV_IOC_GET_BLUR_COLOR" IAV_MAGIC_ENC IAV_ARG_PTR IAV_DIR_R (sizeof "u8") IAV_CLS_PLAIN 0 0;
   IAV_IOCTL "IAV_IOC_GET_BLUR_INSERT" IAV_MAGIC_ENC IAV_ARG_PTR IAV_DIR_RW (sizeof "struct iav_blur_insert") IAV_CLS_OFFSET_FD 0 0;
   IAV_IOCTL "IAV_IOC_GET_CANVAS_CONFIG" IAV_MAGIC_ENC IAV_ARG_PTR IAV_DIR_RW (sizeof "struct iav_canvas_cfg") IAV_CLS_OFFSET_FD 0 0;
   IAV_IOCTL "IAV_IOC_GET_CANVAS_FRAME_SYNC_PROC" IAV_MAGIC_ENC IAV_ARG_PTR IAV_DIR_RW (sizeof "struct iav_canvas_sync_cfg") IAV_CLS_OFFSET_FD 0 0;
   IAV_IOCTL "IAV_IOC_GET_CHAN_CONFIG" IAV_MAGIC_ENC IAV_ARG_PTR IAV_DIR_RW (sizeof "struct iav_chan_cfg") IAV_CLS_OFFSET_FD 0 0;
   IAV_IOCTL "IAV_IOC_GET_CHIP_ID" IAV_MAGIC_ENC IAV_ARG_PTR IAV_DIR_R (sizeof "u32") IAV_CLS_PLAIN 0 0;
   IAV_IOCTL "IAV_IOC_GET_DEBUG_CONFIG" IAV_MAGIC_ENC IAV_ARG_PTR IAV_DIR_RW (sizeof "struct iav_debug_cfg") IAV_CLS_PLAIN IAV_F_DEBUG 0;
   IAV_IOCTL "IAV_IOC_GET_DSP_HEALTH_CONFIG" IAV_MAGIC_ENC IAV_ARG_PTR IAV_DIR_R (sizeof "struct iav_dsp_health_cfg") IAV_CLS_PLAIN 0 0;
   IAV_IOCTL "IAV_IOC_GET_FPS_SUGGEST" IAV_MAGIC_ENC IAV_ARG_PTR IAV_DIR_RW (sizeof "struct iav_fps_suggest") IAV_CLS_PLAIN 0 0;
   IAV_IOCTL "IAV_IOC_GET_FRAME_SYNC_PROC" IAV_MAGIC_ENC IAV_ARG_PTR IAV_DIR_RW (sizeof "struct iav_stream_cfg") IAV_CLS_OFFSET_FD 0 0;
   IAV_IOCTL "IAV_IOC_GET_H264_CONFIG" IAV_MAGIC_ENC IAV_ARG_PTR IAV_DIR_RW (sizeof "struct iav_h26x_cfg") IAV_CLS_OFFSET_FD 0 0;
   IAV_IOCTL "IAV_IOC_GET_H265_CONFIG" IAV_MAGIC_ENC IAV_ARG_PTR IAV_DIR_RW (sizeof "struct iav_h26x_cfg") IAV_CLS_OFFSET_FD 0 0;
   IAV_IOCTL "IAV_IOC_GET_IAV_STATE" IAV_MAGIC_ENC IAV_ARG_PTR IAV_DIR_R (sizeof "u32") IAV_CLS_PLAIN 0 0;
   IAV_IOCTL "IAV_IOC_GET_ISP_NN_CFG" IAV_MAGIC_ENC IAV_ARG_PTR IAV_DIR_RW (sizeof "struct iav_isp_nn_params") IAV_CLS_PHYS 0 0;
   IAV_IOCTL "IAV_IOC_GET_MEM_LAYOUT_RESOURCE" IAV_MAGIC_ENC IAV_ARG_PTR IAV_DIR_R (sizeof "struct iav_mem_layout_resource") IAV_CLS_PLAIN 0 0;
   IAV_IOCTL "IAV_IOC_GET_MJPEG_CONFIG" IAV_MAGIC_ENC IAV_ARG_PTR IAV_DIR_RW (sizeof "struct iav_mjpeg_cfg") IAV_CLS_PLAIN 0 0;
   IAV_IOCTL "IAV_IOC_GET_MULTI_REGION_DPTZ_CTRL" IAV_MAGIC_ENC IAV_ARG_PTR IAV_DIR_RW (sizeof "struct iav_multi_region_dptz_ctrl") IAV_CLS_PLAIN 0 0;
   IAV_IOCTL "IAV_IOC_GET_OVERLAY_INSERT" IAV_MAGIC_ENC IAV_ARG_PTR IAV_DIR_RW (sizeof "struct iav_overlay_insert") IAV_CLS_OFFSET_FD 0 0;
   IAV_IOCTL "IAV_IOC_GET_POSTP_SCALE_CTRL" IAV_MAGIC_ENC IAV_ARG_PTR IAV_DIR_RW (sizeof "struct iav_postp_scale") IAV_CLS_PLAIN 0 0;
   IAV_IOCTL "IAV_IOC_GET_PYRAMID_CFG" IAV_MAGIC_ENC IAV_ARG_PTR IAV_DIR_RW (sizeof "struct iav_pyramid_cfg") IAV_CLS_PLAIN 0 0;
   IAV_IOCTL "IAV_IOC_GET_RAW_ENCODE" IAV_MAGIC_ENC IAV_ARG_PTR IAV_DIR_RW (sizeof "struct iav_raw_enc_setup") IAV_CLS_PLAIN 0 0;
   IAV_IOCTL "IAV_IOC_GET_STREAM_CONFIG" IAV_MAGIC_ENC IAV_ARG_PTR IAV_DIR_RW (sizeof "struct iav_stream_cfg") IAV_CLS_OFFSET_FD 0 0;
   IAV_IOCTL "IAV_IOC_GET_STREAM_RESOURCE" IAV_MAGIC_ENC IAV_ARG_PTR IAV_DIR_RW (sizeof "struct iav_stream_resource") IAV_CLS_PLAIN 0 0;
   IAV_IOCTL "IAV_IOC_GET_SYSTEM_RESOURCE" IAV_MAGIC_ENC IAV_ARG_PTR IAV_DIR_RW (sizeof "struct iav_system_resource") IAV_CLS_PLAIN 0 0;
   IAV_IOCTL "IAV_IOC_GET_VCAP_CFG" IAV_MAGIC_ENC IAV_ARG_PTR IAV_DIR_RW (sizeof "struct iav_vcap_cfg") IAV_CLS_PLAIN 0 0;
   IAV_IOCTL "IAV_IOC_GET_VIDEO_PROC" IAV_MAGIC_ENC IAV_ARG_PTR IAV_DIR_RW (sizeof "struct iav_video_proc") IAV_CLS_OFFSET_FD IAV_F_STATE 0;
   IAV_IOCTL "IAV_IOC_GET_VIN_COMPAND_CFG" IAV_MAGIC_ENC IAV_ARG_PTR IAV_DIR_RW (sizeof "struct iav_vin_compand_config") IAV_CLS_PLAIN 0 0;
   IAV_IOCTL "IAV_IOC_GET_VIN_IDSP_CFG" IAV_MAGIC_ENC IAV_ARG_PTR IAV_DIR_RW (sizeof "struct iav_vin_idsp_config") IAV_CLS_OFFSET_FD 0 0;
   IAV_IOCTL "IAV_IOC_GET_WARP_CTRL" IAV_MAGIC_ENC IAV_ARG_PTR IAV_DIR_RW (sizeof "struct iav_warp_ctrl") IAV_CLS_OFFSET_FD 0 0;
   IAV_IOCTL "IAV_IOC_GET_YUV_REMAP_INSERT" IAV_MAGIC_ENC IAV_ARG_PTR IAV_DIR_RW (sizeof "struct iav_yuv_remap") IAV_CLS_OFFSET_FD 0 0;
   IAV_IOCTL "IAV_IOC_IMG_GET_IDSP_CFG" IAV_MAGIC_IMAGE IAV_ARG_PTR IAV_DIR_RW (sizeof "struct img_idsp_debug_info") IAV_CLS_PHYS IAV_F_BLOCKING 0;
   IAV_IOCTL "IAV_IOC_IMG_GET_IDSP_CFG_V2" IAV_MAGIC_IMAGE IAV_ARG_PTR IAV_DIR_RW (sizeof "struct img_idsp_vin_debug_info_v2") IAV_CLS_PHYS 0 0;
   IAV_IOCTL "IAV_IOC_IMG_GET_LATEST_STATISTICS" IAV_MAGIC_IMAGE IAV_ARG_PTR IAV_DIR_RW (sizeof "struct img_statistics") IAV_CLS_POINTER 0 0;
   IAV_IOCTL "IAV_IOC_IMG_GET_LATEST_STATISTICS_MAP" IAV_MAGIC_IMAGE IAV_ARG_PTR IAV_DIR_RW (sizeof "struct img_statistics_map") (Z.lor IAV_CLS_POINTER IAV_CLS_OFFSET_FD) 0 0;
   IAV_IOCTL "IAV_IOC_IMG_GET_MISC_INFO" IAV_MAGIC_IMAGE IAV_ARG_PTR IAV_DIR_RW (sizeof "struct img_misc_info") IAV_CLS_POINTER 0 0;
   IAV_IOCTL "IAV_IOC_IMG_GET_STATISTICS" IAV_MAGIC_IMAGE IAV_ARG_PTR IAV_DIR_RW (sizeof "struct img_statistics") IAV_CLS_POINTER 0 0;
   IAV_IOCTL "IAV_IOC_IMG_GET_STATISTICS_MAP" IAV_MAGIC_IMAGE IAV_ARG_PTR IAV_DIR_RW (sizeof "struct img_statistics_map") (Z.lor IAV_CLS_POINTER IAV_CLS_OFFSET_FD) 0 0;
   IAV_IOCTL "IAV_IOC_IMG_GET_STATISTICS_REPORT_RATE" IAV_MAGIC_IMAGE IAV_ARG_PTR IAV_DIR_R (sizeof "struct img_statistics_report_rate") IAV_CLS_PLAIN 0 0;
   IAV_IOCTL "IAV_IOC_IMG_GET_VIN_PTS_INFO" IAV_MAGIC_IMAGE IAV_ARG_PTR IAV_DIR_RW (sizeof "struct img_vin_pts_info") IAV_CLS_PLAIN 0 0;
   IAV_IOCTL "IAV_IOC_IMG_SETUP_IDSP_DEBUG" IAV_MAGIC_IMAGE IAV_ARG_PTR IAV_DIR_RW (sizeof "struct img_idsp_debug_setup") IAV_CLS_PLAIN IAV_F_DEBUG 0;
   IAV_IOCTL "IAV_IOC_IMG_SET_STATISTICS_REPORT_RATE" IAV_MAGIC_IMAGE IAV_ARG_PTR IAV_DIR_W (sizeof "struct img_statistics_report_rate") IAV_CLS_PLAIN 0 0;
   IAV_IOCTL "IAV_IOC_LEAVE_DECODE_MODE" IAV_MAGIC_DEC IAV_ARG_NONE IAV_DIR_NONE 0 IAV_CLS_PLAIN IAV_F_STATE 0;
   IAV_IOCTL "IAV_IOC_QUERY_DECODE_BSB" IAV_MAGIC_DEC IAV_ARG_PTR IAV_DIR_RW (sizeof "struct iav_decode_bsb") IAV_CLS_OFFSET_FD 0 0;
   IAV_IOCTL "IAV_IOC_QUERY_DECODE_STATUS" IAV_MAGIC_DEC IAV_ARG_PTR IAV_DIR_RW (sizeof "struct iav_decode_status") (Z.lor IAV_CLS_PHYS IAV_CLS_OFFSET_FD) IAV_F_BLOCKING 0;
   IAV_IOCTL "IAV_IOC_QUERY_DESC" IAV_MAGIC_ENC IAV_ARG_PTR IAV_DIR_RW (sizeof "struct iav_querydesc") (Z.lor IAV_CLS_PHYS IAV_CLS_OFFSET_FD) 0 0;
   IAV_IOCTL "IAV_IOC_QUERY_ENC_BUF_CAP" IAV_MAGIC_ENC IAV_ARG_PTR IAV_DIR_RW (sizeof "struct iav_enc_buf_cap") IAV_CLS_PLAIN 0 0;
   IAV_IOCTL "IAV_IOC_QUERY_ENC_MODE_CAP" IAV_MAGIC_ENC IAV_ARG_PTR IAV_DIR_RW (sizeof "struct iav_enc_mode_cap") IAV_CLS_PLAIN 0 0;
   IAV_IOCTL "IAV_IOC_QUERY_IAV_CAP" IAV_MAGIC_ENC IAV_ARG_PTR IAV_DIR_RW (sizeof "struct iav_capability") IAV_CLS_PLAIN 0 0;
   IAV_IOCTL "IAV_IOC_QUERY_INFO" IAV_MAGIC_ENC IAV_ARG_PTR IAV_DIR_RW (sizeof "struct iav_queryinfo") IAV_CLS_PHYS 0 0;
   IAV_IOCTL "IAV_IOC_QUERY_MEMBLOCK" IAV_MAGIC_ENC IAV_ARG_PTR IAV_DIR_RW (sizeof "struct iav_querymem") (Z.lor IAV_CLS_PHYS IAV_CLS_OFFSET_FD) 0 0;
   IAV_IOCTL "IAV_IOC_QUERY_MEM_LAYOUT_INFO" IAV_MAGIC_ENC IAV_ARG_PTR IAV_DIR_RW (sizeof "struct iav_mem_layout_info") (Z.lor IAV_CLS_PHYS IAV_CLS_OFFSET_FD) 0 0;
   IAV_IOCTL "IAV_IOC_REGISTER_ANON_MEM_PART" IAV_MAGIC_ENC IAV_ARG_PTR IAV_DIR_RW (sizeof "u16") IAV_CLS_PLAIN 0 (sizeof "struct iav_anon_mem_part");
   IAV_IOCTL "IAV_IOC_RELEASE_CANVAS_BUF" IAV_MAGIC_ENC IAV_ARG_PTR IAV_DIR_RW (sizeof "struct iav_canvasdesc") IAV_CLS_OFFSET_FD 0 0;
   IAV_IOCTL "IAV_IOC_RELEASE_PYRAMID_BUF" IAV_MAGIC_ENC IAV_ARG_PTR IAV_DIR_RW (sizeof "struct iav_pyramiddesc") IAV_CLS_OFFSET_FD 0 0;
   IAV_IOCTL "IAV_IOC_RELEASE_RAW_BUF" IAV_MAGIC_ENC IAV_ARG_PTR IAV_DIR_RW (sizeof "struct iav_feed_raw") IAV_CLS_PLAIN 0 (sizeof "struct iav_rawbufdesc");
   IAV_IOCTL "IAV_IOC_RESET" IAV_MAGIC_ENC IAV_ARG_NONE IAV_DIR_W 0 IAV_CLS_PLAIN IAV_F_BLOCKING 0;
   IAV_IOCTL "IAV_IOC_SET_AUDIT_CONFIG" IAV_MAGIC_ENC IAV_ARG_PTR IAV_DIR_W (sizeof "struct iav_audit_cfg") IAV_CLS_PLAIN 0 0;
   IAV_IOCTL "IAV_IOC_SET_BLUR_COLOR" IAV_MAGIC_ENC IAV_ARG_PTR IAV_DIR_W (sizeof "u8") IAV_CLS_PLAIN 0 (sizeof "struct iav_blur_color");
   IAV_IOCTL "IAV_IOC_SET_BLUR_INSERT" IAV_MAGIC_ENC IAV_ARG_PTR IAV_DIR_W (sizeof "struct iav_blur_insert") IAV_CLS_OFFSET_FD 0 0;
   IAV_IOCTL "IAV_IOC_SET_CANVAS_CONFIG" IAV_MAGIC_ENC IAV_ARG_PTR IAV_DIR_W (sizeof "struct iav_canvas_cfg") IAV_CLS_OFFSET_FD IAV_F_STATE 0;
   IAV_IOCTL "IAV_IOC_SET_CHAN_CONFIG" IAV_MAGIC_ENC IAV_ARG_PTR IAV_DIR_W (sizeof "struct iav_chan_cfg") IAV_CLS_OFFSET_FD IAV_F_STATE 0;
   IAV_IOCTL "IAV_IOC_SET_DEBUG_CONFIG" IAV_MAGIC_ENC IAV_ARG_PTR IAV_DIR_W (sizeof "struct iav_debug_cfg") IAV_CLS_PLAIN IAV_F_DEBUG 0;
   IAV_IOCTL "IAV_IOC_SET_DSP_HEALTH_CONFIG" IAV_MAGIC_ENC IAV_ARG_PTR IAV_DIR_W (sizeof "struct iav_dsp_health_cfg") IAV_CLS_PLAIN 0 0;
   IAV_IOCTL "IAV_IOC_SET_DSP_LOG" IAV_MAGIC_ENC IAV_ARG_PTR IAV_DIR_W (sizeof "struct iav_dsplog_setup") IAV_CLS_PLAIN IAV_F_DEBUG 0;
   IAV_IOCTL "IAV_IOC_SET_H264_CONFIG" IAV_MAGIC_ENC IAV_ARG_PTR IAV_DIR_W (sizeof "struct iav_h26x_cfg") IAV_CLS_OFFSET_FD 0 0;
   IAV_IOCTL "IAV_IOC_SET_H265_CONFIG" IAV_MAGIC_ENC IAV_ARG_PTR IAV_DIR_W (sizeof "struct iav_h26x_cfg") IAV_CLS_OFFSET_FD 0 0;
   IAV_IOCTL "IAV_IOC_SET_IMG_SCALE" IAV_MAGIC_ENC IAV_ARG_PTR IAV_DIR_RW (sizeof "struct iav_img_scale") (Z.lor IAV_CLS_PHYS IAV_CLS_OFFSET_FD) IAV_F_BLOCKING 0;
   IAV_IOCTL "IAV_IOC_SET_ISP_NN_CFG" IAV_MAGIC_ENC IAV_ARG_PTR IAV_DIR_W (sizeof "struct iav_isp_nn_params") IAV_CLS_PHYS IAV_F_STATE 0;
   IAV_IOCTL "IAV_IOC_SET_MEM_LAYOUT_RESOURCE" IAV_MAGIC_ENC IAV_ARG_PTR IAV_DIR_W (sizeof "struct iav_mem_layout_resource") IAV_CLS_PLAIN IAV_F_STATE 0;
   IAV_IOCTL "IAV_IOC_SET_MJPEG_CONFIG" IAV_MAGIC_ENC IAV_ARG_PTR IAV_DIR_W (sizeof "struct iav_mjpeg_cfg") IAV_CLS_PLAIN 0 0;
   IAV_IOCTL "IAV_IOC_SET_OVERLAY_INSERT" IAV_MAGIC_ENC IAV_ARG_PTR IAV_DIR_W (sizeof "struct iav_overlay_insert") IAV_CLS_OFFSET_FD 0 0;
   IAV_IOCTL "IAV_IOC_SET_POLL_EVENT_CFG" IAV_MAGIC_ENC IAV_ARG_PTR IAV_DIR_W (sizeof "struct iav_poll_event_config") IAV_CLS_PLAIN 0 0;
   IAV_IOCTL "IAV_IOC_SET_POSTP_SCALE_CTRL" IAV_MAGIC_ENC IAV_ARG_PTR IAV_DIR_W (sizeof "struct iav_postp_scale") IAV_CLS_PLAIN 0 0;
   IAV_IOCTL "IAV_IOC_SET_PYRAMID_CFG" IAV_MAGIC_ENC IAV_ARG_PTR IAV_DIR_W (sizeof "struct iav_pyramid_cfg") IAV_CLS_PLAIN IAV_F_STATE 0;
   IAV_IOCTL "IAV_IOC_SET_RAW_ENCODE" IAV_MAGIC_ENC IAV_ARG_PTR IAV_DIR_RW (sizeof "struct iav_raw_enc_setup") IAV_CLS_PLAIN 0 0;
   IAV_IOCTL "IAV_IOC_SET_RAW_ENC_CFG" IAV_MAGIC_ENC IAV_ARG_PTR IAV_DIR_W (sizeof "struct iav_raw_enc_cfg") IAV_CLS_PHYS 0 0;
   IAV_IOCTL "IAV_IOC_SET_STREAM_CONFIG" IAV_MAGIC_ENC IAV_ARG_PTR IAV_DIR_W (sizeof "struct iav_stream_cfg") IAV_CLS_OFFSET_FD 0 0;
   IAV_IOCTL "IAV_IOC_SET_STREAM_RESOURCE" IAV_MAGIC_ENC IAV_ARG_PTR IAV_DIR_W (sizeof "struct iav_stream_resource") IAV_CLS_PLAIN IAV_F_STATE 0;
   IAV_IOCTL "IAV_IOC_SET_SYSTEM_RESOURCE" IAV_MAGIC_ENC IAV_ARG_PTR IAV_DIR_W (sizeof "struct iav_system_resource") IAV_CLS_PLAIN IAV_F_STATE 0;
   IAV_IOCTL "IAV_IOC_SET_VCAP_CFG" IAV_MAGIC_ENC IAV_ARG_PTR IAV_DIR_W (sizeof "struct iav_vcap_cfg") IAV_CLS_PLAIN IAV_F_STATE 0;
   IAV_IOCTL "IAV_IOC_SET_VIN_COMPAND_CFG" IAV_MAGIC_ENC IAV_ARG_PTR IAV_DIR_W (sizeof "struct iav_vin_compand_config") IAV_CLS_PLAIN 0 0;
   IAV_IOCTL "IAV_IOC_SET_VIN_IDSP_CFG" IAV_MAGIC_ENC IAV_ARG_PTR IAV_DIR_W (sizeof "struct iav_vin_idsp_config") IAV_CLS_OFFSET_FD IAV_F_STATE 0;
   IAV_IOCTL "IAV_IOC_SET_VIN_IDSP_DELAY_INFO" IAV_MAGIC_ENC IAV_ARG_PTR IAV_DIR_W (sizeof "u8") IAV_CLS_PLAIN IAV_F_STATE (sizeof "struct iav_vin_idsp_delay_info");
   IAV_IOCTL "IAV_IOC_SET_VOUT_MAX_RES_CFG" IAV_MAGIC_ENC IAV_ARG_PTR IAV_DIR_W (sizeof "struct vout_max_res_params") IAV_CLS_PLAIN IAV_F_STATE 0;
   IAV_IOCTL "IAV_IOC_SET_YUV_REMAP_INSERT" IAV_MAGIC_ENC IAV_ARG_PTR IAV_DIR_W (sizeof "struct iav_yuv_remap") IAV_CLS_OFFSET_FD 0 0;
   IAV_IOCTL "IAV_IOC_START_ENCODE" IAV_MAGIC_ENC IAV_ARG_VALUE IAV_DIR_W 0 IAV_CLS_PLAIN IAV_F_STATE 0;
   IAV_IOCTL "IAV_IOC_STOP_ENCODE" IAV_MAGIC_ENC IAV_ARG_VALUE IAV_DIR_W 0 IAV_CLS_PLAIN IAV_F_STATE 0;
   IAV_IOCTL "IAV_IOC_SYNC_CACHE_MEM_PART" IAV_MAGIC_ENC IAV_ARG_PTR IAV_DIR_W (sizeof "struct iav_sync_cache_mem_part") IAV_CLS_OFFSET_FD 0 0;
   IAV_IOCTL "IAV_IOC_SYNC_VIN_FRAME" IAV_MAGIC_ENC IAV_ARG_PTR IAV_DIR_W (sizeof "struct iav_sync_vin_frame") IAV_CLS_PLAIN 0 0;
   IAV_IOCTL "IAV_IOC_UNREGISTER_ANON_MEM_PART" IAV_MAGIC_ENC IAV_ARG_PTR IAV_DIR_RW (sizeof "u8") IAV_CLS_PLAIN 0 (sizeof "struct iav_anon_mem_part");
   IAV_IOCTL "IAV_IOC_VIN_AAA_COMPENSATION" IAV_MAGIC_VIN IAV_ARG_PTR IAV_DIR_RW (sizeof "struct vindev_wdr_gp_info") IAV_CLS_OFFSET_FD IAV_F_LEADING_ID 0;
   IAV_IOCTL "IAV_IOC_VIN_GET_AAAINFO" IAV_MAGIC_VIN IAV_ARG_PTR IAV_DIR_R (sizeof "struct vindev_aaa_info") IAV_CLS_OFFSET_FD IAV_F_LEADING_ID 0;
   IAV_IOCTL "IAV_IOC_VIN_GET_AGC" IAV_MAGIC_VIN IAV_ARG_PTR IAV_DIR_RW (sizeof "struct vindev_agc") IAV_CLS_PLAIN IAV_F_LEADING_ID 0;
   IAV_IOCTL "IAV_IOC_VIN_GET_CHIP_STATUS" IAV_MAGIC_VIN IAV_ARG_PTR IAV_DIR_RW (sizeof "struct vindev_chip_status") IAV_CLS_PLAIN IAV_F_LEADING_ID 0;
   IAV_IOCTL "IAV_IOC_VIN_GET_DEVINFO" IAV_MAGIC_VIN IAV_ARG_PTR IAV_DIR_R (sizeof "struct vindev_devinfo") IAV_CLS_PLAIN IAV_F_LEADING_ID 0;
   IAV_IOCTL "IAV_IOC_VIN_GET_DGAIN_RATIO" IAV_MAGIC_VIN IAV_ARG_PTR IAV_DIR_R (sizeof "struct vindev_dgain_ratio") IAV_CLS_PLAIN IAV_F_LEADING_ID 0;
   IAV_IOCTL "IAV_IOC_VIN_GET_EISINFO" IAV_MAGIC_VIN IAV_ARG_PTR IAV_DIR_R (sizeof "struct vindev_eisinfo") IAV_CLS_PLAIN IAV_F_LEADING_ID 0;
   IAV_IOCTL "IAV_IOC_VIN_GET_FPS" IAV_MAGIC_VIN IAV_ARG_PTR IAV_DIR_R (sizeof "struct vindev_fps") IAV_CLS_PLAIN IAV_F_LEADING_ID 0;
   IAV_IOCTL "IAV_IOC_VIN_GET_GLOBAL_INFO" IAV_MAGIC_VIN IAV_ARG_PTR IAV_DIR_R (sizeof "struct vin_global_info") IAV_CLS_PLAIN 0 0;
   IAV_IOCTL "IAV_IOC_VIN_GET_MIRROR" IAV_MAGIC_VIN IAV_ARG_PTR IAV_DIR_R (sizeof "struct vindev_mirror") IAV_CLS_PLAIN IAV_F_LEADING_ID 0;
   IAV_IOCTL "IAV_IOC_VIN_GET_MODE" IAV_MAGIC_VIN IAV_ARG_PTR IAV_DIR_R (sizeof "struct vindev_mode") IAV_CLS_PLAIN IAV_F_LEADING_ID 0;
   IAV_IOCTL "IAV_IOC_VIN_GET_MSYNC" IAV_MAGIC_VIN IAV_ARG_PTR IAV_DIR_R (sizeof "struct vindev_msync_cfg") IAV_CLS_OFFSET_FD IAV_F_LEADING_ID 0;
   IAV_IOCTL "IAV_IOC_VIN_GET_REG" IAV_MAGIC_VIN IAV_ARG_PTR IAV_DIR_RW (sizeof "struct vindev_reg") IAV_CLS_PHYS IAV_F_LEADING_ID 0;
   IAV_IOCTL "IAV_IOC_VIN_GET_SHUTTER" IAV_MAGIC_VIN IAV_ARG_PTR IAV_DIR_RW (sizeof "struct vindev_shutter") IAV_CLS_PLAIN IAV_F_LEADING_ID 0;
   IAV_IOCTL "IAV_IOC_VIN_GET_VIDEOINFO" IAV_MAGIC_VIN IAV_ARG_PTR IAV_DIR_RW (sizeof "struct vindev_video_info") IAV_CLS_PLAIN IAV_F_LEADING_ID 0;
   IAV_IOCTL "IAV_IOC_VIN_GET_VIRT_MODE" IAV_MAGIC_VIN IAV_ARG_PTR IAV_DIR_R (sizeof "struct vindev_virt_mode") IAV_CLS_OFFSET_FD IAV_F_LEADING_ID 0;
   IAV_IOCTL "IAV_IOC_VIN_GET_WDR_AGAIN_INDEX_GP" IAV_MAGIC_VIN IAV_ARG_PTR IAV_DIR_R (sizeof "struct vindev_wdr_gp_s") IAV_CLS_OFFSET_FD IAV_F_LEADING_ID 0;
   IAV_IOCTL "IAV_IOC_VIN_GET_WDR_DGAIN_INDEX_GP" IAV_MAGIC_VIN IAV_ARG_PTR IAV_DIR_R (sizeof "struct vindev_wdr_gp_s") IAV_CLS_OFFSET_FD IAV_F_LEADING_ID 0;
   IAV_IOCTL "IAV_IOC_VIN_GET_WDR_SHUTTER_ROW_GP" IAV_MAGIC_VIN IAV_ARG_PTR IAV_DIR_R (sizeof "struct vindev_wdr_gp_s") IAV_CLS_OFFSET_FD IAV_F_LEADING_ID 0;
   IAV_IOCTL "IAV_IOC_VIN_LOCK_VSRC_CTX_FRAME_CNT" IAV_MAGIC_VIN IAV_ARG_PTR IAV_DIR_W (sizeof "struct vindev_lock_vsrc_ctx_frame_cnt") IAV_CLS_PLAIN IAV_F_LEADING_ID 0;
   IAV_IOCTL "IAV_IOC_VIN_SET_AE_CHECK" IAV_MAGIC_VIN IAV_ARG_PTR IAV_DIR_W (sizeof "struct vindev_ae_check") IAV_CLS_PLAIN IAV_F_LEADING_ID 0;
   IAV_IOCTL "IAV_IOC_VIN_SET_AGC" IAV_MAGIC_VIN IAV_ARG_PTR IAV_DIR_W (sizeof "struct vindev_agc") IAV_CLS_PLAIN IAV_F_LEADING_ID 0;
   IAV_IOCTL "IAV_IOC_VIN_SET_AGC_SHUTTER" IAV_MAGIC_VIN IAV_ARG_PTR IAV_DIR_W (sizeof "struct vindev_agc_shutter") IAV_CLS_PLAIN (Z.lor IAV_F_BLOCKING IAV_F_LEADING_ID) 0;
   IAV_IOCTL "IAV_IOC_VIN_SET_DEVINFO" IAV_MAGIC_VIN IAV_ARG_PTR IAV_DIR_W (sizeof "struct vindev_devinfo") IAV_CLS_PLAIN (Z.lor IAV_F_DEBUG IAV_F_LEADING_ID) 0;
   IAV_IOCTL "IAV_IOC_VIN_SET_DGAIN_RATIO" IAV_MAGIC_VIN IAV_ARG_PTR IAV_DIR_W (sizeof "struct vindev_dgain_ratio") IAV_CLS_PLAIN IAV_F_LEADING_ID 0;
   IAV_IOCTL "IAV_IOC_VIN_SET_FPS" IAV_MAGIC_VIN IAV_ARG_PTR IAV_DIR_W (sizeof "struct vindev_fps") IAV_CLS_PLAIN IAV_F_LEADING_ID 0;
   IAV_IOCTL "IAV_IOC_VIN_SET_GLOBAL_MODE" IAV_MAGIC_VIN IAV_ARG_PTR IAV_DIR_W (sizeof "struct vindev_mode_group") IAV_CLS_PLAIN (Z.lor IAV_F_STATE IAV_F_BLOCKING) 0;
   IAV_IOCTL "IAV_IOC_VIN_SET_LOW_LIGHT_MODE" IAV_MAGIC_VIN IAV_ARG_PTR IAV_DIR_W (sizeof "struct vindev_low_light_info") IAV_CLS_PLAIN IAV_F_LEADING_ID 0;
   IAV_IOCTL "IAV_IOC_VIN_SET_MIRROR" IAV_MAGIC_VIN IAV_ARG_PTR IAV_DIR_W (sizeof "struct vindev_mirror") IAV_CLS_PLAIN IAV_F_LEADING_ID 0;
   IAV_IOCTL "IAV_IOC_VIN_SET_MODE" IAV_MAGIC_VIN IAV_ARG_PTR IAV_DIR_W (sizeof "struct vindev_mode") IAV_CLS_PLAIN IAV_F_LEADING_ID 0;
   IAV_IOCTL "IAV_IOC_VIN_SET_MSYNC" IAV_MAGIC_VIN IAV_ARG_PTR IAV_DIR_W (sizeof "struct vindev_msync_cfg") IAV_CLS_OFFSET_FD IAV_F_LEADING_ID 0;
   IAV_IOCTL "IAV_IOC_VIN_SET_REG" IAV_MAGIC_VIN IAV_ARG_PTR IAV_DIR_W (sizeof "struct vindev_reg") IAV_CLS_PHYS (Z.lor IAV_F_DEBUG IAV_F_LEADING_ID) 0;
   IAV_IOCTL "IAV_IOC_VIN_SET_ROI_INFO" IAV_MAGIC_VIN IAV_ARG_PTR IAV_DIR_W (sizeof "struct vindev_roi_info") IAV_CLS_PLAIN IAV_F_LEADING_ID 0;
   IAV_IOCTL "IAV_IOC_VIN_SET_SHUTTER" IAV_MAGIC_VIN IAV_ARG_PTR IAV_DIR_W (sizeof "struct vindev_shutter") IAV_CLS_PLAIN IAV_F_LEADING_ID 0;
   IAV_IOCTL "IAV_IOC_VIN_SET_STREAM_MODE" IAV_MAGIC_VIN IAV_ARG_PTR IAV_DIR_W (sizeof "struct vindev_stream_mode") IAV_CLS_PLAIN IAV_F_LEADING_ID 0;
   IAV_IOCTL "IAV_IOC_VIN_SET_TP_MODE" IAV_MAGIC_VIN IAV_ARG_PTR IAV_DIR_W (sizeof "struct vindev_tp_mode") IAV_CLS_PLAIN IAV_F_LEADING_ID 0;
   IAV_IOCTL "IAV_IOC_VIN_SET_VIRT_MODE" IAV_MAGIC_VIN IAV_ARG_PTR IAV_DIR_W (sizeof "struct vindev_virt_mode") IAV_CLS_OFFSET_FD IAV_F_LEADING_ID 0;
   IAV_IOCTL "IAV_IOC_VIN_SET_WDR_GP" IAV_MAGIC_VIN IAV_ARG_PTR IAV_DIR_W (sizeof "struct vindev_wdr_gp_info") IAV_CLS_OFFSET_FD IAV_F_LEADING_ID 0;
   IAV_IOCTL "IAV_IOC_VIN_SHUTTER2ROW" IAV_MAGIC_VIN IAV_ARG_PTR IAV_DIR_RW (sizeof "struct vindev_shutter_row") IAV_CLS_PLAIN IAV_F_LEADING_ID 0;
   IAV_IOCTL "IAV_IOC_VIN_SWITCH_VSRC_CTX" IAV_MAGIC_VIN IAV_ARG_PTR IAV_DIR_W (sizeof "struct vindev_switch_vsrc_ctx") IAV_CLS_PLAIN IAV_F_LEADING_ID 0;
   IAV_IOCTL "IAV_IOC_VIN_UNLOCK_VSRC_CTX_FRAME_CNT" IAV_MAGIC_VIN IAV_ARG_PTR IAV_DIR_W (sizeof "struct vindev_unlock_vsrc_ctx_frame_cnt") IAV_CLS_PLAIN IAV_F_LEADING_ID 0;
   IAV_IOCTL "IAV_IOC_VIN_WDR_SHUTTER2OFFSET" IAV_MAGIC_VIN IAV_ARG_PTR IAV_DIR_RW (sizeof "struct vindev_wdr_gp_s") IAV_CLS_OFFSET_FD IAV_F_LEADING_ID 0;
   IAV_IOCTL "IAV_IOC_VIN_WDR_SHUTTER2ROW" IAV_MAGIC_VIN IAV_ARG_PTR IAV_DIR_RW (sizeof "struct vindev_wdr_gp_s") IAV_CLS_OFFSET_FD IAV_F_LEADING_ID 0;
   IAV_IOCTL "IAV_IOC_VOUT_CVBS_GET_PARAMS" IAV_MAGIC_VOUT IAV_ARG_PTR IAV_DIR_RW (sizeof "struct cvbs_info") IAV_CLS_PLAIN IAV_F_LEADING_ID 0;
   IAV_IOCTL "IAV_IOC_VOUT_CVBS_SET_BLACKLEVEL" IAV_MAGIC_VOUT IAV_ARG_PTR IAV_DIR_W (sizeof "struct setval_s") IAV_CLS_PLAIN IAV_F_LEADING_ID 0;
   IAV_IOCTL "IAV_IOC_VOUT_CVBS_SET_BLANKLEVEL" IAV_MAGIC_VOUT IAV_ARG_PTR IAV_DIR_W (sizeof "struct setval_s") IAV_CLS_PLAIN IAV_F_LEADING_ID 0;
   IAV_IOCTL "IAV_IOC_VOUT_CVBS_SET_CGAIN" IAV_MAGIC_VOUT IAV_ARG_PTR IAV_DIR_W (sizeof "struct setval_s") IAV_CLS_PLAIN IAV_F_LEADING_ID 0;
   IAV_IOCTL "IAV_IOC_VOUT_CVBS_SET_COLORBAR" IAV_MAGIC_VOUT IAV_ARG_PTR IAV_DIR_W (sizeof "struct setval_s") IAV_CLS_PLAIN IAV_F_LEADING_ID 0;
   IAV_IOCTL "IAV_IOC_VOUT_CVBS_SET_SYNCLEVEL" IAV_MAGIC_VOUT IAV_ARG_PTR IAV_DIR_W (sizeof "struct setval_s") IAV_CLS_PLAIN IAV_F_LEADING_ID 0;
   IAV_IOCTL "IAV_IOC_VOUT_CVBS_SET_YGAIN" IAV_MAGIC_VOUT IAV_ARG_PTR IAV_DIR_W (sizeof "struct setval_s") IAV_CLS_PLAIN IAV_F_LEADING_ID 0;
   IAV_IOCTL "IAV_IOC_VOUT_GET_MODE" IAV_MAGIC_VOUT IAV_ARG_PTR IAV_DIR_RW (sizeof "struct voutdev_format") IAV_CLS_PLAIN IAV_F_LEADING_ID 0;
   IAV_IOCTL "IAV_IOC_VOUT_GET_PARAMS" IAV_MAGIC_VOUT IAV_ARG_PTR IAV_DIR_RW (sizeof "struct vout_params") IAV_CLS_PLAIN IAV_F_LEADING_ID 0;
   IAV_IOCTL "IAV_IOC_VOUT_HALT" IAV_MAGIC_VOUT IAV_ARG_PTR IAV_DIR_W (sizeof "int") IAV_CLS_PLAIN IAV_F_LEADING_ID 0;
   IAV_IOCTL "IAV_IOC_VOUT_MIPI_GET_PARAMS" IAV_MAGIC_VOUT IAV_ARG_PTR IAV_DIR_RW (sizeof "struct mipi_vout_info") IAV_CLS_PLAIN IAV_F_LEADING_ID 0;
   IAV_IOCTL "IAV_IOC_VOUT_MIPI_SET_TXIBCTRL" IAV_MAGIC_VOUT IAV_ARG_PTR IAV_DIR_W (sizeof "struct setval_s") IAV_CLS_PLAIN IAV_F_LEADING_ID 0;
   IAV_IOCTL "IAV_IOC_VOUT_MIPI_SET_TXPIB" IAV_MAGIC_VOUT IAV_ARG_PTR IAV_DIR_W (sizeof "struct setval_s") IAV_CLS_PLAIN IAV_F_LEADING_ID 0;
   IAV_IOCTL "IAV_IOC_VOUT_MIPI_SET_TXTERM" IAV_MAGIC_VOUT IAV_ARG_PTR IAV_DIR_W (sizeof "struct setval_s") IAV_CLS_PLAIN IAV_F_LEADING_ID 0;
   IAV_IOCTL "IAV_IOC_VOUT_MIPI_SET_TXVCMSET" IAV_MAGIC_VOUT IAV_ARG_PTR IAV_DIR_W (sizeof "struct setval_s") IAV_CLS_PLAIN IAV_F_LEADING_ID 0;
   IAV_IOCTL "IAV_IOC_VOUT_SET_MODE" IAV_MAGIC_VOUT IAV_ARG_PTR IAV_DIR_W (sizeof "struct voutdev_format") IAV_CLS_PLAIN (Z.lor IAV_F_STATE IAV_F_LEADING_ID) 0;
   IAV_IOCTL "IAV_IOC_VOUT_SET_PARAMS" IAV_MAGIC_VOUT IAV_ARG_PTR IAV_DIR_W (sizeof "struct vout_params") IAV_CLS_PLAIN IAV_F_LEADING_ID 0;
   IAV_IOCTL "IAV_IOC_VOUT_SWITCH_VIDEO" IAV_MAGIC_VOUT IAV_ARG_PTR IAV_DIR_W (sizeof "struct vout_onoff") IAV_CLS_PLAIN IAV_F_LEADING_ID 0;
   IAV_IOCTL "IAV_IOC_VOUT_SYNC_IMG_OSD" IAV_MAGIC_VOUT IAV_ARG_PTR IAV_DIR_RW (sizeof "struct iav_vout_sync_img_osd_s") IAV_CLS_PHYS IAV_F_LEADING_ID 0;
   IAV_IOCTL "IAV_IOC_VOUT_SYNC_VIDEO_OSD" IAV_MAGIC_VOUT IAV_ARG_PTR IAV_DIR_RW (sizeof "struct iav_vout_sync_video_osd_s") IAV_CLS_PHYS IAV_F_LEADING_ID 0;
   IAV_IOCTL "IAV_IOC_WAIT_DECODE_BSB" IAV_MAGIC_DEC IAV_ARG_PTR IAV_DIR_RW (sizeof "struct iav_decode_bsb") IAV_CLS_OFFSET_FD 0 0;
   IAV_IOCTL "IAV_IOC_WAIT_IMG_SCALE" IAV_MAGIC_ENC IAV_ARG_PTR IAV_DIR_W (sizeof "struct iav_wait_img_scale") IAV_CLS_PLAIN IAV_F_BLOCKING 0;
   IAV_IOCTL "IAV_IOC_WAIT_NEXT_IDSP_FRAME" IAV_MAGIC_ENC IAV_ARG_VALUE IAV_DIR_W 0 IAV_CLS_PLAIN 0 0;
   IAV_IOCTL "IAV_IOC_WAIT_PLAYBACK_EOS" IAV_MAGIC_DEC IAV_ARG_PTR IAV_DIR_W (sizeof "struct iav_decode_wait_eos") IAV_CLS_PLAIN IAV_F_BLOCKING 0;
   IAV_IOCTL "IAV_IOC_WAIT_RAW_ENCODE" IAV_MAGIC_ENC IAV_ARG_PTR IAV_DIR_W (sizeof "u8") IAV_CLS_PLAIN IAV_F_BLOCKING (sizeof "u32");
   IAV_IOCTL "IAV_IOC_WAIT_SKIP_IDSP_CFG" IAV_MAGIC_ENC IAV_ARG_VALUE IAV_DIR_W 0 IAV_CLS_PLAIN 0 0].

Definition a_cmd (a : iav_allow) : Z := ioc (a_name a).

Definition BOTH : Z :=
  Z.lor (IAV_PROFILE_BIT IAV_PROFILE_CONSUMER)
    (Z.lor (IAV_PROFILE_BIT IAV_PROFILE_QUALIFICATION) (IAV_PROFILE_BIT IAV_PROFILE_PRIMARY)).
Definition PRIMARY_SET : Z :=
  Z.lor (IAV_PROFILE_BIT IAV_PROFILE_QUALIFICATION) (IAV_PROFILE_BIT IAV_PROFILE_PRIMARY).

Definition allow (name : string) (profiles flags : Z) (check : option check_fn) (post : option post_fn) : iav_allow :=
  {| a_name := name; a_profiles := profiles; a_add_flags := flags; a_check := check; a_post := post |}.

Definition g_allow : list iav_allow :=
  [
   allow "IAV_IOC_GET_IAV_STATE" BOTH 0 None None;
   allow "IAV_IOC_GET_CHIP_ID" BOTH 0 None None;
   allow "IAV_IOC_QUERY_ENC_MODE_CAP" BOTH 0 None None;
   allow "IAV_IOC_QUERY_ENC_BUF_CAP" BOTH 0 None None;
   allow "IAV_IOC_QUERY_IAV_CAP" BOTH 0 None None;
   allow "IAV_IOC_GET_SYSTEM_RESOURCE" BOTH 0 None None;
   allow "IAV_IOC_GET_CHAN_CONFIG" BOTH 0 None None;
   allow "IAV_IOC_GET_CANVAS_CONFIG" BOTH 0 None None;
   allow "IAV_IOC_DRV_DSP_INFO" BOTH 0 None None;
   allow "IAV_IOC_QUERY_INFO" BOTH 0 None None;
   allow "IAV_IOC_QUERY_MEMBLOCK" BOTH 0 None None;
   allow "IAV_IOC_QUERY_DESC" BOTH (Z.lor IAV_F_BOUNDED_DESC IAV_F_WINDOW) (Some C_check_query_desc) None;
   allow "IAV_IOC_SET_POLL_EVENT_CFG" BOTH 0 (Some C_check_poll_cfg) None;
   allow "IAV_IOC_CLEAR_POLL_EVENT_CFG" BOTH 0 None None;
   allow "IAV_IOC_WAIT_NEXT_IDSP_FRAME" BOTH 0 None None;
   allow "IAV_IOC_CREATE_DECODER" PRIMARY_SET IAV_F_WINDOW (Some C_check_create_decoder) None;
   allow "IAV_IOC_DECODE_JPEG" PRIMARY_SET IAV_F_WINDOW (Some C_check_decode_jpeg) None;
   allow "IAV_IOC_DECODE_VIDEO" PRIMARY_SET IAV_F_WINDOW (Some C_check_decode_video) None;
   allow "IAV_IOC_QUERY_DECODE_BSB" PRIMARY_SET IAV_F_WINDOW (Some C_check_decode_bsb) None;
   allow "IAV_IOC_WAIT_DECODE_BSB" PRIMARY_SET IAV_F_WINDOW (Some C_check_decode_bsb) None;
   allow "IAV_IOC_QUERY_DECODE_STATUS" PRIMARY_SET 0 (Some C_check_decode_status) (Some P_post_decode_status);
   allow "IAV_IOC_WAIT_PLAYBACK_EOS" PRIMARY_SET 0 (Some C_check_wait_eos) None;
   allow "IAV_IOC_SET_OVERLAY_INSERT" PRIMARY_SET IAV_F_WINDOW (Some C_check_set_overlay) None;
   allow "IAV_IOC_GET_OVERLAY_INSERT" PRIMARY_SET IAV_F_WINDOW (Some C_check_get_overlay) None;
   allow "IAV_IOC_SET_CHAN_CONFIG" PRIMARY_SET 0 (Some C_check_chan_cfg_pinned) None;
   allow "IAV_IOC_SET_SYSTEM_RESOURCE" PRIMARY_SET 0 (Some C_check_system_resource_pinned) None;
   allow "IAV_IOC_SET_IMG_SCALE" PRIMARY_SET IAV_F_WINDOW (Some C_check_img_scale) None;
   allow "IAV_IOC_WAIT_IMG_SCALE" PRIMARY_SET 0 None None;
   allow "IAV_IOC_GET_VIDEO_PROC" PRIMARY_SET 0 (Some C_check_get_vproc) None;
   allow "IAV_IOC_GET_VIN_IDSP_CFG" PRIMARY_SET 0 (Some C_check_get_vin_idsp) None;
   allow "IAV_IOC_WAIT_SKIP_IDSP_CFG" PRIMARY_SET 0 None None;
   allow "IAV_IOC_GET_WARP_CTRL" PRIMARY_SET 0 None None;
   allow "IAV_IOC_SET_BLUR_INSERT" PRIMARY_SET IAV_F_WINDOW (Some C_check_set_blur) None;
   allow "IAV_IOC_GET_BLUR_INSERT" PRIMARY_SET 0 None None;
   allow "IAV_IOC_GET_YUV_REMAP_INSERT" PRIMARY_SET 0 None None;
   allow "IAV_IOC_GET_FRAME_SYNC_PROC" PRIMARY_SET 0 None None;
   allow "IAV_IOC_CFG_CANVAS_FRAME_SYNC_PROC" PRIMARY_SET IAV_F_WINDOW (Some C_check_canvas_sync) None;
   allow "IAV_IOC_GET_CANVAS_FRAME_SYNC_PROC" PRIMARY_SET 0 None None;
   allow "IAV_IOC_GET_STREAM_CONFIG" PRIMARY_SET 0 None None;
   allow "IAV_IOC_QUERY_MEM_LAYOUT_INFO" PRIMARY_SET 0 None None;
   allow "IAV_IOC_GDMA_COPY" PRIMARY_SET IAV_F_WINDOW (Some C_check_gdma_copy) None;
   allow "IAV_IOC_SYNC_CACHE_MEM_PART" PRIMARY_SET IAV_F_WINDOW (Some C_check_sync_cache) None;
   allow "IAV_IOC_GET_ISP_NN_CFG" PRIMARY_SET 0 None (Some P_post_isp_nn);
   allow "IAV_IOC_EFM_GET_POOL_INFO" PRIMARY_SET 0 (Some C_check_efm_pool_info) None;
   allow "IAV_IOC_EFM_RELEASE_ALL_FRAMES" PRIMARY_SET IAV_F_WIRE_AUDITED (Some C_check_efm_release_all) None;
   allow "IAV_IOC_FEED_CANVAS_BUF" PRIMARY_SET 0 None None;
   allow "IAV_IOC_RELEASE_CANVAS_BUF" PRIMARY_SET 0 (Some C_check_release_canvas) None;
   allow "IAV_IOC_FEED_PYRAMID_BUF" PRIMARY_SET 0 None None;
   allow "IAV_IOC_RELEASE_PYRAMID_BUF" PRIMARY_SET 0 (Some C_check_release_pyramid) None;
   allow "IAV_IOC_FEED_RAW_BUF" PRIMARY_SET 0 None None;
   allow "IAV_IOC_RELEASE_RAW_BUF" PRIMARY_SET IAV_F_WIRE_AUDITED (Some C_check_release_raw) None;
   allow "IAV_IOC_CFG_VIDEO_PROC" PRIMARY_SET IAV_F_WINDOW (Some C_check_cfg_vproc) None;
   allow "IAV_IOC_CFG_WARP_CTRL" PRIMARY_SET IAV_F_WINDOW (Some C_check_warp_ctrl) None;
   allow "IAV_IOC_SET_STREAM_CONFIG" PRIMARY_SET IAV_F_WINDOW (Some C_check_stream_cfg) None;
   allow "IAV_IOC_CFG_FRAME_SYNC_PROC" PRIMARY_SET IAV_F_WINDOW (Some C_check_stream_cfg) None;
   allow "IAV_IOC_SET_YUV_REMAP_INSERT" PRIMARY_SET IAV_F_WINDOW (Some C_check_set_yuv_remap) None;
   allow "IAV_IOC_CE_GO_MAP_REQUEST_BUFFER" PRIMARY_SET IAV_F_WINDOW (Some C_check_ce_request) None;
   allow "IAV_IOC_CE_GO_MAP_HANDSHAKE_BUFFER" PRIMARY_SET IAV_F_WINDOW (Some C_check_ce_handshake) None;
   allow "IAV_IOC_IMG_GET_MISC_INFO" PRIMARY_SET IAV_F_INLINE (Some C_check_misc_info) (Some P_post_misc_info);
   allow "IAV_IOC_APPLY_VIDEO_PROC" PRIMARY_SET IAV_F_WIRE_AUDITED (Some C_check_apply_vproc) None;
   allow "IAV_IOC_APPLY_WARP_CTRL" PRIMARY_SET IAV_F_WIRE_AUDITED (Some C_check_apply_warp) None;
   allow "IAV_IOC_APPLY_FRAME_SYNC_PROC" PRIMARY_SET IAV_F_WIRE_AUDITED None None;
   allow "IAV_IOC_APPLY_CANVAS_FRAME_SYNC_PROC" PRIMARY_SET IAV_F_WIRE_AUDITED (Some C_check_apply_canvas_sync) None].

(** The names in tools/iav_allow_primary.inc, and the array of their numbers. *)
Definition primary_names : list string :=
  [
   "IAV_IOC_ABORT_ENCODE";
   "IAV_IOC_APPLY_CANVAS_FRAME_SYNC_PROC";
   "IAV_IOC_APPLY_FRAME_SYNC_PROC";
   "IAV_IOC_APPLY_IDSP_ENC_SYNC_PROC";
   "IAV_IOC_APPLY_IDSP_SYNC_PROC";
   "IAV_IOC_APPLY_MULTI_REGION_DPTZ_CTRL";
   "IAV_IOC_APPLY_VIDEO_PROC";
   "IAV_IOC_APPLY_WARP_CTRL";
   "IAV_IOC_APPLY_WARP_CTRL_IDSP_FRAME_SYNC";
   "IAV_IOC_CFG_MULTI_REGION_DPTZ_CTRL";
   "IAV_IOC_CLEAR_POLL_EVENT_CFG";
   "IAV_IOC_DECODE_SPEED";
   "IAV_IOC_DECODE_START";
   "IAV_IOC_DECODE_STOP";
   "IAV_IOC_DECODE_TRICK_PLAY";
   "IAV_IOC_DESTROY_DECODER";
   "IAV_IOC_DRV_DSP_INFO";
   "IAV_IOC_ENABLE_PREVIEW";
   "IAV_IOC_ENTER_DECODE_MODE";
   "IAV_IOC_ENTER_IDLE";
   "IAV_IOC_GET_AUDIT_CONFIG";
   "IAV_IOC_GET_BLUR_COLOR";
   "IAV_IOC_GET_CHIP_ID";
   "IAV_IOC_GET_DSP_HEALTH_CONFIG";
   "IAV_IOC_GET_FPS_SUGGEST";
   "IAV_IOC_GET_H264_CONFIG";
   "IAV_IOC_GET_H265_CONFIG";
   "IAV_IOC_GET_IAV_STATE";
   "IAV_IOC_GET_MEM_LAYOUT_RESOURCE";
   "IAV_IOC_GET_MJPEG_CONFIG";
   "IAV_IOC_GET_MULTI_REGION_DPTZ_CTRL";
   "IAV_IOC_GET_POSTP_SCALE_CTRL";
   "IAV_IOC_GET_PYRAMID_CFG";
   "IAV_IOC_GET_RAW_ENCODE";
   "IAV_IOC_GET_STREAM_RESOURCE";
   "IAV_IOC_GET_SYSTEM_RESOURCE";
   "IAV_IOC_GET_VCAP_CFG";
   "IAV_IOC_GET_VIN_COMPAND_CFG";
   "IAV_IOC_IMG_GET_STATISTICS_REPORT_RATE";
   "IAV_IOC_IMG_GET_VIN_PTS_INFO";
   "IAV_IOC_IMG_SET_STATISTICS_REPORT_RATE";
   "IAV_IOC_LEAVE_DECODE_MODE";
   "IAV_IOC_QUERY_ENC_BUF_CAP";
   "IAV_IOC_QUERY_ENC_MODE_CAP";
   "IAV_IOC_QUERY_IAV_CAP";
   "IAV_IOC_SET_AUDIT_CONFIG";
   "IAV_IOC_SET_BLUR_COLOR";
   "IAV_IOC_SET_CANVAS_CONFIG";
   "IAV_IOC_SET_CHAN_CONFIG";
   "IAV_IOC_SET_DSP_HEALTH_CONFIG";
   "IAV_IOC_SET_H264_CONFIG";
   "IAV_IOC_SET_H265_CONFIG";
   "IAV_IOC_SET_MJPEG_CONFIG";
   "IAV_IOC_SET_POLL_EVENT_CFG";
   "IAV_IOC_SET_POSTP_SCALE_CTRL";
   "IAV_IOC_SET_PYRAMID_CFG";
   "IAV_IOC_SET_STREAM_RESOURCE";
   "IAV_IOC_SET_SYSTEM_RESOURCE";
   "IAV_IOC_SET_VCAP_CFG";
   "IAV_IOC_SET_VIN_COMPAND_CFG";
   "IAV_IOC_SET_VIN_IDSP_DELAY_INFO";
   "IAV_IOC_SET_VOUT_MAX_RES_CFG";
   "IAV_IOC_START_ENCODE";
   "IAV_IOC_STOP_ENCODE";
   "IAV_IOC_SYNC_VIN_FRAME";
   "IAV_IOC_VIN_AAA_COMPENSATION";
   "IAV_IOC_VIN_GET_AAAINFO";
   "IAV_IOC_VIN_GET_AGC";
   "IAV_IOC_VIN_GET_CHIP_STATUS";
   "IAV_IOC_VIN_GET_DEVINFO";
   "IAV_IOC_VIN_GET_DGAIN_RATIO";
   "IAV_IOC_VIN_GET_EISINFO";
   "IAV_IOC_VIN_GET_FPS";
   "IAV_IOC_VIN_GET_GLOBAL_INFO";
   "IAV_IOC_VIN_GET_MIRROR";
   "IAV_IOC_VIN_GET_MODE";
   "IAV_IOC_VIN_GET_MSYNC";
   "IAV_IOC_VIN_GET_SHUTTER";
   "IAV_IOC_VIN_GET_VIDEOINFO";
   "IAV_IOC_VIN_GET_VIRT_MODE";
   "IAV_IOC_VIN_GET_WDR_AGAIN_INDEX_GP";
   "IAV_IOC_VIN_GET_WDR_DGAIN_INDEX_GP";
   "IAV_IOC_VIN_GET_WDR_SHUTTER_ROW_GP";
   "IAV_IOC_VIN_LOCK_VSRC_CTX_FRAME_CNT";
   "IAV_IOC_VIN_SET_AE_CHECK";
   "IAV_IOC_VIN_SET_AGC";
   "IAV_IOC_VIN_SET_AGC_SHUTTER";
   "IAV_IOC_VIN_SET_DGAIN_RATIO";
   "IAV_IOC_VIN_SET_FPS";
   "IAV_IOC_VIN_SET_GLOBAL_MODE";
   "IAV_IOC_VIN_SET_LOW_LIGHT_MODE";
   "IAV_IOC_VIN_SET_MIRROR";
   "IAV_IOC_VIN_SET_MODE";
   "IAV_IOC_VIN_SET_MSYNC";
   "IAV_IOC_VIN_SET_ROI_INFO";
   "IAV_IOC_VIN_SET_SHUTTER";
   "IAV_IOC_VIN_SET_STREAM_MODE";
   "IAV_IOC_VIN_SET_TP_MODE";
   "IAV_IOC_VIN_SET_VIRT_MODE";
   "IAV_IOC_VIN_SET_WDR_GP";
   "IAV_IOC_VIN_SHUTTER2ROW";
   "IAV_IOC_VIN_SWITCH_VSRC_CTX";
   "IAV_IOC_VIN_UNLOCK_VSRC_CTX_FRAME_CNT";
   "IAV_IOC_VIN_WDR_SHUTTER2OFFSET";
   "IAV_IOC_VIN_WDR_SHUTTER2ROW";
   "IAV_IOC_VOUT_CVBS_GET_PARAMS";
   "IAV_IOC_VOUT_GET_MODE";
   "IAV_IOC_VOUT_GET_PARAMS";
   "IAV_IOC_VOUT_HALT";
   "IAV_IOC_VOUT_MIPI_GET_PARAMS";
   "IAV_IOC_VOUT_SET_MODE";
   "IAV_IOC_VOUT_SET_PARAMS";
   "IAV_IOC_VOUT_SWITCH_VIDEO";
   "IAV_IOC_WAIT_NEXT_IDSP_FRAME"]%string.

Definition g_primary_allow : list Z := map ioc primary_names.

(** ** Applying the lists *)

(** The order of [cmp_index]: by number, then [strcmp] of the names. *)
Definition entry_le (x y : iav_policy_entry) : Prop :=
  if negb (e_cmd x =? e_cmd y) then e_cmd x < e_cmd y else String.le (e_name x) (e_name y).

#[export] Instance entry_le_dec x y : Decision (entry_le x y).
Proof. unfold entry_le. destruct (negb _); apply _. Defined.

(** The assignments of the hand-written list to an entry, and those of the primary list. *)
Definition apply_allow (a : iav_allow) (e : iav_policy_entry) : iav_policy_entry :=
  {| e_cmd := e_cmd e; e_name := e_name e; e_magic := e_magic e; e_kind := e_kind e; e_dir := e_dir e;
     e_size := e_size e; e_wire := e_wire e; e_cls := e_cls e; e_flags := Z.lor (e_flags e) (a_add_flags a);
     e_profiles := a_profiles a; e_check := a_check a; e_post := a_post a |}.

Definition apply_primary (e : iav_policy_entry) : iav_policy_entry :=
  {| e_cmd := e_cmd e; e_name := e_name e; e_magic := e_magic e; e_kind := e_kind e; e_dir := e_dir e;
     e_size := e_size e; e_wire := e_wire e; e_cls := e_cls e; e_flags := e_flags e;
     e_profiles := Z.lor (e_profiles e) PRIMARY_SET; e_check := e_check e; e_post := e_post e |}.

(** Change the first entry with this command; [None] when there is none. *)
Definition update_cmd (cmd : Z) (f : iav_policy_entry -> iav_policy_entry) (table : list iav_policy_entry)
    : option (list iav_policy_entry) :=
  match find_idx (fun e => e_cmd e =? cmd) table with
  | Some j => Some (alter f j table)
  | None => None
  end.

(** The two loops over the lists; [false] when a command is not in the table, with what was done up to there. *)
Fixpoint allow_loop (l : list iav_allow) (table : list iav_policy_entry) : bool * list iav_policy_entry :=
  match l with
  | [] => (true, table)
  | a :: rest =>
      match update_cmd (a_cmd a) (apply_allow a) table with
      | Some table' => allow_loop rest table'
      | None => (false, table)
      end
  end.

Fixpoint primary_loop (l : list Z) (table : list iav_policy_entry) : bool * list iav_policy_entry :=
  match l with
  | [] => (true, table)
  | c :: rest =>
      match update_cmd c apply_primary table with
      | Some table' => primary_loop rest table'
      | None => (false, table)
      end
  end.

(** Two neighbours of the sorted table with one number. *)
Fixpoint has_duplicate (l : list iav_policy_entry) : bool :=
  match l with
  | x :: ((y :: _) as rest) => (e_cmd x =? e_cmd y) || has_duplicate rest
  | _ => false
  end.

Definition reset_entry (e : iav_policy_entry) : iav_policy_entry :=
  {| e_cmd := e_cmd e; e_name := e_name e; e_magic := e_magic e; e_kind := e_kind e; e_dir := e_dir e;
     e_size := e_size e; e_wire := e_wire e; e_cls := e_cls e; e_flags := e_flags e;
     e_profiles := 0; e_check := None; e_post := None |}.

(** The globals: [g_table], [g_ready], and whether [g_index] was filled. The index holds pointers into the
    table, so its contents are the entries of the table in the order of [cmp_index]. *)
Record policy := { pol_table : list iav_policy_entry; pol_sorted : bool; pol_ready : bool }.

Definition policy0 : policy := {| pol_table := g_table; pol_sorted := false; pol_ready := false |}.

Definition g_index (pol : policy) : list iav_policy_entry :=
  if pol_sorted pol then merge_sort entry_le (pol_table pol) else [].

Definition iav_policy_init (pol : policy) : Z * policy :=
  if pol_ready pol then (0, pol)
  else
    let st table ready := {| pol_table := table; pol_sorted := true; pol_ready := ready |} in
    let table := map reset_entry (pol_table pol) in
    if has_duplicate (merge_sort entry_le table) then (-2, st table false)
    else
      let '(ok1, table1) := allow_loop g_allow table in
      if negb ok1 then (-1, st table1 false)
      else
        let '(ok2, table2) := primary_loop g_primary_allow table1 in
        if negb ok2 then (-1, st table2 false) else (0, st table2 true).

Definition iav_policy_count (pol : policy) : nat := length (pol_table pol).

Definition iav_policy_at (pol : policy) (index : nat) : option iav_policy_entry :=
  if Nat.ltb index (iav_policy_count pol) then g_index pol !! index else None.

(** The loop of [iav_policy_lookup]: [lo] and [hi] bound the part of the index still searched. *)
Fixpoint lookup_loop (fuel : nat) (index : list iav_policy_entry) (cmd : Z) (lo hi : nat)
    : option (option iav_policy_entry) :=
  match fuel with
  | O => None
  | S fuel' =>
      if negb (Nat.ltb lo hi) then Some None
      else
        let mid := (lo + (hi - lo) / 2)%nat in
        match index !! mid with
        | None => None
        | Some e =>
            if e_cmd e =? cmd then Some (Some e)
            else if e_cmd e <? cmd then lookup_loop fuel' index cmd (mid + 1) hi
            else lookup_loop fuel' index cmd lo mid
        end
  end.

(** The entry of a command; [None] for NULL. The outer [None] stands for a search that reads outside the index
    or does not end. *)
Definition iav_policy_lookup (pol : policy) (cmd : Z) : option (option iav_policy_entry) * policy :=
  let '(rc, pol') := if pol_ready pol then (0, pol) else iav_policy_init pol in
  if negb (rc =? 0) then (Some None, pol')
  else (lookup_loop (S (iav_policy_count pol')) (g_index pol') cmd 0 (iav_policy_count pol'), pol').

(** [iav_table_hash_u32] and the hash two sides compare: FNV-1a 64 over the rows. *)
Definition IAV_TABLE_HASH_INIT : Z := 0xcbf29ce484222325.

Definition fnv_byte (h v : Z) (i : Z) : Z :=
  u64 (Z.lxor h (Z.land (Z.shiftr v (8 * i)) 0xff) * 0x100000001b3).

Definition iav_table_hash_u32 (h v : Z) : Z := fold_left (fun h i => fnv_byte h v i) [0; 1; 2; 3] h.

End WithAbi.
