(* ===== verification/IavTableProps.v ===== *)
(** * What the allow-list lets through

    [Module TableProps]: once [iav_policy_init] succeeded, the binary search finds exactly the entry of a command
    ([policy_lookup_exact]) and the profiles of every entry are the ones the lists name ([policy_profiles_exact]),
    whatever numbers the vendor's header gives the ioctls. *)

From stdpp Require Import base list sorting strings.
From Stdlib Require Import ZArith Lia.
From S2P Require Import Prelude Text IavTable.

Module TableProps.

Section WithAbi.
Context `{Abi : IavAbi}.

(** The tables are unfolded only where a computation over their rows is meant. *)
#[local] Opaque g_table g_allow g_primary_allow primary_names.

(** ** The table after the lists *)

Lemma update_cmd_map c f table table' :
  NoDup (map e_cmd table) -> update_cmd c f table = Some table' ->
  table' = map (fun e => if e_cmd e =? c then f e else e) table /\ c ∈ map e_cmd table.
Proof.
  unfold update_cmd. intros Hnd. destruct (find_idx _ table) as [j|] eqn:E; [|done]. intros [= <-].
  apply find_idx_Some in E as (e & He & Hc & Hbefore). apply Z.eqb_eq in Hc. split.
  2:{ apply list_elem_of_fmap. exists e. split; [done|]. by eapply list_elem_of_lookup_2. }
  apply list_eq. intros i. rewrite list_lookup_fmap. destruct (decide (i = j)) as [->|Hne].
  - rewrite list_lookup_alter_eq, He. cbn. by rewrite Hc, Z.eqb_refl.
  - rewrite list_lookup_alter_ne by done. destruct (table !! i) as [e'|] eqn:Ei; [|done]. cbn.
    destruct (Z.eqb_spec (e_cmd e') c) as [Hc'|]; [|done]. exfalso. apply Hne.
    apply (NoDup_lookup (map e_cmd table) i j c Hnd); rewrite list_lookup_fmap; [rewrite Ei|rewrite He]; cbn; by f_equal.
Qed.

(** What the first list does to an entry, one line after the other, and the second. *)
Definition allow_entry (l : list iav_allow) (e : iav_policy_entry) : iav_policy_entry :=
  fold_left (fun e a => if e_cmd e =? a_cmd a then apply_allow a e else e) l e.
Definition primary_entry (l : list Z) (e : iav_policy_entry) : iav_policy_entry :=
  fold_left (fun e c => if e_cmd e =? c then apply_primary e else e) l e.

Lemma allow_entry_cmd l e : e_cmd (allow_entry l e) = e_cmd e.
Proof.
  revert e. induction l as [|a l IH]; intros e; [done|]. unfold allow_entry in *. cbn. rewrite IH. by destruct (_ =? _).
Qed.

Lemma allow_loop_map l table table' :
  NoDup (map e_cmd table) -> allow_loop l table = (true, table') ->
  table' = map (allow_entry l) table /\ Forall (fun a => a_cmd a ∈ map e_cmd table) l.
Proof.
  revert table. induction l as [|a l IH]; intros table Hnd; cbn.
  { intros [= <-]. split; [by rewrite map_id|constructor]. }
  destruct (update_cmd _ _ table) as [t1|] eqn:E; [|done]. apply update_cmd_map in E as [-> Hin]; [|done].
  intros H. assert (Hc : map e_cmd (map (fun e => if e_cmd e =? a_cmd a then apply_allow a e else e) table)
                         = map e_cmd table).
  { rewrite map_map. apply map_ext. intros e. by destruct (_ =? _). }
  apply IH in H as [-> Hl]; rewrite Hc in *; [|done]. split; [by rewrite map_map|by constructor].
Qed.

Lemma primary_loop_map l table table' :
  NoDup (map e_cmd table) -> primary_loop l table = (true, table') ->
  table' = map (primary_entry l) table /\ Forall (fun c => c ∈ map e_cmd table) l.
Proof.
  revert table. induction l as [|c l IH]; intros table Hnd; cbn.
  { intros [= <-]. split; [by rewrite map_id|constructor]. }
  destruct (update_cmd _ _ table) as [t1|] eqn:E; [|done]. apply update_cmd_map in E as [-> Hin]; [|done].
  intros H. assert (Hc : map e_cmd (map (fun e => if e_cmd e =? c then apply_primary e else e) table)
                         = map e_cmd table).
  { rewrite map_map. apply map_ext. intros e. by destruct (_ =? _). }
  apply IH in H as [-> Hl]; rewrite Hc in *; [|done]. split; [by rewrite map_map|by constructor].
Qed.

Lemma entry_le_cmd x y : entry_le x y -> e_cmd x <= e_cmd y.
Proof. unfold entry_le. destruct (Z.eqb_spec (e_cmd x) (e_cmd y)); cbn; lia. Qed.

#[local] Instance entry_le_total : Total entry_le.
Proof.
  intros x y. unfold entry_le. rewrite (Z.eqb_sym (e_cmd y)). destruct (Z.eqb_spec (e_cmd x) (e_cmd y)); cbn; [|lia].
  apply (total String.le).
Qed.

#[local] Instance entry_le_trans : Transitive entry_le.
Proof.
  intros x y z Hxy Hyz. pose proof (entry_le_cmd _ _ Hxy). pose proof (entry_le_cmd _ _ Hyz).
  unfold entry_le in *. destruct (Z.eqb_spec (e_cmd x) (e_cmd z)) as [Hxz|]; cbn; [|lia].
  rewrite (proj2 (Z.eqb_eq (e_cmd x) (e_cmd y))) in Hxy by lia.
  rewrite (proj2 (Z.eqb_eq (e_cmd y) (e_cmd z))) in Hyz by lia. cbn in *.
  by transitivity (e_name y).
Qed.

(** ** No two entries share a number *)

Lemma no_duplicate_increasing l :
  StronglySorted entry_le l -> has_duplicate l = false -> StronglySorted Z.lt (map e_cmd l).
Proof.
  induction 1 as [|x l Hs IH Hall]; intros Hd; cbn; constructor.
  - apply IH. destruct l; [done|]. cbn in Hd. by apply orb_false_elim in Hd as [_ ?].
  - destruct l as [|y l]; [constructor|]. cbn in Hd. apply orb_false_elim in Hd as [Hxy Hd].
    specialize (IH Hd). apply Forall_cons in Hall as [Hle Hall]. apply entry_le_cmd in Hle. apply Z.eqb_neq in Hxy.
    cbn in IH |- *. apply StronglySorted_inv in IH as [_ IH]. constructor; [lia|].
    eapply Forall_impl; [exact IH|]. cbn. intros. lia.
Qed.

Lemma increasing_NoDup (l : list Z) : StronglySorted Z.lt l -> NoDup l.
Proof.
  induction 1 as [|x l _ IH Hall]; constructor; [|done]. intros Hin. rewrite Forall_forall in Hall.
  specialize (Hall x Hin). lia.
Qed.

Lemma no_duplicate_NoDup table : has_duplicate (merge_sort entry_le table) = false -> NoDup (map e_cmd table).
Proof.
  intros H. assert (Hp : map e_cmd (merge_sort entry_le table) ≡ₚ map e_cmd table)
    by (apply fmap_Permutation, merge_sort_Permutation).
  rewrite <- Hp. apply increasing_NoDup, no_duplicate_increasing; [|done]. apply (StronglySorted_merge_sort entry_le).
Qed.

(** The entry a row of the generated table becomes. *)
Definition final_entry (e : iav_policy_entry) : iav_policy_entry :=
  primary_entry g_primary_allow (allow_entry g_allow (reset_entry e)).

(** A successful [iav_policy_init]. *)
Lemma policy_init_ok pol :
  iav_policy_init policy0 = (0, pol) ->
  pol_table pol = map final_entry g_table /\ pol_ready pol = true /\ pol_sorted pol = true /\
  NoDup (map e_cmd g_table) /\
  Forall (fun a => a_cmd a ∈ map e_cmd g_table) g_allow /\ Forall (fun c => c ∈ map e_cmd g_table) g_primary_allow.
Proof.
  unfold iav_policy_init, policy0. cbn [pol_ready pol_table].
  destruct (has_duplicate _) eqn:Ed; [done|]. apply no_duplicate_NoDup in Ed.
  assert (Hr : map e_cmd (map reset_entry g_table) = map e_cmd g_table) by (by rewrite map_map).
  destruct (allow_loop g_allow _) as [[] t1] eqn:E1; [|done]. cbn [negb].
  apply allow_loop_map in E1 as [-> H1]; [|done]. rewrite Hr in H1.
  assert (Ha : map e_cmd (map (allow_entry g_allow) (map reset_entry g_table)) = map e_cmd g_table).
  { rewrite <- Hr, !map_map. apply map_ext. intros e. apply allow_entry_cmd. }
  destruct (primary_loop g_primary_allow _) as [[] t2] eqn:E2; [|done]. cbn [negb].
  apply primary_loop_map in E2 as [-> H2]; rewrite Ha in *; [|by rewrite <- Hr].
  intros Heq. apply (f_equal snd) in Heq. cbn [snd] in Heq. subst pol. cbn [pol_table pol_ready pol_sorted].
  rewrite Hr in Ed. split; [unfold final_entry; by rewrite !map_map|]. tauto.
Qed.

Lemma final_entry_cmd e : e_cmd (final_entry e) = e_cmd e.
Proof.
  unfold final_entry. transitivity (e_cmd (allow_entry g_allow (reset_entry e))); [|by rewrite allow_entry_cmd].
  generalize (allow_entry g_allow (reset_entry e)). generalize g_primary_allow. unfold primary_entry.
  induction l as [|c l IH]; intros e'; [done|]. cbn. rewrite IH. by destruct (_ =? _).
Qed.

(** ** The binary search *)

Lemma sorted_lookup {A} (R : A -> A -> Prop) l i j x y :
  StronglySorted R l -> (i < j)%nat -> l !! i = Some x -> l !! j = Some y -> R x y.
Proof.
  intros Hs. revert i j. induction Hs as [|a l _ IH Hall]; intros i j Hij Hi Hj; [done|].
  destruct j as [|j]; [lia|]. destruct i as [|i]; cbn in *.
  - injection Hi as ->. by eapply Forall_lookup_1.
  - eapply (IH i j); [lia|done|done].
Qed.

Section Search.
Context (index : list iav_policy_entry) (cmd : Z).
Hypothesis Hsorted : StronglySorted Z.lt (map e_cmd index).

Lemma index_increasing i j x y :
  (i < j)%nat -> index !! i = Some x -> index !! j = Some y -> e_cmd x < e_cmd y.
Proof.
  intros Hij Hi Hj. apply (sorted_lookup Z.lt (map e_cmd index) i j); [done|done| |];
    rewrite list_lookup_fmap; [rewrite Hi|rewrite Hj]; done.
Qed.

Lemma lookup_loop_spec fuel lo hi :
  (hi <= length index)%nat -> (hi - lo < fuel)%nat ->
  (forall i e, index !! i = Some e -> e_cmd e = cmd -> (lo <= i < hi)%nat) ->
  exists r, lookup_loop fuel index cmd lo hi = Some r /\
            forall e, r = Some e <-> e ∈ index /\ e_cmd e = cmd.
Proof.
  revert lo hi. induction fuel as [|fuel IH]; intros lo hi Hhi Hf Hin; [lia|]. cbn [lookup_loop].
  destruct (Nat.ltb_spec lo hi) as [Hlt|Hge]; cbn [negb].
  2:{ exists None. split; [done|]. intros e. split; [done|]. intros [He Hc].
      apply list_elem_of_lookup_1 in He as [i Hi]. specialize (Hin i e Hi Hc). lia. }
  pose proof (Nat.div_lt (hi - lo) 2). set (mid := (lo + (hi - lo) / 2)%nat).
  assert (Hm : (lo <= mid < hi)%nat) by (unfold mid; lia).
  destruct (lookup_lt_is_Some_2 index mid) as [em Em]; [lia|]. rewrite Em.
  destruct (Z.eqb_spec (e_cmd em) cmd) as [Heq|Hne].
  { exists (Some em). split; [done|]. intros e. split; [intros [= <-]; split; [by eapply list_elem_of_lookup_2|done]|].
    intros [He Hc]. apply list_elem_of_lookup_1 in He as [i Hi]. destruct (Nat.lt_total i mid) as [Hl|[->|Hl]].
    - pose proof (index_increasing i mid e em Hl Hi Em). lia.
    - congruence.
    - pose proof (index_increasing mid i em e Hl Em Hi). lia. }
  destruct (Z.ltb_spec (e_cmd em) cmd) as [Hl|Hl].
  - apply IH; [lia|unfold mid in *; lia|]. intros i e Hi Hc. specialize (Hin i e Hi Hc).
    destruct (decide (i <= mid)%nat) as [Hle|]; [|lia]. exfalso. destruct (decide (i = mid)) as [->|]; [congruence|].
    assert (Hlt' : (i < mid)%nat) by lia. pose proof (index_increasing i mid e em Hlt' Hi Em). lia.
  - apply IH; [lia|unfold mid in *; lia|]. intros i e Hi Hc. specialize (Hin i e Hi Hc).
    destruct (decide (mid <= i)%nat) as [Hle|]; [|lia]. exfalso. destruct (decide (i = mid)) as [->|]; [congruence|].
    assert (Hlt' : (mid < i)%nat) by lia. pose proof (index_increasing mid i em e Hlt' Em Hi). lia.
Qed.
End Search.

Lemma lookup_exact pol cmd :
  iav_policy_init policy0 = (0, pol) ->
  exists r, iav_policy_lookup pol cmd = (Some r, pol) /\
            forall e, r = Some e <-> e ∈ pol_table pol /\ e_cmd e = cmd.
Proof.
  intros H. apply policy_init_ok in H as (Ht & Hr & Hs & Hnd & _).
  unfold iav_policy_lookup. rewrite Hr. cbn [negb Z.eqb]. unfold g_index, iav_policy_count. rewrite Hs.
  pose proof (merge_sort_Permutation entry_le (pol_table pol)) as Hp.
  assert (Hinc : StronglySorted Z.lt (map e_cmd (merge_sort entry_le (pol_table pol)))).
  { assert (Hc : map e_cmd (merge_sort entry_le (pol_table pol)) ≡ₚ map e_cmd g_table).
    { rewrite (fmap_Permutation e_cmd _ _ Hp), Ht, map_map.
      by rewrite (map_ext _ e_cmd final_entry_cmd). }
    pose proof (StronglySorted_merge_sort entry_le (pol_table pol)) as Hss.
    rewrite <- Hc in Hnd. clear -Hss Hnd. induction Hss as [|x l _ IH Hall]; cbn in *; [constructor|].
    apply NoDup_cons in Hnd as [Hx Hnd]. constructor; [by apply IH|]. rewrite Forall_map.
    apply Forall_forall. intros y Hy. rewrite Forall_forall in Hall. specialize (Hall y Hy).
    apply entry_le_cmd in Hall. enough (e_cmd x <> e_cmd y) by lia. intros Heq. apply Hx. rewrite Heq.
    by apply list_elem_of_fmap_2. }
  destruct (lookup_loop_spec (merge_sort entry_le (pol_table pol)) cmd Hinc (S (length (pol_table pol))) 0
              (length (pol_table pol))) as (r & -> & Hspec).
  - by rewrite Hp.
  - lia.
  - intros i e Hi _. apply lookup_lt_Some in Hi. rewrite Hp in Hi. lia.
  - exists r. split; [done|]. intros e. by rewrite Hspec, Hp.
Qed.

(** once the policy is set up, looking a command up ends, leaves the policy as it is, and yields an entry
    exactly when that entry is in the table with that number: the binary search over the sorted index is the
    linear search of the table. *)
Theorem policy_lookup_exact pol cmd :
  iav_policy_init policy0 = (0, pol) ->
  exists r, iav_policy_lookup pol cmd = (Some r, pol) /\
            forall e, r = Some e <-> e ∈ pol_table pol /\ e_cmd e = cmd.
Proof. apply lookup_exact. Qed.

(** ** Who may call what *)

Definition table_names : list string := map e_name g_table.

(** The same folds as [allow_entry] and [primary_entry], by name instead of by number. *)
Definition allow_named (l : list iav_allow) (e : iav_policy_entry) : iav_policy_entry :=
  fold_left (fun e a => if String.eqb (e_name e) (a_name a) then apply_allow a e else e) l e.
Definition primary_named (l : list string) (e : iav_policy_entry) : iav_policy_entry :=
  fold_left (fun e n => if String.eqb (e_name e) n then apply_primary e else e) l e.
Definition final_named (e : iav_policy_entry) : iav_policy_entry :=
  primary_named primary_names (allow_named g_allow (reset_entry e)).

Lemma numbers_distinct x y :
  NoDup (map e_cmd g_table) -> x ∈ table_names -> y ∈ table_names -> (ioc x =? ioc y) = String.eqb x y.
Proof.
  intros Hnd Hx Hy. destruct (String.eqb_spec x y) as [->|Hne]; [apply Z.eqb_refl|]. apply Z.eqb_neq. intros Heq.
  apply Hne. clear Hne.
  assert (Hrow : map e_cmd g_table = map ioc table_names).
  { unfold table_names. rewrite map_map. Local Transparent g_table. reflexivity. }
  Local Opaque g_table. rewrite Hrow in Hnd. revert Hnd Hx Hy. generalize table_names. intros l Hnd Hx Hy.
  apply list_elem_of_lookup_1 in Hx as [i Hi]. apply list_elem_of_lookup_1 in Hy as [j Hj].
  assert (i = j) as ->; [|congruence].
  apply (NoDup_lookup (map ioc l) i j (ioc x) Hnd); rewrite list_lookup_fmap; [by rewrite Hi|by rewrite Hj, Heq].
Qed.

Lemma names_in_table :
  Forall (fun a => a_name a ∈ table_names) g_allow /\ Forall (fun n => n ∈ table_names) primary_names.
Proof.
  Local Transparent g_table g_allow primary_names.
  split; apply (bool_decide_eq_true_1 _); vm_compute; reflexivity.
Qed.
Local Opaque g_table g_allow primary_names.

Lemma allow_entry_named l e :
  NoDup (map e_cmd g_table) -> e_cmd e = ioc (e_name e) -> e_name e ∈ table_names ->
  Forall (fun a => a_name a ∈ table_names) l ->
  allow_entry l e = allow_named l e /\ e_cmd (allow_named l e) = ioc (e_name (allow_named l e)) /\
  e_name (allow_named l e) = e_name e.
Proof.
  intros Hnd Hc Hn Hl. revert e Hc Hn. induction Hl as [|a l Ha Hl IH]; intros e Hc Hn; [done|].
  assert (Hb : (e_cmd e =? a_cmd a) = String.eqb (e_name e) (a_name a)) by (rewrite Hc; by apply numbers_distinct).
  unfold allow_entry, allow_named in *. cbn [fold_left]. rewrite Hb.
  destruct (String.eqb (e_name e) (a_name a)); [apply (IH (apply_allow a e))|apply IH]; done.
Qed.

Lemma primary_named_cmd l e : e_cmd e = e_cmd (primary_named l e).
Proof.
  revert e. induction l as [|n l IH]; intros e; [done|]. unfold primary_named in *. cbn [fold_left]. rewrite <- IH.
  by destruct (String.eqb (e_name e) n).
Qed.

Lemma primary_entry_named l e :
  NoDup (map e_cmd g_table) -> e_cmd e = ioc (e_name e) -> e_name e ∈ table_names ->
  Forall (fun n => n ∈ table_names) l -> primary_entry (map ioc l) e = primary_named l e.
Proof.
  intros Hnd Hc Hn Hl. revert e Hc Hn. induction Hl as [|n l Ha Hl IH]; intros e Hc Hn; [done|].
  assert (Hb : (e_cmd e =? ioc n) = String.eqb (e_name e) n) by (rewrite Hc; by apply numbers_distinct).
  unfold primary_entry, primary_named in *. cbn [fold_left map]. rewrite Hb.
  destruct (String.eqb (e_name e) n); [apply (IH (apply_primary e))|apply IH]; done.
Qed.

Lemma rows_named e : e ∈ g_table -> e_cmd e = ioc (e_name e) /\ e_name e ∈ table_names.
Proof.
  intros He. split; [|by apply list_elem_of_fmap_2]. revert e He. apply Forall_forall.
  Local Transparent g_table. unfold g_table. repeat constructor. Local Opaque g_table.
Qed.

Lemma final_entry_named e : NoDup (map e_cmd g_table) -> e ∈ g_table -> final_entry e = final_named e.
Proof.
  intros Hnd He. apply rows_named in He as [Hc Hn]. destruct names_in_table as [Ha Hp]. unfold final_entry, final_named.
  destruct (allow_entry_named g_allow (reset_entry e) Hnd Hc Hn Ha) as (-> & Hc' & Hn').
  Local Transparent g_primary_allow. unfold g_primary_allow. Local Opaque g_primary_allow.
  apply primary_entry_named; [done|done|by rewrite Hn'|done].
Qed.

Lemma forallb_row {A} (P : A -> bool) (l : list A) x : forallb P l = true -> x ∈ l -> P x = true.
Proof. rewrite List.forallb_forall. intros H Hx. apply H, list_elem_of_In, Hx. Qed.

(** The calls open to every guest: state and capability queries, partition queries, descriptors and polling. *)
Definition consumer_names : list string :=
  ["IAV_IOC_GET_IAV_STATE"; "IAV_IOC_GET_CHIP_ID"; "IAV_IOC_QUERY_ENC_MODE_CAP"; "IAV_IOC_QUERY_ENC_BUF_CAP";
   "IAV_IOC_QUERY_IAV_CAP"; "IAV_IOC_GET_SYSTEM_RESOURCE"; "IAV_IOC_GET_CHAN_CONFIG"; "IAV_IOC_GET_CANVAS_CONFIG";
   "IAV_IOC_DRV_DSP_INFO"; "IAV_IOC_QUERY_INFO"; "IAV_IOC_QUERY_MEMBLOCK"; "IAV_IOC_QUERY_DESC";
   "IAV_IOC_SET_POLL_EVENT_CFG"; "IAV_IOC_CLEAR_POLL_EVENT_CFG"; "IAV_IOC_WAIT_NEXT_IDSP_FRAME"]%string.

Definition allowed (p : iav_profile) (e : iav_policy_entry) : bool := has_flag (e_profiles e) (IAV_PROFILE_BIT p).

(** The check and the post function the hand-written list gives a command. *)
Definition listed (n : string) : option iav_allow := List.find (fun a => String.eqb (a_name a) n) g_allow.

Definition row_exact (e : iav_policy_entry) : bool :=
  eqb (allowed IAV_PROFILE_CONSUMER (final_named e)) (bool_decide (e_name e ∈ consumer_names)) &&
  eqb (allowed IAV_PROFILE_PRIMARY (final_named e))
      (bool_decide (e_name e ∈ map a_name g_allow ++ primary_names)) &&
  eqb (allowed IAV_PROFILE_QUALIFICATION (final_named e)) (allowed IAV_PROFILE_PRIMARY (final_named e)) &&
  bool_decide (e_name (final_named e) = e_name e) &&
  bool_decide (e_check (final_named e) = (listed (e_name e) ≫= a_check)) &&
  bool_decide (e_post (final_named e) = (listed (e_name e) ≫= a_post)).

Lemma rows_exact : forallb row_exact g_table = true.
Proof. Local Transparent g_table g_allow primary_names. vm_compute. reflexivity. Qed.
Local Opaque g_table g_allow primary_names.

(** after a successful set-up the profiles of every entry are exactly those of the lists: the consumer
    profile reaches the fifteen queries of [consumer_names] and nothing else, the primary and the qualification
    profile the commands of the two lists and nothing else, and a command has the check and the post function
    the hand-written list gives it, also when the generated list names it again. *)
Theorem policy_profiles_exact pol e :
  iav_policy_init policy0 = (0, pol) -> e ∈ pol_table pol ->
  (allowed IAV_PROFILE_CONSUMER e = true <-> e_name e ∈ consumer_names) /\
  (allowed IAV_PROFILE_PRIMARY e = true <-> e_name e ∈ map a_name g_allow ++ primary_names) /\
  allowed IAV_PROFILE_QUALIFICATION e = allowed IAV_PROFILE_PRIMARY e /\
  e_check e = (listed (e_name e) ≫= a_check) /\ e_post e = (listed (e_name e) ≫= a_post).
Proof.
  intros H He. apply policy_init_ok in H as (Ht & _ & _ & Hnd & _). rewrite Ht in He.
  apply list_elem_of_fmap in He as (row & -> & Hrow). rewrite final_entry_named by done.
  pose proof (forallb_row _ _ row rows_exact Hrow) as Hall. unfold row_exact in Hall.
  rewrite !andb_true_iff, !eqb_true_iff, !bool_decide_eq_true in Hall.
  destruct Hall as (((((Hc & Hp) & Hq) & Hn) & Hck) & Hpo). rewrite Hc, Hp, Hq, Hck, Hpo, Hn, !bool_decide_eq_true.
  done.
Qed.

(** The kind of the argument and the check of a command, by its name. *)
Definition row_shape (n : string) (k : iav_arg_kind) (f : check_fn) (row : iav_policy_entry) : bool :=
  implb (String.eqb (e_name row) n) (bool_decide (e_kind (final_named row) = k) && bool_decide (e_check (final_named row) = Some f)).

Lemma lookup_by_name pol n e k f :
  iav_policy_init policy0 = (0, pol) -> iav_policy_lookup pol (ioc n) = (Some (Some e), pol) -> n ∈ table_names ->
  forallb (row_shape n k f) g_table = true -> e_kind e = k /\ e_check e = Some f.
Proof.
  intros H Hl Hn Hall. destruct (lookup_exact pol (ioc n) H) as (r & Hr & Hex). rewrite Hr in Hl. injection Hl as ->.
  destruct (proj1 (Hex e) eq_refl) as [He Hc]. apply policy_init_ok in H as (Ht & _ & _ & Hnd & _). rewrite Ht in He.
  apply list_elem_of_fmap in He as (row & -> & Hrow). destruct (rows_named row Hrow) as [Hcr Hnr].
  assert (Hname : e_name row = n).
  { assert (Heq : ioc (e_name row) = ioc n).
    { rewrite <- Hcr, <- Hc. rewrite final_entry_named by done. unfold final_named.
      destruct names_in_table as [Ha Hp]. destruct (allow_entry_named g_allow (reset_entry row) Hnd Hcr Hnr Ha) as (_ & Hc1 & Hn1).
      rewrite <- (primary_named_cmd primary_names). rewrite Hc1, Hn1. exact Hcr. }
    apply String.eqb_eq. rewrite <- (numbers_distinct (e_name row) n Hnd Hnr Hn). by apply Z.eqb_eq. }
  rewrite final_entry_named by done. pose proof (forallb_row _ _ row Hall Hrow) as Hs. unfold row_shape in Hs.
  rewrite Hname, String.eqb_refl in Hs. cbn [implb] in Hs. rewrite andb_true_iff, !bool_decide_eq_true in Hs. exact Hs.
Qed.

(** What the classes of the generated table say about the calls that are let through. *)
Definition row_memory (e : iav_policy_entry) : bool :=
  let e' := final_named e in
  implb (allowed IAV_PROFILE_PRIMARY e' && has_flag (e_cls e') (Z.lor IAV_CLS_POINTER IAV_CLS_PHYS))
    (bool_decide (e_check e' <> None) || bool_decide (e_post e' <> None) ||
     bool_decide (e_name e ∈ ["IAV_IOC_QUERY_INFO"; "IAV_IOC_QUERY_MEMBLOCK"; "IAV_IOC_QUERY_MEM_LAYOUT_INFO"]%string)) &&
  implb (allowed IAV_PROFILE_PRIMARY e' && has_flag (e_cls e') IAV_CLS_POINTER) (has_flag (e_flags e') IAV_F_INLINE) &&
  implb (has_flag (e_flags e') IAV_F_WINDOW) (bool_decide (e_check e' <> None)).

Lemma rows_memory : forallb row_memory g_table = true.
Proof. Local Transparent g_table g_allow primary_names. vm_compute. reflexivity. Qed.
Local Opaque g_table g_allow primary_names.

(** a call that is let through and whose argument holds a pointer or a physical address, by the class in the
    generated table, is never handed to the driver unexamined: it has a check or its answer is cleaned, except
    for the three queries that report partition addresses; one with a user pointer is only taken with its
    buffers inline; and every call that names memory through a window has a check. *)
Theorem policy_memory_checked pol e :
  iav_policy_init policy0 = (0, pol) -> e ∈ pol_table pol ->
  (allowed IAV_PROFILE_PRIMARY e = true -> has_flag (e_cls e) (Z.lor IAV_CLS_POINTER IAV_CLS_PHYS) = true ->
   e_check e <> None \/ e_post e <> None \/
   e_name e ∈ ["IAV_IOC_QUERY_INFO"; "IAV_IOC_QUERY_MEMBLOCK"; "IAV_IOC_QUERY_MEM_LAYOUT_INFO"]%string) /\
  (allowed IAV_PROFILE_PRIMARY e = true -> has_flag (e_cls e) IAV_CLS_POINTER = true ->
   has_flag (e_flags e) IAV_F_INLINE = true) /\
  (has_flag (e_flags e) IAV_F_WINDOW = true -> e_check e <> None).
Proof.
  intros H He. apply policy_init_ok in H as (Ht & _ & _ & Hnd & _). rewrite Ht in He.
  apply list_elem_of_fmap in He as (row & -> & Hrow). rewrite final_entry_named by done.
  pose proof (forallb_row _ _ row rows_exact Hrow) as Hn. unfold row_exact in Hn.
  rewrite !andb_true_iff, !bool_decide_eq_true in Hn.
  destruct Hn as (((_ & Hn) & _) & _). rewrite Hn.
  pose proof (forallb_row _ _ row rows_memory Hrow) as Hall. unfold row_memory in Hall.
  rewrite !andb_true_iff, !implb_true_iff in Hall.
  rewrite !orb_true_iff, !bool_decide_eq_true, !andb_true_iff in Hall. tauto.
Qed.

(** The generated list names calls whose class is not plain; each holds an offset that is not one of memory. *)
Example primary_list_not_plain :
  length (List.filter (fun e => bool_decide (e_name e ∈ primary_names) && negb (e_cls e =? IAV_CLS_PLAIN)) g_table)
  = 18%nat.
Proof. Local Transparent g_table g_allow primary_names. vm_compute. reflexivity. Qed.
Local Opaque g_table g_allow primary_names.

End WithAbi.

(** ** An instance of the header's numbers

    The values are examples (any distinct numbers do): they show that the hypotheses of the theorems can hold. *)

Definition sample_vendor (number : string -> Z) : IavAbi :=
  {| ioc := number; sizeof := fun _ => 64;
     IAV_DESC_FRAME := 1; IAV_DESC_CANVAS := 2; IAV_DESC_PYRAMID := 3; MAX_POLL_EVENT := 8;
     IAV_MAX_DECODER_NUMBER := 4; IAV_PART_DSP := 1; IAV_PART_BSB := 2; IAV_PART_DEC_BSB := 3; IAV_PART_OVERLAY
     := 4; IAV_PART_CANVAS_OVERLAY := 5; IAV_PART_ARB_BLUR := 6; IAV_PART_BLUR := 7; IAV_PART_SMOOTH_BLUR := 8;
     IAV_PART_MASK := 9; IAV_PART_WARP := 10; IAV_PART_YUV_REMAP := 11; IAV_PART_QPMATRIX := 12;
     IAV_PART_CE_GO_MAP := 13; IAV_MAX_CANVAS_BUF_NUM := 16; IAV_YUV_FORMAT_YUV422 := 1; IAV_YUV_FORMAT_YUV420 :=
     2; IAV_YUV_FORMAT_YUV400 := 3; IAV_INPUT_WIN_FORMAT_U32 := 1; IAV_INPUT_WIN_FORMAT_U24_8 := 2;
     IAV_BLUR_TYPE_NUM := 2; IAV_BLUR_TYPE_SMOOTH := 1; IAV_CANVAS_SYNC_CFG_BLUR := 1;
     IAV_CANVAS_SYNC_CFG_POSTP_SCALE := 2; IAV_CANVAS_SYNC_CFG_OVERLAY := 3; IAV_CACHE_CLEAN := 1;
     IAV_CACHE_INVALIDATE := 2; CONFIG_AMBARELLA_MAX_CHANNEL_NUM := 4; VIN_CONTROLLER_NUM := 4; IAV_MAX_PASS_NUM
     := 2; IAV_SRCBUF_NUM := 8; IAV_INVALID_CANVAS_ID := 255; IAV_MAX_CHANNEL_NUM := 16; IAV_VIDEO_PROC_MASK :=
     1; IAV_VIDEO_PROC_DPTZ := 2; IAV_VIDEO_PROC_CANVAS_FPS := 3; IAV_VIDEO_PROC_CANVAS_VV_SYNC_CFG := 4;
     IAV_VIDEO_PROC_CANVAS_DUMMY_LATENCY := 5; IAV_VIDEO_PROC_VSRC_UPDATE := 6; IAV_VIDEO_PROC_CANVAS_OVERLAY :=
     7; IAV_VIDEO_PROC_PYRAMID_ROI := 8; IAV_VIDEO_PROC_PYRAMID_FPS := 9; IAV_VIDEO_PROC_CANVAS_ORDER := 10;
     IAV_VIDEO_PROC_VCAP_FLUSH := 11; IAV_VIDEO_PROC_POSTP_SCALE := 12; IAV_VIDEO_PROC_CAWARP := 13;
     IAV_VIDEO_PROC_MULTI_BLEND := 14; IAV_VIDEO_PROC_BLEND_WARP := 15; IAV_VIDEO_PROC_NUM := 20;
     IAV_WARP_CTRL_MAIN := 1; IAV_WARP_CTRL_DPTZ := 2; IAV_WARP_CTRL_MAX_CFG := 3; IAV_STMCFG_CUSTOM_SEI := 1;
     IAV_H264_CFG_QP_ROI := 2; IAV_H265_CFG_QP_ROI := 3; IAV_STMCFG_OVERLAY := 4; IAV_STMCFG_BLUR := 5;
     IAV_STMCFG_YUV_REMAP := 6 |}.

(** The names of the table in order, and the header that numbers each by its place. *)
Definition sample_names : list string := map e_name (@g_table (sample_vendor (fun _ => 0))).
Definition sample_abi : IavAbi :=
  sample_vendor (fun n => match find_idx (String.eqb n) sample_names with
                          | Some i => 0xC0000000 + Z.of_nat i
                          | None => 0
                          end).

#[local] Existing Instance sample_abi.

Lemma sample_init : exists pol, @iav_policy_init sample_abi policy0 = (0, pol).
Proof. eexists. vm_compute. reflexivity. Qed.

Lemma policy_lookup_exact_witness :
  exists pol r, @iav_policy_init sample_abi policy0 = (0, pol) /\
    iav_policy_lookup pol (@ioc sample_abi "IAV_IOC_DECODE_JPEG") = (Some r, pol).
Proof.
  destruct sample_init as [pol Hpol]. exists pol.
  destruct (@policy_lookup_exact sample_abi pol (@ioc sample_abi "IAV_IOC_DECODE_JPEG") Hpol) as (r & Hr & _).
  exists r. split; [exact Hpol|exact Hr].
Defined.

(** The first entry of the set-up table (ABORT_ENCODE). *)
Lemma sample_entry pol : @iav_policy_init sample_abi policy0 = (0, pol) ->
  exists e, e ∈ pol_table pol /\ e_name e = "IAV_IOC_ABORT_ENCODE"%string.
Proof.
  intros H. destruct (policy_init_ok pol H) as (Ht & _ & _ & Hnd & _). rewrite Ht.
  assert (Hin : IAV_IOCTL "IAV_IOC_ABORT_ENCODE" IAV_MAGIC_ENC IAV_ARG_VALUE IAV_DIR_W 0 IAV_CLS_PLAIN IAV_F_STATE 0
                ∈ @g_table sample_abi) by (unfold g_table; left).
  exists (final_entry (IAV_IOCTL "IAV_IOC_ABORT_ENCODE" IAV_MAGIC_ENC IAV_ARG_VALUE IAV_DIR_W 0 IAV_CLS_PLAIN
    IAV_F_STATE 0)). split; [by apply list_elem_of_fmap_2|].
  rewrite final_entry_named by done. vm_compute. reflexivity.
Qed.

Lemma policy_profiles_exact_witness :
  exists pol e, @iav_policy_init sample_abi policy0 = (0, pol) /\ e ∈ pol_table pol /\
    (allowed IAV_PROFILE_CONSUMER e = true <-> e_name e ∈ consumer_names).
Proof.
  destruct sample_init as [pol Hpol]. destruct (sample_entry pol Hpol) as (e & He & _). exists pol, e.
  split; [exact Hpol|]. split; [exact He|]. apply (@policy_profiles_exact sample_abi pol e Hpol He).
Defined.

Lemma policy_memory_checked_witness :
  exists pol e, @iav_policy_init sample_abi policy0 = (0, pol) /\ e ∈ pol_table pol /\
    (has_flag (e_flags e) IAV_F_WINDOW = true -> e_check e <> None).
Proof.
  destruct sample_init as [pol Hpol]. destruct (sample_entry pol Hpol) as (e & He & _). exists pol, e.
  split; [exact Hpol|]. split; [exact He|]. apply (@policy_memory_checked sample_abi pol e Hpol He).
Defined.

End TableProps.
