(* ===== verification/IavPolicy.v ===== *)
(** * The checks of the IAV policy (tools/iav_policy.c)

    Every call the allow-list lets through may have a check that looks at its argument before the driver does.
    The checks confine the memory a call names to the windows the guest maps (the decode, overlay, DSP and
    bitstream partitions), to the entries of its own aux aperture, or to a block of its own arena, and guard the
    driver against indices it does not bound itself.

    The argument structures are the vendor's; each is here a record of the fields the checks use, integers at
    their value (the field's width is a hypothesis where a theorem needs it), one-bit fields as booleans. The
    arms of a C union are separate fields: a check reads only the arm its selector names. *)

From stdpp Require Import base list strings.
From Stdlib Require Import ZArith Lia.
From S2P Require Import Prelude ByteBuf Text IavJpeg IavTable.

(** ** What a check sees *)

Record iav_chan_cfg := { cc_chan_id : Z; cc_pre_dec_enable : Z; cc_sw_ce_enable : Z; cc_vsrc_id : Z }.
Record iav_system_resource := { sr_chan_map : Z; sr_max_stream_num : Z; sr_stream_map : Z }.

(** The read-only queries of the caller's descriptor: each is the driver's answer, or [None] when it failed. *)
Record driver_query := {
  q_chan_config : Z -> option iav_chan_cfg;      (** GET_CHAN_CONFIG of a channel *)
  q_system_resource : option iav_system_resource; (** GET_SYSTEM_RESOURCE of the current mode *)
  q_memblock : Z -> option (Z * Z) }.             (** QUERY_MEMBLOCK of a partition: address and length *)

Record arena_slot := { as_valid : bool; as_start : Z; as_len : Z }.

Definition arena_slot0 : arena_slot := {| as_valid := false; as_start := 0; as_len := 0 |}.

Definition IAV_CALL_AUX_MAX : nat := 16.

(** [struct iav_call], the argument apart. [call_query] and [call_read_dec] are [None] for NULL; [call_read_dec]
    gives the bytes of the decode partition at an offset, or [None] when the read failed. *)
Record iav_call := {
  call_cmd : Z; call_cid : Z; call_block_max_ms : Z;
  call_dec_len : Z; call_ovl_len : Z; call_dsp_len : Z; call_bsb_len : Z;
  call_query : option driver_query;
  call_read_dec : option (Z -> Z -> option (list Z));
  call_arena_pid : Z; call_arena : list arena_slot;
  call_naux : Z; call_aux : list (Z * Z) }.

(** ** The argument structures *)

Record iav_querydesc := {
  qd_qid : Z; qd_canvas_yuv_fd : bool; qd_canvas_me_fd : bool; qd_canvas_mo_fd : bool; qd_pyramid_fd : bool;
  qd_frame_time_ms : Z }.
Record iav_poll_event_config := { pe_valid_num : Z; pe_qids : list Z }.
Record iav_decoder_info := { di_decoder_id : Z; di_bsb_start_offset : Z; di_bsb_size : Z }.
Record iav_decode_jpeg := {
  dj_decoder_id : Z; dj_jpeg_size : Z; dj_jpeg_start_offset : Z; dj_is_dec_only : bool; dj_yuv_size : Z;
  dj_yuv_start_offset : Z }.
Record iav_decode_video := { dv_decoder_id : Z; dv_start_ptr_offset : Z; dv_end_ptr_offset : Z }.
Record iav_decode_bsb := { db_decoder_id : Z; db_start_offset : Z; db_room : Z }.
Record iav_decode_status := { dt_decoder_id : Z; dt_yuv422_y_addr : Z; dt_yuv422_uv_addr : Z }.
Record iav_decode_wait_eos := { we_decoder_id : Z; we_timeout_ticks : Z }.
Record iav_overlay_area := {
  oa_enable : bool; oa_pitch : Z; oa_height : Z; oa_total_size : Z; oa_data_addr_offset : Z; oa_clut_addr_offset : Z }.
Record iav_overlay_insert := { oi_enable : bool; oi_id : Z; oi_id_for_canvas : bool; oi_area : list iav_overlay_area }.
Record iav_scale_buf_info := {
  sb_use_phys : bool; sb_use_dma_buf_fd : bool; sb_pid : Z; sb_pitch : Z; sb_height : Z; sb_y_offset : Z;
  sb_uv_offset : Z }.
Record iav_rect := { r_x : Z; r_y : Z; r_width : Z; r_height : Z }.
Record iav_img_scale := {
  is_format : Z; is_output_format_enable : bool; is_output_format : Z; is_input_buf : iav_scale_buf_info;
  is_output_buf : iav_scale_buf_info; is_input_win_format : Z; is_input : iav_rect; is_output : iav_rect }.
Record iav_vin_idsp_config := { vi_chan_id : Z; vi_vsrc_id : Z }.
Record iav_blur_area := {
  ba_enable : bool; ba_use_arb_blur : bool; ba_width : Z; ba_height : Z; ba_arb_blur_offset : Z; ba_arb_blur_pitch : Z }.
Record iav_blur_insert := {
  bi_id_for_canvas : bool; bi_canvas_id : Z; bi_stream_id : Z; bi_enable : bool; bi_type : Z; bi_area : list iav_blur_area }.
Record iav_canvas_sync_cfg := { cs_id : Z; cs_cid : Z; cs_blur : iav_blur_insert; cs_overlay : iav_overlay_insert }.
Record iav_gdma_copy := {
  gc_src_use_phys : bool; gc_dst_use_phys : bool; gc_src_use_dma_buf_fd : bool; gc_dst_use_dma_buf_fd : bool;
  gc_width : Z; gc_height : Z; gc_src_mmap_type : Z; gc_src_offset : Z; gc_src_pitch : Z; gc_dst_mmap_type : Z;
  gc_dst_offset : Z; gc_dst_pitch : Z }.
Record iav_sync_cache_mem_part := { sc_opt : Z; sc_pid : Z; sc_offset : Z; sc_length : Z }.
Record nn_addrs := { nn_dag : Z; nn_port_map : Z; nn_port_pos_map : Z }.
Record iav_isp_nn_params := { np_fifo_addr : Z; np_nn_info : list nn_addrs }.
Record iav_dptz := { dz_channel_id : Z; dz_pass_id : Z; dz_buf_id : Z; dz_canvas_id : Z }.
Record iav_postp_area := { pa_enable : bool; pa_src_canvas_id : Z }.
Record iav_video_proc := {
  vp_cid : Z; vp_mask_channel_id : Z; vp_dptz : iav_dptz; vp_canvas_fps_id : Z; vp_canvas_vv_sync_id : Z;
  vp_canvas_dummy_latency_id : Z; vp_vsrc_chan_id : Z; vp_vsrc_vsrc_id : Z; vp_overlay : iav_overlay_insert;
  vp_pyramid_roi_chan_id : Z; vp_pyramid_fps_chan_id : Z; vp_order_id : Z; vp_order_chan_num : Z;
  vp_order_chans : list Z; vp_vcap_flush_channel_id : Z; vp_postp_canvas_id : Z; vp_postp_area : list iav_postp_area;
  vp_cawarp_chan_id : Z }.
Record iav_warp_area := { wa_enable : bool; wa_h_map : Z; wa_v_map : Z; wa_me1_v_map : Z }.
Record iav_warp_ctrl := { wc_cid : Z; wc_channel_id : Z; wc_main : list iav_warp_area; wc_dptz_buf_id : Z }.
Record iav_yuv_remap_area := { ya_enable : bool; ya_clut_addr_offset : Z }.
Record iav_yuv_remap := { yr_enable : bool; yr_id : Z; yr_area : list iav_yuv_remap_area }.
Record iav_stream_cfg := {
  st_id : Z; st_cid : Z; st_h264_qpm_raw : bool; st_h265_qpm_raw : bool; st_overlay : iav_overlay_insert;
  st_blur : iav_blur_insert; st_yuv_remap : iav_yuv_remap }.
Record iav_ce_handshake := { ch_chan_id : Z; ch_buffer_idx : Z }.
Record iav_apply_flag := { af_apply : Z; af_param : Z }.

(** [struct img_misc_info]: its three pointer fields, and the trailer that follows the argument
    ([struct amba_virt_iav_inline_misc]). *)
Record img_misc_info := { mi_query_extra_raw : Z; mi_extra_raw_valid : Z; mi_extra_raw : Z }.
Record inline_misc := { im_query : list Z; im_valid : list Z; im_extra : list Z; im_count : Z; im_reserved : Z }.

Definition AMBA_VIRT_IAV_INLINE_MISC_CHANS : Z := 16.
Definition AMBA_VIRT_IAV_INLINE_MISC_EXTRA_BYTES : Z := 32.

Section WithAbi.
Context `{Abi : IavAbi}.

(** ** Descriptors and polling *)

(** The descriptor query, with the wait it may ask for bounded in place. *)
Definition check_query_desc (call : iav_call) (q : iav_querydesc) : Z * iav_querydesc :=
  if qd_qid q =? IAV_DESC_CANVAS then
    (if qd_canvas_yuv_fd q || qd_canvas_me_fd q || qd_canvas_mo_fd q then - EPERM else 0, q)
  else if qd_qid q =? IAV_DESC_PYRAMID then (if qd_pyramid_fd q then - EPERM else 0, q)
  else if qd_qid q =? IAV_DESC_FRAME then
    (0, if negb (qd_frame_time_ms q =? 0xffffffff) &&
           ((qd_frame_time_ms q =? 0) || (call_block_max_ms call <? qd_frame_time_ms q))
        then {| qd_qid := qd_qid q; qd_canvas_yuv_fd := qd_canvas_yuv_fd q; qd_canvas_me_fd := qd_canvas_me_fd q;
                qd_canvas_mo_fd := qd_canvas_mo_fd q; qd_pyramid_fd := qd_pyramid_fd q;
                qd_frame_time_ms := call_block_max_ms call |}
        else q)
  else (- EPERM, q).

Definition poll_qid_allowed (qid : Z) : bool :=
  (qid =? IAV_DESC_FRAME) || (qid =? IAV_DESC_CANVAS) || (qid =? IAV_DESC_PYRAMID).

Definition check_poll_cfg (c : iav_poll_event_config) : Z :=
  if MAX_POLL_EVENT <? pe_valid_num c then - EINVAL
  else if forallb poll_qid_allowed (take (Z.to_nat (pe_valid_num c)) (pe_qids c)) then 0 else - EPERM.

(** ** Decode *)

Definition range_ok (off len limit : Z) : bool := (off <=? limit) && (len <=? u64 (limit - off)).

(** The bytes of partition [pid] the caller maps through its aux aperture, or 0. *)
Definition aux_len_of (call : iav_call) (pid : Z) : Z :=
  match List.find (fun a => fst a =? pid) (take (Nat.min (Z.to_nat (call_naux call)) IAV_CALL_AUX_MAX) (call_aux call)) with
  | Some (_, len) => len
  | None => 0
  end.

Definition check_decoder_id (id : Z) : Z := if id <? IAV_MAX_DECODER_NUMBER then 0 else - EINVAL.

Definition check_create_decoder (call : iav_call) (d : iav_decoder_info) : Z :=
  if call_dec_len call =? 0 then - EPERM
  else if negb (check_decoder_id (di_decoder_id d) =? 0) then - EINVAL
  else if (di_bsb_size d =? 0) || negb (range_ok (di_bsb_start_offset d) (di_bsb_size d) (call_dec_len call))
  then - EINVAL else 0.

Definition check_decode_jpeg (call : iav_call) (j : iav_decode_jpeg) : Z :=
  if call_dec_len call =? 0 then - EPERM
  else if negb (check_decoder_id (dj_decoder_id j) =? 0) then - EINVAL
  else if (dj_jpeg_size j =? 0) || negb (range_ok (dj_jpeg_start_offset j) (dj_jpeg_size j) (call_dec_len call))
  then - EINVAL
  else if dj_is_dec_only j &&
          ((dj_yuv_size j =? 0) || negb (range_ok (dj_yuv_start_offset j) (dj_yuv_size j) (call_dec_len call)))
  then - EINVAL
  else
    let n := if dj_jpeg_size j <? IAV_JPEG_HEADER_MAX then dj_jpeg_size j else IAV_JPEG_HEADER_MAX in
    match call_read_dec call with
    | None => - EPERM
    | Some read_dec =>
        match read_dec (dj_jpeg_start_offset j) n with
        | None => - EIO
        | Some head =>
            match iav_jpeg_admit_info (Some head) with
            | Val (Ends (Some info)) =>
                if dj_is_dec_only j &&
                   (dj_yuv_size j <? iav_jpeg_decoded_bytes (ji_w info) (ji_h info) (ji_422 info))
                then - EINVAL else 0
            | _ => - EINVAL
            end
        end
    end.

Definition check_decode_video (call : iav_call) (v : iav_decode_video) : Z :=
  if call_dec_len call =? 0 then - EPERM
  else if negb (check_decoder_id (dv_decoder_id v) =? 0) then - EINVAL
  else if (dv_end_ptr_offset v <? dv_start_ptr_offset v) ||
          negb (range_ok (dv_start_ptr_offset v) (dv_end_ptr_offset v - dv_start_ptr_offset v) (call_dec_len call))
  then - EINVAL else 0.

Definition check_decode_bsb (call : iav_call) (b : iav_decode_bsb) : Z :=
  if call_dec_len call =? 0 then - EPERM
  else if negb (check_decoder_id (db_decoder_id b) =? 0) then - EINVAL
  else if (call_cmd call =? ioc "IAV_IOC_WAIT_DECODE_BSB") &&
          negb (range_ok (db_start_offset b) (db_room b) (call_dec_len call))
  then - EINVAL else 0.

Definition check_decode_status (st : iav_decode_status) : Z := check_decoder_id (dt_decoder_id st).

Definition post_decode_status (st : iav_decode_status) : iav_decode_status :=
  {| dt_decoder_id := dt_decoder_id st; dt_yuv422_y_addr := 0; dt_yuv422_uv_addr := 0 |}.

Definition check_wait_eos (w : iav_decode_wait_eos) : Z * iav_decode_wait_eos :=
  if negb (check_decoder_id (we_decoder_id w) =? 0) then (- EINVAL, w)
  else (0, if we_timeout_ticks w =? 0
           then {| we_decoder_id := we_decoder_id w; we_timeout_ticks := 255 |} else w).

(** ** Overlays *)

Definition OVERLAY_CLUT_BYTES : Z := 1024.
Definition STREAM_IDS : Z := 32.

(** The larger of [total_size] and [pitch * height] (the product in 64 bits). *)
Definition overlay_need (a : iav_overlay_area) : Z :=
  let need := u64 (oa_pitch a * oa_height a) in
  if need <? oa_total_size a then oa_total_size a else need.

Fixpoint overlay_areas_ok (areas : list iav_overlay_area) (limit : Z) : Z :=
  match areas with
  | [] => 0
  | a :: rest =>
      if negb (oa_enable a) then overlay_areas_ok rest limit
      else if negb (range_ok (oa_data_addr_offset a) (overlay_need a) limit) ||
              negb (range_ok (oa_clut_addr_offset a) OVERLAY_CLUT_BYTES limit)
      then - EINVAL else overlay_areas_ok rest limit
  end.

Definition overlay_ok (call : iav_call) (o : iav_overlay_insert) (id : Z) (canvas : bool) : Z :=
  if (if canvas then IAV_MAX_CANVAS_BUF_NUM <=? id else STREAM_IDS <=? id) then - EINVAL
  else if negb (oi_enable o) then 0
  else
    let limit := if canvas then aux_len_of call IAV_PART_CANVAS_OVERLAY else call_ovl_len call in
    if limit =? 0 then - EPERM else overlay_areas_ok (oi_area o) limit.

Definition check_set_overlay (call : iav_call) (o : iav_overlay_insert) : Z :=
  overlay_ok call o (oi_id o) (oi_id_for_canvas o).

Definition check_get_overlay (call : iav_call) (o : iav_overlay_insert) : Z :=
  if negb (oi_id_for_canvas o) then 0
  else if IAV_MAX_CANVAS_BUF_NUM <=? oi_id o then - EINVAL
  else if negb (aux_len_of call IAV_PART_CANVAS_OVERLAY =? 0) then 0 else - EPERM.

(** ** Window pinning: the result and whether the call is counted as pinned *)

Definition check_chan_cfg_pinned (call : iav_call) (want : iav_chan_cfg) : Z * bool :=
  match call_query call with
  | None => (- EPERM, false)
  | Some query =>
      match q_chan_config query (cc_chan_id want) with
      | None => (- EPERM, false)
      | Some have =>
          if negb (cc_pre_dec_enable have =? cc_pre_dec_enable want) ||
             negb (cc_sw_ce_enable have =? cc_sw_ce_enable want) ||
             ((negb (cc_pre_dec_enable have =? 0) || negb (cc_pre_dec_enable want =? 0)) &&
              negb (cc_vsrc_id have =? cc_vsrc_id want))
          then (- EPERM, true) else (0, false)
      end
  end.

Definition check_system_resource_pinned (call : iav_call) (want : iav_system_resource) : Z * bool :=
  match call_query call with
  | None => (- EPERM, false)
  | Some query =>
      match q_system_resource query with
      | None => (- EPERM, false)
      | Some have => if negb (sr_chan_map have =? sr_chan_map want) then (- EPERM, true) else (0, false)
      end
  end.

(** ** Buffers in windows and arena blocks *)

Definition window_len_of_pid (call : iav_call) (pid : Z) : Z :=
  if pid =? IAV_PART_DSP then call_dsp_len call
  else if pid =? IAV_PART_BSB then call_bsb_len call
  else if pid =? IAV_PART_DEC_BSB then call_dec_len call
  else if pid =? IAV_PART_OVERLAY then call_ovl_len call
  else aux_len_of call pid.

Definition pid_is_primary_content (call : iav_call) (pid : Z) : bool :=
  (pid =? IAV_PART_DEC_BSB) || (pid =? IAV_PART_OVERLAY) || negb (aux_len_of call pid =? 0).

Definition IMG_SCALE_H_ALIGN : Z := 4.
Definition IMG_SCALE_V_ALIGN : Z := 2.

Definition round_up64 (v a : Z) : Z := u64 (u64 (v + a - 1) / a * a).

Definition uv_plane_bytes (fmt pitch height : Z) : option Z :=
  if fmt =? IAV_YUV_FORMAT_YUV422 then Some (u64 (pitch * height))
  else if fmt =? IAV_YUV_FORMAT_YUV420 then Some (u64 (pitch * (height / 2)))
  else if fmt =? IAV_YUV_FORMAT_YUV400 then Some 0
  else None.

Definition call_slot (call : iav_call) (slot : nat) : arena_slot := default arena_slot0 (call_arena call !! slot).

(** The range [lo, hi) a buffer in [pid] may use, or the error. *)
Definition buf_range (call : iav_call) (slot : nat) (pid : Z) : Z + (Z * Z) :=
  if negb (call_arena_pid call =? 0) && (pid =? call_arena_pid call) then
    if Nat.leb 2 slot || negb (as_valid (call_slot call slot)) || (as_len (call_slot call slot) =? 0)
    then inl (- EPERM)
    else inr (as_start (call_slot call slot), u64 (as_start (call_slot call slot) + as_len (call_slot call slot)))
  else
    let hi := window_len_of_pid call pid in
    if hi =? 0 then inl (- EPERM) else inr (0, hi).

Definition span_ok (off len lo hi : Z) : bool := (lo <=? off) && (off <=? hi) && (len <=? u64 (hi - off)).

Definition is_arena_slot (call : iav_call) (slot : nat) (pid : Z) : bool :=
  negb (call_arena_pid call =? 0) && (pid =? call_arena_pid call) && Nat.ltb slot 2 && as_valid (call_slot call slot).

Definition scale_buf_ok (call : iav_call) (slot : nat) (b : iav_scale_buf_info) (fmt : Z) : Z :=
  if sb_use_phys b || sb_use_dma_buf_fd b then - EPERM
  else if negb (sb_pid b =? IAV_PART_DEC_BSB) && negb (is_arena_slot call slot (sb_pid b)) then - EPERM
  else
    match buf_range call slot (sb_pid b) with
    | inl _ => - EPERM
    | inr (lo, hi) =>
        if (sb_pitch b =? 0) || (sb_height b =? 0) then - EINVAL
        else
          match uv_plane_bytes fmt (sb_pitch b) (sb_height b) with
          | None => - EINVAL
          | Some uv_bytes =>
              let y_bytes := u64 (sb_pitch b * sb_height b) in
              if negb (span_ok (sb_y_offset b) y_bytes lo hi) then - EINVAL
              else if negb (uv_bytes =? 0) && negb (span_ok (sb_uv_offset b) uv_bytes lo hi) then - EINVAL
              else 0
          end
    end.

(** The input window as the driver will align it for the DSP: x, y, width and height. *)
Definition input_window (s : iav_img_scale) : option (Z * Z * Z * Z) :=
  let x := r_x (is_input s) in let y := r_y (is_input s) in
  let width := r_width (is_input s) in let height := r_height (is_input s) in
  if is_input_win_format s =? IAV_INPUT_WIN_FORMAT_U32 then
    Some (x - x mod 2, y - y mod 2,
          round_up64 (width + x mod 2) IMG_SCALE_H_ALIGN, round_up64 (height + y mod 2) IMG_SCALE_V_ALIGN)
  else if is_input_win_format s =? IAV_INPUT_WIN_FORMAT_U24_8 then
    let xi := Z.shiftr x 8 - Z.shiftr x 8 mod IMG_SCALE_H_ALIGN in
    let yi := Z.shiftr y 8 - Z.shiftr y 8 mod IMG_SCALE_V_ALIGN in
    let xf := u64 (x - Z.shiftl xi 8) in
    let yf := u64 (y - Z.shiftl yi 8) in
    let wf := Z.land width 0xff + Z.land xf 0xff in
    let hf := Z.land height 0xff + Z.land yf 0xff in
    let wi := Z.shiftr width 8 + Z.shiftr xf 8 + Z.shiftr wf 8 + (if Z.land wf 0xff =? 0 then 0 else 1) in
    let hi := Z.shiftr height 8 + Z.shiftr yf 8 + Z.shiftr hf 8 + (if Z.land hf 0xff =? 0 then 0 else 1) in
    Some (xi, yi, round_up64 wi IMG_SCALE_H_ALIGN, round_up64 hi IMG_SCALE_V_ALIGN)
  else None.

Definition output_format (s : iav_img_scale) : Z :=
  if is_output_format_enable s then is_output_format s else is_format s.

Definition check_img_scale (call : iav_call) (s : iav_img_scale) : Z :=
  let rc := scale_buf_ok call 0 (is_input_buf s) (is_format s) in
  let rc := if rc =? 0 then scale_buf_ok call 1 (is_output_buf s) (output_format s) else rc in
  if negb (rc =? 0) then rc
  else
    match input_window s with
    | None => - EINVAL
    | Some (x0, y0, w, h) =>
        if (sb_pitch (is_input_buf s) <? u64 (x0 + w)) || (sb_height (is_input_buf s) <? u64 (y0 + h)) then - EINVAL
        else
          let ow := round_up64 (r_width (is_output s)) IMG_SCALE_H_ALIGN in
          let oh := round_up64 (r_height (is_output s)) IMG_SCALE_V_ALIGN in
          if (sb_pitch (is_output_buf s) <? u64 (r_x (is_output s) + ow)) ||
             (sb_height (is_output_buf s) <? u64 (r_y (is_output s) + oh))
          then - EINVAL else 0
    end.

Definition check_get_vproc (v : iav_video_proc) : Z :=
  if (vp_cid v =? IAV_VIDEO_PROC_MULTI_BLEND) || (vp_cid v =? IAV_VIDEO_PROC_BLEND_WARP) then - EPERM else 0.

Definition check_get_vin_idsp (c : iav_vin_idsp_config) : Z :=
  if (32 <=? vi_chan_id c) || (32 <=? vi_vsrc_id c) then - EINVAL else 0.

(** ** Blur *)

Definition arb_blur_area_ok (call : iav_call) (a : iav_blur_area) (smooth : bool) : Z :=
  let limit := if smooth then 0 else aux_len_of call IAV_PART_ARB_BLUR in
  let row := u64 (ba_width a + 7) / 8 + 1 in
  if limit =? 0 then - EPERM
  else if ba_height a =? 0 then - EINVAL
  else if negb (range_ok (u64 (ba_arb_blur_offset a + u64 (u32 (ba_height a - 1) * ba_arb_blur_pitch a))) row limit)
  then - EINVAL else 0.

Definition blur_partition_present (call : iav_call) (pid : Z) : bool :=
  match call_query call with
  | None => false
  | Some query => match q_memblock query pid with None => false | Some (_, length) => negb (length =? 0) end
  end.

Fixpoint blur_areas_ok (call : iav_call) (areas : list iav_blur_area) (smooth : bool) : Z :=
  match areas with
  | [] => 0
  | a :: rest =>
      if negb (ba_enable a) || negb (ba_use_arb_blur a) then blur_areas_ok call rest smooth
      else
        let rc := arb_blur_area_ok call a smooth in
        if negb (rc =? 0) then rc else blur_areas_ok call rest smooth
  end.

Definition check_blur_insert (call : iav_call) (b : iav_blur_insert) : Z :=
  let smooth := bi_type b =? IAV_BLUR_TYPE_SMOOTH in
  if (if bi_id_for_canvas b then IAV_MAX_CANVAS_BUF_NUM <=? bi_canvas_id b else STREAM_IDS <=? bi_stream_id b)
  then - EINVAL
  else if negb (bi_enable b) then 0
  else if IAV_BLUR_TYPE_NUM <=? bi_type b then - EINVAL
  else
    let rc := blur_areas_ok call (bi_area b) smooth in
    if negb (rc =? 0) then rc
    else if negb (blur_partition_present call (if smooth then IAV_PART_SMOOTH_BLUR else IAV_PART_BLUR))
    then - EINVAL else 0.

Definition check_set_blur (call : iav_call) (b : iav_blur_insert) : Z := check_blur_insert call b.

Definition check_canvas_sync (call : iav_call) (c : iav_canvas_sync_cfg) : Z :=
  if IAV_MAX_CANVAS_BUF_NUM <=? cs_id c then - EINVAL
  else if cs_cid c =? IAV_CANVAS_SYNC_CFG_BLUR then check_blur_insert call (cs_blur c)
  else if cs_cid c =? IAV_CANVAS_SYNC_CFG_POSTP_SCALE then 0
  else if cs_cid c =? IAV_CANVAS_SYNC_CFG_OVERLAY then overlay_ok call (cs_overlay c) (cs_id c) true
  else - EINVAL.

(** ** Copies and cache maintenance *)

Definition gdma_side_ok (call : iav_call) (slot : nat) (pid offset pitch height width : Z) (dst : bool) : Z :=
  match buf_range call slot pid with
  | inl _ => - EPERM
  | inr (lo, hi) =>
      if dst && negb (pid_is_primary_content call pid) && negb (is_arena_slot call slot pid) then - EPERM
      else if (pitch =? 0) || (pitch <? width) then - EINVAL
      else if negb (span_ok offset (u64 (pitch * height)) lo hi) then - EINVAL
      else 0
  end.

Definition check_gdma_copy (call : iav_call) (g : iav_gdma_copy) : Z :=
  if gc_src_use_phys g || gc_dst_use_phys g || gc_src_use_dma_buf_fd g || gc_dst_use_dma_buf_fd g then - EPERM
  else if (gc_width g =? 0) || (gc_height g =? 0) then - EINVAL
  else
    let rc := gdma_side_ok call 0 (gc_src_mmap_type g) (gc_src_offset g) (gc_src_pitch g) (gc_height g) (gc_width g) false in
    if rc =? 0 then
      gdma_side_ok call 1 (gc_dst_mmap_type g) (gc_dst_offset g) (gc_dst_pitch g) (gc_height g) (gc_width g) true
    else rc.

Definition check_sync_cache (call : iav_call) (c : iav_sync_cache_mem_part) : Z :=
  match buf_range call 0 (sc_pid c) with
  | inl _ => - EPERM
  | inr (lo, hi) =>
      if negb (sc_opt c =? IAV_CACHE_CLEAN) && negb (sc_opt c =? IAV_CACHE_INVALIDATE) then - EINVAL
      else if (sc_opt c =? IAV_CACHE_INVALIDATE) && negb (pid_is_primary_content call (sc_pid c)) &&
              negb (is_arena_slot call 0 (sc_pid c))
      then - EPERM
      else if (sc_length c =? 0) || negb (span_ok (sc_offset c) (sc_length c) lo hi) then - EINVAL
      else 0
  end.

Definition post_isp_nn (p : iav_isp_nn_params) : iav_isp_nn_params :=
  {| np_fifo_addr := 0;
     np_nn_info := map (fun _ => {| nn_dag := 0; nn_port_map := 0; nn_port_pos_map := 0 |}) (np_nn_info p) |}.

(** ** Streams and manual feeds *)

Definition stream_in_map (call : iav_call) (stream_id : Z) : Z :=
  match call_query call with
  | None => - EPERM
  | Some query =>
      match q_system_resource query with
      | None => - EPERM
      | Some res =>
          if (sr_max_stream_num res <=? stream_id) || (32 <=? stream_id) ||
             (Z.land (Z.shiftr (sr_stream_map res) stream_id) 1 =? 0)
          then - EINVAL else 0
      end
  end.

Definition check_efm_pool_info (call : iav_call) (stream_id : Z) : Z := stream_in_map call stream_id.
Definition check_efm_release_all (call : iav_call) (stream_id : Z) : Z := stream_in_map call stream_id.

Definition check_release_pyramid (chan_id : Z) : Z := if chan_id <? CONFIG_AMBARELLA_MAX_CHANNEL_NUM then 0 else - EINVAL.
Definition check_release_canvas (canvas_id : Z) : Z := if canvas_id <? IAV_MAX_CANVAS_BUF_NUM then 0 else - EINVAL.
Definition check_release_raw (vin_id : Z) : Z := if vin_id <? VIN_CONTROLLER_NUM then 0 else - EINVAL.

(** ** The calls the aux aperture unlocks *)

Definition CHANNELS : Z := CONFIG_AMBARELLA_MAX_CHANNEL_NUM.
Definition CE_GO_MAP_BUFFERS : Z := 8.
Definition VIN_SOURCES : Z := 32.

Definition canvas_id_ok (id : Z) : bool := id <? IAV_MAX_CANVAS_BUF_NUM.

Definition id_below (id limit : Z) : Z := if id <? limit then 0 else - EINVAL.

(** CFG_VIDEO_PROC: the result and whether the call is counted as pinned. *)
Definition check_cfg_vproc (call : iav_call) (v : iav_video_proc) : Z * bool :=
  let cid := vp_cid v in
  let plain rc := (rc, false) in
  let canvas id := plain (if canvas_id_ok id then 0 else - EINVAL) in
  if cid =? IAV_VIDEO_PROC_MASK then
    plain (if CHANNELS <=? vp_mask_channel_id v then - EINVAL
           else if negb (aux_len_of call IAV_PART_MASK =? 0) then 0 else - EPERM)
  else if cid =? IAV_VIDEO_PROC_DPTZ then
    let d := vp_dptz v in
    plain (if (CHANNELS <=? dz_channel_id d) || (IAV_MAX_PASS_NUM <=? dz_pass_id d) || (IAV_SRCBUF_NUM <=? dz_buf_id d)
           then - EINVAL
           else if negb (canvas_id_ok (dz_canvas_id d)) && negb (dz_canvas_id d =? IAV_INVALID_CANVAS_ID) then - EINVAL
           else 0)
  else if cid =? IAV_VIDEO_PROC_CANVAS_FPS then canvas (vp_canvas_fps_id v)
  else if cid =? IAV_VIDEO_PROC_CANVAS_VV_SYNC_CFG then canvas (vp_canvas_vv_sync_id v)
  else if cid =? IAV_VIDEO_PROC_CANVAS_DUMMY_LATENCY then canvas (vp_canvas_dummy_latency_id v)
  else if cid =? IAV_VIDEO_PROC_VSRC_UPDATE then
    if (CHANNELS <=? vp_vsrc_chan_id v) || (VIN_SOURCES <=? vp_vsrc_vsrc_id v) then (- EINVAL, false)
    else
      match call_query call with
      | None => (- EPERM, false)
      | Some query =>
          match q_chan_config query (vp_vsrc_chan_id v) with
          | None => (- EPERM, false)
          | Some have => if negb (cc_pre_dec_enable have =? 0) then (- EPERM, true) else (0, false)
          end
      end
  else if cid =? IAV_VIDEO_PROC_CANVAS_OVERLAY then plain (overlay_ok call (vp_overlay v) (oi_id (vp_overlay v)) true)
  else if cid =? IAV_VIDEO_PROC_PYRAMID_ROI then plain (id_below (vp_pyramid_roi_chan_id v) CHANNELS)
  else if cid =? IAV_VIDEO_PROC_PYRAMID_FPS then plain (id_below (vp_pyramid_fps_chan_id v) CHANNELS)
  else if cid =? IAV_VIDEO_PROC_CANVAS_ORDER then
    plain (if negb (canvas_id_ok (vp_order_id v)) || (IAV_MAX_CHANNEL_NUM <? vp_order_chan_num v) then - EINVAL
           else if forallb (fun c => c <? 32) (vp_order_chans v) then 0 else - EINVAL)
  else if cid =? IAV_VIDEO_PROC_VCAP_FLUSH then plain (id_below (vp_vcap_flush_channel_id v) CHANNELS)
  else if cid =? IAV_VIDEO_PROC_POSTP_SCALE then
    plain (if negb (canvas_id_ok (vp_postp_canvas_id v)) then - EINVAL
           else if forallb (fun a => negb (pa_enable a && negb (canvas_id_ok (pa_src_canvas_id a)))) (vp_postp_area v)
           then 0 else - EINVAL)
  else if cid =? IAV_VIDEO_PROC_CAWARP then plain (id_below (vp_cawarp_chan_id v) CHANNELS)
  else plain (- EPERM).

Definition warp_map_ok (data_addr_offset limit : Z) : bool := data_addr_offset <? limit.

Definition warp_area_ok (limit : Z) (a : iav_warp_area) : bool :=
  negb (wa_enable a) ||
  (warp_map_ok (wa_h_map a) limit && warp_map_ok (wa_v_map a) limit && warp_map_ok (wa_me1_v_map a) limit).

Definition check_warp_ctrl (call : iav_call) (w : iav_warp_ctrl) : Z :=
  if CHANNELS <=? wc_channel_id w then - EINVAL
  else if wc_cid w =? IAV_WARP_CTRL_MAIN then
    let limit := aux_len_of call IAV_PART_WARP in
    if limit =? 0 then - EPERM else if forallb (warp_area_ok limit) (wc_main w) then 0 else - EINVAL
  else if wc_cid w =? IAV_WARP_CTRL_DPTZ then id_below (wc_dptz_buf_id w) IAV_SRCBUF_NUM
  else if wc_cid w =? IAV_WARP_CTRL_MAX_CFG then 0
  else - EPERM.

Definition YUV_REMAP_CLUT_BYTES : Z := 1024.

Definition yuv_remap_ok (call : iav_call) (r : iav_yuv_remap) (id : Z) : Z :=
  if STREAM_IDS <=? id then - EINVAL
  else if negb (yr_enable r) then 0
  else
    let limit := aux_len_of call IAV_PART_YUV_REMAP in
    if limit =? 0 then - EPERM
    else if forallb (fun a => negb (ya_enable a && negb (range_ok (ya_clut_addr_offset a) YUV_REMAP_CLUT_BYTES limit)))
                    (yr_area r)
    then 0 else - EINVAL.

Definition check_set_yuv_remap (call : iav_call) (r : iav_yuv_remap) : Z := yuv_remap_ok call r (yr_id r).

Definition check_stream_cfg (call : iav_call) (c : iav_stream_cfg) : Z :=
  let cid := st_cid c in
  if STREAM_IDS <=? st_id c then - EINVAL
  else if cid =? IAV_STMCFG_CUSTOM_SEI then - EPERM
  else if (cid =? IAV_H264_CFG_QP_ROI) || (cid =? IAV_H265_CFG_QP_ROI) then
    if (if cid =? IAV_H264_CFG_QP_ROI then st_h264_qpm_raw c else st_h265_qpm_raw c) then - EPERM
    else if negb (aux_len_of call IAV_PART_QPMATRIX =? 0) then 0 else - EPERM
  else if cid =? IAV_STMCFG_OVERLAY then overlay_ok call (st_overlay c) (st_id c) false
  else if cid =? IAV_STMCFG_BLUR then check_blur_insert call (st_blur c)
  else if cid =? IAV_STMCFG_YUV_REMAP then yuv_remap_ok call (st_yuv_remap c) (st_id c)
  else 0.

Definition check_ce_request (call : iav_call) (chan_id : Z) : Z :=
  if CHANNELS <=? chan_id then - EINVAL
  else if negb (aux_len_of call IAV_PART_CE_GO_MAP =? 0) then 0 else - EPERM.

Definition check_ce_handshake (call : iav_call) (h : iav_ce_handshake) : Z :=
  if (CHANNELS <=? ch_chan_id h) || (CE_GO_MAP_BUFFERS <=? ch_buffer_idx h) then - EINVAL
  else if negb (aux_len_of call IAV_PART_CE_GO_MAP =? 0) then 0 else - EPERM.

(** ** The inline marshal of IMG_GET_MISC_INFO

    [t_addr] is the address of the broker's trailer: its [query], [valid] and [extra] arrays follow each other. *)

Definition misc_query_addr (t_addr : Z) : Z := t_addr.
Definition misc_valid_addr (t_addr : Z) : Z := t_addr + AMBA_VIRT_IAV_INLINE_MISC_CHANS.
Definition misc_extra_addr (t_addr : Z) : Z := t_addr + 2 * AMBA_VIRT_IAV_INLINE_MISC_CHANS.

Definition zero_fill (n : nat) : list Z := repeat 0 n.

Definition check_misc_info (t_addr : Z) (m : img_misc_info) (t : option inline_misc)
    : Z * img_misc_info * option inline_misc :=
  match t with
  | None => (- EPERM, m, None)
  | Some t =>
      if (1 <? mi_query_extra_raw m) || (1 <? mi_extra_raw_valid m) || (1 <? mi_extra_raw m) ||
         negb (im_reserved t =? 0) || (AMBA_VIRT_IAV_INLINE_MISC_CHANS <? im_count t)
      then (- EINVAL, m, Some t)
      else
        let n := Z.to_nat (im_count t) in
        (0,
         {| mi_query_extra_raw := if mi_query_extra_raw m =? 0 then 0 else misc_query_addr t_addr;
            mi_extra_raw_valid := if mi_extra_raw_valid m =? 0 then 0 else misc_valid_addr t_addr;
            mi_extra_raw := if mi_extra_raw m =? 0 then 0 else misc_extra_addr t_addr |},
         Some {| im_query := take n (im_query t) ++ zero_fill (length (im_query t) - n);
                 im_valid := zero_fill (length (im_valid t)); im_extra := zero_fill (length (im_extra t));
                 im_count := im_count t; im_reserved := im_reserved t |})
  end.

Definition post_misc_info (m : img_misc_info) : img_misc_info :=
  let flag p := if p =? 0 then 0 else 1 in
  {| mi_query_extra_raw := flag (mi_query_extra_raw m); mi_extra_raw_valid := flag (mi_extra_raw_valid m);
     mi_extra_raw := flag (mi_extra_raw m) |}.

(** ** The applies *)

(** [(m & ~((1u << k) - 1u)) == 0]. *)
Definition map_ok (k m : Z) : bool := Z.land m (not32 (u32 (Z.shiftl 1 k - 1))) =? 0.
Definition CHAN_MAP_OK (m : Z) : bool := map_ok CHANNELS m.
Definition CANVAS_MAP_OK (m : Z) : bool := map_ok IAV_MAX_CANVAS_BUF_NUM m.

Fixpoint apply_vproc_from (k : Z) (flags : list iav_apply_flag) : Z :=
  match flags with
  | [] => 0
  | f :: rest =>
      if af_apply f =? 0 then apply_vproc_from (k + 1) rest
      else if (k =? IAV_VIDEO_PROC_MASK) || (k =? IAV_VIDEO_PROC_DPTZ) || (k =? IAV_VIDEO_PROC_PYRAMID_ROI) ||
              (k =? IAV_VIDEO_PROC_PYRAMID_FPS) || (k =? IAV_VIDEO_PROC_VCAP_FLUSH)
      then if negb (CHAN_MAP_OK (af_param f)) then - EINVAL else apply_vproc_from (k + 1) rest
      else if (k =? IAV_VIDEO_PROC_POSTP_SCALE) || (k =? IAV_VIDEO_PROC_CANVAS_ORDER) || (k =? IAV_VIDEO_PROC_CANVAS_FPS)
      then if negb (CANVAS_MAP_OK (af_param f)) then - EINVAL else apply_vproc_from (k + 1) rest
      else - EPERM
  end.

Definition check_apply_vproc (flags : list iav_apply_flag) : Z :=
  apply_vproc_from 0 (take (Z.to_nat IAV_VIDEO_PROC_NUM) flags).

Definition check_apply_warp (f : iav_apply_flag) : Z :=
  if negb (af_apply f =? IAV_WARP_CTRL_MAIN) && negb (af_apply f =? IAV_WARP_CTRL_DPTZ) then - EPERM
  else if CHAN_MAP_OK (af_param f) then 0 else - EINVAL.

Definition check_apply_canvas_sync (canvas_updated_map : Z) : Z :=
  if CANVAS_MAP_OK canvas_updated_map then 0 else - EINVAL.

End WithAbi.
