(* ===== verification/IavPolicyProps.v ===== *)
(** * What the checks of the IAV policy guarantee

    [Module PolicyProps]: every byte the decoder, the scaler, the copy engine or the overlay and blur units touch
    for an accepted call lies in the memory the guest was given. The theorems quantify over the numbers of the
    vendor's header ([IavAbi]) and over every argument whose fields have their C width. *)

From stdpp Require Import base list gmap strings.
From Stdlib Require Import ZArith Lia.
From S2P Require Import Prelude ByteBuf Text IavJpeg IavJpegProps IavTable IavTableProps IavPolicy.

Module PolicyProps.

(** ** Ranges *)

Lemma range_ok_iff off len limit :
  0 <= off -> 0 <= limit < 2 ^ 64 -> range_ok off len limit = true <-> off <= limit /\ off + len <= limit.
Proof.
  intros Ho Hl. unfold range_ok. rewrite andb_true_iff, !Z.leb_le. split.
  - intros [H1 H2]. rewrite u64_id in H2 by lia. lia.
  - intros [H1 H2]. rewrite u64_id by lia. lia.
Qed.

Lemma span_ok_iff off len lo hi :
  0 <= lo -> 0 <= hi < 2 ^ 64 ->
  span_ok off len lo hi = true <-> lo <= off /\ off <= hi /\ off + len <= hi.
Proof.
  intros Hlo Hhi. unfold span_ok. rewrite !andb_true_iff, !Z.leb_le. split.
  - intros [[H1 H2] H3]. rewrite u64_id in H3 by lia. lia.
  - intros (H1 & H2 & H3). rewrite u64_id by lia. lia.
Qed.

Lemma round_up64_spec v a :
  0 < a <= 4096 -> 0 <= v < 2 ^ 40 -> v <= round_up64 v a < v + a /\ round_up64 v a mod a = 0.
Proof.
  intros Ha Hv. unfold round_up64. rewrite (u64_id (v + a - 1)) by lia.
  pose proof (Z.div_mod (v + a - 1) a). pose proof (Z.mod_pos_bound (v + a - 1) a).
  assert (Hb : 0 <= (v + a - 1) / a * a <= v + a - 1) by lia. rewrite u64_id by lia.
  split; [lia|]. apply Z.mod_mul. lia.
Qed.

(** A call as the broker builds it: 64-bit lengths, arena slots that end inside 64 bits. *)
Record call_ok (call : iav_call) : Prop := {
  ok_dec : is_u64 (call_dec_len call); ok_ovl : is_u64 (call_ovl_len call);
  ok_dsp : is_u64 (call_dsp_len call); ok_bsb : is_u64 (call_bsb_len call);
  ok_aux : Forall (fun a => is_u64 (snd a)) (call_aux call);
  ok_arena : forall k, 0 <= as_start (call_slot call k) /\ 0 <= as_len (call_slot call k) /\
                       as_start (call_slot call k) + as_len (call_slot call k) < 2 ^ 64 }.

Section WithAbi.
Context `{Abi : IavAbi}.

Lemma aux_len_u64 call pid : call_ok call -> is_u64 (aux_len_of call pid).
Proof.
  intros Hok. unfold aux_len_of. destruct (List.find _ _) as [[p len]|] eqn:E; [|done].
  apply List.find_some in E as [Hin _]. apply list_elem_of_In in Hin.
  pose proof (ok_aux _ Hok) as Ha. rewrite Forall_forall in Ha. apply (Ha (p, len)). eapply elem_of_submseteq; [done|].
  apply sublist_submseteq, sublist_take.
Qed.

Lemma window_len_u64 call pid : call_ok call -> is_u64 (window_len_of_pid call pid).
Proof.
  intros Hok. destruct Hok as [? ? ? ? ? ?] eqn:E. unfold window_len_of_pid.
  repeat case_match; try done. by apply aux_len_u64.
Qed.

(** The range a buffer may use is the whole window over its partition, or its arena block. *)
Lemma buf_range_inr call slot pid lo hi :
  call_ok call -> buf_range call slot pid = inr (lo, hi) ->
  0 <= lo <= hi /\ hi < 2 ^ 64 /\
  ((call_arena_pid call <> 0 /\ pid = call_arena_pid call /\ as_valid (call_slot call slot) = true /\
    lo = as_start (call_slot call slot) /\ hi = lo + as_len (call_slot call slot)) \/
   (lo = 0 /\ hi = window_len_of_pid call pid /\ hi <> 0)).
Proof.
  intros Hok. unfold buf_range. destruct (negb (call_arena_pid call =? 0) && (pid =? call_arena_pid call)) eqn:E.
  - bool_hyps. destruct (Nat.leb 2 slot || negb (as_valid (call_slot call slot)) || (as_len (call_slot call slot) =? 0))
      eqn:E2; [done|]. intros [= <- <-]. destruct (ok_arena _ Hok slot) as (? & ? & ?).
    rewrite u64_id by lia. bool_hyps. split; [lia|]. split; [lia|]. left. split_and!; try done; lia.
  - pose proof (window_len_u64 call pid Hok) as Hw. unfold is_u64 in Hw.
    destruct (Z.eqb_spec (window_len_of_pid call pid) 0); [done|]. intros [= <- <-].
    split; [lia|]. split; [lia|]. right. done.
Qed.

(** ** Decode *)

Lemma check_decoder_id_ok id : check_decoder_id id = 0 <-> id < IAV_MAX_DECODER_NUMBER.
Proof. unfold check_decoder_id. destruct (Z.ltb_spec id IAV_MAX_DECODER_NUMBER); unfold EINVAL; lia. Qed.

(** The bytes a decoded picture takes, in exact arithmetic. *)
Definition picture_bytes (info : jpeg_info) : Z :=
  let px := JpegProps.round16 (ji_w info) * JpegProps.round16 (ji_h info) in
  if ji_422 info then px * 2 else px * 3 / 2.

Lemma picture_bytes_exact info head :
  JpegProps.jpeg_header head info ->
  iav_jpeg_decoded_bytes (ji_w info) (ji_h info) (ji_422 info) = picture_bytes info /\ 0 < picture_bytes info.
Proof.
  intros Hh. apply JpegProps.jpeg_header_size in Hh as [Hw Hhh].
  rewrite JpegProps.decoded_bytes_exact by done. split; [done|]. unfold picture_bytes.
  destruct (JpegProps.round16_bounds (ji_w info)) as [? _]; [lia|].
  destruct (JpegProps.round16_bounds (ji_h info)) as [? _]; [lia|].
  assert (1 <= JpegProps.round16 (ji_w info) * JpegProps.round16 (ji_h info)) by nia.
  destruct (ji_422 info); [lia|]. apply Z.div_str_pos. lia.
Qed.

(** a decode call is accepted exactly when its JPEG lies in the decode window, its header, as the host reads
    it, is one of the grammar [jpeg_header], and, for a call that names where the picture goes, that place lies in
    the window and holds the whole picture the header describes (sides rounded up to 16, 1.5 or 2 bytes a pixel,
    without overflow). So the decoder never writes past the window on account of what the guest said. *)
Theorem decode_jpeg_iff call j :
  call_ok call -> is_u64 (dj_jpeg_start_offset j) -> is_u64 (dj_yuv_start_offset j) ->
  0 <= dj_jpeg_size j -> 0 <= dj_yuv_size j ->
  (forall read off n head, call_read_dec call = Some read -> read off n = Some head -> Forall is_u8 head) ->
  check_decode_jpeg call j = 0 <->
  dj_decoder_id j < IAV_MAX_DECODER_NUMBER /\
  0 < dj_jpeg_size j /\ dj_jpeg_start_offset j + dj_jpeg_size j <= call_dec_len call /\
  exists read head info,
    call_read_dec call = Some read /\
    read (dj_jpeg_start_offset j) (Z.min (dj_jpeg_size j) IAV_JPEG_HEADER_MAX) = Some head /\
    JpegProps.jpeg_header head info /\
    (dj_is_dec_only j = true ->
     picture_bytes info <= dj_yuv_size j /\ dj_yuv_start_offset j + dj_yuv_size j <= call_dec_len call).
Proof.
  intros Hok Hjo Hyo Hjs Hys Hbytes. pose proof (ok_dec _ Hok) as Hd. unfold is_u64 in *.
  pose proof picture_bytes_exact as Hpic.
  assert (Hmin : (if dj_jpeg_size j <? IAV_JPEG_HEADER_MAX then dj_jpeg_size j else IAV_JPEG_HEADER_MAX)
                 = Z.min (dj_jpeg_size j) IAV_JPEG_HEADER_MAX) by (destruct (Z.ltb_spec (dj_jpeg_size j) IAV_JPEG_HEADER_MAX); lia).
  pose proof (check_decoder_id_ok (dj_decoder_id j)) as Hid.
  pose proof (range_ok_iff (dj_jpeg_start_offset j) (dj_jpeg_size j) (call_dec_len call) (proj1 Hjo) Hd) as Hj.
  pose proof (range_ok_iff (dj_yuv_start_offset j) (dj_yuv_size j) (call_dec_len call) (proj1 Hyo) Hd) as Hy.
  unfold check_decode_jpeg. rewrite Hmin. unfold EPERM, EINVAL, EIO. split.
  - destruct (Z.eqb_spec (call_dec_len call) 0); [intros; lia|]. destruct (Z.eqb_spec (check_decoder_id (dj_decoder_id j)) 0); cbn [negb]; [|intros; lia].
    destruct (Z.eqb_spec (dj_jpeg_size j) 0); cbn [orb]; [intros; lia|].
    destruct (range_ok (dj_jpeg_start_offset j) _ _) eqn:E1; cbn [negb]; [|intros; lia].
    destruct (dj_is_dec_only j && _) eqn:E2; [intros; lia|].
    destruct (call_read_dec call) as [read|] eqn:Er; [|intros; lia].
    destruct (read _ _) as [head|] eqn:Eh; [|intros; lia].
    destruct (iav_jpeg_admit_info (Some head)) as [[|[info|]]|] eqn:Ei; try (intros; lia).
    apply JpegProps.jpeg_admit_exact in Ei; [|by eapply Hbytes]. destruct (Hpic info head Ei) as [-> _].
    destruct (dj_is_dec_only j) eqn:Eo; cbn [andb] in *.
    + destruct (Z.ltb_spec (dj_yuv_size j) (picture_bytes info)); [intros; lia|]. intros _. bool_hyps.
      split; [tauto|]. split; [lia|]. split; [tauto|]. exists read, head, info. split_and!; try done. tauto.
    + intros _. split; [tauto|]. split; [intros; lia|]. split; [tauto|]. exists read, head, info. done.
  - intros (H1 & H2 & H3 & read & head & info & Hr & Hh & Hi & Hdec).
    rewrite (proj2 (Z.eqb_neq (call_dec_len call) 0)) by lia. rewrite (proj2 (Z.eqb_eq _ 0) (proj2 Hid H1)). cbn [negb].
    rewrite (proj2 (Z.eqb_neq (dj_jpeg_size j) 0)) by lia. rewrite (proj2 Hj) by lia. cbn [orb negb].
    rewrite Hr, Hh. destruct (Hpic info head Hi) as [Hpb Hpos].
    rewrite (proj2 (JpegProps.jpeg_admit_exact head info (Hbytes _ _ _ _ Hr Hh)) Hi), Hpb.
    destruct (dj_is_dec_only j); cbn [andb]; [|done]. destruct (Hdec eq_refl) as [Hsz Hrg].
    rewrite (proj2 (Z.eqb_neq (dj_yuv_size j) 0)) by lia. rewrite (proj2 Hy) by lia. cbn [orb negb].
    by rewrite (proj2 (Z.ltb_ge (dj_yuv_size j) (picture_bytes info)) Hsz).
Qed.

(** ** The scaler *)

(** The bytes the DSP touches in a buffer for the window at (x, y) of w x h pixels: one byte a pixel in the luma
    plane, and in the chroma plane the same columns of the same row (4:2:2) or of the row halved (4:2:0). *)
Inductive touches (fmt : Z) (b : iav_scale_buf_info) (x y w h : Z) : Z -> Prop :=
| touch_luma r c : y <= r < y + h -> x <= c < x + w -> touches fmt b x y w h (sb_y_offset b + r * sb_pitch b + c)
| touch_uv422 r c : fmt = IAV_YUV_FORMAT_YUV422 -> y <= r < y + h -> x <= c < x + w ->
    touches fmt b x y w h (sb_uv_offset b + r * sb_pitch b + c)
| touch_uv420 r c : fmt = IAV_YUV_FORMAT_YUV420 -> y <= r < y + h -> x <= c < x + w ->
    touches fmt b x y w h (sb_uv_offset b + r / 2 * sb_pitch b + c).

Definition buf_ok (b : iav_scale_buf_info) : Prop :=
  is_u32 (sb_pitch b) /\ is_u32 (sb_height b) /\ is_u64 (sb_y_offset b) /\ is_u64 (sb_uv_offset b).

(** What an accepted buffer guarantees: its partition is the decode partition or the slot's arena block, and both
    planes lie in its range. *)
Lemma scale_buf_ok_0 call slot b fmt :
  call_ok call -> buf_ok b -> IAV_YUV_FORMAT_YUV422 <> IAV_YUV_FORMAT_YUV420 ->
  scale_buf_ok call slot b fmt = 0 ->
  exists lo hi, buf_range call slot (sb_pid b) = inr (lo, hi) /\
    (sb_pid b = IAV_PART_DEC_BSB \/ is_arena_slot call slot (sb_pid b) = true) /\
    lo <= sb_y_offset b /\ sb_y_offset b + sb_pitch b * sb_height b <= hi /\
    (fmt = IAV_YUV_FORMAT_YUV422 -> lo <= sb_uv_offset b /\ sb_uv_offset b + sb_pitch b * sb_height b <= hi) /\
    (fmt = IAV_YUV_FORMAT_YUV420 ->
     0 < sb_height b / 2 -> lo <= sb_uv_offset b /\ sb_uv_offset b + sb_pitch b * (sb_height b / 2) <= hi).
Proof.
  intros Hok (Hp & Hh & Hy & Huv) Hne. unfold is_u32, is_u64 in *. unfold scale_buf_ok, EPERM, EINVAL.
  destruct (sb_use_phys b || sb_use_dma_buf_fd b); [intros; lia|].
  destruct (negb (sb_pid b =? IAV_PART_DEC_BSB) && negb (is_arena_slot call slot (sb_pid b))) eqn:Epid; [intros; lia|].
  destruct (buf_range call slot (sb_pid b)) as [e|[lo hi]] eqn:Er; [intros; lia|].
  pose proof (buf_range_inr _ _ _ _ _ Hok Er) as (Hlo & Hhi & _).
  destruct ((sb_pitch b =? 0) || (sb_height b =? 0)) eqn:Ez; [intros; lia|].
  assert (Hhalf : 0 <= sb_height b / 2 < 2 ^ 32) by (split; [apply Z.div_pos; lia|apply Z.div_lt_upper_bound; lia]).
  destruct (uv_plane_bytes fmt (sb_pitch b) (sb_height b)) as [uv|] eqn:Eu; [|intros; lia].
  rewrite (u64_id (sb_pitch b * sb_height b)) by nia.
  pose proof (span_ok_iff (sb_y_offset b) (sb_pitch b * sb_height b) lo hi) as Sy.
  destruct (span_ok (sb_y_offset b) _ lo hi) eqn:Es; cbn [negb]; [|intros; lia].
  destruct (negb (uv =? 0) && _) eqn:Es2; [intros; lia|]. intros _.
  exists lo, hi. split; [done|]. 
  split; [apply andb_false_iff in Epid as [E|E]; apply negb_false_iff in E; [left; lia|by right]|].
  split; [lia|]. split; [lia|].
  assert (Huvspan : uv <> 0 -> lo <= sb_uv_offset b /\ sb_uv_offset b + uv <= hi).
  { intros Hnz. rewrite (proj2 (Z.eqb_neq uv 0) Hnz) in Es2. cbn [negb andb] in Es2. apply negb_false_iff in Es2.
    apply span_ok_iff in Es2; lia. }
  unfold uv_plane_bytes in Eu. bool_hyps. split.
  - intros ->. rewrite Z.eqb_refl in Eu. injection Eu as <-. rewrite u64_id in Huvspan by nia. apply Huvspan. nia.
  - intros -> Hpos. rewrite (proj2 (Z.eqb_neq _ _)), Z.eqb_refl in Eu by congruence. injection Eu as <-.
    rewrite u64_id in Huvspan by nia. apply Huvspan. nia.
Qed.

(** The chroma row past the plane that a 4:2:0 window reaches when it ends with the last row of a buffer of an odd
    height: the plane has [height / 2] rows, and the last luma row halved is row [height / 2]. *)
Definition odd_chroma_row (fmt : Z) (b : iav_scale_buf_info) (x y w h a : Z) : Prop :=
  fmt = IAV_YUV_FORMAT_YUV420 /\ sb_height b mod 2 = 1 /\ y + h = sb_height b /\
  exists c, x <= c < x + w /\ a = sb_uv_offset b + sb_height b / 2 * sb_pitch b + c.

(** A window inside the buffer touches only the range, that row apart. *)
Lemma touches_inside fmt b lo hi x y w h a :
  buf_ok b -> 0 < sb_pitch b -> IAV_YUV_FORMAT_YUV422 <> IAV_YUV_FORMAT_YUV420 ->
  lo <= sb_y_offset b -> sb_y_offset b + sb_pitch b * sb_height b <= hi ->
  (fmt = IAV_YUV_FORMAT_YUV422 -> lo <= sb_uv_offset b /\ sb_uv_offset b + sb_pitch b * sb_height b <= hi) ->
  (fmt = IAV_YUV_FORMAT_YUV420 ->
   0 < sb_height b / 2 -> lo <= sb_uv_offset b /\ sb_uv_offset b + sb_pitch b * (sb_height b / 2) <= hi) ->
  0 <= x -> 0 <= y -> x + w <= sb_pitch b -> y + h <= sb_height b ->
  touches fmt b x y w h a -> lo <= a < hi \/ odd_chroma_row fmt b x y w h a.
Proof.
  intros Hb Hp Hne Hy1 Hy2 H422 H420 Hx Hy Hw Hh Ht.
  destruct Ht as [r c Hr Hc|r c -> Hr Hc| r c -> Hr Hc].
  - left. nia.
  - left. destruct (H422 eq_refl). nia.
  - pose proof (Z.div_mod (sb_height b) 2). pose proof (Z.div_mod r 2). pose proof (Z.mod_pos_bound r 2).
    pose proof (Z.mod_pos_bound (sb_height b) 2). destruct (Z.lt_ge_cases (r / 2) (sb_height b / 2)) as [Hlt|Hge].
    + left. assert (Hhalf : 0 <= r / 2 < sb_height b / 2) by lia. clear H H0 H1 H2. destruct (H420 eq_refl); [lia|]. nia.
    + right. split; [done|]. split; [lia|]. split; [lia|]. exists c. split; [done|].
      replace (sb_height b / 2) with (r / 2) by lia. done.
Qed.

(** No such row under a window that ends on an even row, or in a buffer of an even height. *)
Lemma even_no_odd_row fmt b x y w h a :
  (y + h) mod 2 = 0 \/ sb_height b mod 2 = 0 -> ~ odd_chroma_row fmt b x y w h a.
Proof. intros He (_ & H1 & H2 & _). rewrite H2 in He. lia. Qed.

Definition rect_ok (r : iav_rect) : Prop :=
  is_u32 (r_x r) /\ is_u32 (r_y r) /\ is_u32 (r_width r) /\ is_u32 (r_height r).

(** One axis of the fixed-point window: the whole pixels, rounded up, hold the window that was asked for. *)
Lemma fixed_axis v size align :
  0 <= v < 2 ^ 32 -> 0 <= size < 2 ^ 32 -> 0 < align <= 16 ->
  let vi := Z.shiftr v 8 - Z.shiftr v 8 mod align in
  let vf := u64 (v - Z.shiftl vi 8) in
  let sf := Z.land size 0xff + Z.land vf 0xff in
  let si := Z.shiftr size 8 + Z.shiftr vf 8 + Z.shiftr sf 8 + (if Z.land sf 0xff =? 0 then 0 else 1) in
  0 <= vi < 2 ^ 32 /\ vi mod align = 0 /\ 0 <= si < 2 ^ 33 /\ vi * 256 <= v /\ v + size <= (vi + si) * 256.
Proof.
  intros Hv Hs Ha. cbv zeta. change 0xff with (Z.ones 8). rewrite !Z.land_ones, !Z.shiftr_div_pow2, Z.shiftl_mul_pow2 by lia.
  change (2 ^ 8) with 256. pose proof (Z.div_mod v 256). pose proof (Z.mod_pos_bound v 256).
  pose proof (Z.mod_pos_bound (v / 256) align). pose proof (Z.mod_le (v / 256) align).
  assert (Hq : 0 <= v / 256) by (apply Z.div_pos; lia).
  set (vi := v / 256 - v / 256 mod align) in *.
  assert (Hvi : 0 <= vi <= v / 256) by lia. rewrite u64_id by lia. set (vf := v - vi * 256).
  assert (Hvf : 0 <= vf < (align + 1) * 256) by (unfold vf, vi; lia).
  pose proof (Z.div_mod size 256). pose proof (Z.mod_pos_bound size 256). pose proof (Z.div_mod vf 256).
  pose proof (Z.mod_pos_bound vf 256). assert (0 <= vf / 256) by (apply Z.div_pos; lia).
  assert (0 <= size / 256) by (apply Z.div_pos; lia).
  set (sf := size mod 256 + vf mod 256). pose proof (Z.div_mod sf 256). pose proof (Z.mod_pos_bound sf 256).
  assert (0 <= sf / 256 <= 2) by (split; [apply Z.div_pos|apply Z.div_le_upper_bound]; lia).
  split; [lia|]. split; [unfold vi; rewrite Zminus_mod_idemp_r, Z.sub_diag, Z.mod_0_l; lia|].
  destruct (Z.eqb_spec (sf mod 256) 0); split; lia.
Qed.

(** The window the driver will read covers the window the guest asked for, in pixels or in 1/256 of a pixel, and
    starts and ends on even rows. *)
Definition covers (unit : Z) (r : iav_rect) (x y w h : Z) : Prop :=
  x * unit <= r_x r /\ r_x r + r_width r <= (x + w) * unit /\
  y * unit <= r_y r /\ r_y r + r_height r <= (y + h) * unit.

Lemma input_window_covers s x y w h :
  rect_ok (is_input s) -> input_window s = Some (x, y, w, h) ->
  0 <= x < 2 ^ 32 /\ 0 <= y < 2 ^ 32 /\ 0 <= w < 2 ^ 40 /\ 0 <= h < 2 ^ 40 /\ (y + h) mod 2 = 0 /\
  covers (if is_input_win_format s =? IAV_INPUT_WIN_FORMAT_U32 then 1 else 256) (is_input s) x y w h.
Proof.
  intros (Hx & Hy & Hw & Hh). unfold is_u32 in *. unfold input_window.
  assert (Heven : forall a b, a mod 2 = 0 -> b mod 2 = 0 -> (a + b) mod 2 = 0)
    by (intros a b Ea Eb; rewrite Zplus_mod, Ea, Eb; done).
  destruct (is_input_win_format s =? IAV_INPUT_WIN_FORMAT_U32).
  - intros [= <- <- <- <-]. pose proof (Z.mod_pos_bound (r_x (is_input s)) 2). pose proof (Z.mod_pos_bound (r_y (is_input s)) 2).
    destruct (round_up64_spec (r_width (is_input s) + r_x (is_input s) mod 2) IMG_SCALE_H_ALIGN) as [? _]; [done|lia|].
    destruct (round_up64_spec (r_height (is_input s) + r_y (is_input s) mod 2) IMG_SCALE_V_ALIGN) as [? Hm]; [done|lia|].
    pose proof (Z.mod_le (r_x (is_input s)) 2). pose proof (Z.mod_le (r_y (is_input s)) 2).
    unfold IMG_SCALE_H_ALIGN, IMG_SCALE_V_ALIGN, covers in *. split_and!; try lia.
    apply Heven; [|done]. by rewrite Zminus_mod_idemp_r, Z.sub_diag.
  - destruct (is_input_win_format s =? IAV_INPUT_WIN_FORMAT_U24_8); [|done].
    destruct (fixed_axis (r_x (is_input s)) (r_width (is_input s)) IMG_SCALE_H_ALIGN) as (X1 & X2 & X3 & X4 & X5); [done..|].
    destruct (fixed_axis (r_y (is_input s)) (r_height (is_input s)) IMG_SCALE_V_ALIGN) as (Y1 & Y2 & Y3 & Y4 & Y5); [done..|].
    cbv zeta. intros [= <- <- <- <-].
    match goal with |- context [round_up64 ?v IMG_SCALE_H_ALIGN] =>
      destruct (round_up64_spec v IMG_SCALE_H_ALIGN) as [? _]; [done|lia|] end.
    match goal with |- context [round_up64 ?v IMG_SCALE_V_ALIGN] =>
      destruct (round_up64_spec v IMG_SCALE_V_ALIGN) as [? Hm]; [done|lia|] end.
    change IMG_SCALE_V_ALIGN with 2 in *. change IMG_SCALE_H_ALIGN with 4 in *.
    unfold covers. split_and!; try lia. by apply Heven.
Qed.

Lemma img_scale_ranges call s :
  call_ok call -> buf_ok (is_input_buf s) -> buf_ok (is_output_buf s) -> rect_ok (is_input s) -> rect_ok (is_output s) ->
  IAV_YUV_FORMAT_YUV422 <> IAV_YUV_FORMAT_YUV420 ->
  check_img_scale call s = 0 ->
  exists x y w h lo hi lo' hi',
    input_window s = Some (x, y, w, h) /\
    covers (if is_input_win_format s =? IAV_INPUT_WIN_FORMAT_U32 then 1 else 256) (is_input s) x y w h /\
    buf_range call 0 (sb_pid (is_input_buf s)) = inr (lo, hi) /\
    buf_range call 1 (sb_pid (is_output_buf s)) = inr (lo', hi') /\
    (forall a, touches (is_format s) (is_input_buf s) x y w h a -> lo <= a < hi) /\
    let ow := round_up64 (r_width (is_output s)) IMG_SCALE_H_ALIGN in
    let oh := round_up64 (r_height (is_output s)) IMG_SCALE_V_ALIGN in
    forall a, touches (output_format s) (is_output_buf s) (r_x (is_output s)) (r_y (is_output s)) ow oh a ->
      lo' <= a < hi' \/ odd_chroma_row (output_format s) (is_output_buf s) (r_x (is_output s)) (r_y (is_output s)) ow oh a.
Proof.
  intros Hok Hib Hob Hir Hor Hne. unfold check_img_scale.
  destruct (scale_buf_ok call 0 (is_input_buf s) (is_format s) =? 0) eqn:E0; [|rewrite E0; cbn [negb]; intros; lia].
  destruct (scale_buf_ok call 1 (is_output_buf s) (output_format s) =? 0) eqn:E1; cbn [negb]; [|intros; lia].
  destruct (input_window s) as [[[[x y] w] h]|] eqn:Ew; [|unfold EINVAL; intros; lia].
  destruct (input_window_covers s x y w h Hir Ew) as (Hx & Hy & Hw & Hh & Hev & Hcov).
  destruct Hor as (Ox & Oy & Ow & Oh). unfold is_u32 in *. cbv zeta.
  destruct (round_up64_spec (r_width (is_output s)) IMG_SCALE_H_ALIGN) as [Rw _]; [done|lia|].
  destruct (round_up64_spec (r_height (is_output s)) IMG_SCALE_V_ALIGN) as [Rh _]; [done|lia|].
  unfold IMG_SCALE_H_ALIGN, IMG_SCALE_V_ALIGN in *. rewrite !u64_id by lia.
  destruct ((sb_pitch (is_input_buf s) <? x + w) || _) eqn:Ei; [unfold EINVAL; intros; lia|].
  destruct ((sb_pitch (is_output_buf s) <? _) || _) eqn:Eo; [unfold EINVAL; intros; lia|]. intros _.
  apply Z.eqb_eq in E0, E1. assert (Hpitch : forall b slot fmt, scale_buf_ok call slot b fmt = 0 -> buf_ok b -> 0 < sb_pitch b).
  { intros b slot fmt. unfold scale_buf_ok, EPERM, EINVAL. intros Hs (Hp & _). unfold is_u32 in Hp.
    repeat case_match; try lia. }
  pose proof (Hpitch _ _ _ E0 Hib) as P0. pose proof (Hpitch _ _ _ E1 Hob) as P1.
  destruct (scale_buf_ok_0 _ _ _ _ Hok Hib Hne E0) as (lo & hi & Hr & _ & A1 & A2 & A3 & A4).
  destruct (scale_buf_ok_0 _ _ _ _ Hok Hob Hne E1) as (lo' & hi' & Hr' & _ & B1 & B2 & B3 & B4).
  apply orb_false_iff in Ei as [Ei1 Ei2]. apply orb_false_iff in Eo as [Eo1 Eo2]. apply Z.ltb_ge in Ei1, Ei2, Eo1, Eo2.
  exists x, y, w, h, lo, hi, lo', hi'. split; [done|]. split; [done|]. split; [done|]. split; [done|]. split.
  - intros a Ha. apply (touches_inside _ _ lo hi) in Ha as [H|H]; try done; try lia. exfalso. revert H. apply even_no_odd_row. lia.
  - intros a. apply touches_inside; try done; lia.
Qed.

(** every byte the scaler touches for an accepted call lies in the memory the buffer may use: the decode
    window, or the arena block of its slot. The input window the driver will read covers the one the guest asked
    for, and all of its luma and chroma bytes are inside the input's range; so are the bytes of the output window,
    rounded as the DSP writes it, for a 4:2:0 output under the condition that it ends on an even row or the buffer
    has an even height. *)
Theorem img_scale_confined call s :
  call_ok call -> buf_ok (is_input_buf s) -> buf_ok (is_output_buf s) -> rect_ok (is_input s) -> rect_ok (is_output s) ->
  IAV_YUV_FORMAT_YUV422 <> IAV_YUV_FORMAT_YUV420 ->
  check_img_scale call s = 0 ->
  exists x y w h lo hi lo' hi',
    input_window s = Some (x, y, w, h) /\
    covers (if is_input_win_format s =? IAV_INPUT_WIN_FORMAT_U32 then 1 else 256) (is_input s) x y w h /\
    buf_range call 0 (sb_pid (is_input_buf s)) = inr (lo, hi) /\
    buf_range call 1 (sb_pid (is_output_buf s)) = inr (lo', hi') /\
    (forall a, touches (is_format s) (is_input_buf s) x y w h a -> lo <= a < hi) /\
    let oh := round_up64 (r_height (is_output s)) IMG_SCALE_V_ALIGN in
    ((r_y (is_output s) + oh) mod 2 = 0 \/ sb_height (is_output_buf s) mod 2 = 0 ->
     forall a, touches (output_format s) (is_output_buf s) (r_x (is_output s)) (r_y (is_output s))
                 (round_up64 (r_width (is_output s)) IMG_SCALE_H_ALIGN) oh a -> lo' <= a < hi').
Proof.
  intros Hok H1 H2 H3 H4 Hne Hc. destruct (img_scale_ranges call s) as (x & y & w & h & lo & hi & lo' & hi' & Hw & Hcov & R1 & R2 & Hin & Hout);
    [done..|]. exists x, y, w, h, lo, hi, lo', hi'. do 5 (split; [done|]). cbv zeta. intros He a Ha.
  destruct (Hout a Ha) as [H|H]; [done|]. exfalso. revert H. by apply even_no_odd_row.
Qed.

(** ** Copies *)

Definition copy_ok (g : iav_gdma_copy) : Prop :=
  is_u32 (gc_width g) /\ is_u32 (gc_height g) /\ is_u32 (gc_src_pitch g) /\ is_u32 (gc_dst_pitch g) /\
  is_u64 (gc_src_offset g) /\ is_u64 (gc_dst_offset g).

Lemma gdma_side_ok_0 call slot pid offset pitch height width dst :
  call_ok call -> is_u32 pitch -> is_u32 height -> is_u64 offset -> 0 < width ->
  gdma_side_ok call slot pid offset pitch height width dst = 0 ->
  exists lo hi, buf_range call slot pid = inr (lo, hi) /\
    (dst = true -> pid_is_primary_content call pid = true \/ is_arena_slot call slot pid = true) /\
    forall r c, 0 <= r < height -> 0 <= c < width -> lo <= offset + r * pitch + c < hi.
Proof.
  intros Hok Hp Hh Ho Hw. unfold is_u32, is_u64 in *. unfold gdma_side_ok, EPERM, EINVAL.
  destruct (buf_range call slot pid) as [e|[lo hi]] eqn:Er; [intros; lia|].
  pose proof (buf_range_inr _ _ _ _ _ Hok Er) as (Hlo & Hhi & _).
  destruct (dst && negb (pid_is_primary_content call pid) && negb (is_arena_slot call slot pid)) eqn:Ed; [intros; lia|].
  destruct ((pitch =? 0) || (pitch <? width)) eqn:Ep; [intros; lia|]. rewrite u64_id by nia.
  pose proof (span_ok_iff offset (pitch * height) lo hi) as Hs.
  destruct (span_ok offset (pitch * height) lo hi); cbn [negb]; [|intros; lia]. intros _.
  exists lo, hi. split; [done|]. split.
  - intros ->. cbn [andb] in Ed. apply andb_false_iff in Ed as [E|E]; apply negb_false_iff in E; auto.
  - intros r c Hr Hc. apply orb_false_iff in Ep as [_ Ep]. apply Z.ltb_ge in Ep. nia.
Qed.

Lemma gdma_copy_ranges call g :
  call_ok call -> copy_ok g -> check_gdma_copy call g = 0 ->
  exists lo hi lo' hi',
    buf_range call 0 (gc_src_mmap_type g) = inr (lo, hi) /\ buf_range call 1 (gc_dst_mmap_type g) = inr (lo', hi') /\
    (pid_is_primary_content call (gc_dst_mmap_type g) = true \/ is_arena_slot call 1 (gc_dst_mmap_type g) = true) /\
    forall r c, 0 <= r < gc_height g -> 0 <= c < gc_width g ->
      lo <= gc_src_offset g + r * gc_src_pitch g + c < hi /\ lo' <= gc_dst_offset g + r * gc_dst_pitch g + c < hi'.
Proof.
  intros Hok (Hw & Hh & Hsp & Hdp & Hso & Hdo). unfold check_gdma_copy.
  destruct (gc_src_use_phys g || _ || _ || _); [unfold EPERM; intros; lia|].
  destruct ((gc_width g =? 0) || (gc_height g =? 0)) eqn:Ez; [unfold EINVAL; intros; lia|].
  apply orb_false_iff in Ez as [Ez _]. apply Z.eqb_neq in Ez. unfold is_u32 in Hw.
  destruct (gdma_side_ok call 0 _ _ _ _ _ false =? 0) eqn:E0; [|intros; lia]. apply Z.eqb_eq in E0. intros E1.
  apply gdma_side_ok_0 in E0 as (lo & hi & Hr & _ & Hsrc); try done; [|lia].
  apply gdma_side_ok_0 in E1 as (lo' & hi' & Hr' & Hown & Hdst); try done; [|lia].
  exists lo, hi, lo', hi'. split; [done|]. split; [done|]. split; [by apply Hown|]. auto.
Qed.

(** an accepted copy reads and writes only memory the guest holds: every byte of every row of the source lies
    in the window, aperture entry or arena block of the source, every byte written in that of the destination, and
    the destination is the guest's own content (the decode or overlay partition, a partition of its aperture) or a
    block of its own arena; it is never the DSP or the bitstream partition outside the aperture. *)
Theorem gdma_copy_confined call g :
  call_ok call -> copy_ok g -> check_gdma_copy call g = 0 ->
  exists lo hi lo' hi',
    buf_range call 0 (gc_src_mmap_type g) = inr (lo, hi) /\ buf_range call 1 (gc_dst_mmap_type g) = inr (lo', hi') /\
    (pid_is_primary_content call (gc_dst_mmap_type g) = true \/ is_arena_slot call 1 (gc_dst_mmap_type g) = true) /\
    forall r c, 0 <= r < gc_height g -> 0 <= c < gc_width g ->
      lo <= gc_src_offset g + r * gc_src_pitch g + c < hi /\ lo' <= gc_dst_offset g + r * gc_dst_pitch g + c < hi'.
Proof. apply gdma_copy_ranges. Qed.

(** ** Overlays and blur *)

Definition area_ok (a : iav_overlay_area) : Prop :=
  is_u32 (oa_pitch a) /\ is_u32 (oa_height a) /\ is_u64 (oa_data_addr_offset a) /\ is_u64 (oa_clut_addr_offset a).

(** an accepted overlay, of a stream or of a canvas, makes the DSP read only the overlay partition of its kind:
    each row of each enabled area, and its colour table, lie in the overlay window (a stream) or in the guest's
    CANVAS_OVERLAY entry (a canvas), also when the size the guest declared is smaller than pitch times height; and
    the id is one the driver can shift and index with. *)
Theorem overlay_confined call o id canvas :
  call_ok call -> Forall area_ok (oi_area o) -> overlay_ok call o id canvas = 0 ->
  id < (if canvas then IAV_MAX_CANVAS_BUF_NUM else 32) /\
  (oi_enable o = true ->
   forall a, a ∈ oi_area o -> oa_enable a = true ->
     let limit := if canvas then aux_len_of call IAV_PART_CANVAS_OVERLAY else call_ovl_len call in
     (forall r c, 0 <= r < oa_height a -> 0 <= c < oa_pitch a ->
        oa_data_addr_offset a + r * oa_pitch a + c < limit) /\
     oa_clut_addr_offset a + OVERLAY_CLUT_BYTES <= limit).
Proof.
  intros Hok Hareas. unfold overlay_ok, STREAM_IDS. cbv zeta.
  set (limit := if canvas then aux_len_of call IAV_PART_CANVAS_OVERLAY else call_ovl_len call).
  assert (Hlim : is_u64 limit) by (unfold limit; destruct canvas; [by apply aux_len_u64|by destruct Hok]).
  destruct (if canvas then IAV_MAX_CANVAS_BUF_NUM <=? id else 32 <=? id) eqn:Eid; [unfold EINVAL; intros; lia|]. intros H.
  split; [destruct canvas; lia|]. intros He. rewrite He in H. cbn [negb] in H.
  destruct (limit =? 0); [unfold EPERM in H; lia|]. clearbody limit. unfold is_u64 in Hlim.
  induction Hareas as [|a areas (Hp & Hh & Hd & Hc) _ IH]; [by intros a ?%not_elem_of_nil|].
  cbn [overlay_areas_ok] in H. intros a' Ha' Hen. apply elem_of_cons in Ha' as [->|Ha'].
  2:{ apply IH; [|done|done]. destruct (oa_enable a); cbn [negb] in H; [|done].
      destruct (negb _ || negb _); [unfold EINVAL in H; lia|done]. }
  rewrite Hen in H. cbn [negb] in H. unfold is_u32, is_u64 in *.
  pose proof (range_ok_iff (oa_data_addr_offset a) (overlay_need a) limit) as R1.
  pose proof (range_ok_iff (oa_clut_addr_offset a) OVERLAY_CLUT_BYTES limit) as R2.
  destruct (range_ok (oa_data_addr_offset a) _ _); cbn [negb orb] in H; [|unfold EINVAL in H; lia].
  destruct (range_ok (oa_clut_addr_offset a) _ _); cbn [negb] in H; [|unfold EINVAL in H; lia].
  assert (Hneed : oa_pitch a * oa_height a <= overlay_need a).
  { unfold overlay_need. rewrite u64_id by nia. destruct (Z.ltb_spec (oa_pitch a * oa_height a) (oa_total_size a)); lia. }
  split; [|lia]. intros r c Hr Hcc. nia.
Qed.

Definition blur_area_ok (a : iav_blur_area) : Prop :=
  is_u32 (ba_width a) /\ is_u32 (ba_height a) /\ is_u32 (ba_arb_blur_offset a) /\ is_u32 (ba_arb_blur_pitch a).

(** an accepted blur whose areas carry a bitmap makes the DSP read only the guest's ARB_BLUR entry: every row
    of every such area, [(width + 7) / 8 + 1] bytes at its pitch, lies in it; a smooth blur with a bitmap is never
    accepted, and an enabled blur only when the driver reports the partition of its type. *)
Theorem blur_confined call b :
  call_ok call -> Forall blur_area_ok (bi_area b) -> check_blur_insert call b = 0 -> bi_enable b = true ->
  blur_partition_present call (if bi_type b =? IAV_BLUR_TYPE_SMOOTH then IAV_PART_SMOOTH_BLUR else IAV_PART_BLUR) = true /\
  forall a, a ∈ bi_area b -> ba_enable a = true -> ba_use_arb_blur a = true ->
    bi_type b <> IAV_BLUR_TYPE_SMOOTH /\ 0 < ba_height a /\
    forall r c, 0 <= r < ba_height a -> 0 <= c < (ba_width a + 7) / 8 + 1 ->
      ba_arb_blur_offset a + r * ba_arb_blur_pitch a + c < aux_len_of call IAV_PART_ARB_BLUR.
Proof.
  intros Hok Hareas H He. unfold check_blur_insert, EINVAL in H.
  destruct (if bi_id_for_canvas b then _ else _); [lia|]. rewrite He in H. cbn [negb] in H.
  destruct (IAV_BLUR_TYPE_NUM <=? bi_type b); [lia|].
  destruct (Z.eqb_spec (blur_areas_ok call (bi_area b) (bi_type b =? IAV_BLUR_TYPE_SMOOTH)) 0) as [E|];
    cbn [negb] in H; [|lia].
  split; [destruct (blur_partition_present _ _); [done|cbn [negb] in H; lia]|]. clear H.
  pose proof (aux_len_u64 call IAV_PART_ARB_BLUR Hok) as Hlim. unfold is_u64 in Hlim.
  induction Hareas as [|a areas (Hw & Hh & Ho & Hp) _ IH]; [by intros a ?%not_elem_of_nil|].
  cbn [blur_areas_ok] in E. intros a' Ha' Hen Harb. apply elem_of_cons in Ha' as [->|Ha'].
  2:{ apply IH; [|done|done|done]. destruct (negb (ba_enable a) || negb (ba_use_arb_blur a)); [done|].
      destruct (Z.eqb_spec (arb_blur_area_ok call a (bi_type b =? IAV_BLUR_TYPE_SMOOTH)) 0); cbn [negb] in E; [done|lia]. }
  rewrite Hen, Harb in E. cbn [negb orb] in E. unfold is_u32 in *.
  destruct (Z.eqb_spec (arb_blur_area_ok call a (bi_type b =? IAV_BLUR_TYPE_SMOOTH)) 0) as [Ea|]; cbn [negb] in E; [|lia].
  unfold arb_blur_area_ok, EPERM, EINVAL in Ea. destruct (Z.eqb_spec (bi_type b) IAV_BLUR_TYPE_SMOOTH); [done|].
  destruct (aux_len_of call IAV_PART_ARB_BLUR =? 0); [lia|]. destruct (Z.eqb_spec (ba_height a) 0); [lia|].
  rewrite (u32_id (ba_height a - 1)), (u64_id ((ba_height a - 1) * _)), u64_id, u64_id in Ea by nia.
  match type of Ea with context [range_ok ?o ?l ?m] => pose proof (range_ok_iff o l m) as Hr; destruct (range_ok o l m) end;
    cbn [negb] in Ea; [|lia].
  split; [done|]. split; [lia|]. intros r c Hrr Hc. nia.
Qed.

(** ** Window pinning *)

(** The driver's channels. Its decode partition is sized by the VIN sources of the channels with [pre_dec_enable]. *)
Definition decoder_source (cfgs : gmap Z iav_chan_cfg) (vsrc : Z) : Prop :=
  exists ch c, cfgs !! ch = Some c /\ cc_pre_dec_enable c <> 0 /\ cc_vsrc_id c = vsrc.

Definition answers (call : iav_call) (cfgs : gmap Z iav_chan_cfg) : Prop :=
  exists q, call_query call = Some q /\ forall ch, q_chan_config q ch = cfgs !! ch.

Lemma decoder_source_insert cfgs ch have want vsrc :
  cfgs !! ch = Some have ->
  (cc_pre_dec_enable have <> 0 <-> cc_pre_dec_enable want <> 0) ->
  (cc_pre_dec_enable have <> 0 -> cc_vsrc_id have = cc_vsrc_id want) ->
  decoder_source (<[ch := want]> cfgs) vsrc <-> decoder_source cfgs vsrc.
Proof.
  intros Hch Hpre Hv. split; intros (ch' & c & Hc & Hp & Hs); destruct (decide (ch' = ch)) as [->|Hne].
  - rewrite lookup_insert_eq in Hc. injection Hc as <-. exists ch, have. split; [done|].
    split; [tauto|]. rewrite Hv; tauto.
  - rewrite lookup_insert_ne in Hc by done. by exists ch', c.
  - assert (c = have) as -> by congruence. exists ch, want. rewrite lookup_insert_eq. split; [done|].
    split; [tauto|]. rewrite <- Hv; tauto.
  - exists ch', c. by rewrite lookup_insert_ne.
Qed.

(** no accepted channel configuration or VIN source update moves a partition behind a window: with the
    driver answering from its channels, the set of decoder sources (whose number sizes the decode partition) is the
    same after the configuration as before, and so is the [sw_ce_enable] of the channel (which sizes the CE map). *)
Theorem pinning_keeps_decoders call cfgs want v :
  answers call cfgs ->
  (check_chan_cfg_pinned call want = (0, false) ->
   (forall vsrc, decoder_source (<[cc_chan_id want := want]> cfgs) vsrc <-> decoder_source cfgs vsrc) /\
   exists have, cfgs !! cc_chan_id want = Some have /\ cc_sw_ce_enable have = cc_sw_ce_enable want) /\
  (vp_cid v = IAV_VIDEO_PROC_VSRC_UPDATE ->
   ~ vp_cid v ∈ [IAV_VIDEO_PROC_MASK; IAV_VIDEO_PROC_DPTZ; IAV_VIDEO_PROC_CANVAS_FPS;
                 IAV_VIDEO_PROC_CANVAS_VV_SYNC_CFG; IAV_VIDEO_PROC_CANVAS_DUMMY_LATENCY] ->
   check_cfg_vproc call v = (0, false) ->
   exists have, cfgs !! vp_vsrc_chan_id v = Some have /\
     forall vsrc, decoder_source (<[vp_vsrc_chan_id v := {| cc_chan_id := cc_chan_id have;
       cc_pre_dec_enable := cc_pre_dec_enable have; cc_sw_ce_enable := cc_sw_ce_enable have;
       cc_vsrc_id := vp_vsrc_vsrc_id v |}]> cfgs) vsrc <-> decoder_source cfgs vsrc).
Proof.
  intros (q & Hq & Hans). split.
  - unfold check_chan_cfg_pinned. rewrite Hq, Hans. destruct (cfgs !! cc_chan_id want) as [have|] eqn:Ec; [|done].
    destruct (negb (cc_pre_dec_enable have =? cc_pre_dec_enable want) || _ || _) eqn:E; [done|]. intros _.
    apply orb_false_iff in E as [E Ev]. apply orb_false_iff in E as [Ep Es].
    apply negb_false_iff, Z.eqb_eq in Ep. apply negb_false_iff, Z.eqb_eq in Es.
    split; [|by exists have]. intros vsrc. apply (decoder_source_insert _ _ have); [done|by rewrite Ep|].
    intros Hnz. rewrite (proj2 (Z.eqb_neq _ 0) Hnz) in Ev. cbn [negb orb andb] in Ev.
    by apply negb_false_iff, Z.eqb_eq in Ev.
  - intros Hcid Hnot. rewrite !elem_of_cons in Hnot. unfold check_cfg_vproc.
    do 5 (rewrite (proj2 (Z.eqb_neq _ _)) by tauto). rewrite (proj2 (Z.eqb_eq _ _) Hcid).
    destruct (_ || _); [done|]. rewrite Hq, Hans. destruct (cfgs !! vp_vsrc_chan_id v) as [have|] eqn:Ec; [|done].
    destruct (Z.eqb_spec (cc_pre_dec_enable have) 0) as [E0|]; cbn [negb]; [|done]. intros _. exists have.
    split; [done|]. intros vsrc. by apply (decoder_source_insert _ _ have).
Qed.

(** ** The inline marshal *)

Lemma flag_roundtrip v p : 0 <= v <= 1 -> p <> 0 -> (if (if v =? 0 then 0 else p) =? 0 then 0 else 1) = v.
Proof. intros Hv Hp. destruct (Z.eqb_spec v 0); [cbn; lia|]. destruct (Z.eqb_spec p 0); lia. Qed.

(** the pointers of IMG_GET_MISC_INFO are round-tripped as presence flags: in an accepted call each pointer
    the driver sees is NULL or an array of the broker's own trailer, and the flags the guest gets back are the ones
    it sent, so neither a guest address reaches the driver nor a broker address the guest. The arrays the guest did
    not fill are zero. *)
Theorem misc_info_roundtrip t_addr m t m' t' :
  0 < t_addr -> 0 <= mi_query_extra_raw m -> 0 <= mi_extra_raw_valid m -> 0 <= mi_extra_raw m -> 0 <= im_count t ->
  length (im_query t) = 16%nat -> length (im_valid t) = 16%nat -> length (im_extra t) = 512%nat ->
  check_misc_info t_addr m (Some t) = (0, m', t') ->
  post_misc_info m' = m /\
  (forall p, p ∈ [mi_query_extra_raw m'; mi_extra_raw_valid m'; mi_extra_raw m'] -> p = 0 \/ t_addr <= p < t_addr + 544) /\
  exists u, t' = Some u /\ im_valid u = repeat 0 16 /\ im_extra u = repeat 0 512 /\
    length (im_query u) = 16%nat /\ forall k, im_count t <= Z.of_nat k -> (k < 16)%nat -> im_query u !! k = Some 0.
Proof.
  intros Ha Hq Hv He Hn Lq Lv Le. unfold check_misc_info, AMBA_VIRT_IAV_INLINE_MISC_CHANS.
  destruct ((1 <? mi_query_extra_raw m) || _ || _ || _ || _) eqn:E; [done|].
  repeat (apply orb_false_iff in E as [E ?]). apply Z.ltb_ge in E. repeat match goal with
    H : (_ <? _) = false |- _ => apply Z.ltb_ge in H end.
  intros [= <- <-]. unfold post_misc_info, misc_query_addr, misc_valid_addr, misc_extra_addr, AMBA_VIRT_IAV_INLINE_MISC_CHANS.
  cbn. split; [|split].
  - destruct m as [a b c]. cbn in *. f_equal; apply flag_roundtrip; lia.
  - intros p. rewrite !elem_of_cons. intros [->|[->|[->|Hp%not_elem_of_nil]]]; [..|done];
      match goal with |- context [if ?x =? 0 then 0 else _] => destruct (x =? 0) end; lia.
  - eexists. split; [done|]. cbn. unfold zero_fill. rewrite Lv, Le, Lq. split; [done|]. split; [done|].
    split; [rewrite length_app, length_take, repeat_length; lia|]. intros k Hk Hk16.
    rewrite lookup_app_r by (rewrite length_take; lia). rewrite length_take.
    destruct (lookup_lt_is_Some_2 (repeat 0 (16 - Z.to_nat (im_count t))) (k - Z.to_nat (im_count t) `min` length (im_query t)))
      as [z Hz]; [rewrite repeat_length; lia|]. rewrite Hz. by apply repeat_lookup in Hz as ->.
Qed.

End WithAbi.

(** ** Concrete calls *)

#[local] Existing Instance TableProps.sample_abi.

(** A guest with a decode window of 1 MiB, an overlay window of 64 KiB, an ARB_BLUR entry of 4 KiB, a channel that
    is a decoder, and a JPEG header at the start of the decode window. *)
Definition sample_call (dec_len : Z) : iav_call :=
  {| call_cmd := 0; call_cid := 7; call_block_max_ms := 2000; call_dec_len := dec_len; call_ovl_len := 0x10000;
     call_dsp_len := 0x100000; call_bsb_len := 0x100000;
     call_query := Some {| q_chan_config := fun ch => if ch =? 0 then Some (Build_iav_chan_cfg 0 1 0 3) else None;
                           q_system_resource := None; q_memblock := fun _ => Some (0x1000, 0x1000) |};
     call_read_dec := Some (fun _ _ => Some JpegProps.sample_header);
     call_arena_pid := 0; call_arena := []; call_naux := 1; call_aux := [(IAV_PART_ARB_BLUR, 0x1000)] |}.

Lemma sample_call_ok dec_len : is_u64 dec_len -> call_ok (sample_call dec_len).
Proof.
  intros H. split; try (cbn; done); try (unfold is_u64; cbn; lia).
  repeat constructor; cbn; lia.
Qed.

Lemma sample_bytes : Forall is_u8 JpegProps.sample_header.
Proof. unfold is_u8. vm_compute. repeat constructor; discriminate. Qed.

(** A 640 x 480 4:2:0 picture takes 640 x 480 x 1.5 bytes. *)
Definition sample_jpeg : iav_decode_jpeg :=
  {| dj_decoder_id := 0; dj_jpeg_size := 5000; dj_jpeg_start_offset := 0; dj_is_dec_only := true;
     dj_yuv_size := 460800; dj_yuv_start_offset := 0x10000 |}.

Lemma decode_jpeg_iff_witness :
  check_decode_jpeg (sample_call 0x100000) sample_jpeg = 0 /\ dj_decoder_id sample_jpeg < IAV_MAX_DECODER_NUMBER.
Proof.
  assert (H : check_decode_jpeg (sample_call 0x100000) sample_jpeg = 0) by (vm_compute; reflexivity).
  split; [exact H|].
  apply (decode_jpeg_iff (sample_call 0x100000) sample_jpeg) in H as [Hid _]; [exact Hid|..].
  - apply sample_call_ok. unfold is_u64. lia.
  - unfold is_u64. cbn. lia.
  - unfold is_u64. cbn. lia.
  - cbn. lia.
  - cbn. lia.
  - intros read off n head Hr Hh. cbn in Hr. injection Hr as <-. injection Hh as <-. apply sample_bytes.
Defined.

(** Room for one byte less is refused. *)
Example decode_jpeg_short_room :
  check_decode_jpeg (sample_call 0x100000)
    {| dj_decoder_id := 0; dj_jpeg_size := 5000; dj_jpeg_start_offset := 0; dj_is_dec_only := true;
       dj_yuv_size := 460799; dj_yuv_start_offset := 0x10000 |} = - EINVAL.
Proof. vm_compute. reflexivity. Qed.

Definition sample_buf (pitch height y uv : Z) : iav_scale_buf_info :=
  {| sb_use_phys := false; sb_use_dma_buf_fd := false; sb_pid := IAV_PART_DEC_BSB; sb_pitch := pitch;
     sb_height := height; sb_y_offset := y; sb_uv_offset := uv |}.

Definition sample_scale : iav_img_scale :=
  {| is_format := IAV_YUV_FORMAT_YUV420; is_output_format_enable := false; is_output_format := 0;
     is_input_buf := sample_buf 640 480 0 307200; is_output_buf := sample_buf 320 240 0x80000 0x92C00;
     is_input_win_format := IAV_INPUT_WIN_FORMAT_U24_8; is_input := Build_iav_rect 0x1080 0x280 0x7f80 0x4000;
     is_output := Build_iav_rect 0 0 317 239 |}.

Lemma img_scale_confined_witness :
  check_img_scale (sample_call 0x100000) sample_scale = 0 /\ exists x y w h, input_window sample_scale = Some (x, y, w, h).
Proof.
  assert (H : check_img_scale (sample_call 0x100000) sample_scale = 0) by (vm_compute; reflexivity).
  split; [exact H|].
  apply (img_scale_confined (sample_call 0x100000) sample_scale) in H as (x & y & w & h & _ & _ & _ & _ & Hw & _).
  - exists x, y, w, h. exact Hw.
  - apply sample_call_ok. unfold is_u64. lia.
  - unfold buf_ok, is_u32, is_u64. cbn. lia.
  - unfold buf_ok, is_u32, is_u64. cbn. lia.
  - unfold rect_ok, is_u32. cbn. lia.
  - unfold rect_ok, is_u32. cbn. lia.
  - discriminate.
Defined.

(** The condition on the output of [img_scale_confined] is needed: a 4:2:0 output of two rows placed at the odd row 1
    of a buffer of three rows is accepted in a window of 112 bytes, and the chroma of its last row, at the luma
    row halved, is past the end of the window. *)
Example odd_output_row_outside :
  let s := {| is_format := IAV_YUV_FORMAT_YUV420; is_output_format_enable := false; is_output_format := 0;
              is_input_buf := sample_buf 16 2 0 32; is_output_buf := sample_buf 16 3 48 96;
              is_input_win_format := IAV_INPUT_WIN_FORMAT_U32; is_input := Build_iav_rect 0 0 4 2;
              is_output := Build_iav_rect 0 1 4 2 |} in
  check_img_scale (sample_call 112) s = 0 /\
  touches (output_format s) (is_output_buf s) 0 1 (round_up64 4 IMG_SCALE_H_ALIGN) (round_up64 2 IMG_SCALE_V_ALIGN) 112.
Proof.
  split; [vm_compute; reflexivity|]. change 112 with (96 + 2 / 2 * 16 + 0).
  apply (touch_uv420 _ (sample_buf 16 3 48 96) 0 1 _ _ 2 0); [reflexivity|vm_compute; split; congruence|].
  vm_compute. split; congruence.
Qed.

Definition sample_copy : iav_gdma_copy :=
  {| gc_src_use_phys := false; gc_dst_use_phys := false; gc_src_use_dma_buf_fd := false; gc_dst_use_dma_buf_fd := false;
     gc_width := 64; gc_height := 10; gc_src_mmap_type := IAV_PART_DSP; gc_src_offset := 4096; gc_src_pitch := 64;
     gc_dst_mmap_type := IAV_PART_OVERLAY; gc_dst_offset := 0; gc_dst_pitch := 128 |}.

Lemma gdma_copy_confined_witness :
  check_gdma_copy (sample_call 0x100000) sample_copy = 0 /\
  exists lo hi, buf_range (sample_call 0x100000) 0 (gc_src_mmap_type sample_copy) = inr (lo, hi).
Proof.
  assert (H : check_gdma_copy (sample_call 0x100000) sample_copy = 0) by (vm_compute; reflexivity).
  split; [exact H|].
  apply (gdma_copy_confined (sample_call 0x100000) sample_copy) in H as (lo & hi & _ & _ & Hr & _).
  - exists lo, hi. exact Hr.
  - apply sample_call_ok. unfold is_u64. lia.
  - unfold copy_ok, is_u32, is_u64. cbn. lia.
Defined.

Definition sample_overlay : iav_overlay_insert :=
  {| oi_enable := true; oi_id := 3; oi_id_for_canvas := false;
     oi_area := [{| oa_enable := true; oa_pitch := 256; oa_height := 16; oa_total_size := 10; oa_data_addr_offset := 0x1000;
                    oa_clut_addr_offset := 0 |}] |}.

Lemma overlay_confined_witness : overlay_ok (sample_call 0) sample_overlay 3 false = 0 /\ 3 < 32.
Proof.
  assert (H : overlay_ok (sample_call 0) sample_overlay 3 false = 0) by (vm_compute; reflexivity). split; [exact H|].
  apply (overlay_confined (sample_call 0) sample_overlay 3 false) in H as [Hid _]; [exact Hid|..].
  - apply sample_call_ok. unfold is_u64. lia.
  - constructor; [|constructor]. unfold area_ok, is_u32, is_u64. cbn. lia.
Defined.

Definition sample_blur : iav_blur_insert :=
  {| bi_id_for_canvas := false; bi_canvas_id := 0; bi_stream_id := 1; bi_enable := true; bi_type := 0;
     bi_area := [{| ba_enable := true; ba_use_arb_blur := true; ba_width := 100; ba_height := 50; ba_arb_blur_offset := 64;
                    ba_arb_blur_pitch := 32 |}] |}.

Lemma blur_confined_witness :
  check_blur_insert (sample_call 0) sample_blur = 0 /\ blur_partition_present (sample_call 0) IAV_PART_BLUR = true.
Proof.
  assert (H : check_blur_insert (sample_call 0) sample_blur = 0) by (vm_compute; reflexivity). split; [exact H|].
  apply (blur_confined (sample_call 0) sample_blur) in H as [Hp _]; [exact Hp|..|reflexivity].
  - apply sample_call_ok. unfold is_u64. lia.
  - constructor; [|constructor]. unfold blur_area_ok, is_u32. cbn. lia.
Defined.

Lemma pinning_keeps_decoders_witness :
  let want := Build_iav_chan_cfg 0 1 0 3 in
  check_chan_cfg_pinned (sample_call 0) want = (0, false) /\
  exists have, (<[0 := want]> (∅ : gmap Z iav_chan_cfg)) !! 0 = Some have /\ cc_sw_ce_enable have = cc_sw_ce_enable want.
Proof.
  intros want. assert (H : check_chan_cfg_pinned (sample_call 0) want = (0, false)) by (vm_compute; reflexivity).
  split; [exact H|].
  apply (pinning_keeps_decoders (sample_call 0) (<[0 := want]> ∅) want (Build_iav_video_proc 0 0 (Build_iav_dptz 0 0 0 0)
    0 0 0 0 0 sample_overlay 0 0 0 0 [] 0 0 [] 0)) in H as [_ Hs]; [exact Hs|].
  eexists. split; [reflexivity|]. intros ch. cbn. destruct (Z.eqb_spec ch 0) as [->|Hne].
  - symmetry. apply lookup_insert_eq.
  - rewrite lookup_insert_ne by done. symmetry. apply lookup_empty.
Defined.

Lemma misc_info_roundtrip_witness :
  let m := Build_img_misc_info 1 0 1 in
  let t := Build_inline_misc (repeat 9 16) (repeat 9 16) (repeat 9 512) 4 0 in
  let r := check_misc_info 0x5000 m (Some t) in
  fst (fst r) = 0 /\ post_misc_info (snd (fst r)) = m.
Proof.
  intros m t r. assert (E : check_misc_info 0x5000 m (Some t) = (0, snd (fst r), snd r)) by (vm_compute; reflexivity).
  split; [vm_compute; reflexivity|].
  apply (misc_info_roundtrip 0x5000 m t (snd (fst r)) (snd r)); [lia|cbn; lia|cbn; lia|cbn; lia|cbn; lia| | | |exact E];
    reflexivity.
Defined.

End PolicyProps.
