(* ===== verification/IavSession.v ===== *)
(** * The IAV broker: its state, guests and sessions (tools/iav_broker.c, first half)

    The broker opens the real /dev/iav for the guests: a session is one real descriptor, named by a handle that
    carries the broker's epoch, the generation of the slot and its index. Several worker threads serve requests and a
    liveness thread closes the sessions of guests that went away, so each function here is one critical section of
    the broker's lock; a request that keeps a session across the lock holds a reference ([se_refs]). *)

From stdpp Require Import base list.
From Stdlib Require Import ZArith Lia SpecFloat.
From S2P Require Import Prelude ByteBuf IavTable.

Definition EAGAIN : Z := 11.
Definition EBADF : Z := 9.
Definition EMFILE : Z := 24.
Definition ENOSYS : Z := 38.
Definition EPROTO : Z := 71.
Definition EMSGSIZE : Z := 90.
Definition ECONNRESET : Z := 104.

Definition IAV_BROKER_MAX_SESSIONS : nat := 64.
Definition IAV_BROKER_MAX_CIDS : nat := 16.
Definition IAV_BROKER_DEFAULT_PER_CID : Z := 16.
Definition IAV_BROKER_DEFAULT_BLOCK_MS : Z := 2000.
Definition IAV_BROKER_AUX_MAX : nat := 16.
Definition AMBA_VIRT_IAV_MAX_WINDOWS : Z := 4.
Definition PAGE_BYTES : Z := 4096.
Definition AUX_ALIGN_BYTES : Z := 0x10000.

(** ** State *)

(** [struct iav_broker_aux_entry] and [struct iav_broker_aperture]. *)
Record aux_entry := { ax_pid : Z; ax_base : Z; ax_len : Z; ax_offset : Z }.
Record aperture := { ap_size : Z; ap_epoch : Z; ap_entries : list aux_entry }.

(** [struct iav_broker_window] (without [ring], which nothing reads). *)
Record broker_window := { bw_id : Z; bw_base : Z; bw_part_len : Z; bw_size : Z; bw_pid : Z }.

(** [struct iav_broker_hello]. *)
Record broker_hello := {
  he_done : bool; he_revision : Z; he_features : Z; he_max_window_id : Z; he_page_size : Z; he_table_hash : Z }.

Definition hello0 : broker_hello :=
  {| he_done := false; he_revision := 0; he_features := 0; he_max_window_id := 0; he_page_size := 0; he_table_hash := 0 |}.

Record broker_cfg := {
  cf_profile : iav_profile; cf_max_sessions : Z; cf_block_max_ms : Z; cf_rate_per_sec : Z; cf_rate_burst : Z }.

(** [struct iav_session], the mutex of the descriptor apart. *)
Record iav_session := {
  se_in_use : bool; se_closing : bool; se_gen : Z; se_cid : Z; se_fd : Z; se_refs : Z; se_last_used_ms : Z }.

(** A C [double]: IEEE 754 binary64. *)
Definition double : Type := spec_float.
Definition d_of_Z (z : Z) : double := binary_normalize 53 1024 z 0 false.
Definition d_add : double -> double -> double := SFadd 53 1024.
Definition d_sub : double -> double -> double := SFsub 53 1024.
Definition d_mul : double -> double -> double := SFmul 53 1024.
Definition d_div : double -> double -> double := SFdiv 53 1024.
Definition d_lt : double -> double -> bool := SFltb.

(** [struct iav_cid_state]. *)
Record cid_entry := {
  ci_used : bool; ci_cid : Z; ci_sessions : Z; ci_tokens : double; ci_last_ms : Z; ci_hello : broker_hello }.

Definition cid_entry0 : cid_entry :=
  {| ci_used := false; ci_cid := 0; ci_sessions := 0; ci_tokens := d_of_Z 0; ci_last_ms := 0; ci_hello := hello0 |}.

(** [struct virt_iav_guest_pool]. *)
Record guest_pool := {
  gp_partition_id : Z; gp_parent_base : Z; gp_parent_bytes : Z; gp_slice_count : Z; gp_slice_bytes : Z }.

(** The counters of [struct iav_broker]. *)
Record counters := {
  n_requests : Z; n_refused : Z; n_hello : Z; n_pinned : Z; n_stale_refused : Z; n_rechecks : Z; n_arena : Z;
  n_arena_refused : Z; n_aux_maps : Z }.

(** [struct iav_broker]; the operations ([ops]) are arguments of the functions that use them. [br_pool] is [Some]
    when [guest_pool_set]. *)
Record broker := {
  br_cfg : broker_cfg; br_epoch : Z; br_sess : list iav_session; br_cids : list cid_entry;
  br_windows : list broker_window; br_count : counters; br_aux_src : list aux_entry; br_pool : option guest_pool;
  br_host_features : Z; br_table_hash : Z; br_table_rows : Z; br_stale : bool }.

Definition with_sess (b : broker) (l : list iav_session) : broker :=
  {| br_cfg := br_cfg b; br_epoch := br_epoch b; br_sess := l; br_cids := br_cids b; br_windows := br_windows b;
     br_count := br_count b; br_aux_src := br_aux_src b; br_pool := br_pool b; br_host_features := br_host_features b;
     br_table_hash := br_table_hash b; br_table_rows := br_table_rows b; br_stale := br_stale b |}.

Definition with_cids (b : broker) (l : list cid_entry) : broker :=
  {| br_cfg := br_cfg b; br_epoch := br_epoch b; br_sess := br_sess b; br_cids := l; br_windows := br_windows b;
     br_count := br_count b; br_aux_src := br_aux_src b; br_pool := br_pool b; br_host_features := br_host_features b;
     br_table_hash := br_table_hash b; br_table_rows := br_table_rows b; br_stale := br_stale b |}.

Definition with_count (b : broker) (c : counters) : broker :=
  {| br_cfg := br_cfg b; br_epoch := br_epoch b; br_sess := br_sess b; br_cids := br_cids b;
     br_windows := br_windows b; br_count := c; br_aux_src := br_aux_src b; br_pool := br_pool b;
     br_host_features := br_host_features b; br_table_hash := br_table_hash b; br_table_rows := br_table_rows b;
     br_stale := br_stale b |}.

(** ** Setting up *)

Definition session0 : iav_session :=
  {| se_in_use := false; se_closing := false; se_gen := 1; se_cid := 0; se_fd := -1; se_refs := 0; se_last_used_ms := 0 |}.

Definition counters0 : counters :=
  {| n_requests := 0; n_refused := 0; n_hello := 0; n_pinned := 0; n_stale_refused := 0; n_rechecks := 0;
     n_arena := 0; n_arena_refused := 0; n_aux_maps := 0 |}.

(** The defaults [iav_broker_init] fills in. *)
Definition cfg_defaults (c : broker_cfg) : broker_cfg :=
  {| cf_profile := cf_profile c;
     cf_max_sessions := if cf_max_sessions c =? 0 then IAV_BROKER_DEFAULT_PER_CID else cf_max_sessions c;
     cf_block_max_ms := if cf_block_max_ms c =? 0 then IAV_BROKER_DEFAULT_BLOCK_MS else cf_block_max_ms c;
     cf_rate_per_sec := cf_rate_per_sec c;
     cf_rate_burst := if negb (cf_rate_per_sec c =? 0) && (cf_rate_burst c =? 0) then cf_rate_per_sec c
                      else cf_rate_burst c |}.

(** The hash over the rows of the table in ascending order of the numbers. *)
Definition hash_row (h : Z) (e : iav_policy_entry) : Z :=
  fold_left iav_table_hash_u32
    [e_cmd e; kind_num (e_kind e); dir_num (e_dir e); u32 (e_size e); u32 (e_wire e)] h.

Definition iav_broker_table_hash (pol : policy) : Z * Z :=
  (fold_left hash_row (omap (iav_policy_at pol) (seq 0 (iav_policy_count pol))) IAV_TABLE_HASH_INIT,
   u32 (Z.of_nat (iav_policy_count pol))).

(** [iav_broker_init] once its pointers are there and the policy answered [policy_rc]; [random] is the draw for the
    epoch. *)
Definition iav_broker_init (pol : policy) (policy_rc random : Z) (cfg : broker_cfg) : Z + broker :=
  if bool_decide (cf_profile cfg = IAV_PROFILE_PRIMARY) then inl (- EINVAL)
  else if negb (policy_rc =? 0) then inl (- EPROTO)
  else
    inr {| br_cfg := cfg_defaults cfg; br_epoch := if random =? 0 then 1 else random;
           br_sess := repeat session0 IAV_BROKER_MAX_SESSIONS; br_cids := repeat cid_entry0 IAV_BROKER_MAX_CIDS;
           br_windows := []; br_count := counters0; br_aux_src := []; br_pool := None; br_host_features := 0;
           br_table_hash := fst (iav_broker_table_hash pol); br_table_rows := snd (iav_broker_table_hash pol);
           br_stale := false |}.

Definition AMBA_VIRT_IAV_F_NC_WINDOWS : Z := 1.

Definition iav_broker_set_guest_pool (pool : guest_pool) (b : broker) : broker :=
  {| br_cfg := br_cfg b; br_epoch := br_epoch b; br_sess := br_sess b; br_cids := br_cids b;
     br_windows := br_windows b; br_count := br_count b; br_aux_src := br_aux_src b; br_pool := Some pool;
     br_host_features := br_host_features b; br_table_hash := br_table_hash b; br_table_rows := br_table_rows b;
     br_stale := br_stale b |}.

Definition iav_broker_set_host_features (features : Z) (b : broker) : broker :=
  {| br_cfg := br_cfg b; br_epoch := br_epoch b; br_sess := br_sess b; br_cids := br_cids b;
     br_windows := br_windows b; br_count := br_count b; br_aux_src := br_aux_src b; br_pool := br_pool b;
     br_host_features := Z.land features AMBA_VIRT_IAV_F_NC_WINDOWS; br_table_hash := br_table_hash b;
     br_table_rows := br_table_rows b; br_stale := br_stale b |}.

Definition aux_src_ok (e : aux_entry) : bool :=
  negb (ax_len e =? 0) && (ax_base e mod PAGE_BYTES =? 0) && (ax_len e mod PAGE_BYTES =? 0) &&
  negb (u64 (ax_base e + ax_len e) <? ax_base e).

Definition iav_broker_set_aux_sources (src : list aux_entry) (b : broker) : Z * broker :=
  if Nat.ltb IAV_BROKER_AUX_MAX (length src) || negb (forallb aux_src_ok src) then (- EINVAL, b)
  else
    (0, {| br_cfg := br_cfg b; br_epoch := br_epoch b; br_sess := br_sess b; br_cids := br_cids b;
           br_windows := br_windows b; br_count := br_count b; br_aux_src := src; br_pool := br_pool b;
           br_host_features := br_host_features b; br_table_hash := br_table_hash b; br_table_rows := br_table_rows b;
           br_stale := br_stale b |}).

Definition is_pow2 (v : Z) : bool := negb (v =? 0) && (Z.land v (u64 (v - 1)) =? 0).

Definition window_ok (w : broker_window) : bool :=
  (bw_id w <? AMBA_VIRT_IAV_MAX_WINDOWS) && is_pow2 (bw_size w) && (bw_size w mod PAGE_BYTES =? 0) &&
  (bw_base w mod PAGE_BYTES =? 0) && negb (bw_part_len w =? 0) && (bw_part_len w <=? bw_size w) &&
  negb (u64 (bw_base w + bw_size w) <? bw_base w).

(** Two windows with one id, or that overlap. *)
Definition window_clash (w o : broker_window) : bool :=
  (bw_id o =? bw_id w) ||
  ((bw_base w <? u64 (bw_base o + bw_size o)) && (bw_base o <? u64 (bw_base w + bw_size w))).

Fixpoint windows_ok (before ws : list broker_window) : bool :=
  match ws with
  | [] => true
  | w :: rest => window_ok w && negb (existsb (window_clash w) before) && windows_ok (before ++ [w]) rest
  end.

Definition iav_broker_set_windows (ws : list broker_window) (b : broker) : Z * broker :=
  if (AMBA_VIRT_IAV_MAX_WINDOWS <? Z.of_nat (length ws)) || negb (windows_ok [] ws) then (- EINVAL, b)
  else
    (0, {| br_cfg := br_cfg b; br_epoch := br_epoch b; br_sess := br_sess b; br_cids := br_cids b;
           br_windows := ws; br_count := br_count b; br_aux_src := br_aux_src b; br_pool := br_pool b;
           br_host_features := br_host_features b; br_table_hash := br_table_hash b; br_table_rows := br_table_rows b;
           br_stale := br_stale b |}).

(** ** Per-guest state: quota and rate *)

(** The entry idle longest among those without a session: the loop of [cid_state] over a full table. *)
Fixpoint idle_longest (i : nat) (best : option (nat * Z)) (l : list cid_entry) : option nat :=
  match l with
  | [] => fst <$> best
  | c :: rest =>
      let best' :=
        if (ci_sessions c =? 0) && match best with None => true | Some (_, ms) => ci_last_ms c <? ms end
        then Some (i, ci_last_ms c) else best in
      idle_longest (S i) best' rest
  end.

(** [cid_state]: the index of the guest's entry, created if need be; [None] for NULL. *)
Definition cid_state (now cid : Z) (b : broker) : option nat * broker :=
  match find_idx (fun c => ci_used c && (ci_cid c =? cid)) (br_cids b) with
  | Some i => (Some i, b)
  | None =>
      let free :=
        match find_idx (fun c => negb (ci_used c)) (br_cids b) with
        | Some i => Some i
        | None => idle_longest 0 None (br_cids b)
        end in
      match free with
      | None => (None, b)
      | Some i =>
          (Some i,
           with_cids b (<[i := {| ci_used := true; ci_cid := cid; ci_sessions := 0;
                                  ci_tokens := d_of_Z (cf_rate_burst (br_cfg b)); ci_last_ms := now;
                                  ci_hello := hello0 |}]> (br_cids b)))
      end
  end.

Definition set_tokens (c : cid_entry) (tokens : double) (last : Z) : cid_entry :=
  {| ci_used := ci_used c; ci_cid := ci_cid c; ci_sessions := ci_sessions c; ci_tokens := tokens; ci_last_ms := last;
     ci_hello := ci_hello c |}.

(** [rate_check]: whether the request may go on, and the guest's bucket after it. *)
Definition rate_check (now : Z) (cfg : broker_cfg) (c : cid_entry) : Z * cid_entry :=
  if cf_rate_per_sec cfg =? 0 then (0, c)
  else
    let c1 :=
      if ci_last_ms c <? now then
        let add := d_div (d_mul (d_of_Z (now - ci_last_ms c)) (d_of_Z (cf_rate_per_sec cfg))) (d_of_Z 1000) in
        let tokens := d_add (ci_tokens c) add in
        set_tokens c (if d_lt (d_of_Z (cf_rate_burst cfg)) tokens then d_of_Z (cf_rate_burst cfg) else tokens) now
      else c in
    if d_lt (ci_tokens c1) (d_of_Z 1) then (- EAGAIN, c1)
    else (0, set_tokens c1 (d_sub (ci_tokens c1) (d_of_Z 1)) (ci_last_ms c1)).

(** ** Sessions and handles *)

Definition HANDLE_INDEX_MASK : Z := 0xffff.

Definition make_handle (b : broker) (index : nat) (gen : Z) : Z :=
  Z.lor (Z.shiftl (br_epoch b) 32) (Z.lor (Z.shiftl gen 16) (Z.of_nat index + 1)).

Definition sess_at (b : broker) (i : nat) : iav_session := default session0 (br_sess b !! i).
Definition put_sess (b : broker) (i : nat) (s : iav_session) : broker := with_sess b (<[i := s]> (br_sess b)).

Definition set_refs (s : iav_session) (refs : Z) : iav_session :=
  {| se_in_use := se_in_use s; se_closing := se_closing s; se_gen := se_gen s; se_cid := se_cid s; se_fd := se_fd s;
     se_refs := refs; se_last_used_ms := se_last_used_ms s |}.

Definition set_closing (s : iav_session) : iav_session :=
  {| se_in_use := se_in_use s; se_closing := true; se_gen := se_gen s; se_cid := se_cid s; se_fd := se_fd s;
     se_refs := se_refs s; se_last_used_ms := se_last_used_ms s |}.

(** [session_acquire]: a negative errno, or the index of the session with a reference taken. *)
Definition session_acquire (now cid handle : Z) (b : broker) : (Z + nat) * broker :=
  let idx := Z.land handle HANDLE_INDEX_MASK in
  let gen := Z.land (Z.shiftr handle 16) 0xffff in
  let epoch := u32 (Z.shiftr handle 32) in
  if (handle =? 0) || (idx =? 0) || (Z.of_nat IAV_BROKER_MAX_SESSIONS <? idx) then (inl (- EBADF), b)
  else
    let i := Z.to_nat (idx - 1) in
    let s := sess_at b i in
    if negb (epoch =? br_epoch b) || negb (se_in_use s) || se_closing s || negb (se_gen s =? gen)
    then (inl (- ESTALE), b)
    else if negb (se_cid s =? cid) then (inl (- EACCES), b)
    else
      (inr i, put_sess b i {| se_in_use := se_in_use s; se_closing := se_closing s; se_gen := se_gen s;
                              se_cid := se_cid s; se_fd := se_fd s; se_refs := se_refs s + 1; se_last_used_ms := now |}).

(** The next generation of a slot: 16 bits, never 0. *)
Definition next_gen (g : Z) : Z := if u16 (g + 1) =? 0 then 1 else u16 (g + 1).

Definition drop_session (c : cid_entry) : cid_entry :=
  {| ci_used := ci_used c; ci_cid := ci_cid c; ci_sessions := if 0 <? ci_sessions c then ci_sessions c - 1 else ci_sessions c;
     ci_tokens := ci_tokens c; ci_last_ms := ci_last_ms c; ci_hello := ci_hello c |}.

(** [session_free_locked]: the descriptor to close. *)
Definition session_free_locked (now : Z) (i : nat) (b : broker) : Z * broker :=
  let s := sess_at b i in
  let '(cs, b1) := cid_state now (se_cid s) b in
  let b2 := match cs with Some k => with_cids b1 (alter drop_session k (br_cids b1)) | None => b1 end in
  (se_fd s,
   put_sess b2 i {| se_in_use := false; se_closing := false; se_gen := next_gen (se_gen s); se_cid := 0; se_fd := -1;
                    se_refs := se_refs s; se_last_used_ms := se_last_used_ms s |}).

(** The descriptor the caller closes after the lock, as a list. *)
Definition close_of (fd : Z) : list Z := if 0 <=? fd then [fd] else [].

Definition session_release (now : Z) (i : nat) (b : broker) : list Z * broker :=
  let s := set_refs (sess_at b i) (se_refs (sess_at b i) - 1) in
  let b1 := put_sess b i s in
  if se_closing s && (se_refs s =? 0) then
    let '(fd, b2) := session_free_locked now i b1 in (close_of fd, b2)
  else ([], b1).

Definition session_close (now : Z) (i : nat) (own_ref : bool) (b : broker) : list Z * broker :=
  let s0 := sess_at b i in
  let s := set_refs (set_closing s0) (if own_ref then se_refs s0 - 1 else se_refs s0) in
  let b1 := put_sess b i s in
  if se_refs s =? 0 then let '(fd, b2) := session_free_locked now i b1 in (close_of fd, b2) else ([], b1).

(** [iav_broker_client_gone]: its first critical section, and the one of each slot. *)
Definition forget_hello (cid : Z) (c : cid_entry) : cid_entry :=
  if ci_used c && (ci_cid c =? cid) then
    {| ci_used := ci_used c; ci_cid := ci_cid c; ci_sessions := ci_sessions c; ci_tokens := ci_tokens c;
       ci_last_ms := ci_last_ms c; ci_hello := hello0 |}
  else c.

Definition client_gone_hello (cid : Z) (b : broker) : broker := with_cids b (map (forget_hello cid) (br_cids b)).

Definition client_gone_slot (now cid : Z) (i : nat) (b : broker) : list Z * broker :=
  let s := sess_at b i in
  if se_in_use s && negb (se_closing s) && (se_cid s =? cid) then
    let b1 := put_sess b i (set_closing s) in
    if se_refs s =? 0 then let '(fd, b2) := session_free_locked now i b1 in (close_of fd, b2) else ([], b1)
  else ([], b).

(** A loop over the slots, each its own critical section. *)
Definition over_slots (f : nat -> broker -> list Z * broker) (b : broker) : list Z * broker :=
  fold_left (fun acc i => let '(fds, b1) := f i (snd acc) in (fst acc ++ fds, b1)) (seq 0 IAV_BROKER_MAX_SESSIONS) ([], b).

Definition iav_broker_client_gone (now cid : Z) (b : broker) : list Z * broker :=
  over_slots (client_gone_slot now cid) (client_gone_hello cid b).

Definition reap_slot (now idle_ms : Z) (i : nat) (b : broker) : list Z * broker :=
  let s := sess_at b i in
  if se_in_use s && negb (se_closing s) && (se_refs s =? 0) && (se_last_used_ms s <=? now) &&
     (idle_ms <=? now - se_last_used_ms s)
  then let '(fd, b1) := session_free_locked now i (put_sess b i (set_closing s)) in (close_of fd, b1)
  else ([], b).

Definition iav_broker_reap_idle (now idle_ms : Z) (b : broker) : list Z * broker := over_slots (reap_slot now idle_ms) b.

(** The distinct guests with a session, up to [max]. *)
Fixpoint list_cids_loop (max : nat) (l : list iav_session) (out : list Z) : list Z :=
  match l with
  | [] => out
  | s :: rest =>
      if negb (Nat.ltb (length out) max) then out
      else if negb (se_in_use s) then list_cids_loop max rest out
      else if bool_decide (se_cid s ∈ out) then list_cids_loop max rest out
      else list_cids_loop max rest (out ++ [se_cid s])
  end.

Definition iav_broker_list_cids (max : nat) (b : broker) : list Z := list_cids_loop max (br_sess b) [].

Definition iav_broker_session_count (b : broker) : nat := length (List.filter se_in_use (br_sess b)).

Definition held_by (cid : Z) (s : iav_session) : bool := se_in_use s && (se_cid s =? cid).

Definition iav_broker_cid_sessions (cid : Z) (b : broker) : nat := length (List.filter (held_by cid) (br_sess b)).

Definition iav_broker_cid_has_sessions (cid : Z) (b : broker) : bool := Nat.ltb 0 (iav_broker_cid_sessions cid b).

(** ** Opening

    [op_open] reserves a slot under the lock, opens the real device without it, and finishes under it again. *)

Definition add_session (c : cid_entry) : cid_entry :=
  {| ci_used := ci_used c; ci_cid := ci_cid c; ci_sessions := u32 (ci_sessions c + 1); ci_tokens := ci_tokens c;
     ci_last_ms := ci_last_ms c; ci_hello := ci_hello c |}.

(** The reservation: an errno, or the slot. *)
Definition open_reserve (now cid : Z) (b : broker) : (Z + nat) * broker :=
  let '(cs, b1) := cid_state now cid b in
  match cs with
  | None => (inl EMFILE, b1)
  | Some k =>
      if cf_max_sessions (br_cfg b1) <=? ci_sessions (default cid_entry0 (br_cids b1 !! k)) then (inl EMFILE, b1)
      else
        match find_idx (fun s => negb (se_in_use s)) (br_sess b1) with
        | None => (inl EMFILE, b1)
        | Some i =>
            let s := sess_at b1 i in
            let b2 := put_sess b1 i {| se_in_use := true; se_closing := false; se_gen := se_gen s; se_cid := cid;
                                       se_fd := -1; se_refs := 1; se_last_used_ms := se_last_used_ms s |} in
            (inr i, with_cids b2 (alter add_session k (br_cids b2)))
        end
  end.

(** The end of an open that failed. *)
Definition open_failed (now : Z) (i : nat) (b : broker) : broker :=
  snd (session_free_locked now i (put_sess b i (set_refs (sess_at b i) 0))).

(** The end of an open that yielded [fd]: whether the session lives, and the descriptors to close. *)
Definition open_done (now fd : Z) (i : nat) (b : broker) : bool * list Z * broker :=
  let s := sess_at b i in
  let b1 := put_sess b i {| se_in_use := se_in_use s; se_closing := se_closing s; se_gen := se_gen s; se_cid := se_cid s;
                            se_fd := fd; se_refs := 0; se_last_used_ms := now |} in
  if se_closing s then
    let '(cfd, b2) := session_free_locked now i b1 in (false, [cfd], b2)
  else (true, [], b1).

(** [iav_broker_destroy]: the descriptors it closes. *)
Definition iav_broker_destroy (b : broker) : list Z :=
  map se_fd (List.filter (fun s => se_in_use s && (0 <=? se_fd s)) (br_sess b)).

(** ** What a guest negotiated *)

Definition hello_of (cid : Z) (b : broker) : broker_hello :=
  match List.find (fun c => ci_used c && (ci_cid c =? cid)) (br_cids b) with
  | Some c => ci_hello c
  | None => hello0
  end.

Definition iav_broker_cid_hello (cid : Z) (b : broker) : broker_hello := hello_of cid b.
