(* ===== verification/IavSessionProps.v ===== *)
(** * The sessions of the IAV broker under every interleaving

    [Module SessionProps]: the critical sections of IavSession as the steps of a system in which requests of all
    guests, the liveness thread and the idle reaper interleave in any order. References, the per-guest quota and the
    real descriptors stay consistent ([sessions_consistent]) and a session a request holds is not closed or handed to
    another guest under it ([held_session_stable]), as long as no request names a slot that is still being opened;
    [open_race] is the execution in which one does. *)

From stdpp Require Import base list.
From Stdlib Require Import ZArith Lia.
From S2P Require Import Prelude IavTable IavSession.

Module SessionProps.

#[local] Arguments held_by : simpl never.

(** ** The table of guests *)

Record cids_ok (b : broker) : Prop := {
  co_one : forall k k' c c', br_cids b !! k = Some c -> br_cids b !! k' = Some c' -> ci_used c = true ->
             ci_used c' = true -> ci_cid c = ci_cid c' -> k = k';
  co_count : forall k c, br_cids b !! k = Some c -> ci_used c = true ->
               ci_sessions c = Z.of_nat (iav_broker_cid_sessions (ci_cid c) b);
  co_entry : forall i s, br_sess b !! i = Some s -> se_in_use s = true ->
               exists k c, br_cids b !! k = Some c /\ ci_used c = true /\ ci_cid c = se_cid s }.

Lemma cid_sessions_0 cid b :
  iav_broker_cid_sessions cid b = 0%nat <->
  forall i s, br_sess b !! i = Some s -> se_in_use s = true -> se_cid s <> cid.
Proof.
  unfold iav_broker_cid_sessions. generalize (br_sess b). induction l as [|x l IH]; cbn; [done|].
  unfold held_by at 1. destruct (se_in_use x) eqn:Ex; cbn.
  - destruct (Z.eqb_spec (se_cid x) cid) as [Heq|Hne]; cbn.
    + split; [done|]. intros H. exfalso. by apply (H 0%nat x).
    + rewrite IH. split; intros H.
      * intros [|i] s Hs; [by injection Hs as <-|by apply (H i)].
      * intros i s Hs. by apply (H (S i)).
  - rewrite IH. split; intros H.
    * intros [|i] s Hs Hu; [injection Hs as <-; congruence|by apply (H i)].
    * intros i s Hs. by apply (H (S i)).
Qed.

Lemma idle_longest_spec i best l k :
  idle_longest i best l = Some k ->
  (exists ms, best = Some (k, ms)) \/ exists c, l !! (k - i)%nat = Some c /\ (i <= k)%nat /\ ci_sessions c = 0.
Proof.
  revert i best. induction l as [|c l IH]; intros i best; cbn.
  - destruct best as [[k' ms]|]; [|done]. intros [= <-]. left. by exists ms.
  - intros H. apply IH in H as [[ms Hb]|(c' & Hc & Hle & Hs)].
    + destruct ((ci_sessions c =? 0) && _) eqn:E; [|by left; exists ms]. injection Hb as <- <-.
      right. exists c. rewrite Nat.sub_diag. apply andb_true_iff in E as [E _]. split; [done|]. split; [lia|lia].
    + right. exists c'. replace (k - i)%nat with (S (k - S i)) by lia. split; [done|]. split; [lia|done].
Qed.

(** [cid_state] keeps the table consistent, and a guest with a session always finds its own entry. *)
Lemma cid_state_ok now cid b r b' :
  cids_ok b -> cid_state now cid b = (r, b') ->
  cids_ok b' /\ br_sess b' = br_sess b /\ br_cfg b' = br_cfg b /\ length (br_cids b') = length (br_cids b) /\
  (forall k, r = Some k -> exists c, br_cids b' !! k = Some c /\ ci_used c = true /\ ci_cid c = cid) /\
  (iav_broker_cid_sessions cid b <> 0%nat -> r <> None).
Proof.
  intros Hok. unfold cid_state.
  destruct (find_idx (fun c => ci_used c && (ci_cid c =? cid)) (br_cids b)) as [k|] eqn:Ef.
  { intros [= <- <-]. apply find_idx_Some in Ef as (c & Hc & Hp & _). apply andb_true_iff in Hp as [Hu Hcid].
    split; [done|]. split; [done|]. split; [done|]. split; [done|]. split; [|done]. intros k' [= <-]. exists c. split; [done|].
    split; [done|]. lia. }
  rewrite find_idx_None in Ef.
  assert (Hnone : iav_broker_cid_sessions cid b = 0%nat).
  { apply cid_sessions_0. intros i s Hs Hu Hc. destruct (co_entry _ Hok i s Hs Hu) as (k & c & Hk & Hku & Hkc).
    specialize (Ef k c Hk). rewrite Hku in Ef. cbn in Ef. lia. }
  set (free := match find_idx _ (br_cids b) with Some i => Some i | None => _ end).
  assert (Hfree : forall k, free = Some k -> exists c, br_cids b !! k = Some c /\
    (ci_used c = false \/ iav_broker_cid_sessions (ci_cid c) b = 0%nat)).
  { intros k. unfold free. destruct (find_idx (fun c => negb (ci_used c)) (br_cids b)) as [i|] eqn:E.
    - intros [= <-]. apply find_idx_Some in E as (c & Hc & Hu & _). exists c. split; [done|]. left. by apply negb_true_iff in Hu.
    - intros H. apply idle_longest_spec in H as [[ms ?]|(c & Hc & _ & Hs)]; [done|]. rewrite Nat.sub_0_r in Hc.
      exists c. split; [done|]. rewrite find_idx_None in E. specialize (E k c Hc). apply negb_false_iff in E. right.
      pose proof (co_count _ Hok k c Hc E). lia. }
  destruct free as [k|] eqn:Efree; [|by intros [= <- <-]; rewrite Hnone].
  destruct (Hfree k eq_refl) as (c0 & Hc0 & Hdead). clear Hfree Efree free.
  intros [= <- <-]. split; [|split; [done|split; [done|split; [by cbn; rewrite length_insert|split; [|by rewrite Hnone]]]]].
  2:{ intros k' [= <-]. eexists. cbn. rewrite list_lookup_insert_eq by (by eapply lookup_lt_Some). done. }
  set (b1 := with_cids _ _). assert (Hl : (k < length (br_cids b))%nat) by (by eapply lookup_lt_Some).
  assert (Hnew : forall j c, br_cids b1 !! j = Some c ->
    (j = k /\ ci_cid c = cid /\ ci_sessions c = 0) \/ (j <> k /\ br_cids b !! j = Some c)).
  { intros j c Hj. destruct (decide (j = k)) as [->|Hne]; cbn in Hj.
    - rewrite list_lookup_insert_eq in Hj by done. injection Hj as <-. by left.
    - rewrite list_lookup_insert_ne in Hj by done. by right. }
  split.
  - intros j j' c c' Hj Hj' Hu Hu' Hcc. apply Hnew in Hj as [(-> & Hc & _)|(Hne & Hj)];
      apply Hnew in Hj' as [(-> & Hc' & _)|(Hne' & Hj')]; [done|..].
    + specialize (Ef j' c' Hj'). rewrite Hu' in Ef. cbn in Ef. lia.
    + specialize (Ef j c Hj). rewrite Hu in Ef. cbn in Ef. lia.
    + by apply (co_one _ Hok j j' c c').
  - intros j c Hj Hu. change (iav_broker_cid_sessions (ci_cid c) b1) with (iav_broker_cid_sessions (ci_cid c) b).
    apply Hnew in Hj as [(-> & Hc & Hs)|(_ & Hj)]; [rewrite Hc, Hnone; lia|by apply (co_count _ Hok j)].
  - intros i s Hs Hu. destruct (co_entry _ Hok i s Hs Hu) as (j & c & Hj & Hju & Hjc). exists j, c.
    split; [|done]. cbn. rewrite list_lookup_insert_ne; [done|]. intros ->.
    assert (c = c0) as -> by congruence. destruct Hdead as [Hd|Hd]; [congruence|].
    rewrite cid_sessions_0 in Hd. by apply (Hd i s).
Qed.

(** ** Changing one session *)

Definition b2n (x : bool) : nat := if x then 1 else 0.

Lemma cid_sessions_put cid b i s s' :
  br_sess b !! i = Some s ->
  (iav_broker_cid_sessions cid (put_sess b i s') + b2n (held_by cid s) =
   iav_broker_cid_sessions cid b + b2n (held_by cid s'))%nat.
Proof.
  unfold iav_broker_cid_sessions. cbn. generalize (br_sess b). intros l. revert i. induction l as [|x l IH]; intros i Hi; [done|].
  destruct i as [|i]; cbn in *.
  - injection Hi as ->. destruct (held_by cid s), (held_by cid s'); cbn; lia.
  - specialize (IH i Hi). destruct (held_by cid x); cbn; [f_equal|]; exact IH.
Qed.

Lemma put_lookup b i j s' t :
  br_sess (put_sess b i s') !! j = Some t ->
  (j = i /\ t = s') \/ (j <> i /\ br_sess b !! j = Some t).
Proof. cbn. intros H. by apply lookup_insert_inv in H. Qed.

(** A change that keeps who holds the slot. *)
Lemma cids_ok_put b i s s' :
  cids_ok b -> br_sess b !! i = Some s -> se_in_use s' = se_in_use s -> se_cid s' = se_cid s ->
  cids_ok (put_sess b i s').
Proof.
  intros Hok Hi Hu Hc. split; [by apply (co_one _ Hok)| |].
  - intros k c Hk Hku. rewrite (co_count _ Hok k c Hk Hku). f_equal.
    pose proof (cid_sessions_put (ci_cid c) b i s s' Hi) as Hp. unfold held_by in Hp. rewrite Hu, Hc in Hp. lia.
  - intros j t Hj Htu. apply put_lookup in Hj as [(-> & ->)|(_ & Hj)]; [|by apply (co_entry _ Hok j)].
    rewrite Hc. apply (co_entry _ Hok i); [done|congruence].
Qed.

(** A change of an entry that keeps its guest and its count. *)
Lemma cids_ok_alter b k f :
  cids_ok b -> (forall c, ci_used (f c) = ci_used c /\ ci_cid (f c) = ci_cid c /\ ci_sessions (f c) = ci_sessions c) ->
  cids_ok (with_cids b (alter f k (br_cids b))).
Proof.
  intros Hok Hf. assert (Hl : forall j c, alter f k (br_cids b) !! j = Some c -> exists c0, br_cids b !! j = Some c0 /\
    ci_used c = ci_used c0 /\ ci_cid c = ci_cid c0 /\ ci_sessions c = ci_sessions c0).
  { intros j c Hj. apply lookup_alter_inv in Hj as [(-> & c0 & Hc0 & ->)|(_ & Hj)]; [exists c0|exists c]; [|done].
    split; [done|]. apply Hf. }
  split.
  - intros j j' c c' Hj Hj' Hu Hu' Hcc. apply Hl in Hj as (d & Hd & Ed1 & Ed2 & _). apply Hl in Hj' as (d' & Hd' & Ed1' & Ed2' & _).
    apply (co_one _ Hok j j' d d'); congruence.
  - intros j c Hj Hu. apply Hl in Hj as (d & Hd & Ed1 & Ed2 & Ed3). rewrite Ed3, Ed2.
    apply (co_count _ Hok j d Hd). congruence.
  - intros i s Hs Hu. destruct (co_entry _ Hok i s Hs Hu) as (j & c & Hj & Hju & Hjc).
    exists j. cbn. destruct (decide (j = k)) as [->|Hne].
    + exists (f c). rewrite list_lookup_alter_eq, Hj. cbn. destruct (Hf c) as (H1 & H2 & _). split; [done|]. split; congruence.
    + exists c. by rewrite list_lookup_alter_ne.
Qed.

(** ** Freeing a slot *)

Definition freed (s : iav_session) : iav_session :=
  {| se_in_use := false; se_closing := false; se_gen := next_gen (se_gen s); se_cid := 0; se_fd := -1;
     se_refs := se_refs s; se_last_used_ms := se_last_used_ms s |}.

Lemma session_free_ok now i b s :
  cids_ok b -> br_sess b !! i = Some s -> se_in_use s = true ->
  exists b', session_free_locked now i b = (se_fd s, b') /\ cids_ok b' /\
    br_sess b' = <[i := freed s]> (br_sess b) /\ br_cfg b' = br_cfg b /\ length (br_cids b') = length (br_cids b).
Proof.
  intros Hok Hi Hu. unfold session_free_locked.
  assert (Hs : sess_at b i = s) by (unfold sess_at; by rewrite Hi). rewrite Hs.
  destruct (cid_state now (se_cid s) b) as [r b1] eqn:Ec.
  destruct (cid_state_ok _ _ _ _ _ Hok Ec) as (Hok1 & Hsess & Hcfg & Hlen & Hr & Hnn).
  assert (Hpos : iav_broker_cid_sessions (se_cid s) b <> 0%nat).
  { rewrite cid_sessions_0. intros H. by apply (H i s). }
  destruct r as [k|]; [|by specialize (Hnn Hpos)]. destruct (Hr k eq_refl) as (c & Hk & Hku & Hkc).
  eexists. split; [done|]. split; [|split; [cbn; by rewrite Hsess|split; [done|cbn; by rewrite length_alter]]].
  assert (Hcnt : forall x, iav_broker_cid_sessions x b1 = iav_broker_cid_sessions x b)
    by (intros x; unfold iav_broker_cid_sessions; by rewrite Hsess).
  assert (Hput : forall x, (iav_broker_cid_sessions x (put_sess b i (freed s)) + b2n (held_by x s) =
    iav_broker_cid_sessions x b)%nat).
  { intros x. rewrite (cid_sessions_put x b i s (freed s) Hi). change (held_by x (freed s)) with false. cbn. lia. }
  set (b2 := put_sess _ i _). assert (Hcnt2 : forall x, iav_broker_cid_sessions x b2 = iav_broker_cid_sessions x (put_sess b i (freed s)))
    by (intros x; unfold iav_broker_cid_sessions; cbn; by rewrite Hsess).
  assert (Hl : forall j d, br_cids b2 !! j = Some d ->
    exists d0, br_cids b1 !! j = Some d0 /\ ci_used d = ci_used d0 /\ ci_cid d = ci_cid d0 /\
      (j = k /\ d0 = c /\ ci_sessions d = ci_sessions (drop_session c) \/ j <> k /\ ci_sessions d = ci_sessions d0)).
  { intros j d Hj. cbn in Hj. apply lookup_alter_inv in Hj as [(-> & d0 & Hd0 & ->)|(Hne & Hj)].
    - exists d0. assert (d0 = c) as -> by congruence. split; [done|]. split; [done|]. split; [done|]. by left.
    - exists d. split; [done|]. split; [done|]. split; [done|]. by right. }
  split.
  - intros j j' d d' Hj Hj' Hju Hju' Hcc. apply Hl in Hj as (e & He & E1 & E2 & _). apply Hl in Hj' as (e' & He' & E1' & E2' & _).
    apply (co_one _ Hok1 j j' e e'); congruence.
  - intros j d Hj Hju. apply Hl in Hj as (e & He & E1 & E2 & Hsess_d). rewrite Hcnt2. specialize (Hput (ci_cid d)).
    pose proof (co_count _ Hok1 j e He) as Hce. rewrite Hcnt in Hce. unfold held_by in Hput. rewrite Hu in Hput. cbn [b2n andb] in Hput.
    destruct Hsess_d as [(-> & -> & Hd)|(Hne & Hd)]; rewrite Hd.
    + assert (Heq : (se_cid s =? ci_cid d) = true) by (rewrite E2, Hkc; apply Z.eqb_refl). rewrite Heq in Hput. cbn [b2n andb] in Hput.
      unfold drop_session. cbn [ci_sessions]. rewrite E2 in Hput. specialize (Hce Hku).
      destruct (Z.ltb_spec 0 (ci_sessions c)); [|rewrite E2; lia]. rewrite E2. lia.
    + assert (Hneq : (se_cid s =? ci_cid d) = false).
      { apply Z.eqb_neq. intros Heq. apply Hne. apply (co_one _ Hok1 j k e c); congruence. }
      rewrite Hneq in Hput. cbn [b2n andb] in Hput. rewrite E2 in Hput |- *. rewrite Hce by congruence. lia.
  - intros j t Hj Htu. apply put_lookup in Hj as [(-> & ->)|(Hne & Hj)]; [done|]. cbn in Hj.
    destruct (co_entry _ Hok1 j t Hj Htu) as (m & d & Hm & Hmu & Hmc). exists m. cbn. destruct (decide (m = k)) as [->|Hmk].
    + exists (drop_session d). by rewrite list_lookup_alter_eq, Hm.
    + exists d. by rewrite list_lookup_alter_ne.
Qed.

(** ** The system

    [sy_held] lists the sessions requests hold a reference on (once per request), [sy_opening] the slots reserved by
    an open in progress, [sy_live] the real descriptors that are open. *)

Record sys := { sy_b : broker; sy_held : list nat; sy_opening : list nat; sy_live : list Z }.

(** Whether the critical section [f] of a slot, which yields the descriptors its caller closes, may run. *)
Definition runs (r : list Z * broker) (s : sys) (b' : broker) (live' : list Z) : Prop :=
  exists fds, r = (fds, b') /\ sy_live s ≡ₚ fds ++ live'.

(** One critical section of some thread. With [strict] no request names a slot that is still being opened. *)
Inductive sess_step (strict : bool) (s : sys) : sys -> Prop :=
| step_cid now cid r b' :   (** a request looks its guest up *)
    cid_state now cid (sy_b s) = (r, b') ->
    sess_step strict s {| sy_b := b'; sy_held := sy_held s; sy_opening := sy_opening s; sy_live := sy_live s |}
| step_entry k f :          (** the rate, or what a guest negotiated *)
    (forall c, ci_used (f c) = ci_used c /\ ci_cid (f c) = ci_cid c /\ ci_sessions (f c) = ci_sessions c) ->
    sess_step strict s {| sy_b := with_cids (sy_b s) (alter f k (br_cids (sy_b s))); sy_held := sy_held s;
                          sy_opening := sy_opening s; sy_live := sy_live s |}
| step_other b' :           (** windows, counters and the other fields *)
    br_sess b' = br_sess (sy_b s) -> br_cids b' = br_cids (sy_b s) -> br_cfg b' = br_cfg (sy_b s) ->
    br_epoch b' = br_epoch (sy_b s) ->
    sess_step strict s {| sy_b := b'; sy_held := sy_held s; sy_opening := sy_opening s; sy_live := sy_live s |}
| step_reserve now cid i b' :
    open_reserve now cid (sy_b s) = (inr i, b') ->
    sess_step strict s {| sy_b := b'; sy_held := sy_held s; sy_opening := i :: sy_opening s; sy_live := sy_live s |}
| step_no_slot now cid e b' :
    open_reserve now cid (sy_b s) = (inl e, b') ->
    sess_step strict s {| sy_b := b'; sy_held := sy_held s; sy_opening := sy_opening s; sy_live := sy_live s |}
| step_open_failed now i opening' :
    sy_opening s ≡ₚ i :: opening' ->
    sess_step strict s {| sy_b := open_failed now i (sy_b s); sy_held := sy_held s; sy_opening := opening';
                          sy_live := sy_live s |}
| step_open_done now fd i opening' lives fds b' live' :   (** the real open gave a descriptor that was not open *)
    sy_opening s ≡ₚ i :: opening' -> 0 <= fd -> fd ∉ sy_live s ->
    open_done now fd i (sy_b s) = (lives, fds, b') -> fd :: sy_live s ≡ₚ fds ++ live' ->
    sess_step strict s {| sy_b := b'; sy_held := sy_held s; sy_opening := opening'; sy_live := live' |}
| step_acquire now cid handle i b' :
    session_acquire now cid handle (sy_b s) = (inr i, b') -> (strict = true -> i ∉ sy_opening s) ->
    sess_step strict s {| sy_b := b'; sy_held := i :: sy_held s; sy_opening := sy_opening s; sy_live := sy_live s |}
| step_release now i held' b' live' :
    sy_held s ≡ₚ i :: held' -> runs (session_release now i (sy_b s)) s b' live' ->
    sess_step strict s {| sy_b := b'; sy_held := held'; sy_opening := sy_opening s; sy_live := live' |}
| step_close now i held' b' live' :
    sy_held s ≡ₚ i :: held' -> runs (session_close now i true (sy_b s)) s b' live' ->
    sess_step strict s {| sy_b := b'; sy_held := held'; sy_opening := sy_opening s; sy_live := live' |}
| step_gone_hello cid :
    sess_step strict s {| sy_b := client_gone_hello cid (sy_b s); sy_held := sy_held s; sy_opening := sy_opening s;
                          sy_live := sy_live s |}
| step_gone_slot now cid i b' live' :
    runs (client_gone_slot now cid i (sy_b s)) s b' live' ->
    sess_step strict s {| sy_b := b'; sy_held := sy_held s; sy_opening := sy_opening s; sy_live := live' |}
| step_reap_slot now idle i b' live' :
    runs (reap_slot now idle i (sy_b s)) s b' live' ->
    sess_step strict s {| sy_b := b'; sy_held := sy_held s; sy_opening := sy_opening s; sy_live := live' |}.

Inductive sess_reach (strict : bool) (s0 : sys) : sys -> Prop :=
| reach_refl : sess_reach strict s0 s0
| reach_step s s' : sess_reach strict s0 s -> sess_step strict s s' -> sess_reach strict s0 s'.

(** A broker just initialised, before any request. *)
Definition sys0 (b : broker) : sys := {| sy_b := b; sy_held := []; sy_opening := []; sy_live := [] |}.

(** How many requests use slot [i]: those that hold it and the one that opens it. *)
Definition users (s : sys) (i : nat) : nat :=
  (count_occ Nat.eq_dec (sy_held s) i + b2n (bool_decide (i ∈ sy_opening s)))%nat.

(** What holds of one slot. *)
Record slot_ok (s : sys) (i : nat) (x : iav_session) : Prop := {
  so_refs : se_refs x = Z.of_nat (users s i);
  so_free : se_in_use x = false -> users s i = 0%nat /\ se_fd x = -1 /\ se_closing x = false;
  so_opening : i ∈ sy_opening s -> se_fd x = -1 /\ i ∉ sy_held s;
  so_fd : se_in_use x = true -> i ∉ sy_opening s -> 0 <= se_fd x;
  so_closing : se_closing x = true -> (0 < users s i)%nat }.

Definition live_fds (b : broker) : list Z := List.filter (Z.leb 0) (map se_fd (br_sess b)).

Record sys_ok (s : sys) : Prop := {
  si_len : length (br_sess (sy_b s)) = IAV_BROKER_MAX_SESSIONS;
  si_cids : cids_ok (sy_b s);
  si_slots : forall i x, br_sess (sy_b s) !! i = Some x -> slot_ok s i x;
  si_range : forall i, i ∈ sy_held s \/ i ∈ sy_opening s -> (i < length (br_sess (sy_b s)))%nat;
  si_opening : NoDup (sy_opening s);
  si_live : sy_live s ≡ₚ live_fds (sy_b s);
  si_quota : forall cid, Z.of_nat (iav_broker_cid_sessions cid (sy_b s)) <= cf_max_sessions (br_cfg (sy_b s)) }.

(** ** Descriptors and counts when one slot changes *)

Lemma live_fds_put b i x x' :
  br_sess b !! i = Some x ->
  close_of (se_fd x') ++ live_fds b ≡ₚ close_of (se_fd x) ++ live_fds (put_sess b i x').
Proof.
  unfold live_fds, close_of. cbn. generalize (br_sess b). intros l. revert i. induction l as [|y l IH]; intros i Hi; [done|].
  destruct i as [|i]; cbn [map List.filter] in *.
  - injection Hi as ->. cbn [insert list_insert map List.filter]. destruct (0 <=? se_fd x), (0 <=? se_fd x'); cbn; try done.
    apply Permutation_swap.
  - cbn in Hi. specialize (IH i Hi). change (<[S i:=x']> (y :: l)) with (y :: <[i:=x']> l). cbn [map List.filter].
    destruct (0 <=? se_fd y); [|exact IH]. rewrite <- !Permutation_middle. by f_equiv.
Qed.

Lemma live_fds_sess b b' : br_sess b' = br_sess b -> live_fds b' = live_fds b.
Proof. unfold live_fds. by intros ->. Qed.

Lemma quota_sess b b' cid : br_sess b' = br_sess b -> iav_broker_cid_sessions cid b' = iav_broker_cid_sessions cid b.
Proof. unfold iav_broker_cid_sessions. by intros ->. Qed.

Lemma users_held s i held' j :
  sy_held s ≡ₚ i :: held' ->
  count_occ Nat.eq_dec (sy_held s) j = (count_occ Nat.eq_dec held' j + b2n (bool_decide (j = i)))%nat.
Proof.
  intros H. rewrite (proj1 (Permutation_count_occ Nat.eq_dec _ _) H j). cbn.
  destruct (Nat.eq_dec i j) as [->|Hne]; [rewrite bool_decide_eq_true_2 by done|rewrite bool_decide_eq_false_2 by done];
    cbn; lia.
Qed.

(** ** Preservation *)

(** A step that changes slot [i] alone. *)
Lemma sys_ok_put s i x x' b' held' opening' live' :
  sys_ok s -> br_sess (sy_b s) !! i = Some x -> br_sess b' = <[i := x']> (br_sess (sy_b s)) -> cids_ok b' ->
  br_cfg b' = br_cfg (sy_b s) ->
  let s' := {| sy_b := b'; sy_held := held'; sy_opening := opening'; sy_live := live' |} in
  (forall j, j <> i -> (j ∈ opening' <-> j ∈ sy_opening s) /\ count_occ Nat.eq_dec held' j = count_occ Nat.eq_dec (sy_held s) j) ->
  slot_ok s' i x' -> NoDup opening' ->
  close_of (se_fd x') ++ sy_live s ≡ₚ close_of (se_fd x) ++ live' ->
  (forall cid, Z.of_nat (iav_broker_cid_sessions cid b') <= cf_max_sessions (br_cfg b')) ->
  sys_ok s'.
Proof.
  intros Hok Hi Hsess Hcids Hcfg s' Hothers Hslot Hnd Hlive Hquota.
  assert (Hlen : (i < length (br_sess (sy_b s)))%nat) by (by eapply lookup_lt_Some).
  split; cbn [sy_b sy_held sy_opening sy_live]; try done.
  - change (sy_b s') with b'. rewrite Hsess, length_insert. apply (si_len _ Hok).
  - intros j y Hj. change (br_sess b' !! j = Some y) in Hj. rewrite Hsess in Hj. apply lookup_insert_inv in Hj as [(-> & ->)|(Hne & Hj)]; [done|].
    destruct (Hothers j Hne) as [Ho Hc]. destruct (si_slots _ Hok j y Hj) as [R F O D C].
    assert (Hu : users s' j = users s j).
    { unfold users. cbn [sy_held sy_opening s']. rewrite Hc. do 2 f_equal. by apply bool_decide_ext. }
    split; cbn [sy_held sy_opening s']; rewrite ?Hu, ?Ho; try done.
    intros Hin. destruct (O Hin) as [Hfd Hnin]. split; [done|]. intros Hh. apply Hnin.
    apply list_elem_of_In, (count_occ_In Nat.eq_dec). rewrite <- Hc.
    by apply (count_occ_In Nat.eq_dec), list_elem_of_In.
  - intros j. change (sy_b s') with b'. rewrite Hsess, length_insert. destruct (decide (j = i)) as [->|Hne]; [done|].
    destruct (Hothers j Hne) as [Ho Hc]. intros [Hh|Hh]; apply (si_range _ Hok); [left|right; by apply Ho].
    apply list_elem_of_In, (count_occ_In Nat.eq_dec). rewrite <- Hc.
    by apply (count_occ_In Nat.eq_dec), list_elem_of_In.
  - change (live' ≡ₚ live_fds b'). pose proof (live_fds_put (sy_b s) i x x' Hi) as Hl.
    rewrite (live_fds_sess (put_sess (sy_b s) i x') b') by (by rewrite Hsess).
    rewrite (si_live _ Hok) in Hlive. rewrite Hlive in Hl. by apply Permutation_app_inv_l in Hl.
Qed.

(** Steps that leave the sessions alone. *)
Lemma sys_ok_cids s b' :
  sys_ok s -> cids_ok b' -> br_sess b' = br_sess (sy_b s) -> br_cfg b' = br_cfg (sy_b s) ->
  sys_ok {| sy_b := b'; sy_held := sy_held s; sy_opening := sy_opening s; sy_live := sy_live s |}.
Proof.
  intros Hok Hc Hs Hcfg. split; cbn [sy_b sy_held sy_opening sy_live]; try done.
  - rewrite Hs. apply (si_len _ Hok).
  - intros i x Hi. rewrite Hs in Hi. destruct (si_slots _ Hok i x Hi). by split.
  - rewrite Hs. apply (si_range _ Hok).
  - apply (si_opening _ Hok).
  - rewrite (live_fds_sess (sy_b s)) by done. apply (si_live _ Hok).
  - intros cid. rewrite (quota_sess (sy_b s)), Hcfg by done. apply (si_quota _ Hok).
Qed.

Lemma sys_ok_live s live' :
  sys_ok s -> sy_live s ≡ₚ live' ->
  sys_ok {| sy_b := sy_b s; sy_held := sy_held s; sy_opening := sy_opening s; sy_live := live' |}.
Proof.
  intros [A B C D E F G] Hp. split; try done; [|by cbn; rewrite <- Hp].
  intros i x Hi. destruct (C i x Hi). by split.
Qed.

Lemma quota_put b b' i x x' max :
  br_sess b !! i = Some x -> br_sess b' = <[i := x']> (br_sess b) ->
  (se_in_use x' = true -> se_in_use x = true /\ se_cid x' = se_cid x) ->
  (forall cid, Z.of_nat (iav_broker_cid_sessions cid b) <= max) ->
  forall cid, Z.of_nat (iav_broker_cid_sessions cid b') <= max.
Proof.
  intros Hi Hs Hkeep Hq cid. pose proof (cid_sessions_put cid b i x x' Hi) as Hp.
  rewrite (quota_sess (put_sess b i x') b' cid) by (by rewrite Hs). specialize (Hq cid). unfold held_by in Hp.
  destruct (se_in_use x') eqn:Eu; cbn [andb b2n] in Hp; [|lia]. destruct (Hkeep eq_refl) as [Ex Ec]. rewrite Ex, Ec in Hp. cbn [andb] in Hp. lia.
Qed.

Lemma put_twice b i x y : br_sess (put_sess (put_sess b i x) i y) = <[i := y]> (br_sess b).
Proof. cbn. by rewrite list_insert_insert_eq. Qed.

(** The end of the last use of a closing session: its slot is freed and its descriptor closed. *)
Lemma sys_ok_free s now i x y held' opening' live' fd b' :
  sys_ok s -> br_sess (sy_b s) !! i = Some x -> se_in_use x = true ->
  se_in_use y = true -> se_cid y = se_cid x -> se_refs y = 0 ->
  session_free_locked now i (put_sess (sy_b s) i y) = (fd, b') ->
  (forall j, j <> i -> (j ∈ opening' <-> j ∈ sy_opening s) /\ count_occ Nat.eq_dec held' j = count_occ Nat.eq_dec (sy_held s) j) ->
  i ∉ opening' -> i ∉ held' -> NoDup opening' -> sy_live s ≡ₚ close_of (se_fd x) ++ live' ->
  fd = se_fd y /\ sys_ok {| sy_b := b'; sy_held := held'; sy_opening := opening'; sy_live := live' |}.
Proof.
  intros Hok Hi Hu Hyu Hyc Hyr Hfree Hothers Ho Hh Hnd Hlive.
  assert (Hlen : (i < length (br_sess (sy_b s)))%nat) by (by eapply lookup_lt_Some).
  assert (Hyi : br_sess (put_sess (sy_b s) i y) !! i = Some y) by (cbn; by rewrite list_lookup_insert_eq).
  destruct (session_free_ok now i (put_sess (sy_b s) i y) y) as (b1 & Hf & Hc & Hs & Hcfg & _);
    [eapply cids_ok_put; [apply (si_cids _ Hok)|done|congruence|done]|done|done|].
  rewrite Hf in Hfree. injection Hfree as <- <-. split; [done|].
  assert (Hs' : br_sess b1 = <[i := freed y]> (br_sess (sy_b s))) by (rewrite Hs; apply put_twice).
  apply (sys_ok_put s i x (freed y)); try done.
  - assert (Huz : users {| sy_b := b1; sy_held := held'; sy_opening := opening'; sy_live := live' |} i = 0%nat).
    { unfold users. cbn [sy_held sy_opening]. rewrite bool_decide_eq_false_2 by done.
      rewrite (proj1 (count_occ_not_In Nat.eq_dec held' i)); [done|]. intros Hin. by apply Hh, list_elem_of_In. }
    split; rewrite ?Huz; cbn; try done.
  - apply (quota_put (sy_b s) b1 i x (freed y)); [done|done|done|]. rewrite Hcfg. apply (si_quota _ Hok).
Qed.

(** Reserving a slot adds one session to the guest that opens, below its quota. *)
Lemma open_reserve_ok now cid b i b' :
  cids_ok b -> Z.of_nat (length (br_sess b)) < 2 ^ 31 -> open_reserve now cid b = (inr i, b') ->
  exists x x', br_sess b !! i = Some x /\ se_in_use x = false /\ br_sess b' = <[i := x']> (br_sess b) /\
    x' = {| se_in_use := true; se_closing := false; se_gen := se_gen x; se_cid := cid; se_fd := -1; se_refs := 1;
            se_last_used_ms := se_last_used_ms x |} /\
    cids_ok b' /\ br_cfg b' = br_cfg b /\ Z.of_nat (iav_broker_cid_sessions cid b) < cf_max_sessions (br_cfg b).
Proof.
  intros Hok Hlen. unfold open_reserve. destruct (cid_state now cid b) as [[k|] b1] eqn:Ec; [|done].
  destruct (cid_state_ok _ _ _ _ _ Hok Ec) as (Hok1 & Hsess & Hcfg & _ & Hr & _).
  destruct (Hr k eq_refl) as (c & Hk & Hku & Hkc). rewrite Hk. change (default cid_entry0 (Some c)) with c.
  pose proof (co_count _ Hok1 k c Hk Hku) as Hcount. rewrite Hkc in Hcount.
  assert (Hcnt : forall z, iav_broker_cid_sessions z b1 = iav_broker_cid_sessions z b) by (intros z; by apply quota_sess).
  rewrite Hcnt in Hcount.
  destruct (Z.leb_spec (cf_max_sessions (br_cfg b1)) (ci_sessions c)) as [|Hlt]; [done|].
  destruct (find_idx (fun s => negb (se_in_use s)) (br_sess b1)) as [j|] eqn:Ef; [|done]. intros [= <- <-].
  apply find_idx_Some in Ef as (x & Hx & Hxu & _). apply negb_true_iff in Hxu. rewrite Hsess in Hx.
  assert (Hat : sess_at b1 j = x) by (unfold sess_at; by rewrite Hsess, Hx).
  rewrite Hat. set (x' := {| se_in_use := true |}). exists x, x'. split; [done|]. split; [done|].
  split; [cbn; by rewrite Hsess|]. split; [done|]. split; [|split; [done|rewrite <- Hcount, <- Hcfg; lia]].
  set (b2 := with_cids _ _). assert (Hcnt2 : forall z, iav_broker_cid_sessions z b2 = (iav_broker_cid_sessions z b + b2n (cid =? z)%Z)%nat).
  { intros z. rewrite (quota_sess (put_sess b j x') b2) by (cbn; by rewrite Hsess).
    pose proof (cid_sessions_put z b j x x' Hx) as Hp. unfold held_by in Hp. rewrite Hxu in Hp. cbn [andb b2n x' se_in_use se_cid] in Hp. lia. }
  assert (Hsmall : (iav_broker_cid_sessions cid b <= length (br_sess b))%nat) by (apply List.filter_length_le).
  split.
  - intros m m' d d' Hm Hm' Hu Hu' Hcc. cbn in Hm, Hm'.
    assert (Hkeep : forall n e, alter add_session k (br_cids b1) !! n = Some e -> exists e0, br_cids b1 !! n = Some e0 /\
      ci_used e = ci_used e0 /\ ci_cid e = ci_cid e0).
    { intros n e Hn. apply lookup_alter_inv in Hn as [(-> & e0 & He0 & ->)|(_ & Hn)]; [by exists e0|by exists e]. }
    apply Hkeep in Hm as (e & He & E1 & E2). apply Hkeep in Hm' as (e' & He' & E1' & E2').
    apply (co_one _ Hok1 m m' e e'); congruence.
  - intros m d Hm Hu. rewrite Hcnt2. cbn in Hm. apply lookup_alter_inv in Hm as [(-> & e & He & ->)|(Hne & Hm)].
    + assert (e = c) as -> by congruence. cbn [add_session ci_sessions ci_cid]. rewrite Hkc, Z.eqb_refl. cbn [b2n].
      rewrite u32_id by lia. lia.
    + rewrite (co_count _ Hok1 m d Hm Hu), Hcnt. destruct (Z.eqb_spec cid (ci_cid d)) as [Heq|]; [|cbn [b2n]; lia].
      exfalso. apply Hne. apply (co_one _ Hok1 m k d c); congruence.
  - intros m t Hm Htu. cbn in Hm. apply lookup_insert_inv in Hm as [(-> & ->)|(Hne & Hm)].
    + exists k, (add_session c). cbn. by rewrite list_lookup_alter_eq, Hk.
    + destruct (co_entry _ Hok1 m t Hm Htu) as (n & d & Hn & Hnu & Hnc). exists n. cbn.
      destruct (decide (n = k)) as [->|Hnk].
      * exists (add_session d). by rewrite list_lookup_alter_eq, Hn.
      * exists d. by rewrite list_lookup_alter_ne.
Qed.

Lemma held_none s i : i ∉ sy_held s -> count_occ Nat.eq_dec (sy_held s) i = 0%nat.
Proof. intros H. apply count_occ_not_In. by rewrite <- list_elem_of_In. Qed.

Lemma held_session s i : sys_ok s -> i ∈ sy_held s \/ i ∈ sy_opening s ->
  exists x, br_sess (sy_b s) !! i = Some x /\ sess_at (sy_b s) i = x /\ slot_ok s i x /\ se_in_use x = true /\ (0 < users s i)%nat.
Proof.
  intros Hok Hin. destruct (lookup_lt_is_Some_2 _ _ (si_range _ Hok i Hin)) as [x Hx]. exists x.
  assert (Hu : (0 < users s i)%nat).
  { unfold users. destruct Hin as [Hin|Hin]; [|rewrite bool_decide_eq_true_2 by done; cbn; lia].
    apply list_elem_of_In, (count_occ_In Nat.eq_dec) in Hin. lia. }
  pose proof (si_slots _ Hok i x Hx) as Hs. split; [done|]. split; [unfold sess_at; by rewrite Hx|]. split; [done|].
  split; [|done]. destruct (se_in_use x) eqn:E; [done|]. destruct (so_free _ _ _ Hs E). lia.
Qed.

(** Taking a reference. *)
Lemma step_acquire_ok s now cid handle i b' :
  sys_ok s -> session_acquire now cid handle (sy_b s) = (inr i, b') -> i ∉ sy_opening s ->
  sys_ok {| sy_b := b'; sy_held := i :: sy_held s; sy_opening := sy_opening s; sy_live := sy_live s |}.
Proof.
  intros Hok Ha Hno. unfold session_acquire in Ha.
  destruct ((handle =? 0) || (Z.land handle HANDLE_INDEX_MASK =? 0) || _) eqn:Er; [done|].
  set (j := Z.to_nat _) in Ha. destruct (negb _ || _ || _ || _) eqn:Es; [done|]. destruct (negb (se_cid _ =? cid)); [done|].
  injection Ha as <- <-. repeat (apply orb_false_iff in Es as [Es ?]). apply negb_false_iff in H1.
  assert (Hj : exists x, br_sess (sy_b s) !! j = Some x /\ sess_at (sy_b s) j = x).
  { destruct (lookup_lt_is_Some_2 (br_sess (sy_b s)) j) as [x Hx]; [|exists x; split; [done|unfold sess_at; by rewrite Hx]].
    rewrite (si_len _ Hok). unfold j. apply orb_false_iff in Er as [Er1 Er2]. apply orb_false_iff in Er1 as [_ Er1].
    apply Z.eqb_neq in Er1. apply Z.ltb_ge in Er2. unfold IAV_BROKER_MAX_SESSIONS in *.
    assert (0 <= Z.land handle HANDLE_INDEX_MASK) by (apply Z.land_nonneg; right; done). lia. }
  destruct Hj as (x & Hx & Hat). rewrite Hat in *. set (x' := {| se_in_use := se_in_use x |}).
  destruct (si_slots _ Hok j x Hx) as [R F O D C].
  assert (Hu : users {| sy_b := put_sess (sy_b s) j x'; sy_held := j :: sy_held s; sy_opening := sy_opening s;
                        sy_live := sy_live s |} j = S (users s j)).
  { unfold users. cbn [sy_held sy_opening count_occ]. destruct (Nat.eq_dec j j); [lia|done]. }
  apply (sys_ok_put s j x x'); try done.
  - eapply cids_ok_put; [apply (si_cids _ Hok)|done..].
  - intros m Hm. split; [done|]. cbn. by destruct (Nat.eq_dec j m).
  - split; rewrite ?Hu; cbn; try done; [rewrite R; lia|congruence|lia].
  - apply (si_opening _ Hok).
  - apply (quota_put (sy_b s) _ j x x'); [done|done|done|apply (si_quota _ Hok)].
Qed.

(** Dropping a reference, with the session marked closing or not before. *)
Lemma step_drop_ok s now i (closing : bool) held' live' b' :
  sys_ok s -> sy_held s ≡ₚ i :: held' ->
  (forall x, br_sess (sy_b s) !! i = Some x -> se_closing x = true -> closing = true) ->
  (let x := sess_at (sy_b s) i in
   let y := {| se_in_use := se_in_use x; se_closing := closing; se_gen := se_gen x; se_cid := se_cid x; se_fd := se_fd x;
               se_refs := se_refs x - 1; se_last_used_ms := se_last_used_ms x |} in
   let b1 := put_sess (sy_b s) i y in
   runs (if closing && (se_refs y =? 0) then let '(fd, b2) := session_free_locked now i b1 in (close_of fd, b2) else ([], b1))
        s b' live') ->
  sys_ok {| sy_b := b'; sy_held := held'; sy_opening := sy_opening s; sy_live := live' |}.
Proof.
  intros Hok Hheld Hcl (fds & Hrun & Hlive).
  assert (Hin : i ∈ sy_held s) by (rewrite Hheld; left).
  destruct (held_session s i Hok (or_introl Hin)) as (x & Hx & Hat & Hslot & Hu & Hpos). rewrite Hat in *.
  pose proof Hslot as [R F O D C].
  assert (Hno : i ∉ sy_opening s) by (intros Hop; by destruct (O Hop)).
  assert (Hcnt : forall m, m <> i -> count_occ Nat.eq_dec held' m = count_occ Nat.eq_dec (sy_held s) m).
  { intros m Hm. rewrite (users_held s i held' m Hheld), bool_decide_eq_false_2 by done. cbn. lia. }
  pose proof (users_held s i held' i Hheld) as Hself. rewrite bool_decide_eq_true_2 in Hself by done. cbn [b2n] in Hself.
  unfold users in R, Hpos. rewrite bool_decide_eq_false_2 in R, Hpos by done. cbn [b2n] in R, Hpos.
  cbv zeta in Hrun. set (y := {| se_in_use := se_in_use x |}) in Hrun. cbn [se_refs y] in Hrun.
  destruct (closing && (se_refs x - 1 =? 0)) eqn:Ec.
  - destruct (session_free_locked now i (put_sess (sy_b s) i y)) as [fd b2] eqn:Ef. injection Hrun as <- <-.
    apply andb_true_iff in Ec as [_ Ec]. apply Z.eqb_eq in Ec.
    assert (Hfd : fd = se_fd x).
    { destruct (session_free_ok now i (put_sess (sy_b s) i y) y) as (b3 & Hf & _);
        [eapply cids_ok_put; [apply (si_cids _ Hok)|done..]| |done|].
      - cbn. rewrite list_lookup_insert_eq; [done|]. by eapply lookup_lt_Some.
      - rewrite Hf in Ef. by injection Ef. }
    subst fd. eapply (sys_ok_free s now i x y); try done.
    + intros m Hm. split; [done|]. by apply Hcnt.
    + intros Hh. apply list_elem_of_In, (count_occ_In Nat.eq_dec) in Hh. lia.
    + apply (si_opening _ Hok).
  - injection Hrun as <- <-. cbn [app] in Hlive. apply (sys_ok_put s i x y); try done.
    + eapply cids_ok_put; [apply (si_cids _ Hok)|done..].
    + intros m Hm. split; [done|]. by apply Hcnt.
    + unfold y. split; unfold users; cbn [sy_held sy_opening se_refs se_in_use se_fd se_closing];
        rewrite ?bool_decide_eq_false_2 by done; cbn [b2n]; try done; [lia|by rewrite Hu|].
      intros ->. apply Z.eqb_neq in Ec. lia.
    + apply (si_opening _ Hok).
    + cbn [se_fd y]. by rewrite Hlive.
    + apply (quota_put (sy_b s) _ i x y); [done|done|done|apply (si_quota _ Hok)].
Qed.

(** Marking a session closing, which frees it when no request uses it. *)
Lemma step_mark_ok s now i x live' b' :
  sys_ok s -> br_sess (sy_b s) !! i = Some x -> se_in_use x = true ->
  runs (if se_refs x =? 0 then let '(fd, b2) := session_free_locked now i (put_sess (sy_b s) i (set_closing x)) in (close_of fd, b2)
        else ([], put_sess (sy_b s) i (set_closing x))) s b' live' ->
  sys_ok {| sy_b := b'; sy_held := sy_held s; sy_opening := sy_opening s; sy_live := live' |}.
Proof.
  intros Hok Hx Hu (fds & Hrun & Hlive). pose proof (si_slots _ Hok i x Hx) as Hslot. destruct Hslot as [R F O D C].
  destruct (Z.eqb_spec (se_refs x) 0) as [Hz|Hnz].
  - assert (Hnu : users s i = 0%nat) by lia.
    assert (Hno : i ∉ sy_opening s) by (intros Hin; destruct (held_session s i Hok (or_intror Hin)) as (? & ? & ? & ? & ? & ?); lia).
    assert (Hnh : i ∉ sy_held s) by (intros Hin; destruct (held_session s i Hok (or_introl Hin)) as (? & ? & ? & ? & ? & ?); lia).
    destruct (session_free_locked now i (put_sess (sy_b s) i (set_closing x))) as [fd b2] eqn:Ef. injection Hrun as <- <-.
    assert (Hfd : fd = se_fd x).
    { destruct (session_free_ok now i (put_sess (sy_b s) i (set_closing x)) (set_closing x)) as (b3 & Hf & _);
        [eapply cids_ok_put; [apply (si_cids _ Hok)|done..]| |done|].
      - cbn. rewrite list_lookup_insert_eq; [done|]. by eapply lookup_lt_Some.
      - rewrite Hf in Ef. by injection Ef. }
    subst fd. eapply (sys_ok_free s now i x (set_closing x)); try done. apply (si_opening _ Hok).
  - injection Hrun as <- <-. cbn [app] in Hlive. apply (sys_ok_put s i x (set_closing x)); try done.
    + eapply cids_ok_put; [apply (si_cids _ Hok)|done..].
    + assert (Hpos : (0 < users s i)%nat) by lia. split; try done. cbn. congruence.
    + apply (si_opening _ Hok).
    + cbn [se_fd set_closing]. by rewrite Hlive.
    + apply (quota_put (sy_b s) _ i x (set_closing x)); [done|done|done|apply (si_quota _ Hok)].
Qed.

(** The end of an open. *)
Lemma opening_others s i opening' :
  sys_ok s -> sy_opening s ≡ₚ i :: opening' ->
  NoDup opening' /\ (i ∉ opening') /\
  forall j, j <> i -> (j ∈ opening' <-> j ∈ sy_opening s) /\ count_occ Nat.eq_dec (sy_held s) j = count_occ Nat.eq_dec (sy_held s) j.
Proof.
  intros Hok Hop. pose proof (si_opening _ Hok) as Hnd. rewrite Hop in Hnd. apply NoDup_cons in Hnd as [Hni Hnd].
  split; [done|]. split; [done|]. intros j Hj. split; [|done]. rewrite Hop. split; [by right|].
  intros Hin. by apply elem_of_cons in Hin as [->|].
Qed.

Lemma step_open_failed_ok s now i opening' :
  sys_ok s -> sy_opening s ≡ₚ i :: opening' ->
  sys_ok {| sy_b := open_failed now i (sy_b s); sy_held := sy_held s; sy_opening := opening'; sy_live := sy_live s |}.
Proof.
  intros Hok Hop. assert (Hin : i ∈ sy_opening s) by (rewrite Hop; left).
  destruct (held_session s i Hok (or_intror Hin)) as (x & Hx & Hat & [_ _ O _ _] & Hu & _). destruct (O Hin) as [Hfd Hnh].
  destruct (opening_others s i opening' Hok Hop) as (Hnd & Hni & Hoth). unfold open_failed. rewrite Hat.
  destruct (session_free_locked now i _) as [fd b2] eqn:Ef.
  eapply (sys_ok_free s now i x (set_refs x 0)); try done. by rewrite Hfd.
Qed.

Lemma step_open_done_ok s now fd i opening' lives fds b' live' :
  sys_ok s -> sy_opening s ≡ₚ i :: opening' -> 0 <= fd ->
  open_done now fd i (sy_b s) = (lives, fds, b') -> fd :: sy_live s ≡ₚ fds ++ live' ->
  sys_ok {| sy_b := b'; sy_held := sy_held s; sy_opening := opening'; sy_live := live' |}.
Proof.
  intros Hok Hop Hpos Hd Hlive. assert (Hin : i ∈ sy_opening s) by (rewrite Hop; left).
  destruct (held_session s i Hok (or_intror Hin)) as (x & Hx & Hat & [R _ O _ _] & Hu & _). destruct (O Hin) as [Hfd Hnh].
  destruct (opening_others s i opening' Hok Hop) as (Hnd & Hni & Hoth). unfold open_done in Hd. rewrite Hat in Hd.
  set (y := {| se_in_use := se_in_use x |}) in Hd. destruct (se_closing x) eqn:Ec.
  - destruct (session_free_locked now i (put_sess (sy_b s) i y)) as [cfd b2] eqn:Ef. injection Hd as <- <- <-.
    assert (Hc : cfd = fd).
    { destruct (session_free_ok now i (put_sess (sy_b s) i y) y) as (b3 & Hf & _);
        [eapply cids_ok_put; [apply (si_cids _ Hok)|done..]| |done|].
      - cbn. rewrite list_lookup_insert_eq; [done|]. by eapply lookup_lt_Some.
      - rewrite Hf in Ef. by injection Ef. }
    subst cfd. cbn [app] in Hlive. apply Permutation_cons_inv in Hlive.
    eapply (sys_ok_free s now i x y); try done. by rewrite Hfd.
  - injection Hd as <- <- <-. cbn [app] in Hlive. apply (sys_ok_put s i x y); try done.
    + eapply cids_ok_put; [apply (si_cids _ Hok)|done..].
    + assert (Huz : users {| sy_b := put_sess (sy_b s) i y; sy_held := sy_held s; sy_opening := opening'; sy_live := live' |} i = 0%nat).
      { unfold users. cbn [sy_held sy_opening]. rewrite bool_decide_eq_false_2 by done. by rewrite held_none. }
      split; rewrite ?Huz; cbn; try done; congruence.
    + rewrite Hfd. cbn [close_of y se_fd]. unfold close_of. rewrite (proj2 (Z.leb_le 0 fd)) by done. exact Hlive.
    + apply (quota_put (sy_b s) _ i x y); [done|done|done|apply (si_quota _ Hok)].
Qed.

Lemma step_reserve_ok s now cid i b' :
  sys_ok s -> open_reserve now cid (sy_b s) = (inr i, b') ->
  sys_ok {| sy_b := b'; sy_held := sy_held s; sy_opening := i :: sy_opening s; sy_live := sy_live s |}.
Proof.
  intros Hok Hr. destruct (open_reserve_ok now cid (sy_b s) i b') as (x & x' & Hx & Hu & Hs & Hx' & Hc & Hcfg & Hq);
    [apply (si_cids _ Hok)|by rewrite (si_len _ Hok)|done|].
  pose proof (si_slots _ Hok i x Hx) as [R F O D C]. destruct (F Hu) as (Hz & Hfd & Hcl).
  assert (Hno : (i ∉ sy_opening s) /\ (i ∉ sy_held s)).
  { split; intros Hin; [destruct (held_session s i Hok (or_intror Hin)) as (? & ? & ? & ? & ? & ?)
                       |destruct (held_session s i Hok (or_introl Hin)) as (? & ? & ? & ? & ? & ?)]; lia. }
  destruct Hno as [Hno Hnh]. apply (sys_ok_put s i x x'); try done.
  - intros j Hj. split; [|done]. rewrite elem_of_cons. split; [by intros [->|]|by right].
  - assert (Hu1 : users {| sy_b := b'; sy_held := sy_held s; sy_opening := i :: sy_opening s; sy_live := sy_live s |} i = 1%nat).
    { unfold users. cbn [sy_held sy_opening]. rewrite bool_decide_eq_true_2 by left. by rewrite held_none. }
    subst x'. split; rewrite ?Hu1; cbn; try done. intros _ Hn. exfalso. apply Hn. left.
  - constructor; [done|apply (si_opening _ Hok)].
  - rewrite Hfd. by subst x'.
  - intros z. rewrite Hcfg. pose proof (cid_sessions_put z (sy_b s) i x x' Hx) as Hp.
    rewrite (quota_sess (put_sess (sy_b s) i x') b' z) by (by rewrite Hs). pose proof (si_quota _ Hok z) as Hz'.
    unfold held_by in Hp. subst x'. rewrite Hu in Hp. cbn [andb b2n se_in_use se_cid] in Hp.
    destruct (Z.eqb_spec cid z) as [->|]; cbn [b2n] in Hp; lia.
Qed.

Lemma step_ok s s' : sys_ok s -> sess_step true s s' -> sys_ok s'.
Proof.
  intros Hok Hst. destruct Hst.
  - destruct (cid_state_ok now cid (sy_b s) r b' (si_cids _ Hok) H) as (? & ? & ? & _). by apply sys_ok_cids.
  - apply sys_ok_cids; [done|apply cids_ok_alter; [apply (si_cids _ Hok)|done]|done|done].
  - apply sys_ok_cids; try done. destruct (si_cids _ Hok) as [A B C]. split.
    + by rewrite H0.
    + rewrite H0. intros k c Hk Hu. by rewrite (quota_sess (sy_b s)), (B k c).
    + by rewrite H, H0.
  - by eapply step_reserve_ok.
  - unfold open_reserve in H. destruct (cid_state now cid (sy_b s)) as [r b1] eqn:Ec.
    destruct (cid_state_ok now cid (sy_b s) r b1 (si_cids _ Hok) Ec) as (? & ? & ? & _).
    assert (b' = b1) as ->; [|by apply sys_ok_cids].
    destruct r; [|congruence]. destruct (_ <=? _); [congruence|]. destruct (find_idx _ _); congruence.
  - by apply step_open_failed_ok.
  - by eapply step_open_done_ok.
  - eapply step_acquire_ok; [done|done|auto].
  - eapply (step_drop_ok s now i (se_closing (sess_at (sy_b s) i))); [done|done| |exact H0].
    intros x Hx. unfold sess_at. by rewrite Hx.
  - eapply (step_drop_ok s now i true); [done|done|done|exact H0].
  - apply sys_ok_cids; try done. destruct (si_cids _ Hok) as [A B C].
    assert (Hl : forall k c, br_cids (client_gone_hello cid (sy_b s)) !! k = Some c -> exists d, br_cids (sy_b s) !! k = Some d /\
      ci_used c = ci_used d /\ ci_cid c = ci_cid d /\ ci_sessions c = ci_sessions d).
    { intros k c Hk. cbn in Hk. rewrite list_lookup_fmap in Hk. destruct (br_cids (sy_b s) !! k) as [d|] eqn:Ed; [|done].
      injection Hk as <-. exists d. split; [done|]. unfold forget_hello. by destruct (ci_used d && _). }
    split.
    + intros k k' c c' Hk Hk' Hu Hu' Hcc. apply Hl in Hk as (d & Hd & E1 & E2 & _). apply Hl in Hk' as (d' & Hd' & E1' & E2' & _).
      apply (A k k' d d'); congruence.
    + intros k c Hk Hu. apply Hl in Hk as (d & Hd & E1 & E2 & E3). rewrite E3, E2. apply (B k d Hd). congruence.
    + intros i x Hx Hu. destruct (C i x Hx Hu) as (k & c & Hk & Hku & Hkc). exists k, (forget_hello cid c).
      cbn. rewrite list_lookup_fmap, Hk. split; [done|]. unfold forget_hello. by destruct (ci_used c && _).
  - destruct H as (fds & Hrun & Hlive). unfold client_gone_slot in Hrun.
    destruct (se_in_use (sess_at (sy_b s) i) && _ && _) eqn:E.
    + apply andb_true_iff in E as [E _]. apply andb_true_iff in E as [Hu _]. destruct (br_sess (sy_b s) !! i) as [x|] eqn:Hx;
        [|unfold sess_at in Hu; by rewrite Hx in Hu]. unfold sess_at in *. rewrite Hx in *.
      eapply step_mark_ok; [done|done|done|by exists fds].
    + injection Hrun as <- <-. cbn [app] in Hlive. apply (sys_ok_live s live'); [done|done].
  - destruct H as (fds & Hrun & Hlive). unfold reap_slot in Hrun.
    destruct (se_in_use (sess_at (sy_b s) i) && _ && _ && _ && _) eqn:E.
    + repeat (apply andb_true_iff in E as [E ?]). destruct (br_sess (sy_b s) !! i) as [x|] eqn:Hx;
        [|unfold sess_at in E; by rewrite Hx in E]. unfold sess_at in *. rewrite Hx in *.
      eapply (step_mark_ok s now i x); [done|done|done|]. exists fds. split; [|done].
      by replace (se_refs x =? 0) with true.
    + injection Hrun as <- <-. cbn [app] in Hlive. apply (sys_ok_live s live'); [done|done].
Qed.

Lemma live_nodup strict s s' : NoDup (sy_live s) -> sess_step strict s s' -> NoDup (sy_live s').
Proof.
  intros Hnd Hst.
  assert (Hsub : forall fds live live' : list Z, NoDup live -> live ≡ₚ fds ++ live' -> NoDup live').
  { intros fds live live' Hl Hp. rewrite Hp in Hl. by apply NoDup_app in Hl as (_ & _ & Hl). }
  destruct Hst; cbn [sy_live]; try done;
    repeat match goal with H : runs _ _ _ _ |- _ => destruct H as (fds & _ & H) end; try by eapply Hsub.
  eapply Hsub; [|done]. by constructor.
Qed.

(** ** The initial state *)

Lemma live_fds_init : List.filter (Z.leb 0) (map se_fd (repeat session0 IAV_BROKER_MAX_SESSIONS)) = [].
Proof. reflexivity. Qed.

Lemma sessions_init cid : length (List.filter (held_by cid) (repeat session0 IAV_BROKER_MAX_SESSIONS)) = 0%nat.
Proof. reflexivity. Qed.

Lemma broker_init_ok pol rc rnd cfg b :
  iav_broker_init pol rc rnd cfg = inr b -> 0 <= cf_max_sessions cfg -> sys_ok (sys0 b).
Proof.
  unfold iav_broker_init. destruct (bool_decide _); [done|]. destruct (negb (rc =? 0)); [done|].
  intros Hb Hm. assert (Hb' := f_equal (fun r => match r with inr y => y | inl _ => b end) Hb). cbv beta iota in Hb'.
  subst b. clear Hb.
  assert (Hs : forall i x, repeat session0 IAV_BROKER_MAX_SESSIONS !! i = Some x -> x = session0)
    by (intros i x Hx; by apply list_elem_of_lookup_2, list_elem_of_In, repeat_spec in Hx).
  assert (Hc : forall i x, repeat cid_entry0 IAV_BROKER_MAX_CIDS !! i = Some x -> x = cid_entry0)
    by (intros i x Hx; by apply list_elem_of_lookup_2, list_elem_of_In, repeat_spec in Hx).
  split; cbn [sys0 sy_b sy_held sy_opening sy_live br_sess br_cids br_cfg].
  - apply repeat_length.
  - split; cbn [br_sess br_cids].
    + intros k k' c c' Hk Hk' Hu. apply Hc in Hk as ->. done.
    + intros k c Hk Hu. apply Hc in Hk as ->. done.
    + intros i x Hx Hu. apply Hs in Hx as ->. done.
  - intros i x Hx. apply Hs in Hx as ->. split; try done; intros Hin; by apply not_elem_of_nil in Hin.
  - intros i [Hin|Hin]; by apply not_elem_of_nil in Hin.
  - constructor.
  - unfold live_fds. cbn [br_sess]. by rewrite live_fds_init.
  - intros cid. unfold iav_broker_cid_sessions. cbn [br_sess]. rewrite sessions_init. cbn.
    destruct (Z.eqb_spec (cf_max_sessions cfg) 0); unfold IAV_BROKER_DEFAULT_PER_CID; lia.
Qed.

Lemma reach_ok s0 s : sys_ok s0 -> NoDup (sy_live s0) -> sess_reach true s0 s -> sys_ok s /\ NoDup (sy_live s).
Proof.
  intros H0 Hn. induction 1 as [|s s' _ [IH IHn] Hst]; [done|].
  split; [by eapply step_ok|by eapply live_nodup].
Qed.

(** C14: However the critical sections of the broker interleave (requests of all guests, opens in progress, closes, the
    liveness thread, the idle reaper), as long as no request names a slot that is still being opened: the reference
    count of a slot is exactly the number of requests that use it; a free slot is used by none; the open real
    descriptors are exactly those of the sessions in use, each once, so none leaks and none is closed twice; and no
    guest holds more sessions than its quota. *)
Theorem sessions_consistent pol rc rnd cfg b s :
  iav_broker_init pol rc rnd cfg = inr b -> 0 <= cf_max_sessions cfg -> sess_reach true (sys0 b) s ->
  (forall i x, br_sess (sy_b s) !! i = Some x ->
     se_refs x = Z.of_nat (users s i) /\
     (se_in_use x = false -> users s i = 0%nat /\ se_fd x = -1) /\
     (se_in_use x = true -> i ∉ sy_opening s -> 0 <= se_fd x)) /\
  sy_live s ≡ₚ live_fds (sy_b s) /\ NoDup (sy_live s) /\
  (forall cid, Z.of_nat (iav_broker_cid_sessions cid (sy_b s)) <= cf_max_sessions (br_cfg (sy_b s))).
Proof.
  intros Hi Hm Hr. destruct (reach_ok (sys0 b) s) as [Hok Hnd]; [by eapply broker_init_ok|constructor|done|].
  split; [|split; [apply (si_live _ Hok)|split; [done|apply (si_quota _ Hok)]]].
  intros i x Hx. destruct (si_slots _ Hok i x Hx) as [R F O D C]. split; [done|]. split; [|done].
  intros Hu. by destruct (F Hu) as (? & ? & _).
Qed.

(** ** A held session *)

Lemma cid_state_sess now cid b : br_sess (snd (cid_state now cid b)) = br_sess b.
Proof. unfold cid_state. destruct (find_idx _ _); [done|]. by destruct (match find_idx _ _ with Some _ => _ | None => _ end). Qed.

Lemma free_sess now i b : br_sess (snd (session_free_locked now i b)) = <[i := freed (sess_at b i)]> (br_sess b).
Proof.
  unfold session_free_locked. pose proof (cid_state_sess now (se_cid (sess_at b i)) b) as H.
  destruct (cid_state now (se_cid (sess_at b i)) b) as [[k|] b1]; cbn in *; by rewrite H.
Qed.

(** What a request relies on while it holds a session. *)
Definition same_session (x y : iav_session) : Prop :=
  se_in_use y = se_in_use x /\ se_gen y = se_gen x /\ se_cid y = se_cid x /\ se_fd y = se_fd x.

Lemma sess_at_ne b b' i j y : j <> i -> br_sess b' = <[j := y]> (br_sess b) -> sess_at b' i = sess_at b i.
Proof. intros Hne Hs. unfold sess_at. by rewrite Hs, list_lookup_insert_ne. Qed.

Lemma sess_at_eq b b' i y : (i < length (br_sess b))%nat -> br_sess b' = <[i := y]> (br_sess b) -> sess_at b' i = y.
Proof. intros Hl Hs. unfold sess_at. by rewrite Hs, list_lookup_insert_eq. Qed.

(** A change of slot [j] that frees it only when no request uses it keeps a session held before and after. *)
Lemma same_update now i j b y (free : bool) b' :
  (i < length (br_sess b))%nat -> same_session (sess_at b j) y ->
  (free = true -> j <> i) ->
  b' = (if free then snd (session_free_locked now j (put_sess b j y)) else put_sess b j y) ->
  same_session (sess_at b i) (sess_at b' i).
Proof.
  intros Hl Hy Hf ->. destruct free; cbv iota.
  - rewrite (sess_at_ne b (snd (session_free_locked now j (put_sess b j y))) i j (freed (sess_at (put_sess b j y) j))); [done|by apply Hf|].
    rewrite free_sess. cbn. by rewrite list_insert_insert_eq.
  - destruct (decide (j = i)) as [->|Hne].
    + by rewrite (sess_at_eq b (put_sess b i y) i y) by done.
    + by rewrite (sess_at_ne b (put_sess b j y) i j y) by done.
Qed.

Lemma count_held s i : i ∈ sy_held s -> (0 < count_occ Nat.eq_dec (sy_held s) i)%nat.
Proof. intros H. by apply count_occ_In, list_elem_of_In. Qed.

Lemma step_same s s' i :
  sys_ok s -> sess_step true s s' -> i ∈ sy_held s -> i ∈ sy_held s' -> same_session (sess_at (sy_b s) i) (sess_at (sy_b s') i).
Proof.
  intros Hok Hst Hin. destruct (held_session s i Hok (or_introl Hin)) as (x & Hx & Hat & [R F O D C] & Hu & Hpos).
  assert (Hl : (i < length (br_sess (sy_b s)))%nat) by (by eapply lookup_lt_Some).
  assert (Hkeep : forall b', br_sess b' = br_sess (sy_b s) -> same_session (sess_at (sy_b s) i) (sess_at b' i)).
  { intros b' Hb. unfold sess_at. by rewrite Hb. }
  assert (Hno : i ∉ sy_opening s) by (intros Hop; by destruct (O Hop)).
  assert (Hother : forall j held', sy_held s ≡ₚ j :: held' -> i ∈ held' -> se_refs (sess_at (sy_b s) j) - 1 = 0 -> j <> i).
  { intros j held' Hp Hi' Hz ->. rewrite Hat, R in Hz. unfold users in Hz.
    rewrite (users_held s i held' i Hp) in Hz. apply list_elem_of_In, (count_occ_In Nat.eq_dec) in Hi'.
    rewrite (bool_decide_eq_true_2 (i = i)) in Hz by done. cbn [b2n] in Hz. lia. }
  destruct Hst; cbn [sy_b sy_held]; intros Hin'.
  - apply Hkeep. pose proof (cid_state_sess now cid (sy_b s)) as Hc. by rewrite H in Hc.
  - by apply Hkeep.
  - by apply Hkeep.
  - destruct (open_reserve_ok now cid (sy_b s) i0 b') as (y & y' & Hy & Hyu & Hs & _);
      [apply (si_cids _ Hok)|by rewrite (si_len _ Hok)|done|].
    rewrite (sess_at_ne (sy_b s) b' i i0 y'); [done| |done]. intros ->. congruence.
  - apply Hkeep. unfold open_reserve in H. pose proof (cid_state_sess now cid (sy_b s)) as Hc.
    destruct (cid_state now cid (sy_b s)) as [[k|] b1]; cbn in Hc; [|congruence].
    destruct (_ <=? _); [congruence|]. destruct (find_idx _ _); congruence.
  - assert (Hne : i0 <> i) by (intros ->; apply Hno; rewrite H; left).
    apply (same_update now i i0 (sy_b s) (set_refs (sess_at (sy_b s) i0) 0) true); done.
  - assert (Hne : i0 <> i) by (intros ->; apply Hno; rewrite H; left).
    unfold open_done in H2. destruct (se_closing (sess_at (sy_b s) i0)) eqn:Ec.
    + destruct (session_free_locked now i0 _) as [cfd b2] eqn:Ef. injection H2 as <- <- <-.
      rewrite (sess_at_ne (sy_b s) b2 i i0 (freed (sess_at (put_sess (sy_b s) i0 {| se_in_use := se_in_use (sess_at (sy_b s) i0);
        se_closing := true; se_gen := se_gen (sess_at (sy_b s) i0); se_cid := se_cid (sess_at (sy_b s) i0); se_fd := fd;
        se_refs := 0; se_last_used_ms := now |}) i0))); [done..|].
      apply (f_equal snd) in Ef. cbn [snd] in Ef. rewrite <- Ef, free_sess. apply put_twice.
    + injection H2 as <- <- <-. by erewrite (sess_at_ne (sy_b s) (put_sess _ _ _)).
  - unfold session_acquire in H. destruct ((handle =? 0) || _ || _); [done|]. destruct (negb _ || _ || _ || _); [done|].
    destruct (negb _); [done|]. injection H as <- <-. set (j := Z.to_nat _). set (y := {| se_in_use := _ |}).
    apply (same_update 0 i j (sy_b s) y false); done.
  - destruct H0 as (fds & Hrun & _). unfold session_release in Hrun. set (y := set_refs _ _) in Hrun.
    apply (same_update now i i0 (sy_b s) y (se_closing y && (se_refs y =? 0))); [done|done| |].
    + intros Hf. apply andb_true_iff in Hf as [_ Hf]. apply Z.eqb_eq in Hf. by eapply Hother.
    + destruct (se_closing y && (se_refs y =? 0)); [|congruence]. destruct (session_free_locked _ _ _). cbn. congruence.
  - destruct H0 as (fds & Hrun & _). unfold session_close in Hrun. set (y := set_refs _ _) in Hrun.
    apply (same_update now i i0 (sy_b s) y (se_refs y =? 0)); [done|done| |].
    + intros Hf. apply Z.eqb_eq in Hf. by eapply Hother.
    + destruct (se_refs y =? 0); [|congruence]. destruct (session_free_locked _ _ _). cbn. congruence.
  - by apply Hkeep.
  - destruct H as (fds & Hrun & _). unfold client_gone_slot in Hrun. destruct (_ && _ && _); [|injection Hrun as <- <-; by apply Hkeep].
    apply (same_update now i i0 (sy_b s) (set_closing (sess_at (sy_b s) i0)) (se_refs (sess_at (sy_b s) i0) =? 0)); [done|done| |].
    + intros Hf ->. apply Z.eqb_eq in Hf. rewrite Hat in Hf. lia.
    + destruct (_ =? 0); [|congruence]. destruct (session_free_locked _ _ _). cbn. congruence.
  - destruct H as (fds & Hrun & _). unfold reap_slot in Hrun. destruct (_ && _ && _ && _ && _) eqn:E; [|injection Hrun as <- <-; by apply Hkeep].
    apply (same_update now i i0 (sy_b s) (set_closing (sess_at (sy_b s) i0)) true); [done|done| |].
    + intros _ ->. rewrite Hat in E. repeat (apply andb_true_iff in E as [E ?]). lia.
    + destruct (session_free_locked _ _ _). cbn. congruence.
Qed.

(** A session a request holds (and no open is still creating) stays the session it acquired: no critical section
    of another thread, be it a close of the same handle, the guest's disconnection or the idle reaper, frees its slot,
    changes its guest, its generation or its real descriptor before the request drops its reference. *)
Theorem held_session_stable pol rc rnd cfg b s s' i :
  iav_broker_init pol rc rnd cfg = inr b -> 0 <= cf_max_sessions cfg -> sess_reach true (sys0 b) s ->
  sess_step true s s' -> i ∈ sy_held s -> i ∈ sy_held s' ->
  se_in_use (sess_at (sy_b s) i) = true /\ same_session (sess_at (sy_b s) i) (sess_at (sy_b s') i).
Proof.
  intros Hi Hm Hr Hst Hin Hin'. destruct (reach_ok (sys0 b) s) as [Hok _]; [by eapply broker_init_ok|constructor|done|].
  destruct (held_session s i Hok (or_introl Hin)) as (x & _ & Hat & _ & Hu & _).
  split; [by rewrite Hat|by eapply step_same].
Qed.

(** ** Handles *)

Lemma handle_index e g k : 0 <= k < 2 ^ 16 -> 0 <= g < 2 ^ 16 -> 0 <= e < 2 ^ 32 ->
  let h := Z.lor (Z.shiftl e 32) (Z.lor (Z.shiftl g 16) k) in
  Z.land h HANDLE_INDEX_MASK = k /\ Z.land (Z.shiftr h 16) 0xffff = g /\ u32 (Z.shiftr h 32) = e.
Proof.
  intros Hk Hg He h.
  assert (Hh : h = e * 2 ^ 32 + g * 2 ^ 16 + k).
  { unfold h. rewrite (shiftl_lor_add g k 16), (shiftl_lor_add e _ 32) by lia. lia. }
  change HANDLE_INDEX_MASK with (Z.ones 16). change 0xffff with (Z.ones 16).
  rewrite !Z.land_ones, !Z.shiftr_div_pow2 by lia. rewrite Hh. unfold u32.
  split; [|split].
  - replace (e * 2 ^ 32 + g * 2 ^ 16 + k) with (k + (e * 2 ^ 16 + g) * 2 ^ 16) by lia.
    rewrite Z.mod_add, Z.mod_small; lia.
  - replace (e * 2 ^ 32 + g * 2 ^ 16 + k) with (k + (e * 2 ^ 16 + g) * 2 ^ 16) by lia.
    rewrite Z.div_add, (Z.div_small k), Z.add_0_l by lia. rewrite Z.add_comm, Z.mod_add, Z.mod_small; lia.
  - replace (e * 2 ^ 32 + g * 2 ^ 16 + k) with ((g * 2 ^ 16 + k) + e * 2 ^ 32) by lia.
    rewrite Z.div_add, (Z.div_small (g * 2 ^ 16 + k)), Z.add_0_l, Z.mod_small; lia.
Qed.

Lemma handle_of_fields h : 0 <= h < 2 ^ 64 ->
  h = Z.lor (Z.shiftl (u32 (Z.shiftr h 32)) 32)
        (Z.lor (Z.shiftl (Z.land (Z.shiftr h 16) 0xffff) 16) (Z.land h HANDLE_INDEX_MASK)).
Proof.
  intros Hh. change HANDLE_INDEX_MASK with (Z.ones 16). change 0xffff with (Z.ones 16).
  rewrite !Z.land_ones, !Z.shiftr_div_pow2 by lia. unfold u32.
  pose proof (Z.mod_pos_bound h (2 ^ 16)). pose proof (Z.mod_pos_bound (h / 2 ^ 16) (2 ^ 16)).
  rewrite (shiftl_lor_add _ (h mod 2 ^ 16) 16), (shiftl_lor_add _ _ 32) by lia.
  rewrite (Z.mod_small (h / 2 ^ 32)) by (split; [apply Z.div_pos|apply Z.div_lt_upper_bound]; lia).
  pose proof (Z.div_mod h (2 ^ 16)). pose proof (Z.div_mod (h / 2 ^ 16) (2 ^ 16)) as H2.
  rewrite Z.div_div in H2 by lia. change (2 ^ 16 * 2 ^ 16) with (2 ^ 32) in H2. lia.
Qed.

(** The generations and the epoch fit their fields of a handle. *)
Definition gens_ok (b : broker) : Prop :=
  0 <= br_epoch b < 2 ^ 32 /\ length (br_sess b) = IAV_BROKER_MAX_SESSIONS /\
  Forall (fun s => 0 <= se_gen s < 2 ^ 16) (br_sess b).

(** A handle opens exactly the session it was given for: a request of guest [cid] with the 64-bit handle [h] gets
    slot [i] if and only if [h] is the handle made from the broker's epoch, the slot's current generation and its
    index, the slot is in use and not closing, and it is [cid]'s own; then one reference is taken and nothing else
    changes. A handle of another broker life, of a session closed since, or of another guest gets no slot. *)
Theorem handle_names_session now cid h b i b' :
  gens_ok b -> 0 <= h < 2 ^ 64 ->
  session_acquire now cid h b = (inr i, b') <->
  (exists s, br_sess b !! i = Some s /\ h = make_handle b i (se_gen s) /\ se_in_use s = true /\ se_closing s = false /\
     se_cid s = cid /\
     b' = put_sess b i {| se_in_use := true; se_closing := false; se_gen := se_gen s; se_cid := cid; se_fd := se_fd s;
                          se_refs := se_refs s + 1; se_last_used_ms := now |}).
Proof.
  intros (He & Hlen & Hg) Hh. rewrite Forall_lookup in Hg. unfold session_acquire. cbv zeta. split.
  - destruct ((h =? 0) || (Z.land h HANDLE_INDEX_MASK =? 0) || _) eqn:Er; [done|].
    apply orb_false_iff in Er as [Er1 Er2]. apply orb_false_iff in Er1 as [_ Er1]. apply Z.eqb_neq in Er1. apply Z.ltb_ge in Er2.
    assert (Hnn : 0 <= Z.land h HANDLE_INDEX_MASK) by (apply Z.land_nonneg; left; lia).
    set (j := Z.to_nat _). destruct (negb _ || _ || _ || _) eqn:Es; [done|].
    destruct (Z.eqb_spec (se_cid (sess_at b j)) cid) as [Hcid|]; [|done].
    intros Hr. injection Hr as <- <-. apply orb_false_iff in Es as [Es Hgen]. apply orb_false_iff in Es as [Es Hcl].
    apply orb_false_iff in Es as [Hep Hu]. apply negb_false_iff, Z.eqb_eq in Hep. apply negb_false_iff in Hu.
    apply negb_false_iff, Z.eqb_eq in Hgen.
    destruct (lookup_lt_is_Some_2 (br_sess b) j) as [s Hs]; [rewrite Hlen; unfold j, IAV_BROKER_MAX_SESSIONS in *; lia|].
    assert (Hat : sess_at b j = s) by (unfold sess_at; by rewrite Hs). rewrite Hat in *. exists s.
    split; [done|]. split; [|by rewrite Hu, Hcl, Hcid].
    unfold make_handle. rewrite Hgen, <- Hep. replace (Z.of_nat j + 1) with (Z.land h HANDLE_INDEX_MASK) by lia.
    by apply handle_of_fields.
  - intros (s & Hs & -> & Hu & Hcl & Hcid & ->). pose proof (Hg i s Hs) as Hgs.
    assert (Hi : (i < IAV_BROKER_MAX_SESSIONS)%nat) by (rewrite <- Hlen; by eapply lookup_lt_Some).
    unfold IAV_BROKER_MAX_SESSIONS in Hi.
    destruct (handle_index (br_epoch b) (se_gen s) (Z.of_nat i + 1)) as (E1 & E2 & E3); [lia|lia|lia|].
    fold (make_handle b i (se_gen s)) in E1, E2, E3. rewrite E1, E2, E3.
    assert (Hat : sess_at b (Z.to_nat (Z.of_nat i + 1 - 1)) = s) by (replace (Z.to_nat _) with i by lia; unfold sess_at; by rewrite Hs).
    rewrite Hat, Hu, Hcl, Hcid, !Z.eqb_refl. replace (Z.to_nat (Z.of_nat i + 1 - 1)) with i by lia.
    destruct (Z.eqb_spec (make_handle b i (se_gen s)) 0) as [E0|_].
    { rewrite E0, Z.land_0_l in E1. lia. }
    rewrite (proj2 (Z.eqb_neq (Z.of_nat i + 1) 0)), (proj2 (Z.ltb_ge _ (Z.of_nat i + 1))) by (unfold IAV_BROKER_MAX_SESSIONS; lia).
    reflexivity.
Qed.

(** ** Concrete executions *)

Definition sample_cfg : broker_cfg :=
  {| cf_profile := IAV_PROFILE_CONSUMER; cf_max_sessions := 2; cf_block_max_ms := 0; cf_rate_per_sec := 0; cf_rate_burst := 0 |}.

Definition sample_policy : policy := {| pol_table := []; pol_sorted := true; pol_ready := true |}.

Definition sample_broker : broker :=
  {| br_cfg := cfg_defaults sample_cfg; br_epoch := 7; br_sess := repeat session0 IAV_BROKER_MAX_SESSIONS;
     br_cids := repeat cid_entry0 IAV_BROKER_MAX_CIDS; br_windows := []; br_count := counters0; br_aux_src := [];
     br_pool := None; br_host_features := 0; br_table_hash := fst (iav_broker_table_hash sample_policy);
     br_table_rows := snd (iav_broker_table_hash sample_policy); br_stale := false |}.

(** Guest 5 opened a session on descriptor 9 and a request of its holds it. *)
Definition b_reserved : broker := snd (open_reserve 0 5 sample_broker).
Definition b_open : broker := snd (open_done 1 9 0 b_reserved).
Definition b_held : broker := snd (session_acquire 2 5 (make_handle b_open 0 1) b_open).
Definition sys_held : sys := {| sy_b := b_held; sy_held := [0%nat]; sy_opening := []; sy_live := [9] |}.

Lemma sample_reach : sess_reach true (sys0 sample_broker) sys_held.
Proof.
  eapply (reach_step _ _ {| sy_b := b_open; sy_held := []; sy_opening := []; sy_live := [9] |}).
  - eapply (reach_step _ _ {| sy_b := b_reserved; sy_held := []; sy_opening := [0%nat]; sy_live := [] |}).
    + eapply reach_step; [constructor|]. apply (step_reserve true (sys0 sample_broker) 0 5 0). by vm_compute.
    + apply (step_open_done true {| sy_b := b_reserved; sy_held := []; sy_opening := [0%nat]; sy_live := [] |}
               1 9 0 [] true []); [done|done|apply not_elem_of_nil|by vm_compute|done].
  - apply (step_acquire true {| sy_b := b_open; sy_held := []; sy_opening := []; sy_live := [9] |} 2 5 (make_handle b_open 0 1));
      [by vm_compute|]. intros _. apply not_elem_of_nil.
Qed.

Lemma sessions_consistent_witness :
  sess_reach true (sys0 sample_broker) sys_held /\ sy_live sys_held ≡ₚ live_fds (sy_b sys_held).
Proof.
  split; [apply sample_reach|].
  apply (sessions_consistent sample_policy 0 7 sample_cfg sample_broker sys_held); [reflexivity|done|apply sample_reach].
Defined.

(** The guest goes away while the request is under way: the session is marked, its descriptor stays open. *)
Definition b_gone : broker := snd (client_gone_slot 3 5 0 b_held).
Definition sys_gone : sys := {| sy_b := b_gone; sy_held := [0%nat]; sy_opening := []; sy_live := [9] |}.

Lemma held_session_stable_witness :
  se_closing (sess_at b_gone 0) = true /\ same_session (sess_at b_held 0) (sess_at b_gone 0).
Proof.
  split; [by vm_compute|].
  apply (held_session_stable sample_policy 0 7 sample_cfg sample_broker sys_held sys_gone 0);
    [reflexivity|done|apply sample_reach| |left|left].
  apply (step_gone_slot true sys_held 3 5 0). exists []. split; [by vm_compute|done].
Defined.

Lemma sample_gens : gens_ok b_open.
Proof.
  split; [done|]. split; [reflexivity|]. apply Forall_forall. intros s Hs. apply list_elem_of_In in Hs. revert s Hs.
  assert (H : forallb (fun s => (0 <=? se_gen s) && (se_gen s <? 2 ^ 16)) (br_sess b_open) = true) by (by vm_compute).
  rewrite forallb_forall in H. intros s Hs. specialize (H s Hs). lia.
Qed.

Lemma handle_names_session_witness :
  session_acquire 2 5 (make_handle b_open 0 1) b_open = (inr 0%nat, b_held).
Proof.
  apply handle_names_session; [apply sample_gens|done|].
  - eexists. split; [by vm_compute|]. by vm_compute.
Defined.

(** Another guest's request with the same handle is refused, and so is the handle of a closed session. *)
Example foreign_handle : fst (session_acquire 2 6 (make_handle b_open 0 1) b_open) = inl (- EACCES).
Proof. by vm_compute. Qed.

Example closed_handle :
  fst (session_acquire 4 5 (make_handle b_open 0 1) (snd (session_close 3 0 true b_held))) = inl (- ESTALE).
Proof. by vm_compute. Qed.

(** When a request may name a slot that is still being opened, the end of the open resets the reference it took: the
    session is then freed under the request, and its slot and index go to another guest while the request still
    works on them. Guest 5 reserves slot 0; a request of guest 5 with the handle that slot will have is admitted;
    the open ends with descriptor 9; the guest's other sessions idle, the slot is reaped, and guest 6 opens it. *)
Definition race1 : broker := snd (session_acquire 0 5 (make_handle b_reserved 0 1) b_reserved).
Definition race2 : broker := snd (open_done 1 9 0 race1).
Definition race3 : broker := snd (reap_slot 100 50 0 race2).
Definition race4 : broker := snd (open_reserve 100 6 race3).
Definition race5 : broker := snd (open_done 101 10 0 race4).

Example open_race :
  sess_reach false (sys0 sample_broker) {| sy_b := race5; sy_held := [0%nat]; sy_opening := []; sy_live := [10] |} /\
  se_cid (sess_at race5 0) = 6 /\ se_fd (sess_at race5 0) = 10 /\ se_refs (sess_at race5 0) = 0.
Proof.
  split; [|by vm_compute].
  eapply (reach_step _ _ {| sy_b := race4; sy_held := [0%nat]; sy_opening := [0%nat]; sy_live := [] |});
    [|apply (step_open_done false {| sy_b := race4; sy_held := [0%nat]; sy_opening := [0%nat]; sy_live := [] |} 101 10 0 [] true []);
      [done|done|apply not_elem_of_nil|by vm_compute|done]].
  eapply (reach_step _ _ {| sy_b := race3; sy_held := [0%nat]; sy_opening := []; sy_live := [] |});
    [|apply (step_reserve false {| sy_b := race3; sy_held := [0%nat]; sy_opening := []; sy_live := [] |} 100 6 0); by vm_compute].
  eapply (reach_step _ _ {| sy_b := race2; sy_held := [0%nat]; sy_opening := []; sy_live := [9] |});
    [|apply (step_reap_slot false {| sy_b := race2; sy_held := [0%nat]; sy_opening := []; sy_live := [9] |} 100 50 0);
      exists [9]; split; [by vm_compute|done]].
  eapply (reach_step _ _ {| sy_b := race1; sy_held := [0%nat]; sy_opening := [0%nat]; sy_live := [] |});
    [|apply (step_open_done false {| sy_b := race1; sy_held := [0%nat]; sy_opening := [0%nat]; sy_live := [] |} 1 9 0 [] true []);
      [done|done|apply not_elem_of_nil|by vm_compute|done]].
  eapply (reach_step _ _ {| sy_b := b_reserved; sy_held := []; sy_opening := [0%nat]; sy_live := [] |});
    [|apply (step_acquire false {| sy_b := b_reserved; sy_held := []; sy_opening := [0%nat]; sy_live := [] |} 0 5
               (make_handle b_reserved 0 1)); [by vm_compute|done]].
  eapply reach_step; [constructor|]. apply (step_reserve false (sys0 sample_broker) 0 5 0). by vm_compute.
Qed.

(** Seventeen guests without a session: the table has sixteen entries, so the request of the last one takes the entry
    of the guest idle longest, and what that guest negotiated is forgotten although it neither went away nor was the
    broker restarted. *)
Definition negotiated : broker_hello :=
  {| he_done := true; he_revision := 1; he_features := 1; he_max_window_id := 3; he_page_size := 4096; he_table_hash := 0 |}.

Definition b_hello : broker :=
  with_cids sample_broker (<[0%nat := {| ci_used := true; ci_cid := 3; ci_sessions := 0; ci_tokens := d_of_Z 0; ci_last_ms := 0;
                                         ci_hello := negotiated |}]> (br_cids sample_broker)).

Example hello_evicted :
  he_done (hello_of 3 b_hello) = true /\
  hello_of 3 (fold_left (fun b cid => snd (cid_state 10 (Z.of_nat cid) b)) (seq 4 16) b_hello) = hello0.
Proof. by vm_compute. Qed.

End SessionProps.
