(* ===== verification/IavWire.v ===== *)
(** * The messages between a guest and the IAV broker (include/uapi/amba_virt_iav.h)

    Both sides copy C structures to and from the message, so a structure is here the list of its fields' values with
    the list of their widths: [enc] lays the fields out little-endian one after the other (no structure of the
    protocol has padding), [dec] reads them back. *)

From stdpp Require Import base list.
From Stdlib Require Import ZArith Lia.
From S2P Require Import Prelude SliceArena ByteBuf IavPolicy.
Import SliceArena.

Definition AMBA_VIRT_MAX_MSG : Z := 4096.
Definition SIZEOF_MSG : Z := 16.
Definition AMBA_VIRT_IAV_PROTO : Z := 1.
Definition AMBA_VIRT_IAV_REVISION : Z := 2.

(** enum amba_virt_iav_op *)
Definition AMBA_VIRT_IAV_OP_OPEN : Z := 1.
Definition AMBA_VIRT_IAV_OP_CLOSE : Z := 2.
Definition AMBA_VIRT_IAV_OP_IOCTL : Z := 3.
Definition AMBA_VIRT_IAV_OP_MAP : Z := 4.
Definition AMBA_VIRT_IAV_OP_POLL : Z := 5.
Definition AMBA_VIRT_IAV_OP_INFO : Z := 6.
Definition AMBA_VIRT_IAV_OP_SLICE : Z := 7.
Definition AMBA_VIRT_IAV_OP_HELLO : Z := 8.
Definition AMBA_VIRT_IAV_OP_ARENA : Z := 9.

Definition AMBA_VIRT_IAV_F_SIZE_OVERRIDE : Z := 2.
Definition AMBA_VIRT_IAV_F_EXT_INFO : Z := 4.
Definition AMBA_VIRT_IAV_F_APERTURE : Z := 8.
Definition AMBA_VIRT_IAV_F_ARENA : Z := 16.
Definition AMBA_VIRT_IAV_F_INLINE : Z := 32.

Definition AMBA_VIRT_IAV_ROLE_CONSUMER : Z := 0.
Definition AMBA_VIRT_IAV_ROLE_PRIMARY : Z := 1.
Definition AMBA_VIRT_IAV_ROLE_QUALIFY : Z := 2.

Definition AMBA_VIRT_IAV_WIN_DSP : Z := 0.
Definition AMBA_VIRT_IAV_WIN_BSB : Z := 1.
Definition AMBA_VIRT_IAV_WIN_DEC : Z := 2.
Definition AMBA_VIRT_IAV_WIN_OVL : Z := 3.
Definition AMBA_VIRT_IAV_POLL_SLICE_MS : Z := 20.

Definition AMBA_VIRT_IAV_ENT_PRIMARY_ONLY : Z := 1.
Definition AMBA_VIRT_IAV_ENT_NORMAL_NC : Z := 2.
Definition AMBA_VIRT_IAV_ENT_RING : Z := 4.
Definition AMBA_VIRT_IAV_ENT_ARENA : Z := 8.
Definition AMBA_VIRT_IAV_ENT_APERTURE : Z := 16.
Definition AMBA_VIRT_IAV_ENT_ID_ARENA : Z := 0x100.
Definition AMBA_VIRT_IAV_ENT_ID_APERTURE : Z := 0x200.
Definition AMBA_VIRT_IAV_ENT_ID_AUX : Z := 0x300.
Definition AMBA_VIRT_IAV_ARENA_ALIGN : Z := 0x10000.
Definition AMBA_VIRT_IAV_ARENA_MAX_BLKS : nat := 2.

(** ** Little-endian structures *)

Fixpoint enc (ws : list nat) (zs : list Z) : list Z :=
  match ws, zs with
  | w :: ws', z :: zs' => le_bytes w z ++ enc ws' zs'
  | _, _ => []
  end.

Fixpoint dec (ws : list nat) (bs : list Z) : list Z :=
  match ws with
  | [] => []
  | w :: ws' => le_val (take w bs) :: dec ws' (drop w bs)
  end.

(** Field [k] of the structure at the start of [bs]. *)
Definition fld (ws : list nat) (bs : list Z) (k : nat) : Z := nth k (dec ws bs) 0.

Definition struct_size (ws : list nat) : Z := Z.of_nat (sum_list ws).

(** The signed 32-bit value of a field. *)
Definition s32_of (z : Z) : Z := if z <? 2 ^ 31 then z else z - 2 ^ 32.

(** ** The structures *)

(** [struct amba_virt_iav_req] *)
Definition REQ_FIELDS : list nat := [4; 4; 8; 4; 4; 8; 8]%nat.
Record iav_req := { rq_proto : Z; rq_op : Z; rq_handle : Z; rq_cmd : Z; rq_arg_len : Z; rq_arg_value : Z; rq_arg2 : Z }.

Definition req_of (bs : list Z) : iav_req :=
  let f := fld REQ_FIELDS bs in
  {| rq_proto := f 0%nat; rq_op := f 1%nat; rq_handle := f 2%nat; rq_cmd := f 3%nat; rq_arg_len := f 4%nat;
     rq_arg_value := f 5%nat; rq_arg2 := f 6%nat |}.

Definition req_bytes (q : iav_req) : list Z :=
  enc REQ_FIELDS [rq_proto q; rq_op q; rq_handle q; rq_cmd q; rq_arg_len q; rq_arg_value q; rq_arg2 q].

(** [struct amba_virt_iav_resp] *)
Definition RESP_FIELDS : list nat := [4; 4; 4; 4; 8; 8; 4; 4]%nat.
Record iav_resp := { rs_proto : Z; rs_status : Z; rs_rc : Z; rs_err : Z; rs_handle : Z; rs_value : Z; rs_out_len : Z; rs_reserved : Z }.

Definition resp_bytes (p : iav_resp) : list Z :=
  enc RESP_FIELDS [rs_proto p; rs_status p; rs_rc p; rs_err p; rs_handle p; rs_value p; rs_out_len p; rs_reserved p].

Definition resp_of (bs : list Z) : iav_resp :=
  let f := fld RESP_FIELDS bs in
  {| rs_proto := f 0%nat; rs_status := s32_of (f 1%nat); rs_rc := s32_of (f 2%nat); rs_err := s32_of (f 3%nat);
     rs_handle := f 4%nat; rs_value := f 5%nat; rs_out_len := f 6%nat; rs_reserved := f 7%nat |}.

Definition SIZEOF_REQ : Z := struct_size REQ_FIELDS.
Definition SIZEOF_RESP : Z := struct_size RESP_FIELDS.
Definition AMBA_VIRT_IAV_MAX_ARG : Z := AMBA_VIRT_MAX_MSG - SIZEOF_MSG - SIZEOF_REQ.
Definition AMBA_VIRT_IAV_MAX_OUT : Z := AMBA_VIRT_MAX_MSG - SIZEOF_MSG - SIZEOF_RESP.

(** [struct amba_virt_iav_hello] and [struct amba_virt_iav_hello_resp] *)
Definition HELLO_FIELDS : list nat := [4; 4; 8; 4; 4; 8]%nat.
Record iav_hello := { hl_revision : Z; hl_page_size : Z; hl_features : Z; hl_max_window_id : Z; hl_table_rows : Z; hl_table_hash : Z }.

Definition hello_of_bytes (bs : list Z) : iav_hello :=
  let f := fld HELLO_FIELDS bs in
  {| hl_revision := f 0%nat; hl_page_size := f 1%nat; hl_features := f 2%nat; hl_max_window_id := f 3%nat;
     hl_table_rows := f 4%nat; hl_table_hash := f 5%nat |}.

Definition hello_resp_bytes (revision role features max_window_id table_rows table_hash : Z) : list Z :=
  enc HELLO_FIELDS [revision; role; features; max_window_id; table_rows; table_hash].

(** [struct amba_virt_iav_slice_req] *)
Definition SLICE_REQ_FIELDS : list nat := [4; 4; 8; 8; 8]%nat.
Record iav_slice_req := { sq_claimed_slice : Z; sq_partition_id : Z; sq_offset : Z; sq_length : Z; sq_phys : Z }.

Definition slice_req_of (bs : list Z) : iav_slice_req :=
  let f := fld SLICE_REQ_FIELDS bs in
  {| sq_claimed_slice := f 0%nat; sq_partition_id := f 1%nat; sq_offset := f 2%nat; sq_length := f 3%nat; sq_phys := f 4%nat |}.

(** [struct amba_virt_iav_window] and [struct amba_virt_iav_entry] *)
Definition WINDOW_FIELDS : list nat := [4; 4; 8; 8; 8]%nat.
Definition ENTRY_FIELDS : list nat := [4; 4; 8; 8; 8; 8; 4; 4]%nat.
Record iav_entry := {
  en_id : Z; en_flags : Z; en_base : Z; en_size : Z; en_part_len : Z; en_offset : Z; en_pid : Z; en_reserved : Z }.

Definition entry_bytes (e : iav_entry) : list Z :=
  enc ENTRY_FIELDS [en_id e; en_flags e; en_base e; en_size e; en_part_len e; en_offset e; en_pid e; en_reserved e].

Definition window_bytes (id base size part_len : Z) : list Z := enc WINDOW_FIELDS [id; 0; base; size; part_len].

(** [struct amba_virt_iav_arena_blk] and [struct amba_virt_iav_arena_req] *)
Record arena_blk := { bk_vid : Z; bk_reserved : Z; bk_offset : Z; bk_length : Z }.
Definition BLK_FIELDS : list nat := [4; 4; 8; 8]%nat.
Definition ARENA_REQ_FIELDS : list nat := [4; 4]%nat ++ BLK_FIELDS ++ BLK_FIELDS.
Record arena_req := { aq_count : Z; aq_reserved : Z; aq_blk : list arena_blk }.

Definition arena_req_of (bs : list Z) : arena_req :=
  let f := fld ARENA_REQ_FIELDS bs in
  let blk k := {| bk_vid := f k; bk_reserved := f (k + 1)%nat; bk_offset := f (k + 2)%nat; bk_length := f (k + 3)%nat |} in
  {| aq_count := f 0%nat; aq_reserved := f 1%nat; aq_blk := [blk 2%nat; blk 6%nat] |}.

Definition arena_req_bytes (h : arena_req) : list Z :=
  enc ARENA_REQ_FIELDS
    (aq_count h :: aq_reserved h ::
     concat (map (fun b => [bk_vid b; bk_reserved b; bk_offset b; bk_length b]) (aq_blk h))).

(** [struct amba_virt_iav_map] *)
Definition MAP_FIELDS : list nat := [4; 4; 8; 8]%nat.
Definition map_bytes (window prot window_offset length : Z) : list Z := enc MAP_FIELDS [window; prot; window_offset; length].

(** [struct amba_virt_iav_inline_misc]: three byte arrays and two words. *)
Definition SIZEOF_INLINE_MISC : Z := 16 + 16 + 16 * AMBA_VIRT_IAV_INLINE_MISC_EXTRA_BYTES + 4 + 4.

Definition inline_misc_of (bs : list Z) : inline_misc :=
  {| im_query := take 16 bs; im_valid := take 16 (drop 16 bs); im_extra := take 512 (drop 32 bs);
     im_count := le_val (take 4 (drop 544 bs)); im_reserved := le_val (take 4 (drop 548 bs)) |}.

Definition inline_misc_bytes (t : inline_misc) : list Z :=
  im_query t ++ im_valid t ++ im_extra t ++ le_bytes 4 (im_count t) ++ le_bytes 4 (im_reserved t).

(** ** Round trips *)

Lemma le_bytes_length n z : length (le_bytes n z) = n.
Proof. revert z. induction n as [|n IH]; intros z; cbn; [done|by rewrite IH]. Qed.

Lemma enc_length ws zs : length zs = length ws -> length (enc ws zs) = sum_list ws.
Proof.
  revert zs. induction ws as [|w ws IH]; intros [|z zs] Hl; try done. cbn in *.
  rewrite length_app, le_bytes_length, IH by lia. done.
Qed.

(** Each field at its width. *)
Definition wrap (w : nat) (z : Z) : Z := z mod 2 ^ (8 * Z.of_nat w).

Lemma dec_enc ws zs rest : length zs = length ws -> dec ws (enc ws zs ++ rest) = zip_with wrap ws zs.
Proof.
  revert zs. induction ws as [|w ws IH]; intros [|z zs] Hl; try done. cbn [enc dec zip_with]. injection Hl as Hl.
  rewrite <- app_assoc, take_app_length', drop_app_length' by (by rewrite le_bytes_length).
  by rewrite le_val_bytes, IH.
Qed.

Lemma wrap_id w z : 0 <= z < 2 ^ (8 * Z.of_nat w) -> wrap w z = z.
Proof. unfold wrap. apply Z.mod_small. Qed.

Lemma s32_wrap z : - 2 ^ 31 <= z < 2 ^ 31 -> s32_of (wrap 4 z) = z.
Proof.
  intros Hz. unfold s32_of, wrap. change (8 * Z.of_nat 4) with 32. destruct (Z.ltb_spec z 0).
  - rewrite <- (Z.mod_unique z (2 ^ 32) (-1) (z + 2 ^ 32)) by lia. destruct (Z.ltb_spec (z + 2 ^ 32) (2 ^ 31)); lia.
  - rewrite Z.mod_small by lia. destruct (Z.ltb_spec z (2 ^ 31)); lia.
Qed.

Definition s32 (z : Z) : Prop := - 2 ^ 31 <= z < 2 ^ 31.

Record resp_fits (p : iav_resp) : Prop := {
  rf_proto : is_u32 (rs_proto p); rf_status : s32 (rs_status p); rf_rc : s32 (rs_rc p); rf_err : s32 (rs_err p);
  rf_handle : is_u64 (rs_handle p); rf_value : is_u64 (rs_value p); rf_out : is_u32 (rs_out_len p);
  rf_res : is_u32 (rs_reserved p) }.

Lemma resp_roundtrip p rest : resp_fits p -> resp_of (resp_bytes p ++ rest) = p.
Proof.
  intros [? ? ? ? ? ? ? ?]. unfold resp_of, fld, resp_bytes. rewrite dec_enc by done. cbn [zip_with nth RESP_FIELDS].
  rewrite !s32_wrap by done. rewrite !wrap_id by (cbn; unfold is_u32, is_u64 in *; lia). by destruct p.
Qed.

Lemma resp_bytes_length p : length (resp_bytes p) = 40%nat.
Proof. unfold resp_bytes. by rewrite enc_length. Qed.

Lemma req_roundtrip q rest :
  is_u32 (rq_proto q) -> is_u32 (rq_op q) -> is_u64 (rq_handle q) -> is_u32 (rq_cmd q) -> is_u32 (rq_arg_len q) ->
  is_u64 (rq_arg_value q) -> is_u64 (rq_arg2 q) -> req_of (req_bytes q ++ rest) = q.
Proof.
  intros. unfold req_of, fld, req_bytes. rewrite dec_enc by done. cbn [zip_with nth REQ_FIELDS].
  rewrite !wrap_id by (cbn; unfold is_u32, is_u64 in *; lia). by destruct q.
Qed.
