(* ===== verification/IavBroker.v ===== *)
(** * The IAV broker: its requests (tools/iav_broker.c, second half; tools/virt_iav_guest_slice.c)

    One request of a guest is a run of [iav_broker_handle] in the monad [M]: it sees the environment [env] (the real
    driver, the clock, the server's answers on slices, apertures and the primary role, and what the other threads of
    the server do), threads the broker's state, records what reaches the real driver in a trace, and ends with a value
    or with a reply (an early return of the C function).

    The environment answers by the number of the interaction, so two questions of one request may get different
    answers: a role, a lease or a descriptor may change between two lines of the broker. [ev_other] is what the other
    threads did to the broker's state before each critical section of its lock. *)

From stdpp Require Import base list strings.
From Stdlib Require Import ZArith Lia.
From S2P Require Import Prelude ByteBuf IavTable IavPolicy IavSession IavWire.

(** ** The environment *)

(** The argument of a real ioctl: the broker's buffer, a value, or nothing. *)
Inductive ioctl_arg := ArgBuf (bytes : list Z) | ArgValue (value : Z) | ArgNone.

(** What reaches the driver and the arena accounting, in order. [EvQuery] is a read-only query (of a check, or of a
    look at the partitions), which is an ioctl of the driver too. [EvAcquire] calls nothing: it notes the session a
    request took with a handle, as the record was under the broker's lock, with the broker's epoch. *)
Inductive event :=
| EvAcquire (handle epoch : Z) (i : nat) (sess : iav_session)
| EvQuery (fd cmd : Z)
| EvOpen (fd : Z)
| EvClose (fd : Z)
| EvIoctl (fd cmd : Z) (arg : ioctl_arg)
| EvPoll (fd events timeout : Z)
| EvArenaBegin (index : Z)
| EvArenaEnd (index : Z).

(** [struct iav_broker_ops] and the threads. An optional operation that is NULL answers as the callers treat NULL:
    no primary guest, no slice, no aperture, no reading; [ev_arena_ops] tells whether [arena_begin] is there. *)
Record env := {
  ev_other : nat -> broker -> broker;
  ev_now : nat -> Z;
  ev_open : nat -> Z + Z;                                   (** an errno (0 when unset) or a descriptor *)
  ev_ioctl : nat -> Z -> Z -> ioctl_arg -> Z * Z * list Z;  (** the result, errno, the buffer after the call *)
  ev_poll : nat -> Z -> Z -> Z -> Z * Z * Z;                (** the result, errno, revents *)
  ev_query : nat -> Z -> driver_query;                      (** read-only queries on a descriptor *)
  ev_is_primary : nat -> Z -> bool;
  ev_slice_of : nat -> Z -> option Z;
  ev_aperture_of : nat -> Z -> option aperture;
  ev_read_dec : nat -> option (Z -> Z -> option (list Z));
  ev_arena_ops : bool;
  ev_arena_begin : nat -> Z -> bool;
  ev_buf_addr : nat -> Z }.                                 (** where the broker's buffer of a request lies *)

(** A reply of the broker: the fields of the response and its output bytes. *)
Record rsp := { rp_status : Z; rp_rc : Z; rp_err : Z; rp_handle : Z; rp_value : Z; rp_out : list Z }.

Record st := { st_b : broker; st_n : nat; st_tr : list event }.

Definition M (A : Type) : Type := env -> st -> (rsp + A) * st.

#[global] Instance M_ret : MRet M := fun A a _ s => (inr a, s).
#[global] Instance M_bind : MBind M := fun A B k m E s =>
  match m E s with
  | (inl r, s') => (inl r, s')
  | (inr a, s') => k a E s'
  end.

Definition reply (r : rsp) {A} : M A := fun _ s => (inl r, s).

(** [refuse]: the reply of a request the broker does not forward. *)
Definition refuse (err : Z) {A} : M A :=
  reply {| rp_status := - err; rp_rc := -1; rp_err := 0; rp_handle := 0; rp_value := 0; rp_out := [] |}.

Definition answer (rc err handle value : Z) (out : list Z) : rsp :=
  {| rp_status := 0; rp_rc := rc; rp_err := err; rp_handle := handle; rp_value := value; rp_out := out |}.

Definition refuse_if (c : bool) (err : Z) : M unit := if c then refuse err else mret tt.

(** One question to the environment. *)
Definition ask {A} (f : env -> nat -> A) : M A := fun E s =>
  (inr (f E (st_n s)), {| st_b := st_b s; st_n := S (st_n s); st_tr := st_tr s |}).

(** One critical section of the broker's lock. *)
Definition locked {A} (f : Z -> broker -> A * broker) : M A := fun E s =>
  let '(a, b') := f (ev_now E (st_n s)) (ev_other E (st_n s) (st_b s)) in
  (inr a, {| st_b := b'; st_n := S (st_n s); st_tr := st_tr s |}).

Definition emit (evs : list event) : M unit := fun _ s =>
  (inr tt, {| st_b := st_b s; st_n := st_n s; st_tr := st_tr s ++ evs |}).

Definition reading {A} (f : broker -> A) : M A := locked (fun _ b => (f b, b)).

Definition count_up (f : counters -> counters) : M unit := locked (fun _ b => (tt, with_count b (f (br_count b)))).

Definition up_pinned (c : counters) : counters :=
  {| n_requests := n_requests c; n_refused := n_refused c; n_hello := n_hello c; n_pinned := n_pinned c + 1;
     n_stale_refused := n_stale_refused c; n_rechecks := n_rechecks c; n_arena := n_arena c;
     n_arena_refused := n_arena_refused c; n_aux_maps := n_aux_maps c |}.
Definition up_stale (c : counters) : counters :=
  {| n_requests := n_requests c; n_refused := n_refused c; n_hello := n_hello c; n_pinned := n_pinned c;
     n_stale_refused := n_stale_refused c + 1; n_rechecks := n_rechecks c; n_arena := n_arena c;
     n_arena_refused := n_arena_refused c; n_aux_maps := n_aux_maps c |}.
Definition up_rechecks (c : counters) : counters :=
  {| n_requests := n_requests c; n_refused := n_refused c; n_hello := n_hello c; n_pinned := n_pinned c;
     n_stale_refused := n_stale_refused c; n_rechecks := n_rechecks c + 1; n_arena := n_arena c;
     n_arena_refused := n_arena_refused c; n_aux_maps := n_aux_maps c |}.
Definition up_arena (c : counters) : counters :=
  {| n_requests := n_requests c; n_refused := n_refused c; n_hello := n_hello c; n_pinned := n_pinned c;
     n_stale_refused := n_stale_refused c; n_rechecks := n_rechecks c; n_arena := n_arena c + 1;
     n_arena_refused := n_arena_refused c; n_aux_maps := n_aux_maps c |}.
Definition up_arena_refused (c : counters) : counters :=
  {| n_requests := n_requests c; n_refused := n_refused c; n_hello := n_hello c; n_pinned := n_pinned c;
     n_stale_refused := n_stale_refused c; n_rechecks := n_rechecks c; n_arena := n_arena c;
     n_arena_refused := n_arena_refused c + 1; n_aux_maps := n_aux_maps c |}.
Definition up_aux_maps (c : counters) : counters :=
  {| n_requests := n_requests c; n_refused := n_refused c; n_hello := n_hello c; n_pinned := n_pinned c;
     n_stale_refused := n_stale_refused c; n_rechecks := n_rechecks c; n_arena := n_arena c;
     n_arena_refused := n_arena_refused c; n_aux_maps := n_aux_maps c + 1 |}.
Definition up_hello (c : counters) : counters :=
  {| n_requests := n_requests c; n_refused := n_refused c; n_hello := n_hello c + 1; n_pinned := n_pinned c;
     n_stale_refused := n_stale_refused c; n_rechecks := n_rechecks c; n_arena := n_arena c;
     n_arena_refused := n_arena_refused c; n_aux_maps := n_aux_maps c |}.
Definition up_requests (c : counters) : counters :=
  {| n_requests := n_requests c + 1; n_refused := n_refused c; n_hello := n_hello c; n_pinned := n_pinned c;
     n_stale_refused := n_stale_refused c; n_rechecks := n_rechecks c; n_arena := n_arena c;
     n_arena_refused := n_arena_refused c; n_aux_maps := n_aux_maps c |}.
Definition up_refused (c : counters) : counters :=
  {| n_requests := n_requests c; n_refused := n_refused c + 1; n_hello := n_hello c; n_pinned := n_pinned c;
     n_stale_refused := n_stale_refused c; n_rechecks := n_rechecks c; n_arena := n_arena c;
     n_arena_refused := n_arena_refused c; n_aux_maps := n_aux_maps c |}.

Definition with_stale (b : broker) (stale : bool) (c : counters) : broker :=
  {| br_cfg := br_cfg b; br_epoch := br_epoch b; br_sess := br_sess b; br_cids := br_cids b;
     br_windows := br_windows b; br_count := c; br_aux_src := br_aux_src b; br_pool := br_pool b;
     br_host_features := br_host_features b; br_table_hash := br_table_hash b; br_table_rows := br_table_rows b;
     br_stale := stale |}.

(** ** The layout of the driver's argument structures

    The structures are the vendor's: [lens] reads a structure from the broker's buffer and writes its changed fields
    back. *)

Record lens (A : Type) := { lget : list Z -> A; lput : A -> list Z -> list Z }.
Arguments lget {A}.
Arguments lput {A}.

Class ArgLayout := {
  L_querydesc : lens iav_querydesc; L_poll_cfg : lens iav_poll_event_config; L_decoder_info : lens iav_decoder_info;
  L_decode_jpeg : lens iav_decode_jpeg; L_decode_video : lens iav_decode_video; L_decode_bsb : lens iav_decode_bsb;
  L_decode_status : lens iav_decode_status; L_wait_eos : lens iav_decode_wait_eos;
  L_overlay : lens iav_overlay_insert; L_chan_cfg : lens iav_chan_cfg; L_system_resource : lens iav_system_resource;
  L_img_scale : lens iav_img_scale; L_video_proc : lens iav_video_proc; L_vin_idsp : lens iav_vin_idsp_config;
  L_blur : lens iav_blur_insert; L_canvas_sync : lens iav_canvas_sync_cfg; L_gdma_copy : lens iav_gdma_copy;
  L_sync_cache : lens iav_sync_cache_mem_part; L_isp_nn : lens iav_isp_nn_params; L_efm_pool : lens Z;
  L_efm_release : lens Z; L_feed_canvas : lens Z; L_feed_pyramid : lens Z; L_feed_raw : lens Z;
  L_warp_ctrl : lens iav_warp_ctrl; L_stream_cfg : lens iav_stream_cfg; L_yuv_remap : lens iav_yuv_remap;
  L_ce_request : lens Z; L_ce_handshake : lens iav_ce_handshake; L_misc_info : lens img_misc_info;
  L_apply_vproc : lens (list iav_apply_flag); L_apply_warp : lens iav_apply_flag; L_apply_canvas_sync : lens Z }.

Section WithAbi.
Context `{Abi : IavAbi} `{Lay : ArgLayout}.

(** ** Running a check and a post-processing function on the broker's buffer *)

(** [e->check(&call)]: the result, [call.pinned] and the buffer. [inline] is the offset of the trailer and its
    address when the call has one. *)
Definition run_check (c : check_fn) (call : iav_call) (buf : list Z) (inline : option (nat * Z)) : Z * bool * list Z :=
  let ro r := (r, false, buf) in
  match c with
  | C_check_query_desc => let '(r, q) := check_query_desc call (lget L_querydesc buf) in (r, false, lput L_querydesc q buf)
  | C_check_poll_cfg => ro (check_poll_cfg (lget L_poll_cfg buf))
  | C_check_create_decoder => ro (check_create_decoder call (lget L_decoder_info buf))
  | C_check_decode_jpeg => ro (check_decode_jpeg call (lget L_decode_jpeg buf))
  | C_check_decode_video => ro (check_decode_video call (lget L_decode_video buf))
  | C_check_decode_bsb => ro (check_decode_bsb call (lget L_decode_bsb buf))
  | C_check_decode_status => ro (check_decode_status (lget L_decode_status buf))
  | C_check_wait_eos => let '(r, w) := check_wait_eos (lget L_wait_eos buf) in (r, false, lput L_wait_eos w buf)
  | C_check_set_overlay => ro (check_set_overlay call (lget L_overlay buf))
  | C_check_get_overlay => ro (check_get_overlay call (lget L_overlay buf))
  | C_check_chan_cfg_pinned => let '(r, p) := check_chan_cfg_pinned call (lget L_chan_cfg buf) in (r, p, buf)
  | C_check_system_resource_pinned =>
      let '(r, p) := check_system_resource_pinned call (lget L_system_resource buf) in (r, p, buf)
  | C_check_img_scale => ro (check_img_scale call (lget L_img_scale buf))
  | C_check_get_vproc => ro (check_get_vproc (lget L_video_proc buf))
  | C_check_get_vin_idsp => ro (check_get_vin_idsp (lget L_vin_idsp buf))
  | C_check_set_blur => ro (check_set_blur call (lget L_blur buf))
  | C_check_canvas_sync => ro (check_canvas_sync call (lget L_canvas_sync buf))
  | C_check_gdma_copy => ro (check_gdma_copy call (lget L_gdma_copy buf))
  | C_check_sync_cache => ro (check_sync_cache call (lget L_sync_cache buf))
  | C_check_efm_pool_info => ro (check_efm_pool_info call (lget L_efm_pool buf))
  | C_check_efm_release_all => ro (check_efm_release_all call (lget L_efm_release buf))
  | C_check_release_canvas => ro (check_release_canvas (lget L_feed_canvas buf))
  | C_check_release_pyramid => ro (check_release_pyramid (lget L_feed_pyramid buf))
  | C_check_release_raw => ro (check_release_raw (lget L_feed_raw buf))
  | C_check_cfg_vproc => let '(r, p) := check_cfg_vproc call (lget L_video_proc buf) in (r, p, buf)
  | C_check_warp_ctrl => ro (check_warp_ctrl call (lget L_warp_ctrl buf))
  | C_check_stream_cfg => ro (check_stream_cfg call (lget L_stream_cfg buf))
  | C_check_set_yuv_remap => ro (check_set_yuv_remap call (lget L_yuv_remap buf))
  | C_check_ce_request => ro (check_ce_request call (lget L_ce_request buf))
  | C_check_ce_handshake => ro (check_ce_handshake call (lget L_ce_handshake buf))
  | C_check_misc_info =>
      match inline with
      | None => ro (fst (fst (check_misc_info 0 (lget L_misc_info buf) None)))
      | Some (off, addr) =>
          let '(r, m, t) := check_misc_info addr (lget L_misc_info buf) (Some (inline_misc_of (drop off buf))) in
          (r, false,
           let buf1 := lput L_misc_info m buf in
           match t with
           | Some u => take off buf1 ++ inline_misc_bytes u ++ drop (off + length (inline_misc_bytes u)) buf1
           | None => buf1
           end)
      end
  | C_check_apply_vproc => ro (check_apply_vproc (lget L_apply_vproc buf))
  | C_check_apply_warp => ro (check_apply_warp (lget L_apply_warp buf))
  | C_check_apply_canvas_sync => ro (check_apply_canvas_sync (lget L_apply_canvas_sync buf))
  end.

Definition run_post (p : post_fn) (buf : list Z) : list Z :=
  match p with
  | P_post_decode_status => lput L_decode_status (post_decode_status (lget L_decode_status buf)) buf
  | P_post_isp_nn => lput L_isp_nn (post_isp_nn (lget L_isp_nn buf)) buf
  | P_post_misc_info => lput L_misc_info (post_misc_info (lget L_misc_info buf)) buf
  end.

(** ** What a guest may do *)

Definition effective_profile (cid : Z) : M iav_profile :=
  p ← ask (fun E n => ev_is_primary E n cid);
  if (p : bool) then mret IAV_PROFILE_PRIMARY else reading (fun b => cf_profile (br_cfg b)).

Definition is_consumer (p : iav_profile) : bool := bool_decide (p = IAV_PROFILE_CONSUMER).

Definition hello_copy (cid : Z) : M broker_hello := reading (hello_of cid).

(** One entry of an aperture against the ones before it. *)
Definition aperture_entry_ok (size : Z) (before : list aux_entry) (e : aux_entry) : bool :=
  negb ((0xff <? ax_pid e) || (ax_len e =? 0) || negb (ax_len e mod PAGE_BYTES =? 0) ||
        negb (ax_base e mod PAGE_BYTES =? 0) || negb (ax_offset e mod AUX_ALIGN_BYTES =? 0) ||
        (size - PAGE_BYTES <? ax_offset e) || (size - PAGE_BYTES - ax_offset e <? ax_len e) ||
        (u64 (ax_base e + ax_len e) <? ax_base e)) &&
  negb (existsb (fun o => (ax_pid o =? ax_pid e) ||
                          ((ax_offset e <? u64 (ax_offset o + ax_len o)) &&
                           (ax_offset o <? u64 (ax_offset e + ax_len e)))) before).

Fixpoint aperture_entries_ok (size : Z) (before es : list aux_entry) : bool :=
  match es with
  | [] => true
  | e :: rest => aperture_entry_ok size before e && aperture_entries_ok size (before ++ [e]) rest
  end.

Definition aperture_ok (ap : aperture) : bool :=
  negb ((Nat.eqb (length (ap_entries ap)) 0) || Nat.ltb IAV_BROKER_AUX_MAX (length (ap_entries ap)) ||
        negb (is_pow2 (ap_size ap)) || (ap_size ap <? 2 * PAGE_BYTES) || (ap_epoch ap =? 0) ||
        (0xffffffff <? ap_epoch ap)) &&
  aperture_entries_ok (ap_size ap) [] (ap_entries ap).

(** [aperture_of]: the checked aperture of a guest; no entries when there is none. *)
Definition aperture_none : aperture := {| ap_size := 0; ap_epoch := 0; ap_entries := [] |}.

Definition aperture_of (cid : Z) : M aperture :=
  a ← ask (fun E n => ev_aperture_of E n cid);
  mret match a with Some ap => if aperture_ok ap then ap else aperture_none | None => aperture_none end.

(** ** The real driver *)

Definition run_ioctl (i : nat) (e : iav_policy_entry) (buf : list Z) (value : Z) : M (Z * Z * list Z) :=
  fd ← reading (fun b => se_fd (sess_at b i));
  let arg := match e_kind e with IAV_ARG_PTR => ArgBuf buf | IAV_ARG_VALUE => ArgValue value | IAV_ARG_NONE => ArgNone end in
  emit [EvIoctl fd (e_cmd e) arg];;
  r ← ask (fun E n => ev_ioctl E n fd (e_cmd e) arg);
  let '(rc, errno, after) := r in
  mret (rc, if rc <? 0 then errno else 0, match e_kind e with IAV_ARG_PTR => after | _ => buf end).

Definition IAV_IOC_GET_CHAN_CONFIG : Z := ioc "IAV_IOC_GET_CHAN_CONFIG".
Definition IAV_IOC_GET_SYSTEM_RESOURCE : Z := ioc "IAV_IOC_GET_SYSTEM_RESOURCE".
Definition IAV_IOC_QUERY_MEMBLOCK : Z := ioc "IAV_IOC_QUERY_MEMBLOCK".

(** [query_on_session]: what a check may ask of the driver on the caller's descriptor. The callback lets three
    commands through; each is recorded, whether or not the check of this call comes to ask it. *)
Definition query_on_session (fd : Z) : M driver_query :=
  emit [EvQuery fd IAV_IOC_GET_CHAN_CONFIG; EvQuery fd IAV_IOC_GET_SYSTEM_RESOURCE; EvQuery fd IAV_IOC_QUERY_MEMBLOCK];;
  ask (fun E n => ev_query E n fd).

(** Whether a partition is elsewhere, or of another length, than recorded. *)
Definition part_moved (pid base len : Z) (fd : Z) : M bool :=
  emit [EvQuery fd IAV_IOC_QUERY_MEMBLOCK];;
  q ← ask (fun E n => ev_query E n fd);
  mret match q_memblock q pid with Some (addr, l) => negb (addr =? base) || negb (l =? len) | None => true end.

Fixpoint any_moved (fd : Z) (parts : list (Z * Z * Z)) : M bool :=
  match parts with
  | [] => mret false
  | (pid, base, len) :: rest =>
      m ← part_moved pid base len fd;
      r ← any_moved fd rest;
      mret (m || r)
  end.

(** The windows with a recorded partition. *)
Definition pinned_windows (ws : list broker_window) : list (Z * Z * Z) :=
  map (fun w => (bw_pid w, bw_base w, bw_part_len w))
    (List.filter (fun w => negb ((bw_pid w =? 0) && negb (bw_id w =? AMBA_VIRT_IAV_WIN_DSP))) ws).

Definition recheck_on_fd (fd : Z) : M bool :=
  ws ← reading br_windows;
  s1 ← any_moved fd (pinned_windows ws);
  src ← reading br_aux_src;
  s2 ← any_moved fd (map (fun a => (ax_pid a, ax_base a, ax_len a)) (take IAV_BROKER_AUX_MAX src));
  pool ← reading br_pool;
  s3 ← match pool with
       | Some p => part_moved (gp_partition_id p) (gp_parent_base p) (gp_parent_bytes p) fd
       | None => mret false
       end;
  locked (fun _ b => (s1 || s2 || s3, with_stale b (s1 || s2 || s3) (up_rechecks (br_count b)))).

(** Negative errno, 1 for stale, 0 for matching. *)
Definition iav_broker_recheck_windows : M Z :=
  o ← ask (fun E n => ev_open E n);
  match o with
  | inl errno => mret (- (if errno =? 0 then EIO else errno))
  | inr fd =>
      emit [EvOpen fd];;
      stale ← recheck_on_fd fd;
      emit [EvClose fd];;
      mret (if (stale : bool) then 1 else 0)
  end.

Definition iav_broker_windows_stale (b : broker) : bool := br_stale b.

Definition wire_size_for (e : iav_policy_entry) (h : broker_hello) : Z :=
  if negb (e_wire e =? 0) && he_done h && has_flag (he_features h) AMBA_VIRT_IAV_F_SIZE_OVERRIDE then e_wire e else e_size e.

(** ** The arena *)

(** [struct arena_xlat]. *)
Record arena_xlat := { x_pid : Z; x_index : Z; x_slice_off : Z; x_blk : list arena_blk }.

Definition ANON_TAG : Z := 0xff.

Definition is_anon_id (id : Z) : bool := (Z.land id 0xff =? ANON_TAG) && negb (Z.shiftr id 8 =? 0).

Definition IAV_IOC_SET_IMG_SCALE : Z := ioc "IAV_IOC_SET_IMG_SCALE".
Definition IAV_IOC_GDMA_COPY : Z := ioc "IAV_IOC_GDMA_COPY".
Definition IAV_IOC_SYNC_CACHE_MEM_PART : Z := ioc "IAV_IOC_SYNC_CACHE_MEM_PART".
Definition IAV_IOC_ENABLE_PREVIEW : Z := ioc "IAV_IOC_ENABLE_PREVIEW".

Definition arena_cmd (cmd : Z) : bool :=
  (cmd =? IAV_IOC_SET_IMG_SCALE) || (cmd =? IAV_IOC_GDMA_COPY) || (cmd =? IAV_IOC_SYNC_CACHE_MEM_PART).

Definition arena_blk_of (x : arena_xlat) (vid : Z) : option nat := find_idx (fun b => bk_vid b =? vid) (x_blk x).

(** The slots of the call and the uses of the blocks, as the translation goes on. *)
Record xlat_st := { xl_slots : list arena_slot; xl_used : list Z }.

Definition xlat0 : xlat_st := {| xl_slots := [arena_slot0; arena_slot0]; xl_used := repeat 0 AMBA_VIRT_IAV_ARENA_MAX_BLKS |}.

(** [arena_field]: the new partition id and offsets; [off2] is [None] for NULL. *)
Definition arena_field (x : arena_xlat) (slot : nat) (pid off1 : Z) (off2 : option Z) (t : xlat_st)
    : Z + (Z * Z * option Z * xlat_st) :=
  match arena_blk_of x pid with
  | None => inl (- EINVAL)
  | Some k =>
      match x_blk x !! k with
      | None => inl (- EINVAL)
      | Some blk =>
          if (bk_length blk <? off1) || match off2 with Some o => bk_length blk <? o | None => false end then inl (- EINVAL)
          else
            let base := u64 (x_slice_off x + bk_offset blk) in
            inr (x_pid x, u64 (off1 + base), (fun o => u64 (o + base)) <$> off2,
                 {| xl_slots := <[slot := {| as_valid := true; as_start := base; as_len := bk_length blk |}]> (xl_slots t);
                    xl_used := alter (fun u => u + 1) k (xl_used t) |})
      end
  end.

Definition scale_has_uv (s : iav_img_scale) (output : bool) : bool :=
  negb ((if output && is_output_format_enable s then is_output_format s else is_format s) =? IAV_YUV_FORMAT_YUV400).

Definition set_buf (b : iav_scale_buf_info) (pid y uv : Z) : iav_scale_buf_info :=
  {| sb_use_phys := sb_use_phys b; sb_use_dma_buf_fd := sb_use_dma_buf_fd b; sb_pid := pid; sb_pitch := sb_pitch b;
     sb_height := sb_height b; sb_y_offset := y; sb_uv_offset := uv |}.

(** One buffer of SET_IMG_SCALE. *)
Definition translate_scale_buf (x : arena_xlat) (s : iav_img_scale) (output : bool) (t : xlat_st)
    : Z + (iav_scale_buf_info * xlat_st) :=
  let b := if output then is_output_buf s else is_input_buf s in
  if sb_use_phys b || sb_use_dma_buf_fd b || negb (is_anon_id (sb_pid b)) then inr (b, t)
  else
    match arena_field x (if output then 1 else 0)%nat (sb_pid b) (sb_y_offset b)
            (if scale_has_uv s output then Some (sb_uv_offset b) else None) t with
    | inl e => inl e
    | inr (pid, y, uv, t') => inr (set_buf b pid y (default (sb_uv_offset b) uv), t')
    end.

Definition translate_scale (x : arena_xlat) (s : iav_img_scale) : Z + (iav_img_scale * xlat_st) :=
  match translate_scale_buf x s false xlat0 with
  | inl e => inl e
  | inr (bi, t) =>
      match translate_scale_buf x s true t with
      | inl e => inl e
      | inr (bo, t') =>
          inr ({| is_format := is_format s; is_output_format_enable := is_output_format_enable s;
                  is_output_format := is_output_format s; is_input_buf := bi; is_output_buf := bo;
                  is_input_win_format := is_input_win_format s; is_input := is_input s; is_output := is_output s |}, t')
      end
  end.

(** One side of GDMA_COPY, or the range of SYNC_CACHE_MEM_PART: the partition and the offset. *)
Definition translate_side (x : arena_xlat) (slot : nat) (keep : bool) (pid off : Z) (t : xlat_st)
    : Z + (Z * Z * xlat_st) :=
  if keep || negb (is_anon_id pid) then inr (pid, off, t)
  else
    match arena_field x slot pid off None t with
    | inl e => inl e
    | inr (pid', off', _, t') => inr (pid', off', t')
    end.

Definition translate_gdma (x : arena_xlat) (g : iav_gdma_copy) : Z + (iav_gdma_copy * xlat_st) :=
  match translate_side x 0 (gc_src_use_phys g || gc_src_use_dma_buf_fd g) (gc_src_mmap_type g) (gc_src_offset g) xlat0 with
  | inl e => inl e
  | inr (sp, so, t) =>
      match translate_side x 1 (gc_dst_use_phys g || gc_dst_use_dma_buf_fd g) (gc_dst_mmap_type g) (gc_dst_offset g) t with
      | inl e => inl e
      | inr (dp, d, t') =>
          inr ({| gc_src_use_phys := gc_src_use_phys g; gc_dst_use_phys := gc_dst_use_phys g;
                  gc_src_use_dma_buf_fd := gc_src_use_dma_buf_fd g; gc_dst_use_dma_buf_fd := gc_dst_use_dma_buf_fd g;
                  gc_width := gc_width g; gc_height := gc_height g; gc_src_mmap_type := sp; gc_src_offset := so;
                  gc_src_pitch := gc_src_pitch g; gc_dst_mmap_type := dp; gc_dst_offset := d;
                  gc_dst_pitch := gc_dst_pitch g |}, t')
      end
  end.

Definition translate_sync (x : arena_xlat) (c : iav_sync_cache_mem_part) : Z + (iav_sync_cache_mem_part * xlat_st) :=
  match translate_side x 0 false (sc_pid c) (sc_offset c) xlat0 with
  | inl e => inl e
  | inr (p, o, t) => inr ({| sc_opt := sc_opt c; sc_pid := p; sc_offset := o; sc_length := sc_length c |}, t)
  end.

(** [arena_translate]: the buffer with the fields that name blocks rewritten, and the slots of the call. *)
Definition arena_translate (x : arena_xlat) (cmd : Z) (buf : list Z) : Z + (list Z * list arena_slot) :=
  let r :=
    if cmd =? IAV_IOC_SET_IMG_SCALE then
      match translate_scale x (lget L_img_scale buf) with inl e => inl e | inr (s, t) => inr (lput L_img_scale s buf, t) end
    else if cmd =? IAV_IOC_GDMA_COPY then
      match translate_gdma x (lget L_gdma_copy buf) with inl e => inl e | inr (g, t) => inr (lput L_gdma_copy g buf, t) end
    else if cmd =? IAV_IOC_SYNC_CACHE_MEM_PART then
      match translate_sync x (lget L_sync_cache buf) with inl e => inl e | inr (c, t) => inr (lput L_sync_cache c buf, t) end
    else inl (- EPERM) in
  match r with
  | inl e => inl e
  | inr (buf', t) =>
      if existsb (Z.eqb 0) (take (length (x_blk x)) (xl_used t)) then inl (- EINVAL) else inr (buf', xl_slots t)
  end.

Definition arena_restore (cmd : Z) (buf orig : list Z) : list Z :=
  if cmd =? IAV_IOC_SET_IMG_SCALE then
    let s := lget L_img_scale buf in
    let o := lget L_img_scale orig in
    let back b ob := set_buf b (sb_pid ob) (sb_y_offset ob) (sb_uv_offset ob) in
    lput L_img_scale
      {| is_format := is_format s; is_output_format_enable := is_output_format_enable s;
         is_output_format := is_output_format s; is_input_buf := back (is_input_buf s) (is_input_buf o);
         is_output_buf := back (is_output_buf s) (is_output_buf o); is_input_win_format := is_input_win_format s;
         is_input := is_input s; is_output := is_output s |} buf
  else buf.

End WithAbi.
