(* ===== verification/IavBrokerOps.v ===== *)
(** * The IAV broker: the operations of a request (tools/iav_broker.c, from [do_ioctl]; tools/virt_iav_guest_slice.c) *)

From stdpp Require Import base list strings.
From Stdlib Require Import ZArith Lia.
From S2P Require Import Prelude ByteBuf Text IavTable IavPolicy IavSession IavWire IavBroker.
Import Text.

Section WithAbi.
Context `{Abi : IavAbi} `{Lay : ArgLayout} (pol : policy).

(** ** ioctl *)

Definition policy_entry (cmd : Z) : option iav_policy_entry :=
  match fst (iav_policy_lookup pol cmd) with Some r => r | None => None end.

(** [memcpy(buf, arg, arg_len)] into a zeroed buffer. *)
Definition fill (arg : list Z) : list Z := arg ++ repeat 0 (Z.to_nat AMBA_VIRT_MAX_MSG - length arg).

(** The bytes past the header's size that nobody audited are zero. *)
Definition clear_unaudited (e : iav_policy_entry) (size : Z) (buf : list Z) : list Z :=
  if (e_size e <? size) && negb (has_flag (e_flags e) IAV_F_WIRE_AUDITED)
  then take (Z.to_nat (e_size e)) buf ++ repeat 0 (Z.to_nat (size - e_size e)) ++ drop (Z.to_nat size) buf
  else buf.

(** The argument once its shape is accepted: its size, whether a trailer follows it, the buffer and the value. *)
Record shaped := { sh_size : Z; sh_inline : bool; sh_buf : list Z; sh_value : Z }.

(** The switch over the kind of the argument: an errno, or the argument. *)
Definition arg_shape (e : iav_policy_entry) (h : broker_hello) (arena : bool) (arg : list Z) (arg_value : Z) : Z + shaped :=
  let size := wire_size_for e h in
  let arg_len := Z.of_nat (length arg) in
  match e_kind e with
  | IAV_ARG_NONE =>
      if negb (arg_len =? 0) then inl EMSGSIZE
      else inr {| sh_size := size; sh_inline := false; sh_buf := fill []; sh_value := 0 |}
  | IAV_ARG_VALUE =>
      if negb (arg_len =? 0) then inl EMSGSIZE
      else inr {| sh_size := size; sh_inline := false; sh_buf := fill []; sh_value := arg_value |}
  | IAV_ARG_PTR =>
      if (size =? 0) || (AMBA_VIRT_IAV_MAX_ARG <? size) || (AMBA_VIRT_IAV_MAX_OUT <? size) || (AMBA_VIRT_MAX_MSG <? size)
      then inl EMSGSIZE
      else if has_flag (e_flags e) IAV_F_INLINE then
        if negb (he_done h) || negb (has_flag (he_features h) AMBA_VIRT_IAV_F_INLINE) || negb (dir_writes (e_dir e)) || arena
        then inl EPERM
        else if (AMBA_VIRT_IAV_MAX_OUT <? size + SIZEOF_INLINE_MISC) || negb (arg_len =? size + SIZEOF_INLINE_MISC)
        then inl EMSGSIZE
        else inr {| sh_size := size; sh_inline := true; sh_buf := fill arg; sh_value := 0 |}
      else if (if dir_writes (e_dir e) then negb (arg_len =? size) else negb (arg_len =? 0)) then inl EMSGSIZE
      else inr {| sh_size := size; sh_inline := false; sh_buf := clear_unaudited e size (fill arg); sh_value := 0 |}
  end.

(** The partition length of the window with an id. *)
Definition win_len (id : Z) (ws : list broker_window) : Z :=
  fold_left (fun acc w => if bw_id w =? id then bw_part_len w else acc) ws 0.

Definition acquire (cid handle : Z) : M nat :=
  r ← locked (fun now b =>
        let '(r, b') := session_acquire now cid handle b in
        (match r with inl e => inl e | inr i => inr (i, br_epoch b', sess_at b' i) end, b'));
  match r with
  | inl e => refuse (- e)
  | inr (i, epoch, sess) => emit [EvAcquire handle epoch i sess];; mret i
  end.

Definition release (i : nat) : M unit :=
  fds ← locked (fun now b => session_release now i b);
  emit (map EvClose fds).

(** The translation of an arena call: the buffer, the slots, the partition of the arena. *)
Definition xlate (x : option arena_xlat) (e : iav_policy_entry) (cmd : Z) (sh : shaped) : M (list Z * list arena_slot * Z) :=
  match x with
  | None => mret (sh_buf sh, [arena_slot0; arena_slot0], 0)
  | Some x =>
      refuse_if (negb (bool_decide (e_kind e = IAV_ARG_PTR)) || negb (dir_writes (e_dir e)) ||
                 (AMBA_VIRT_MAX_MSG <? sh_size sh)) EPERM;;
      match arena_translate x cmd (sh_buf sh) with
      | inl err => count_up up_arena_refused;; refuse (- err)
      | inr (buf, slots) => mret (buf, slots, x_pid x)
      end
  end.

(** The call as a check sees it. *)
Definition call_of (e : iav_policy_entry) (cid : Z) (aux : list (Z * Z)) (slots : list arena_slot) (arena_pid : Z)
    (ws : list broker_window) (block_max : Z) (q : driver_query) (rd : option (Z -> Z -> option (list Z))) : iav_call :=
  {| call_cmd := e_cmd e; call_cid := cid; call_block_max_ms := block_max;
     call_dec_len := win_len AMBA_VIRT_IAV_WIN_DEC ws; call_ovl_len := win_len AMBA_VIRT_IAV_WIN_OVL ws;
     call_dsp_len := win_len AMBA_VIRT_IAV_WIN_DSP ws; call_bsb_len := win_len AMBA_VIRT_IAV_WIN_BSB ws;
     call_query := Some q; call_read_dec := rd; call_arena_pid := arena_pid; call_arena := slots;
     call_naux := Z.of_nat (length aux); call_aux := aux |}.

(** The check of the entry, on the session the call holds: its result, [pinned] and the buffer. *)
Definition checked (i : nat) (e : iav_policy_entry) (cid : Z) (aux : list (Z * Z)) (sh : shaped)
    (buf : list Z) (slots : list arena_slot) (arena_pid : Z) (ws : list broker_window) (block_max : Z) : M (Z * bool * list Z) :=
  match e_check e with
  | None => mret (0, false, buf)
  | Some f =>
      fd ← reading (fun b => se_fd (sess_at b i));
      q ← query_on_session fd;
      rd ← ask (fun E n => ev_read_dec E n);
      addr ← ask (fun E n => ev_buf_addr E n);
      mret (run_check f (call_of e cid aux slots arena_pid ws block_max q rd) buf
              (if sh_inline sh then Some (Z.to_nat (sh_size sh), addr + sh_size sh) else None))
  end.

(** The arena job is counted in flight, and the slice is still the guest's. *)
Definition arena_enter (cid : Z) (i : nat) (x : option arena_xlat) : M bool :=
  on ← ask (fun E _ => ev_arena_ops E);
  match x with
  | Some x =>
      if (on : bool) then
        ok ← ask (fun E n => ev_arena_begin E n (x_index x));
        if (ok : bool) then
          emit [EvArenaBegin (x_index x)];;
          w ← ask (fun E n => ev_slice_of E n cid);
          if bool_decide (w = Some (x_index x)) then mret true
          else emit [EvArenaEnd (x_index x)];; release i;; refuse EPERM
        else release i;; refuse EPERM
      else mret false
  | None => mret false
  end.

(** The output of a successful call. *)
Definition output_of (e : iav_policy_entry) (cmd : Z) (x : option arena_xlat) (sh : shaped) (rc : Z) (after : list Z) : list Z :=
  if (0 <=? rc) && bool_decide (e_kind e = IAV_ARG_PTR) && dir_reads (e_dir e) then
    let b1 := clear_unaudited e (sh_size sh) after in
    let b2 := match e_post e with Some p => run_post p b1 | None => b1 end in
    let b3 := match x with Some _ => arena_restore cmd b2 (sh_buf sh) | None => b2 end in
    take (Z.to_nat (sh_size sh + if sh_inline sh then SIZEOF_INLINE_MISC else 0)) b3
  else [].

(** [do_ioctl] from the session on. *)
Definition ioctl_on_session (cid cmd : Z) (e : iav_policy_entry) (x : option arena_xlat) (sh : shaped)
    (aux : list (Z * Z)) (ws : list broker_window) (block_max : Z)
    (xl : list Z * list arena_slot * Z) (i : nat) : M rsp :=
  let '(buf, slots, arena_pid) := xl in
  c ← checked i e cid aux sh buf slots arena_pid ws block_max;
  let '(cerr, pinned, buf1) := c in
  if cerr <? 0 then
    release i;;
    (if (pinned : bool) then count_up up_pinned else mret tt);;
    refuse (- cerr)
  else
    arena_on ← arena_enter cid i x;
    r ← run_ioctl i e buf1 (sh_value sh);
    let '(rc, err, after) := r in
    (if (arena_on : bool) then emit (match x with Some x => [EvArenaEnd (x_index x)] | None => [] end) else mret tt);;
    (match x with Some _ => count_up up_arena | None => mret tt end);;
    (if (0 <=? rc) && (e_cmd e =? IAV_IOC_ENABLE_PREVIEW)
     then fd ← reading (fun b => se_fd (sess_at b i)); recheck_on_fd fd;; mret tt
     else mret tt);;
    release i;;
    mret (answer (if rc <? 0 then -1 else rc) err 0 0 (output_of e cmd x sh rc after)).

Definition do_ioctl (cid handle cmd arg_value : Z) (arg : list Z) (x : option arena_xlat) : M rsp :=
  match policy_entry cmd with
  | None => refuse ENOTTY
  | Some e =>
      prof ← effective_profile cid;
      refuse_if (negb (has_flag (e_profiles e) (IAV_PROFILE_BIT prof))) EPERM;;
      hello ← hello_copy cid;
      match arg_shape e hello (bool_decide (is_Some x)) arg arg_value with
      | inl err => refuse err
      | inr sh =>
          stale ← locked (fun _ b =>
                    let hit := br_stale b && has_flag (e_flags e) IAV_F_WINDOW in
                    (hit, if hit then with_count b (up_stale (br_count b)) else b));
          refuse_if stale EIO;;
          aux ← (if has_flag (e_flags e) IAV_F_WINDOW
                 then ap ← aperture_of cid; mret (map (fun a => (ax_pid a, ax_len a)) (ap_entries ap))
                 else mret []);
          xl ← xlate x e cmd sh;
          cfg ← reading (fun b => (br_windows b, cf_block_max_ms (br_cfg b)));
          i ← acquire cid handle;
          ioctl_on_session cid cmd e x sh aux (fst cfg) (snd cfg) xl i
      end
  end.

Definition op_ioctl (cid : Z) (q : iav_req) (arg : list Z) : M rsp :=
  do_ioctl cid (rq_handle q) (rq_cmd q) (rq_arg_value q) arg None.

(** ** Private buffers (tools/virt_iav_guest_slice.c) *)

Record guest_slice_req := {
  gr_caller_slice : Z; gr_claimed_slice : Z; gr_partition_id : Z; gr_offset : Z; gr_length : Z; gr_phys : Z }.

Record guest_dma := { gd_partition_id : Z; gd_phys : Z; gd_length : Z }.

(** [virt_iav_guest_slice_admit]: a negative errno, or the address a job may use. *)
Definition virt_iav_guest_slice_admit (pool : guest_pool) (req : guest_slice_req) : Z + guest_dma :=
  if (gp_slice_count pool =? 0) || (8 <? gp_slice_count pool) then inl (- EINVAL)
  else if (gp_slice_bytes pool =? 0) || negb (gp_parent_bytes pool / gp_slice_bytes pool =? gp_slice_count pool) ||
          negb (gp_parent_bytes pool mod gp_slice_bytes pool =? 0)
  then inl (- EINVAL)
  else if negb (gp_parent_base pool mod gp_slice_bytes pool =? 0) then inl (- EINVAL)
  else if negb (gr_phys req =? 0) then inl (- EPERM)
  else if negb (gr_partition_id req =? gp_partition_id pool) then inl (- EPERM)
  else if negb (gr_claimed_slice req =? gr_caller_slice req) then inl (- EPERM)
  else if gp_slice_count pool <=? gr_caller_slice req then inl (- EPERM)
  else if gr_length req =? 0 then inl (- EINVAL)
  else
    let slice_off := u64 (gr_caller_slice req * gp_slice_bytes pool) in
    let slice_end := u64 (slice_off + gp_slice_bytes pool) in
    if gr_offset req <? slice_off then inl (- EPERM)
    else if (gp_parent_bytes pool <? gr_offset req) || (u64 (gp_parent_bytes pool - gr_offset req) <? gr_length req)
    then inl (- EINVAL)
    else if slice_end <? u64 (gr_offset req + gr_length req) then inl (- EPERM)
    else if 2 ^ 64 - 1 - gr_offset req <? gp_parent_base pool then inl (- EINVAL)
    else inr {| gd_partition_id := gp_partition_id pool; gd_phys := u64 (gp_parent_base pool + gr_offset req);
                gd_length := gr_length req |}.

Definition op_slice (cid : Z) (q : iav_req) (arg : list Z) : M rsp :=
  if Z.of_nat (length arg) <? struct_size SLICE_REQ_FIELDS then refuse EMSGSIZE
  else
    let inp := slice_req_of arg in
    pool ← reading br_pool;
    w ← ask (fun E n => ev_slice_of E n cid);
    match pool, w with
    | Some pool, Some window =>
        match virt_iav_guest_slice_admit pool
                {| gr_caller_slice := window; gr_claimed_slice := sq_claimed_slice inp;
                   gr_partition_id := sq_partition_id inp; gr_offset := sq_offset inp; gr_length := sq_length inp;
                   gr_phys := sq_phys inp |} with
        | inl _ => refuse EPERM
        | inr _ => do_ioctl cid (rq_handle q) (rq_cmd q) (rq_arg_value q) (drop (Z.to_nat (struct_size SLICE_REQ_FIELDS)) arg) None
        end
    | _, _ => refuse EPERM
    end.

(** ** Arena calls *)

Definition pool_usable (p : guest_pool) : bool :=
  negb ((gp_slice_bytes p <=? PAGE_BYTES) || (gp_slice_count p =? 0) || (gp_partition_id p =? 0)).

(** [arena_slice]: the pool and the caller's slice in it, or [None] for -EPERM. *)
Definition arena_slice (cid : Z) : M (option (guest_pool * Z)) :=
  pool ← reading br_pool;
  match pool with
  | Some p =>
      if pool_usable p then
        w ← ask (fun E n => ev_slice_of E n cid);
        mret match w with Some i => if gp_slice_count p <=? i then None else Some (p, i) | None => None end
      else mret None
  | None => mret None
  end.

Definition blk_zero (b : arena_blk) : bool :=
  (bk_vid b =? 0) && (bk_reserved b =? 0) && (bk_offset b =? 0) && (bk_length b =? 0).

(** One declared block against the ones before it: 0 or a negative errno. *)
Definition blk_admit (usable : Z) (before : list arena_blk) (b : arena_blk) : Z :=
  if negb (bk_reserved b =? 0) || negb (is_anon_id (bk_vid b)) then - EINVAL
  else if (bk_length b =? 0) || negb (bk_offset b mod AMBA_VIRT_IAV_ARENA_ALIGN =? 0) ||
          negb (bk_length b mod PAGE_BYTES =? 0)
  then - EINVAL
  else if (usable <=? bk_offset b) || (u64 (usable - bk_offset b) <? bk_length b) then - EPERM
  else if existsb (fun o => (bk_vid o =? bk_vid b) ||
                            ((bk_offset b <? u64 (bk_offset o + bk_length o)) &&
                             (bk_offset o <? u64 (bk_offset b + bk_length b)))) before
  then - EINVAL else 0.

(** The loop over the slots of the header; [left] blocks are still declared. *)
Fixpoint blks_admit (usable : Z) (left : nat) (before blks : list arena_blk) : Z :=
  match blks with
  | [] => 0
  | b :: rest =>
      match left with
      | O => if blk_zero b then blks_admit usable O before rest else - EINVAL
      | S left' =>
          let rc := blk_admit usable before b in
          if rc =? 0 then blks_admit usable left' (before ++ [b]) rest else rc
      end
  end.

Definition arena_admit (h : arena_req) (usable : Z) : Z :=
  if negb (aq_reserved h =? 0) || (aq_count h =? 0) || (Z.of_nat AMBA_VIRT_IAV_ARENA_MAX_BLKS <? aq_count h) then - EINVAL
  else blks_admit usable (Z.to_nat (aq_count h)) [] (aq_blk h).

Definition SIZEOF_ARENA_REQ : nat := sum_list ARENA_REQ_FIELDS.

(** The admission of an arena call: a negative errno, or where its blocks lie. *)
Definition arena_admission (cid : Z) (q : iav_req) (arg : list Z) : M (Z + arena_xlat) :=
  if Nat.ltb (length arg) SIZEOF_ARENA_REQ then mret (inl (- EMSGSIZE))
  else
    let h := arena_req_of arg in
    hello ← hello_copy cid;
    if negb (he_done hello) || negb (has_flag (he_features hello) AMBA_VIRT_IAV_F_ARENA) then mret (inl (- EPERM))
    else
      prof ← effective_profile cid;
      if is_consumer prof || negb (arena_cmd (rq_cmd q)) then mret (inl (- EPERM))
      else
        s ← arena_slice cid;
        mret match s with
             | None => inl (- EPERM)
             | Some (pool, index) =>
                 let rc := arena_admit h (gp_slice_bytes pool - PAGE_BYTES) in
                 if rc =? 0 then
                   inr {| x_pid := gp_partition_id pool; x_index := index;
                          x_slice_off := u64 (index * gp_slice_bytes pool);
                          x_blk := take (Z.to_nat (aq_count h)) (aq_blk h) |}
                 else inl rc
             end.

Definition op_arena (cid : Z) (q : iav_req) (arg : list Z) : M rsp :=
  a ← arena_admission cid q arg;
  match a with
  | inl err => count_up up_arena_refused;; refuse (- err)
  | inr x => do_ioctl cid (rq_handle q) (rq_cmd q) (rq_arg_value q) (drop SIZEOF_ARENA_REQ arg) (Some x)
  end.

(** ** Polling *)

Definition POLL_ALLOWED_EVENTS : Z := 0x147.   (** POLLIN, POLLPRI, POLLOUT, POLLRDNORM, POLLWRNORM *)

Definition op_poll (cid : Z) (q : iav_req) : M rsp :=
  let events := Z.land (rq_cmd q) POLL_ALLOWED_EVENTS in
  let timeout := if AMBA_VIRT_IAV_POLL_SLICE_MS <? rq_arg_value q then AMBA_VIRT_IAV_POLL_SLICE_MS else rq_arg_value q in
  refuse_if (negb (rq_arg_len q =? 0)) EMSGSIZE;;
  i ← acquire cid (rq_handle q);
  fd ← reading (fun b => se_fd (sess_at b i));
  emit [EvPoll fd events timeout];;
  r ← ask (fun E n => ev_poll E n fd events timeout);
  let '(n, errno, revents) := r in
  release i;;
  mret (if n <? 0 then answer (-1) errno 0 0 [] else answer n 0 0 (u32 revents) []).

(** ** Opening and closing *)

Definition op_open (cid : Z) : M rsp :=
  r ← locked (fun now b => open_reserve now cid b);
  match r with
  | inl err => refuse err
  | inr i =>
      o ← ask (fun E n => ev_open E n);
      match o with
      | inl errno =>
          locked (fun now b => (tt, open_failed now i b));;
          mret (answer (-1) (if errno =? 0 then EIO else errno) 0 0 [])
      | inr fd =>
          emit [EvOpen fd];;
          d ← locked (fun now b => let '(ok, fds, b') := open_done now fd i b in ((ok, fds, make_handle b' i (se_gen (sess_at b' i))), b'));
          let '(ok, fds, handle) := d in
          emit (map EvClose fds);;
          if (ok : bool) then mret (answer 0 0 handle 0 []) else refuse ECONNRESET
      end
  end.

Definition op_close (cid : Z) (q : iav_req) : M rsp :=
  i ← acquire cid (rq_handle q);
  fds ← locked (fun now b => session_close now i true b);
  emit (map EvClose fds);;
  mret (answer 0 0 0 0 []).

(** ** What a guest may map *)

Definition window_primary_only (id : Z) : bool := (id =? AMBA_VIRT_IAV_WIN_DEC) || (id =? AMBA_VIRT_IAV_WIN_OVL).

(** One window of OP_INFO, in the extended and in the legacy form. *)
Definition window_entry (h : broker_hello) (w : broker_window) : iav_entry :=
  {| en_id := bw_id w;
     en_flags := Z.lor (Z.lor AMBA_VIRT_IAV_ENT_RING (if window_primary_only (bw_id w) then AMBA_VIRT_IAV_ENT_PRIMARY_ONLY else 0))
                   (if has_flag (he_features h) AMBA_VIRT_IAV_F_NC_WINDOWS then AMBA_VIRT_IAV_ENT_NORMAL_NC else 0);
     en_base := bw_base w; en_size := bw_size w; en_part_len := bw_part_len w; en_offset := 0; en_pid := bw_pid w;
     en_reserved := 0 |}.

Fixpoint info_windows (ext : bool) (h : broker_hello) (prof : iav_profile) (ws : list broker_window) (out : list Z) (n : Z)
    : list Z * Z :=
  match ws with
  | [] => (out, n)
  | w :: rest =>
      if window_primary_only (bw_id w) && is_consumer prof then info_windows ext h prof rest out n
      else if ext then
        if (he_max_window_id h <? bw_id w) || (AMBA_VIRT_IAV_MAX_OUT <? Z.of_nat (length out) + struct_size ENTRY_FIELDS)
        then info_windows ext h prof rest out n
        else info_windows ext h prof rest (out ++ entry_bytes (window_entry h w)) (n + 1)
      else
        if (AMBA_VIRT_IAV_MAX_WINDOWS <=? bw_id w) || (AMBA_VIRT_IAV_MAX_WINDOWS <=? n)
        then info_windows ext h prof rest out n
        else info_windows ext h prof rest (out ++ window_bytes (bw_id w) (bw_base w) (bw_size w) (bw_part_len w)) (n + 1)
  end.

(** The aperture's descriptor and its entries. *)
Definition aperture_entry (ap : aperture) : iav_entry :=
  {| en_id := AMBA_VIRT_IAV_ENT_ID_APERTURE; en_flags := Z.lor AMBA_VIRT_IAV_ENT_APERTURE AMBA_VIRT_IAV_ENT_PRIMARY_ONLY;
     en_base := 0; en_size := ap_size ap; en_part_len := 0; en_offset := ap_size ap - PAGE_BYTES; en_pid := 0;
     en_reserved := u32 (ap_epoch ap) |}.

(** The room up to the next entry or the header page. *)
Definition next_offset (ap : aperture) (a : aux_entry) : Z :=
  fold_left (fun next o => if (ax_offset a <? ax_offset o) && (ax_offset o <? next) then ax_offset o else next)
    (ap_entries ap) (ap_size ap - PAGE_BYTES).

Definition aux_info_entry (h : broker_hello) (ap : aperture) (a : aux_entry) : iav_entry :=
  {| en_id := AMBA_VIRT_IAV_ENT_ID_AUX + ax_pid a;
     en_flags := Z.lor (Z.lor (Z.lor AMBA_VIRT_IAV_ENT_APERTURE AMBA_VIRT_IAV_ENT_PRIMARY_ONLY) AMBA_VIRT_IAV_ENT_RING)
                   (if has_flag (he_features h) AMBA_VIRT_IAV_F_NC_WINDOWS then AMBA_VIRT_IAV_ENT_NORMAL_NC else 0);
     en_base := ax_base a; en_size := next_offset ap a - ax_offset a; en_part_len := ax_len a; en_offset := ax_offset a;
     en_pid := ax_pid a; en_reserved := 0 |}.

Definition arena_entry (pool : guest_pool) (index : Z) : iav_entry :=
  {| en_id := AMBA_VIRT_IAV_ENT_ID_ARENA; en_flags := Z.lor AMBA_VIRT_IAV_ENT_ARENA AMBA_VIRT_IAV_ENT_PRIMARY_ONLY;
     en_base := u64 (gp_parent_base pool + index * gp_slice_bytes pool); en_size := gp_slice_bytes pool;
     en_part_len := gp_slice_bytes pool - PAGE_BYTES; en_offset := 0; en_pid := gp_partition_id pool; en_reserved := index |}.

Definition op_info (cid : Z) (q : iav_req) : M rsp :=
  refuse_if (negb (rq_arg_len q =? 0)) EMSGSIZE;;
  hello ← hello_copy cid;
  prof ← effective_profile cid;
  let ext := he_done hello && has_flag (he_features hello) AMBA_VIRT_IAV_F_EXT_INFO in
  o1 ← reading (fun b => info_windows ext hello prof (br_windows b) [] 0);
  o2 ← (if ext && has_flag (he_features hello) AMBA_VIRT_IAV_F_APERTURE && negb (is_consumer prof) then
          ap ← aperture_of cid;
          let na := Z.of_nat (length (ap_entries ap)) in
          mret (if negb (na =? 0) &&
                   (Z.of_nat (length (fst o1)) + (na + 1) * struct_size ENTRY_FIELDS <=? AMBA_VIRT_IAV_MAX_OUT)
                then (fst o1 ++ entry_bytes (aperture_entry ap) ++
                      concat (map (fun a => entry_bytes (aux_info_entry hello ap a)) (ap_entries ap)),
                      snd o1 + 1 + na)
                else o1)
        else mret o1);
  o3 ← (if ext && has_flag (he_features hello) AMBA_VIRT_IAV_F_ARENA && negb (is_consumer prof) then
          s ← arena_slice cid;
          mret match s with
               | Some (pool, index) =>
                   if Z.of_nat (length (fst o2)) + struct_size ENTRY_FIELDS <=? AMBA_VIRT_IAV_MAX_OUT
                   then (fst o2 ++ entry_bytes (arena_entry pool index), snd o2 + 1)
                   else o2
               | None => o2
               end
        else mret o2);
  mret (answer 0 0 0 (snd o3) (fst o3)).

(** ** Negotiation *)

Definition HELLO_MIN_PAGE : Z := 4096.
Definition HELLO_MAX_PAGE : Z := 65536.
Definition BROKER_FEATURES : Z :=
  Z.lor (Z.lor AMBA_VIRT_IAV_F_SIZE_OVERRIDE AMBA_VIRT_IAV_F_EXT_INFO) AMBA_VIRT_IAV_F_INLINE.

Definition granted (features host : Z) (arena_ok aperture_ok : bool) : Z :=
  Z.land features
    (Z.lor (Z.lor (Z.lor BROKER_FEATURES host) (if arena_ok then AMBA_VIRT_IAV_F_ARENA else 0))
       (if aperture_ok then AMBA_VIRT_IAV_F_APERTURE else 0)).

Definition hello_role (p : iav_profile) : Z :=
  match p with
  | IAV_PROFILE_PRIMARY => AMBA_VIRT_IAV_ROLE_PRIMARY
  | IAV_PROFILE_QUALIFICATION => AMBA_VIRT_IAV_ROLE_QUALIFY
  | IAV_PROFILE_CONSUMER => AMBA_VIRT_IAV_ROLE_CONSUMER
  end.

Definition set_hello (h : broker_hello) (c : cid_entry) : cid_entry :=
  {| ci_used := ci_used c; ci_cid := ci_cid c; ci_sessions := ci_sessions c; ci_tokens := ci_tokens c;
     ci_last_ms := ci_last_ms c; ci_hello := h |}.

(** The last critical section: [None] when the guest has no entry, else the features and the output. *)
Definition hello_commit (cid : Z) (inp : iav_hello) (prof : iav_profile) (arena_ok aperture_ok : bool) (now : Z) (b : broker)
    : option (Z * list Z) * broker :=
  let g := granted (hl_features inp) (br_host_features b) arena_ok aperture_ok in
  let max_id := if hl_max_window_id inp <? AMBA_VIRT_IAV_MAX_WINDOWS - 1 then hl_max_window_id inp
                else AMBA_VIRT_IAV_MAX_WINDOWS - 1 in
  let '(cs, b1) := cid_state now cid b in
  match cs with
  | None => (None, b1)
  | Some k =>
      let h := {| he_done := true; he_revision := hl_revision inp; he_features := g; he_max_window_id := max_id;
                  he_page_size := hl_page_size inp; he_table_hash := hl_table_hash inp |} in
      (Some (g, hello_resp_bytes AMBA_VIRT_IAV_REVISION (hello_role prof) g max_id (br_table_rows b) (br_table_hash b)),
       with_count (with_cids b1 (alter (set_hello h) k (br_cids b1))) (up_hello (br_count b1)))
  end.

Definition op_hello (cid : Z) (q : iav_req) (arg : list Z) : M rsp :=
  refuse_if (negb (rq_handle q =? 0) || negb (rq_arg_len q =? struct_size HELLO_FIELDS)) EMSGSIZE;;
  let inp := hello_of_bytes arg in
  refuse_if ((hl_revision inp =? 0) || (hl_page_size inp <? HELLO_MIN_PAGE) || (HELLO_MAX_PAGE <? hl_page_size inp) ||
             negb (is_pow2 (hl_page_size inp))) EINVAL;;
  prof ← effective_profile cid;
  let wants := negb (is_consumer prof) && has_flag (hl_features inp) AMBA_VIRT_IAV_F_EXT_INFO in
  arena_ok ← (if wants then s ← arena_slice cid; mret (bool_decide (is_Some s)) else mret false);
  aper_ok ← (if wants then ap ← aperture_of cid; mret (negb (Nat.eqb (length (ap_entries ap)) 0)) else mret false);
  r ← locked (fun now b => hello_commit cid inp prof arena_ok aper_ok now b);
  match r with
  | None => refuse EMFILE
  | Some (g, out) => mret (answer 0 0 0 g out)
  end.

(** ** Mapping *)

Definition PROT_READ : Z := 1.
Definition PROT_WRITE : Z := 2.

(** The entry of the caller's aperture at an address. *)
Definition map_aux (cid : Z) (q : iav_req) : M rsp :=
  let length := rq_arg2 q in
  hello ← hello_copy cid;
  refuse_if (negb (he_done hello) || negb (has_flag (he_features hello) AMBA_VIRT_IAV_F_APERTURE)) EFAULT;;
  prof ← effective_profile cid;
  refuse_if (is_consumer prof) EFAULT;;
  ap ← aperture_of cid;
  match List.find (fun a => ax_base a =? rq_arg_value q) (ap_entries ap) with
  | None => refuse EFAULT
  | Some a =>
      refuse_if (u64 (2 * ax_len a) <? length) EINVAL;;
      count_up up_aux_maps;;
      let window := AMBA_VIRT_IAV_ENT_ID_AUX + ax_pid a in
      mret (answer 0 0 0 window (map_bytes window (rq_cmd q) (ax_offset a) length))
  end.

Definition op_map (cid : Z) (q : iav_req) : M rsp :=
  let length := rq_arg2 q in
  refuse_if (negb (rq_arg_len q =? 0)) EMSGSIZE;;
  i ← acquire cid (rq_handle q);
  release i;;
  refuse_if ((length =? 0) || negb (rq_arg_value q mod PAGE_BYTES =? 0) || negb (length mod PAGE_BYTES =? 0)) EINVAL;;
  refuse_if (negb (Z.land (rq_cmd q) (not32 (Z.lor PROT_READ PROT_WRITE)) =? 0)) EPERM;;
  refuse_if (Z.land (rq_cmd q) PROT_READ =? 0) EPERM;;
  w ← locked (fun _ b => if br_stale b then (inl tt, with_count b (up_stale (br_count b)))
                         else (inr (List.find (fun w => bw_base w =? rq_arg_value q) (br_windows b)), b));
  match w with
  | inl _ => refuse EIO
  | inr None => map_aux cid q
  | inr (Some w) =>
      prof ← (if window_primary_only (bw_id w) then effective_profile cid else mret IAV_PROFILE_PRIMARY);
      refuse_if (window_primary_only (bw_id w) && is_consumer prof) EPERM;;
      refuse_if (u64 (2 * bw_part_len w) <? length) EINVAL;;
      mret (answer 0 0 0 (bw_id w) (map_bytes (bw_id w) (rq_cmd q) 0 length))
  end.

(** ** The admin view *)

(** [%016llx] *)
Definition print_016llx (n : Z) : text := let t := print_llx n in repeat (digit_char 0) (16 - length t) ++ t.

Definition status_head (b : broker) : text :=
  let c := br_count b in
  let negotiated := Z.of_nat (length (List.filter (fun c => ci_used c && he_done (ci_hello c)) (br_cids b))) in
  lit "OK windows=" ++ (if br_stale b then lit "stale" else lit "pinned") ++ lit " revision=" ++ print_u AMBA_VIRT_IAV_REVISION ++
  lit " host_features=0x" ++ print_llx (br_host_features b) ++ lit " table_rows=" ++ print_u (br_table_rows b) ++
  lit " table_hash=0x" ++ print_016llx (br_table_hash b) ++ lit " requests=" ++ print_llu (n_requests c) ++
  lit " refused=" ++ print_llu (n_refused c) ++ lit " hello=" ++ print_llu (n_hello c) ++
  lit " negotiated=" ++ print_u negotiated ++ lit " pinned=" ++ print_llu (n_pinned c) ++
  lit " stale_refused=" ++ print_llu (n_stale_refused c) ++ lit " rechecks=" ++ print_llu (n_rechecks c) ++
  lit " arena=" ++ print_llu (n_arena c) ++ lit " arena_refused=" ++ print_llu (n_arena_refused c) ++
  lit " aux_sources=" ++ print_u (Z.of_nat (length (br_aux_src b))) ++ lit " aux_maps=" ++ print_llu (n_aux_maps c) ++ [newline].

Definition status_guest (b : broker) (c : cid_entry) : text :=
  lit "GUEST cid=" ++ print_u (ci_cid c) ++ lit " revision=" ++ print_u (he_revision (ci_hello c)) ++
  lit " features=0x" ++ print_llx (he_features (ci_hello c)) ++ lit " max_window_id=" ++ print_u (he_max_window_id (ci_hello c)) ++
  lit " page_size=" ++ print_u (he_page_size (ci_hello c)) ++ lit " table=" ++
  (if he_table_hash (ci_hello c) =? br_table_hash b then lit "same" else lit "differs") ++ [newline].

(** [iav_broker_format_status] into a buffer of [len] bytes: the text, or [None] for -1 (it does not fit). *)
Definition iav_broker_format_status (len : nat) (b : broker) : option text :=
  let t :=
    fold_left (fun acc c => if Nat.ltb (length acc) len && ci_used c && he_done (ci_hello c) then acc ++ status_guest b c else acc)
      (br_cids b) (status_head b) in
  if Nat.ltb (length t) len then Some t else None.

(** ** The entry point *)

(** [reply_build]: the response bytes, or [None] when they do not fit. *)
Definition reply_build (cap : Z) (r : rsp) : option (list Z) :=
  let out_len := Z.of_nat (length (rp_out r)) in
  if (cap <? SIZEOF_RESP) || (cap - SIZEOF_RESP <? out_len) then None
  else Some (resp_bytes {| rs_proto := AMBA_VIRT_IAV_PROTO; rs_status := rp_status r; rs_rc := rp_rc r; rs_err := rp_err r;
                           rs_handle := rp_handle r; rs_value := rp_value r; rs_out_len := u32 out_len; rs_reserved := 0 |}
             ++ rp_out r).

(** The guest's entry and its rate: [None] when there is no entry, else [rate_check]'s answer. *)
Definition admit_request (cid : Z) (now : Z) (b : broker) : option Z * broker :=
  let b0 := with_count b (up_requests (br_count b)) in
  let '(cs, b1) := cid_state now cid b0 in
  match cs with
  | None => (None, b1)
  | Some k =>
      let '(rc, c) := rate_check now (br_cfg b1) (default cid_entry0 (br_cids b1 !! k)) in
      (Some rc, with_cids b1 (<[k := c]> (br_cids b1)))
  end.

Definition dispatch (cid : Z) (q : iav_req) (arg : list Z) : M rsp :=
  let op := rq_op q in
  if op =? AMBA_VIRT_IAV_OP_OPEN then (if rq_arg_len q =? 0 then op_open cid else refuse EMSGSIZE)
  else if op =? AMBA_VIRT_IAV_OP_CLOSE then (if rq_arg_len q =? 0 then op_close cid q else refuse EMSGSIZE)
  else if op =? AMBA_VIRT_IAV_OP_IOCTL then op_ioctl cid q arg
  else if op =? AMBA_VIRT_IAV_OP_MAP then op_map cid q
  else if op =? AMBA_VIRT_IAV_OP_POLL then op_poll cid q
  else if op =? AMBA_VIRT_IAV_OP_INFO then op_info cid q
  else if op =? AMBA_VIRT_IAV_OP_SLICE then op_slice cid q arg
  else if op =? AMBA_VIRT_IAV_OP_HELLO then op_hello cid q arg
  else if op =? AMBA_VIRT_IAV_OP_ARENA then op_arena cid q arg
  else refuse ENOSYS.

(** The request up to its reply; [req] is the message after its header. *)
Definition request (cid : Z) (req : list Z) : M rsp :=
  a ← locked (admit_request cid);
  match a with
  | None => refuse EMFILE
  | Some rc =>
      refuse_if (negb (rc =? 0)) EAGAIN;;
      refuse_if (Z.of_nat (length req) <? SIZEOF_REQ) EPROTO;;
      let q := req_of req in
      refuse_if (negb (rq_proto q =? AMBA_VIRT_IAV_PROTO)) EPROTO;;
      refuse_if ((AMBA_VIRT_IAV_MAX_ARG <? rq_arg_len q) || negb (rq_arg_len q =? Z.of_nat (length req) - SIZEOF_REQ)) EMSGSIZE;;
      dispatch cid q (drop (Z.to_nat SIZEOF_REQ) req)
  end.

(** [iav_broker_handle]: its result (0 or -1) and the response it built. *)
Definition iav_broker_handle (cid : Z) (req : list Z) (cap : Z) (E : env) (s : st) : Z * list Z * st :=
  let '(r, s1) := request cid req E s in
  let r := match r with inl r => r | inr r => r end in
  match reply_build cap r with
  | None => (-1, [], s1)
  | Some bytes =>
      if negb (rp_status r =? 0) then (0, bytes, snd (count_up up_refused E s1)) else (0, bytes, s1)
  end.

End WithAbi.
