(* ===== verification/IavBrokerProps.v ===== *)
(** * What the IAV broker lets through to the driver

    [Module BrokerLogic]: rules for the requests of the broker; an assertion speaks of the broker's state and of the
    events so far, and holds between the steps of a request whatever the environment answers. [Module BrokerProps]:
    the theorems. *)

From stdpp Require Import base list.
From Stdlib Require Import ZArith Lia.
From S2P Require Import Prelude ByteBuf IavTable IavPolicy IavSession IavWire IavBroker IavBrokerOps IavSessionProps.

Module BrokerLogic.

Definition assn : Type := broker -> list event -> Prop.

(** From [I], the request [m] ends in a reply that satisfies [R] or in a value that satisfies [Q]. *)
Definition triple (E : env) (I : assn) {A} (m : M A) (R : rsp -> assn) (Q : A -> assn) : Prop :=
  forall s r s', I (st_b s) (st_tr s) -> m E s = (r, s') ->
    match r with inl p => R p (st_b s') (st_tr s') | inr a => Q a (st_b s') (st_tr s') end.

Section Rules.
Context (E : env).

Lemma t_conseq {A} (I I' : assn) (m : M A) (R : rsp -> assn) (Q Q' : A -> assn) :
  triple E I' m R Q' -> (forall b tr, I b tr -> I' b tr) -> (forall a b tr, Q' a b tr -> Q a b tr) -> triple E I m R Q.
Proof. intros H HI HQ s r s' Hs Hm. specialize (H s r s' (HI _ _ Hs) Hm). destruct r; auto. Qed.

Lemma t_ret {A} (I : assn) (a : A) R (Q : A -> assn) : (forall b tr, I b tr -> Q a b tr) -> triple E I (mret a) R Q.
Proof. intros H s r s' Hs [= <- <-]. auto. Qed.

Lemma t_reply {A} (I : assn) p (R : rsp -> assn) (Q : A -> assn) : (forall b tr, I b tr -> R p b tr) -> triple E I (reply p) R Q.
Proof. intros H s r s' Hs [= <- <-]. auto. Qed.

Lemma t_bind {A B} (I : assn) (m : M A) (k : A -> M B) R (Q : A -> assn) (Q' : B -> assn) :
  triple E I m R Q -> (forall a, triple E (Q a) (k a) R Q') -> triple E I (m ≫= k) R Q'.
Proof.
  intros Hm Hk s r s' Hs. unfold mbind, M_bind. destruct (m E s) as [[p|a] s1] eqn:Em.
  - intros [= <- <-]. exact (Hm s _ _ Hs Em).
  - intros Hr. exact (Hk a s1 r s' (Hm s _ _ Hs Em) Hr).
Qed.

Lemma t_ask {A} (I : assn) (f : env -> nat -> A) R (Q : A -> assn) :
  (forall n b tr, I b tr -> Q (f E n) b tr) -> triple E I (ask f) R Q.
Proof. intros H s r s' Hs [= <- <-]. cbn. auto. Qed.

Lemma t_locked {A} (I : assn) (f : Z -> broker -> A * broker) R (Q : A -> assn) :
  (forall n b tr a b', I b tr -> f (ev_now E n) (ev_other E n b) = (a, b') -> Q a b' tr) -> triple E I (locked f) R Q.
Proof.
  intros H s r s' Hs. unfold locked. destruct (f _ _) as [a b'] eqn:Ef. intros [= <- <-]. cbn. eapply H; eauto.
Qed.

Lemma t_reading {A} (I : assn) (f : broker -> A) R (Q : A -> assn) :
  (forall n b tr, I b tr -> Q (f (ev_other E n b)) (ev_other E n b) tr) -> triple E I (reading f) R Q.
Proof. intros H. apply t_locked. intros n b tr a b' Hi [= <- <-]. auto. Qed.

Lemma t_emit (I : assn) evs R (Q : unit -> assn) : (forall b tr, I b tr -> Q tt b (tr ++ evs)) -> triple E I (emit evs) R Q.
Proof. intros H s r s' Hs [= <- <-]. cbn. auto. Qed.

Lemma t_refuse {A} (I : assn) err (R : rsp -> assn) (Q : A -> assn) :
  (forall b tr, I b tr -> R {| rp_status := - err; rp_rc := -1; rp_err := 0; rp_handle := 0; rp_value := 0; rp_out := [] |} b tr) ->
  triple E I (refuse err) R Q.
Proof. apply t_reply. Qed.

Lemma t_refuse_if (I : assn) c err (R : rsp -> assn) (Q : unit -> assn) :
  (c = true -> forall b tr, I b tr ->
     R {| rp_status := - err; rp_rc := -1; rp_err := 0; rp_handle := 0; rp_value := 0; rp_out := [] |} b tr) ->
  (c = false -> forall b tr, I b tr -> Q tt b tr) -> triple E I (refuse_if c err) R Q.
Proof. intros H1 H2. unfold refuse_if. destruct c; [apply t_refuse|apply t_ret]; auto. Qed.

(** An assertion every step keeps. *)
Lemma t_pure {A} (P : Prop) (I : assn) (m : M A) R Q : (P -> triple E I m R Q) -> triple E (fun b tr => P /\ I b tr) m R Q.
Proof. intros H s r s' [Hp Hs] Hm. exact (H Hp s r s' Hs Hm). Qed.

Lemma t_exists {A B} (I : B -> assn) (m : M A) R Q :
  (forall x, triple E (I x) m R Q) -> triple E (fun b tr => exists x, I x b tr) m R Q.
Proof. intros H s r s' [x Hs] Hm. exact (H x s r s' Hs Hm). Qed.

End Rules.

End BrokerLogic.

Module BrokerProps.
Import BrokerLogic SessionProps.

Section WithAbi.
Context `{Abi : IavAbi} `{Lay : ArgLayout} (pol : policy).

(** ** What a request relies on

    The other threads never change what the set-up fixed (configuration, windows, pool), never drop a reference they do not hold, and keep a session
    that a request holds: [held_session_stable] shows this of the critical sections of the broker. *)

(** What the set-up of the server fixes. *)
Definition br_rest (b : broker) : broker_cfg * list broker_window * option guest_pool := (br_cfg b, br_windows b, br_pool b).

Definition refs_ok (b : broker) : Prop :=
  length (br_sess b) = IAV_BROKER_MAX_SESSIONS /\ forall i, 0 <= se_refs (sess_at b i).

Definition held (b : broker) (i : nat) : Prop :=
  (i < length (br_sess b))%nat /\ se_in_use (sess_at b i) = true /\ 0 < se_refs (sess_at b i).

Record rely (E : env) : Prop := {
  rl_cfg : forall n b, br_rest (ev_other E n b) = br_rest b;
  rl_aperture : forall n cid ap, ev_aperture_of E n cid = Some ap -> Forall (fun a => is_u64 (ax_len a)) (ap_entries ap);
  rl_refs : forall n b, refs_ok b -> refs_ok (ev_other E n b);
  rl_held : forall n b i, held b i ->
    held (ev_other E n b) i /\ same_session (sess_at b i) (sess_at (ev_other E n b) i) }.

(** ** One critical section at a time *)

Lemma sess_at_put b i j y :
  (i < length (br_sess b))%nat -> sess_at (put_sess b i y) j = if decide (j = i) then y else sess_at b j.
Proof.
  intros Hi. destruct (decide (j = i)) as [->|Hne].
  - by apply (sess_at_eq b (put_sess b i y) i y).
  - by apply (sess_at_ne b (put_sess b i y) j i y).
Qed.

Lemma sess_at_same b b' i : br_sess b' = br_sess b -> sess_at b' i = sess_at b i.
Proof. intros H. unfold sess_at. by rewrite H. Qed.

Lemma refs_ok_same b b' : br_sess b' = br_sess b -> refs_ok b -> refs_ok b'.
Proof. intros H [Hl Hr]. split; [by rewrite H|]. intros i. by rewrite (sess_at_same b). Qed.

Lemma refs_ok_put b i y : (i < length (br_sess b))%nat -> 0 <= se_refs y -> refs_ok b -> refs_ok (put_sess b i y).
Proof.
  intros Hi Hy [Hl Hr]. split; [by cbn; rewrite length_insert|]. intros j. rewrite sess_at_put by done. by destruct (decide (j = i)).
Qed.

Lemma cid_state_cfg now cid b : br_rest (snd (cid_state now cid b)) = br_rest b.
Proof. unfold cid_state. destruct (find_idx _ _); [done|]. by destruct (match find_idx _ _ with Some _ => _ | None => _ end). Qed.

Lemma free_cfg now i b : br_rest (snd (session_free_locked now i b)) = br_rest b.
Proof.
  unfold session_free_locked. pose proof (cid_state_cfg now (se_cid (sess_at b i)) b) as H.
  by destruct (cid_state now (se_cid (sess_at b i)) b) as [[k|] b1].
Qed.

Lemma free_refs now i b : (i < length (br_sess b))%nat -> refs_ok b -> refs_ok (snd (session_free_locked now i b)).
Proof.
  intros Hi Hok. apply (refs_ok_same (put_sess b i (freed (sess_at b i)))); [by rewrite free_sess|].
  apply refs_ok_put; [done| |done]. apply Hok.
Qed.

Lemma acquire_sect now cid h b i b' :
  refs_ok b -> session_acquire now cid h b = (inr i, b') ->
  br_rest b' = br_rest b /\ refs_ok b' /\ held b' i.
Proof.
  intros Hok Ha. unfold session_acquire in Ha. cbv zeta in Ha.
  destruct ((h =? 0) || (Z.land h HANDLE_INDEX_MASK =? 0) || _) eqn:Er; [done|].
  set (j := Z.to_nat _) in Ha. destruct (negb _ || _ || _ || _) eqn:Es; [done|]. destruct (negb (se_cid _ =? cid)); [done|].
  injection Ha as <- <-. apply orb_false_iff in Er as [Er1 Er2]. apply orb_false_iff in Er1 as [_ Er1].
  apply Z.eqb_neq in Er1. apply Z.ltb_ge in Er2. pose proof Hok as [Hl Hr].
  assert (Hj : (j < length (br_sess b))%nat).
  { rewrite Hl. unfold j, IAV_BROKER_MAX_SESSIONS in *.
    assert (0 <= Z.land h HANDLE_INDEX_MASK) by (apply Z.land_nonneg; right; done). lia. }
  apply orb_false_iff in Es as [Es _]. apply orb_false_iff in Es as [Es _]. apply orb_false_iff in Es as [_ Hu].
  apply negb_false_iff in Hu. specialize (Hr j).
  split; [done|]. split; [apply refs_ok_put; [done|cbn; lia|done]|]. unfold held. rewrite sess_at_put, decide_True by done.
  split; [cbn; by rewrite length_insert|]. cbn. split; [done|lia].
Qed.

Lemma acquire_fail now cid h b e b' : session_acquire now cid h b = (inl e, b') -> b' = b.
Proof.
  unfold session_acquire. destruct (_ || _ || _); [by intros [= _ <-]|]. destruct (negb _ || _ || _ || _); [by intros [= _ <-]|].
  destruct (negb _); [by intros [= _ <-]|done].
Qed.

Lemma release_sect now i b fds b' :
  refs_ok b -> held b i -> session_release now i b = (fds, b') -> br_rest b' = br_rest b /\ refs_ok b'.
Proof.
  intros Hok (Hi & _ & Hp). unfold session_release. set (y := set_refs _ _).
  assert (Hput : refs_ok (put_sess b i y)) by (apply refs_ok_put; [done|cbn; lia|done]).
  destruct (se_closing y && (se_refs y =? 0)); [|by intros [= _ <-]].
  destruct (session_free_locked now i (put_sess b i y)) as [fd b2] eqn:Ef. intros [= _ <-].
  apply (f_equal snd) in Ef. cbn [snd] in Ef. subst b2. split; [by rewrite free_cfg|].
  apply free_refs; [cbn; by rewrite length_insert|done].
Qed.

Lemma close_sect now i b fds b' :
  refs_ok b -> held b i -> session_close now i true b = (fds, b') -> br_rest b' = br_rest b /\ refs_ok b'.
Proof.
  intros Hok (Hi & _ & Hp). unfold session_close. set (y := set_refs _ _).
  assert (Hput : refs_ok (put_sess b i y)) by (apply refs_ok_put; [done|cbn; lia|done]).
  destruct (se_refs y =? 0); [|by intros [= _ <-]].
  destruct (session_free_locked now i (put_sess b i y)) as [fd b2] eqn:Ef. intros [= _ <-].
  apply (f_equal snd) in Ef. cbn [snd] in Ef. subst b2. split; [by rewrite free_cfg|].
  apply free_refs; [cbn; by rewrite length_insert|done].
Qed.

Lemma reserve_sect now cid b r b' :
  refs_ok b -> open_reserve now cid b = (r, b') ->
  br_rest b' = br_rest b /\ refs_ok b' /\ forall i, r = inr i -> (i < length (br_sess b'))%nat.
Proof.
  intros Hok. unfold open_reserve. pose proof (cid_state_cfg now cid b) as Hc. pose proof (cid_state_sess now cid b) as Hs.
  destruct (cid_state now cid b) as [[k|] b1]; cbn in Hc, Hs;
    [|intros [= <- <-]; split; [done|split; [by apply (refs_ok_same b)|done]]].
  destruct (_ <=? _); [intros [= <- <-]; split; [done|split; [by apply (refs_ok_same b)|done]]|].
  destruct (find_idx _ _) as [j|] eqn:Ef; [|intros [= <- <-]; split; [done|split; [by apply (refs_ok_same b)|done]]].
  intros [= <- <-]. apply find_idx_Some in Ef as (y & Hy & _). apply lookup_lt_Some in Hy.
  split; [done|]. split.
  - eapply (refs_ok_same (put_sess b1 j _)); [done|]. apply refs_ok_put; [done|done|by apply (refs_ok_same b)].
  - intros i [= <-]. cbn. by rewrite length_insert.
Qed.

(** ** Assertions that only speak of the sessions, the configuration and the events *)

Record lax (E : env) (J : assn) : Prop := {
  lx_other : forall n b tr, J b tr -> J (ev_other E n b) tr;
  lx_upd : forall b b' tr, br_sess b' = br_sess b -> br_rest b' = br_rest b -> J b tr -> J b' tr }.

Definition steady (E : env) (J : assn) : Prop := forall n b tr, J b tr -> J (ev_other E n b) tr.

Section Steady.
Context (E : env) (J : assn) (HJ : steady E J).

Lemma st_reading {A} (f : broker -> A) R : triple E J (reading f) R (fun _ => J).
Proof. apply t_reading. intros n b tr H. by apply HJ. Qed.

Lemma st_effective cid R :
  triple E J (effective_profile cid) R
    (fun p b tr => (p = IAV_PROFILE_PRIMARY /\ (exists n, ev_is_primary E n cid = true) \/ p = cf_profile (br_cfg b)) /\ J b tr).
Proof.
  unfold effective_profile. eapply (t_bind _ _ _ _ _ (fun p b tr => (p = true -> exists n, ev_is_primary E n cid = true) /\ J b tr)).
  - apply t_ask. intros n b tr H. split; [|done]. intros Hp. by exists n.
  - intros p. destruct p.
    + apply t_ret. intros b tr [Hp H]. split; [left; auto|done].
    + apply t_reading. intros n b tr [_ H]. split; [by right|]. by apply HJ.
Qed.

Lemma st_ask {A} (f : env -> nat -> A) R : triple E J (ask f) R (fun _ => J).
Proof. by apply t_ask. Qed.

Lemma st_slice cid R : triple E J (arena_slice cid) R (fun _ => J).
Proof.
  eapply t_bind; [apply st_reading|]. intros [p|]; [|by apply t_ret]. destruct (pool_usable p); [|by apply t_ret].
  eapply t_bind; [apply st_ask|]. intros w. by apply t_ret.
Qed.

End Steady.

Section Lax.
Context (E : env) (J : assn) (HJ : lax E J).

Lemma lax_reading {A} (f : broker -> A) R : triple E J (reading f) R (fun _ => J).
Proof. apply st_reading. exact (lx_other _ _ HJ). Qed.

Lemma lax_ask {A} (f : env -> nat -> A) R : triple E J (ask f) R (fun _ => J).
Proof. by apply t_ask. Qed.

Lemma lax_count f R : triple E J (count_up f) R (fun _ => J).
Proof.
  apply t_locked. intros n b tr a b' H [= _ <-]. eapply (lx_upd _ _ HJ); [..|by apply (lx_other _ _ HJ n)]; done.
Qed.

Lemma lax_hello cid R : triple E J (hello_copy cid) R (fun _ => J).
Proof. apply lax_reading. Qed.

Lemma lax_effective' cid R : triple E J (effective_profile cid) R (fun _ => J).
Proof. eapply t_conseq; [apply (st_effective E J (lx_other _ _ HJ) cid R)|done|]. by intros a b tr [_ H]. Qed.

Lemma lax_aperture cid R : triple E J (aperture_of cid) R (fun _ => J).
Proof. eapply t_bind; [apply lax_ask|]. intros a. by apply t_ret. Qed.

Lemma lax_slice cid R : triple E J (arena_slice cid) R (fun _ => J).
Proof. apply st_slice. exact (lx_other _ _ HJ). Qed.

Lemma lax_refuse_if c err (R : rsp -> assn) : (forall p b tr, J b tr -> R p b tr) -> triple E J (refuse_if c err) R (fun _ => J).
Proof. intros H. apply t_refuse_if; auto. Qed.

(** Looking at the partitions on a descriptor, for an assertion that lets their queries be. *)
Context (fd : Z) (HQ : forall b tr cmd, J b tr -> J b (tr ++ [EvQuery fd cmd])).

Lemma lax_query cmd R : triple E J (emit [EvQuery fd cmd]) R (fun _ => J).
Proof. apply t_emit. auto. Qed.

Lemma lax_moved pid base len R : triple E J (part_moved pid base len fd) R (fun _ => J).
Proof. eapply t_bind; [apply lax_query|]. intros []. eapply t_bind; [apply lax_ask|]. intros q. by apply t_ret. Qed.

Lemma lax_any_moved parts R : triple E J (any_moved fd parts) R (fun _ => J).
Proof.
  induction parts as [|[[pid base] len] parts IH]; [by apply t_ret|].
  eapply t_bind; [apply lax_moved|]. intros m. eapply t_bind; [apply IH|]. intros r. by apply t_ret.
Qed.

Lemma lax_recheck R : triple E J (recheck_on_fd fd) R (fun _ => J).
Proof.
  unfold recheck_on_fd. eapply t_bind; [apply lax_reading|]. intros ws. eapply t_bind; [apply lax_any_moved|]. intros s1.
  eapply t_bind; [apply lax_reading|]. intros src. eapply t_bind; [apply lax_any_moved|]. intros s2.
  eapply t_bind; [apply lax_reading|]. intros pool. eapply (t_bind _ _ _ _ _ (fun _ => J)).
  { destruct pool; [apply lax_moved|by apply t_ret]. }
  intros s3. apply t_locked. intros n b tr a b' H [= _ <-]. eapply (lx_upd _ _ HJ); [..|by apply (lx_other _ _ HJ n)]; done.
Qed.

End Lax.

(** ** Calls of the driver *)

(** The descriptor of the driver that an event uses. *)
Definition driver_fd (ev : event) : option Z :=
  match ev with EvIoctl fd _ _ | EvQuery fd _ | EvPoll fd _ _ => Some fd | _ => None end.

(** Among the events, the request took with [handle] a session that was open, not closing and of guest [cid], in
    the slot, of the generation and of the epoch the handle names; [fd] is its descriptor. *)
Definition took (cid handle fd : Z) (tr : list event) : Prop :=
  exists epoch i y, EvAcquire handle epoch i y ∈ tr /\
    Z.land handle HANDLE_INDEX_MASK = Z.of_nat i + 1 /\ Z.land (Z.shiftr handle 16) 0xffff = se_gen y /\
    u32 (Z.shiftr handle 32) = epoch /\ se_in_use y = true /\ se_closing y = false /\ se_cid y = cid /\ se_fd y = fd.

Lemma took_app cid h fd tr evs : took cid h fd tr -> took cid h fd (tr ++ evs).
Proof. intros (epoch & i & y & Hin & H). exists epoch, i, y. split; [apply elem_of_app; by left|done]. Qed.

(** A property of each event and of the events before it. *)
Definition each_event (P : list event -> event -> Prop) (tr : list event) : Prop :=
  forall t1 ev t2, tr = t1 ++ ev :: t2 -> P t1 ev.

Lemma each_event_nil P : each_event P [].
Proof. intros [|x t1] ev t2 H; done. Qed.

Lemma each_event_snoc P tr ev : each_event P tr -> P tr ev -> each_event P (tr ++ [ev]).
Proof.
  intros Ht Hev t1 ev' t2 H. destruct t2 as [|x t2 _] using rev_ind.
  - apply app_inj_tail in H as [-> ->]. done.
  - rewrite app_comm_cons, app_assoc in H. apply app_inj_tail in H as [H _]. by apply (Ht t1 ev' t2).
Qed.

(** What a successful acquisition found under the lock. *)
Lemma acquire_took now cid h b i b' :
  refs_ok b -> session_acquire now cid h b = (inr i, b') ->
  forall tr, took cid h (se_fd (sess_at b' i)) (tr ++ [EvAcquire h (br_epoch b') i (sess_at b' i)]).
Proof.
  intros [Hl _] Ha tr. unfold session_acquire in Ha. cbv zeta in Ha.
  destruct ((h =? 0) || (Z.land h HANDLE_INDEX_MASK =? 0) || _) eqn:Er; [done|].
  set (j := Z.to_nat _) in Ha. destruct (negb _ || _ || _ || _) eqn:Es; [done|].
  destruct (Z.eqb_spec (se_cid (sess_at b j)) cid) as [Hcid|]; [|done]. cbn [negb] in Ha. injection Ha as <- <-.
  apply orb_false_iff in Er as [Er1 Er2]. apply orb_false_iff in Er1 as [_ Er1]. apply Z.eqb_neq in Er1. apply Z.ltb_ge in Er2.
  assert (0 <= Z.land h HANDLE_INDEX_MASK) by (apply Z.land_nonneg; right; done).
  assert (Hj : (j < length (br_sess b))%nat) by (rewrite Hl; unfold j, IAV_BROKER_MAX_SESSIONS in *; lia).
  apply orb_false_iff in Es as [Es Hg]. apply orb_false_iff in Es as [Es Hc]. apply orb_false_iff in Es as [He Hu].
  apply negb_false_iff, Z.eqb_eq in He, Hg. apply negb_false_iff in Hu.
  rewrite sess_at_put, decide_True by done. eexists _, j, _. split; [apply elem_of_app; right; left|].
  split; [unfold j; lia|]. done.
Qed.

Section Authorised.
Context (E : env) (HE : rely E) (cid : Z) (b0 : broker).

(** A profile the server gives the guest. *)
Definition role_of (p : iav_profile) : Prop :=
  p = IAV_PROFILE_PRIMARY /\ (exists n, ev_is_primary E n cid = true) \/ p = cf_profile (br_cfg b0).

(** Where the blocks of an arena call lie: in the slice the server gave the guest, admitted against its size. *)
Definition arena_origin (x : arena_xlat) (asked : Z) : Prop :=
  exists pool index h n, br_pool b0 = Some pool /\ pool_usable pool = true /\ ev_slice_of E n cid = Some index /\
    index < gp_slice_count pool /\ arena_cmd asked = true /\ (exists arg, Forall is_u8 arg /\ h = arena_req_of arg) /\
    arena_admit h (gp_slice_bytes pool - PAGE_BYTES) = 0 /\
    x = {| x_pid := gp_partition_id pool; x_index := index; x_slice_off := u64 (index * gp_slice_bytes pool);
           x_blk := take (Z.to_nat (aq_count h)) (aq_blk h) |}.

Definition origin (x : option arena_xlat) (asked : Z) : Prop :=
  match x with Some x => arena_origin x asked | None => True end.

(** The guest's argument with its blocks translated. *)
Definition xlated (x : option arena_xlat) (asked : Z) (orig : list Z) (xl : list Z * list arena_slot * Z) : Prop :=
  match x with
  | None => xl = (orig, [arena_slot0; arena_slot0], 0)
  | Some x => exists buf slots, arena_translate x asked orig = inr (buf, slots) /\ xl = (buf, slots, x_pid x)
  end.

(** The argument of an ioctl in the bytes after the header of a request: behind the block list of an arena call and
    behind the buffer of a slice call. *)
Definition payload (q : iav_req) (bytes : list Z) : list Z :=
  if rq_op q =? AMBA_VIRT_IAV_OP_ARENA then drop SIZEOF_ARENA_REQ bytes
  else if rq_op q =? AMBA_VIRT_IAV_OP_SLICE then drop (Z.to_nat (struct_size SLICE_REQ_FIELDS)) bytes
  else bytes.

(** The argument of the entry's kind. *)
Definition kind_arg (e : iav_policy_entry) (buf : list Z) (value : Z) : ioctl_arg :=
  match e_kind e with IAV_ARG_PTR => ArgBuf buf | IAV_ARG_VALUE => ArgValue value | IAV_ARG_NONE => ArgNone end.

(** The check of the entry, when it has one, admitted the buffer and left [buf]. *)
Definition check_admits (e : iav_policy_entry) (xl : list Z * list arena_slot * Z) (buf : list Z) : Prop :=
  match e_check e with
  | None => buf = fst (fst xl)
  | Some f =>
      exists aux block qs rd inline rc pinned,
        Forall (fun a => is_u64 (snd a)) aux /\
        run_check f (call_of e cid aux (snd (fst xl)) (snd xl) (br_windows b0) block qs rd) (fst (fst xl)) inline = (rc, pinned, buf) /\
        0 <= rc
  end.

(** What the driver gets: the request's own argument, shaped as the entry says, with its blocks translated and
    admitted by the check of the entry. *)
Definition admitted (q : iav_req) (bytes : list Z) (x : option arena_xlat) (e : iav_policy_entry) (arg : ioctl_arg) : Prop :=
  exists h sh xl buf,
    arg_shape e h (bool_decide (is_Some x)) (payload q bytes) (rq_arg_value q) = inr sh /\
    xlated x (rq_cmd q) (sh_buf sh) xl /\ check_admits e xl buf /\ arg = kind_arg e buf (sh_value sh).

(** The request and the bytes after its header; the claim is a property of each use of the driver and of what came before it: anything may be
    asked of a session the request took, apart from an ioctl of its own. *)
Context (q : iav_req) (bytes : list Z) (P : list event -> event -> Prop).
Context (HP : forall t ev, driver_fd ev = None -> P t ev).
Context (HQ : forall t ev fd, driver_fd ev = Some fd -> (forall fd cmd arg, ev <> EvIoctl fd cmd arg) ->
  took cid (rq_handle q) fd t -> P t ev).

Definition base : assn := fun b tr => br_rest b = br_rest b0 /\ refs_ok b /\ each_event P tr.
Definition holding (i : nat) (fd : Z) : assn :=
  fun b tr => base b tr /\ held b i /\ se_fd (sess_at b i) = fd /\ took cid (rq_handle q) fd tr.

Lemma base_lax : lax E base.
Proof.
  split.
  - intros n b tr (Hc & Hr & Ht). split; [by rewrite (rl_cfg _ HE)|]. split; [by apply (rl_refs _ HE)|done].
  - intros b b' tr Hs Hc (Hb & Hr & Ht). split; [by rewrite Hc|]. split; [by apply (refs_ok_same b)|done].
Qed.

Lemma holding_lax i fd : lax E (holding i fd).
Proof.
  split.
  - intros n b tr (Hb & Hh & Hf & Hk). split; [by apply (lx_other _ _ base_lax)|].
    destruct (rl_held _ HE n b i Hh) as [Hh' (_ & _ & _ & Hfd)]. split; [done|]. by rewrite Hfd.
  - intros b b' tr Hs Hc (Hb & (Hl & Hu & Hp) & Hf & Hk). split; [by apply (lx_upd _ _ base_lax b)|].
    unfold held. rewrite (sess_at_same b b') by done. rewrite Hs. done.
Qed.

Lemma base_snoc b tr ev : base b tr -> P tr ev -> base b (tr ++ [ev]).
Proof. intros (Hc & Hr & Ht) He. split; [done|]. split; [done|]. by apply each_event_snoc. Qed.

Lemma base_emit b tr evs : base b tr -> Forall (fun ev => driver_fd ev = None) evs -> base b (tr ++ evs).
Proof.
  intros Hb Hf. revert tr Hb. induction Hf as [|ev evs Hev _ IH]; intros tr Hb; [by rewrite app_nil_r|].
  rewrite (cons_middle ev tr evs), app_assoc. apply IH, base_snoc; [done|by apply HP].
Qed.

Lemma closes_ok fds : Forall (fun ev => driver_fd ev = None) (map EvClose fds).
Proof. induction fds; constructor; auto. Qed.

(** A request that holds a session may use its descriptor. *)
Lemma holding_emit i fd evs b tr :
  Forall (fun ev => driver_fd ev = None \/ driver_fd ev = Some fd /\ forall fd cmd arg, ev <> EvIoctl fd cmd arg) evs ->
  holding i fd b tr -> holding i fd b (tr ++ evs).
Proof.
  intros Hf. revert tr. induction Hf as [|ev evs Hev _ IH]; intros tr H; [by rewrite app_nil_r|].
  rewrite (cons_middle ev tr evs), app_assoc. apply IH. destruct H as (Hb & Hh & Hfd & Hk).
  split; [|split; [done|split; [done|by apply took_app]]]. apply base_snoc; [done|].
  destruct Hev as [Hev|[Hev Hne]]; [by apply HP|by apply (HQ _ _ fd)].
Qed.

Lemma holding_query i fd b tr cmd : holding i fd b tr -> holding i fd b (tr ++ [EvQuery fd cmd]).
Proof. apply holding_emit. constructor; [|constructor]. by right. Qed.

Lemma acquire_holding : triple E base (acquire cid (rq_handle q)) (fun _ => base) (fun i b tr => exists fd, holding i fd b tr).
Proof.
  unfold acquire. eapply (t_bind _ _ _ _ _ (fun r b tr => match r with inl _ => base b tr
    | inr (i, epoch, y) => base b tr /\ held b i /\ se_fd (sess_at b i) = se_fd y /\
        took cid (rq_handle q) (se_fd y) (tr ++ [EvAcquire (rq_handle q) epoch i y]) end)).
  - apply t_locked. intros n b tr r b' Hb Ha. apply (lx_other _ _ base_lax n) in Hb.
    destruct (session_acquire _ _ _ _) as [[e|i] b1] eqn:Eq; injection Ha as <- <-.
    + by apply acquire_fail in Eq as ->.
    + destruct Hb as (Hc & Hr & Ht). destruct (acquire_sect _ _ _ _ _ _ Hr Eq) as (Hc' & Hr' & Hh).
      split; [split; [by rewrite Hc'|done]|]. split; [done|]. split; [done|]. by apply (acquire_took _ _ _ _ _ _ Hr Eq).
  - intros [e|[[i epoch] y]]; [by apply t_refuse|].
    eapply (t_bind _ _ _ _ _ (fun _ b tr => exists fd, holding i fd b tr)); [|intros []; by apply t_ret].
    apply t_emit. intros b tr (Hb & Hh & Hf & Hk). exists (se_fd y). split; [|done]. apply base_snoc; [done|by apply HP].
Qed.

Lemma release_base i fd R : triple E (holding i fd) (release i) R (fun _ => base).
Proof.
  unfold release. eapply (t_bind _ _ _ _ _ (fun _ => base)).
  - apply t_locked. intros n b tr fds b' Hh Hr. apply (lx_other _ _ (holding_lax i fd) n) in Hh as ((Hc & Ho & Ht) & Hh & _).
    destruct (release_sect _ _ _ _ _ Ho Hh Hr) as [Hc' Ho']. split; [by rewrite Hc'|done].
  - intros fds. apply t_emit. intros b tr H. apply base_emit; [done|apply closes_ok].
Qed.

(** The descriptor of the session a request holds, read again. *)
Lemma fd_holding i fd R : triple E (holding i fd) (reading (fun b => se_fd (sess_at b i))) R (fun fd' b tr => fd' = fd /\ holding i fd b tr).
Proof. apply t_reading. intros n b tr H. apply (lx_other _ _ (holding_lax i fd) n) in H. split; [|done]. apply H. Qed.

Lemma checked_holding i fd e aux sh xl block R :
  Forall (fun a => is_u64 (snd a)) aux ->
  triple E (holding i fd) (checked i e cid aux sh (fst (fst xl)) (snd (fst xl)) (snd xl) (br_windows b0) block) R
    (fun c b tr => (0 <= fst (fst c) -> check_admits e xl (snd c)) /\ holding i fd b tr).
Proof.
  intros Haux. unfold checked, check_admits. destruct (e_check e) as [f|]; [|by apply t_ret].
  eapply t_bind; [apply fd_holding|]. intros fd'. apply t_pure. intros ->. eapply (t_bind _ _ _ _ _ (fun _ => holding i fd)).
  { unfold query_on_session. eapply (t_bind _ _ _ _ _ (fun _ => holding i fd)); [|intros []; apply lax_ask].
    apply t_emit. intros b tr. apply holding_emit. repeat (constructor; [by right|]). constructor. }
  intros qs. eapply t_bind; [apply lax_ask|]. intros rd.
  eapply t_bind; [apply lax_ask|]. intros addr.
  apply t_ret. intros b tr H. split; [|done]. intros Hrc. set (c := run_check _ _ _ _) in *.
  eexists aux, block, qs, rd, _, (fst (fst c)), (snd (fst c)). split; [done|]. split; [|done]. rewrite <- !surjective_pairing. reflexivity.
Qed.

Lemma enter_holding i fd x : triple E (holding i fd) (arena_enter cid i x) (fun _ => base) (fun _ => holding i fd).
Proof.
  unfold arena_enter. eapply t_bind; [apply lax_ask|]. intros on. destruct x as [x|]; [|by apply t_ret].
  destruct on; [|by apply t_ret]. eapply t_bind; [apply lax_ask|]. intros ok.
  assert (Hev : forall ev, driver_fd ev = None -> triple E (holding i fd) (emit [ev]) (fun _ => base) (fun _ => holding i fd)).
  { intros ev Hev. apply t_emit. intros b tr. apply holding_emit. constructor; [by left|constructor]. }
  destruct ok.
  - eapply t_bind; [by apply Hev|]. intros []. eapply t_bind; [apply lax_ask|]. intros w.
    destruct (bool_decide (w = Some (x_index x))); [by apply t_ret|].
    eapply t_bind; [by apply Hev|]. intros []. eapply t_bind; [apply release_base|]. intros []. by apply t_refuse.
  - eapply t_bind; [apply release_base|]. intros []. by apply t_refuse.
Qed.

Lemma run_holding i fd e buf value R :
  (forall t, took cid (rq_handle q) fd t -> P t (EvIoctl fd (e_cmd e) (kind_arg e buf value))) ->
  triple E (holding i fd) (run_ioctl i e buf value) R (fun _ => holding i fd).
Proof.
  intros Hev. unfold run_ioctl. eapply t_bind; [apply fd_holding|]. intros fd'. apply t_pure. intros ->. cbv zeta.
  eapply (t_bind _ _ _ _ _ (fun _ => holding i fd)).
  - apply t_emit. intros b tr (Hb & Hh & Hf & Hk). split; [|split; [done|split; [done|by apply took_app]]].
    apply base_snoc; [done|by apply Hev].
  - intros []. eapply t_bind; [apply lax_ask|]. intros [[rc errno] after]. by apply t_ret.
Qed.

Lemma on_session_base i fd cmd e x sh aux block xl :
  Forall (fun a => is_u64 (snd a)) aux ->
  (forall t buf, took cid (rq_handle q) fd t -> check_admits e xl buf -> P t (EvIoctl fd (e_cmd e) (kind_arg e buf (sh_value sh)))) ->
  triple E (holding i fd) (ioctl_on_session cid cmd e x sh aux (br_windows b0) block xl i) (fun _ => base) (fun _ => base).
Proof.
  intros Haux Hev. unfold ioctl_on_session. destruct xl as [[buf slots] apid].
  eapply t_bind; [by apply (checked_holding i fd e aux sh (buf, slots, apid))|]. intros [[cerr pinned] buf1]. apply t_pure. intros Hans.
  destruct (Z.ltb_spec cerr 0) as [Hneg|Hpos].
  - eapply t_bind; [apply release_base|]. intros []. eapply (t_bind _ _ _ _ _ (fun _ => base)).
    { destruct pinned; [apply (lax_count E _ base_lax)|by apply t_ret]. }
    intros []. by apply t_refuse.
  - eapply t_bind; [apply enter_holding|]. intros on. eapply t_bind.
    { apply (run_holding i fd e buf1 (sh_value sh)). intros t Hk. apply Hev; [done|by apply Hans]. }
    intros [[rc err] after]. eapply (t_bind _ _ _ _ _ (fun _ => holding i fd)).
    { destruct on; [|by apply t_ret]. apply t_emit. intros b tr. apply holding_emit.
      destruct x; [constructor; [by left|]|]; constructor. }
    intros []. eapply (t_bind _ _ _ _ _ (fun _ => holding i fd)).
    { destruct x; [apply (lax_count E _ (holding_lax i fd))|by apply t_ret]. }
    intros []. eapply (t_bind _ _ _ _ _ (fun _ => holding i fd)).
    { destruct ((0 <=? rc) && _); [|by apply t_ret]. eapply t_bind; [apply fd_holding|]. intros fd'. apply t_pure. intros ->.
      eapply t_bind; [apply (lax_recheck E _ (holding_lax i fd) fd (holding_query i fd))|]. intros s. by apply t_ret. }
    intros []. eapply t_bind; [apply release_base|]. intros []. by apply t_ret.
Qed.

(** [I] is what is known when the request starts its work, before the test of the windows. *)
Context (I : assn) (HI : steady E I) (Hbase : forall b tr, I b tr -> base b tr).

(** What an ioctl of the request went through; [X] is what is known of its arena blocks. *)
Context (X : option arena_xlat -> Prop).

Definition went_through (t : list event) (e : iav_policy_entry) (fd : Z) (arg : ioctl_arg) : Prop :=
  exists x, policy_entry pol (rq_cmd q) = Some e /\ (origin x (rq_cmd q) /\ X x) /\ admitted q bytes x e arg /\
  took cid (rq_handle q) fd t /\
  (exists prof, role_of prof /\ has_flag (e_profiles e) (IAV_PROFILE_BIT prof) = true) /\
  (exists b tr, I b tr /\ br_stale b && has_flag (e_flags e) IAV_F_WINDOW = false).

Context (HIo : forall t e fd arg, went_through t e fd arg -> P t (EvIoctl fd (e_cmd e) arg)).

Lemma Forall_u8_zeros n : Forall is_u8 (repeat 0 n).
Proof. apply Forall_forall. intros z Hz. apply list_elem_of_In, repeat_spec in Hz as ->. done. Qed.

Lemma fill_bytes arg : Forall is_u8 arg -> Forall is_u8 (fill arg).
Proof. intros H. apply Forall_app. split; [done|apply Forall_u8_zeros]. Qed.

Lemma clear_bytes e size buf : Forall is_u8 buf -> Forall is_u8 (clear_unaudited e size buf).
Proof.
  intros Hf. unfold clear_unaudited. destruct (_ && _); [|done]. apply Forall_app. split; [by apply Forall_take|].
  apply Forall_app. split; [apply Forall_u8_zeros|by apply Forall_drop].
Qed.

Lemma shape_bytes e h a arg v sh : Forall is_u8 arg -> arg_shape e h a arg v = inr sh -> Forall is_u8 (sh_buf sh).
Proof.
  intros Hb. unfold arg_shape. cbv zeta. pose proof (fill_bytes arg Hb) as Hf. pose proof (fill_bytes [] (Forall_nil_2 _)) as H0.
  destruct (e_kind e); repeat case_match; intros Hs; try done; injection Hs as <-; cbn [sh_buf]; try done; by apply clear_bytes.
Qed.

Lemma do_ioctl_base x :
  origin x (rq_cmd q) -> X x ->
  triple E I (do_ioctl pol cid (rq_handle q) (rq_cmd q) (rq_arg_value q) (payload q bytes) x) (fun _ => base) (fun _ => base).
Proof.
  intros Horigin HX. unfold do_ioctl. set (cmd := rq_cmd q) in *.
  destruct (policy_entry pol cmd) as [e|] eqn:He; [|by apply t_refuse].
  eapply (t_bind _ _ _ _ _ (fun p b tr => role_of p /\ I b tr)).
  { eapply t_conseq; [apply (st_effective E _ HI)|done|]. intros p b tr [Hp Hi]. split; [|done].
    destruct Hp as [Hp|Hp]; [by left|right]. destruct (Hbase _ _ Hi) as (Hc & _). injection Hc as Hc _ _. by rewrite <- Hc. }
  intros prof. apply t_pure. intros Hrole.
  eapply (t_bind _ _ _ _ _ (fun _ b tr => has_flag (e_profiles e) (IAV_PROFILE_BIT prof) = true /\ I b tr)).
  { apply t_refuse_if; [auto|]. intros Hf b tr H. by apply negb_false_iff in Hf. }
  intros []. apply t_pure. intros Hflag. eapply t_bind; [apply (st_reading E _ HI)|]. intros hello.
  destruct (arg_shape e hello (bool_decide (is_Some x)) (payload q bytes) (rq_arg_value q)) as [err|sh] eqn:Hsh; [by apply t_refuse|].
  eapply (t_bind _ _ _ _ _ (fun hit b tr => (hit = false -> exists b0 tr0, I b0 tr0 /\ br_stale b0 && has_flag (e_flags e) IAV_F_WINDOW = false) /\ base b tr)).
  { apply t_locked. intros n b tr a b' Hb [= <- <-]. apply (HI n) in Hb. split; [eauto|]. apply Hbase in Hb.
    destruct (br_stale _ && _); [|done]. by apply (lx_upd _ _ base_lax (ev_other E n b)). }
  intros hit. apply t_pure. intros Hseen. eapply (t_bind _ _ _ _ _ (fun _ b tr => hit = false /\ base b tr)).
  { by apply t_refuse_if. }
  intros []. apply t_pure. intros ->. specialize (Hseen eq_refl).
  eapply (t_bind _ _ _ _ _ (fun aux b tr => Forall (fun a => is_u64 (snd a)) aux /\ base b tr)).
  { destruct (has_flag (e_flags e) IAV_F_WINDOW); [|by apply t_ret].
    eapply (t_bind _ _ _ _ _ (fun ap b tr => Forall (fun a => is_u64 (ax_len a)) (ap_entries ap) /\ base b tr)).
    - unfold aperture_of. eapply (t_bind _ _ _ _ _ (fun r b tr => (forall ap, r = Some ap -> Forall (fun a => is_u64 (ax_len a)) (ap_entries ap)) /\ base b tr)).
      + apply t_ask. intros n b tr H. split; [|done]. intros ap. apply (rl_aperture _ HE).
      + intros r. apply t_ret. intros b tr [Hr H]. split; [|done]. destruct r as [ap|]; [|constructor].
        destruct (aperture_ok ap); [by apply Hr|constructor].
    - intros ap. apply t_ret. intros b tr [Ha H]. split; [|done]. by apply Forall_map. }
  intros aux. apply t_pure. intros Haux.
  eapply (t_bind _ _ _ _ _ (fun xl b tr => xlated x cmd (sh_buf sh) xl /\ base b tr)).
  { unfold xlate. destruct x as [x|]; [|by apply t_ret]. eapply t_bind; [by apply lax_refuse_if|]. intros [].
    destruct (arena_translate x cmd (sh_buf sh)) as [err|[buf slots]] eqn:Ex.
    - eapply t_bind; [apply (lax_count E _ base_lax)|]. intros []. by apply t_refuse.
    - apply t_ret. intros b tr H. split; [|done]. by exists buf, slots. }
  intros xl. apply t_pure. intros Hxl.
  eapply (t_bind _ _ _ _ _ (fun c b tr => fst c = br_windows b0 /\ base b tr)).
  { apply t_reading. intros n b tr H. apply (lx_other _ _ base_lax n) in H. split; [|done].
    destruct H as (Hc & _). by injection Hc. }
  intros [ws block]. apply t_pure. cbn [fst snd]. intros ->.
  eapply t_bind; [apply acquire_holding|]. intros i. apply t_exists. intros fd.
  apply (on_session_base i fd cmd e x sh aux block xl); [done|].
  intros t buf Hk Hadm. apply HIo. exists x. split; [done|]. split; [done|]. split; [by exists hello, sh, xl, buf|].
  split; [done|]. split; [|done]. by exists prof.
Qed.

Lemma from_base {A} (m : M A) : triple E base m (fun _ => base) (fun _ => base) -> triple E I m (fun _ => base) (fun _ => base).
Proof. intros H. by apply (t_conseq E I base m _ _ (fun _ => base)). Qed.

Lemma admission_keeps :
  Forall is_u8 bytes ->
  triple E I (arena_admission cid q bytes) (fun _ => base)
    (fun r b tr => (forall x, r = inr x -> arena_origin x (rq_cmd q)) /\ I b tr).
Proof.
  intros Hbytes. unfold arena_admission. destruct (Nat.ltb _ _); [by apply t_ret|]. cbv zeta.
  eapply t_bind; [apply (st_reading E _ HI)|]. intros hello. destruct (negb _ || negb _); [by apply t_ret|].
  eapply (t_bind _ _ _ _ _ (fun _ => I)).
  { eapply t_conseq; [apply (st_effective E _ HI)|done|]. by intros p b tr [_ Hi]. }
  intros prof. destruct (is_consumer prof || negb (arena_cmd (rq_cmd q))) eqn:Ecmd; [by apply t_ret|].
  apply orb_false_iff in Ecmd as [_ Ecmd]. apply negb_false_iff in Ecmd.
  eapply (t_bind _ _ _ _ _ (fun r b tr => (forall pool index, r = Some (pool, index) -> br_pool b0 = Some pool /\
    pool_usable pool = true /\ index < gp_slice_count pool /\ exists n, ev_slice_of E n cid = Some index) /\ I b tr)).
  { unfold arena_slice. eapply (t_bind _ _ _ _ _ (fun p b tr => p = br_pool b0 /\ I b tr)).
    { apply t_reading. intros n b tr H. apply (HI n) in H. split; [|done]. destruct (Hbase _ _ H) as (Hc & _). by injection Hc. }
    intros p. apply t_pure. intros ->. destruct (br_pool b0) as [p|]; [|by apply t_ret].
    destruct (pool_usable p) eqn:Ep; [|by apply t_ret].
    eapply (t_bind _ _ _ _ _ (fun w b tr => (forall i, w = Some i -> exists n, ev_slice_of E n cid = Some i) /\ I b tr)).
    { apply t_ask. intros n b tr H. split; [|done]. intros i Hi. by exists n. }
    intros w. apply t_ret. intros b tr [Hw H]. split; [|done]. intros pool index. destruct w as [i|]; [|done].
    destruct (Z.leb_spec (gp_slice_count p) i); [done|]. intros [= <- <-]. split; [done|]. split; [done|]. split; [done|]. by apply Hw. }
  intros sl. apply t_ret. intros b tr [Hsl H]. split; [|done]. intros x. destruct sl as [[pool index]|]; [|done].
  destruct (Z.eqb_spec (arena_admit (arena_req_of bytes) (gp_slice_bytes pool - PAGE_BYTES)) 0) as [Ha|]; [|done].
  intros [= <-]. destruct (Hsl pool index eq_refl) as (H1 & H2 & H3 & n & H4).
  exists pool, index, (arena_req_of bytes), n. do 5 (split; [done|]). split; [by exists bytes|done].
Qed.

Lemma op_arena_base :
  rq_op q = AMBA_VIRT_IAV_OP_ARENA -> Forall is_u8 bytes -> (forall x, X (Some x)) ->
  triple E I (op_arena pol cid q bytes) (fun _ => base) (fun _ => base).
Proof.
  intros Hop Hb HX. unfold op_arena. eapply t_bind; [by apply admission_keeps|]. intros r. apply t_pure. intros Hx.
  destruct r as [err|x].
  - apply from_base. eapply t_bind; [apply (lax_count E _ base_lax)|]. intros []. by apply t_refuse.
  - replace (drop SIZEOF_ARENA_REQ bytes) with (payload q bytes) by (unfold payload; by rewrite Hop).
    apply do_ioctl_base; [by apply Hx|done].
Qed.

Lemma op_slice_base :
  rq_op q = AMBA_VIRT_IAV_OP_SLICE -> X None -> triple E I (op_slice pol cid q bytes) (fun _ => base) (fun _ => base).
Proof.
  intros Hop HX. unfold op_slice. destruct (_ <? _); [by apply t_refuse|]. cbv zeta. eapply t_bind; [apply (st_reading E _ HI)|]. intros pool.
  eapply t_bind; [apply (st_ask E _)|]. intros w. destruct pool as [pool|]; [|by apply t_refuse]. destruct w as [w|]; [|by apply t_refuse].
  destruct (virt_iav_guest_slice_admit pool _); [by apply t_refuse|].
  replace (drop (Z.to_nat (struct_size SLICE_REQ_FIELDS)) bytes) with (payload q bytes) by (unfold payload; by rewrite Hop).
  by apply do_ioctl_base.
Qed.

Lemma op_poll_base : triple E base (op_poll cid q) (fun _ => base) (fun _ => base).
Proof.
  unfold op_poll. cbv zeta. eapply t_bind; [by apply lax_refuse_if|]. intros [].
  eapply t_bind; [apply acquire_holding|]. intros i. apply t_exists. intros fd.
  eapply t_bind; [apply fd_holding|]. intros fd'. apply t_pure. intros ->. eapply (t_bind _ _ _ _ _ (fun _ => holding i fd)).
  { apply t_emit. intros b tr. apply holding_emit. constructor; [by right|constructor]. }
  intros []. eapply t_bind; [apply lax_ask|]. intros [[n errno] revents]. eapply t_bind; [apply release_base|]. intros []. by apply t_ret.
Qed.

Lemma op_close_base : triple E base (op_close cid q) (fun _ => base) (fun _ => base).
Proof.
  unfold op_close. eapply t_bind; [apply acquire_holding|]. intros i. apply t_exists. intros fd.
  eapply (t_bind _ _ _ _ _ (fun _ => base)).
  - apply t_locked. intros n b tr fds b' Hh Hr. apply (lx_other _ _ (holding_lax i fd) n) in Hh as ((Hc & Ho & Ht) & Hh & _).
    destruct (close_sect _ _ _ _ _ Ho Hh Hr) as [Hc' Ho']. split; [by rewrite Hc'|done].
  - intros fds. eapply (t_bind _ _ _ _ _ (fun _ => base)).
    { apply t_emit. intros b tr H. apply base_emit; [done|apply closes_ok]. }
    intros []. by apply t_ret.
Qed.

Lemma op_open_base : triple E base (op_open cid) (fun _ => base) (fun _ => base).
Proof.
  unfold op_open.
  eapply (t_bind _ _ _ _ _ (fun r b tr => (forall i, r = inr i -> (i < IAV_BROKER_MAX_SESSIONS)%nat) /\ base b tr)).
  { apply t_locked. intros n b tr r b' Hb Hr. apply (lx_other _ _ base_lax n) in Hb as (Hc & Ho & Ht).
    destruct (reserve_sect _ _ _ _ _ Ho Hr) as (Hc' & Ho' & Hi). pose proof Ho' as [Hl _]. rewrite Hl in Hi.
    split; [done|]. split; [by rewrite Hc'|done]. }
  intros r. apply t_pure. intros Hi. destruct r as [err|i]; [by apply t_refuse|]. specialize (Hi i eq_refl).
  assert (Hlen : forall n b tr, base b tr -> base (ev_other E n b) tr /\ (i < length (br_sess (ev_other E n b)))%nat).
  { intros n b tr Hb. apply (lx_other _ _ base_lax n) in Hb. split; [done|]. destruct Hb as (_ & [Hl _] & _). by rewrite Hl. }
  eapply t_bind; [apply lax_ask|]. intros [errno|fd].
  - eapply (t_bind _ _ _ _ _ (fun _ => base)); [|intros []; by apply t_ret].
    apply t_locked. intros n b tr a b' Hb [= _ <-]. destruct (Hlen n b tr Hb) as [(Hc & Ho & Ht) Hl].
    unfold open_failed. split; [by rewrite free_cfg|]. split; [|done].
    apply free_refs; [cbn; by rewrite length_insert|]. by apply refs_ok_put.
  - eapply (t_bind _ _ _ _ _ (fun _ => base)).
    { apply t_emit. intros b tr H. apply base_snoc; [done|by apply HP]. }
    intros []. eapply (t_bind _ _ _ _ _ (fun _ => base)).
    + apply t_locked. intros n b tr a b' Hb Hd. destruct (Hlen n b tr Hb) as [(Hc & Ho & Ht) Hl]. unfold open_done in Hd.
      set (y := {| se_in_use := _ |}) in Hd. assert (Hput : refs_ok (put_sess (ev_other E n b) i y)) by (by apply refs_ok_put).
      destruct (se_closing (sess_at (ev_other E n b) i)); [|injection Hd as _ <-; done].
      destruct (session_free_locked _ i _) as [cfd b2] eqn:Ef. injection Hd as _ <-.
      apply (f_equal snd) in Ef. cbn [snd] in Ef. subst b2. split; [by rewrite free_cfg|]. split; [|done].
      apply free_refs; [cbn; by rewrite length_insert|done].
    + intros [[ok fds] handle]. eapply (t_bind _ _ _ _ _ (fun _ => base)).
      { apply t_emit. intros b tr H. apply base_emit; [done|apply closes_ok]. }
      intros []. destruct ok; [by apply t_ret|by apply t_refuse].
Qed.

Lemma op_info_base : triple E base (op_info cid q) (fun _ => base) (fun _ => base).
Proof.
  unfold op_info. eapply t_bind; [by apply lax_refuse_if|]. intros []. eapply t_bind; [apply (lax_hello E _ base_lax)|]. intros hello.
  eapply t_bind; [apply (lax_effective' E _ base_lax)|]. intros prof. cbv zeta. eapply t_bind; [apply (lax_reading E _ base_lax)|]. intros o1.
  eapply (t_bind _ _ _ _ _ (fun _ => base)).
  { destruct (_ && _ && _); [|by apply t_ret]. eapply t_bind; [apply lax_aperture|]. intros ap. by apply t_ret. }
  intros o2. eapply (t_bind _ _ _ _ _ (fun _ => base)).
  { destruct (_ && _ && _); [|by apply t_ret]. eapply t_bind; [apply (lax_slice E _ base_lax)|]. intros sl. by apply t_ret. }
  intros o3. by apply t_ret.
Qed.

Lemma hello_commit_base inp prof a1 a2 R :
  triple E base (locked (fun now b => hello_commit cid inp prof a1 a2 now b)) R (fun _ => base).
Proof.
  apply t_locked. intros n b tr a b' Hb Hc. apply (lx_other _ _ base_lax n) in Hb. unfold hello_commit in Hc.
  pose proof (cid_state_cfg (ev_now E n) cid (ev_other E n b)) as H1.
  pose proof (cid_state_sess (ev_now E n) cid (ev_other E n b)) as H2.
  destruct (cid_state _ cid _) as [[k|] b1]; injection Hc as _ <-; by apply (lx_upd _ _ base_lax (ev_other E n b)).
Qed.

Lemma op_hello_base arg : triple E base (op_hello cid q arg) (fun _ => base) (fun _ => base).
Proof.
  unfold op_hello. eapply t_bind; [by apply lax_refuse_if|]. intros []. cbv zeta. eapply t_bind; [by apply lax_refuse_if|]. intros [].
  eapply t_bind; [apply (lax_effective' E _ base_lax)|]. intros prof. cbv zeta. eapply (t_bind _ _ _ _ _ (fun _ => base)).
  { destruct (_ && _); [|by apply t_ret]. eapply t_bind; [apply (lax_slice E _ base_lax)|]. intros sl. by apply t_ret. }
  intros a1. eapply (t_bind _ _ _ _ _ (fun _ => base)).
  { destruct (_ && _); [|by apply t_ret]. eapply t_bind; [apply lax_aperture|]. intros ap. by apply t_ret. }
  intros a2. eapply t_bind; [apply hello_commit_base|]. intros [[g out]|]; [by apply t_ret|by apply t_refuse].
Qed.

Lemma op_map_base : triple E base (op_map cid q) (fun _ => base) (fun _ => base).
Proof.
  unfold op_map. cbv zeta. eapply t_bind; [by apply lax_refuse_if|]. intros [].
  eapply t_bind; [apply acquire_holding|]. intros i. apply t_exists. intros fd.
  eapply t_bind; [apply release_base|]. intros []. do 3 (eapply t_bind; [by apply lax_refuse_if|]; intros []).
  eapply (t_bind _ _ _ _ _ (fun _ => base)).
  { apply t_locked. intros n b tr a b' Hb Hd. apply (lx_other _ _ base_lax n) in Hb.
    destruct (br_stale _); injection Hd as _ <-; [|done]. by apply (lx_upd _ _ base_lax (ev_other E n b)). }
  intros [[]|[w|]]; [by apply t_refuse|..].
  - eapply (t_bind _ _ _ _ _ (fun _ => base)).
    { destruct (window_primary_only (bw_id w)); [apply (lax_effective' E _ base_lax)|by apply t_ret]. }
    intros prof. do 2 (eapply t_bind; [by apply lax_refuse_if|]; intros []). by apply t_ret.
  - unfold map_aux. cbv zeta. eapply t_bind; [apply (lax_hello E _ base_lax)|]. intros hello.
    eapply t_bind; [by apply lax_refuse_if|]. intros []. eapply t_bind; [apply (lax_effective' E _ base_lax)|]. intros prof.
    eapply t_bind; [by apply lax_refuse_if|]. intros []. eapply t_bind; [apply lax_aperture|]. intros ap.
    destruct (List.find _ _) as [a|]; [|by apply t_refuse]. eapply t_bind; [by apply lax_refuse_if|]. intros [].
    eapply t_bind; [apply (lax_count E _ base_lax)|]. intros []. by apply t_ret.
Qed.

Lemma dispatch_base :
  Forall is_u8 bytes -> (forall x, (rq_op q = AMBA_VIRT_IAV_OP_ARENA <-> is_Some x) -> X x) ->
  triple E I (dispatch pol cid q bytes) (fun _ => base) (fun _ => base).
Proof.
  intros Hb HX. unfold dispatch. cbv zeta.
  assert (HN : rq_op q <> AMBA_VIRT_IAV_OP_ARENA -> X None).
  { intros Hne. apply HX. split; [done|]. by intros [? ?]. }
  destruct (_ =? AMBA_VIRT_IAV_OP_OPEN); [destruct (_ =? _); [apply from_base, op_open_base|by apply t_refuse]|].
  destruct (_ =? AMBA_VIRT_IAV_OP_CLOSE); [destruct (_ =? _); [apply from_base, op_close_base|by apply t_refuse]|].
  destruct (Z.eqb_spec (rq_op q) AMBA_VIRT_IAV_OP_IOCTL) as [E3|_].
  { replace bytes with (payload q bytes) by (unfold payload; by rewrite E3). apply do_ioctl_base; [done|apply HN; by rewrite E3]. }
  destruct (_ =? AMBA_VIRT_IAV_OP_MAP); [apply from_base, op_map_base|].
  destruct (_ =? AMBA_VIRT_IAV_OP_POLL); [apply from_base, op_poll_base|].
  destruct (_ =? AMBA_VIRT_IAV_OP_INFO); [apply from_base, op_info_base|].
  destruct (Z.eqb_spec (rq_op q) AMBA_VIRT_IAV_OP_SLICE) as [E7|_]; [apply op_slice_base; [done|apply HN; by rewrite E7]|].
  destruct (_ =? AMBA_VIRT_IAV_OP_HELLO); [apply from_base, op_hello_base|].
  destruct (Z.eqb_spec (rq_op q) AMBA_VIRT_IAV_OP_ARENA) as [E9|_]; [|by apply t_refuse].
  apply op_arena_base; [done|done|]. intros x. by apply HX.
Qed.

(** A request from its start. *)
Context (HIu : forall b b' tr, br_sess b' = br_sess b -> br_rest b' = br_rest b -> br_stale b' = br_stale b -> I b tr -> I b' tr).

Lemma admit_request_same now b a b' :
  admit_request cid now b = (a, b') -> br_sess b' = br_sess b /\ br_rest b' = br_rest b /\ br_stale b' = br_stale b.
Proof.
  unfold admit_request. set (b2 := with_count _ _).
  pose proof (cid_state_cfg now cid b2) as H1. pose proof (cid_state_sess now cid b2) as H2.
  assert (H3 : br_stale (snd (cid_state now cid b2)) = br_stale b).
  { unfold cid_state. destruct (find_idx _ _); [done|]. by destruct (match find_idx _ _ with Some _ => _ | None => _ end). }
  destruct (cid_state now cid b2) as [[k|] b1]; cbn in H1, H2, H3; [|by intros [= _ <-]].
  destruct (rate_check _ _ _) as [rc c]. by intros [= _ <-].
Qed.

Lemma request_base req :
  q = req_of req -> bytes = drop (Z.to_nat SIZEOF_REQ) req -> Forall is_u8 req -> (forall x, (rq_op q = AMBA_VIRT_IAV_OP_ARENA <-> is_Some x) -> X x) ->
  triple E I (request pol cid req) (fun _ => base) (fun _ => base).
Proof.
  intros Hq Hbs Hbytes HX. unfold request. eapply (t_bind _ _ _ _ _ (fun _ => I)).
  { apply t_locked. intros n b tr a b' Hb Ha. apply (HI n) in Hb. apply admit_request_same in Ha as (H1 & H2 & H3).
    by apply (HIu (ev_other E n b)). }
  intros [rc|]; [|by apply t_refuse]. cbv zeta. rewrite <- Hq, <- Hbs.
  assert (Hr : forall c err, triple E I (refuse_if c err) (fun _ => base) (fun _ => I))
    by (intros c err; apply t_refuse_if; auto).
  do 4 (eapply t_bind; [apply Hr|]; intros []). apply dispatch_base; [rewrite Hbs; by apply Forall_drop|done].
Qed.

End Authorised.

(** ** The theorems *)

Lemma rest_steady E b0 : rely E -> steady E (fun b _ => br_rest b = br_rest b0 /\ refs_ok b).
Proof. intros HE n b _ [H1 H2]. split; [by rewrite (rl_cfg _ HE)|by apply (rl_refs _ HE)]. Qed.

(** [request_base] for a claim about each use of the driver. *)
Lemma request_events E cid req s r s' (I : assn) (P : list event -> event -> Prop) :
  let q := req_of req in
  rely E -> Forall is_u8 req -> st_tr s = [] -> request pol cid req E s = (r, s') ->
  steady E I -> (forall b tr, I b tr -> br_rest b = br_rest (st_b s) /\ refs_ok b) ->
  (forall b b' tr, br_sess b' = br_sess b -> br_rest b' = br_rest b -> br_stale b' = br_stale b -> I b tr -> I b' tr) ->
  I (st_b s) [] -> (forall t ev, driver_fd ev = None -> P t ev) ->
  (forall t ev fd, driver_fd ev = Some fd -> (forall fd cmd arg, ev <> EvIoctl fd cmd arg) -> took cid (rq_handle q) fd t -> P t ev) ->
  (forall t e fd arg,
     went_through E cid (st_b s) q (drop (Z.to_nat SIZEOF_REQ) req) I (fun x => rq_op q = AMBA_VIRT_IAV_OP_ARENA <-> is_Some x) t e fd arg ->
     P t (EvIoctl fd (e_cmd e) arg)) ->
  each_event P (st_tr s').
Proof.
  intros q HE Hb Htr Hrun HI Hrest HIu H0 HP HQ HC. set (I' := fun b tr => I b tr /\ each_event P tr).
  assert (Ht : triple E I' (request pol cid req) (fun _ => base (st_b s) P) (fun _ => base (st_b s) P)).
  { apply (request_base E HE cid (st_b s) q (drop (Z.to_nat SIZEOF_REQ) req) P HP HQ I') with (X := fun x => rq_op q = AMBA_VIRT_IAV_OP_ARENA <-> is_Some x); try done.
    - intros n b tr [H1 H2]. split; [by apply HI|done].
    - intros b tr [H1 H2]. destruct (Hrest _ _ H1). done.
    - intros t e fd arg (x & H1 & H2 & H3 & H4 & H5 & b & tr & [H6 _] & H7). apply HC.
      exists x. do 5 (split; [done|]). by exists b, tr.
    - intros b b' tr E1 E2 E3 [H1 H2]. split; [by apply (HIu b)|done]. }
  specialize (Ht s r s'). rewrite Htr in Ht. destruct r; apply Ht; try done; (split; [done|apply each_event_nil]).
Qed.

(** The same for a claim about each ioctl alone. *)
Lemma request_ioctls E cid req s r s' (I : assn) (C : Z -> Z -> ioctl_arg -> Prop) :
  let q := req_of req in
  rely E -> Forall is_u8 req -> st_tr s = [] -> request pol cid req E s = (r, s') ->
  steady E I -> (forall b tr, I b tr -> br_rest b = br_rest (st_b s) /\ refs_ok b) ->
  (forall b b' tr, br_sess b' = br_sess b -> br_rest b' = br_rest b -> br_stale b' = br_stale b -> I b tr -> I b' tr) ->
  I (st_b s) [] ->
  (forall t e fd arg,
     went_through E cid (st_b s) q (drop (Z.to_nat SIZEOF_REQ) req) I (fun x => rq_op q = AMBA_VIRT_IAV_OP_ARENA <-> is_Some x) t e fd arg -> C fd (e_cmd e) arg) ->
  forall fd cmd arg, EvIoctl fd cmd arg ∈ st_tr s' -> C fd cmd arg.
Proof.
  intros q HE Hb Htr Hrun HI Hrest HIu H0 HC fd cmd arg Hin. apply list_elem_of_split in Hin as (t1 & t2 & Hin).
  assert (H : each_event (fun _ ev => match ev with EvIoctl fd cmd arg => C fd cmd arg | _ => True end) (st_tr s')).
  { apply (request_events E cid req s r s' I); try done.
    - by intros t [].
    - intros t ev fd0 _ Hne _. destruct ev; try done. by destruct (Hne fd1 cmd0 arg0). }
  exact (H _ _ _ Hin).
Qed.

(** The entry of a command has its number. *)
Lemma lookup_loop_cmd fuel index cmd lo hi e : lookup_loop fuel index cmd lo hi = Some (Some e) -> e_cmd e = cmd.
Proof.
  revert lo hi. induction fuel as [|fuel IH]; intros lo hi; [done|]. cbn [lookup_loop]. destruct (negb _); [done|].
  destruct (_ !! _) as [e'|]; [|done]. destruct (Z.eqb_spec (e_cmd e') cmd) as [Hc|]; [by intros [= <-]|].
  destruct (_ <? _); apply IH.
Qed.

Lemma policy_entry_cmd cmd e : policy_entry pol cmd = Some e -> e_cmd e = cmd.
Proof.
  unfold policy_entry, iav_policy_lookup. destruct (if pol_ready pol then _ else _) as [rc pol']. destruct (negb _); [done|]. cbn [fst].
  destruct (lookup_loop _ _ _ _ _) as [[e'|]|] eqn:El; [|done..]. intros [= <-]. by eapply lookup_loop_cmd.
Qed.


(** ** Mapping while the windows are stale *)

Section Stale.
Context (E : env) (HE : forall n b, br_stale b = true -> br_stale (ev_other E n b) = true) (cid : Z).

Let J : assn := fun b _ => br_stale b = true.
Let R : rsp -> assn := fun p _ _ => rp_status p <> 0.

Lemma cid_state_stale now c b : br_stale (snd (cid_state now c b)) = br_stale b.
Proof. unfold cid_state. destruct (find_idx _ _); [done|]. by destruct (match find_idx _ _ with Some _ => _ | None => _ end). Qed.

Lemma release_stale now i b : br_stale (snd (session_release now i b)) = br_stale b.
Proof.
  unfold session_release, session_free_locked. destruct (_ && _); [|done]. cbv zeta. set (b1 := put_sess b i _).
  pose proof (cid_state_stale now (se_cid (sess_at b1 i)) b1) as H. by destruct (cid_state _ _ b1) as [[k|] b2].
Qed.

Lemma acquire_stale now h b r b' :
  session_acquire now cid h b = (r, b') -> br_stale b' = br_stale b /\ forall e, r = inl e -> e < 0.
Proof.
  unfold session_acquire, EBADF, ESTALE, EACCES. cbv zeta. repeat case_match; intros [= <- <-]; (split; [done|]); intros e He; try done; injection He as <-; lia.
Qed.

Lemma refused err : 0 < err -> forall b tr, J b tr ->
  R {| rp_status := - err; rp_rc := -1; rp_err := 0; rp_handle := 0; rp_value := 0; rp_out := [] |} b tr.
Proof. intros H b tr _. unfold R. cbn. lia. Qed.

Lemma stale_refuse_if c err : 0 < err -> triple E J (refuse_if c err) R (fun _ => J).
Proof. intros H. apply t_refuse_if; [intros _; by apply refused|done]. Qed.

Lemma stale_map q : triple E J (op_map cid q) R (fun _ _ _ => False).
Proof.
  unfold op_map. cbv zeta. eapply t_bind; [by apply stale_refuse_if|]. intros [].
  eapply (t_bind _ _ _ _ _ (fun _ => J)).
  { unfold acquire. eapply (t_bind _ _ _ _ _ (fun r b tr => (forall e, r = inl e -> e < 0) /\ J b tr)).
    - apply t_locked. intros n b tr r b' Hb Ha. destruct (session_acquire _ _ _ _) as [r1 b1] eqn:Eq. injection Ha as <- <-.
      apply acquire_stale in Eq as [Hs Hr]. split; [|unfold J; rewrite Hs; by apply HE].
      intros e. destruct r1; [|done]. intros [= <-]. by apply Hr.
    - intros r. apply t_pure. intros Hr. destruct r as [e|[[i epoch] y]].
      2:{ eapply (t_bind _ _ _ _ _ (fun _ => J)); [by apply t_emit|]. intros []. by apply t_ret. }
      apply t_refuse. apply refused. specialize (Hr e eq_refl). lia. }
  intros i. eapply (t_bind _ _ _ _ _ (fun _ => J)).
  { unfold release. eapply (t_bind _ _ _ _ _ (fun _ => J)); [|intros fds; by apply t_emit].
    apply t_locked. intros n b tr fds b' Hb Hr. pose proof (release_stale (ev_now E n) i (ev_other E n b)) as H.
    rewrite Hr in H. cbn in H. unfold J. rewrite H. by apply HE. }
  intros []. do 3 (eapply t_bind; [by apply stale_refuse_if|]; intros []).
  eapply (t_bind _ _ _ _ _ (fun w b tr => w = inl tt /\ J b tr)).
  { apply t_locked. intros n b tr w b' Hb Hw. pose proof (HE n b Hb) as Hb'. rewrite Hb' in Hw. injection Hw as <- <-. done. }
  intros w. apply t_pure. intros ->. apply t_refuse. by apply refused.
Qed.

Lemma stale_request req :
  rq_op (req_of req) = AMBA_VIRT_IAV_OP_MAP -> triple E J (request pol cid req) R (fun _ _ _ => False).
Proof.
  intros Hop. unfold request. eapply (t_bind _ _ _ _ _ (fun _ => J)).
  { apply t_locked. intros n b tr a b' Hb Ha. apply admit_request_same in Ha as (_ & _ & H). unfold J. rewrite H. by apply HE. }
  intros [rc|]; [|apply t_refuse; by apply refused]. cbv zeta.
  do 4 (eapply t_bind; [by apply stale_refuse_if|]; intros []). unfold dispatch. rewrite Hop. apply stale_map.
Qed.

End Stale.

(** While the windows are stale (a partition behind a window moved), no ioctl that uses window memory reaches the
    driver and nothing is mapped: every OP_MAP is answered with an error. *)
Theorem stale_windows_stop E cid req s r s' :
  rely E -> (forall n b, br_stale b = true -> br_stale (ev_other E n b) = true) -> Forall is_u8 req ->
  refs_ok (st_b s) -> br_stale (st_b s) = true -> st_tr s = [] -> request pol cid req E s = (r, s') ->
  (forall fd cmd arg, EvIoctl fd cmd arg ∈ st_tr s' ->
   exists e asked, cmd = e_cmd e /\ policy_entry pol asked = Some e /\ has_flag (e_flags e) IAV_F_WINDOW = false) /\
  (rq_op (req_of req) = AMBA_VIRT_IAV_OP_MAP -> exists p, r = inl p /\ rp_status p <> 0).
Proof.
  intros HE Hst Hb Hrefs Hs Htr Hrun. split.
  2:{ intros Hop. pose proof (stale_request E Hst cid req Hop s r s' Hs Hrun) as H. destruct r as [p|]; [by exists p|done]. } pose proof (rest_steady E (st_b s) HE) as HL.
  refine (request_ioctls E cid req s r s' (fun b _ => (br_rest b = br_rest (st_b s) /\ refs_ok b) /\ br_stale b = true) _ HE Hb Htr Hrun _ _ _ _ _); try done.
  - intros n b tr [H1 H3]. split; [by apply (HL n b tr)|by apply Hst].
  - by intros b tr [H _].
  - intros b b' tr E1 E2 E3 [[H1 H2] H3]. split; [|by rewrite E3]. split; [by rewrite E2|by apply (refs_ok_same b)].
  - intros t e fd arg (x & H1 & _ & _ & _ & _ & b & tr & [_ Hb'] & Hf). exists e, (rq_cmd (req_of req)). rewrite Hb' in Hf. done.
Qed.

End WithAbi.
End BrokerProps.
