(* ===== verification/IavArenaCallProps.v ===== *)
(** * Arena calls stay in the caller's slice

    [Module ArenaCallProps]: an OP_ARENA request names blocks of the guest's arena; the broker admits the blocks
    against the slice the server leased to the guest, rewrites the ids and offsets, and lets the policy check the
    result. Composed, these confine every byte the scaler, the copy engine or the cache maintenance touches in the
    pool partition to the guest's own slice less its claim page, the chroma row of an odd output apart
    ([arena_calls_confined]). *)

From stdpp Require Import base list strings.
From Stdlib Require Import ZArith Lia.
From S2P Require Import Prelude ByteBuf IavTable IavTableProps IavPolicy IavPolicyProps IavSession IavWire IavBroker IavBrokerOps IavBrokerProps.

Module ArenaCallProps.
Import PolicyProps BrokerLogic BrokerProps.

(** ** The layout of the three argument structures

    Reading a structure gives fields of their C width, and a structure written back is read again. *)

Definition scale_fits (s : iav_img_scale) : Prop :=
  is_u32 (is_format s) /\ is_u32 (is_output_format s) /\ is_u32 (is_input_win_format s) /\
  is_u32 (sb_pid (is_input_buf s)) /\ buf_ok (is_input_buf s) /\
  is_u32 (sb_pid (is_output_buf s)) /\ buf_ok (is_output_buf s) /\ rect_ok (is_input s) /\ rect_ok (is_output s).

Definition gdma_fits (g : iav_gdma_copy) : Prop :=
  is_u32 (gc_src_mmap_type g) /\ is_u32 (gc_dst_mmap_type g) /\ copy_ok g.

Definition sync_fits (c : iav_sync_cache_mem_part) : Prop :=
  is_u32 (sc_opt c) /\ is_u32 (sc_pid c) /\ is_u64 (sc_offset c) /\ is_u64 (sc_length c).

Class LayoutOk `{Lay : ArgLayout} : Prop := {
  lo_scale_get buf : Forall is_u8 buf -> scale_fits (lget L_img_scale buf);
  lo_scale_put s buf : scale_fits s -> lget L_img_scale (lput L_img_scale s buf) = s;
  lo_gdma_get buf : Forall is_u8 buf -> gdma_fits (lget L_gdma_copy buf);
  lo_gdma_put g buf : gdma_fits g -> lget L_gdma_copy (lput L_gdma_copy g buf) = g;
  lo_sync_get buf : Forall is_u8 buf -> sync_fits (lget L_sync_cache buf);
  lo_sync_put c buf : sync_fits c -> lget L_sync_cache (lput L_sync_cache c buf) = c }.

Section WithAbi.
Context `{Abi : IavAbi} `{Lay : ArgLayout}.

(** ** Admission of the blocks *)

Definition blk_in (usable : Z) (b : arena_blk) : Prop :=
  0 <= bk_offset b /\ 0 < bk_length b /\ bk_offset b + bk_length b <= usable.

Definition blk_fits (b : arena_blk) : Prop := is_u64 (bk_offset b) /\ is_u64 (bk_length b).

Lemma blks_admit_in usable left before blks :
  0 <= usable < 2 ^ 64 -> Forall blk_fits blks -> blks_admit usable left before blks = 0 ->
  Forall (blk_in usable) (take left blks).
Proof.
  intros Hu Hf. revert left before. induction Hf as [|b blks (Ho & Hl) _ IH]; intros left before H; [by rewrite take_nil|].
  destruct left as [|left]; [constructor|]. cbn [take blks_admit] in *. cbv zeta in H.
  destruct (Z.eqb_spec (blk_admit usable before b) 0) as [Eb|]; [|done].
  constructor; [|by eapply IH]. unfold blk_admit, EINVAL, EPERM in Eb. unfold is_u64 in *.
  destruct (negb _ || negb _); [done|]. destruct (Z.eqb_spec (bk_length b) 0); cbn [orb] in Eb; [done|].
  destruct (negb _ || negb _); [done|]. destruct (Z.leb_spec usable (bk_offset b)); cbn [orb] in Eb; [done|].
  rewrite u64_id in Eb by lia. destruct (Z.ltb_spec (usable - bk_offset b) (bk_length b)); [done|]. split; lia.
Qed.

(** ** The translation *)

(** Where the blocks of a translated call lie: [usable] bytes from [x_slice_off]. *)
Record xlat_ok (usable : Z) (x : arena_xlat) : Prop := {
  xo_off : 0 <= x_slice_off x; xo_fit : x_slice_off x + usable < 2 ^ 64;
  xo_blk : Forall (blk_in usable) (x_blk x); xo_pid : is_u32 (x_pid x) /\ x_pid x <> 0 }.

Definition slot_in (usable : Z) (x : arena_xlat) (a : arena_slot) : Prop :=
  a = arena_slot0 \/
  as_valid a = true /\ x_slice_off x <= as_start a /\ 0 < as_len a /\ as_start a + as_len a <= x_slice_off x + usable.

Lemma arena_field_in usable x slot pid o1 o2 t p o1' o2' t' :
  xlat_ok usable x -> Forall (slot_in usable x) (xl_slots t) ->
  arena_field x slot pid o1 o2 t = inr (p, o1', o2', t') ->
  p = x_pid x /\ is_u64 o1' /\ (forall o, o2' = Some o -> is_u64 o) /\ Forall (slot_in usable x) (xl_slots t') /\
  length (xl_slots t') = length (xl_slots t) /\ (o2 = None -> o2' = None).
Proof.
  intros Hx Ht. unfold arena_field. destruct (arena_blk_of x pid) as [k|]; [|done].
  destruct (x_blk x !! k) as [b|] eqn:Eb; [|done]. destruct (_ || _); [done|]. cbv zeta. intros [= <- <- <- <-].
  pose proof (xo_blk _ _ Hx) as Hb. rewrite Forall_lookup in Hb. destruct (Hb k b Eb) as (H1 & H2 & H3).
  pose proof (xo_off _ _ Hx). pose proof (xo_fit _ _ Hx).
  split; [done|]. split; [apply u64_range|]. split.
  { intros o Ho. destruct o2; [|done]. injection Ho as <-. apply u64_range. }
  split; [|split; [cbn; by rewrite length_insert|by intros ->]].
  cbn [xl_slots]. apply Forall_insert; [done|]. right. cbn. rewrite u64_id by lia. split; [done|]. lia.
Qed.

Lemma translate_side_in usable x slot keep pid off t p o t' :
  xlat_ok usable x -> Forall (slot_in usable x) (xl_slots t) -> is_u32 pid -> is_u64 off ->
  translate_side x slot keep pid off t = inr (p, o, t') ->
  is_u32 p /\ is_u64 o /\ Forall (slot_in usable x) (xl_slots t') /\ length (xl_slots t') = length (xl_slots t).
Proof.
  intros Hx Ht Hp Ho. unfold translate_side. destruct (keep || _); [by intros [= <- <- <-]|].
  destruct (arena_field x slot pid off None t) as [e|[[[p1 o1] o2] t1]] eqn:Ef; [done|]. intros [= <- <- <-].
  destruct (arena_field_in _ _ _ _ _ _ _ _ _ _ _ Hx Ht Ef) as (-> & H1 & _ & H2 & H3 & _).
  split; [apply (xo_pid _ _ Hx)|done].
Qed.

Lemma translate_buf_in usable x s (output : bool) t b t' :
  xlat_ok usable x -> Forall (slot_in usable x) (xl_slots t) ->
  (let b := if output then is_output_buf s else is_input_buf s in is_u32 (sb_pid b) /\ buf_ok b) ->
  translate_scale_buf x s output t = inr (b, t') ->
  is_u32 (sb_pid b) /\ buf_ok b /\ Forall (slot_in usable x) (xl_slots t') /\ length (xl_slots t') = length (xl_slots t).
Proof.
  intros Hx Ht Hb. cbv zeta in Hb. unfold translate_scale_buf. set (b0 := if output then is_output_buf s else is_input_buf s) in *.
  destruct Hb as [Hpid (H1 & H2 & H3 & H4)]. destruct (sb_use_phys b0 || _ || _); [by intros [= <- <-]|].
  destruct (arena_field _ _ _ _ _ _) as [e|[[[p1 o1] o2] t1]] eqn:Ef; [done|]. intros [= <- <-].
  destruct (arena_field_in _ _ _ _ _ _ _ _ _ _ _ Hx Ht Ef) as (-> & H5 & H6 & H7 & H8 & _).
  split; [apply (xo_pid _ _ Hx)|]. split; [|done]. split; [done|]. split; [done|]. split; [done|].
  destruct o2 as [o|]; [by apply H6|done].
Qed.

Lemma slots0_in usable x : Forall (slot_in usable x) (xl_slots xlat0).
Proof. repeat constructor. Qed.

Context `{LO : !LayoutOk}.

(** The job of an arena command. *)
Inductive job := JScale | JCopy | JSync.

Definition job_of (cmd : Z) : job :=
  if cmd =? IAV_IOC_SET_IMG_SCALE then JScale else if cmd =? IAV_IOC_GDMA_COPY then JCopy else JSync.

Definition job_fits (j : job) (buf : list Z) : Prop :=
  match j with
  | JScale => scale_fits (lget L_img_scale buf)
  | JCopy => gdma_fits (lget L_gdma_copy buf)
  | JSync => sync_fits (lget L_sync_cache buf)
  end.

Lemma arena_translate_in usable x cmd buf buf' slots :
  xlat_ok usable x -> Forall is_u8 buf -> arena_translate x cmd buf = inr (buf', slots) ->
  Forall (slot_in usable x) slots /\ length slots = 2%nat /\ job_fits (job_of cmd) buf'.
Proof.
  intros Hx Hb. unfold arena_translate, job_fits, job_of. pose proof (slots0_in usable x) as H0.
  destruct (cmd =? IAV_IOC_SET_IMG_SCALE); [|destruct (cmd =? IAV_IOC_GDMA_COPY); [|destruct (cmd =? _); [|done]]].
  - destruct (translate_scale x (lget L_img_scale buf)) as [e|[s t]] eqn:Es; [done|].
    destruct (existsb _ _); [done|]. intros [= <- <-]. unfold translate_scale in Es.
    destruct (lo_scale_get buf Hb) as (F1 & F2 & F3 & F4 & F5 & F6 & F7 & F8 & F9).
    destruct (translate_scale_buf x _ false xlat0) as [e|[bi t1]] eqn:E1; [done|].
    destruct (translate_buf_in usable x (lget L_img_scale buf) false _ _ _ Hx H0 (conj F4 F5) E1) as (A1 & A2 & A3 & A4).
    destruct (translate_scale_buf x _ true t1) as [e|[bo t2]] eqn:E2; [done|].
    destruct (translate_buf_in usable x (lget L_img_scale buf) true _ _ _ Hx A3 (conj F6 F7) E2) as (B1 & B2 & B3 & B4). injection Es as <- <-.
    split; [done|]. split; [by rewrite B4, A4|]. rewrite lo_scale_put; unfold scale_fits; cbn; done.
  - destruct (translate_gdma x (lget L_gdma_copy buf)) as [e|[g t]] eqn:Es; [done|].
    destruct (existsb _ _); [done|]. intros [= <- <-]. unfold translate_gdma in Es.
    destruct (lo_gdma_get buf Hb) as (F1 & F2 & F3 & F4 & F5 & F6 & F7 & F8).
    destruct (translate_side x 0 _ _ _ xlat0) as [e|[[sp so] t1]] eqn:E1; [done|].
    destruct (translate_side_in usable x _ _ _ _ _ _ _ _ Hx H0 F1 F7 E1) as (A1 & A2 & A3 & A4).
    destruct (translate_side x 1 _ _ _ t1) as [e|[[dp d] t2]] eqn:E2; [done|].
    destruct (translate_side_in usable x _ _ _ _ _ _ _ _ Hx A3 F2 F8 E2) as (B1 & B2 & B3 & B4). injection Es as <- <-.
    split; [done|]. split; [by rewrite B4, A4|]. rewrite lo_gdma_put; unfold gdma_fits, copy_ok; cbn; done.
  - destruct (translate_sync x (lget L_sync_cache buf)) as [e|[c t]] eqn:Es; [done|].
    destruct (existsb _ _); [done|]. intros [= <- <-]. unfold translate_sync in Es.
    destruct (lo_sync_get buf Hb) as (F1 & F2 & F3 & F4).
    destruct (translate_side x 0 _ _ _ xlat0) as [e|[[sp so] t1]] eqn:E1; [done|].
    destruct (translate_side_in usable x _ _ _ _ _ _ _ _ Hx H0 F2 F3 E1) as (A1 & A2 & A3 & A4). injection Es as <- <-.
    split; [done|]. split; [done|]. rewrite lo_sync_put; unfold sync_fits; cbn; done.
Qed.

(** ** What a job touches *)

(** Byte [a] of partition [pid] is read or written by the job of the ioctl. The output of a scale is the window
    rounded as the DSP writes it. *)
Inductive job_touches (buf : list Z) : job -> Z -> Z -> Prop :=
| jt_copy_src r c :
    let g := lget L_gdma_copy buf in
    0 <= r < gc_height g -> 0 <= c < gc_width g ->
    job_touches buf JCopy (gc_src_mmap_type g) (gc_src_offset g + r * gc_src_pitch g + c)
| jt_copy_dst r c :
    let g := lget L_gdma_copy buf in
    0 <= r < gc_height g -> 0 <= c < gc_width g ->
    job_touches buf JCopy (gc_dst_mmap_type g) (gc_dst_offset g + r * gc_dst_pitch g + c)
| jt_sync a :
    let c := lget L_sync_cache buf in
    sc_offset c <= a < sc_offset c + sc_length c -> job_touches buf JSync (sc_pid c) a
| jt_scale_in x y w h a :
    let s := lget L_img_scale buf in
    input_window s = Some (x, y, w, h) -> touches (is_format s) (is_input_buf s) x y w h a ->
    job_touches buf JScale (sb_pid (is_input_buf s)) a
| jt_scale_out a :
    let s := lget L_img_scale buf in
    touches (output_format s) (is_output_buf s) (r_x (is_output s)) (r_y (is_output s))
      (round_up64 (r_width (is_output s)) IMG_SCALE_H_ALIGN) (round_up64 (r_height (is_output s)) IMG_SCALE_V_ALIGN) a ->
    job_touches buf JScale (sb_pid (is_output_buf s)) a.

(** Byte [a] is of the chroma row past the plane that a 4:2:0 output reaches when the window ends with the last row of
    a buffer of an odd height: the one row the check of a scale does not bound ([PolicyProps.odd_output_row_outside]). *)
Definition job_odd_row (buf : list Z) (j : job) (a : Z) : Prop :=
  let s := lget L_img_scale buf in
  j = JScale /\ odd_chroma_row (output_format s) (is_output_buf s) (r_x (is_output s)) (r_y (is_output s))
    (round_up64 (r_width (is_output s)) IMG_SCALE_H_ALIGN) (round_up64 (r_height (is_output s)) IMG_SCALE_V_ALIGN) a.

(** The check the policy gives each job. *)
Definition job_check (j : job) : check_fn :=
  match j with JScale => C_check_img_scale | JCopy => C_check_gdma_copy | JSync => C_check_sync_cache end.

Lemma range_in_slice usable x call k lo hi :
  xlat_ok usable x -> Forall (slot_in usable x) (call_arena call) -> call_arena_pid call = x_pid x ->
  buf_range call k (x_pid x) = inr (lo, hi) -> x_slice_off x <= lo /\ hi <= x_slice_off x + usable.
Proof.
  intros Hx Hs Hp. unfold buf_range. rewrite Hp, Z.eqb_refl. destruct (xo_pid _ _ Hx) as [_ Hnz].
  rewrite (proj2 (Z.eqb_neq _ _) Hnz). cbn [negb andb].
  destruct (Nat.leb 2 k || negb (as_valid (call_slot call k)) || _) eqn:E; [done|]. intros [= <- <-].
  apply orb_false_iff in E as [E _]. apply orb_false_iff in E as [_ E]. apply negb_false_iff in E.
  assert (Hk : slot_in usable x (call_slot call k)).
  { unfold call_slot. destruct (call_arena call !! k) as [a|] eqn:Ea; [|by left].
    rewrite Forall_lookup in Hs. by apply (Hs k). }
  destruct Hk as [Hk|(_ & H1 & H2 & H3)]; [rewrite Hk in E; done|].
  pose proof (xo_fit _ _ Hx). pose proof (xo_off _ _ Hx). rewrite u64_id by lia. lia.
Qed.

Lemma slots_call_ok usable x (slots : list arena_slot) k :
  xlat_ok usable x -> Forall (slot_in usable x) slots ->
  let a := default arena_slot0 (slots !! k) in
  0 <= as_start a /\ 0 <= as_len a /\ as_start a + as_len a < 2 ^ 64.
Proof.
  intros Hx Hs. cbv zeta. pose proof (xo_fit _ _ Hx). pose proof (xo_off _ _ Hx).
  destruct (slots !! k) as [a|] eqn:Ea; [|cbn; lia]. rewrite Forall_lookup in Hs.
  change (default arena_slot0 (Some a)) with a. destruct (Hs k a Ea) as [->|(_ & H1 & H2 & H3)]; [cbn; lia|]. lia.
Qed.

Lemma check_sync_range call c a :
  call_ok call -> sync_fits c -> 0 <= check_sync_cache call c -> sc_offset c <= a < sc_offset c + sc_length c ->
  exists lo hi, buf_range call 0 (sc_pid c) = inr (lo, hi) /\ lo <= a < hi.
Proof.
  intros Hok (F1 & F2 & F3 & F4) Hc Ha. unfold check_sync_cache, EPERM, EINVAL in Hc.
  destruct (buf_range call 0 (sc_pid c)) as [e|[lo hi]] eqn:Er; [lia|].
  pose proof (buf_range_inr _ _ _ _ _ Hok Er) as (Hlo & Hhi & _).
  destruct (negb _ && negb _); [lia|]. destruct (_ && _ && _); [lia|]. destruct (_ =? 0); cbn [orb] in Hc; [lia|].
  destruct (span_ok (sc_offset c) (sc_length c) lo hi) eqn:Es; [|cbn [negb] in Hc; lia].
  apply span_ok_iff in Es; [|lia|lia]. exists lo, hi. split; [done|lia].
Qed.

Lemma check_scale_nonneg call s : 0 <= check_img_scale call s -> check_img_scale call s = 0.
Proof.
  assert (Hb : forall k b f, scale_buf_ok call k b f = 0 \/ scale_buf_ok call k b f < 0).
  { intros k b f. unfold scale_buf_ok, EPERM, EINVAL. repeat case_match; lia. }
  unfold check_img_scale, EINVAL. cbv zeta. pose proof (Hb 0%nat (is_input_buf s) (is_format s)) as H0.
  pose proof (Hb 1%nat (is_output_buf s) (output_format s)) as H1.
  destruct (scale_buf_ok call 0 _ _ =? 0) eqn:E0.
  - destruct (negb (scale_buf_ok call 1 _ _ =? 0)); [lia|]. repeat case_match; lia.
  - rewrite E0. cbn [negb]. lia.
Qed.

Lemma check_gdma_nonneg call g : 0 <= check_gdma_copy call g -> check_gdma_copy call g = 0.
Proof.
  unfold check_gdma_copy, gdma_side_ok, EPERM, EINVAL. cbv zeta. repeat case_match; lia.
Qed.

Lemma job_confined usable x j buf slots e cid aux ws block q rd inline rc pinned buf1 :
  xlat_ok usable x -> Forall (slot_in usable x) slots -> job_fits j buf ->
  Forall (fun w => is_u64 (bw_part_len w)) ws -> Forall (fun a => is_u64 (snd a)) aux ->
  IAV_YUV_FORMAT_YUV422 <> IAV_YUV_FORMAT_YUV420 ->
  run_check (job_check j) (call_of e cid aux slots (x_pid x) ws block q rd) buf inline = (rc, pinned, buf1) -> 0 <= rc ->
  buf1 = buf /\ forall pid a, job_touches buf j pid a -> pid = x_pid x ->
    x_slice_off x <= a < x_slice_off x + usable \/ job_odd_row buf j a.
Proof.
  intros Hx Hs Hfit Hws Haux Hne. set (call := call_of _ _ _ _ _ _ _ _ _).
  assert (Hlen : forall id, is_u64 (win_len id ws)).
  { intros id. unfold win_len. assert (H : is_u64 0) by done. revert H. generalize 0.
    induction Hws as [|w ws' Hw _ IH]; intros z Hz; [done|]. cbn. apply IH. by destruct (bw_id w =? id). }
  assert (Hok : call_ok call).
  { split; try apply Hlen; [done|]. intros k. by apply (slots_call_ok usable x). }
  assert (Hr : forall k lo hi, buf_range call k (x_pid x) = inr (lo, hi) -> x_slice_off x <= lo /\ hi <= x_slice_off x + usable)
    by (intros k lo hi; by apply range_in_slice).
  destruct j; cbn [run_check job_check]; intros Hrun Hrc; injection Hrun as <- <- <-; (split; [done|]); intros pid a Ht.
  - apply check_scale_nonneg in Hrc. destruct Hfit as (F1 & F2 & F3 & F4 & F5 & F6 & F7 & F8 & F9).
    destruct (img_scale_ranges call (lget L_img_scale buf)) as (wx & wy & ww & wh & lo & hi & lo' & hi' & Hw & _ & R1 & R2 & Hin & Hout);
      [done..|].
    inversion Ht as [| | |x0 y0 w0 h0 a0 s Hwin Htch|a0 s Htch]; subst; intros Hp.
    + unfold s in *. rewrite Hp in R1. apply Hr in R1. rewrite Hw in Hwin. injection Hwin as <- <- <- <-. specialize (Hin a Htch). left. lia.
    + unfold s in Hp. rewrite Hp in R2. apply Hr in R2. destruct (Hout a Htch) as [Ha|Ha]; [left; lia|by right].
  - apply check_gdma_nonneg in Hrc. destruct Hfit as (F1 & F2 & F3).
    destruct (gdma_copy_ranges call (lget L_gdma_copy buf)) as (lo & hi & lo' & hi' & R1 & R2 & _ & Hin); [done..|].
    inversion Ht as [r c g Hrr Hcc|r c g Hrr Hcc| | |]; subst; intros Hp; destruct (Hin r c Hrr Hcc) as [H1 H2].
    + unfold g in *. rewrite Hp in R1. apply Hr in R1. left. lia.
    + unfold g in *. rewrite Hp in R2. apply Hr in R2. left. lia.
  - inversion Ht as [| |a0 c Ha| |]; subst; intros Hp. destruct (check_sync_range call (lget L_sync_cache buf) a) as (lo & hi & R & Hin); [done..|].
    unfold c in Hp. rewrite Hp in R. apply Hr in R. left. lia.
Qed.

(** ** The whole request *)

Context (pol : policy).

Definition arena_names : list (string * check_fn) :=
  [("IAV_IOC_SET_IMG_SCALE", C_check_img_scale); ("IAV_IOC_GDMA_COPY", C_check_gdma_copy);
   ("IAV_IOC_SYNC_CACHE_MEM_PART", C_check_sync_cache)]%string.

Lemma arena_rows : Forall (fun nf => fst nf ∈ TableProps.table_names /\
  forallb (TableProps.row_shape (fst nf) IAV_ARG_PTR (snd nf)) g_table = true) arena_names.
Proof.
  apply Forall_forall. intros nf Hin. split.
  - revert nf Hin. apply Forall_forall. apply (bool_decide_eq_true_1 _). vm_compute. reflexivity.
  - revert nf Hin. apply Forall_forall. repeat (constructor; [vm_compute; reflexivity|]). constructor.
Qed.

Lemma arena_entry_checked cmd e :
  iav_policy_init policy0 = (0, pol) -> policy_entry pol cmd = Some e -> arena_cmd cmd = true ->
  e_kind e = IAV_ARG_PTR /\ e_check e = Some (job_check (job_of cmd)).
Proof.
  intros Hpol He Hc. pose proof arena_rows as Hrows. rewrite Forall_forall in Hrows.
  assert (Hl : forall n f, (n, f) ∈ arena_names -> cmd = ioc n -> e_kind e = IAV_ARG_PTR /\ e_check e = Some f).
  { intros n f Hin ->. destruct (Hrows _ Hin) as [Hn Hall]. destruct (TableProps.lookup_exact pol (ioc n) Hpol) as (r & Hr & _).
    unfold policy_entry in He. rewrite Hr in He. cbn in He. subst r.
    exact (TableProps.lookup_by_name pol n e _ f Hpol Hr Hn Hall). }
  unfold arena_cmd in Hc. unfold job_of, job_check.
  destruct (Z.eqb_spec cmd IAV_IOC_SET_IMG_SCALE) as [E1|]; [apply (Hl _ _ ltac:(left) E1)|].
  destruct (Z.eqb_spec cmd IAV_IOC_GDMA_COPY) as [E2|]; [apply (Hl _ _ ltac:(right; left) E2)|].
  cbn [orb] in Hc. apply Z.eqb_eq in Hc. apply (Hl _ _ ltac:(right; right; left) Hc).
Qed.

(** The pool as the server sets it up: its slices fit 64 bits. *)
Definition pool_fits (p : guest_pool) : Prop :=
  is_u32 (gp_partition_id p) /\ 0 <= gp_slice_bytes p /\ gp_slice_count p * gp_slice_bytes p < 2 ^ 64.

Lemma arena_req_fits arg : Forall is_u8 arg -> Forall blk_fits (aq_blk (arena_req_of arg)).
Proof.
  intros Hb. assert (Hw : forall ws bs k, Forall is_u8 bs -> (forall w, w ∈ ws -> (w <= 8)%nat) -> is_u64 (fld ws bs k)).
  { intros ws. unfold fld. induction ws as [|w ws IH]; intros bs k Hbs Hws; [destruct k; done|].
    destruct k as [|k]; cbn [dec nth]; [|apply IH; [by apply Forall_drop|intros w' Hw'; apply Hws; by right]].
    assert (Hr : 0 <= le_val (take w bs) < 2 ^ (8 * Z.of_nat (length (take w bs)))) by (apply le_val_range; by apply Forall_take).
    assert (Hl : (length (take w bs) <= 8)%nat) by (rewrite length_take; specialize (Hws w ltac:(left)); lia).
    unfold is_u64. split; [lia|]. eapply Z.lt_le_trans; [apply Hr|]. apply Z.pow_le_mono_r; lia. }
  assert (H8 : forall w, w ∈ ARENA_REQ_FIELDS -> (w <= 8)%nat).
  { apply Forall_forall. repeat (constructor; [lia|]). constructor. }
  unfold arena_req_of. cbn [aq_blk]. do 2 (apply Forall_cons; split; [split; cbn [bk_offset bk_length]; by apply Hw|]). apply Forall_nil; exact I.
Qed.

Lemma origin_ok E cid b x asked pool :
  br_pool b = Some pool -> pool_fits pool -> (forall n i, ev_slice_of E n cid = Some i -> 0 <= i) ->
  arena_origin E cid b x asked ->
  xlat_ok (gp_slice_bytes pool - PAGE_BYTES) x /\ arena_cmd asked = true /\ x_pid x = gp_partition_id pool /\
  x_slice_off x = x_index x * gp_slice_bytes pool /\ exists n, ev_slice_of E n cid = Some (x_index x).
Proof.
  intros Hp (P1 & P2 & P3) Hidx (pool' & index & h & n & H1 & H2 & H3 & H4 & H5 & (arg & Harg & ->) & H6 & ->).
  rewrite Hp in H1. injection H1 as <-. cbn [x_pid x_slice_off x_index x_blk]. specialize (Hidx n index H3).
  unfold pool_usable in H2. apply negb_true_iff in H2. apply orb_false_iff in H2 as [H2 Hpid]. apply orb_false_iff in H2 as [Hsz Hcnt].
  apply Z.leb_gt in Hsz. apply Z.eqb_neq in Hpid. unfold PAGE_BYTES in *.
  assert (Hmul : (index + 1) * gp_slice_bytes pool <= gp_slice_count pool * gp_slice_bytes pool) by nia.
  rewrite u64_id by nia. split; [|split; [done|split; [done|split; [done|by exists n]]]].
  split; cbn [x_pid x_slice_off x_index x_blk]; [nia|nia| |done].
  unfold arena_admit, EINVAL in H6. destruct (negb _ || _ || _); [done|].
  eapply blks_admit_in; [|by apply arena_req_fits|exact H6]. nia.
Qed.

(** C6: An ioctl of an arena request is the command the request names (a scale, a copy or a cache operation), and every
    byte of the pool partition that its job touches (both windows of a scale, both sides of a copy, the range of a
    cache operation) lies in the slice the server leased to the calling guest, less its claim page, whatever block
    ids, offsets, pitches and sizes the guest wrote. One row is excepted, because the code's check does not bound it:
    a 4:2:0 scale whose output window ends with the last row of a buffer of an odd height writes one chroma row past
    the plane, the row [job_odd_row] describes. *)
Theorem arena_calls_confined E cid req s r s' pool :
  iav_policy_init policy0 = (0, pol) -> rely E -> Forall is_u8 req -> refs_ok (st_b s) -> st_tr s = [] ->
  br_pool (st_b s) = Some pool -> pool_fits pool -> (forall n i, ev_slice_of E n cid = Some i -> 0 <= i) ->
  Forall (fun w => is_u64 (bw_part_len w)) (br_windows (st_b s)) -> IAV_YUV_FORMAT_YUV422 <> IAV_YUV_FORMAT_YUV420 ->
  rq_op (req_of req) = AMBA_VIRT_IAV_OP_ARENA -> request pol cid req E s = (r, s') ->
  forall fd cmd arg, EvIoctl fd cmd arg ∈ st_tr s' ->
  cmd = rq_cmd (req_of req) /\ arena_cmd cmd = true /\
  exists buf index, arg = ArgBuf buf /\ (exists n, ev_slice_of E n cid = Some index) /\
    forall a, job_touches buf (job_of cmd) (gp_partition_id pool) a ->
      index * gp_slice_bytes pool <= a < (index + 1) * gp_slice_bytes pool - PAGE_BYTES \/ job_odd_row buf (job_of cmd) a.
Proof.
  intros Hpol HE Hb Hrefs Htr Hpool Hpf Hidx Hws Hne Hop Hrun.
  refine (request_ioctls pol E cid req s r s' (fun b _ => br_rest b = br_rest (st_b s) /\ refs_ok b) _ HE Hb Htr Hrun _ _ _ _ _); try done.
  - by apply rest_steady.
  - intros b b' tr E1 E2 _ [H1 H2]. split; [by rewrite E2|by apply (refs_ok_same b)].
  - intros t e fd arg (x & He & [Ho Hx] & Hadm & _). destruct (proj1 Hx Hop) as [y ->]. cbn [origin] in Ho.
    rewrite (policy_entry_cmd pol _ _ He). set (cmd := rq_cmd (req_of req)) in *.
    destruct (origin_ok E cid (st_b s) y cmd pool Hpool Hpf Hidx Ho) as (Hxl & Hcmd & Hpid & Hoff & Hslice).
    destruct (arena_entry_checked cmd e Hpol He Hcmd) as [Hkind Hchk].
    destruct Hadm as (h & sh & xl & buf & Hsh & (bufx & slots & Ht & ->) & Hck & ->). fold cmd in Ht.
    unfold check_admits in Hck. rewrite Hchk in Hck. destruct Hck as (aux & block & qs & rd & inline & rc & pinned & Haux & Hck & Hrc).
    assert (Hor : Forall is_u8 (sh_buf sh)).
    { eapply shape_bytes; [|exact Hsh]. unfold payload. rewrite Hop, Z.eqb_refl. by do 2 apply Forall_drop. }
    cbn [fst snd] in Hck. destruct (arena_translate_in _ _ _ _ _ _ Hxl Hor Ht) as (Hsl & _ & Hfit).
    destruct (job_confined _ _ _ _ _ _ _ _ _ _ _ _ _ _ _ _ Hxl Hsl Hfit Hws Haux Hne Hck Hrc) as [-> Hin].
    split; [done|]. split; [done|]. exists bufx, (x_index y). split; [unfold kind_arg; by rewrite Hkind|]. split; [done|].
    intros a Ha. destruct (Hin _ a Ha (eq_sym Hpid)) as [H|H]; [left|by right]. unfold PAGE_BYTES in *. lia.
Qed.

(** ** Jobs in flight *)

(** The accounting of arena jobs along the events: [Some (Some i)] while a job of slice [i] is counted in flight, [None]
    when an ioctl ran outside, a begin inside another one, or an end did not match. *)
Fixpoint arena_run (job : option Z) (tr : list event) : option (option Z) :=
  match tr with
  | [] => Some job
  | EvArenaBegin i :: rest => match job with None => arena_run (Some i) rest | Some _ => None end
  | EvArenaEnd i :: rest => match job with Some j => if i =? j then arena_run None rest else None | None => None end
  | EvIoctl _ _ _ :: rest => match job with Some _ => arena_run job rest | None => None end
  | _ :: rest => arena_run job rest
  end.

Lemma arena_run_app job tr evs : arena_run job (tr ++ evs) = arena_run job tr ≫= fun j => arena_run j evs.
Proof.
  revert job. induction tr as [|ev tr IH]; intros job; [done|].
  destruct ev; cbn; try apply IH; destruct job as [j|]; try done; try apply IH. destruct (index =? j); [apply IH|done].
Qed.

Definition counted (job : option Z) : assn := fun _ tr => arena_run None tr = Some job.

Section Counted.
Context (E : env) (HE : ev_arena_ops E = true) (cid : Z).

Lemma counted_lax job : lax E (counted job).
Proof. by split. Qed.

Lemma counted_emit job job' evs R : arena_run job evs = Some job' -> triple E (counted job) (emit evs) R (fun _ => counted job').
Proof. intros H. apply t_emit. intros b tr Ht. unfold counted in *. rewrite arena_run_app, Ht. exact H. Qed.

Lemma closes_run job fds : arena_run job (map EvClose fds) = Some job.
Proof. by induction fds. Qed.

Lemma counted_locked {A} job (f : Z -> broker -> A * broker) R : triple E (counted job) (locked f) R (fun _ => counted job).
Proof. by apply t_locked. Qed.

Lemma counted_release job i R : triple E (counted job) (release i) R (fun _ => counted job).
Proof.
  eapply t_bind; [apply counted_locked|]. intros fds. apply counted_emit, closes_run.
Qed.

Lemma counted_acquire h : triple E (counted None) (acquire cid h) (fun _ => counted None) (fun _ => counted None).
Proof.
  eapply t_bind; [apply counted_locked|]. intros [e|[[i epoch] y]]; [by apply t_refuse|].
  eapply t_bind; [by apply (counted_emit None None)|]. intros []. by apply t_ret.
Qed.

Lemma counted_enter i x :
  triple E (counted None) (arena_enter cid i (Some x)) (fun _ => counted None)
    (fun on b tr => (on = true /\ exists n, ev_slice_of E n cid = Some (x_index x)) /\ counted (Some (x_index x)) b tr).
Proof.
  unfold arena_enter. eapply (t_bind _ _ _ _ _ (fun on b tr => on = true /\ counted None b tr)); [by apply t_ask|].
  intros on. apply t_pure. intros ->. eapply t_bind; [by apply (lax_ask E)|]. intros [].
  - eapply t_bind; [by apply (counted_emit None (Some (x_index x)))|]. intros [].
    eapply (t_bind _ _ _ _ _ (fun w b tr => (exists n, w = ev_slice_of E n cid) /\ counted (Some (x_index x)) b tr)).
    { apply t_ask. intros n b tr H. split; [by exists n|done]. }
    intros w. apply t_pure. intros [n Hw]. destruct (bool_decide (w = Some (x_index x))) eqn:Ew.
    + apply bool_decide_eq_true in Ew. apply t_ret. intros b tr H. split; [|done]. split; [done|]. exists n. congruence.
    + eapply t_bind; [apply (counted_emit _ None); cbn; by rewrite Z.eqb_refl|]. intros [].
      eapply t_bind; [apply counted_release|]. intros []. by apply t_refuse.
  - eapply t_bind; [apply counted_release|]. intros []. by apply t_refuse.
Qed.

Lemma counted_run i e buf value x R :
  triple E (counted (Some x)) (run_ioctl i e buf value) R (fun _ => counted (Some x)).
Proof.
  unfold run_ioctl. eapply t_bind; [apply (lax_reading E _ (counted_lax _))|]. intros fd. cbv zeta.
  eapply t_bind; [by apply (counted_emit (Some x) (Some x))|]. intros [].
  eapply t_bind; [apply (lax_ask E)|]. intros [[rc errno] after]. by apply t_ret.
Qed.

Lemma counted_on_session cmd e x sh aux ws block xl i :
  triple E (counted None) (ioctl_on_session cid cmd e (Some x) sh aux ws block xl i) (fun _ => counted None) (fun _ => counted None).
Proof.
  unfold ioctl_on_session. destruct xl as [[buf slots] apid]. eapply (t_bind _ _ _ _ _ (fun _ => counted None)).
  { unfold checked. destruct (e_check e); [|by apply t_ret]. eapply t_bind; [apply (lax_reading E _ (counted_lax _))|]. intros fd.
    eapply (t_bind _ _ _ _ _ (fun _ => counted None)).
    { eapply t_bind; [by apply (counted_emit None None)|]. intros []. apply (lax_ask E). }
    intros qs. do 2 (eapply t_bind; [apply (lax_ask E)|]; intros ?). by apply t_ret. }
  intros [[cerr pinned] buf1]. destruct (cerr <? 0).
  - eapply t_bind; [apply counted_release|]. intros []. eapply (t_bind _ _ _ _ _ (fun _ => counted None)).
    { destruct pinned; [apply (lax_count E _ (counted_lax _))|by apply t_ret]. }
    intros []. by apply t_refuse.
  - eapply t_bind; [apply counted_enter|]. intros on. apply t_pure. intros [-> _].
    eapply t_bind; [apply counted_run|]. intros [[rc err] after].
    eapply t_bind; [apply (counted_emit _ None); cbn; by rewrite Z.eqb_refl|]. intros [].
    eapply t_bind; [apply (lax_count E _ (counted_lax _))|]. intros []. eapply (t_bind _ _ _ _ _ (fun _ => counted None)).
    { destruct (_ && _); [|by apply t_ret]. eapply t_bind; [apply (lax_reading E _ (counted_lax _))|]. intros fd.
      eapply t_bind; [apply (lax_recheck E _ (counted_lax _))|intros st; by apply t_ret].
      intros b tr c Ht. unfold counted in *. rewrite arena_run_app, Ht. done. }
    intros []. eapply t_bind; [apply counted_release|]. intros []. by apply t_ret.
Qed.

Lemma counted_ioctl handle cmd value arg x :
  triple E (counted None) (do_ioctl pol cid handle cmd value arg (Some x)) (fun _ => counted None) (fun _ => counted None).
Proof.
  unfold do_ioctl. destruct (policy_entry pol cmd) as [e|]; [|by apply t_refuse].
  eapply t_bind; [apply (lax_effective' E _ (counted_lax _))|]. intros prof. eapply t_bind; [by apply lax_refuse_if|]. intros [].
  eapply t_bind; [apply (lax_hello E _ (counted_lax _))|]. intros hello.
  destruct (arg_shape _ _ _ _ _) as [err|sh]; [by apply t_refuse|]. eapply t_bind; [apply counted_locked|]. intros stale.
  eapply t_bind; [by apply lax_refuse_if|]. intros []. eapply (t_bind _ _ _ _ _ (fun _ => counted None)).
  { destruct (has_flag _ _); [|by apply t_ret]. eapply t_bind; [apply (lax_aperture E)|]. intros ap. by apply t_ret. }
  intros aux. eapply (t_bind _ _ _ _ _ (fun _ => counted None)).
  { unfold xlate. eapply t_bind; [by apply lax_refuse_if|]. intros []. destruct (arena_translate _ _ _) as [err|[buf slots]]; [|by apply t_ret].
    eapply t_bind; [apply (lax_count E _ (counted_lax _))|]. intros []. by apply t_refuse. }
  intros xl. eapply t_bind; [apply (lax_reading E _ (counted_lax _))|]. intros cfg.
  eapply t_bind; [apply counted_acquire|]. intros i. apply counted_on_session.
Qed.

Lemma counted_request req :
  rq_op (req_of req) = AMBA_VIRT_IAV_OP_ARENA ->
  triple E (counted None) (request pol cid req) (fun _ => counted None) (fun _ => counted None).
Proof.
  intros Hop. unfold request. eapply t_bind; [apply counted_locked|]. intros [rc|]; [|by apply t_refuse]. cbv zeta.
  do 4 (eapply t_bind; [by apply lax_refuse_if|]; intros []). unfold dispatch. rewrite Hop.
  change (triple E (counted None) (op_arena pol cid (req_of req) (drop (Z.to_nat SIZEOF_REQ) req)) (fun _ => counted None) (fun _ => counted None)).
  unfold op_arena. eapply (t_bind _ _ _ _ _ (fun _ => counted None)).
  { unfold arena_admission. destruct (Nat.ltb _ _); [by apply t_ret|]. eapply t_bind; [apply (lax_hello E _ (counted_lax _))|].
    intros hello. destruct (_ || _); [by apply t_ret|]. eapply t_bind; [apply (lax_effective' E _ (counted_lax _))|]. intros prof.
    destruct (_ || _); [by apply t_ret|]. eapply t_bind; [apply (lax_slice E _ (counted_lax _))|]. intros sl. by apply t_ret. }
  intros [err|x]; [|apply counted_ioctl]. eapply t_bind; [apply (lax_count E _ (counted_lax _))|]. intros []. by apply t_refuse.
Qed.

End Counted.

(** The accounting of arena jobs is exact on every path: whatever the driver, the server and the guest do, an
    ioctl of an arena request runs only between the begin and the end of one slice, and the end of every begin is
    there when the request is answered, also when the check refuses, the slice changed hands or the driver fails, so
    a released slice waits for exactly the jobs that still use it. *)
Theorem arena_jobs_counted E cid req s r s' :
  ev_arena_ops E = true -> st_tr s = [] -> rq_op (req_of req) = AMBA_VIRT_IAV_OP_ARENA ->
  request pol cid req E s = (r, s') -> arena_run None (st_tr s') = Some None.
Proof.
  intros HE Htr Hop Hrun. pose proof (counted_request E HE cid req Hop s r s') as H. unfold counted in H. rewrite Htr in H.
  destruct r; by apply H.
Qed.

End WithAbi.
End ArenaCallProps.
