(* ===== verification/IavBrokerSample.v ===== *)
(** * A concrete server for the theorems on the IAV broker

    A layout of the argument structures, a driver and a guest that satisfy the hypotheses of the theorems of
    IavBrokerProps and IavArenaCallProps, and runs of the broker on them. *)

From stdpp Require Import base list strings.
From Stdlib Require Import ZArith Lia.
From S2P Require Import Prelude ByteBuf IavTable IavTableProps IavPolicy IavPolicyProps IavSession.
From S2P Require Import IavSessionProps IavWire IavBroker IavBrokerOps IavBrokerProps IavArenaCallProps.

Module BrokerSample.
Import PolicyProps BrokerProps ArenaCallProps.

(** ** A layout: the fields of a structure one after the other *)

Definition field_lens {A} (ws : list nat) (rd : list Z -> A) (wr : A -> list Z) : lens A :=
  {| lget buf := rd (dec ws buf); lput a buf := enc ws (wr a) ++ drop (sum_list ws) buf |}.

Lemma field_lens_put {A} ws (rd : list Z -> A) wr a buf :
  length (wr a) = length ws -> rd (zip_with wrap ws (wr a)) = a -> lget (field_lens ws rd wr) (lput (field_lens ws rd wr) a buf) = a.
Proof. intros Hl Ha. cbn. by rewrite dec_enc. Qed.

Definition constant {A} (a : A) : lens A := {| lget _ := a; lput _ buf := buf |}.

Definition bz (b : bool) : Z := if b then 1 else 0.
Definition zb (z : Z) : bool := negb (z =? 0).

Definition buf_ws : list nat := [1; 1; 4; 4; 4; 8; 8]%nat.
Definition buf_to (b : iav_scale_buf_info) : list Z :=
  [bz (sb_use_phys b); bz (sb_use_dma_buf_fd b); sb_pid b; sb_pitch b; sb_height b; sb_y_offset b; sb_uv_offset b].
Definition buf_of (l : list Z) : iav_scale_buf_info :=
  let f k := nth k l 0 in
  {| sb_use_phys := zb (f 0%nat); sb_use_dma_buf_fd := zb (f 1%nat); sb_pid := f 2%nat; sb_pitch := f 3%nat;
     sb_height := f 4%nat; sb_y_offset := f 5%nat; sb_uv_offset := f 6%nat |}.

Definition rect_ws : list nat := [4; 4; 4; 4]%nat.
Definition rect_to (r : iav_rect) : list Z := [r_x r; r_y r; r_width r; r_height r].
Definition rect_of (l : list Z) : iav_rect :=
  let f k := nth k l 0 in {| r_x := f 0%nat; r_y := f 1%nat; r_width := f 2%nat; r_height := f 3%nat |}.

Definition scale_ws : list nat := [4; 1; 4; 4]%nat ++ buf_ws ++ buf_ws ++ rect_ws ++ rect_ws.
Definition scale_lens : lens iav_img_scale :=
  field_lens scale_ws
    (fun l => {| is_format := nth 0 l 0; is_output_format_enable := zb (nth 1 l 0); is_output_format := nth 2 l 0;
                 is_input_win_format := nth 3 l 0; is_input_buf := buf_of (drop 4 l); is_output_buf := buf_of (drop 11 l);
                 is_input := rect_of (drop 18 l); is_output := rect_of (drop 22 l) |})
    (fun s => [is_format s; bz (is_output_format_enable s); is_output_format s; is_input_win_format s] ++
              buf_to (is_input_buf s) ++ buf_to (is_output_buf s) ++ rect_to (is_input s) ++ rect_to (is_output s)).

Definition gdma_ws : list nat := [1; 1; 1; 1; 4; 4; 4; 8; 4; 4; 8; 4]%nat.
Definition gdma_lens : lens iav_gdma_copy :=
  field_lens gdma_ws
    (fun l => let f k := nth k l 0 in
       {| gc_src_use_phys := zb (f 0%nat); gc_dst_use_phys := zb (f 1%nat); gc_src_use_dma_buf_fd := zb (f 2%nat);
          gc_dst_use_dma_buf_fd := zb (f 3%nat); gc_width := f 4%nat; gc_height := f 5%nat; gc_src_mmap_type := f 6%nat;
          gc_src_offset := f 7%nat; gc_src_pitch := f 8%nat; gc_dst_mmap_type := f 9%nat; gc_dst_offset := f 10%nat;
          gc_dst_pitch := f 11%nat |})
    (fun g => [bz (gc_src_use_phys g); bz (gc_dst_use_phys g); bz (gc_src_use_dma_buf_fd g); bz (gc_dst_use_dma_buf_fd g);
               gc_width g; gc_height g; gc_src_mmap_type g; gc_src_offset g; gc_src_pitch g; gc_dst_mmap_type g;
               gc_dst_offset g; gc_dst_pitch g]).

Definition sync_ws : list nat := [4; 4; 8; 8]%nat.
Definition sync_lens : lens iav_sync_cache_mem_part :=
  field_lens sync_ws
    (fun l => {| sc_opt := nth 0 l 0; sc_pid := nth 1 l 0; sc_offset := nth 2 l 0; sc_length := nth 3 l 0 |})
    (fun c => [sc_opt c; sc_pid c; sc_offset c; sc_length c]).

Definition overlay0 : iav_overlay_insert := {| oi_enable := false; oi_id := 0; oi_id_for_canvas := false; oi_area := [] |}.
Definition blur0 : iav_blur_insert :=
  {| bi_id_for_canvas := false; bi_canvas_id := 0; bi_stream_id := 0; bi_enable := false; bi_type := 0; bi_area := [] |}.
Definition remap0 : iav_yuv_remap := {| yr_enable := false; yr_id := 0; yr_area := [] |}.

(** The structures no run below uses are constants. *)
#[global] Instance sample_layout : ArgLayout := {|
  L_querydesc := constant {| qd_qid := 0; qd_canvas_yuv_fd := false; qd_canvas_me_fd := false; qd_canvas_mo_fd := false;
                             qd_pyramid_fd := false; qd_frame_time_ms := 0 |};
  L_poll_cfg := constant {| pe_valid_num := 0; pe_qids := [] |};
  L_decoder_info := constant {| di_decoder_id := 0; di_bsb_start_offset := 0; di_bsb_size := 0 |};
  L_decode_jpeg := constant {| dj_decoder_id := 0; dj_jpeg_size := 0; dj_jpeg_start_offset := 0; dj_is_dec_only := false;
                               dj_yuv_size := 0; dj_yuv_start_offset := 0 |};
  L_decode_video := constant {| dv_decoder_id := 0; dv_start_ptr_offset := 0; dv_end_ptr_offset := 0 |};
  L_decode_bsb := constant {| db_decoder_id := 0; db_start_offset := 0; db_room := 0 |};
  L_decode_status := constant {| dt_decoder_id := 0; dt_yuv422_y_addr := 0; dt_yuv422_uv_addr := 0 |};
  L_wait_eos := constant {| we_decoder_id := 0; we_timeout_ticks := 0 |};
  L_overlay := constant overlay0;
  L_chan_cfg := constant {| cc_chan_id := 0; cc_pre_dec_enable := 0; cc_sw_ce_enable := 0; cc_vsrc_id := 0 |};
  L_system_resource := constant {| sr_chan_map := 0; sr_max_stream_num := 0; sr_stream_map := 0 |};
  L_img_scale := scale_lens;
  L_video_proc := constant
    {| vp_cid := 0; vp_mask_channel_id := 0;
       vp_dptz := {| dz_channel_id := 0; dz_pass_id := 0; dz_buf_id := 0; dz_canvas_id := 0 |}; vp_canvas_fps_id := 0;
       vp_canvas_vv_sync_id := 0; vp_canvas_dummy_latency_id := 0; vp_vsrc_chan_id := 0; vp_vsrc_vsrc_id := 0;
       vp_overlay := overlay0; vp_pyramid_roi_chan_id := 0; vp_pyramid_fps_chan_id := 0; vp_order_id := 0;
       vp_order_chan_num := 0; vp_order_chans := []; vp_vcap_flush_channel_id := 0; vp_postp_canvas_id := 0;
       vp_postp_area := []; vp_cawarp_chan_id := 0 |};
  L_vin_idsp := constant {| vi_chan_id := 0; vi_vsrc_id := 0 |};
  L_blur := constant blur0;
  L_canvas_sync := constant {| cs_id := 0; cs_cid := 0; cs_blur := blur0; cs_overlay := overlay0 |};
  L_gdma_copy := gdma_lens; L_sync_cache := sync_lens;
  L_isp_nn := constant {| np_fifo_addr := 0; np_nn_info := [] |};
  L_efm_pool := constant 0; L_efm_release := constant 0; L_feed_canvas := constant 0; L_feed_pyramid := constant 0;
  L_feed_raw := constant 0;
  L_warp_ctrl := constant {| wc_cid := 0; wc_channel_id := 0; wc_main := []; wc_dptz_buf_id := 0 |};
  L_stream_cfg := constant
    {| st_id := 0; st_cid := 0; st_h264_qpm_raw := false; st_h265_qpm_raw := false; st_overlay := overlay0;
       st_blur := blur0; st_yuv_remap := remap0 |};
  L_yuv_remap := constant remap0; L_ce_request := constant 0;
  L_ce_handshake := constant {| ch_chan_id := 0; ch_buffer_idx := 0 |};
  L_misc_info := constant {| mi_query_extra_raw := 0; mi_extra_raw_valid := 0; mi_extra_raw := 0 |};
  L_apply_vproc := constant []; L_apply_warp := constant {| af_apply := 0; af_param := 0 |};
  L_apply_canvas_sync := constant 0 |}.

(** A field read from bytes has its width. *)
Lemma take_width w bs : Forall is_u8 bs -> 0 <= le_val (take w bs) < 2 ^ (8 * Z.of_nat w).
Proof.
  intros Hb. pose proof (le_val_range (take w bs) ltac:(by apply Forall_take)) as Hr.
  assert (2 ^ (8 * Z.of_nat (length (take w bs))) <= 2 ^ (8 * Z.of_nat w)) by (apply Z.pow_le_mono_r; [lia|]; rewrite length_take; lia).
  lia.
Qed.

Lemma zb_bz b : zb (wrap 1 (bz b)) = b.
Proof. by destruct b. Qed.

Lemma wrap32 z : is_u32 z -> wrap 4 z = z.
Proof. intros H. apply wrap_id. exact H. Qed.

Lemma wrap64 z : is_u64 z -> wrap 8 z = z.
Proof. intros H. apply wrap_id. exact H. Qed.

Lemma take_u32 bs : Forall is_u8 bs -> is_u32 (le_val (take 4 bs)).
Proof. apply (take_width 4). Qed.

Lemma take_u64 bs : Forall is_u8 bs -> is_u64 (le_val (take 8 bs)).
Proof. apply (take_width 8). Qed.

Ltac fields := unfold scale_fits, gdma_fits, sync_fits, copy_ok, buf_ok, rect_ok;
  repeat match goal with |- _ /\ _ => split end;
  first [apply take_u32|apply take_u64]; repeat apply Forall_drop; assumption.

Ltac written := apply field_lens_put; [reflexivity|]; cbn -[wrap bz zb]; unfold buf_of, rect_of; cbn [nth]; rewrite ?zb_bz, ?wrap32, ?wrap64 by assumption.

#[global] Instance sample_layout_ok : LayoutOk.
Proof.
  split; intros.
  - fields.
  - destruct H as (F1 & F2 & F3 & F4 & (F5 & F6 & F7 & F8) & G1 & (G2 & G3 & G4 & G5) & (R1 & R2 & R3 & R4) & (S1 & S2 & S3 & S4)).
    written; by destruct s as [? ? ? [] [] ? [] []].
  - fields.
  - destruct H as (F1 & F2 & F3 & F4 & F5 & F6 & F7 & F8). written; by destruct g.
  - fields.
  - destruct H as (F1 & F2 & F3 & F4). written; by destruct c.
Qed.

(** ** A server with one primary guest *)

#[local] Existing Instance TableProps.sample_abi.

Definition sample_pol : policy := snd (iav_policy_init policy0).

Lemma sample_pol_init : iav_policy_init policy0 = (0, sample_pol).
Proof. vm_compute. reflexivity. Qed.

Definition sample_pool : guest_pool :=
  {| gp_partition_id := 77; gp_parent_base := 0x80000000; gp_parent_bytes := 0x8000000; gp_slice_count := 8;
     gp_slice_bytes := 0x1000000 |}.

Definition sample_window : broker_window :=
  {| bw_id := AMBA_VIRT_IAV_WIN_DEC; bw_base := 0x10000000; bw_part_len := 0x300000; bw_size := 0x400000; bw_pid := 3 |}.

(** Guest 5 has session 0 on descriptor 9 and negotiated the arena; guest 6 has nothing. *)
Definition sample_state (stale : bool) : broker :=
  let b := SessionProps.b_open in
  {| br_cfg := br_cfg b; br_epoch := br_epoch b; br_sess := br_sess b;
     br_cids := [{| ci_used := true; ci_cid := 5; ci_sessions := 1; ci_tokens := d_of_Z 0; ci_last_ms := 0;
                    ci_hello := {| he_done := true; he_revision := 2; he_features := 0x14; he_max_window_id := 3;
                                   he_page_size := 4096; he_table_hash := 0 |} |}; cid_entry0];
     br_windows := [sample_window]; br_count := counters0; br_aux_src := []; br_pool := Some sample_pool;
     br_host_features := 0; br_table_hash := 0; br_table_rows := 0; br_stale := stale |}.

Definition no_query : driver_query :=
  {| q_chan_config := fun _ => None; q_system_resource := None; q_memblock := fun _ => None |}.

(** The guest is the primary and holds slice 2; the driver succeeds. *)
Definition sample_env : env :=
  {| ev_other := fun _ b => b; ev_now := fun n => Z.of_nat n; ev_open := fun _ => inr 20;
     ev_ioctl := fun _ _ _ arg => (0, 0, match arg with ArgBuf b => b | _ => [] end); ev_poll := fun _ _ _ _ => (0, 0, 0);
     ev_query := fun _ _ => no_query; ev_is_primary := fun _ cid => cid =? 5;
     ev_slice_of := fun _ cid => if cid =? 5 then Some 2 else None; ev_aperture_of := fun _ _ => None;
     ev_read_dec := fun _ => None; ev_arena_ops := true; ev_arena_begin := fun _ _ => true; ev_buf_addr := fun _ => 0x7000 |}.

Lemma sample_rely : rely sample_env.
Proof. by split. Qed.

Definition sample_st (stale : bool) : st := {| st_b := sample_state stale; st_n := 0; st_tr := [] |}.

Lemma sample_refs stale : refs_ok (sample_state stale).
Proof.
  split; [reflexivity|]. intros i. unfold sess_at. cbn [sample_state br_sess].
  assert (H : forallb (fun s => 0 <=? se_refs s) (br_sess SessionProps.b_open) = true) by (vm_compute; reflexivity).
  rewrite forallb_forall in H. destruct (br_sess SessionProps.b_open !! i) as [x|] eqn:Ex; [|done].
  change (default session0 (Some x)) with x. apply Z.leb_le, H. apply list_elem_of_In. by eapply list_elem_of_lookup_2.
Qed.

(** A cache clean of 512 bytes at offset 0x100 of a block at 64 KiB of the guest's slice. *)
Definition sample_handle : Z := make_handle SessionProps.b_open 0 1.
Definition sample_sync : list Z := enc sync_ws [1; 0x1ff; 0x100; 0x200] ++ repeat 0 40.
Definition sample_blks : list Z :=
  arena_req_bytes {| aq_count := 1; aq_reserved := 0;
    aq_blk := [{| bk_vid := 0x1ff; bk_reserved := 0; bk_offset := 0x10000; bk_length := 0x2000 |};
               {| bk_vid := 0; bk_reserved := 0; bk_offset := 0; bk_length := 0 |}] |}.
Definition sample_req : list Z :=
  req_bytes {| rq_proto := 1; rq_op := AMBA_VIRT_IAV_OP_ARENA; rq_handle := sample_handle; rq_cmd := IAV_IOC_SYNC_CACHE_MEM_PART;
               rq_arg_len := 120; rq_arg_value := 0; rq_arg2 := 0 |} ++ sample_blks ++ sample_sync.

Lemma bytes_ok (l : list Z) : forallb (fun z => (0 <=? z) && (z <? 256)) l = true -> Forall is_u8 l.
Proof. rewrite forallb_forall. intros H. apply Forall_forall. intros z Hz. apply list_elem_of_In in Hz. specialize (H z Hz). unfold is_u8. lia. Qed.

Lemma sample_req_bytes : Forall is_u8 sample_req.
Proof. apply bytes_ok. vm_compute. reflexivity. Qed.

(** What the driver gets: the pool partition and the offset in slice 2. *)
Definition sample_job : list Z := enc sync_ws [1; 77; 0x2000000 + 0x10000 + 0x100; 0x200] ++ repeat 0 4072.

Definition sample_ioctl : event := EvIoctl 9 IAV_IOC_SYNC_CACHE_MEM_PART (ArgBuf sample_job).

Definition sample_sess : iav_session :=
  {| se_in_use := true; se_closing := false; se_gen := 1; se_cid := 5; se_fd := 9; se_refs := 1; se_last_used_ms := 10 |}.

(** What comes before the ioctl: the session, the queries the check may make on its descriptor, the job. *)
Definition sample_before : list event :=
  [EvAcquire sample_handle (br_epoch SessionProps.b_open) 0 sample_sess; EvQuery 9 IAV_IOC_GET_CHAN_CONFIG;
   EvQuery 9 IAV_IOC_GET_SYSTEM_RESOURCE; EvQuery 9 IAV_IOC_QUERY_MEMBLOCK; EvArenaBegin 2].

Lemma sample_run : st_tr (snd (request sample_pol 5 sample_req sample_env (sample_st false))) =
  sample_before ++ sample_ioctl :: [EvArenaEnd 2].
Proof. vm_compute. reflexivity. Qed.

Lemma sample_ioctl_in : sample_ioctl ∈ st_tr (snd (request sample_pol 5 sample_req sample_env (sample_st false))).
Proof. rewrite sample_run. apply elem_of_app. right. left. Qed.


Lemma arena_calls_confined_witness :
  exists index, (exists n, ev_slice_of sample_env n 5 = Some index) /\
    forall a, job_touches sample_job JSync 77 a -> index * 0x1000000 <= a < (index + 1) * 0x1000000 - PAGE_BYTES.
Proof.
  assert (Hp : pool_fits sample_pool) by (split; [done|]; split; [done|]; vm_compute; reflexivity).
  assert (Hi : forall n i, ev_slice_of sample_env n 5 = Some i -> 0 <= i) by (intros n i [= <-]; done).
  assert (Hw : Forall (fun w => is_u64 (bw_part_len w)) [sample_window]) by (constructor; [done|constructor]).
  assert (Hf : IAV_YUV_FORMAT_YUV422 <> IAV_YUV_FORMAT_YUV420) by done.
  assert (Ho : rq_op (req_of sample_req) = AMBA_VIRT_IAV_OP_ARENA) by (vm_compute; reflexivity).
  destruct (arena_calls_confined sample_pol sample_env 5 sample_req (sample_st false) _ _ sample_pool sample_pol_init sample_rely
    sample_req_bytes (sample_refs false) eq_refl eq_refl Hp Hi Hw Hf Ho (surjective_pairing _) _ _ _ sample_ioctl_in)
    as (_ & _ & buf & index & Hb & Hs & Ht).
  exists index. split; [exact Hs|]. replace sample_job with buf by (by injection Hb). intros a Ha.
  destruct (Ht a) as [H|[H _]]; [exact Ha|exact H|discriminate H].
Defined.

Lemma arena_jobs_counted_witness :
  arena_run None (st_tr (snd (request sample_pol 5 sample_req sample_env (sample_st false)))) = Some None.
Proof.
  apply (arena_jobs_counted sample_pol sample_env 5 sample_req (sample_st false)
    (fst (request sample_pol 5 sample_req sample_env (sample_st false)))); [reflexivity|reflexivity|vm_compute; reflexivity|].
  apply surjective_pairing.
Defined.

(** The same call while the windows are stale: refused before the driver. *)
Lemma stale_windows_stop_witness :
  st_tr (snd (request sample_pol 5 sample_req sample_env (sample_st true))) = [] /\
  forall fd cmd arg, EvIoctl fd cmd arg ∈ st_tr (snd (request sample_pol 5 sample_req sample_env (sample_st true))) ->
    exists e asked, cmd = e_cmd e /\ policy_entry sample_pol asked = Some e /\ has_flag (e_flags e) IAV_F_WINDOW = false.
Proof.
  split; [vm_compute; reflexivity|].
  exact (proj1 (stale_windows_stop sample_pol sample_env 5 sample_req (sample_st true) _ _ sample_rely (fun _ _ H => H)
    sample_req_bytes (sample_refs true) eq_refl eq_refl (surjective_pairing _))).
Defined.

End BrokerSample.
