(* ===== verification/IavReplyProps.v ===== *)
(** * What the IAV broker answers

    [Module ReplyProps]: every response is well formed and fits its message ([responses_wellformed]); what OP_MAP
    authorises ([map_grants]), what OP_HELLO grants and records ([hello_grants]); the buffers the slice admission
    accepts ([slice_admit_iff]). *)

From stdpp Require Import base list strings.
From Stdlib Require Import ZArith Lia.
From S2P Require Import Prelude ByteBuf IavTable IavPolicy IavSession IavSessionProps.
From S2P Require Import IavWire IavBroker IavBrokerOps IavBrokerProps IavTableProps IavBrokerSample.

Module ReplyProps.
Import BrokerLogic BrokerProps.

Section WithAbi.
Context `{Abi : IavAbi} `{Lay : ArgLayout} (pol : policy).

(** ** Every reply fits *)

Definition small (p : rsp) : Prop := Z.of_nat (length (rp_out p)) <= AMBA_VIRT_IAV_MAX_OUT.

Lemma small_nil p : rp_out p = [] -> small p.
Proof. unfold small. intros ->. by vm_compute. Qed.

Section Small.
Context (E : env) (cid : Z).

Let T : assn := fun _ _ => True.
Let R : rsp -> assn := fun p _ _ => small p.

Lemma T_lax : lax E T.
Proof. by split. Qed.

Lemma s_refuse {A} err (Q : A -> assn) : triple E T (refuse err) R Q.
Proof. apply t_refuse. intros b tr _. by apply small_nil. Qed.

Lemma s_refuse_if c err : triple E T (refuse_if c err) R (fun _ => T).
Proof. apply t_refuse_if; [|done]. intros _ b tr _. by apply small_nil. Qed.

Lemma s_locked {A} (f : Z -> broker -> A * broker) : triple E T (locked f) R (fun _ => T).
Proof. by apply t_locked. Qed.

Lemma s_emit evs : triple E T (emit evs) R (fun _ => T).
Proof. by apply t_emit. Qed.

Lemma s_acquire h : triple E T (acquire cid h) R (fun _ => T).
Proof.
  eapply t_bind; [apply s_locked|]. intros [e|[[i epoch] y]]; [apply s_refuse|].
  eapply t_bind; [apply s_emit|]. intros []. by apply t_ret.
Qed.

Lemma s_release i : triple E T (release i) R (fun _ => T).
Proof. eapply t_bind; [apply s_locked|]. intros fds. apply s_emit. Qed.

Lemma s_enter i x : triple E T (arena_enter cid i x) R (fun _ => T).
Proof.
  unfold arena_enter. eapply t_bind; [apply (lax_ask E)|]. intros on. destruct x as [x|]; [|by apply t_ret]. destruct on; [|by apply t_ret].
  eapply t_bind; [apply (lax_ask E)|]. intros [].
  - eapply t_bind; [apply s_emit|]. intros []. eapply t_bind; [apply (lax_ask E)|]. intros w. destruct (bool_decide _); [by apply t_ret|].
    eapply t_bind; [apply s_emit|]. intros []. eapply t_bind; [apply s_release|]. intros []. apply s_refuse.
  - eapply t_bind; [apply s_release|]. intros []. apply s_refuse.
Qed.

(** The size of an accepted argument leaves room for it in a response. *)
Lemma shape_small e h a arg v sh :
  arg_shape e h a arg v = inr sh -> e_kind e = IAV_ARG_PTR ->
  sh_size sh + (if sh_inline sh then SIZEOF_INLINE_MISC else 0) <= AMBA_VIRT_IAV_MAX_OUT.
Proof.
  intros H Hk. unfold arg_shape in H. rewrite Hk in H. cbv zeta in H.
  destruct (_ || _ || (AMBA_VIRT_IAV_MAX_OUT <? _) || _) eqn:E0; [done|].
  apply orb_false_iff in E0 as [E0 _]. apply orb_false_iff in E0 as [_ E0]. apply Z.ltb_ge in E0.
  destruct (has_flag _ _).
  - destruct (_ || _ || _ || _); [done|]. destruct (Z.ltb_spec AMBA_VIRT_IAV_MAX_OUT (wire_size_for e h + SIZEOF_INLINE_MISC)); [done|].
    destruct (_ || _); [done|]. injection H as <-. done.
  - destruct (if dir_writes _ then _ else _); [done|]. injection H as <-. cbn. lia.
Qed.

Lemma output_small e h a arg v sh cmd x rc after :
  arg_shape e h a arg v = inr sh -> Z.of_nat (length (output_of e cmd x sh rc after)) <= AMBA_VIRT_IAV_MAX_OUT.
Proof.
  intros H. unfold output_of. destruct ((0 <=? rc) && bool_decide (e_kind e = IAV_ARG_PTR) && _) eqn:E0; [|done].
  apply andb_true_iff in E0 as [E0 _]. apply andb_true_iff in E0 as [_ Hk]. apply bool_decide_eq_true in Hk.
  pose proof (shape_small _ _ _ _ _ _ H Hk) as Hs. rewrite length_take.
  assert (AMBA_VIRT_IAV_MAX_OUT = 4040) as Hm by reflexivity. lia.
Qed.

Lemma s_ioctl handle cmd value arg x : triple E T (do_ioctl pol cid handle cmd value arg x) R R.
Proof.
  unfold do_ioctl. destruct (policy_entry pol cmd) as [e|]; [|apply s_refuse].
  eapply t_bind; [apply (lax_effective' E _ T_lax)|]. intros prof. eapply t_bind; [apply s_refuse_if|]. intros [].
  eapply t_bind; [apply (lax_hello E _ T_lax)|]. intros hello.
  destruct (arg_shape e hello _ arg value) as [err|sh] eqn:Hsh; [apply s_refuse|]. eapply t_bind; [apply s_locked|]. intros stale.
  eapply t_bind; [apply s_refuse_if|]. intros []. eapply (t_bind _ _ _ _ _ (fun _ => T)).
  { destruct (has_flag _ _); [|by apply t_ret]. eapply t_bind; [apply (lax_aperture E)|]. intros ap. by apply t_ret. }
  intros aux. eapply (t_bind _ _ _ _ _ (fun _ => T)).
  { unfold xlate. destruct x as [x|]; [|by apply t_ret]. eapply t_bind; [apply s_refuse_if|]. intros [].
    destruct (arena_translate _ _ _) as [err|[buf slots]]; [|by apply t_ret].
    eapply t_bind; [apply (lax_count E _ T_lax)|]. intros []. apply s_refuse. }
  intros xl. eapply t_bind; [apply (lax_reading E _ T_lax)|]. intros cfg. eapply t_bind; [apply s_acquire|]. intros i.
  unfold ioctl_on_session. destruct xl as [[buf slots] apid]. eapply (t_bind _ _ _ _ _ (fun _ => T)).
  { unfold checked. destruct (e_check e); [|by apply t_ret]. eapply t_bind; [apply (lax_reading E _ T_lax)|]. intros fd.
    eapply (t_bind _ _ _ _ _ (fun _ => T)); [eapply t_bind; [apply s_emit|]; intros []; apply (lax_ask E)|].
    intros qs. do 2 (eapply t_bind; [apply (lax_ask E)|]; intros ?). by apply t_ret. }
  intros [[cerr pinned] buf1]. destruct (cerr <? 0).
  { eapply t_bind; [apply s_release|]. intros []. eapply (t_bind _ _ _ _ _ (fun _ => T)).
    { destruct pinned; [apply (lax_count E _ T_lax)|by apply t_ret]. }
    intros []. apply s_refuse. }
  eapply t_bind; [apply s_enter|]. intros on. eapply (t_bind _ _ _ _ _ (fun _ => T)).
  { unfold run_ioctl. eapply t_bind; [apply (lax_reading E _ T_lax)|]. intros fd. cbv zeta. eapply t_bind; [apply s_emit|]. intros [].
    eapply t_bind; [apply (lax_ask E)|]. intros [[rc errno] after]. by apply t_ret. }
  intros [[rc err] after]. eapply (t_bind _ _ _ _ _ (fun _ => T)).
  { destruct on; [apply s_emit|by apply t_ret]. }
  intros []. eapply (t_bind _ _ _ _ _ (fun _ => T)).
  { destruct x; [apply (lax_count E _ T_lax)|by apply t_ret]. }
  intros []. eapply (t_bind _ _ _ _ _ (fun _ => T)).
  { destruct (_ && _); [|by apply t_ret]. eapply t_bind; [apply (lax_reading E _ T_lax)|]. intros fd.
    eapply t_bind; [by apply (lax_recheck E _ T_lax)|]. intros sl. by apply t_ret. }
  intros []. eapply t_bind; [apply s_release|]. intros []. apply t_ret. intros b tr _. unfold R, small. by eapply output_small.
Qed.

(** OP_INFO keeps its output inside the response. *)
Lemma info_windows_small ext h prof ws out n :
  Z.of_nat (length out) <= AMBA_VIRT_IAV_MAX_OUT -> (ext = false -> Z.of_nat (length out) = 32 * n /\ 0 <= n) ->
  Z.of_nat (length (fst (info_windows ext h prof ws out n))) <= AMBA_VIRT_IAV_MAX_OUT.
Proof.
  assert (AMBA_VIRT_IAV_MAX_OUT = 4040) as Hm by reflexivity. revert out n. induction ws as [|w ws IH]; intros out n Hl Hn; [done|].
  cbn [info_windows]. destruct (_ && _); [by apply IH|]. destruct ext.
  - destruct (_ || (AMBA_VIRT_IAV_MAX_OUT <? _)) eqn:E0; [by apply IH|]. apply orb_false_iff in E0 as [_ E0]. apply Z.ltb_ge in E0.
    apply IH; [|done]. rewrite length_app. unfold entry_bytes. rewrite enc_length by done. change (struct_size ENTRY_FIELDS) with 48 in E0.
    change (sum_list ENTRY_FIELDS) with 48%nat. lia.
  - destruct (_ || (AMBA_VIRT_IAV_MAX_WINDOWS <=? n)) eqn:E0; [by apply IH|]. apply orb_false_iff in E0 as [_ E0]. apply Z.leb_gt in E0.
    unfold AMBA_VIRT_IAV_MAX_WINDOWS in E0. destruct (Hn eq_refl) as [Ho Hp].
    assert (Hw : Z.of_nat (length (out ++ window_bytes (bw_id w) (bw_base w) (bw_size w) (bw_part_len w))) = 32 * (n + 1)).
    { rewrite length_app. unfold window_bytes. rewrite enc_length by done. change (sum_list WINDOW_FIELDS) with 32%nat. lia. }
    apply IH; [lia|]. intros _. lia.
Qed.

Lemma concat_entries (f : aux_entry -> iav_entry) l : length (concat (map (fun a => entry_bytes (f a)) l)) = (48 * length l)%nat.
Proof.
  induction l as [|a l IH]; [done|]. cbn [map concat length]. rewrite length_app, IH. unfold entry_bytes. rewrite enc_length by done.
  change (sum_list ENTRY_FIELDS) with 48%nat. lia.
Qed.

Lemma entry_length e : length (entry_bytes e) = 48%nat.
Proof. unfold entry_bytes. by rewrite enc_length. Qed.

Lemma s_info q : triple E T (op_info cid q) R R.
Proof.
  unfold op_info. eapply t_bind; [apply s_refuse_if|]. intros []. eapply t_bind; [apply (lax_hello E _ T_lax)|]. intros hello.
  eapply t_bind; [apply (lax_effective' E _ T_lax)|]. intros prof. cbv zeta. set (ok := fun (o : list Z * Z) (_ : broker) (_ : list event) =>
    Z.of_nat (length (fst o)) <= AMBA_VIRT_IAV_MAX_OUT).
  eapply (t_bind _ _ _ _ _ ok).
  { apply t_reading. intros n b tr _. apply info_windows_small; [done|]. cbn. lia. }
  intros o1. eapply (t_bind _ _ _ _ _ ok).
  { destruct (_ && _ && _); [|by apply t_ret]. eapply (t_bind _ _ _ _ _ (fun _ => ok o1)); [apply (lax_aperture E (ok o1))|].
    intros ap. apply t_ret. intros b tr Ho. unfold ok in *. destruct (_ && _) eqn:E0; [|done]. apply andb_true_iff in E0 as [_ E0].
    apply Z.leb_le in E0. cbn [fst]. rewrite !length_app, concat_entries, entry_length. change (struct_size ENTRY_FIELDS) with 48 in E0. lia. }
  intros o2. eapply (t_bind _ _ _ _ _ ok).
  { destruct (_ && _ && _); [|by apply t_ret]. eapply (t_bind _ _ _ _ _ (fun _ => ok o2)).
    { apply (lax_slice E). by split. }
    intros [[pool index]|]; [|by apply t_ret]. apply t_ret. intros b tr Ho. unfold ok in *. destruct (Z.leb_spec (Z.of_nat (length (fst o2)) + struct_size ENTRY_FIELDS) AMBA_VIRT_IAV_MAX_OUT) as [E0|]; [|done].
    cbn [fst]. rewrite length_app, entry_length. change (struct_size ENTRY_FIELDS) with 48 in E0. lia. }
  intros o3. by apply t_ret.
Qed.

Lemma small_answer rc err handle value out :
  (length out <= 64)%nat -> small (answer rc err handle value out).
Proof. intros H. unfold small. assert (AMBA_VIRT_IAV_MAX_OUT = 4040) as Hm by reflexivity. cbn. lia. Qed.

Lemma s_map q : triple E T (op_map cid q) R R.
Proof.
  unfold op_map. cbv zeta. eapply t_bind; [apply s_refuse_if|]. intros []. eapply t_bind; [apply s_acquire|]. intros i.
  eapply t_bind; [apply s_release|]. intros []. do 3 (eapply t_bind; [apply s_refuse_if|]; intros []).
  eapply t_bind; [apply s_locked|]. intros [[]|[w|]]; [apply s_refuse|..].
  - eapply (t_bind _ _ _ _ _ (fun _ => T)).
    { destruct (window_primary_only _); [apply (lax_effective' E _ T_lax)|by apply t_ret]. }
    intros prof. do 2 (eapply t_bind; [apply s_refuse_if|]; intros []). apply t_ret. intros b tr _. apply small_answer.
    unfold map_bytes. rewrite enc_length by done. vm_compute. lia.
  - unfold map_aux. cbv zeta. eapply t_bind; [apply (lax_hello E _ T_lax)|]. intros hello.
    eapply t_bind; [apply s_refuse_if|]. intros []. eapply t_bind; [apply (lax_effective' E _ T_lax)|]. intros prof.
    eapply t_bind; [apply s_refuse_if|]. intros []. eapply t_bind; [apply (lax_aperture E)|]. intros ap.
    destruct (List.find _ _) as [a|]; [|apply s_refuse]. eapply t_bind; [apply s_refuse_if|]. intros [].
    eapply t_bind; [apply (lax_count E _ T_lax)|]. intros []. apply t_ret. intros b tr _. apply small_answer.
    unfold map_bytes. rewrite enc_length by done. vm_compute. lia.
Qed.

Lemma s_hello q arg : triple E T (op_hello cid q arg) R R.
Proof.
  unfold op_hello. eapply t_bind; [apply s_refuse_if|]. intros []. cbv zeta. eapply t_bind; [apply s_refuse_if|]. intros [].
  eapply t_bind; [apply (lax_effective' E _ T_lax)|]. intros prof. cbv zeta. eapply (t_bind _ _ _ _ _ (fun _ => T)).
  { destruct (_ && _); [|by apply t_ret]. eapply t_bind; [apply (lax_slice E _ T_lax)|]. intros sl. by apply t_ret. }
  intros a1. eapply (t_bind _ _ _ _ _ (fun _ => T)).
  { destruct (_ && _); [|by apply t_ret]. eapply t_bind; [apply (lax_aperture E)|]. intros ap. by apply t_ret. }
  intros a2. eapply (t_bind _ _ _ _ _ (fun r _ _ => forall g out, r = Some (g, out) -> (length out <= 64)%nat)).
  { apply t_locked. intros n b tr r b' _ Hc g out ->. unfold hello_commit in Hc. destruct (cid_state _ cid _) as [[k|] b1]; [|done].
    injection Hc as <- <- _. unfold hello_resp_bytes. rewrite enc_length by done. vm_compute. lia. }
  intros [[g out]|]; [|apply t_refuse; intros b tr _; by apply small_nil].
  apply t_ret. intros b tr Ho. apply small_answer. by apply (Ho g out).
Qed.

Lemma s_dispatch q arg : triple E T (dispatch pol cid q arg) R R.
Proof.
  unfold dispatch. cbv zeta.
  destruct (_ =? AMBA_VIRT_IAV_OP_OPEN).
  { destruct (_ =? _); [|apply s_refuse]. unfold op_open. eapply t_bind; [apply s_locked|]. intros [err|i]; [apply s_refuse|].
    eapply t_bind; [apply (lax_ask E)|]. intros [errno|fd].
    - eapply t_bind; [apply s_locked|]. intros []. apply t_ret. intros b tr _. by apply small_nil.
    - eapply t_bind; [apply s_emit|]. intros []. eapply t_bind; [apply s_locked|]. intros [[ok fds] handle].
      eapply t_bind; [apply s_emit|]. intros []. destruct ok; [|apply s_refuse]. apply t_ret. intros b tr _. by apply small_nil. }
  destruct (_ =? AMBA_VIRT_IAV_OP_CLOSE).
  { destruct (_ =? _); [|apply s_refuse]. unfold op_close. eapply t_bind; [apply s_acquire|]. intros i.
    eapply t_bind; [apply s_locked|]. intros fds. eapply t_bind; [apply s_emit|]. intros []. apply t_ret. intros b tr _. by apply small_nil. }
  destruct (_ =? AMBA_VIRT_IAV_OP_IOCTL); [apply s_ioctl|].
  destruct (_ =? AMBA_VIRT_IAV_OP_MAP); [apply s_map|].
  destruct (_ =? AMBA_VIRT_IAV_OP_POLL).
  { unfold op_poll. cbv zeta. eapply t_bind; [apply s_refuse_if|]. intros []. eapply t_bind; [apply s_acquire|]. intros i.
    eapply t_bind; [apply (lax_reading E _ T_lax)|]. intros fd. eapply t_bind; [apply s_emit|]. intros [].
    eapply t_bind; [apply (lax_ask E)|]. intros [[n errno] revents]. eapply t_bind; [apply s_release|]. intros [].
    apply t_ret. intros b tr _. destruct (n <? 0); by apply small_nil. }
  destruct (_ =? AMBA_VIRT_IAV_OP_INFO); [apply s_info|].
  destruct (_ =? AMBA_VIRT_IAV_OP_SLICE).
  { unfold op_slice. destruct (_ <? _); [apply s_refuse|]. cbv zeta. eapply t_bind; [apply (lax_reading E _ T_lax)|]. intros pool.
    eapply t_bind; [apply (lax_ask E)|]. intros w. destruct pool; [|apply s_refuse]. destruct w; [|apply s_refuse].
    destruct (virt_iav_guest_slice_admit _ _); [apply s_refuse|apply s_ioctl]. }
  destruct (_ =? AMBA_VIRT_IAV_OP_HELLO); [apply s_hello|]. destruct (_ =? AMBA_VIRT_IAV_OP_ARENA); [|apply s_refuse].
  unfold op_arena. eapply (t_bind _ _ _ _ _ (fun _ => T)).
  { unfold arena_admission. destruct (Nat.ltb _ _); [by apply t_ret|]. eapply t_bind; [apply (lax_hello E _ T_lax)|].
    intros hello. destruct (_ || _); [by apply t_ret|]. eapply t_bind; [apply (lax_effective' E _ T_lax)|]. intros prof.
    destruct (_ || _); [by apply t_ret|]. eapply t_bind; [apply (lax_slice E _ T_lax)|]. intros sl. by apply t_ret. }
  intros [err|x]; [|apply s_ioctl]. eapply t_bind; [apply (lax_count E _ T_lax)|]. intros []. apply s_refuse.
Qed.

Lemma s_request req : triple E T (request pol cid req) R R.
Proof.
  unfold request. eapply t_bind; [apply s_locked|]. intros [rc|]; [|apply s_refuse]. cbv zeta.
  do 4 (eapply t_bind; [apply s_refuse_if|]; intros []). apply s_dispatch.
Qed.

End Small.

(** The header of a reply. *)
Definition reply_head (p : rsp) : iav_resp :=
  {| rs_proto := AMBA_VIRT_IAV_PROTO; rs_status := rp_status p; rs_rc := rp_rc p; rs_err := rp_err p; rs_handle := rp_handle p; rs_value := rp_value p;
     rs_out_len := u32 (Z.of_nat (length (rp_out p))); rs_reserved := 0 |}.

Lemma handle_fits E cid req cap s ret bytes s' :
  AMBA_VIRT_MAX_MSG - SIZEOF_MSG <= cap -> iav_broker_handle pol cid req cap E s = (ret, bytes, s') ->
  ret = 0 /\ exists p, small p /\ bytes = resp_bytes (reply_head p) ++ rp_out p.
Proof.
  intros Hcap. unfold iav_broker_handle. destruct (request pol cid req E s) as [r s1] eqn:Er.
  pose proof (s_request E cid req s r s1 I Er) as Hs. set (p := match r with inl r => r | inr r => r end).
  assert (Hp : small p) by (by destruct r). clear Hs. pose proof Hp as Hp0. unfold small in Hp0.
  change (AMBA_VIRT_MAX_MSG - SIZEOF_MSG) with 4080 in *. change AMBA_VIRT_IAV_MAX_OUT with 4040 in Hp0.
  unfold reply_build. change SIZEOF_RESP with 40.
  rewrite (proj2 (Z.ltb_ge cap 40)), (proj2 (Z.ltb_ge (cap - 40) _)) by lia. cbn [orb]. fold (reply_head p).
  intros Hres. assert (Hb : ret = 0 /\ bytes = resp_bytes (reply_head p) ++ rp_out p) by (destruct (negb _); by injection Hres).
  destruct Hb as [-> ->]. split; [done|]. by exists p.
Qed.

(** C38: Whatever bytes a guest sends and whatever the driver answers, the broker answers: with room for one message the
    response is built, it is no longer than a message, and it reads back as a response of the protocol whose output
    length is the bytes that follow its header. *)
Theorem responses_wellformed E cid req cap s ret bytes s' :
  AMBA_VIRT_MAX_MSG - SIZEOF_MSG <= cap -> iav_broker_handle pol cid req cap E s = (ret, bytes, s') ->
  ret = 0 /\ SIZEOF_RESP <= Z.of_nat (length bytes) <= AMBA_VIRT_MAX_MSG - SIZEOF_MSG /\
  rs_proto (resp_of bytes) = AMBA_VIRT_IAV_PROTO /\ rs_reserved (resp_of bytes) = 0 /\
  rs_out_len (resp_of bytes) = Z.of_nat (length bytes) - SIZEOF_RESP.
Proof.
  intros Hcap Hres. destruct (handle_fits _ _ _ _ _ _ _ _ Hcap Hres) as (-> & p & Hp & ->). unfold small in Hp.
  change (AMBA_VIRT_MAX_MSG - SIZEOF_MSG) with 4080 in *. change SIZEOF_RESP with 40. change AMBA_VIRT_IAV_MAX_OUT with 4040 in Hp.
  rewrite length_app, resp_bytes_length. split; [done|]. split; [lia|].
  unfold resp_of, fld, resp_bytes. rewrite dec_enc by done. cbn [zip_with nth RESP_FIELDS rs_proto rs_reserved rs_out_len reply_head].
  rewrite !wrap_id by (rewrite ?u32_id by lia; cbn; unfold AMBA_VIRT_IAV_PROTO; lia).
  split; [done|]. split; [done|]. rewrite u32_id by lia. lia.
Qed.

(** ** Mapping *)

(** A role of the guest that may use what only the primary uses. *)
Definition may_primary (E : env) (cid : Z) (b : broker) : Prop := exists prof, role_of E cid b prof /\ prof <> IAV_PROFILE_CONSUMER.

Lemma not_consumer p : is_consumer p = false -> p <> IAV_PROFILE_CONSUMER.
Proof. unfold is_consumer. intros H. by apply bool_decide_eq_false in H. Qed.

(** What the windows and the apertures the guest may name are. *)
Definition map_granted (E : env) (cid : Z) (b : broker) (q : iav_req) (p : rsp) : Prop :=
  (exists w, w ∈ br_windows b /\ bw_base w = rq_arg_value q /\ rq_arg2 q <= 2 * bw_part_len w /\
     (window_primary_only (bw_id w) = true -> may_primary E cid b) /\
     p = answer 0 0 0 (bw_id w) (map_bytes (bw_id w) (rq_cmd q) 0 (rq_arg2 q))) \/
  (exists n ap a, ev_aperture_of E n cid = Some ap /\ aperture_ok ap = true /\ a ∈ ap_entries ap /\
     ax_base a = rq_arg_value q /\ rq_arg2 q <= 2 * ax_len a /\ may_primary E cid b /\
     p = answer 0 0 0 (AMBA_VIRT_IAV_ENT_ID_AUX + ax_pid a)
           (map_bytes (AMBA_VIRT_IAV_ENT_ID_AUX + ax_pid a) (rq_cmd q) (ax_offset a) (rq_arg2 q))).

Section Mapping.
Context (E : env) (HE : rely E) (cid : Z) (b0 : broker).

Let J : assn := fun b _ => br_rest b = br_rest b0.
Let R : rsp -> assn := fun _ _ _ => True.

Lemma J_lax : lax E J.
Proof. split; [intros n b tr H; unfold J; by rewrite (rl_cfg _ HE)|]. intros b b' tr _ H1 H2. unfold J. by rewrite H1. Qed.

Lemma j_role p b : (p = IAV_PROFILE_PRIMARY /\ (exists n, ev_is_primary E n cid = true) \/ p = cf_profile (br_cfg b)) ->
  br_rest b = br_rest b0 -> role_of E cid b0 p.
Proof. intros [H|H] Hr; [by left|right]. injection Hr as Hc _ _. by rewrite <- Hc. Qed.

Lemma j_effective : triple E J (effective_profile cid) R (fun p b tr => role_of E cid b0 p /\ J b tr).
Proof.
  eapply t_conseq; [apply (st_effective E J (lx_other _ _ J_lax))|done|]. intros p b tr [Hp Hj]. split; [by apply (j_role p b)|done].
Qed.

Lemma j_guard c err : triple E J (refuse_if c err) R (fun _ b tr => c = false /\ J b tr).
Proof. by apply t_refuse_if. Qed.

Lemma session_acquire_rest now h b : br_rest (snd (session_acquire now cid h b)) = br_rest b.
Proof. unfold session_acquire. cbv zeta. by repeat case_match. Qed.

Lemma session_release_rest now i b : br_rest (snd (session_release now i b)) = br_rest b.
Proof.
  unfold session_release. destruct (_ && _); [|done]. pose proof (free_cfg now i (put_sess b i (set_refs (sess_at b i) (se_refs (sess_at b i) - 1)))) as H.
  by destruct (session_free_locked _ _ _).
Qed.

Lemma j_locked {A} (f : Z -> broker -> A * broker) :
  (forall now b, br_rest (snd (f now b)) = br_rest b) -> triple E J (locked f) R (fun _ => J).
Proof.
  intros Hf. apply t_locked. intros n b tr a b' Hb Hr. apply (lx_other _ _ J_lax n) in Hb. unfold J in *.
  specialize (Hf (ev_now E n) (ev_other E n b)). rewrite Hr in Hf. cbn in Hf. congruence.
Qed.

Lemma map_aux_grants q :
  triple E J (map_aux cid q) R (fun p _ _ => map_granted E cid b0 q p).
Proof.
  unfold map_aux. cbv zeta. eapply t_bind; [apply (lax_hello E _ J_lax)|]. intros hello. eapply t_bind; [apply j_guard|].
  intros []. apply t_pure. intros _. eapply t_bind; [apply j_effective|]. intros prof. apply t_pure. intros Hrole.
  eapply t_bind; [apply j_guard|]. intros []. apply t_pure. intros Hcons. unfold aperture_of.
  eapply (t_bind _ _ _ _ _ (fun ap b tr => (forall a, a ∈ ap_entries ap -> exists n, ev_aperture_of E n cid = Some ap /\ aperture_ok ap = true) /\ J b tr)).
  { eapply (t_bind _ _ _ _ _ (fun r b tr => (exists n, r = ev_aperture_of E n cid) /\ J b tr)).
    - apply t_ask. intros n b tr H. split; [by exists n|done].
    - intros r. apply t_ret. intros b tr [[n ->] Hj]. split; [|done]. intros a Ha. exists n.
      destruct (ev_aperture_of E n cid) as [ap|]; [|by apply not_elem_of_nil in Ha].
      destruct (aperture_ok ap) eqn:Eok; [done|by apply not_elem_of_nil in Ha]. }
  intros ap. apply t_pure. intros Hap. destruct (List.find _ _) as [a|] eqn:Ef; [|by apply t_refuse].
  apply List.find_some in Ef as [Hin Hbase]. apply list_elem_of_In in Hin. apply Z.eqb_eq in Hbase.
  destruct (Hap a Hin) as (n & Hn & Hok). eapply t_bind; [apply j_guard|]. intros []. apply t_pure. intros Hlen. apply Z.ltb_ge in Hlen.
  eapply t_bind; [apply (lax_count E _ J_lax)|]. intros []. cbv zeta. apply t_ret. intros b tr _. right. exists n, ap, a.
  do 3 (split; [done|]). split; [done|]. split; [|split; [|done]].
  - pose proof (rl_aperture _ HE n cid ap Hn) as Hu. rewrite Forall_forall in Hu. specialize (Hu a Hin). unfold is_u64 in Hu.
    pose proof (u64_le (2 * ax_len a)). lia.
  - exists prof. split; [done|by apply not_consumer].
Qed.

Lemma op_map_grants q :
  Forall (fun w => is_u64 (bw_part_len w)) (br_windows b0) ->
  triple E J (op_map cid q) R (fun p b tr => rq_arg2 q mod PAGE_BYTES = 0 /\ rq_arg_value q mod PAGE_BYTES = 0 /\
    rq_arg2 q <> 0 /\ Z.land (rq_cmd q) (not32 3) = 0 /\ Z.land (rq_cmd q) PROT_READ <> 0 /\ map_granted E cid b0 q p).
Proof.
  intros Hws. unfold op_map. cbv zeta. eapply t_bind; [apply j_guard|]. intros []. apply t_pure. intros _.
  eapply (t_bind _ _ _ _ _ (fun _ => J)).
  { unfold acquire. eapply t_bind.
    - apply j_locked. intros now b. pose proof (session_acquire_rest now (rq_handle q) b) as H. by destruct (session_acquire _ _ _ _).
    - intros [e|[[i epoch] y]]; [by apply t_refuse|]. eapply (t_bind _ _ _ _ _ (fun _ => J)); [by apply t_emit|]. intros []. by apply t_ret. }
  intros i. eapply (t_bind _ _ _ _ _ (fun _ => J)).
  { unfold release. eapply t_bind; [apply j_locked; intros; apply session_release_rest|]. intros fds. by apply t_emit. }
  intros []. eapply t_bind; [apply j_guard|]. intros []. apply t_pure. intros Hal.
  eapply t_bind; [apply j_guard|]. intros []. apply t_pure. intros Hprot. eapply t_bind; [apply j_guard|]. intros []. apply t_pure. intros Hread.
  apply orb_false_iff in Hal as [Hal Hal2]. apply orb_false_iff in Hal as [Hal0 Hal1]. apply Z.eqb_neq in Hal0.
  apply negb_false_iff, Z.eqb_eq in Hal1. apply negb_false_iff, Z.eqb_eq in Hal2. apply negb_false_iff, Z.eqb_eq in Hprot. apply Z.eqb_neq in Hread.
  eapply (t_bind _ _ _ _ _ (fun w b tr => (forall x, w = inr (Some x) -> x ∈ br_windows b0 /\ bw_base x = rq_arg_value q) /\ J b tr)).
  { apply t_locked. intros n b tr w b' Hb Hw. apply (lx_other _ _ J_lax n) in Hb. destruct (br_stale _); injection Hw as <- <-; [done|].
    split; [|done]. intros x Hx. injection Hx as Hx. apply List.find_some in Hx as [Hin Hb']. apply list_elem_of_In in Hin. apply Z.eqb_eq in Hb'.
    injection Hb as _ Hwin _. rewrite <- Hwin. done. }
  intros w. apply t_pure. intros Hw. destruct w as [[]|[w|]]; [by apply t_refuse| |].
  2:{ eapply t_conseq; [apply map_aux_grants|done|]. intros p b tr Hg. done. }
  destruct (Hw w eq_refl) as [Hin Hbase].
  eapply (t_bind _ _ _ _ _ (fun p b tr => (window_primary_only (bw_id w) = true -> role_of E cid b0 p) /\ J b tr)).
  { destruct (window_primary_only (bw_id w)); [|by apply t_ret]. eapply t_conseq; [apply j_effective|done|]. intros p b tr [Hp Hj]. done. }
  intros prof. apply t_pure. intros Hrole. eapply t_bind; [apply j_guard|]. intros []. apply t_pure. intros Hcons.
  eapply t_bind; [apply j_guard|]. intros []. apply t_pure. intros Hlen. apply Z.ltb_ge in Hlen. apply t_ret. intros b tr _.
  do 5 (split; [done|]). left. exists w. do 2 (split; [done|]). split; [|split; [|done]].
  - rewrite Forall_forall in Hws. specialize (Hws w Hin). unfold is_u64 in Hws. pose proof (u64_le (2 * bw_part_len w)). lia.
  - intros Hp. rewrite Hp in Hcons. cbn [andb] in Hcons. exists prof. split; [by apply Hrole|by apply not_consumer].
Qed.

End Mapping.

(** A mapping the broker authorises is page aligned and not empty, asks for reading and at most writing, starts at
    the base of a window of the server or of an entry of the guest's own checked aperture, and is at most twice the
    partition behind it (the ring); the decode and overlay windows and every aperture entry go only to a guest whose
    role is not the consumer's. *)
Theorem map_grants E cid q s p s' :
  rely E -> Forall (fun w => is_u64 (bw_part_len w)) (br_windows (st_b s)) -> op_map cid q E s = (inr p, s') ->
  rq_arg2 q mod PAGE_BYTES = 0 /\ rq_arg_value q mod PAGE_BYTES = 0 /\ rq_arg2 q <> 0 /\
  Z.land (rq_cmd q) (not32 3) = 0 /\ Z.land (rq_cmd q) PROT_READ <> 0 /\ map_granted E cid (st_b s) q p.
Proof. intros HE Hws Hrun. exact (op_map_grants E HE cid (st_b s) q Hws s _ _ eq_refl Hrun). Qed.

(** ** The buffers of the slice protocol *)

(** The widths of the two structures. *)
Definition pool_words (p : guest_pool) : Prop :=
  is_u64 (gp_parent_base p) /\ is_u64 (gp_parent_bytes p) /\ is_u64 (gp_slice_bytes p) /\ is_u32 (gp_slice_count p).
Definition slice_words (r : guest_slice_req) : Prop :=
  is_u32 (gr_caller_slice r) /\ is_u64 (gr_offset r) /\ is_u64 (gr_length r).

(** A pool cut exactly into one to eight slices, aligned to their size. *)
Definition pool_cut (p : guest_pool) : Prop :=
  1 <= gp_slice_count p <= 8 /\ 0 < gp_slice_bytes p /\ gp_parent_bytes p = gp_slice_count p * gp_slice_bytes p /\
  (gp_slice_bytes p | gp_parent_base p).

Lemma pool_cut_iff p :
  pool_words p ->
  ((gp_slice_count p =? 0) || (8 <? gp_slice_count p) = false /\
   (gp_slice_bytes p =? 0) || negb (gp_parent_bytes p / gp_slice_bytes p =? gp_slice_count p) || negb (gp_parent_bytes p mod gp_slice_bytes p =? 0) = false /\
   negb (gp_parent_base p mod gp_slice_bytes p =? 0) = false) <-> pool_cut p.
Proof.
  intros (Hb & Hp & Hs & Hc). unfold is_u64, is_u32, pool_cut in *. rewrite !orb_false_iff, !negb_false_iff, !Z.eqb_neq, !Z.eqb_eq, Z.ltb_ge.
  split.
  - intros ([H1 H2] & [[H3 H4] H5] & H6). split; [lia|]. split; [lia|]. split; [|by apply Z.mod_divide].
    pose proof (Z.div_mod (gp_parent_bytes p) (gp_slice_bytes p) H3). nia.
  - intros (H1 & H2 & H3 & H4). split; [lia|]. split; [split; [split; [lia|]|]|apply Z.mod_divide; [lia|done]].
    + rewrite H3. apply Z.div_mul. lia.
    + rewrite H3. apply Z.mod_mul. lia.
Qed.

(** The slice protocol admits a buffer exactly when the pool is cut evenly into its slices, the guest names the
    pool's partition, its own slice and no physical address, and the buffer, not empty, lies inside that slice; the
    job then gets the parent's address plus the offset, with no wrap-around. *)
Theorem slice_admit_iff p r d :
  pool_words p -> slice_words r ->
  virt_iav_guest_slice_admit p r = inr d <->
  pool_cut p /\ gr_phys r = 0 /\ gr_partition_id r = gp_partition_id p /\ gr_claimed_slice r = gr_caller_slice r /\
  gr_caller_slice r < gp_slice_count p /\ 0 < gr_length r /\ gr_caller_slice r * gp_slice_bytes p <= gr_offset r /\
  gr_offset r + gr_length r <= (gr_caller_slice r + 1) * gp_slice_bytes p /\ gp_parent_base p + gr_offset r < 2 ^ 64 /\
  d = {| gd_partition_id := gp_partition_id p; gd_phys := gp_parent_base p + gr_offset r; gd_length := gr_length r |}.
Proof.
  intros Hp (Hc & Ho & Hl). pose proof (pool_cut_iff p Hp) as Hcut. destruct Hp as (Hb & Hpb & Hs & Hn). unfold virt_iav_guest_slice_admit.
  destruct ((gp_slice_count p =? 0) || _) eqn:C1; [split; [done|]; intros [Hq _]; by apply Hcut in Hq as [Hq _]|].
  destruct ((gp_slice_bytes p =? 0) || _ || _) eqn:C2; [split; [done|]; intros [Hq _]; by apply Hcut in Hq as (_ & Hq & _)|].
  destruct (negb (gp_parent_base p mod _ =? 0)) eqn:C3; [split; [done|]; intros [Hq _]; by apply Hcut in Hq as (_ & _ & Hq)|].
  assert (Hq : pool_cut p) by (by apply Hcut). clear C1 C2 C3 Hcut. destruct Hq as (Hq1 & Hq2 & Hq3 & Hq4).
  destruct (Z.eqb_spec (gr_phys r) 0) as [E1|]; cbn [negb]; [|split; [done|tauto]].
  destruct (Z.eqb_spec (gr_partition_id r) (gp_partition_id p)) as [E2|]; cbn [negb]; [|split; [done|tauto]].
  destruct (Z.eqb_spec (gr_claimed_slice r) (gr_caller_slice r)) as [E3|]; cbn [negb]; [|split; [done|tauto]].
  destruct (Z.leb_spec (gp_slice_count p) (gr_caller_slice r)) as [|E4]; [split; [done|lia]|].
  destruct (Z.eqb_spec (gr_length r) 0) as [|E5]; [split; [done|lia]|]. unfold is_u64, is_u32 in *. cbv zeta.
  assert (Hm : 0 <= gr_caller_slice r * gp_slice_bytes p /\ (gr_caller_slice r + 1) * gp_slice_bytes p <= gp_parent_bytes p) by nia.
  rewrite (u64_id (gr_caller_slice r * _)) by nia. rewrite (u64_id (gr_caller_slice r * _ + _)) by nia.
  destruct (Z.ltb_spec (gr_offset r) (gr_caller_slice r * gp_slice_bytes p)) as [|E6]; [split; [done|lia]|].
  destruct (Z.ltb_spec (gp_parent_bytes p) (gr_offset r)) as [|E7]; cbn [orb]; [split; [done|lia]|].
  rewrite (u64_id (gp_parent_bytes p - _)) by lia.
  destruct (Z.ltb_spec (gp_parent_bytes p - gr_offset r) (gr_length r)) as [|E8]; [split; [done|lia]|].
  rewrite (u64_id (gr_offset r + _)) by lia.
  destruct (Z.ltb_spec (gr_caller_slice r * gp_slice_bytes p + gp_slice_bytes p) (gr_offset r + gr_length r)) as [|E9]; [split; [done|lia]|].
  destruct (Z.ltb_spec (2 ^ 64 - 1 - gr_offset r) (gp_parent_base p)) as [|E10]; [split; [done|lia]|].
  rewrite u64_id by lia. split.
  - intros [= <-]. repeat (split; [first [done|lia]|]). done.
  - by intros (_ & _ & _ & _ & _ & _ & _ & _ & _ & ->).
Qed.

(** ** Negotiation *)

Lemma hello_commit_records cid inp prof a1 a2 now b g out b' :
  hello_commit cid inp prof a1 a2 now b = (Some (g, out), b') ->
  g = granted (hl_features inp) (br_host_features b) a1 a2 /\
  exists max_id, max_id <= AMBA_VIRT_IAV_MAX_WINDOWS - 1 /\ max_id <= hl_max_window_id inp /\
    out = hello_resp_bytes AMBA_VIRT_IAV_REVISION (hello_role prof) g max_id (br_table_rows b) (br_table_hash b) /\
    hello_of cid b' = {| he_done := true; he_revision := hl_revision inp; he_features := g; he_max_window_id := max_id;
                         he_page_size := hl_page_size inp; he_table_hash := hl_table_hash inp |}.
Proof.
  unfold hello_commit. cbv zeta. set (max_id := if hl_max_window_id inp <? _ then _ else _).
  assert (Hmax : max_id <= AMBA_VIRT_IAV_MAX_WINDOWS - 1 /\ max_id <= hl_max_window_id inp)
    by (unfold max_id; destruct (Z.ltb_spec (hl_max_window_id inp) (AMBA_VIRT_IAV_MAX_WINDOWS - 1)); lia).
  destruct (cid_state now cid b) as [[k|] b1] eqn:Ec; [|done]. intros [= <- <- <-]. split; [done|]. exists max_id.
  split; [lia|]. split; [lia|]. split; [done|]. unfold hello_of. cbn [br_cids with_count with_cids].
  set (h := {| he_done := true |}).
  assert (Hk : find_idx (fun c => ci_used c && (ci_cid c =? cid)) (br_cids b1) = Some k /\ exists c, br_cids b1 !! k = Some c).
  { unfold cid_state in Ec. destruct (find_idx (fun c => ci_used c && (ci_cid c =? cid)) (br_cids b)) as [i|] eqn:Ef.
    - injection Ec as <- <-. split; [done|]. apply find_idx_Some in Ef as (c & Hc & _). by exists c.
    - set (free := match find_idx _ (br_cids b) with Some i => Some i | None => _ end) in Ec.
      destruct free as [i|] eqn:Efree; [|done]. injection Ec as <- <-. cbn [br_cids with_cids].
      assert (Hi : (i < length (br_cids b))%nat).
      { unfold free in Efree. destruct (find_idx (fun c => negb (ci_used c)) (br_cids b)) as [j|] eqn:Ej.
        - injection Efree as <-. apply find_idx_Some in Ej as (c & Hc & _). by eapply lookup_lt_Some.
        - apply SessionProps.idle_longest_spec in Efree as [[ms ?]|(c & Hc & _)]; [done|].
          rewrite Nat.sub_0_r in Hc. by eapply lookup_lt_Some. }
      split; [|eexists; by rewrite list_lookup_insert_eq].
      eapply find_idx_unique; [by rewrite list_lookup_insert_eq|cbn; apply Z.eqb_refl|].
      intros j c Hc Hm. destruct (decide (j = i)) as [|Hne]; [done|]. rewrite list_lookup_insert_ne in Hc by done.
      rewrite find_idx_None in Ef. specialize (Ef j c Hc). congruence. }
  destruct Hk as [Hf [c Hc]]. revert Hf Hc. generalize (br_cids b1). clear. intros l. revert k. induction l as [|x l IH]; intros k; [done|].
  cbn [find_idx]. destruct (ci_used x && (ci_cid x =? cid)) eqn:Ex.
  - intros [= <-] Hc. cbn. by rewrite Ex.
  - destruct (find_idx _ l) as [j|] eqn:Ej; [|done]. intros [= <-] Hc. cbn in Hc. cbn. rewrite Ex. by apply IH.
Qed.

Lemma granted_bits f host a1 a2 k :
  Z.testbit (granted f host a1 a2) k = true -> Z.testbit f k = true.
Proof. unfold granted. rewrite Z.land_spec. by intros [? _]%andb_true_iff. Qed.

Lemma granted_flag f host (a1 a2 : bool) :
  0 <= host < 2 ->
  (has_flag (granted f host a1 a2) AMBA_VIRT_IAV_F_ARENA = true -> a1 = true) /\
  (has_flag (granted f host a1 a2) AMBA_VIRT_IAV_F_APERTURE = true -> a2 = true).
Proof.
  intros Hh. assert (Hb : forall i, has_flag (granted f host a1 a2) (2 ^ i) = true -> 0 <= i -> Z.testbit (granted f host a1 a2) i = true).
  { intros i Hf Hi. unfold has_flag in Hf. apply negb_true_iff, Z.eqb_neq in Hf. apply not_false_is_true. intros Ht. apply Hf.
    apply Z.bits_inj'. intros j Hj. rewrite Z.land_spec, Z.bits_0, Z.pow2_bits_eqb by done. destruct (Z.eqb_spec i j) as [<-|]; [by rewrite Ht|by rewrite andb_false_r]. }
  assert (Hhost : forall i, 1 <= i -> Z.testbit host i = false) by (intros i Hi; apply Z.bits_above_log2; [lia|]; assert (host = 0 \/ host = 1) as [-> | ->] by lia; cbn; lia).
  split; intros Hf.
  - specialize (Hb 4 Hf ltac:(lia)). unfold granted in Hb. rewrite Z.land_spec, !Z.lor_spec, (Hhost 4) in Hb by lia.
    destruct a1; [done|]. destruct a2; cbn in Hb; by rewrite andb_false_r in Hb.
  - specialize (Hb 3 Hf ltac:(lia)). unfold granted in Hb. rewrite Z.land_spec, !Z.lor_spec, (Hhost 3) in Hb by lia.
    destruct a2; [done|]. destruct a1; cbn in Hb; by rewrite andb_false_r in Hb.
Qed.

(** The server offers of its own only the write-combined windows. *)
Definition host_ok (b : broker) : Prop := 0 <= br_host_features b < 2.

Section Hello.
Context (E : env) (HE : rely E) (Hhost : forall n b, host_ok b -> host_ok (ev_other E n b)) (cid : Z) (b0 : broker).

Let J : assn := fun b _ => br_rest b = br_rest b0 /\ host_ok b.
Let R : rsp -> assn := fun _ _ _ => True.

Lemma H_other n b tr : J b tr -> J (ev_other E n b) tr.
Proof. intros [Hr Hh]. split; [by rewrite (rl_cfg _ HE)|by apply Hhost]. Qed.

(** What the two probes of the negotiation find. *)
Definition holds_slice (a : bool) : Prop := a = true -> exists n i, ev_slice_of E n cid = Some i.
Definition holds_aperture (a : bool) : Prop :=
  a = true -> exists n ap, ev_aperture_of E n cid = Some ap /\ aperture_ok ap = true /\ ap_entries ap <> [].

Lemma slice_probe : triple E J (s ← arena_slice cid; mret (bool_decide (is_Some s))) R (fun a b tr => holds_slice a /\ J b tr).
Proof.
  eapply (t_bind _ _ _ _ _ (fun sl b tr => (is_Some sl -> exists n i, ev_slice_of E n cid = Some i) /\ J b tr)).
  - unfold arena_slice. eapply t_bind; [apply (st_reading E J H_other)|].
    assert (Hnone : triple E J (mret (None : option (guest_pool * Z))) R (fun sl b tr => (is_Some sl -> exists n i, ev_slice_of E n cid = Some i) /\ J b tr)).
    { apply t_ret. intros b tr Hj. split; [|done]. by intros [? ?]. }
    intros [p|]; [|exact Hnone]. destruct (pool_usable p); [|exact Hnone].
    eapply (t_bind _ _ _ _ _ (fun w b tr => (exists n, w = ev_slice_of E n cid) /\ J b tr)).
    + apply t_ask. intros n b tr Hj. split; [by exists n|done].
    + intros w. apply t_ret. intros b tr [[n ->] Hj]. split; [|done]. intros [x Hx]. exists n.
      destruct (ev_slice_of E n cid) as [i|]; [by exists i|done].
  - intros sl. apply t_ret. intros b tr [Hs Hj]. split; [|done]. intros Ha. apply Hs. by apply bool_decide_eq_true in Ha.
Qed.

Lemma aperture_probe :
  triple E J (ap ← aperture_of cid; mret (negb (Nat.eqb (length (ap_entries ap)) 0))) R (fun a b tr => holds_aperture a /\ J b tr).
Proof.
  eapply (t_bind _ _ _ _ _ (fun ap b tr =>
    (ap_entries ap <> [] -> exists n, ev_aperture_of E n cid = Some ap /\ aperture_ok ap = true) /\ J b tr)).
  - unfold aperture_of. eapply (t_bind _ _ _ _ _ (fun r b tr => (exists n, r = ev_aperture_of E n cid) /\ J b tr)).
    + apply t_ask. intros n b tr Hj. split; [by exists n|done].
    + intros r. apply t_ret. intros b tr [[n ->] Hj]. split; [|done].
      destruct (ev_aperture_of E n cid) as [ap|] eqn:Ea; [|done]. destruct (aperture_ok ap) eqn:Eok; [|done]. intros _. by exists n.
  - intros ap. apply t_ret. intros b tr [Hap Hj]. split; [|done]. intros Hl. apply negb_true_iff, Nat.eqb_neq in Hl.
    assert (Hne : ap_entries ap <> []) by (intros Hn; by rewrite Hn in Hl). destruct (Hap Hne) as (n & Hn & Hok). by exists n, ap.
Qed.

(** A probe made only for a guest that is not a consumer and asked for the extended listing. *)
Lemma probe_if (wants : bool) (m : M bool) (P : bool -> Prop) :
  P false -> triple E J m R (fun a b tr => P a /\ J b tr) ->
  triple E J (if wants then m else mret false) R (fun a b tr => (P a /\ (a = true -> wants = true)) /\ J b tr).
Proof.
  intros H0 Hm. destruct wants; [|by apply t_ret]. eapply t_conseq; [exact Hm|done|]. intros a b tr [Ha Hj]. done.
Qed.

Definition hello_granted (inp : iav_hello) (p : rsp) (b : broker) : Prop :=
  let h := hello_of cid b in
  he_done h = true /\ rp_value p = he_features h /\ he_max_window_id h <= hl_max_window_id inp /\
  he_max_window_id h < AMBA_VIRT_IAV_MAX_WINDOWS /\
  (forall k, Z.testbit (he_features h) k = true -> Z.testbit (hl_features inp) k = true) /\
  (has_flag (he_features h) AMBA_VIRT_IAV_F_ARENA = true ->
     may_primary E cid b0 /\ has_flag (hl_features inp) AMBA_VIRT_IAV_F_EXT_INFO = true /\ holds_slice true) /\
  (has_flag (he_features h) AMBA_VIRT_IAV_F_APERTURE = true ->
     may_primary E cid b0 /\ has_flag (hl_features inp) AMBA_VIRT_IAV_F_EXT_INFO = true /\ holds_aperture true).

Lemma op_hello_grants q arg :
  triple E J (op_hello cid q arg) R (fun p b _ => hello_granted (hello_of_bytes arg) p b).
Proof.
  unfold op_hello. eapply (t_bind _ _ _ _ _ (fun _ => J)); [by apply t_refuse_if|]. intros [].
  cbv zeta. eapply (t_bind _ _ _ _ _ (fun _ => J)); [by apply t_refuse_if|]. intros []. set (inp := hello_of_bytes arg).
  eapply (t_bind _ _ _ _ _ (fun prof b tr => role_of E cid b0 prof /\ J b tr)).
  { eapply t_conseq; [apply (st_effective E J H_other)|done|]. intros p b tr [Hp Hj]. split; [|done]. by apply (j_role E cid b0 p b); [|apply Hj]. }
  intros prof. apply t_pure. intros Hrole. cbv zeta. set (wants := negb (is_consumer prof) && _).
  assert (Hw : wants = true -> may_primary E cid b0 /\ has_flag (hl_features inp) AMBA_VIRT_IAV_F_EXT_INFO = true).
  { intros [Hc He]%andb_true_iff. apply negb_true_iff in Hc. split; [|done]. exists prof. split; [done|by apply not_consumer]. }
  eapply t_bind; [apply (probe_if wants _ holds_slice); [done|apply slice_probe]|]. intros a1. apply t_pure. intros [H1 W1].
  eapply t_bind; [apply (probe_if wants _ holds_aperture); [done|apply aperture_probe]|]. intros a2. apply t_pure. intros [H2 W2].
  eapply (t_bind _ _ _ _ _ (fun r b tr => forall g out, r = Some (g, out) -> hello_granted inp (answer 0 0 0 g out) b)).
  2:{ intros [[g out]|]; [|by apply t_refuse]. apply t_ret. intros b tr Hg. by apply Hg. }
  apply t_locked. intros n b tr r b' Hj Hc g out ->. apply (H_other n) in Hj as [_ Hh].
  apply hello_commit_records in Hc as (-> & max_id & Hm1 & Hm2 & -> & Hrec). unfold hello_granted. cbv zeta. rewrite Hrec.
  cbn [he_done he_features he_max_window_id rp_value answer]. do 3 (split; [done|]). split; [unfold AMBA_VIRT_IAV_MAX_WINDOWS in *; lia|].
  split; [intros k; apply granted_bits|]. destruct (granted_flag (hl_features inp) (br_host_features (ev_other E n b)) a1 a2 Hh) as [Ga Gp].
  split; intros Hf.
  - specialize (Ga Hf). subst a1. destruct (Hw (W1 eq_refl)). done.
  - specialize (Gp Hf). subst a2. destruct (Hw (W2 eq_refl)). done.
Qed.

End Hello.

(** What a negotiation grants is recorded for the guest and is what the answer says: no feature the guest did not
    offer, no window identifier past the server's or the guest's; the arena only to a guest that is not a consumer,
    asked for the extended listing and holds a slice of the pool; the aperture only when the server has a checked,
    non-empty aperture of that guest. *)
Theorem hello_grants E cid q arg s p s' :
  rely E -> (forall n b, host_ok b -> host_ok (ev_other E n b)) -> host_ok (st_b s) ->
  op_hello cid q arg E s = (inr p, s') -> hello_granted E cid (st_b s) (hello_of_bytes arg) p (st_b s').
Proof. intros HE Hh H0 Hrun. exact (op_hello_grants E HE Hh cid (st_b s) q arg s _ _ (conj eq_refl H0) Hrun). Qed.

End WithAbi.

(** ** The theorems on a concrete server *)

Import BrokerSample.
#[local] Existing Instance TableProps.sample_abi.

Lemma responses_wellformed_witness :
  let '(ret, bytes, _) := iav_broker_handle sample_pol 5 sample_req 4080 sample_env (sample_st false) in
  ret = 0 /\ SIZEOF_RESP <= Z.of_nat (length bytes) <= AMBA_VIRT_MAX_MSG - SIZEOF_MSG.
Proof.
  destruct (iav_broker_handle sample_pol 5 sample_req 4080 sample_env (sample_st false)) as [[ret bytes] s'] eqn:E.
  destruct (responses_wellformed sample_pol sample_env 5 sample_req 4080 (sample_st false) ret bytes s' ltac:(vm_compute; congruence) E)
    as (H1 & H2 & _). exact (conj H1 H2).
Defined.

(** The primary maps the ring of the decode window. *)
Definition sample_map : iav_req :=
  {| rq_proto := 1; rq_op := AMBA_VIRT_IAV_OP_MAP; rq_handle := sample_handle; rq_cmd := 3; rq_arg_len := 0;
     rq_arg_value := 0x10000000; rq_arg2 := 0x600000 |}.

Lemma map_grants_witness : exists p, map_granted sample_env 5 (sample_state false) sample_map p.
Proof.
  destruct (op_map 5 sample_map sample_env (sample_st false)) as [[r|p] s'] eqn:E; [vm_compute in E; congruence|]. exists p.
  assert (Hw : Forall (fun w => is_u64 (bw_part_len w)) [sample_window]) by (constructor; [done|constructor]).
  exact (proj2 (proj2 (proj2 (proj2 (proj2 (map_grants sample_env 5 sample_map (sample_st false) p s' sample_rely Hw E)))))).
Defined.

(** A guest that offers the extended listing and the arena. *)
Definition sample_hello_req : iav_req :=
  {| rq_proto := 1; rq_op := AMBA_VIRT_IAV_OP_HELLO; rq_handle := 0; rq_cmd := 0; rq_arg_len := struct_size HELLO_FIELDS;
     rq_arg_value := 0; rq_arg2 := 0 |}.
Definition sample_hello : list Z := enc HELLO_FIELDS [2; 4096; 0x14; 9; 0; 0].

Lemma hello_grants_witness :
  exists p s', op_hello 5 sample_hello_req sample_hello sample_env (sample_st false) = (inr p, s') /\ rp_value p = 0x14 /\
    hello_granted sample_env 5 (sample_state false) (hello_of_bytes sample_hello) p (st_b s').
Proof.
  destruct (op_hello 5 sample_hello_req sample_hello sample_env (sample_st false)) as [[r|p] s'] eqn:E; [vm_compute in E; congruence|].
  exists p, s'. split; [done|]. split; [vm_compute in E; by injection E as <- _|].
  assert (Hh : host_ok (sample_state false)) by (vm_compute; split; congruence).
  exact (hello_grants sample_env 5 _ _ (sample_st false) p s' sample_rely (fun _ _ H => H) Hh E).
Defined.

Lemma slice_admit_iff_witness :
  virt_iav_guest_slice_admit sample_pool
    {| gr_caller_slice := 2; gr_claimed_slice := 2; gr_partition_id := 77; gr_offset := 0x2001000; gr_length := 0x1000; gr_phys := 0 |} =
  inr {| gd_partition_id := 77; gd_phys := 0x82001000; gd_length := 0x1000 |}.
Proof.
  apply slice_admit_iff.
  - repeat split; vm_compute; congruence.
  - repeat split; vm_compute; congruence.
  - assert (Hd : (0x1000000 | 0x80000000)) by (exists 128; reflexivity). repeat split; try exact Hd; try reflexivity; vm_compute; congruence.
Defined.

End ReplyProps.
