(* ===== verification/Cavalry.v ===== *)
(** * The proxy of the vector processor: tenants, memory and handles (tools/cavalry_proxy.c, first half)

    The server is the only process that opens /dev/cavalry. A guest (a tenant, named by its vsock id) owns one slice of
    the shared window; the proxy hands out buffers of the tenant's pool in that slice, names them by handles, keeps
    private copies of the command graphs (DAGs) a guest registers, and runs them on the processor. The RPCs of all
    guests are served one after the other by the main loop; the admin thread changes the bounds of a tenant,
    disconnects one and drains the proxy between them.

    A pointer is the number of its address; what the proxy does to the device is the list of events [dev] a function
    returns, what the device answers are its arguments. *)

From stdpp Require Import base list.
From Stdlib Require Import ZArith Lia.
From S2P Require Import Prelude SliceGeometry.
Import Geometry.

Module Cavalry.

Definition EHOSTDOWN : Z := 112.

Definition MAX_SLICES : nat := 512.
Definition MAX_HARDWARE_SLICES : nat := 8.
Definition MAX_TENANTS : nat := 8.
Definition MAX_HANDLES : nat := 1024.
Definition MAX_REGISTERED_DAGS : nat := 128.
Definition CAVALRY_POOL_BASE : Z := 0x02000000.
Definition CAVALRY_POOL_SIZE : Z := 0x3E000000.
Definition CAVALRY_RPC_ARENA_OFFSET : Z := 0x01F00000.
Definition CAVALRY_RPC_ARENA_SIZE : Z := 0x00100000.

Definition NULL : Z := 0.
Definition MAP_FAILED : Z := -1.
Definition UINT64_MAX : Z := 2 ^ 64 - 1.

(** ** State *)

(** [struct cavalry_hw_slice_slot] *)
Record hw_slot := {
  hs_index : Z; hs_usable : Z; hs_offset : Z; hs_phys : Z; hs_slice_size : Z; hs_nonce : Z; hs_bound_cid : Z;
  hs_active : bool }.

(** [struct cavalry_slice_entry]: a buffer of a tenant's pool. *)
Record slice_entry := { sl_off : Z; sl_size : Z; sl_cid : Z; sl_session : Z; sl_in_use : bool }.

(** [struct cavalry_handle_entry] *)
Record handle_entry := { hd_id : Z; hd_off : Z; hd_size : Z; hd_cid : Z; hd_session : Z; hd_in_use : bool }.

(** [struct cavalry_tenant_ctx] *)
Record tenant := {
  tn_cid : Z; tn_idx : Z; tn_window_fd : Z; tn_map : Z; tn_shm_size : Z; tn_phys_base : Z; tn_slice_offset : Z;
  tn_pool_base : Z; tn_pool_size : Z; tn_arena_off : Z; tn_arena_size : Z; tn_in_use : bool }.

(** [struct cavalry_port_desc] and [struct cavalry_poke_desc] *)
Record port_desc := { pd_addr : Z; pd_size : Z; pd_boffset : Z; pd_incr : Z }.
Record poke_desc := { pk_val : Z; pk_vaddr : Z; pk_bsize : Z; pk_reserved : Z }.

(** [struct cavalry_dag_desc_mfd]; [dm_flags] is the six bit fields from dag_loop_cnt to dag_type (25 bits). *)
Record dag_mfd := {
  dm_flags : Z; dm_dep_cnt : Z; dm_dvi_dag_size : Z; dm_dvi_off : Z; dm_img_vaddr : Z; dm_img_size : Z;
  dm_dag_vaddr : Z; dm_scratch : Z; dm_rev_cnt : Z; dm_port_cnt : Z; dm_poke_cnt : Z; dm_xpoke_cnt : Z;
  dm_xpoke : Z; dm_xcommon : Z; dm_xlist : Z; dm_rev_ids : list Z; dm_ports : list port_desc;
  dm_pokes : list poke_desc; dm_fds : list Z }.

(** The input fields of [struct cavalry_run_dags_mfd]. *)
Record run_mfd := {
  rm_dag_cnt : Z; rm_encrypt : Z; rm_resume : Z; rm_sub : Z; rm_session : Z; rm_nid : Z; rm_affinity : Z;
  rm_priority : Z; rm_hw_type : Z; rm_no_auto : Z; rm_dvi_fd : Z; rm_ucode_fd : Z; rm_ucode_off : Z;
  rm_dags : list dag_mfd }.

(** [struct cavalry_registered_dag]; [rg_mem] is what the private copy at [rg_phys] holds. *)
Record reg_dag := {
  rg_id : Z; rg_cid : Z; rg_owner_session : Z; rg_size : Z; rg_phys : Z; rg_virt : Z; rg_dag_cnt : Z; rg_nid : Z;
  rg_affinity : Z; rg_priority : Z; rg_hw_type : Z; rg_encrypt : Z; rg_resume : Z; rg_no_auto : Z; rg_sub : Z;
  rg_enc_session : Z; rg_template : list dag_mfd; rg_mem : list Z; rg_in_use : bool }.

Definition hw0 : hw_slot :=
  {| hs_index := 0; hs_usable := 0; hs_offset := 0; hs_phys := 0; hs_slice_size := 0; hs_nonce := 0; hs_bound_cid := 0;
     hs_active := false |}.
Definition slice0 : slice_entry := {| sl_off := 0; sl_size := 0; sl_cid := 0; sl_session := 0; sl_in_use := false |}.
Definition handle0 : handle_entry := {| hd_id := 0; hd_off := 0; hd_size := 0; hd_cid := 0; hd_session := 0; hd_in_use := false |}.
Definition tenant0 : tenant :=
  {| tn_cid := 0; tn_idx := 0; tn_window_fd := 0; tn_map := NULL; tn_shm_size := 0; tn_phys_base := 0;
     tn_slice_offset := 0; tn_pool_base := 0; tn_pool_size := 0; tn_arena_off := 0; tn_arena_size := 0; tn_in_use := false |}.
Definition reg0 : reg_dag :=
  {| rg_id := 0; rg_cid := 0; rg_owner_session := 0; rg_size := 0; rg_phys := 0; rg_virt := NULL; rg_dag_cnt := 0; rg_nid := 0;
     rg_affinity := 0; rg_priority := 0; rg_hw_type := 0; rg_encrypt := 0; rg_resume := 0; rg_no_auto := 0; rg_sub := 0;
     rg_enc_session := 0; rg_template := []; rg_mem := []; rg_in_use := false |}.

(** The globals. [cv_guard] is the range held for the guest windows, when it is held. *)
Record cav := {
  cv_fd_cav : Z; cv_fd_shm : Z; cv_window_fd : Z; cv_map : Z; cv_shm_size : Z; cv_phys_base : Z; cv_chip_id : Z;
  cv_guard : option (Z * Z); cv_path_b : bool; cv_hw : list hw_slot; cv_tenants : list tenant;
  cv_slices : list slice_entry; cv_handles : list handle_entry; cv_next_handle : Z; cv_dags : list reg_dag;
  cv_next_dag : Z; cv_draining : bool; cv_active : Z; cv_last : list dag_mfd }.

Definition with_hw (c : cav) (l : list hw_slot) : cav :=
  {| cv_fd_cav := cv_fd_cav c; cv_fd_shm := cv_fd_shm c; cv_window_fd := cv_window_fd c; cv_map := cv_map c;
     cv_shm_size := cv_shm_size c; cv_phys_base := cv_phys_base c; cv_chip_id := cv_chip_id c; cv_guard := cv_guard c;
     cv_path_b := cv_path_b c; cv_hw := l; cv_tenants := cv_tenants c; cv_slices := cv_slices c;
     cv_handles := cv_handles c; cv_next_handle := cv_next_handle c; cv_dags := cv_dags c; cv_next_dag := cv_next_dag c;
     cv_draining := cv_draining c; cv_active := cv_active c; cv_last := cv_last c |}.
Definition with_tenants (c : cav) (l : list tenant) : cav :=
  {| cv_fd_cav := cv_fd_cav c; cv_fd_shm := cv_fd_shm c; cv_window_fd := cv_window_fd c; cv_map := cv_map c;
     cv_shm_size := cv_shm_size c; cv_phys_base := cv_phys_base c; cv_chip_id := cv_chip_id c; cv_guard := cv_guard c;
     cv_path_b := cv_path_b c; cv_hw := cv_hw c; cv_tenants := l; cv_slices := cv_slices c;
     cv_handles := cv_handles c; cv_next_handle := cv_next_handle c; cv_dags := cv_dags c; cv_next_dag := cv_next_dag c;
     cv_draining := cv_draining c; cv_active := cv_active c; cv_last := cv_last c |}.
Definition with_slices (c : cav) (l : list slice_entry) : cav :=
  {| cv_fd_cav := cv_fd_cav c; cv_fd_shm := cv_fd_shm c; cv_window_fd := cv_window_fd c; cv_map := cv_map c;
     cv_shm_size := cv_shm_size c; cv_phys_base := cv_phys_base c; cv_chip_id := cv_chip_id c; cv_guard := cv_guard c;
     cv_path_b := cv_path_b c; cv_hw := cv_hw c; cv_tenants := cv_tenants c; cv_slices := l;
     cv_handles := cv_handles c; cv_next_handle := cv_next_handle c; cv_dags := cv_dags c; cv_next_dag := cv_next_dag c;
     cv_draining := cv_draining c; cv_active := cv_active c; cv_last := cv_last c |}.
Definition with_handles (c : cav) (l : list handle_entry) (next : Z) : cav :=
  {| cv_fd_cav := cv_fd_cav c; cv_fd_shm := cv_fd_shm c; cv_window_fd := cv_window_fd c; cv_map := cv_map c;
     cv_shm_size := cv_shm_size c; cv_phys_base := cv_phys_base c; cv_chip_id := cv_chip_id c; cv_guard := cv_guard c;
     cv_path_b := cv_path_b c; cv_hw := cv_hw c; cv_tenants := cv_tenants c; cv_slices := cv_slices c;
     cv_handles := l; cv_next_handle := next; cv_dags := cv_dags c; cv_next_dag := cv_next_dag c;
     cv_draining := cv_draining c; cv_active := cv_active c; cv_last := cv_last c |}.
Definition with_dags (c : cav) (l : list reg_dag) (next : Z) : cav :=
  {| cv_fd_cav := cv_fd_cav c; cv_fd_shm := cv_fd_shm c; cv_window_fd := cv_window_fd c; cv_map := cv_map c;
     cv_shm_size := cv_shm_size c; cv_phys_base := cv_phys_base c; cv_chip_id := cv_chip_id c; cv_guard := cv_guard c;
     cv_path_b := cv_path_b c; cv_hw := cv_hw c; cv_tenants := cv_tenants c; cv_slices := cv_slices c;
     cv_handles := cv_handles c; cv_next_handle := cv_next_handle c; cv_dags := l; cv_next_dag := next;
     cv_draining := cv_draining c; cv_active := cv_active c; cv_last := cv_last c |}.
Definition with_fds (c : cav) (fd_cav window_fd chip : Z) (guard : option (Z * Z)) : cav :=
  {| cv_fd_cav := fd_cav; cv_fd_shm := cv_fd_shm c; cv_window_fd := window_fd; cv_map := cv_map c;
     cv_shm_size := cv_shm_size c; cv_phys_base := cv_phys_base c; cv_chip_id := chip; cv_guard := guard;
     cv_path_b := cv_path_b c; cv_hw := cv_hw c; cv_tenants := cv_tenants c; cv_slices := cv_slices c;
     cv_handles := cv_handles c; cv_next_handle := cv_next_handle c; cv_dags := cv_dags c; cv_next_dag := cv_next_dag c;
     cv_draining := cv_draining c; cv_active := cv_active c; cv_last := cv_last c |}.
Definition with_drain (c : cav) (draining : bool) (active : Z) : cav :=
  {| cv_fd_cav := cv_fd_cav c; cv_fd_shm := cv_fd_shm c; cv_window_fd := cv_window_fd c; cv_map := cv_map c;
     cv_shm_size := cv_shm_size c; cv_phys_base := cv_phys_base c; cv_chip_id := cv_chip_id c; cv_guard := cv_guard c;
     cv_path_b := cv_path_b c; cv_hw := cv_hw c; cv_tenants := cv_tenants c; cv_slices := cv_slices c;
     cv_handles := cv_handles c; cv_next_handle := cv_next_handle c; cv_dags := cv_dags c; cv_next_dag := cv_next_dag c;
     cv_draining := draining; cv_active := active; cv_last := cv_last c |}.
Definition with_last (c : cav) (l : list dag_mfd) : cav :=
  {| cv_fd_cav := cv_fd_cav c; cv_fd_shm := cv_fd_shm c; cv_window_fd := cv_window_fd c; cv_map := cv_map c;
     cv_shm_size := cv_shm_size c; cv_phys_base := cv_phys_base c; cv_chip_id := cv_chip_id c; cv_guard := cv_guard c;
     cv_path_b := cv_path_b c; cv_hw := cv_hw c; cv_tenants := cv_tenants c; cv_slices := cv_slices c;
     cv_handles := cv_handles c; cv_next_handle := cv_next_handle c; cv_dags := cv_dags c; cv_next_dag := cv_next_dag c;
     cv_draining := cv_draining c; cv_active := cv_active c; cv_last := l |}.

(** What reaches the driver and the process. *)
Inductive dev :=
| DvAlloc (phys len : Z)
| DvFree (phys len : Z)
| DvUnmap (virt len : Z)
| DvSync (phys len : Z)
| DvStart
| DvClose (fd : Z)
| DvRun (m : run_mfd).

(** ** Releasing *)

(** [cavalry_proxy_free_dag_slot] on a slot; [fd_cav] is the descriptor of the driver. *)
Definition cavalry_proxy_free_dag_slot (fd_cav : Z) (d : reg_dag) : list dev * reg_dag :=
  if negb (rg_in_use d) then ([], d)
  else
    let unmap := negb (rg_virt d =? NULL) && negb (rg_virt d =? MAP_FAILED) in
    let free := negb (rg_phys d =? 0) && (0 <=? fd_cav) in
    ((if unmap then [DvUnmap (rg_virt d) (rg_size d)] else []) ++ (if free then [DvFree (rg_phys d) (rg_size d)] else []),
     {| rg_id := rg_id d; rg_cid := rg_cid d; rg_owner_session := rg_owner_session d; rg_size := rg_size d;
        rg_phys := if free then 0 else rg_phys d; rg_virt := if unmap then MAP_FAILED else rg_virt d;
        rg_dag_cnt := rg_dag_cnt d; rg_nid := rg_nid d; rg_affinity := rg_affinity d; rg_priority := rg_priority d;
        rg_hw_type := rg_hw_type d; rg_encrypt := rg_encrypt d; rg_resume := rg_resume d; rg_no_auto := rg_no_auto d;
        rg_sub := rg_sub d; rg_enc_session := rg_enc_session d; rg_template := rg_template d; rg_mem := rg_mem d;
        rg_in_use := false |}).

(** The loop that frees the registered DAGs [sel] selects. *)
Definition free_dags (fd_cav : Z) (sel : reg_dag -> bool) (l : list reg_dag) : list dev * list reg_dag :=
  (concat (map (fun d => if rg_in_use d && sel d then fst (cavalry_proxy_free_dag_slot fd_cav d) else []) l),
   map (fun d => if rg_in_use d && sel d then snd (cavalry_proxy_free_dag_slot fd_cav d) else d) l).

Definition slice_off (s : slice_entry) : slice_entry :=
  {| sl_off := sl_off s; sl_size := sl_size s; sl_cid := sl_cid s; sl_session := sl_session s; sl_in_use := false |}.
Definition handle_off (h : handle_entry) : handle_entry :=
  {| hd_id := hd_id h; hd_off := hd_off h; hd_size := hd_size h; hd_cid := hd_cid h; hd_session := hd_session h; hd_in_use := false |}.

(** [cavalry_proxy_client_disconnect] *)
Definition cavalry_proxy_client_disconnect (cid : Z) (c : cav) : list dev * cav :=
  let handles := map (fun h => if hd_in_use h && (hd_cid h =? cid) then handle_off h else h) (cv_handles c) in
  let '(evs, dags) := free_dags (cv_fd_cav c) (fun d => rg_cid d =? cid) (cv_dags c) in
  let slices := map (fun s => if sl_in_use s && (sl_cid s =? cid) then slice_off s else s) (cv_slices c) in
  (evs, with_slices (with_dags (with_handles c handles (cv_next_handle c)) dags (cv_next_dag c)) slices).

(** [cavalry_proxy_close_session]: the events, the number of buffers freed and the state. *)
Definition cavalry_proxy_close_session (cid session : Z) (c : cav) : list dev * Z * cav :=
  if session =? 0 then ([], 0, c)
  else
    let mine owner := (cid =? 0) || (owner =? cid) in
    let handles := map (fun h => if hd_in_use h && (hd_session h =? session) && mine (hd_cid h) then handle_off h else h) (cv_handles c) in
    let '(evs, dags) := free_dags (cv_fd_cav c) (fun d => (rg_owner_session d =? session) && mine (rg_cid d)) (cv_dags c) in
    let gone s := sl_in_use s && (sl_session s =? session) && mine (sl_cid s) in
    let slices := map (fun s => if gone s then slice_off s else s) (cv_slices c) in
    (evs, Z.of_nat (length (List.filter gone (cv_slices c))),
     with_slices (with_dags (with_handles c handles (cv_next_handle c)) dags (cv_next_dag c)) slices).

(** ** Tenants *)

Definition cavalry_proxy_get_tenant (cid : Z) (c : cav) : option tenant :=
  List.find (fun t => tn_in_use t && (tn_cid t =? cid)) (cv_tenants c).

(** [cavalry_proxy_pool_size_for_usable]: [None] is -EINVAL. *)
Definition cavalry_proxy_pool_size_for_usable (usable : Z) : option Z :=
  if usable <=? CAVALRY_POOL_BASE then None
  else
    let room := usable - CAVALRY_POOL_BASE in
    let room := if CAVALRY_POOL_SIZE <? room then CAVALRY_POOL_SIZE else room in
    if room =? 0 then None else Some (u32 room).

(** A tenant that is dropped keeps the rest of its record. *)
Definition drop_tenant (t : tenant) : tenant :=
  {| tn_cid := 0; tn_idx := tn_idx t; tn_window_fd := tn_window_fd t; tn_map := NULL; tn_shm_size := tn_shm_size t;
     tn_phys_base := tn_phys_base t; tn_slice_offset := tn_slice_offset t; tn_pool_base := tn_pool_base t;
     tn_pool_size := tn_pool_size t; tn_arena_off := tn_arena_off t; tn_arena_size := tn_arena_size t; tn_in_use := false |}.

Definition set_bound (h : hw_slot) (cid nonce : Z) : hw_slot :=
  {| hs_index := hs_index h; hs_usable := hs_usable h; hs_offset := hs_offset h; hs_phys := hs_phys h;
     hs_slice_size := hs_slice_size h; hs_nonce := nonce; hs_bound_cid := cid; hs_active := hs_active h |}.

(** The other tenants with this id, and their hardware slots. *)
Definition is_other (idx : nat) (cid : Z) (i : nat) (t : tenant) : bool := negb (Nat.eqb i idx) && tn_in_use t && (tn_cid t =? cid).
Definition drop_others (idx : nat) (cid : Z) (l : list tenant) : list tenant :=
  imap (fun i t => if is_other idx cid i t then drop_tenant t else t) l.
Definition unbind_others (idx : nat) (cid : Z) (ts : list tenant) (hw : list hw_slot) : list hw_slot :=
  imap (fun i h => match ts !! i with
                   | Some t => if is_other idx cid i t && (hs_bound_cid h =? cid) then set_bound h 0 0 else h
                   | None => h
                   end) hw.

(** [cavalry_proxy_register_tenant]: the return value, the events and the state. *)
Definition cavalry_proxy_register_tenant (cid idx window_fd shm_map shm_size phys_base slice_offset : Z) (c : cav)
    : Z * list dev * cav :=
  if Z.of_nat MAX_TENANTS <=? idx then (- EINVAL, [], c)
  else if shm_map =? MAP_FAILED then (- EINVAL, [], c)
  else if UINT64_MAX - shm_size <? slice_offset then (- EINVAL, [], c)
  else if (0 <? cv_shm_size c) && ((cv_shm_size c <? slice_offset) || (cv_shm_size c - slice_offset <? shm_size))
  then (- EINVAL, [], c)
  else
    match cavalry_proxy_pool_size_for_usable shm_size with
    | None => (- EINVAL, [], c)
    | Some pool_size =>
        let k := Z.to_nat idx in
        let old := default tenant0 (cv_tenants c !! k) in
        let evict := if tn_in_use old && negb (tn_cid old =? 0) && negb (tn_cid old =? cid) then tn_cid old else 0 in
        let hw := unbind_others k cid (cv_tenants c) (cv_hw c) in
        let t := {| tn_cid := cid; tn_idx := idx; tn_window_fd := if 0 <=? window_fd then window_fd else cv_window_fd c;
                    tn_map := shm_map; tn_shm_size := shm_size; tn_phys_base := phys_base; tn_slice_offset := slice_offset;
                    tn_pool_base := CAVALRY_POOL_BASE; tn_pool_size := pool_size; tn_arena_off := CAVALRY_RPC_ARENA_OFFSET;
                    tn_arena_size := CAVALRY_RPC_ARENA_SIZE; tn_in_use := true |} in
        let c1 := with_hw (with_tenants c (<[k := t]> (drop_others k cid (cv_tenants c)))) hw in
        let '(evs, c2) := if evict =? 0 then ([], c1) else cavalry_proxy_client_disconnect evict c1 in
        (0, evs, c2)
    end.

(** [cavalry_proxy_unregister_tenant] *)
Definition cavalry_proxy_unregister_tenant (cid : Z) (c : cav) : Z * list dev * cav :=
  match find_idx (fun t => tn_in_use t && (tn_cid t =? cid)) (cv_tenants c) with
  | Some i =>
      let c1 := with_hw (with_tenants c (alter drop_tenant i (cv_tenants c))) (alter (fun h => set_bound h 0 0) i (cv_hw c)) in
      let '(evs, c2) := cavalry_proxy_client_disconnect cid c1 in (0, evs, c2)
  | None => (- ENOENT, [], c)
  end.

(** [struct amba_virt_slice_binding] *)
Record slice_binding := { sb_cid : Z; sb_slice : amba_virt_slice_desc }.

Definition binding_ok (window_size : Z) (e : slice_binding) : bool :=
  let s := sb_slice e in
  negb ((sb_cid e <=? 2) || (Z.of_nat MAX_TENANTS <=? index s)) && negb (UINT64_MAX - slice_size s <? offset s) &&
  negb ((0 <? window_size) && ((window_size <? offset s) || (window_size - offset s <? slice_size s))).

(** The loop that disconnects the tenants that were there. *)
Fixpoint disconnect_all (cids : list Z) (c : cav) : list dev * cav :=
  match cids with
  | [] => ([], c)
  | cid :: rest =>
      let '(e1, c1) := cavalry_proxy_client_disconnect cid c in
      let '(e2, c2) := disconnect_all rest c1 in (e1 ++ e2, c2)
  end.

(** The loop that registers the bindings, up to the first failure. *)
Fixpoint register_all (window_map window_size : Z) (es : list slice_binding) (c : cav) : Z * list dev * cav :=
  match es with
  | [] => (0, [], c)
  | e :: rest =>
      let s := sb_slice e in
      let submap := if negb (window_map =? NULL) && negb (window_map =? MAP_FAILED) && (u64 (offset s + slice_size s) <=? window_size)
                    then window_map + offset s else NULL in
      let '(ret, e1, c1) := cavalry_proxy_register_tenant (sb_cid e) (index s) (-1) submap (usable_size s) (phys s) (offset s) c in
      if ret <? 0 then (ret, e1, c1)
      else let '(ret2, e2, c2) := register_all window_map window_size rest c1 in (ret2, e1 ++ e2, c2)
  end.

(** [cavalry_proxy_restore_bindings]; [count] and [entries] are the fields of the list. *)
Definition cavalry_proxy_restore_bindings (count : Z) (entries : list slice_binding) (window_map window_size : Z) (c : cav)
    : Z * list dev * cav :=
  if 8 <? count then (- EINVAL, [], c)
  else
    let es := take (Z.to_nat count) entries in
    if negb (forallb (binding_ok window_size) es) then (- EINVAL, [], c)
    else
      let stale := map tn_cid (List.filter (fun t => tn_in_use t && negb (tn_cid t =? 0)) (cv_tenants c)) in
      let c1 := with_hw (with_tenants c (repeat tenant0 MAX_TENANTS)) (map (fun h => set_bound h 0 (hs_nonce h)) (cv_hw c)) in
      let '(e1, c2) := disconnect_all stale c1 in
      let '(ret, e2, c3) := register_all window_map window_size es c2 in
      (ret, e1 ++ e2, c3).

Definition cavalry_proxy_get_all_tenants (max : nat) (c : cav) : list tenant :=
  take max (List.filter (fun t => tn_in_use t && (2 <? tn_cid t)) (cv_tenants c)).

Definition cavalry_proxy_set_slice_nonce (idx nonce : Z) (c : cav) : cav :=
  if idx <? Z.of_nat MAX_HARDWARE_SLICES then
    with_hw c (alter (fun h => {| hs_index := hs_index h; hs_usable := hs_usable h; hs_offset := hs_offset h; hs_phys := hs_phys h;
                                  hs_slice_size := hs_slice_size h; hs_nonce := nonce;
                                  hs_bound_cid := if nonce =? 0 then 0 else hs_bound_cid h; hs_active := true |})
                     (Z.to_nat idx) (cv_hw c))
  else c.

(** [cavalry_proxy_bind_slice]: a negative errno, or the descriptor of the slice. *)
Definition cavalry_proxy_bind_slice (cid nonce : Z) (c : cav) : (Z + amba_virt_slice_desc) * cav :=
  if cid <=? 2 then (inl (- EINVAL), c)
  else if nonce =? 0 then (inl (- ENOENT), c)
  else if existsb (fun h => hs_bound_cid h =? cid) (cv_hw c) then (inl (- EBUSY), c)
  else
    match find_idx (fun h => hs_active h && (hs_nonce h =? nonce)) (cv_hw c) with
    | None => (inl (- ENOENT), c)
    | Some i =>
        let h := default hw0 (cv_hw c !! i) in
        if negb (hs_bound_cid h =? 0) && negb (hs_bound_cid h =? cid) then (inl (- EBUSY), c)
        else if (UINT64_MAX - hs_slice_size h <? hs_offset h) ||
                ((0 <? cv_shm_size c) &&
                 ((cv_shm_size c <? hs_offset h) || (cv_shm_size c - hs_offset h <? hs_slice_size h)))
        then (inl (- EINVAL), c)
        else
          let pool := if CAVALRY_POOL_BASE <? hs_usable h then hs_usable h - CAVALRY_POOL_BASE else 0 in
          let t := {| tn_cid := cid; tn_idx := Z.of_nat i; tn_window_fd := cv_window_fd c;
                      tn_map := if negb (cv_map c =? MAP_FAILED) && negb (cv_map c =? NULL) &&
                                   (u64 (hs_offset h + hs_slice_size h) <=? cv_shm_size c)
                                then cv_map c + hs_offset h else NULL;
                      tn_shm_size := hs_usable h; tn_phys_base := hs_phys h; tn_slice_offset := hs_offset h;
                      tn_pool_base := CAVALRY_POOL_BASE;
                      tn_pool_size := if CAVALRY_POOL_SIZE <? pool then CAVALRY_POOL_SIZE else pool;
                      tn_arena_off := CAVALRY_RPC_ARENA_OFFSET; tn_arena_size := CAVALRY_RPC_ARENA_SIZE; tn_in_use := true |} in
          (inr (mk_desc (hs_index h) (hs_usable h) (hs_offset h) (hs_phys h) (hs_slice_size h)),
           with_hw (with_tenants c (<[i := t]> (cv_tenants c))) (<[i := set_bound h cid (hs_nonce h)]> (cv_hw c)))
    end.

(** [cavalry_proxy_set_tenant_bounds] *)
Definition cavalry_proxy_set_tenant_bounds (cid pool_base pool_size arena_off arena_size : Z) (c : cav) : Z * cav :=
  match find_idx (fun t => tn_in_use t && (tn_cid t =? cid)) (cv_tenants c) with
  | None => (- ENOENT, c)
  | Some i =>
      (0, with_tenants c (alter (fun t =>
            {| tn_cid := tn_cid t; tn_idx := tn_idx t; tn_window_fd := tn_window_fd t; tn_map := tn_map t;
               tn_shm_size := tn_shm_size t; tn_phys_base := tn_phys_base t; tn_slice_offset := tn_slice_offset t;
               tn_pool_base := pool_base; tn_pool_size := pool_size; tn_arena_off := arena_off; tn_arena_size := arena_size;
               tn_in_use := tn_in_use t |}) i (cv_tenants c)))
  end.

(** ** Buffers *)

(** The pool of the caller: the tenant's, or the default one. *)
Definition tenant_of (cid : Z) (c : cav) : option tenant := if cid =? 0 then None else cavalry_proxy_get_tenant cid c.
Definition pool_base_of (t : option tenant) : Z :=
  match t with Some t => if tn_pool_size t =? 0 then CAVALRY_POOL_BASE else tn_pool_base t | None => CAVALRY_POOL_BASE end.
Definition pool_size_of (t : option tenant) : Z :=
  match t with Some t => if tn_pool_size t =? 0 then CAVALRY_POOL_SIZE else tn_pool_size t | None => CAVALRY_POOL_SIZE end.

(** [(z + 4095U) & ~4095U] *)
Definition page_up (z : Z) : Z := Z.land (u32 (z + 4095)) (not32 4095).

(** The slices a new one of [cid] must not overlap. *)
Definition counts (cid : Z) (s : slice_entry) : bool := sl_in_use s && ((cid =? 0) || (sl_cid s =? cid)).

Definition collides (cid cand size : Z) (s : slice_entry) : bool :=
  counts cid s && (cand <? u32 (sl_off s + sl_size s)) && (sl_off s <? u32 (cand + size)).

(** The search: [None] when it is out of turns, [Some None] when there is no room. *)
Fixpoint alloc_loop (fuel : nat) (slices : list slice_entry) (cid size pool_end cand : Z) : option (option Z) :=
  match fuel with
  | O => None
  | S fuel' =>
      if u32 (cand + size) <=? pool_end then
        match List.find (collides cid cand size) slices with
        | Some s => alloc_loop fuel' slices cid size pool_end (page_up (u32 (sl_off s + sl_size s)))
        | None => Some (Some cand)
        end
      else Some None
  end.

(** [cavalry_proxy_alloc]: a negative errno or the offset; the outer [None] is a search that does not end. *)
Definition cavalry_proxy_alloc (size cid session : Z) (c : cav) : option ((Z + Z) * cav) :=
  let t := tenant_of cid c in
  let pool_base := pool_base_of t in
  let pool_size := pool_size_of t in
  if size =? 0 then Some (inl (- EINVAL), c)
  else if pool_size <? size then Some (inl (- ENOMEM), c)
  else
    let aligned := page_up size in
    if pool_size <? aligned then Some (inl (- ENOMEM), c)
    else
      match find_idx (fun s => negb (sl_in_use s)) (cv_slices c) with
      | None => Some (inl (- ENOMEM), c)
      | Some slot =>
          match alloc_loop (S (length (cv_slices c))) (cv_slices c) cid aligned (u32 (pool_base + pool_size)) pool_base with
          | None => None
          | Some None => Some (inl (- ENOMEM), c)
          | Some (Some cand) =>
              Some (inr cand, with_slices c (<[slot := {| sl_off := cand; sl_size := aligned; sl_cid := cid; sl_session := session;
                                                           sl_in_use := true |}]> (cv_slices c)))
          end
      end.

(** [cavalry_proxy_free] *)
Definition cavalry_proxy_free (off cid : Z) (c : cav) : Z * cav :=
  match find_idx (fun s => sl_in_use s && (sl_off s =? off)) (cv_slices c) with
  | None => (- EINVAL, c)
  | Some i =>
      let s := default slice0 (cv_slices c !! i) in
      if negb (cid =? 0) && negb (sl_cid s =? cid) then (- EPERM, c)
      else (0, with_slices c (<[i := slice_off s]> (cv_slices c)))
  end.

(** [cavalry_proxy_validate_range] *)
Definition cavalry_proxy_validate_range (off size cid : Z) (c : cav) : Z :=
  let t := tenant_of cid c in
  if size =? 0 then - EINVAL
  else if negb (cid =? 0) && bool_decide (t = None) then - ENODEV
  else if UINT64_MAX - size <? off then - EFAULT
  else
    let req_end := off + size in
    if match t with
       | Some t => (tn_shm_size t <? req_end) || (UINT64_MAX - req_end <? tn_slice_offset t) ||
                   ((0 <? cv_shm_size c) && (cv_shm_size c <? tn_slice_offset t + req_end))
       | None => false
       end
    then - EFAULT
    else if off <? pool_base_of t then - EFAULT
    else if u64 (pool_base_of t + pool_size_of t) <? req_end then - EFAULT
    else if existsb (fun s => counts cid s && (sl_off s <=? off) && (req_end <=? sl_off s + sl_size s)) (cv_slices c) then 0
    else - EINVAL.

(** ** Handles *)

(** The next id and the counter after it: 0 is skipped. *)
Definition next_id (next : Z) : Z * Z :=
  if next =? 0 then (u32 (next + 1), u32 (u32 (next + 1) + 1)) else (next, u32 (next + 1)).

(** [cavalry_proxy_alloc_handle]: a negative errno, or the id and the offset. *)
Definition cavalry_proxy_alloc_handle (size cid session : Z) (c : cav) : option ((Z + Z * Z) * cav) :=
  if size =? 0 then Some (inl (- EINVAL), c)
  else
    match cavalry_proxy_alloc size cid session c with
    | None => None
    | Some (inl e, c1) => Some (inl e, c1)
    | Some (inr off, c1) =>
        match find_idx (fun h => negb (hd_in_use h)) (cv_handles c1) with
        | None => Some (inl (- ENOMEM), snd (cavalry_proxy_free off cid c1))
        | Some slot =>
            let '(hid, next) := next_id (cv_next_handle c1) in
            Some (inr (hid, off),
                  with_handles c1 (<[slot := {| hd_id := hid; hd_off := off; hd_size := size; hd_cid := cid; hd_session := session;
                                               hd_in_use := true |}]> (cv_handles c1)) next)
        end
    end.

(** A handle that the caller may not use. *)
Definition foreign (cid session : Z) (h : handle_entry) : bool :=
  negb (hd_session h =? session) || (negb (cid =? 0) && negb (hd_cid h =? cid)).

Definition named (id : Z) (h : handle_entry) : bool := hd_in_use h && (hd_id h =? id).

Definition cavalry_proxy_free_handle (id cid session : Z) (c : cav) : Z * cav :=
  match find_idx (named id) (cv_handles c) with
  | None => (- EINVAL, c)
  | Some i =>
      let h := default handle0 (cv_handles c !! i) in
      if foreign cid session h then (- EACCES, c)
      else (0, snd (cavalry_proxy_free (hd_off h) cid (with_handles c (<[i := handle_off h]> (cv_handles c)) (cv_next_handle c))))
  end.

Definition cavalry_proxy_lookup_handle (id cid session : Z) (c : cav) : Z + handle_entry :=
  match List.find (named id) (cv_handles c) with
  | None => inl (- EINVAL)
  | Some h => if foreign cid session h then inl (- EACCES) else inr h
  end.

Definition cavalry_proxy_owned_handle (id cid : Z) (c : cav) : Z + handle_entry :=
  if (id =? 0) || (cid =? 0) then inl (- EINVAL)
  else
    match List.find (named id) (cv_handles c) with
    | None => inl (- ENOENT)
    | Some h => if negb (hd_cid h =? cid) then inl (- EACCES) else inr h
    end.

(** A tenant whose slice the server maps. *)
Definition mapped_tenant (cid : Z) (c : cav) : option tenant :=
  match cavalry_proxy_get_tenant cid c with
  | Some t => if (tn_map t =? MAP_FAILED) || (tn_map t =? NULL) then None else Some t
  | None => None
  end.

(** [cavalry_proxy_get_handle_buffer]: the address and the size. *)
Definition cavalry_proxy_get_handle_buffer (id cid : Z) (c : cav) : Z + Z * Z :=
  match mapped_tenant cid c with
  | None => inl (- ENODEV)
  | Some t =>
      match cavalry_proxy_owned_handle id cid c with
      | inl e => inl e
      | inr h => if tn_shm_size t <? hd_off h + hd_size h then inl (- EINVAL) else inr (tn_map t + hd_off h, hd_size h)
      end
  end.

End Cavalry.
