(* ===== verification/CavalryRpc.v ===== *)
(** * The proxy of the vector processor: command graphs and requests (tools/cavalry_proxy.c, second half)

    A guest writes the descriptors of its command graphs into the arena of its slice; the proxy copies them to its own
    heap, checks them and rebuilds them for the driver. The copy is a buffer of bytes: a handler reads its fields at
    the offsets of the structures of cavalry_ioctl.h and amba_virt.h, and is [Oob] when it reads or writes outside the
    buffer it allocated. *)

From stdpp Require Import base list.
From Stdlib Require Import ZArith Lia.
From S2P Require Import Prelude SliceGeometry SliceArena ByteBuf Cavalry.
Import Geometry SliceArena Cavalry.

Module CavalryRpc.

Open Scope rd_scope.

Definition MAX_DAG_CNT_CAP : Z := 128.
Definition CAVALRY_MAX_PORTS : Z := 32.
Definition MAX_PORT_CNT : nat := 256.
Definition MAX_POKE_CNT : nat := 128.
Definition MAX_DEP_CNT : nat := 256.
Definition CAVALRY_DMABUF_FD_REPRESENT_PHYS : Z := -1133789.
Definition ENOSYS : Z := 38.
Definition EMSGSIZE : Z := 90.

(** The sizes of the structures (LP64). *)
Definition SIZEOF_RUN_DAGS : Z := 136.
Definition SIZEOF_DAG_DESC : Z := 8784.
Definition SIZEOF_POKE_DESC : Z := 16.
Definition SIZEOF_EXTRA_COMMON : Z := 512.
Definition SIZEOF_EXTRA_LIST : Z := 768.
Definition SIZEOF_PRELOAD : Z := 64.
Definition SIZEOF_REG_DESC : Z := 60.
Definition SIZEOF_RUN_REG : Z := 648.

(** [struct amba_virt_cavalry_rpc] *)
Record rpc := {
  rp_opcode : Z; rp_status : Z; rp_session : Z; rp_dag_id : Z; rp_bar_offset : Z; rp_size : Z; rp_arena_len : Z;
  rp_rval : Z; rp_ticks : Z; rp_chip : Z }.

(** [enum vcav_opcode] *)
Definition VCAV_OP_GET_VERSION : Z := 1.
Definition VCAV_OP_GET_CHIP_ID : Z := 2.
Definition VCAV_OP_GET_STATUS : Z := 3.
Definition VCAV_OP_QUERY_BUF : Z := 4.
Definition VCAV_OP_ALLOC_MEM : Z := 5.
Definition VCAV_OP_FREE_MEM : Z := 6.
Definition VCAV_OP_SYNC_CACHE : Z := 7.
Definition VCAV_OP_START_VP : Z := 8.
Definition VCAV_OP_STOP_VP : Z := 9.
Definition VCAV_OP_RUN_DAGS : Z := 10.
Definition VCAV_OP_QUERY_UCODE_CMD_SIZE : Z := 11.
Definition VCAV_OP_CLOSE_SESSION : Z := 20.
Definition VCAV_OP_REGISTER_DAG : Z := 21.
Definition VCAV_OP_UNREGISTER_DAG : Z := 22.
Definition VCAV_OP_ALLOC_HANDLE : Z := 23.
Definition VCAV_OP_FREE_HANDLE : Z := 24.
Definition VCAV_OP_RUN_REGISTERED_DAG : Z := 25.

(** What a request gets from the shared memory, the process and the driver. [io_arena] and [io_staging] are the
    bytes two copies out of the guest's memory see (the guest may write between them); [io_alloc] answers
    CAVALRY_ALLOC_MEM with an address and the length it gave, [io_fresh] is what that memory holds; [io_run] is the
    return value, errno, completion code and ticks of a run; [io_query] those of a read-only ioctl. *)
Record io := {
  io_arena : Z -> Z -> list Z; io_staging : Z -> Z -> list Z; io_malloc : bool; io_calloc : bool;
  io_alloc : Z -> option (Z * Z); io_fresh : Z -> list Z; io_mmap : option Z; io_run : run_mfd -> Z * Z * Z * Z;
  io_query : Z -> Z * Z * Z; io_start : Z * Z; io_open : option Z; io_probe : option Z; io_guard : Z -> option Z }.

(** The response that is zero but for its opcode and status. *)
Definition answer (op status : Z) : rpc :=
  {| rp_opcode := op; rp_status := status; rp_session := 0; rp_dag_id := 0; rp_bar_offset := 0; rp_size := 0;
     rp_arena_len := 0; rp_rval := 0; rp_ticks := 0; rp_chip := 0 |}.
Definition with_run (r : rpc) (status rval ticks : Z) : rpc :=
  {| rp_opcode := rp_opcode r; rp_status := status; rp_session := 0; rp_dag_id := rp_dag_id r; rp_bar_offset := rp_bar_offset r;
     rp_size := rp_size r; rp_arena_len := 0; rp_rval := rval; rp_ticks := ticks; rp_chip := rp_chip r |}.
Definition with_buf (r : rpc) (dag_id off size : Z) : rpc :=
  {| rp_opcode := rp_opcode r; rp_status := rp_status r; rp_session := 0; rp_dag_id := dag_id; rp_bar_offset := off;
     rp_size := size; rp_arena_len := 0; rp_rval := rp_rval r; rp_ticks := rp_ticks r; rp_chip := rp_chip r |}.

(** ** The window guard and the driver's descriptor *)

Definition cavalry_proxy_overlaps_window (phys len : Z) (c : cav) : bool :=
  negb (cv_shm_size c =? 0) && (phys <? u64 (cv_phys_base c + cv_shm_size c)) && (cv_phys_base c <? u64 (phys + len)).

(** The test mode: no driver and no window driver, but a window. *)
Definition mock (c : cav) : bool := (cv_fd_cav c <? 0) && (cv_fd_shm c <? 0) && (0 <? cv_shm_size c).

(** [cavalry_proxy_guard_window_locked]: the probe allocates and frees one page. *)
Definition cavalry_proxy_guard_window_locked (i : io) (c : cav) : list dev * option (Z * Z) :=
  let window_end := u64 (cv_phys_base c + cv_shm_size c) in
  match cv_guard c with
  | Some g => ([], Some g)
  | None =>
      if cv_shm_size c =? 0 then ([], None)
      else
        match io_probe i with
        | None => ([], None)
        | Some first =>
            let probe := [DvAlloc first 4096; DvFree first 4096] in
            if (window_end <=? first) || (u64 (first + 4096) <=? cv_phys_base c) then (probe, None)
            else
              let len := u64 (window_end - first) in
              match io_guard i len with
              | None => (probe, None)
              | Some got => if negb (got =? first) then (probe ++ [DvAlloc got len; DvFree got len], None)
                            else (probe ++ [DvAlloc got len], Some (got, len))
              end
        end
  end.

(** The engine is started when it does not say that it runs. *)
Definition start_engine (i : io) : list dev :=
  let '(ret, _, started) := io_query i VCAV_OP_GET_STATUS in if (ret <? 0) || (started =? 0) then [DvStart] else [].

Definition chip_of (i : io) : Z := let '(ret, _, chip) := io_query i VCAV_OP_GET_CHIP_ID in if ret <? 0 then 10 else chip.

(** [cavalry_proxy_reopen] *)
Definition cavalry_proxy_reopen (i : io) (c : cav) : Z * list dev * cav :=
  if 0 <=? cv_fd_cav c then (0, [], c)
  else
    match io_open i with
    | None => (-1, [], c)
    | Some fd =>
        let c1 := with_fds c fd (cv_window_fd c) (chip_of i) None in
        let '(evs, guard) := cavalry_proxy_guard_window_locked i c1 in
        (0, start_engine i ++ evs, with_fds c1 fd (cv_window_fd c) (chip_of i) guard)
    end.

(** [cavalry_proxy_cleanup] *)
Definition cavalry_proxy_cleanup (c : cav) : list dev * cav :=
  let '(evs, dags) := free_dags (cv_fd_cav c) (fun _ => true) (cv_dags c) in
  let close_window := if 0 <=? cv_window_fd c then [DvClose (cv_window_fd c)] else [] in
  let close_cav := if 0 <=? cv_fd_cav c then
                     match cv_guard c with Some (p, n) => [DvFree p n] | None => [] end ++ [DvClose (cv_fd_cav c)]
                   else [] in
  (evs ++ close_window ++ close_cav,
   with_fds (with_dags c dags (cv_next_dag c)) (if 0 <=? cv_fd_cav c then -1 else cv_fd_cav c)
            (if 0 <=? cv_window_fd c then -1 else cv_window_fd c) (cv_chip_id c) (if 0 <=? cv_fd_cav c then None else cv_guard c)).

(** The globals when the process starts. *)
Definition cav_boot : cav :=
  {| cv_fd_cav := -1; cv_fd_shm := -1; cv_window_fd := -1; cv_map := MAP_FAILED; cv_shm_size := 0; cv_phys_base := 0; cv_chip_id := 0;
     cv_guard := None; cv_path_b := false; cv_hw := repeat hw0 MAX_HARDWARE_SLICES; cv_tenants := repeat tenant0 MAX_TENANTS;
     cv_slices := repeat slice0 MAX_SLICES; cv_handles := repeat handle0 MAX_HANDLES; cv_next_handle := 1;
     cv_dags := repeat reg0 MAX_REGISTERED_DAGS; cv_next_dag := 1; cv_draining := false; cv_active := 0; cv_last := [] |}.

(** The slot of a slice of the geometry. *)
Definition slot_of (s : amba_virt_slice_desc) : hw_slot :=
  {| hs_index := index s; hs_usable := usable_size s; hs_offset := offset s; hs_phys := phys s; hs_slice_size := slice_size s;
     hs_nonce := 0; hs_bound_cid := 0; hs_active := true |}.

(** The geometry: what the window driver lists ([enum], [None] when that fails), or computed when there is no driver. *)
Definition init_geometry (fd_virt shm_size phys_base : Z) (enum : option amba_virt_slice_list) : option amba_virt_slice_list :=
  if 0 <=? fd_virt then match enum with Some l => if count l =? 0 then None else Some l | None => None end
  else
    let n := shm_size / 2 ^ 30 in
    let bars := if negb (shm_size =? 0) && (shm_size mod 2 ^ 30 =? 0) && (1 <=? n) && (n <=? Z.of_nat MAX_HARDWARE_SLICES) then n else 0 in
    let none := mk_list 0 (repeat (mk_desc 0 0 0 0 0) 8) in
    if bars =? 0 then Some none
    else match amba_virt_slice_compute_geometry phys_base shm_size 4096 bars (Some none) with
         | (0, Some l) => Some l
         | _ => Some none
         end.

(** [cavalry_proxy_init]; [export] is the descriptor the window driver exports. *)
Definition cavalry_proxy_init (i : io) (fd_virt shm_map shm_size phys_base : Z) (enum : option amba_virt_slice_list)
    (export : option Z) (c : cav) : Z * list dev * cav :=
  let cleared hw := {| cv_fd_cav := cv_fd_cav c; cv_fd_shm := fd_virt; cv_window_fd := cv_window_fd c; cv_map := shm_map;
    cv_shm_size := shm_size; cv_phys_base := phys_base; cv_chip_id := cv_chip_id c; cv_guard := cv_guard c;
    cv_path_b := cv_path_b c; cv_hw := hw; cv_tenants := repeat tenant0 MAX_TENANTS; cv_slices := repeat slice0 MAX_SLICES;
    cv_handles := repeat handle0 MAX_HANDLES; cv_next_handle := cv_next_handle c; cv_dags := repeat reg0 MAX_REGISTERED_DAGS;
    cv_next_dag := cv_next_dag c; cv_draining := cv_draining c; cv_active := cv_active c; cv_last := [] |} in
  let blank := repeat hw0 MAX_HARDWARE_SLICES in
  match init_geometry fd_virt shm_size phys_base enum with
  | None => (-1, [], cleared blank)
  | Some g =>
      let n := Nat.min (Z.to_nat (count g)) MAX_HARDWARE_SLICES in
      let c1 := cleared (map slot_of (take n (slices g)) ++ drop n blank) in
      match io_open i with
      | None => (0, [], with_fds c1 (-1) (cv_window_fd c1) (cv_chip_id c1) (cv_guard c1))
      | Some fd =>
          match export with
          | None => (-1, [DvClose fd], with_fds c1 (-1) (cv_window_fd c1) (cv_chip_id c1) (cv_guard c1))
          | Some wfd =>
              let c2 := with_fds c1 fd wfd (chip_of i) (cv_guard c1) in
              let '(evs, guard) := cavalry_proxy_guard_window_locked i c2 in
              (0, start_engine i ++ evs, with_fds c2 fd wfd (chip_of i) guard)
          end
      end
  end.

(** ** Reading descriptors *)

(** [struct cavalry_dag_desc] *)
Record dag_desc := {
  dd_flags : Z; dd_dep_cnt : Z; dd_dvi_dag_size : Z; dd_dvi : Z; dd_img_vaddr : Z; dd_img_size : Z; dd_dag_vaddr : Z;
  dd_scratch : Z; dd_rev_cnt : Z; dd_port_cnt : Z; dd_poke_cnt : Z; dd_xpoke_cnt : Z; dd_xpoke : Z; dd_xcommon : Z;
  dd_xlist : Z; dd_rev_ids : list Z; dd_ports : list port_desc; dd_pokes : list poke_desc }.

Fixpoint rd_list {A} (f : nat -> rd A) (k n : nat) : rd (list A) :=
  match n with
  | O => Val []
  | S n' => let* a := f k in let* l := rd_list f (S k) n' in Val (a :: l)
  end.

Definition port_at (p : list Z) (k : nat) : rd port_desc :=
  let* a := u64_at p k in let* s := u64_at p (k + 8) in let* b := u32_at p (k + 16) in let* i := u32_at p (k + 20) in
  Val {| pd_addr := a; pd_size := s; pd_boffset := b; pd_incr := i |}.

Definition poke_at (p : list Z) (k : nat) : rd poke_desc :=
  let* a := u32_at p k in let* s := u32_at p (k + 4) in let* b := u32_at p (k + 8) in let* i := u32_at p (k + 12) in
  Val {| pk_val := a; pk_vaddr := s; pk_bsize := b; pk_reserved := i |}.

(** Where DAG [d] of the run request at [base] is. *)
Definition dag_pos (base d : nat) : nat := base + Z.to_nat SIZEOF_RUN_DAGS + d * Z.to_nat SIZEOF_DAG_DESC.

Definition dag_at (p : list Z) (k : nat) : rd dag_desc :=
  let* w := u32_at p k in let* dep := u32_at p (k + 4) in let* dagsz := u32_at p (k + 8) in let* dvi := u64_at p (k + 16) in
  let* iv := u32_at p (k + 24) in let* isz := u32_at p (k + 28) in let* dv := u32_at p (k + 32) in let* sc := u32_at p (k + 36) in
  let* rc := u32_at p (k + 40) in let* pc := u32_at p (k + 44) in let* kc := u32_at p (k + 48) in let* xc := u32_at p (k + 52) in
  let* xp := u64_at p (k + 56) in let* xm := u64_at p (k + 64) in let* xl := u64_at p (k + 72) in
  let* ids := rd_list (fun i => u16_at p (k + 80 + 2 * i)) 0 MAX_DEP_CNT in
  let* ports := rd_list (fun i => port_at p (k + 592 + 24 * i)) 0 MAX_PORT_CNT in
  let* pokes := rd_list (fun i => poke_at p (k + Z.to_nat 6736 + 16 * i)) 0 MAX_POKE_CNT in
  Val {| dd_flags := Z.land w 0x1ffffff; dd_dep_cnt := dep; dd_dvi_dag_size := dagsz; dd_dvi := dvi; dd_img_vaddr := iv;
         dd_img_size := isz; dd_dag_vaddr := dv; dd_scratch := sc; dd_rev_cnt := rc; dd_port_cnt := pc; dd_poke_cnt := kc;
         dd_xpoke_cnt := xc; dd_xpoke := xp; dd_xcommon := xm; dd_xlist := xl; dd_rev_ids := ids; dd_ports := ports;
         dd_pokes := pokes |}.

(** The arena of the caller for a request, after the checks every handler makes: a status, or the tenant. *)
Definition arena_check (min : Z) (q : rpc) (t : tenant) : Z :=
  let arena_sz := if tn_arena_size t =? 0 then CAVALRY_RPC_ARENA_SIZE else tn_arena_size t in
  if (rp_arena_len q <? min) || (arena_sz <? rp_arena_len q) then - EMSGSIZE
  else if negb (rp_bar_offset q =? tn_arena_off t) && negb (rp_bar_offset q =? 0) &&
          negb (rp_bar_offset q =? CAVALRY_RPC_ARENA_OFFSET) then - EINVAL
  else if tn_shm_size t <? rp_bar_offset q + rp_arena_len q then - EFAULT
  else 0.

(** [CAVALRY_RUN_DAGS_MEMFD], or what the test mode answers. *)
Definition submit (i : io) (m : run_mfd) (c : cav) : (Z * Z * Z * Z) * list dev :=
  if mock c then ((0, 0, 0, 1), []) else (io_run i m, [DvRun m]).

(** The status and result of a run. *)
Definition run_answer (op : Z) (res : Z * Z * Z * Z) : rpc :=
  let '(ret, errno, rval, ticks) := res in
  if ret <? 0 then with_run (answer op 0) (- errno) rval 0 else with_run (answer op 0) 0 rval ticks.

Definition cavalry_proxy_record_last_mfd (m : run_mfd) (c : cav) : cav :=
  let n := if rm_dag_cnt m <=? MAX_DAG_CNT_CAP then rm_dag_cnt m else MAX_DAG_CNT_CAP in
  with_last c (take (Z.to_nat n) (rm_dags m)).

Definition cavalry_proxy_get_last_mfd_dag (k : Z) (c : cav) : Z + dag_mfd :=
  match cv_last c !! Z.to_nat k with Some d => inr d | None => inl (- ENOENT) end.

(** ** RUN_DAGS: descriptors in the guest's memory *)

(** The checks of the ports, from [k] on. *)
Fixpoint check_ports (cid : Z) (c : cav) (p : list Z) (pos k n : nat) : rd Z :=
  match n with
  | O => Val 0
  | S n' =>
      let* a := u64_at p (pos + 592 + 24 * k) in
      let* s := u64_at p (pos + 592 + 24 * k + 8) in
      let r := cavalry_proxy_validate_range a s cid c in
      if r <? 0 then Val r else check_ports cid c p pos (S k) n'
  end.

(** A range that is checked only when its address is there. *)
Definition check_extra (cid : Z) (c : cav) (addr size : Z) : Z :=
  if addr =? 0 then 0 else cavalry_proxy_validate_range addr size cid c.

(** The bytes of the extra poke list. *)
Definition poke_bytes (cnt : Z) : Z := if cnt =? 0 then 4 else cnt * SIZEOF_POKE_DESC.

Definition check_dag (cid : Z) (c : cav) (p : list Z) (pos : nat) : rd Z :=
  let* pc := u32_at p (pos + 44) in
  if CAVALRY_MAX_PORTS <? pc then Val (- EINVAL)
  else
    let* dvi := u64_at p (pos + 16) in
    let* isz := u32_at p (pos + 28) in
    let r := cavalry_proxy_validate_range dvi isz cid c in
    if r <? 0 then Val r
    else
      let* xp := u64_at p (pos + 56) in
      let* xc := u32_at p (pos + 52) in
      let r := check_extra cid c xp (poke_bytes xc) in
      if r <? 0 then Val r
      else
        let* xm := u64_at p (pos + 64) in
        let r := check_extra cid c xm SIZEOF_EXTRA_COMMON in
        if r <? 0 then Val r
        else
          let* xl := u64_at p (pos + 72) in
          let r := check_extra cid c xl SIZEOF_EXTRA_LIST in
          if r <? 0 then Val r else check_ports cid c p pos 0 (Z.to_nat pc).

Fixpoint check_dags (cid : Z) (c : cav) (p : list Z) (d n : nat) : rd Z :=
  match n with
  | O => Val 0
  | S n' =>
      let* r := check_dag cid c p (dag_pos 0 d) in
      if r <? 0 then Val r else check_dags cid c p (S d) n'
  end.

(** An address moved into the window; 0 stays 0. *)
Definition moved (off addr : Z) : Z := if addr =? 0 then 0 else u64 (off + addr).

Definition move_port (off : Z) (q : port_desc) : port_desc :=
  {| pd_addr := u64 (off + pd_addr q); pd_size := pd_size q; pd_boffset := pd_boffset q; pd_incr := pd_incr q |}.

(** One rebuilt descriptor: every address an offset in the descriptor [fd] of the window. *)
Definition rebuild (off fd : Z) (s : dag_desc) : dag_mfd :=
  let n := Z.to_nat (dd_port_cnt s) in
  {| dm_flags := dd_flags s; dm_dep_cnt := dd_dep_cnt s; dm_dvi_dag_size := dd_dvi_dag_size s; dm_dvi_off := u64 (off + dd_dvi s);
     dm_img_vaddr := dd_img_vaddr s; dm_img_size := dd_img_size s; dm_dag_vaddr := dd_dag_vaddr s; dm_scratch := dd_scratch s;
     dm_rev_cnt := dd_rev_cnt s; dm_port_cnt := dd_port_cnt s; dm_poke_cnt := dd_poke_cnt s; dm_xpoke_cnt := dd_xpoke_cnt s;
     dm_xpoke := moved off (dd_xpoke s); dm_xcommon := moved off (dd_xcommon s); dm_xlist := moved off (dd_xlist s);
     dm_rev_ids := dd_rev_ids s; dm_ports := map (move_port off) (take n (dd_ports s)) ++ drop n (dd_ports s);
     dm_pokes := dd_pokes s; dm_fds := repeat fd n ++ repeat 0 (MAX_PORT_CNT - n) |}.

(** The rebuilt command; [enc] is the word of the three bit fields. *)
Definition window_command (t : tenant) (cnt prio aff hw enc sess : Z) (ds : list dag_desc) : run_mfd :=
  {| rm_dag_cnt := cnt; rm_encrypt := 0; rm_resume := 0; rm_sub := Z.shiftr enc 24; rm_session := sess; rm_nid := 0;
     rm_affinity := aff; rm_priority := prio; rm_hw_type := hw; rm_no_auto := 0; rm_dvi_fd := tn_window_fd t; rm_ucode_fd := -1;
     rm_ucode_off := 0; rm_dags := map (rebuild (tn_slice_offset t) (tn_window_fd t)) ds |}.

(** [handle_run_dags] *)
Definition handle_run_dags (i : io) (q : rpc) (cid : Z) (c : cav) : rd (rpc * list dev * cav) :=
  let op := rp_opcode q in
  let fail s := Val (answer op s, [], c) in
  if cv_path_b c then fail (- EPERM)
  else
    match mapped_tenant cid c with
    | None => fail (- ENODEV)
    | Some t =>
        if rp_arena_len q =? 0 then fail (- EMSGSIZE)
        else
          let r := arena_check SIZEOF_RUN_DAGS q t in
          if r <? 0 then fail r
          else if negb (io_malloc i) then fail (- ENOMEM)
          else
            let p := io_arena i (tn_map t + rp_bar_offset q) (rp_arena_len q) in
            let* cnt := u32_at p 24 in
            if (cnt =? 0) || (MAX_DAG_CNT_CAP <? cnt) then fail (- EINVAL)
            else
              let* r := check_dags cid c p 0 (Z.to_nat cnt) in
              if r <? 0 then fail r
              else if negb (io_calloc i) then fail (- ENOMEM)
              else
                let* prio := byte_at p 48 in let* aff := u32_at p 44 in let* hw := byte_at p 49 in
                let* enc := u32_at p 32 in let* sess := u32_at p 36 in
                let* ds := rd_list (fun d => dag_at p (dag_pos 0 d)) 0 (Z.to_nat cnt) in
                let m := window_command t cnt prio aff hw enc sess ds in
                let '(res, evs) := submit i m c in
                Val (run_answer op res, evs, cavalry_proxy_record_last_mfd m c)
    end.

(** ** REGISTER_DAG: a private copy *)

Definition put_bytes (p : list Z) (k : nat) (bs : list Z) : rd (list Z) :=
  if bool_decide (k + length bs <= length p)%nat then Val (take k p ++ bs ++ drop (k + length bs) p) else Oob.
Definition put_u64 (p : list Z) (k : nat) (v : Z) : rd (list Z) := put_bytes p k (le_bytes 8 v).

(** An address of the staging range, moved into the copy at [host]; [(int)] of an unsigned. *)
Definition to_copy (host base addr : Z) : Z := u64 (host + (addr - base)).
Definition int_of (z : Z) : Z := if z <? 2 ^ 31 then z else z - 2 ^ 32.

(** The loop over the preload entries at [pl_off] of the copy; the count is read again on every turn, since the
    entries may lie over it. Past the buffer a turn is [Oob], so one turn per byte is enough. *)
Fixpoint preload_loop (fuel : nat) (p : list Z) (e pl_off k : nat) (host base : Z) : rd (list Z) :=
  let* cnt := u32_at p e in
  if negb (Z.of_nat k <? int_of cnt) then Val p
  else
    match fuel with
    | O => Oob
    | S fuel' =>
        let pos := (pl_off + k * Z.to_nat SIZEOF_PRELOAD)%nat in
        let* v := u64_at p pos in
        let* p1 := (if base <=? v then put_u64 p pos (to_copy host base v) else Val p) in
        preload_loop fuel' p1 e pl_off (S k) host base
    end.

(** One list of the sub-scheduler: its count at [cnt_at], its address at [ptr_at]. *)
Definition relocate_list (p : list Z) (cnt_at ptr_at : nat) (host base : Z) : rd (list Z) :=
  let* cnt := u32_at p cnt_at in
  let* ptr := u64_at p ptr_at in
  if negb (cnt =? 0) && negb (ptr =? 0) && (base <=? ptr) then put_u64 p ptr_at (to_copy host base ptr) else Val p.

Definition relocate_preload (p : list Z) (e : nat) (host base staging : Z) : rd (list Z) :=
  let* cnt := u32_at p e in
  let* ptr := u64_at p (e + 256) in
  if negb (cnt =? 0) && negb (ptr =? 0) && (base <=? ptr) then
    let pl_off := u32 (ptr - base) in
    let* p1 := put_u64 p (e + 256) (u64 (host + pl_off)) in
    let* cnt := u32_at p1 e in
    if pl_off + cnt * SIZEOF_PRELOAD <=? staging then preload_loop (S (length p1)) p1 e (Z.to_nat pl_off) 0 host base
    else Val p1
  else Val p.

(** The pointers of one extra_dag_desc_list inside the copy. *)
Definition relocate (p : list Z) (host base staging xlist : Z) : rd (list Z) :=
  if negb (xlist =? 0) && (base <=? xlist) then
    let off := u32 (xlist - base) in
    if off + SIZEOF_EXTRA_LIST <=? staging then
      let e := Z.to_nat off in
      let* p1 := relocate_preload p e host base staging in
      let* p2 := relocate_list p1 (e + 4) (e + 264) host base in
      let* p3 := relocate_list p2 (e + 8) (e + 272) host base in
      relocate_list p3 (e + 12) (e + 280) host base
    else Val p
  else Val p.

Fixpoint relocate_all (p : list Z) (host base staging : Z) (ds : list dag_desc) : rd (list Z) :=
  match ds with
  | [] => Val p
  | d :: rest => let* p1 := relocate p host base staging (dd_xlist d) in relocate_all p1 host base staging rest
  end.

Definition in_copy (host base addr : Z) : Z := if negb (addr =? 0) && (base <=? addr) then to_copy host base addr else 0.

Definition copy_port (host base staging : Z) (q : port_desc) : port_desc :=
  {| pd_addr := if (base <=? pd_addr q) && (pd_addr q <? u32 (base + staging)) then to_copy host base (pd_addr q) else pd_addr q;
     pd_size := pd_size q; pd_boffset := pd_boffset q; pd_incr := pd_incr q |}.

(** The template of one descriptor: every address physical. *)
Definition template (host base staging : Z) (s : dag_desc) : dag_mfd :=
  let n := Nat.min (Z.to_nat (dd_port_cnt s)) (Z.to_nat CAVALRY_MAX_PORTS) in
  {| dm_flags := dd_flags s; dm_dep_cnt := dd_dep_cnt s; dm_dvi_dag_size := dd_dvi_dag_size s;
     dm_dvi_off := if base <=? dd_dvi s then to_copy host base (dd_dvi s) else dd_dvi s;
     dm_img_vaddr := dd_img_vaddr s; dm_img_size := dd_img_size s; dm_dag_vaddr := dd_dag_vaddr s; dm_scratch := dd_scratch s;
     dm_rev_cnt := dd_rev_cnt s; dm_port_cnt := dd_port_cnt s; dm_poke_cnt := dd_poke_cnt s; dm_xpoke_cnt := dd_xpoke_cnt s;
     dm_xpoke := in_copy host base (dd_xpoke s); dm_xcommon := in_copy host base (dd_xcommon s);
     dm_xlist := in_copy host base (dd_xlist s); dm_rev_ids := dd_rev_ids s;
     dm_ports := map (copy_port host base staging) (take n (dd_ports s)) ++ drop n (dd_ports s); dm_pokes := dd_pokes s;
     dm_fds := repeat CAVALRY_DMABUF_FD_REPRESENT_PHYS n ++ repeat 0 (MAX_PORT_CNT - n) |}.

(** The check of one descriptor. *)
Fixpoint check_registered (p : list Z) (base staging : Z) (d n : nat) : rd Z :=
  match n with
  | O => Val 0
  | S n' =>
      let pos := dag_pos (Z.to_nat SIZEOF_REG_DESC) d in
      let* pc := u32_at p (pos + 44) in
      if CAVALRY_MAX_PORTS <? pc then Val (- EINVAL)
      else
        let* dvi := u64_at p (pos + 16) in
        let* isz := u32_at p (pos + 28) in
        if (dvi <? base) || (isz =? 0) || (staging <? u64 (dvi - base + isz)) then Val (- EFAULT)
        else check_registered p base staging (S d) n'
  end.

(** The private memory of slot [k]: a failure with its events, or its address, length, mapping and events. *)
Definition private_memory (i : io) (k : nat) (staging : Z) (c : cav) : list dev + (Z * Z * Z * list dev) :=
  if mock c then
    match io_mmap i with
    | None => inl []
    | Some v => inr (u64 (u64 (cv_phys_base c + cv_shm_size c) + Z.shiftl (Z.of_nat k + 1) 20), staging, v, [])
    end
  else
    match io_alloc i staging with
    | None => inl []
    | Some (phys, len) =>
        if cavalry_proxy_overlaps_window phys len c then inl [DvAlloc phys len; DvFree phys len]
        else match io_mmap i with
             | None => inl [DvAlloc phys len; DvFree phys len]
             | Some v => inr (phys, len, v, [DvAlloc phys len])
             end
    end.

(** [handle_register_dag]; the eight bytes the copy has around the request are not counted as part of it. *)
Definition handle_register_dag (i : io) (q : rpc) (cid : Z) (c : cav) : rd (rpc * list dev * cav) :=
  let op := rp_opcode q in
  let fail s := Val (answer op s, [], c) in
  match mapped_tenant cid c with
  | None => fail (- ENODEV)
  | Some t =>
      let r := arena_check (SIZEOF_REG_DESC + SIZEOF_RUN_DAGS) q t in
      if r <? 0 then fail r
      else if negb (io_malloc i) then fail (- ENOMEM)
      else
        let p := io_arena i (tn_map t + rp_bar_offset q) (rp_arena_len q) in
        let* base := u32_at p 0 in
        let* staging := u32_at p 4 in
        let r := cavalry_proxy_validate_range base staging cid c in
        if r <? 0 then fail r
        else
          let b := Z.to_nat SIZEOF_REG_DESC in
          let* cnt := u32_at p (b + 24) in
          if (cnt =? 0) || (MAX_DAG_CNT_CAP <? cnt) then fail (- EINVAL)
          else
            let* r := check_registered p base staging 0 (Z.to_nat cnt) in
            if r <? 0 then fail r
            else
              match find_idx (fun d => negb (rg_in_use d)) (cv_dags c) with
              | None => fail (- ENOMEM)
              | Some slot =>
                  match private_memory i slot staging c with
                  | inl evs => Val (answer op (- ENOMEM), evs, c)
                  | inr (phys, len, virt, evs) =>
                      let mem := io_staging i (tn_map t + base) staging ++ drop (Z.to_nat staging) (io_fresh i len) in
                      let* ds := rd_list (fun d => dag_at p (dag_pos b d)) 0 (Z.to_nat cnt) in
                      let* mem := relocate_all mem phys base staging ds in
                      let* nid := u32_at p (b + 40) in let* aff := u32_at p (b + 44) in let* prio := byte_at p (b + 48) in
                      let* hw := byte_at p (b + 49) in let* enc := u32_at p (b + 32) in let* sess := u32_at p (b + 36) in
                      let* nar := u32_at p (b + 52) in
                      let '(id, next) := next_id (cv_next_dag c) in
                      let g := {| rg_id := id; rg_cid := cid; rg_owner_session := rp_session q; rg_size := staging; rg_phys := phys;
                                  rg_virt := virt; rg_dag_cnt := cnt; rg_nid := nid; rg_affinity := aff; rg_priority := prio;
                                  rg_hw_type := hw; rg_encrypt := Z.land enc 1; rg_resume := Z.land (Z.shiftr enc 1) 1;
                                  rg_no_auto := Z.land nar 1; rg_sub := Z.shiftr enc 24; rg_enc_session := sess;
                                  rg_template := map (template phys base staging) ds; rg_mem := mem; rg_in_use := true |} in
                      let sync := if 0 <=? cv_fd_cav c then [DvSync phys len] else [] in
                      Val (with_buf (answer op 0) id 0 0, evs ++ sync, with_dags c (<[slot := g]> (cv_dags c)) next)
                  end
              end
  end.

(** ** The registered DAGs *)

Definition dag_named (id : Z) (d : reg_dag) : bool := rg_in_use d && (rg_id d =? id).
Definition dag_foreign (cid session : Z) (d : reg_dag) : bool :=
  negb (rg_owner_session d =? session) || (negb (cid =? 0) && negb (rg_cid d =? cid)).

Definition handle_unregister_dag (q : rpc) (cid : Z) (c : cav) : rpc * list dev * cav :=
  let op := rp_opcode q in
  match find_idx (dag_named (rp_dag_id q)) (cv_dags c) with
  | None => (answer op (- EINVAL), [], c)
  | Some k =>
      let d := default reg0 (cv_dags c !! k) in
      if dag_foreign cid (rp_session q) d then (answer op (- EACCES), [], c)
      else let '(evs, d') := cavalry_proxy_free_dag_slot (cv_fd_cav c) d in
           (answer op 0, evs, with_dags c (<[k := d']> (cv_dags c)) (cv_next_dag c))
  end.

(** The command of a registered DAG. *)
Definition command (d : reg_dag) (dags : list dag_mfd) : run_mfd :=
  {| rm_dag_cnt := rg_dag_cnt d; rm_encrypt := rg_encrypt d; rm_resume := rg_resume d; rm_sub := rg_sub d;
     rm_session := rg_enc_session d; rm_nid := rg_nid d; rm_affinity := rg_affinity d; rm_priority := rg_priority d;
     rm_hw_type := rg_hw_type d; rm_no_auto := rg_no_auto d; rm_dvi_fd := CAVALRY_DMABUF_FD_REPRESENT_PHYS; rm_ucode_fd := -1;
     rm_ucode_off := 0; rm_dags := dags |}.

(** One port of a command bound to physical memory; [Oob] for an index outside the arrays of the command. *)
Definition bind_port (addr size : Z) (k : nat) (d : dag_mfd) : rd dag_mfd :=
  match dm_fds d !! k, dm_ports d !! k with
  | Some _, Some q =>
      Val {| dm_flags := dm_flags d; dm_dep_cnt := dm_dep_cnt d; dm_dvi_dag_size := dm_dvi_dag_size d; dm_dvi_off := dm_dvi_off d;
             dm_img_vaddr := dm_img_vaddr d; dm_img_size := dm_img_size d; dm_dag_vaddr := dm_dag_vaddr d; dm_scratch := dm_scratch d;
             dm_rev_cnt := dm_rev_cnt d; dm_port_cnt := dm_port_cnt d; dm_poke_cnt := dm_poke_cnt d; dm_xpoke_cnt := dm_xpoke_cnt d;
             dm_xpoke := dm_xpoke d; dm_xcommon := dm_xcommon d; dm_xlist := dm_xlist d; dm_rev_ids := dm_rev_ids d;
             dm_ports := <[k := {| pd_addr := addr; pd_size := size; pd_boffset := pd_boffset q; pd_incr := pd_incr q |}]> (dm_ports d);
             dm_pokes := dm_pokes d; dm_fds := <[k := CAVALRY_DMABUF_FD_REPRESENT_PHYS]> (dm_fds d) |}
  | _, _ => Oob
  end.

(** The first of the [n] elements from [k] on that passes the test, or [Oob] when the search leaves the array. *)
Fixpoint scan_first {A} (f : nat -> A -> bool) (l : list A) (k n : nat) : rd (option nat) :=
  match n with
  | O => Val None
  | S n' => match l !! k with
            | None => Oob
            | Some x => if f k x then Val (Some k) else scan_first f l (S k) n'
            end
  end.

(** One entry of the bindings ([struct amba_virt_cavalry_port_bind]). *)
Definition bind_one (t : tenant) (cid session : Z) (c : cav) (p : list Z) (k : nat) (dag_cnt : Z) (dags : list dag_mfd)
    : rd (Z + list dag_mfd) :=
  let pos := (8 + 20 * k)%nat in
  let* d_idx := u32_at p pos in let* p_idx := u32_at p (pos + 4) in let* hid := u32_at p (pos + 8) in
  let* off := u32_at p (pos + 12) in let* size := u32_at p (pos + 16) in
  match cavalry_proxy_lookup_handle hid cid session c with
  | inl e => Val (inl e)
  | inr h =>
      if (size =? 0) || (hd_size h <? off + size) then Val (inl (- EINVAL))
      else
        let r := cavalry_proxy_validate_range (hd_off h + off) size cid c in
        if r <? 0 then Val (inl r)
        else if dag_cnt <=? d_idx then Val (inl (- EINVAL))
        else match dags !! Z.to_nat d_idx with
             | None => Oob
             | Some d => if dm_port_cnt d <=? p_idx then Val (inl (- EINVAL))
                         else let* d' := bind_port (u64 (tn_phys_base t + hd_off h + off)) size (Z.to_nat p_idx) d in
                              Val (inr (<[Z.to_nat d_idx := d']> dags))
             end
  end.

Fixpoint bind_ports (t : tenant) (cid session : Z) (c : cav) (p : list Z) (k n : nat) (dag_cnt : Z) (dags : list dag_mfd)
    : rd (Z + list dag_mfd) :=
  match n with
  | O => Val (inr dags)
  | S n' =>
      let* r := bind_one t cid session c p k dag_cnt dags in
      match r with
      | inl e => Val (inl e)
      | inr dags' => bind_ports t cid session c p (S k) n' dag_cnt dags'
      end
  end.

(** Whether a port of a command still has the descriptor 0. *)
Fixpoint unbound (dags : list dag_mfd) : rd bool :=
  match dags with
  | [] => Val false
  | d :: rest =>
      let* r := scan_first (fun _ fd => fd =? 0) (dm_fds d) 0 (Z.to_nat (dm_port_cnt d)) in
      match r with Some _ => Val true | None => unbound rest end
  end.

(** [handle_run_registered_dag] *)
Definition handle_run_registered_dag (i : io) (q : rpc) (cid : Z) (c : cav) : rd (rpc * list dev * cav) :=
  let op := rp_opcode q in
  let fail s := Val (answer op s, [], c) in
  match mapped_tenant cid c with
  | None => fail (- ENODEV)
  | Some t =>
      let r := arena_check SIZEOF_RUN_REG q t in
      if r <? 0 then fail r
      else
        match List.find (dag_named (rp_dag_id q)) (cv_dags c) with
        | None => fail (- EINVAL)
        | Some d =>
            if dag_foreign cid (rp_session q) d then fail (- EACCES)
            else if negb (io_malloc i) then fail (- ENOMEM)
            else
              let p := io_arena i (tn_map t + rp_bar_offset q) (rp_arena_len q) in
              let* pc := u32_at p 4 in
              if CAVALRY_MAX_PORTS <? pc then fail (- EINVAL)
              else if negb (io_calloc i) then fail (- ENOMEM)
              else
                let* r := bind_ports t cid (rp_session q) c p 0 (Z.to_nat pc) (rg_dag_cnt d) (take (Z.to_nat (rg_dag_cnt d)) (rg_template d)) in
                match r with
                | inl e => fail e
                | inr dags =>
                    let* u := unbound dags in
                    if u : bool then fail (- EINVAL)
                    else
                      let m := command d dags in
                      let '(res, evs) := submit i m c in
                      Val (run_answer op res, evs, cavalry_proxy_record_last_mfd m c)
                end
        end
  end.

(** ** Running a DAG on two handles *)

(** The first port whose size is that of the input, or port 0 of DAG 0. *)
Fixpoint input_port (size : Z) (d : nat) (dags : list dag_mfd) : rd (nat * nat) :=
  match dags with
  | [] => Val (0%nat, 0%nat)
  | g :: rest =>
      let* r := scan_first (fun _ q => pd_size q =? size) (dm_ports g) 0 (Z.to_nat (dm_port_cnt g)) in
      match r with Some k => Val (d, k) | None => input_port size (S d) rest end
  end.

(** In each DAG the first port of that size but the input's; the last DAG that has one wins, else [out]. *)
Fixpoint output_scan (size : Z) (inp out : nat * nat) (d : nat) (dags : list dag_mfd) : rd (nat * nat) :=
  match dags with
  | [] => Val out
  | g :: rest =>
      let* r := scan_first (fun k q => negb (bool_decide ((d, k) = inp)) && (pd_size q =? size)) (dm_ports g) 0 (Z.to_nat (dm_port_cnt g)) in
      output_scan size inp (match r with Some k => (d, k) | None => out end) (S d) rest
  end.

(** Starting from the last port of the last DAG. *)
Definition output_port (size : Z) (inp : nat * nat) (dags : list dag_mfd) : rd (nat * nat) :=
  let d0 := pred (length dags) in
  match dags !! d0 with
  | None => Oob
  | Some g => output_scan size inp (d0, if 0 <? dm_port_cnt g then Z.to_nat (dm_port_cnt g - 1) else 0%nat) 0 dags
  end.

Definition bind_at (t : tenant) (h : handle_entry) (dk : nat * nat) (dags : list dag_mfd) : rd (list dag_mfd) :=
  match dags !! fst dk with
  | None => Oob
  | Some d => let* d' := bind_port (u64 (tn_phys_base t + hd_off h)) (hd_size h) (snd dk) d in Val (<[fst dk := d']> dags)
  end.

(** The two bindings, made unless the command is empty. *)
Definition bind_handles (t : tenant) (hin hout : handle_entry) (dags : list dag_mfd) : rd (list dag_mfd) :=
  match dags with
  | [] => Val []
  | _ =>
      let* inp := input_port (hd_size hin) 0 dags in
      let* dags1 := bind_at t hin inp dags in
      let* out := output_port (hd_size hout) inp dags1 in
      bind_at t hout out dags1
  end.

(** [cavalry_proxy_run_dag_with_handles]: the return value, the result of the run, the events and the state (the
    three times it reports are the clock's). *)
Definition cavalry_proxy_run_dag_with_handles (i : io) (dag_id in_id out_id cid : Z) (c : cav)
    : rd (Z * option (Z * Z) * list dev * cav) :=
  let fail e := Val (e, None, [], c) in
  match mapped_tenant cid c with
  | None => fail (- ENODEV)
  | Some t =>
      if (dag_id =? 0) || (in_id =? 0) || (out_id =? 0) || (in_id =? out_id) then fail (- EINVAL)
      else
        match cavalry_proxy_owned_handle in_id cid c with
        | inl e => fail e
        | inr hin =>
            let r := cavalry_proxy_validate_range (hd_off hin) (hd_size hin) cid c in
            if r <? 0 then fail r
            else
              match cavalry_proxy_owned_handle out_id cid c with
              | inl e => fail e
              | inr hout =>
                  let r := cavalry_proxy_validate_range (hd_off hout) (hd_size hout) cid c in
                  if r <? 0 then fail r
                  else
                    match List.find (dag_named dag_id) (cv_dags c) with
                    | None => fail (- ENOENT)
                    | Some d =>
                        if negb (rg_cid d =? cid) then fail (- EACCES)
                        else if negb (io_calloc i) then fail (- ENOMEM)
                        else
                          let dags := take (Z.to_nat (rg_dag_cnt d)) (rg_template d) in
                          let* dags2 := bind_handles t hin hout dags in
                          let m := command d dags2 in
                          let '(ret, errno, rval, ticks, evs) := submit i m c in
                          let c1 := cavalry_proxy_record_last_mfd m c in
                          Val (if ret <? 0 then (- errno, Some (rval, 0), evs, c1) else (0, Some (rval, ticks), evs, c1))
                    end
              end
        end
  end.

(** ** Requests *)

(** The answer of a read-only ioctl. *)
Definition query_answer (i : io) (op : Z) (f : Z -> rpc) : rpc :=
  let '(ret, errno, v) := io_query i op in if ret <? 0 then answer op (- errno) else f v.

(** The switch of [cavalry_proxy_handle_rpc]. *)
Definition rpc_body (i : io) (q : rpc) (cid : Z) (c : cav) : rd (rpc * list dev * cav) :=
  let op := rp_opcode q in
  let quiet r := Val (r, [], c) in
  if op =? VCAV_OP_GET_VERSION then quiet (query_answer i op (fun _ => answer op 0))
  else if op =? VCAV_OP_GET_CHIP_ID then
    quiet (query_answer i op (fun v => {| rp_opcode := op; rp_status := 0; rp_session := 0; rp_dag_id := 0; rp_bar_offset := 0;
                                          rp_size := 0; rp_arena_len := 0; rp_rval := 0; rp_ticks := 0; rp_chip := v |}))
  else if op =? VCAV_OP_GET_STATUS then quiet (query_answer i op (fun v => with_run (answer op 0) 0 v 0))
  else if op =? VCAV_OP_QUERY_BUF then
    let t := cavalry_proxy_get_tenant cid c in quiet (with_buf (answer op 0) 0 (pool_base_of t) (pool_size_of t))
  else if op =? VCAV_OP_QUERY_UCODE_CMD_SIZE then quiet (query_answer i op (fun v => with_run (answer op 0) 0 v 0))
  else if op =? VCAV_OP_ALLOC_MEM then
    match cavalry_proxy_alloc (rp_size q) cid (rp_session q) c with
    | None => Oob
    | Some (inl e, c1) => Val (with_buf (answer op e) 0 0 (rp_size q), [], c1)
    | Some (inr off, c1) => Val (with_buf (answer op 0) 0 off (rp_size q), [], c1)
    end
  else if op =? VCAV_OP_CLOSE_SESSION then
    let '(evs, _, c1) := cavalry_proxy_close_session cid (rp_session q) c in Val (answer op 0, evs, c1)
  else if op =? VCAV_OP_FREE_MEM then let '(r, c1) := cavalry_proxy_free (rp_bar_offset q) cid c in Val (answer op r, [], c1)
  else if op =? VCAV_OP_REGISTER_DAG then handle_register_dag i q cid c
  else if op =? VCAV_OP_UNREGISTER_DAG then Val (handle_unregister_dag q cid c)
  else if op =? VCAV_OP_ALLOC_HANDLE then
    match cavalry_proxy_alloc_handle (rp_size q) cid (rp_session q) c with
    | None => Oob
    | Some (inl e, c1) => Val (answer op e, [], c1)
    | Some (inr (hid, off), c1) => Val (with_buf (answer op 0) hid off (rp_size q), [], c1)
    end
  else if op =? VCAV_OP_FREE_HANDLE then
    let '(r, c1) := cavalry_proxy_free_handle (rp_dag_id q) cid (rp_session q) c in Val (answer op r, [], c1)
  else if op =? VCAV_OP_RUN_REGISTERED_DAG then handle_run_registered_dag i q cid c
  else if op =? VCAV_OP_SYNC_CACHE then quiet (answer op 0)
  else if op =? VCAV_OP_START_VP then
    let '(ret, _, started) := io_query i VCAV_OP_GET_STATUS in
    if (ret <? 0) || (started =? 0) then
      let '(sret, serr) := io_start i in Val (answer op (if sret <? 0 then - serr else 0), [DvStart], c)
    else quiet (answer op 0)
  else if op =? VCAV_OP_STOP_VP then quiet (answer op 0)
  else if op =? VCAV_OP_RUN_DAGS then handle_run_dags i q cid c
  else quiet (answer op (- ENOSYS)).

(** The start of a request: refused while the proxy drains. *)
Definition rpc_enter (c : cav) : option cav :=
  if cv_draining c then None else Some (with_drain c (cv_draining c) (cv_active c + 1)).
Definition rpc_leave (c : cav) : cav := with_drain c (cv_draining c) (cv_active c - 1).

(** The driver is open, or the proxy is in its test mode. *)
Definition online (c : cav) : bool := (0 <=? cv_fd_cav c) || ((cv_fd_shm c <? 0) && (0 <? cv_shm_size c)).

(** The middle: the driver is opened when it is not, then the switch. *)
Definition rpc_serve (i : io) (q : rpc) (cid : Z) (c : cav) : rd (rpc * list dev * cav) :=
  let '(evs, c1) := if online c then ([], c) else let '(_, e, c1) := cavalry_proxy_reopen i c in (e, c1) in
  if negb (online c1) then Val (answer (rp_opcode q) (- ENODEV), evs, c1)
  else let* r := rpc_body i q cid c1 in let '(resp, e2, c2) := r in Val (resp, evs ++ e2, c2).

(** [cavalry_proxy_handle_rpc] *)
Definition cavalry_proxy_handle_rpc (i : io) (q : rpc) (cid : Z) (c : cav) : rd (rpc * list dev * cav) :=
  match rpc_enter c with
  | None => Val (answer (rp_opcode q) (- EHOSTDOWN), [], c)
  | Some c1 => let* r := rpc_serve i q cid c1 in let '(resp, evs, c2) := r in Val (resp, evs, rpc_leave c2)
  end.

(** ** Draining *)

Definition cavalry_proxy_start_drain (c : cav) : cav := with_drain c true (cv_active c).
Definition cavalry_proxy_is_draining (c : cav) : bool := cv_draining c.
(** The result of the wait, in the state the wait ends in. *)
Definition cavalry_proxy_wait_drained (c : cav) : Z := if cv_active c =? 0 then 0 else - ETIMEDOUT.
Definition cavalry_proxy_finish_drain (c : cav) : list dev * cav :=
  let c1 := with_drain c false (cv_active c) in
  if 0 <=? cv_fd_cav c1 then ([DvClose (cv_fd_cav c1)], with_fds c1 (-1) (cv_window_fd c1) (cv_chip_id c1) (cv_guard c1)) else ([], c1).

Definition cavalry_proxy_set_enforce_path_b (enforce : bool) (c : cav) : cav :=
  {| cv_fd_cav := cv_fd_cav c; cv_fd_shm := cv_fd_shm c; cv_window_fd := cv_window_fd c; cv_map := cv_map c;
     cv_shm_size := cv_shm_size c; cv_phys_base := cv_phys_base c; cv_chip_id := cv_chip_id c; cv_guard := cv_guard c;
     cv_path_b := enforce; cv_hw := cv_hw c; cv_tenants := cv_tenants c; cv_slices := cv_slices c;
     cv_handles := cv_handles c; cv_next_handle := cv_next_handle c; cv_dags := cv_dags c; cv_next_dag := cv_next_dag c;
     cv_draining := cv_draining c; cv_active := cv_active c; cv_last := cv_last c |}.
Definition cavalry_proxy_get_enforce_path_b (c : cav) : bool := cv_path_b c.

End CavalryRpc.
