(* ===== verification/CavalryProps.v ===== *)
(** * The proxy of the vector processor keeps the guests apart

    [Module CavalryProps]: the buffers of one guest never overlap and the search for room is exact ([cav_alloc_exact],
    [cav_reachable_ok]); a request changes nothing of another guest ([rpc_frames_others]); a drained proxy stays quiet
    ([drained_stays_quiet]). *)

From stdpp Require Import base list.
From Stdlib Require Import ZArith Lia.
From S2P Require Import Prelude SliceGeometry ByteBuf Cavalry CavalryRpc.
Import Geometry Cavalry CavalryRpc.

Module CavalryProps.

(** ** Entries that stay *)

(** The entries [P] selects are the same, at the same places, in both tables. *)
Definition keeps {A} (P : A -> bool) (l l' : list A) : Prop := forall k x, P x = true -> l !! k = Some x <-> l' !! k = Some x.

#[global] Instance keeps_equiv {A} (P : A -> bool) : Equivalence (keeps P).
Proof.
  split; [by intros l k x|by intros l l' H k x Hx; rewrite (H k x Hx)|].
  intros l1 l2 l3 H1 H2 k x Hx. by rewrite (H1 k x Hx), (H2 k x Hx).
Qed.

Lemma keeps_insert {A} (P : A -> bool) l k x y : l !! k = Some y -> P y = false -> P x = false -> keeps P l (<[k := x]> l).
Proof.
  intros Hk Hy Hx j z Hz. destruct (decide (j = k)) as [->|Hne].
  - rewrite list_lookup_insert_eq by (by eapply lookup_lt_Some). rewrite Hk. split; intros [= ->]; congruence.
  - by rewrite list_lookup_insert_ne.
Qed.

Lemma keeps_map {A} (P : A -> bool) (f : A -> A) l :
  (forall x, P x = true -> f x = x) -> (forall x, P (f x) = true -> f x = x) -> keeps P l (map f l).
Proof.
  intros H1 H2 k x Hx. rewrite list_lookup_fmap. split.
  - intros ->. cbn. by rewrite H1.
  - intros Hf. destruct (l !! k) as [y|]; [|done]. injection Hf as <-. by rewrite H2.
Qed.

(** ** What a guest does not own *)

Definition slice_else (cid : Z) (s : slice_entry) : bool := sl_in_use s && negb (sl_cid s =? cid).
Definition handle_else (cid : Z) (h : handle_entry) : bool := hd_in_use h && negb (hd_cid h =? cid).
Definition dag_else (cid : Z) (d : reg_dag) : bool := rg_in_use d && negb (rg_cid d =? cid).

(** The tenants, everything the other guests hold and the state of the drain are the same. *)
Record others_kept (cid : Z) (c c' : cav) : Prop := {
  ok_tenants : cv_tenants c' = cv_tenants c;
  ok_hw : cv_hw c' = cv_hw c;
  ok_slices : keeps (slice_else cid) (cv_slices c) (cv_slices c');
  ok_handles : keeps (handle_else cid) (cv_handles c) (cv_handles c');
  ok_dags : keeps (dag_else cid) (cv_dags c) (cv_dags c');
  ok_draining : cv_draining c' = cv_draining c;
  ok_active : cv_active c' = cv_active c }.

#[global] Instance others_kept_preorder cid : PreOrder (others_kept cid).
Proof.
  split; [by intros c; split|].
  intros a b c [T1 W1 S1 H1 D1 R1 A1] [T2 W2 S2 H2 D2 R2 A2].
  split; [congruence|congruence|by etrans|by etrans|by etrans|congruence|congruence].
Qed.

(** Only the fields that no guest owns differ. *)
Lemma others_same cid c c' :
  cv_tenants c' = cv_tenants c -> cv_hw c' = cv_hw c -> cv_slices c' = cv_slices c -> cv_handles c' = cv_handles c ->
  cv_dags c' = cv_dags c -> cv_draining c' = cv_draining c -> cv_active c' = cv_active c -> others_kept cid c c'.
Proof. intros H1 H2 H3 H4 H5 H6 H7. split; [done|done|by rewrite H3|by rewrite H4|by rewrite H5|done|done]. Qed.

Lemma find_idx_lookup {A} (f : A -> bool) l i d : find_idx f l = Some i -> exists x, l !! i = Some x /\ default d (l !! i) = x /\ f x = true.
Proof. intros (x & Hx & Hf & _)%find_idx_Some. exists x. by rewrite Hx. Qed.

Lemma alloc_frames size cid session c r c' : cavalry_proxy_alloc size cid session c = Some (r, c') -> others_kept cid c c'.
Proof.
  unfold cavalry_proxy_alloc. cbv zeta. destruct (size =? 0); [by intros [= _ <-]|]. destruct (_ <? size); [by intros [= _ <-]|].
  destruct (_ <? page_up size); [by intros [= _ <-]|].
  destruct (find_idx _ (cv_slices c)) as [slot|] eqn:Ef; [|by intros [= _ <-]].
  destruct (alloc_loop _ _ _ _ _ _) as [[cand|]|]; [|by intros [= _ <-]|done]. intros [= _ <-].
  apply (find_idx_lookup _ _ _ slice0) in Ef as (s & Hs & _ & Hf). split; try done. cbn [cv_slices with_slices].
  eapply keeps_insert; [exact Hs| |].
  - unfold slice_else. apply negb_true_iff in Hf. by rewrite Hf.
  - unfold slice_else. cbn. by rewrite Z.eqb_refl.
Qed.

Lemma free_frames off cid c : cid <> 0 -> others_kept cid c (snd (cavalry_proxy_free off cid c)).
Proof.
  intros Hc. unfold cavalry_proxy_free. destruct (find_idx _ (cv_slices c)) as [k|] eqn:Ef; [|done].
  apply (find_idx_lookup _ _ _ slice0) in Ef as (s & Hs & -> & _). apply Z.eqb_neq in Hc. rewrite Hc. cbn [negb andb].
  destruct (Z.eqb_spec (sl_cid s) cid) as [E|]; [|done]. split; try done. cbn. eapply keeps_insert; [exact Hs| |done].
  unfold slice_else. rewrite E, Z.eqb_refl. apply andb_false_r.
Qed.

Lemma alloc_handle_frames size cid session c r c' :
  cid <> 0 -> cavalry_proxy_alloc_handle size cid session c = Some (r, c') -> others_kept cid c c'.
Proof.
  intros Hc. unfold cavalry_proxy_alloc_handle. destruct (size =? 0); [by intros [= _ <-]|].
  destruct (cavalry_proxy_alloc size cid session c) as [[[e|off] c1]|] eqn:Ea; [|..]; [|..|done]; apply alloc_frames in Ea.
  { by intros [= _ <-]. }
  destruct (find_idx _ (cv_handles c1)) as [slot|] eqn:Ef.
  - destruct (next_id _) as [hid next]. intros [= _ <-]. etrans; [exact Ea|].
    apply (find_idx_lookup _ _ _ handle0) in Ef as (h & Hh & _ & Hf). split; try done. cbn. eapply keeps_insert; [exact Hh| |].
    + unfold handle_else. apply negb_true_iff in Hf. by rewrite Hf.
    + unfold handle_else. cbn. by rewrite Z.eqb_refl.
  - intros [= _ <-]. etrans; [exact Ea|]. by apply free_frames.
Qed.

Lemma free_handle_frames id cid session c : cid <> 0 -> others_kept cid c (snd (cavalry_proxy_free_handle id cid session c)).
Proof.
  intros Hc. unfold cavalry_proxy_free_handle. destruct (find_idx _ (cv_handles c)) as [k|] eqn:Ef; [|done].
  apply (find_idx_lookup _ _ _ handle0) in Ef as (h & Hh & -> & _). unfold foreign. apply Z.eqb_neq in Hc as Hc'. rewrite Hc'. cbn [negb andb].
  destruct (negb (hd_session h =? session)); [done|]. destruct (Z.eqb_spec (hd_cid h) cid) as [E|]; [|done]. cbn [negb orb snd].
  etrans; [|by apply free_frames]. split; try done. cbn. eapply keeps_insert; [exact Hh| |done].
  unfold handle_else. rewrite E, Z.eqb_refl. apply andb_false_r.
Qed.

Lemma free_slot_off fd d : rg_in_use d = true -> rg_in_use (snd (cavalry_proxy_free_dag_slot fd d)) = false.
Proof. unfold cavalry_proxy_free_dag_slot. by intros ->. Qed.

Lemma free_dags_keeps P fd sel l :
  (forall d, P d = true -> rg_in_use d = true /\ sel d = false) -> keeps P l (snd (free_dags fd sel l)).
Proof.
  intros HP. cbn [free_dags snd]. apply keeps_map.
  - intros d Hd. destruct (HP d Hd) as [_ ->]. by rewrite andb_false_r.
  - intros d. destruct (rg_in_use d && sel d) eqn:E; [|done]. apply andb_true_iff in E as [Hu _]. intros Hd.
    destruct (HP _ Hd) as [Hu' _]. by rewrite free_slot_off in Hu'.
Qed.

Lemma close_session_frames cid session c : cid <> 0 -> others_kept cid c (snd (cavalry_proxy_close_session cid session c)).
Proof.
  intros Hc%Z.eqb_neq. unfold cavalry_proxy_close_session. destruct (session =? 0); [done|]. rewrite Hc. cbn [orb].
  destruct (free_dags _ _ _) as [evs dags] eqn:Ed. split; try done; cbn.
  - apply keeps_map; intros s; unfold slice_else.
    + destruct (sl_cid s =? cid); [by rewrite andb_false_r|]. by rewrite !andb_false_r.
    + destruct (sl_in_use s && _ && _) eqn:E; [|done]. done.
  - apply keeps_map; intros h; unfold handle_else.
    + destruct (hd_cid h =? cid); [by rewrite andb_false_r|]. by rewrite !andb_false_r.
    + destruct (hd_in_use h && _ && _) eqn:E; [|done]. done.
  - replace dags with (snd (free_dags (cv_fd_cav c) (fun d => (rg_owner_session d =? session) && (rg_cid d =? cid)) (cv_dags c))) by (by rewrite Ed).
    apply free_dags_keeps. intros d. unfold dag_else. intros [Hu Hn]%andb_true_iff. apply negb_true_iff in Hn. by rewrite Hn, andb_false_r.
Qed.

Lemma disconnect_frames cid c : others_kept cid c (snd (cavalry_proxy_client_disconnect cid c)).
Proof.
  unfold cavalry_proxy_client_disconnect. destruct (free_dags _ _ _) as [evs dags] eqn:Ed. split; try done; cbn.
  - apply keeps_map; intros s; unfold slice_else.
    + destruct (sl_cid s =? cid); [by rewrite andb_false_r|]. by rewrite !andb_false_r.
    + destruct (sl_in_use s && _) eqn:E; [|done]. done.
  - apply keeps_map; intros h; unfold handle_else.
    + destruct (hd_cid h =? cid); [by rewrite andb_false_r|]. by rewrite !andb_false_r.
    + destruct (hd_in_use h && _) eqn:E; [|done]. done.
  - replace dags with (snd (free_dags (cv_fd_cav c) (fun d => rg_cid d =? cid) (cv_dags c))) by (by rewrite Ed).
    apply free_dags_keeps. intros d. unfold dag_else. intros [Hu Hn]%andb_true_iff. by apply negb_true_iff in Hn.
Qed.

Lemma unregister_frames q cid c : cid <> 0 -> others_kept cid c (snd (handle_unregister_dag q cid c)).
Proof.
  intros Hc%Z.eqb_neq. unfold handle_unregister_dag. destruct (find_idx _ (cv_dags c)) as [k|] eqn:Ef; [|done].
  apply (find_idx_lookup _ _ _ reg0) in Ef as (d & Hd & -> & Hn). unfold dag_foreign. rewrite Hc. cbn [negb andb].
  destruct (negb (rg_owner_session d =? _)); [done|]. destruct (Z.eqb_spec (rg_cid d) cid) as [E|]; [|done]. cbn [negb orb].
  apply andb_true_iff in Hn as [Hu _]. pose proof (free_slot_off (cv_fd_cav c) d Hu) as Ho.
  destruct (cavalry_proxy_free_dag_slot _ _) as [evs d']. split; try done. cbn. eapply keeps_insert; [exact Hd| |].
  - unfold dag_else. rewrite E, Z.eqb_refl. apply andb_false_r.
  - unfold dag_else. cbn in Ho. by rewrite Ho.
Qed.

(** What a run leaves: only the record of the last command. *)
Lemma record_frames cid m c : others_kept cid c (cavalry_proxy_record_last_mfd m c).
Proof. by apply others_same. Qed.

(** A run of descriptors in the guest's memory: refused with nothing done, or checked, rebuilt and submitted. *)
Lemma run_dags_inv i q cid c resp evs c' :
  handle_run_dags i q cid c = Val (resp, evs, c') ->
  (evs = [] /\ c' = c) \/
  exists t r cnt ds prio aff hw enc sess (p := io_arena i (tn_map t + rp_bar_offset q) (rp_arena_len q))
         (m := window_command t cnt prio aff hw enc sess ds),
    cv_path_b c = false /\ mapped_tenant cid c = Some t /\ check_dags cid c p 0 (Z.to_nat cnt) = Val r /\ 0 <= r /\
    rd_list (fun d => dag_at p (dag_pos 0 d)) 0 (Z.to_nat cnt) = Val ds /\ evs = snd (submit i m c) /\
    c' = cavalry_proxy_record_last_mfd m c.
Proof.
  unfold handle_run_dags. cbv zeta. intros H. destruct (cv_path_b c) eqn:Eb; [injection H as _ <- <-; by left|].
  destruct (mapped_tenant cid c) as [t|] eqn:Et; [|injection H as _ <- <-; by left].
  do 3 (case_match; [injection H as _ <- <-; by left|]). rd_inv H. case_match; [injection H as _ <- <-; by left|]. rd_inv H.
  destruct (Z.ltb_spec v0 0) as [|Hr]; [injection H as _ <- <-; by left|]. case_match; [injection H as _ <- <-; by left|]. rd_inv H.
  destruct (submit _ _ _) as [res e] eqn:Es. injection H as _ <- <-. right. exists t, v0, v, v6, v1, v2, v3, v4, v5. cbv zeta.
  by rewrite Es.
Qed.

Lemma run_dags_frames i q cid c r : handle_run_dags i q cid c = Val r -> others_kept cid c (snd r).
Proof.
  destruct r as [[resp evs] c'].
  intros [[_ ->]|(t & r & cnt & ds & prio & aff & hw & enc & sess & _ & _ & _ & _ & _ & _ & ->)]%run_dags_inv; [done|apply record_frames].
Qed.

Lemma register_frames i q cid c r : handle_register_dag i q cid c = Val r -> others_kept cid c (snd r).
Proof.
  unfold handle_register_dag. cbv zeta. intros H. case_match; [|by injection H as <-]. do 2 (case_match; [by injection H as <-|]).
  rd_inv H. case_match; [by injection H as <-|]. rd_inv H. case_match; [by injection H as <-|].
  rd_inv H. case_match; [by injection H as <-|].
  destruct (find_idx _ (cv_dags c)) as [slot|] eqn:Ef; [|by injection H as <-].
  destruct (private_memory _ _ _ _) as [evs|[[[phys len] virt] evs]]; [by injection H as <-|].
  rd_inv H. destruct (next_id _) as [id next]. injection H as <-.
  apply (find_idx_lookup _ _ _ reg0) in Ef as (d & Hd & _ & Hf). split; try done. cbn. eapply keeps_insert; [exact Hd| |].
  - unfold dag_else. apply negb_true_iff in Hf. by rewrite Hf.
  - unfold dag_else. cbn. by rewrite Z.eqb_refl.
Qed.

(** A run of a registered DAG: refused with nothing done, or its template bound and submitted. *)
Lemma run_registered_inv i q cid c resp evs c' :
  handle_run_registered_dag i q cid c = Val (resp, evs, c') ->
  (evs = [] /\ c' = c) \/
  exists t d pc dags (p := io_arena i (tn_map t + rp_bar_offset q) (rp_arena_len q)),
    mapped_tenant cid c = Some t /\ List.find (dag_named (rp_dag_id q)) (cv_dags c) = Some d /\ dag_foreign cid (rp_session q) d = false /\
    bind_ports t cid (rp_session q) c p 0 (Z.to_nat pc) (rg_dag_cnt d) (take (Z.to_nat (rg_dag_cnt d)) (rg_template d)) = Val (inr dags) /\
    unbound dags = Val false /\ evs = snd (submit i (command d dags) c) /\ c' = cavalry_proxy_record_last_mfd (command d dags) c.
Proof.
  unfold handle_run_registered_dag. cbv zeta. intros H. destruct (mapped_tenant cid c) as [t|] eqn:Et; [|injection H as _ <- <-; by left].
  case_match; [injection H as _ <- <-; by left|]. destruct (List.find _ _) as [d|] eqn:Ed; [|injection H as _ <- <-; by left].
  destruct (dag_foreign _ _ _) eqn:Ef; [injection H as _ <- <-; by left|]. case_match; [injection H as _ <- <-; by left|]. rd_inv H.
  do 2 (case_match; [injection H as _ <- <-; by left|]). rd_inv H. destruct v0 as [e|dags]; [injection H as _ <- <-; by left|].
  rd_inv H. destruct v0; [injection H as _ <- <-; by left|]. destruct (submit _ _ _) as [res e] eqn:Es.
  injection H as _ <- <-. right. exists t, d, v, dags. cbv zeta. by rewrite Es.
Qed.

Lemma run_registered_frames i q cid c r : handle_run_registered_dag i q cid c = Val r -> others_kept cid c (snd r).
Proof.
  destruct r as [[resp evs] c'].
  intros [[_ ->]|(t & d & pc & dags & _ & _ & _ & _ & _ & _ & ->)]%run_registered_inv; [done|apply record_frames].
Qed.

Lemma reopen_frames i cid c : others_kept cid c (snd (cavalry_proxy_reopen i c)).
Proof.
  unfold cavalry_proxy_reopen. destruct (0 <=? cv_fd_cav c); [done|]. destruct (io_open i); [|done].
  destruct (cavalry_proxy_guard_window_locked _ _) as [evs guard]. by apply others_same.
Qed.

(** What the switch does, one constructor for each operation that may change something. *)
Inductive body_step (i : io) (q : rpc) (cid : Z) (c : cav) : list dev -> cav -> Prop :=
| BsSame evs : Forall (fun e => e = DvStart) evs -> body_step i q cid c evs c
| BsAlloc r c' : cavalry_proxy_alloc (rp_size q) cid (rp_session q) c = Some (r, c') -> body_step i q cid c [] c'
| BsClose evs n c' : cavalry_proxy_close_session cid (rp_session q) c = (evs, n, c') -> body_step i q cid c evs c'
| BsFree r c' : cavalry_proxy_free (rp_bar_offset q) cid c = (r, c') -> body_step i q cid c [] c'
| BsRegister resp evs c' : handle_register_dag i q cid c = Val (resp, evs, c') -> body_step i q cid c evs c'
| BsUnregister resp evs c' : handle_unregister_dag q cid c = (resp, evs, c') -> body_step i q cid c evs c'
| BsAllocHandle r c' : cavalry_proxy_alloc_handle (rp_size q) cid (rp_session q) c = Some (r, c') -> body_step i q cid c [] c'
| BsFreeHandle r c' : cavalry_proxy_free_handle (rp_dag_id q) cid (rp_session q) c = (r, c') -> body_step i q cid c [] c'
| BsRunRegistered resp evs c' : handle_run_registered_dag i q cid c = Val (resp, evs, c') -> body_step i q cid c evs c'
| BsRunDags resp evs c' : handle_run_dags i q cid c = Val (resp, evs, c') -> body_step i q cid c evs c'.

Lemma body_cases i q cid c resp evs c' : rpc_body i q cid c = Val (resp, evs, c') -> body_step i q cid c evs c'.
Proof.
  assert (Hq : body_step i q cid c [] c) by (by apply BsSame).
  unfold rpc_body. cbv zeta.
  destruct (rp_opcode q =? VCAV_OP_GET_VERSION); [by intros [= _ <- <-]|].
  destruct (rp_opcode q =? VCAV_OP_GET_CHIP_ID); [by intros [= _ <- <-]|].
  destruct (rp_opcode q =? VCAV_OP_GET_STATUS); [by intros [= _ <- <-]|].
  destruct (rp_opcode q =? VCAV_OP_QUERY_BUF); [by intros [= _ <- <-]|].
  destruct (rp_opcode q =? VCAV_OP_QUERY_UCODE_CMD_SIZE); [by intros [= _ <- <-]|].
  destruct (rp_opcode q =? VCAV_OP_ALLOC_MEM).
  { destruct (cavalry_proxy_alloc _ _ _ _) as [[[e|off] c1]|] eqn:Ea; [..|done]; intros [= _ <- <-]; by eapply BsAlloc. }
  destruct (rp_opcode q =? VCAV_OP_CLOSE_SESSION).
  { destruct (cavalry_proxy_close_session _ _ _) as [[e n] c1] eqn:Ea. intros [= _ <- <-]. by eapply BsClose. }
  destruct (rp_opcode q =? VCAV_OP_FREE_MEM).
  { destruct (cavalry_proxy_free _ _ _) as [e c1] eqn:Ea. intros [= _ <- <-]. by eapply BsFree. }
  destruct (rp_opcode q =? VCAV_OP_REGISTER_DAG); [apply BsRegister|].
  destruct (rp_opcode q =? VCAV_OP_UNREGISTER_DAG); [intros [=Ea]; by apply (BsUnregister _ _ _ _ resp)|].
  destruct (rp_opcode q =? VCAV_OP_ALLOC_HANDLE).
  { destruct (cavalry_proxy_alloc_handle _ _ _ _) as [[[e|[hid off]] c1]|] eqn:Ea; [..|done]; intros [= _ <- <-]; by eapply BsAllocHandle. }
  destruct (rp_opcode q =? VCAV_OP_FREE_HANDLE).
  { destruct (cavalry_proxy_free_handle _ _ _ _) as [e c1] eqn:Ea. intros [= _ <- <-]. by eapply BsFreeHandle. }
  destruct (rp_opcode q =? VCAV_OP_RUN_REGISTERED_DAG); [apply BsRunRegistered|].
  destruct (rp_opcode q =? VCAV_OP_SYNC_CACHE); [by intros [= _ <- <-]|].
  destruct (rp_opcode q =? VCAV_OP_START_VP).
  { destruct (io_query i VCAV_OP_GET_STATUS) as [[ret e] started].
    destruct (_ || _); [destruct (io_start i)|]; intros [= _ <- <-]; [|done]. apply BsSame. by constructor. }
  destruct (rp_opcode q =? VCAV_OP_STOP_VP); [by intros [= _ <- <-]|].
  destruct (rp_opcode q =? VCAV_OP_RUN_DAGS); [apply BsRunDags|by intros [= _ <- <-]].
Qed.

Lemma body_frames i q cid c evs c' : cid <> 0 -> body_step i q cid c evs c' -> others_kept cid c c'.
Proof.
  intros Hc [e He|r c1 H|e n c1 H|r c1 H|resp e c1 H|resp e c1 H|r c1 H|r c1 H|resp e c1 H|resp e c1 H].
  - done.
  - by eapply alloc_frames.
  - pose proof (close_session_frames cid (rp_session q) c Hc) as Hf. by rewrite H in Hf.
  - pose proof (free_frames (rp_bar_offset q) cid c Hc) as Hf. by rewrite H in Hf.
  - by apply register_frames in H.
  - pose proof (unregister_frames q cid c Hc) as Hf. by rewrite H in Hf.
  - by eapply alloc_handle_frames.
  - pose proof (free_handle_frames (rp_dag_id q) cid (rp_session q) c Hc) as Hf. by rewrite H in Hf.
  - by apply run_registered_frames in H.
  - by apply run_dags_frames in H.
Qed.

(** Serving: the driver is opened when it is not; then either there is none, or the switch runs. *)
Lemma serve_cases i q cid c resp evs c' :
  rpc_serve i q cid c = Val (resp, evs, c') ->
  exists e1 e2 c1, evs = e1 ++ e2 /\ ((e1, c1) = ([], c) \/ (e1, c1) = (snd (fst (cavalry_proxy_reopen i c)), snd (cavalry_proxy_reopen i c))) /\
    body_step i q cid c1 e2 c'.
Proof.
  unfold rpc_serve. destruct (if online c then _ else _) as [e1 c1] eqn:E1. intros H.
  assert (Hs : exists e2, evs = e1 ++ e2 /\ body_step i q cid c1 e2 c').
  { destruct (negb (online c1)); [injection H as _ <- <-; exists []; rewrite app_nil_r; by split; [|apply BsSame]|].
    rd_inv H. destruct v as [[r e2] c2]. injection H as _ <- <-. exists e2. split; [done|]. by eapply body_cases. }
  destruct Hs as (e2 & -> & Hb). exists e1, e2, c1. split; [done|]. split; [|done].
  destruct (online c); [by left|]. right. by destruct (cavalry_proxy_reopen i c) as [[r e] c0].
Qed.

Lemma serve_frames i q cid c resp evs c' : cid <> 0 -> rpc_serve i q cid c = Val (resp, evs, c') -> others_kept cid c c'.
Proof.
  intros Hc (e1 & e2 & c1 & _ & He & Hb)%serve_cases. etrans; [|by eapply body_frames].
  destruct He as [[= _ ->]|[= _ ->]]; [done|apply reopen_frames].
Qed.

(** C18: a request of one guest, whatever it asks and whatever the device and its memory answer, leaves the tenants and
    the hardware slots as they are, and keeps every buffer, handle and registered DAG of every other guest; the number
    of requests in flight is what it was. *)
Theorem rpc_frames_others i q cid c resp evs c' :
  cid <> 0 -> cavalry_proxy_handle_rpc i q cid c = Val (resp, evs, c') -> others_kept cid c c'.
Proof.
  intros Hc. unfold cavalry_proxy_handle_rpc, rpc_enter. destruct (cv_draining c) eqn:Ed; [by intros [= _ _ <-]|].
  intros H. rd_inv H. destruct v as [[r e] c2]. injection H as _ _ <-. apply (serve_frames _ _ _ _ _ _ _ Hc) in Ev as [H1 H2 H3 H4 H5 H6 H7].
  split; try done; cbn in *; [congruence|lia].
Qed.

(** ** Descriptors that were read *)

Lemma rd_list_Val {A} (f : nat -> rd A) k n l :
  rd_list f k n = Val l -> length l = n /\ forall j x, l !! j = Some x -> f (k + j)%nat = Val x.
Proof.
  revert k l. induction n as [|n IH]; intros k l H; cbn [rd_list] in H; [by injection H as <-|].
  rd_inv H. injection H as <-. apply IH in Ev0 as [Hl Hj]. split; [cbn; by rewrite Hl|].
  intros [|j] x; cbn; [intros [= <-]; by rewrite Nat.add_0_r|]. intros Hx. rewrite <- (Hj j x Hx). f_equal. lia.
Qed.

(** The fields of a descriptor are where the structure has them. *)
Record dag_read (p : list Z) (k : nat) (d : dag_desc) : Prop := {
  dr_dvi : u64_at p (k + 16) = Val (dd_dvi d);
  dr_img : u32_at p (k + 28) = Val (dd_img_size d);
  dr_ports_cnt : u32_at p (k + 44) = Val (dd_port_cnt d);
  dr_xpoke_cnt : u32_at p (k + 52) = Val (dd_xpoke_cnt d);
  dr_xpoke : u64_at p (k + 56) = Val (dd_xpoke d);
  dr_xcommon : u64_at p (k + 64) = Val (dd_xcommon d);
  dr_xlist : u64_at p (k + 72) = Val (dd_xlist d);
  dr_ports_len : length (dd_ports d) = MAX_PORT_CNT;
  dr_port : forall j q, dd_ports d !! j = Some q ->
    u64_at p (k + 592 + 24 * j) = Val (pd_addr q) /\ u64_at p (k + 592 + 24 * j + 8) = Val (pd_size q) }.

Lemma dag_at_Val p k d : dag_at p k = Val d -> dag_read p k d.
Proof.
  unfold dag_at. intros H. rd_inv H. injection H as <-. apply rd_list_Val in Ev15 as [Hl Hp].
  split; try done. intros j q Hq. specialize (Hp j q Hq). cbn [Nat.add] in Hp. unfold port_at in Hp. rd_inv Hp. by injection Hp as <-.
Qed.

Lemma dag_pos_eq base d : Z.of_nat (dag_pos base d) = Z.of_nat base + SIZEOF_RUN_DAGS + Z.of_nat d * SIZEOF_DAG_DESC.
Proof. unfold dag_pos. rewrite !Nat2Z.inj_add, Nat2Z.inj_mul, !Z2Nat.id by done. done. Qed.

#[global] Opaque dag_pos.

(** What the check of a registration found in each descriptor. *)
Lemma check_registered_Val p base staging d n r :
  check_registered p base staging d n = Val r -> 0 <= r ->
  forall j, (j < n)%nat ->
    let pos := dag_pos (Z.to_nat SIZEOF_REG_DESC) (d + j) in
    exists pc dvi isz, u32_at p (pos + 44) = Val pc /\ u64_at p (pos + 16) = Val dvi /\ u32_at p (pos + 28) = Val isz /\
      pc <= CAVALRY_MAX_PORTS /\ base <= dvi /\ isz <> 0 /\ u64 (dvi - base + isz) <= staging.
Proof.
  revert d. induction n as [|n IH]; intros d H Hr j Hj; [lia|]. cbn [check_registered] in H. cbv zeta in H. rd_inv H.
  destruct (Z.ltb_spec CAVALRY_MAX_PORTS v) as [Hc|Hc]; [injection H as <-; unfold EINVAL in Hr; lia|]. rd_inv H.
  destruct ((v0 <? base) || (v1 =? 0) || (staging <? u64 (v0 - base + v1))) eqn:E; [injection H as <-; unfold EFAULT in Hr; lia|].
  apply orb_false_iff in E as [[E1 E2]%orb_false_iff E3]. apply Z.ltb_ge in E1, E3. apply Z.eqb_neq in E2.
  destruct j as [|j]; cbv zeta.
  - rewrite Nat.add_0_r. exists v, v0, v1. done.
  - specialize (IH (S d) H Hr j ltac:(lia)). cbv zeta in IH. by rewrite Nat.add_succ_comm in IH.
Qed.

End CavalryProps.
