(* ===== verification/CavalryInv.v ===== *)
(** * The proxy of the vector processor: buffers, names and draining

    [Module CavalryInv]: the search for room is exact ([cav_alloc_exact]); in every state the proxy reaches, the
    buffers of one guest are apart and the ids of handles and DAGs name one entry ([cav_reachable_ok]); between a drain
    that succeeded and its end no request reaches the processor ([drained_stays_quiet]). *)

From stdpp Require Import base list.
From Stdlib Require Import ZArith Lia.
From S2P Require Import Prelude SliceGeometry SliceArena ByteBuf Cavalry CavalryRpc CavalryProps.
Import Geometry Cavalry CavalryRpc CavalryProps.

Module CavalryInv.

(** ** The search for room *)

Definition sl_end (s : slice_entry) : Z := sl_off s + sl_size s.

(** A buffer of whole pages below 2 GiB. *)
Definition slice_wf (s : slice_entry) : Prop :=
  0 <= sl_off s /\ 0 < sl_size s /\ sl_off s mod 4096 = 0 /\ sl_size s mod 4096 = 0 /\ sl_end s < 2 ^ 31.

Definition slices_ok (l : list slice_entry) : Prop := forall k s, l !! k = Some s -> sl_in_use s = true -> slice_wf s.

(** [size] bytes at [a] that no buffer in the way of [cid] overlaps. *)
Definition fits (l : list slice_entry) (cid size a : Z) : Prop :=
  forall k s, l !! k = Some s -> counts cid s = true -> disjoint_range a (a + size) (sl_off s) (sl_end s).

(** The bounds of a pool: page aligned, below 2 GiB. *)
Definition bounds_ok (base size : Z) : Prop := 0 <= base /\ base mod 4096 = 0 /\ 0 <= size /\ base + size < 2 ^ 31.

Lemma page_up_align z : page_up z = align_up32 z (2 ^ 12).
Proof. unfold page_up, align_up32. replace (z + 2 ^ 12 - 1) with (z + 4095) by lia. done. Qed.

Lemma page_up_bounds z : 0 <= z < 2 ^ 31 -> z <= page_up z < z + 4096 /\ page_up z mod 4096 = 0.
Proof. intros Hz. rewrite page_up_align. apply align_up32_bounds; lia. Qed.

Lemma page_up_id z : 0 <= z < 2 ^ 31 -> z mod 4096 = 0 -> page_up z = z.
Proof. intros Hz Hm. pose proof (page_up_bounds z Hz). Z.div_mod_to_equations. lia. Qed.

Lemma counts_in_use cid s : counts cid s = true -> sl_in_use s = true.
Proof. by intros [? _]%andb_true_iff. Qed.

Lemma collides_iff cid cand size s :
  (counts cid s = true -> slice_wf s) -> 0 <= cand -> 0 < size -> cand + size < 2 ^ 32 ->
  collides cid cand size s = true <-> counts cid s = true /\ ~ disjoint_range cand (cand + size) (sl_off s) (sl_end s).
Proof.
  intros Hw Hc Hs He. unfold collides, disjoint_range. destruct (counts cid s); cbn [andb]; [|split; [done|by intros []]].
  destruct (Hw eq_refl) as (H1 & H2 & _ & _ & H3). unfold sl_end in *. rewrite !u32_id by lia.
  rewrite andb_true_iff, !Z.ltb_lt. lia.
Qed.

Section Search.
Context (l : list slice_entry) (cid size pool_end : Z).
Hypothesis Hl : slices_ok l.
Hypothesis Hsize : 0 < size < 2 ^ 31.
Hypothesis Hend : pool_end < 2 ^ 31.

Definition search_answer (cand : Z) (r : option Z) : Prop :=
  match r with
  | Some a => cand <= a /\ a mod 4096 = 0 /\ a + size <= pool_end /\ fits l cid size a /\
              forall b, cand <= b < a -> ~ fits l cid size b
  | None => forall b, cand <= b -> b + size <= pool_end -> ~ fits l cid size b
  end.

(** Past the end of a buffer in the way, nothing before it was free. *)
Lemma search_skip cand s k r :
  l !! k = Some s -> counts cid s = true -> ~ disjoint_range cand (cand + size) (sl_off s) (sl_end s) ->
  search_answer (sl_end s) r -> search_answer cand r.
Proof using.
  intros Hk Hc Hn. assert (Hskip : forall b, cand <= b < sl_end s -> ~ fits l cid size b).
  { intros b Hb Hf. apply Hn. pose proof (Hf k s Hk Hc). unfold disjoint_range in *. lia. }
  unfold disjoint_range in Hn. destruct r as [a|]; cbn.
  - intros (H1 & H2 & H3 & H4 & H5). split_and!; [lia|done|done|done|]. intros b Hb.
    destruct (Z.lt_ge_cases b (sl_end s)); [apply Hskip|apply H5]; lia.
  - intros H b Hb He. destruct (Z.lt_ge_cases b (sl_end s)); [apply Hskip|apply H]; lia.
Qed.

Lemma alloc_loop_exact fuel cand :
  0 <= cand < 2 ^ 31 -> cand mod 4096 = 0 -> (count_above sl_end cand l < fuel)%nat ->
  exists r, alloc_loop fuel l cid size pool_end cand = Some r /\ search_answer cand r.
Proof using Hl Hsize Hend.
  revert cand. induction fuel as [|fuel IH]; intros cand Hc Ha Hf; [lia|]. cbn [alloc_loop]. rewrite u32_id by lia.
  destruct (Z.leb_spec (cand + size) pool_end) as [He|He]; [|exists None; split; [done|]; intros b Hb Hbe; lia].
  assert (Hw : forall k s, l !! k = Some s -> counts cid s = true -> slice_wf s) by eauto using counts_in_use.
  destruct (List.find _ l) as [s|] eqn:Ef.
  - apply List.find_some in Ef as [Hin Hcol]. apply list_elem_of_In, list_elem_of_lookup in Hin as [k Hk].
    apply collides_iff in Hcol as [Hcnt Hn]; [|by eauto|lia..].
    destruct (Hw k s Hk Hcnt) as (W1 & W2 & W3 & W4 & W5). assert (Hm : sl_end s mod 4096 = 0).
    { unfold sl_end. Z.div_mod_to_equations. lia. }
    change (sl_off s + sl_size s) with (sl_end s).
    rewrite (u32_id (sl_end s)), page_up_id by (unfold sl_end in *; lia).
    destruct (IH (sl_end s)) as (r & Hr & Hs); [unfold sl_end in *; lia|done| |].
    { pose proof (count_above_lt sl_end cand (sl_end s) l k s Hk). unfold disjoint_range in Hn. lia. }
    exists r. split; [done|]. by eapply search_skip.
  - exists (Some cand). split; [done|]. split_and!; [lia|done|lia| |lia]. intros k s Hk Hcnt.
    pose proof (List.find_none _ _ Ef s) as Hn. rewrite <- list_elem_of_In in Hn. specialize (Hn (list_elem_of_lookup_2 _ _ _ Hk)).
    pose proof (collides_iff cid cand size s (Hw k s Hk)) as Hi. unfold disjoint_range in *.
    destruct (Z.le_gt_cases (cand + size) (sl_off s)); [lia|]. destruct (Z.le_gt_cases (sl_end s) cand); [lia|].
    exfalso. rewrite (proj2 (Hi ltac:(lia) ltac:(lia) ltac:(lia))) in Hn; [done|]. split; [done|lia].
Qed.
End Search.

(** Nothing of [size] bytes can be given from the pool at [base]: it is too small, the table is full, or every place
    is taken. *)
Definition no_room (base psize size cid : Z) (c : cav) : Prop :=
  psize < size \/ psize < page_up size \/ (forall k s, cv_slices c !! k = Some s -> sl_in_use s = true) \/
  (forall a, base <= a -> a + page_up size <= base + psize -> ~ fits (cv_slices c) cid (page_up size) a).

(** The buffer of [size] bytes at [off] is the first place that is free, and is all that changed. *)
Definition first_room (base psize size cid session off : Z) (c c' : cav) : Prop :=
  base <= off /\ off mod 4096 = 0 /\ off + page_up size <= base + psize /\ size <= page_up size < size + 4096 /\
  fits (cv_slices c) cid (page_up size) off /\ (forall a, base <= a < off -> ~ fits (cv_slices c) cid (page_up size) a) /\
  exists k s, cv_slices c !! k = Some s /\ sl_in_use s = false /\
    c' = with_slices c (<[k := {| sl_off := off; sl_size := page_up size; sl_cid := cid; sl_session := session; sl_in_use := true |}]>
                          (cv_slices c)).

(** What an allocation may answer. *)
Definition alloc_answer (size cid session : Z) (c : cav) (r : Z + Z) (c' : cav) : Prop :=
  let t := tenant_of cid c in
  match r with
  | inr off => 0 < size /\ first_room (pool_base_of t) (pool_size_of t) size cid session off c c'
  | inl e => c' = c /\ (size = 0 /\ e = - EINVAL \/ 0 < size /\ e = - ENOMEM /\ no_room (pool_base_of t) (pool_size_of t) size cid c)
  end.

Lemma alloc_spec size cid session c (t := tenant_of cid c) :
  0 <= size -> slices_ok (cv_slices c) -> bounds_ok (pool_base_of t) (pool_size_of t) ->
  exists r c', cavalry_proxy_alloc size cid session c = Some (r, c') /\ alloc_answer size cid session c r c'.
Proof.
  intros Hs Hl (B1 & B2 & B3 & B4). unfold cavalry_proxy_alloc. cbv zeta. fold t.
  destruct (Z.eqb_spec size 0) as [->|Hs0]; [by exists (inl (- EINVAL)), c; split; [|split; [|left]]|].
  assert (Hno : no_room (pool_base_of t) (pool_size_of t) size cid c ->
    exists r c', Some (inl (- ENOMEM), c) = Some (r, c') /\ alloc_answer size cid session c r c').
  { intros Hn. exists (inl (- ENOMEM)), c. split; [done|]. split; [done|]. right. split; [lia|done]. }
  destruct (Z.ltb_spec (pool_size_of t) size) as [H1|H1]; [by apply Hno; left|].
  destruct (Z.ltb_spec (pool_size_of t) (page_up size)) as [H2|H2]; [by apply Hno; right; left|].
  pose proof (page_up_bounds size ltac:(lia)) as [Hp Hp'].
  destruct (find_idx _ (cv_slices c)) as [slot|] eqn:Ef; cycle 1.
  { apply Hno. do 2 right. left. intros k s Hk. apply negb_false_iff. by apply (proj1 (find_idx_None _ _) Ef k). }
  apply (find_idx_lookup _ _ _ slice0) in Ef as (s & Hk & _ & Hu%negb_true_iff). rewrite u32_id by lia.
  destruct (alloc_loop_exact (cv_slices c) cid (page_up size) (pool_base_of t + pool_size_of t) Hl ltac:(lia) ltac:(lia)
              (S (length (cv_slices c))) (pool_base_of t)) as ([a|] & -> & Ha); [lia|done| | |].
  { pose proof (count_above_length sl_end (pool_base_of t) (cv_slices c)). lia. }
  - destruct Ha as (A1 & A2 & A3 & A4 & A5). eexists _, _. split; [done|]. split; [lia|].
    unfold first_room. split_and!; [done|done|done|lia|lia|done|done|by exists slot, s].
  - apply Hno. do 3 right. exact Ha.
Qed.

(** C29: over page-aligned buffers and pool bounds below 2 GiB the search for room always ends, and its answer is exact:
    the buffer given is the lowest free place of the pool, page aligned, rounded up to whole pages and apart from every
    buffer of the caller; -ENOMEM means that the table is full or that no place of the pool is free. *)
Theorem cav_alloc_exact size cid session c (t := tenant_of cid c) :
  0 <= size -> slices_ok (cv_slices c) -> bounds_ok (pool_base_of t) (pool_size_of t) ->
  exists r c', cavalry_proxy_alloc size cid session c = Some (r, c') /\ alloc_answer size cid session c r c'.
Proof. apply alloc_spec. Qed.

(** ** Tables that only lose entries *)

(** Every entry in use of [l'] was there. *)
Definition shrunk {A} (used : A -> bool) (l l' : list A) : Prop := forall k x, l' !! k = Some x -> used x = true -> l !! k = Some x.

#[global] Instance shrunk_preorder {A} (used : A -> bool) : PreOrder (shrunk used).
Proof. split; [by intros l k x|intros l1 l2 l3 H1 H2 k x Hk Hu; apply H1; [by apply H2|done]]. Qed.

Lemma shrunk_insert {A} (used : A -> bool) l k x : used x = false -> shrunk used l (<[k := x]> l).
Proof. intros Hx j y [[_ ->]|[_ Hj]]%lookup_insert_inv Hy; [congruence|done]. Qed.

Lemma shrunk_map {A} (used : A -> bool) (f : A -> A) l : (forall x, used (f x) = true -> f x = x) -> shrunk used l (map f l).
Proof. intros Hf k y (x & Hx & ->)%lookup_map_inv Hy. by rewrite Hf. Qed.

Lemma free_dags_shrunk fd sel l : shrunk rg_in_use l (snd (free_dags fd sel l)).
Proof.
  apply shrunk_map. intros d. destruct (rg_in_use d && sel d) eqn:E; [|done].
  apply andb_true_iff in E as [Hu _]. by rewrite free_slot_off.
Qed.

(** Entries in use have distinct ids below the counter. *)
Definition ids_ok {A} (used : A -> bool) (id : A -> Z) (next : Z) (l : list A) : Prop :=
  1 <= next /\ (forall k x, l !! k = Some x -> used x = true -> 1 <= id x < next) /\
  forall j k x y, l !! j = Some x -> l !! k = Some y -> used x = true -> used y = true -> id x = id y -> j = k.

Lemma ids_shrunk {A} (used : A -> bool) id next l l' : ids_ok used id next l -> shrunk used l l' -> ids_ok used id next l'.
Proof. intros (H0 & H1 & H2) Hs. split_and!; [done|eauto|]. intros j k x y Hj Hk Hx Hy. eapply H2; eauto. Qed.

Lemma ids_insert {A} (used : A -> bool) id next l k x :
  ids_ok used id next l -> id x = next -> ids_ok used id (next + 1) (<[k := x]> l).
Proof.
  intros (H0 & H1 & H2) Hx. split_and!; [lia| |].
  - intros j y [[-> ->]|[_ Hj]]%lookup_insert_inv Hy; [lia|]. specialize (H1 j y Hj Hy). lia.
  - intros i j y z [[-> ->]|[Hi' Hi]]%lookup_insert_inv [[-> ->]|[Hj' Hj]]%lookup_insert_inv Hy Hz He; [done| | |by eapply H2].
    + specialize (H1 j z Hj Hz). lia.
    + specialize (H1 i y Hi Hy). lia.
Qed.

(** ** The invariant *)

Definition slices_apart (l : list slice_entry) : Prop :=
  forall j k s t, l !! j = Some s -> l !! k = Some t -> j <> k -> sl_in_use s = true -> sl_in_use t = true -> sl_cid s = sl_cid t ->
    disjoint_range (sl_off s) (sl_end s) (sl_off t) (sl_end t).

(** The command template of one descriptor: as many ports as the proxy allows, and arrays of the size of the structure. *)
Definition mfd_shape (d : dag_mfd) : Prop :=
  dm_port_cnt d <= CAVALRY_MAX_PORTS /\ length (dm_ports d) = MAX_PORT_CNT /\ length (dm_fds d) = MAX_PORT_CNT.
Definition dag_ok (d : reg_dag) : Prop :=
  rg_dag_cnt d <= MAX_DAG_CNT_CAP /\ length (rg_template d) = Z.to_nat (rg_dag_cnt d) /\ Forall mfd_shape (rg_template d).
Definition dags_ok (l : list reg_dag) : Prop := forall k d, l !! k = Some d -> rg_in_use d = true -> dag_ok d.

Definition tenants_ok (l : list tenant) : Prop :=
  forall k t, l !! k = Some t -> tn_in_use t = true -> bounds_ok (tn_pool_base t) (tn_pool_size t).

Record cav_ok (c : cav) : Prop := {
  iv_slices : slices_ok (cv_slices c);
  iv_apart : slices_apart (cv_slices c);
  iv_tenants : tenants_ok (cv_tenants c);
  iv_handles : ids_ok hd_in_use hd_id (cv_next_handle c) (cv_handles c);
  iv_dags : ids_ok rg_in_use rg_id (cv_next_dag c) (cv_dags c);
  iv_shape : dags_ok (cv_dags c) }.

(** Only entries were released. *)
Record released (c c' : cav) : Prop := {
  rl_tenants : cv_tenants c' = cv_tenants c;
  rl_slices : shrunk sl_in_use (cv_slices c) (cv_slices c');
  rl_handles : shrunk hd_in_use (cv_handles c) (cv_handles c');
  rl_dags : shrunk rg_in_use (cv_dags c) (cv_dags c');
  rl_next_handle : cv_next_handle c' = cv_next_handle c;
  rl_next_dag : cv_next_dag c' = cv_next_dag c;
  rl_draining : cv_draining c' = cv_draining c;
  rl_active : cv_active c' = cv_active c }.

#[global] Instance released_preorder : PreOrder released.
Proof.
  split; [by intros c|]. intros a b c [T1 S1 H1 D1 N1 M1 R1 A1] [T2 S2 H2 D2 N2 M2 R2 A2].
  split; [congruence|by etrans|by etrans|by etrans|congruence|congruence|congruence|congruence].
Qed.

Lemma released_ok c c' : cav_ok c -> released c c' -> cav_ok c'.
Proof.
  intros [I1 I2 I3 I4 I5 I6] [Ht R1 R2 R3 R4 R5 _ _]. split; [|..|by rewrite Ht| | |].
  - intros k s Hk Hu. eapply I1; eauto.
  - intros j k s t Hj Hk Hn Hs Hu. eapply I2; eauto.
  - rewrite R4. by eapply ids_shrunk.
  - rewrite R5. by eapply ids_shrunk.
  - intros k d Hk Hu. eapply I6; eauto.
Qed.

Lemma disconnect_released cid c : released c (snd (cavalry_proxy_client_disconnect cid c)).
Proof.
  unfold cavalry_proxy_client_disconnect. destruct (free_dags _ _ _) as [evs dags] eqn:Ed. split; try done; cbn.
  - apply shrunk_map. intros s. by destruct (_ && _).
  - apply shrunk_map. intros h. by destruct (_ && _).
  - replace dags with (snd (evs, dags)) by done. rewrite <- Ed. apply free_dags_shrunk.
Qed.

Lemma close_session_released cid session c : released c (snd (cavalry_proxy_close_session cid session c)).
Proof.
  unfold cavalry_proxy_close_session. destruct (session =? 0); [done|].
  destruct (free_dags _ _ _) as [evs dags] eqn:Ed. split; try done; cbn.
  - apply shrunk_map. intros s. by destruct (_ && _ && _).
  - apply shrunk_map. intros h. by destruct (_ && _ && _).
  - replace dags with (snd (evs, dags)) by done. rewrite <- Ed. apply free_dags_shrunk.
Qed.

Lemma free_released off cid c : released c (snd (cavalry_proxy_free off cid c)).
Proof.
  unfold cavalry_proxy_free. destruct (find_idx _ _) as [k|]; [|done]. destruct (_ && _); [done|]. split; try done. by apply shrunk_insert.
Qed.

Lemma free_handle_released id cid session c : released c (snd (cavalry_proxy_free_handle id cid session c)).
Proof.
  unfold cavalry_proxy_free_handle. destruct (find_idx _ _) as [k|]; [|done]. destruct (foreign _ _ _); [done|]. cbn [snd].
  etrans; [|apply free_released]. split; try done. by apply shrunk_insert.
Qed.

Lemma unregister_released q cid c : released c (snd (handle_unregister_dag q cid c)).
Proof.
  unfold handle_unregister_dag. destruct (find_idx _ _) as [k|] eqn:Ef; [|done]. destruct (dag_foreign _ _ _); [done|].
  apply (find_idx_lookup _ _ _ reg0) in Ef as (d & _ & -> & [Hu _]%andb_true_iff). pose proof (free_slot_off (cv_fd_cav c) d Hu) as Ho.
  destruct (cavalry_proxy_free_dag_slot _ _) as [evs d']. split; try done. by apply shrunk_insert.
Qed.

(** ** Every operation keeps it *)

(** The pool of any caller has good bounds: its tenant's, or the default one. *)
Lemma caller_bounds cid c (t := tenant_of cid c) : tenants_ok (cv_tenants c) -> bounds_ok (pool_base_of t) (pool_size_of t).
Proof.
  intros Ht. unfold t, tenant_of. assert (Hd : bounds_ok CAVALRY_POOL_BASE CAVALRY_POOL_SIZE).
  { unfold bounds_ok, CAVALRY_POOL_BASE, CAVALRY_POOL_SIZE. split_and!; [lia|done|lia|lia]. }
  destruct (cid =? 0); [done|]. unfold cavalry_proxy_get_tenant.
  destruct (List.find _ _) as [u|] eqn:Ef; [|done]. apply List.find_some in Ef as [Hin [Hu _]%andb_true_iff].
  apply list_elem_of_In, list_elem_of_lookup in Hin as [k Hk]. unfold pool_base_of, pool_size_of.
  destruct (tn_pool_size u =? 0); [done|]. by apply (Ht k).
Qed.

Lemma cav_alloc_ok size cid session c r c' :
  cav_ok c -> 0 <= size -> cavalry_proxy_alloc size cid session c = Some (r, c') -> cav_ok c'.
Proof.
  intros [I1 I2 I3 I4 I5 I6] Hs Ha. pose proof (caller_bounds cid c I3) as Hb.
  destruct (alloc_spec size cid session c Hs I1 Hb) as (r' & c'' & Ha' & Hr).
  rewrite Ha' in Ha. injection Ha as -> ->. destruct r as [e|off]; [by destruct Hr as [-> _]|].
  destruct Hr as (Hs0 & A1 & A2 & A3 & A4 & A5 & _ & k & s & Hk & Hu & ->). destruct Hb as (B1 & B2 & B3 & B4).
  pose proof (page_up_bounds size ltac:(lia)) as [_ Hp]. split; try done; cbn.
  - intros j t [[-> ->]|[_ Hj]]%lookup_insert_inv Ht; [|by eapply I1]. unfold slice_wf, sl_end. cbn. split_and!; lia || done.
  - intros i j t u [[-> ->]|[Hi' Hi]]%lookup_insert_inv [[-> ->]|[Hj' Hj]]%lookup_insert_inv Hn Ht Hu' He; [done| | |by eapply I2].
    + apply (A5 j u Hj). unfold counts. cbn in He. by rewrite Hu', <- He, Z.eqb_refl, orb_true_r.
    + apply disjoint_range_sym, (A5 i t Hi). unfold counts. cbn in He. by rewrite Ht, He, Z.eqb_refl, orb_true_r.
Qed.

Lemma next_id_fresh next : 1 <= next < 2 ^ 32 - 1 -> next_id next = (next, next + 1).
Proof. intros Hn. unfold next_id. destruct (Z.eqb_spec next 0); [lia|]. by rewrite u32_id by lia. Qed.

Lemma alloc_counters size cid session c r c' :
  cavalry_proxy_alloc size cid session c = Some (r, c') -> cv_next_handle c' = cv_next_handle c /\ cv_tenants c' = cv_tenants c.
Proof.
  unfold cavalry_proxy_alloc. cbv zeta. destruct (size =? 0); [by intros [= _ <-]|]. do 2 (destruct (_ <? _); [by intros [= _ <-]|]).
  destruct (find_idx _ _); [|by intros [= _ <-]]. destruct (alloc_loop _ _ _ _ _ _) as [[cand|]|]; [| |done]; by intros [= _ <-].
Qed.

Lemma alloc_handle_ok size cid session c r c' :
  cav_ok c -> 0 <= size -> cv_next_handle c < 2 ^ 32 - 1 -> cavalry_proxy_alloc_handle size cid session c = Some (r, c') -> cav_ok c'.
Proof.
  intros Hi Hs Hn. unfold cavalry_proxy_alloc_handle. destruct (size =? 0); [by intros [= _ <-]|].
  destruct (cavalry_proxy_alloc size cid session c) as [[[e|off] c1]|] eqn:Ea; [| |done];
    pose proof (alloc_counters _ _ _ _ _ _ Ea) as [Hc _]; apply cav_alloc_ok in Ea; try done; [by intros [= _ <-]|].
  destruct (find_idx _ _) as [k|].
  - rewrite Hc. pose proof (iv_handles c Hi) as (Hh & _). rewrite next_id_fresh by lia. intros [= _ <-].
    destruct Ea as [I1 I2 I3 I4 I5 I6]. split; try done. cbn. rewrite <- Hc. by apply ids_insert.
  - intros [= _ <-]. eapply released_ok; [done|apply free_released].
Qed.

Lemma template_shape host base staging p k d :
  dag_read p k d -> dd_port_cnt d <= CAVALRY_MAX_PORTS -> mfd_shape (template host base staging d).
Proof.
  intros Hd Hc. pose proof (dr_ports_len _ _ _ Hd) as Hl. unfold mfd_shape, template. cbn [dm_port_cnt dm_ports dm_fds].
  assert (Hn : (Nat.min (Z.to_nat (dd_port_cnt d)) (Z.to_nat CAVALRY_MAX_PORTS) <= MAX_PORT_CNT)%nat) by (unfold CAVALRY_MAX_PORTS, MAX_PORT_CNT; lia).
  split_and!; [done| |].
  - rewrite length_app, length_map, length_take, length_drop. lia.
  - rewrite length_app, !repeat_length. lia.
Qed.

(** A registration changes one free slot, and what it writes there is well formed. *)
Lemma register_inv i q cid c resp evs c' :
  handle_register_dag i q cid c = Val (resp, evs, c') ->
  c' = c \/ exists k d g id next, cv_dags c !! k = Some d /\ rg_in_use d = false /\ next_id (cv_next_dag c) = (id, next) /\
    c' = with_dags c (<[k := g]> (cv_dags c)) next /\ rg_id g = id /\ rg_cid g = cid /\ dag_ok g.
Proof.
  unfold handle_register_dag. cbv zeta. intros H. destruct (mapped_tenant cid c) as [t|]; [|injection H as _ _ <-; by left].
  destruct (arena_check _ _ _ <? 0); [injection H as _ _ <-; by left|].
  destruct (negb (io_malloc i)); [injection H as _ _ <-; by left|]. rd_inv H.
  destruct (cavalry_proxy_validate_range _ _ _ _ <? 0); [injection H as _ _ <-; by left|]. rd_inv H.
  destruct ((v1 =? 0) || (MAX_DAG_CNT_CAP <? v1)) eqn:Ec; [injection H as _ _ <-; by left|]. rd_inv H.
  destruct (Z.ltb_spec v2 0) as [|Hv2]; [injection H as _ _ <-; by left|].
  destruct (find_idx _ _) as [k|] eqn:Ef; [|injection H as _ _ <-; by left].
  destruct (private_memory _ _ _ _) as [e|[[[phys len] virt] e]]; [injection H as _ _ <-; by left|]. rd_inv H.
  destruct (next_id _) as [id next] eqn:En. injection H as _ _ <-. right.
  apply (find_idx_lookup _ _ _ reg0) in Ef as (d & Hk & _ & Hu%negb_true_iff). eexists k, d, _, id, next.
  apply orb_false_iff in Ec as [Ec1%Z.eqb_neq Ec2%Z.ltb_ge]. split_and!; [done|done|done|reflexivity|done|done|].
  pose proof (rd_list_Val _ _ _ _ Ev3) as [Hl Hds]. unfold dag_ok. cbn [rg_dag_cnt rg_template]. split_and!; [done|by rewrite length_map|].
  apply Forall_lookup. intros j m (x & Hx & ->)%lookup_map_inv. pose proof (dag_at_Val _ _ _ (Hds j x Hx)) as Hr.
  apply (template_shape _ _ _ _ _ _ Hr). apply lookup_lt_Some in Hx. rewrite Hl in Hx.
  destruct (check_registered_Val _ _ _ _ _ _ Ev2 Hv2 j Hx) as (pc & _ & _ & Hpc & _ & _ & Hle & _).
  rewrite (dr_ports_cnt _ _ _ Hr) in Hpc. by injection Hpc as ->.
Qed.

Lemma cav_register_ok i q cid c resp evs c' :
  cav_ok c -> cv_next_dag c < 2 ^ 32 - 1 -> handle_register_dag i q cid c = Val (resp, evs, c') -> cav_ok c'.
Proof.
  intros Hi Hn [->|(k & d & g & id & next & Hk & Hu & He & -> & Hg & _ & Hok)]%register_inv; [done|].
  destruct Hi as [I1 I2 I3 I4 I5 I6]. rewrite next_id_fresh in He by (destruct I5; lia). injection He as <- <-.
  split; try done; cbn; [by apply ids_insert|]. intros j x [[-> ->]|[_ Hj]]%lookup_insert_inv Hx; [done|by apply (I6 j)].
Qed.

(** The fields the invariant is about are the same. *)
Lemma same_ok c c' :
  cav_ok c -> cv_slices c' = cv_slices c -> cv_tenants c' = cv_tenants c -> cv_handles c' = cv_handles c -> cv_dags c' = cv_dags c ->
  cv_next_handle c' = cv_next_handle c -> cv_next_dag c' = cv_next_dag c -> cav_ok c'.
Proof. intros [I1 I2 I3 I4 I5 I6] E1 E2 E3 E4 E5 E6. split; by rewrite ?E1, ?E2, ?E3, ?E4, ?E5, ?E6. Qed.

Lemma record_ok m c : cav_ok c -> cav_ok (cavalry_proxy_record_last_mfd m c).
Proof. intros Hi. by eapply same_ok. Qed.

Lemma reopen_ok i c : cav_ok c -> cav_ok (snd (cavalry_proxy_reopen i c)).
Proof.
  intros Hi. unfold cavalry_proxy_reopen. destruct (0 <=? cv_fd_cav c); [done|]. destruct (io_open i); [|done].
  destruct (cavalry_proxy_guard_window_locked _ _) as [evs guard]. by eapply same_ok.
Qed.

Lemma body_ok i q cid c evs c' :
  cav_ok c -> 0 <= rp_size q -> cv_next_handle c < 2 ^ 32 - 1 -> cv_next_dag c < 2 ^ 32 - 1 -> body_step i q cid c evs c' -> cav_ok c'.
Proof.
  intros Hi Hs Hh Hd [e He|r c1 H|e n c1 H|r c1 H|resp e c1 H|resp e c1 H|r c1 H|r c1 H|resp e c1 H|resp e c1 H].
  - done.
  - by eapply cav_alloc_ok.
  - apply (released_ok c); [done|]. pose proof (close_session_released cid (rp_session q) c) as Hr. by rewrite H in Hr.
  - apply (released_ok c); [done|]. pose proof (free_released (rp_bar_offset q) cid c) as Hr. by rewrite H in Hr.
  - by eapply cav_register_ok.
  - apply (released_ok c); [done|]. pose proof (unregister_released q cid c) as Hr. by rewrite H in Hr.
  - by eapply alloc_handle_ok.
  - apply (released_ok c); [done|]. pose proof (free_handle_released (rp_dag_id q) cid (rp_session q) c) as Hr. by rewrite H in Hr.
  - apply run_registered_inv in H as [[_ ->]|(t & d & pc & dags & _ & _ & _ & _ & _ & _ & ->)]; [done|by apply record_ok].
  - apply run_dags_inv in H as [[_ ->]|(t & r & cnt & ds & prio & aff & hw & enc & sess & _ & _ & _ & _ & _ & _ & ->)]; [done|by apply record_ok].
Qed.

(** ** Tenants *)

Definition drain_same (c c' : cav) : Prop := cv_draining c' = cv_draining c /\ cv_active c' = cv_active c.

(** What no operation on tenants does: run a command. *)
Definition is_run (e : dev) : bool := match e with DvRun _ => true | _ => false end.
Definition no_run (evs : list dev) : Prop := Forall (fun e => is_run e = false) evs.

Record harmless (c : cav) (evs : list dev) (c' : cav) : Prop := {
  hm_ok : cav_ok c -> cav_ok c';
  hm_drain : drain_same c c';
  hm_quiet : no_run evs }.

Lemma harmless_refl c : harmless c [] c.
Proof. by split; [|split|constructor]. Qed.

Lemma harmless_trans a e1 b e2 c : harmless a e1 b -> harmless b e2 c -> harmless a (e1 ++ e2) c.
Proof.
  intros [O1 [D1 A1] Q1] [O2 [D2 A2] Q2]. split; [by intros ?; apply O2, O1|split; congruence|by apply Forall_app].
Qed.

Lemma free_slot_quiet fd d : no_run (fst (cavalry_proxy_free_dag_slot fd d)).
Proof.
  unfold cavalry_proxy_free_dag_slot. destruct (rg_in_use d); [|constructor]. cbn [negb fst].
  apply Forall_app. split; destruct (_ && _); by repeat constructor.
Qed.

Lemma free_dags_quiet fd sel l : no_run (fst (free_dags fd sel l)).
Proof.
  unfold free_dags, no_run. cbn [fst]. induction l as [|d l IH]; cbn; [constructor|].
  apply Forall_app. split; [|done]. destruct (_ && _); [apply free_slot_quiet|constructor].
Qed.

Lemma released_harmless c evs c' : released c c' -> no_run evs -> harmless c evs c'.
Proof. intros Hr He. split; [intros Hi; by apply (released_ok c)|split; apply Hr|done]. Qed.

Lemma disconnect_harmless cid c evs c' : cavalry_proxy_client_disconnect cid c = (evs, c') -> harmless c evs c'.
Proof.
  intros H. pose proof (disconnect_released cid c) as Hr. rewrite H in Hr. apply released_harmless; [done|].
  unfold cavalry_proxy_client_disconnect in H. pose proof (free_dags_quiet (cv_fd_cav c) (fun d => rg_cid d =? cid) (cv_dags c)) as Hq.
  destruct (free_dags _ _ _) as [e dags]. by injection H as <- _.
Qed.

(** A new table of tenants and hardware slots. *)
Lemma tenants_only c l : (tenants_ok (cv_tenants c) -> tenants_ok l) -> harmless c [] (with_tenants c l).
Proof. intros Hl. split; [|done|constructor]. intros [I1 I2 I3 I4 I5 I6]. split; try done. by apply Hl. Qed.

Lemma tenants_harmless c l hw : (tenants_ok (cv_tenants c) -> tenants_ok l) -> harmless c [] (with_hw (with_tenants c l) hw).
Proof. intros Hl. split; [|done|constructor]. intros [I1 I2 I3 I4 I5 I6]. split; try done. by apply Hl. Qed.

Lemma tenants_insert l k t : bounds_ok (tn_pool_base t) (tn_pool_size t) -> tenants_ok l -> tenants_ok (<[k := t]> l).
Proof. intros Hb Hl j u [[-> ->]|[_ Hj]]%lookup_insert_inv Hu; [done|by apply (Hl j)]. Qed.

Lemma tenants_alter l k f :
  (forall t, tn_in_use (f t) = true -> bounds_ok (tn_pool_base (f t)) (tn_pool_size (f t))) -> tenants_ok l -> tenants_ok (alter f k l).
Proof. intros Hb Hl j u [[-> (x & _ & ->)]|[_ Hj]]%lookup_alter_inv Hu; [by apply Hb|by apply (Hl j)]. Qed.

Lemma tenants_drop idx cid l : tenants_ok l -> tenants_ok (drop_others idx cid l).
Proof.
  intros Hl j u Hj Hu. unfold drop_others in Hj. rewrite list_lookup_imap in Hj. destruct (l !! j) as [t|] eqn:Et; [|done].
  injection Hj as <-. destruct (is_other idx cid j t); [done|by apply (Hl j)].
Qed.

(** Pools cut from the default one. *)
Lemma pool_bounds n : 0 <= n <= CAVALRY_POOL_SIZE -> bounds_ok CAVALRY_POOL_BASE n.
Proof. unfold bounds_ok, CAVALRY_POOL_BASE, CAVALRY_POOL_SIZE. intros Hn. split_and!; [lia|done|lia|lia]. Qed.

Lemma pool_size_usable usable n : cavalry_proxy_pool_size_for_usable usable = Some n -> 0 < n <= CAVALRY_POOL_SIZE.
Proof.
  unfold cavalry_proxy_pool_size_for_usable. cbv zeta. destruct (Z.leb_spec usable CAVALRY_POOL_BASE); [done|].
  unfold CAVALRY_POOL_SIZE in *. destruct (Z.ltb_spec 0x3E000000 (usable - CAVALRY_POOL_BASE)).
  - intros [= <-]. done.
  - destruct (Z.eqb_spec (usable - CAVALRY_POOL_BASE) 0); [done|]. intros [= <-]. rewrite u32_id by lia. lia.
Qed.

Lemma register_tenant_harmless cid idx wfd map size phys off c r evs c' :
  cavalry_proxy_register_tenant cid idx wfd map size phys off c = (r, evs, c') -> harmless c evs c'.
Proof.
  unfold cavalry_proxy_register_tenant. cbv zeta. do 4 (case_match; [intros [= _ <- <-]; apply harmless_refl|]).
  destruct (cavalry_proxy_pool_size_for_usable size) as [n|] eqn:En; [|intros [= _ <- <-]; apply harmless_refl].
  apply pool_size_usable in En. set (c1 := with_hw _ _). intros Hreg.
  assert (Hc1 : harmless c [] c1).
  { apply tenants_harmless. intros Hl. apply tenants_insert; [cbn [tn_pool_base tn_pool_size]; apply pool_bounds; lia|by apply tenants_drop]. }
  destruct (if _ =? 0 then _ else _) as [e c2] eqn:E2 in Hreg. injection Hreg as _ <- <-.
  change e with ([] ++ e). eapply harmless_trans; [exact Hc1|].
  destruct (_ =? 0) in E2; [injection E2 as <- <-; apply harmless_refl|by apply disconnect_harmless in E2].
Qed.

Lemma unregister_tenant_harmless cid c r evs c' : cavalry_proxy_unregister_tenant cid c = (r, evs, c') -> harmless c evs c'.
Proof.
  unfold cavalry_proxy_unregister_tenant. destruct (find_idx _ _) as [k|]; [|intros [= _ <- <-]; apply harmless_refl].
  cbv zeta. destruct (cavalry_proxy_client_disconnect _ _) as [e c2] eqn:E2. intros [= _ <- <-]. change e with ([] ++ e).
  eapply harmless_trans; [|by apply disconnect_harmless in E2]. apply tenants_harmless. by apply tenants_alter.
Qed.

Lemma disconnect_all_harmless cids c evs c' : disconnect_all cids c = (evs, c') -> harmless c evs c'.
Proof.
  revert c evs c'. induction cids as [|cid cids IH]; intros c evs c'; cbn [disconnect_all]; [intros [= <- <-]; apply harmless_refl|].
  destruct (cavalry_proxy_client_disconnect cid c) as [e1 c1] eqn:E1. destruct (disconnect_all cids c1) as [e2 c2] eqn:E2.
  intros [= <- <-]. eapply harmless_trans; [by apply disconnect_harmless in E1|by apply IH].
Qed.

Lemma register_all_harmless wmap wsize es c r evs c' : register_all wmap wsize es c = (r, evs, c') -> harmless c evs c'.
Proof.
  revert c r evs c'. induction es as [|e es IH]; intros c r evs c'; cbn [register_all]; [intros [= _ <- <-]; apply harmless_refl|].
  cbv zeta. destruct (cavalry_proxy_register_tenant _ _ _ _ _ _ _ _) as [[r1 e1] c1] eqn:E1. apply register_tenant_harmless in E1.
  destruct (r1 <? 0); [by intros [= _ <- <-]|]. destruct (register_all _ _ _ _) as [[r2 e2] c2] eqn:E2. intros [= _ <- <-].
  eapply harmless_trans; [exact E1|by eapply IH].
Qed.

Lemma restore_harmless n es wmap wsize c r evs c' :
  cavalry_proxy_restore_bindings n es wmap wsize c = (r, evs, c') -> harmless c evs c'.
Proof.
  unfold cavalry_proxy_restore_bindings. cbv zeta. do 2 (case_match; [intros [= _ <- <-]; apply harmless_refl|]).
  destruct (disconnect_all _ _) as [e1 c2] eqn:E1. destruct (register_all _ _ _ _) as [[r2 e2] c3] eqn:E2. intros [= _ <- <-].
  eapply harmless_trans; [|by apply register_all_harmless in E2]. change e1 with ([] ++ e1).
  eapply harmless_trans; [|by apply disconnect_all_harmless in E1]. apply tenants_harmless.
  intros _ k t ->%repeat_lookup. done.
Qed.

Lemma bind_harmless cid nonce c r c' : cavalry_proxy_bind_slice cid nonce c = (r, c') -> harmless c [] c'.
Proof.
  unfold cavalry_proxy_bind_slice. cbv zeta. do 3 (case_match; [intros [= _ <-]; apply harmless_refl|]).
  destruct (find_idx _ _) as [k|]; [|intros [= _ <-]; apply harmless_refl].
  do 2 (case_match; [intros [= _ <-]; apply harmless_refl|]). intros [= _ <-]. apply tenants_harmless, tenants_insert. cbn [tn_pool_base tn_pool_size].
  apply pool_bounds. unfold CAVALRY_POOL_SIZE. repeat case_match; lia.
Qed.

Lemma set_bounds_harmless cid base size aoff asize c r c' :
  bounds_ok base size -> cavalry_proxy_set_tenant_bounds cid base size aoff asize c = (r, c') -> harmless c [] c'.
Proof.
  intros Hb. unfold cavalry_proxy_set_tenant_bounds. destruct (find_idx _ _) as [k|]; [|intros [= _ <-]; apply harmless_refl].
  intros [= _ <-]. by apply tenants_only, tenants_alter.
Qed.

(** ** The proxy at work *)

(** The request in flight: the main loop serves one at a time. *)
Inductive phase := Idle | Entered (q : rpc) (cid : Z) | Served.

(** What the server does to tenants, between the steps of a request. *)
Inductive admin_step (c : cav) : list dev -> cav -> Prop :=
| AdDisconnect cid evs c' : cavalry_proxy_client_disconnect cid c = (evs, c') -> admin_step c evs c'
| AdRegister cid idx wfd map size phys off r evs c' :
    cavalry_proxy_register_tenant cid idx wfd map size phys off c = (r, evs, c') -> admin_step c evs c'
| AdUnregister cid r evs c' : cavalry_proxy_unregister_tenant cid c = (r, evs, c') -> admin_step c evs c'
| AdRestore n es wmap wsize r evs c' : cavalry_proxy_restore_bindings n es wmap wsize c = (r, evs, c') -> admin_step c evs c'
| AdBind cid nonce r c' : cavalry_proxy_bind_slice cid nonce c = (r, c') -> admin_step c [] c'
| AdNonce idx nonce : admin_step c [] (cavalry_proxy_set_slice_nonce idx nonce c)
| AdBounds cid base size aoff asize r c' :
    bounds_ok base size -> cavalry_proxy_set_tenant_bounds cid base size aoff asize c = (r, c') -> admin_step c [] c'
| AdPathB b : admin_step c [] (cavalry_proxy_set_enforce_path_b b c).

(** A request enters, is served and leaves; ids are not exhausted while it is served. *)
Inductive work_step : cav * phase -> list dev -> cav * phase -> Prop :=
| WkEnter c q cid c' : cid <> 0 -> 0 <= rp_size q -> rpc_enter c = Some c' -> work_step (c, Idle) [] (c', Entered q cid)
| WkServe i c q cid resp evs c' :
    cv_next_handle c < 2 ^ 32 - 1 -> cv_next_dag c < 2 ^ 32 - 1 -> rpc_serve i q cid c = Val (resp, evs, c') ->
    work_step (c, Entered q cid) evs (c', Served)
| WkLeave c : work_step (c, Served) [] (rpc_leave c, Idle)
| WkAdmin c ph evs c' : admin_step c evs c' -> work_step (c, ph) evs (c', ph)
| WkDrain c ph : work_step (c, ph) [] (cavalry_proxy_start_drain c, ph).

(** All of it: also the end of a drain, and the runs of the camera path. *)
Inductive cav_step : cav * phase -> list dev -> cav * phase -> Prop :=
| CsWork w evs w' : work_step w evs w' -> cav_step w evs w'
| CsFinish c ph evs c' : cavalry_proxy_finish_drain c = (evs, c') -> cav_step (c, ph) evs (c', ph)
| CsHandles i dag_id in_id out_id cid c ph r res evs c' :
    cavalry_proxy_run_dag_with_handles i dag_id in_id out_id cid c = Val (r, res, evs, c') -> cav_step (c, ph) evs (c', ph).

Inductive cav_reach : cav * phase -> Prop :=
| CrInit i fd map size phys enum export r evs c : cavalry_proxy_init i fd map size phys enum export cav_boot = (r, evs, c) -> cav_reach (c, Idle)
| CrStep w evs w' : cav_reach w -> cav_step w evs w' -> cav_reach w'.

(** Who asked for a step: the proxy's own requests and the server's changes, or the camera path. *)
Inductive origin := FromProxy | FromCamera.

(** A sequence of steps of the proxy and of the camera path, in any order, in which the drain is not ended. *)
Inductive drain_path : cav * phase -> list (origin * list dev) -> cav * phase -> Prop :=
| DpNil w : drain_path w [] w
| DpWork w e w1 tr w2 : work_step w e w1 -> drain_path w1 tr w2 -> drain_path w ((FromProxy, e) :: tr) w2
| DpHandles i dag_id in_id out_id cid c ph r res e c1 tr w2 :
    cavalry_proxy_run_dag_with_handles i dag_id in_id out_id cid c = Val (r, res, e, c1) -> drain_path (c1, ph) tr w2 ->
    drain_path (c, ph) ((FromCamera, e) :: tr) w2.

Definition in_flight (ph : phase) : Z := match ph with Idle => 0 | _ => 1 end.
(** Sizes of requests are unsigned, and a request names a guest. *)
Definition phase_ok (ph : phase) : Prop := match ph with Entered q cid => 0 <= rp_size q /\ cid <> 0 | _ => True end.

Definition world_ok (w : cav * phase) : Prop := cav_ok (fst w) /\ cv_active (fst w) = in_flight (snd w) /\ phase_ok (snd w).

Lemma cav_drain_ok c b n : cav_ok c -> cav_ok (with_drain c b n).
Proof. intros Hi. by eapply same_ok. Qed.

Lemma admin_harmless c evs c' : admin_step c evs c' -> harmless c evs c'.
Proof.
  intros [cid e c1 H|cid idx wfd map size phys off r e c1 H|cid r e c1 H|n es wmap wsize r e c1 H|cid nonce r c1 H|idx nonce|
          cid base size aoff asize r c1 Hb H|b].
  - by apply disconnect_harmless in H.
  - by apply register_tenant_harmless in H.
  - by apply unregister_tenant_harmless in H.
  - by apply restore_harmless in H.
  - by apply bind_harmless in H.
  - unfold cavalry_proxy_set_slice_nonce. destruct (_ <? _); [|apply harmless_refl]. by apply (tenants_harmless c (cv_tenants c)).
  - by apply set_bounds_harmless in H.
  - split; [intros Hi; by eapply same_ok|done|constructor].
Qed.

Lemma serve_ok i q cid c resp evs c' :
  cav_ok c -> 0 <= rp_size q -> cv_next_handle c < 2 ^ 32 - 1 -> cv_next_dag c < 2 ^ 32 - 1 ->
  rpc_serve i q cid c = Val (resp, evs, c') -> cav_ok c'.
Proof.
  intros Hi Hs Hh Hd (e1 & e2 & c1 & _ & He & Hb)%serve_cases.
  assert (H1 : cav_ok c1 /\ cv_next_handle c1 = cv_next_handle c /\ cv_next_dag c1 = cv_next_dag c).
  { destruct He as [[= _ ->]|[= _ ->]]; [done|]. split; [by apply reopen_ok|]. unfold cavalry_proxy_reopen.
    destruct (0 <=? cv_fd_cav c); [done|]. destruct (io_open i); [|done]. by destruct (cavalry_proxy_guard_window_locked _ _). }
  destruct H1 as (H1 & N1 & N2). eapply body_ok; [exact H1|done|lia|lia|exact Hb].
Qed.

Lemma work_ok w evs w' : world_ok w -> work_step w evs w' -> world_ok w'.
Proof.
  intros (Hi & Ha & Hp) Hs. destruct Hs as [c q cid c1 Hc Hz He|i c q cid resp e c1 Hh Hd He|c|c ph e c1 He|c ph]; cbn [fst snd] in *.
  - unfold rpc_enter in He. destruct (cv_draining c); [done|]. injection He as <-. split_and!; [by apply cav_drain_ok|cbn in *; lia|by split].
  - destruct Hp as [Hz Hc]. split_and!; [by eapply serve_ok| |done]. cbn in *. rewrite <- Ha. by eapply ok_active, serve_frames.
  - split_and!; [by apply cav_drain_ok|cbn in *; lia|done].
  - destruct (admin_harmless _ _ _ He) as [Ho [_ Hq] _]. split_and!; [by apply Ho|cbn; congruence|done].
  - split_and!; [by apply cav_drain_ok|done|done].
Qed.

(** A run of the camera path changes nothing but the record of the last command. *)
Lemma handles_state i dag_id in_id out_id cid c r res evs c' :
  cavalry_proxy_run_dag_with_handles i dag_id in_id out_id cid c = Val (r, res, evs, c') ->
  c' = c \/ exists m, c' = cavalry_proxy_record_last_mfd m c.
Proof.
  unfold cavalry_proxy_run_dag_with_handles. cbv zeta. intros He.
  repeat (case_match; try (injection He as _ _ _ <-; eauto)). rd_inv He.
  destruct (submit _ _ _) as [[[[ret errno] rval] ticks] e]. destruct (ret <? 0); injection He as _ _ _ <-; eauto.
Qed.

Lemma cav_step_ok w evs w' : world_ok w -> cav_step w evs w' -> world_ok w'.
Proof.
  intros Hw Hs. destruct Hs as [w e w1 Hs|c ph e c1 He|i dag_id in_id out_id cid c ph r res e c1 He]; [by eapply work_ok|..];
    destruct Hw as (Hi & Ha & Hp); cbn [fst snd] in *.
  - unfold cavalry_proxy_finish_drain in He. cbv zeta in He.
    destruct (0 <=? _); injection He as _ <-; (split_and!; [by eapply same_ok|done|done]).
  - apply handles_state in He as [->|[m ->]]; [done|]. split_and!; [by apply record_ok|done|done].
Qed.

Lemma fresh_ok c :
  cv_tenants c = repeat tenant0 MAX_TENANTS -> cv_slices c = repeat slice0 MAX_SLICES -> cv_handles c = repeat handle0 MAX_HANDLES ->
  cv_dags c = repeat reg0 MAX_REGISTERED_DAGS -> cv_next_handle c = 1 -> cv_next_dag c = 1 -> cav_ok c.
Proof.
  intros E1 E2 E3 E4 E5 E6. split; rewrite ?E1, ?E2, ?E3, ?E4, ?E5, ?E6.
  - by intros k s ->%repeat_lookup.
  - by intros j k s t ->%repeat_lookup.
  - by intros k t ->%repeat_lookup.
  - split_and!; [lia|by intros k x ->%repeat_lookup|by intros j k x y ->%repeat_lookup].
  - split_and!; [lia|by intros k x ->%repeat_lookup|by intros j k x y ->%repeat_lookup].
  - by intros k d ->%repeat_lookup.
Qed.

Lemma cav_init_ok i fd map size phys enum export r evs c :
  cavalry_proxy_init i fd map size phys enum export cav_boot = (r, evs, c) -> cav_ok c /\ cv_active c = 0.
Proof.
  unfold cavalry_proxy_init. cbv zeta. destruct (init_geometry _ _ _ _) as [g|]; [|intros [= _ _ <-]; split; [by apply fresh_ok|done]].
  destruct (io_open i) as [f|]; [|intros [= _ _ <-]; split; [by apply fresh_ok|done]].
  destruct export as [wfd|]; [|intros [= _ _ <-]; split; [by apply fresh_ok|done]].
  destruct (cavalry_proxy_guard_window_locked _ _) as [e guard]. intros [= _ _ <-]. split; [by apply fresh_ok|done].
Qed.

Lemma cav_world_ok w : cav_reach w -> world_ok w.
Proof.
  induction 1 as [i fd map size phys enum export r evs c H|w evs w' _ IH Hs]; [|by eapply cav_step_ok].
  apply cav_init_ok in H as [H1 H2]. by split_and!.
Qed.

(** C8: in every state the proxy reaches, whatever the guests ask and the server does to tenants in between: the buffers
    of one guest are whole pages that do not overlap; the handles, and the registered DAGs, in use have distinct ids
    below their counter; every registered template has at most 128 commands of at most 32 ports; and the number of
    active requests is that of the requests in flight. *)
Theorem cav_reachable_ok w : cav_reach w -> world_ok w.
Proof. apply cav_world_ok. Qed.

(** A proxy that was told to drain, with nothing in flight. *)
Definition drained (w : cav * phase) : Prop := cv_draining (fst w) = true /\ cavalry_proxy_wait_drained (fst w) = 0 /\ snd w = Idle.

Lemma drained_step w evs w' : drained w -> work_step w evs w' -> drained w' /\ no_run evs.
Proof.
  intros (Hd & Hw & Hp) Hs. destruct Hs as [c q cid c1 Hc Hz He|i c q cid resp e c1 Hh Hd' He|c|c ph e c1 He|c ph]; cbn [fst snd] in *; try done.
  - unfold rpc_enter in He. by rewrite Hd in He.
  - destruct (admin_harmless _ _ _ He) as [_ [Hq1 Hq2] Hn]. split; [|done]. split_and!; cbn; [congruence| |done].
    unfold cavalry_proxy_wait_drained in *. by rewrite Hq2.
  - split; [by split_and!|constructor].
Qed.

Lemma drained_record m c ph : drained (c, ph) -> drained (cavalry_proxy_record_last_mfd m c, ph).
Proof. intros (Hd & Hw & Hp). by split_and!. Qed.

(** C32: once the proxy is told to drain and the wait for the requests in flight has succeeded, then until the drain is
    ended no request of a guest to the proxy and no change of tenants makes the processor run, however they interleave
    with runs of the camera path: every run is one that the camera path made with cavalry_proxy_run_dag_with_handles,
    which does not ask whether the proxy drains (see [drain_misses_camera]). The proxy stays drained, and every request
    is answered -EHOSTDOWN and leaves the state as it is. *)
Theorem drained_stays_quiet w tr w' :
  cav_reach w -> cv_draining (fst w) = true -> cavalry_proxy_wait_drained (fst w) = 0 -> drain_path w tr w' ->
  (forall o evs m, (o, evs) ∈ tr -> DvRun m ∈ evs -> o = FromCamera) /\ cavalry_proxy_wait_drained (fst w') = 0 /\
  forall i q cid, cavalry_proxy_handle_rpc i q cid (fst w') = Val (answer (rp_opcode q) (- EHOSTDOWN), [], fst w').
Proof.
  intros Hr Hd Hw Hp. assert (Hdr : drained w).
  { split_and!; [done|done|]. apply cav_world_ok in Hr as (_ & Ha & _). unfold cavalry_proxy_wait_drained in Hw.
    destruct (Z.eqb_spec (cv_active (fst w)) 0) as [E|]; [|done]. rewrite E in Ha. by destruct (snd w). }
  clear Hr Hd Hw. enough (drained w' /\ Forall (fun x => fst x = FromProxy -> no_run (snd x)) tr) as [(H1 & H2 & _) H3].
  { split_and!; [|done|intros i q cid; unfold cavalry_proxy_handle_rpc, rpc_enter; by rewrite H1].
    intros o evs m Hin Hm. rewrite Forall_forall in H3. destruct o; [|done]. 
    pose proof (H3 _ Hin eq_refl) as Hq. unfold no_run in Hq. rewrite Forall_forall in Hq. by specialize (Hq _ Hm). }
  induction Hp as [w|w e w1 tr w2 Hs _ IH|i dag_id in_id out_id cid c ph r res e c1 tr w2 He _ IH]; [by split|..].
  - destruct (drained_step _ _ _ Hdr Hs) as [Hd1 Hn]. destruct (IH Hd1) as [Hd2 Hn2]. split; [done|]. by apply Forall_cons_2.
  - destruct IH as [Hd2 Hn2].
    + apply handles_state in He as [->|[m ->]]; [done|by apply drained_record].
    + split; [done|]. by apply Forall_cons_2.
Qed.

End CavalryInv.
