(* ===== verification/CavalryRunProps.v ===== *)
(** * The proxy of the vector processor: what a command may reach

    [Module CavalryRunProps]: a command rebuilt from descriptors in the guest's memory names only memory of buffers the
    guest holds, moved into the window of its slice ([run_dags_confined]), and is read inside the copied request when the
    request is as long as its count says ([run_dags_in_bounds]); a command of a registered DAG is the owner's template
    with ports bound to handles of the caller ([registered_run_confined]) and never reads outside its buffers
    ([registered_run_in_bounds]). *)

From stdpp Require Import base list.
From Stdlib Require Import ZArith Lia.
From S2P Require Import Prelude SliceGeometry SliceArena ByteBuf Cavalry CavalryRpc CavalryProps CavalryInv.
Import Geometry SliceArena Cavalry CavalryRpc CavalryProps CavalryInv.

Module CavalryRunProps.

(** ** Ranges that were checked *)

(** [size] bytes at [off] of the window are in a buffer of [cid], inside its slice and the window. *)
Definition owned_range (cid : Z) (t : tenant) (c : cav) (off size : Z) : Prop :=
  0 < size /\ off + size <= tn_slice_offset t + tn_shm_size t /\ (0 < cv_shm_size c -> off + size <= cv_shm_size c) /\
  exists k s, cv_slices c !! k = Some s /\ sl_in_use s = true /\ sl_cid s = cid /\
    tn_slice_offset t + sl_off s <= off /\ off + size <= tn_slice_offset t + sl_end s.

(** A result that is an error. *)
Ltac negative := let H := fresh in intros H; exfalso; revert H; unfold EINVAL, EFAULT, ENODEV; lia.

Lemma validate_owned off size cid c t :
  cid <> 0 -> cavalry_proxy_get_tenant cid c = Some t -> 0 <= off -> 0 <= size -> 0 <= tn_slice_offset t ->
  0 <= cavalry_proxy_validate_range off size cid c ->
  owned_range cid t c (tn_slice_offset t + off) size /\ u64 (tn_slice_offset t + off) = tn_slice_offset t + off.
Proof.
  intros Hc%Z.eqb_neq Ht Ho Hs Hso. unfold cavalry_proxy_validate_range, tenant_of. cbv zeta. rewrite Hc, Ht. cbn [negb andb].
  destruct (Z.eqb_spec size 0) as [->|Hs0]; [negative|]. rewrite bool_decide_eq_false_2 by done.
  destruct (Z.ltb_spec (UINT64_MAX - size) off) as [|H1]; [negative|].
  destruct (_ || _ || _) eqn:E; [negative|]. apply orb_false_iff in E as [[E1%Z.ltb_ge E2%Z.ltb_ge]%orb_false_iff E3].
  destruct (off <? pool_base_of _); [negative|]. destruct (u64 _ <? _); [negative|]. destruct (existsb _ _) eqn:Ex; [|negative]. intros _.
  apply existsb_exists in Ex as (s & Hin & Hx). apply list_elem_of_In, list_elem_of_lookup in Hin as [k Hk].
  apply andb_true_iff in Hx as [[Hcnt Hx1%Z.leb_le]%andb_true_iff Hx2%Z.leb_le]. unfold counts in Hcnt. rewrite Hc in Hcnt. cbn [orb] in Hcnt.
  apply andb_true_iff in Hcnt as [Hu Hcid%Z.eqb_eq]. unfold UINT64_MAX in *. split; [|apply u64_id; lia].
  split_and!; [lia|lia| |].
  - intros Hw. apply Z.ltb_lt in Hw. rewrite Hw in E3. apply Z.ltb_ge in E3. lia.
  - exists k, s. unfold sl_end. split_and!; [done..|lia|lia].
Qed.

(** ** Descriptors in the guest's memory *)

Definition checked (cid : Z) (c : cav) (a s : Z) : Prop := 0 <= cavalry_proxy_validate_range a s cid c.

Lemma check_ports_Val cid c p pos k n r :
  check_ports cid c p pos k n = Val r -> 0 <= r ->
  forall j, (j < n)%nat -> exists a s, u64_at p (pos + 592 + 24 * (k + j)) = Val a /\ u64_at p (pos + 592 + 24 * (k + j) + 8) = Val s /\ checked cid c a s.
Proof.
  revert k. induction n as [|n IH]; intros k H Hr j Hj; [lia|]. cbn [check_ports] in H. cbv zeta in H. rd_inv H.
  destruct (Z.ltb_spec (cavalry_proxy_validate_range v v0 cid c) 0) as [|Hv]; [injection H as <-; lia|].
  destruct j as [|j].
  - rewrite Nat.add_0_r. exists v, v0. done.
  - specialize (IH (S k) H Hr j ltac:(lia)). by rewrite Nat.add_succ_comm in IH.
Qed.

(** What the checks found in one descriptor. *)
Record dag_checked (cid : Z) (c : cav) (d : dag_desc) : Prop := {
  dc_ports : dd_port_cnt d <= CAVALRY_MAX_PORTS;
  dc_dvi : checked cid c (dd_dvi d) (dd_img_size d);
  dc_xpoke : dd_xpoke d <> 0 -> checked cid c (dd_xpoke d) (poke_bytes (dd_xpoke_cnt d));
  dc_xcommon : dd_xcommon d <> 0 -> checked cid c (dd_xcommon d) SIZEOF_EXTRA_COMMON;
  dc_xlist : dd_xlist d <> 0 -> checked cid c (dd_xlist d) SIZEOF_EXTRA_LIST;
  dc_port : forall k q, (k < Z.to_nat (dd_port_cnt d))%nat -> dd_ports d !! k = Some q -> checked cid c (pd_addr q) (pd_size q) }.

Lemma check_extra_checked cid c a s : 0 <= check_extra cid c a s -> a <> 0 -> checked cid c a s.
Proof. unfold check_extra, checked. intros H Ha%Z.eqb_neq. by rewrite Ha in H. Qed.

Lemma check_dag_checked cid c p pos d r : dag_read p pos d -> check_dag cid c p pos = Val r -> 0 <= r -> dag_checked cid c d.
Proof.
  intros [R1 R2 R3 R4 R5 R6 R7 R8 R9] H Hr. unfold check_dag in H. rewrite R3 in H. cbn [rd_bind] in H.
  destruct (Z.ltb_spec CAVALRY_MAX_PORTS (dd_port_cnt d)) as [|Hpc]; [injection H as <-; unfold EINVAL in Hr; lia|].
  rewrite R1, R2 in H. cbn [rd_bind] in H. cbv zeta in H.
  destruct (Z.ltb_spec (cavalry_proxy_validate_range (dd_dvi d) (dd_img_size d) cid c) 0) as [|H1]; [injection H as <-; lia|].
  rewrite R5, R4 in H. cbn [rd_bind] in H. destruct (Z.ltb_spec (check_extra cid c (dd_xpoke d) (poke_bytes (dd_xpoke_cnt d))) 0) as [|H2]; [injection H as <-; lia|].
  rewrite R6 in H. cbn [rd_bind] in H. destruct (Z.ltb_spec (check_extra cid c (dd_xcommon d) SIZEOF_EXTRA_COMMON) 0) as [|H3]; [injection H as <-; lia|].
  rewrite R7 in H. cbn [rd_bind] in H. destruct (Z.ltb_spec (check_extra cid c (dd_xlist d) SIZEOF_EXTRA_LIST) 0) as [|H4]; [injection H as <-; lia|].
  split; [done|done|by apply check_extra_checked|by apply check_extra_checked|by apply check_extra_checked|].
  intros k q Hk Hq. destruct (check_ports_Val _ _ _ _ _ _ _ H Hr k Hk) as (a & s & Ha & Hs & Hck). destruct (R9 k q Hq) as [Ra Rs]. change (0 + k)%nat with k in Ha, Hs.
  rewrite Ra in Ha. rewrite Rs in Hs. by injection Ha as ->; injection Hs as ->.
Qed.

Lemma check_dags_Val cid c p d n r :
  check_dags cid c p d n = Val r -> 0 <= r -> forall j, (j < n)%nat -> exists r', check_dag cid c p (dag_pos 0 (d + j)) = Val r' /\ 0 <= r'.
Proof.
  revert d. induction n as [|n IH]; intros d H Hr j Hj; [lia|]. cbn [check_dags] in H. rd_inv H.
  destruct (Z.ltb_spec v 0) as [|Hv]; [injection H as <-; lia|]. destruct j as [|j].
  - rewrite Nat.add_0_r. by exists v.
  - specialize (IH (S d) H Hr j ltac:(lia)). by rewrite Nat.add_succ_comm in IH.
Qed.

(** A rebuilt command names only memory of the guest's buffers, through the window's descriptor. *)
Record dag_confined (cid : Z) (t : tenant) (c : cav) (d : dag_mfd) : Prop := {
  cf_dvi : owned_range cid t c (dm_dvi_off d) (dm_img_size d);
  cf_xpoke : dm_xpoke d = 0 \/ owned_range cid t c (dm_xpoke d) (poke_bytes (dm_xpoke_cnt d));
  cf_xcommon : dm_xcommon d = 0 \/ owned_range cid t c (dm_xcommon d) SIZEOF_EXTRA_COMMON;
  cf_xlist : dm_xlist d = 0 \/ owned_range cid t c (dm_xlist d) SIZEOF_EXTRA_LIST;
  cf_port : forall k, (k < Z.to_nat (dm_port_cnt d))%nat ->
    exists q, dm_ports d !! k = Some q /\ owned_range cid t c (pd_addr q) (pd_size q) /\ dm_fds d !! k = Some (tn_window_fd t) }.

Lemma mapped_tenant_get cid c t : mapped_tenant cid c = Some t -> cavalry_proxy_get_tenant cid c = Some t.
Proof. unfold mapped_tenant. destruct (cavalry_proxy_get_tenant cid c) as [u|]; [|done]. by destruct (_ || _); [|intros [= ->]]. Qed.

Lemma repeat_at {A} (x : A) n k : (k < n)%nat -> repeat x n !! k = Some x.
Proof.
  intros Hk. destruct (repeat x n !! k) as [y|] eqn:E; [by rewrite (repeat_lookup _ _ _ _ E)|].
  apply lookup_ge_None in E. rewrite repeat_length in E. lia.
Qed.

Section Confined.
Context (cid : Z) (t : tenant) (c : cav).
Hypothesis Hcid : cid <> 0.
Hypothesis Ht : cavalry_proxy_get_tenant cid c = Some t.
Hypothesis Hoff : 0 <= tn_slice_offset t.

Lemma moved_owned a s : 0 <= a -> 0 <= s -> checked cid c a s -> owned_range cid t c (u64 (tn_slice_offset t + a)) s.
Proof using Hcid Ht Hoff. intros Ha Hs Hc. by destruct (validate_owned a s cid c t Hcid Ht Ha Hs Hoff Hc) as [Ho ->]. Qed.

Lemma moved_extra a s : 0 <= a -> 0 <= s -> (a <> 0 -> checked cid c a s) -> moved (tn_slice_offset t) a = 0 \/ owned_range cid t c (moved (tn_slice_offset t) a) s.
Proof using Hcid Ht Hoff.
  intros Ha Hs Hc. unfold moved. destruct (Z.eqb_spec a 0) as [|Hn]; [by left|]. right. by apply moved_owned; [..|apply Hc].
Qed.

Lemma rebuild_confined p pos d :
  Forall is_u8 p -> dag_read p pos d -> dag_checked cid c d -> dag_confined cid t c (rebuild (tn_slice_offset t) (tn_window_fd t) d).
Proof using Hcid Ht Hoff.
  intros Hp [R1 R2 R3 R4 R5 R6 R7 R8 R9] [C1 C2 C3 C4 C5 C6].
  pose proof (le_at_range _ _ _ _ Hp R1). pose proof (le_at_range _ _ _ _ Hp R2). pose proof (le_at_range _ _ _ _ Hp R4).
  pose proof (le_at_range _ _ _ _ Hp R5). pose proof (le_at_range _ _ _ _ Hp R6). pose proof (le_at_range _ _ _ _ Hp R7).
  unfold rebuild. split; cbn [dm_dvi_off dm_img_size dm_xpoke dm_xpoke_cnt dm_xcommon dm_xlist dm_port_cnt dm_ports dm_fds].
  - apply moved_owned; [lia|lia|done].
  - apply moved_extra; [lia| |done]. unfold poke_bytes, SIZEOF_POKE_DESC. case_match; lia.
  - by apply moved_extra; [lia|..].
  - by apply moved_extra; [lia|..].
  - intros k Hk. assert (Hn : (Z.to_nat (dd_port_cnt d) <= MAX_PORT_CNT)%nat) by (unfold CAVALRY_MAX_PORTS, MAX_PORT_CNT in *; lia).
    destruct (dd_ports d !! k) as [q|] eqn:Eq; [|apply lookup_ge_None in Eq; lia]. exists (move_port (tn_slice_offset t) q).
    destruct (R9 k q Eq) as [Ra Rs]. apply (le_at_range _ _ _ _ Hp) in Ra, Rs. split_and!.
    + rewrite lookup_app_l by (rewrite length_map, length_take; lia). by rewrite list_lookup_fmap, lookup_take_lt, Eq.
    + cbn. apply moved_owned; [lia|lia|by apply (C6 k)].
    + rewrite lookup_app_l by (rewrite repeat_length; lia). by apply repeat_at.
Qed.
End Confined.

Lemma submit_run i m m' c : DvRun m' ∈ snd (submit i m c) -> m' = m.
Proof. unfold submit. destruct (mock c); cbn; [by intros ?%elem_of_nil|]. intros H%list_elem_of_singleton. by injection H. Qed.

Lemma tenant_in cid c t : cavalry_proxy_get_tenant cid c = Some t -> t ∈ cv_tenants c.
Proof. intros [H _]%List.find_some. by apply list_elem_of_In. Qed.

(** C7: when a guest runs descriptors it wrote into its memory, every command that reaches the driver names only memory
    of the guest: the code, the extra lists and every port in use lie inside a buffer the guest holds, moved by the
    offset of its slice without wrapping and inside the usable part of the slice and the window, and go through the
    descriptor of the window; and none reaches it when the registered path is enforced. *)
Theorem run_dags_confined i q cid c resp evs c' m :
  cid <> 0 -> (forall a n, Forall is_u8 (io_arena i a n)) -> Forall (fun t => 0 <= tn_slice_offset t) (cv_tenants c) ->
  handle_run_dags i q cid c = Val (resp, evs, c') -> DvRun m ∈ evs ->
  cv_path_b c = false /\
  exists t, cavalry_proxy_get_tenant cid c = Some t /\ rm_dvi_fd m = tn_window_fd t /\ Forall (dag_confined cid t c) (rm_dags m).
Proof.
  intros Hc Hp Hts [[-> _]|(t & r & cnt & ds & prio & aff & hw & enc & sess & Hb & Ht%mapped_tenant_get & Hck & Hr & Hds & -> & _)]%run_dags_inv Hm;
    [by apply elem_of_nil in Hm|]. apply submit_run in Hm as ->. split; [done|]. exists t. split_and!; [done|done|].
  rewrite Forall_forall in Hts. pose proof (Hts t (tenant_in _ _ _ Ht)) as Hoff. cbn [rm_dags window_command].
  apply Forall_lookup. intros j x (d & Hd & ->)%lookup_map_inv. apply rd_list_Val in Hds as [Hl Hds].
  pose proof (dag_at_Val _ _ _ (Hds j d Hd)) as Hread. apply lookup_lt_Some in Hd. rewrite Hl in Hd.
  destruct (check_dags_Val _ _ _ _ _ _ Hck Hr j Hd) as (r' & Hr1 & Hr2).
  eapply rebuild_confined; [done..|apply Hp|exact Hread|]. by eapply check_dag_checked.
Qed.

(** ** Registered DAGs *)

Definition set_ports (d : dag_mfd) (ps : list port_desc) (fds : list Z) : dag_mfd :=
  {| dm_flags := dm_flags d; dm_dep_cnt := dm_dep_cnt d; dm_dvi_dag_size := dm_dvi_dag_size d; dm_dvi_off := dm_dvi_off d;
     dm_img_vaddr := dm_img_vaddr d; dm_img_size := dm_img_size d; dm_dag_vaddr := dm_dag_vaddr d; dm_scratch := dm_scratch d;
     dm_rev_cnt := dm_rev_cnt d; dm_port_cnt := dm_port_cnt d; dm_poke_cnt := dm_poke_cnt d; dm_xpoke_cnt := dm_xpoke_cnt d;
     dm_xpoke := dm_xpoke d; dm_xcommon := dm_xcommon d; dm_xlist := dm_xlist d; dm_rev_ids := dm_rev_ids d;
     dm_ports := ps; dm_pokes := dm_pokes d; dm_fds := fds |}.

(** A port on memory of one of the caller's handles. *)
Definition handle_port (cid session : Z) (t : tenant) (c : cav) (q : port_desc) : Prop :=
  exists k h off, cv_handles c !! k = Some h /\ hd_in_use h = true /\ hd_cid h = cid /\ hd_session h = session /\
    0 <= off /\ off + pd_size q <= hd_size h /\ pd_addr q = u64 (tn_phys_base t + hd_off h + off) /\
    owned_range cid t c (tn_slice_offset t + (hd_off h + off)) (pd_size q).

(** The command is the template, but for ports on the caller's handles. *)
Record bound_from (cid session : Z) (t : tenant) (c : cav) (d0 d : dag_mfd) : Prop := {
  bf_rest : d = set_ports d0 (dm_ports d) (dm_fds d);
  bf_ports : forall k q, dm_ports d !! k = Some q -> dm_ports d0 !! k = Some q \/ handle_port cid session t c q;
  bf_fds : forall k fd, dm_fds d !! k = Some fd -> dm_fds d0 !! k = Some fd \/ fd = CAVALRY_DMABUF_FD_REPRESENT_PHYS }.

Lemma bound_refl cid session t c d : bound_from cid session t c d d.
Proof. split; [by destruct d|by left|by left]. Qed.

Lemma bound_port cid session t c d0 d a s k d' :
  bound_from cid session t c d0 d -> (forall b i, handle_port cid session t c {| pd_addr := a; pd_size := s; pd_boffset := b; pd_incr := i |}) ->
  bind_port a s k d = Val d' -> bound_from cid session t c d0 d'.
Proof.
  intros [B1 B2 B3] Hh. unfold bind_port. destruct (dm_fds d !! k); [|done]. destruct (dm_ports d !! k) as [x|]; [|done]. intros [= <-]. split.
  - rewrite B1. done.
  - cbn. intros j q [[-> ->]|[_ Hj]]%lookup_insert_inv; [right; apply Hh|by apply B2].
  - cbn. intros j fd [[-> ->]|[_ Hj]]%lookup_insert_inv; [by right|by apply B3].
Qed.

Section Registered.
Context (cid session : Z) (t : tenant) (c : cav).
Hypothesis Hcid : cid <> 0.
Hypothesis Ht : cavalry_proxy_get_tenant cid c = Some t.
Hypothesis Hoff : 0 <= tn_slice_offset t.
Hypothesis Hh : Forall (fun h => 0 <= hd_off h) (cv_handles c).

Lemma lookup_handle_inr id h :
  cavalry_proxy_lookup_handle id cid session c = inr h ->
  exists k, cv_handles c !! k = Some h /\ hd_in_use h = true /\ hd_id h = id /\ hd_cid h = cid /\ hd_session h = session.
Proof using Hcid.
  unfold cavalry_proxy_lookup_handle. destruct (List.find _ _) as [h'|] eqn:Ef; [|done].
  destruct (foreign cid session h') eqn:Eo; [done|]. intros [= ->]. apply List.find_some in Ef as [Hin Hn].
  apply list_elem_of_In, list_elem_of_lookup in Hin as [k Hk]. exists k. apply andb_true_iff in Hn as [Hu Hid%Z.eqb_eq].
  unfold foreign in Eo. apply orb_false_iff in Eo as [Es%negb_false_iff%Z.eqb_eq Eo]. apply Z.eqb_neq in Hcid. rewrite Hcid in Eo.
  apply negb_false_iff, Z.eqb_eq in Eo. done.
Qed.

Lemma bind_one_from p k n dags0 dags dags' :
  Forall is_u8 p -> Forall2 (bound_from cid session t c) dags0 dags ->
  bind_one t cid session c p k n dags = Val (inr dags') -> Forall2 (bound_from cid session t c) dags0 dags'.
Proof using Hcid Ht Hoff Hh.
  intros Hp HF H. unfold bind_one in H. cbv zeta in H. rd_inv H. destruct (cavalry_proxy_lookup_handle _ _ _ _) as [e|h] eqn:El; [done|].
  apply lookup_handle_inr in El as (j & Hj & Hu & _ & Hc & Hs). apply (le_at_range _ _ _ _ Hp) in Ev2, Ev3.
  destruct ((v3 =? 0) || (hd_size h <? v2 + v3)) eqn:Ez; [done|]. apply orb_false_iff in Ez as [Ez1%Z.eqb_neq Ez2%Z.ltb_ge].
  destruct (Z.ltb_spec (cavalry_proxy_validate_range (hd_off h + v2) v3 cid c) 0) as [|Hv]; [done|].
  destruct (n <=? v); [done|]. destruct (dags !! Z.to_nat v) as [d|] eqn:Ed; [|done].
  destruct (dm_port_cnt d <=? v0); [done|]. rd_inv H. injection H as <-.
  rewrite Forall_forall in Hh. pose proof (Hh h (list_elem_of_lookup_2 _ _ _ Hj)) as Hh0.
  destruct (Forall2_lookup_r _ _ _ _ _ HF Ed) as (d0 & Hd0 & Hb).
  rewrite <- (list_insert_id dags0 _ _ Hd0). apply Forall2_insert; [done|]. eapply bound_port; [exact Hb| |exact Ev4]. intros b i.
  exists j, h, v2. cbn. split_and!; try done; [lia|].
  destruct (validate_owned (hd_off h + v2) v3 cid c t Hcid Ht ltac:(lia) ltac:(lia) Hoff Hv) as [Ho _]. done.
Qed.

Lemma bind_ports_from p k m n dags0 dags dags' :
  Forall is_u8 p -> Forall2 (bound_from cid session t c) dags0 dags ->
  bind_ports t cid session c p k m n dags = Val (inr dags') -> Forall2 (bound_from cid session t c) dags0 dags'.
Proof using Hcid Ht Hoff Hh.
  intros Hp. revert k dags. induction m as [|m IH]; intros k dags HF H; cbn [bind_ports] in H; [by injection H as <-|].
  rd_inv H. destruct v as [e|d1]; [done|]. eapply IH; [|exact H]. by eapply bind_one_from.
Qed.
End Registered.

(** C17: when a guest runs a DAG it registered, the command that reaches the driver is the template of a DAG that this
    guest registered in this session, changed only in its ports: each is the template's, or lies inside a handle of the
    caller and of this session that still is a buffer of the caller. *)
Theorem registered_run_confined i q cid c resp evs c' m :
  cid <> 0 -> (forall a n, Forall is_u8 (io_arena i a n)) -> Forall (fun t => 0 <= tn_slice_offset t) (cv_tenants c) ->
  Forall (fun h => 0 <= hd_off h) (cv_handles c) ->
  handle_run_registered_dag i q cid c = Val (resp, evs, c') -> DvRun m ∈ evs ->
  exists t d, cavalry_proxy_get_tenant cid c = Some t /\ d ∈ cv_dags c /\ rg_in_use d = true /\ rg_id d = rp_dag_id q /\
    rg_cid d = cid /\ rg_owner_session d = rp_session q /\ m = command d (rm_dags m) /\
    Forall2 (bound_from cid (rp_session q) t c) (take (Z.to_nat (rg_dag_cnt d)) (rg_template d)) (rm_dags m).
Proof.
  intros Hc Hp Hts Hh [[-> _]|(t & d & pc & dags & Ht%mapped_tenant_get & Hf & Ho & Hb & _ & -> & _)]%run_registered_inv Hm;
    [by apply elem_of_nil in Hm|]. apply submit_run in Hm as ->. exists t, d.
  apply List.find_some in Hf as [Hin%list_elem_of_In [Hu Hid%Z.eqb_eq]%andb_true_iff].
  unfold dag_foreign in Ho. apply Z.eqb_neq in Hc as Hc'. rewrite Hc' in Ho. cbn [negb andb] in Ho.
  apply orb_false_iff in Ho as [Hs%negb_false_iff%Z.eqb_eq Ho%negb_false_iff%Z.eqb_eq]. split_and!; try done.
  rewrite Forall_forall in Hts. eapply bind_ports_from; [exact Hc|exact Ht|by apply Hts, (tenant_in cid)|done|apply Hp| |exact Hb].
  apply Forall_Forall2_diag, Forall_true. intros x. apply bound_refl.
Qed.

(** ** Reads inside the request *)

Lemma byte_at_some p k : (k < length p)%nat -> exists b, byte_at p k = Val b.
Proof. intros Hk. unfold byte_at. destruct (lookup_lt_is_Some_2 p k Hk) as [b ->]. by exists b. Qed.

(** The next read of the goal is inside its buffer. *)
Ltac read_in :=
  let go r t := (let E := fresh "E" in let v := fresh "v" in assert (exists z, r = Val z) as [v E] by t; rewrite E; cbn [rd_bind]) in
  let read r := match r with
                | u64_at ?p ?k => go r ltac:(exact (le_at_in 8 p k ltac:(lia)))
                | u32_at ?p ?k => go r ltac:(exact (le_at_in 4 p k ltac:(lia)))
                | byte_at ?p ?k => go r ltac:(apply byte_at_some; lia)
                end in
  match goal with
  | |- exists _, rd_bind ?r _ = Val _ => read r
  | |- exists _, rd_bind ?r _ = Val _ /\ _ => read r
  end.

Lemma rd_list_in {A} (f : nat -> rd A) k n : (forall j, (k <= j < k + n)%nat -> exists x, f j = Val x) -> exists l, rd_list f k n = Val l.
Proof.
  revert k. induction n as [|n IH]; intros k Hf; cbn [rd_list]; [by exists []|]. destruct (Hf k) as [x ->]; [lia|]. cbn [rd_bind].
  destruct (IH (S k)) as [l ->]; [intros j Hj; apply Hf; lia|]. by exists (x :: l).
Qed.

Lemma port_at_in p k : (k + 24 <= length p)%nat -> exists q, port_at p k = Val q.
Proof. intros Hk. unfold port_at. do 4 read_in. by eexists. Qed.

Lemma poke_at_in p k : (k + 16 <= length p)%nat -> exists q, poke_at p k = Val q.
Proof. intros Hk. unfold poke_at. do 4 read_in. by eexists. Qed.

Lemma dag_at_in p k : Z.of_nat k + SIZEOF_DAG_DESC <= Z.of_nat (length p) -> exists d, dag_at p k = Val d.
Proof.
  unfold SIZEOF_DAG_DESC. intros Hk. unfold dag_at. do 15 read_in.
  destruct (rd_list_in (fun i => u16_at p (k + 80 + 2 * i)) 0 MAX_DEP_CNT) as [l1 ->].
  { intros j Hj. apply le_at_in. unfold MAX_DEP_CNT in Hj. lia. }
  destruct (rd_list_in (fun i => port_at p (k + 592 + 24 * i)) 0 MAX_PORT_CNT) as [l2 ->].
  { intros j Hj. apply port_at_in. unfold MAX_PORT_CNT in Hj. lia. }
  destruct (rd_list_in (fun i => poke_at p (k + Z.to_nat 6736 + 16 * i)) 0 MAX_POKE_CNT) as [l3 ->].
  { intros j Hj. apply poke_at_in. unfold MAX_POKE_CNT in Hj. lia. }
  by eexists.
Qed.

Lemma check_ports_in cid c p pos k n : (pos + 592 + 24 * (k + n) <= length p)%nat -> exists r, check_ports cid c p pos k n = Val r.
Proof.
  revert k. induction n as [|n IH]; intros k Hk; cbn [check_ports]; [by eexists|]. do 2 read_in. cbv zeta.
  destruct (_ <? 0); [by eexists|]. apply IH. lia.
Qed.

Lemma check_dag_in cid c p pos : Z.of_nat pos + SIZEOF_DAG_DESC <= Z.of_nat (length p) -> exists r, check_dag cid c p pos = Val r.
Proof.
  unfold SIZEOF_DAG_DESC. intros Hk. unfold check_dag. read_in.
  destruct (Z.ltb_spec CAVALRY_MAX_PORTS v) as [|Hc]; [by eexists|]. do 2 read_in. cbv zeta. destruct (_ <? 0); [by eexists|].
  do 2 read_in. destruct (_ <? 0); [by eexists|]. read_in. destruct (_ <? 0); [by eexists|]. read_in. destruct (_ <? 0); [by eexists|].
  apply check_ports_in. unfold CAVALRY_MAX_PORTS in Hc. lia.
Qed.

Lemma check_dags_in cid c p d n :
  SIZEOF_RUN_DAGS + (Z.of_nat d + Z.of_nat n) * SIZEOF_DAG_DESC <= Z.of_nat (length p) -> exists r, check_dags cid c p d n = Val r.
Proof.
  revert d. induction n as [|n IH]; intros d Hk; cbn [check_dags]; [by eexists|].
  destruct (check_dag_in cid c p (dag_pos 0 d)) as [r ->].
  { rewrite dag_pos_eq. unfold SIZEOF_RUN_DAGS, SIZEOF_DAG_DESC in *. lia. }
  cbn [rd_bind]. destruct (r <? 0); [by eexists|]. apply IH. unfold SIZEOF_RUN_DAGS, SIZEOF_DAG_DESC in *. lia.
Qed.

(** a run request reads only its own copy, as long as the copy holds as many descriptors as its count says. *)
Theorem run_dags_in_bounds i q cid c :
  (forall a n, length (io_arena i a n) = Z.to_nat n) ->
  (forall t cnt, mapped_tenant cid c = Some t -> u32_at (io_arena i (tn_map t + rp_bar_offset q) (rp_arena_len q)) 24 = Val cnt ->
     SIZEOF_RUN_DAGS + cnt * SIZEOF_DAG_DESC <= rp_arena_len q) ->
  exists r, handle_run_dags i q cid c = Val r.
Proof.
  intros Hl Hcov. unfold handle_run_dags. cbv zeta. destruct (cv_path_b c); [by eexists|].
  destruct (mapped_tenant cid c) as [t|] eqn:Et; [|by eexists]. destruct (rp_arena_len q =? 0); [by eexists|].
  destruct (arena_check _ _ _ <? 0) eqn:Ea; [by eexists|]. destruct (negb (io_malloc i)); [by eexists|].
  set (p := io_arena i _ _) in *. assert (Hp : SIZEOF_RUN_DAGS <= Z.of_nat (length p)).
  { unfold p. rewrite Hl. unfold arena_check in Ea. cbv zeta in Ea. destruct (rp_arena_len q <? SIZEOF_RUN_DAGS) eqn:E1; [done|].
    apply Z.ltb_ge in E1. lia. }
  unfold SIZEOF_RUN_DAGS in Hp. read_in. pose proof (Hcov t v eq_refl E) as Hc.
  destruct ((v =? 0) || (MAX_DAG_CNT_CAP <? v)) eqn:Ev; [by eexists|].
  apply orb_false_iff in Ev as [Ev1%Z.eqb_neq Ev2].
  assert (Hlen : Z.of_nat (length p) = Z.max 0 (rp_arena_len q)) by (unfold p; rewrite Hl; lia).
  assert (Hall : SIZEOF_RUN_DAGS + (0 + Z.of_nat (Z.to_nat v)) * SIZEOF_DAG_DESC <= Z.of_nat (length p)).
  { unfold SIZEOF_RUN_DAGS, SIZEOF_DAG_DESC in *. lia. }
  destruct (check_dags_in cid c p 0 (Z.to_nat v) Hall) as [r ->]. cbn [rd_bind]. destruct (r <? 0); [by eexists|].
  destruct (negb (io_calloc i)); [by eexists|]. do 5 read_in.
  destruct (rd_list_in (fun d => dag_at p (dag_pos 0 d)) 0 (Z.to_nat v)) as [ds ->].
  { intros j Hj. apply dag_at_in. rewrite dag_pos_eq. unfold SIZEOF_RUN_DAGS, SIZEOF_DAG_DESC in *. lia. }
  cbn [rd_bind]. destruct (submit _ _ _) as [res evs]. by eexists.
Qed.

Lemma run_dags_goes i q cid c t cnt r (p := io_arena i (tn_map t + rp_bar_offset q) (rp_arena_len q)) :
  cv_path_b c = false -> mapped_tenant cid c = Some t -> 0 <= arena_check SIZEOF_RUN_DAGS q t -> io_malloc i = true -> io_calloc i = true ->
  length p = Z.to_nat (rp_arena_len q) -> u32_at p 24 = Val cnt -> 0 < cnt <= MAX_DAG_CNT_CAP ->
  SIZEOF_RUN_DAGS + cnt * SIZEOF_DAG_DESC <= rp_arena_len q -> check_dags cid c p 0 (Z.to_nat cnt) = Val r -> 0 <= r ->
  exists m resp, handle_run_dags i q cid c = Val (resp, snd (submit i m c), cavalry_proxy_record_last_mfd m c) /\
    rm_dag_cnt m = cnt /\ length (rm_dags m) = Z.to_nat cnt.
Proof.
  intros Hb Ht Ha%Z.ltb_ge Hm Hca Hl Hcnt Hc Hcov Hck Hr. unfold handle_run_dags. cbv zeta.
  unfold SIZEOF_RUN_DAGS, SIZEOF_DAG_DESC, MAX_DAG_CNT_CAP in *.
  rewrite Hb, Ht. destruct (Z.eqb_spec (rp_arena_len q) 0); [lia|]. rewrite Ha, Hm. cbn [negb]. fold p. rewrite Hcnt. cbn [rd_bind].
  destruct (Z.eqb_spec cnt 0); [lia|]. destruct (Z.ltb_spec 128 cnt); [lia|]. cbn [orb]. rewrite Hck. cbn [rd_bind].
  destruct (Z.ltb_spec r 0); [lia|]. rewrite Hca. cbn [negb].
  destruct (rd_list_in (fun d => dag_at p (dag_pos 0 d)) 0 (Z.to_nat cnt)) as [ds Hds].
  { intros j Hj. apply dag_at_in. rewrite dag_pos_eq. unfold SIZEOF_RUN_DAGS, SIZEOF_DAG_DESC. lia. }
  destruct (byte_at_some p 48) as [prio ->]; [lia|]. destruct (le_at_in 4 p 44) as [aff Eaff]; [lia|]. destruct (byte_at_some p 49) as [hw ->]; [lia|].
  destruct (le_at_in 4 p 32) as [enc Eenc]; [lia|]. destruct (le_at_in 4 p 36) as [sess Esess]; [lia|].
  unfold u32_at. rewrite Eaff, Eenc, Esess, Hds. cbn [rd_bind]. destruct (submit _ _ _) as [res evs] eqn:Es.
  exists (window_command t cnt prio aff hw enc sess ds), (run_answer (rp_opcode q) res). rewrite Es. split; [done|]. split; [done|].
  cbn. rewrite length_map. by apply rd_list_Val in Hds as [-> _].
Qed.

(** a run request that fits its arena and its copy, names one to 128 descriptors and passes every check is submitted
    to the driver, with as many commands as it has descriptors, and recorded. *)
Theorem run_dags_submitted i q cid c t cnt r (p := io_arena i (tn_map t + rp_bar_offset q) (rp_arena_len q)) :
  cv_path_b c = false -> mapped_tenant cid c = Some t -> 0 <= arena_check SIZEOF_RUN_DAGS q t -> io_malloc i = true -> io_calloc i = true ->
  length p = Z.to_nat (rp_arena_len q) -> u32_at p 24 = Val cnt -> 0 < cnt <= MAX_DAG_CNT_CAP ->
  SIZEOF_RUN_DAGS + cnt * SIZEOF_DAG_DESC <= rp_arena_len q -> check_dags cid c p 0 (Z.to_nat cnt) = Val r -> 0 <= r ->
  exists m resp, handle_run_dags i q cid c = Val (resp, snd (submit i m c), cavalry_proxy_record_last_mfd m c) /\
    rm_dag_cnt m = cnt /\ length (rm_dags m) = Z.to_nat cnt.
Proof. apply run_dags_goes. Qed.

(** A port of a command of the right shape can be bound, and the command keeps its shape. *)
Lemma bind_port_in addr size k d :
  mfd_shape d -> (k < MAX_PORT_CNT)%nat -> exists d', bind_port addr size k d = Val d' /\ mfd_shape d'.
Proof.
  intros (Hc & Hp & Hf) Hk. unfold bind_port.
  destruct (lookup_lt_is_Some_2 (dm_fds d) k) as [fd ->]; [lia|]. destruct (lookup_lt_is_Some_2 (dm_ports d) k) as [q ->]; [lia|].
  eexists. split; [done|]. unfold mfd_shape. cbn. by rewrite !length_insert.
Qed.

Lemma scan_first_in {A} (f : nat -> A -> bool) l k n :
  (k + n <= length l)%nat -> exists r, scan_first f l k n = Val r /\ match r with Some j => (j < k + n)%nat | None => True end.
Proof.
  revert k. induction n as [|n IH]; intros k Hk; cbn [scan_first]; [by eexists|].
  destruct (lookup_lt_is_Some_2 l k) as [x ->]; [lia|]. destruct (f k x); [eexists; split; [done|cbn; lia]|].
  destruct (IH (S k)) as (r & -> & Hr); [lia|]. exists r. split; [done|]. destruct r; [lia|done].
Qed.

(** The ports a command counts are inside its arrays. *)
Lemma shape_ports d : mfd_shape d -> (Z.to_nat (dm_port_cnt d) <= MAX_PORT_CNT)%nat.
Proof. intros (Hc & _). unfold CAVALRY_MAX_PORTS, MAX_PORT_CNT in *. lia. Qed.

Lemma unbound_in dags : Forall mfd_shape dags -> exists b, unbound dags = Val b.
Proof.
  induction 1 as [|d dags Hd _ IH]; cbn [unbound]; [by eexists|]. pose proof (shape_ports d Hd).
  destruct (scan_first_in (fun _ fd => fd =? 0) (dm_fds d) 0 (Z.to_nat (dm_port_cnt d))) as (r & -> & _); [destruct Hd as (_ & _ & ->); lia|].
  cbn [rd_bind]. destruct r; [by eexists|done].
Qed.

Lemma bind_one_in t cid session c p k n dags :
  Forall is_u8 p -> (8 + 20 * S k <= length p)%nat -> length dags = Z.to_nat n -> Forall mfd_shape dags ->
  exists r, bind_one t cid session c p k n dags = Val r /\
    match r with inr dags' => length dags' = length dags /\ Forall mfd_shape dags' | inl _ => True end.
Proof.
  intros Hp Hk Hd Hs. unfold bind_one. cbv zeta. do 5 read_in. destruct (cavalry_proxy_lookup_handle _ _ _ _) as [e|h]; [by eexists|].
  destruct (_ || _); [by eexists|]. destruct (_ <? 0); [by eexists|]. destruct (Z.leb_spec n v) as [|Hv]; [by eexists|].
  pose proof (le_at_range _ _ _ _ Hp E). pose proof (le_at_range _ _ _ _ Hp E0). destruct (lookup_lt_is_Some_2 dags (Z.to_nat v)) as [d Hl]; [lia|].
  rewrite Hl. destruct (Z.leb_spec (dm_port_cnt d) v0); [by eexists|].
  assert (Hsd : mfd_shape d) by (rewrite Forall_forall in Hs; apply Hs; by eapply list_elem_of_lookup_2). pose proof (shape_ports d Hsd).
  destruct (bind_port_in (u64 (tn_phys_base t + hd_off h + v2)) v3 (Z.to_nat v0) d Hsd) as (d' & -> & Hd'); [lia|]. cbn [rd_bind].
  eexists. split; [done|]. split; [apply length_insert|by apply Forall_insert].
Qed.

Lemma bind_ports_in t cid session c p k m n dags :
  Forall is_u8 p -> (8 + 20 * (k + m) <= length p)%nat -> length dags = Z.to_nat n -> Forall mfd_shape dags ->
  exists r, bind_ports t cid session c p k m n dags = Val r /\ match r with inr dags' => Forall mfd_shape dags' | inl _ => True end.
Proof.
  intros Hp. revert k dags. induction m as [|m IH]; intros k dags Hk Hd Hs; cbn [bind_ports]; [by eexists|].
  destruct (bind_one_in t cid session c p k n dags Hp ltac:(lia) Hd Hs) as ([e|dags'] & -> & Hr); cbn [rd_bind]; [by eexists|].
  destruct Hr as [Hr1 Hr2]. apply IH; [lia|congruence|done].
Qed.

(** The two bindings of the camera path. *)
Lemma input_port_in size d dags : Forall mfd_shape dags -> exists j k, input_port size d dags = Val (j, k) /\
  (k < MAX_PORT_CNT)%nat /\ (j = 0 \/ d <= j < d + length dags)%nat.
Proof.
  intros Hs. revert d. induction Hs as [|g dags Hg _ IH]; intros d; cbn [input_port].
  { exists 0%nat, 0%nat. split; [done|]. unfold MAX_PORT_CNT. lia. }
  pose proof (shape_ports g Hg).
  destruct (scan_first_in (fun _ q => pd_size q =? size) (dm_ports g) 0 (Z.to_nat (dm_port_cnt g))) as (r & -> & Hr); [destruct Hg as (_ & -> & _); lia|].
  cbn [rd_bind]. destruct r as [k|]; [exists d, k; split; [done|]; cbn; lia|].
  destruct (IH (S d)) as (j & k & -> & Hk & Hj). exists j, k. split; [done|]. cbn. lia.
Qed.

Lemma output_scan_in size inp d dags a b n :
  Forall mfd_shape dags -> (d + length dags = n)%nat -> (a < n)%nat -> (b < MAX_PORT_CNT)%nat ->
  exists j k, output_scan size inp (a, b) d dags = Val (j, k) /\ (k < MAX_PORT_CNT)%nat /\ (j < n)%nat.
Proof.
  intros Hs. revert d a b. induction Hs as [|g dags Hg _ IH]; intros d a b Hd Ha Hb; cbn [output_scan]; [by exists a, b|].
  pose proof (shape_ports g Hg).
  destruct (scan_first_in (fun k q => negb (bool_decide ((d, k) = inp)) && (pd_size q =? size)) (dm_ports g) 0 (Z.to_nat (dm_port_cnt g)))
    as (r & -> & Hr); [destruct Hg as (_ & -> & _); lia|].
  cbn [rd_bind]. cbn [length] in Hd. destruct r as [k|]; apply IH; lia.
Qed.

Lemma bind_at_in t h dk dags :
  Forall mfd_shape dags -> (fst dk < length dags)%nat -> (snd dk < MAX_PORT_CNT)%nat ->
  exists dags', bind_at t h dk dags = Val dags' /\ Forall mfd_shape dags' /\ length dags' = length dags.
Proof.
  intros Hs H1 H2. unfold bind_at. destruct (lookup_lt_is_Some_2 dags (fst dk) H1) as [d Hl]. rewrite Hl.
  assert (Hsd : mfd_shape d) by (rewrite Forall_forall in Hs; apply Hs; by eapply list_elem_of_lookup_2).
  destruct (bind_port_in (u64 (tn_phys_base t + hd_off h)) (hd_size h) (snd dk) d Hsd H2) as (d' & -> & Hd').
  eexists. split; [done|]. split; [by apply Forall_insert|apply length_insert].
Qed.

Lemma bind_handles_in t hin hout dags : Forall mfd_shape dags -> exists dags', bind_handles t hin hout dags = Val dags'.
Proof.
  intros Hs. unfold bind_handles. destruct dags as [|g rest] eqn:Ed; [by eexists|]. rewrite <- Ed in *.
  assert (Hl : (0 < length dags)%nat) by (rewrite Ed; cbn; lia). clear Ed g rest.
  destruct (input_port_in (hd_size hin) 0 dags Hs) as (j & k & -> & Hk & Hj). cbn [rd_bind].
  destruct (bind_at_in t hin (j, k) dags Hs) as (dags1 & -> & Hs1 & Hl1); [cbn; lia|done|]. cbn [rd_bind]. unfold output_port.
  destruct (lookup_lt_is_Some_2 dags1 (pred (length dags1))) as [g Hg]; [lia|]. rewrite Hg.
  assert (Hsg : mfd_shape g) by (rewrite Forall_forall in Hs1; apply Hs1; by eapply list_elem_of_lookup_2). pose proof (shape_ports g Hsg).
  set (b := if _ <? _ then _ else _). assert (Hb : (b < MAX_PORT_CNT)%nat).
  { unfold b. destruct (Z.ltb_spec 0 (dm_port_cnt g)); [lia|unfold MAX_PORT_CNT; lia]. }
  destruct (output_scan_in (hd_size hout) (j, k) 0 dags1 (pred (length dags1)) b (length dags1) Hs1) as (j2 & k2 & -> & Hk2 & Hj2);
    [lia|lia|done|]. cbn [rd_bind].
  destruct (bind_at_in t hout (j2, k2) dags1 Hs1) as (dags2 & -> & _); [done|done|]. by eexists.
Qed.

(** The templates of a reachable state. *)
Lemma reach_template c d id :
  cav_ok c -> List.find (dag_named id) (cv_dags c) = Some d ->
  let dags := take (Z.to_nat (rg_dag_cnt d)) (rg_template d) in length dags = Z.to_nat (rg_dag_cnt d) /\ Forall mfd_shape dags.
Proof.
  intros Hok [Hin%list_elem_of_In [Hd _]%andb_true_iff]%List.find_some. apply list_elem_of_lookup in Hin as [k Hk].
  destruct (iv_shape c Hok k d Hk Hd) as (_ & Ht & Hs). cbn zeta. rewrite length_take. split; [lia|by apply Forall_take].
Qed.

(** C31: in every state the proxy reaches, a run of a registered DAG reads and writes only its own copy of the request
    and the arrays of its own command, whatever the guest wrote: every read of the copy, every search through the ports
    of the command and every port that is bound is in range. The same holds for a run of the camera path. *)
Theorem registered_run_in_bounds i q cid dag_id in_id out_id w :
  cav_reach w -> (forall a n, length (io_arena i a n) = Z.to_nat n) -> (forall a n, Forall is_u8 (io_arena i a n)) ->
  (exists r, handle_run_registered_dag i q cid (fst w) = Val r) /\
  (exists r, cavalry_proxy_run_dag_with_handles i dag_id in_id out_id cid (fst w) = Val r).
Proof.
  intros Hw Hl Hu. apply cav_world_ok in Hw as (Hok & _ & _). generalize dependent (fst w). intros c Hok. split.
  - unfold handle_run_registered_dag. cbv zeta.
    destruct (mapped_tenant cid c) as [t|]; [|by eexists]. destruct (arena_check _ _ _ <? 0) eqn:Ea; [by eexists|].
    destruct (List.find _ _) as [d|] eqn:Ed; [|by eexists]. destruct (dag_foreign _ _ _); [by eexists|]. destruct (negb (io_malloc i)); [by eexists|].
    set (p := io_arena i _ _). assert (Hp : SIZEOF_RUN_REG <= Z.of_nat (length p)).
    { unfold p. rewrite Hl. unfold arena_check in Ea. cbv zeta in Ea. destruct (rp_arena_len q <? SIZEOF_RUN_REG) eqn:E1; [done|].
      apply Z.ltb_ge in E1. lia. }
    unfold SIZEOF_RUN_REG in Hp. read_in. destruct (Z.ltb_spec CAVALRY_MAX_PORTS v) as [|Hc]; [by eexists|].
    destruct (negb (io_calloc i)); [by eexists|]. unfold CAVALRY_MAX_PORTS in Hc. destruct (reach_template c d _ Hok Ed) as [Ht Hs].
    destruct (bind_ports_in t cid (rp_session q) c p 0 (Z.to_nat v) (rg_dag_cnt d) (take (Z.to_nat (rg_dag_cnt d)) (rg_template d)))
      as (r & -> & Hr); [apply Hu|lia|done|done|]. cbn [rd_bind]. destruct r as [e|dags]; [by eexists|].
    destruct (unbound_in dags Hr) as [b ->]. cbn [rd_bind]. destruct b; [by eexists|]. destruct (submit _ _ _) as [res evs]. by eexists.
  - unfold cavalry_proxy_run_dag_with_handles. cbv zeta. repeat (case_match; try (by eexists)).
    all: match goal with H : List.find _ _ = Some _ |- _ => destruct (reach_template c _ _ Hok H) as [_ Hs] end.
    all: edestruct bind_handles_in as [dags' ->]; [exact Hs|]. all: cbn [rd_bind]; destruct (submit _ _ _) as [[[[? ?] ?] ?] ?]; by eexists.
Qed.

End CavalryRunProps.
