(* ===== verification/CavalrySample.v ===== *)
(** * The proxy of the vector processor on a concrete machine

    [Module CavalrySample]: two guests with a slice each, a buffer, a registered DAG; the runs that show that the theorems
    on the proxy speak of something, and the runs that show where its checks fall short. *)

From stdpp Require Import base list.
From Stdlib Require Import ZArith Lia.
From S2P Require Import Prelude SliceGeometry SliceArena ByteBuf Cavalry CavalryRpc CavalryProps CavalryInv CavalryRunProps.
Import Geometry SliceArena Cavalry CavalryRpc CavalryProps CavalryInv CavalryRunProps.

Module CavalrySample.

(** [n] bytes, the [fields] written in. *)
Definition image (n : Z) (fields : list (Z * list Z)) : list Z :=
  fold_left (fun l f => take (Z.to_nat (fst f)) l ++ snd f ++ drop (Z.to_nat (fst f) + length (snd f)) l) fields (repeat 0 (Z.to_nat n)).
Definition cut (l : list Z) (n : Z) : list Z := take (Z.to_nat n) (l ++ repeat 0 (Z.to_nat n)).

(** A guest whose arena and staging memory hold these bytes, and a driver that says yes. *)
Definition env (arena staging : list Z) : io :=
  {| io_arena := fun _ n => cut arena n; io_staging := fun _ n => cut staging n; io_malloc := true; io_calloc := true;
     io_alloc := fun n => Some (0x310000000, n); io_fresh := fun n => repeat 0 (Z.to_nat n); io_mmap := Some 0x7000;
     io_run := fun _ => (0, 0, 0, 5); io_query := fun _ => (0, 0, 1); io_start := (0, 0); io_open := Some 5;
     io_probe := Some 0x400000000; io_guard := fun _ => None |}.

Definition phys0 : Z := 0x100000000.
Definition geometry : option amba_virt_slice_list :=
  snd (amba_virt_slice_compute_geometry phys0 (2 ^ 31) 4096 2 (Some (mk_list 0 (repeat (mk_desc 0 0 0 0 0) 8)))).
Definition started : cav := snd (cavalry_proxy_init (env [] []) 3 0x10000000 (2 ^ 31) phys0 geometry (Some 7) cav_boot).

Definition usable : Z := 2 ^ 30 - 4096.
Definition with_guest (cid idx : Z) (c : cav) : cav :=
  snd (cavalry_proxy_register_tenant cid idx (-1) (0x10000000 + idx * 2 ^ 30) usable (phys0 + idx * 2 ^ 30) (idx * 2 ^ 30) c).
Definition two_guests : cav := with_guest 4 1 (with_guest 3 0 started).

Definition ask (op dag_id off size arena_len : Z) : rpc :=
  {| rp_opcode := op; rp_status := 0; rp_session := 9; rp_dag_id := dag_id; rp_bar_offset := off; rp_size := size;
     rp_arena_len := arena_len; rp_rval := 0; rp_ticks := 0; rp_chip := 0 |}.
Definition arena_ask (op dag_id len : Z) : rpc := ask op dag_id CAVALRY_RPC_ARENA_OFFSET 0 len.

Definition state_after (r : rd (rpc * list dev * cav)) (c : cav) : cav := match r with Val (_, _, c') => c' | Oob => c end.
Definition status_of (r : rd (rpc * list dev * cav)) : option Z := match r with Val (q, _, _) => Some (rp_status q) | Oob => None end.
Definition runs_of (r : rd (rpc * list dev * cav)) : list run_mfd :=
  match r with Val (_, evs, _) => omap (fun e => match e with DvRun m => Some m | _ => None end) evs | Oob => [] end.

(** Guest 3 holds 64 KiB, then guest 4 does. *)
Definition alloc_mem : rpc := ask VCAV_OP_ALLOC_MEM 0 0 0x10000 0.
Definition first_alloc : rd (rpc * list dev * cav) := cavalry_proxy_handle_rpc (env [] []) alloc_mem 3 two_guests.
Definition held : cav := state_after first_alloc two_guests.
Definition both_held : cav := state_after (cavalry_proxy_handle_rpc (env [] []) alloc_mem 4 held) held.

Lemma first_alloc_ok : status_of first_alloc = Some 0.
Proof. vm_compute. reflexivity. Qed.

(** One descriptor: code of 4 KiB and one port of 256 bytes. *)
Definition dag_fields (at_ dvi img port : Z) : list (Z * list Z) :=
  [(at_ + 16, le_bytes 8 dvi); (at_ + 28, le_bytes 4 img); (at_ + 44, le_bytes 4 1); (at_ + 592, le_bytes 8 port ++ le_bytes 8 256)].
(** The part of a run request that holds something; the rest of its arena is zero. *)
Definition run_image : list Z := image 752 ((24, le_bytes 4 1) :: dag_fields 136 0x02000000 4096 0x02001000).
Definition run_request : rpc := arena_ask VCAV_OP_RUN_DAGS 0 8920.

(** A registration: 8 KiB of staging memory at the start of the buffer, one descriptor. *)
Definition reg_image (dvi img port : Z) : list Z :=
  image 812 ([(0, le_bytes 4 0x02000000); (4, le_bytes 4 8192); (84, le_bytes 4 1)] ++ dag_fields 196 dvi img port).
Definition reg_request : rpc := arena_ask VCAV_OP_REGISTER_DAG 0 8980.

(** A descriptor as a value. *)
Definition desc (dvi img port : Z) : dag_desc :=
  {| dd_flags := 0; dd_dep_cnt := 0; dd_dvi_dag_size := 0; dd_dvi := dvi; dd_img_vaddr := 0; dd_img_size := img; dd_dag_vaddr := 0;
     dd_scratch := 0; dd_rev_cnt := 0; dd_port_cnt := 1; dd_poke_cnt := 0; dd_xpoke_cnt := 0; dd_xpoke := 0; dd_xcommon := 0; dd_xlist := 0;
     dd_rev_ids := repeat 0 MAX_DEP_CNT;
     dd_ports := {| pd_addr := port; pd_size := 256; pd_boffset := 0; pd_incr := 0 |} ::
                 repeat {| pd_addr := 0; pd_size := 0; pd_boffset := 0; pd_incr := 0 |} 255;
     dd_pokes := repeat {| pk_val := 0; pk_vaddr := 0; pk_bsize := 0; pk_reserved := 0 |} MAX_POKE_CNT |}.

(** DAG 1 of guest 3, with the template a registration of that descriptor makes. *)
Definition host_copy : Z := 0x310000000.
Definition dag_one (d : dag_desc) : reg_dag :=
  {| rg_id := 1; rg_cid := 3; rg_owner_session := 9; rg_size := 8192; rg_phys := host_copy; rg_virt := 0x7000; rg_dag_cnt := 1; rg_nid := 0;
     rg_affinity := 0; rg_priority := 0; rg_hw_type := 0; rg_encrypt := 0; rg_resume := 0; rg_no_auto := 0; rg_sub := 0; rg_enc_session := 0;
     rg_template := [template host_copy 0x02000000 8192 d]; rg_mem := repeat 0 (Z.to_nat 8192); rg_in_use := true |}.

(** Guest 3 with two handles, then with DAG 1. *)
Definition handle_ask : rpc := ask VCAV_OP_ALLOC_HANDLE 0 0 256 0.
Definition one_handle : cav := state_after (cavalry_proxy_handle_rpc (env [] []) handle_ask 3 held) held.
Definition two_handles : cav := state_after (cavalry_proxy_handle_rpc (env [] []) handle_ask 3 one_handle) one_handle.
Definition with_dag (d : dag_desc) : cav := with_dags two_handles (<[0%nat := dag_one d]> (cv_dags two_handles)) 2.

(** A run of DAG 1 that binds its port to handle 1. *)
Definition bind_image : list Z := image 648 [(4, le_bytes 4 1); (16, le_bytes 4 1); (24, le_bytes 4 256)].
Definition bind_request : rpc := arena_ask VCAV_OP_RUN_REGISTERED_DAG 1 648.
Definition bound_run : rd (rpc * list dev * cav) :=
  handle_run_registered_dag (env bind_image []) bind_request 3 (with_dag (desc 0x02000000 4096 0x02001000)).

Lemma bound_run_ok : status_of bound_run = Some 0 /\ length (runs_of bound_run) = 1%nat.
Proof. vm_compute. done. Qed.

(** ** Where the checks fall short *)

(** The count of descriptors is not compared with the length of the request: a request of one header reads past its copy. *)
Theorem run_dags_overread : handle_run_dags (env run_image []) (arena_ask VCAV_OP_RUN_DAGS 0 136) 3 held = Oob.
Proof. vm_compute. reflexivity. Qed.

Theorem register_overread :
  handle_register_dag (env (reg_image 0x02000000 4096 0x02001000) []) (arena_ask VCAV_OP_REGISTER_DAG 0 196) 3 held = Oob.
Proof. vm_compute. reflexivity. Qed.

(** The address and descriptor of the first port of a run. *)
Definition first_port (m : run_mfd) : option (Z * Z) :=
  match rm_dags m with
  | d :: _ => match dm_ports d, dm_fds d with q :: _, fd :: _ => Some (pd_addr q, fd) | _, _ => None end
  | [] => None
  end.

(** A port that a registration leaves outside the staging memory keeps the address the guest wrote, marked as physical,
    and reaches the driver when it is run with no bindings. *)
Definition raw_run : rd (rpc * list dev * cav) :=
  handle_run_registered_dag (env (image 648 []) []) bind_request 3 (with_dag (desc 0x02000000 4096 0xF0000000)).
Theorem raw_port_reaches_driver : map first_port (runs_of raw_run) = [Some (0xF0000000, CAVALRY_DMABUF_FD_REPRESENT_PHYS)].
Proof. vm_compute. reflexivity. Qed.

(** The end of the code is checked modulo 2^64: code that starts 4 KiB before the end of the address space and is longer
    than the offset of the staging memory passes, and its command names memory 32 MiB before the private copy. *)
Theorem dvi_check_wraps :
  let dvi := 2 ^ 64 - 4096 in let img := 0x02000000 + 8192 in
  check_registered (reg_image dvi img 0x02001000) 0x02000000 8192 0 1 = Val 0 /\
  dm_dvi_off (template host_copy 0x02000000 8192 (desc dvi img 0x02001000)) = host_copy - 0x02000000 - 4096.
Proof. vm_compute. done. Qed.

(** The preload entries may lie over their own count: relocating the first one makes the count grow, and the loop leaves
    the copy. *)
Definition preload_image : list Z := image 1024 [(0, le_bytes 4 1); (4, le_bytes 4 1); (256, le_bytes 8 0x02000000)].
Theorem preload_overrun : relocate preload_image host_copy 0x02000000 1024 0x02000000 = Oob.
Proof. vm_compute. reflexivity. Qed.

(** Two guests hold a buffer at the same offset of their slices: the one that allocated second cannot free its own. *)
Theorem same_offset_free_refused :
  map (fun s => (sl_off s, sl_cid s)) (List.filter sl_in_use (cv_slices both_held)) = [(0x02000000, 3); (0x02000000, 4)] /\
  fst (cavalry_proxy_free 0x02000000 4 both_held) = - EPERM /\ fst (cavalry_proxy_free 0x02000000 3 both_held) = 0.
Proof. vm_compute. done. Qed.

(** The camera path runs a DAG while the proxy is drained: it neither asks nor counts. *)
Definition drained_dag : cav := cavalry_proxy_start_drain (with_dag (desc 0x02000000 4096 0x02001000)).
Theorem drain_misses_camera :
  cavalry_proxy_is_draining drained_dag = true /\ cavalry_proxy_wait_drained drained_dag = 0 /\
  match cavalry_proxy_run_dag_with_handles (env [] []) 1 1 2 3 drained_dag with
  | Val (r, _, evs, _) => r = 0 /\ existsb is_run evs = true
  | Oob => False
  end.
Proof. vm_compute. done. Qed.

(** ** The theorems on this machine *)

Lemma rpc_reach i q cid c :
  cav_reach (c, Idle) -> cid <> 0 -> 0 <= rp_size q -> cv_next_handle c < 2 ^ 32 - 1 -> cv_next_dag c < 2 ^ 32 - 1 ->
  cav_reach (state_after (cavalry_proxy_handle_rpc i q cid c) c, Idle).
Proof.
  intros Hr Hc Hs Hh Hd. unfold cavalry_proxy_handle_rpc. destruct (rpc_enter c) as [c1|] eqn:Ee; [|done].
  destruct (rpc_serve i q cid c1) as [[[resp evs] c2]|] eqn:Es; [|done]. cbn [rd_bind state_after].
  assert (Hc1 : cv_next_handle c1 = cv_next_handle c /\ cv_next_dag c1 = cv_next_dag c).
  { unfold rpc_enter in Ee. destruct (cv_draining c); [done|]. by injection Ee as <-. }
  destruct Hc1 as [E1 E2]. eapply CrStep; [|apply CsWork, WkLeave].
  eapply (CrStep (c1, Entered q cid)); [|eapply CsWork, WkServe; [by rewrite E1|by rewrite E2|exact Es]].
  eapply CrStep; [exact Hr|]. by apply CsWork, WkEnter.
Qed.

Lemma guest_reach cid idx c : cav_reach (c, Idle) -> cav_reach (with_guest cid idx c, Idle).
Proof.
  intros Hr. unfold with_guest. destruct (cavalry_proxy_register_tenant _ _ _ _ _ _ _ _) as [[r evs] c'] eqn:E.
  eapply CrStep; [exact Hr|]. by eapply CsWork, WkAdmin, AdRegister.
Qed.

Lemma two_guests_reach : cav_reach (two_guests, Idle).
Proof.
  apply guest_reach, guest_reach. unfold started. destruct (cavalry_proxy_init _ _ _ _ _ _ _ _) as [[r evs] c] eqn:E.
  by eapply CrInit.
Qed.

(** The counters of the states below are small. *)
Definition small (c : cav) : bool := (cv_next_handle c <? 100) && (cv_next_dag c <? 100).
Lemma small_counters c : small c = true -> cv_next_handle c < 2 ^ 32 - 1 /\ cv_next_dag c < 2 ^ 32 - 1.
Proof. unfold small. rewrite andb_true_iff, !Z.ltb_lt. lia. Qed.

Lemma small_reach i q cid c :
  small c = true -> cid <> 0 -> 0 <= rp_size q -> cav_reach (c, Idle) -> cav_reach (state_after (cavalry_proxy_handle_rpc i q cid c) c, Idle).
Proof. intros [H1 H2]%small_counters Hc Hs Hr. by apply rpc_reach. Qed.

Lemma held_reach : cav_reach (held, Idle).
Proof. apply (small_reach (env [] []) alloc_mem 3 two_guests); [vm_compute; reflexivity|done|done|exact two_guests_reach]. Qed.

Lemma one_handle_reach : cav_reach (one_handle, Idle).
Proof. apply (small_reach (env [] []) handle_ask 3 held); [vm_compute; reflexivity|done|done|exact held_reach]. Qed.

Lemma two_handles_reach : cav_reach (two_handles, Idle).
Proof. apply (small_reach (env [] []) handle_ask 3 one_handle); [vm_compute; reflexivity|done|done|exact one_handle_reach]. Qed.

(** What a registration leaves, whatever it is. *)
Definition registered : cav :=
  state_after (cavalry_proxy_handle_rpc (env (reg_image 0x02000000 4096 0x02001000) []) reg_request 3 two_handles) two_handles.

Lemma registered_reach : cav_reach (registered, Idle).
Proof.
  apply (small_reach (env (reg_image 0x02000000 4096 0x02001000) []) reg_request 3 two_handles);
    [vm_compute; reflexivity|done|done|exact two_handles_reach].
Qed.

Lemma cut_length l n : length (cut l n) = Z.to_nat n.
Proof. unfold cut. rewrite length_take, length_app, repeat_length. lia. Qed.

Lemma cut_u8 l n : forallb (fun b => (0 <=? b) && (b <? 256)) l = true -> Forall is_u8 (cut l n).
Proof.
  intros Hl. apply Forall_take, Forall_app. split.
  - apply Forall_forall. intros b Hb%list_elem_of_In.
    rewrite List.forallb_forall in Hl. specialize (Hl b Hb). apply andb_true_iff in Hl as [H1%Z.leb_le H2%Z.ltb_lt]. unfold is_u8. lia.
  - apply Forall_forall. intros b Hb%list_elem_of_In%repeat_spec. subst. done.
Qed.

Lemma guests_offsets c : cv_tenants c = cv_tenants two_guests -> Forall (fun t => 0 <= tn_slice_offset t) (cv_tenants c).
Proof.
  intros ->. assert (H : forallb (fun t => 0 <=? tn_slice_offset t) (cv_tenants two_guests) = true) by (vm_compute; reflexivity).
  apply Forall_forall. intros t Ht%list_elem_of_In. rewrite List.forallb_forall in H. by apply Z.leb_le, H.
Qed.

Lemma runs_of_in r m : m ∈ runs_of r -> exists resp evs c', r = Val (resp, evs, c') /\ DvRun m ∈ evs.
Proof.
  destruct r as [[[resp evs] c']|]; cbn; [|by intros ?%elem_of_nil]. intros (e & He & Hm)%list_elem_of_omap.
  exists resp, evs, c'. split; [done|]. destruct e; try done. by injection Hm as ->.
Qed.

Lemma one_run r : length (runs_of r) = 1%nat -> exists m resp evs c', r = Val (resp, evs, c') /\ DvRun m ∈ evs.
Proof.
  intros H. destruct (runs_of r) as [|m l] eqn:E; [done|]. exists m. apply runs_of_in. rewrite E. apply elem_of_cons. by left.
Qed.

Lemma rpc_frames_others_witness :
  exists resp evs c', cavalry_proxy_handle_rpc (env [] []) alloc_mem 3 two_guests = Val (resp, evs, c') /\ others_kept 3 two_guests c'.
Proof.
  pose proof first_alloc_ok as H. unfold first_alloc in H.
  destruct (cavalry_proxy_handle_rpc (env [] []) alloc_mem 3 two_guests) as [[[resp evs] c']|] eqn:E; [|done].
  exists resp, evs, c'. split; [done|]. apply (rpc_frames_others (env [] []) alloc_mem 3 two_guests resp evs c'); [done|exact E].
Defined.

Lemma cav_alloc_exact_witness :
  exists r c', cavalry_proxy_alloc 0x10000 3 9 two_guests = Some (r, c') /\ alloc_answer 0x10000 3 9 two_guests r c'.
Proof.
  pose proof (cav_world_ok _ two_guests_reach) as [Hok _].
  apply (cav_alloc_exact 0x10000 3 9 two_guests); [lia|apply Hok|apply caller_bounds, Hok].
Defined.

Lemma cav_reachable_ok_witness : world_ok (two_handles, Idle).
Proof. apply (cav_reachable_ok (two_handles, Idle)). exact two_handles_reach. Defined.

Lemma drained_stays_quiet_witness :
  exists evs c', cavalry_proxy_client_disconnect 3 (cavalry_proxy_start_drain two_handles) = (evs, c') /\ forall m, DvRun m ∉ evs.
Proof.
  destruct (cavalry_proxy_client_disconnect 3 (cavalry_proxy_start_drain two_handles)) as [evs c'] eqn:E. exists evs, c'. split; [done|].
  destruct (drained_stays_quiet (cavalry_proxy_start_drain two_handles, Idle) [(FromProxy, evs)] (c', Idle)) as [H _].
  - eapply CrStep; [exact two_handles_reach|]. apply CsWork, WkDrain.
  - reflexivity.
  - vm_compute. reflexivity.
  - eapply DpWork; [|apply DpNil]. eapply WkAdmin, AdDisconnect. exact E.
  - intros m Hm. specialize (H FromProxy evs m (list_elem_of_here _ _) Hm). discriminate H.
Defined.

(** The run request passes the checks. *)
Lemma run_checked :
  exists t, mapped_tenant 3 held = Some t /\ cv_path_b held = false /\ arena_check SIZEOF_RUN_DAGS run_request t = 0 /\
    u32_at (cut run_image 8920) 24 = Val 1 /\ check_dags 3 held (cut run_image 8920) 0 1 = Val 0.
Proof.
  assert (H : match mapped_tenant 3 held with Some t => arena_check SIZEOF_RUN_DAGS run_request t =? 0 | None => false end = true)
    by (vm_compute; reflexivity).
  destruct (mapped_tenant 3 held) as [t|]; [|done]. exists t. apply Z.eqb_eq in H. split_and!; [done|vm_compute; reflexivity|done|..].
  - vm_compute. reflexivity.
  - vm_compute. reflexivity.
Qed.

Lemma run_dags_submitted_witness :
  exists m resp, handle_run_dags (env run_image []) run_request 3 held =
    Val (resp, snd (submit (env run_image []) m held), cavalry_proxy_record_last_mfd m held) /\
    rm_dag_cnt m = 1 /\ length (rm_dags m) = 1%nat.
Proof.
  destruct run_checked as (t & Ht & Hb & Ha & Hc & Hk).
  apply (run_dags_submitted (env run_image []) run_request 3 held t 1 0).
  - exact Hb.
  - exact Ht.
  - rewrite Ha. lia.
  - reflexivity.
  - reflexivity.
  - apply cut_length.
  - exact Hc.
  - unfold MAX_DAG_CNT_CAP. lia.
  - unfold SIZEOF_RUN_DAGS, SIZEOF_DAG_DESC. cbn. lia.
  - exact Hk.
  - lia.
Defined.

Lemma run_happens :
  exists m resp evs c', handle_run_dags (env run_image []) run_request 3 held = Val (resp, evs, c') /\ DvRun m ∈ evs.
Proof.
  destruct run_checked as (t & Ht & Hb & Ha & Hc & Hk).
  destruct (run_dags_goes (env run_image []) run_request 3 held t 1 0) as (m & resp & E & _);
    [done|done|lia|done|done|apply cut_length|exact Hc|unfold MAX_DAG_CNT_CAP; lia|unfold SIZEOF_RUN_DAGS, SIZEOF_DAG_DESC; cbn; lia|exact Hk|lia|].
  eexists m, resp, _, _. split; [exact E|]. unfold submit. replace (mock held) with false by (vm_compute; reflexivity).
  apply elem_of_cons. by left.
Qed.

Lemma run_dags_confined_witness :
  cv_path_b held = false /\
  exists m t, cavalry_proxy_get_tenant 3 held = Some t /\ rm_dvi_fd m = tn_window_fd t /\ Forall (dag_confined 3 t held) (rm_dags m).
Proof.
  destruct run_happens as (m & resp & evs & c' & E & Hm).
  destruct (run_dags_confined (env run_image []) run_request 3 held resp evs c' m) as [Hb Ht].
  - done.
  - intros a n. apply cut_u8. vm_compute. reflexivity.
  - apply guests_offsets. vm_compute. reflexivity.
  - exact E.
  - exact Hm.
  - split; [exact Hb|]. exists m. exact Ht.
Defined.

Lemma run_dags_in_bounds_witness : exists r, handle_run_dags (env run_image []) run_request 3 held = Val r.
Proof.
  apply (run_dags_in_bounds (env run_image []) run_request 3 held).
  - intros a n. apply cut_length.
  - intros t cnt _ H. destruct run_checked as (_ & _ & _ & _ & Hc & _). cbn [io_arena env] in H.
    change (rp_arena_len run_request) with 8920 in *. rewrite Hc in H. injection H as <-. unfold SIZEOF_RUN_DAGS, SIZEOF_DAG_DESC. lia.
Defined.

Lemma registered_run_confined_witness :
  let c := with_dag (desc 0x02000000 4096 0x02001000) in
  exists m t d, cavalry_proxy_get_tenant 3 c = Some t /\ d ∈ cv_dags c /\ rg_in_use d = true /\ rg_id d = 1 /\
    rg_cid d = 3 /\ rg_owner_session d = 9 /\ m = command d (rm_dags m) /\
    Forall2 (bound_from 3 9 t c) (take (Z.to_nat (rg_dag_cnt d)) (rg_template d)) (rm_dags m).
Proof.
  intros c. destruct (one_run bound_run (proj2 bound_run_ok)) as (m & resp & evs & c' & E & Hm). exists m.
  apply (registered_run_confined (env bind_image []) bind_request 3 c resp evs c' m).
  - done.
  - intros a n. apply cut_u8. vm_compute. reflexivity.
  - apply guests_offsets. vm_compute. reflexivity.
  - assert (H : forallb (fun h => 0 <=? hd_off h) (cv_handles c) = true) by (vm_compute; reflexivity).
    apply Forall_forall. intros h Hh%list_elem_of_In. rewrite List.forallb_forall in H. by apply Z.leb_le, H.
  - exact E.
  - exact Hm.
Defined.

Lemma registered_run_in_bounds_witness :
  (exists r, handle_run_registered_dag (env bind_image []) bind_request 3 registered = Val r) /\
  (exists r, cavalry_proxy_run_dag_with_handles (env bind_image []) 1 1 2 3 registered = Val r).
Proof.
  apply (registered_run_in_bounds (env bind_image []) bind_request 3 1 1 2 (registered, Idle)).
  - exact registered_reach.
  - intros a n. apply cut_length.
  - intros a n. apply cut_u8. vm_compute. reflexivity.
Defined.

End CavalrySample.
