(* ===== verification/HostWindow.v ===== *)
(** * The window of the host kernel module (amba_virt_nohyper.c, amba_virt_core.c)

    The host module owns one physical window and publishes it as slices, each behind a device node. The first open of
    a node draws a nonce and writes it into the claim page of the slice, where only the guest that maps the slice can
    read it; the guest sends the nonce back and the slice is bound to its id. The module also maps the window and its
    slices into processes, exports them as DMA buffers and copies inside the window with the DMA engine.

    [h_mem] is the physical memory. What the kernel answers (whether a mapping succeeds, random numbers, the backing
    file) is an argument. *)

From stdpp Require Import base list.
From Stdlib Require Import ZArith Lia.
From S2P Require Import Prelude SliceGeometry SliceArena.
Import Geometry SliceArena.

Module HostWindow.

Definition PAGE_SIZE : Z := 4096.
Definition PAGE_SHIFT : Z := 12.
Definition AMBA_VIRT_GUEST_BAR_SIZE : Z := 2 ^ 30.
Definition AMBA_VIRT_SLICE_CLAIM_MAGIC : Z := 0x414d5343.
Definition AMBA_VIRT_GDMA_F_PITCH : Z := 1.

(** ** State *)

(** [struct amba_virt_slice_state] *)
Record slice_state := { ss_desc : amba_virt_slice_desc; ss_nonce : Z; ss_cid : Z; ss_open : Z }.

Definition desc0 : amba_virt_slice_desc := mk_desc 0 0 0 0 0.
Definition state0 : slice_state := {| ss_desc := desc0; ss_nonce := 0; ss_cid := 0; ss_open := 0 |}.

(** The globals, and the fields of the first device. *)
Record host := {
  h_phys : Z; h_size : Z; h_file : bool; h_list : amba_virt_slice_list; h_states : list slice_state; h_published : bool;
  h_nodes : Z; h_gdma : bool; h_held : bool; h_mem : Z -> Z }.

(** The module when it is loaded. *)
Definition host0 (mem : Z -> Z) : host :=
  {| h_phys := 0; h_size := 0; h_file := false; h_list := mk_list 0 (repeat desc0 8); h_states := repeat state0 8; h_published := false;
     h_nodes := 0; h_gdma := false; h_held := false; h_mem := mem |}.

Definition set_states (h : host) (l : list slice_state) : host :=
  {| h_phys := h_phys h; h_size := h_size h; h_file := h_file h; h_list := h_list h; h_states := l; h_published := h_published h;
     h_nodes := h_nodes h; h_gdma := h_gdma h; h_held := h_held h; h_mem := h_mem h |}.
Definition set_size (h : host) (size : Z) (file : bool) : host :=
  {| h_phys := h_phys h; h_size := size; h_file := file; h_list := h_list h; h_states := h_states h; h_published := h_published h;
     h_nodes := h_nodes h; h_gdma := h_gdma h; h_held := h_held h; h_mem := h_mem h |}.
Definition set_window (h : host) (phys size : Z) (held : bool) : host :=
  {| h_phys := phys; h_size := size; h_file := h_file h; h_list := h_list h; h_states := h_states h; h_published := h_published h;
     h_nodes := h_nodes h; h_gdma := h_gdma h; h_held := held; h_mem := h_mem h |}.
Definition set_mem (h : host) (m : Z -> Z) : host :=
  {| h_phys := h_phys h; h_size := h_size h; h_file := h_file h; h_list := h_list h; h_states := h_states h; h_published := h_published h;
     h_nodes := h_nodes h; h_gdma := h_gdma h; h_held := h_held h; h_mem := m |}.

(** [memcpy] to physical address [a], and back. *)
Definition mem_write (m : Z -> Z) (a : Z) (bs : list Z) : Z -> Z :=
  fun x => if a <=? x then match bs !! Z.to_nat (x - a) with Some b => b | None => m x end else m x.
Definition mem_read (m : Z -> Z) (a : Z) (n : nat) : list Z := map (fun k => m (a + Z.of_nat k)) (seq 0 n).

(** ** The claim page *)

(** [struct amba_virt_slice_claim] as bytes. *)
Definition claim_bytes (idx usable nonce : Z) : list Z :=
  le_bytes 4 AMBA_VIRT_SLICE_CLAIM_MAGIC ++ le_bytes 4 idx ++ le_bytes 4 usable ++ le_bytes 4 0 ++ le_bytes 8 nonce.
Definition SIZEOF_CLAIM : Z := 24.

(** [amba_virt_write_slice_claim]; [wt] and [wb]: the two ways to map the page work. *)
Definition amba_virt_write_slice_claim (wt wb : bool) (idx : Z) (d : amba_virt_slice_desc) (nonce : Z) (h : host) : host :=
  let claim_phys := u64 (phys d + usable_size d) in
  if wt || wb then
    let bs := claim_bytes idx (usable_size d) nonce in
    set_mem h (mem_write (mem_write (h_mem h) claim_phys bs) (claim_phys + PAGE_SIZE - SIZEOF_CLAIM) bs)
  else h.

(** ** The slices *)

Definition amba_virt_slice_get_list (h : host) : amba_virt_slice_list := h_list h.

Definition amba_virt_slice_get_desc (idx : Z) (h : host) : Z + amba_virt_slice_desc :=
  if idx <? count (h_list h) then inr (ss_desc (default state0 (h_states h !! Z.to_nat idx))) else inl (- ENOENT).

(** The first [count] states. *)
Definition live (h : host) : list slice_state := take (Z.to_nat (count (h_list h))) (h_states h).

Definition with_cid (s : slice_state) (cid : Z) : slice_state :=
  {| ss_desc := ss_desc s; ss_nonce := ss_nonce s; ss_cid := cid; ss_open := ss_open s |}.

(** [amba_virt_slice_bind]: a negative errno, or the descriptor of the slice. *)
Definition amba_virt_slice_bind (cid nonce : Z) (h : host) : (Z + amba_virt_slice_desc) * host :=
  if cid <=? 2 then (inl (- EINVAL), h)
  else if nonce =? 0 then (inl (- ENOENT), h)
  else
    match find_idx (fun s => ss_nonce s =? nonce) (live h) with
    | None => (inl (- ENOENT), h)
    | Some i =>
        let s := default state0 (h_states h !! i) in
        if negb (ss_cid s =? 0) && negb (ss_cid s =? cid) then (inl (- EBUSY), h)
        else if existsb (fun js => negb (Nat.eqb (fst js) i) && (ss_cid (snd js) =? cid)) (imap pair (live h)) then (inl (- EBUSY), h)
        else (inr (ss_desc s), set_states h (<[i := with_cid s cid]> (h_states h)))
    end.

(** [amba_virt_slice_get_bindings]: the ids with their slices. *)
Definition amba_virt_slice_get_bindings (h : host) : list (Z * amba_virt_slice_desc) :=
  take 8 (map (fun s => (ss_cid s, ss_desc s)) (List.filter (fun s => negb (ss_cid s =? 0)) (live h))).

(** The first [n] entries changed by [f]. *)
Definition over_first {A} (n : nat) (f : A -> A) (l : list A) : list A := imap (fun i x => if (i <? n)%nat then f x else x) l.

(** [amba_virt_slice_unbind_cid] *)
Definition amba_virt_slice_unbind_cid (cid : Z) (h : host) : host :=
  if cid =? 0 then h
  else set_states h (over_first (Z.to_nat (count (h_list h))) (fun s => if ss_cid s =? cid then with_cid s 0 else s) (h_states h)).

(** The loop that draws a nonce that is not 0; [None] while every number drawn is 0. *)
Fixpoint draw_nonce (random : list Z) : option Z :=
  match random with
  | [] => None
  | r :: rest => if r =? 0 then draw_nonce rest else Some r
  end.

(** [amba_virt_slice_open]; [None] is a loop that still draws. *)
Definition amba_virt_slice_open (wt wb : bool) (random : list Z) (idx : Z) (h : host) : option (Z * host) :=
  if idx <? count (h_list h) then
    let i := Z.to_nat idx in
    let s := default state0 (h_states h !! i) in
    let n := ss_open s + 1 in
    if n =? 1 then
      match draw_nonce random with
      | None => None
      | Some nonce =>
          let h1 := set_states h (<[i := {| ss_desc := ss_desc s; ss_nonce := nonce; ss_cid := 0; ss_open := n |}]> (h_states h)) in
          Some (0, amba_virt_write_slice_claim wt wb idx (ss_desc s) nonce h1)
      end
    else Some (0, set_states h (<[i := {| ss_desc := ss_desc s; ss_nonce := ss_nonce s; ss_cid := ss_cid s; ss_open := n |}]> (h_states h)))
  else Some (- ENODEV, h).

(** [amba_virt_slice_release] *)
Definition amba_virt_slice_release (idx : Z) (h : host) : host :=
  if idx <? count (h_list h) then
    let i := Z.to_nat idx in
    let s := default state0 (h_states h !! i) in
    let n := ss_open s - 1 in
    let s' := if n <=? 0 then {| ss_desc := ss_desc s; ss_nonce := 0; ss_cid := 0; ss_open := 0 |}
              else {| ss_desc := ss_desc s; ss_nonce := ss_nonce s; ss_cid := ss_cid s; ss_open := n |} in
    set_states h (<[i := s']> (h_states h))
  else h.

(** ** The window *)

Definition amba_virt_window_ok (p size : Z) : Z :=
  if (p =? 0) || (size =? 0) || negb (p mod PAGE_SIZE =? 0) || negb (size mod PAGE_SIZE =? 0) || (2 ^ 64 <=? p + size) then - EINVAL else 0.

(** [amba_virt_publish_slices]; [slice_count] is the module parameter. *)
Definition amba_virt_publish_slices (slice_count : Z) (h : host) : host :=
  if (h_phys h =? 0) || h_published h then h
  else
    let blank := mk_list 0 (repeat desc0 8) in
    let '(ret, out) := amba_virt_slice_compute_geometry (h_phys h) (h_size h) PAGE_SIZE slice_count (Some blank) in
    let l := default blank out in
    let states := if (ret =? 0) && (0 <? count l) then
                    imap (fun i s => if (i <? Z.to_nat (count l))%nat
                                     then {| ss_desc := default desc0 (slices l !! i); ss_nonce := 0; ss_cid := 0; ss_open := 0 |} else s)
                         (repeat state0 8)
                  else repeat state0 8 in
    {| h_phys := h_phys h; h_size := h_size h; h_file := h_file h; h_list := l; h_states := states; h_published := true;
       h_nodes := count l; h_gdma := true; h_held := h_held h; h_mem := h_mem h |}.

(** [amba_virt_ensure_window]; [get] is what the window symbol of the processor's driver gives: [None] when there is no
    symbol, [Some None] when the call fails. *)
Definition amba_virt_ensure_window (slice_count : Z) (get : option (option (Z * Z))) (h : host) : host :=
  if negb (h_phys h =? 0) && negb (h_size h =? 0) then amba_virt_publish_slices slice_count h
  else
    match get with
    | Some (Some (p, size)) =>
        let span := u64 (slice_count * AMBA_VIRT_GUEST_BAR_SIZE) in
        if (span =? 0) || (size <? span) then h
        else if negb (amba_virt_window_ok p span =? 0) then h
        else amba_virt_publish_slices slice_count (set_window h p span true)
    | _ => h
    end.

(** [amba_virt_attach_shm]: [isize] is the size of the file that is attached, [opened] what opening it gives. *)
Definition amba_virt_attach_shm (isize : Z) (opened : Z + Z) (h : host) : Z * host :=
  if h_file h then (0, if 0 <? isize then set_size h isize true else h)
  else
    match opened with
    | inl e => (e, h)
    | inr size => if size <=? 0 then (- EINVAL, h) else (0, set_size h size true)
    end.

(** [amba_virt_host_init]: the window is found, the first device is set up ([first] is what that returns) and attached,
    and the slices are published. *)
Definition clamp_count (n : Z) : Z := if n <? 1 then 1 else if 8 <? n then 8 else n.
Definition amba_virt_host_init (vsock_port shm_phys shm_size slice_count : Z) (get : option (option (Z * Z))) (first isize : Z)
    (opened : Z + Z) (h : host) : Z * host :=
  if vsock_port =? 2000 then (- EINVAL, h)
  else
    let n := clamp_count slice_count in
    let span := u64 (n * AMBA_VIRT_GUEST_BAR_SIZE) in
    if negb (shm_phys =? 0) && ((span =? 0) || (shm_size <? span) || negb (amba_virt_window_ok shm_phys span =? 0)) then (- EINVAL, h)
    else
      let h1 := if negb (shm_phys =? 0) then set_window h shm_phys span (h_held h) else amba_virt_ensure_window n get h in
      if negb (first =? 0) then (first, set_window h1 (h_phys h1) (h_size h1) false)
      else (0, amba_virt_publish_slices n (snd (amba_virt_attach_shm isize opened h1))).

(** ** Mappings *)

(** [struct vm_area_struct] *)
Record vma := { vm_start : Z; vm_end : Z; vm_pgoff : Z }.

(** What a mapping is: the backing file's own, or pages of physical memory. *)
Inductive mapping :=
| FileMap
| PhysMap (pfn len : Z).

Definition PHYS_PFN (a : Z) : Z := Z.shiftr a PAGE_SHIFT.

(** The range check the mappings share: an offset and a length against [limit] bytes. *)
Definition map_check (v : vma) (limit : Z) : option Z :=
  if Z.shiftr limit PAGE_SHIFT <? vm_pgoff v then None
  else
    let off := u64 (Z.shiftl (vm_pgoff v) PAGE_SHIFT) in
    if (limit <? off) || (limit - off <? u64 (vm_end v - vm_start v)) then None else Some off.

(** [amba_virt_mmap_window]; [has_mmap]: the file system of the backing file maps files. *)
Definition amba_virt_mmap_window (isize : Z) (opened : Z + Z) (has_mmap : bool) (v : vma) (h0 : host) : (Z + mapping) * host :=
  let h := snd (amba_virt_attach_shm isize opened h0) in
  (if h_size h =? 0 then inl (- ENODEV)
   else
     match map_check v (h_size h) with
     | None => inl (- EINVAL)
     | Some off =>
         if h_file h && has_mmap then inr FileMap
         else if negb (h_phys h =? 0) then inr (PhysMap (PHYS_PFN (u64 (h_phys h + off))) (u64 (vm_end v - vm_start v)))
         else inl (- ENODEV)
     end, h).

(** [amba_virt_mmap_slice] on the host *)
Definition amba_virt_mmap_slice (isize : Z) (opened : Z + Z) (v : vma) (idx : Z) (h0 : host) : (Z + mapping) * host :=
  let h := snd (amba_virt_attach_shm isize opened h0) in
  (if h_phys h =? 0 then inl (- ENODEV)
   else
     match amba_virt_slice_get_desc idx h with
     | inl _ => inl (- EINVAL)
     | inr d =>
         if slice_size d =? 0 then inl (- EINVAL)
         else if h_size h <=? offset d then inl (- EINVAL)
         else
           match map_check v (slice_size d) with
           | None => inl (- EINVAL)
           | Some off => inr (PhysMap (PHYS_PFN (u64 (u64 (h_phys h + offset d) + off))) (u64 (vm_end v - vm_start v)))
           end
     end, h).

(** ** DMA buffers *)

(** [struct amba_virt_dmabuf_priv] *)
Record dmabuf := { db_offset : Z; db_size : Z }.

(** [amba_virt_export_dmabuf_slice] on the host; the last three arguments are the kernel's. *)
Definition amba_virt_export_dmabuf_slice (slice_count : Z) (get : option (option (Z * Z))) (isize : Z) (opened : Z + Z)
    (idx off size : Z) (alloc : bool) (exported fd : Z) (h0 : host) : (Z + Z * dmabuf) * host :=
  let h := snd (amba_virt_attach_shm isize opened (amba_virt_ensure_window slice_count get h0)) in
  (if (h_phys h =? 0) || (h_size h =? 0) then inl (- ENODEV)
   else
     let '(off, size) := match amba_virt_slice_get_desc idx h with
                         | inr d => (if (off =? 0) && (0 <? idx) then offset d else off, if size =? 0 then slice_size d else size)
                         | inl _ => (off, size)
                         end in
     let size := if size =? 0 then h_size h else size in
     if h_size h <? u64 (off + size) then inl (- EINVAL)
     else if negb alloc then inl (- ENOMEM)
     else if exported <? 0 then inl exported
     else if fd <? 0 then inl fd
     else inr (fd, {| db_offset := off; db_size := size |}), h).

(** [amba_virt_export_dmabuf]: the size is read before the call. *)
Definition amba_virt_export_dmabuf (slice_count : Z) (get : option (option (Z * Z))) (isize : Z) (opened : Z + Z)
    (alloc : bool) (exported fd : Z) (h : host) : (Z + Z * dmabuf) * host :=
  amba_virt_export_dmabuf_slice slice_count get isize opened 0 0 (h_size h) alloc exported fd h.

(** [amba_virt_dmabuf_map]: the address and length of the one segment. *)
Definition amba_virt_dmabuf_map (table segment : Z) (b : dmabuf) (h : host) : Z + Z * Z :=
  if table <? 0 then inl (- ENOMEM) else if negb (segment =? 0) then inl segment else inr (u64 (h_phys h + db_offset b), db_size b).

(** [amba_virt_dmabuf_mmap] *)
Definition amba_virt_dmabuf_mmap (v : vma) (b : dmabuf) (h : host) : Z + mapping :=
  match map_check v (db_size b) with
  | None => inl (- EINVAL)
  | Some off => inr (PhysMap (PHYS_PFN (u64 (u64 (h_phys h + db_offset b) + off))) (u64 (vm_end v - vm_start v)))
  end.

(** ** Copies *)

(** [struct amba_virt_gdma_copy] *)
Record gdma_copy := { gc_src : Z; gc_dst : Z; gc_len : Z; gc_flags : Z; gc_spitch : Z; gc_dpitch : Z; gc_width : Z; gc_height : Z }.

(** What the DMA engine is asked to do, at physical addresses. *)
Inductive gdma_job :=
| LinearCopy (dst src len : Z)
| PitchCopy (dst src dpitch spitch width height : Z).

(** [amba_virt_host_gdma_copy], up to the call of the engine: a negative errno, or the job. *)
Definition amba_virt_host_gdma_copy (c : gdma_copy) (h : host) : Z + gdma_job :=
  if (h_phys h =? 0) || (h_size h =? 0) then inl (- ENODEV)
  else if negb (Z.land (gc_flags c) (not32 AMBA_VIRT_GDMA_F_PITCH) =? 0) then inl (- EINVAL)
  else if negb (Z.land (gc_flags c) AMBA_VIRT_GDMA_F_PITCH =? 0) then
    if (gc_height c =? 0) || (gc_width c =? 0) || (4096 <? gc_width c) || (gc_spitch c <? gc_width c) || (gc_dpitch c <? gc_width c) ||
       negb (Z.land (u32 (gc_spitch c * gc_height c)) 1 =? 0)
    then inl (- EINVAL)
    else
      let src_end := u64 (gc_src c + u64 ((gc_height c - 1) * gc_spitch c) + gc_width c) in
      let dst_end := u64 (gc_dst c + u64 ((gc_height c - 1) * gc_dpitch c) + gc_width c) in
      if (h_size h <? src_end) || (h_size h <? dst_end) then inl (- ERANGE)
      else if (gc_src c <? dst_end) && (gc_dst c <? src_end) then inl (- EINVAL)
      else inr (PitchCopy (u64 (h_phys h + gc_dst c)) (u64 (h_phys h + gc_src c)) (gc_dpitch c) (gc_spitch c) (gc_width c) (gc_height c))
  else if (gc_len c =? 0) || negb (Z.land (gc_len c) 1 =? 0) then inl (- EINVAL)
  else
    let src_end := gc_src c + gc_len c in
    let dst_end := gc_dst c + gc_len c in
    if (h_size h <? src_end) || (h_size h <? dst_end) then inl (- ERANGE)
    else if (gc_src c <? dst_end) && (gc_dst c <? src_end) then inl (- EINVAL)
    else inr (LinearCopy (u64 (h_phys h + gc_dst c)) (u64 (h_phys h + gc_src c)) (gc_len c)).

(** ** The nodes of the slices *)

(** [amba_virt_shm_node_open]: the errno, the size the inode is given and the state. *)
Definition amba_virt_shm_node_open (wt wb : bool) (random : list Z) (idx : Z) (h : host) : option (Z * option Z * host) :=
  match amba_virt_slice_open wt wb random idx h with
  | None => None
  | Some (ret, h1) =>
      if negb (ret =? 0) then Some (ret, None, h1)
      else Some (0, match amba_virt_slice_get_desc idx h1 with inr d => Some (slice_size d) | inl _ => None end, h1)
  end.

Definition amba_virt_shm_release_idx (idx : Z) (h : host) : Z * host := (0, amba_virt_slice_release idx h).

(** The commands of a slice node. *)
Inductive shm_cmd := ShmGetSlice | ShmExport | ShmOther.
Inductive shm_answer :=
| ShmDesc (d : amba_virt_slice_desc)
| ShmFd (fd : Z) (b : dmabuf).

(** [amba_virt_shm_ioctl_idx]; [copied]: the answer can be copied to the caller. *)
Definition amba_virt_shm_ioctl_idx (slice_count : Z) (get : option (option (Z * Z))) (isize : Z) (opened : Z + Z) (alloc : bool)
    (exported fd : Z) (copied : bool) (cmd : shm_cmd) (idx : Z) (h : host) : (Z + shm_answer) * host :=
  match amba_virt_slice_get_desc idx h with
  | inl e => (inl e, h)
  | inr d =>
      match cmd with
      | ShmGetSlice => (if copied then inr (ShmDesc d) else inl (- EFAULT), h)
      | ShmExport =>
          let '(r, h1) := amba_virt_export_dmabuf_slice slice_count get isize opened idx (offset d) (slice_size d) alloc exported fd h in
          (match r with
           | inl e => inl e
           | inr (f, b) => if copied then inr (ShmFd f b) else inl (- EFAULT)
           end, h1)
      | ShmOther => (inl (- ENOTTY), h)
      end
  end.

End HostWindow.
