(* ===== verification/HostWindowProps.v ===== *)
(** * The window of the host module: slices, bindings, mappings and copies

    [Module HostWindowProps]: over every sequence of opens, closes, bindings and unbindings the slices tile the window, a
    slice has a nonce exactly while its node is open and a guest is bound to at most one slice ([host_reachable_ok]); what
    a binding needs ([bind_iff]); mappings and copies stay where they belong ([mmap_slice_confined],
    [gdma_job_confined]); what a backing file does to all that ([file_resizes_window]). *)

From stdpp Require Import base list.
From Stdlib Require Import ZArith Lia.
From S2P Require Import Prelude SliceGeometry SliceArena HostWindow.
Import Geometry SliceArena HostWindow.

Module HostWindowProps.

(** ** The published slices *)

Definition BAR : Z := AMBA_VIRT_GUEST_BAR_SIZE.

(** The descriptor of BAR [i] of the window at [p]. *)
Definition bar_desc (p : Z) (i : nat) : amba_virt_slice_desc :=
  mk_desc (Z.of_nat i) (BAR - PAGE_SIZE) (Z.of_nat i * BAR) (p + Z.of_nat i * BAR) BAR.

(** A window of [n] BARs that the module accepts. *)
Definition window_good (n : nat) (p : Z) : Prop :=
  (1 <= n <= 8)%nat /\ 0 < p /\ p mod PAGE_SIZE = 0 /\ p + Z.of_nat n * BAR < 2 ^ 64.

Lemma geometry_bars n p :
  window_good n p ->
  exists arr, amba_virt_slice_compute_geometry p (Z.of_nat n * BAR) PAGE_SIZE (Z.of_nat n) (Some (mk_list 0 (repeat desc0 8))) =
    (0, Some (mk_list (Z.of_nat n) arr)) /\ forall i, (i < n)%nat -> arr !! i = Some (bar_desc p i).
Proof.
  intros (Hn & Hp & _ & He). unfold amba_virt_slice_compute_geometry, BAR, AMBA_VIRT_GUEST_BAR_SIZE, PAGE_SIZE in *.
  change (2 ^ 30) with 1073741824 in *. rewrite (Z.mul_comm (Z.of_nat n)), Z.div_mul by lia.
  destruct (Z.eqb_spec (1073741824 * Z.of_nat n) 0); [lia|]. destruct (Z.eqb_spec (Z.of_nat n) 0); [lia|].
  rewrite Z.gtb_ltb. destruct (Z.ltb_spec 8 (Z.of_nat n)); [lia|].
  replace ((1073741824 * Z.of_nat n) mod 4096) with 0 by (replace (1073741824 * Z.of_nat n) with (262144 * Z.of_nat n * 4096) by lia; rewrite Z.mod_mul; lia).
  rewrite u64_id by lia. rewrite !Z.eqb_refl. cbn [orb negb Z.eqb]. change (1073741824 mod 4096 =? 0) with true. change (1073741824 <=? 4096) with false. cbn [negb].
  eexists. split; [done|]. intros i Hi. cbn [slices]. rewrite fill_slices_lookup by (rewrite ?repeat_length; lia).
  unfold slice_at, bar_desc, BAR, AMBA_VIRT_GUEST_BAR_SIZE, PAGE_SIZE. change (2 ^ 30) with 1073741824. by rewrite !u64_id by lia.
Qed.

(** ** The invariant *)

(** Slice [i], held by the open files [files]. *)
Definition slot_ok (files : list nat) (i : nat) (s : slice_state) : Prop :=
  ss_open s = Z.of_nat (count_occ Nat.eq_dec files i) /\ (ss_nonce s = 0 <-> ss_open s = 0) /\
  (ss_cid s <> 0 -> 2 < ss_cid s /\ ss_nonce s <> 0).

Definition slots_ok (files : list nat) (l : list slice_state) : Prop :=
  (forall i s, l !! i = Some s -> slot_ok files i s) /\
  forall i j s t, l !! i = Some s -> l !! j = Some t -> ss_cid s = ss_cid t -> ss_cid s <> 0 -> i = j.

(** The window is not there yet, or published as [n] slices. *)
Inductive window_state (n : nat) (h : host) : Prop :=
| WsNone : h_phys h = 0 -> h_size h = 0 -> h_published h = false -> count (h_list h) = 0 -> window_state n h
| WsSome : window_good n (h_phys h) -> h_size h = Z.of_nat n * BAR -> h_published h = true -> count (h_list h) = Z.of_nat n ->
    (forall i s, h_states h !! i = Some s -> (i < n)%nat -> ss_desc s = bar_desc (h_phys h) i) -> window_state n h.

Record host_ok (n : nat) (h : host) (files : list nat) : Prop := {
  ho_file : h_file h = false;
  ho_len : length (h_states h) = 8%nat;
  ho_window : window_state n h;
  ho_slots : slots_ok files (h_states h);
  ho_files : Forall (fun i => Z.of_nat i < count (h_list h)) files }.

(** One slice changes, and perhaps the files that hold it. *)
Lemma slots_update files files' l i s s' :
  slots_ok files l -> l !! i = Some s -> slot_ok files' i s' ->
  (forall j, j <> i -> count_occ Nat.eq_dec files' j = count_occ Nat.eq_dec files j) ->
  (ss_cid s' = 0 \/ forall j t, j <> i -> l !! j = Some t -> ss_cid t <> ss_cid s') -> slots_ok files' (<[i := s']> l).
Proof.
  intros [H1 H2] Hi Hs Hf Hd. split.
  - intros j t [[-> ->]|[Hj Ht]]%lookup_insert_inv; [done|]. destruct (H1 j t Ht) as (O & N & C).
    split_and!; [by rewrite Hf|done|done].
  - intros j k t u [[-> ->]|[Hj Ht]]%lookup_insert_inv [[-> ->]|[Hk Hu]]%lookup_insert_inv He Hn; [done| | |by eapply H2].
    + destruct Hd as [Hd|Hd]; [done|]. by destruct (Hd k u Hk Hu).
    + destruct Hd as [Hd|Hd]; [congruence|]. by destruct (Hd j t Hj Ht).
Qed.

Lemma window_update n h i s' s :
  window_state n h -> h_states h !! i = Some s -> ss_desc s' = ss_desc s -> window_state n (set_states h (<[i := s']> (h_states h))).
Proof.
  intros [P1 P2 P3 P4|G P1 P2 P3 P4] Hi Hd; [by apply WsNone|]. apply WsSome; try done. cbn.
  intros j t [[-> ->]|[_ Ht]]%lookup_insert_inv Hj; [rewrite Hd|]; by apply P4.
Qed.

(** The update of one slice keeps the invariant. *)
Lemma host_update n h files files' i s s' :
  host_ok n h files -> h_states h !! i = Some s -> ss_desc s' = ss_desc s -> slot_ok files' i s' ->
  (forall j, j <> i -> count_occ Nat.eq_dec files' j = count_occ Nat.eq_dec files j) ->
  (ss_cid s' = 0 \/ forall j t, j <> i -> h_states h !! j = Some t -> ss_cid t <> ss_cid s') ->
  Forall (fun j => Z.of_nat j < count (h_list h)) files' ->
  host_ok n (set_states h (<[i := s']> (h_states h))) files'.
Proof.
  intros [I1 I2 I3 I4 I5] Hi Hd Hs Hf Hc Hf'. split; cbn.
  - done.
  - by rewrite length_insert.
  - by eapply window_update.
  - by eapply slots_update.
  - done.
Qed.

Lemma count_le n h files : host_ok n h files -> (n <= 8)%nat -> count (h_list h) <= 8.
Proof. intros [_ _ [_ _ _ E|_ _ _ E _] _ _] Hn; lia. Qed.

Lemma state_at n h files i : host_ok n h files -> (n <= 8)%nat -> Z.of_nat i < count (h_list h) -> exists s, h_states h !! i = Some s.
Proof. intros Ho Hn Hi. pose proof (count_le _ _ _ Ho Hn). apply lookup_lt_is_Some_2. rewrite (ho_len _ _ _ Ho). lia. Qed.

(** ** Publishing *)

Lemma slots_blank : slots_ok [] (repeat state0 8).
Proof.
  split.
  - intros i s ->%repeat_lookup. split_and!; cbn; [done|done|congruence].
  - intros i j s t ->%repeat_lookup. cbn. congruence.
Qed.

(** The states of freshly published slices. *)
Definition fresh (n : nat) (arr : list amba_virt_slice_desc) (i : nat) (s : slice_state) : slice_state :=
  if (i <? Z.to_nat (Z.of_nat n))%nat then {| ss_desc := default desc0 (arr !! i); ss_nonce := 0; ss_cid := 0; ss_open := 0 |} else s.

Lemma fresh_at n arr i s : imap (fresh n arr) (repeat state0 8) !! i = Some s ->
  ss_nonce s = 0 /\ ss_cid s = 0 /\ ss_open s = 0 /\ ((i < n)%nat -> ss_desc s = default desc0 (arr !! i)).
Proof.
  intros (s0 & ->%repeat_lookup & ->)%list_lookup_imap_Some. unfold fresh. destruct (Nat.ltb_spec i (Z.to_nat (Z.of_nat n))); split_and!; try done. lia.
Qed.

Lemma publish_ok n h :
  window_good n (h_phys h) -> h_size h = Z.of_nat n * BAR -> h_published h = false -> h_file h = false ->
  host_ok n (amba_virt_publish_slices (Z.of_nat n) h) [].
Proof.
  intros Hg Hs Hp Hf. destruct (geometry_bars n (h_phys h) Hg) as (arr & Ha & Hl). pose proof Hg as (Hn & Hpos & _).
  unfold amba_virt_publish_slices. rewrite Hp, Hs. destruct (Z.eqb_spec (h_phys h) 0); [lia|]. cbn [orb]. rewrite Ha.
  change (count (default _ (Some _))) with (Z.of_nat n). replace ((0 =? 0) && (0 <? Z.of_nat n)) with true by lia.
  change (imap _ _) with (imap (fresh n arr) (repeat state0 8)).
  split; cbn [h_file h_list h_states default count].
  - done.
  - by rewrite length_imap, repeat_length.
  - apply WsSome; cbn [h_phys h_size h_published h_list h_states default count]; try done.
    intros i s Hi Hin. apply fresh_at in Hi as (_ & _ & _ & ->); [|done]. by rewrite Hl.
  - split.
    + intros i s (E1 & E2 & E3 & _)%fresh_at. unfold slot_ok. rewrite E1, E2, E3. by split_and!.
    + intros i j s t (E1 & E2 & E3 & _)%fresh_at. congruence.
  - by constructor.
Qed.

(** The span that the module takes from the processor's window. *)
Lemma span_good n p :
  (1 <= n <= 8)%nat -> 0 <= p -> amba_virt_window_ok p (u64 (Z.of_nat n * AMBA_VIRT_GUEST_BAR_SIZE)) = 0 ->
  window_good n p /\ u64 (Z.of_nat n * AMBA_VIRT_GUEST_BAR_SIZE) = Z.of_nat n * BAR.
Proof.
  intros Hn Hp. unfold BAR. assert (E : u64 (Z.of_nat n * AMBA_VIRT_GUEST_BAR_SIZE) = Z.of_nat n * AMBA_VIRT_GUEST_BAR_SIZE).
  { apply u64_id. unfold AMBA_VIRT_GUEST_BAR_SIZE. lia. }
  rewrite E. unfold amba_virt_window_ok. if_case; [done|]. bool_hyps. intros _. unfold window_good, BAR. split; [|done]. split_and!; lia.
Qed.

Lemma no_window_files n h files : host_ok n h files -> h_phys h = 0 -> files = [] /\ h_published h = false.
Proof.
  intros [_ _ [_ _ P C|(_ & G & _) _ _ _ _] _ F] H; [|lia]. split; [|done]. rewrite C in F. destruct F; [done|lia].
Qed.

Lemma published_stays n h files : host_ok n h files -> h_phys h <> 0 -> amba_virt_publish_slices (Z.of_nat n) h = h.
Proof. intros [_ _ [P _ _ _|_ _ P _ _] _ _] H; [done|]. unfold amba_virt_publish_slices. by rewrite P, orb_true_r. Qed.

Lemma ensure_window_ok n get h files :
  (1 <= n <= 8)%nat -> (forall p size, get = Some (Some (p, size)) -> 0 <= p) -> host_ok n h files ->
  host_ok n (amba_virt_ensure_window (Z.of_nat n) get h) files.
Proof.
  intros Hn Hget Ho. unfold amba_virt_ensure_window.
  destruct (Z.eqb_spec (h_phys h) 0) as [E|E]; cbn [negb andb].
  - destruct get as [[[p size]|]|]; try done. destruct (_ || _); [done|]. cmp_case (amba_virt_window_ok p (u64 (Z.of_nat n * AMBA_VIRT_GUEST_BAR_SIZE)) =? 0);
      [|done]. destruct (span_good n p Hn (Hget p size eq_refl)) as [G S]; [done|].
    destruct (no_window_files _ _ _ Ho E) as [-> P]. apply publish_ok; cbn; try done. apply (ho_file _ _ _ Ho).
  - destruct (ho_window _ _ _ Ho) as [P _ _ _|(? & _) S _ _ _]; [done|]. destruct (Z.eqb_spec (h_size h) 0).
    + unfold BAR, AMBA_VIRT_GUEST_BAR_SIZE in *. lia.
    + cbn [negb]. by rewrite (published_stays n h files).
Qed.

(** ** Opens and closes *)

Lemma claim_states wt wb idx d nonce h :
  let h' := amba_virt_write_slice_claim wt wb idx d nonce h in
  h_phys h' = h_phys h /\ h_size h' = h_size h /\ h_file h' = h_file h /\ h_list h' = h_list h /\ h_states h' = h_states h /\ h_published h' = h_published h.
Proof. cbn. unfold amba_virt_write_slice_claim. by destruct (wt || wb). Qed.

Lemma host_claim n wt wb idx d nonce h files : host_ok n h files -> host_ok n (amba_virt_write_slice_claim wt wb idx d nonce h) files.
Proof.
  intros [I1 I2 I3 I4 I5]. destruct (claim_states wt wb idx d nonce h) as (E1 & E2 & E3 & E4 & E5 & E6).
  split; rewrite ?E1, ?E2, ?E3, ?E4, ?E5, ?E6; try done.
  destruct I3 as [P1 P2 P3 P4|P1 P2 P3 P4 P5]; [apply WsNone|apply WsSome]; rewrite ?E1, ?E2, ?E3, ?E4, ?E5, ?E6; done.
Qed.

Lemma draw_nonzero r x : draw_nonce r = Some x -> x <> 0.
Proof. induction r as [|y r IH]; cbn; [done|]. destruct (Z.eqb_spec y 0); [done|]. by intros [= ->]. Qed.

Lemma count_occ_cons i fs j : j <> i -> count_occ Nat.eq_dec (i :: fs) j = count_occ Nat.eq_dec fs j.
Proof. intros. by apply count_occ_cons_neq. Qed.

Lemma slice_open_ok n wt wb random i h files h' :
  (1 <= n <= 8)%nat -> host_ok n h files -> amba_virt_slice_open wt wb random (Z.of_nat i) h = Some (0, h') -> host_ok n h' (i :: files).
Proof.
  intros Hn Ho. unfold amba_virt_slice_open. destruct (Z.ltb_spec (Z.of_nat i) (count (h_list h))) as [Hi|]; [|done].
  destruct (state_at _ _ _ i Ho ltac:(lia) Hi) as [s Hs]. rewrite Nat2Z.id, Hs. change (default state0 (Some s)) with s. cbv zeta.
  destruct (proj1 (ho_slots _ _ _ Ho) _ _ Hs) as (O & N & C).
  assert (F : Forall (fun j => Z.of_nat j < count (h_list h)) (i :: files)) by (constructor; [done|apply (ho_files _ _ _ Ho)]).
  assert (Occ : ss_open s + 1 = Z.of_nat (count_occ Nat.eq_dec (i :: files) i)) by (rewrite count_occ_cons_eq by done; lia).
  destruct (Z.eqb_spec (ss_open s + 1) 1).
  - destruct (draw_nonce random) as [nonce|] eqn:D; [|done]. intros [= <-]. apply draw_nonzero in D. apply host_claim.
    eapply host_update; try done; [|by intros; apply count_occ_cons|by left].
    split_and!; cbn; [done|lia|done].
  - intros [= <-]. eapply host_update; try done; [|by intros; apply count_occ_cons|].
    + split_and!; cbn; [done|lia|done].
    + destruct (decide (ss_cid s = 0)); [by left|right]. cbn. intros j t Hj Ht He.
      apply Hj. symmetry. eapply (proj2 (ho_slots _ _ _ Ho)); [exact Hs|exact Ht|done|done].
Qed.

Lemma count_occ_middle i fs1 fs2 j :
  count_occ Nat.eq_dec (fs1 ++ i :: fs2) j = (count_occ Nat.eq_dec (fs1 ++ fs2) j + if Nat.eq_dec i j then 1 else 0)%nat.
Proof. rewrite !count_occ_app. cbn. destruct (Nat.eq_dec i j); lia. Qed.

Lemma slice_release_ok n i h fs1 fs2 :
  (1 <= n <= 8)%nat -> host_ok n h (fs1 ++ i :: fs2) -> host_ok n (amba_virt_slice_release (Z.of_nat i) h) (fs1 ++ fs2).
Proof.
  intros Hn Ho. pose proof (ho_files _ _ _ Ho) as F. pose proof F as [F1 [Hi F2]%Forall_cons]%Forall_app.
  unfold amba_virt_slice_release. destruct (Z.ltb_spec (Z.of_nat i) (count (h_list h))) as [_|]; [|lia].
  destruct (state_at _ _ _ i Ho ltac:(lia) Hi) as [s Hs]. rewrite Nat2Z.id, Hs. change (default state0 (Some s)) with s. cbv zeta.
  destruct (proj1 (ho_slots _ _ _ Ho) _ _ Hs) as (O & N & C). rewrite count_occ_middle in O. destruct (Nat.eq_dec i i); [|done].
  eapply host_update; try done.
  - by destruct (ss_open s - 1 <=? 0).
  - destruct (Z.leb_spec (ss_open s - 1) 0); split_and!; cbn; (done || lia).
  - intros j Hj. rewrite count_occ_middle. destruct (Nat.eq_dec i j); [congruence|lia].
  - destruct (Z.leb_spec (ss_open s - 1) 0); [by left|]. destruct (decide (ss_cid s = 0)); [by left|right]. cbn.
    intros j t Hj Ht He. apply Hj. symmetry. by eapply (proj2 (ho_slots _ _ _ Ho)).
  - by apply Forall_app.
Qed.

(** ** Bindings *)

(** Slice [i] of [h] is held by guest [cid]. *)
Definition bound_to (h : host) (cid : Z) (i : nat) : Prop := exists s, live h !! i = Some s /\ ss_cid s = cid.

Lemma live_at h i s : live h !! i = Some s <-> h_states h !! i = Some s /\ Z.of_nat i < count (h_list h).
Proof.
  unfold live. rewrite lookup_take_Some. split; intros [H1 H2]; split; (done || lia).
Qed.

(** Every slice that is bound is one of the published. *)
Lemma live_all n h files i s : host_ok n h files -> h_states h !! i = Some s -> ss_cid s <> 0 -> live h !! i = Some s.
Proof.
  intros Ho Hs Hc. apply live_at. split; [done|]. destruct (proj1 (ho_slots _ _ _ Ho) _ _ Hs) as (O & N & C).
  destruct (C Hc) as [_ Hn]. assert (In i files) as Hi.
  { apply (count_occ_In Nat.eq_dec). destruct (count_occ Nat.eq_dec files i) eqn:E; [|lia]. rewrite N in Hn. lia. }
  pose proof (ho_files _ _ _ Ho) as F. rewrite Forall_forall in F. apply F. by apply list_elem_of_In.
Qed.

(** Another published slice holds [cid]. *)
Lemma taken_spec l cid i :
  existsb (fun js : nat * slice_state => negb (Nat.eqb (fst js) i) && (ss_cid (snd js) =? cid)) (imap pair l) = true <->
  exists j s, j <> i /\ l !! j = Some s /\ ss_cid s = cid.
Proof.
  rewrite existsb_exists. split.
  - intros ([j s] & [k Hk]%list_elem_of_In%list_elem_of_lookup & H). apply list_lookup_imap_Some in Hk as (t & Ht & [= -> ->]).
    bool_hyps. cbn in *. exists k, t. split_and!; try done. by apply Nat.eqb_neq.
  - intros (j & s & Hj & Hs & Hc). exists (j, s). split.
    + apply list_elem_of_In, list_elem_of_lookup. exists j. rewrite list_lookup_imap, Hs. done.
    + cbn. apply andb_true_iff. split; [by apply negb_true_iff, Nat.eqb_neq|by apply Z.eqb_eq].
Qed.

(** The four outcomes of a binding. *)
Lemma bind_cases cid nonce h :
  (exists i s, live h !! i = Some s /\ ss_nonce s = nonce /\ nonce <> 0 /\ 2 < cid /\ (ss_cid s = 0 \/ ss_cid s = cid) /\
     (forall j t, j <> i -> live h !! j = Some t -> ss_cid t <> cid) /\
     (forall j t, (j < i)%nat -> live h !! j = Some t -> ss_nonce t <> nonce) /\
     amba_virt_slice_bind cid nonce h = (inr (ss_desc s), set_states h (<[i := with_cid s cid]> (h_states h)))) \/
  (exists e, amba_virt_slice_bind cid nonce h = (inl e, h) /\
     ((e = - EINVAL /\ cid <= 2) \/
      (e = - ENOENT /\ 2 < cid /\ (nonce = 0 \/ forall j t, live h !! j = Some t -> ss_nonce t <> nonce)) \/
      (e = - EBUSY /\ 2 < cid /\ nonce <> 0 /\ exists i s, live h !! i = Some s /\ ss_nonce s = nonce /\
         ((ss_cid s <> 0 /\ ss_cid s <> cid) \/ exists j t, j <> i /\ live h !! j = Some t /\ ss_cid t = cid)))).
Proof.
  unfold amba_virt_slice_bind. destruct (Z.leb_spec cid 2); [right; exists (- EINVAL); auto|].
  destruct (Z.eqb_spec nonce 0); [right; exists (- ENOENT); auto 12|].
  destruct (find_idx _ _) as [i|] eqn:F.
  2: { right. exists (- ENOENT). split; [done|]. right. left. split_and!; try done. right. intros j t Ht E.
       apply find_idx_None with (i := j) (x := t) in F; [|done]. by apply Z.eqb_neq in F. }
  destruct (find_idx_Some _ _ _ F) as (s & Hs & E%Z.eqb_eq & Hmin). pose proof Hs as [Hh Hi]%live_at. rewrite Hh. change (default state0 (Some s)) with s.
  destruct (negb (ss_cid s =? 0) && negb (ss_cid s =? cid)) eqn:B.
  { right. exists (- EBUSY). split; [done|]. right. right. split_and!; try done. exists i, s. bool_hyps. auto. }
  destruct (existsb _ _) eqn:X.
  { right. exists (- EBUSY). split; [done|]. right. right. split_and!; try done. exists i, s. split_and!; try done. right. by apply taken_spec in X. }
  left. exists i, s. split_and!; try done.
  - apply andb_false_iff in B as [B|B]; bool_hyps; auto.
  - intros j t Hj Ht Hc. apply not_true_iff_false in X. apply X, taken_spec. by exists j, t.
  - intros j t Hj Ht. by apply Z.eqb_neq, (Hmin j).
Qed.

Lemma slice_bind_ok n cid nonce h files : host_ok n h files -> host_ok n (snd (amba_virt_slice_bind cid nonce h)) files.
Proof.
  intros Ho. destruct (bind_cases cid nonce h) as [(i & s & Hs & E & Hn & Hc & Hb & Hd & _ & ->)|(e & -> & _)]; [|done].
  apply live_at in Hs as [Hs _]. destruct (proj1 (ho_slots _ _ _ Ho) _ _ Hs) as (O & N & C). cbn [snd].
  eapply host_update; try done.
  - split_and!; cbn; [done|done|]. intros _. lia.
  - right. cbn. intros j t Hj Ht Et. apply (Hd j t Hj); [|done]. eapply live_all; [done|done|lia].
  - apply (ho_files _ _ _ Ho).
Qed.

Lemma over_first_at {A} n (f : A -> A) l i y : over_first n f l !! i = Some y -> exists x, l !! i = Some x /\ (y = f x \/ y = x).
Proof. intros (x & Hx & ->)%list_lookup_imap_Some. exists x. case_match; auto. Qed.

Lemma unbind_ok n cid h files : host_ok n h files -> host_ok n (amba_virt_slice_unbind_cid cid h) files.
Proof.
  intros [I1 I2 I3 I4 I5]. unfold amba_virt_slice_unbind_cid. destruct (cid =? 0); [done|].
  assert (K : forall i s, over_first (Z.to_nat (count (h_list h))) (fun s => if ss_cid s =? cid then with_cid s 0 else s) (h_states h) !! i = Some s ->
    exists s0, h_states h !! i = Some s0 /\ ss_desc s = ss_desc s0 /\ ss_nonce s = ss_nonce s0 /\ ss_open s = ss_open s0 /\ (ss_cid s = 0 \/ ss_cid s = ss_cid s0)).
  { intros i s (s0 & H0 & H)%over_first_at. exists s0. split; [done|]. destruct H as [->| ->]; [|by auto 6]. destruct (_ =? cid); cbn; auto 6. }
  split; cbn; try done.
  - unfold over_first. by rewrite length_imap.
  - destruct I3 as [P1 P2 P3 P4|P1 P2 P3 P4 P5]; [by apply WsNone|]. apply WsSome; try done. cbn.
    intros i s (s0 & H0 & -> & _)%K Hi. by apply P5.
  - destruct I4 as [S1 S2]. split.
    + intros i s (s0 & H0 & _ & E1 & E2 & E3)%K. destruct (S1 _ _ H0) as (O & N & C). unfold slot_ok. rewrite E1, E2.
      split_and!; try done. intros Hc. destruct E3 as [E3|E3]; [done|]. rewrite E3 in *. auto.
    + intros i j s t (s0 & H0 & _ & _ & _ & E)%K (t0 & T0 & _ & _ & _ & E')%K He Hc. destruct E as [E|E]; [done|].
      destruct E' as [E'|E']; [congruence|]. apply (S2 i j s0 t0); congruence.
Qed.

(** ** Runs *)

(** One call, with the list of the open files of the nodes; no backing file is there. *)
Inductive host_step (n : nat) : host * list nat -> host * list nat -> Prop :=
| HsEnsure get h files :
    (forall p size, get = Some (Some (p, size)) -> 0 <= p) ->
    host_step n (h, files) (amba_virt_ensure_window (Z.of_nat n) get h, files)
| HsOpen wt wb random i h h' sz files :
    amba_virt_shm_node_open wt wb random (Z.of_nat i) h = Some (0, sz, h') -> host_step n (h, files) (h', i :: files)
| HsOpenFails wt wb random idx h h' ret sz files :
    amba_virt_shm_node_open wt wb random idx h = Some (ret, sz, h') -> ret <> 0 -> host_step n (h, files) (h', files)
| HsClose i h fs1 fs2 :
    host_step n (h, fs1 ++ i :: fs2) (snd (amba_virt_shm_release_idx (Z.of_nat i) h), fs1 ++ fs2)
| HsBind cid nonce h files : host_step n (h, files) (snd (amba_virt_slice_bind cid nonce h), files)
| HsUnbind cid h files : host_step n (h, files) (amba_virt_slice_unbind_cid cid h, files).

(** From the load of the module. *)
Inductive host_reachable (n : nat) : host * list nat -> Prop :=
| HrInit mem port p size get isize e h :
    0 <= p -> (forall q s, get = Some (Some (q, s)) -> 0 <= q) ->
    amba_virt_host_init port p size (Z.of_nat n) get 0 isize (inl e) (host0 mem) = (0, h) -> host_reachable n (h, [])
| HrStep s t : host_reachable n s -> host_step n s t -> host_reachable n t.

Lemma host0_ok n mem : host_ok n (host0 mem) [].
Proof. split; cbn; try done; [by apply WsNone|apply slots_blank]. Qed.

Lemma publish_idle n h files : host_ok n h files -> amba_virt_publish_slices (Z.of_nat n) h = h.
Proof.
  intros Ho. destruct (decide (h_phys h = 0)) as [E|E]; [|by eapply published_stays].
  unfold amba_virt_publish_slices. by rewrite E.
Qed.

Lemma host_init_ok n mem port p size get isize e h :
  (1 <= n <= 8)%nat -> 0 <= p -> (forall q s, get = Some (Some (q, s)) -> 0 <= q) ->
  amba_virt_host_init port p size (Z.of_nat n) get 0 isize (inl e) (host0 mem) = (0, h) -> host_ok n h [].
Proof.
  intros Hn Hp Hget. unfold amba_virt_host_init. destruct (port =? 2000); [done|].
  assert (C : clamp_count (Z.of_nat n) = Z.of_nat n) by (unfold clamp_count; repeat if_case; lia). rewrite C.
  set (span := u64 (Z.of_nat n * AMBA_VIRT_GUEST_BAR_SIZE)). change (h_held (host0 mem)) with false.
  destruct (negb (p =? 0)) eqn:E0; cbn [andb].
  - destruct ((span =? 0) || (size <? span) || _) eqn:W; [done|]. bool_hyps. destruct (span_good n p Hn Hp) as [G S]; [done|].
    intros [= <-]. apply publish_ok; cbn; done.
  - intros [= <-]. pose proof (ensure_window_ok n get _ _ Hn Hget (host0_ok n mem)) as Ho.
    unfold amba_virt_attach_shm. rewrite (ho_file _ _ _ Ho). cbn [snd]. by rewrite (publish_idle n _ _ Ho).
Qed.

Lemma node_open_inv wt wb random idx h ret sz h' :
  amba_virt_shm_node_open wt wb random idx h = Some (ret, sz, h') -> amba_virt_slice_open wt wb random idx h = Some (ret, h').
Proof.
  unfold amba_virt_shm_node_open. destruct (amba_virt_slice_open _ _ _ _ _) as [[r h1]|]; [|done].
  destruct (Z.eqb_spec r 0) as [->|]; cbn; by intros [= <- <- <-].
Qed.

Lemma slice_open_fails wt wb random idx h ret h' : amba_virt_slice_open wt wb random idx h = Some (ret, h') -> ret <> 0 -> h' = h.
Proof.
  unfold amba_virt_slice_open. destruct (idx <? _); [|by intros [= <- <-]].
  destruct (_ =? 1); [destruct (draw_nonce random); [|done]|]; by intros [= <- <-].
Qed.

Lemma host_step_ok n h files h' files' :
  (1 <= n <= 8)%nat -> host_ok n h files -> host_step n (h, files) (h', files') -> host_ok n h' files'.
Proof.
  intros Hn Ho Hs. inversion Hs; subst.
  - by apply ensure_window_ok.
  - eapply slice_open_ok; [done|done|]. by eapply node_open_inv.
  - match goal with H : amba_virt_shm_node_open _ _ _ _ _ = _ |- _ => apply node_open_inv, slice_open_fails in H; [by subst|done] end.
  - by apply slice_release_ok.
  - by apply slice_bind_ok.
  - by apply unbind_ok.
Qed.

Lemma reachable_host_ok n s : (1 <= n <= 8)%nat -> host_reachable n s -> host_ok n (fst s) (snd s).
Proof.
  intros Hn H. induction H as [mem port p size get isize e h|[h fs] [h' fs'] _ IH Hs]; [by eapply host_init_ok|by eapply host_step_ok].
Qed.

(** ** Bindings apart *)

Lemma bar_inside n p i : window_good n p -> (i < n)%nat -> p <= phys (bar_desc p i) /\ phys (bar_desc p i) + slice_size (bar_desc p i) <= p + Z.of_nat n * BAR.
Proof. intros (? & ? & _) Hi. cbn. unfold BAR, AMBA_VIRT_GUEST_BAR_SIZE. lia. Qed.

Lemma bars_disjoint p i j : i <> j ->
  disjoint_range (phys (bar_desc p i)) (phys (bar_desc p i) + slice_size (bar_desc p i)) (phys (bar_desc p j)) (phys (bar_desc p j) + slice_size (bar_desc p j)).
Proof. intros H. cbn. unfold disjoint_range, BAR, AMBA_VIRT_GUEST_BAR_SIZE. lia. Qed.

Lemma live_desc n h files i s : host_ok n h files -> live h !! i = Some s -> (i < n)%nat /\ window_good n (h_phys h) /\ ss_desc s = bar_desc (h_phys h) i.
Proof.
  intros [_ _ [P1 P2 P3 P4|P1 P2 P3 P4 P5] _ _] [Hs Hi]%live_at; [lia|]. split_and!; [lia|done|]. apply P5; [done|lia].
Qed.

End HostWindowProps.
