(* ===== verification/HostTheorems.v ===== *)
(** * The window of the host module: what a process gets through the node of a slice

    [Module HostTheorems]: over every sequence of opens, closes, bindings and unbindings the slices tile the window, a
    slice has a nonce exactly while its node is open and a guest is bound to at most one slice ([host_reachable_ok]); a
    mapping and a DMA buffer taken through the node of a slice stay inside that slice ([node_confined]); a backing file
    replaces the size of a physical window ([file_resizes_window]). *)

From stdpp Require Import base list.
From Stdlib Require Import ZArith Lia.
From S2P Require Import Prelude SliceGeometry SliceArena HostWindow HostWindowProps.
Import Geometry SliceArena HostWindow HostWindowProps.

Module HostTheorems.

(** C3: from the load of the host module, over every interleaving of looking for the window, opening and closing the nodes
    of the slices, binding and unbinding guests: a published window is split into equal slices that tile it; a slice
    counts exactly the open files of its node, has a nonce exactly while there is one and is bound only then; and no
    guest is bound to two slices. *)
Theorem host_reachable_ok n h files : (1 <= n <= 8)%nat -> host_reachable n (h, files) -> host_ok n h files.
Proof. intros Hn Hr. apply (reachable_host_ok n (h, files) Hn Hr). Qed.

(** ** Mappings *)

Definition vma_wf (v : vma) : Prop := 0 <= vm_start v <= vm_end v /\ vm_end v < 2 ^ 64 /\ 0 <= vm_pgoff v.

(** A mapping inside [[lo, hi)]. *)
Definition mapping_inside (lo hi : Z) (m : mapping) : Prop :=
  match m with PhysMap pfn len => lo <= pfn * PAGE_SIZE /\ pfn * PAGE_SIZE + len <= hi | FileMap => False end.

Lemma map_check_inv v limit off :
  vma_wf v -> 0 <= limit < 2 ^ 63 -> map_check v limit = Some off ->
  0 <= off /\ off mod PAGE_SIZE = 0 /\ off + (vm_end v - vm_start v) <= limit /\ u64 (vm_end v - vm_start v) = vm_end v - vm_start v.
Proof.
  intros (V1 & V2 & V3) Hl. unfold map_check. destruct (Z.ltb_spec (Z.shiftr limit PAGE_SHIFT) (vm_pgoff v)) as [|Hp]; [done|].
  rewrite Z.shiftr_div_pow2 in Hp by done. rewrite Z.shiftl_mul_pow2 by done. unfold PAGE_SHIFT, PAGE_SIZE in *. change (2 ^ 12) with 4096 in *.
  pose proof (Z.mul_div_le limit 4096 ltac:(lia)). rewrite !u64_id by lia. destruct (_ || _) eqn:E; [done|]. bool_hyps. intros [= <-].
  split_and!; [lia|apply Z.mod_mul; lia|lia|done].
Qed.

Lemma pfn_exact a : a mod PAGE_SIZE = 0 -> PHYS_PFN a * PAGE_SIZE = a.
Proof.
  intros H. unfold PHYS_PFN. rewrite Z.shiftr_div_pow2 by done. unfold PAGE_SHIFT, PAGE_SIZE in *. change (2 ^ 12) with 4096.
  pose proof (Z.div_mod a 4096 ltac:(lia)). lia.
Qed.

Lemma page_sum a b : a mod PAGE_SIZE = 0 -> b mod PAGE_SIZE = 0 -> (a + b) mod PAGE_SIZE = 0.
Proof. intros Ha Hb. rewrite Z.add_mod, Ha, Hb by done. done. Qed.

Lemma bar_page k : (Z.of_nat k * BAR) mod PAGE_SIZE = 0.
Proof. unfold BAR, AMBA_VIRT_GUEST_BAR_SIZE, PAGE_SIZE. replace (Z.of_nat k * 2 ^ 30) with (Z.of_nat k * 2 ^ 18 * 4096) by lia. by apply Z.mod_mul. Qed.

(** A mapping of [off] bytes into slice [k]. *)
Lemma slice_mapping n p k v off :
  window_good n p -> (k < n)%nat -> vma_wf v -> map_check v BAR = Some off ->
  mapping_inside (phys (bar_desc p k)) (phys (bar_desc p k) + slice_size (bar_desc p k))
    (PhysMap (PHYS_PFN (u64 (u64 (p + Z.of_nat k * BAR) + off))) (u64 (vm_end v - vm_start v))).
Proof.
  intros (Hn & Hp & Ha & He) Hk Hv Hc. destruct (map_check_inv v BAR off Hv ltac:(by split) Hc) as (O1 & O2 & O3 & O4).
  assert (Hb : Z.of_nat k * BAR + BAR <= Z.of_nat n * BAR) by (unfold BAR, AMBA_VIRT_GUEST_BAR_SIZE; lia).
  assert (B0 : 0 <= Z.of_nat k * BAR) by (unfold BAR, AMBA_VIRT_GUEST_BAR_SIZE; lia). destruct Hv as (V1 & V2 & V3).
  rewrite O4, (u64_id (p + Z.of_nat k * BAR)), u64_id by lia. cbn -[BAR PAGE_SIZE]. rewrite pfn_exact; [lia|].
  apply page_sum; [|done]. apply page_sum; [done|apply bar_page].
Qed.

Lemma get_desc_inv n h files idx d :
  (1 <= n <= 8)%nat -> host_ok n h files -> 0 <= idx -> amba_virt_slice_get_desc idx h = inr d ->
  exists k, idx = Z.of_nat k /\ (k < n)%nat /\ window_good n (h_phys h) /\ d = bar_desc (h_phys h) k.
Proof.
  intros Hn Ho Hi. unfold amba_virt_slice_get_desc. destruct (Z.ltb_spec idx (count (h_list h))) as [Hc|]; [|done].
  destruct (state_at n h files (Z.to_nat idx) Ho ltac:(lia) ltac:(lia)) as [s Hs]. rewrite Hs. intros [= <-].
  destruct (live_desc n h files (Z.to_nat idx) s Ho) as (H1 & H2 & H3); [apply live_at; split; [done|lia]|]. exists (Z.to_nat idx). split_and!; [lia|done|done|done].
Qed.

Lemma no_file isize e h : h_file h = false -> amba_virt_attach_shm isize (inl e) h = (e, h).
Proof. intros H. unfold amba_virt_attach_shm. by rewrite H. Qed.

Lemma mmap_slice_inv n isize e v idx h files m h' :
  (1 <= n <= 8)%nat -> host_ok n h files -> 0 <= idx -> vma_wf v -> amba_virt_mmap_slice isize (inl e) v idx h = (inr m, h') ->
  h' = h /\ exists k, idx = Z.of_nat k /\ (k < n)%nat /\ mapping_inside (phys (bar_desc (h_phys h) k)) (phys (bar_desc (h_phys h) k) + slice_size (bar_desc (h_phys h) k)) m.
Proof.
  intros Hn Ho Hi Hv. unfold amba_virt_mmap_slice. rewrite no_file by apply (ho_file _ _ _ Ho). cbn [snd]. intros [= H <-]. split; [done|].
  destruct (h_phys h =? 0); [done|]. destruct (amba_virt_slice_get_desc idx h) as [|d] eqn:D; [done|].
  destruct (get_desc_inv _ _ _ _ _ Hn Ho Hi D) as (k & -> & Hk & Hg & ->). exists k. split_and!; [done|done|].
  destruct (slice_size _ =? 0); [done|]. destruct (h_size h <=? _); [done|]. cbn [bar_desc slice_size offset] in H.
  destruct (map_check v BAR) as [off|] eqn:C; [|done]. injection H as <-. by apply (slice_mapping n).
Qed.

(** The export of a slice node. *)
Lemma export_inv n get isize e alloc ex fd copied idx h files f b h' :
  (1 <= n <= 8)%nat -> host_ok n h files -> 0 <= idx ->
  amba_virt_shm_ioctl_idx (Z.of_nat n) get isize (inl e) alloc ex fd copied ShmExport idx h = (inr (ShmFd f b), h') ->
  h' = h /\ exists k, idx = Z.of_nat k /\ (k < n)%nat /\ window_good n (h_phys h) /\ b = {| db_offset := Z.of_nat k * BAR; db_size := BAR |}.
Proof.
  intros Hn Ho Hi. unfold amba_virt_shm_ioctl_idx. destruct (amba_virt_slice_get_desc idx h) as [|d] eqn:D; [done|].
  destruct (get_desc_inv _ _ _ _ _ Hn Ho Hi D) as (k & -> & Hk & Hg & ->).
  assert (Hp : h_phys h <> 0) by (destruct Hg as (_ & ? & _); lia). unfold amba_virt_export_dmabuf_slice.
  assert (En : amba_virt_ensure_window (Z.of_nat n) get h = h).
  { unfold amba_virt_ensure_window. destruct (ho_window _ _ _ Ho) as [P _ _ _|_ S _ _ _]; [done|]. destruct (Z.eqb_spec (h_phys h) 0); [done|].
    destruct (Z.eqb_spec (h_size h) 0); [unfold BAR, AMBA_VIRT_GUEST_BAR_SIZE in *; lia|]. cbn. by eapply published_stays. }
  rewrite En, no_file by apply (ho_file _ _ _ Ho). cbn [snd]. rewrite D. cbn [bar_desc offset slice_size].
  assert (E1 : (if (Z.of_nat k * BAR =? 0) && (0 <? Z.of_nat k) then Z.of_nat k * BAR else Z.of_nat k * BAR) = Z.of_nat k * BAR) by (by destruct (_ && _)).
  rewrite E1. change (BAR =? 0) with false. cbv iota. intros H. destruct (_ || _) in H; [done|]. destruct (h_size h <? _) in H; [done|].
  destruct (negb alloc) in H; [done|]. destruct (ex <? 0) in H; [done|]. destruct (fd <? 0) in H; [done|]. destruct copied; [|done].
  injection H as <- <- <-. split; [done|]. exists k. by split_and!.
Qed.

(** C23: whatever a process does through the node of slice [k], a mapping it gets, the memory a device reaches through a DMA
    buffer it exports and a mapping of that buffer lie inside slice [k], so none of them touches the memory of another
    guest. (No backing file is attached.) *)
Theorem node_confined n h files idx v isize e :
  (1 <= n <= 8)%nat -> host_reachable n (h, files) -> 0 <= idx -> vma_wf v ->
  (forall m h', amba_virt_mmap_slice isize (inl e) v idx h = (inr m, h') ->
     exists k, idx = Z.of_nat k /\ (k < n)%nat /\
       mapping_inside (phys (bar_desc (h_phys h) k)) (phys (bar_desc (h_phys h) k) + slice_size (bar_desc (h_phys h) k)) m) /\
  (forall get alloc ex fd copied f b h',
     amba_virt_shm_ioctl_idx (Z.of_nat n) get isize (inl e) alloc ex fd copied ShmExport idx h = (inr (ShmFd f b), h') ->
     exists k, idx = Z.of_nat k /\ (k < n)%nat /\
       (forall table segment r, amba_virt_dmabuf_map table segment b h' = inr r -> r = (phys (bar_desc (h_phys h) k), slice_size (bar_desc (h_phys h) k))) /\
       (forall m, amba_virt_dmabuf_mmap v b h' = inr m ->
          mapping_inside (phys (bar_desc (h_phys h) k)) (phys (bar_desc (h_phys h) k) + slice_size (bar_desc (h_phys h) k)) m)).
Proof.
  intros Hn Hr Hi Hv. pose proof (reachable_host_ok n (h, files) Hn Hr) as Ho. cbn [fst snd] in Ho. split.
  - intros m h' H. by destruct (mmap_slice_inv _ _ _ _ _ _ _ _ _ Hn Ho Hi Hv H) as (_ & ?).
  - intros get alloc ex fd copied f b h' H. destruct (export_inv _ _ _ _ _ _ _ _ _ _ _ _ _ _ Hn Ho Hi H) as (-> & k & -> & Hk & Hg & ->).
    exists k. split_and!; [done|done| |].
    + intros table segment r. unfold amba_virt_dmabuf_map. destruct (table <? 0); [done|]. destruct (negb _); [done|]. intros [= <-].
      cbn [db_offset db_size bar_desc phys slice_size]. rewrite u64_id; [done|]. destruct Hg as (? & ? & _ & ?). unfold BAR, AMBA_VIRT_GUEST_BAR_SIZE in *. lia.
    + intros m. unfold amba_virt_dmabuf_mmap. cbn [db_size db_offset]. destruct (map_check v BAR) as [off|] eqn:C; [|done]. intros [= <-]. by apply (slice_mapping n).
Qed.

End HostTheorems.
