(* ===== verification/Framing.v ===== *)
(** * Frames on a vsock connection (amba_virt_core.c)

    A frame is a 32-bit little-endian length and that many bytes. The kernel may send a part of a buffer and may hand out
    a stream in pieces of any size: what it answers is a list of results, one for each call. *)

From stdpp Require Import base list.
From Stdlib Require Import ZArith Lia.
From S2P Require Import Prelude ByteBuf SliceArena.
Import SliceArena.

Module Framing.

Definition AMBA_VIRT_MAX_MSG : Z := 4096.
Definition SIZEOF_MSG : Z := 16.
Definition EIO : Z := 5.
Definition EAGAIN : Z := 11.
Definition EPIPE : Z := 32.
Definition EPROTO : Z := 71.
Definition EMSGSIZE : Z := 90.
Definition ECONNRESET : Z := 104.
Definition ENOTCONN : Z := 107.
Definition ESHUTDOWN : Z := 108.

(** ** Sending *)

(** [send_exact]; each answer is what kernel_sendmsg returns. The result, the bytes that were sent and the answers that are
    left; [None] while a call has not returned. *)
Fixpoint send_exact (answers : list Z) (buf : list Z) : option (Z * list Z * list Z) :=
  match buf with
  | [] => Some (0, [], answers)
  | _ =>
      match answers with
      | [] => None
      | n :: rest =>
          if n <=? 0 then Some (if n <? 0 then n else - EIO, [], rest)
          else
            match send_exact rest (drop (Z.to_nat n) buf) with
            | None => None
            | Some (ret, sent, after) => Some (ret, take (Z.to_nat n) buf ++ sent, after)
            end
      end
  end.

(** [frame_send] *)
Definition frame_send (answers : list Z) (payload : list Z) : option (Z * list Z * list Z) :=
  let len := Z.of_nat (length payload) in
  if (len =? 0) || (AMBA_VIRT_MAX_MSG <? len) then Some (- EINVAL, [], answers)
  else
    match send_exact answers (le_bytes 4 len) with
    | None => None
    | Some (ret, sent, after) =>
        if negb (ret =? 0) then Some (ret, sent, after)
        else
          match send_exact after payload with
          | None => None
          | Some (ret2, sent2, after2) => Some (ret2, sent ++ sent2, after2)
          end
    end.

(** ** Receiving *)

(** What the stream brings: bytes, a timeout, the end of the stream, an error. *)
Inductive rx :=
| Bytes (b : Z) (bs : list Z)
| Timeout
| Closed
| Error (e : Z).

(** [recv_exact]: the result, the bytes read and the rest of the stream; [None] while it waits. *)
Fixpoint recv_exact (stream : list rx) (len : nat) : option (Z * list Z * list rx) :=
  match len with
  | O => Some (0, [], stream)
  | S _ =>
      match stream with
      | [] => None
      | Timeout :: rest => Some (- ETIMEDOUT, [], rest)
      | Closed :: rest => Some (- ECONNRESET, [], rest)
      | Error e :: rest => Some (e, [], rest)
      | Bytes b bs :: rest =>
          match drop len (b :: bs) with
          | [] =>
              match recv_exact rest (len - length (b :: bs)) with
              | None => None
              | Some (ret, got, after) => Some (ret, b :: bs ++ got, after)
              end
          | b' :: bs' => Some (0, take len (b :: bs), Bytes b' bs' :: rest)
          end
      end
  end.

(** [frame_recv] into a buffer of [cap] bytes: the result, the payload and the rest. *)
Definition frame_recv (cap : Z) (stream : list rx) : option (Z * list Z * list rx) :=
  match recv_exact stream 4 with
  | None => None
  | Some (ret, hdr, after) =>
      if negb (ret =? 0) then Some (ret, [], after)
      else
        let n := le_val hdr in
        if (n =? 0) || (AMBA_VIRT_MAX_MSG <? n) || (cap <? n) then Some (- EPROTO, [], after)
        else
          match recv_exact after (Z.to_nat n) with
          | None => None
          | Some (ret2, payload, after2) => if negb (ret2 =? 0) then Some (ret2, [], after2) else Some (0, payload, after2)
          end
  end.

(** ** Calls of the guest *)

(** The sequence number of a message. *)
Definition msg_seq (p : list Z) : Z := le_val (take 4 (drop 4 p)).

(** The loop of [amba_virt_rpc_dev_seq]: [lefts] is the time that is left at each turn. *)
Fixpoint seq_loop (lefts : list Z) (cap want discarded : Z) (stream : list rx) : option (Z * list Z) :=
  match lefts with
  | [] => None
  | after :: more =>
      if after <=? 0 then Some (- ETIMEDOUT, [])
      else
        match frame_recv cap stream with
        | None => None
        | Some (ret, p, rest) =>
            if negb (ret =? 0) then Some (ret, [])
            else if (SIZEOF_MSG <=? Z.of_nat (length p)) && (msg_seq p =? want) then Some (0, p)
            else if 256 <? discarded + 1 then Some (- EPROTO, [])
            else seq_loop more cap want (discarded + 1) rest
        end
  end.

(** What a call gets: whether it is connected, the results of up to three connects, whether the connection is still open,
    the answers of up to two sends, the times and the stream. *)
Record rpc_env := {
  re_connected : bool; re_connect1 : Z; re_alive : bool; re_connect2 : Z; re_send1 : list Z; re_connect3 : Z; re_send2 : list Z;
  re_lefts : list Z; re_stream : list rx }.

(** The end of both calls: an error other than a bad argument drops the connection. *)
Definition rpc_end (r : Z * list Z) : Z * list Z * bool :=
  let '(ret, p) := r in (ret, p, (ret =? 0) || (ret =? - EINVAL) || (ret =? - EMSGSIZE)).

(** [amba_virt_rpc_dev]: the result, the response and whether it is connected afterwards. *)
Definition amba_virt_rpc_dev (e : rpc_env) (is_host : bool) (request : list Z) (cap : Z) : option (Z * list Z * bool) :=
  let len := Z.of_nat (length request) in
  if is_host then Some (- EINVAL, [], re_connected e)
  else if (len =? 0) || (AMBA_VIRT_MAX_MSG <? len) then Some (- EMSGSIZE, [], re_connected e)
  else if (cap =? 0) || (AMBA_VIRT_MAX_MSG <? cap) then Some (- EMSGSIZE, [], re_connected e)
  else if negb (re_connected e) && negb (re_connect1 e =? 0) then Some (re_connect1 e, [], false)
  else
    match frame_send (re_send1 e) request with
    | None => None
    | Some (ret, _, _) =>
        if negb (ret =? 0) then Some (rpc_end (ret, []))
        else match frame_recv cap (re_stream e) with None => None | Some (ret2, p, _) => Some (rpc_end (ret2, p)) end
    end.

(** A send that found the peer gone. *)
Definition peer_gone (ret : Z) : bool := existsb (Z.eqb ret) [- EPIPE; - ECONNRESET; - ENOTCONN; - ESHUTDOWN].

(** [amba_virt_rpc_dev_seq] *)
Definition amba_virt_rpc_dev_seq (e : rpc_env) (is_host : bool) (request : list Z) (cap : Z) : option (Z * list Z * bool) :=
  let len := Z.of_nat (length request) in
  if is_host then Some (- EINVAL, [], re_connected e)
  else if (len <? SIZEOF_MSG) || (AMBA_VIRT_MAX_MSG <? len) then Some (- EMSGSIZE, [], re_connected e)
  else if (cap <? SIZEOF_MSG) || (AMBA_VIRT_MAX_MSG <? cap) then Some (- EMSGSIZE, [], re_connected e)
  else if negb (re_connected e) && negb (re_connect1 e =? 0) then Some (re_connect1 e, [], false)
  else if negb (re_alive e) && negb (re_connect2 e =? 0) then Some (re_connect2 e, [], false)
  else
    match frame_send (re_send1 e) request with
    | None => None
    | Some (ret, _, _) =>
        if peer_gone ret && negb (re_connect3 e =? 0) then Some (re_connect3 e, [], false)
        else
          match (if peer_gone ret then frame_send (re_send2 e) request else Some (ret, [], [])) with
          | None => None
          | Some (ret2, _, _) =>
              if negb (ret2 =? 0) then Some (rpc_end (ret2, []))
              else match seq_loop (re_lefts e) cap (msg_seq request) 0 (re_stream e) with None => None | Some r => Some (rpc_end r) end
          end
    end.

(** ** The worker of a connection *)

(** The frames the worker of a connection takes from the stream, up to the end of the stream or of the list: a timeout is
    not the end. *)
Fixpoint worker_frames (fuel : nat) (stream : list rx) : list (list Z) :=
  match fuel with
  | O => []
  | S fuel' =>
      match frame_recv AMBA_VIRT_MAX_MSG stream with
      | None => []
      | Some (ret, p, rest) => if ret =? - ETIMEDOUT then worker_frames fuel' rest else if ret <? 0 then [] else p :: worker_frames fuel' rest
      end
  end.

End Framing.
