(* ===== verification/FramingProps.v ===== *)
(** * Frames on a vsock connection: the stream stays in step

    [Module FramingProps]: frames that are sent in pieces and arrive in other pieces are received as they were sent, pauses
    between frames included ([frames_roundtrip]); a call that matches sequence numbers returns the answer to its own request or drops the
    connection ([seq_answer_matches]); a timeout in the middle of a frame puts the worker out of step
    ([timeout_splits_frame]). *)

From stdpp Require Import base list.
From Stdlib Require Import ZArith Lia.
From S2P Require Import Prelude ByteBuf SliceArena IavWire Framing.
Import SliceArena Framing.

Module FramingProps.

(** ** Sending *)

Lemma send_exact_all answers buf sent rest : send_exact answers buf = Some (0, sent, rest) -> sent = buf.
Proof.
  revert buf sent rest. induction answers as [|n answers IH]; intros [|b buf] sent rest; cbn [send_exact]; try (by intros [= <- _]).
  destruct (Z.leb_spec n 0).
  - destruct (Z.ltb_spec n 0); [intros [= E _ _]; lia|done].
  - destruct (send_exact answers _) as [[[ret s] r]|] eqn:E; [|done]. intros [= -> <- <-]. apply IH in E as ->. apply take_drop.
Qed.

Lemma send_exact_ok answers buf : Forall (fun n => 0 < n) answers -> (length buf <= length answers)%nat -> exists rest, send_exact answers buf = Some (0, buf, rest).
Proof.
  intros H. revert buf. induction H as [|n answers Hn _ IH]; intros [|b buf] Hl; cbn in *; try (by eexists); [lia|].
  destruct (Z.leb_spec n 0); [lia|]. destruct (Z.to_nat n) as [|k] eqn:E; [lia|]. cbn [take drop]. destruct (IH (drop k buf)) as [rest ->]; [rewrite length_drop; lia|].
  exists rest. cbn [app]. by rewrite take_drop.
Qed.

(** The bytes of a frame. *)
Definition frame (p : list Z) : list Z := le_bytes 4 (Z.of_nat (length p)) ++ p.
Definition payload_ok (p : list Z) : Prop := (1 <= length p)%nat /\ Z.of_nat (length p) <= AMBA_VIRT_MAX_MSG.

Lemma frame_send_all answers p sent rest : frame_send answers p = Some (0, sent, rest) -> sent = frame p /\ payload_ok p.
Proof.
  unfold frame_send, frame, payload_ok. destruct (_ || _) eqn:E; [done|]. bool_hyps. destruct (send_exact answers _) as [[[r1 s1] a1]|] eqn:E1; [|done].
  destruct (Z.eqb_spec r1 0) as [->|]; cbn [negb]; [|by intros [= -> _ _]]. destruct (send_exact a1 p) as [[[r2 s2] a2]|] eqn:E2; [|done].
  intros [= -> <- <-]. apply send_exact_all in E1 as ->. apply send_exact_all in E2 as ->. split; [done|lia].
Qed.

(** ** Receiving *)

Definition rx_bytes (r : rx) : list Z := match r with Bytes b bs => b :: bs | _ => [] end.
Definition is_bytes (r : rx) : Prop := match r with Bytes _ _ => True | _ => False end.
Definition flat (s : list rx) : list Z := concat (map rx_bytes s).

Lemma recv_exact_flat seg s len :
  Forall is_bytes seg -> (len <= length (flat seg))%nat ->
  exists rest, recv_exact (seg ++ s) len = Some (0, take len (flat seg), rest ++ s) /\ flat rest = drop len (flat seg) /\ Forall is_bytes rest.
Proof.
  intros H. revert len. induction H as [|r seg Hr Hs IH]; intros [|len] Hl.
  - exists []. by destruct s.
  - cbn in Hl. lia.
  - exists (r :: seg). split_and!; [done|done|by constructor].
  - destruct r as [b bs| | |]; try done. change (flat (Bytes b bs :: seg)) with ((b :: bs) ++ flat seg) in *. rewrite length_app in Hl.
    cbn [app recv_exact]. destruct (drop (S len) (b :: bs)) as [|b' bs'] eqn:D.
    + assert (Hd : (length (b :: bs) <= S len)%nat) by (apply (f_equal length) in D; rewrite length_drop in D; cbn in D; cbn; lia).
      destruct (IH (S len - length (b :: bs))%nat) as (rest & -> & Hf & Hb); [lia|]. exists rest. split_and!; [| |done].
      * change (b :: bs ++ flat seg) with ((b :: bs) ++ flat seg). by rewrite take_app_ge by lia.
      * change (b :: bs ++ flat seg) with ((b :: bs) ++ flat seg). by rewrite drop_app_ge by lia.
    + assert (Hd : (S len < length (b :: bs))%nat) by (apply (f_equal length) in D; rewrite length_drop in D; cbn in D; cbn; lia).
      exists (Bytes b' bs' :: seg). change (b :: bs ++ flat seg) with ((b :: bs) ++ flat seg). split_and!; [by rewrite take_app_le by lia| |by constructor].
      rewrite drop_app_le by lia. rewrite D. done.
Qed.

Lemma frame_recv_flat cap seg s p more :
  Forall is_bytes seg -> payload_ok p -> Z.of_nat (length p) <= cap -> flat seg = frame p ++ more ->
  exists rest, frame_recv cap (seg ++ s) = Some (0, p, rest ++ s) /\ flat rest = more /\ Forall is_bytes rest.
Proof.
  intros Hb [P1 P2] Hc Hf. unfold frame_recv. assert (L4 : length (le_bytes 4 (Z.of_nat (length p))) = 4%nat) by apply le_bytes_length.
  destruct (recv_exact_flat seg s 4 Hb) as (rest & -> & Hr & Hbr); [rewrite Hf; unfold frame; rewrite !length_app; lia|]. cbn [negb Z.eqb].
  rewrite Hf in *. unfold frame in *. rewrite <- app_assoc in *. rewrite take_app_le, take_ge by lia. rewrite drop_app_ge, L4 in Hr by lia. cbn [Nat.sub] in Hr. rewrite drop_0 in Hr.
  rewrite le_val_bytes, Z.mod_small by (unfold AMBA_VIRT_MAX_MSG in *; cbn; lia).
  replace ((Z.of_nat (length p) =? 0) || (AMBA_VIRT_MAX_MSG <? Z.of_nat (length p)) || (cap <? Z.of_nat (length p))) with false by lia. rewrite Nat2Z.id.
  destruct (recv_exact_flat rest s (length p) Hbr) as (rest2 & -> & Hr2 & Hbr2); [rewrite Hr, length_app; lia|]. cbn [negb Z.eqb].
  rewrite Hr in *. rewrite take_app_length in *. rewrite drop_app_length in Hr2. by exists rest2.
Qed.

(** How frames arrive: in pieces of any size, cut anywhere, with any number of pauses that time out, each between two
    frames. *)
Inductive arrival : list (list Z) -> list rx -> Prop :=
| ar_end : arrival [] []
| ar_pause sents s : arrival sents s -> arrival sents (Timeout :: s)
| ar_pieces now later seg s : Forall is_bytes seg -> flat seg = concat now -> arrival later s -> arrival (now ++ later) (seg ++ s).

(** The receive calls that time out. *)
Definition pauses (s : list rx) : nat := length (List.filter (fun r => match r with Timeout => true | _ => false end) s).

Lemma pauses_pieces seg s : Forall is_bytes seg -> pauses (seg ++ s) = pauses s.
Proof. induction 1 as [|r seg Hr _ IH]; [done|]. destruct r; try done. Qed.

Lemma flat_nil seg : Forall is_bytes seg -> flat seg = [] -> seg = [].
Proof. intros [|r seg' Hr _]; [done|]. by destruct r. Qed.

(** Whole frames in pieces are taken one by one; what the worker does then does not depend on them. *)
Lemma worker_pieces ps seg s fuel ps' :
  Forall payload_ok ps -> Forall is_bytes seg -> flat seg = concat (map frame ps) ->
  worker_frames fuel s = ps' -> worker_frames (length ps + fuel) (seg ++ s) = ps ++ ps'.
Proof.
  intros Hps. revert seg. induction Hps as [|p ps Hp _ IH]; intros seg Hb Hf Hw.
  - apply flat_nil in Hf as ->; [|done]. done.
  - destruct (frame_recv_flat AMBA_VIRT_MAX_MSG seg s p (concat (map frame ps)) Hb Hp (proj2 Hp) Hf) as (rest & E & Hf' & Hb').
    cbn [length Nat.add worker_frames]. rewrite E. cbn. by rewrite IH.
Qed.

Lemma worker_arrival sents stream :
  arrival sents stream -> forall ps fuel, sents = map frame ps -> Forall payload_ok ps -> (length ps + pauses stream <= fuel)%nat ->
  worker_frames fuel stream = ps.
Proof.
  induction 1 as [|sents s _ IH|now later seg s Hb Hf _ IH]; intros ps fuel E Hok Hfuel.
  - destruct ps; [|done]. by destruct fuel.
  - cbn in Hfuel. destruct fuel as [|fuel]; [lia|]. cbn [worker_frames frame_recv recv_exact]. cbn. apply IH; [done|done|]. unfold pauses. lia.
  - symmetry in E. apply map_eq_app in E as (ps1 & ps2 & -> & E1 & E2). apply Forall_app in Hok as [Hok1 Hok2].
    rewrite pauses_pieces, length_app in Hfuel by done. replace fuel with (length ps1 + (fuel - length ps1))%nat by lia.
    apply worker_pieces; [done|done|by rewrite Hf, E1|]. apply IH; [done|done|lia].
Qed.

(** C33: whatever parts the kernel sends and whatever pieces the stream arrives in, the worker of a connection takes from it
    exactly the messages that were sent, in their order, each whole; nothing is lost, joined or split. The stream may
    pause between two messages for as long as it likes; it does not pause inside one until the receive times out, which
    the worker does not survive in step ([timeout_splits_frame]). One turn of the worker for each message and each pause
    is enough. *)
Theorem frames_roundtrip ps sents stream fuel :
  Forall2 (fun p sent => exists answers rest, frame_send answers p = Some (0, sent, rest)) ps sents ->
  arrival sents stream -> (length ps + pauses stream <= fuel)%nat -> worker_frames fuel stream = ps.
Proof.
  intros H Ha Hf. assert (E : sents = map frame ps /\ Forall payload_ok ps).
  { clear Ha Hf. induction H as [|p sent ps sents (answers & rest & [-> Hok]%frame_send_all) _ [-> IH]]; [by split|]. split; [done|by constructor]. }
  destruct E as [E Hok]. by eapply worker_arrival.
Qed.

Lemma frames_roundtrip_witness :
  exists s1 s2, frame_send [3; 9; 1; 9] [10; 20; 30] = Some (0, s1, []) /\ frame_send [4; 2] [40; 50] = Some (0, s2, []) /\
    worker_frames 3 [Bytes 3 []; Bytes 0 [0; 0; 10; 20]; Bytes 30 []; Timeout; Bytes 2 [0; 0]; Bytes 0 [40; 50]] = [[10; 20; 30]; [40; 50]].
Proof.
  exists [3; 0; 0; 0; 10; 20; 30], [2; 0; 0; 0; 40; 50]. split; [reflexivity|]. split; [reflexivity|].
  apply (frames_roundtrip [[10; 20; 30]; [40; 50]] [[3; 0; 0; 0; 10; 20; 30]; [2; 0; 0; 0; 40; 50]]).
  - repeat constructor; [exists [3; 9; 1; 9], []|exists [4; 2], []]; reflexivity.
  - apply (ar_pieces [[3; 0; 0; 0; 10; 20; 30]] [[2; 0; 0; 0; 40; 50]] [Bytes 3 []; Bytes 0 [0; 0; 10; 20]; Bytes 30 []]);
      [repeat constructor|reflexivity|]. apply ar_pause.
    apply (ar_pieces [[2; 0; 0; 0; 40; 50]] [] [Bytes 2 [0; 0]; Bytes 0 [40; 50]] []); [repeat constructor|reflexivity|apply ar_end].
  - vm_compute. lia.
Defined.

(** ** Calls *)


Lemma seq_loop_answer lefts cap want d stream p :
  seq_loop lefts cap want d stream = Some (0, p) -> SIZEOF_MSG <= Z.of_nat (length p) /\ msg_seq p = want.
Proof.
  revert d stream. induction lefts as [|l lefts IH]; intros d stream; cbn [seq_loop]; [done|]. destruct (l <=? 0); [done|].
  destruct (frame_recv cap stream) as [[[ret q] rest]|]; [|done]. destruct (Z.eqb_spec ret 0); cbn [negb]; [|by intros [= -> _]].
  destruct (_ && _) eqn:E; [intros [= <-]; bool_hyps; done|]. destruct (256 <? d + 1); [done|]. apply IH.
Qed.

Lemma rpc_end_cases r ret p c : rpc_end r = (ret, p, c) -> r = (ret, p) /\ (c = false \/ ret = 0 \/ ret = - EINVAL \/ ret = - EMSGSIZE).
Proof.
  destruct r as [x y]. unfold rpc_end. intros [= -> -> <-]. split; [done|]. destruct (_ || _) eqn:E; [right|by left]. rewrite !orb_true_iff, !Z.eqb_eq in E. tauto.
Qed.

(** a call that matches sequence numbers and succeeds returns a message with the sequence number of its own request,
    never the late answer to an earlier one; and a call that fails leaves the connection closed, so that no late answer is
    read by a later call, unless it failed for its arguments. *)
Theorem seq_answer_matches e is_host request cap ret p c :
  amba_virt_rpc_dev_seq e is_host request cap = Some (ret, p, c) ->
  (ret = 0 -> msg_seq p = msg_seq request /\ SIZEOF_MSG <= Z.of_nat (length p)) /\ (ret <> 0 -> ret <> - EINVAL -> ret <> - EMSGSIZE -> c = false).
Proof.
  unfold amba_virt_rpc_dev_seq. destruct is_host; [by intros [= <- _ _]|]. destruct (_ || _); [by intros [= <- _ _]|]. destruct (_ || _); [by intros [= <- _ _]|].
  destruct (negb (re_connected e) && negb (re_connect1 e =? 0)) eqn:E1; [intros [= <- _ <-]; bool_hyps; done|].
  destruct (negb (re_alive e) && negb (re_connect2 e =? 0)) eqn:E2; [intros [= <- _ <-]; bool_hyps; done|].
  destruct (frame_send _ _) as [[[r1 s1] a1]|]; [|done]. destruct (peer_gone r1 && negb (re_connect3 e =? 0)) eqn:E3; [intros [= <- _ <-]; bool_hyps; done|].
  destruct (if peer_gone r1 then _ else _) as [[[r2 s2] a2]|]; [|done]. destruct (Z.eqb_spec r2 0) as [->|N]; cbn [negb].
  - destruct (seq_loop _ _ _ _ _) as [r|] eqn:L; [|done]. intros [= H]. apply rpc_end_cases in H as [-> H]. split.
    + intros ->. apply seq_loop_answer in L. tauto.
    + intros H1 H2 H3. by destruct H as [H|[H|[H|H]]].
  - intros Hs. assert (H : rpc_end (r2, []) = (ret, p, c)) by congruence. apply rpc_end_cases in H as [Hr H]. injection Hr as -> _. split; [done|]. intros H1 H2 H3. by destruct H as [H|[H|[H|H]]].
Qed.

(** A request with sequence number 5, a late answer with 4, and the answer. *)
Definition message (seq : Z) : list Z := le_bytes 4 1 ++ le_bytes 4 seq ++ le_bytes 8 0.
Definition answers45 : rpc_env :=
  {| re_connected := true; re_connect1 := 0; re_alive := true; re_connect2 := 0; re_send1 := [4; 16]; re_connect3 := 0; re_send2 := [];
     re_lefts := [1000; 500]; re_stream := [Bytes 16 ([0; 0; 0] ++ message 4); Bytes 16 ([0; 0; 0] ++ message 5)] |}.

Lemma seq_answer_matches_witness :
  amba_virt_rpc_dev_seq answers45 false (message 5) 64 = Some (0, message 5, true) /\ msg_seq (message 5) = msg_seq (message 5) /\ SIZEOF_MSG <= 16.
Proof.
  assert (H : amba_virt_rpc_dev_seq answers45 false (message 5) 64 = Some (0, message 5, true)) by (vm_compute; reflexivity). split; [exact H|].
  exact (proj1 (seq_answer_matches answers45 false (message 5) 64 0 (message 5) true H) eq_refl).
Defined.

(** ** A frame that pauses *)

(** A message of eight bytes pauses after its first four; the worker takes the rest for a frame of its own, and then the
    next message too. *)
Theorem timeout_splits_frame :
  let before := [Bytes 8 [0; 0; 0; 1; 2; 3; 4]] in
  let after := [Bytes 1 [0; 0; 0]; Bytes 4 [0; 0; 0; 9; 9; 9; 9]] in
  worker_frames 4 (before ++ after) = [[1; 2; 3; 4; 1; 0; 0; 0]; [9; 9; 9; 9]] /\
  worker_frames 4 (before ++ Timeout :: after) = [[4]].
Proof. by split. Qed.

End FramingProps.
