(* ===== verification/HostConn.v ===== *)
(** * The connections of the host module (amba_virt_core.c)

    The module accepts a vsock connection of each guest into a table of eight slots. A slot has a socket and a worker that
    reads frames from it into one queue; the server takes the frames and sends answers. A socket is counted: the slot,
    the worker and every sender hold a reference, and dropping the last one releases it.

    Every definition here is what happens under one hold of the table's lock (or one call without it); the threads
    interleave between them. A thread and a socket are named by their place in the lists, which only grow. *)

From stdpp Require Import base list.
From Stdlib Require Import ZArith Lia.
From S2P Require Import Prelude.

Module HostConn.

Definition AMBA_VIRT_MAX_CONNS : nat := 8.
Definition AMBA_VIRT_RX_QUEUE_MAX : Z := 64.

(** ** State *)

(** [struct amba_virt_csock]: the count, and whether the socket is released. *)
Record csock := { cs_ref : Z; cs_released : bool }.

(** [struct amba_virt_conn] *)
Record conn := { cn_csk : option nat; cn_cid : Z; cn_thread : option nat; cn_in_use : bool; cn_queued : Z }.
Definition conn0 : conn := {| cn_csk := None; cn_cid := 0; cn_thread := None; cn_in_use := false; cn_queued := 0 |}.

(** Where a worker is: not started; between two frames; reading one; leaving, with the slot's reference when it took it;
    gone. *)
Inductive phase := WStart | WIdle (csk : nat) | WRead (csk : nat) | WLeave (csk : nat) (slot_csk : option nat) | WDone.
Record worker := { wk_slot : nat; wk_phase : phase }.

(** Where the accepting thread is: waiting; or replacing a connection: the socket it took out of the slot and the worker it
    still waits for. At module exit it is the same for all slots. *)
Inductive accepting := AIdle | AReplace (csks threads : list nat).

Record net := {
  nt_socks : list csock; nt_conns : list conn; nt_workers : list worker; nt_senders : list nat; nt_accept : accepting; nt_queue : list nat }.

Definition net0 : net :=
  {| nt_socks := []; nt_conns := repeat conn0 AMBA_VIRT_MAX_CONNS; nt_workers := []; nt_senders := []; nt_accept := AIdle; nt_queue := [] |}.

Definition set_socks (l : list csock) (s : net) : net :=
  {| nt_socks := l; nt_conns := nt_conns s; nt_workers := nt_workers s; nt_senders := nt_senders s; nt_accept := nt_accept s; nt_queue := nt_queue s |}.
Definition set_conns (l : list conn) (s : net) : net :=
  {| nt_socks := nt_socks s; nt_conns := l; nt_workers := nt_workers s; nt_senders := nt_senders s; nt_accept := nt_accept s; nt_queue := nt_queue s |}.
Definition set_workers (l : list worker) (s : net) : net :=
  {| nt_socks := nt_socks s; nt_conns := nt_conns s; nt_workers := l; nt_senders := nt_senders s; nt_accept := nt_accept s; nt_queue := nt_queue s |}.
Definition set_senders (l : list nat) (s : net) : net :=
  {| nt_socks := nt_socks s; nt_conns := nt_conns s; nt_workers := nt_workers s; nt_senders := l; nt_accept := nt_accept s; nt_queue := nt_queue s |}.
Definition set_accept (a : accepting) (s : net) : net :=
  {| nt_socks := nt_socks s; nt_conns := nt_conns s; nt_workers := nt_workers s; nt_senders := nt_senders s; nt_accept := a; nt_queue := nt_queue s |}.
Definition set_queue (q : list nat) (s : net) : net :=
  {| nt_socks := nt_socks s; nt_conns := nt_conns s; nt_workers := nt_workers s; nt_senders := nt_senders s; nt_accept := nt_accept s; nt_queue := q |}.

(** ** Sockets *)

(** [csock_new], [csock_get] and [csock_put] *)
Definition csock_new (s : net) : net := set_socks (nt_socks s ++ [{| cs_ref := 1; cs_released := false |}]) s.
Definition csock_get (i : nat) (s : net) : net :=
  set_socks (alter (fun c => {| cs_ref := cs_ref c + 1; cs_released := cs_released c |}) i (nt_socks s)) s.
Definition csock_put (i : nat) (s : net) : net :=
  set_socks (alter (fun c => {| cs_ref := cs_ref c - 1; cs_released := cs_released c || (cs_ref c - 1 =? 0) |}) i (nt_socks s)) s.

(** ** Senders *)

(** [conn_find_get]: the slot of guest [cid] (the first one if it is 0). *)
Definition conn_serves (cid : Z) (c : conn) : bool :=
  cn_in_use c && (match cn_csk c with Some _ => true | None => false end) && ((cid =? 0) || (cn_cid c =? cid)).
Definition conn_find_get (cid : Z) (s : net) : option nat * net :=
  match List.find (conn_serves cid) (nt_conns s) with
  | Some c => match cn_csk c with Some i => (Some i, set_senders (i :: nt_senders s) (csock_get i s)) | None => (None, s) end
  | None => (None, s)
  end.

(** A sender is done with the socket. *)
Definition sender_done (before : list nat) (i : nat) (after : list nat) (s : net) : net := csock_put i (set_senders (before ++ after) s).

(** The sockets AMBA_VIRT_IOC_PUSH takes. *)
Definition push_targets (cid : Z) (s : net) : list nat := omap cn_csk (List.filter (conn_serves cid) (nt_conns s)).
Definition push_get (cid : Z) (s : net) : net :=
  List.fold_left (fun s i => set_senders (i :: nt_senders s) (csock_get i s)) (push_targets cid s) s.

(** ** The worker (conn_rx_worker) *)

Definition set_phase (t : nat) (p : phase) (s : net) : net :=
  set_workers (alter (fun w => {| wk_slot := wk_slot w; wk_phase := p |}) t (nt_workers s)) s.

(** The first thing a worker does. *)
Definition worker_start (t : nat) (s : net) : net :=
  match nt_workers s !! t with
  | Some w =>
      match nt_conns s !! wk_slot w with
      | Some c =>
          match cn_csk c with
          | Some i => if bool_decide (cn_thread c = Some t) then set_phase t (WIdle i) (csock_get i s) else set_phase t WDone s
          | None => set_phase t WDone s
          end
      | None => s
      end
  | None => s
  end.

(** It reads a frame only while the queue of the slot has room. *)
Definition worker_read (t : nat) (s : net) : net :=
  match nt_workers s !! t with
  | Some w =>
      match wk_phase w, nt_conns s !! wk_slot w with
      | WIdle i, Some c => if AMBA_VIRT_RX_QUEUE_MAX <=? cn_queued c then s else set_phase t (WRead i) s
      | _, _ => s
      end
  | None => s
  end.

(** A frame is there ([stored]: memory for it too), or a timeout. *)
Definition worker_frame (t : nat) (stored : bool) (s : net) : net :=
  match nt_workers s !! t with
  | Some w =>
      match wk_phase w with
      | WRead i =>
          let s1 := set_phase t (WIdle i) s in
          if stored then
            set_queue (nt_queue s1 ++ [wk_slot w])
              (set_conns (alter (fun c => {| cn_csk := cn_csk c; cn_cid := cn_cid c; cn_thread := cn_thread c; cn_in_use := cn_in_use c; cn_queued := cn_queued c + 1 |})
                            (wk_slot w) (nt_conns s1)) s1)
          else s1
      | _ => s
      end
  | None => s
  end.

(** It leaves (the stream ended, it is asked to stop, or it has no buffer): the slot is cleared when it is still its own. *)
Definition clear_conn (c : conn) : conn := {| cn_csk := None; cn_cid := cn_cid c; cn_thread := None; cn_in_use := false; cn_queued := cn_queued c |}.
Definition worker_leave (t : nat) (s : net) : net :=
  match nt_workers s !! t with
  | Some w =>
      match wk_phase w, nt_conns s !! wk_slot w with
      | WIdle i, Some c | WRead i, Some c =>
          if bool_decide (cn_thread c = Some t)
          then set_phase t (WLeave i (cn_csk c)) (set_conns (alter clear_conn (wk_slot w) (nt_conns s)) s)
          else set_phase t (WLeave i None) s
      | _, _ => s
      end
  | None => s
  end.

(** It drops the slot's reference, then its own. *)
Definition worker_drop (t : nat) (s : net) : net :=
  match nt_workers s !! t with
  | Some w =>
      match wk_phase w with
      | WLeave i (Some j) => csock_put j (set_phase t (WLeave i None) s)
      | WLeave i None => csock_put i (set_phase t WDone s)
      | _ => s
      end
  | None => s
  end.

(** ** Accepting (accept_one) *)

(** The slot for a guest: its own, or the first that is free. *)
Definition pick_slot (cid : Z) (conns : list conn) : option nat :=
  match (if cid =? 0 then None else find_idx (fun c => cn_in_use c && (cn_cid c =? cid)) conns) with
  | Some i => Some i
  | None => find_idx (fun c => negb (cn_in_use c)) conns
  end.

Definition opt_list {A} (o : option A) : list A := match o with Some x => [x] | None => [] end.

(** A connection of guest [cid] was accepted; [spawned]: the worker could be started. *)
Definition accept_place (cid : Z) (spawned : bool) (s0 : net) : net :=
  let i := length (nt_socks s0) in
  let s := csock_new s0 in
  match pick_slot cid (nt_conns s) with
  | None => csock_put i s
  | Some k =>
      let c := default conn0 (nt_conns s !! k) in
      let '(old_csks, old_threads) := if cn_in_use c then (opt_list (cn_csk c), opt_list (cn_thread c)) else ([], []) in
      let placed t := {| cn_csk := if spawned then Some i else None; cn_cid := cid; cn_thread := t; cn_in_use := spawned; cn_queued := cn_queued c |} in
      let s1 := if spawned then
                  set_workers (nt_workers s ++ [{| wk_slot := k; wk_phase := WStart |}]) (set_conns (<[k := placed (Some (length (nt_workers s)))]> (nt_conns s)) s)
                else csock_put i (set_conns (<[k := placed None]> (nt_conns s)) s) in
      set_accept (AReplace old_csks old_threads) s1
  end.

(** The worker it waits for has gone. *)
Definition accept_joined (s : net) : net :=
  match nt_accept s with
  | AReplace csks (t :: threads) =>
      match nt_workers s !! t with
      | Some w => match wk_phase w with WDone => set_accept (AReplace csks threads) s | _ => s end
      | None => s
      end
  | _ => s
  end.

(** It drops the references of the slots. *)
Definition accept_drop (s : net) : net :=
  match nt_accept s with
  | AReplace (i :: csks) [] => csock_put i (set_accept (AReplace csks []) s)
  | AReplace [] [] => set_accept AIdle s
  | _ => s
  end.

(** The module exits: every slot is taken out of the table ([amba_virt_core_exit_instance]). *)
Definition exit_take (s : net) : net :=
  set_accept (AReplace (omap cn_csk (nt_conns s)) (omap cn_thread (nt_conns s))) (set_conns (map clear_conn (nt_conns s)) s).

(** ** The server takes a frame *)
Definition host_recv (s : net) : option nat * net :=
  match nt_queue s with
  | [] => (None, s)
  | k :: q =>
      (Some k, set_queue q
        (set_conns (alter (fun c => {| cn_csk := cn_csk c; cn_cid := cn_cid c; cn_thread := cn_thread c; cn_in_use := cn_in_use c; cn_queued := cn_queued c - 1 |})
                      k (nt_conns s)) s))
  end.

End HostConn.
