(* ===== verification/HostConnProps.v ===== *)
(** * The connections of the host module: references and the queue

    [Module HostConnProps]: over every interleaving of the accepting thread, the workers, the senders, the server and the
    exit of the module, the count of a socket is the number of its holders and it is released exactly when there is none
    ([sockets_counted]), so nobody is ever inside a call on a released one; and the frames that
    wait for the server are bounded ([queue_bounded]). *)

From stdpp Require Import base list.
From Stdlib Require Import ZArith Lia.
From S2P Require Import Prelude HostConn.
Import HostConn.

Module HostConnProps.

(** ** Sums *)

Definition tally {A} (f : A -> Z) (l : list A) : Z := foldr (fun x a => f x + a) 0 l.

Lemma tally_app {A} (f : A -> Z) l k : tally f (l ++ k) = tally f l + tally f k.
Proof. induction l as [|x l IH]; cbn; [done|]. unfold tally in *. rewrite IH. lia. Qed.

Lemma tally_nonneg {A} (f : A -> Z) l : (forall x, 0 <= f x) -> 0 <= tally f l.
Proof. intros H. induction l as [|x l IH]; cbn; [done|]. specialize (H x). unfold tally in IH. lia. Qed.

Lemma tally_alter {A} (f : A -> Z) g l k x : l !! k = Some x -> tally f (alter g k l) = tally f l - f x + f (g x).
Proof.
  revert k. induction l as [|y l IH]; intros [|k]; try done; cbn.
  - intros [= ->]. lia.
  - intros H. specialize (IH k H). unfold tally in IH. cbn in IH. rewrite IH. lia.
Qed.

Lemma tally_insert {A} (f : A -> Z) l k x y : l !! k = Some x -> tally f (<[k := y]> l) = tally f l - f x + f y.
Proof.
  revert k. induction l as [|z l IH]; intros [|k]; try done.
  - cbn. intros [= ->]. lia.
  - intros H. change (f z + tally f (<[k := y]> l) = f z + tally f l - f x + f y). rewrite (IH k H). lia.
Qed.

Lemma tally_ge {A} (f : A -> Z) l k x : (forall x, 0 <= f x) -> l !! k = Some x -> f x <= tally f l.
Proof.
  intros H. revert k. induction l as [|y l IH]; intros [|k]; try done; cbn.
  - intros [= ->]. pose proof (tally_nonneg f l H) as Hn. unfold tally in Hn. lia.
  - intros Hk. specialize (IH k Hk). specialize (H y). unfold tally in IH. lia.
Qed.

Lemma tally_omap {A B} (f : B -> Z) (g : A -> option B) l : tally f (omap g l) = tally (fun x => match g x with Some y => f y | None => 0 end) l.
Proof. induction l as [|x l IH]; cbn; [done|]. destruct (g x); cbn; unfold tally in *; rewrite IH; lia. Qed.

Lemma tally_zero {A} (f : A -> Z) l : (forall x, x ∈ l -> f x = 0) -> tally f l = 0.
Proof. induction l as [|x l IH]; intros H; cbn; [done|]. rewrite (H x) by apply list_elem_of_here. unfold tally in IH. rewrite IH; [done|]. intros y Hy. apply H. by apply list_elem_of_further. Qed.

(** ** Holders *)

Definition is_it (i : nat) (o : option nat) : Z := if decide (o = Some i) then 1 else 0.
Definition conn_holds (i : nat) (c : conn) : Z := is_it i (cn_csk c).
Definition worker_holds (i : nat) (w : worker) : Z :=
  match wk_phase w with
  | WIdle j | WRead j => is_it i (Some j)
  | WLeave j o => is_it i (Some j) + is_it i o
  | _ => 0
  end.
Definition accept_holds (i : nat) (a : accepting) : Z := match a with AIdle => 0 | AReplace l _ => tally (fun j => is_it i (Some j)) l end.

Definition holders (s : net) (i : nat) : Z :=
  tally (conn_holds i) (nt_conns s) + tally (worker_holds i) (nt_workers s) + tally (fun j => is_it i (Some j)) (nt_senders s) + accept_holds i (nt_accept s).

Lemma is_it_nonneg i o : 0 <= is_it i o.
Proof. unfold is_it. destruct (decide _); lia. Qed.

Lemma is_it_some i j : is_it i (Some j) = if decide (i = j) then 1 else 0.
Proof. unfold is_it. destruct (decide (Some j = Some i)), (decide (i = j)); congruence. Qed.

Lemma is_it_none i : is_it i None = 0.
Proof. done. Qed.

Lemma worker_holds_nonneg i w : 0 <= worker_holds i w.
Proof. unfold worker_holds. destruct (wk_phase w); try done; try apply is_it_nonneg. pose proof (is_it_nonneg i (Some csk)). pose proof (is_it_nonneg i slot_csk). lia. Qed.

Lemma accept_holds_nonneg i a : 0 <= accept_holds i a.
Proof. destruct a; [done|]. apply tally_nonneg. intros. apply is_it_nonneg. Qed.

(** The count of every socket is the number of its holders. *)
Definition refs_ok (l : list csock) (h : nat -> Z) : Prop :=
  forall i, match l !! i with
            | Some c => cs_ref c = h i /\ 0 <= h i /\ (cs_released c = true <-> h i = 0)
            | None => h i = 0
            end.

Lemma refs_same l h h' : refs_ok l h -> (forall i, h' i = h i) -> refs_ok l h'.
Proof. intros H E i. specialize (H i). by rewrite E. Qed.

Lemma refs_get l h h' j :
  refs_ok l h -> 0 < h j -> (forall i, h' i = h i + is_it i (Some j)) ->
  refs_ok (alter (fun c => {| cs_ref := cs_ref c + 1; cs_released := cs_released c |}) j l) h'.
Proof.
  intros H Hj E i. specialize (H i). rewrite E, is_it_some. destruct (decide (i = j)) as [->|Hne].
  - rewrite list_lookup_alter_eq. destruct (l !! j) as [c|]; cbn; [|lia]. destruct H as (H1 & H2 & H3). split_and!; [lia|lia|].
    destruct (cs_released c); split; intros; try done; [|lia]. destruct H3 as [H3 _]. specialize (H3 eq_refl). lia.
  - rewrite list_lookup_alter_ne by done. rewrite Z.add_0_r. exact H.
Qed.

Lemma refs_put l h h' j :
  refs_ok l h -> 0 < h j -> (forall i, h' i = h i - is_it i (Some j)) ->
  refs_ok (alter (fun c => {| cs_ref := cs_ref c - 1; cs_released := cs_released c || (cs_ref c - 1 =? 0) |}) j l) h'.
Proof.
  intros H Hj E i. specialize (H i). rewrite E, is_it_some. destruct (decide (i = j)) as [->|Hne].
  - rewrite list_lookup_alter_eq. destruct (l !! j) as [c|]; cbn; [|lia]. destruct H as (H1 & H2 & H3). split_and!; [lia|lia|].
    destruct (cs_released c) eqn:R; [destruct H3 as [H3 _]; specialize (H3 eq_refl); lia|]. cbn. rewrite Z.eqb_eq. lia.
  - rewrite list_lookup_alter_ne by done. rewrite Z.sub_0_r. exact H.
Qed.

Lemma refs_new l h h' :
  refs_ok l h -> (forall i, h' i = h i + is_it i (Some (length l))) -> refs_ok (l ++ [{| cs_ref := 1; cs_released := false |}]) h'.
Proof.
  intros H E i. specialize (H i). rewrite E, is_it_some. destruct (decide (i = length l)) as [->|Hne].
  - rewrite lookup_ge_None_2 in H by done. rewrite lookup_app_r, Nat.sub_diag by done. cbn. rewrite H. split_and!; [done|done|split; done].
  - rewrite Z.add_0_r. destruct (decide (i < length l)%nat).
    + by rewrite lookup_app_l.
    + rewrite lookup_ge_None_2 in H by lia. rewrite lookup_ge_None_2; [done|]. rewrite length_app. cbn. lia.
Qed.

(** The parts of a state that was updated. *)
Ltac net_cbn := cbn [nt_socks nt_conns nt_workers nt_senders nt_accept nt_queue set_socks set_conns set_workers set_senders set_accept set_queue].

(** ** The steps *)

Inductive net_step : net -> net -> Prop :=
| NsAccept cid spawned s : nt_accept s = AIdle -> net_step s (accept_place cid spawned s)
| NsJoined s : net_step s (accept_joined s)
| NsDrop s : net_step s (accept_drop s)
| NsExit s : nt_accept s = AIdle -> net_step s (exit_take s)
| NsStart t w s : nt_workers s !! t = Some w -> wk_phase w = WStart -> net_step s (worker_start t s)
| NsRead t s : net_step s (worker_read t s)
| NsFrame t stored s : net_step s (worker_frame t stored s)
| NsLeave t s : net_step s (worker_leave t s)
| NsLeft t s : net_step s (worker_drop t s)
| NsFind cid s : net_step s (snd (conn_find_get cid s))
| NsPush cid s : net_step s (push_get cid s)
| NsSent before i after s : nt_senders s = before ++ i :: after -> net_step s (sender_done before i after s)
| NsRecv s : net_step s (snd (host_recv s)).

Inductive net_reachable : net -> Prop :=
| NrInit : net_reachable net0
| NrStep s s' : net_reachable s -> net_step s s' -> net_reachable s'.

(** A slot that is not in use has neither socket nor worker. *)
Definition idle_ok (c : conn) : Prop := cn_in_use c = false -> cn_csk c = None /\ cn_thread c = None.

Record socks_ok (s : net) : Prop := {
  so_refs : refs_ok (nt_socks s) (holders s);
  so_idle : forall k c, nt_conns s !! k = Some c -> idle_ok c }.

(** Who holds what after a change of one part. *)
Lemma holders_conn s k c c' i :
  nt_conns s !! k = Some c -> holders (set_conns (<[k := c']> (nt_conns s)) s) i = holders s i - conn_holds i c + conn_holds i c'.
Proof. intros H. unfold holders, set_phase. net_cbn. rewrite (tally_insert _ _ _ _ _ H). lia. Qed.

Lemma holders_conn_alter s k c f i :
  nt_conns s !! k = Some c -> holders (set_conns (alter f k (nt_conns s)) s) i = holders s i - conn_holds i c + conn_holds i (f c).
Proof. intros H. unfold holders, set_phase. net_cbn. rewrite (tally_alter _ _ _ _ _ H). lia. Qed.

Lemma holders_phase s t w p i :
  nt_workers s !! t = Some w -> holders (set_phase t p s) i = holders s i - worker_holds i w + worker_holds i {| wk_slot := wk_slot w; wk_phase := p |}.
Proof. intros H. unfold holders, set_phase. net_cbn. rewrite (tally_alter _ _ _ _ _ H). lia. Qed.

Lemma parts_nonneg s j :
  0 <= tally (conn_holds j) (nt_conns s) /\ 0 <= tally (worker_holds j) (nt_workers s) /\ 0 <= tally (fun x => is_it j (Some x)) (nt_senders s) /\
  0 <= accept_holds j (nt_accept s).
Proof. split_and!; [apply tally_nonneg; intros; apply is_it_nonneg|apply tally_nonneg, worker_holds_nonneg|apply tally_nonneg; intros; apply is_it_nonneg|apply accept_holds_nonneg]. Qed.

Lemma conn_held s k c j : nt_conns s !! k = Some c -> cn_csk c = Some j -> 0 < holders s j.
Proof.
  intros H E. unfold holders. assert (G : conn_holds j c <= tally (conn_holds j) (nt_conns s)) by (apply (tally_ge _ _ k); [intros; apply is_it_nonneg|done]).
  unfold conn_holds in G at 1. rewrite E, is_it_some in G. destruct (decide (j = j)); [|done].
  destruct (parts_nonneg s j) as (? & ? & ? & ?). lia.
Qed.

Lemma worker_held s t w j : nt_workers s !! t = Some w -> 0 < worker_holds j w -> 0 < holders s j.
Proof.
  intros H E. unfold holders. pose proof (tally_ge (worker_holds j) (nt_workers s) t w (worker_holds_nonneg j) H).
  destruct (parts_nonneg s j) as (? & ? & ? & ?). lia.
Qed.

Lemma socks_same s s' :
  socks_ok s -> nt_socks s' = nt_socks s -> (forall i, holders s' i = holders s i) -> (forall k c, nt_conns s' !! k = Some c -> idle_ok c) -> socks_ok s'.
Proof. intros [R I] E H Hi. split; [rewrite E; by eapply refs_same|done]. Qed.

Lemma put_ok s j :
  (forall k c, nt_conns s !! k = Some c -> idle_ok c) -> refs_ok (nt_socks s) (fun i => holders s i + is_it i (Some j)) -> socks_ok (csock_put j s).
Proof.
  intros Hi R. split; [|done]. unfold csock_put. net_cbn. eapply refs_put; [exact R| |].
  - cbn beta. rewrite is_it_some. destruct (decide (j = j)); [|done]. destruct (parts_nonneg s j) as (? & ? & ? & ?). unfold holders. lia.
  - intros i. cbn beta. transitivity (holders s i); [done|lia].
Qed.

Lemma get_refs s j (s' : net) :
  socks_ok s -> 0 < holders s j -> nt_socks s' = nt_socks (csock_get j s) -> (forall i, holders s' i = holders s i + is_it i (Some j)) ->
  (forall k c, nt_conns s' !! k = Some c -> idle_ok c) -> socks_ok s'.
Proof. intros [R I] Hj E H Hi. split; [|done]. rewrite E. unfold csock_get. net_cbn. by eapply refs_get. Qed.

(** A holder hands its reference to [csock_put]. *)
Lemma put_refs s s1 j :
  socks_ok s -> nt_socks s1 = nt_socks s -> (forall i, holders s i = holders s1 i + is_it i (Some j)) ->
  (forall k c, nt_conns s1 !! k = Some c -> idle_ok c) -> socks_ok (csock_put j s1).
Proof. intros [R I] E H Hi. apply put_ok; [done|]. rewrite E. eapply refs_same; [exact R|]. intros i. by rewrite H. Qed.

(** *** Senders *)

Lemma find_conn {A} (f : A -> bool) l x : List.find f l = Some x -> exists k, l !! k = Some x /\ f x = true.
Proof. intros [Hin H]%find_some. apply list_elem_of_In, list_elem_of_lookup in Hin as [k Hk]. by exists k. Qed.

Lemma get_sender_ok s j k c : socks_ok s -> nt_conns s !! k = Some c -> cn_csk c = Some j -> socks_ok (set_senders (j :: nt_senders s) (csock_get j s)).
Proof.
  intros Hs Hk Hc. eapply (get_refs s j); [done|by eapply conn_held|done| |apply (so_idle _ Hs)].
  intros i. unfold holders, csock_get. net_cbn. cbn [tally foldr]. fold (tally (fun j => is_it i (Some j)) (nt_senders s)). lia.
Qed.

Lemma find_get_ok cid s : socks_ok s -> socks_ok (snd (conn_find_get cid s)).
Proof.
  intros Hs. unfold conn_find_get. destruct (List.find _ _) as [c|] eqn:F; [|done]. destruct (find_conn _ _ _ F) as (k & Hk & _).
  destruct (cn_csk c) as [j|] eqn:E; [|done]. by eapply get_sender_ok.
Qed.

Lemma push_get_ok cid s : socks_ok s -> socks_ok (push_get cid s).
Proof.
  intros Hs. unfold push_get.
  assert (Hl : Forall (fun j => exists k c, nt_conns s !! k = Some c /\ cn_csk c = Some j) (push_targets cid s)).
  { apply Forall_forall. intros j (c & Hc & Hj)%list_elem_of_omap. apply list_elem_of_In, filter_In in Hc as [Hc _].
    apply list_elem_of_In, list_elem_of_lookup in Hc as [k Hk]. by exists k, c. }
  revert Hl. generalize (push_targets cid s) as l. intros l. revert s Hs. induction l as [|j l IH]; intros s Hs Hl; [done|]. cbn [List.fold_left].
  apply Forall_cons in Hl as [(k & c & Hk & Hc) Hl]. apply IH; [by eapply get_sender_ok|done].
Qed.

(** *** Workers *)

Lemma worker_read_ok t s : socks_ok s -> socks_ok (worker_read t s).
Proof.
  intros Hs. unfold worker_read. destruct (nt_workers s !! t) as [w|] eqn:E; [|done]. destruct (wk_phase w) as [|j|j|j o|] eqn:P; try done.
  destruct (nt_conns s !! wk_slot w) as [c|]; [|done]. destruct (_ <=? _); [done|]. eapply socks_same; [exact Hs|done| |apply (so_idle _ Hs)].
  intros i. rewrite (holders_phase _ _ _ _ _ E). unfold worker_holds. rewrite P. cbn. lia.
Qed.

Lemma worker_frame_ok t stored s : socks_ok s -> socks_ok (worker_frame t stored s).
Proof.
  intros Hs. unfold worker_frame. destruct (nt_workers s !! t) as [w|] eqn:E; [|done]. destruct (wk_phase w) as [|j|j|j o|] eqn:P; try done.
  assert (H1 : forall i, holders (set_phase t (WIdle j) s) i = holders s i)
    by (intros i; rewrite (holders_phase _ _ _ _ _ E); unfold worker_holds; rewrite P; cbn; lia).
  destruct stored; [|eapply socks_same; [exact Hs|done|done|apply (so_idle _ Hs)]].
  eapply socks_same; [exact Hs|done| |].
  - intros i. rewrite <- H1. unfold set_queue, holders. net_cbn. f_equal. f_equal. f_equal. destruct (nt_conns s !! wk_slot w) as [c|] eqn:C.
    + unfold set_phase. net_cbn. rewrite (tally_alter _ _ _ _ _ C). unfold conn_holds. cbn. lia.
    + f_equal. apply list_eq. intros k. unfold set_phase. net_cbn. destruct (decide (k = wk_slot w)) as [->|]; [by rewrite list_lookup_alter_eq, C|by rewrite list_lookup_alter_ne].
  - unfold set_queue, set_phase. net_cbn. intros k c [(-> & c0 & Hc & ->)|[_ Hc]]%lookup_alter_inv; [|by apply (so_idle _ Hs k)]. exact (so_idle _ Hs _ _ Hc).
Qed.

Lemma worker_start_ok t w s : nt_workers s !! t = Some w -> wk_phase w = WStart -> socks_ok s -> socks_ok (worker_start t s).
Proof.
  intros E P Hs. unfold worker_start. rewrite E. destruct (nt_conns s !! wk_slot w) as [c|] eqn:C; [|done].
  assert (Hd : socks_ok (set_phase t WDone s)).
  { eapply socks_same; [exact Hs|done| |apply (so_idle _ Hs)]. intros i. rewrite (holders_phase _ _ _ _ _ E). unfold worker_holds. rewrite P. cbn. lia. }
  destruct (cn_csk c) as [j|] eqn:J; [|done]. destruct (bool_decide _); [|done].
  eapply (get_refs s j); [done|by eapply conn_held|done| |apply (so_idle _ Hs)].
  intros i. assert (E' : nt_workers (csock_get j s) !! t = Some w) by done. rewrite (holders_phase _ _ _ _ _ E').
  change (holders (csock_get j s) i) with (holders s i). unfold worker_holds. rewrite P. cbn. lia.
Qed.

Lemma clear_idle c : idle_ok (clear_conn c).
Proof. by intros _. Qed.

Lemma worker_leave_ok t s : socks_ok s -> socks_ok (worker_leave t s).
Proof.
  intros Hs. unfold worker_leave. destruct (nt_workers s !! t) as [w|] eqn:E; [|done].
  assert (K : forall j c, (wk_phase w = WIdle j \/ wk_phase w = WRead j) -> nt_conns s !! wk_slot w = Some c ->
    socks_ok (if bool_decide (cn_thread c = Some t) then set_phase t (WLeave j (cn_csk c)) (set_conns (alter clear_conn (wk_slot w) (nt_conns s)) s)
              else set_phase t (WLeave j None) s)).
  { intros j c P C. assert (Hw : forall i, worker_holds i w = is_it i (Some j)) by (intros i; unfold worker_holds; by destruct P as [-> | ->]).
    destruct (bool_decide _).
    - eapply socks_same; [exact Hs|done| |].
      + intros i. assert (E' : nt_workers (set_conns (alter clear_conn (wk_slot w) (nt_conns s)) s) !! t = Some w) by done.
        rewrite (holders_phase _ _ _ _ _ E'), (holders_conn_alter _ _ _ _ _ C), Hw. unfold conn_holds, worker_holds. cbn [wk_phase cn_csk clear_conn]. rewrite ?is_it_none. lia.
      + unfold set_phase. net_cbn. intros k c' [(-> & c0 & Hc & ->)|[_ Hc]]%lookup_alter_inv; [apply clear_idle|by apply (so_idle _ Hs k)].
    - eapply socks_same; [exact Hs|done| |apply (so_idle _ Hs)]. intros i. rewrite (holders_phase _ _ _ _ _ E), Hw. unfold worker_holds. cbn [wk_phase cn_csk clear_conn]. rewrite ?is_it_none. lia. }
  destruct (wk_phase w) as [|j|j|j o|] eqn:P; try done; (destruct (nt_conns s !! wk_slot w) as [c|] eqn:C; [|done]); apply K; auto.
Qed.

Lemma worker_drop_ok t s : socks_ok s -> socks_ok (worker_drop t s).
Proof.
  intros Hs. unfold worker_drop. destruct (nt_workers s !! t) as [w|] eqn:E; [|done]. destruct (wk_phase w) as [|j|j|j o|] eqn:P; try done.
  destruct o as [j'|].
  - eapply put_refs; [exact Hs|done| |apply (so_idle _ Hs)]. intros i. rewrite (holders_phase _ _ _ _ _ E). unfold worker_holds. rewrite P. cbn [wk_phase cn_csk clear_conn]. rewrite ?is_it_none. lia.
  - eapply put_refs; [exact Hs|done| |apply (so_idle _ Hs)]. intros i. rewrite (holders_phase _ _ _ _ _ E). unfold worker_holds. rewrite P. cbn [wk_phase cn_csk clear_conn]. rewrite ?is_it_none. lia.
Qed.

Lemma sender_done_ok before i after s : nt_senders s = before ++ i :: after -> socks_ok s -> socks_ok (sender_done before i after s).
Proof.
  intros E Hs. unfold sender_done. eapply put_refs; [exact Hs|done| |apply (so_idle _ Hs)].
  intros k. unfold holders. net_cbn. rewrite E, !tally_app. cbn [tally foldr]. fold (tally (fun j => is_it k (Some j)) after). lia.
Qed.

(** *** Accepting *)

Lemma accept_joined_ok s : socks_ok s -> socks_ok (accept_joined s).
Proof.
  intros Hs. unfold accept_joined. destruct (nt_accept s) as [|l [|t ts]] eqn:A; try done. destruct (nt_workers s !! t) as [w|]; [|done].
  destruct (wk_phase w); try done. eapply socks_same; [exact Hs|done| |apply (so_idle _ Hs)]. intros i. unfold holders. net_cbn. by rewrite A.
Qed.

Lemma accept_drop_ok s : socks_ok s -> socks_ok (accept_drop s).
Proof.
  intros Hs. unfold accept_drop. destruct (nt_accept s) as [|[|j l] [|t ts]] eqn:A; try done.
  - eapply socks_same; [exact Hs|done| |apply (so_idle _ Hs)]. intros i. unfold holders. net_cbn. by rewrite A.
  - eapply put_refs; [exact Hs|done| |apply (so_idle _ Hs)]. intros i. unfold holders. net_cbn. rewrite A. cbn [accept_holds tally foldr].
    fold (tally (fun j => is_it i (Some j)) l). lia.
Qed.

Lemma tally_clear i l : tally (conn_holds i) (map clear_conn l) = 0.
Proof. induction l as [|c l IH]; cbn; [done|]. unfold tally in IH. by rewrite IH. Qed.

Lemma exit_take_ok s : nt_accept s = AIdle -> socks_ok s -> socks_ok (exit_take s).
Proof.
  intros A Hs. unfold exit_take. eapply socks_same; [exact Hs|done| |].
  - intros i. unfold holders. net_cbn. rewrite A, tally_clear. cbn [accept_holds]. rewrite tally_omap.
    assert (E : tally (fun c => match cn_csk c with Some y => is_it i (Some y) | None => 0 end) (nt_conns s) = tally (conn_holds i) (nt_conns s)); [|lia].
    unfold tally. induction (nt_conns s) as [|c l IH]; cbn; [done|]. rewrite IH. unfold conn_holds. by destruct (cn_csk c).
  - net_cbn. intros k c Hc. apply list_lookup_fmap_Some in Hc as (c0 & -> & _). apply clear_idle.
Qed.

Lemma host_recv_ok s : socks_ok s -> socks_ok (snd (host_recv s)).
Proof.
  intros Hs. unfold host_recv. destruct (nt_queue s) as [|k q]; [done|]. cbn [snd]. eapply socks_same; [exact Hs|done| |].
  - intros i. unfold holders. net_cbn. f_equal. f_equal. f_equal. destruct (nt_conns s !! k) as [c|] eqn:C.
    + rewrite (tally_alter _ _ _ _ _ C). unfold conn_holds. cbn. lia.
    + f_equal. apply list_eq. intros j. destruct (decide (j = k)) as [->|]; [by rewrite list_lookup_alter_eq, C|by rewrite list_lookup_alter_ne].
  - net_cbn. intros j c [(-> & c0 & Hc & ->)|[_ Hc]]%lookup_alter_inv; [|by apply (so_idle _ Hs j)]. exact (so_idle _ Hs _ _ Hc).
Qed.

Lemma pick_slot_at cid conns k : pick_slot cid conns = Some k -> exists c, conns !! k = Some c.
Proof.
  unfold pick_slot. destruct (cid =? 0).
  - intros (c & Hc & _)%find_idx_Some. by exists c.
  - destruct (find_idx (fun c => cn_in_use c && (cn_cid c =? cid)) conns) as [j|] eqn:F.
    + intros [= <-]. destruct (find_idx_Some _ _ _ F) as (c & Hc & _). by exists c.
    + intros (c & Hc & _)%find_idx_Some. by exists c.
Qed.

(** What a slot gave up when it was in use. *)
Lemma old_holds i c : idle_ok c -> tally (fun j => is_it i (Some j)) (if cn_in_use c then opt_list (cn_csk c) else []) = conn_holds i c.
Proof.
  intros H. unfold conn_holds. destruct (cn_in_use c) eqn:U.
  - destruct (cn_csk c); cbn; [lia|done].
  - by destruct (H U) as [-> _].
Qed.

Lemma accept_place_ok cid spawned s : nt_accept s = AIdle -> socks_ok s -> socks_ok (accept_place cid spawned s).
Proof.
  intros A Hs. unfold accept_place. set (n := length (nt_socks s)).
  assert (Hn : refs_ok (nt_socks (csock_new s)) (fun i => holders s i + is_it i (Some n))) by (eapply refs_new; [apply (so_refs _ Hs)|done]).
  destruct (pick_slot _ _) as [k|] eqn:P; [|by apply put_ok; [apply (so_idle _ Hs)|]].
  apply pick_slot_at in P as [c C]. rewrite C. change (default conn0 (Some c)) with c. change (nt_conns (csock_new s)) with (nt_conns s) in *.
  pose proof (so_idle _ Hs k c C) as Hc. pose proof (fun i => old_holds i c Hc) as Ho.
  set (olds := if cn_in_use c then opt_list (cn_csk c) else []) in *.
  assert (E : (if cn_in_use c then (opt_list (cn_csk c), opt_list (cn_thread c)) else ([], [])) = (olds, if cn_in_use c then opt_list (cn_thread c) else []))
    by (unfold olds; by destruct (cn_in_use c)).
  rewrite E. destruct spawned.
  - split.
    + unfold csock_new. net_cbn. eapply refs_same; [exact Hn|]. intros i. unfold holders. net_cbn. rewrite (tally_insert _ _ _ _ _ C), tally_app, A.
      cbn [accept_holds]. rewrite Ho. cbn [tally foldr worker_holds wk_phase]. unfold conn_holds. cbn [cn_csk]. lia.
    + unfold csock_new. net_cbn. intros j c' [[-> ->]|[_ Hj]]%lookup_insert_inv; [done|by apply (so_idle _ Hs j)].
  - change (socks_ok (csock_put n (set_accept (AReplace olds (if cn_in_use c then opt_list (cn_thread c) else []))
      (set_conns (<[k := {| cn_csk := None; cn_cid := cid; cn_thread := None; cn_in_use := false; cn_queued := cn_queued c |}]> (nt_conns s)) (csock_new s))))).
    apply put_ok.
    + net_cbn. intros j c' [[-> ->]|[_ Hj]]%lookup_insert_inv; [done|by apply (so_idle _ Hs j)].
    + eapply refs_same; [exact Hn|]. intros i. unfold holders, csock_new. net_cbn. rewrite (tally_insert _ _ _ _ _ C), A. cbn [accept_holds]. rewrite Ho.
      unfold conn_holds. cbn [cn_csk]. rewrite is_it_none. lia.
Qed.

Lemma socks_init : socks_ok net0.
Proof. split; [intros i; by vm_compute|]. intros k c Hk. apply (repeat_lookup conn0 AMBA_VIRT_MAX_CONNS) in Hk as ->. done. Qed.

Lemma socks_step s s' : net_step s s' -> socks_ok s -> socks_ok s'.
Proof.
  intros H Hs. destruct H.
  - by apply accept_place_ok.
  - by apply accept_joined_ok.
  - by apply accept_drop_ok.
  - by apply exit_take_ok.
  - by eapply worker_start_ok.
  - by apply worker_read_ok.
  - by apply worker_frame_ok.
  - by apply worker_leave_ok.
  - by apply worker_drop_ok.
  - by apply find_get_ok.
  - by apply push_get_ok.
  - by apply sender_done_ok.
  - by apply host_recv_ok.
Qed.

Lemma reachable_socks s : net_reachable s -> socks_ok s.
Proof. induction 1 as [|s s' _ IH Hs]; [apply socks_init|by eapply socks_step]. Qed.

(** C11: over every interleaving of the accepting thread, the workers, the senders and the exit of the module, the count of
    a socket is the number of slots, workers, senders and replacements that hold it, and it is released exactly when
    nobody does: never while a worker is inside a read or a sender inside a send, and never left behind. *)
Theorem sockets_counted s i c :
  net_reachable s -> nt_socks s !! i = Some c ->
  cs_ref c = holders s i /\ (cs_released c = true <-> holders s i = 0) /\
  (forall t w, nt_workers s !! t = Some w -> wk_phase w = WIdle i \/ wk_phase w = WRead i -> cs_released c = false) /\ (i ∈ nt_senders s -> cs_released c = false).
Proof.
  intros Hr Hi. pose proof (so_refs _ (reachable_socks s Hr) i) as H. rewrite Hi in H. destruct H as (H1 & H2 & H3). split_and!; [done|done| |].
  - intros t w Hw P. apply not_true_is_false. rewrite H3. enough (0 < holders s i) by lia. eapply worker_held; [exact Hw|]. unfold worker_holds.
    destruct P as [-> | ->]; rewrite is_it_some; by destruct (decide (i = i)).
  - intros [k Hk]%list_elem_of_lookup. apply not_true_is_false. rewrite H3. destruct (parts_nonneg s i) as (? & ? & _ & ?).
    pose proof (tally_ge (fun j => is_it i (Some j)) (nt_senders s) k i (fun x => is_it_nonneg i (Some x)) Hk) as G. cbn beta in G. rewrite is_it_some in G.
    destruct (decide (i = i)); [|done]. unfold holders. lia.
Qed.

(** ** The queue *)

Definition accept_threads (a : accepting) : list nat := match a with AIdle => [] | AReplace _ ts => ts end.
Definition active (p : phase) : bool := match p with WIdle _ | WRead _ => true | _ => false end.
Definition reads (p : phase) : bool := match p with WRead _ => true | _ => false end.

(** 1 for a worker of slot [k] that reads a frame. *)
Definition reads_for (k : nat) (w : worker) : Z := if reads (wk_phase w) && Nat.eqb (wk_slot w) k then 1 else 0.
Definition waiting (k : nat) (q : list nat) : Z := tally (fun j => is_it k (Some j)) q.

Record queue_ok (s : net) : Prop := {
  qo_count : forall k c, nt_conns s !! k = Some c -> cn_queued c = waiting k (nt_queue s);
  qo_active : forall t w, nt_workers s !! t = Some w -> active (wk_phase w) = true ->
    (exists c, nt_conns s !! wk_slot w = Some c /\ cn_thread c = Some t) \/ t ∈ accept_threads (nt_accept s);
  qo_place : forall k c t, nt_conns s !! k = Some c -> cn_thread c = Some t -> exists w, nt_workers s !! t = Some w /\ wk_slot w = k;
  qo_once : forall t u w v, t ∈ accept_threads (nt_accept s) -> u ∈ accept_threads (nt_accept s) -> nt_workers s !! t = Some w -> nt_workers s !! u = Some v ->
    wk_slot w = wk_slot v -> t = u;
  qo_room : forall k c, nt_conns s !! k = Some c -> cn_queued c + tally (reads_for k) (nt_workers s) <= AMBA_VIRT_RX_QUEUE_MAX + 1 }.

(** A sum with at most two places that count. *)
Definition shift (o : option nat) : option nat := match o with Some (S n) => Some n | _ => None end.
Definition hits {A} (o : option nat) (l : list A) : Z := match o with Some t => if (t <? length l)%nat then 1 else 0 | None => 0 end.
Definition at_ (t : nat) (o : option nat) : Z := if decide (o = Some t) then 1 else 0.

Lemma hits_cons {A} o (x : A) l : hits o (x :: l) = at_ 0 o + hits (shift o) l.
Proof.
  unfold hits, at_, shift. destruct o as [[|n]|].
  - destruct (decide (Some 0%nat = Some 0%nat)); [done|congruence].
  - destruct (decide (Some (S n) = Some 0%nat)); [congruence|]. change (S n <? length (x :: l))%nat with (n <? length l)%nat. lia.
  - by destruct (decide (None = Some 0%nat)).
Qed.

Lemma at_shift t o : at_ (S t) o = at_ t (shift o).
Proof. unfold at_. destruct o as [[|n]|]; cbn; repeat destruct (decide _); congruence. Qed.

Lemma tally_two {A} (f : A -> Z) l a b : (forall t x, l !! t = Some x -> f x <= at_ t a + at_ t b) -> tally f l <= hits a l + hits b l.
Proof.
  revert a b. induction l as [|x l IH]; intros a b H.
  - unfold hits. cbn. destruct a, b; cbn; lia.
  - rewrite !hits_cons. pose proof (H 0%nat x eq_refl) as H0. assert (tally f l <= hits (shift a) l + hits (shift b) l).
    { apply IH. intros t y Hy. rewrite <- !at_shift. by apply (H (S t)). }
    change (tally f (x :: l)) with (f x + tally f l). lia.
Qed.

Lemma hits_one {A} o (l : list A) : hits o l <= 1.
Proof. unfold hits. destruct o; [|lia]. destruct (_ <? _)%nat; lia. Qed.

(** At most two workers read for one slot: the one of the slot and the one it replaces. *)
Lemma readers_two s k :
  (forall t w, nt_workers s !! t = Some w -> active (wk_phase w) = true ->
    (exists c, nt_conns s !! wk_slot w = Some c /\ cn_thread c = Some t) \/ t ∈ accept_threads (nt_accept s)) ->
  (forall t u w v, t ∈ accept_threads (nt_accept s) -> u ∈ accept_threads (nt_accept s) -> nt_workers s !! t = Some w -> nt_workers s !! u = Some v ->
    wk_slot w = wk_slot v -> t = u) ->
  tally (reads_for k) (nt_workers s) <= 2.
Proof.
  intros Ha Ho. set (a := match nt_conns s !! k with Some c => cn_thread c | None => None end).
  set (b := List.find (fun t => match nt_workers s !! t with Some w => Nat.eqb (wk_slot w) k | None => false end) (accept_threads (nt_accept s))).
  assert (H : tally (reads_for k) (nt_workers s) <= hits a (nt_workers s) + hits b (nt_workers s)).
  { apply tally_two. intros t w Hw. unfold reads_for. destruct (reads (wk_phase w)) eqn:R; cbn [andb]; [|unfold at_; repeat destruct (decide _); lia].
    destruct (Nat.eqb_spec (wk_slot w) k) as [E|]; [|unfold at_; repeat destruct (decide _); lia].
    assert (Hact : active (wk_phase w) = true) by (by destruct (wk_phase w)). destruct (Ha t w Hw Hact) as [(c & Hc & Ht)|Hin].
    - assert (a = Some t) as -> by (unfold a; rewrite <- E, Hc; done). unfold at_. destruct (decide (Some t = Some t)); [|done]. destruct (decide _); lia.
    - assert (b = Some t) as ->.
      { unfold b. destruct (List.find _ _) as [u|] eqn:F.
        - destruct (find_some _ _ F) as [Hu Hv]. destruct (nt_workers s !! u) as [v|] eqn:V; [|done]. apply Nat.eqb_eq in Hv. f_equal.
          apply (Ho u t v w); [by apply list_elem_of_In|done|done|done|congruence].
        - apply find_none with (x := t) in F; [|by apply list_elem_of_In]. rewrite Hw, E, Nat.eqb_refl in F. done. }
      unfold at_. destruct (decide (Some t = Some t)); [|done]. destruct (decide _); lia. }
  pose proof (hits_one a (nt_workers s)). pose proof (hits_one b (nt_workers s)). lia.
Qed.

Lemma reads_for_nonneg k w : 0 <= reads_for k w.
Proof. unfold reads_for. destruct (_ && _); lia. Qed.

(** Nothing that counts has changed. *)
Lemma queue_same s s' :
  queue_ok s -> nt_conns s' = nt_conns s -> nt_workers s' = nt_workers s -> accept_threads (nt_accept s') = accept_threads (nt_accept s) -> nt_queue s' = nt_queue s ->
  queue_ok s'.
Proof. intros [H1 H2 H3 H4 H5] E1 E2 E3 E4. split; rewrite ?E1, ?E2, ?E3, ?E4; done. Qed.

Lemma phase_at t p s u v : nt_workers (set_phase t p s) !! u = Some v ->
  exists w, nt_workers s !! u = Some w /\ wk_slot v = wk_slot w /\ (u = t /\ wk_phase v = p \/ u <> t /\ v = w).
Proof. unfold set_phase. net_cbn. intros [(-> & w & Hw & ->)|[Hu Hw]]%lookup_alter_inv; [exists w|exists v]; auto. Qed.

(** A worker goes on to phase [p]. *)
Lemma queue_phase t w p s :
  queue_ok s -> nt_workers s !! t = Some w ->
  (active p = true -> active (wk_phase w) = true \/ exists c, nt_conns s !! wk_slot w = Some c /\ cn_thread c = Some t) ->
  (reads p = true -> forall c, nt_conns s !! wk_slot w = Some c -> cn_queued c < AMBA_VIRT_RX_QUEUE_MAX) -> queue_ok (set_phase t p s).
Proof.
  intros [H1 H2 H3 H4 H5] Hw Ha Hr.
  assert (A : forall u v, nt_workers (set_phase t p s) !! u = Some v -> active (wk_phase v) = true ->
    (exists c, nt_conns s !! wk_slot v = Some c /\ cn_thread c = Some u) \/ u ∈ accept_threads (nt_accept s)).
  { intros u v (v0 & Hv & Es & [[-> Ep]|[_ ->]])%phase_at Hact; [|by apply H2]. rewrite Es. assert (v0 = w) as -> by congruence. rewrite Ep in Hact.
    destruct (Ha Hact) as [Hact'|Hc]; [by apply H2|by left]. }
  assert (O : forall x y w v, x ∈ accept_threads (nt_accept s) -> y ∈ accept_threads (nt_accept s) -> nt_workers (set_phase t p s) !! x = Some w ->
    nt_workers (set_phase t p s) !! y = Some v -> wk_slot w = wk_slot v -> x = y).
  { intros x y w' v' Hx Hy (w0 & Hw0 & E1 & _)%phase_at (v0 & Hv0 & E2 & _)%phase_at E. apply (H4 x y w0 v0); congruence. }
  split; try done.
  - intros k c u Hk Hu. destruct (H3 k c u Hk Hu) as (v & Hv & E). unfold set_phase. net_cbn.
    destruct (decide (u = t)) as [->|]; [rewrite list_lookup_alter_eq, Hv; cbn; eexists; by split; [done|]|rewrite list_lookup_alter_ne by done; by exists v].
  - intros k c Hk. destruct (reads p && Nat.eqb (wk_slot w) k) eqn:R.
    + apply andb_true_iff in R as [R <-%Nat.eqb_eq]. pose proof (Hr R c Hk). pose proof (readers_two (set_phase t p s) (wk_slot w) A O). lia.
    + specialize (H5 k c Hk). unfold set_phase. net_cbn. rewrite (tally_alter _ _ _ _ _ Hw). pose proof (reads_for_nonneg k w).
      unfold reads_for at 3. cbn [wk_phase wk_slot]. rewrite R. lia.
Qed.

Lemma worker_start_queue t w s : nt_workers s !! t = Some w -> wk_phase w = WStart -> queue_ok s -> queue_ok (worker_start t s).
Proof.
  intros E P Hq. unfold worker_start. rewrite E. destruct (nt_conns s !! wk_slot w) as [c|] eqn:C; [|done].
  assert (Hd : queue_ok (set_phase t WDone s)) by (eapply queue_phase; [done|exact E|done|done]).
  destruct (cn_csk c) as [j|]; [|done]. case_bool_decide as B; [|done].
  assert (H1 : queue_ok (set_phase t (WIdle j) s)) by (eapply queue_phase; [done|exact E|intros _; right; by exists c|done]). by eapply queue_same.
Qed.

Lemma worker_read_queue t s : queue_ok s -> queue_ok (worker_read t s).
Proof.
  intros Hq. unfold worker_read. destruct (nt_workers s !! t) as [w|] eqn:E; [|done]. destruct (wk_phase w) as [|j|j|j o|] eqn:P; try done.
  destruct (nt_conns s !! wk_slot w) as [c|] eqn:C; [|done]. destruct (Z.leb_spec AMBA_VIRT_RX_QUEUE_MAX (cn_queued c)); [done|].
  eapply queue_phase; [done|exact E|left; by rewrite P|]. intros _ c' Hc. congruence.
Qed.

(** The count of a slot changes with the queue. *)
Definition add_queued (d : Z) (c : conn) : conn :=
  {| cn_csk := cn_csk c; cn_cid := cn_cid c; cn_thread := cn_thread c; cn_in_use := cn_in_use c; cn_queued := cn_queued c + d |}.

Lemma queue_moved s k d q :
  queue_ok s -> (forall j, waiting j q = waiting j (nt_queue s) + d * is_it j (Some k)) ->
  (forall c, nt_conns s !! k = Some c -> cn_queued c + d + tally (reads_for k) (nt_workers s) <= AMBA_VIRT_RX_QUEUE_MAX + 1) ->
  queue_ok (set_queue q (set_conns (alter (add_queued d) k (nt_conns s)) s)).
Proof.
  intros [H1 H2 H3 H4 H5] Hw Hr.
  assert (K : forall j c, alter (add_queued d) k (nt_conns s) !! j = Some c -> exists c0, nt_conns s !! j = Some c0 /\ cn_thread c = cn_thread c0 /\
    cn_queued c = cn_queued c0 + d * is_it j (Some k)).
  { intros j c [(-> & c0 & Hc & ->)|[Hj Hc]]%lookup_alter_inv.
    - exists c0. cbn. rewrite is_it_some. destruct (decide (k = k)); [|done]. split_and!; [done|done|lia].
    - exists c. rewrite is_it_some. destruct (decide (j = k)); [done|]. split_and!; [done|done|lia]. }
  split; net_cbn.
  - intros j c (c0 & Hc & _ & ->)%K. rewrite Hw. by rewrite (H1 j c0 Hc).
  - intros t w Ht Ha. destruct (H2 t w Ht Ha) as [(c & Hc & E)|]; [|by right]. left.
    destruct (decide (wk_slot w = k)) as [Es|]; [rewrite Es in *; rewrite list_lookup_alter_eq, Hc; cbn; by eexists|rewrite list_lookup_alter_ne by done; by exists c].
  - intros j c t (c0 & Hc & E & _)%K Ht. apply (H3 j c0); congruence.
  - done.
  - intros j c Hj. apply K in Hj as (c0 & Hc & _ & ->). rewrite is_it_some. destruct (decide (j = k)) as [->|].
    + specialize (Hr c0 Hc). lia.
    + specialize (H5 j c0 Hc). lia.
Qed.

Lemma worker_frame_queue t stored s : queue_ok s -> queue_ok (worker_frame t stored s).
Proof.
  intros Hq. unfold worker_frame. destruct (nt_workers s !! t) as [w|] eqn:E; [|done]. destruct (wk_phase w) as [|j|j|j o|] eqn:P; try done.
  assert (H1 : queue_ok (set_phase t (WIdle j) s)) by (eapply queue_phase; [done|exact E|left; by rewrite P|done]). destruct stored; [|done].
  apply (queue_moved (set_phase t (WIdle j) s) (wk_slot w) 1 _ H1).
  - intros k. unfold waiting. rewrite tally_app. cbn [tally foldr]. lia.
  - intros c Hc. change (nt_conns (set_phase t (WIdle j) s)) with (nt_conns s) in Hc. pose proof (qo_room _ Hq _ _ Hc) as R. unfold set_phase. net_cbn.
    rewrite (tally_alter _ _ _ _ _ E). unfold reads_for at 2 3. rewrite P. cbn [reads wk_phase wk_slot andb]. rewrite Nat.eqb_refl. lia.
Qed.

Lemma host_recv_queue s : queue_ok s -> queue_ok (snd (host_recv s)).
Proof.
  intros Hq. unfold host_recv. destruct (nt_queue s) as [|k q] eqn:Q; [done|]. cbn [snd].
  apply (queue_moved s k (-1) q Hq).
  - intros j. unfold waiting. rewrite Q. cbn [tally foldr]. fold (tally (fun i => is_it j (Some i)) q). lia.
  - intros c Hc. pose proof (qo_room _ Hq _ _ Hc). lia.
Qed.

Lemma worker_leave_queue t s : queue_ok s -> queue_ok (worker_leave t s).
Proof.
  intros Hq. unfold worker_leave. destruct (nt_workers s !! t) as [w|] eqn:E; [|done].
  assert (K : forall j c, nt_conns s !! wk_slot w = Some c ->
    queue_ok (if bool_decide (cn_thread c = Some t) then set_phase t (WLeave j (cn_csk c)) (set_conns (alter clear_conn (wk_slot w) (nt_conns s)) s)
              else set_phase t (WLeave j None) s)).
  { intros j c C. assert (Hd : forall o, queue_ok (set_phase t (WLeave j o) s)) by (intros o; eapply queue_phase; [done|exact E|done|done]).
    case_bool_decide as B; [|done]. destruct (Hd (cn_csk c)) as [H1 H2 H3 H4 H5].
    assert (L : forall k d, alter clear_conn (wk_slot w) (nt_conns s) !! k = Some d -> exists d0, nt_conns s !! k = Some d0 /\ cn_queued d = cn_queued d0 /\
      (cn_thread d = None \/ k <> wk_slot w /\ d = d0)).
    { intros k d [(-> & d0 & Hd0 & ->)|[Hk Hd0]]%lookup_alter_inv; [exists d0|exists d]; split_and!; auto. }
    split.
    - intros k d Hk. apply L in Hk as (d0 & Hd0 & -> & _). by apply H1.
    - intros u v Hu Ha. destruct (H2 u v Hu Ha) as [(d & Hd0 & Et)|Hin]; [|by right]. left. exists d. split; [|done]. unfold set_phase. net_cbn.
      change (nt_conns s !! wk_slot v = Some d) in Hd0. destruct (decide (wk_slot v = wk_slot w)) as [Es|]; [|by rewrite list_lookup_alter_ne].
      rewrite Es, C in Hd0. injection Hd0 as <-. assert (u = t) as -> by congruence. apply phase_at in Hu as (_ & _ & _ & [[_ Ep]|[Hne _]]); [by rewrite Ep in Ha|done].
    - intros k d u Hk Hu. apply L in Hk as (d0 & Hd0 & _ & [Hn|[_ ->]]); [congruence|]. by apply (H3 k d0).
    - done.
    - intros k d Hk. apply L in Hk as (d0 & Hd0 & -> & _). by apply H5. }
  destruct (wk_phase w) as [|j|j|j o|]; try done; (destruct (nt_conns s !! wk_slot w) as [c|] eqn:C; [|done]); by apply K.
Qed.

Lemma worker_drop_queue t s : queue_ok s -> queue_ok (worker_drop t s).
Proof.
  intros Hq. unfold worker_drop. destruct (nt_workers s !! t) as [w|] eqn:E; [|done]. destruct (wk_phase w) as [|j|j|j o|] eqn:P; try done.
  destruct o as [j'|].
  - assert (H1 : queue_ok (set_phase t (WLeave j None) s)) by (eapply queue_phase; [done|exact E|done|done]). by eapply queue_same.
  - assert (H1 : queue_ok (set_phase t WDone s)) by (eapply queue_phase; [done|exact E|done|done]). by eapply queue_same.
Qed.

Lemma accept_joined_queue s : queue_ok s -> queue_ok (accept_joined s).
Proof.
  intros Hq. unfold accept_joined. destruct (nt_accept s) as [|l [|t ts]] eqn:A; try done. destruct (nt_workers s !! t) as [w|] eqn:W; [|done].
  destruct (wk_phase w) eqn:P; try done. destruct Hq as [H1 H2 H3 H4 H5]. rewrite A in *. split; net_cbn; try done.
  - intros u v Hu Ha. destruct (H2 u v Hu Ha) as [H|[->|H]%elem_of_cons]; [by left| |by right].
    assert (v = w) by congruence. subst v. by rewrite P in Ha.
  - intros x y w' v' Hx Hy. apply H4; by apply list_elem_of_further.
Qed.

Lemma accept_drop_queue s : queue_ok s -> queue_ok (accept_drop s).
Proof.
  intros Hq. unfold accept_drop. destruct (nt_accept s) as [|[|j l] [|t ts]] eqn:A; try done.
  - eapply queue_same; [exact Hq|done|done|by rewrite A|done].
  - eapply queue_same; [exact Hq|done|done|by rewrite A|done].
Qed.

Lemma exit_take_queue s : nt_accept s = AIdle -> queue_ok s -> queue_ok (exit_take s).
Proof.
  intros A [H1 H2 H3 H4 H5]. rewrite A in *. unfold exit_take.
  assert (L : forall k c, map clear_conn (nt_conns s) !! k = Some c -> exists c0, nt_conns s !! k = Some c0 /\ cn_queued c = cn_queued c0 /\ cn_thread c = None)
    by (intros k c (c0 & -> & Hc)%list_lookup_fmap_Some; by exists c0).
  assert (T : forall t, t ∈ omap cn_thread (nt_conns s) -> exists k c, nt_conns s !! k = Some c /\ cn_thread c = Some t).
  { intros t (c & [k Hk]%list_elem_of_lookup & Ht)%list_elem_of_omap. by exists k, c. }
  split; net_cbn; cbn [accept_threads].
  - intros k c (c0 & Hc & -> & _)%L. by apply H1.
  - intros t w Hw Ha. right. destruct (H2 t w Hw Ha) as [(c & Hc & Ht)|Hin]; [|by apply not_elem_of_nil in Hin].
    apply list_elem_of_omap. exists c. split; [by eapply list_elem_of_lookup_2|done].
  - intros k c t (c0 & _ & _ & Hn)%L. congruence.
  - intros t u w v (k & c & Hk & Ht)%T (j & d & Hj & Hu)%T Hw Hv E.
    destruct (H3 k c t Hk Ht) as (w' & Hw' & Ew). destruct (H3 j d u Hj Hu) as (v' & Hv' & Ev). assert (k = j) as <- by congruence. congruence.
  - intros k c (c0 & Hc & -> & _)%L. by apply H5.
Qed.

(** A new connection in slot [k], with a new worker or none. *)
Lemma queue_placed s k c c' ws l :
  queue_ok s -> nt_accept s = AIdle -> nt_conns s !! k = Some c -> idle_ok c -> cn_queued c' = cn_queued c ->
  (ws = [] /\ cn_thread c' = None \/ ws = [{| wk_slot := k; wk_phase := WStart |}] /\ cn_thread c' = Some (length (nt_workers s))) ->
  forall s', nt_conns s' = <[k := c']> (nt_conns s) -> nt_workers s' = nt_workers s ++ ws -> nt_queue s' = nt_queue s ->
  nt_accept s' = AReplace l (if cn_in_use c then opt_list (cn_thread c) else []) -> queue_ok s'.
Proof.
  intros [H1 H2 H3 H4 H5] A C Hi Eq Hws s' E1 E2 E3 E4. rewrite A in *. split; rewrite ?E1, ?E2, ?E3, ?E4; cbn [accept_threads].
  - intros j d [[-> ->]|[_ Hj]]%lookup_insert_inv; [|by apply H1]. rewrite Eq. by apply H1.
  - intros t w [Hw|[Hl Hw]]%lookup_app_Some Ha.
    + destruct (H2 t w Hw Ha) as [(d & Hd & Ht)|Hin]; [|by apply not_elem_of_nil in Hin]. destruct (decide (wk_slot w = k)) as [Es|].
      * right. rewrite Es, C in Hd. injection Hd as <-. destruct (cn_in_use c) eqn:U; [rewrite Ht; apply list_elem_of_here|]. destruct (Hi U) as [_ Hn]. congruence.
      * left. exists d. by rewrite list_lookup_insert_ne.
    + exfalso. destruct Hws as [[-> _]|[-> _]]; [done|]. apply list_lookup_singleton_Some in Hw as [_ <-]. done.
  - intros j d t [[-> ->]|[_ Hj]]%lookup_insert_inv Ht.
    + destruct Hws as [[_ Hn]|[-> Hn]]; [congruence|]. assert (t = length (nt_workers s)) as -> by congruence. eexists. split; [by apply list_lookup_middle|done].
    + destruct (H3 j d t Hj Ht) as (w & Hw & E). exists w. split; [by apply lookup_app_l_Some|done].
  - intros t u w v Ht Hu _ _ _. destruct (cn_in_use c); [|by apply not_elem_of_nil in Ht]. destruct (cn_thread c); [|by apply not_elem_of_nil in Ht].
    apply list_elem_of_singleton in Ht, Hu. congruence.
  - intros j d Hj. rewrite tally_app. assert (Z0 : tally (reads_for j) ws = 0) by (by destruct Hws as [[-> _]|[-> _]]). rewrite Z0.
    apply lookup_insert_inv in Hj as [[-> ->]|[_ Hj]]; [rewrite Eq; specialize (H5 k c C)|specialize (H5 j d Hj)]; lia.
Qed.

Lemma accept_place_queue cid spawned s : nt_accept s = AIdle -> socks_ok s -> queue_ok s -> queue_ok (accept_place cid spawned s).
Proof.
  intros A Hs Hq. unfold accept_place. destruct (pick_slot _ _) as [k|] eqn:P; [|by eapply queue_same].
  apply pick_slot_at in P as [c C]. rewrite C. change (default conn0 (Some c)) with c. change (nt_conns (csock_new s)) with (nt_conns s) in *.
  destruct (if cn_in_use c then _ else _) as [oc ot] eqn:E. assert (ot = if cn_in_use c then opt_list (cn_thread c) else []) as -> by (by destruct (cn_in_use c); injection E as _ <-).
  destruct spawned.
  - eapply (queue_placed s k c _ [{| wk_slot := k; wk_phase := WStart |}] oc); [done|done|exact C|apply (so_idle _ Hs _ _ C)| |right; split; [done|]|done|done|done|done]; done.
  - eapply (queue_placed s k c _ [] oc); [done|done|exact C|apply (so_idle _ Hs _ _ C)| |left; split; [done|]|done| |done|done]; [done|done|].
    symmetry. apply app_nil_r.
Qed.

Lemma queue_init : queue_ok net0.
Proof.
  assert (K : forall k c, nt_conns net0 !! k = Some c -> c = conn0) by (intros k c; apply (repeat_lookup conn0 AMBA_VIRT_MAX_CONNS)).
  split; try done.
  - by intros k c ->%K.
  - by intros k c t ->%K.
  - by intros k c ->%K.
Qed.

Lemma queue_step s s' : net_step s s' -> socks_ok s -> queue_ok s -> queue_ok s'.
Proof.
  intros H Hs Hq. destruct H.
  - by apply accept_place_queue.
  - by apply accept_joined_queue.
  - by apply accept_drop_queue.
  - by apply exit_take_queue.
  - by eapply worker_start_queue.
  - by apply worker_read_queue.
  - by apply worker_frame_queue.
  - by apply worker_leave_queue.
  - by apply worker_drop_queue.
  - unfold conn_find_get. destruct (List.find _ _) as [c|]; [|done]. destruct (cn_csk c); [|done]. by eapply queue_same.
  - unfold push_get. generalize (push_targets cid s) as l. intros l. clear Hs. revert s Hq. induction l as [|j l IH]; intros s Hq; [done|]. apply IH. by eapply queue_same.
  - by eapply queue_same.
  - by apply host_recv_queue.
Qed.

Lemma reachable_queue s : net_reachable s -> socks_ok s /\ queue_ok s.
Proof.
  induction 1 as [|s s' _ [IH1 IH2] Hs]; [split; [apply socks_init|apply queue_init]|]. split; [by eapply socks_step|by eapply queue_step].
Qed.

(** C35: the frames of a slot that wait for the server are counted exactly, and there are never more than 65 of them: the
    limit, and one more when the worker of a connection that is being replaced reads at the same moment as the new one. So
    a guest that floods requests cannot make the queue grow without bound. *)
Theorem queue_bounded s k c :
  net_reachable s -> nt_conns s !! k = Some c -> cn_queued c = waiting k (nt_queue s) /\ 0 <= cn_queued c <= AMBA_VIRT_RX_QUEUE_MAX + 1.
Proof.
  intros Hr Hk. destruct (reachable_queue s Hr) as [_ Hq]. pose proof (qo_count _ Hq k c Hk) as E. split; [done|].
  pose proof (qo_room _ Hq k c Hk). pose proof (tally_nonneg (reads_for k) (nt_workers s) (reads_for_nonneg k)).
  pose proof (tally_nonneg (fun j => is_it k (Some j)) (nt_queue s) (fun x => is_it_nonneg k (Some x))) as N. fold (waiting k (nt_queue s)) in N. lia.
Qed.

(** ** A run *)

(** Guest 5 connects, its worker reads a frame, the server answers while the guest connects again. *)
Definition net1 : net := worker_frame 0 true (worker_read 0 (worker_start 0 (accept_place 5 true net0))).
Definition net2 : net := accept_place 5 true (accept_drop (snd (conn_find_get 5 net1))).

Lemma net2_reachable : net_reachable net2.
Proof.
  apply (NrStep (accept_drop (snd (conn_find_get 5 net1)))); [|by apply NsAccept]. apply (NrStep (snd (conn_find_get 5 net1))); [|apply NsDrop].
  apply (NrStep net1); [|apply NsFind]. apply (NrStep (worker_read 0 (worker_start 0 (accept_place 5 true net0)))); [|apply NsFrame].
  apply (NrStep (worker_start 0 (accept_place 5 true net0))); [|apply NsRead].
  apply (NrStep (accept_place 5 true net0)); [|by eapply NsStart]. apply (NrStep net0); [apply NrInit|by apply NsAccept].
Qed.

(** The old socket is held by its worker, a sender and the accepting thread. *)
Lemma sockets_counted_witness : nt_socks net2 !! 0%nat = Some {| cs_ref := 3; cs_released := false |} /\ 3 = holders net2 0.
Proof.
  assert (E : nt_socks net2 !! 0%nat = Some {| cs_ref := 3; cs_released := false |}) by (vm_compute; reflexivity). split; [exact E|].
  exact (proj1 (sockets_counted net2 0 _ net2_reachable E)).
Defined.

Lemma queue_bounded_witness : exists c, nt_conns net2 !! 0%nat = Some c /\ cn_queued c = 1 /\ 0 <= cn_queued c <= AMBA_VIRT_RX_QUEUE_MAX + 1.
Proof.
  eexists. split; [vm_compute; reflexivity|]. split; [reflexivity|].
  refine (proj2 (queue_bounded net2 0 _ net2_reachable _)). vm_compute. reflexivity.
Defined.

End HostConnProps.
