(* ===== verification/GuestProbe.v ===== *)
(** * The PCI driver of a Linux guest (amba_virt_hvm.c) and the registration of its device (amba_virt_core.c)

    A guest sees its slice as the largest memory BAR of an ivshmem device. The probe maps it, reads the claim that the
    host module wrote at its end, registers the character device and sends the nonce back over vsock. A second device of
    16 MiB is the window for 32-bit DMA. Both use the one device structure [gdev].

    [probe_io] is what the kernel, the memory and the host answer during one probe. [registry] is the part of the kernel
    that knows the character devices: two nodes cannot have one number. *)

From stdpp Require Import base list.
From Stdlib Require Import ZArith Lia.
From S2P Require Import Prelude ByteBuf SliceArena HostWindow.
Import SliceArena HostWindow.

Module GuestProbe.

Definition ECONNRESET : Z := 104.
Definition ECONNREFUSED : Z := 111.
Definition ENOTCONN : Z := 107.
Definition EPIPE : Z := 32.
Definition EHOSTUNREACH : Z := 113.
Definition EAGAIN : Z := 11.

Definition AMBA_VIRT_CLAIM_ATTEMPTS : nat := 15.
Definition AMBA_VIRT_DMA32_WINDOW_SIZE : Z := 0x1000000.
Definition AMBA_VIRT_IAV_WIN_HDR_BYTES : Z := 64.
Definition AMBA_VIRT_MAX_MINORS : Z := 8.
Definition AMBA_VIRT_VSOCK_CID : Z := 2.
Definition AMBA_VIRT_VSOCK_PORT : Z := 5555.

(** ** The device numbers *)

(** [g_class], [g_devt_base], [g_instance_count], and the numbers of the character devices and of the nodes. *)
Record registry := { k_class : bool; k_base : bool; k_count : Z; k_cdevs : list Z; k_nodes : list Z }.

(** [struct amba_virt_dev]: the fields of the registration and of the window. *)
Record vdev := {
  v_host : bool; v_instance : Z; v_cid : Z; v_port : Z; v_devt : option Z; v_device : bool; v_phys : Z; v_size : Z; v_iomem : Z }.

Definition vdev0 : vdev :=
  {| v_host := false; v_instance := 0; v_cid := 0; v_port := 0; v_devt := None; v_device := false; v_phys := 0; v_size := 0; v_iomem := 0 |}.

Definition with_devt (v : vdev) (devt : option Z) (device : bool) (iomem : Z) : vdev :=
  {| v_host := v_host v; v_instance := v_instance v; v_cid := v_cid v; v_port := v_port v; v_devt := devt; v_device := device;
     v_phys := v_phys v; v_size := v_size v; v_iomem := iomem |}.

(** The end of both: an instance less, and nothing left after the last one. *)
Definition drop_instance (k : registry) : registry :=
  let n := k_count k - 1 in
  {| k_class := if n =? 0 then false else k_class k; k_base := if n =? 0 then false else k_base k; k_count := n;
     k_cdevs := k_cdevs k; k_nodes := k_nodes k |}.

Definition del (x : Z) (l : list Z) : list Z := List.filter (fun y => negb (y =? x)) l.

(** The answers of class_create, alloc_chrdev_region and cdev_add, and what device_create answers for a number, given the
    numbers that have a node. *)
Record reg_io := { ri_class : Z; ri_region : Z; ri_cdev : Z; ri_node : list Z -> Z -> Z }.

(** [amba_virt_core_init_instance] *)
Definition amba_virt_core_init_instance (io : reg_io) (is_host : bool) (id : Z) (v : vdev) (k : registry) : Z * vdev * registry :=
  if AMBA_VIRT_MAX_MINORS <=? id then (- EINVAL, v, k)
  else
    let v1 := {| v_host := is_host; v_instance := id; v_cid := AMBA_VIRT_VSOCK_CID; v_port := AMBA_VIRT_VSOCK_PORT + id; v_devt := v_devt v;
                 v_device := v_device v; v_phys := v_phys v; v_size := v_size v; v_iomem := v_iomem v |} in
    if negb (k_class k) && (ri_class io <? 0) then (ri_class io, v1, k)
    else if negb (k_base k) && negb (ri_region io =? 0) then
      (ri_region io, v1, {| k_class := negb (k_count k =? 0); k_base := k_base k; k_count := k_count k; k_cdevs := k_cdevs k; k_nodes := k_nodes k |})
    else
      let v2 := with_devt v1 (Some id) (v_device v1) (v_iomem v1) in
      let k1 := {| k_class := true; k_base := true; k_count := k_count k + 1; k_cdevs := k_cdevs k; k_nodes := k_nodes k |} in
      if negb (ri_cdev io =? 0) then (ri_cdev io, v2, drop_instance k1)
      else
        let r := ri_node io (k_nodes k1) id in
        if r <? 0 then (r, with_devt v2 (Some id) false (v_iomem v2), drop_instance k1)
        else (0, with_devt v2 (Some id) true (v_iomem v2),
              {| k_class := true; k_base := true; k_count := k_count k1; k_cdevs := id :: k_cdevs k1; k_nodes := id :: k_nodes k1 |}).

Definition amba_virt_core_init (io : reg_io) (is_host : bool) (v : vdev) (k : registry) : Z * vdev * registry :=
  amba_virt_core_init_instance io is_host 0 v k.

(** [amba_virt_core_exit_instance], once the connections are closed. *)
Definition amba_virt_core_exit_instance (v : vdev) (k : registry) : vdev * registry :=
  let nodes := if v_device v then match v_devt v with Some d => del d (k_nodes k) | None => k_nodes k end else k_nodes k in
  let cdevs := match v_devt v with Some d => del d (k_cdevs k) | None => k_cdevs k end in
  (with_devt v None false 0,
   drop_instance {| k_class := k_class k; k_base := k_base k; k_count := k_count k; k_cdevs := cdevs; k_nodes := nodes |}).

Definition amba_virt_core_exit (v : vdev) (k : registry) : vdev * registry := amba_virt_core_exit_instance v k.

(** ** The driver *)

(** [struct amba_virt_pci_window]; a device is a number, 0 is NULL. *)
Record pci_window := { pw_pdev : Z; pw_bar : Z; pw_phys : Z; pw_iomem : Z; pw_size : Z }.
Definition window0 : pci_window := {| pw_pdev := 0; pw_bar := 0; pw_phys := 0; pw_iomem := 0; pw_size := 0 |}.

(** Which window a device was given. *)
Inductive role := Bulk | Dma32.

(** The two windows, [gdev], the registry, and what the driver holds: devices that are enabled, regions, mappings and the
    driver data of the devices. *)
Record guest := {
  gs_bulk : pci_window; gs_dma32 : pci_window; gs_dev : vdev; gs_reg : registry; gs_enabled : list Z; gs_regions : list (Z * Z);
  gs_maps : list Z; gs_drvdata : list (Z * role) }.

Definition put_windows (g : guest) (bulk dma32 : pci_window) : guest :=
  {| gs_bulk := bulk; gs_dma32 := dma32; gs_dev := gs_dev g; gs_reg := gs_reg g; gs_enabled := gs_enabled g; gs_regions := gs_regions g;
     gs_maps := gs_maps g; gs_drvdata := gs_drvdata g |}.
Definition put_dev (g : guest) (v : vdev) (k : registry) : guest :=
  {| gs_bulk := gs_bulk g; gs_dma32 := gs_dma32 g; gs_dev := v; gs_reg := k; gs_enabled := gs_enabled g; gs_regions := gs_regions g;
     gs_maps := gs_maps g; gs_drvdata := gs_drvdata g |}.
Definition put_held (g : guest) (enabled : list Z) (regions : list (Z * Z)) (maps : list Z) (data : list (Z * role)) : guest :=
  {| gs_bulk := gs_bulk g; gs_dma32 := gs_dma32 g; gs_dev := gs_dev g; gs_reg := gs_reg g; gs_enabled := enabled; gs_regions := regions;
     gs_maps := maps; gs_drvdata := data |}.

Definition pci_enable_device (pdev : Z) (g : guest) : guest := put_held g (pdev :: gs_enabled g) (gs_regions g) (gs_maps g) (gs_drvdata g).
Definition pci_disable_device (pdev : Z) (g : guest) : guest := put_held g (del pdev (gs_enabled g)) (gs_regions g) (gs_maps g) (gs_drvdata g).
Definition pci_request_region (pdev bar : Z) (g : guest) : guest := put_held g (gs_enabled g) ((pdev, bar) :: gs_regions g) (gs_maps g) (gs_drvdata g).
Definition pci_release_region (pdev bar : Z) (g : guest) : guest :=
  put_held g (gs_enabled g) (List.filter (fun r => negb ((fst r =? pdev) && (snd r =? bar))) (gs_regions g)) (gs_maps g) (gs_drvdata g).
Definition ioremap (va : Z) (g : guest) : guest := put_held g (gs_enabled g) (gs_regions g) (va :: gs_maps g) (gs_drvdata g).
Definition iounmap (va : Z) (g : guest) : guest := put_held g (gs_enabled g) (gs_regions g) (del va (gs_maps g)) (gs_drvdata g).
Definition pci_set_drvdata (pdev : Z) (r : role) (g : guest) : guest :=
  put_held g (gs_enabled g) (gs_regions g) (gs_maps g) ((pdev, r) :: List.filter (fun x => negb (fst x =? pdev)) (gs_drvdata g)).

(** *** What others ask *)

Definition window_of (w : pci_window) : Z + Z * Z * Z :=
  if (pw_phys w =? 0) || (pw_iomem w =? 0) || (pw_size w =? 0) then inl (- ENODEV) else inr (pw_phys w, pw_iomem w, pw_size w).
Definition amba_virt_get_bulk_window (g : guest) : Z + Z * Z * Z := window_of (gs_bulk g).
Definition amba_virt_get_dma32_window (g : guest) : Z + Z * Z * Z := window_of (gs_dma32 g).
Definition amba_virt_get_window (g : guest) : Z + Z * Z * Z :=
  if negb (pw_phys (gs_bulk g) =? 0) then amba_virt_get_bulk_window g else amba_virt_get_dma32_window g.

(** *** The claim *)

Definition amba_virt_claim_retryable (err : Z) : bool :=
  existsb (Z.eqb err) [- ECONNRESET; - ECONNREFUSED; - ENOTCONN; - ETIMEDOUT; - EAGAIN; - EPIPE; - EHOSTUNREACH; - ENODEV].

(** The magic and the nonce of 24 bytes. *)
Definition claim_magic (bs : list Z) : Z := le_val (take 4 bs).
Definition claim_nonce (bs : list Z) : Z := le_val (take 8 (drop 16 bs)).

(** One look at the BAR of [len] bytes: at its end, then at the start of its last page. *)
Definition look_claim (bar : Z -> Z) (len : Z) : option Z :=
  let tail := mem_read bar (len - SIZEOF_CLAIM) 24 in
  if claim_magic tail =? AMBA_VIRT_SLICE_CLAIM_MAGIC then Some (claim_nonce tail)
  else if PAGE_SIZE <=? len then
    let page := mem_read bar (len - PAGE_SIZE) 24 in
    if claim_magic page =? AMBA_VIRT_SLICE_CLAIM_MAGIC then Some (claim_nonce page) else None
  else None.

(** The loop: [bars] is what the BAR holds at each turn. *)
Fixpoint read_claim (bars : list (Z -> Z)) (len : Z) : option Z :=
  match bars with
  | [] => None
  | bar :: rest => match look_claim bar len with Some nonce => Some nonce | None => read_claim rest len end
  end.

(** The loop of the request: the answers are the return value of the call, the status and the usable size. *)
Definition claim_result (a : Z * Z * Z) : Z :=
  let '(ret, status, _) := a in if (ret =? 0) && negb (status =? 0) then (if status <? 0 then status else - EPERM) else ret.
Fixpoint send_claim (answers : list (Z * Z * Z)) (last : Z * Z) : Z * Z :=
  match answers with
  | [] => last
  | a :: rest =>
      let ret := claim_result a in
      if (ret =? 0) || negb (amba_virt_claim_retryable ret) then (ret, snd a) else send_claim rest (ret, snd a)
  end.

(** *** Probe and remove *)

(** What one probe gets. [pi_bars] are the memory BARs with their index, start and length; [pi_tail] is the magic of the
    last bytes when they can be mapped, [pi_bar] what the BAR holds at each look and [pi_rpc] the answers
    of the host to a nonce. *)
Record probe_io := {
  pi_enable : Z; pi_bars : list (Z * Z * Z); pi_first : Z * Z; pi_tail : option Z; pi_request : Z; pi_map : Z; pi_bar : nat -> Z -> Z;
  pi_reg : reg_io; pi_rpc : Z -> nat -> Z * Z * Z }.

(** The largest memory BAR, from BAR 0: its index, start and length. *)
Definition largest_bar (io : probe_io) : Z * Z * Z :=
  let best := List.fold_left (fun best b => if snd best <? snd b then b else best) (pi_bars io) (0, fst (pi_first io), 0) in
  if snd best =? 0 then (0, fst (pi_first io), snd (pi_first io)) else best.

Definition AMBA_VIRT_IAV_WIN_HDR_MAGIC : Z := 0x57494d41.

(** The device structure for a window. *)
Definition dev_for (start len iomem : Z) : vdev :=
  {| v_host := false; v_instance := 0; v_cid := 0; v_port := 0; v_devt := None; v_device := false; v_phys := start; v_size := len; v_iomem := iomem |}.

(** The bulk window is given up: unmapped, released, disabled and forgotten. *)
Definition drop_bulk (pdev bar va : Z) (g : guest) : guest :=
  let g1 := pci_disable_device pdev (pci_release_region pdev bar (iounmap va g)) in put_windows g1 window0 (gs_dma32 g1).

(** The DMA32 window. *)
Definition probe_dma32 (io : probe_io) (pdev bar start len : Z) (g : guest) : Z * guest :=
  let w := {| pw_pdev := pdev; pw_bar := bar; pw_phys := start; pw_iomem := pi_map io; pw_size := len |} in
  if pi_map io =? 0 then
    let g1 := pci_disable_device pdev (pci_release_region pdev bar g) in (- ENOMEM, put_windows g1 (gs_bulk g1) window0)
  else
    let g1 := pci_set_drvdata pdev Dma32 (put_windows (ioremap (pi_map io) g) (gs_bulk g) w) in
    match v_devt (gs_dev g1) with
    | Some _ => (0, g1)
    | None => let '(_, v, k) := amba_virt_core_init (pi_reg io) false (dev_for start len (pi_map io)) (gs_reg g1) in (0, put_dev g1 v k)
    end.

(** The bulk window. *)
Definition probe_bulk (io : probe_io) (pdev bar start len : Z) (g : guest) : Z * guest :=
  if pi_map io =? 0 then
    let g1 := pci_disable_device pdev (pci_release_region pdev bar g) in (- ENOMEM, put_windows g1 window0 (gs_dma32 g1))
  else
    let w := {| pw_pdev := pdev; pw_bar := bar; pw_phys := start; pw_iomem := pi_map io; pw_size := len |} in
    let g1 := put_windows (ioremap (pi_map io) g) w (gs_dma32 g) in
    match read_claim (map (pi_bar io) (seq 0 8)) len with
    | None => (- EAGAIN, drop_bulk pdev bar (pi_map io) g1)
    | Some nonce =>
        let '(ret, v, k) := amba_virt_core_init (pi_reg io) false (dev_for start len (pi_map io)) (gs_reg g1) in
        let g2 := put_dev g1 v k in
        if negb (ret =? 0) then (ret, drop_bulk pdev bar (pi_map io) g2)
        else
          let '(ret, usable) := send_claim (map (pi_rpc io nonce) (seq 0 AMBA_VIRT_CLAIM_ATTEMPTS)) (0, 0) in
          if negb (ret =? 0) then
            let '(_, k2) := amba_virt_core_exit (gs_dev g2) (gs_reg g2) in
            (ret, put_dev (drop_bulk pdev bar (pi_map io) g2) vdev0 k2)
          else
            let w' := {| pw_pdev := pdev; pw_bar := bar; pw_phys := start; pw_iomem := pi_map io; pw_size := usable |} in
            let v' := {| v_host := v_host v; v_instance := v_instance v; v_cid := v_cid v; v_port := v_port v; v_devt := v_devt v; v_device := v_device v;
                         v_phys := v_phys v; v_size := usable; v_iomem := v_iomem v |} in
            (0, pci_set_drvdata pdev Bulk (put_dev (put_windows g2 w' (gs_dma32 g2)) v' k))
    end.

(** [amba_virt_pci_probe] *)
Definition amba_virt_pci_probe (io : probe_io) (pdev : Z) (g0 : guest) : Z * guest :=
  if negb (pi_enable io =? 0) then (pi_enable io, g0)
  else
    let g := pci_enable_device pdev g0 in
    let '(bar, start, len) := largest_bar io in
    let off g := pci_disable_device pdev g in
    if (start =? 0) || (len =? 0) then (- ENODEV, off g)
    else if (AMBA_VIRT_IAV_WIN_HDR_BYTES <? len) && (match pi_tail io with Some m => m =? AMBA_VIRT_IAV_WIN_HDR_MAGIC | None => false end)
    then (- ENODEV, off g)
    else if (len =? AMBA_VIRT_DMA32_WINDOW_SIZE) && negb (pw_phys (gs_dma32 g) =? 0) then (- EBUSY, off g)
    else if (AMBA_VIRT_DMA32_WINDOW_SIZE <? len) && negb (pw_phys (gs_bulk g) =? 0) then (- EBUSY, off g)
    else if len <? AMBA_VIRT_DMA32_WINDOW_SIZE then (- ENODEV, off g)
    else if negb (pi_request io =? 0) then (pi_request io, off g)
    else
      let g1 := pci_request_region pdev bar g in
      if len =? AMBA_VIRT_DMA32_WINDOW_SIZE then probe_dma32 io pdev bar start len g1 else probe_bulk io pdev bar start len g1.

(** [amba_virt_pci_remove] *)
Definition amba_virt_pci_remove (pdev : Z) (g : guest) : guest :=
  match List.find (fun x => fst x =? pdev) (gs_drvdata g) with
  | Some (_, Dma32) =>
      let w := gs_dma32 g in
      let g1 := if v_phys (gs_dev g) =? pw_phys w then let '(_, k) := amba_virt_core_exit (gs_dev g) (gs_reg g) in put_dev g vdev0 k else g in
      let g2 := if negb (pw_iomem w =? 0) then iounmap (pw_iomem w) g1 else g1 in
      let g3 := pci_disable_device pdev (pci_release_region pdev (pw_bar w) g2) in
      put_windows g3 (gs_bulk g3) window0
  | Some (_, Bulk) =>
      let w := gs_bulk g in
      let '(_, k) := amba_virt_core_exit (gs_dev g) (gs_reg g) in
      let g1 := put_dev g vdev0 k in
      let g2 := if negb (pw_iomem w =? 0) then iounmap (pw_iomem w) g1 else g1 in
      let g3 := pci_disable_device pdev (pci_release_region pdev (pw_bar w) g2) in
      put_windows g3 window0 (gs_dma32 g3)
  | None => g
  end.

End GuestProbe.
