(* ===== verification/GuestProbeProps.v ===== *)
(** * The PCI driver of a guest: what a probe leaves behind, and the way of the nonce

    [Module GuestProbeProps]: a probe that fails gives back everything it took ([probe_failure_releases]); while the 32-bit window has the device node, no bulk window comes up and the node is lost for good
    ([dma32_first_blocks_bulk]); the nonce the host module writes is the one the guest reads, and binds the guest to that
    slice ([claim_page_binds]). *)

From stdpp Require Import base list.
From Stdlib Require Import ZArith Lia.
From S2P Require Import Prelude ByteBuf SliceGeometry SliceArena HostWindow HostWindowProps GuestProbe.
Import Geometry SliceArena HostWindow HostWindowProps GuestProbe.

Module GuestProbeProps.

(** ** Giving back *)

Lemma del_fresh x l : x ∉ l -> del x l = l.
Proof.
  unfold del. induction l as [|y l IH]; cbn; [done|]. intros [Hy Hl]%not_elem_of_cons. destruct (Z.eqb_spec y x); [congruence|]. cbn. by rewrite IH.
Qed.

Lemma del_cons x l : x ∉ l -> del x (x :: l) = l.
Proof. intros H. unfold del. cbn. rewrite Z.eqb_refl. cbn. by apply del_fresh. Qed.

Lemma region_cons (pdev bar : Z) l :
  (forall b, (pdev, b) ∉ l) -> List.filter (fun r => negb ((fst r =? pdev) && (snd r =? bar))) ((pdev, bar) :: l) = l.
Proof.
  intros H. cbn. rewrite !Z.eqb_refl. cbn. induction l as [|[p b] l IH]; [done|]. cbn.
  destruct (Z.eqb_spec p pdev) as [->|]; [destruct (H b); by apply list_elem_of_here|]. cbn. f_equal. apply IH. intros b' Hb. apply (H b'). by apply list_elem_of_further.
Qed.

(** The device is not in use yet, the address that is mapped is a new one, and a window without an address is empty. *)
Record probe_ready (io : probe_io) (pdev : Z) (g : guest) : Prop := {
  pr_enabled : pdev ∉ gs_enabled g;
  pr_regions : forall b, (pdev, b) ∉ gs_regions g;
  pr_maps : pi_map io ∉ gs_maps g;
  pr_bulk : pw_phys (gs_bulk g) = 0 -> gs_bulk g = window0;
  pr_dma32 : pw_phys (gs_dma32 g) = 0 -> gs_dma32 g = window0;
  pr_enable : pi_enable io <= 0;
  pr_request : pi_request io <= 0 }.

(** Everything but [gdev] and the registry is as before. *)
Record given_back (g g' : guest) : Prop := {
  gb_bulk : gs_bulk g' = gs_bulk g;
  gb_dma32 : gs_dma32 g' = gs_dma32 g;
  gb_enabled : gs_enabled g' = gs_enabled g;
  gb_regions : gs_regions g' = gs_regions g;
  gb_maps : gs_maps g' = gs_maps g;
  gb_drvdata : gs_drvdata g' = gs_drvdata g }.

Lemma disable_back io pdev g : probe_ready io pdev g -> given_back g (pci_disable_device pdev (pci_enable_device pdev g)).
Proof. intros R. split; cbn; try done. apply del_cons, (pr_enabled _ _ _ R). Qed.

(** The state once the region is taken. *)
Definition taken (pdev bar : Z) (g : guest) : guest := pci_request_region pdev bar (pci_enable_device pdev g).

Lemma drop_back io pdev bar g va w v k :
  probe_ready io pdev g -> pw_phys (gs_bulk g) = 0 -> va ∉ gs_maps g ->
  given_back g (drop_bulk pdev bar va (put_dev (put_windows (ioremap va (taken pdev bar g)) w (gs_dma32 g)) v k)).
Proof.
  intros R Hb Hm. split; cbn -[List.filter].
  - by rewrite (pr_bulk _ _ _ R).
  - done.
  - apply del_cons, (pr_enabled _ _ _ R).
  - apply region_cons, (pr_regions _ _ _ R).
  - by apply del_cons.
  - done.
Qed.

(** *** The registry *)

(** The device node of the driver is not there. *)
Definition no_node (k : registry) : Prop := (0 ∉ k_nodes k) /\ (0 ∉ k_cdevs k).

Lemma core_init_cases io v k ret v' k' :
  amba_virt_core_init io false v k = (ret, v', k') ->
  (ret = 0 /\ 0 <= ri_node io (k_nodes k) 0 /\ v_devt v' = Some 0 /\ v_device v' = true /\ v_phys v' = v_phys v /\ v_iomem v' = v_iomem v /\
   k_nodes k' = 0 :: k_nodes k /\ k_cdevs k' = 0 :: k_cdevs k /\ k_count k' = k_count k + 1) \/
  (ret <> 0 /\ k_nodes k' = k_nodes k /\ k_cdevs k' = k_cdevs k /\ k_count k' = k_count k /\ (v_device v' = v_device v \/ v_device v' = false)).
Proof.
  unfold amba_virt_core_init, amba_virt_core_init_instance. cbn [Z.leb].
  destruct (negb (k_class k) && (ri_class io <? 0)) eqn:E1.
  { intros [= <- <- <-]. bool_hyps. right. split_and!; try done; [lia|by left]. }
  destruct (negb (k_base k) && negb (ri_region io =? 0)) eqn:E2.
  { intros [= <- <- <-]. bool_hyps. right. split_and!; try done. by left. }
  destruct (Z.eqb_spec (ri_cdev io) 0); cbn [negb].
  2: { intros [= <- <- <-]. right. split_and!; cbn; try done; [lia|by left]. }
  cbn [k_nodes]. destruct (Z.ltb_spec (ri_node io (k_nodes k) 0) 0).
  { intros [= <- <- <-]. right. split_and!; cbn; try done; [lia|lia|by right]. }
  intros [= <- <- <-]. left. by split_and!.
Qed.

(** The registry after a device that was registered has gone. *)
Lemma core_exit_back v k k0 :
  v_devt v = Some 0 -> v_device v = true -> k_nodes k = 0 :: k_nodes k0 -> k_cdevs k = 0 :: k_cdevs k0 -> k_count k = k_count k0 + 1 -> no_node k0 ->
  let k' := snd (amba_virt_core_exit v k) in k_nodes k' = k_nodes k0 /\ k_cdevs k' = k_cdevs k0 /\ k_count k' = k_count k0.
Proof.
  intros E1 E2 E3 E4 E5 [N1 N2]. cbn -[del]. rewrite E1, E2, E3, E4, E5. rewrite !del_cons by done. split_and!; [done|done|lia].
Qed.

(** The numbers are the same. *)
Definition same_numbers (k k' : registry) : Prop := k_nodes k' = k_nodes k /\ k_cdevs k' = k_cdevs k /\ k_count k' = k_count k.

Lemma dma32_fails io pdev bar start len g ret g' :
  probe_ready io pdev g -> pw_phys (gs_dma32 g) = 0 -> probe_dma32 io pdev bar start len (taken pdev bar g) = (ret, g') -> ret <> 0 ->
  given_back g g' /\ gs_reg g' = gs_reg g.
Proof.
  intros R Hd. unfold probe_dma32. destruct (pi_map io =? 0).
  - intros [= <- <-] _. split; [|done]. split; cbn -[List.filter]; try done.
    + by rewrite (pr_dma32 _ _ _ R).
    + apply del_cons, (pr_enabled _ _ _ R).
    + apply region_cons, (pr_regions _ _ _ R).
  - destruct (v_devt _); [intros [= <- _]; done|]. destruct (amba_virt_core_init _ _ _ _) as [[r v] k]. intros [= <- _]. done.
Qed.

Lemma bulk_fails io pdev bar start len g ret g' :
  probe_ready io pdev g -> pw_phys (gs_bulk g) = 0 -> no_node (gs_reg g) -> probe_bulk io pdev bar start len (taken pdev bar g) = (ret, g') -> ret <> 0 ->
  given_back g g' /\ same_numbers (gs_reg g) (gs_reg g').
Proof.
  intros R Hb Hn. unfold probe_bulk. destruct (pi_map io =? 0).
  - intros [= <- <-] _. split; [|done]. split; cbn -[List.filter]; try done.
    + by rewrite (pr_bulk _ _ _ R).
    + apply del_cons, (pr_enabled _ _ _ R).
    + apply region_cons, (pr_regions _ _ _ R).
  - destruct (read_claim _ _) as [nonce|].
    + destruct (amba_virt_core_init _ _ _ _) as [[r v] k] eqn:Ei. destruct (core_init_cases _ _ _ _ _ _ Ei) as [C|C].
      * destruct C as (-> & _ & C1 & C2 & _ & _ & C3 & C4 & C5). cbn [negb Z.eqb]. destruct (send_claim _ _) as [r2 usable]. destruct (Z.eqb_spec r2 0); cbn [negb].
        -- intros [= <- _]. done.
        -- destruct (amba_virt_core_exit _ _) as [v2 k2] eqn:Ex. intros [= <- <-] _. split.
           ++ pose proof (drop_back io pdev bar g (pi_map io) {| pw_pdev := pdev; pw_bar := bar; pw_phys := start; pw_iomem := pi_map io; pw_size := len |} v k R Hb (pr_maps _ _ _ R)) as [B1 B2 B3 B4 B5 B6].
              by split.
           ++ pose proof (core_exit_back v k (gs_reg g) C1 C2 C3 C4 C5 Hn) as K. cbv zeta in K. change (amba_virt_core_exit v k = (v2, k2)) in Ex. by rewrite Ex in K.
      * destruct C as (C0 & C1 & C2 & C3 & _). destruct (Z.eqb_spec r 0); [done|]. cbn [negb]. intros [= <- <-] _. split; [|by split_and!].
        apply (drop_back io); [done|done|apply (pr_maps _ _ _ R)].
    + intros [= <- <-] _. split; [|done].
      apply (drop_back io pdev bar g (pi_map io) {| pw_pdev := pdev; pw_bar := bar; pw_phys := start; pw_iomem := pi_map io; pw_size := len |} (gs_dev g) (gs_reg g) R Hb (pr_maps _ _ _ R)).
Qed.

(** C36: a probe that returns an error has given back what it took: the device is disabled, its region released, its BAR
    unmapped, both windows and the driver data are what they were, and, unless the device node was there before, no
    character device, node or instance is left registered. *)
Theorem probe_failure_releases io pdev g ret g' :
  probe_ready io pdev g -> no_node (gs_reg g) -> amba_virt_pci_probe io pdev g = (ret, g') -> ret <> 0 ->
  given_back g g' /\ same_numbers (gs_reg g) (gs_reg g').
Proof.
  intros R Hn. unfold amba_virt_pci_probe. destruct (negb (pi_enable io =? 0)); [by intros [= _ <-]|]. destruct (largest_bar io) as [[bar start] len].
  pose proof (disable_back io pdev g R) as Hd.
  assert (K : forall r, (r, pci_disable_device pdev (pci_enable_device pdev g)) = (ret, g') -> given_back g g' /\ same_numbers (gs_reg g) (gs_reg g'))
    by (by intros r [= _ <-]).
  destruct (_ || _); [intros H _; by apply K in H|]. destruct ((_ <? len) && match pi_tail io with _ => _ end); [intros H _; by apply K in H|].
  change (gs_dma32 (pci_enable_device pdev g)) with (gs_dma32 g). change (gs_bulk (pci_enable_device pdev g)) with (gs_bulk g).
  destruct ((len =? _) && negb (pw_phys _ =? 0)) eqn:E1; [intros H _; by apply K in H|].
  destruct ((_ <? len) && negb (pw_phys _ =? 0)) eqn:E2; [intros H _; by apply K in H|].
  destruct (Z.ltb_spec len AMBA_VIRT_DMA32_WINDOW_SIZE); [intros H' _; by apply K in H'|]. destruct (negb (pi_request io =? 0)); [intros H' _; by apply K in H'|].
  destruct (Z.eqb_spec len AMBA_VIRT_DMA32_WINDOW_SIZE) as [->|]; intros Hp Hr.
  - cbn [andb] in E1. bool_hyps. destruct (dma32_fails io pdev bar start _ g ret g' R E1 Hp Hr) as [Hg ->]. by split.
  - destruct (Z.ltb_spec AMBA_VIRT_DMA32_WINDOW_SIZE len); [|lia]. cbn [andb] in E2. bool_hyps. by eapply bulk_fails.
Qed.

(** While the device node is registered for the 32-bit window (and the kernel refuses a number that has a node), a device whose BAR is larger never comes up as the bulk
    window, whatever its memory and the host answer; and if its claim can be read, the structure of the registered
    device is overwritten, so that removing the 32-bit device afterwards does not take the node away. *)
Theorem dma32_first_blocks_bulk io pdev g ret g' :
  (forall nodes d, d ∈ nodes -> ri_node (pi_reg io) nodes d < 0) ->
  0 ∈ k_nodes (gs_reg g) -> AMBA_VIRT_DMA32_WINDOW_SIZE < snd (largest_bar io) -> pi_enable io <= 0 -> pi_request io <= 0 ->
  amba_virt_pci_probe io pdev g = (ret, g') ->
  ret <> 0 /\ 0 ∈ k_nodes (gs_reg g') /\
  (v_devt (gs_dev g') = v_devt (gs_dev g) \/ v_phys (gs_dev g') = snd (fst (largest_bar io)) /\ v_device (gs_dev g') = false).
Proof.
  intros Hex Hin Hlen He Hq. unfold amba_virt_pci_probe. destruct (Z.eqb_spec (pi_enable io) 0); cbn [negb]; [|intros [= <- <-]; auto].
  destruct (largest_bar io) as [[bar start] len]. cbn [fst snd] in *.
  assert (K : forall r, r <> 0 -> (r, pci_disable_device pdev (pci_enable_device pdev g)) = (ret, g') ->
    ret <> 0 /\ 0 ∈ k_nodes (gs_reg g') /\ (v_devt (gs_dev g') = v_devt (gs_dev g) \/ v_phys (gs_dev g') = start /\ v_device (gs_dev g') = false))
    by (intros r Hr [= <- <-]; cbn; auto).
  destruct (_ || _); [by apply K|]. destruct ((_ <? len) && match pi_tail io with _ => _ end); [by apply K|].
  destruct ((len =? _) && negb (pw_phys _ =? 0)); [by apply K|]. destruct ((_ <? len) && negb (pw_phys _ =? 0)); [by apply K|].
  destruct (Z.ltb_spec len AMBA_VIRT_DMA32_WINDOW_SIZE); [lia|]. destruct (Z.eqb_spec (pi_request io) 0); cbn [negb]; [|intros [= <- <-]; cbn; auto].
  destruct (Z.eqb_spec len AMBA_VIRT_DMA32_WINDOW_SIZE); [lia|]. unfold probe_bulk.
  destruct (pi_map io =? 0); [intros [= <- <-]; cbn; auto|]. destruct (read_claim _ _); [|intros [= <- <-]; cbn; auto].
  destruct (amba_virt_core_init _ _ _ _) as [[r v] k] eqn:Ei.
  destruct (core_init_cases _ _ _ _ _ _ Ei) as [(_ & C & _)|(C0 & C1 & _ & _ & C4)]; [specialize (Hex _ _ Hin); cbn in C; lia|].
  destruct (Z.eqb_spec r 0); [done|]. cbn [negb]. intros [= <- <-]. cbn in *. split_and!; [done|by rewrite C1|]. right. split; [|by destruct C4].
  revert Ei. unfold amba_virt_core_init, amba_virt_core_init_instance. cbn [Z.leb].
  repeat (destruct (_ && _); [by intros [= _ <- _]|]). destruct (negb (ri_cdev _ =? 0)); [by intros [= _ <- _]|].
  by destruct (ri_node _ _ _ <? 0); intros [= _ <- _].
Qed.

(** ** The way of the nonce *)

Lemma mem_read_write m a bs : mem_read (mem_write m a bs) a (length bs) = bs.
Proof.
  unfold mem_read. apply list_eq. intros k. destruct (decide (k < length bs)%nat) as [Hk|Hk].
  - rewrite list_lookup_fmap. rewrite lookup_seq_lt by done. cbn. unfold mem_write. destruct (Z.leb_spec a (a + Z.of_nat k)); [|lia].
    replace (Z.to_nat (a + Z.of_nat k - a)) with k by lia. destruct (lookup_lt_is_Some_2 bs k Hk) as [b ->]. done.
  - rewrite !lookup_ge_None_2; [done|lia|]. rewrite length_map, length_seq. lia.
Qed.

Lemma mem_read_shift m p a n : mem_read (fun o => m (p + o)) a n = mem_read m (p + a) n.
Proof. unfold mem_read. apply map_ext. intros k. f_equal. lia. Qed.

Lemma claim_magic_of idx usable nonce : claim_magic (claim_bytes idx usable nonce) = AMBA_VIRT_SLICE_CLAIM_MAGIC.
Proof. reflexivity. Qed.

Lemma claim_nonce_of idx usable nonce : is_u64 nonce -> claim_nonce (claim_bytes idx usable nonce) = nonce.
Proof.
  intros H. unfold claim_nonce, claim_bytes. change (take 8 (drop 16 _)) with (le_bytes 8 nonce). rewrite le_val_bytes. apply Z.mod_small. exact H.
Qed.

(** The page that is written. *)
Lemma claim_read wt wb n p i nonce h :
  wt || wb = true -> window_good n p -> (i < n)%nat -> is_u64 nonce ->
  look_claim (fun o => h_mem (amba_virt_write_slice_claim wt wb (Z.of_nat i) (bar_desc p i) nonce h) (p + Z.of_nat i * BAR + o)) BAR = Some nonce.
Proof.
  intros Hw (Hn & Hp & _ & He) Hi Hx. unfold look_claim. rewrite mem_read_shift. unfold amba_virt_write_slice_claim. rewrite Hw. cbn [h_mem set_mem].
  cbn [bar_desc phys usable_size]. rewrite u64_id by (unfold BAR, AMBA_VIRT_GUEST_BAR_SIZE, PAGE_SIZE in *; lia).
  replace (p + Z.of_nat i * BAR + (BAR - SIZEOF_CLAIM)) with (p + Z.of_nat i * BAR + (BAR - PAGE_SIZE) + PAGE_SIZE - SIZEOF_CLAIM) by lia.
  set (bs := claim_bytes _ _ _). change 24%nat with (length bs). rewrite mem_read_write. unfold bs.
  rewrite claim_magic_of, Z.eqb_refl. by rewrite claim_nonce_of.
Qed.

Lemma slot_closed n h files i s : host_ok n h files -> h_states h !! i = Some s -> i ∉ files -> ss_open s = 0.
Proof.
  intros Ho Hs Hi. destruct (proj1 (ho_slots _ _ _ Ho) _ _ Hs) as (O & _). rewrite O. rewrite (proj1 (count_occ_not_In Nat.eq_dec files i)); [done|].
  intros Hin. apply Hi. by apply list_elem_of_In.
Qed.

(** The first open of a slice. *)
Lemma first_open n wt wb random i h files h' :
  (1 <= n <= 8)%nat -> host_ok n h files -> i ∉ files -> amba_virt_slice_open wt wb random (Z.of_nat i) h = Some (0, h') ->
  exists nonce s, draw_nonce random = Some nonce /\ live h !! i = Some s /\
    h' = amba_virt_write_slice_claim wt wb (Z.of_nat i) (ss_desc s) nonce
           (set_states h (<[i := {| ss_desc := ss_desc s; ss_nonce := nonce; ss_cid := 0; ss_open := 1 |}]> (h_states h))).
Proof.
  intros Hn Ho Hi. unfold amba_virt_slice_open. destruct (Z.ltb_spec (Z.of_nat i) (count (h_list h))) as [Hc|]; [|done].
  destruct (state_at _ _ _ i Ho ltac:(lia) Hc) as [s Hs]. rewrite Nat2Z.id, Hs. change (default state0 (Some s)) with s. cbv zeta.
  rewrite (slot_closed _ _ _ _ _ Ho Hs Hi). cbn [Z.eqb Z.add Pos.eqb]. destruct (draw_nonce random) as [nonce|]; [|done]. intros [= <-].
  exists nonce, s. split_and!; [done|by apply live_at|done].
Qed.

(** A nonce that one slice has binds that slice. *)
Lemma bind_unique i st cid nonce h :
  live h !! i = Some st -> ss_nonce st = nonce -> nonce <> 0 -> ss_cid st = 0 -> 2 < cid ->
  (forall j t, j <> i -> live h !! j = Some t -> ss_nonce t <> nonce) -> (forall j, ~ bound_to h cid j) ->
  amba_virt_slice_bind cid nonce h = (inr (ss_desc st), set_states h (<[i := with_cid st cid]> (h_states h))).
Proof.
  intros Hi Hx Hz Hc Hcid Hu Hb. destruct (bind_cases cid nonce h) as [(j & t & Hj & Hn & _ & _ & _ & _ & _ & E)|(e & _ & [(_ & H)|[(_ & _ & H)|(_ & _ & _ & j & t & Hj & Hn & H)]])].
  - destruct (decide (j = i)) as [->|Hne]; [|by destruct (Hu j t Hne Hj)]. congruence.
  - lia.
  - destruct H as [H|H]; [done|]. by destruct (H i st Hi).
  - destruct (decide (j = i)) as [->|Hne]; [|by destruct (Hu j t Hne Hj)]. assert (t = st) as -> by congruence.
    destruct H as [[H _]|(k & u & _ & Hk & Hcu)]; [congruence|]. destruct (Hb k). by exists u.
Qed.

Lemma live_claim wt wb idx d nonce h : live (amba_virt_write_slice_claim wt wb idx d nonce h) = live h.
Proof. destruct (claim_states wt wb idx d nonce h) as (_ & _ & _ & E4 & E5 & _). unfold live. by rewrite E4, E5. Qed.

(** C22: when the hypervisor opens the node of a slice that nobody holds, the guest that maps the slice reads at the end of
    its BAR the nonce the host module drew, and presenting it binds the guest to that slice and no other: the descriptor
    it is given is the slice whose memory it reads. *)
Theorem claim_page_binds n wt wb random i h files h' cid :
  (1 <= n <= 8)%nat -> host_reachable n (h, files) -> i ∉ files -> wt || wb = true -> Forall is_u64 random ->
  amba_virt_slice_open wt wb random (Z.of_nat i) h = Some (0, h') -> 2 < cid -> (forall k, ~ bound_to h cid k) ->
  exists nonce, look_claim (fun o => h_mem h' (phys (bar_desc (h_phys h) i) + o)) (slice_size (bar_desc (h_phys h) i)) = Some nonce /\ nonce <> 0 /\
    ((forall k s, k <> i -> live h !! k = Some s -> ss_nonce s <> nonce) ->
     fst (amba_virt_slice_bind cid nonce h') = inr (bar_desc (h_phys h) i) /\ bound_to (snd (amba_virt_slice_bind cid nonce h')) cid i).
Proof.
  intros Hn Hr Hi Hw Hran Ho Hcid Hb. pose proof (reachable_host_ok n (h, files) Hn Hr) as Hok. cbn [fst snd] in Hok.
  destruct (first_open _ _ _ _ _ _ _ _ Hn Hok Hi Ho) as (nonce & s & Hd & Hs & ->). destruct (live_desc _ _ _ _ _ Hok Hs) as (Hin & Hg & Ed).
  assert (Hx : is_u64 nonce).
  { clear -Hd Hran. induction Hran as [|r rs Hr _ IH]; cbn in Hd; [done|]. destruct (r =? 0); [auto|]. by injection Hd as ->. }
  exists nonce. rewrite Ed. split; [by apply (claim_read _ _ n)|]. pose proof (draw_nonzero _ _ Hd) as Hz. split; [done|]. intros Hu.
  pose proof Hs as [Hst Hcnt]%live_at. set (st := {| ss_desc := bar_desc (h_phys h) i; ss_nonce := nonce; ss_cid := 0; ss_open := 1 |}).
  set (h2 := set_states h (<[i := st]> (h_states h))).
  assert (L : forall k t, live h2 !! k = Some t -> (k = i /\ t = st) \/ (k <> i /\ live h !! k = Some t)).
  { intros k t [Hk Hck]%live_at. cbn in Hk, Hck. apply lookup_insert_inv in Hk as [[-> ->]|[Hne Hk]]; [by left|]. right. split; [done|]. by apply live_at. }
  assert (Hl2 : live h2 !! i = Some st).
  { apply live_at. split; [|done]. cbn. apply list_lookup_insert_eq. by eapply lookup_lt_Some. }
  pose proof (bind_unique i st cid nonce (amba_virt_write_slice_claim wt wb (Z.of_nat i) (bar_desc (h_phys h) i) nonce h2)) as Hbind.
  rewrite live_claim in Hbind. rewrite Hbind; clear Hbind; [|done|done|done|done|done| |].
  - split; [done|]. cbn [snd]. exists (with_cid st cid). split; [|done]. destruct (claim_states wt wb (Z.of_nat i) (bar_desc (h_phys h) i) nonce h2) as (_ & _ & _ & E4 & E5 & _).
    apply live_at. cbn [h_states h_list set_states]. rewrite E4, E5. split; [|done]. cbn. apply list_lookup_insert_eq. rewrite length_insert. by eapply lookup_lt_Some.
  - intros j t Hj [[-> _]|[_ Ht]]%L; [done|]. by apply (Hu j).
  - intros j (t & Ht & Hc). rewrite live_claim in Ht. apply L in Ht as [[_ ->]|[_ Ht]]; [cbn in Hc; lia|]. apply (Hb j). by exists t.
Qed.

End GuestProbeProps.
