(* ===== verification/Server.v ===== *)
(** * The slices of the server (amba-virt-server.c)

    The server runs beside the host module. It checks the geometry the module publishes, binds a guest to the slice
    whose nonce it presents, gives the guest its tenant record and pool, and serves the guest's requests with the bounds
    of that tenant. [server] puts together the states of the components the handlers call: the module ([HostWindow]),
    the Cavalry proxy, the memory pool, the access list, the DMA channels and the slice leases.

    The handlers modelled are those of process_incoming_msg that use the tenant of the caller: GDMA copies, Cavalry calls,
    device bounds, extents, DMA submissions and slice claims. A message is its length and its decoded body. Copies to and
    from the server's own buffers succeed. *)

From stdpp Require Import base list gmap.
From Stdlib Require Import ZArith Lia.
From S2P Require Import Prelude Text SliceGeometry ByteBuf Acl MemPool DmaBroker Cavalry CavalryRpc IavWin IavAperture CameraPolicy SliceLease HostWindow.
Import Text Store Geometry Acl MemPool Cavalry HostWindow.

Open Scope rd_scope.
Open Scope Z_scope.

Module Server.

(** ** State *)

Definition UINT32_MAX : Z := 2 ^ 32 - 1.
Definition EPROTO : Z := 71.
Definition EOPNOTSUPP : Z := 95.

(** [g_active_slices], [g_geometry_matched], [g_pool_ready], [g_window_bytes], [g_leases_loaded], the mapping of the
    window, what GET_INFO answered, and the components. *)
Record server := {
  sv_active : amba_virt_slice_list; sv_matched : bool; sv_pool_ready : bool; sv_window : Z; sv_loaded : bool; sv_map : Z;
  sv_info_phys : Z; sv_info_size : Z; sv_host : host; sv_cav : cav; sv_pool : pool_state; sv_acl : acl_state;
  sv_chans : DmaBroker.chan_table; sv_lease : SliceLease.lease_state; sv_disk : disk }.

Definition set_host (h : host) (s : server) : server :=
  {| sv_active := sv_active s; sv_matched := sv_matched s; sv_pool_ready := sv_pool_ready s; sv_window := sv_window s; sv_loaded := sv_loaded s;
     sv_map := sv_map s; sv_info_phys := sv_info_phys s; sv_info_size := sv_info_size s; sv_host := h; sv_cav := sv_cav s; sv_pool := sv_pool s;
     sv_acl := sv_acl s; sv_chans := sv_chans s; sv_lease := sv_lease s; sv_disk := sv_disk s |}.
Definition set_cav (c : cav) (s : server) : server :=
  {| sv_active := sv_active s; sv_matched := sv_matched s; sv_pool_ready := sv_pool_ready s; sv_window := sv_window s; sv_loaded := sv_loaded s;
     sv_map := sv_map s; sv_info_phys := sv_info_phys s; sv_info_size := sv_info_size s; sv_host := sv_host s; sv_cav := c; sv_pool := sv_pool s;
     sv_acl := sv_acl s; sv_chans := sv_chans s; sv_lease := sv_lease s; sv_disk := sv_disk s |}.
Definition set_pool (p : pool_state) (ready : bool) (s : server) : server :=
  {| sv_active := sv_active s; sv_matched := sv_matched s; sv_pool_ready := ready; sv_window := sv_window s; sv_loaded := sv_loaded s;
     sv_map := sv_map s; sv_info_phys := sv_info_phys s; sv_info_size := sv_info_size s; sv_host := sv_host s; sv_cav := sv_cav s; sv_pool := p;
     sv_acl := sv_acl s; sv_chans := sv_chans s; sv_lease := sv_lease s; sv_disk := sv_disk s |}.
Definition set_acl (a : acl_state) (t : DmaBroker.chan_table) (s : server) : server :=
  {| sv_active := sv_active s; sv_matched := sv_matched s; sv_pool_ready := sv_pool_ready s; sv_window := sv_window s; sv_loaded := sv_loaded s;
     sv_map := sv_map s; sv_info_phys := sv_info_phys s; sv_info_size := sv_info_size s; sv_host := sv_host s; sv_cav := sv_cav s; sv_pool := sv_pool s;
     sv_acl := a; sv_chans := t; sv_lease := sv_lease s; sv_disk := sv_disk s |}.
Definition set_geometry (l : amba_virt_slice_list) (matched : bool) (window : Z) (loaded : bool) (lease : SliceLease.lease_state)
    (d : disk) (s : server) : server :=
  {| sv_active := l; sv_matched := matched; sv_pool_ready := sv_pool_ready s; sv_window := window; sv_loaded := loaded;
     sv_map := sv_map s; sv_info_phys := sv_info_phys s; sv_info_size := sv_info_size s; sv_host := sv_host s; sv_cav := sv_cav s; sv_pool := sv_pool s;
     sv_acl := sv_acl s; sv_chans := sv_chans s; sv_lease := lease; sv_disk := d |}.
Definition set_info (phys size : Z) (s : server) : server :=
  {| sv_active := sv_active s; sv_matched := sv_matched s; sv_pool_ready := sv_pool_ready s; sv_window := sv_window s; sv_loaded := sv_loaded s;
     sv_map := sv_map s; sv_info_phys := phys; sv_info_size := size; sv_host := sv_host s; sv_cav := sv_cav s; sv_pool := sv_pool s;
     sv_acl := sv_acl s; sv_chans := sv_chans s; sv_lease := sv_lease s; sv_disk := sv_disk s |}.

(** ** The calls of the module (amba_virt_ioctl on the host) *)

(** GET_INFO: the physical base and the size, of which 32 bits are told. *)
Definition ioc_get_info (slice_count : Z) (get : option (option (Z * Z))) (h : host) : (Z * Z) * host :=
  let h1 := amba_virt_ensure_window slice_count get h in
  ((h_phys h1, if UINT32_MAX <? h_size h1 then UINT32_MAX else h_size h1), h1).

(** HOST_GDMA_COPY: the return value and the job that was run; [engine] is what the engine returns. *)
Definition ioc_host_gdma_copy (engine : Z) (c : gdma_copy) (h : host) : Z * option gdma_job :=
  if negb (h_gdma h) then (- EOPNOTSUPP, None)
  else match amba_virt_host_gdma_copy c h with inl e => (e, None) | inr job => (engine, Some job) end.

(** UNBIND_SLICE *)
Definition ioc_unbind_slice (cid : Z) (h : host) : Z * host :=
  if cid <=? 2 then (- EINVAL, h) else (0, amba_virt_slice_unbind_cid cid h).

(** ** Geometry *)

Definition server_get_slice (idx : Z) (s : server) : option (Z * Z * Z) :=
  if count (sv_active s) <=? idx then None
  else let d := default desc0 (slices (sv_active s) !! Z.to_nat idx) in Some (phys d, slice_size d, usable_size d).

(** The loop of [server_sum_slices] over the first [n] slices; [first] is the size of slice 0. *)
Fixpoint sum_loop (first : Z) (i : nat) (l : list amba_virt_slice_desc) (sum : Z) : option Z :=
  match l with
  | [] => Some sum
  | d :: rest =>
      if (slice_size d =? 0) || (UINT64_MAX - slice_size d <? sum) then None
      else if (0 <? i)%nat && negb (slice_size d =? first) then None
      else sum_loop first (S i) rest (sum + slice_size d)
  end.

Definition server_sum_slices (l : amba_virt_slice_list) : option Z :=
  if (count l =? 0) || (8 <? count l) then None
  else sum_loop (slice_size (default desc0 (slices l !! 0%nat))) 0 (take (Z.to_nat (count l)) (slices l)) 0.

(** [server_published_window_bytes]; [listed]: ENUM_SLICES works. *)
Definition server_published_window_bytes (listed : bool) (h : host) (info_size : Z) : Z :=
  match (if listed then server_sum_slices (amba_virt_slice_get_list h) else None) with
  | Some sum => if sum =? 0 then info_size else sum
  | None => info_size
  end.

Definition no_slices : amba_virt_slice_list := mk_list 0 (repeat desc0 8).

(** [server_check_geometry]; [err] is what opening the lease store gives. *)
Definition server_check_geometry (listed : bool) (r : fs_results) (err : option Z) (s : server) : server :=
  let reject window := let '(st, d) := SliceLease.virt_slice_lease_set_geometry r false 0 0 (sv_lease s) (sv_disk s) in
                       set_geometry no_slices false window (sv_loaded s) st d s in
  if sv_info_phys s =? 0 then reject (sv_window s)
  else
    let enumerated := amba_virt_slice_get_list (sv_host s) in
    match (if listed then server_sum_slices enumerated else None) with
    | None => reject (sv_window s)
    | Some sum =>
        let '(ret, out) := amba_virt_slice_compute_geometry (sv_info_phys s) sum 4096 (count enumerated) (Some no_slices) in
        let computed := default no_slices out in
        if (ret <? 0) || (count computed =? 0) then reject sum
        else
          match amba_virt_slice_compare_list (Some computed) (Some enumerated) with
          | Some v =>
              if negb (v =? 0) then
                let '(st, d) := SliceLease.virt_slice_lease_set_geometry r true (count enumerated)
                                  (slice_size (default desc0 (slices enumerated !! 0%nat))) (sv_lease s) (sv_disk s) in
                let st := if sv_loaded s then st else SliceLease.virt_slice_lease_load err d st in
                set_geometry enumerated true sum true st d s
              else reject sum
          | None => reject sum
          end
    end.

(** [server_unbind_cid] *)
Definition server_unbind_cid (cid : Z) (s : server) : server := set_host (snd (ioc_unbind_slice cid (sv_host s))) s.

Definition server_active_window_bytes (s : server) : Z := if sv_window s =? 0 then sv_info_size s else sv_window s.

(** The loop that gives the restored tenants their pools. *)
Fixpoint restore_pools (bs : list (Z * amba_virt_slice_desc)) (s : server) : server :=
  match bs with
  | [] => s
  | (cid, d) :: rest =>
      let '(ret, p) := virt_mem_pool_register_tenant cid (index d) (usable_size d) (usable_size d) (sv_pool s) in
      let s1 := set_pool p (sv_pool_ready s) s in
      restore_pools rest (if ret <? 0 then set_cav (snd (cavalry_proxy_unregister_tenant cid (sv_cav s1))) s1 else s1)
  end.

(** [server_restore_bindings]; [listed]: GET_BINDINGS works. *)
Definition server_restore_bindings (listed : bool) (s : server) : server :=
  if negb listed then s
  else
    let bs := amba_virt_slice_get_bindings (sv_host s) in
    let entries := map (fun b => {| sb_cid := fst b; sb_slice := snd b |}) bs in
    let '(ret, _, c) := cavalry_proxy_restore_bindings (Z.of_nat (length bs)) entries (if sv_map s =? MAP_FAILED then NULL else sv_map s)
                          (server_active_window_bytes s) (sv_cav s) in
    if ret <? 0 then set_cav c s else restore_pools bs (set_cav c s).

(** [server_apply_geometry] *)
Definition server_apply_geometry (listed bindings : bool) (r : fs_results) (err : option Z) (s : server) : server :=
  let s1 := server_check_geometry listed r err s in
  if negb (sv_matched s1) || (count (sv_active s1) =? 0) then s1
  else
    let s2 := if sv_pool_ready s1 then s1
              else set_pool (snd (virt_mem_pool_init (usable_size (default desc0 (slices (sv_active s1) !! 0%nat))) (sv_pool s1))) true s1 in
    server_restore_bindings bindings s2.

(** The part of [on_host_module_state_change] that looks at the window again. *)
Definition refresh_window (slice_count : Z) (get : option (option (Z * Z))) (listed bindings : bool) (r : fs_results) (err : option Z)
    (s : server) : server :=
  let '((p, size), h) := ioc_get_info slice_count get (sv_host s) in
  server_apply_geometry listed bindings r err (set_info p size (set_host h s)).

(** ** The requests of a guest *)

(** [sizeof(struct amba_virt_msg)] and of the bodies *)
Definition SIZEOF_MSG : Z := 16.
Definition SIZEOF_GDMA : Z := 32.
Definition SIZEOF_BOUNDS_REQ : Z := 24.
Definition SIZEOF_MEM_REQ : Z := 24.
Definition SIZEOF_SUBMIT : Z := 24.
Definition SIZEOF_CLAIM_REQ : Z := 8.
Definition SIZEOF_CAVALRY_RPC : Z := 40.
Definition AMBA_VIRT_CAP_CAVALRY_PATH_A : Z := 0x400.
Definition AMBA_VIRT_ERR_PERM_DENIED : Z := 1.

(** The tenant of the caller as the handlers see it: whether the slice is mapped, and its physical base. *)
Definition submap_of (t : option tenant) : bool :=
  match t with Some t => negb (tn_map t =? MAP_FAILED) && negb (tn_map t =? NULL) | None => false end.
Definition phys_base_of (t : option tenant) : Z := match t with Some t => tn_phys_base t | None => 0 end.

(** *** Notifications *)

(** SHM_NOTIFY: the offset of the byte of the mapped window that is read, if any. *)
Definition handle_notify (shm_off shm_len : Z) (s : server) : option Z :=
  if negb (sv_map s =? MAP_FAILED) && (shm_off + shm_len <=? server_active_window_bytes s) then Some shm_off else None.

(** *** GDMA copies *)

(** The end of a rectangle that starts at [off]. *)
Definition pitch_end (off pitch width height : Z) : Z :=
  u64 (off + u64 ((if height =? 0 then 0 else height - 1) * pitch) + width).

(** The range check of the server. *)
Definition gdma_range_err (t : tenant) (c : gdma_copy) : bool :=
  if (UINT32_MAX <? tn_slice_offset t) || (UINT32_MAX <? u64 (tn_slice_offset t + tn_shm_size t)) then true
  else if negb (Z.land (gc_flags c) AMBA_VIRT_GDMA_F_PITCH =? 0) then
    (tn_shm_size t <? pitch_end (gc_src c) (gc_spitch c) (gc_width c) (gc_height c)) ||
    (tn_shm_size t <? pitch_end (gc_dst c) (gc_dpitch c) (gc_width c) (gc_height c))
  else (tn_shm_size t <? gc_src c + gc_len c) || (tn_shm_size t <? gc_dst c + gc_len c).

(** The copy with the offsets of the window. *)
Definition shift_copy (off : Z) (c : gdma_copy) : gdma_copy :=
  {| gc_src := u32 (gc_src c + u32 off); gc_dst := u32 (gc_dst c + u32 off); gc_len := gc_len c; gc_flags := gc_flags c;
     gc_spitch := gc_spitch c; gc_dpitch := gc_dpitch c; gc_width := gc_width c; gc_height := gc_height c |}.

(** A GDMA request ([pitch]: the message is GDMA_PITCH_REQ): the status, the job and the state. *)
Definition handle_gdma (file : option text) (engine : Z) (pitch : bool) (rx_len : Z) (c : gdma_copy) (cid : Z) (s : server)
    : Z * option gdma_job * server :=
  if negb (rx_len =? SIZEOF_MSG + SIZEOF_GDMA) then (- EPROTO, None, s)
  else
    match cavalry_proxy_get_tenant cid (sv_cav s) with
    | None => (- EACCES, None, s)
    | Some t =>
        let '(ok, acl) := virt_acl_has_cap file cid (if pitch then AMBA_VIRT_CAP_GDMA_PITCH else AMBA_VIRT_CAP_GDMA_COPY) (sv_acl s) in
        let s1 := set_acl acl (sv_chans s) s in
        if negb ok then (- EPERM, None, s1)
        else if gdma_range_err t c then (- ERANGE, None, s1)
        else let '(ret, job) := ioc_host_gdma_copy engine (shift_copy (tn_slice_offset t) c) (sv_host s1) in (ret, job, s1)
    end.

(** *** Cavalry calls *)

(** The answer ([None] when the message is too short for one), the events and the state. *)
Definition handle_cavalry (file : option text) (i : CavalryRpc.io) (rx_len : Z) (q : CavalryRpc.rpc) (cid : Z) (s : server)
    : rd (option CavalryRpc.rpc * list dev * server) :=
  if rx_len <? SIZEOF_MSG + SIZEOF_CAVALRY_RPC then Val (None, [], s)
  else
    let refused cap s0 := let '(ok, acl) := virt_acl_has_cap file cid cap (sv_acl s0) in (negb ok, set_acl acl (sv_chans s0) s0) in
    let '(no, s1) := if CavalryRpc.rp_opcode q =? CavalryRpc.VCAV_OP_RUN_DAGS then refused AMBA_VIRT_CAP_CAVALRY_PATH_A s
                     else if CavalryRpc.rp_opcode q =? CavalryRpc.VCAV_OP_REGISTER_DAG then refused AMBA_VIRT_CAP_CAVALRY_REGISTER s
                     else (false, s) in
    if no then Val (Some (CavalryRpc.answer 0 (- EPERM)), [], s1)
    else
      let* r := CavalryRpc.cavalry_proxy_handle_rpc i q cid (sv_cav s1) in
      let '(resp, evs, c) := r in Val (Some resp, evs, set_cav c s1).

(** *** Bounds and extents *)

(** DEV_SET_BOUNDS: the answer ([None] for a short message), the ranges zeroed and the state; the outer [None] is a
    search of the pool that does not end. *)
Definition handle_set_bounds (file : option text) (rx_len : Z) (q : amba_virt_dev_bounds_req) (cid : Z) (s : server)
    : option (option amba_virt_dev_bounds_resp * list (Z * Z) * server) :=
  if rx_len <? SIZEOF_MSG + SIZEOF_BOUNDS_REQ then Some (None, [], s)
  else
    let '(ok, acl) := virt_acl_has_cap file cid AMBA_VIRT_CAP_DEV_CONFIG (sv_acl s) in
    let s1 := set_acl acl (sv_chans s) s in
    if negb ok then Some (Some (bounds_refusal (- EPERM) AMBA_VIRT_ERR_PERM_DENIED 0 0 0), [], s1)
    else
      match virt_mem_pool_set_device_bounds cid q (submap_of (cavalry_proxy_get_tenant cid (sv_cav s1))) (sv_pool s1) with
      | None => None
      | Some (p, resp, zeroed) =>
          let s2 := set_pool p (sv_pool_ready s1) s1 in
          Some (Some resp, zeroed,
                if (bp_status resp =? 0) && (bq_dev_type q =? AMBA_VIRT_DEV_TYPE_CAVALRY) then
                  set_cav (snd (cavalry_proxy_set_tenant_bounds cid (bp_granted_offset resp) (bp_granted_size resp) (bp_rpc_arena_offset resp)
                                  (bq_rpc_arena_size q) (sv_cav s2))) s2
                else s2)
      end.

(** DEV_RELEASE_BOUNDS: the status ([None] for a short message) and the state. *)
Definition handle_release_bounds (rx_len dev_type cid : Z) (s : server) : option Z * server :=
  if rx_len <? SIZEOF_MSG + SIZEOF_BOUNDS_REQ then (None, s)
  else
    let '(status, p) := virt_mem_pool_release_device_bounds cid dev_type (sv_pool s) in
    let s1 := set_pool p (sv_pool_ready s) s in
    (Some status,
     if dev_type =? AMBA_VIRT_DEV_TYPE_CAVALRY then
       match cavalry_proxy_get_tenant cid (sv_cav s1) with
       | Some t =>
           match cavalry_proxy_pool_size_for_usable (tn_shm_size t) with
           | Some size => set_cav (snd (cavalry_proxy_set_tenant_bounds cid CAVALRY_POOL_BASE size CAVALRY_RPC_ARENA_OFFSET CAVALRY_RPC_ARENA_SIZE
                                          (sv_cav s1))) s1
           | None => s1
           end
       | None => s1
       end
     else s1).

Definition AMBA_VIRT_MEM_OP_ALLOC : Z := 1.
Definition AMBA_VIRT_MEM_OP_FREE : Z := 2.

(** MEM_ALLOC: the answer ([None] for a short message), the ranges zeroed and the state. *)
Definition handle_mem (file : option text) (rx_len : Z) (q : amba_virt_mem_req) (cid : Z) (s : server)
    : option (option amba_virt_mem_resp * list (Z * Z) * server) :=
  if rx_len <? SIZEOF_MSG + SIZEOF_MEM_REQ then Some (None, [], s)
  else
    let '(ok, acl) := virt_acl_has_cap file cid AMBA_VIRT_CAP_MEM_ALLOC (sv_acl s) in
    let s1 := set_acl acl (sv_chans s) s in
    let blank := mem_refusal 0 0 0 in
    if negb ok then Some (Some (mem_refusal (- EPERM) 0 0), [], s1)
    else
      let t := cavalry_proxy_get_tenant cid (sv_cav s1) in
      if mq_op q =? AMBA_VIRT_MEM_OP_ALLOC then
        match virt_mem_pool_alloc_extent cid q (submap_of t) (phys_base_of t) (sv_pool s1) with
        | None => None
        | Some (p, resp, zeroed) => Some (Some resp, zeroed, set_pool p (sv_pool_ready s1) s1)
        end
      else if mq_op q =? AMBA_VIRT_MEM_OP_FREE then
        let '(_, p, resp) := virt_mem_pool_free_extent cid (mq_bar_offset q) (Some blank) (sv_pool s1) in
        Some (resp, [], set_pool p (sv_pool_ready s1) s1)
      else Some (Some (mem_refusal (- EOPNOTSUPP) 0 0), [], s1).

(** *** DMA submissions *)

(** The base and the size a submission is checked against. *)
Definition submit_bounds (cid : Z) (s : server) : Z * Z :=
  match cavalry_proxy_get_tenant cid (sv_cav s) with
  | Some t => (tn_phys_base t, tn_shm_size t)
  | None => (sv_info_phys s, sv_info_size s)
  end.

(** DMA_SUBMIT up to the call of the driver; [None] for a short message. *)
Definition handle_submit (file : option text) (created started : bool) (rx_len : Z) (q : DmaBroker.amba_virt_dma_submit) (cid : Z) (s : server)
    : option (Z + DmaBroker.amba_virt_dma_slave_xfer) * server :=
  if rx_len <? SIZEOF_MSG + SIZEOF_SUBMIT then (None, s)
  else
    let '(p, size) := submit_bounds cid s in
    let '(r, acl, t) := DmaBroker.virt_dma_submit_begin file created started cid p size q (sv_acl s) (sv_chans s) in
    (Some r, set_acl acl t s).

(** *** Slice claims *)

(** The descriptor the module bound is the one the server knows. *)
Definition known_slice (d : amba_virt_slice_desc) (s : server) : bool :=
  let k := default desc0 (slices (sv_active s) !! Z.to_nat (index d)) in
  (index d <? count (sv_active s)) && (offset d =? offset k) && (phys d =? phys k) && (slice_size d =? slice_size k) &&
  (usable_size d =? usable_size k).

(** SLICE_CLAIM: a negative status, or the slice. *)
Definition handle_claim (rx_len nonce cid : Z) (s : server) : (Z + amba_virt_slice_desc) * server :=
  if rx_len <? SIZEOF_MSG + SIZEOF_CLAIM_REQ then (inl (- EINVAL), s)
  else if negb (sv_matched s) then (inl (- ENODEV), s)
  else
    match amba_virt_slice_bind cid nonce (sv_host s) with
    | (inl e, h) => (inl e, set_host h s)
    | (inr d, h) =>
        let s1 := set_host h s in
        if negb (known_slice d s1) then (inl (- EINVAL), server_unbind_cid cid s1)
        else
          let submap := if negb (sv_map s1 =? MAP_FAILED) && (u64 (offset d + slice_size d) <=? server_active_window_bytes s1)
                        then sv_map s1 + offset d else MAP_FAILED in
          let '(ret, _, c) := cavalry_proxy_register_tenant cid (index d) (-1) submap (usable_size d) (phys d) (offset d) (sv_cav s1) in
          let s2 := set_cav c s1 in
          if ret <? 0 then (inl ret, server_unbind_cid cid s2)
          else
            let '(pret, p) := virt_mem_pool_register_tenant cid (index d) (usable_size d) (usable_size d) (sv_pool s2) in
            let s3 := set_pool p (sv_pool_ready s2) s2 in
            if pret <? 0 then (inl pret, server_unbind_cid cid (set_cav (snd (cavalry_proxy_unregister_tenant cid (sv_cav s3))) s3))
            else (inr d, s3)
    end.

End Server.
