(* ===== verification/ServerProps.v ===== *)
(** * The slices of the server: the invariant

    [Module ServerProps]: the invariant of the server and the module beneath it ([server_ok]): every tenant is one of the
    published slices and no guest has two. Each handler, each geometry check and each call of the module keeps it
    ([server_step_ok], [reachable_server_ok]). *)

From stdpp Require Import base list.
From Stdlib Require Import ZArith Lia.
From S2P Require Import Prelude Text SliceGeometry ByteBuf Acl MemPool DmaBroker Cavalry CavalryRpc CavalryProps IavWin IavAperture CameraPolicy SliceLease HostWindow HostWindowProps Server.
Import Text Store Geometry Acl MemPool Cavalry HostWindow HostWindowProps Server.

Module ServerProps.

(** ** The tenants *)

(** The tenant at place [k] is slice [k] of the window at [p]. *)
Definition tenant_slice (n : nat) (p : Z) (k : nat) (t : tenant) : Prop :=
  (k < n)%nat /\ tn_idx t = Z.of_nat k /\ tn_slice_offset t = Z.of_nat k * BAR /\ tn_phys_base t = p + Z.of_nat k * BAR /\
  tn_shm_size t = BAR - PAGE_SIZE /\ 2 < tn_cid t.

Record tenants_good (n : nat) (p : Z) (l : list tenant) : Prop := {
  tg_len : length l = MAX_TENANTS;
  tg_slice : forall k t, l !! k = Some t -> tn_in_use t = true -> tenant_slice n p k t;
  tg_once : forall j k t u, l !! j = Some t -> l !! k = Some u -> tn_in_use t = true -> tn_in_use u = true -> tn_cid t = tn_cid u -> j = k }.

Lemma tenants_blank n p : tenants_good n p (repeat tenant0 MAX_TENANTS).
Proof. split; [done|by intros k t ->%repeat_lookup|by intros j k t u ->%repeat_lookup]. Qed.

(** Tenants may change as long as their slices stay. *)
Lemma tenants_map n p l l' :
  tenants_good n p l -> length l' = length l ->
  (forall k t', l' !! k = Some t' -> tn_in_use t' = true -> exists t, l !! k = Some t /\ tn_in_use t = true /\ tn_idx t' = tn_idx t /\
     tn_slice_offset t' = tn_slice_offset t /\ tn_phys_base t' = tn_phys_base t /\ tn_shm_size t' = tn_shm_size t /\ tn_cid t' = tn_cid t) ->
  tenants_good n p l'.
Proof.
  intros [L S O] Hl H. split.
  - congruence.
  - intros k t' Ht Hu. destruct (H k t' Ht Hu) as (t & H1 & H2 & E1 & E2 & E3 & E4 & E5). destruct (S k t H1 H2) as (? & ? & ? & ? & ? & ?).
    unfold tenant_slice. rewrite E1, E2, E3, E4, E5. by split_and!.
  - intros j k t' u' Ht Hu Ut Uu Hc. destruct (H j t' Ht Ut) as (t & H1 & H2 & _ & _ & _ & _ & E1). destruct (H k u' Hu Uu) as (u & H3 & H4 & _ & _ & _ & _ & E2).
    apply (O j k t u); congruence.
Qed.

Lemma drop_others_at k cid l i t' :
  drop_others k cid l !! i = Some t' -> tn_in_use t' = true -> exists t, l !! i = Some t /\ t' = t /\ (i <> k -> tn_cid t <> cid).
Proof.
  unfold drop_others. intros (t & Ht & ->)%list_lookup_imap_Some Hu. exists t. split; [done|]. destruct (is_other k cid i t) eqn:E; [done|]. split; [done|].
  intros Hi Hc. unfold is_other in E. rewrite Hu, Hc, Z.eqb_refl, !andb_true_r in E. apply negb_false_iff, Nat.eqb_eq in E. congruence.
Qed.

(** A new tenant at its place, with the others of the same guest dropped. *)
Lemma tenants_put n p l k cid t :
  tenants_good n p l -> tenant_slice n p k t -> tn_cid t = cid -> tenants_good n p (<[k := t]> (drop_others k cid l)).
Proof.
  intros [L S O] Ht Hc. split.
  - rewrite length_insert. unfold drop_others. by rewrite length_imap.
  - intros i u [[-> ->]|[Hi Hu]]%lookup_insert_inv Uu; [done|]. destruct (drop_others_at _ _ _ _ _ Hu Uu) as (v & Hv & -> & _). by apply S.
  - intros i j u v [[-> ->]|[Hi Hu]]%lookup_insert_inv [[-> ->]|[Hj Hv]]%lookup_insert_inv Uu Uv He; [done| | |].
    + destruct (drop_others_at _ _ _ _ _ Hv Uv) as (v0 & _ & -> & Hn). destruct (Hn Hj). congruence.
    + destruct (drop_others_at _ _ _ _ _ Hu Uu) as (u0 & _ & -> & Hn). destruct (Hn Hi). congruence.
    + destruct (drop_others_at _ _ _ _ _ Hu Uu) as (u0 & Hu0 & -> & _). destruct (drop_others_at _ _ _ _ _ Hv Uv) as (v0 & Hv0 & -> & _). by apply (O i j u0 v0).
Qed.

Definition cav_good (n : nat) (p : Z) (c : cav) : Prop := tenants_good n p (cv_tenants c).

Lemma disconnect_tenants cid c : cv_tenants (snd (cavalry_proxy_client_disconnect cid c)) = cv_tenants c.
Proof. apply (CavalryProps.ok_tenants _ _ _ (CavalryProps.disconnect_frames cid c)). Qed.

Lemma bar_usable_fits : BAR - PAGE_SIZE <= UINT64_MAX /\ 0 < BAR - PAGE_SIZE.
Proof. done. Qed.

Lemma register_refused n p (P : Prop) c :
  cav_good n p c ->
  cav_good n p c /\ (- EINVAL < 0 -> c = c) /\ (0 <= - EINVAL -> P) /\ (- EINVAL = 0 \/ - EINVAL = - EINVAL).
Proof. intros H. split_and!; [done|done| |by right]. intros Hn. by destruct Hn. Qed.

(** What registering slice [k] for a guest gives. *)
Lemma register_good n p cid k map c :
  cav_good n p c -> (k < n)%nat -> 2 < cid ->
  let d := bar_desc p k in
  let r := cavalry_proxy_register_tenant cid (index d) (-1) map (usable_size d) (phys d) (offset d) c in
  cav_good n p (snd r) /\ (fst (fst r) < 0 -> snd r = c) /\
  (0 <= fst (fst r) -> exists t, cv_tenants (snd r) !! k = Some t /\ tn_in_use t = true /\ tn_cid t = cid) /\ (fst (fst r) = 0 \/ fst (fst r) = - EINVAL).
Proof.
  intros Hc Hk Hcid d r. subst r. unfold cavalry_proxy_register_tenant. cbn [d bar_desc index usable_size phys offset].
  destruct (_ <=? Z.of_nat k) eqn:E0; [by apply register_refused|]. destruct (map =? MAP_FAILED); [by apply register_refused|]. destruct (_ <? _); [by apply register_refused|].
  destruct (_ && _); [by apply register_refused|]. destruct (cavalry_proxy_pool_size_for_usable _) as [ps|]; [|by apply register_refused].
  rewrite Nat2Z.id. set (t := {| tn_cid := cid |}). set (c1 := with_hw _ _).
  assert (T1 : tenants_good n p (cv_tenants c1)) by (apply tenants_put; [done|by split_and!|done]).
  assert (L1 : cv_tenants c1 !! k = Some t).
  { apply list_lookup_insert_eq. unfold drop_others. rewrite length_imap, (tg_len _ _ _ Hc). apply Z.leb_gt in E0. lia. }
  set (evict := if _ && _ then _ else _).
  destruct (if evict =? 0 then ([], c1) else cavalry_proxy_client_disconnect evict c1) as [evs c2] eqn:Ed.
  assert (E : cv_tenants c2 = cv_tenants c1).
  { destruct (evict =? 0); [by injection Ed as _ <-|]. change c2 with (snd (evs, c2)). rewrite <- Ed. apply disconnect_tenants. }
  cbn. unfold cav_good. rewrite E. split_and!; [done|lia| |by left]. intros _. by exists t.
Qed.

Lemma tenants_good_alter n p l i f :
  tenants_good n p l ->
  (forall t, tn_in_use (f t) = true -> tn_in_use t = true /\ tn_idx (f t) = tn_idx t /\ tn_slice_offset (f t) = tn_slice_offset t /\
     tn_phys_base (f t) = tn_phys_base t /\ tn_shm_size (f t) = tn_shm_size t /\ tn_cid (f t) = tn_cid t) ->
  tenants_good n p (alter f i l).
Proof.
  intros Hg Hf. eapply tenants_map; [done|by rewrite length_alter|]. intros k t' Ht Hu.
  apply lookup_alter_inv in Ht as [(-> & t & Ht & ->)|[_ Ht]]; [|by exists t'; auto 8]. destruct (Hf t Hu) as (? & ? & ? & ? & ? & ?). exists t. auto 8.
Qed.

Lemma get_tenant_at cid c t : cavalry_proxy_get_tenant cid c = Some t -> exists k, cv_tenants c !! k = Some t /\ tn_in_use t = true /\ tn_cid t = cid.
Proof.
  unfold cavalry_proxy_get_tenant. intros [Hin H]%find_some. bool_hyps. apply list_elem_of_In, list_elem_of_lookup in Hin as [k Hk]. by exists k.
Qed.

Lemma get_tenant_none cid c : (forall k t, cv_tenants c !! k = Some t -> tn_in_use t = true -> tn_cid t <> cid) -> cavalry_proxy_get_tenant cid c = None.
Proof.
  intros H. destruct (cavalry_proxy_get_tenant cid c) as [t|] eqn:E; [|done]. destruct (get_tenant_at _ _ _ E) as (k & H1 & H2 & H3). by destruct (H k t H1 H2).
Qed.

(** The tenant of a guest that has one. *)
Lemma get_tenant_good n p cid c k t :
  cav_good n p c -> cv_tenants c !! k = Some t -> tn_in_use t = true -> tn_cid t = cid -> cavalry_proxy_get_tenant cid c = Some t.
Proof.
  intros Hg Hk Hu Hc. unfold cavalry_proxy_get_tenant.
  destruct (find _ _) as [t'|] eqn:E.
  - destruct (get_tenant_at _ _ _ E) as (k' & H1 & H2 & H3). assert (k = k') as <- by (eapply (tg_once _ _ _ Hg); [exact Hk|exact H1|done|done|congruence]). congruence.
  - apply find_none with (x := t) in E; [|by apply list_elem_of_In, (list_elem_of_lookup_2 _ k)]. by rewrite Hu, Hc, Z.eqb_refl in E.
Qed.

Lemma unregister_good n p cid c :
  cav_good n p c -> let c' := snd (cavalry_proxy_unregister_tenant cid c) in cav_good n p c' /\ cavalry_proxy_get_tenant cid c' = None.
Proof.
  intros Hg. cbn. unfold cavalry_proxy_unregister_tenant. destruct (find_idx _ _) as [i|] eqn:F.
  - set (c1 := with_hw _ _). destruct (cavalry_proxy_client_disconnect cid c1) as [evs c2] eqn:Ed. cbn [snd].
    assert (E : cv_tenants c2 = alter drop_tenant i (cv_tenants c)) by (change c2 with (snd (evs, c2)); rewrite <- Ed; apply disconnect_tenants).
    destruct (find_idx_Some _ _ _ F) as (t & Ht & Hf & _). bool_hyps. split.
    + unfold cav_good. rewrite E. by apply tenants_good_alter.
    + apply get_tenant_none. rewrite E. intros k u Hk Hu Hc. apply lookup_alter_inv in Hk as [(-> & u0 & _ & ->)|[Hki Hk]]; [done|].
      apply Hki. eapply (tg_once _ _ _ Hg); [exact Hk|exact Ht|done|done|congruence].
  - split; [done|]. apply get_tenant_none. intros k t Hk Hu Hc. eapply find_idx_None in F; [|done]. by rewrite Hu, Hc, Z.eqb_refl in F.
Qed.

Lemma bounds_good n p cid a b c d cv : cav_good n p cv -> cav_good n p (snd (cavalry_proxy_set_tenant_bounds cid a b c d cv)).
Proof.
  intros Hg. unfold cavalry_proxy_set_tenant_bounds. destruct (find_idx _ _); [|done]. apply tenants_good_alter; [done|]. intros t Hu. by split_and!.
Qed.

Lemma rpc_good n p i q cid c resp evs c' :
  cid <> 0 -> CavalryRpc.cavalry_proxy_handle_rpc i q cid c = Val (resp, evs, c') -> cav_good n p c -> cav_good n p c'.
Proof.
  intros Hc. unfold CavalryRpc.cavalry_proxy_handle_rpc, CavalryRpc.rpc_enter. destruct (cv_draining c); [by intros [= _ _ <-]|].
  intros H. rd_inv H. destruct v as [[r e] c2]. injection H as _ _ <-. apply CavalryProps.serve_frames in Ev; [|done].
  unfold cav_good. cbn. by rewrite (CavalryProps.ok_tenants _ _ _ Ev).
Qed.

Lemma disconnect_all_tenants cids c : cv_tenants (snd (disconnect_all cids c)) = cv_tenants c.
Proof.
  revert c. induction cids as [|cid cids IH]; intros c; [done|]. cbn [disconnect_all]. pose proof (disconnect_tenants cid c) as E.
  destruct (cavalry_proxy_client_disconnect cid c) as [e1 c1]. specialize (IH c1). destruct (disconnect_all cids c1) as [e2 c2]. cbn [snd] in *. congruence.
Qed.

(** A binding of the module. *)
Definition binding_good (n : nat) (p : Z) (b : slice_binding) : Prop := 2 < sb_cid b /\ exists k, (k < n)%nat /\ sb_slice b = bar_desc p k.

Lemma register_all_good n p map size es c :
  Forall (binding_good n p) es -> cav_good n p c -> cav_good n p (snd (register_all map size es c)).
Proof.
  intros He. revert c. induction He as [|e es [Hcid (k & Hk & E)] _ IH]; intros c Hg; [done|]. cbn [register_all]. rewrite E.
  match goal with |- context [cavalry_proxy_register_tenant _ _ _ ?x] => set (m := x) end. pose proof (register_good n p (sb_cid e) k m c Hg Hk Hcid) as (Hr & _).
  cbv zeta in Hr. destruct (cavalry_proxy_register_tenant _ _ _ _ _ _ _ c) as [[ret e1] c1]. cbn [fst snd] in Hr. destruct (ret <? 0); [done|].
  specialize (IH c1 Hr). by destruct (register_all map size es c1) as [[ret2 e2] c2].
Qed.

Lemma restore_good n p cnt es map size c :
  Forall (binding_good n p) es -> cav_good n p c -> cav_good n p (snd (cavalry_proxy_restore_bindings cnt es map size c)).
Proof.
  intros He Hg. unfold cavalry_proxy_restore_bindings. destruct (8 <? cnt); [done|]. destruct (negb _); [done|].
  set (c1 := with_hw _ _). set (stale := List.map tn_cid _). pose proof (disconnect_all_tenants stale c1) as E. destruct (disconnect_all stale c1) as [e1 c2].
  assert (G2 : cav_good n p c2) by (unfold cav_good; cbn in E; rewrite E; apply tenants_blank).
  pose proof (register_all_good n p map size (take (Z.to_nat cnt) es) c2 (Forall_take _ _ _ He) G2) as Hr.
  by destruct (register_all map size (take (Z.to_nat cnt) es) c2) as [[ret e2] c3].
Qed.

(** ** The invariant *)

(** The module is in order, and the tenants are slices of its window (none before there is a window). *)
Record server_ok (n : nat) (s : server) (files : list nat) : Prop := {
  so_host : host_ok n (sv_host s) files;
  so_tenants : forall p, h_phys (sv_host s) = 0 \/ p = h_phys (sv_host s) -> cav_good n p (sv_cav s) }.

Lemma server_host n s files h' files' :
  server_ok n s files -> host_ok n h' files' -> (h_phys (sv_host s) <> 0 -> h_phys h' = h_phys (sv_host s)) -> server_ok n (set_host h' s) files'.
Proof.
  intros [H1 H2] Hh Hp. split; [done|]. cbn. intros p Ep. apply H2. destruct (decide (h_phys (sv_host s) = 0)) as [E|E]; [by left|].
  right. rewrite (Hp E) in Ep. by destruct Ep.
Qed.

Lemma server_cav n s files c' :
  server_ok n s files -> (forall p, h_phys (sv_host s) = 0 \/ p = h_phys (sv_host s) -> cav_good n p (sv_cav s) -> cav_good n p c') -> server_ok n (set_cav c' s) files.
Proof. intros [H1 H2] Hc. split; [done|]. cbn. intros p Ep. auto. Qed.

(** Steps that leave both components alone. *)
Lemma server_same n s s' files : server_ok n s files -> sv_host s' = sv_host s -> sv_cav s' = sv_cav s -> server_ok n s' files.
Proof. intros [H1 H2] E1 E2. split; by rewrite ?E1, ?E2. Qed.

Lemma bind_phys cid nonce h : h_phys (snd (amba_virt_slice_bind cid nonce h)) = h_phys h.
Proof. destruct (bind_cases cid nonce h) as [(i & s & _ & _ & _ & _ & _ & _ & _ & ->)|(e & -> & _)]; done. Qed.

Lemma unbind_phys cid h : h_phys (amba_virt_slice_unbind_cid cid h) = h_phys h.
Proof. unfold amba_virt_slice_unbind_cid. by destruct (cid =? 0). Qed.

Lemma ensure_phys n get h files : host_ok n h files -> h_phys h <> 0 -> amba_virt_ensure_window (Z.of_nat n) get h = h.
Proof.
  intros Ho E. unfold amba_virt_ensure_window. destruct (ho_window _ _ _ Ho) as [P _ _ _|(? & _) S _ _ _]; [done|].
  destruct (Z.eqb_spec (h_phys h) 0); [done|]. destruct (Z.eqb_spec (h_size h) 0).
  - unfold BAR, AMBA_VIRT_GUEST_BAR_SIZE in *. lia.
  - cbn. by eapply published_stays.
Qed.

Lemma open_phys wt wb r idx h ret h' : amba_virt_slice_open wt wb r idx h = Some (ret, h') -> h_phys h' = h_phys h.
Proof.
  unfold amba_virt_slice_open. destruct (idx <? _); [|by intros [= <- <-]]. destruct (_ =? 1).
  - destruct (draw_nonce r); [|done]. intros [= <- <-]. etransitivity; [apply claim_states|done].
  - by intros [= <- <-].
Qed.

Lemma step_phys n h files h' files' : host_ok n h files -> host_step n (h, files) (h', files') -> h_phys h <> 0 -> h_phys h' = h_phys h.
Proof.
  intros Ho Hs E. inversion Hs; subst; cbn [snd amba_virt_shm_release_idx].
  - by rewrite (ensure_phys n get h files').
  - match goal with H : amba_virt_shm_node_open _ _ _ _ _ = _ |- _ => apply node_open_inv in H; by eapply open_phys end.
  - match goal with H : amba_virt_shm_node_open _ _ _ _ _ = _ |- _ => apply node_open_inv in H; by eapply open_phys end.
  - unfold amba_virt_slice_release. by destruct (_ <? _).
  - apply bind_phys.
  - apply unbind_phys.
Qed.

Lemma server_unbind n cid s files : server_ok n s files -> server_ok n (server_unbind_cid cid s) files.
Proof.
  intros Hs. unfold server_unbind_cid, ioc_unbind_slice. destruct (cid <=? 2).
  - apply (server_same n s); [done|done|done].
  - apply server_host with (files := files); [done|by apply unbind_ok, (so_host _ _ _ Hs)|intros _; apply unbind_phys].
Qed.

(** ** The geometry *)

Lemma bindings_good n h files :
  host_ok n h files -> Forall (binding_good n (h_phys h)) (map (fun b => {| sb_cid := fst b; sb_slice := snd b |}) (amba_virt_slice_get_bindings h)).
Proof.
  intros Ho. apply Forall_map. unfold amba_virt_slice_get_bindings. apply Forall_take, Forall_map, List.Forall_forall. intros s [Hin Hb]%filter_In.
  apply list_elem_of_In, list_elem_of_lookup in Hin as [k Hk]. destruct (live_desc _ _ _ _ _ Ho Hk) as (Hn & _ & Hd).
  apply live_at in Hk as [Hk _]. destruct (proj1 (ho_slots _ _ _ Ho) _ _ Hk) as (_ & _ & C). bool_hyps. split; cbn; [by apply C|]. by exists k.
Qed.

Lemma no_bindings n h files : host_ok n h files -> h_phys h = 0 -> amba_virt_slice_get_bindings h = [].
Proof.
  intros [_ _ [_ _ _ C|(_ & G & _) _ _ _ _] _ _] E; [|lia]. unfold amba_virt_slice_get_bindings, live. by rewrite C.
Qed.

Lemma bindings_any n h files p :
  host_ok n h files -> h_phys h = 0 \/ p = h_phys h ->
  Forall (binding_good n p) (map (fun b => {| sb_cid := fst b; sb_slice := snd b |}) (amba_virt_slice_get_bindings h)).
Proof.
  intros Ho [E| ->]; [|by eapply bindings_good]. by rewrite (no_bindings n h files).
Qed.

Lemma check_same listed r err s : let s' := server_check_geometry listed r err s in sv_host s' = sv_host s /\ sv_cav s' = sv_cav s.
Proof.
  cbv zeta. unfold server_check_geometry. destruct (SliceLease.virt_slice_lease_set_geometry r false 0 0 (sv_lease s) (sv_disk s)) as [st0 d0].
  destruct (sv_info_phys s =? 0); [done|]. destruct (if listed then _ else None) as [sum|]; [|done].
  destruct (amba_virt_slice_compute_geometry _ _ _ _ _) as [ret out]. destruct (_ || _); [done|].
  destruct (amba_virt_slice_compare_list _ _) as [v|]; [|done]. destruct (negb (v =? 0)); [|done].
  by destruct (SliceLease.virt_slice_lease_set_geometry _ _ _ _ _ _) as [st d].
Qed.

Lemma pools_ok n bs s files : server_ok n s files -> server_ok n (restore_pools bs s) files.
Proof.
  revert s. induction bs as [|[cid d] bs IH]; intros s Hs; [done|]. cbn [restore_pools].
  destruct (virt_mem_pool_register_tenant _ _ _ _ _) as [ret p]. set (s1 := set_pool p (sv_pool_ready s) s).
  assert (H1 : server_ok n s1 files) by (by apply (server_same n s)). apply IH. destruct (ret <? 0); [|done].
  apply server_cav; [done|]. intros q _ Hq. by apply unregister_good.
Qed.

Lemma restore_ok n listed s files : server_ok n s files -> server_ok n (server_restore_bindings listed s) files.
Proof.
  intros Hs. unfold server_restore_bindings. destruct (negb listed); [done|].
  set (es := map _ (amba_virt_slice_get_bindings (sv_host s))). set (m := if _ =? MAP_FAILED then NULL else _).
  pose proof (fun p Hp => restore_good n p (Z.of_nat (length (amba_virt_slice_get_bindings (sv_host s)))) es m (server_active_window_bytes s) (sv_cav s)
    (bindings_any n _ files p (so_host _ _ _ Hs) Hp)) as Hr.
  destruct (cavalry_proxy_restore_bindings _ es m _ (sv_cav s)) as [[ret evs] c]. cbn [snd] in Hr.
  assert (H1 : server_ok n (set_cav c s) files) by (by apply server_cav). destruct (ret <? 0); [done|by apply pools_ok].
Qed.

Lemma apply_ok n listed bindings r err s files : server_ok n s files -> server_ok n (server_apply_geometry listed bindings r err s) files.
Proof.
  intros Hs. unfold server_apply_geometry. destruct (check_same listed r err s) as [E1 E2]. set (s1 := server_check_geometry _ _ _ _) in *.
  assert (H1 : server_ok n s1 files) by (by apply (server_same n s)). destruct (_ || _); [done|]. apply restore_ok.
  destruct (sv_pool_ready s1); [done|by apply (server_same n s1)].
Qed.

Lemma refresh_ok n get listed bindings r err s files :
  (1 <= n <= 8)%nat -> (forall p size, get = Some (Some (p, size)) -> 0 <= p) -> server_ok n s files ->
  server_ok n (refresh_window (Z.of_nat n) get listed bindings r err s) files.
Proof.
  intros Hn Hget Hs. unfold refresh_window, ioc_get_info. apply apply_ok.
  set (h1 := amba_virt_ensure_window _ _ _). assert (H1 : server_ok n (set_host h1 s) files).
  { apply server_host with (files := files); [done|by apply ensure_window_ok; [..|apply (so_host _ _ _ Hs)]|].
    intros E. unfold h1. by rewrite (ensure_phys n get _ files (so_host _ _ _ Hs) E). }
  by apply (server_same n (set_host h1 s)).
Qed.

(** ** The requests *)

Lemma claim_ok n rx_len nonce cid s files : server_ok n s files -> server_ok n (snd (handle_claim rx_len nonce cid s)) files.
Proof.
  intros Hs. unfold handle_claim. destruct (rx_len <? _); [done|]. destruct (negb _); [done|].
  pose proof (slice_bind_ok n cid nonce _ _ (so_host _ _ _ Hs)) as Hb. pose proof (bind_phys cid nonce (sv_host s)) as Hp.
  destruct (bind_cases cid nonce (sv_host s)) as [(i & st & Hi & _ & _ & Hc & _ & _ & _ & E)|(e & E & _)]; rewrite E in *; cbn [snd] in *;
    [|by apply (server_same n s)].
  set (h1 := set_states _ _) in *. assert (H1 : server_ok n (set_host h1 s) files) by (apply server_host with (files := files); auto).
  destruct (negb (known_slice _ _)); [by apply server_unbind|]. destruct (live_desc _ _ _ _ _ (so_host _ _ _ Hs) Hi) as (Hn & Hg & Ed). rewrite Ed.
  match goal with |- context [cavalry_proxy_register_tenant _ _ _ ?x] => set (m := x) end.
  assert (Hr : server_ok n (set_cav (snd (cavalry_proxy_register_tenant cid (index (bar_desc (h_phys (sv_host s)) i)) (-1) m
    (usable_size (bar_desc (h_phys (sv_host s)) i)) (phys (bar_desc (h_phys (sv_host s)) i)) (offset (bar_desc (h_phys (sv_host s)) i)) (sv_cav s))) (set_host h1 s)) files).
  { apply server_cav; [done|]. cbn. intros p [Z|Z] Hp'; [destruct Hg as (_ & ? & _); unfold h1 in Z; cbn in Z; lia|]. subst p. by apply register_good. }
  destruct (cavalry_proxy_register_tenant _ _ _ _ _ _ _ _) as [[ret evs] c]. cbn [snd] in Hr. destruct (ret <? 0); [by apply server_unbind|].
  destruct (virt_mem_pool_register_tenant _ _ _ _ _) as [pret pl]. destruct (pret <? 0).
  - apply server_unbind, server_cav; [by eapply server_same|]. intros p _ Hp'. by apply unregister_good.
  - by eapply server_same.
Qed.

(** One step of the server or of the module beneath it. *)
Inductive server_step (n : nat) : server * list nat -> server * list nat -> Prop :=
| SvModule s files h' files' : host_step n (sv_host s, files) (h', files') -> server_step n (s, files) (set_host h' s, files')
| SvRefresh get listed bindings r err s files :
    (forall p size, get = Some (Some (p, size)) -> 0 <= p) ->
    server_step n (s, files) (refresh_window (Z.of_nat n) get listed bindings r err s, files)
| SvGdma file engine pitch rx_len c cid s files : server_step n (s, files) (snd (handle_gdma file engine pitch rx_len c cid s), files)
| SvCavalry file i rx_len q cid s files resp evs s' :
    cid <> 0 -> handle_cavalry file i rx_len q cid s = Val (resp, evs, s') -> server_step n (s, files) (s', files)
| SvBounds file rx_len q cid s files resp z s' :
    handle_set_bounds file rx_len q cid s = Some (resp, z, s') -> server_step n (s, files) (s', files)
| SvRelease rx_len dev cid s files : server_step n (s, files) (snd (handle_release_bounds rx_len dev cid s), files)
| SvMem file rx_len q cid s files resp z s' : handle_mem file rx_len q cid s = Some (resp, z, s') -> server_step n (s, files) (s', files)
| SvSubmit file cr st rx_len q cid s files : server_step n (s, files) (snd (handle_submit file cr st rx_len q cid s), files)
| SvClaim rx_len nonce cid s files : server_step n (s, files) (snd (handle_claim rx_len nonce cid s), files).

Lemma gdma_ok n file engine pitch rx_len c cid s files : server_ok n s files -> server_ok n (snd (handle_gdma file engine pitch rx_len c cid s)) files.
Proof.
  intros Hs. unfold handle_gdma. destruct (negb _); [done|]. destruct (cavalry_proxy_get_tenant _ _); [|done].
  destruct (virt_acl_has_cap _ _ _ _) as [ok acl]. destruct (negb ok); [by eapply server_same|]. destruct (gdma_range_err _ _); [by eapply server_same|].
  destruct (ioc_host_gdma_copy _ _ _) as [ret job]. by eapply server_same.
Qed.

Lemma cavalry_ok n file i rx_len q cid s files resp evs s' :
  server_ok n s files -> cid <> 0 -> handle_cavalry file i rx_len q cid s = Val (resp, evs, s') -> server_ok n s' files.
Proof.
  intros Hs Hc. unfold handle_cavalry. destruct (rx_len <? _); [by intros [= _ _ <-]|].
  match goal with |- context [let '(_, _) := ?e in _] => destruct e as [no s1] eqn:E end.
  assert (H1 : server_ok n s1 files).
  { destruct (_ =? _) in E; [|destruct (_ =? _) in E]; try (destruct (virt_acl_has_cap _ _ _ _)); injection E as _ <-; [by eapply server_same..|done]. }
  destruct no; [by intros [= _ _ <-]|]. intros H. rd_inv H. destruct v as [[r e] c]. injection H as _ _ <-.
  apply server_cav; [done|]. intros p _. by eapply rpc_good.
Qed.

Lemma set_bounds_ok n file rx_len q cid s files resp z s' :
  server_ok n s files -> handle_set_bounds file rx_len q cid s = Some (resp, z, s') -> server_ok n s' files.
Proof.
  intros Hs. unfold handle_set_bounds. destruct (rx_len <? _); [by intros [= _ _ <-]|]. destruct (virt_acl_has_cap _ _ _ _) as [ok acl].
  destruct (negb ok); [intros [= _ _ <-]; by eapply server_same|]. destruct (virt_mem_pool_set_device_bounds _ _ _ _) as [[[p r] zs]|]; [|done].
  intros [= _ _ <-]. destruct (_ && _); [|by eapply server_same]. apply server_cav; [by eapply server_same|]. intros q' _. apply bounds_good.
Qed.

Lemma release_bounds_ok n rx_len dev cid s files : server_ok n s files -> server_ok n (snd (handle_release_bounds rx_len dev cid s)) files.
Proof.
  intros Hs. unfold handle_release_bounds. destruct (rx_len <? _); [done|]. destruct (virt_mem_pool_release_device_bounds _ _ _) as [st p]. cbn [snd].
  destruct (_ =? _); [|by eapply server_same]. destruct (cavalry_proxy_get_tenant _ _); [|by eapply server_same].
  destruct (cavalry_proxy_pool_size_for_usable _); [|by eapply server_same]. apply server_cav; [by eapply server_same|]. intros q' _. apply bounds_good.
Qed.

Lemma mem_ok n file rx_len q cid s files resp z s' : server_ok n s files -> handle_mem file rx_len q cid s = Some (resp, z, s') -> server_ok n s' files.
Proof.
  intros Hs. unfold handle_mem. destruct (rx_len <? _); [by intros [= _ _ <-]|]. destruct (virt_acl_has_cap _ _ _ _) as [ok acl].
  destruct (negb ok); [intros [= _ _ <-]; by eapply server_same|]. destruct (_ =? _).
  - destruct (virt_mem_pool_alloc_extent _ _ _ _ _) as [[[p r] zs]|]; [|done]. intros [= _ _ <-]. by eapply server_same.
  - destruct (_ =? _); [|intros [= _ _ <-]; by eapply server_same]. destruct (virt_mem_pool_free_extent _ _ _ _) as [[rc p] r].
    intros [= _ _ <-]. by eapply server_same.
Qed.

Lemma submit_ok n file cr st rx_len q cid s files : server_ok n s files -> server_ok n (snd (handle_submit file cr st rx_len q cid s)) files.
Proof.
  intros Hs. unfold handle_submit. destruct (rx_len <? _); [done|]. destruct (submit_bounds cid s) as [p size].
  destruct (DmaBroker.virt_dma_submit_begin _ _ _ _ _ _ _ _ _) as [[r acl] t]. by eapply server_same.
Qed.

Lemma server_step_ok n s files s' files' : (1 <= n <= 8)%nat -> server_ok n s files -> server_step n (s, files) (s', files') -> server_ok n s' files'.
Proof.
  intros Hn Hs H. inversion H; subst.
  - eapply server_host; [done| |]; [by eapply host_step_ok; [..|apply (so_host _ _ _ Hs)|]|]. eapply step_phys; [apply (so_host _ _ _ Hs)|done].
  - by apply refresh_ok.
  - by apply gdma_ok.
  - by eapply cavalry_ok.
  - by eapply set_bounds_ok.
  - by apply release_bounds_ok.
  - by eapply mem_ok.
  - by apply submit_ok.
  - by apply claim_ok.
Qed.

(** From a module that is loaded and a server that has no tenants yet. *)
Inductive server_reachable (n : nat) : server * list nat -> Prop :=
| SrInit s files : host_reachable n (sv_host s, files) -> cv_tenants (sv_cav s) = repeat tenant0 MAX_TENANTS -> server_reachable n (s, files)
| SrStep x y : server_reachable n x -> server_step n x y -> server_reachable n y.

Lemma reachable_server_ok n x : (1 <= n <= 8)%nat -> server_reachable n x -> server_ok n (fst x) (snd x).
Proof.
  intros Hn H. induction H as [s files Hh Ht|[s fs] [s' fs'] _ IH Hs]; [|by eapply server_step_ok]. split.
  - apply (reachable_host_ok n (sv_host s, files) Hn Hh).
  - intros p _. unfold cav_good. cbn [fst]. rewrite Ht. apply tenants_blank.
Qed.

End ServerProps.
