(* ===== verification/ServerTheorems.v ===== *)
(** * The slices of the server: isolation of the guests

    [Module ServerTheorems]: over every interleaving of guest requests, geometry checks and the module's own calls, the
    tenants of the server are slices of their own ([tenants_apart]); a GDMA job that reaches the engine stays inside the
    usable part of the caller's slice and does not overlap itself ([gdma_stays_in_slice]); slices above 4 GiB are never
    served ([gdma_high_slice]); a claim gives a guest the same slice in the module, the proxy and the pool, or leaves it
    as it was or without a slice in the module ([claim_all_or_nothing]). *)

From stdpp Require Import base list.
From Stdlib Require Import ZArith Lia.
From S2P Require Import Prelude Text SliceGeometry ByteBuf Acl MemPool DmaBroker Cavalry CavalryRpc CavalryProps IavWin IavAperture CameraPolicy SliceLease HostWindow HostWindowProps Server ServerProps.
Import Text Store Geometry Acl MemPool Cavalry HostWindow HostWindowProps Server ServerProps.

Module ServerTheorems.

(** ** Tenants apart *)

Lemma tenant_of_server n s files cid t :
  server_ok n s files -> cavalry_proxy_get_tenant cid (sv_cav s) = Some t ->
  exists k, window_good n (h_phys (sv_host s)) /\ tenant_slice n (h_phys (sv_host s)) k t /\ tn_cid t = cid.
Proof.
  intros [Ho Ht] (k & Hk & Hu & Hc)%get_tenant_at. exists k.
  pose proof (tg_slice _ _ _ (Ht _ (or_intror eq_refl)) k t Hk Hu) as Hs. split; [|done].
  destruct (ho_window _ _ _ Ho) as [P _ _ _|G _ _ _ _]; [|done].
  pose proof (tg_slice _ _ _ (Ht 1 (or_introl P)) k t Hk Hu) as (_ & _ & _ & E1 & _).
  pose proof (tg_slice _ _ _ (Ht 2 (or_introl P)) k t Hk Hu) as (_ & _ & _ & E2 & _). lia.
Qed.

Lemma tenants_differ n s files c1 c2 t1 t2 k1 k2 :
  server_ok n s files -> cavalry_proxy_get_tenant c1 (sv_cav s) = Some t1 -> cavalry_proxy_get_tenant c2 (sv_cav s) = Some t2 -> c1 <> c2 ->
  tenant_slice n (h_phys (sv_host s)) k1 t1 -> tenant_slice n (h_phys (sv_host s)) k2 t2 -> k1 <> k2.
Proof.
  intros [Ho Ht] (i & Hi & Ui & Ci)%get_tenant_at (j & Hj & Uj & Cj)%get_tenant_at Hne (_ & X1 & _) (_ & X2 & _) <-.
  destruct (tg_slice _ _ _ (Ht _ (or_intror eq_refl)) i t1 Hi Ui) as (_ & E1 & _).
  destruct (tg_slice _ _ _ (Ht _ (or_intror eq_refl)) j t2 Hj Uj) as (_ & E2 & _). assert (i = j) as <- by lia. congruence.
Qed.

(** C1: whatever the guests ask, whenever the server looks at the geometry again and whatever other processes do with the
    nodes of the module, a guest that has a tenant record has exactly one published slice of the window: its offset, its
    physical base and its usable size are those of the slice, so the record never reaches the claim page; and the memory
    of two guests is disjoint. *)
Theorem tenants_apart n s files cid t :
  (1 <= n <= 8)%nat -> server_reachable n (s, files) -> cavalry_proxy_get_tenant cid (sv_cav s) = Some t ->
  (exists k, tenant_slice n (h_phys (sv_host s)) k t) /\ 2 < cid /\
  h_phys (sv_host s) <= tn_phys_base t /\ tn_phys_base t + tn_shm_size t + PAGE_SIZE <= h_phys (sv_host s) + h_size (sv_host s) /\
  forall cid' t', cavalry_proxy_get_tenant cid' (sv_cav s) = Some t' -> cid' <> cid ->
    disjoint_range (tn_phys_base t) (tn_phys_base t + tn_shm_size t) (tn_phys_base t') (tn_phys_base t' + tn_shm_size t').
Proof.
  intros Hn Hr Ht. pose proof (reachable_server_ok n (s, files) Hn Hr) as Hs. cbn [fst snd] in Hs.
  destruct (tenant_of_server _ _ _ _ _ Hs Ht) as (k & Hg & Hk & Hc). pose proof Hk as (K1 & _ & _ & K4 & K5 & K6).
  assert (Hsz : h_size (sv_host s) = Z.of_nat n * BAR).
  { destruct (ho_window _ _ _ (so_host _ _ _ Hs)) as [P _ _ _|_ S _ _ _]; [|done]. destruct Hg as (_ & ? & _). lia. }
  unfold BAR, AMBA_VIRT_GUEST_BAR_SIZE, PAGE_SIZE in *. split_and!; [by exists k|lia|lia|lia|].
  intros cid' t' Ht' Hne. destruct (tenant_of_server _ _ _ _ _ Hs Ht') as (k' & _ & Hk' & _).
  pose proof (tenants_differ _ _ _ _ _ _ _ _ _ Hs Ht' Ht Hne Hk' Hk). destruct Hk' as (_ & _ & _ & L4 & L5 & _).
  unfold disjoint_range, BAR, AMBA_VIRT_GUEST_BAR_SIZE, PAGE_SIZE in *. lia.
Qed.

(** ** GDMA *)

(** Every byte the job reads or writes is in [[lo, hi)]. *)
Definition job_inside (lo hi : Z) (j : gdma_job) : Prop :=
  match j with
  | LinearCopy dst src len => lo <= src /\ src + len <= hi /\ lo <= dst /\ dst + len <= hi
  | PitchCopy dst src dpitch spitch width height =>
      forall r, 0 <= r < height -> lo <= src + r * spitch /\ src + r * spitch + width <= hi /\ lo <= dst + r * dpitch /\ dst + r * dpitch + width <= hi
  end.

(** What it reads and what it writes do not overlap. *)
Definition job_apart (j : gdma_job) : Prop :=
  match j with
  | LinearCopy dst src len => disjoint_range src (src + len) dst (dst + len)
  | PitchCopy dst src dpitch spitch width height =>
      disjoint_range src (src + (height - 1) * spitch + width) dst (dst + (height - 1) * dpitch + width)
  end.

(** The fields at their widths. *)
Definition copy_wf (c : gdma_copy) : Prop :=
  is_u32 (gc_src c) /\ is_u32 (gc_dst c) /\ is_u32 (gc_len c) /\ is_u32 (gc_flags c) /\ 0 <= gc_spitch c < 2 ^ 16 /\ 0 <= gc_dpitch c < 2 ^ 16 /\
  0 <= gc_width c < 2 ^ 16 /\ 0 <= gc_height c < 2 ^ 16.

Lemma pitch_end_exact off pitch width height :
  is_u32 off -> 0 <= pitch < 2 ^ 16 -> 0 <= width < 2 ^ 16 -> 0 < height < 2 ^ 16 ->
  pitch_end off pitch width height = off + (height - 1) * pitch + width.
Proof.
  unfold is_u32, pitch_end. intros Ho Hp Hw Hh. destruct (Z.eqb_spec height 0); [lia|]. rewrite (u64_id ((height - 1) * pitch)) by nia. apply u64_id. nia.
Qed.

Lemma rows_inside off pitch width height r hi :
  0 <= pitch -> 0 <= r < height -> off + (height - 1) * pitch + width <= hi -> off <= off + r * pitch /\ off + r * pitch + width <= hi.
Proof. nia. Qed.

Definition is_pitch (c : gdma_copy) : bool := negb (Z.land (gc_flags c) AMBA_VIRT_GDMA_F_PITCH =? 0).

(** The end of the source and of the destination of a copy. *)
Definition src_end (c : gdma_copy) : Z := if is_pitch c then gc_src c + (gc_height c - 1) * gc_spitch c + gc_width c else gc_src c + gc_len c.
Definition dst_end (c : gdma_copy) : Z := if is_pitch c then gc_dst c + (gc_height c - 1) * gc_dpitch c + gc_width c else gc_dst c + gc_len c.

(** The job of a copy in the window at [p]. *)
Definition job_of (p : Z) (c : gdma_copy) : gdma_job :=
  if is_pitch c then PitchCopy (p + gc_dst c) (p + gc_src c) (gc_dpitch c) (gc_spitch c) (gc_width c) (gc_height c)
  else LinearCopy (p + gc_dst c) (p + gc_src c) (gc_len c).

Lemma rows_bound height pitch : 0 < height < 2 ^ 16 -> 0 <= pitch < 2 ^ 16 -> 0 <= (height - 1) * pitch < 2 ^ 32.
Proof. nia. Qed.

(** What the module runs. *)
Lemma host_job c h job :
  copy_wf c -> 0 < h_phys h -> h_phys h + h_size h < 2 ^ 64 -> amba_virt_host_gdma_copy c h = inr job ->
  job = job_of (h_phys h) c /\ (is_pitch c = true -> 0 < gc_height c) /\ src_end c <= h_size h /\ dst_end c <= h_size h /\
  disjoint_range (gc_src c) (src_end c) (gc_dst c) (dst_end c).
Proof.
  intros (W1 & W2 & W3 & W4 & W5 & W6 & W7 & W8) Hp Hs. unfold amba_virt_host_gdma_copy, is_u32 in *.
  destruct (_ || _); [done|]. destruct (negb _); [done|]. unfold src_end, dst_end, job_of, disjoint_range. fold (is_pitch c). destruct (is_pitch c).
  - destruct (_ || _) eqn:E; [done|]. bool_hyps.
    destruct (rows_bound (gc_height c) (gc_spitch c)) as [A1 A2]; [lia|lia|]. destruct (rows_bound (gc_height c) (gc_dpitch c)) as [B1 B2]; [lia|lia|].
    set (a := (gc_height c - 1) * gc_spitch c) in *. set (b := (gc_height c - 1) * gc_dpitch c) in *.
    rewrite (u64_id a), (u64_id b), (u64_id (gc_src c + a + gc_width c)), (u64_id (gc_dst c + b + gc_width c)) by lia.
    destruct (_ || _) eqn:E2; [done|]. bool_hyps. destruct (_ && _) eqn:E3; [done|].
    intros [= <-]. rewrite (u64_id (h_phys h + gc_dst c)), (u64_id (h_phys h + gc_src c)) by lia. split_and!; [done|lia|lia|lia|].
    apply andb_false_iff in E3 as [E3|E3]; bool_hyps; lia.
  - destruct (_ || _) eqn:E; [done|]. bool_hyps. destruct (_ || _) eqn:E2; [done|]. bool_hyps. destruct (_ && _) eqn:E3; [done|].
    intros [= <-]. rewrite !u64_id by lia. split_and!; [done|done|lia|lia|]. apply andb_false_iff in E3 as [E3|E3]; bool_hyps; lia.
Qed.

(** What the server lets through. *)
Lemma range_ok t c :
  copy_wf c -> (is_pitch c = true -> 0 < gc_height c) -> gdma_range_err t c = false -> 0 <= tn_slice_offset t -> 0 <= tn_shm_size t ->
  tn_slice_offset t + tn_shm_size t < 2 ^ 64 ->
  tn_slice_offset t + tn_shm_size t <= UINT32_MAX /\ src_end c <= tn_shm_size t /\ dst_end c <= tn_shm_size t.
Proof.
  intros (W1 & W2 & W3 & W4 & W5 & W6 & W7 & W8) Hh. unfold gdma_range_err, src_end, dst_end. fold (is_pitch c). intros H Ho Hs Hb.
  rewrite (u64_id (_ + tn_shm_size t)) in H by lia. destruct (_ || _) eqn:E1 in H; [done|]. bool_hyps. destruct (is_pitch c).
  - rewrite !pitch_end_exact in H by (done || lia). bool_hyps. lia.
  - bool_hyps. lia.
Qed.

(** A copy that fits the slice is shifted without wrapping. *)
Lemma shift_exact off c :
  copy_wf c -> 0 <= off -> gc_src c + off <= UINT32_MAX -> gc_dst c + off <= UINT32_MAX ->
  gc_src (shift_copy off c) = gc_src c + off /\ gc_dst (shift_copy off c) = gc_dst c + off /\ copy_wf (shift_copy off c).
Proof.
  unfold copy_wf, is_u32, UINT32_MAX. intros (W1 & W2 & W3 & W4 & W5 & W6 & W7 & W8) Ho Hs Hd. cbn. rewrite !(u32_id off) by lia. rewrite !u32_id by lia.
  by split_and!; try lia.
Qed.

Lemma ends_ge c : copy_wf c -> (is_pitch c = true -> 0 < gc_height c) -> gc_src c <= src_end c /\ gc_dst c <= dst_end c.
Proof. unfold copy_wf, is_u32, src_end, dst_end. intros (W1 & W2 & W3 & W4 & W5 & W6 & W7 & W8) Hh. destruct (is_pitch c); nia. Qed.

Lemma job_inside_of p c lo hi :
  copy_wf c -> lo <= p + gc_src c -> lo <= p + gc_dst c -> p + src_end c <= hi -> p + dst_end c <= hi -> job_inside lo hi (job_of p c).
Proof.
  unfold copy_wf, is_u32, src_end, dst_end, job_of. intros (W1 & W2 & W3 & W4 & W5 & W6 & W7 & W8). destruct (is_pitch c); cbn; [|lia].
  intros Hs Hd Hse Hde r Hr. split_and!; nia.
Qed.

Lemma job_apart_of p c : disjoint_range (gc_src c) (src_end c) (gc_dst c) (dst_end c) -> job_apart (job_of p c).
Proof. unfold disjoint_range, src_end, dst_end, job_of. destruct (is_pitch c); cbn; unfold disjoint_range; lia. Qed.

(** A job that runs has a positive height when it is one of rows. *)
Lemma host_height c h job : copy_wf c -> amba_virt_host_gdma_copy c h = inr job -> is_pitch c = true -> 0 < gc_height c.
Proof.
  intros (_ & _ & _ & _ & _ & _ & _ & W8). unfold amba_virt_host_gdma_copy. destruct (_ || _); [done|]. destruct (negb _); [done|]. fold (is_pitch c).
  intros H P. rewrite P in H. destruct (_ || _) eqn:E in H; [done|]. bool_hyps. lia.
Qed.

(** The request of a guest that ran a job. *)
Lemma gdma_inv file engine pitch rx_len c cid s status job s' :
  handle_gdma file engine pitch rx_len c cid s = (status, Some job, s') ->
  exists t, cavalry_proxy_get_tenant cid (sv_cav s) = Some t /\ gdma_range_err t c = false /\
            amba_virt_host_gdma_copy (shift_copy (tn_slice_offset t) c) (sv_host s) = inr job.
Proof.
  unfold handle_gdma. destruct (negb _); [done|]. destruct (cavalry_proxy_get_tenant cid (sv_cav s)) as [t|]; [|done].
  destruct (virt_acl_has_cap _ _ _ _) as [ok acl]. destruct (negb ok); [done|]. destruct (gdma_range_err t c) eqn:E; [done|].
  unfold ioc_host_gdma_copy. cbn [sv_host set_acl]. destruct (negb (h_gdma _)); [done|]. destruct (amba_virt_host_gdma_copy _ _) as [e|j] eqn:J; [done|].
  intros [= _ <- _]. by exists t.
Qed.

(** C2: the copy that the DMA engine runs for a guest, on whichever of the two messages and with whatever offsets,
    pitches and lengths, reads and writes only the usable part of that guest's slice, never the claim page and never
    another slice, and its source and destination do not overlap. *)
Theorem gdma_stays_in_slice n s files file engine pitch rx_len c cid status job s' :
  (1 <= n <= 8)%nat -> server_reachable n (s, files) -> copy_wf c ->
  handle_gdma file engine pitch rx_len c cid s = (status, Some job, s') ->
  exists t k, cavalry_proxy_get_tenant cid (sv_cav s) = Some t /\ tenant_slice n (h_phys (sv_host s)) k t /\
    job_inside (tn_phys_base t) (tn_phys_base t + tn_shm_size t) job /\ job_apart job.
Proof.
  intros Hn Hr Hw H. pose proof (reachable_server_ok n (s, files) Hn Hr) as Hs. cbn [fst snd] in Hs.
  destruct (gdma_inv _ _ _ _ _ _ _ _ _ _ H) as (t & Ht & He & Hj). destruct (tenant_of_server _ _ _ _ _ Hs Ht) as (k & Hg & Hk & _).
  exists t, k. split; [done|]. split; [done|]. destruct Hk as (K1 & _ & K3 & K4 & K5 & _). destruct Hg as (_ & G2 & _ & G4).
  assert (Hsz : h_size (sv_host s) = Z.of_nat n * BAR) by (destruct (ho_window _ _ _ (so_host _ _ _ Hs)) as [P _ _ _|_ S _ _ _]; [lia|done]).
  assert (Hb : 0 <= tn_slice_offset t /\ 0 <= tn_shm_size t /\ tn_slice_offset t + tn_shm_size t < 2 ^ 64 /\ tn_phys_base t = h_phys (sv_host s) + tn_slice_offset t)
    by (unfold BAR, AMBA_VIRT_GUEST_BAR_SIZE, PAGE_SIZE in *; lia).
  destruct Hb as (B1 & B2 & B3 & B4).
  assert (Hp : is_pitch (shift_copy (tn_slice_offset t) c) = is_pitch c) by done.
  assert (Hh : is_pitch c = true -> 0 < gc_height c).
  { intros P. destruct Hw as (W1 & W2 & W3 & W4 & W5 & W6 & W7 & W8).
    apply (host_height (shift_copy (tn_slice_offset t) c) (sv_host s) job); [|done|done]. unfold copy_wf. cbn. split_and!; (done || lia || apply u32_range). }
  destruct (range_ok t c Hw Hh He B1 B2 B3) as (R1 & R2 & R3). destruct (ends_ge c Hw Hh) as [S1 S2].
  destruct (shift_exact (tn_slice_offset t) c Hw B1) as (X1 & X2 & X3); [lia|lia|].
  destruct (host_job _ _ _ X3 G2 ltac:(lia) Hj) as (-> & _ & Y1 & Y2 & Y3).
  split; [|by apply job_apart_of]. apply job_inside_of; [done|rewrite X1; destruct Hw as (W1 & _); unfold is_u32 in W1; lia|
    rewrite X2; destruct Hw as (_ & W2 & _); unfold is_u32 in W2; lia| |];
    unfold src_end, dst_end in *; rewrite Hp in *; rewrite ?X1, ?X2; cbn [shift_copy gc_height gc_spitch gc_dpitch gc_width gc_len]; destruct (is_pitch c); lia.
Qed.

(** a guest whose slice lies above 4 GiB in the window (the fifth slice and every later one) is never served a copy:
    whatever it asks for, with every capability, the answer is a range error and the engine is not used. *)
Theorem gdma_high_slice n s files file engine (pitch : bool) c cid t k :
  (1 <= n <= 8)%nat -> server_reachable n (s, files) -> cavalry_proxy_get_tenant cid (sv_cav s) = Some t ->
  tenant_slice n (h_phys (sv_host s)) k t -> (4 <= k)%nat ->
  fst (virt_acl_has_cap file cid (if pitch then AMBA_VIRT_CAP_GDMA_PITCH else AMBA_VIRT_CAP_GDMA_COPY) (sv_acl s)) = true ->
  fst (handle_gdma file engine pitch (SIZEOF_MSG + SIZEOF_GDMA) c cid s) = (- ERANGE, None).
Proof.
  intros Hn Hr Ht (K1 & _ & K3 & _ & K5 & _) Hk Hc. unfold handle_gdma. rewrite Z.eqb_refl, Ht. cbn [negb].
  destruct (virt_acl_has_cap _ _ _ _) as [ok acl]. cbn in Hc. subst ok. cbn [negb].
  assert (E : gdma_range_err t c = true); [|by rewrite E].
  unfold gdma_range_err. destruct (Z.ltb_spec UINT32_MAX (tn_slice_offset t)) as [|L]; [done|].
  unfold UINT32_MAX, BAR, AMBA_VIRT_GUEST_BAR_SIZE in *. lia.
Qed.

(** ** Claims *)

(** The pool gives the guest one BAR: its entry names the slice [idx], with [size] bytes of BAR and of quota, and no
    entry of another guest names that slice. *)
Definition pool_gives (st : pool_state) (cid idx size : Z) : Prop :=
  exists i p, virt_mem_pool_get_tenant cid st = Some i /\ g_tenant_pools st !! i = Some p /\
    tp_in_use p = true /\ tp_cid p = cid /\ tp_tenant_idx p = idx /\ tp_bar_size p = size /\ tp_quota_max p = size /\
    forall j q, g_tenant_pools st !! j = Some q -> tp_in_use q = true -> tp_tenant_idx q = idx -> tp_cid q = cid.

Lemma find_altered {A} (P : A -> bool) l i f x :
  l !! i = Some x -> P (f x) = true -> (forall j y, (j < i)%nat -> l !! j = Some y -> P y = false) ->
  find_idx P (alter f i l) = Some i.
Proof.
  revert i. induction l as [|a l IH]; intros i Hi Hp Hb; [done|]. destruct i as [|i]; cbn in Hi |- *.
  - injection Hi as ->. by rewrite Hp.
  - rewrite (Hb 0%nat a ltac:(lia) eq_refl). by rewrite IH by (done || (intros j y Hj; apply (Hb (S j)); lia)).
Qed.

Lemma pool_registered cid idx size st rc st' :
  0 < size -> virt_mem_pool_register_tenant cid idx size size st = (rc, st') -> 0 <= rc -> pool_gives st' cid idx size.
Proof.
  intros Hsz. unfold virt_mem_pool_register_tenant. destruct (g_pool_initialized st) eqn:Ei; cbn [negb]; [|intros [= <- _] H; by destruct H].
  destruct (Z.gtb_spec size 0); [|lia]. set (ps := map _ _).
  assert (Hps : forall j q, ps !! j = Some q -> tp_in_use q = true -> tp_tenant_idx q = idx -> tp_cid q = cid).
  { intros j q Hj Hu Hx. unfold ps in Hj. rewrite list_lookup_fmap in Hj. apply fmap_Some in Hj as (r & _ & ->).
    destruct (Z.eqb_spec (tp_cid r) cid); [by rewrite andb_false_r in *|].
    destruct (tp_in_use r) eqn:Hr; cbn [andb negb] in *; [|congruence]. destruct (Z.eqb_spec (tp_tenant_idx r) idx); [done|congruence]. }
  assert (G : forall i p f, ps !! i = Some p -> (forall j y, (j < i)%nat -> ps !! j = Some y -> entry_of cid y = false) ->
              tp_in_use (f p) = true -> tp_cid (f p) = cid -> tp_tenant_idx (f p) = idx -> tp_bar_size (f p) = size -> tp_quota_max (f p) = size ->
              pool_gives (set_pools st (alter f i ps)) cid idx size).
  { intros i p f Hp Hb F1 F2 F3 F4 F5. exists i, (f p). unfold virt_mem_pool_get_tenant. cbn [set_pools g_pool_initialized g_tenant_pools]. rewrite Ei.
    rewrite list_lookup_alter_eq, Hp. split_and!; try done.
    - apply (find_altered _ _ _ _ p); [done|unfold entry_of; by rewrite F1, F2, Z.eqb_refl|done].
    - intros j q Hj. destruct (decide (j = i)) as [->|Hne]; [|rewrite list_lookup_alter_ne in Hj by done; by apply (Hps j)].
      rewrite list_lookup_alter_eq, Hp in Hj. injection Hj as <-. done. }
  destruct (find_idx (entry_of cid) ps) as [i|] eqn:F1.
  - intros [= _ <-] _. destruct (find_idx_Some _ _ _ F1) as (p & Hp & He & Hb). unfold entry_of in He. bool_hyps. by apply (G i p).
  - destruct (find_idx (fun p => negb (tp_in_use p)) ps) as [i|] eqn:F2; [|intros [= <- _] H'; by destruct H'].
    intros [= _ <-] _. destruct (find_idx_Some _ _ _ F2) as (p & Hp & _). apply (G i p); try done.
    intros j y _ Hy. by apply (proj1 (find_idx_None _ _) F1 j).
Qed.

Lemma bound_cid_gt n h files cid k : host_ok n h files -> bound_to h cid k -> cid <> 0 -> 2 < cid.
Proof. intros Ho (s & Hs & Hc) Hz. apply live_at in Hs as [Hs _]. destruct (proj1 (ho_slots _ _ _ Ho) _ _ Hs) as (_ & _ & C). rewrite <- Hc in *. by apply C. Qed.

(** After an unbinding the guest holds nothing. *)
Lemma unbound n s files cid : server_ok n s files -> 2 < cid -> forall k, ~ bound_to (sv_host (server_unbind_cid cid s)) cid k.
Proof.
  intros Hs Hc k (st & Hk & E). unfold server_unbind_cid, ioc_unbind_slice in Hk. destruct (Z.leb_spec cid 2); [lia|]. cbn in Hk.
  unfold amba_virt_slice_unbind_cid in Hk. destruct (Z.eqb_spec cid 0); [lia|]. apply live_at in Hk as [Hk Hi]. cbn in Hk, Hi.
  unfold over_first in Hk. apply list_lookup_imap_Some in Hk as (st0 & _ & ->). destruct (Nat.ltb_spec k (Z.to_nat (count (h_list (sv_host s))))); [|lia].
  destruct (Z.eqb_spec (ss_cid st0) cid); [cbn in E; lia|done].
Qed.

(** A binding that was made. *)
Lemma bound_now i st cid h : h_states h !! i = Some st -> Z.of_nat i < count (h_list h) -> bound_to (set_states h (<[i := with_cid st cid]> (h_states h))) cid i.
Proof.
  intros Hs Hi. exists (with_cid st cid). split; [|done]. apply live_at. split; [|done]. cbn. apply list_lookup_insert_eq. by eapply lookup_lt_Some.
Qed.

(** C12: a claim that is granted gives the guest one slice, and the same one everywhere: the module has bound it, the proxy
    has a tenant record with its base, offset and usable size, and the pool has an entry of the guest for the index of the
    slice, with its usable size as BAR and as quota, while no other guest's entry names that index. A claim that is refused
    changes nothing, or leaves the guest bound to no slice. *)
Theorem claim_all_or_nothing n s files rx_len nonce cid r s' :
  (1 <= n <= 8)%nat -> server_reachable n (s, files) -> handle_claim rx_len nonce cid s = (r, s') ->
  match r with
  | inr d =>
      exists k t, d = bar_desc (h_phys (sv_host s)) k /\ bound_to (sv_host s') cid k /\ cavalry_proxy_get_tenant cid (sv_cav s') = Some t /\
        tenant_slice n (h_phys (sv_host s')) k t /\ pool_gives (sv_pool s') cid (Z.of_nat k) (usable_size d)
  | inl _ => s' = s \/ forall k, ~ bound_to (sv_host s') cid k
  end.
Proof.
  intros Hn Hr H. pose proof (reachable_server_ok n (s, files) Hn Hr) as Hs. cbn [fst snd] in Hs.
  pose proof (claim_ok n rx_len nonce cid s files Hs) as Hs'. rewrite H in Hs'. cbn [snd] in Hs'. unfold handle_claim in H.
  destruct (rx_len <? _); [injection H as <- <-; by left|]. destruct (negb (sv_matched s)); [injection H as <- <-; by left|].
  destruct (bind_cases cid nonce (sv_host s)) as [(i & st & Hi & _ & _ & Hc & _ & _ & _ & E)|(e & E & _)]; rewrite E in H.
  2: { injection H as <- <-. left. by destruct s. }
  pose proof Hi as [Hst Hcnt]%live_at. destruct (live_desc _ _ _ _ _ (so_host _ _ _ Hs) Hi) as (Hin & Hg & Ed). rewrite Ed in H.
  assert (H1 : server_ok n (set_host (set_states (sv_host s) (<[i := with_cid st cid]> (h_states (sv_host s)))) s) files).
  { apply server_host with (files := files); [done| |done]. pose proof (slice_bind_ok n cid nonce _ _ (so_host _ _ _ Hs)) as Hb. by rewrite E in Hb. }
  set (s1 := set_host _ s) in *. destruct (negb (known_slice _ _)); [injection H as <- <-; right; by eapply unbound|].
  match type of H with context [cavalry_proxy_register_tenant _ _ _ ?x] => set (m := x) in H end.
  pose proof (register_good n (h_phys (sv_host s)) cid i m (sv_cav s) (so_tenants _ _ _ Hs _ (or_intror eq_refl)) Hin Hc) as (Rg & _ & Rt & Rr).
  change (sv_cav s) with (sv_cav s1) in *. cbv zeta in Rg, Rt, Rr. destruct (cavalry_proxy_register_tenant _ _ _ _ _ _ _ _) as [[ret evs] c]. cbn [fst snd] in *.
  assert (H2 : forall c', cav_good n (h_phys (sv_host s)) c' -> server_ok n (set_cav c' s1) files).
  { intros c' Hc'. apply server_cav; [done|]. intros p [Z|Z] _; [destruct Hg as (_ & ? & _); cbn in Z; lia|by subst p]. }
  destruct (Z.ltb_spec ret 0); [injection H as <- <-; right; eapply unbound; [by apply H2|done]|].
  destruct (Rt ltac:(lia)) as (t & T1 & T2 & T3).
  destruct (virt_mem_pool_register_tenant _ _ _ _ _) as [pret pl] eqn:P. destruct (Z.ltb_spec pret 0).
  - injection H as <- <-. right. eapply unbound; [|done]. apply server_cav; [eapply server_same; [by apply (H2 c)|done|done]|]. intros p _ Hp. by apply unregister_good.
  - injection H as <- <-. exists i, t. split_and!; [done|by apply bound_now|by eapply get_tenant_good| |by eapply pool_registered; [|exact P|done]].
    apply (tg_slice _ _ _ Rg); done.
Qed.

End ServerTheorems.
