(* ===== verification/ServerSample.v ===== *)
(** * The host module, the server and a guest at work: samples and shortcomings

    [Module ServerSample]: a host with two slices whose nodes are open, a server with two guests that claimed them, and one
    with five slices; the theorems of [HostTheorems], [GuestProbeProps] and [ServerTheorems] at these states; and what the
    handlers allow that they should not ([copy_message_runs_pitch], [unclaimed_submit_reaches_others],
    [path_b_cap_unchecked], [free_unknown_succeeds]) and the backing file ([file_resizes_window]). *)

From stdpp Require Import base list gmap.
From Stdlib Require Import ZArith Lia.
From S2P Require Import Prelude Text SliceGeometry ByteBuf Acl MemPool DmaBroker Cavalry CavalryRpc IavWin IavAperture CameraPolicy SliceLease HostWindow HostWindowProps HostTheorems Server ServerProps ServerTheorems GuestProbe GuestProbeProps.
Import Text Store Geometry Acl MemPool Cavalry HostWindow HostWindowProps HostTheorems Server ServerProps ServerTheorems GuestProbe GuestProbeProps.

Module ServerSample.

(** ** A host with two slices *)

Definition base : Z := 0x100000000.

Definition host_loading (n : Z) : Z * host :=
  amba_virt_host_init 5555 base (n * AMBA_VIRT_GUEST_BAR_SIZE) n None 0 0 (inl (- ENOENT)) (host0 (fun _ => 0)).
Definition host_loaded (n : Z) : host := snd (host_loading n).
Definition node_opened (random : list Z) (i : Z) (h : host) : host :=
  match amba_virt_shm_node_open true false random i h with Some (_, _, h') => h' | None => h end.

Definition host2 : host := node_opened [0; 7] 0 (host_loaded 2).

Lemma loaded_reachable n : (fst (host_loading (Z.of_nat n)) =? 0) = true -> host_reachable n (host_loaded (Z.of_nat n), []).
Proof.
  intros H. apply (HrInit n (fun _ => 0) 5555 base (Z.of_nat n * AMBA_VIRT_GUEST_BAR_SIZE) None 0 (- ENOENT)); [done|done|].
  unfold host_loaded. fold (host_loading (Z.of_nat n)). apply Z.eqb_eq in H. destruct (host_loading (Z.of_nat n)) as [ret h]. cbn in *. by rewrite H.
Qed.

Lemma opened_reachable n h files i random :
  host_reachable n (h, files) -> (match amba_virt_shm_node_open true false random (Z.of_nat i) h with Some (r, _, _) => r =? 0 | None => false end) = true ->
  host_reachable n (node_opened random (Z.of_nat i) h, i :: files).
Proof.
  intros Hr H. eapply HrStep; [exact Hr|]. unfold node_opened. destruct (amba_virt_shm_node_open _ _ _ _ _) as [[[r sz] h']|] eqn:E; [|done].
  apply Z.eqb_eq in H as ->. by eapply HsOpen.
Qed.

Lemma host2_reachable : host_reachable 2 (host2, [0%nat]).
Proof. apply (opened_reachable 2 (host_loaded 2) [] 0 [0; 7]); [apply (loaded_reachable 2); by vm_compute|by vm_compute]. Qed.

Lemma host_reachable_ok_witness : host_ok 2 host2 [0%nat].
Proof. apply host_reachable_ok; [lia|exact host2_reachable]. Defined.

Definition whole_slice : vma := {| vm_start := 0x7f0000000000; vm_end := 0x7f0040000000; vm_pgoff := 0 |}.

Lemma whole_wf : vma_wf whole_slice.
Proof. unfold vma_wf. cbn. lia. Qed.

(** Whether a mapping was made. *)
Definition mapped (r : (Z + mapping) * host) : bool := match fst r with inr _ => true | inl _ => false end.

Lemma node_confined_witness :
  mapped (amba_virt_mmap_slice 0 (inl (- ENOENT)) whole_slice 1 host2) = true /\
  forall m h', amba_virt_mmap_slice 0 (inl (- ENOENT)) whole_slice 1 host2 = (inr m, h') ->
    exists k, 1 = Z.of_nat k /\ (k < 2)%nat /\
      mapping_inside (phys (bar_desc (h_phys host2) k)) (phys (bar_desc (h_phys host2) k) + slice_size (bar_desc (h_phys host2) k)) m.
Proof.
  split; [by vm_compute|].
  destruct (node_confined 2 host2 [0%nat] 1 whole_slice 0 (- ENOENT)) as [H _]; [lia|exact host2_reachable|lia|exact whole_wf|exact H].
Defined.

(** ** The nonce *)

Definition opened_ok (r : option (Z * host)) : bool := match r with Some (ret, _) => ret =? 0 | None => false end.
Definition opened_host (r : option (Z * host)) : host := match r with Some (_, h) => h | None => host2 end.

Lemma opened_eq r : opened_ok r = true -> r = Some (0, opened_host r).
Proof. destruct r as [[ret h]|]; cbn; [|done]. by intros ->%Z.eqb_eq. Qed.

Definition host3 : host := opened_host (amba_virt_slice_open true false [9] (Z.of_nat 1) host2).

Lemma host2_unbound cid : 2 < cid -> forall k, ~ bound_to host2 cid k.
Proof.
  intros H k (s & Hs & Hc). assert (F : forallb (fun s => ss_cid s =? 0) (live host2) = true) by (by vm_compute). rewrite forallb_forall in F.
  assert (Hin : In s (live host2)) by (apply list_elem_of_In; by eapply list_elem_of_lookup_2). apply F, Z.eqb_eq in Hin. lia.
Qed.

Lemma claim_page_binds_witness :
  exists nonce, look_claim (fun o => h_mem host3 (phys (bar_desc (h_phys host2) 1) + o)) (slice_size (bar_desc (h_phys host2) 1)) = Some nonce /\ nonce <> 0.
Proof.
  destruct (claim_page_binds 2 true false [9] 1 host2 [0%nat] host3 5) as (nonce & H1 & H2 & _).
  - lia.
  - exact host2_reachable.
  - apply not_elem_of_cons. split; [lia|apply not_elem_of_nil].
  - reflexivity.
  - repeat constructor; lia.
  - apply opened_eq. vm_compute. reflexivity.
  - lia.
  - apply host2_unbound. lia.
  - exists nonce. exact (conj H1 H2).
Defined.

(** ** A server with two guests *)

Definition cav_small : cav :=
  {| cv_fd_cav := 4; cv_fd_shm := 3; cv_window_fd := 6; cv_map := 0x7f0000000000; cv_shm_size := 0; cv_phys_base := base; cv_chip_id := 0;
     cv_guard := None; cv_path_b := false; cv_hw := []; cv_tenants := repeat tenant0 MAX_TENANTS; cv_slices := []; cv_handles := [];
     cv_next_handle := 1; cv_dags := []; cv_next_dag := 1; cv_draining := false; cv_active := 0; cv_last := [] |}.

Definition server_boot (h : host) : server :=
  {| sv_active := no_slices; sv_matched := false; sv_pool_ready := false; sv_window := 0; sv_loaded := false; sv_map := 0x7f0000000000;
     sv_info_phys := 0; sv_info_size := 0; sv_host := h; sv_cav := cav_small; sv_pool := mk_state [] VIRT_MEM_DEFAULT_BAR_SIZE false;
     sv_acl := virt_acl_init None; sv_chans := DmaBroker.mk_chans (repeat DmaBroker.chst_zero 16) 0; sv_lease := SliceLease.virt_slice_lease_reset;
     sv_disk := ∅ |}.

Definition refreshed (n : Z) (s : server) : server := refresh_window n None true true fs_good None s.
Definition claimed (nonce cid : Z) (s : server) : server := snd (handle_claim 24 nonce cid s).

Definition host22 : host := node_opened [9] 1 host2.
Definition server0 : server := refreshed 2 (server_boot host22).
Definition server1 : server := claimed 7 5 server0.
Definition server2 : server := claimed 9 6 server1.

Lemma host22_reachable : host_reachable 2 (host22, [1%nat; 0%nat]).
Proof. apply (opened_reachable 2 host2 [0%nat] 1 [9]); [exact host2_reachable|by vm_compute]. Qed.

Lemma refreshed_reachable n s files : server_reachable n (s, files) -> server_reachable n (refreshed (Z.of_nat n) s, files).
Proof. intros H. eapply SrStep; [exact H|]. by apply SvRefresh. Qed.

Lemma claimed_reachable n s files nonce cid : server_reachable n (s, files) -> server_reachable n (claimed nonce cid s, files).
Proof. intros H. eapply SrStep; [exact H|]. apply SvClaim. Qed.

Lemma server0_reachable : server_reachable 2 (server0, [1%nat; 0%nat]).
Proof. apply (refreshed_reachable 2). by apply SrInit; [exact host22_reachable|]. Qed.

Lemma server1_reachable : server_reachable 2 (server1, [1%nat; 0%nat]).
Proof. apply claimed_reachable. exact server0_reachable. Qed.

Lemma server2_reachable : server_reachable 2 (server2, [1%nat; 0%nat]).
Proof. apply claimed_reachable. exact server1_reachable. Qed.

Definition granted (r : (Z + amba_virt_slice_desc) * server) : bool := match fst r with inr _ => true | inl _ => false end.

Lemma claim_all_or_nothing_witness :
  granted (handle_claim 24 9 6 server1) = true /\
  match fst (handle_claim 24 9 6 server1) with
  | inr d => exists k t, d = bar_desc (h_phys (sv_host server1)) k /\ bound_to (sv_host server2) 6 k /\ cavalry_proxy_get_tenant 6 (sv_cav server2) = Some t /\
      tenant_slice 2 (h_phys (sv_host server2)) k t /\ pool_gives (sv_pool server2) 6 (Z.of_nat k) (usable_size d)
  | inl _ => server2 = server1 \/ forall k, ~ bound_to (sv_host server2) 6 k
  end.
Proof.
  split; [vm_compute; reflexivity|]. unfold server2, claimed. 
  pose proof (claim_all_or_nothing 2 server1 [1%nat; 0%nat] 24 9 6 (fst (handle_claim 24 9 6 server1)) (snd (handle_claim 24 9 6 server1))) as H.
  apply H; [lia|exact server1_reachable|]. destruct (handle_claim 24 9 6 server1). reflexivity.
Defined.

(** The tenant of guest 6. *)
Definition tenant6 : tenant := default tenant0 (cavalry_proxy_get_tenant 6 (sv_cav server2)).

Lemma tenant6_eq : cavalry_proxy_get_tenant 6 (sv_cav server2) = Some tenant6.
Proof. vm_compute. reflexivity. Qed.

Lemma tenants_apart_witness : exists k, tenant_slice 2 (h_phys (sv_host server2)) k tenant6.
Proof.
  destruct (tenants_apart 2 server2 [1%nat; 0%nat] 6 tenant6) as [H _]; [lia|exact server2_reachable|exact tenant6_eq|exact H].
Defined.

Definition linear : gdma_copy :=
  {| gc_src := 0; gc_dst := 8192; gc_len := 4096; gc_flags := 0; gc_spitch := 0; gc_dpitch := 0; gc_width := 0; gc_height := 0 |}.

Lemma linear_wf : copy_wf linear.
Proof. unfold copy_wf, is_u32. cbn. lia. Qed.

Definition gdma6 : Z * option gdma_job * server := handle_gdma None 0 false (SIZEOF_MSG + SIZEOF_GDMA) linear 6 server2.

Lemma gdma_stays_in_slice_witness :
  exists job, snd (fst gdma6) = Some job /\ exists t k, cavalry_proxy_get_tenant 6 (sv_cav server2) = Some t /\
    tenant_slice 2 (h_phys (sv_host server2)) k t /\ job_inside (tn_phys_base t) (tn_phys_base t + tn_shm_size t) job /\ job_apart job.
Proof.
  assert (E : snd (fst gdma6) = Some (LinearCopy (base + 0x40000000 + 8192) (base + 0x40000000) 4096)) by (vm_compute; reflexivity).
  eexists. split; [exact E|].
  pose proof (gdma_stays_in_slice 2 server2 [1%nat; 0%nat] None 0 false (SIZEOF_MSG + SIZEOF_GDMA) linear 6 (fst (fst gdma6)) (LinearCopy (base + 0x40000000 + 8192) (base + 0x40000000) 4096) (snd gdma6)) as H.
  apply H; [lia|exact server2_reachable|exact linear_wf|]. rewrite <- E. unfold gdma6. destruct (handle_gdma _ _ _ _ _ _ _) as [[a b] c]. reflexivity.
Defined.

(** ** A guest above 4 GiB *)

Definition host5 : host := node_opened [11] 4 (host_loaded 5).
Definition server5 : server := claimed 11 7 (refreshed 5 (server_boot host5)).

Lemma server5_reachable : server_reachable 5 (server5, [4%nat]).
Proof.
  apply claimed_reachable. apply (refreshed_reachable 5). apply SrInit; [|reflexivity].
  apply (opened_reachable 5 (host_loaded 5) [] 4 [11]); [apply (loaded_reachable 5); by vm_compute|by vm_compute].
Qed.

Definition tenant7 : tenant := default tenant0 (cavalry_proxy_get_tenant 7 (sv_cav server5)).

Lemma tenant7_eq : cavalry_proxy_get_tenant 7 (sv_cav server5) = Some tenant7.
Proof. vm_compute. reflexivity. Qed.

Lemma tenant7_slice : tenant_slice 5 (h_phys (sv_host server5)) 4 tenant7.
Proof. unfold tenant_slice. split; [lia|]. vm_compute. by split_and!. Qed.

Lemma gdma_high_slice_witness : fst (handle_gdma None 0 false (SIZEOF_MSG + SIZEOF_GDMA) linear 7 server5) = (- ERANGE, None).
Proof.
  apply (gdma_high_slice 5 server5 [4%nat] None 0 false linear 7 tenant7 4); [lia|exact server5_reachable|exact tenant7_eq|exact tenant7_slice|lia|vm_compute; reflexivity].
Defined.

(** ** Probes *)

Definition reg_good : reg_io := {| ri_class := 0; ri_region := 0; ri_cdev := 0; ri_node := fun nodes d => if existsb (Z.eqb d) nodes then - EEXIST else 0 |}.
Definition reg_empty : registry := {| k_class := false; k_base := false; k_count := 0; k_cdevs := []; k_nodes := [] |}.
Definition guest0 : guest :=
  {| gs_bulk := window0; gs_dma32 := window0; gs_dev := vdev0; gs_reg := reg_empty; gs_enabled := []; gs_regions := []; gs_maps := []; gs_drvdata := [] |}.

(** A device with one BAR of [len] bytes; its claim cannot be read, or holds the nonce 7; the host answers [rpc]. *)
Definition probe_of (len : Z) (claim : bool) (rpc : Z * Z * Z) : probe_io :=
  {| pi_enable := 0; pi_bars := [(2, 0x8000000, len)]; pi_first := (0, 0); pi_tail := None; pi_request := 0; pi_map := 0xffff8000;
     pi_bar := fun _ => if claim then mem_write (fun _ => 0) (len - SIZEOF_CLAIM) (claim_bytes 0 (len - PAGE_SIZE) 7) else (fun _ => 0);
     pi_reg := reg_good; pi_rpc := fun _ _ => rpc |}.

Definition refused_io : probe_io := probe_of 0x40000000 true (0, - EPERM, 0).

Lemma refused_ready : probe_ready refused_io 1 guest0.
Proof. split; cbn; try done; intros; apply not_elem_of_nil. Qed.

Lemma probe_failure_releases_witness :
  fst (amba_virt_pci_probe refused_io 1 guest0) = - EPERM /\
  given_back guest0 (snd (amba_virt_pci_probe refused_io 1 guest0)) /\
  same_numbers (gs_reg guest0) (gs_reg (snd (amba_virt_pci_probe refused_io 1 guest0))).
Proof.
  assert (E : fst (amba_virt_pci_probe refused_io 1 guest0) = - EPERM) by (vm_compute; reflexivity). split; [exact E|].
  apply (probe_failure_releases refused_io 1 guest0 (fst (amba_virt_pci_probe refused_io 1 guest0))).
  - exact refused_ready.
  - split; apply not_elem_of_nil.
  - destruct (amba_virt_pci_probe refused_io 1 guest0). reflexivity.
  - rewrite E. discriminate.
Defined.

(** The 32-bit window came first. *)
Definition guest1 : guest := snd (amba_virt_pci_probe (probe_of AMBA_VIRT_DMA32_WINDOW_SIZE false (0, 0, 0)) 2 guest0).
Definition bulk_io : probe_io := probe_of 0x40000000 true (0, 0, 0x3ffff000).

Lemma dma32_first_blocks_bulk_witness :
  fst (amba_virt_pci_probe bulk_io 1 guest1) <> 0 /\ 0 ∈ k_nodes (gs_reg (snd (amba_virt_pci_probe bulk_io 1 guest1))).
Proof.
  pose proof (dma32_first_blocks_bulk bulk_io 1 guest1 (fst (amba_virt_pci_probe bulk_io 1 guest1)) (snd (amba_virt_pci_probe bulk_io 1 guest1))) as H.
  destruct H as (H1 & H2 & _); [intros nodes d Hd; cbn; rewrite (proj2 (existsb_exists (Z.eqb d) nodes)); [reflexivity|exists d; split; [by apply list_elem_of_In|apply Z.eqb_refl]]|apply list_elem_of_here|vm_compute; reflexivity|cbn; lia|cbn; lia|destruct (amba_virt_pci_probe bulk_io 1 guest1); reflexivity|exact (conj H1 H2)].
Defined.

(** Alone, the same bulk device comes up. *)
Lemma bulk_alone : fst (amba_virt_pci_probe bulk_io 1 guest0) = 0.
Proof. vm_compute. reflexivity. Qed.

(** And with both devices removed again, in either order, the node of the 32-bit window is still registered. *)
Lemma node_left : 0 ∈ k_nodes (gs_reg (amba_virt_pci_remove 2 (snd (amba_virt_pci_probe bulk_io 1 guest1)))).
Proof. vm_compute. apply list_elem_of_here. Qed.

(** ** Shortcomings *)

(** A notification of no bytes at the end of the window makes the server read the byte after its mapping. *)
Example notify_reads_past :
  server_active_window_bytes server2 = 2 * AMBA_VIRT_GUEST_BAR_SIZE /\ handle_notify (2 * AMBA_VIRT_GUEST_BAR_SIZE) 0 server2 = Some (2 * AMBA_VIRT_GUEST_BAR_SIZE).
Proof. split; vm_compute; reflexivity. Qed.

(** Guest 6 may copy, but not with a pitch. *)
Definition copy_only : server := set_acl (snd (virt_acl_set_rule None 6 None AMBA_VIRT_CAP_GDMA_COPY 0 0 (sv_acl server2))) (sv_chans server2) server2.

Definition rows : gdma_copy :=
  {| gc_src := 0; gc_dst := 65536; gc_len := 0; gc_flags := AMBA_VIRT_GDMA_F_PITCH; gc_spitch := 256; gc_dpitch := 512; gc_width := 128; gc_height := 16 |}.

(** The capability that is checked follows the type of the message, and the copy that is run follows its flags: a guest
    without AMBA_VIRT_CAP_GDMA_PITCH gets a pitch copy through GDMA_COPY_REQ. *)
Theorem copy_message_runs_pitch :
  fst (virt_acl_has_cap None 6 AMBA_VIRT_CAP_GDMA_PITCH (sv_acl copy_only)) = false /\
  fst (handle_gdma None 0 true (SIZEOF_MSG + SIZEOF_GDMA) rows 6 copy_only) = (- EPERM, None) /\
  fst (handle_gdma None 0 false (SIZEOF_MSG + SIZEOF_GDMA) rows 6 copy_only) =
    (0, Some (PitchCopy (base + 0x40000000 + 65536) (base + 0x40000000) 512 256 128 16)).
Proof. vm_compute. by split_and!. Qed.

(** A transfer of a guest that has claimed no slice is checked against the whole window: guest 8 is handed memory of the
    slice of guest 5. *)
Theorem unclaimed_submit_reaches_others :
  cavalry_proxy_get_tenant 8 (sv_cav server2) = None /\
  (exists t, cavalry_proxy_get_tenant 5 (sv_cav server2) = Some t /\ tn_phys_base t = base) /\
  fst (handle_submit None true true (SIZEOF_MSG + SIZEOF_SUBMIT) (DmaBroker.mk_submit 13 1 0 4096 0) 8 server2) =
    Some (inr (DmaBroker.mk_sxfer 13 1 base 4096 1000)).
Proof. vm_compute. split_and!; [done|by eexists|done]. Qed.

(** The answer to a run of a registered model does not depend on the capabilities of the guest. *)
Theorem path_b_cap_unchecked file i rx_len q cid s acl :
  CavalryRpc.rp_opcode q = CavalryRpc.VCAV_OP_RUN_REGISTERED_DAG ->
  match handle_cavalry file i rx_len q cid s, handle_cavalry file i rx_len q cid (set_acl acl (sv_chans s) s) with
  | Val (r1, e1, _), Val (r2, e2, _) => r1 = r2 /\ e1 = e2
  | Oob, Oob => True
  | _, _ => False
  end.
Proof.
  intros E. unfold handle_cavalry. destruct (rx_len <? _); [done|]. rewrite E. cbn [Z.eqb Pos.eqb CavalryRpc.VCAV_OP_RUN_REGISTERED_DAG CavalryRpc.VCAV_OP_RUN_DAGS CavalryRpc.VCAV_OP_REGISTER_DAG].
  cbn [sv_cav set_acl]. destruct (CavalryRpc.cavalry_proxy_handle_rpc i q cid (sv_cav s)) as [[[r e] c]|]; done.
Qed.

(** Giving back an extent succeeds for a guest that has no pool. *)
Theorem free_unknown_succeeds file rx_len q cid s :
  SIZEOF_MSG + SIZEOF_MEM_REQ <= rx_len -> fst (virt_acl_has_cap file cid AMBA_VIRT_CAP_MEM_ALLOC (sv_acl s)) = true -> mq_op q = AMBA_VIRT_MEM_OP_FREE ->
  virt_mem_pool_get_tenant cid (sv_pool s) = None ->
  exists r s', handle_mem file rx_len q cid s = Some (Some r, [], s') /\ mp_status r = 0.
Proof.
  intros Hl Hc Ho Hp. unfold handle_mem. destruct (Z.ltb_spec rx_len (SIZEOF_MSG + SIZEOF_MEM_REQ)); [lia|].
  destruct (virt_acl_has_cap _ _ _ _) as [ok acl]. cbn in Hc. subst ok. cbn [negb]. rewrite Ho. cbn [Z.eqb Pos.eqb AMBA_VIRT_MEM_OP_FREE AMBA_VIRT_MEM_OP_ALLOC].
  unfold virt_mem_pool_free_extent, tenant_entry. cbn [sv_pool set_acl]. rewrite Hp. by do 2 eexists.
Qed.

(** A window of two BARs whose backing file has four: the second slice starts where the window ends. *)
Theorem file_resizes_window :
  let r := amba_virt_host_init 5555 base (2 * AMBA_VIRT_GUEST_BAR_SIZE) 2 None 0 0 (inr (4 * AMBA_VIRT_GUEST_BAR_SIZE)) (host0 (fun _ => 0)) in
  fst r = 0 /\ amba_virt_slice_get_desc 1 (snd r) =
    inr (mk_desc 1 (2 * AMBA_VIRT_GUEST_BAR_SIZE - PAGE_SIZE) (2 * AMBA_VIRT_GUEST_BAR_SIZE) (base + 2 * AMBA_VIRT_GUEST_BAR_SIZE) (2 * AMBA_VIRT_GUEST_BAR_SIZE)).
Proof. vm_compute. by split. Qed.

End ServerSample.
