(* ===== verification/BrokerServer.v ===== *)
(** * The IAV broker inside the server (tools/iav_broker_server.c)

    The main loop hands the requests of the guests to a queue of 32, four workers take them from it, run the broker on
    each and send its answer; a thread of its own releases what guests that have gone left open. At start-up the
    partitions of the driver become the windows of the broker: each is padded to a power of two and given to its node of
    the window module, and the apertures are set up.

    What the driver, the kernel and the threads library answer is an argument; the names of the partitions are those of
    the class [IavAbi]. *)

From stdpp Require Import base list strings.
From Stdlib Require Import ZArith Lia.
From S2P Require Import Prelude Text ByteBuf SliceGeometry SliceArena Acl IavTable IavPolicy IavSession IavWire IavBroker IavBrokerOps IavWin IavAperture CameraPolicy SliceLease.
Import Text Geometry SliceArena Acl.

Module BrokerServer.

Definition WORKERS : nat := 4.
Definition QUEUE_DEPTH : Z := 32.
Definition IDLE_RELEASE_MS : Z := 300000.
Definition RECHECK_PERIODS : Z := 15.
Definition AMBA_VIRT_MAX_GUESTS : nat := 8.
Definition AMBA_VIRT_MSG_IAV_RESP : Z := 73.
Definition EPIPE : Z := 32.
Definition EMSGSIZE : Z := 90.
Definition ECONNRESET : Z := 104.
Definition ENOTCONN : Z := 107.

(** ** The windows *)

(** [next_pow2]: a power of two from a page on, or 0 when there is none of 64 bits. *)
Definition next_pow2 (v : Z) : Z :=
  match iter_until 64 (fun p => if (p <? v) && negb (p =? 0) then inl (u64 (Z.shiftl p 1)) else inr p) 4096 with inr p => p | inl p => p end.

(** What a window node answers: the errno of opening it, whether GET and CONFIG are allowed, and the pages for the padding. *)
Record node_io := { ni_open : Z; ni_get : bool; ni_capable : bool; ni_alloc : nat -> option Z }.

(** [window_node_config]: the result, the flags the node reports and the node. *)
Definition window_node_config (pr : IavWin.win_params) (nc : bool) (io : node_io) (w : broker_window) (n : IavWin.iav_win) : Z * Z * IavWin.iav_win :=
  if negb (ni_open io =? 0) then (- ni_open io, 0, n)
  else
    let have := IavWin.iav_win_get nc n in
    if ni_get io && (IavWin.wc_phys have =? bw_base w) && (IavWin.wc_len have =? bw_part_len w) && (IavWin.wc_size have =? bw_size w)
    then (0, IavWin.wc_flags have, n)
    else
      let '(rc, n1) := IavWin.iav_win_config pr (ni_capable io) (Some (IavWin.mk_wcfg (bw_base w) (bw_part_len w) (bw_size w) 0 0)) (ni_alloc io) (bw_id w) n in
      if negb (rc =? 0) then (rc, 0, n1) else (0, if ni_get io then IavWin.wc_flags (IavWin.iav_win_get nc n1) else 0, n1).

(** [window_node_ready]: the four nodes by the id of their window. *)
Definition window_node_ready (pr : IavWin.win_params) (nc : bool) (io : Z -> node_io) (w : broker_window) (nodes : list IavWin.iav_win)
    : Z * Z * list IavWin.iav_win :=
  if existsb (Z.eqb (bw_id w)) [IavWire.AMBA_VIRT_IAV_WIN_DSP; IavWire.AMBA_VIRT_IAV_WIN_BSB; IavWire.AMBA_VIRT_IAV_WIN_DEC; IavWire.AMBA_VIRT_IAV_WIN_OVL] then
    match nodes !! Z.to_nat (bw_id w) with
    | Some n => let '(rc, flags, n1) := window_node_config pr nc (io (bw_id w)) w n in (rc, flags, <[Z.to_nat (bw_id w) := n1]> nodes)
    | None => (- EINVAL, 0, nodes)
    end
  else (- EINVAL, 0, nodes).

(** The state the set-up works on; [K] is what is behind the aperture nodes. *)
Record setup (K : Type) := {
  su_broker : broker; su_policy : CameraPolicy.policy; su_lease : SliceLease.lease_state; su_aux : IavAperture.aperture_state * K;
  su_nodes : list IavWin.iav_win }.
Arguments su_broker {K}. Arguments su_policy {K}. Arguments su_lease {K}. Arguments su_aux {K}. Arguments su_nodes {K}.

Section Setup.
Context `{Abi : IavAbi} {K : Type} (dev : IavAperture.NodeDevice K).

(** [pids] and [ids] of [set_windows_from_driver]. *)
Definition window_parts : list (Z * Z) :=
  [(IAV_PART_DSP, IavWire.AMBA_VIRT_IAV_WIN_DSP); (IAV_PART_BSB, IavWire.AMBA_VIRT_IAV_WIN_BSB);
   (IAV_PART_DEC_BSB, IavWire.AMBA_VIRT_IAV_WIN_DEC); (IAV_PART_OVERLAY, IavWire.AMBA_VIRT_IAV_WIN_OVL)].

(** Its loop: the windows whose node is ready, whether all of those report Normal-NC, and the nodes. [query] is the address
    and the length of a partition, when the driver tells them. *)
Fixpoint window_loop (pr : IavWin.win_params) (nc : bool) (io : Z -> node_io) (query : Z -> option (Z * Z)) (parts : list (Z * Z))
    (acc : list broker_window * bool * list IavWin.iav_win) : list broker_window * bool * list IavWin.iav_win :=
  match parts with
  | [] => acc
  | (pid, id) :: rest =>
      let '(ws, all_nc, nodes) := acc in
      window_loop pr nc io query rest
        match query pid with
        | Some (addr, len) =>
            if len =? 0 then acc
            else
              let w := {| bw_id := id; bw_base := addr; bw_part_len := len; bw_size := next_pow2 len; bw_pid := pid |} in
              let '(rc, flags, nodes1) := window_node_ready pr nc io w nodes in
              if rc =? 0 then (ws ++ [w], all_nc && negb (Z.land flags IavWin.AMBA_VIRT_IAV_WIN_F_NORMAL_NC =? 0), nodes1) else (ws, all_nc, nodes1)
        | None => acc
        end
  end.

(** The sizes an older guest would take for a window, and the partitions of the apertures, in [setup_apertures]. *)
Definition avoid_of (ws : list broker_window) : list Z :=
  take IavAperture.VIRT_IAV_APERTURE_MAX_AVOID (map bw_size (List.filter (fun w => bw_size w =? bw_part_len w) ws)).
Definition aperture_parts (query : Z -> option (Z * Z)) (pids : list Z) : list IavAperture.virt_iav_aperture_part :=
  take IavAperture.VIRT_IAV_APERTURE_MAX_PARTS
    (omap (fun pid => match query pid with
                      | Some (addr, len) => if (len =? 0) || negb (addr mod 4096 =? 0) || negb (len mod 4096 =? 0) then None
                                            else Some (IavAperture.mk_part pid addr len)
                      | None => None
                      end) pids).
Definition aux_src_of (p : IavAperture.virt_iav_aperture_part) : aux_entry :=
  {| ax_pid := IavAperture.pa_pid p; ax_base := IavAperture.pa_base p; ax_len := IavAperture.pa_len p; ax_offset := 0 |}.

(** [setup_apertures]: the partitions are found, and registered with the window module and with the broker. *)
Definition setup_aux (query : Z -> option (Z * Z)) (pids : list Z) (ws : list broker_window) (s : setup K) : setup K :=
  let parts := aperture_parts query pids in
  let rc := fst (fst (IavAperture.virt_iav_aperture_init parts (avoid_of ws) (fst (su_aux s)) (snd (su_aux s)))) in
  let '(src_rc, b) := iav_broker_set_aux_sources (map aux_src_of parts) (su_broker s) in
  let '(l, ak) := SliceLease.setup_apertures dev pids parts (avoid_of ws) (src_rc =? 0) (su_lease s) (su_aux s) in
  {| su_broker := if rc =? 0 then b else su_broker s; su_policy := su_policy s; su_lease := l; su_aux := ak; su_nodes := su_nodes s |}.

(** [set_windows_from_driver]; [opened] is the errno of opening the driver. *)
Definition set_windows_from_driver (pr : IavWin.win_params) (nc : bool) (io : Z -> node_io) (opened now : Z) (query : Z -> option (Z * Z)) (pids : list Z)
    (s : setup K) : Z * setup K :=
  if negb (opened =? 0) then (- opened, s)
  else
    let '(ws, all_nc, nodes) := window_loop pr nc io query window_parts ([], true, su_nodes s) in
    let b := iav_broker_set_host_features (if (0 <? Z.of_nat (length ws)) && all_nc then IavSession.AMBA_VIRT_IAV_F_NC_WINDOWS else 0) (su_broker s) in
    let '(rc, b1) := iav_broker_set_windows ws b in
    let s1 := {| su_broker := b1; su_policy := su_policy s; su_lease := su_lease s; su_aux := su_aux s; su_nodes := nodes |} in
    if rc <? 0 then (rc, s1)
    else
      let p := CameraPolicy.virt_camera_policy_set_windows (map (fun w => CameraPolicy.mk_cwin (bw_id w) (bw_size w)) ws) now (su_policy s1) in
      (rc, setup_aux query pids ws {| su_broker := b1; su_policy := p; su_lease := su_lease s; su_aux := su_aux s; su_nodes := nodes |}).

End Setup.

(** ** What the broker asks about a guest *)

(** The slice the kernel bound the guest to; [bindings] is what GET_BINDINGS answers. *)
Definition bound_index (cid : Z) (bindings : list (Z * amba_virt_slice_desc)) : option Z :=
  match List.find (fun b => fst b =? cid) (take 8 bindings) with Some b => Some (index (snd b)) | None => None end.

(** [real_is_primary]; [slice] is g_primary_slice. *)
Definition real_is_primary (dev_fd slice : Z) (bindings : option (list (Z * amba_virt_slice_desc))) (st : SliceLease.lease_state) (p : CameraPolicy.policy)
    (cid : Z) : bool :=
  if dev_fd <? 0 then false
  else
    match bindings with
    | None => false
    | Some l =>
        match bound_index cid l with
        | None => false
        | Some i => match SliceLease.primary_by_ticket i st p with Some b => b | None => (0 <=? slice) && (i =? slice) end
        end
    end.

(** [real_aperture_of]: an errno of GET_BINDINGS, or the list. *)
Definition aux_of_view (e : Z * Z * Z * Z) : aux_entry :=
  let '(pid, base, len, off) := e in {| ax_pid := pid; ax_base := base; ax_len := len; ax_offset := off |}.
Definition real_aperture_of (dev_fd : Z) (bindings : Z + list (Z * amba_virt_slice_desc)) (a : IavAperture.aperture_state) (cid : Z) : Z + aperture :=
  if dev_fd <? 0 then inl (- ENODEV)
  else
    match bindings with
    | inl e => inl (- e)
    | inr l =>
        match bound_index cid l with
        | None => inl (- ENOENT)
        | Some i =>
            let '(rc, v) := IavAperture.virt_iav_aperture_get i a in
            if negb (rc =? 0) then inl (- ENOENT)
            else inr {| ap_size := IavAperture.vw_size v; ap_epoch := IavAperture.vw_epoch v;
                        ap_entries := take IAV_BROKER_AUX_MAX (map aux_of_view (IavAperture.vw_e v)) |}
        end
    end.

(** [real_read_dec] once the partition is mapped: the bytes [off .. off + len) of it, after a cache invalidation. *)
Definition real_read_dec (part : list Z) (synced : bool) (off len : Z) : Z + list Z :=
  let n := Z.of_nat (length part) in
  if (n <? off) || (n - off <? len) then inl (- EINVAL)
  else if negb synced then inl (- EIO)
  else inr (take (Z.to_nat len) (drop (Z.to_nat off) part)).

(** [apply_guest_pool] and [iav_broker_server_set_guest_pool] *)
Definition apply_guest_pool (base pid count bytes : Z) (b : broker) : broker :=
  iav_broker_set_guest_pool {| gp_partition_id := pid; gp_parent_base := base; gp_parent_bytes := count * bytes; gp_slice_count := count; gp_slice_bytes := bytes |} b.
Definition iav_broker_server_set_guest_pool (active : bool) (base pid count bytes : Z) (b : broker) : broker :=
  if negb active || (base =? 0) then b else apply_guest_pool base pid count bytes b.

(** ** Answers *)

(** [send_to_guest]: the message, with its header; nothing when it is too long. *)
Definition send_to_guest (cid seq : Z) (payload : list Z) : option (Z * list Z) :=
  if IavWire.AMBA_VIRT_MAX_MSG - IavWire.SIZEOF_MSG <? Z.of_nat (length payload) then None
  else Some (cid, le_bytes 4 AMBA_VIRT_MSG_IAV_RESP ++ le_bytes 4 seq ++ le_bytes 4 0 ++ le_bytes 4 0 ++ payload).

(** What it does when the send failed with [err]: a guest that is gone loses its sessions. *)
Definition send_failed (err now cid : Z) (b : broker) : list Z * broker :=
  if existsb (Z.eqb err) [ENOTCONN; EPIPE; ECONNRESET] then iav_broker_client_gone now cid b else ([], b).

(** [send_refusal] *)
Definition send_refusal (cid seq err : Z) : option (Z * list Z) :=
  send_to_guest cid seq
    (resp_bytes {| rs_proto := AMBA_VIRT_IAV_PROTO; rs_status := - err; rs_rc := -1; rs_err := 0; rs_handle := 0; rs_value := 0; rs_out_len := 0; rs_reserved := 0 |}).

(** ** The queue *)

(** [struct job] *)
Record job := { jb_cid : Z; jb_seq : Z; jb_data : list Z }.
Definition job0 : job := {| jb_cid := 0; jb_seq := 0; jb_data := [] |}.

(** A worker waits for a job, serves one, or has returned. *)
Inductive wphase := WWait | WServe (j : job) | WGone.

(** [g_active], [g_stop], [g_queue], [g_qhead], [g_qcount] and the workers. *)
Record pool := { po_active : bool; po_stop : bool; po_ring : list job; po_head : Z; po_count : Z; po_workers : list wphase }.
Definition pool0 : pool :=
  {| po_active := false; po_stop := false; po_ring := repeat job0 (Z.to_nat QUEUE_DEPTH); po_head := 0; po_count := 0; po_workers := [] |}.

Definition put_worker (t : nat) (w : wphase) (s : pool) : pool :=
  {| po_active := po_active s; po_stop := po_stop s; po_ring := po_ring s; po_head := po_head s; po_count := po_count s; po_workers := <[t := w]> (po_workers s) |}.

(** [iav_broker_server_submit]: the result, the refusal that is sent and the state. *)
Definition iav_broker_server_submit (cid seq : Z) (payload : list Z) (s : pool) : Z * option (Z * list Z) * pool :=
  if negb (po_active s) then (- ENODEV, None, s)
  else if IavWire.AMBA_VIRT_MAX_MSG <? Z.of_nat (length payload) then (- EMSGSIZE, None, s)
  else if po_count s <? QUEUE_DEPTH then
    (0, None,
     {| po_active := po_active s; po_stop := po_stop s;
        po_ring := <[Z.to_nat (u32 (po_head s + po_count s) mod QUEUE_DEPTH) := {| jb_cid := cid; jb_seq := seq; jb_data := payload |}]> (po_ring s);
        po_head := po_head s; po_count := u32 (po_count s + 1); po_workers := po_workers s |})
  else (0, send_refusal cid seq EBUSY, s).

(** [worker_main] under the lock: a waiting worker takes the oldest job, returns when there is none and it has to stop, or
    waits. *)
Definition worker_take (t : nat) (s : pool) : pool :=
  match po_workers s !! t with
  | Some WWait =>
      if po_count s =? 0 then (if po_stop s then put_worker t WGone s else s)
      else
        let j := default job0 (po_ring s !! Z.to_nat (po_head s)) in
        {| po_active := po_active s; po_stop := po_stop s; po_ring := po_ring s; po_head := u32 (po_head s + 1) mod QUEUE_DEPTH;
           po_count := u32 (po_count s - 1); po_workers := <[t := WServe j]> (po_workers s) |}
  | _ => s
  end.

(** What it answers when the broker returned [rc] with the response [resp]. *)
Definition worker_answer (j : job) (rc : Z) (resp : list Z) : option (Z * list Z) :=
  if rc =? 0 then send_to_guest (jb_cid j) (jb_seq j) resp else send_refusal (jb_cid j) (jb_seq j) EMSGSIZE.

(** It is done with the job. *)
Definition worker_done (t : nat) (s : pool) : pool :=
  match po_workers s !! t with Some (WServe _) => put_worker t WWait s | _ => s end.

(** The threads of [iav_broker_server_init]: [started] workers could be created, and the liveness thread. The windows and
    the broker are set up before. *)
Definition start_threads (started : nat) (liveness : bool) (s : pool) : Z * pool :=
  let fresh active stop workers := {| po_active := active; po_stop := stop; po_ring := po_ring s; po_head := 0; po_count := 0; po_workers := workers |} in
  if (started <? WORKERS)%nat || negb liveness then (- EAGAIN, fresh false true [])
  else (0, fresh true false (repeat WWait WORKERS)).

(** [iav_broker_server_shutdown], before it waits for the threads. *)
Definition shutdown_begin (s : pool) : pool :=
  if negb (po_active s) then s
  else {| po_active := false; po_stop := true; po_ring := po_ring s; po_head := po_head s; po_count := po_count s; po_workers := po_workers s |}.

(** A request of a guest as the server's main loop hands it on: the status to answer at once, if any. *)
Definition handle_iav (file : option text) (cid seq : Z) (payload : list Z) (acl : acl_state) (s : pool) : option Z * option (Z * list Z) * acl_state * pool :=
  let '(ok, acl1) := virt_acl_has_cap file cid AMBA_VIRT_CAP_IAV_DEV acl in
  if negb ok then (Some (- EPERM), None, acl1, s)
  else
    let '(rc, refusal, s1) := iav_broker_server_submit cid seq payload s in
    (if rc <? 0 then Some rc else None, refusal, acl1, s1).

(** ** Liveness *)

(** The guests with a session that are not connected. *)
Definition gone_cids (connected held : list Z) : list Z :=
  List.filter (fun c => negb (existsb (Z.eqb c) (take AMBA_VIRT_MAX_GUESTS connected))) held.

(** One period of [liveness_main]; [guests] is what LIST_GUESTS answers. *)
Definition liveness_period (now : Z) (guests : option (list Z)) (b : broker) : list Z * broker :=
  let '(fds, b1) := match guests with
                    | Some l => fold_left (fun acc c => let '(f, b2) := iav_broker_client_gone now c (snd acc) in (fst acc ++ f, b2))
                                  (gone_cids l (iav_broker_list_cids IAV_BROKER_MAX_CIDS b)) ([], b)
                    | None => ([], b)
                    end in
  let '(fds2, b2) := iav_broker_reap_idle now IDLE_RELEASE_MS b1 in (fds ++ fds2, b2).

(** Whether the windows are checked again in this period, and the count of the periods. *)
Definition recheck_due (periods : Z) (b : broker) : bool * Z :=
  let p := u32 (periods + 1) in if (RECHECK_PERIODS <=? p) || iav_broker_windows_stale b then (true, 0) else (false, p).

End BrokerServer.
