(* ===== verification/BrokerServerProps.v ===== *)
(** * The IAV broker inside the server: theorems

    [Module BrokerServerProps]: the ring is a first-in first-out queue, every request that is accepted is answered exactly
    once and none is lost when the server stops ([requests_answered_once]); the windows of the broker are what their
    nodes map ([windows_match_nodes]); at most one guest is the primary by its ticket ([one_primary_guest]). *)

From stdpp Require Import base list strings.
From Stdlib Require Import ZArith Lia.
From S2P Require Import Prelude Text ByteBuf SliceGeometry SliceArena Acl IavTable IavPolicy IavSession IavWire IavBroker IavBrokerOps IavWin IavAperture CameraPolicy SliceLease BrokerServer.
From S2P Require Import IavTableProps IavBrokerProps IavBrokerSample IavReplyProps SliceLeaseProps HostWindow HostWindowProps.
Import Text Geometry SliceArena Acl BrokerServer HostWindow HostWindowProps.

Module BrokerServerProps.

(** ** Powers of two *)

Lemma pow2_loop v m k :
  0 <= v <= 2 ^ 63 -> 0 <= k -> 63 < k + Z.of_nat m -> k <= 63 ->
  exists e, k <= e <= 63 /\ v <= 2 ^ e /\ (e = k \/ 2 ^ (e - 1) < v) /\
    iter_nat m (fun p => if (p <? v) && negb (p =? 0) then inl (u64 (Z.shiftl p 1)) else inr p) (2 ^ k) = inr (2 ^ e).
Proof.
  intros Hv. revert k. induction m as [|m IH]; intros k Hk Hm Hk2; [lia|]. cbn [iter_nat].
  pose proof (Z.pow_pos_nonneg 2 k ltac:(lia) Hk) as Hp. destruct (Z.ltb_spec (2 ^ k) v) as [L|L]; cbn [andb].
  - destruct (Z.eqb_spec (2 ^ k) 0); [lia|]. cbn [negb].
    assert (k < 63) by (apply (Z.pow_lt_mono_r_iff 2); lia).
    rewrite Z.shiftl_mul_pow2 by lia. change (2 ^ 1) with 2. replace (2 ^ k * 2) with (2 ^ (k + 1)) by (rewrite Z.pow_add_r by lia; lia).
    assert (2 ^ (k + 1) < 2 ^ 64) by (apply Z.pow_lt_mono_r; lia). rewrite u64_id by (pose proof (Z.pow_pos_nonneg 2 (k + 1)); lia).
    destruct (IH (k + 1)) as (e & E1 & E2 & E3 & E4); [lia|lia|lia|]. exists e. split; [lia|]. split; [done|]. split; [|done].
    destruct E3 as [->|E3]; right; [replace (k + 1 - 1) with k by lia|]; done.
  - exists k. split; [lia|]. split; [done|]. split; [by left|done].
Qed.

(** The size of a window is the least power of two, from a page on, that holds the partition. *)
Theorem next_pow2_least v :
  0 <= v <= 2 ^ 63 -> exists e, 12 <= e <= 63 /\ next_pow2 v = 2 ^ e /\ v <= next_pow2 v /\ (e = 12 \/ 2 ^ (e - 1) < v).
Proof.
  intros Hv. destruct (pow2_loop v 64 12 Hv) as (e & E1 & E2 & E3 & E4); [lia|lia|lia|].
  exists e. unfold next_pow2. rewrite iter_until_nat. change 4096 with (2 ^ 12). change (Pos.to_nat 64) with 64%nat. rewrite E4. done.
Qed.

(** ** The ring *)

(** The jobs that wait, oldest first. *)
Definition queued (s : pool) : list job :=
  map (fun i => default job0 (po_ring s !! Z.to_nat ((po_head s + Z.of_nat i) mod QUEUE_DEPTH))) (seq 0 (Z.to_nat (po_count s))).

Record ring_ok (s : pool) : Prop := {
  ro_ring : length (po_ring s) = 32%nat;
  ro_head : 0 <= po_head s < QUEUE_DEPTH;
  ro_count : 0 <= po_count s <= QUEUE_DEPTH }.

Lemma slot_other head i c : 0 <= head < 32 -> 0 <= i < c -> c < 32 -> (head + i) mod 32 <> (head + c) mod 32.
Proof. intros. Z.to_euclidean_division_equations. lia. Qed.

Lemma mod32_small z : 0 <= z mod 32 < 32.
Proof. apply Z.mod_pos_bound. lia. Qed.

Lemma queued_length s : ring_ok s -> Z.of_nat (length (queued s)) = po_count s.
Proof. intros [_ _ Hc]. unfold queued. rewrite length_map, length_seq. lia. Qed.

(** A request that is accepted is the last of the queue; the queue is full exactly when one is refused for room. *)
Lemma submit_queue cid num payload s rc refusal s' :
  ring_ok s -> iav_broker_server_submit cid num payload s = (rc, refusal, s') ->
  ring_ok s' /\ po_stop s' = po_stop s /\ po_active s' = po_active s /\ po_workers s' = po_workers s /\
  (rc = 0 /\ refusal = None /\ po_active s = true /\ po_count s < QUEUE_DEPTH /\ queued s' = queued s ++ [{| jb_cid := cid; jb_seq := num; jb_data := payload |}] \/
   s' = s /\ (rc <> 0 /\ refusal = None \/ rc = 0 /\ refusal = send_refusal cid num EBUSY /\ po_count s = QUEUE_DEPTH)).
Proof.
  intros Hok. unfold iav_broker_server_submit. destruct (po_active s) eqn:A; cbn [negb]; [|intros [= <- <- <-]; split_and!; auto; right; auto].
  destruct (_ <? Z.of_nat (length payload)); [intros [= <- <- <-]; split_and!; auto; right; auto|].
  destruct (Z.ltb_spec (po_count s) QUEUE_DEPTH) as [L|L]; [|intros [= <- <- <-]; split_and!; auto; right; split; [done|]; right; destruct Hok; split_and!; auto; lia].
  intros [= <- <- <-]. destruct Hok as [R H C]. unfold QUEUE_DEPTH in *. rewrite !u32_id by lia. split.
  - split; cbn; [by rewrite length_insert|done|unfold QUEUE_DEPTH; lia].
  - split_and!; auto. left. split_and!; auto. unfold queued. cbn [po_ring po_head po_count]. unfold QUEUE_DEPTH.
    replace (Z.to_nat (po_count s + 1)) with (Z.to_nat (po_count s) + 1)%nat by lia. rewrite seq_app, map_app. cbn [seq map]. f_equal.
    + apply map_ext_in. intros i Hi%in_seq. rewrite list_lookup_insert_ne; [done|].
      pose proof (slot_other (po_head s) (Z.of_nat i) (po_count s)). pose proof (mod32_small (po_head s + Z.of_nat i)). pose proof (mod32_small (po_head s + po_count s)). lia.
    + f_equal. replace (po_head s + Z.of_nat (0 + Z.to_nat (po_count s))) with (po_head s + po_count s) by lia.
      rewrite list_lookup_insert_eq; [done|]. pose proof (mod32_small (po_head s + po_count s)). lia.
Qed.

(** A worker that takes a job takes the oldest. *)
Lemma take_queue t s :
  ring_ok s -> po_workers s !! t = Some WWait -> po_count s <> 0 ->
  exists j rest, queued s = j :: rest /\ queued (worker_take t s) = rest /\ po_workers (worker_take t s) = <[t := WServe j]> (po_workers s) /\ ring_ok (worker_take t s) /\
    po_stop (worker_take t s) = po_stop s /\ po_active (worker_take t s) = po_active s.
Proof.
  intros [R H C] Hw Hc. unfold worker_take. rewrite Hw. destruct (Z.eqb_spec (po_count s) 0); [done|]. unfold QUEUE_DEPTH in *.
  rewrite !u32_id by lia. exists (default job0 (po_ring s !! Z.to_nat (po_head s))).
  exists (map (fun i => default job0 (po_ring s !! Z.to_nat ((po_head s + Z.of_nat i) mod 32))) (seq 1 (Z.to_nat (po_count s) - 1))). split_and!; try done.
  - unfold queued, QUEUE_DEPTH. replace (Z.to_nat (po_count s)) with (S (Z.to_nat (po_count s) - 1)) by lia. cbn [seq map]. f_equal; [|f_equal; f_equal; lia].
    rewrite Z.mod_small by lia. do 3 f_equal. lia.
  - unfold queued, QUEUE_DEPTH. cbn [po_ring po_head po_count]. replace (Z.to_nat (po_count s - 1)) with (Z.to_nat (po_count s) - 1)%nat by lia.
    rewrite <- seq_shift, map_map. apply map_ext. intros i. do 3 f_equal. rewrite Zplus_mod_idemp_l. f_equal. lia.
  - split; cbn; [done|apply mod32_small|unfold QUEUE_DEPTH; lia].
Qed.

(** ** Requests and answers *)

#[global] Instance job_eq_dec : EqDecision job.
Proof. solve_decision. Defined.
#[global] Instance wphase_eq_dec : EqDecision wphase.
Proof. solve_decision. Defined.

Definition job_of (w : wphase) : option job := match w with WServe j => Some j | _ => None end.

(** The jobs being served. *)
Definition serving (s : pool) : list job := omap job_of (po_workers s).

Lemma serving_put t w w' l : l !! t = Some w -> omap job_of (<[t := w']> l) ++ option_list (job_of w) ≡ₚ omap job_of l ++ option_list (job_of w').
Proof.
  revert t. induction l as [|x l IH]; intros [|t] E; cbn in *; [done|done| |].
  - injection E as ->. destruct (job_of w), (job_of w'); cbn; solve_Permutation.
  - specialize (IH _ E). destruct (job_of x); cbn; [by rewrite IH|done].
Qed.

(** What was accepted and taken, in order, and the answers. *)
Record history := { hi_accepted : list job; hi_taken : list job; hi_answered : list (job * option (Z * list Z)) }.
Definition history0 : history := {| hi_accepted := []; hi_taken := []; hi_answered := [] |}.

Section WithAbi.
Context `{Abi : IavAbi} `{Lay : ArgLayout} (pol : policy).

(** The main loop submits and stops the server; the workers take jobs, and answer with what the broker made of them. *)
Inductive pool_step : pool * history -> pool * history -> Prop :=
| PsSubmit cid seq payload s h rc refusal s' :
    iav_broker_server_submit cid seq payload s = (rc, refusal, s') ->
    pool_step (s, h)
      (s', if (rc =? 0) && bool_decide (refusal = None)
           then {| hi_accepted := hi_accepted h ++ [{| jb_cid := cid; jb_seq := seq; jb_data := payload |}]; hi_taken := hi_taken h; hi_answered := hi_answered h |}
           else h)
| PsTake t s h :
    pool_step (s, h)
      (worker_take t s,
       {| hi_accepted := hi_accepted h;
          hi_taken := hi_taken h ++ (if bool_decide (po_workers s !! t = Some WWait) then option_list (po_workers (worker_take t s) !! t ≫= job_of) else []);
          hi_answered := hi_answered h |})
| PsAnswer t s h j E st rc resp st' :
    po_workers s !! t = Some (WServe j) ->
    iav_broker_handle pol (jb_cid j) (jb_data j) (IavWire.AMBA_VIRT_MAX_MSG - IavWire.SIZEOF_MSG) E st = (rc, resp, st') ->
    pool_step (s, h) (worker_done t s, {| hi_accepted := hi_accepted h; hi_taken := hi_taken h; hi_answered := hi_answered h ++ [(j, worker_answer j rc resp)] |})
| PsShutdown s h : pool_step (s, h) (shutdown_begin s, h).

Inductive pool_reachable : pool * history -> Prop :=
| PrStart started liveness s0 s : length (po_ring s0) = 32%nat -> start_threads started liveness s0 = (0, s) -> pool_reachable (s, history0)
| PrStep x y : pool_reachable x -> pool_step x y -> pool_reachable y.

(** An answer: a message to the guest that asked, with its number, whose response is whole. *)
Definition answered (x : job * option (Z * list Z)) : Prop :=
  exists resp, snd x = Some (jb_cid (fst x), le_bytes 4 AMBA_VIRT_MSG_IAV_RESP ++ le_bytes 4 (jb_seq (fst x)) ++ le_bytes 4 0 ++ le_bytes 4 0 ++ resp) /\
    SIZEOF_RESP <= Z.of_nat (length resp) <= IavWire.AMBA_VIRT_MAX_MSG - IavWire.SIZEOF_MSG.

Record pool_ok (s : pool) (h : history) : Prop := {
  pk_ring : ring_ok s;
  pk_stop : po_stop s = true -> po_active s = false;
  pk_gone : WGone ∈ po_workers s -> po_stop s = true /\ po_count s = 0;
  pk_workers : length (po_workers s) = WORKERS;
  pk_order : hi_accepted h = hi_taken h ++ queued s;
  pk_served : hi_taken h ≡ₚ map fst (hi_answered h) ++ serving s;
  pk_answers : Forall answered (hi_answered h) }.

Lemma answer_whole j E st rc resp st' :
  iav_broker_handle pol (jb_cid j) (jb_data j) (IavWire.AMBA_VIRT_MAX_MSG - IavWire.SIZEOF_MSG) E st = (rc, resp, st') -> answered (j, worker_answer j rc resp).
Proof.
  intros H. destruct (ReplyProps.handle_fits pol _ _ _ _ _ _ _ _ (Z.le_refl _) H) as (-> & p & Hp & ->). unfold ReplyProps.small in Hp.
  exists (resp_bytes (ReplyProps.reply_head p) ++ rp_out p). rewrite length_app, resp_bytes_length. change SIZEOF_RESP with 40.
  change (IavWire.AMBA_VIRT_MAX_MSG - IavWire.SIZEOF_MSG) with 4080. change AMBA_VIRT_IAV_MAX_OUT with 4040 in Hp. split; [|lia].
  unfold worker_answer, send_to_guest. cbn [Z.eqb fst snd]. change (IavWire.AMBA_VIRT_MAX_MSG - IavWire.SIZEOF_MSG) with 4080.
  destruct (Z.ltb_spec 4080 (Z.of_nat (length (resp_bytes (ReplyProps.reply_head p) ++ rp_out p)))) as [L|]; [|done].
  rewrite length_app, resp_bytes_length in L. lia.
Qed.

Lemma take_idle t s : po_workers s !! t <> Some WWait -> worker_take t s = s.
Proof. unfold worker_take. destruct (po_workers s !! t) as [[]|]; done. Qed.

Lemma jobs_step_ok s h s' h' : pool_ok s h -> pool_step (s, h) (s', h') -> pool_ok s' h'.
Proof.
  intros [R1 R2 R3 R4 R5 R6 R7] St. inversion St; subst; clear St.
  - match goal with H : iav_broker_server_submit _ _ _ _ = _ |- _ => destruct (submit_queue _ _ _ _ _ _ _ R1 H) as (Q1 & Q2 & Q3 & Q4 & Q5) end.
    destruct Q5 as [(-> & -> & Qa & Qc & Qq)|(-> & Q5)].
    + cbn [Z.eqb andb]. rewrite bool_decide_eq_true_2 by done. split; cbn [hi_accepted hi_taken hi_answered]; [done| | | | | |done].
      * by rewrite Q2, Q3.
      * rewrite Q4, Q2. intros Hg. destruct (R3 Hg) as [Hs _]. specialize (R2 Hs). congruence.
      * by rewrite Q4.
      * by rewrite R5, Qq, app_assoc.
      * unfold serving. by rewrite Q4.
    + destruct ((rc =? 0) && bool_decide (refusal = None)) eqn:E; [|by split].
      exfalso. bool_hyps. apply bool_decide_eq_true in H1. destruct Q5 as [[? _]|(_ & -> & _)]; [lia|]. vm_compute in H1. done.
  - destruct (decide (po_workers s !! t = Some WWait)) as [Hw|Hw].
    2: { rewrite (take_idle _ _ Hw), bool_decide_eq_false_2, app_nil_r by done. by split. }
    rewrite bool_decide_eq_true_2 by done. destruct (decide (po_count s = 0)) as [Hc|Hc].
    + unfold worker_take. rewrite Hw, Hc. cbn [Z.eqb]. destruct (po_stop s) eqn:Hs.
      * cbn [put_worker po_workers]. rewrite list_lookup_insert_eq by (by eapply lookup_lt_Some). cbn. rewrite app_nil_r.
        split; cbn; [by destruct R1; split|intros _; by apply R2|done|by rewrite length_insert|done| |done].
        unfold serving in *. cbn [po_workers]. pose proof (serving_put t WWait WGone _ Hw) as P. cbn in P. rewrite !app_nil_r in P. by rewrite P.
      * rewrite Hw. cbn. rewrite app_nil_r. by split; rewrite ?Hs.
    + destruct (take_queue t s R1 Hw Hc) as (j & rest & T1 & T2 & T3 & T4 & T5 & T6). rewrite T3, list_lookup_insert_eq by (by eapply lookup_lt_Some). cbn [mbind option_bind job_of option_list].
      split; cbn [hi_accepted hi_taken hi_answered]; [done| | | | | |done].
      * by rewrite T5, T6.
      * rewrite T3, T5. intros [k Hk]%list_elem_of_lookup. apply lookup_insert_inv in Hk as [[_ Hk]|[_ Hk]]; [done|].
        assert (WGone ∈ po_workers s) as Hg by (by eapply list_elem_of_lookup_2). destruct (R3 Hg). lia.
      * by rewrite T3, length_insert.
      * rewrite R5, T1, T2. by rewrite <- app_assoc.
      * rewrite R6. unfold serving. rewrite T3. pose proof (serving_put t WWait (WServe j) _ Hw) as P. cbn in P. rewrite app_nil_r in P. rewrite P. by rewrite app_assoc.
  - match goal with H : po_workers s !! t = _ |- _ => rename H into Hw end. unfold worker_done. rewrite Hw.
    pose proof (serving_put t (WServe j) WWait _ Hw) as P. cbn in P. rewrite app_nil_r in P.
    split; cbn [hi_accepted hi_taken hi_answered put_worker po_stop po_active po_workers]; [by destruct R1; split|done| |by rewrite length_insert|done| |].
    + intros [k Hk]%list_elem_of_lookup. apply lookup_insert_inv in Hk as [[_ Hk]|[_ Hk]]; [done|]. apply R3. by eapply list_elem_of_lookup_2.
    + rewrite R6. unfold serving. cbn [put_worker po_workers]. rewrite <- P, map_app. cbn. solve_Permutation.
    + apply Forall_app. split; [done|]. apply Forall_singleton. by eapply answer_whole.
  - unfold shutdown_begin. destruct (negb (po_active s)) eqn:A; [by split|]. split; cbn; [by destruct R1; split|done| |done|done|done|done]. intros Hg. destruct (R3 Hg). by split.
Qed.

Lemma jobs_start_ok started liveness s0 s : length (po_ring s0) = 32%nat -> start_threads started liveness s0 = (0, s) -> pool_ok s history0.
Proof.
  intros Hr. unfold start_threads. destruct (_ || _); [done|]. intros [= <-]. split; cbn; [by split|done| |done|done|done|done].
  intros Hg. do 4 (apply elem_of_cons in Hg as [Hg|Hg]; [done|]). by apply not_elem_of_nil in Hg.
Qed.

Lemma jobs_reachable_ok x : pool_reachable x -> pool_ok (fst x) (snd x).
Proof.
  induction 1 as [? ? ? ? Hr Hs|[s h] [s' h'] _ IH St]; [by eapply jobs_start_ok|]. by eapply jobs_step_ok.
Qed.

(** C13: over every interleaving of the main loop and the workers, the requests are taken in the order they were accepted;
    those that were taken are being served or have been answered, each exactly once, by a message to the guest that asked
    that carries the number of the request and a whole response; at most 32 wait; and when the server has stopped and its
    workers have returned, everything that was accepted has been answered. *)
Theorem requests_answered_once s h :
  pool_reachable (s, h) ->
  hi_accepted h = hi_taken h ++ queued s /\ Z.of_nat (length (queued s)) <= QUEUE_DEPTH /\
  hi_taken h ≡ₚ map fst (hi_answered h) ++ serving s /\ Forall answered (hi_answered h) /\
  (Forall (eq WGone) (po_workers s) -> hi_accepted h ≡ₚ map fst (hi_answered h)).
Proof.
  intros Hr. destruct (jobs_reachable_ok _ Hr) as [R1 _ R3 R4 R5 R6 R7]. cbn [fst snd] in *. split; [done|].
  pose proof (queued_length _ R1) as Hq. split; [destruct R1; lia|]. split; [done|]. split; [done|]. intros Hg.
  assert (Hc : po_count s = 0).
  { apply R3. destruct (po_workers s) as [|w l]; [done|]. apply Forall_cons_1 in Hg as [<- _]. apply list_elem_of_here. }
  assert (queued s = []) as E by (apply length_zero_iff_nil; lia). rewrite R5, E, app_nil_r, R6.
  assert (serving s = []) as ->; [|by rewrite app_nil_r]. unfold serving. clear -Hg. induction Hg as [|x l <- _ IH]; [done|exact IH].
Qed.

End WithAbi.

(** ** The windows *)

(** The node maps the partition of the window, padded to its size. *)
Definition node_matches (w : broker_window) (n : IavWin.iav_win) : Prop :=
  IavWin.iw_phys n = bw_base w /\ IavWin.iw_len n = bw_part_len w /\ IavWin.iw_size n = bw_size w.

Lemma win_config_exact pr capable c alloc node n n' :
  IavWin.iav_win_config pr capable (Some c) alloc node n = (0, n') ->
  IavWin.iw_phys n' = IavWin.wc_phys c /\ IavWin.iw_len n' = IavWin.wc_len c /\ IavWin.iw_size n' = IavWin.wc_size c.
Proof.
  unfold IavWin.iav_win_config. destruct (negb capable); [done|]. destruct (Z.eqb_spec (IavWin.iav_win_validate pr c) 0) as [E|E]; cbn [negb]; [|intros [= H _]; done].
  destruct (negb _); [done|]. destruct (IavWin.alloc_pad _ _ _); [|done]. by intros [= <-].
Qed.

Lemma node_flags nc n : Z.land (IavWin.wc_flags (IavWin.iav_win_get nc n)) IavWin.AMBA_VIRT_IAV_WIN_F_NORMAL_NC <> 0 -> nc = true.
Proof. by destruct nc. Qed.

Lemma node_config_match pr nc io w n flags n' :
  window_node_config pr nc io w n = (0, flags, n') -> node_matches w n' /\ (Z.land flags IavWin.AMBA_VIRT_IAV_WIN_F_NORMAL_NC <> 0 -> nc = true).
Proof.
  unfold window_node_config. destruct (Z.eqb_spec (ni_open io) 0) as [E|E]; cbn [negb]; [|intros [= H _ _]; lia].
  destruct (ni_get io && _ && _ && _) eqn:G.
  - intros [= <- <-]. bool_hyps. split; [by split_and!|]. exact (node_flags nc n).
  - destruct (IavWin.iav_win_config _ _ _ _ _ _) as [rc n1] eqn:C. destruct (Z.eqb_spec rc 0) as [->|]; cbn [negb]; [|intros [= ? _ _]; done].
    intros [= <- <-]. apply win_config_exact in C. split; [done|]. destruct (ni_get io); [exact (node_flags nc n1)|done].
Qed.

Lemma window_ready_match pr nc io w nodes rc flags nodes' :
  window_node_ready pr nc io w nodes = (rc, flags, nodes') ->
  (forall k, k <> Z.to_nat (bw_id w) -> nodes' !! k = nodes !! k) /\
  (rc = 0 -> (exists n, nodes' !! Z.to_nat (bw_id w) = Some n /\ node_matches w n) /\ (Z.land flags IavWin.AMBA_VIRT_IAV_WIN_F_NORMAL_NC <> 0 -> nc = true)).
Proof.
  unfold window_node_ready. destruct (existsb _ _); [|by intros [= <- <- <-]]. destruct (nodes !! _) as [n|] eqn:E; [|by intros [= <- <- <-]].
  destruct (window_node_config _ _ _ _ _) as [[rc1 fl1] n1] eqn:C. intros [= <- <- <-]. split; [intros k Hk; by rewrite list_lookup_insert_ne|].
  intros ->. apply node_config_match in C as [C1 C2]. split; [|done]. exists n1. split; [|done]. apply list_lookup_insert_eq. by eapply lookup_lt_Some.
Qed.

(** [size] is the least power of two, from a page on, that holds [len] bytes. *)
Definition least_pow2 (len size : Z) : Prop :=
  exists e, 12 <= e <= 63 /\ size = 2 ^ e /\ len <= 2 ^ e /\ (e = 12 \/ 2 ^ (e - 1) < len).

(** A window of the broker is a partition as the driver tells it, padded, and its node maps it. *)
Definition window_served (query : Z -> option (Z * Z)) (nodes : list IavWin.iav_win) (w : broker_window) : Prop :=
  (exists n, nodes !! Z.to_nat (bw_id w) = Some n /\ node_matches w n) /\
  query (bw_pid w) = Some (bw_base w, bw_part_len w) /\ bw_part_len w <> 0 /\ least_pow2 (bw_part_len w) (bw_size w).

Lemma window_loop_served pr nc io query parts ws all_nc nodes ws' all' nodes' :
  (forall pid a l, query pid = Some (a, l) -> is_u64 a /\ 0 <= l <= 2 ^ 63) ->
  NoDup (map snd parts) -> Forall (fun x => 0 <= snd x) parts ->
  Forall (fun w => 0 <= bw_id w /\ (bw_id w ∉ map snd parts) /\ window_served query nodes w) ws ->
  (all_nc = true -> ws <> [] -> nc = true) ->
  window_loop pr nc io query parts (ws, all_nc, nodes) = (ws', all', nodes') ->
  Forall (window_served query nodes') ws' /\ (all' = true -> ws' <> [] -> nc = true).
Proof.
  intros Hq. revert ws all_nc nodes. induction parts as [|[pid id] rest IH]; intros ws all_nc nodes Hd Hp Hw Ha; cbn [window_loop].
  { intros [= <- <- <-]. split; [|done]. eapply Forall_impl; [exact Hw|]. by intros w (_ & _ & ?). }
  cbn [map snd] in Hd. apply NoDup_cons in Hd as [Hn Hd]. apply Forall_cons_1 in Hp as [Hid Hp]. cbn [snd] in Hid.
  assert (Hw0 : Forall (fun w => 0 <= bw_id w /\ (bw_id w ∉ map snd rest) /\ window_served query nodes w) ws).
  { eapply Forall_impl; [exact Hw|]. intros w (H1 & H2 & H3). split_and!; [done| |done]. cbn [map snd] in H2. by apply not_elem_of_cons in H2 as [_ H2]. }
  destruct (query pid) as [[addr len]|] eqn:Q; [|by apply IH]. destruct (Z.eqb_spec len 0) as [->|Hl]; [by apply IH|].
  set (w := {| bw_id := id; bw_base := addr; bw_part_len := len; bw_size := next_pow2 len; bw_pid := pid |}).
  destruct (window_node_ready pr nc io w nodes) as [[rc flags] nodes1] eqn:R. apply window_ready_match in R as [R1 R2]. cbn [bw_id w] in R1, R2.
  assert (Hw1 : Forall (fun w => 0 <= bw_id w /\ (bw_id w ∉ map snd rest) /\ window_served query nodes1 w) ws).
  { apply Forall_forall. intros v Hv. rewrite Forall_forall in Hw. destruct (Hw v Hv) as (H1 & H2 & (n & H3 & H4) & H5). cbn [map snd] in H2.
    apply not_elem_of_cons in H2 as [H2 H2']. split_and!; [done|done|]. split; [|done]. exists n. split; [|done]. rewrite R1; [done|]. lia. }
  destruct (Z.eqb_spec rc 0) as [->|]; [|by apply IH]. destruct (R2 eq_refl) as [R3 R4]. apply IH; [done|done| |].
  - apply Forall_app. split; [done|]. apply Forall_singleton. split_and!; [done|done|]. split; [done|]. split; [done|]. split; [done|]. destruct (Hq _ _ _ Q) as [_ Hlen].
    destruct (next_pow2_least len Hlen) as (e & E1 & E2 & E3 & E4). exists e. cbn [bw_size bw_part_len w]. rewrite E2 in E3 |- *. split; [done|]. by split.
  - intros [_ Hf]%andb_true_iff _. apply R4. by destruct (Z.eqb_spec (Z.land flags IavWin.AMBA_VIRT_IAV_WIN_F_NORMAL_NC) 0).
Qed.

(** No two windows the broker accepts clash. *)
Lemma windows_apart before ws :
  windows_ok before ws = true ->
  Forall (fun w => window_ok w = true /\ Forall (fun o => window_clash w o = false) before) ws /\
  forall i j o w, (i < j)%nat -> ws !! i = Some o -> ws !! j = Some w -> window_clash w o = false.
Proof.
  revert before. induction ws as [|x ws IH]; intros before; cbn [windows_ok]; [intros _; split; [by apply Forall_nil_2|by intros ? ? ? ? ? ?]|].
  intros [[H1 H2]%andb_true_iff H3]%andb_true_iff. destruct (IH _ H3) as [F P]. split.
  - apply Forall_cons. split.
    + split; [done|]. apply Forall_forall. intros o Ho. apply negb_true_iff in H2. apply not_true_is_false. intros Hc. apply not_true_iff_false in H2. apply H2.
      apply existsb_exists. exists o. split; [by apply list_elem_of_In|done].
    + eapply Forall_impl; [exact F|]. intros w [W1 W2]. split; [done|]. by apply Forall_app in W2 as [W2 _].
  - intros [|i] [|j] o w Hij Hi Hj; [lia| |lia|cbn in Hi, Hj; by apply (P i j); [lia| |]]. cbn in Hi, Hj. injection Hi as ->.
    rewrite Forall_forall in F. destruct (F w) as [_ W]; [by eapply list_elem_of_lookup_2|]. rewrite Forall_app, Forall_singleton in W. tauto.
Qed.

Lemma clash_disjoint w o :
  is_u64 (bw_base w) -> is_u64 (bw_base o) -> 0 <= bw_part_len w -> 0 <= bw_part_len o -> is_u64 (bw_size w) -> is_u64 (bw_size o) ->
  window_ok w = true -> window_ok o = true -> window_clash w o = false ->
  disjoint_range (bw_base w) (bw_base w + bw_part_len w) (bw_base o) (bw_base o + bw_part_len o).
Proof.
  unfold window_ok, window_clash, is_u64, disjoint_range. intros Bw Bo Lw Lo Sw So Kw Ko Hc. bool_hyps.
  assert (u64 (bw_base w + bw_size w) = bw_base w + bw_size w).
  { unfold u64 in *. destruct (Z_lt_ge_dec (bw_base w + bw_size w) (2 ^ 64)); [by apply Z.mod_small; lia|].
    rewrite <- (Z.mod_unique_pos (bw_base w + bw_size w) (2 ^ 64) 1 (bw_base w + bw_size w - 2 ^ 64)) in * by lia. lia. }
  assert (u64 (bw_base o + bw_size o) = bw_base o + bw_size o).
  { unfold u64 in *. destruct (Z_lt_ge_dec (bw_base o + bw_size o) (2 ^ 64)); [by apply Z.mod_small; lia|].
    rewrite <- (Z.mod_unique_pos (bw_base o + bw_size o) (2 ^ 64) 1 (bw_base o + bw_size o - 2 ^ 64)) in * by lia. lia. }
  lia.
Qed.

Section Windows.
Context `{Abi : IavAbi} {K : Type} (dev : IavAperture.NodeDevice K).

Lemma setup_aux_keeps query pids ws (s : setup K) :
  let s' := setup_aux dev query pids ws s in
  br_windows (su_broker s') = br_windows (su_broker s) /\ br_host_features (su_broker s') = br_host_features (su_broker s) /\ su_nodes s' = su_nodes s.
Proof.
  unfold setup_aux, iav_broker_set_aux_sources. destruct (_ || _); cbn [fst snd]; destruct (SliceLease.setup_apertures _ _ _ _ _ _ _) as [l ak]; cbn;
    destruct (fst (fst _) =? 0); done.
Qed.

(** C24: when the server has set up the windows, every window of the broker is a non-empty partition of the driver with a size
    [2 ^ e] that holds it, the least one from a page on ([e = 12], or [2 ^ (e - 1)] is too small), and the node the guest's hypervisor maps for it is configured with exactly that
    address, length and size; no two of the partitions overlap; and guests are told that the windows are Normal-NC only if
    the window module maps them so. *)
Theorem windows_match_nodes pr nc io opened now query pids (s s' : setup K) :
  (forall pid a l, query pid = Some (a, l) -> is_u64 a /\ 0 <= l <= 2 ^ 63) ->
  set_windows_from_driver dev pr nc io opened now query pids s = (0, s') ->
  Forall (window_served query (su_nodes s')) (br_windows (su_broker s')) /\
  (forall i j w o, i <> j -> br_windows (su_broker s') !! i = Some w -> br_windows (su_broker s') !! j = Some o ->
     disjoint_range (bw_base w) (bw_base w + bw_part_len w) (bw_base o) (bw_base o + bw_part_len o)) /\
  (br_host_features (su_broker s') <> 0 -> nc = true /\ br_windows (su_broker s') <> []).
Proof.
  intros Hq. unfold set_windows_from_driver. destruct (Z.eqb_spec opened 0) as [|No]; cbn [negb]; [|intros [= H _]; lia].
  destruct (window_loop _ _ _ _ _ _) as [[ws all_nc] nodes] eqn:L.
  assert (L2 : Forall (window_served query nodes) ws /\ (all_nc = true -> ws <> [] -> nc = true)).
  { eapply window_loop_served; [exact Hq| | | | |exact L]; [by apply (bool_decide_unpack _); vm_compute|by repeat constructor|by apply Forall_nil_2|done]. }
  destruct L2 as [L2 L3]. unfold iav_broker_set_windows. destruct (_ || _) eqn:B; [intros [= H _]; done|]. cbn [Z.ltb Z.compare].
  intros [= <-]. destruct (setup_aux_keeps query pids ws
    {| su_broker := {| br_cfg := br_cfg (su_broker s); br_epoch := br_epoch (su_broker s); br_sess := br_sess (su_broker s); br_cids := br_cids (su_broker s);
         br_windows := ws; br_count := br_count (su_broker s); br_aux_src := br_aux_src (su_broker s); br_pool := br_pool (su_broker s);
         br_host_features := Z.land (if (0 <? Z.of_nat (length ws)) && all_nc then IavSession.AMBA_VIRT_IAV_F_NC_WINDOWS else 0) IavSession.AMBA_VIRT_IAV_F_NC_WINDOWS;
         br_table_hash := br_table_hash (su_broker s); br_table_rows := br_table_rows (su_broker s); br_stale := br_stale (su_broker s) |};
       su_policy := CameraPolicy.virt_camera_policy_set_windows (map (fun w => CameraPolicy.mk_cwin (bw_id w) (bw_size w)) ws) now (su_policy s);
       su_lease := su_lease s; su_aux := su_aux s; su_nodes := nodes |}) as (K1 & K2 & K3).
  cbn [su_broker su_nodes br_windows br_host_features iav_broker_set_host_features] in *. rewrite K1, K2, K3. split; [done|].
  apply orb_false_iff in B as [_ B]. apply negb_false_iff in B. destruct (windows_apart [] ws B) as [F P]. rewrite Forall_forall in F, L2. split.
  - assert (Hu : forall x, x ∈ ws -> window_ok x = true /\ is_u64 (bw_base x) /\ 0 <= bw_part_len x /\ is_u64 (bw_size x)).
    { intros x Hx. destruct (F x Hx) as [Kx _]. destruct (L2 x Hx) as (_ & Q & _ & Z). destruct (Hq _ _ _ Q) as [A1 A2]. split_and!; [done|done|lia|].
      destruct Z as (pw & E1 & -> & _). unfold is_u64. split; [apply Z.pow_nonneg; lia|apply Z.pow_lt_mono_r; lia]. }
    intros i j w o Hij Hi Hj. destruct (Hu w) as (W1 & W2 & W3 & W4); [by eapply list_elem_of_lookup_2|]. destruct (Hu o) as (O1 & O2 & O3 & O4); [by eapply list_elem_of_lookup_2|].
    destruct (decide (i < j)%nat) as [Hlt|Hge].
    + pose proof (clash_disjoint o w O2 W2 O3 W3 O4 W4 O1 W1 (P i j w o Hlt Hi Hj)) as D. unfold disjoint_range in *. lia.
    + apply clash_disjoint; try done. apply (P j i o w); [lia|done|done].
  - destruct ((0 <? Z.of_nat (length ws)) && all_nc) eqn:E; [|done]. intros _. apply andb_true_iff in E as [E1 E2].
    assert (ws <> []) by (intros ->; done). auto.
Qed.

End Windows.

(** ** The primary guest *)

Lemma bound_index_slot n h files cid i :
  host_ok n h files -> bound_index cid (amba_virt_slice_get_bindings h) = Some i -> exists k s, i = Z.of_nat k /\ live h !! k = Some s /\ ss_cid s = cid.
Proof.
  intros Ho. unfold bound_index. destruct (List.find _ _) as [[c d]|] eqn:E; [|done]. intros [= <-]. apply find_some in E as [Hin Hc].
  cbn [fst snd] in *. apply Z.eqb_eq in Hc. subst c. apply list_elem_of_In in Hin. unfold amba_virt_slice_get_bindings in Hin.
  do 2 apply subseteq_take in Hin. apply list_elem_of_In, in_map_iff in Hin as (s & [= Hs Hd] & [Hl _]%filter_In).
  apply list_elem_of_In, list_elem_of_lookup in Hl as [k Hk]. destruct (live_desc _ _ _ _ _ Ho Hk) as (_ & _ & Ed). exists k, s.
  split; [|done]. rewrite <- Hd, Ed. done.
Qed.

(** C25: however slices are bound and claimed, leases, roles, stores and restarts are ordered, and unless a primary slice is
    set by hand, at most one guest is the primary one: two guests the broker takes for it are the same. *)
Theorem one_primary_guest {K} {hooks : SliceLease.AuxHooks K} fresh (y : SliceLease.lease_sys) n h files fd fd' cid cid' :
  (1 <= n <= 8)%nat -> host_reachable n (h, files) -> lease_reachable fresh y ->
  real_is_primary fd (-1) (Some (amba_virt_slice_get_bindings h)) (SliceLease.y_lease y) (SliceLease.y_policy y) cid = true ->
  real_is_primary fd' (-1) (Some (amba_virt_slice_get_bindings h)) (SliceLease.y_lease y) (SliceLease.y_policy y) cid' = true -> cid = cid'.
Proof.
  intros Hn Hr Hl H H'. pose proof (reachable_host_ok n (h, files) Hn Hr) as Ho. cbn [fst snd] in Ho. unfold real_is_primary in *.
  destruct (fd <? 0); [done|]. destruct (fd' <? 0); [done|]. destruct (bound_index cid _) as [i|] eqn:B; [|done]. destruct (bound_index cid' _) as [i'|] eqn:B'; [|done].
  destruct (SliceLease.primary_by_ticket i _ _) as [b|] eqn:T; [|done]. destruct (SliceLease.primary_by_ticket i' _ _) as [b'|] eqn:T'; [|done]. subst b b'.
  pose proof (one_primary_index fresh y i i' Hl T T') as <-. destruct (bound_index_slot _ _ _ _ _ Ho B) as (k & s & -> & Hs & <-).
  destruct (bound_index_slot _ _ _ _ _ Ho B') as (k' & s' & E & Hs' & <-). apply Nat2Z.inj in E as <-. congruence.
Qed.

End BrokerServerProps.
