(* ===== verification/BrokerServerSample.v ===== *)
(** * A concrete server with the IAV broker

    [Module BrokerServerSample]: a run of the queue from start to stop, two partitions that become windows, and two guests
    of which one is the primary; the theorems of BrokerServerProps are applied to them. *)

From stdpp Require Import base list strings.
From Stdlib Require Import ZArith Lia.
From S2P Require Import Prelude Text SliceGeometry IavTable IavPolicy IavSession IavWire IavBroker IavBrokerOps IavWin IavAperture CameraPolicy SliceLease BrokerServer.
From S2P Require Import IavTableProps IavBrokerProps IavBrokerSample SliceLeaseProps LeaseApertureProps HostWindow HostWindowProps ServerSample BrokerServerProps.
Import IavWin IavAux IavAperture HostWindow HostWindowProps BrokerServer BrokerServerProps ServerSample.

Module BrokerServerSample.

#[local] Existing Instance TableProps.sample_abi.
#[local] Existing Instance BrokerSample.sample_layout.

(** ** A run of the queue *)

Definition job5 : job := {| jb_cid := 5; jb_seq := 7; jb_data := BrokerSample.sample_req |}.
Definition pool_up : pool := snd (start_threads 4 true pool0).
Definition pool_asked : pool := snd (iav_broker_server_submit 5 7 BrokerSample.sample_req pool_up).
Definition pool_serving : pool := worker_take 2 pool_asked.
Definition handled : Z * list Z * st :=
  iav_broker_handle BrokerSample.sample_pol 5 BrokerSample.sample_req (IavWire.AMBA_VIRT_MAX_MSG - IavWire.SIZEOF_MSG) BrokerSample.sample_env (BrokerSample.sample_st false).
Definition pool_answered : pool := worker_done 2 pool_serving.
Definition pool_stopped : pool := worker_take 3 (worker_take 2 (worker_take 1 (worker_take 0 (shutdown_begin pool_answered)))).
Definition answer5 : job * option (Z * list Z) := (job5, worker_answer job5 (fst (fst handled)) (snd (fst handled))).
Definition history5 : history := {| hi_accepted := [job5]; hi_taken := [job5]; hi_answered := [answer5] |}.

Lemma triple_eta {A B C} (p : A * B * C) : p = (fst (fst p), snd (fst p), snd p).
Proof. by destruct p as [[? ?] ?]. Qed.

Lemma idle_take pol s h k :
  pool_reachable pol (s, h) -> (po_workers s !! k = Some WWait) -> (po_workers (worker_take k s) !! k ≫= job_of) = None -> pool_reachable pol (worker_take k s, h).
Proof.
  intros Hr Hw Hn. eapply PrStep; [exact Hr|]. destruct h as [a t r]. pose proof (PsTake pol k s {| hi_accepted := a; hi_taken := t; hi_answered := r |}) as St.
  rewrite Hn in St. cbn [hi_accepted hi_taken hi_answered option_list] in St. destruct (bool_decide _); rewrite app_nil_r in St; exact St.
Qed.

Lemma stopped_reachable : pool_reachable BrokerSample.sample_pol (pool_stopped, history5).
Proof.
  assert (H0 : pool_reachable BrokerSample.sample_pol (pool_up, history0)) by (by eapply (PrStart _ 4 true pool0)).
  assert (H1 : pool_reachable BrokerSample.sample_pol (pool_asked, {| hi_accepted := [job5]; hi_taken := []; hi_answered := [] |})).
  { eapply PrStep; [exact H0|]. apply (PsSubmit _ 5 7 BrokerSample.sample_req pool_up history0 0 None). by vm_compute. }
  assert (H2 : pool_reachable BrokerSample.sample_pol (pool_serving, {| hi_accepted := [job5]; hi_taken := [job5]; hi_answered := [] |})).
  { eapply PrStep; [exact H1|]. exact (PsTake _ 2 pool_asked {| hi_accepted := [job5]; hi_taken := []; hi_answered := [] |}). }
  assert (H3 : pool_reachable BrokerSample.sample_pol (pool_answered, history5)).
  { eapply PrStep; [exact H2|]. apply (PsAnswer _ 2 pool_serving {| hi_accepted := [job5]; hi_taken := [job5]; hi_answered := [] |} job5
      BrokerSample.sample_env (BrokerSample.sample_st false) (fst (fst handled)) (snd (fst handled)) (snd handled)); [reflexivity|].
    unfold job5, handled. cbn [jb_cid jb_data]. apply triple_eta. }
  unfold pool_stopped. do 4 (apply idle_take; [|reflexivity|reflexivity]). eapply PrStep; [exact H3|]. apply PsShutdown.
Qed.

Lemma requests_answered_once_witness :
  hi_accepted history5 = [job5] /\ hi_accepted history5 ≡ₚ map fst (hi_answered history5) /\ Forall answered (hi_answered history5).
Proof.
  destruct (requests_answered_once BrokerSample.sample_pol pool_stopped history5 stopped_reachable) as (_ & _ & _ & H4 & H5).
  split; [reflexivity|]. split; [apply H5; vm_compute; repeat constructor|exact H4].
Defined.

(** ** Windows *)

Definition good_node : node_io := {| ni_open := 0; ni_get := true; ni_capable := true; ni_alloc := fun k => Some (0x90000000 + Z.of_nat k * 0x200000) |}.
Definition parts_at (bsb pid : Z) : option (Z * Z) :=
  if pid =? IAV_PART_DSP then Some (0x40000000, 0x300000) else if pid =? IAV_PART_BSB then Some (bsb, 0x100000) else None.
Definition fresh_setup : setup aux_state :=
  {| su_broker := BrokerSample.sample_state false; su_policy := CameraPolicy.virt_camera_policy_reset; su_lease := SliceLease.virt_slice_lease_reset;
     su_aux := (virt_iav_aperture_reset, aux_init []); su_nodes := repeat win_zero 4 |}.
Definition windows_set (bsb : Z) : Z * setup aux_state :=
  set_windows_from_driver (kernel_nodes win_defaults true) win_defaults true (fun _ => good_node) 0 100 (parts_at bsb) [] fresh_setup.

Lemma parts_typed bsb pid a l : is_u64 bsb -> parts_at bsb pid = Some (a, l) -> is_u64 a /\ 0 <= l <= 2 ^ 63.
Proof. intros H. unfold parts_at. destruct (pid =? _); [intros [= <- <-]; by unfold is_u64|]. destruct (pid =? _); [|done]. intros [= <- <-]. split; [done|lia]. Qed.

Lemma windows_match_nodes_witness :
  map bw_size (br_windows (su_broker (snd (windows_set 0x40400000)))) = [0x400000; 0x100000] /\
  Forall (window_served (parts_at 0x40400000) (su_nodes (snd (windows_set 0x40400000)))) (br_windows (su_broker (snd (windows_set 0x40400000)))).
Proof.
  split; [vm_compute; reflexivity|].
  refine (proj1 (windows_match_nodes (kernel_nodes win_defaults true) win_defaults true (fun _ => good_node) 0 100 (parts_at 0x40400000) [] fresh_setup (snd (windows_set 0x40400000)) _ _)).
  - intros pid a l. apply parts_typed. by unfold is_u64.
  - assert (E : fst (windows_set 0x40400000) = 0) by (vm_compute; reflexivity). unfold windows_set in *. destruct (set_windows_from_driver _ _ _ _ _ _ _ _ _) as [rc s]. cbn in *. by rewrite E.
Defined.

(** A partition that directly follows a padded one is inside its padding for the broker, which then has no windows at all,
    although both nodes are configured. *)
Example adjacent_partitions_refused :
  fst (windows_set 0x40300000) = - EINVAL /\ br_windows (su_broker (snd (windows_set 0x40300000))) = br_windows (su_broker fresh_setup) /\
  map iw_configured (take 2 (su_nodes (snd (windows_set 0x40300000)))) = [true; true].
Proof. by vm_compute. Qed.

(** ** The primary guest *)

(** Guest 5 holds slice 0, whose lease has the primary ticket, and guest 6 slice 1, which has no lease. *)
Definition host_two : host := snd (amba_virt_slice_bind 6 9 (snd (amba_virt_slice_bind 5 7 host22))).
Definition asked_primary (slice cid : Z) : bool :=
  real_is_primary 3 slice (Some (amba_virt_slice_get_bindings host_two)) (SliceLease.y_lease (snd demo_grant)) (SliceLease.y_policy (snd demo_grant)) cid.

Lemma two_reachable : host_reachable 2 (host_two, [1%nat; 0%nat]).
Proof. unfold host_two. eapply HrStep; [eapply HrStep; [exact host22_reachable|apply HsBind]|apply HsBind]. Qed.

Lemma one_primary_guest_witness : asked_primary (-1) 5 = true /\ forall cid, asked_primary (-1) cid = true -> 5 = cid.
Proof.
  split; [vm_compute; reflexivity|]. intros cid H.
  refine (one_primary_guest true (snd demo_grant) 2 host_two [1%nat; 0%nat] 3 3 5 cid _ two_reachable demo_grant_reachable _ H); [lia|vm_compute; reflexivity].
Defined.

(** A primary slice set by hand makes a second guest the primary. *)
Example two_primary_guests : asked_primary 1 5 = true /\ asked_primary 1 6 = true.
Proof. by vm_compute. Qed.

End BrokerServerSample.
